(* ===== verification/_CoqProject ===== *)
-Q . S2P
Prelude.v
Ordering.v
Sums.v
Types.v
Dag.v
Ghostdag.v
GhostdagProps.v
Daa.v
Finality.v
Store.v
Utxo.v
UtxoProps.v
Supply.v
Accounts.v
Staking.v
StakingProps.v
Rewards.v
Lanes.v
LanesProps.v
FinalityAdmit.v
FinalityProps.v
Reorg.v
ReorgProps.v
Objects.v
Policy.v
Escrow.v
EscrowProps.v
Check.v
CheckProps.v
Channel.v
ChannelProps.v
Authority.v
AuthorityProps.v
Trust.v
TrustProps.v
TrustSafety.v
Offer.v
OfferProps.v
OfferView.v
OfferInv.v
OfferRun.v
OfferCommit.v
OfferSafety.v
TltScript.v
TltScriptProps.v
Covenant.v
CovenantProps.v
CovenantSafety.v
Payment.v
PaymentProps.v
Envelopes.v
Mempool.v
MempoolProps.v
MempoolRun.v
MempoolBlock.v
MempoolPersist.v
MempoolExamples.v
Treasury.v
TreasuryProps.v
TreasuryRun.v
BlockZero.v
BlockZeroProps.v
Governance.v
GovernanceProps.v
Admit.v
AdmitProps.v
TltLedger.v
AdmitExamples.v
AdmitRestart.v
AdmitTemplate.v
