(* ===== verification/Prelude.v ===== *)
(** * Agora Trident L1: a verified model of the consensus and ledger core

    Agora Trident ([src/core]) is a proof-of-work block DAG with three native
    assets: TLT (mined, UTXO), OVL and DRC (accounts and staking).  Blocks are
    ordered by GHOSTDAG; two independent validator sets, one staked in OVL and
    one in DRC, finalize checkpoints on top of proof of work.

    ** Parts and how they interact

    - A block enters the DAG ([consensus/src/dag.rs]) and is coloured
      ([ghostdag.rs]); its difficulty follows from the window of its selected
      parent's spine ([daa.rs]) and its reward from its blue score
      ([emission.rs]).
    - The node ([node-bin/src/admit]) picks the virtual tip, takes the tip's
      blues in order and applies the blocks not applied yet
      ([state-machine/src/apply.rs]), after undoing the abandoned ones with
      their journals.  The reorg guard stands before that.
    - Applying a block runs its lanes against an overlay of the store; the
      account, ticket and stake operations ([accounts/mod.rs],
      [drc_ticket.rs], [staking/mod.rs]) write batches of typed records and
      settle fees through the supply counters ([supply.rs]).
    - Transactions wait in the mempool ([p2p/src/mempool.rs] and its lanes),
      which reserves what they spend, feeds block templates and is cleaned after
      every block.
    - Validators attest checkpoints; the node turns votes into certificates
      ([consensus/src/finality.rs], [quorum.rs], [finality_store.rs]), punishes
      equivocation ([evidence.rs], [apply_evidence]) and moves the finalized
      frontier that the reorg guard reads.

    ** Files

    - [Prelude]: machine integers ([checked_], [saturating_], truncating casts),
      the error monad with [let?] and [;?], the loop [rfold], automation.
    - [Ordering]: comparators, insertion sort and [max_by], with the laws the
      deterministic orders need.  [Sums]: sums over lists and finite maps.
    - [Types]: hashes and addresses (the integer their bytes spell, which orders
      them as the bytes do), assets.
    - [Dag]: [dag.rs].  Insertion, tips, removal, past and anticone; the two
      searches are shown correct for the ancestor relation.
    - [Ghostdag], [GhostdagProps]: [ghostdag.rs].  The colouring of a block, the
      order of a tip's past, the virtual tip, snapshots; the colouring is a
      function of the block's past, not of the arrival order.
    - [Daa]: [daa.rs], [emission.rs].
    - [Finality]: [quorum.rs], [finality.rs], [evidence.rs], the certificate and
      its step relation, the attestation index.
    - [Store]: the typed records behind the byte keys of the Meta column family,
      write batches as lists of writes, and undo logs: a coarser equivalence of
      stores under which restored records agree.  The byte keys are shown
      injective, so that typed records do not collide.
    - [Utxo], [UtxoProps]: the TLT lane of [apply.rs]: selection, coinbase and
      transfers of a block, its journal and reversal, mempool validation.
    - [TltScript], [TltScriptProps]: [tlt_script.rs]: the script machine that
      locks TLT, its templates (address, multisig, hash-time lock, script hash)
      and what opens each of them.
    - [Covenant], [CovenantProps], [CovenantSafety]: [tlt_covenant.rs] and the
      TLT part of [apply_block_batched_mode] ([apply_tlt_block]): outputs locked
      by scripts beside the address outputs.
    - [Supply]: [monetary.rs], [supply.rs]: caps, burns, ignition, migration.
    - [Accounts]: [accounts/mod.rs], [drc_ticket.rs], [drc_sequence.rs].
    - [Staking], [StakingProps], [Rewards]: [staking/mod.rs]; conservation of
      holdings by every operation, accountable safety, reward distribution.
    - [Lanes], [LanesProps]: the ticket, transfer and stake lanes of
      [apply_trident_lanes], their journal and its reversal.
    - [FinalityAdmit], [FinalityProps]: [admit/finality.rs],
      [finality_store.rs]: the reorg guard and the admission of attestations.
    - [Objects]: what the typed DRC objects share: sequences, owner indices,
      settled markers and receipts ([Book]), and the life of an object
      (absent, live, settled) that the three lanes below refine.
    - [Policy]: [drc_policy.rs], [drc_deposit_preauth.rs]: account policies and
      deposit preauthorization.
    - [Escrow], [EscrowProps]: [drc_escrow.rs].  [Check], [CheckProps]:
      [drc_check.rs].  [Channel], [ChannelProps]: [drc_payment_channel.rs].
    - [Authority], [AuthorityProps]: [drc_account_auth.rs],
      [drc_master_key_recovery.rs], [drc_regular_key.rs], [drc_signer_list.rs]
      and their parts in [crypto]: who may act for an account, and the guards
      against locking oneself out.
    - [Trust], [TrustProps], [TrustSafety]: [drc_trust_line.rs],
      [drc_issued_controls.rs]: issued assets, the lines on which holders keep
      them, and what their issuers control; the invariant of the records
      ([trust_ok]), its preservation, and the safety theorems.
    - [Offer]: [drc_offer.rs], the order book.  An operation works on a set of
      cached records ([Working], a state monad [W]) that is flushed at the end.
      [OfferProps]: rates and priority.  [OfferView]: the working set seen as
      one ledger ([View], [rep]), which every read and write of the working set
      refines.  [OfferInv]: value is conserved in that view.  [OfferRun]: the
      loops of an offer.  [OfferCommit]: what the flush writes.  [OfferSafety]:
      the theorems on the stored ledger.
    - [Payment], [PaymentProps]: [payments/mod.rs], [types/src/payment.rs]:
      merchant payments with invoices, receipts and the outbox.
    - [Envelopes]: the envelopes only the mempool reads (OVL calls, data
      commitments, passports, registrations, treasury and vesting claims).
    - [Mempool]: [p2p/src/mempool.rs], its lane files and [mempool_persist.rs].
      The thirty-five lane maps are one map keyed by lane and id, the sets and
      maps of reservations one set of marks and one map of claims; operations are
      computations in a state-and-error monad ([Pool]), since a rejected call may
      have changed the pool.  [MempoolProps]: the invariant of the TLT part
      ([tlt_ok]), replacement, the fee market and templates.  [MempoolRun]: what
      each lane operation may change ([Shr], [Adm]), and any run.
      [MempoolBlock]: eviction by a block.  [MempoolPersist]: the snapshot.
      [MempoolExamples]: concrete pools.
    - [Treasury], [TreasuryProps], [TreasuryRun]: [governance_state.rs] and its
      two lanes of [apply.rs]: protocol treasuries and vesting.  Histories
      ([GovEvent]) are accepted operations with anything the other lanes do
      between them.
    - [BlockZero], [BlockZeroProps]: [block_zero.rs], [block_zero_live.rs]: the
      checks of the genesis manifest and the live state written from it.
    - [Governance], [GovernanceProps]: the civic engine of [governance/src]: vote
      weights, offices, proposals; a run is any sequence of calls ([GovAct]) and of
      resets of the eligible power, as [node-bin/src/backend.rs] makes before
      every call; what was true when a vote was counted or a timelock entered is
      stated of the states the run [visited].
    - [Reorg], [ReorgProps]: [admit/mod.rs]: moving the ledger from one virtual
      tip to another, rollback and crash recovery, over a ledger interface
      ([Ledger], with its laws [LedgerLaws]).
    - [Admit]: [admit/mod.rs] over the components above: the node's state
      ([Chain]: store, indexes, DAG, colouring, difficulty) and its operations:
      the admission of a block with every check, the overlay proof, the durable
      write, the reorg and what follows; block templates; locators and headers
      for peers; the rebuild at restart.  [AdmitProps]: the invariant of a node
      ([chain_inv]), one admission, runs.  [AdmitRestart]: the rebuild.
      [AdmitTemplate]: templates.
    - [TltLedger]: the transfer and covenant lanes ([apply_tlt_block] in the
      virtual mode and the reversal of its journal) as the ledger of the two
      parts above ([tlt_ledger]), with the laws proved ([tlt_ledger_laws]); so the
      theorems on reorgs, crash recovery, admission and convergence assume no law
      of the ledger, and speak of blocks of transfers and covenants.
      [AdmitExamples]: concrete stores and nodes.

    ** What the theorems show

    - Order: DAG searches, colouring, virtual tip and blue order are total and
      deterministic, independent of arrival order, and respect the greedy
      k-cluster rule of GHOSTDAG.
    - Money: every fee, burn, transfer, stake operation, slash and epoch change
      conserves what it must, within the caps; batches never replay a
      sequence number or a ticket in the ticket, transfer and stake lanes, whose
      journal leaves every balance as it was.  A block of transfers and
      covenants in the virtual mode creates TLT only as subsidy,
      its journal restores it, and no output leaves unless its lock is opened.
    - Scripts: each template is opened by exactly what it names; every turn of the
      machine ([Machine], [turn]) stays within the limits of stack, items,
      branches and operations.
    - DRC objects: escrows, checks and channels conserve DRC up to their fees,
      live once, and never leave funds stuck; a claim pays only what the claim
      key signed.
    - Issued assets: what an issuer owes is what holders have, and what offers
      reserve is there; outside the order book balances fall only by
      consent, freezes respect the issuer's own promises, holders can redeem.
    - Order book: the crossing loop tries offers by price then time, fills are exact, no
      offer pays worse than its rate but for rounding, offers rest and are
      withdrawn as asked.  Conservation and price hold while no step fills an
      offer of the submitter's own ([no_self_trade]), which the code does not
      fully exclude: such a fill mints (see the findings).
    - Payments: each moves exactly its amount, under the recipient's policy, and
      pays an invoice once.
    - Mempool: in any run reservations match residents and the size bound holds;
      replacement needs consent and a higher fee, templates take the best payers,
      a block evicts what it made stale, a restart restores the TLT residents.
    - Treasuries and vesting: spends only by the controller, in nonce order;
      schedules pay what has vested and can be claimed in full; the lanes
      conserve value whatever lanes ran before them, and their part of the
      journal undoes them unless an earlier lane journaled an account they pay.
      Block 0 writes a state worth its supply buckets, except for vested TLT and
      for schedules listed twice (see the findings).
    - Civic governance: vote weight is the capped square root; tallies count
      distinct ballots; an amendment has the assent of the Basileus or of two
      archons; offices and the constitution change only by a passed and
      matured vote; a settled proposal stays settled.  Balances, supply and slots
      are what the caller states, as in the code.
    - Authority: authorization accepts exactly the account's control structure,
      and no run of control operations removes the last way in, if the regular
      keys a bundle of signers installs are addresses of keys (unchecked by the
      code).
    - Reorgs: from a store synced to a tip, a reorg either reaches the store
      synced to the new tip or rolls back; an interrupted one is finished, if no
      undone block was applied again.  For blocks of transfers and covenants: the
      journals of full blocks do not always undo them (see the findings).
    - The node: a block is admitted whole or not at all; nodes that hold the
      same blocks hold the same ledger, whatever the order they came in, both for
      blocks of transfers and covenants; a
      restart restores the DAG and its colouring; a node accepts the blocks it
      makes.  The first two are stated for a node that archives bodies, as
      consensus networks force, since a pruned node can lack a body it must apply.
    - Finality: certificates are final exactly on PoW and both quorums; two
      conflicting quorums, each of its own snapshot, expose a third of the stake
      less what the set changed in between; the reorg guard protects
      the finalized frontier; equivocation is punished once and for all.
    - Findings: theorems marked (finding) are concrete histories, run by the
      model, in which the code departs from its intent.

    ** Bounds and conventions

    - Integers are [Z] with their width explicit; where Rust would wrap, the
      model wraps.  Loops without structural recursion take fuel: breadth-first
      search runs [bfs_fuel] steps (one per edge and block), colouring recurses
      at most as deep as the DAG has blocks, the retarget loops run
      [max_adjustment_bits] times; totality is proved where the result is used.
      Walks along selected parents have a step per block ([spine_fuel]), the
      searches of the pruner and the rebuild one per parent link and tip
      ([prune_fuel], [gather_fuel]), and the rebuild a round per block; the
      rebuild is proved to end within them.
    - The square root of a vote weight has fuel for 66 Newton steps ([isqrt_fuel]);
      each halves the distance to the root, so that a u64 never needs more.
    - An operation of the source that mutates a batch takes and returns it; one
      that can fail returns [result].  Errors carry the literal part of their
      message; rendered numbers and hashes are left out.
    - Records are stored typed: encoding and decoding (borsh) and storage
      failures are not modelled.

    ** Parameters

    Hash functions, signature verification and signing bytes, and
    [compose_trident_state_root] are arguments of the definitions that use
    them; theorems hold for all of them, some under the hypothesis that ids do
    not collide, which is then stated.  The lanes take the authorization
    check of their envelope as an argument too; [Authority] models it.

    ** Not modelled

    Bootstrap, schema migrations and the environment settings of the node,
    networking ([p2p] except the mempool), RPC, the desktop and mobile apps, the rollup, bridge,
    community registrations, intent and layer runtimes, the OVL EVM,
    ledger-object queries, the RandomX and kHeavyHash functions, storage backends
    and byte encodings. *)

From stdpp Require Import base gmap sets list sorting fin_maps.
From Stdlib Require Import ZArith Lia.

Local Open Scope Z_scope.

(** ** Machine integers

    Rust's unsigned integers are non-negative [Z] below a power of two.
    The arithmetic the source uses is written out: [checked_*] returns [None]
    outside the range, [saturating_*] clamps, and an [as] cast truncates. *)

Definition u16_max : Z := 65535.
Definition u32_max : Z := 4294967295.
Definition u64_max : Z := 18446744073709551615.
Definition u128_max : Z := 340282366920938463463374607431768211455.

Definition in_u64 (x : Z) : Prop := 0 <= x <= u64_max.
Definition in_u128 (x : Z) : Prop := 0 <= x <= u128_max.

Definition checked_add (max a b : Z) : option Z :=
  if a + b <=? max then Some (a + b) else None.
Definition checked_sub (a b : Z) : option Z :=
  if b <=? a then Some (a - b) else None.
Definition saturating_add (max a b : Z) : Z := Z.min max (a + b).
Definition saturating_mul (max a b : Z) : Z := Z.min max (a * b).
Definition saturating_sub (a b : Z) : Z := Z.max 0 (a - b).
(** [x as u64], [x as u32] and [x as u16] on a non-negative wider integer. *)
Definition as_u64 (x : Z) : Z := x mod (u64_max + 1).
Definition as_u16 (x : Z) : Z := x mod (u16_max + 1).
Definition as_u32 (x : Z) : Z := x mod (u32_max + 1).
(** [Ord::clamp], for [lo <= hi]. *)
Definition clamp (lo hi x : Z) : Z := if x <? lo then lo else if hi <? x then hi else x.

Ltac unfold_ints :=
  unfold in_u64, in_u128, checked_add, checked_sub, saturating_add, saturating_mul,
    saturating_sub, as_u64, as_u32, as_u16, clamp, u16_max, u32_max, u64_max, u128_max in *.

Lemma checked_add_Some max a b c :
  checked_add max a b = Some c <-> c = a + b /\ a + b <= max.
Proof.
  unfold checked_add. destruct (Z.leb_spec (a + b) max); split; intros H'.
  - by simplify_eq.
  - by destruct H' as [-> _].
  - done.
  - lia.
Qed.

Lemma checked_sub_Some a b c :
  checked_sub a b = Some c <-> c = a - b /\ b <= a.
Proof.
  unfold checked_sub. destruct (Z.leb_spec b a); split; intros H'.
  - by simplify_eq.
  - by destruct H' as [-> _].
  - done.
  - lia.
Qed.

Lemma saturating_add_exact max a b : a + b <= max -> saturating_add max a b = a + b.
Proof. unfold saturating_add. lia. Qed.
Lemma saturating_sub_exact a b : b <= a -> saturating_sub a b = a - b.
Proof. unfold saturating_sub. lia. Qed.
Lemma as_u64_small x : in_u64 x -> as_u64 x = x.
Proof. intros ?. unfold as_u64. apply Z.mod_small. unfold in_u64 in *. lia. Qed.
Lemma as_u16_small x : 0 <= x <= u16_max -> as_u16 x = x.
Proof. intros ?. unfold as_u16. apply Z.mod_small. lia. Qed.
Lemma clamp_bounds lo hi x : lo <= hi -> lo <= clamp lo hi x <= hi.
Proof. unfold clamp. repeat case_match; lia. Qed.
Lemma clamp_id lo hi x : lo <= x <= hi -> clamp lo hi x = x.
Proof. unfold clamp. repeat case_match; lia. Qed.

(** Rewriting steps for machine arithmetic that stays in range. *)
Create Rewrite HintDb agora_ints.
#[export] Hint Rewrite saturating_add_exact saturating_sub_exact as_u64_small as_u16_small
  using (unfold_ints; lia) : agora_ints.
Ltac ints := autorewrite with agora_ints.

(** ** Results

    Rust's [Result<A, E>] and the [?] operator. *)

Inductive result (E A : Type) :=
| Ok (a : A)
| Err (e : E).
Arguments Ok {_ _} _.
Arguments Err {_ _} _.

Definition rbind {E A B} (m : result E A) (k : A -> result E B) : result E B :=
  match m with Ok a => k a | Err e => Err e end.
Definition ok_or {E A} (e : E) (o : option A) : result E A :=
  match o with Some a => Ok a | None => Err e end.
(** [if bad { return Err(e) }]. *)
Definition ensure {E} (good : bool) (e : E) : result E unit :=
  if good then Ok tt else Err e.
Definition is_ok {E A} (r : result E A) : bool :=
  match r with Ok _ => true | Err _ => false end.

Declare Scope agora_scope.
Delimit Scope agora_scope with agora.
Notation "'let?' x := e 'in' k" := (rbind e (fun x => k))
  (at level 10, x pattern, e at level 200, k at level 200) : agora_scope.
Notation "e ';?' k" := (rbind e (fun _ => k))
  (at level 199, k at level 200) : agora_scope.
#[global] Open Scope agora_scope.

(** A [for] loop whose body may return early with an error. *)
Fixpoint rfold {E A B} (f : B -> A -> result E B) (b : B) (l : list A) : result E B :=
  match l with
  | [] => Ok b
  | x :: l' => let? b' := f b x in rfold f b' l'
  end.

Lemma rbind_Ok {E A B} (m : result E A) (k : A -> result E B) b :
  rbind m k = Ok b <-> exists a, m = Ok a /\ k a = Ok b.
Proof.
  destruct m; simpl; split.
  - intros Hk. by exists a.
  - by intros (a' & [= ->] & ?).
  - done.
  - by intros (a' & ? & _).
Qed.
Lemma rbind_Err {E A B} (m : result E A) (k : A -> result E B) e :
  rbind m k = Err e <-> m = Err e \/ exists a, m = Ok a /\ k a = Err e.
Proof.
  destruct m; simpl; split.
  - intros Hk. right. by exists a.
  - by intros [|(a' & [= ->] & ?)].
  - intros Hk. left. by simplify_eq.
  - by intros [[= ->]|(a' & ? & _)].
Qed.
Lemma ok_or_Ok {E A} (e : E) (o : option A) a : ok_or e o = Ok a <-> o = Some a.
Proof. destruct o; simpl; naive_solver. Qed.
Lemma Ok_inj {E A} (a b : A) : @Ok E A a = Ok b -> a = b.
Proof. by intros [= ->]. Qed.
Lemma ensure_Ok {E} g (e : E) u : ensure g e = Ok u <-> g = true.
Proof. destruct g, u; simpl; naive_solver. Qed.

(** [inv_ok] takes apart a hypothesis saying that a fallible computation
    returned [Ok]: one hypothesis per guard and per call. *)
Ltac inv_ok_step :=
  match goal with
  | H : rbind _ _ = Ok _ |- _ =>
      apply rbind_Ok in H;
      let a := fresh "a" in let H1 := fresh "H" in let H2 := fresh "H" in
      destruct H as (a & H1 & H2)
  | H : ok_or _ _ = Ok _ |- _ => apply ok_or_Ok in H
  | H : ensure _ _ = Ok _ |- _ => apply ensure_Ok in H
  | H : Ok _ = Ok _ |- _ => injection H as H
  | H : Err _ = Ok _ |- _ => discriminate H
  | H : Ok _ = Err _ |- _ => discriminate H
  | H : checked_add _ _ _ = Some _ |- _ =>
      apply checked_add_Some in H; destruct H
  | H : checked_sub _ _ = Some _ |- _ =>
      apply checked_sub_Some in H; destruct H
  end.
Ltac inv_ok := repeat (inv_ok_step; simpl in *).

Lemma NoDup_rev {A} (l : list A) : NoDup l -> NoDup (reverse l).
Proof. by rewrite reverse_Permutation. Qed.
Lemma rfold_app {E A B} (f : B -> A -> result E B) b l1 l2 :
  rfold f b (l1 ++ l2) = (let? b' := rfold f b l1 in rfold f b' l2).
Proof. revert b. induction l1 as [|x l1 IH]; intros b; simpl; [done|]. destruct (f b x); simpl; auto. Qed.
Lemma rfold_ext {E A B} (f g : B -> A -> result E B) (P : B -> Prop) b l :
  P b ->
  (forall b x, P b -> x ∈ l -> f b x = g b x) ->
  (forall b x b', P b -> x ∈ l -> f b x = Ok b' -> P b') ->
  rfold f b l = rfold g b l.
Proof.
  revert b. induction l as [|x l IH]; intros b Hb Hfg HP; simpl; [done|].
  rewrite <- Hfg by (done || left). destruct (f b x) as [b'|e] eqn:E'; simpl; [|done].
  apply IH.
  - eapply HP; [done|left|done].
  - intros b0 y Hb0 Hy. apply Hfg; [done|by right].
  - intros b0 y b0' Hb0 Hy. apply HP; [done|by right].
Qed.

(** An invariant of a [for] loop. *)
Lemma rfold_inv {E A B} (f : B -> A -> result E B) (P : B -> Prop) b l b' :
  P b -> (forall b x b', P b -> x ∈ l -> f b x = Ok b' -> P b') -> rfold f b l = Ok b' -> P b'.
Proof.
  revert b. induction l as [|x l IH]; intros b Hb Hf H; simpl in H; [by injection H as <-|].
  apply rbind_Ok in H as (b1 & H1 & H). eapply IH; [|intros; eapply Hf; [done|by right|done]|exact H].
  eapply Hf; [done|left|done].
Qed.
