(* ===== verification/Ordering.v ===== *)
(** * Comparators, sorting and maxima

    Rust orders values with comparators [Fn(&A, &A) -> Ordering] built from
    [cmp] and [then_with], and consumes them with [sort_by] (a stable sort) and
    [max_by] (the last of the maximal elements).  This file models these and
    proves what the components need: a sort is a sorted permutation, and when
    the comparator separates distinct values neither the sort nor the maximum
    depends on the order in which a [HashSet] or a caller lists the values. *)

From stdpp Require Import base list sorting sets.
From Stdlib Require Import ZArith Lia.
From S2P Require Import Prelude.
Local Open Scope Z_scope.

Definition then_with (c1 c2 : comparison) : comparison :=
  match c1 with Eq => c2 | _ => c1 end.
(** [bool::cmp]: [false < true]. *)
Definition bool_cmp (a b : bool) : comparison :=
  match a, b with
  | false, true => Lt
  | true, false => Gt
  | _, _ => Eq
  end.
Definition cmp_leb {A} (cmp : A -> A -> comparison) (a b : A) : bool :=
  match cmp a b with Gt => false | _ => true end.
Definition cmp_le {A} (cmp : A -> A -> comparison) (a b : A) : Prop := cmp a b <> Gt.

(** A comparator that is a total preorder. *)
Class TotalCmp {A} (cmp : A -> A -> comparison) : Prop := {
  cmp_opp a b : cmp b a = CompOpp (cmp a b);
  cmp_trans_le a b c : cmp a b <> Gt -> cmp b c <> Gt -> cmp a c <> Gt;
}.
(** ... in which only equal values tie. *)
Class StrictCmp {A} (cmp : A -> A -> comparison) : Prop := {
  strict_total :: TotalCmp cmp;
  cmp_eq a b : cmp a b = Eq -> a = b;
}.

Arguments cmp_opp {A} cmp {_} a b.
Arguments cmp_trans_le {A} cmp {_} a b c _ _.
Arguments cmp_eq {A} cmp {_} a b _.

#[export] Instance Zcompare_strict : StrictCmp Z.compare.
Proof.
  split; [split|].
  - intros a b. apply Z.compare_antisym.
  - intros a b c. change (a <= b -> b <= c -> a <= c). lia.
  - apply Z.compare_eq.
Qed.
#[export] Instance bool_cmp_strict : StrictCmp bool_cmp.
Proof.
  split; [split|].
  - by intros [] [].
  - intros [] [] []; simpl; congruence.
  - by intros [] [].
Qed.

Section cmp_combinators.
Context {A B : Type}.

Lemma on_total (f : A -> B) cmp :
  TotalCmp cmp -> TotalCmp (fun x y => cmp (f x) (f y)).
Proof.
  intros [Ho Ht]. split; intros; [apply Ho|]. by apply (Ht (f a) (f b) (f c)).
Qed.
Lemma flip_total (cmp : A -> A -> comparison) :
  TotalCmp cmp -> TotalCmp (fun x y => cmp y x).
Proof. intros [Ho Ht]. split; intros; [apply Ho|]. by apply (Ht c b a). Qed.
Lemma then_total (c1 c2 : A -> A -> comparison) :
  TotalCmp c1 -> TotalCmp c2 -> TotalCmp (fun x y => then_with (c1 x y) (c2 x y)).
Proof.
  intros [Ho1 Ht1] [Ho2 Ht2]. split.
  - intros a b. rewrite (Ho1 a b), (Ho2 a b). by destruct (c1 a b).
  - intros a b c Hab Hbc.
    assert (c1 a b <> Gt) as Nab by (by intros E; rewrite E in Hab).
    assert (c1 b c <> Gt) as Nbc by (by intros E; rewrite E in Hbc).
    pose proof (Ht1 _ _ _ Nab Nbc) as Nac.
    destruct (c1 a c) eqn:Eac; simpl; [|done|done].
    assert (c1 c a <> Gt) as Nca by (by rewrite (Ho1 a c), Eac).
    assert (c1 a b = Eq) as Eab.
    { pose proof (Ht1 _ _ _ Nbc Nca) as Nba. rewrite (Ho1 a b) in Nba.
      by destruct (c1 a b). }
    assert (c1 b c = Eq) as Ebc.
    { pose proof (Ht1 _ _ _ Nca Nab) as Ncb. rewrite (Ho1 b c) in Ncb.
      by destruct (c1 b c). }
    rewrite Eab in Hab. rewrite Ebc in Hbc. simpl in *. by apply (Ht2 a b c).
Qed.
End cmp_combinators.

(** Adding a separating comparator as the last tie-break separates. *)
Lemma then_strict {A} (c1 c2 : A -> A -> comparison) :
  TotalCmp c1 -> StrictCmp c2 -> StrictCmp (fun x y => then_with (c1 x y) (c2 x y)).
Proof.
  intros T1 [T2 E2]. split; [by apply then_total|].
  intros a b. unfold then_with. destruct (c1 a b); try done. apply E2.
Qed.

(** ** Stable sort *)

Fixpoint insert_by {A} (cmp : A -> A -> comparison) (x : A) (l : list A) : list A :=
  match l with
  | [] => [x]
  | y :: l' => if cmp_leb cmp x y then x :: l else y :: insert_by cmp x l'
  end.
Definition sort_by {A} (cmp : A -> A -> comparison) (l : list A) : list A :=
  foldr (insert_by cmp) [] l.

Section sort.
Context {A : Type} (cmp : A -> A -> comparison).

Lemma insert_by_perm x l : insert_by cmp x l ≡ₚ x :: l.
Proof.
  induction l as [|y l IH]; simpl; [done|].
  case_match; [done|]. rewrite IH. apply Permutation_swap.
Qed.
Lemma sort_by_perm l : sort_by cmp l ≡ₚ l.
Proof.
  induction l as [|x l IH]; simpl; [done|]. by rewrite insert_by_perm, IH.
Qed.
Lemma elem_of_sort_by x l : x ∈ sort_by cmp l <-> x ∈ l.
Proof. by rewrite sort_by_perm. Qed.
Lemma length_sort_by l : length (sort_by cmp l) = length l.
Proof. by rewrite sort_by_perm. Qed.
Lemma NoDup_sort_by l : NoDup l -> NoDup (sort_by cmp l).
Proof. by rewrite sort_by_perm. Qed.

Context `{!TotalCmp cmp}.

Lemma cmp_le_refl a : cmp_le cmp a a.
Proof. unfold cmp_le. pose proof (cmp_opp cmp a a). by destruct (cmp a a). Qed.
Lemma cmp_leb_spec a b : reflect (cmp_le cmp a b) (cmp_leb cmp a b).
Proof. unfold cmp_leb, cmp_le. by destruct (cmp a b); constructor; auto. Qed.
Lemma cmp_le_total a b : cmp_leb cmp a b = false -> cmp_le cmp b a.
Proof.
  unfold cmp_leb, cmp_le. rewrite (cmp_opp cmp a b). by destruct (cmp a b).
Qed.

Lemma insert_by_sorted x l :
  StronglySorted (cmp_le cmp) l -> StronglySorted (cmp_le cmp) (insert_by cmp x l).
Proof.
  induction 1 as [|y l Hl IH Hy]; simpl; [by repeat constructor|].
  destruct (cmp_leb_spec x y) as [Hxy|Hxy].
  - constructor; [by constructor|]. constructor; [done|].
    eapply Forall_impl; [exact Hy|]. intros z Hyz. simpl in *.
    by eapply (cmp_trans_le cmp).
  - constructor; [done|]. rewrite insert_by_perm. constructor; [|done].
    apply cmp_le_total. by destruct (cmp_leb_spec x y).
Qed.
Lemma sort_by_sorted l : StronglySorted (cmp_le cmp) (sort_by cmp l).
Proof. induction l; simpl; [constructor|]. by apply insert_by_sorted. Qed.

(** Sorting a sorted list changes nothing. *)
Lemma sort_by_id l : StronglySorted (cmp_le cmp) l -> sort_by cmp l = l.
Proof.
  induction 1 as [|x l Hl IH Hx]; simpl; [done|]. rewrite IH.
  destruct l as [|y l]; simpl; [done|].
  destruct (cmp_leb_spec x y) as [|Hn]; [done|].
  destruct Hn. by inversion Hx.
Qed.
End sort.

(** Two sorted arrangements of one collection agree when only equal elements of it tie. *)
Lemma sorted_unique_on {A} (cmp : A -> A -> comparison) `{!TotalCmp cmp} l1 l2 :
  (forall x y, x ∈ l1 -> y ∈ l1 -> cmp x y = Eq -> x = y) ->
  StronglySorted (cmp_le cmp) l1 -> StronglySorted (cmp_le cmp) l2 -> l1 ≡ₚ l2 -> l1 = l2.
Proof.
  intros Ht H1. revert l2 Ht. induction H1 as [|x l1 Hl1 IH Hx]; intros l2 Ht H2 Hp.
  { symmetry. by apply Permutation_nil in Hp. }
  destruct H2 as [|y l2 Hl2 Hy]; [by symmetry in Hp; apply Permutation_nil_cons in Hp|].
  assert (x = y) as ->.
  { assert (x ∈ y :: l2) as Hx2 by (rewrite <- Hp; left).
    assert (y ∈ x :: l1) as Hy1 by (rewrite Hp; left). apply Ht; [left|done|].
    apply elem_of_cons in Hx2 as [->|Hx2]; [pose proof (cmp_opp cmp y y); by destruct (cmp y y)|].
    apply elem_of_cons in Hy1 as [->|Hy1]; [pose proof (cmp_opp cmp x x); by destruct (cmp x x)|].
    rewrite Forall_forall in Hx, Hy. pose proof (Hx y Hy1) as A1. pose proof (Hy x Hx2) as A2.
    unfold cmp_le in *. rewrite (cmp_opp cmp x y) in A2. by destruct (cmp x y). }
  f_equal. apply IH; [|done|by apply (Permutation_cons_inv (a := y))].
  intros z z' Hz Hz'. apply Ht; by right.
Qed.

Section strict_sort.
Context {A : Type} (cmp : A -> A -> comparison) `{!StrictCmp cmp}.

Lemma cmp_le_antisym a b : cmp_le cmp a b -> cmp_le cmp b a -> a = b.
Proof.
  unfold cmp_le. rewrite (cmp_opp cmp a b). intros H1 H2. apply (cmp_eq cmp).
  by destruct (cmp a b).
Qed.

Lemma sorted_unique l1 l2 :
  StronglySorted (cmp_le cmp) l1 -> StronglySorted (cmp_le cmp) l2 ->
  l1 ≡ₚ l2 -> l1 = l2.
Proof. intros. eapply sorted_unique_on; try done; [apply _|]. intros x y _ _. apply (cmp_eq cmp). Qed.

(** The sort of a collection does not depend on the order of iteration. *)
Lemma sort_by_perm_eq l1 l2 : l1 ≡ₚ l2 -> sort_by cmp l1 = sort_by cmp l2.
Proof.
  intros Hp. apply sorted_unique; try apply sort_by_sorted; try apply _.
  by rewrite !sort_by_perm.
Qed.
End strict_sort.

(** ** Maximum: [Iterator::max_by] keeps the later of two equal elements. *)

Definition max_step {A} (cmp : A -> A -> comparison) (acc x : A) : A :=
  match cmp acc x with Gt => acc | _ => x end.
Definition max_by {A} (cmp : A -> A -> comparison) (l : list A) : option A :=
  match l with
  | [] => None
  | x :: l' => Some (foldl (max_step cmp) x l')
  end.

Section max.
Context {A : Type} (cmp : A -> A -> comparison) `{!TotalCmp cmp}.

Lemma max_step_le_l a x : cmp_le cmp a (max_step cmp a x).
Proof.
  unfold max_step. destruct (cmp a x) eqn:E; unfold cmp_le; try congruence.
  apply cmp_le_refl; apply _.
Qed.
Lemma max_step_le_r a x : cmp_le cmp x (max_step cmp a x).
Proof.
  unfold max_step. destruct (cmp a x) eqn:E; try (apply cmp_le_refl; apply _).
  unfold cmp_le. by rewrite (cmp_opp cmp a x), E.
Qed.
Lemma max_foldl_spec x l :
  foldl (max_step cmp) x l ∈ x :: l /\
  forall y, y ∈ x :: l -> cmp_le cmp y (foldl (max_step cmp) x l).
Proof.
  revert x. induction l as [|z l IH]; intros x; simpl.
  - split; [left|]. intros y ->%list_elem_of_singleton. apply cmp_le_refl; apply _.
  - destruct (IH (max_step cmp x z)) as [Hin Hmax]. split.
    + apply elem_of_cons in Hin as [Hin|Hin]; [|by do 2 right].
      rewrite Hin. unfold max_step. case_match; [right; left|right; left|left].
    + intros y Hy.
      assert (cmp_le cmp (max_step cmp x z) (foldl (max_step cmp) (max_step cmp x z) l))
        as Hstep by (apply Hmax; left).
      apply elem_of_cons in Hy as [->|[->|Hy]%elem_of_cons].
      * eapply (cmp_trans_le cmp); [apply max_step_le_l|done].
      * eapply (cmp_trans_le cmp); [apply max_step_le_r|done].
      * apply Hmax. by right.
Qed.
Lemma max_by_Some l m :
  max_by cmp l = Some m -> m ∈ l /\ forall y, y ∈ l -> cmp_le cmp y m.
Proof. destruct l as [|x l]; simpl; [done|]. intros [= <-]. apply max_foldl_spec. Qed.
Lemma max_by_is_Some l : l <> [] -> is_Some (max_by cmp l).
Proof. destruct l; [done|]. by eexists. Qed.
End max.

(** The maximum does not depend on the order or multiplicity of the candidates. *)
Lemma max_by_set_eq {A} (cmp : A -> A -> comparison) `{!StrictCmp cmp} l1 l2 :
  (forall x, x ∈ l1 <-> x ∈ l2) -> max_by cmp l1 = max_by cmp l2.
Proof.
  intros Heq.
  destruct (max_by cmp l1) as [m1|] eqn:E1, (max_by cmp l2) as [m2|] eqn:E2.
  - apply max_by_Some in E1 as [? ?], E2 as [? ?]; try apply _.
    f_equal. apply (cmp_le_antisym cmp); set_solver.
  - destruct l2; [|done]. apply max_by_Some in E1 as [? ?]; [|apply _]. set_solver.
  - destruct l1; [|done]. apply max_by_Some in E2 as [? ?]; [|apply _]. set_solver.
  - done.
Qed.

(** Only the comparisons between listed elements matter. *)
Section cmp_ext.
Context {A : Type} (c1 c2 : A -> A -> comparison).

Lemma insert_by_ext x l :
  (forall y, y ∈ l -> c1 x y = c2 x y) -> insert_by c1 x l = insert_by c2 x l.
Proof.
  induction l as [|y l IH]; intros Hc; simpl; [done|].
  unfold cmp_leb. rewrite (Hc y) by left. rewrite IH; [done|].
  intros z Hz. apply Hc. by right.
Qed.
Lemma sort_by_ext l :
  (forall x y, x ∈ l -> y ∈ l -> c1 x y = c2 x y) -> sort_by c1 l = sort_by c2 l.
Proof.
  induction l as [|x l IH]; intros Hc; simpl; [done|].
  rewrite IH by (intros; apply Hc; by right).
  apply insert_by_ext. intros y Hy%elem_of_sort_by. apply Hc; [left|by right].
Qed.
Lemma max_foldl_ext x l :
  (forall a b, a ∈ x :: l -> b ∈ x :: l -> c1 a b = c2 a b) ->
  foldl (max_step c1) x l = foldl (max_step c2) x l.
Proof.
  revert x. induction l as [|y l IH]; intros x Hc; simpl; [done|].
  unfold max_step at 2 4. rewrite (Hc x y) by set_solver.
  apply IH. intros a b Ha Hb. apply Hc; case_match; set_solver.
Qed.
Lemma max_by_ext l :
  (forall a b, a ∈ l -> b ∈ l -> c1 a b = c2 a b) -> max_by c1 l = max_by c2 l.
Proof. destruct l as [|x l]; intros Hc; simpl; [done|]. f_equal. by apply max_foldl_ext. Qed.
End cmp_ext.

Lemma sorted_filter {A} (R : relation A) (P : A -> Prop) `{!forall x, Decision (P x)} (l : list A) :
  StronglySorted R l -> StronglySorted R (filter P l).
Proof.
  induction 1 as [|x l Hl IH Hx]; [constructor|]. rewrite filter_cons. case_decide; [|done].
  constructor; [done|]. rewrite Forall_forall in *.
  intros y [_ Hy]%list_elem_of_filter. by apply Hx.
Qed.
