(* ===== verification/Sums.v ===== *)
(** * Sums over lists and finite maps

    Conservation properties compare totals before and after an update of a
    finite map.  [msum f m] adds [f k v] over the bindings of [m]; the lemmas
    give its value after an insertion, a deletion and a change of summand.
    [nsum] is the same sum in [nat], used as a termination measure. *)

From stdpp Require Import base gmap fin_maps list.
From Stdlib Require Import ZArith Lia.
From S2P Require Import Prelude.
Local Open Scope Z_scope.

Definition zsum (l : list Z) : Z := foldr Z.add 0 l.

Lemma zsum_cons x l : zsum (x :: l) = x + zsum l.
Proof. done. Qed.
Lemma zsum_app l1 l2 : zsum (l1 ++ l2) = zsum l1 + zsum l2.
Proof. induction l1; simpl; lia. Qed.
Lemma zsum_nonneg l : Forall (fun x => 0 <= x) l -> 0 <= zsum l.
Proof. induction 1; simpl; lia. Qed.
Lemma zsum_perm l1 l2 : l1 ≡ₚ l2 -> zsum l1 = zsum l2.
Proof. induction 1; simpl; lia. Qed.
Lemma zsum_elem_le x l : Forall (fun x => 0 <= x) l -> x ∈ l -> x <= zsum l.
Proof.
  induction 1 as [|y l Hy Hl IH]; intros Hin; [by apply elem_of_nil in Hin|].
  pose proof (zsum_nonneg l Hl).
  apply elem_of_cons in Hin as [->|Hin]; simpl; [lia|]. specialize (IH Hin). lia.
Qed.

Section msum.
Context {K V : Type} `{Countable K}.
Implicit Types (m : gmap K V) (f : K -> V -> Z).

Definition msum f m : Z := map_fold (fun k v acc => f k v + acc) 0 m.
Definition nsum (f : K -> V -> nat) m : nat :=
  map_fold (fun k v acc => f k v + acc)%nat 0%nat m.

Lemma msum_empty f : msum f ∅ = 0.
Proof. apply map_fold_empty. Qed.
Lemma msum_insert_new f k v m :
  m !! k = None -> msum f (<[k := v]> m) = f k v + msum f m.
Proof. intros Hk. unfold msum. rewrite map_fold_insert_L; [done|intros; lia|done]. Qed.
Lemma msum_delete f k v m :
  m !! k = Some v -> msum f m = f k v + msum f (delete k m).
Proof. intros Hk. unfold msum. rewrite (map_fold_delete_L _ _ k v m); [done|intros; lia|done]. Qed.
Lemma msum_delete_eq f k v m :
  m !! k = Some v -> msum f (delete k m) = msum f m - f k v.
Proof. intros Hk. rewrite (msum_delete f k v m Hk). lia. Qed.
Lemma msum_insert_old f k v w m :
  m !! k = Some v -> msum f (<[k := w]> m) = msum f m - f k v + f k w.
Proof.
  intros Hk. rewrite <- insert_delete_eq, msum_insert_new by apply lookup_delete_eq.
  rewrite (msum_delete_eq f k v m Hk). lia.
Qed.
(** One rule for a [put]: what the key contributed before, if anything. *)
Definition contrib f (k : K) (o : option V) : Z :=
  match o with Some v => f k v | None => 0 end.
Lemma msum_insert f k w m :
  msum f (<[k := w]> m) = msum f m - contrib f k (m !! k) + f k w.
Proof.
  destruct (m !! k) as [v|] eqn:E; simpl.
  - by rewrite (msum_insert_old f k v).
  - rewrite msum_insert_new by done. lia.
Qed.
Lemma msum_delete_contrib f k m :
  msum f (delete k m) = msum f m - contrib f k (m !! k).
Proof.
  destruct (m !! k) as [v|] eqn:E; simpl.
  - by rewrite (msum_delete_eq f k v).
  - rewrite delete_id by done. lia.
Qed.
Lemma msum_ext f g m :
  (forall k v, m !! k = Some v -> f k v = g k v) -> msum f m = msum g m.
Proof.
  induction m as [|k v m Hk IH] using map_ind; intros Hfg; [by rewrite !msum_empty|].
  rewrite !msum_insert_new by done. rewrite Hfg by apply lookup_insert_eq.
  f_equal. apply IH. intros k' v' Hk'. apply Hfg.
  rewrite lookup_insert_ne; [done|]. intros ->. congruence.
Qed.
Lemma msum_nonneg f m :
  (forall k v, m !! k = Some v -> 0 <= f k v) -> 0 <= msum f m.
Proof.
  induction m as [|k v m Hk IH] using map_ind; intros Hf; [by rewrite msum_empty|].
  rewrite msum_insert_new by done.
  assert (0 <= f k v) by (apply Hf, lookup_insert_eq).
  assert (0 <= msum f m); [|lia]. apply IH. intros k' v' Hk'. apply Hf.
  rewrite lookup_insert_ne; [done|]. intros ->. congruence.
Qed.
Lemma msum_lookup_le f k v m :
  (forall k v, m !! k = Some v -> 0 <= f k v) -> m !! k = Some v -> f k v <= msum f m.
Proof.
  intros Hf Hk. rewrite (msum_delete f k v m Hk).
  assert (0 <= msum f (delete k m)); [|lia].
  apply msum_nonneg. intros k' v' [_ ?]%lookup_delete_Some. by apply Hf.
Qed.
(** Maps that contribute alike at every key have the same sum. *)
Lemma msum_contrib_ext f m m' :
  (forall k, contrib f k (m !! k) = contrib f k (m' !! k)) -> msum f m = msum f m'.
Proof.
  revert m'. induction m as [|k v m Hk IH] using map_ind; intros m' Hc.
  - rewrite msum_empty, (msum_ext f (fun _ _ => 0)).
    + clear. symmetry. induction m' as [|k v m' Hk IH] using map_ind; [apply msum_empty|by rewrite msum_insert_new].
    + intros k v Hv. specialize (Hc k). rewrite Hv, lookup_empty in Hc. by symmetry.
  - rewrite msum_insert_new by done. pose proof (Hc k) as Hk'. rewrite lookup_insert_eq in Hk'. simpl in Hk'.
    rewrite Hk', (IH (delete k m')); [rewrite msum_delete_contrib; lia|].
    intros k'. destruct (decide (k = k')) as [<-|Hne]; [by rewrite lookup_delete_eq, Hk|].
    rewrite lookup_delete_ne by done. rewrite <- Hc. by rewrite lookup_insert_ne.
Qed.
Lemma msum_list f m :
  msum f m = zsum ((fun kv => f kv.1 kv.2) <$> map_to_list m).
Proof.
  induction m as [|k v m Hk IH] using map_ind; [by rewrite msum_empty, map_to_list_empty|].
  rewrite msum_insert_new, IH by done.
  symmetry. rewrite (zsum_perm _ ((fun kv => f kv.1 kv.2) <$> (k, v) :: map_to_list m)).
  - done.
  - apply fmap_Permutation. by apply map_to_list_insert.
Qed.

Lemma nsum_delete (f : K -> V -> nat) k v m :
  m !! k = Some v -> nsum f m = (f k v + nsum f (delete k m))%nat.
Proof. intros Hk. unfold nsum. rewrite (map_fold_delete_L _ _ k v m); [done|intros; lia|done]. Qed.
Lemma nsum_ext (f g : K -> V -> nat) m :
  (forall k v, m !! k = Some v -> f k v = g k v) -> nsum f m = nsum g m.
Proof.
  unfold nsum. induction m as [|k v m Hk IH] using map_ind; intros Hfg; [done|].
  rewrite !map_fold_insert_L by (done || intros; lia).
  rewrite Hfg by apply lookup_insert_eq. f_equal. apply IH. intros k' v' Hk'. apply Hfg.
  rewrite lookup_insert_ne; [done|]. intros ->. congruence.
Qed.
End msum.
Arguments contrib {_ _} _ _ !_ /.
