(* ===== verification/Types.v ===== *)
(** * Shared protocol types ([types/src/hash.rs], [asset.rs], [amount.rs])

    Hashes, addresses, amounts and the three native assets. *)

From stdpp Require Import base countable decidable.
From Stdlib Require Import ZArith Lia.
From S2P Require Import Prelude.
Local Open Scope Z_scope.

(** A block hash: its 32 bytes read as a big-endian integer, so that the
    lexicographic order of [as_bytes] is the order of [Z]. *)
Abbreviation Hash := Z (only parsing).
(** A 20-byte address, read the same way. *)
Abbreviation Address := Z (only parsing).

(** [NativeAssetId] and its stable wire bytes. *)
Inductive NativeAssetId := TLT | OVL | DRC.
#[export] Instance NativeAssetId_eq_dec : EqDecision NativeAssetId.
Proof. solve_decision. Defined.

Definition wire_byte (a : NativeAssetId) : Z :=
  match a with TLT => 0 | OVL => 1 | DRC => 2 end.
Definition from_wire_byte (b : Z) : option NativeAssetId :=
  if b =? 0 then Some TLT else if b =? 1 then Some OVL else if b =? 2 then Some DRC else None.
Definition is_mineable (a : NativeAssetId) : bool :=
  match a with TLT => true | _ => false end.
Definition all_assets : list NativeAssetId := [TLT; OVL; DRC].

Lemma wire_byte_round_trip a : from_wire_byte (wire_byte a) = Some a.
Proof. by destruct a. Qed.

#[export, refine] Instance NativeAssetId_countable : Countable NativeAssetId := {
  encode a := encode (Z.to_nat (wire_byte a));
  decode p := decode p ≫= fun n => from_wire_byte (Z.of_nat n);
}.
Proof. intros []; by rewrite decode_encode. Defined.

(** [asset] is OVL or DRC: the account-based assets. *)
Definition is_account_asset (a : NativeAssetId) : bool :=
  match a with TLT => false | _ => true end.

(** [Amount]: base units, eight decimals. *)
Definition amount_from_whole (whole : Z) : option Z :=
  if whole * 10 ^ 8 <=? u64_max then Some (whole * 10 ^ 8) else None.

(** ** Transactions ([types/src/transaction.rs]) *)

Record OutPoint := { op_tx : Hash; op_index : Z }.
#[export] Instance OutPoint_eq_dec : EqDecision OutPoint.
Proof. solve_decision. Defined.
#[export] Instance OutPoint_countable : Countable OutPoint.
Proof.
  apply (inj_countable' (fun o => (op_tx o, op_index o)) (fun p => {| op_tx := p.1; op_index := p.2 |})).
  by intros [].
Defined.
Record TxIn := { previous_outpoint : OutPoint }.
Record TxOut := { out_value : Z; out_address : Address }.
Record Transaction := {
  tx_version : Z;
  inputs : list TxIn;
  outputs : list TxOut;
  tx_nonce : Z;
  tx_public_key : list Z;
  tx_signature : list Z;
}.
