(* ===== verification/Dag.v ===== *)
(** * The in-memory BlockDAG ([consensus/src/dag.rs])

    [Dag] keeps the blocks in insertion order and the parents of each block.
    The traversal [past_closure] is the breadth-first loop of the source, run
    with a fuel that bounds its number of queue pops; the theorems show that
    the fuel always suffices and that the result is the set of ancestors. *)

From stdpp Require Import base gmap sets list relations fin_maps.
From Stdlib Require Import ZArith Lia.
From S2P Require Import Prelude Ordering Sums Types.
Local Open Scope Z_scope.

(** [ConsensusError] (the variants these components raise); the messages keep
    the hash or are dropped.  [OutOfFuel] is the model's own: it marks a loop
    cut short, and the theorems show that it is never returned. *)
Inductive ConsensusError :=
| MissingBlock (h : Hash)
| InvalidBlock
| OutOfFuel.

Record Dag := mkDag {
  order : list Hash;
  parents : gmap Hash (list Hash);
}.

Definition dag_new : Dag := mkDag [] ∅.
Definition contains (d : Dag) (h : Hash) : bool := bool_decide (is_Some (parents d !! h)).
Definition parents_of (d : Dag) (h : Hash) : result ConsensusError (list Hash) :=
  ok_or (MissingBlock h) (parents d !! h).

(** The loop [for parent in &parents { if !self.contains(parent) { return Err } }]. *)
Fixpoint check_parents (d : Dag) (ps : list Hash) : result ConsensusError unit :=
  match ps with
  | [] => Ok tt
  | p :: ps' => if contains d p then check_parents d ps' else Err (MissingBlock p)
  end.

Definition dag_insert (d : Dag) (h : Hash) (ps : list Hash) : result ConsensusError Dag :=
  if contains d h then Ok d
  else let? _ := check_parents d ps in
       Ok (mkDag (order d ++ [h]) (<[h := ps]> (parents d))).

Definition remove_tip (d : Dag) (h : Hash) : bool * Dag :=
  if negb (contains d h) then (false, d)
  else if existsb (fun kv => existsb (Z.eqb h) kv.2) (map_to_list (parents d)) then (false, d)
  else (true, mkDag (filter (fun x => x <> h) (order d)) (delete h (parents d))).

Definition referenced (d : Dag) : gset Hash :=
  list_to_set (concat ((fun kv => kv.2) <$> map_to_list (parents d))).
Definition tips (d : Dag) : list Hash := filter (fun h => h ∉ referenced d) (order d).

(** The [while let Some(current) = q.pop_front()] loop of [past_closure]. *)
Fixpoint bfs (fuel : nat) (d : Dag) (seen : gset Hash) (q : list Hash)
  : result ConsensusError (gset Hash) :=
  match fuel with
  | O => Err OutOfFuel
  | S fuel' =>
    match q with
    | [] => Ok seen
    | current :: q' =>
      if decide (current ∈ seen) then bfs fuel' d seen q'
      else let? ps := parents_of d current in
           bfs fuel' d ({[current]} ∪ seen) (q' ++ ps)
    end
  end.

Definition edge_count (d : Dag) : nat := nsum (fun _ ps => length ps) (parents d).
(** One pop for the start block, one per edge, and the final empty test. *)
Definition bfs_fuel (d : Dag) : nat := S (S (edge_count d)).

Definition past_closure (d : Dag) (h : Hash) : result ConsensusError (gset Hash) :=
  if contains d h then bfs (bfs_fuel d) d ∅ [h] else Err (MissingBlock h).

(** The first loop of [anticone]: the blocks with [h] in their past. *)
Definition future_step (d : Dag) (h : Hash) (future : gset Hash) (candidate : Hash)
  : result ConsensusError (gset Hash) :=
  if candidate =? h then Ok future
  else let? candidate_past := past_closure d candidate in
       Ok (if decide (h ∈ candidate_past) then {[candidate]} ∪ future else future).

Definition anticone (d : Dag) (h : Hash) : result ConsensusError (gset Hash) :=
  let? past := past_closure d h in
  let? future := rfold (future_step d h) ∅ (order d) in
  Ok (list_to_set (filter (fun c => (c <> h) /\ (c ∉ past) /\ (c ∉ future)) (order d))).

Definition blocks_in_insert_order (d : Dag) : list Hash := order d.

(** ** Specification: ancestry *)

Definition parent_of (d : Dag) (b p : Hash) : Prop :=
  exists ps, parents d !! b = Some ps /\ p ∈ ps.
(** [past d b x]: [x] is [b] or one of its ancestors. *)
Definition past (d : Dag) (b x : Hash) : Prop := rtc (parent_of d) b x.
#[export] Instance past_preorder d : PreOrder (past d).
Proof. exact (rtc_po (R := parent_of d)). Qed.

(** Well-formed DAGs: the order lists each block once, after its parents. *)
Record wf_dag (d : Dag) : Prop := {
  wf_nodup : NoDup (order d);
  wf_dom h : h ∈ order d <-> is_Some (parents d !! h);
  wf_topo l1 h l2 ps :
    order d = l1 ++ h :: l2 -> parents d !! h = Some ps -> forall p, p ∈ ps -> p ∈ l1;
}.

Lemma contains_spec d h : reflect (is_Some (parents d !! h)) (contains d h).
Proof. unfold contains. apply bool_decide_reflect. Qed.

Lemma check_parents_Ok d ps u :
  check_parents d ps = Ok u <-> forall p, p ∈ ps -> is_Some (parents d !! p).
Proof.
  induction ps as [|p ps IH]; simpl.
  - destruct u. split; [|done]. intros _ p Hp. by apply elem_of_nil in Hp.
  - destruct (contains_spec d p) as [Hc|Hc].
    + rewrite IH. split; intros Hps q Hq.
      * apply elem_of_cons in Hq as [->|?]; auto.
      * apply Hps. by right.
    + split; [done|]. intros Hps. destruct Hc. apply Hps. by left.
Qed.

Lemma wf_dag_new : wf_dag dag_new.
Proof.
  split; simpl.
  - constructor.
  - intros h. rewrite lookup_empty. split; [by intros ?%elem_of_nil|by intros [? ?]].
  - intros [] ? ? ?; naive_solver.
Qed.

Lemma wf_parents_dom d b p : wf_dag d -> parent_of d b p -> is_Some (parents d !! p).
Proof.
  intros Hwf (ps & Hb & Hp). apply (wf_dom d Hwf).
  assert (b ∈ order d) as (l1 & l2 & Ho)%list_elem_of_split by (by apply (wf_dom d Hwf); eexists).
  rewrite Ho. apply elem_of_app. left. by eapply (wf_topo d Hwf).
Qed.

Lemma past_dom d b x : wf_dag d -> is_Some (parents d !! b) -> past d b x -> is_Some (parents d !! x).
Proof. intros Hwf Hb. induction 1; [done|]. eauto using wf_parents_dom. Qed.

(** ** Insertion and removal keep the DAG well-formed *)

Lemma snoc_split {A} (l l1 l2 : list A) x y :
  l ++ [x] = l1 ++ y :: l2 ->
  (l2 = [] /\ y = x /\ l1 = l) \/ exists l2', l2 = l2' ++ [x] /\ l = l1 ++ y :: l2'.
Proof.
  intros Heq. destruct l2 as [|z l2'] using rev_ind; [left|right].
  - by apply app_inj_tail in Heq as [-> ->].
  - exists l2'. rewrite app_comm_cons, app_assoc in Heq.
    by apply app_inj_tail in Heq as [-> ->].
Qed.

Lemma dag_insert_fresh d h ps d' :
  parents d !! h = None -> dag_insert d h ps = Ok d' ->
  d' = mkDag (order d ++ [h]) (<[h := ps]> (parents d)) /\
  forall p, p ∈ ps -> is_Some (parents d !! p).
Proof.
  unfold dag_insert. destruct (contains_spec d h) as [Hc|_]; intros Hn Hi.
  { destruct Hc as [? Hc]. congruence. }
  inv_ok. subst d'. split; [done|]. by eapply check_parents_Ok.
Qed.

Lemma dag_insert_wf d h ps d' : wf_dag d -> dag_insert d h ps = Ok d' -> wf_dag d'.
Proof.
  intros Hwf Hi. destruct (parents d !! h) as [ps0|] eqn:Hh.
  { unfold dag_insert in Hi. destruct (contains_spec d h) as [|[]]; [|by eexists].
    by simplify_eq. }
  apply dag_insert_fresh in Hi as [-> Hps]; [|done].
  assert (h ∉ order d) as Hno by (intros [? ?]%(wf_dom d Hwf); congruence).
  split; simpl.
  - apply NoDup_app. split; [by apply wf_nodup|]. split; [|apply NoDup_singleton].
    intros x Hx ->%list_elem_of_singleton. done.
  - intros x. rewrite elem_of_app, list_elem_of_singleton, (wf_dom d Hwf).
    destruct (decide (x = h)) as [->|Hne].
    + rewrite lookup_insert_eq. naive_solver.
    + rewrite lookup_insert_ne by done. naive_solver.
  - intros l1 x l2 qs Ho Hx p Hp.
    apply snoc_split in Ho as [(-> & -> & ->)|(l2' & -> & Ho)].
    + rewrite lookup_insert_eq in Hx. simplify_eq. by apply (wf_dom d Hwf), Hps.
    + assert (x <> h) by (intros ->; apply Hno; rewrite Ho; set_solver).
      rewrite lookup_insert_ne in Hx by done. by eapply (wf_topo d Hwf).
Qed.

(** [remove_tip] removes only a block that no block points to. *)
Lemma remove_tip_true d h d' :
  remove_tip d h = (true, d') ->
  is_Some (parents d !! h) /\ (forall b, ~ parent_of d b h) /\
  d' = mkDag (filter (fun x => x <> h) (order d)) (delete h (parents d)).
Proof.
  unfold remove_tip. destruct (contains_spec d h) as [Hc|]; simpl; [|done].
  destruct (existsb _ _) eqn:E; [done|]. intros [= <-]. split; [done|]. split; [|done].
  intros b (ps & Hb & Hp). apply not_true_iff_false in E. apply E, existsb_exists.
  exists (b, ps). split.
  - by apply list_elem_of_In, elem_of_map_to_list.
  - apply existsb_exists. exists h. split; [by apply list_elem_of_In|apply Z.eqb_refl].
Qed.

Lemma filter_all {A} (P : A -> Prop) `{!forall x, Decision (P x)} (l : list A) :
  (forall x, x ∈ l -> P x) -> filter P l = l.
Proof.
  induction l as [|x l IH]; intros Hl; [done|]. rewrite filter_cons_True by (apply Hl; left).
  f_equal. apply IH. intros y Hy. apply Hl. by right.
Qed.

Lemma filter_cut (P : Z -> Prop) `{!forall x, Decision (P x)} (l l1 : list Z) h l2 :
  filter P l = l1 ++ h :: l2 ->
  exists k1 k2, l = k1 ++ h :: k2 /\ filter P k1 = l1 /\ P h.
Proof.
  revert l1. induction l as [|x l IH]; intros l1; simpl; [by destruct l1|].
  rewrite filter_cons. case_decide as HP.
  - destruct l1 as [|y l1]; simpl; intros [= -> Heq].
    + by exists [], l.
    + apply IH in Heq as (k1 & k2 & -> & <- & ?).
      exists (y :: k1), k2. by rewrite filter_cons, decide_True.
  - intros (k1 & k2 & -> & <- & ?)%IH. exists (x :: k1), k2.
    by rewrite filter_cons, decide_False.
Qed.

Lemma remove_tip_wf d h b d' : wf_dag d -> remove_tip d h = (b, d') -> wf_dag d'.
Proof.
  intros Hwf. destruct b; cycle 1.
  { unfold remove_tip. repeat case_match; by intros [= <-]. }
  intros (Hh & Hnp & ->)%remove_tip_true. split; simpl.
  - apply NoDup_filter, (wf_nodup d Hwf).
  - intros x. rewrite list_elem_of_filter, (wf_dom d Hwf), lookup_delete.
    case_decide; naive_solver.
  - intros l1 x l2 ps (k1 & k2 & Ho & <- & Hx)%filter_cut Hxps p Hp.
    rewrite lookup_delete_ne in Hxps by done. apply list_elem_of_filter. split.
    + intros ->. apply (Hnp x). by exists ps.
    + by eapply (wf_topo d Hwf).
Qed.

(** ** The breadth-first loop *)

(** Edges that leave blocks not yet seen: with the queue length, the number
    of pops still to come. *)
Definition pending (d : Dag) (seen : gset Hash) : nat :=
  nsum (fun h ps => if decide (h ∈ seen) then 0 else length ps)%nat (parents d).

Lemma pending_visit d seen h ps :
  parents d !! h = Some ps -> h ∉ seen ->
  pending d seen = (length ps + pending d ({[h]} ∪ seen))%nat.
Proof.
  intros Hh Hs. unfold pending.
  rewrite !(nsum_delete _ h ps (parents d)) by done.
  rewrite decide_False by done. rewrite (decide_True (P := h ∈ {[h]} ∪ seen)) by set_solver.
  simpl. f_equal. apply nsum_ext. intros k v [Hne Hk]%lookup_delete_Some.
  destruct (decide (k ∈ seen)), (decide (k ∈ {[h]} ∪ seen)); set_solver.
Qed.

Lemma pending_empty d : pending d ∅ = edge_count d.
Proof. unfold pending, edge_count. apply nsum_ext. intros. by rewrite decide_False. Qed.

(** Parents of a seen block are seen or queued. *)
Definition seen_closed (d : Dag) (seen : gset Hash) (q : list Hash) : Prop :=
  forall x p, x ∈ seen -> parent_of d x p -> p ∈ seen \/ p ∈ q.

Lemma bfs_spec fuel d seen q :
  (forall b p, parent_of d b p -> is_Some (parents d !! p)) ->
  (forall x, x ∈ q -> is_Some (parents d !! x)) ->
  seen_closed d seen q ->
  (length q + pending d seen < fuel)%nat ->
  exists s, bfs fuel d seen q = Ok s /\
    seen ⊆ s /\ (forall x, x ∈ q -> x ∈ s) /\ seen_closed d s [] /\
    (forall x, x ∈ s -> x ∈ seen \/ exists y, y ∈ q /\ past d y x).
Proof.
  intros Hdom. revert seen q. induction fuel as [|fuel IH]; intros seen q Hq Hc Hf; [lia|].
  destruct q as [|c q]; simpl.
  { exists seen. repeat split; [done|by intros ? ?%elem_of_nil|done|by left]. }
  case_decide as Hin.
  - destruct (IH seen q) as (s & Hs & Hsub & Hqs & Hcl & Hre).
    + intros x Hx. apply Hq. by right.
    + intros x p Hx Hp. destruct (Hc x p Hx Hp) as [|[->|]%elem_of_cons]; auto.
    + simpl in Hf. lia.
    + exists s. repeat split; [done|done| |done|].
      * intros x [->|Hx]%elem_of_cons; auto.
      * intros x Hx. destruct (Hre x Hx) as [|(y & ? & ?)]; [by left|].
        right. exists y. split; [by right|done].
  - destruct (Hq c) as [ps Hps]; [left|].
    unfold parents_of. rewrite Hps. simpl.
    pose proof (pending_visit d seen c ps Hps Hin) as Hpend.
    destruct (IH ({[c]} ∪ seen) (q ++ ps)) as (s & Hs & Hsub & Hqs & Hcl & Hre).
    + intros x [Hx|Hx]%elem_of_app; [apply Hq; by right|]. apply (Hdom c). by exists ps.
    + intros x p [->%elem_of_singleton|Hx]%elem_of_union Hp.
      * right. destruct Hp as (ps' & ? & ?). simplify_eq. apply elem_of_app. by right.
      * destruct (Hc x p Hx Hp) as [|[->|]%elem_of_cons]; set_solver.
    + rewrite length_app. simpl in Hf. lia.
    + exists s. repeat split; [done|set_solver| |done|].
      * intros x [->|Hx]%elem_of_cons; [set_solver|]. apply Hqs, elem_of_app. by left.
      * intros x Hx. destruct (Hre x Hx) as [[->%elem_of_singleton|]%elem_of_union|(y & Hy & Hyx)].
        -- right. exists c. split; [left|apply rtc_refl].
        -- by left.
        -- right. apply elem_of_app in Hy as [Hy|Hy].
           ++ exists y. split; [by right|done].
           ++ exists c. split; [left|]. eapply rtc_l; [|done]. by exists ps.
Qed.

Lemma closed_past d s h x : seen_closed d s [] -> h ∈ s -> past d h x -> x ∈ s.
Proof.
  intros Hcl Hh Hx. induction Hx as [|a b c Hab _ IH]; [done|]. apply IH.
  by destruct (Hcl a b Hh Hab) as [|?%elem_of_nil].
Qed.

(** [past_closure] returns exactly the ancestors (the block included). *)
Lemma past_closure_spec d h :
  wf_dag d -> is_Some (parents d !! h) ->
  exists s, past_closure d h = Ok s /\ forall x, x ∈ s <-> past d h x.
Proof.
  intros Hwf Hh. unfold past_closure. destruct (contains_spec d h) as [_|]; [|done].
  destruct (bfs_spec (bfs_fuel d) d ∅ [h]) as (s & Hs & _ & Hq & Hcl & Hre).
  - intros. by eapply wf_parents_dom.
  - by intros x ->%list_elem_of_singleton.
  - by intros x p ?%not_elem_of_empty.
  - rewrite pending_empty. unfold bfs_fuel. simpl. lia.
  - exists s. split; [done|]. intros x. split.
    + intros [?%not_elem_of_empty|(y & ->%list_elem_of_singleton & ?)]%Hre; done.
    + intros Hx. eapply closed_past; [done| |done]. apply Hq. left.
Qed.

Lemma past_closure_Ok d h s :
  wf_dag d -> past_closure d h = Ok s ->
  is_Some (parents d !! h) /\ forall x, x ∈ s <-> past d h x.
Proof.
  intros Hwf Hs. assert (is_Some (parents d !! h)) as Hh.
  { unfold past_closure in Hs. by destruct (contains_spec d h). }
  destruct (past_closure_spec d h Hwf Hh) as (s' & Hs' & ?).
  rewrite Hs in Hs'. by simplify_eq.
Qed.

(** ** Ancestry is an order, and grows only upwards *)

Lemma topo_before d l1 b l2 x :
  wf_dag d -> order d = l1 ++ b :: l2 -> past d b x -> x = b \/ x ∈ l1.
Proof.
  intros Hwf Ho Hx. revert l1 l2 Ho. induction Hx as [|b p x (ps & Hb & Hp) _ IH]; intros l1 l2 Ho.
  { by left. }
  right. assert (p ∈ l1) as Hpl by (by apply (wf_topo d Hwf l1 b l2 ps)).
  apply list_elem_of_split in Hpl as (k1 & k2 & ->).
  destruct (IH k1 (k2 ++ b :: l2)) as [->|Hx].
  - rewrite Ho, <- app_assoc. done.
  - set_solver.
  - set_solver.
Qed.

(** Acyclicity: two distinct blocks are not ancestors of each other. *)
Lemma past_antisym d a b :
  wf_dag d -> is_Some (parents d !! a) -> past d a b -> past d b a -> a = b.
Proof.
  intros Hwf Ha Hab Hba.
  destruct (decide (a = b)) as [|Hne]; [done|]. exfalso.
  assert (a ∈ order d) as (l1 & l2 & Ho)%list_elem_of_split by (by apply (wf_dom d Hwf)).
  destruct (topo_before d l1 a l2 b Hwf Ho Hab) as [|Hb]; [done|].
  apply list_elem_of_split in Hb as (k1 & k2 & ->).
  pose proof (wf_nodup d Hwf) as Hnd. rewrite Ho in Hnd.
  rewrite <- app_assoc in Ho.
  destruct (topo_before d k1 b (k2 ++ a :: l2) a Hwf Ho Hba) as [|Ha1]; [done|].
  apply NoDup_app in Hnd as (_ & Hd & _). apply (Hd a); set_solver.
Qed.

(** Inserting a fresh block leaves the past of the old blocks unchanged. *)
Lemma parent_of_insert d h ps b p :
  b <> h -> parent_of (mkDag (order d ++ [h]) (<[h := ps]> (parents d))) b p <-> parent_of d b p.
Proof. intros Hne. unfold parent_of. simpl. by rewrite lookup_insert_ne. Qed.

Lemma past_insert d h ps d' b x :
  wf_dag d -> parents d !! h = None -> dag_insert d h ps = Ok d' ->
  is_Some (parents d !! b) -> past d' b x <-> past d b x.
Proof.
  intros Hwf Hh Hi Hb. apply dag_insert_fresh in Hi as [-> _]; [|done].
  split; intros Hx; revert Hb; induction Hx as [|b p x Hp _ IH]; intros Hb; try apply rtc_refl.
  - assert (b <> h) by (intros ->; destruct Hb; congruence).
    apply parent_of_insert in Hp; [|done].
    eapply rtc_l; [done|]. apply IH. by eapply wf_parents_dom.
  - assert (b <> h) by (intros ->; destruct Hb; congruence).
    eapply rtc_l; [by apply parent_of_insert|]. apply IH. by eapply wf_parents_dom.
Qed.

(** ** Anticone *)

Lemma future_fold_spec d h l fut0 :
  wf_dag d -> (forall c, c ∈ l -> is_Some (parents d !! c)) ->
  exists fut, rfold (future_step d h) fut0 l = Ok fut /\
    forall x, x ∈ fut <-> x ∈ fut0 \/ (x ∈ l /\ x <> h /\ past d x h).
Proof.
  intros Hwf. revert fut0. induction l as [|c l IH]; intros fut0 Hl; simpl.
  { exists fut0. split; [done|]. intros x. rewrite elem_of_nil. naive_solver. }
  assert (forall c', c' ∈ l -> is_Some (parents d !! c')) as Hl' by (intros; apply Hl; by right).
  unfold future_step at 1. destruct (Z.eqb_spec c h) as [->|Hne]; simpl.
  - destruct (IH fut0 Hl') as (fut & -> & Hfut). exists fut. split; [done|].
    intros x. rewrite Hfut, elem_of_cons. naive_solver.
  - destruct (past_closure_spec d c Hwf) as (s & Hs & Hspec); [apply Hl; left|].
    rewrite Hs. simpl. destruct (IH (if decide (h ∈ s) then {[c]} ∪ fut0 else fut0) Hl') as (fut & -> & Hfut). exists fut. split; [done|].
    intros x. rewrite Hfut, elem_of_cons. case_decide as Hin.
    + rewrite elem_of_union, elem_of_singleton, Hspec in *. naive_solver.
    + rewrite Hspec in Hin. naive_solver.
Qed.

Lemma anticone_spec d h :
  wf_dag d -> is_Some (parents d !! h) ->
  exists s, anticone d h = Ok s /\
    forall x, x ∈ s <-> is_Some (parents d !! x) /\ ~ past d h x /\ ~ past d x h.
Proof.
  intros Hwf Hh. unfold anticone.
  destruct (past_closure_spec d h Hwf Hh) as (s & -> & Hs). simpl.
  destruct (future_fold_spec d h (order d) ∅ Hwf) as (fut & -> & Hfut).
  { intros c. apply (wf_dom d Hwf). }
  simpl. eexists. split; [done|]. intros x.
  rewrite elem_of_list_to_set, list_elem_of_filter, Hs, Hfut, (wf_dom d Hwf).
  split.
  - intros [(Hx & Hp & Hf) Hd]. repeat split; [done|done|]. intros Hpx. apply Hf. right.
    done.
  - intros (Hd & Hp & Hf). repeat split; [|done| |done].
    + intros ->. apply Hp, rtc_refl.
    + intros [?%not_elem_of_empty|(_ & _ & ?)]; done.
Qed.

Lemma anticone_Ok d h s :
  wf_dag d -> anticone d h = Ok s ->
  forall x, x ∈ s <-> is_Some (parents d !! x) /\ ~ past d h x /\ ~ past d x h.
Proof.
  intros Hwf Hs. assert (is_Some (parents d !! h)) as Hh.
  { unfold anticone in Hs. inv_ok. by eapply past_closure_Ok. }
  destruct (anticone_spec d h Hwf Hh) as (s' & Hs' & ?). rewrite Hs in Hs'. by simplify_eq.
Qed.

(** ** Histories of the DAG *)

Inductive dag_step : Dag -> Dag -> Prop :=
| step_insert d h ps d' : dag_insert d h ps = Ok d' -> dag_step d d'
| step_remove d h b d' : remove_tip d h = (b, d') -> dag_step d d'.
Definition dag_reachable (d : Dag) : Prop := rtc dag_step dag_new d.

Lemma dag_reachable_wf d : dag_reachable d -> wf_dag d.
Proof.
  unfold dag_reachable. generalize wf_dag_new. generalize dag_new.
  intros d0 Hwf Hr. revert Hwf. induction Hr as [|d1 d2 d3 Hs _ IH]; [done|].
  intros Hwf. apply IH. destruct Hs; eauto using dag_insert_wf, remove_tip_wf.
Qed.

(** on every DAG that admission and rollback can build, [past_closure]
    terminates within its fuel and returns exactly the ancestors of a present
    block, and reports a missing block by its hash. *)
Theorem past_closure_correct d h :
  dag_reachable d ->
  match parents d !! h with
  | Some _ => exists s, past_closure d h = Ok s /\ forall x, x ∈ s <-> past d h x
  | None => past_closure d h = Err (MissingBlock h)
  end.
Proof.
  intros Hwf%dag_reachable_wf. destruct (parents d !! h) eqn:Hh.
  - apply past_closure_spec; [done|]. by eexists.
  - unfold past_closure. destruct (contains_spec d h) as [[? ?]|]; [congruence|done].
Qed.

(** the anticone of a block is the set of blocks that are neither its
    ancestors nor its descendants; ancestry itself is acyclic. *)
Theorem anticone_correct d h :
  dag_reachable d -> is_Some (parents d !! h) ->
  exists s, anticone d h = Ok s /\
    (forall x, x ∈ s <-> is_Some (parents d !! x) /\ ~ past d h x /\ ~ past d x h) /\
    (forall x, past d h x -> past d x h -> x = h).
Proof.
  intros Hwf%dag_reachable_wf Hh. destruct (anticone_spec d h Hwf Hh) as (s & ? & ?).
  exists s. repeat split; [done|naive_solver..|]. intros x Hhx Hxh. symmetry.
  by apply (past_antisym d).
Qed.

(** [remove_tip] undoes [dag_insert]: rolling back the admission of a new
    block restores the DAG exactly. *)
Theorem insert_remove_tip d h ps d' :
  dag_reachable d -> parents d !! h = None -> dag_insert d h ps = Ok d' ->
  remove_tip d' h = (true, d).
Proof.
  intros Hwf%dag_reachable_wf Hh Hi. apply dag_insert_fresh in Hi as [-> Hps]; [|done].
  assert (h ∉ order d) as Hno by (intros [? ?]%(wf_dom d Hwf); congruence).
  assert (forall b, ~ parent_of (mkDag (order d ++ [h]) (<[h := ps]> (parents d))) b h) as Hnp.
  { intros b (qs & Hb & Hq). simpl in Hb. apply lookup_insert_Some in Hb as [[-> ->]|[Hne Hb]].
    - destruct (Hps _ Hq). congruence.
    - destruct (wf_parents_dom d b h Hwf); [by exists qs|congruence]. }
  unfold remove_tip. destruct (contains_spec (mkDag (order d ++ [h]) (<[h := ps]> (parents d))) h)
    as [_|[]]; simpl; [|by rewrite lookup_insert_eq].
  destruct (existsb _ _) eqn:E.
  - apply existsb_exists in E as ([b qs] & Hb%list_elem_of_In & Hq). simpl in Hq.
    apply existsb_exists in Hq as (x & Hx%list_elem_of_In & Heq%Z.eqb_eq).
    subst x.
    apply elem_of_map_to_list in Hb. destruct (Hnp b). by exists qs.
  - rewrite delete_insert_id by done. rewrite filter_app, filter_cons_False by naive_solver.
    simpl. rewrite filter_nil, app_nil_r. f_equal. destruct d as [o m]. simpl in *. f_equal.
    apply filter_all. by intros x Hx ->.
Qed.

(** ** A concrete DAG: the diamond [0 <- {1, 2} <- 3] *)

Definition dag_build (l : list (Hash * list Hash)) : result ConsensusError Dag :=
  rfold (fun d b => dag_insert d b.1 b.2) dag_new l.

Lemma dag_build_reachable l d : dag_build l = Ok d -> dag_reachable d.
Proof.
  unfold dag_build, dag_reachable. generalize dag_new.
  induction l as [|[h ps] l IH]; simpl; intros d0 Hd; inv_ok; [by subst; apply rtc_refl|].
  eapply rtc_l; [by eapply step_insert|]. by apply IH.
Qed.

Definition diamond : Dag :=
  mkDag [0; 1; 2; 3] (list_to_map [(0, []); (1, [0]); (2, [0]); (3, [1; 2])]).
Lemma diamond_reachable : dag_reachable diamond.
Proof. by apply (dag_build_reachable [(0, []); (1, [0]); (2, [0]); (3, [1; 2])]). Qed.

Lemma past_closure_correct_witness :
  exists s, past_closure diamond 3 = Ok s /\ forall x, x ∈ s <-> past diamond 3 x.
Proof. exact (past_closure_correct diamond 3 diamond_reachable). Defined.

Lemma anticone_correct_witness :
  exists s, anticone diamond 1 = Ok s /\
    (forall x, x ∈ s <-> is_Some (parents diamond !! x) /\ ~ past diamond 1 x /\ ~ past diamond x 1) /\
    (forall x, past diamond 1 x -> past diamond x 1 -> x = 1).
Proof.
  apply (anticone_correct diamond 1 diamond_reachable). by exists [0].
Defined.

Lemma insert_remove_tip_witness :
  exists d', dag_insert diamond 4 [3] = Ok d' /\ remove_tip d' 4 = (true, diamond).
Proof.
  eexists. split; [vm_compute; reflexivity|].
  apply (insert_remove_tip diamond 4 [3] _ diamond_reachable); vm_compute; reflexivity.
Defined.
