(* ===== verification/Ghostdag.v ===== *)
(** * GHOSTDAG coloring and block ordering ([consensus/src/ghostdag.rs])

    The engine keeps, per block, the set of blue blocks in its past, the blues
    it accepted from its merge set, and the accumulated blue score and work.
    [add_block_with_work] colors missing parents first (with unit work), picks
    the selected parent by (blue work, blue score, hash), and accepts merge-set
    candidates greedily while their blue anticone is at most [k].

    The recursion over missing parents takes a fuel; [add_fuel_enough] shows
    that the number of blocks suffices. *)

From stdpp Require Import base gmap sets list sorting relations fin_maps.
From Stdlib Require Import ZArith Lia.
From S2P Require Import Prelude Ordering Sums Types Dag.
Local Open Scope Z_scope.

Record GhostdagConfig := { k : Z }.
Definition default_config : GhostdagConfig := {| k := 18 |}.

Record GhostdagData := {
  gd_selected_parent : option Hash;
  gd_blue_score : Z;
  gd_blue_work : Z;
  is_blue_in_tip_view : bool;
}.

Record GhostdagSnapshot := {
  snap_selected_parent : option Hash;
  snap_blue_score : Z;
  snap_blue_work : Z;
  snap_block_work : Z;
  snap_mergeset_blues : list Hash;
}.

Record OrderedBlock := { ob_hash : Hash; ob_blue_score : Z; ob_is_blue : bool }.

Record BlockColoring := {
  selected_parent : option Hash;
  blues : gset Hash;
  mergeset_blues : list Hash;
  block_work : Z;
  blue_score : Z;
  blue_work : Z;
}.

Record Ghostdag := { config : GhostdagConfig; coloring : gmap Hash BlockColoring }.

Definition ghostdag_new (c : GhostdagConfig) : Ghostdag := {| config := c; coloring := ∅ |}.
Definition set_coloring (g : Ghostdag) (m : gmap Hash BlockColoring) : Ghostdag :=
  {| config := config g; coloring := m |}.
Definition colored (g : Ghostdag) (h : Hash) : bool := bool_decide (is_Some (coloring g !! h)).

Definition get_blue_score (g : Ghostdag) (h : Hash) : option Z := blue_score <$> coloring g !! h.
Definition get_blue_work (g : Ghostdag) (h : Hash) : option Z := blue_work <$> coloring g !! h.
Definition get_selected_parent (g : Ghostdag) (h : Hash) : option Hash :=
  coloring g !! h ≫= selected_parent.
Definition remove (g : Ghostdag) (h : Hash) : Ghostdag :=
  set_coloring g (delete h (coloring g)).

Definition snapshot (g : Ghostdag) (h : Hash) : option GhostdagSnapshot :=
  match coloring g !! h with
  | None => None
  | Some c => Some {|
      snap_selected_parent := selected_parent c;
      snap_blue_score := blue_score c;
      snap_blue_work := blue_work c;
      snap_block_work := block_work c;
      snap_mergeset_blues := sort_by Z.compare (mergeset_blues c) |}
  end.

Definition is_blue_in_view (g : Ghostdag) (tip block : Hash) : bool :=
  match coloring g !! tip with
  | Some c => bool_decide (block ∈ blues c)
  | None => false
  end.

(** [self.coloring[a]]: the indexing never meets an absent block
    ([add_fuel_spec]), so the default is not observable. *)
Definition no_coloring : BlockColoring :=
  {| selected_parent := None; blues := ∅; mergeset_blues := []; block_work := 0;
     blue_score := 0; blue_work := 0 |}.
Definition coloring_at (m : gmap Hash BlockColoring) (h : Hash) : BlockColoring :=
  default no_coloring (m !! h).

(** [rank_key]: blue work, then blue score, then hash bytes. *)
Definition rank_key (m : gmap Hash BlockColoring) (a b : Hash) : comparison :=
  then_with (blue_work (coloring_at m a) ?= blue_work (coloring_at m b))
    (then_with (blue_score (coloring_at m a) ?= blue_score (coloring_at m b)) (a ?= b)).

Definition import_snapshot (g : Ghostdag) (h : Hash) (s : GhostdagSnapshot)
  : Ghostdag * GhostdagData :=
  let base : gset Hash :=
    match snap_selected_parent s with
    | Some sp =>
      match coloring g !! sp with
      | Some parent => {[sp]} ∪ blues parent
      | None => ∅
      end
    | None => ∅
    end in
  let bs := {[h]} ∪ (list_to_set (snap_mergeset_blues s) ∪ base) in
  (set_coloring g (<[h := {|
      selected_parent := snap_selected_parent s;
      blues := bs;
      mergeset_blues := snap_mergeset_blues s;
      block_work := Z.max (snap_block_work s) 1;
      blue_score := snap_blue_score s;
      blue_work := snap_blue_work s |}]> (coloring g)),
   {| gd_selected_parent := snap_selected_parent s;
      gd_blue_score := snap_blue_score s;
      gd_blue_work := snap_blue_work s;
      is_blue_in_tip_view := bool_decide (h ∈ bs) |}).

(** Order of the merge set: blue score, then hash bytes. *)
Definition merge_cmp (m : gmap Hash BlockColoring) (a b : Hash) : comparison :=
  then_with (blue_score (coloring_at m a) ?= blue_score (coloring_at m b)) (a ?= b).

Definition merge_set (m : gmap Hash BlockColoring) (past_b past_sp : gset Hash)
  (block sp : Hash) : list Hash :=
  sort_by (merge_cmp m)
    (filter (fun h => (h <> block) /\ (h <> sp) /\ (h ∉ past_sp)) (elements past_b)).

Record MergeState := { ms_blues : gset Hash; ms_accepted : list Hash; ms_work : Z }.

(** The work a candidate contributes: [unwrap_or(1)] when it is not colored. *)
Definition candidate_work (m : gmap Hash BlockColoring) (h : Hash) : Z :=
  match m !! h with Some c => block_work c | None => 1 end.

(** One iteration of [for candidate in merge_set]. *)
Definition merge_step (d : Dag) (kk : Z) (m : gmap Hash BlockColoring)
  (st : MergeState) (candidate : Hash) : result ConsensusError MergeState :=
  let? ac := anticone d candidate in
  let blue_anticone := as_u32 (Z.of_nat (size (ac ∩ ms_blues st))) in
  Ok (if blue_anticone <=? kk then
        {| ms_blues := {[candidate]} ∪ ms_blues st;
           ms_accepted := ms_accepted st ++ [candidate];
           ms_work := saturating_add u128_max (ms_work st) (candidate_work m candidate) |}
      else st).

Definition genesis_coloring (block work : Z) : BlockColoring :=
  {| selected_parent := None; blues := {[block]}; mergeset_blues := [];
     block_work := work; blue_score := 1; blue_work := work |}.

(** The part of [add_block_with_work] after all parents are colored. *)
Definition color_block (d : Dag) (kk : Z) (m : gmap Hash BlockColoring)
  (block work : Z) (ps : list Hash) : result ConsensusError BlockColoring :=
  let? sp := ok_or (MissingBlock block) (max_by (rank_key m) ps) in
  let blues0 := {[sp]} ∪ blues (coloring_at m sp) in
  let? past_b := past_closure d block in
  let? past_sp := past_closure d sp in
  let? st := rfold (merge_step d kk m)
               {| ms_blues := blues0; ms_accepted := []; ms_work := 0 |}
               (merge_set m past_b past_sp block sp) in
  let bs := {[block]} ∪ ms_blues st in
  Ok {| selected_parent := Some sp;
        blues := bs;
        mergeset_blues := sort_by Z.compare (ms_accepted st);
        block_work := work;
        blue_score := Z.of_nat (size bs);
        blue_work := saturating_add u128_max
                       (saturating_add u128_max (blue_work (coloring_at m sp)) (ms_work st)) work |}.

Definition data_of (c : BlockColoring) (block : Hash) : GhostdagData :=
  {| gd_selected_parent := selected_parent c; gd_blue_score := blue_score c;
     gd_blue_work := blue_work c; is_blue_in_tip_view := bool_decide (block ∈ blues c) |}.

(** The loop [for parent in parents { if !colored { self.add_block(parent)? } }]. *)
Fixpoint color_parents (add : Ghostdag -> Hash -> Ghostdag * result ConsensusError GhostdagData)
  (g : Ghostdag) (ps : list Hash) : Ghostdag * result ConsensusError unit :=
  match ps with
  | [] => (g, Ok tt)
  | p :: ps' =>
    if colored g p then color_parents add g ps'
    else match add g p with
         | (g', Ok _) => color_parents add g' ps'
         | (g', Err e) => (g', Err e)
         end
  end.

(** [add_block_with_work], with the recursion depth bounded by the fuel. *)
Fixpoint add_fuel (fuel : nat) (d : Dag) (g : Ghostdag) (block work : Z)
  : Ghostdag * result ConsensusError GhostdagData :=
  match fuel with
  | O => (g, Err OutOfFuel)
  | S fuel' =>
    match coloring g !! block with
    | Some existing => (g, Ok (data_of existing block))
    | None =>
      let work := Z.max work 1 in
      match parents_of d block with
      | Err e => (g, Err e)
      | Ok [] =>
        let c := genesis_coloring block work in
        (set_coloring g (<[block := c]> (coloring g)), Ok (data_of c block))
      | Ok ps =>
        match color_parents (fun g p => add_fuel fuel' d g p 1) g ps with
        | (g1, Err e) => (g1, Err e)
        | (g1, Ok _) =>
          match color_block d (k (config g1)) (coloring g1) block work ps with
          | Err e => (g1, Err e)
          | Ok c => (set_coloring g1 (<[block := c]> (coloring g1)), Ok (data_of c block))
          end
        end
      end
    end
  end.

Definition add_block_with_work (d : Dag) (g : Ghostdag) (block work : Z)
  : Ghostdag * result ConsensusError GhostdagData :=
  add_fuel (S (length (order d))) d g block work.
Definition add_block (d : Dag) (g : Ghostdag) (block : Hash) := add_block_with_work d g block 1.

Definition select_virtual_tip (g : Ghostdag) (tips : list Hash) : option Hash :=
  max_by (rank_key (coloring g)) (filter (fun h => is_Some (coloring g !! h)) tips).
Definition select_parent_among (g : Ghostdag) (ps : list Hash) : option Hash :=
  max_by (rank_key (coloring g)) (filter (fun h => is_Some (coloring g !! h)) ps).

(** Blues first, by ascending blue score; ties by hash bytes. *)
Definition order_cmp (a b : OrderedBlock) : comparison :=
  then_with (bool_cmp (ob_is_blue b) (ob_is_blue a))
    (then_with (ob_blue_score a ?= ob_blue_score b) (ob_hash a ?= ob_hash b)).

Definition ordered_block (g : Ghostdag) (tip_blues : gset Hash) (h : Hash) : OrderedBlock :=
  {| ob_hash := h; ob_blue_score := blue_score (coloring_at (coloring g) h);
     ob_is_blue := bool_decide (h ∈ tip_blues) |}.

Definition order_past_view (d : Dag) (g : Ghostdag) (tip : Hash)
  : result ConsensusError (list OrderedBlock) :=
  let? past := past_closure d tip in
  let? c := ok_or (MissingBlock tip) (coloring g !! tip) in
  Ok (sort_by order_cmp (ordered_block g (blues c) <$> elements past)).

(** [order_past]: color every block in insertion order, then order the view. *)
Fixpoint color_all (d : Dag) (g : Ghostdag) (hs : list Hash) : Ghostdag * result ConsensusError unit :=
  match hs with
  | [] => (g, Ok tt)
  | h :: hs' =>
    match add_block d g h with
    | (g', Ok _) => color_all d g' hs'
    | (g', Err e) => (g', Err e)
    end
  end.
Definition order_past (d : Dag) (g : Ghostdag) (tip : Hash)
  : Ghostdag * result ConsensusError (list OrderedBlock) :=
  match color_all d g (blocks_in_insert_order d) with
  | (g', Ok _) => (g', order_past_view d g' tip)
  | (g', Err e) => (g', Err e)
  end.

Definition blue_order (d : Dag) (g : Ghostdag) (tip : Hash) : result ConsensusError (list Hash) :=
  let? ordered := order_past_view d g tip in
  Ok (ob_hash <$> filter (fun b => ob_is_blue b = true) ordered).

(** [order_tip]: the compatibility helper that numbers the parents. *)
Definition order_tip (tip : Hash) (ps : list Hash) : list OrderedBlock :=
  imap (fun i p => {| ob_hash := p; ob_blue_score := Z.of_nat i; ob_is_blue := true |}) ps ++
  [{| ob_hash := tip; ob_blue_score := Z.of_nat (length ps); ob_is_blue := true |}].

(** ** The comparators separate distinct blocks *)

Lemma rank_key_strict m : StrictCmp (rank_key m).
Proof.
  apply (then_strict (fun a b => blue_work (coloring_at m a) ?= blue_work (coloring_at m b))).
  - apply (on_total (fun a => blue_work (coloring_at m a)) Z.compare). apply _.
  - apply then_strict; [|apply _].
    apply (on_total (fun a => blue_score (coloring_at m a)) Z.compare). apply _.
Qed.
Lemma merge_cmp_strict m : StrictCmp (merge_cmp m).
Proof.
  apply then_strict; [|apply _].
  apply (on_total (fun a => blue_score (coloring_at m a)) Z.compare). apply _.
Qed.
Lemma order_cmp_strict : StrictCmp order_cmp.
Proof.
  split.
  - apply then_total.
    { apply (flip_total (fun a b => bool_cmp (ob_is_blue a) (ob_is_blue b))).
      apply (on_total ob_is_blue bool_cmp). apply _. }
    apply then_total; [apply (on_total ob_blue_score Z.compare); apply _|].
    apply (on_total ob_hash Z.compare). apply _.
  - intros [h1 s1 b1] [h2 s2 b2]. unfold order_cmp, then_with. simpl.
    destruct (bool_cmp b2 b1) eqn:Eb; try done.
    destruct (s1 ?= s2) eqn:Es; try done. intros Eh.
    apply Z.compare_eq in Es, Eh. apply (cmp_eq bool_cmp) in Eb. by subst.
Qed.
#[export] Existing Instances rank_key_strict merge_cmp_strict order_cmp_strict.

(** ** The merge-set loop *)

Lemma merge_step_Ok d kk m st x st' :
  merge_step d kk m st x = Ok st' ->
  exists ac, anticone d x = Ok ac /\
    ((as_u32 (Z.of_nat (size (ac ∩ ms_blues st))) <= kk /\
      ms_blues st' = {[x]} ∪ ms_blues st /\ ms_accepted st' = ms_accepted st ++ [x] /\
      ms_work st' = saturating_add u128_max (ms_work st) (candidate_work m x)) \/
     (kk < as_u32 (Z.of_nat (size (ac ∩ ms_blues st))) /\ st' = st)).
Proof.
  unfold merge_step. intros H. inv_ok. eexists. split; [done|].
  subst. destruct (Z.leb_spec (as_u32 (Z.of_nat (size (a ∩ ms_blues st)))) kk); simpl; auto.
Qed.

(** Greedy acceptance: each accepted block has at most [k] blues in its
    anticone at the moment of its acceptance, each rejected one has more. *)
Inductive greedy (d : Dag) (kk : Z) : gset Hash -> list Hash -> list Hash -> Prop :=
| greedy_nil bs : greedy d kk bs [] []
| greedy_accept bs x l acc ac :
    anticone d x = Ok ac -> as_u32 (Z.of_nat (size (ac ∩ bs))) <= kk ->
    greedy d kk ({[x]} ∪ bs) l acc -> greedy d kk bs (x :: l) (x :: acc)
| greedy_reject bs x l acc ac :
    anticone d x = Ok ac -> kk < as_u32 (Z.of_nat (size (ac ∩ bs))) ->
    greedy d kk bs l acc -> greedy d kk bs (x :: l) acc.

Definition add_works (m : gmap Hash BlockColoring) (w : Z) (l : list Hash) : Z :=
  foldl (fun w x => saturating_add u128_max w (candidate_work m x)) w l.

Lemma merge_loop d kk m l st st' :
  rfold (merge_step d kk m) st l = Ok st' ->
  exists acc, greedy d kk (ms_blues st) l acc /\
    ms_accepted st' = ms_accepted st ++ acc /\
    ms_blues st' = list_to_set acc ∪ ms_blues st /\
    ms_work st' = add_works m (ms_work st) acc.
Proof.
  revert st. induction l as [|x l IH]; intros st H; simpl in H.
  { simplify_eq. exists []. rewrite app_nil_r. split; [constructor|]. set_solver. }
  apply rbind_Ok in H as (st1 & Hs & (acc & Hg & Ha & Hb & Hw)%IH).
  apply merge_step_Ok in Hs as (ac & Hac & [(Hk & Eb & Ea & Ew)|[Hk ->]]).
  - exists (x :: acc). rewrite Eb in *. split; [by eapply greedy_accept|].
    rewrite Ha, Ea, Hb, Hw, Ew, <- app_assoc. simpl. split; [done|]. split; [set_solver|done].
  - exists acc. split; [by eapply greedy_reject|done].
Qed.

Lemma merge_loop_total d kk m l st :
  wf_dag d -> (forall x, x ∈ l -> is_Some (parents d !! x)) ->
  exists st', rfold (merge_step d kk m) st l = Ok st'.
Proof.
  intros Hwf. revert st. induction l as [|x l IH]; intros st Hl; [by eexists|]. simpl.
  destruct (anticone_spec d x Hwf) as (ac & Hac & _); [apply Hl; left|].
  unfold merge_step at 1. rewrite Hac. simpl. apply IH. intros y Hy. apply Hl. by right.
Qed.

Lemma greedy_sub d kk bs l acc : greedy d kk bs l acc -> acc ⊆ l.
Proof. induction 1; set_solver. Qed.

(** ** What coloring a block computes *)

(** [c] is the coloring of [b] over the colorings [m] of its parents [ps]. *)
Record colors_as (d : Dag) (kk : Z) (m : gmap Hash BlockColoring) (b : Hash)
    (ps : list Hash) (c : BlockColoring) (sp : Hash) (acc : list Hash) : Prop := {
  ca_sp : selected_parent c = Some sp;
  ca_sp_max : max_by (rank_key m) ps = Some sp;
  ca_greedy : exists ms, greedy d kk ({[sp]} ∪ blues (coloring_at m sp)) ms acc /\
    StronglySorted (cmp_le (merge_cmp m)) ms /\
    forall x, x ∈ ms <-> past d b x /\ x <> b /\ ~ past d sp x;
  ca_blues : blues c = {[b]} ∪ (list_to_set acc ∪ ({[sp]} ∪ blues (coloring_at m sp)));
  ca_mergeset : mergeset_blues c = sort_by Z.compare acc;
  ca_score : blue_score c = Z.of_nat (size (blues c));
  ca_work : blue_work c = saturating_add u128_max
    (saturating_add u128_max (blue_work (coloring_at m sp)) (add_works m 0 acc)) (block_work c);
}.

Lemma merge_set_elem m past_b past_sp block sp x :
  x ∈ merge_set m past_b past_sp block sp <->
  x ∈ past_b /\ x <> block /\ x <> sp /\ x ∉ past_sp.
Proof.
  unfold merge_set. rewrite elem_of_sort_by, list_elem_of_filter, elem_of_elements. naive_solver.
Qed.

Lemma max_parent m ps sp : max_by (rank_key m) ps = Some sp -> sp ∈ ps.
Proof. intros H. apply max_by_Some in H as [? _]; [done|apply _]. Qed.

Lemma color_block_Ok d kk m b w ps c :
  wf_dag d -> color_block d kk m b w ps = Ok c ->
  block_work c = w /\ exists sp acc, colors_as d kk m b ps c sp acc.
Proof.
  intros Hwf H. unfold color_block in H.
  apply rbind_Ok in H as (sp & Hsp%ok_or_Ok & H).
  apply rbind_Ok in H as (pb & Hb & H). apply rbind_Ok in H as (psp & Hps & H).
  apply rbind_Ok in H as (st & Hloop & H). injection H as <-. simpl.
  apply past_closure_Ok in Hb as [? Hb]; [|done].
  apply past_closure_Ok in Hps as [? Hps]; [|done].
  apply merge_loop in Hloop as (acc & Hg & Ha & Hbl & Hw). simpl in *.
  split; [done|]. exists sp, acc.
  split; simpl; try done.
  - eexists. split; [exact Hg|]. split; [apply sort_by_sorted, _|]. intros x.
    rewrite merge_set_elem, Hb, Hps. split; [naive_solver|]. intros (? & ? & Hn).
    repeat split; try done. intros ->. apply Hn, rtc_refl.
  - by rewrite Hbl.
  - by rewrite Ha.
  - by rewrite Hw.
Qed.

Lemma parent_past d b ps p : parents d !! b = Some ps -> p ∈ ps -> past d b p.
Proof. intros Hb Hp. eapply rtc_l; [by exists ps|apply rtc_refl]. Qed.

Lemma parent_neq d b ps p : wf_dag d -> parents d !! b = Some ps -> p ∈ ps -> ~ past d p b.
Proof.
  intros Hwf Hb Hp Hpb. assert (p = b) as ->.
  { symmetry. apply (past_antisym d b p Hwf); [by eexists| |done]. by eapply parent_past. }
  assert (b ∈ order d) as (l1 & l2 & Ho)%list_elem_of_split by (by apply (wf_dom d Hwf); eexists).
  assert (b ∈ l1) as Hbl by (by apply (wf_topo d Hwf l1 b l2 ps)).
  pose proof (wf_nodup d Hwf) as Hnd. rewrite Ho in Hnd.
  apply NoDup_app in Hnd as (_ & Hd & _). apply (Hd b Hbl). left.
Qed.

Lemma color_block_total d kk m b w ps :
  wf_dag d -> parents d !! b = Some ps -> ps <> [] ->
  exists c, color_block d kk m b w ps = Ok c.
Proof.
  intros Hwf Hb Hps. unfold color_block.
  destruct (max_by_is_Some (rank_key m) ps Hps) as [sp Hsp]. rewrite Hsp. simpl.
  pose proof (max_parent m ps sp Hsp) as Hin.
  destruct (past_closure_spec d b Hwf) as (pb & -> & Hpb); [by eexists|]. simpl.
  destruct (past_closure_spec d sp Hwf) as (psp & -> & Hpsp).
  { eapply wf_parents_dom; [done|]. by exists ps. }
  simpl. edestruct (merge_loop_total d kk m (merge_set m pb psp b sp)) as [st ->]; [done| |].
  { intros x (Hx & _)%merge_set_elem. apply Hpb in Hx. eapply past_dom; [done| |done]. by eexists. }
  simpl. by eexists.
Qed.

(** ** Only the strict past matters *)

Definition agree_past (d : Dag) (b : Hash) (m1 m2 : gmap Hash BlockColoring) : Prop :=
  forall x, past d b x -> x <> b -> m1 !! x = m2 !! x.

Lemma color_block_agree d kk m1 m2 b w ps :
  wf_dag d -> parents d !! b = Some ps -> agree_past d b m1 m2 ->
  color_block d kk m1 b w ps = color_block d kk m2 b w ps.
Proof.
  intros Hwf Hb Hag.
  assert (forall x, past d b x -> x <> b -> coloring_at m1 x = coloring_at m2 x) as Hat.
  { intros x Hx Hne. unfold coloring_at. by rewrite (Hag x). }
  assert (forall p, p ∈ ps -> coloring_at m1 p = coloring_at m2 p) as Hpar.
  { intros p Hp. apply Hat; [by eapply parent_past|].
    intros ->. eapply parent_neq; [done..|]. apply rtc_refl. }
  unfold color_block.
  rewrite (max_by_ext (rank_key m1) (rank_key m2) ps); cycle 1.
  { intros a a' Ha Ha'. unfold rank_key. by rewrite !Hpar. }
  destruct (max_by (rank_key m2) ps) as [sp|] eqn:Hsp; simpl; [|done].
  rewrite (Hpar sp) by (by eapply max_parent).
  destruct (past_closure d b) as [pb|] eqn:Hpb; simpl; [|done].
  destruct (past_closure d sp) as [psp|]; simpl; [|done].
  apply past_closure_Ok in Hpb as [_ Hpb]; [|done].
  assert (merge_set m1 pb psp b sp = merge_set m2 pb psp b sp) as ->.
  { unfold merge_set. apply sort_by_ext.
    intros x y [(? & ? & ?) Hx%elem_of_elements]%list_elem_of_filter
      [(? & ? & ?) Hy%elem_of_elements]%list_elem_of_filter.
    unfold merge_cmp. rewrite !Hat; naive_solver. }
  rewrite (rfold_ext (merge_step d kk m1) (merge_step d kk m2) (fun _ => True)); [done..| |done].
  intros st x _ (Hx & Hxb & _)%merge_set_elem. unfold merge_step, candidate_work.
  rewrite (Hag x); [done|by apply Hpb|done].
Qed.

(** ** Only the blocks, not the DAG around them, matter

    Two nodes hold different DAGs (other arrival order, other extra blocks),
    but a hash determines the parents of its block. *)

Definition compatible (d1 d2 : Dag) : Prop :=
  forall b ps1 ps2, parents d1 !! b = Some ps1 -> parents d2 !! b = Some ps2 -> ps1 = ps2.

Definition in_both (d1 d2 : Dag) (b : Hash) : Prop :=
  is_Some (parents d1 !! b) /\ is_Some (parents d2 !! b).

Lemma compatible_sym d1 d2 : compatible d1 d2 -> compatible d2 d1.
Proof. intros Hc b ps1 ps2 H1 H2. symmetry. by eapply Hc. Qed.

Lemma past_compatible d1 d2 b x :
  wf_dag d1 -> wf_dag d2 -> compatible d1 d2 -> in_both d1 d2 b ->
  past d1 b x -> past d2 b x /\ in_both d1 d2 x.
Proof.
  intros Hw1 Hw2 Hc Hb Hx. induction Hx as [|b p x (ps & Hps & Hp) _ IH]; [split; [apply rtc_refl|done]|].
  destruct Hb as [_ [ps2 Hps2]]. assert (ps = ps2) as -> by (by eapply Hc).
  destruct IH as [Hpx Hin].
  - split; eapply wf_parents_dom; try done; by exists ps2.
  - split; [|done]. eapply rtc_l; [|done]. by exists ps2.
Qed.

Lemma past_compatible_iff d1 d2 b x :
  wf_dag d1 -> wf_dag d2 -> compatible d1 d2 -> in_both d1 d2 b -> past d1 b x <-> past d2 b x.
Proof.
  intros Hw1 Hw2 Hc Hb. split; intros Hx.
  - by apply (past_compatible d1 d2).
  - apply (past_compatible d2 d1); [done..|by apply compatible_sym| |done].
    destruct Hb. by split.
Qed.

Lemma past_closure_compatible d1 d2 b :
  wf_dag d1 -> wf_dag d2 -> compatible d1 d2 -> in_both d1 d2 b ->
  past_closure d1 b = past_closure d2 b.
Proof.
  intros Hw1 Hw2 Hc Hb. destruct Hb as [H1 H2] eqn:E. clear E.
  destruct (past_closure_spec d1 b Hw1 H1) as (s1 & -> & Hs1).
  destruct (past_closure_spec d2 b Hw2 H2) as (s2 & -> & Hs2).
  f_equal. apply set_eq. intros x. rewrite Hs1, Hs2. by apply past_compatible_iff.
Qed.

(** The anticones differ, but not inside a set of common blocks. *)
Lemma merge_step_compatible d1 d2 kk m st x :
  wf_dag d1 -> wf_dag d2 -> compatible d1 d2 -> in_both d1 d2 x ->
  (forall y, y ∈ ms_blues st -> in_both d1 d2 y) ->
  merge_step d1 kk m st x = merge_step d2 kk m st x.
Proof.
  intros Hw1 Hw2 Hc Hx Hst. unfold merge_step.
  destruct (anticone_spec d1 x Hw1) as (a1 & -> & Ha1); [apply Hx|].
  destruct (anticone_spec d2 x Hw2) as (a2 & -> & Ha2); [apply Hx|]. simpl.
  assert (a1 ∩ ms_blues st = a2 ∩ ms_blues st) as ->; [|done].
  apply set_eq. intros y. rewrite !elem_of_intersection, Ha1, Ha2.
  split; intros [(Hd & Hp & Hf) Hy]; pose proof (Hst y Hy) as Hyb; destruct Hyb;
    (split; [|done]); split; try done; split.
  - by rewrite <- (past_compatible_iff d1 d2).
  - by rewrite <- (past_compatible_iff d1 d2).
  - by rewrite (past_compatible_iff d1 d2).
  - by rewrite (past_compatible_iff d1 d2).
Qed.

Lemma color_block_compatible d1 d2 kk m b w ps :
  wf_dag d1 -> wf_dag d2 -> compatible d1 d2 -> in_both d1 d2 b ->
  parents d1 !! b = Some ps ->
  (forall p x, p ∈ ps -> x ∈ blues (coloring_at m p) -> past d1 p x) ->
  color_block d1 kk m b w ps = color_block d2 kk m b w ps.
Proof.
  intros Hw1 Hw2 Hc Hb Hps Hbl. unfold color_block.
  destruct (max_by (rank_key m) ps) as [sp|] eqn:Hsp; simpl; [|done].
  assert (sp ∈ ps) as Hin by (by eapply max_parent).
  assert (forall x, past d1 b x -> in_both d1 d2 x) as Hpast.
  { intros x Hx. by apply (past_compatible d1 d2 b x). }
  assert (past d1 b sp) as Hbsp by (by eapply parent_past).
  rewrite <- !(past_closure_compatible d1 d2) by auto.
  destruct (past_closure d1 b) as [pb|] eqn:Hpb; simpl; [|done].
  destruct (past_closure d1 sp) as [psp|]; simpl; [|done].
  apply past_closure_Ok in Hpb as [_ Hpb]; [|done].
  rewrite (rfold_ext (merge_step d1 kk m) (merge_step d2 kk m)
             (fun st => forall y, y ∈ ms_blues st -> in_both d1 d2 y)); [done|..]; simpl.
  - intros y [->%elem_of_singleton|Hy]%elem_of_union; [by apply Hpast|].
    apply Hpast. etransitivity; [done|]. by apply Hbl.
  - intros st x Hst (Hx & _)%merge_set_elem. apply merge_step_compatible; auto.
    apply Hpast. by apply Hpb.
  - intros st x st' Hst (Hx & _)%merge_set_elem (ac & _ & [(_ & -> & _)|[_ ->]])%merge_step_Ok; [|done].
    intros y [->%elem_of_singleton|Hy]%elem_of_union; [|by apply Hst]. apply Hpast. by apply Hpb.
Qed.

(** ** The engine's invariant *)

(** The coloring of [b] recomputed over the map [m]. *)
Definition color_entry (d : Dag) (kk : Z) (m : gmap Hash BlockColoring) (b w : Z)
  : result ConsensusError BlockColoring :=
  let? ps := parents_of d b in
  match ps with
  | [] => Ok (genesis_coloring b w)
  | _ => color_block d kk m b w ps
  end.

(** Every coloring belongs to a block of the DAG whose parents are colored, is
    the one recomputed from them, and its blues are ancestors. *)
Record wf_gd (d : Dag) (g : Ghostdag) : Prop := {
  gd_closed b c : coloring g !! b = Some c ->
    exists ps, parents d !! b = Some ps /\ forall p, p ∈ ps -> is_Some (coloring g !! p);
  gd_entry b c : coloring g !! b = Some c ->
    color_entry d (k (config g)) (coloring g) b (block_work c) = Ok c /\ 1 <= block_work c;
  gd_blues b c : coloring g !! b = Some c ->
    b ∈ blues c /\ forall x, x ∈ blues c -> past d b x;
}.

Lemma wf_gd_new d cfg : wf_gd d (ghostdag_new cfg).
Proof. by split; intros b c; simpl; rewrite lookup_empty. Qed.

Lemma gd_past_colored d g b x :
  wf_gd d g -> is_Some (coloring g !! b) -> past d b x -> is_Some (coloring g !! x).
Proof.
  intros Hg Hb Hx. revert Hb. induction Hx as [|b p x (ps & Hps & Hp) _ IH]; [done|].
  intros [c Hc]. apply IH. destruct (gd_closed d g Hg b c Hc) as (ps' & ? & Hcol).
  simplify_eq. by apply Hcol.
Qed.

(** The colorings of two engines agree wherever the works agree. *)
Lemma coloring_unique d1 d2 g1 g2 b c1 c2 :
  wf_dag d1 -> wf_dag d2 -> compatible d1 d2 -> wf_gd d1 g1 -> wf_gd d2 g2 ->
  config g1 = config g2 ->
  (forall x a1 a2, coloring g1 !! x = Some a1 -> coloring g2 !! x = Some a2 ->
     block_work a1 = block_work a2) ->
  coloring g1 !! b = Some c1 -> coloring g2 !! b = Some c2 -> c1 = c2.
Proof.
  intros Hw1 Hw2 Hc Hg1 Hg2 Hcfg Hworks.
  cut (forall n l1 l2 b c1 c2, length l1 = n -> order d1 = l1 ++ b :: l2 ->
    coloring g1 !! b = Some c1 -> coloring g2 !! b = Some c2 -> c1 = c2).
  { intros Hcut H1 H2. assert (b ∈ order d1) as (l1 & l2 & Ho)%list_elem_of_split.
    { apply (wf_dom d1 Hw1). destruct (gd_closed d1 g1 Hg1 b c1 H1) as (ps & ? & _). by exists ps. }
    by eapply Hcut. }
  clear b c1 c2. intros n. induction (lt_wf n) as [n _ IH]. intros l1 l2 b c1 c2 Hn Ho H1 H2.
  assert (agree_past d1 b (coloring g1) (coloring g2)) as Hag.
  { intros x Hx Hne. destruct (topo_before d1 l1 b l2 x Hw1 Ho Hx) as [|Hxl]; [done|].
    apply list_elem_of_split in Hxl as (k1 & k2 & ->).
    destruct (gd_past_colored d1 g1 b x Hg1) as [a1 Ha1]; [by eexists|done|].
    destruct (gd_closed d1 g1 Hg1 b c1 H1) as (ps1 & Hps1 & _).
    destruct (gd_closed d2 g2 Hg2 b c2 H2) as (ps2 & Hps2 & _).
    destruct (past_compatible d1 d2 b x Hw1 Hw2 Hc) as [Hx2 _]; [by split; eexists|done|].
    destruct (gd_past_colored d2 g2 b x Hg2) as [a2 Ha2]; [by eexists|done|].
    rewrite Ha1, Ha2. f_equal. rewrite <- app_assoc in Ho. simpl in Ho.
    eapply (IH (length k1)); [|done|exact Ho|done|done].
    subst n. rewrite length_app. simpl. lia. }
  destruct (gd_entry d1 g1 Hg1 b c1 H1) as [E1 _]. destruct (gd_entry d2 g2 Hg2 b c2 H2) as [E2 _].
  destruct (gd_closed d1 g1 Hg1 b c1 H1) as (ps & Hps & Hcol).
  destruct (gd_closed d2 g2 Hg2 b c2 H2) as (ps' & Hps' & _).
  assert (ps = ps') as <- by (by eapply Hc).
  unfold color_entry, parents_of in *. rewrite Hps in E1. rewrite Hps' in E2. simpl in *.
  rewrite (Hworks b c1 c2 H1 H2), Hcfg in E1.
  destruct ps as [|p ps0]; [congruence|].
  rewrite (color_block_agree d1 _ _ (coloring g2)) in E1 by done.
  rewrite (color_block_compatible d1 d2) in E1; [congruence|done..|by split; eexists|done|].
  intros q x Hq Hx. rewrite (past_compatible_iff d1 d2); [|done..|].
  - destruct (Hcol q Hq) as [a1 Ha1].
    assert (coloring g2 !! q = Some a1) as Ha2.
    { rewrite <- Hag; [done|by eapply parent_past|].
      intros ->. eapply (parent_neq d1); [done..|]. apply rtc_refl. }
    unfold coloring_at in Hx. rewrite Ha2 in Hx. by eapply (gd_blues d2 g2 Hg2).
  - split; eapply wf_parents_dom; try done; eexists; by split.
Qed.

(** ** Coloring one more block *)

Lemma color_entry_agree d kk m1 m2 b w :
  wf_dag d -> agree_past d b m1 m2 -> color_entry d kk m1 b w = color_entry d kk m2 b w.
Proof.
  intros Hwf Hag. unfold color_entry, parents_of.
  destruct (parents d !! b) as [[|p ps]|] eqn:Hb; simpl; [done| |done].
  by apply color_block_agree.
Qed.

Lemma agree_insert d b x c (m : gmap Hash BlockColoring) :
  ~ past d x b -> agree_past d x m (<[b := c]> m).
Proof. intros Hn y Hy _. rewrite lookup_insert_ne; [done|]. by intros ->. Qed.

(** A coloring that [color_entry] computes has its blues in the past. *)
Lemma color_entry_blues d g b w c ps :
  wf_dag d -> wf_gd d g -> parents d !! b = Some ps ->
  (forall p, p ∈ ps -> is_Some (coloring g !! p)) ->
  color_entry d (k (config g)) (coloring g) b w = Ok c ->
  block_work c = w /\ b ∈ blues c /\ forall x, x ∈ blues c -> past d b x.
Proof.
  intros Hwf Hg Hps Hcol. unfold color_entry, parents_of. rewrite Hps. simpl.
  destruct ps as [|p ps].
  - intros [= <-]. simpl. repeat split; [set_solver|]. intros x ->%elem_of_singleton. done.
  - intros (Hw & sp & acc & Hca)%color_block_Ok; [|done]. split; [done|].
    destruct Hca as [_ Hsp (ms & Hgr & _ & Hms) Hbl _ _ _]. rewrite Hbl.
    apply max_parent in Hsp. pose proof (greedy_sub _ _ _ _ _ Hgr) as Hsub.
    assert (past d b sp) by (by eapply parent_past).
    split; [set_solver|]. intros x. rewrite !elem_of_union, !elem_of_singleton, elem_of_list_to_set.
    intros [->|[Hx|[->|Hx]]]; [done|by apply Hms, Hsub|done|].
    etransitivity; [done|]. destruct (Hcol sp Hsp) as [csp Hcsp].
    unfold coloring_at in Hx. rewrite Hcsp in Hx. by eapply (gd_blues d g Hg).
Qed.

Lemma wf_gd_insert d g b w c ps :
  wf_dag d -> wf_gd d g -> coloring g !! b = None -> parents d !! b = Some ps ->
  (forall p, p ∈ ps -> is_Some (coloring g !! p)) -> 1 <= w ->
  color_entry d (k (config g)) (coloring g) b w = Ok c ->
  wf_gd d (set_coloring g (<[b := c]> (coloring g))).
Proof.
  intros Hwf Hg Hb Hps Hcol Hw Hc.
  destruct (color_entry_blues d g b w c ps Hwf Hg Hps Hcol Hc) as (Hcw & Hbb & Hbp).
  assert (forall p, is_Some (coloring g !! p) -> is_Some (<[b := c]> (coloring g) !! p)) as Hmono.
  { intros p Hp. destruct (decide (b = p)) as [->|].
    - rewrite lookup_insert_eq. by eexists.
    - by rewrite lookup_insert_ne. }
  split; simpl; intros x cx [[<- <-]|[Hne Hx]]%lookup_insert_Some.
  - exists ps. eauto.
  - destruct (gd_closed d g Hg x cx Hx) as (qs & ? & ?). exists qs. eauto.
  - rewrite Hcw. split; [|done]. rewrite <- Hc. symmetry. apply color_entry_agree; [done|].
    intros y Hy Hyb. by rewrite lookup_insert_ne.
  - destruct (gd_entry d g Hg x cx Hx) as [He Hpos]. split; [|done].
    etransitivity; [symmetry|exact He]. apply color_entry_agree; [done|]. apply agree_insert.
    intros Hxb. destruct (gd_past_colored d g x b Hg) as [? ?]; [by eexists|done|congruence].
  - by split.
  - by apply (gd_blues d g Hg x cx).
Qed.

(** What a successful call leaves behind. *)
Record add_post (d : Dag) (g g' : Ghostdag) (b w : Z) (r : GhostdagData) : Prop := {
  ap_wf : wf_gd d g';
  ap_config : config g' = config g;
  ap_mono : coloring g ⊆ coloring g';
  ap_new x : is_Some (coloring g' !! x) -> is_Some (coloring g !! x) \/ past d b x;
  ap_result : exists c, coloring g' !! b = Some c /\ r = data_of c b /\
    (coloring g !! b = None -> block_work c = Z.max w 1);
}.

Definition add_total (fuel : nat) (d : Dag) : Prop :=
  forall g l1 b l2 w, wf_gd d g -> order d = l1 ++ b :: l2 -> (length l1 < fuel)%nat ->
    exists g' r, add_fuel fuel d g b w = (g', Ok r) /\ add_post d g g' b w r.

Lemma color_parents_spec fuel d l1 b l2 ps g :
  wf_dag d -> add_total fuel d -> order d = l1 ++ b :: l2 -> (length l1 <= fuel)%nat ->
  parents d !! b = Some ps -> wf_gd d g -> forall qs, qs ⊆ ps ->
  exists g', color_parents (fun g p => add_fuel fuel d g p 1) g qs = (g', Ok tt) /\
    wf_gd d g' /\ config g' = config g /\ coloring g ⊆ coloring g' /\
    (forall p, p ∈ qs -> is_Some (coloring g' !! p)) /\
    (forall x, is_Some (coloring g' !! x) -> is_Some (coloring g !! x) \/ (past d b x /\ x <> b)).
Proof.
  intros Hwf Hadd Ho Hf Hps Hg qs. revert g Hg.
  induction qs as [|p qs IH]; intros g Hg Hsub; simpl.
  { exists g. split_and!; [done..|by intros ? ?%elem_of_nil|by left]. }
  assert (p ∈ ps) as Hp by set_solver.
  assert (qs ⊆ ps) as Hqs by set_solver.
  unfold colored. case_bool_decide as Hcp.
  - destruct (IH g Hg Hqs) as (g' & -> & Hg' & Hcf & Hm & Hall & Hnew).
    exists g'. split_and!; [done..| |done]. intros q [->|Hq]%elem_of_cons; [|auto].
    destruct Hcp as [c Hc]. exists c. by eapply lookup_weaken.
  - assert (p ∈ l1) as Hpl by (by apply (wf_topo d Hwf l1 b l2 ps)).
    apply list_elem_of_split in Hpl as (k1 & k2 & ->). rewrite <- app_assoc in Ho.
    rewrite length_app in Hf. simpl in Ho, Hf.
    destruct (Hadd g k1 p _ 1 Hg Ho) as (g1 & r & -> & [Hw1 Hc1 Hm1 Hn1 (c & Hc & _)]); [lia|].
    destruct (IH g1 Hw1 Hqs) as (g' & -> & Hg' & Hcf & Hm & Hall & Hnew).
    exists g'. split_and!; [done|done|congruence|by etrans| |].
    + intros q [->|Hq]%elem_of_cons; [|auto]. exists c. by eapply lookup_weaken.
    + intros x [[Hx|Hx]%Hn1|]%Hnew; [by left| |by right]. right. split.
      * etransitivity; [|done]. by eapply parent_past.
      * intros ->. by eapply (parent_neq d).
Qed.

Lemma add_fuel_step fuel d g b w :
  coloring g !! b = None ->
  add_fuel (S fuel) d g b w =
  match parents_of d b with
  | Err e => (g, Err e)
  | Ok ps =>
    match color_parents (fun g p => add_fuel fuel d g p 1) g ps with
    | (g1, Err e) => (g1, Err e)
    | (g1, Ok _) =>
      match color_entry d (k (config g1)) (coloring g1) b (Z.max w 1) with
      | Err e => (g1, Err e)
      | Ok c => (set_coloring g1 (<[b := c]> (coloring g1)), Ok (data_of c b))
      end
    end
  end.
Proof.
  intros Hb. simpl. rewrite Hb. unfold color_entry.
  destruct (parents_of d b) as [[|p ps]|e] eqn:E; simpl; [done| |done].
  case_match. case_match; [|done]. done.
Qed.

Lemma add_fuel_total fuel d : wf_dag d -> add_total fuel d.
Proof.
  intros Hwf. induction fuel as [|fuel IH]; intros g l1 b l2 w Hg Ho Hf; [lia|].
  destruct (coloring g !! b) as [c|] eqn:Hb.
  { exists g, (data_of c b). simpl. rewrite Hb. split; [done|]. split; try done; [by left|].
    exists c. repeat split; [done|congruence]. }
  rewrite (add_fuel_step _ _ _ _ _ Hb). unfold parents_of.
  assert (is_Some (parents d !! b)) as [ps Hps].
  { apply (wf_dom d Hwf). rewrite Ho. set_solver. }
  rewrite Hps. simpl.
  destruct (color_parents_spec fuel d l1 b l2 ps g) with (qs := ps)
    as (g1 & -> & Hg1 & Hcf & Hm & Hall & Hnew); try done; [lia|].
  assert (coloring g1 !! b = None) as Hb1.
  { apply eq_None_not_Some. intros [[? ?]|[_ ?]]%Hnew; congruence. }
  assert (exists c, color_entry d (k (config g1)) (coloring g1) b (Z.max w 1) = Ok c) as [c Hc].
  { unfold color_entry, parents_of. rewrite Hps. simpl. destruct ps; [by eexists|].
    by apply color_block_total. }
  rewrite Hc.
  destruct (color_entry_blues d g1 b _ c ps Hwf Hg1 Hps Hall Hc) as (Hcw & _ & _).
  eexists _, _. split; [done|]. split; simpl; [|done| | |].
  - apply (wf_gd_insert d g1 b (Z.max w 1) c ps); try done. lia.
  - etrans; [exact Hm|]. by apply insert_subseteq.
  - intros x [cx [[<- _]|[_ Hx]]%lookup_insert_Some]; [by right|].
    destruct (Hnew x) as [|[? _]]; [by eexists|by left|by right].
  - exists c. by rewrite lookup_insert_eq.
Qed.

Lemma add_block_post d g b w :
  wf_dag d -> wf_gd d g -> is_Some (parents d !! b) ->
  exists g' r, add_block_with_work d g b w = (g', Ok r) /\ add_post d g g' b w r.
Proof.
  intros Hwf Hg Hb. assert (b ∈ order d) as (l1 & l2 & Ho)%list_elem_of_split by (by apply (wf_dom d Hwf)).
  unfold add_block_with_work. eapply add_fuel_total; [done..|].
  rewrite Ho, length_app. simpl. lia.
Qed.

(** ** Histories of a node's DAG and engine *)

(** The invariant transports to any DAG that holds the colored blocks. *)
Lemma wf_gd_transport d d' g :
  wf_dag d -> wf_dag d' -> compatible d d' -> wf_gd d g ->
  (forall b, is_Some (coloring g !! b) -> is_Some (parents d' !! b)) -> wf_gd d' g.
Proof.
  intros Hw Hw' Hc Hg Hin.
  assert (forall b c, coloring g !! b = Some c -> in_both d d' b) as Hboth.
  { intros b c Hb. split; [|apply Hin; by eexists].
    destruct (gd_closed d g Hg b c Hb) as (ps & ? & _). by exists ps. }
  split; intros b c Hb; pose proof (Hboth b c Hb) as Hib;
    destruct (gd_closed d g Hg b c Hb) as (ps & Hps & Hcol).
  - destruct Hib as [_ [ps' Hps']]. assert (ps = ps') as -> by (by eapply Hc). by exists ps'.
  - destruct (gd_entry d g Hg b c Hb) as [He Hpos]. split; [|done]. rewrite <- He.
    destruct Hib as [? [ps' Hps']] eqn:E. clear E. assert (ps = ps') as <- by (by eapply Hc).
    unfold color_entry, parents_of. rewrite Hps, Hps'. simpl. destruct ps; [done|].
    symmetry. apply color_block_compatible; try done.
    intros p x Hp Hx. destruct (Hcol p Hp) as [cp Hcp]. unfold coloring_at in Hx.
    rewrite Hcp in Hx. by eapply (gd_blues d g Hg).
  - destruct (gd_blues d g Hg b c Hb) as [? Hbl]. split; [done|]. intros x Hx.
    rewrite <- (past_compatible_iff d d') by done. by apply Hbl.
Qed.

Lemma insert_compatible d h ps d' : dag_insert d h ps = Ok d' -> compatible d d' /\
  forall b, is_Some (parents d !! b) -> is_Some (parents d' !! b).
Proof.
  intros Hi. destruct (parents d !! h) as [ps0|] eqn:Hh.
  { unfold dag_insert in Hi. destruct (contains_spec d h) as [|[]]; [|by eexists].
    simplify_eq. split; [|done]. intros b p1 p2 ? ?. congruence. }
  apply dag_insert_fresh in Hi as [-> _]; [|done]. simpl. split.
  - intros b p1 p2 Hb. simpl. rewrite lookup_insert_ne; [congruence|]. intros ->. congruence.
  - intros b [p Hb]. exists p. rewrite lookup_insert_ne; [done|]. intros ->. congruence.
Qed.

Lemma wf_gd_remove_tip d h d' g :
  wf_dag d -> wf_gd d g -> remove_tip d h = (true, d') -> wf_gd d' (remove g h).
Proof.
  intros Hwf Hg Hr. pose proof (remove_tip_wf d h true d' Hwf Hr) as Hwf'.
  apply remove_tip_true in Hr as (_ & Hnp & ->).
  assert (forall b, b <> h -> ~ past d b h) as Hnpast.
  { intros b Hne Hp. apply rtc_inv_r in Hp as [->|(y & _ & Hy)]; [done|]. by apply (Hnp y). }
  apply (wf_gd_transport d); [done|done| | |].
  - intros b p1 p2 H1 H2. simpl in H2. apply lookup_delete_Some in H2 as [? ?]. congruence.
  - split; simpl; intros b c [Hne Hb]%lookup_delete_Some.
    + destruct (gd_closed d g Hg b c Hb) as (ps & Hps & Hcol). exists ps. split; [done|].
      intros p Hp. rewrite lookup_delete_ne; [by apply Hcol|].
      intros <-. apply (Hnp b). by exists ps.
    + destruct (gd_entry d g Hg b c Hb) as [He Hpos]. split; [|done].
      etransitivity; [|exact He]. apply color_entry_agree; [done|].
      intros x Hx _. rewrite lookup_delete_ne; [done|]. intros <-. by apply (Hnpast b).
    + by apply (gd_blues d g Hg b c).
  - simpl. intros b [c [Hne Hb]%lookup_delete_Some]. rewrite lookup_delete_ne by done.
    destruct (gd_closed d g Hg b c Hb) as (ps & ? & _). by exists ps.
Qed.

(** Admission inserts and colors blocks; a failed admission rolls both back. *)
Inductive gd_step : Dag * Ghostdag -> Dag * Ghostdag -> Prop :=
| gd_insert d g h ps d' : dag_insert d h ps = Ok d' -> gd_step (d, g) (d', g)
| gd_color d g b w g' r : add_block_with_work d g b w = (g', Ok r) -> gd_step (d, g) (d, g')
| gd_rollback d g h d' : remove_tip d h = (true, d') -> gd_step (d, g) (d', remove g h).
Definition gd_reachable (cfg : GhostdagConfig) (s : Dag * Ghostdag) : Prop :=
  rtc gd_step (dag_new, ghostdag_new cfg) s.

Definition gd_inv (cfg : GhostdagConfig) (s : Dag * Ghostdag) : Prop :=
  wf_dag s.1 /\ wf_gd s.1 s.2 /\ config s.2 = cfg.

Lemma add_block_missing d g b w :
  parents d !! b = None -> coloring g !! b = None ->
  add_block_with_work d g b w = (g, Err (MissingBlock b)).
Proof. intros Hb Hc. unfold add_block_with_work. simpl. unfold parents_of. by rewrite Hc, Hb. Qed.

Lemma gd_step_inv cfg s s' : gd_inv cfg s -> gd_step s s' -> gd_inv cfg s'.
Proof.
  intros (Hw & Hg & Hc) Hs.
  destruct Hs as [d g h ps d' Hi|d g b w g' r Ha|d g h d' Hr]; simpl in *.
  - pose proof (dag_insert_wf d h ps d' Hw Hi). apply insert_compatible in Hi as [? Hin].
    split; [done|]. split; [|done]. apply (wf_gd_transport d); try done. simpl.
    intros x [c Hx]. apply Hin. destruct (gd_closed d g Hg x c Hx) as (qs & ? & _). by exists qs.
  - split; [done|]. simpl. destruct (parents d !! b) as [ps|] eqn:Hb.
    + destruct (add_block_post d g b w Hw Hg) as (g1 & r1 & Ha1 & Hp); [by eexists|].
      rewrite Ha in Ha1. simplify_eq. destruct Hp. by split; [|congruence].
    + destruct (coloring g !! b) as [c|] eqn:Hcb.
      * destruct (gd_closed d g Hg b c Hcb) as (ps & ? & _). congruence.
      * by rewrite (add_block_missing d g b w Hb Hcb) in Ha.
  - split; [by eapply remove_tip_wf|]. split; [by eapply wf_gd_remove_tip|done].
Qed.

Lemma gd_reachable_inv cfg s : gd_reachable cfg s -> gd_inv cfg s.
Proof.
  unfold gd_reachable. assert (gd_inv cfg (dag_new, ghostdag_new cfg)) as Hinit.
  { split; [apply wf_dag_new|]. split; [apply wf_gd_new|done]. }
  revert Hinit. generalize (dag_new, ghostdag_new cfg). intros s0 Hinit Hr. revert Hinit.
  induction Hr as [|s1 s2 s3 Hs _ IH]; [done|]. intros. apply IH. by eapply gd_step_inv.
Qed.
