(* ===== verification/GhostdagProps.v ===== *)
(** * GHOSTDAG: the properties of the engine

    Statements about every state [(d, g)] a node can reach by inserting blocks,
    coloring them and rolling back failed admissions ([gd_reachable]). *)

From stdpp Require Import base gmap sets list sorting relations fin_maps.
From Stdlib Require Import ZArith Lia.
From S2P Require Import Prelude Ordering Sums Types Dag Ghostdag.
Local Open Scope Z_scope.

(** Admission of a list of (hash, parents, work), used for concrete states. *)
Definition admit_step (s : Dag * Ghostdag) (b : Hash * list Hash * Z)
  : result ConsensusError (Dag * Ghostdag) :=
  let '(h, ps, w) := b in
  let? d := dag_insert s.1 h ps in
  match add_block_with_work d s.2 h w with
  | (g, Ok _) => Ok (d, g)
  | (_, Err e) => Err e
  end.
Definition admit_all (cfg : GhostdagConfig) (l : list (Hash * list Hash * Z))
  : result ConsensusError (Dag * Ghostdag) := rfold admit_step (dag_new, ghostdag_new cfg) l.

Lemma admit_all_reachable cfg l s : admit_all cfg l = Ok s -> gd_reachable cfg s.
Proof.
  unfold admit_all, gd_reachable. generalize (dag_new, ghostdag_new cfg).
  induction l as [|[[h ps] w] l IH]; simpl; intros [d g] Hs; inv_ok; [by subst; apply rtc_refl|].
  case_match eqn:E; destruct r as [r|e]; inv_ok. subst.
  eapply rtc_l; [by eapply gd_insert|]. eapply rtc_l; [by eapply gd_color|]. by apply IH.
Qed.

(** The coloring of a reachable block, seen through [colors_as]. *)
Lemma reachable_colors cfg d g b c :
  gd_reachable cfg (d, g) -> coloring g !! b = Some c ->
  (parents d !! b = Some [] /\ c = genesis_coloring b (block_work c)) \/
  exists ps sp acc, parents d !! b = Some ps /\ ps <> [] /\
    colors_as d (k cfg) (coloring g) b ps c sp acc.
Proof.
  intros (Hw & Hg & Hcfg)%gd_reachable_inv Hb. simpl in *.
  destruct (gd_closed d g Hg b c Hb) as (ps & Hps & Hcol).
  destruct (gd_entry d g Hg b c Hb) as [He _].
  unfold color_entry, parents_of in He. rewrite Hps in He. simpl in He.
  destruct ps as [|p ps]; [left|right].
  - split; [done|]. by simplify_eq.
  - apply color_block_Ok in He as (_ & sp & acc & Hca); [|done]. rewrite Hcfg in Hca.
    by exists (p :: ps), sp, acc.
Qed.

Lemma reachable_sp cfg d g b ps c sp acc :
  gd_reachable cfg (d, g) -> coloring g !! b = Some c -> parents d !! b = Some ps ->
  colors_as d (k cfg) (coloring g) b ps c sp acc ->
  sp ∈ ps /\ exists csp, coloring g !! sp = Some csp /\ coloring_at (coloring g) sp = csp /\
    b ∉ blues csp /\ sp ∈ blues csp.
Proof.
  intros (Hw & Hg & Hcfg)%gd_reachable_inv Hb Hps Hca. simpl in *.
  pose proof (max_parent _ _ _ (ca_sp_max _ _ _ _ _ _ _ _ Hca)) as Hin. split; [done|].
  destruct (gd_closed d g Hg b c Hb) as (ps' & Hps' & Hcol). simplify_eq.
  destruct (Hcol sp Hin) as [csp Hcsp]. exists csp. unfold coloring_at. rewrite Hcsp.
  destruct (gd_blues d g Hg sp csp Hcsp) as [? Hp]. repeat split; try done.
  intros Hbb%Hp. by eapply (parent_neq d b _ sp).
Qed.

Lemma reachable_score cfg d g b c :
  gd_reachable cfg (d, g) -> coloring g !! b = Some c -> blue_score c = Z.of_nat (size (blues c)).
Proof.
  intros Hr Hb. destruct (reachable_colors cfg d g b c Hr Hb) as [[_ Hc]|(? & ? & ? & _ & _ & [])]; [|done].
  rewrite Hc. cbn [blue_score blues genesis_coloring]. by rewrite size_singleton.
Qed.

Lemma add_works_nonneg d g w l :
  wf_gd d g -> 0 <= w -> 0 <= add_works (coloring g) w l.
Proof.
  intros Hg. unfold add_works. revert w. induction l as [|x l IH]; simpl; intros w Hw; [done|].
  apply IH. unfold candidate_work. destruct (coloring g !! x) as [cx|] eqn:Hx.
  - destruct (gd_entry d g Hg x cx Hx) as [_ ?]. unfold_ints; lia.
  - unfold_ints; lia.
Qed.

(** C18: [add_block_with_work] on a block of the DAG always succeeds.  It keeps
    every existing coloring, colors the block and at most ancestors of it,
    and reports the stored coloring; the engine invariant (parents colored,
    blues among the ancestors, block blue in its own view, blue score equal to
    the number of blues) holds again. *)
Theorem add_block_with_work_correct cfg d g b w :
  gd_reachable cfg (d, g) -> is_Some (parents d !! b) ->
  exists g' c, add_block_with_work d g b w = (g', Ok (data_of c b)) /\
    coloring g' !! b = Some c /\ coloring g ⊆ coloring g' /\
    (forall x, is_Some (coloring g' !! x) -> is_Some (coloring g !! x) \/ past d b x) /\
    (coloring g !! b = None -> block_work c = Z.max w 1) /\
    (forall x cx, coloring g' !! x = Some cx ->
       (forall p, parent_of d x p -> is_Some (coloring g' !! p)) /\
       x ∈ blues cx /\ (forall y, y ∈ blues cx -> past d x y) /\
       blue_score cx = Z.of_nat (size (blues cx))).
Proof.
  intros Hr Hb. destruct (gd_reachable_inv _ _ Hr) as (Hw & Hg & Hcfg). simpl in *.
  destruct (add_block_post d g b w Hw Hg Hb) as (g' & r & Ha & [Hg' Hc' Hm Hn (c & Hc & -> & Hwk)]).
  exists g', c. split_and!; try done. intros x cx Hx.
  assert (gd_reachable cfg (d, g')) as Hr' by (eapply rtc_r; [exact Hr|by eapply gd_color]).
  destruct (gd_blues d g' Hg' x cx Hx) as [? ?]. split_and!; try done.
  - intros p (ps & Hps & Hp). destruct (gd_closed d g' Hg' x cx Hx) as (ps' & ? & Hcol).
    simplify_eq. by apply Hcol.
  - by eapply reachable_score.
Qed.

(** C1: coloring does not depend on arrival order, on rollbacks or on blocks
    outside the past.  Two nodes whose DAGs agree on the parents of common
    blocks, running with the same [k], compute identical colorings (selected
    parent, blue set, score, work) of every block both have colored, as soon
    as they credit the same work to common blocks. *)
Theorem coloring_arrival_order_independent cfg d1 g1 d2 g2 :
  gd_reachable cfg (d1, g1) -> gd_reachable cfg (d2, g2) -> compatible d1 d2 ->
  (forall x c1 c2, coloring g1 !! x = Some c1 -> coloring g2 !! x = Some c2 ->
     block_work c1 = block_work c2) ->
  forall b c1 c2, coloring g1 !! b = Some c1 -> coloring g2 !! b = Some c2 -> c1 = c2.
Proof.
  intros (Hw1 & Hg1 & Hc1)%gd_reachable_inv (Hw2 & Hg2 & Hc2)%gd_reachable_inv Hc Hwk b c1 c2.
  simpl in *. apply (coloring_unique d1 d2 g1 g2); try done. congruence.
Qed.

(** the selected parent is the parent of highest (blue work, blue score,
    hash); its blues are inherited, so along the selected chain the blue score
    strictly grows and the blue work never shrinks (and strictly grows until
    it saturates at [u128::MAX]). *)
Theorem selected_parent_monotone cfg d g b c sp :
  gd_reachable cfg (d, g) -> coloring g !! b = Some c -> selected_parent c = Some sp ->
  exists ps csp, parents d !! b = Some ps /\ sp ∈ ps /\ coloring g !! sp = Some csp /\
    (forall p, p ∈ ps -> cmp_le (rank_key (coloring g)) p sp) /\
    blues csp ⊆ blues c /\ b ∉ blues csp /\
    blue_score csp < blue_score c /\
    Z.min u128_max (blue_work csp + block_work c) <= blue_work c.
Proof.
  intros Hr Hb Hsp.
  destruct (gd_reachable_inv _ _ Hr) as (Hw & Hg & Hcfg). simpl in *.
  destruct (reachable_colors cfg d g b c Hr Hb) as [[_ Hc]|(ps & sp' & acc & Hps & _ & Hca)].
  { by rewrite Hc in Hsp. }
  assert (sp' = sp) as -> by (pose proof (ca_sp _ _ _ _ _ _ _ _ Hca); congruence).
  destruct (reachable_sp cfg d g b ps c sp acc Hr Hb Hps Hca) as (Hin & csp & Hcsp & Hat & Hnb & Hspb).
  destruct Hca as [_ Hmax _ Hbl _ Hsc Hwk]. rewrite Hat in *.
  exists ps, csp. split_and!; try done.
  - apply max_by_Some in Hmax as [_ Hmax]; [done|apply _].
  - set_solver.
  - rewrite Hsc. assert (blue_score csp = Z.of_nat (size (blues csp))) as ->.
    { by eapply reachable_score. }
    apply Nat2Z.inj_lt. apply subset_size. set_solver.
  - assert (0 <= add_works (coloring g) 0 acc).
    { by apply (add_works_nonneg d g). }
    destruct (gd_entry d g Hg b c Hb) as [_ ?]. rewrite Hwk. unfold_ints. lia.
Qed.

(** C17: the merge set of a block is its past outside the past of its selected
    parent, and its accepted blues are exactly the greedy choice over it in
    (blue score, hash) order: a candidate is accepted if and only if at most
    [k] blocks of its anticone are blue at that point. *)
Theorem mergeset_greedy_k_cluster cfg d g b c sp :
  gd_reachable cfg (d, g) -> coloring g !! b = Some c -> selected_parent c = Some sp ->
  exists ms acc,
    greedy d (k cfg) ({[sp]} ∪ blues (coloring_at (coloring g) sp)) ms acc /\
    StronglySorted (cmp_le (merge_cmp (coloring g))) ms /\
    (forall x, x ∈ ms <-> past d b x /\ x <> b /\ ~ past d sp x) /\
    mergeset_blues c = sort_by Z.compare acc /\
    blues c = {[b]} ∪ (list_to_set acc ∪ ({[sp]} ∪ blues (coloring_at (coloring g) sp))) /\
    blue_work c = saturating_add u128_max
      (saturating_add u128_max (blue_work (coloring_at (coloring g) sp))
         (add_works (coloring g) 0 acc)) (block_work c).
Proof.
  intros Hr Hb Hsp.
  destruct (reachable_colors cfg d g b c Hr Hb) as [[_ Hc]|(ps & sp' & acc & Hps & _ & Hca)].
  { by rewrite Hc in Hsp. }
  assert (sp' = sp) as -> by (pose proof (ca_sp _ _ _ _ _ _ _ _ Hca); congruence).
  destruct Hca as [_ _ (ms & ? & ? & ?) ? ? _ ?]. by exists ms, acc.
Qed.

Lemma sort_sorted_id l : sort_by Z.compare (sort_by Z.compare l) = sort_by Z.compare l.
Proof. apply sort_by_id, sort_by_sorted; apply _. Qed.

(** the compact durable form loses nothing.  Exporting the snapshot of a
    colored block and importing it into an engine that already holds the
    coloring of the selected parent restores the coloring of the block, full
    blue set included, and reports it. *)
Theorem snapshot_import_roundtrip cfg d g h c s g0 :
  gd_reachable cfg (d, g) -> coloring g !! h = Some c -> snapshot g h = Some s ->
  (forall sp, selected_parent c = Some sp -> coloring g0 !! sp = coloring g !! sp) ->
  coloring (import_snapshot g0 h s).1 = <[h := c]> (coloring g0) /\
  (import_snapshot g0 h s).2 = data_of c h.
Proof.
  intros Hr Hh Hs Hsp. destruct (gd_reachable_inv _ _ Hr) as (Hw & Hg & Hcfg). simpl in *.
  destruct (gd_entry d g Hg h c Hh) as [_ Hpos].
  unfold snapshot in Hs. rewrite Hh in Hs. injection Hs as <-. unfold import_snapshot, data_of.
  assert (exists acc, mergeset_blues c = sort_by Z.compare acc /\ blues c =
    {[h]} ∪ (list_to_set acc ∪
       match selected_parent c with
       | Some sp => match coloring g0 !! sp with Some p => {[sp]} ∪ blues p | None => ∅ end
       | None => ∅
       end)) as (acc & Hm & Hbl).
  { destruct (reachable_colors cfg d g h c Hr Hh) as [[_ Hc]|(ps & sp & acc & Hps & _ & Hca)].
    - exists []. rewrite Hc. simpl. split; [done|set_solver].
    - exists acc. destruct (reachable_sp cfg d g h ps c sp acc Hr Hh Hps Hca)
        as (_ & csp & Hcsp & Hat & _).
      destruct Hca as [Hcs _ _ Hbl Hm _ _]. split; [done|].
      by rewrite Hcs, (Hsp sp Hcs), Hcsp, Hbl, Hat. }
  destruct c as [csp cbl cm cw cs cbw]. simpl in *. subst cm cbl.
  rewrite sort_sorted_id.
  assert (list_to_set (sort_by Z.compare acc) = (list_to_set acc : gset Z)) as ->.
  { apply set_eq. intros x. by rewrite !elem_of_list_to_set, elem_of_sort_by. }
  rewrite Z.max_l by lia. done.
Qed.

(** [order_past_view] lists every block of the tip's past exactly once,
    blues (of the tip's view) before reds, each group by ascending blue score
    with ties broken by hash; the list is the same whatever order the hash set
    is iterated in. *)
Theorem order_past_view_correct cfg d g tip c :
  gd_reachable cfg (d, g) -> coloring g !! tip = Some c ->
  exists l, order_past_view d g tip = Ok l /\
    NoDup (ob_hash <$> l) /\
    (forall x, x ∈ ob_hash <$> l <-> past d tip x) /\
    (forall b, b ∈ l -> b = ordered_block g (blues c) (ob_hash b)) /\
    StronglySorted (cmp_le order_cmp) l /\
    (forall it s, past_closure d tip = Ok s -> it ≡ₚ elements s ->
       sort_by order_cmp (ordered_block g (blues c) <$> it) = l).
Proof.
  intros Hr Hc. destruct (gd_reachable_inv _ _ Hr) as (Hw & Hg & _). simpl in *.
  destruct (past_closure_spec d tip Hw) as (s & Hs & Hspec).
  { destruct (gd_closed d g Hg tip c Hc) as (ps & ? & _). by exists ps. }
  unfold order_past_view. rewrite Hs, Hc. simpl. eexists. split; [done|].
  assert (forall it : list Hash, ob_hash <$> (ordered_block g (blues c) <$> it) = it) as Hit.
  { intros it. rewrite <- list_fmap_compose. apply list_fmap_id. }
  split_and!.
  - rewrite sort_by_perm, Hit. apply NoDup_elements.
  - intros x. rewrite sort_by_perm, Hit. by rewrite elem_of_elements.
  - intros b. rewrite elem_of_sort_by. by intros (x & -> & _)%list_elem_of_fmap.
  - apply sort_by_sorted, _.
  - intros it s' Hs' Hp. simplify_eq. apply sort_by_perm_eq; [apply _|]. by rewrite Hp.
Qed.

(** the virtual tip is the colored candidate of highest (blue work, blue
    score, hash), and does not depend on the order of the candidates. *)
Theorem select_virtual_tip_correct (g : Ghostdag) (ts ts' : list Hash) :
  ts ≡ₚ ts' ->
  select_virtual_tip g ts' = select_virtual_tip g ts /\
  match select_virtual_tip g ts with
  | Some t => t ∈ ts /\ is_Some (coloring g !! t) /\
      forall x, x ∈ ts -> is_Some (coloring g !! x) -> cmp_le (rank_key (coloring g)) x t
  | None => forall x, x ∈ ts -> coloring g !! x = None
  end.
Proof.
  intros Hp. unfold select_virtual_tip. split.
  { apply max_by_set_eq; [apply _|]. intros x. rewrite !list_elem_of_filter. by rewrite Hp. }
  destruct (max_by _ _) as [t|] eqn:Ht.
  - apply max_by_Some in Ht as [[? ?]%list_elem_of_filter Hmax]; [|apply _].
    split_and!; try done. intros x Hx Hc. apply Hmax. by apply list_elem_of_filter.
  - intros x Hx. apply eq_None_not_Some. intros Hc.
    destruct (max_by_is_Some (rank_key (coloring g))
      (filter (fun h => is_Some (coloring g !! h)) ts)) as [? ?]; [|congruence].
    apply elem_of_not_nil with x. by apply list_elem_of_filter.
Qed.

Lemma blue_order_spec cfg d g tip c l :
  gd_reachable cfg (d, g) -> coloring g !! tip = Some c -> blue_order d g tip = Ok l ->
  StronglySorted (cmp_le order_cmp) (ordered_block g (blues c) <$> l) /\
  (forall x, x ∈ l <-> x ∈ blues c) /\ NoDup l.
Proof.
  intros Hr Hc Hl. destruct (gd_reachable_inv _ _ Hr) as (Hw & Hg & _). simpl in *.
  unfold blue_order, order_past_view in Hl. rewrite Hc in Hl.
  destruct (past_closure d tip) as [a0|] eqn:Hs; [|done]. injection Hl as <-.
  apply past_closure_Ok in Hs as [_ Hs]; [|done].
  set (f := ordered_block g (blues c)).
  set (ol := sort_by order_cmp (f <$> elements a0)).
  set (bl := filter (fun b => ob_is_blue b = true) ol).
  assert (forall b, b ∈ ol -> b = f (ob_hash b)) as Hf.
  { intros b. unfold ol. rewrite elem_of_sort_by. by intros (x & -> & _)%list_elem_of_fmap. }
  assert (f <$> (ob_hash <$> bl) = bl) as Hbl.
  { rewrite <- list_fmap_compose. rewrite <- (list_fmap_id bl) at 2. apply list_fmap_ext.
    intros i b Hi. simpl. symmetry. apply Hf. apply list_elem_of_lookup_2 in Hi.
    by apply list_elem_of_filter in Hi as [_ ?]. }
  split_and!.
  - rewrite Hbl. apply sorted_filter, sort_by_sorted, _.
  - intros x. rewrite list_elem_of_fmap. split.
    + intros (b & -> & [Hb Hin]%list_elem_of_filter). rewrite (Hf b Hin) in Hb.
      simpl in Hb. by apply bool_decide_eq_true in Hb.
    + intros Hx. exists (f x). split; [done|]. apply list_elem_of_filter. split.
      * by apply bool_decide_eq_true.
      * unfold ol. rewrite elem_of_sort_by. apply list_elem_of_fmap. exists x. split; [done|].
        apply elem_of_elements, Hs. by apply (gd_blues d g Hg tip c Hc).
  - apply (NoDup_fmap_1 f). rewrite Hbl. apply NoDup_filter, NoDup_sort_by.
    apply NoDup_fmap_2; [|apply NoDup_elements]. intros x y. by injection 1.
Qed.

(** the blue application order of a tip contains exactly the blues of its
    view, each once, and puts every selected parent before its child. *)
Theorem blue_order_selected_chain cfg d g tip c l :
  gd_reachable cfg (d, g) -> coloring g !! tip = Some c -> blue_order d g tip = Ok l ->
  NoDup l /\ (forall x, x ∈ l <-> x ∈ blues c) /\
  forall l1 b l2 cb sp, l = l1 ++ b :: l2 -> coloring g !! b = Some cb ->
    selected_parent cb = Some sp -> sp ∈ l -> sp ∈ l1.
Proof.
  intros Hr Hc Hl. destruct (blue_order_spec cfg d g tip c l Hr Hc Hl) as (Hsort & Hbl & Hnd).
  split_and!; try done. intros l1 b l2 cb sp -> Hb Hsp Hin.
  destruct (gd_reachable_inv _ _ Hr) as (Hw & Hg & _). simpl in *.
  destruct (reachable_colors cfg d g b cb Hr Hb) as [[_ Hcb]|(ps & sp' & acc & Hps & _ & Hca)].
  { by rewrite Hcb in Hsp. }
  assert (sp' = sp) as -> by (pose proof (ca_sp _ _ _ _ _ _ _ _ Hca); congruence).
  destruct (reachable_sp cfg d g b ps cb sp acc Hr Hb Hps Hca) as (_ & csp & Hcsp & Hat & Hnb & Hspb).
  assert (blue_score csp < blue_score cb) as Hlt.
  { rewrite (reachable_score cfg d g b cb Hr Hb), (reachable_score cfg d g sp csp Hr Hcsp).
    apply Nat2Z.inj_lt, subset_size. destruct Hca as [_ _ _ -> _ _ _]. rewrite Hat. set_solver. }
  apply elem_of_app in Hin as [|[->|Hin]%elem_of_cons]; [done|simplify_eq; lia|exfalso].
  rewrite fmap_app in Hsort. simpl in Hsort.
  apply StronglySorted_app in Hsort as (_ & _ & Hsort).
  inversion Hsort as [|? ? _ Hall]; subst. rewrite Forall_fmap, Forall_forall in Hall.
  apply (Hall sp Hin). unfold order_cmp, ordered_block, coloring_at. simpl. rewrite Hb, Hcsp.
  rewrite !bool_decide_eq_true_2 by (apply Hbl; set_solver). simpl.
  by rewrite (proj2 (Z.compare_gt_iff _ _) Hlt).
Qed.

(** ** Concrete states *)

Definition node_state (cfg : GhostdagConfig) l : Dag * Ghostdag :=
  match admit_all cfg l with Ok s => s | Err _ => (dag_new, ghostdag_new cfg) end.

Definition diamond_blocks : list (Hash * list Hash * Z) :=
  [(0, [], 10); (1, [0], 100); (2, [0], 50); (3, [1; 2], 7)].
Definition diamond_state : Dag * Ghostdag := node_state default_config diamond_blocks.
Lemma diamond_state_reachable :
  gd_reachable default_config (diamond_state.1, diamond_state.2).
Proof. apply (admit_all_reachable _ diamond_blocks). vm_compute. reflexivity. Qed.

(** A light chain [11..15] and a heavy chain [1..3] from the genesis [0];
    block 16 merges the light chain with block 2, and 20 merges 3 and 16. *)
Definition inversion_blocks : list (Hash * list Hash * Z) :=
  [(0, [], 1); (1, [0], 1); (2, [1], 1); (3, [2], 1000); (11, [0], 1); (12, [11], 1);
   (13, [12], 1); (14, [13], 1); (15, [14], 1); (16, [15; 2], 1); (20, [3; 16], 1)].

(** the blue application order is not always topological.  There is a
    reachable node state in which a tip precedes, in its own blue order, a blue
    block that is one of its parents: scores are compared across views, and a
    parent outside the selected chain may carry a higher score than its child. *)
Theorem blue_order_can_precede_parent :
  exists cfg d g tip l1 l2 p,
    gd_reachable cfg (d, g) /\ blue_order d g tip = Ok (l1 ++ tip :: l2) /\
    parent_of d tip p /\ p ∈ l2.
Proof.
  pose (s := node_state {| k := 1 |} inversion_blocks).
  exists {| k := 1 |}, s.1, s.2, 20, [0; 1; 2; 3], [16], 16. split_and!.
  - apply (admit_all_reachable _ inversion_blocks). vm_compute. reflexivity.
  - vm_compute. reflexivity.
  - exists [3; 16]. split; [vm_compute; reflexivity|set_solver].
  - set_solver.
Qed.

(** ** Witnesses *)

Definition tip_coloring : BlockColoring := coloring_at (coloring diamond_state.2) 3.

Lemma add_block_with_work_correct_witness :
  exists g' c, add_block_with_work diamond_state.1 diamond_state.2 3 5 = (g', Ok (data_of c 3)) /\
    coloring g' !! 3 = Some c.
Proof.
  destruct (add_block_with_work_correct default_config diamond_state.1 diamond_state.2 3 5
    diamond_state_reachable) as (g' & c & ? & ? & _); [vm_compute; eexists; reflexivity|]. exists g', c; split; assumption.
Defined.

(** The diamond received in another order, with an unrelated extra block. *)
Definition diamond_blocks' : list (Hash * list Hash * Z) :=
  [(0, [], 10); (2, [0], 50); (9, [2], 3); (1, [0], 100); (3, [1; 2], 7)].
Definition diamond_state' : Dag * Ghostdag := node_state default_config diamond_blocks'.

Lemma compatible_check d1 d2 :
  forallb (fun kv => match parents d2 !! kv.1 with
                     | Some ps => bool_decide (kv.2 = ps) | None => true end)
    (map_to_list (parents d1)) = true -> compatible d1 d2.
Proof.
  intros H b ps1 ps2 H1 H2. rewrite forallb_forall in H.
  specialize (H (b, ps1)). simpl in H. rewrite H2 in H. apply (proj1 (bool_decide_eq_true _)), H.
  by apply list_elem_of_In, elem_of_map_to_list.
Qed.
Lemma works_check (m1 m2 : gmap Hash BlockColoring) :
  forallb (fun kv => match m2 !! kv.1 with
                     | Some c => block_work kv.2 =? block_work c | None => true end)
    (map_to_list m1) = true ->
  forall x c1 c2, m1 !! x = Some c1 -> m2 !! x = Some c2 -> block_work c1 = block_work c2.
Proof.
  intros H x c1 c2 H1 H2. rewrite forallb_forall in H.
  specialize (H (x, c1)). simpl in H. rewrite H2 in H. apply Z.eqb_eq, H.
  by apply list_elem_of_In, elem_of_map_to_list.
Qed.

Lemma coloring_arrival_order_independent_witness :
  coloring diamond_state'.2 !! 3 = Some tip_coloring.
Proof.
  destruct (coloring diamond_state'.2 !! 3) as [c|] eqn:E; [|vm_compute in E; discriminate].
  f_equal. symmetry.
  apply (coloring_arrival_order_independent default_config
    diamond_state.1 diamond_state.2 diamond_state'.1 diamond_state'.2 diamond_state_reachable)
    with (b := 3); [|..|exact E].
  - apply (admit_all_reachable _ diamond_blocks'). vm_compute. reflexivity.
  - apply compatible_check. vm_compute. reflexivity.
  - apply works_check. vm_compute. reflexivity.
  - vm_compute. reflexivity.
Defined.

Lemma selected_parent_monotone_witness :
  exists csp, coloring diamond_state.2 !! 1 = Some csp /\ blue_score csp < blue_score tip_coloring.
Proof.
  destruct (selected_parent_monotone default_config diamond_state.1 diamond_state.2 3 tip_coloring 1
    diamond_state_reachable) as (ps & csp & _ & _ & ? & _ & _ & _ & ? & _);
    [vm_compute; reflexivity..|]. exists csp; split; assumption.
Defined.

Lemma mergeset_greedy_k_cluster_witness :
  exists ms acc,
    greedy diamond_state.1 18 ({[1]} ∪ blues (coloring_at (coloring diamond_state.2) 1)) ms acc /\
    mergeset_blues tip_coloring = sort_by Z.compare acc.
Proof.
  destruct (mergeset_greedy_k_cluster default_config diamond_state.1 diamond_state.2 3 tip_coloring 1
    diamond_state_reachable) as (ms & acc & ? & _ & _ & ? & _); [vm_compute; reflexivity..|].
  exists ms, acc; split; assumption.
Defined.

Lemma snapshot_import_roundtrip_witness :
  exists s, snapshot diamond_state.2 3 = Some s /\
    coloring (import_snapshot (remove diamond_state.2 3) 3 s).1 =
      <[3 := tip_coloring]> (coloring (remove diamond_state.2 3)).
Proof.
  eexists. split; [vm_compute; reflexivity|].
  eapply (snapshot_import_roundtrip default_config diamond_state.1 diamond_state.2 3 tip_coloring
    _ (remove diamond_state.2 3) diamond_state_reachable); [vm_compute; reflexivity..|].
  intros sp Hsp. vm_compute in Hsp. injection Hsp as <-. vm_compute. reflexivity.
Defined.

Lemma order_past_view_correct_witness :
  exists l, order_past_view diamond_state.1 diamond_state.2 3 = Ok l /\ NoDup (ob_hash <$> l).
Proof.
  destruct (order_past_view_correct default_config diamond_state.1 diamond_state.2 3 tip_coloring
    diamond_state_reachable) as (l & ? & ? & _); [vm_compute; reflexivity|]. exists l; split; assumption.
Defined.

Lemma select_virtual_tip_correct_witness :
  select_virtual_tip diamond_state.2 [2; 1] = select_virtual_tip diamond_state.2 [1; 2].
Proof.
  exact (proj1 (select_virtual_tip_correct diamond_state.2 [1; 2] [2; 1] (Permutation_swap 2 1 []))).
Defined.

Lemma blue_order_selected_chain_witness :
  NoDup [0; 1; 2; 3] /\ forall x, x ∈ [0; 1; 2; 3] <-> x ∈ blues tip_coloring.
Proof.
  destruct (blue_order_selected_chain default_config diamond_state.1 diamond_state.2 3 tip_coloring
    [0; 1; 2; 3] diamond_state_reachable) as (Hn & Hx & _); [vm_compute; reflexivity..|split; assumption].
Defined.
