(* ===== verification/Daa.v ===== *)
(** * Difficulty adjustment and emission ([consensus/src/daa.rs], [emission.rs])

    Integer-only retargeting over samples of the selected-parent spine, the
    work of a difficulty level, the median-time-past rule, and the block
    reward schedule.  The two doubling loops of the retarget run at most
    [max_adjustment_bits] times, which is their fuel. *)

From stdpp Require Import base list sorting list_numbers.
From Stdlib Require Import ZArith Lia.
From S2P Require Import Prelude Ordering Sums.
Local Open Scope Z_scope.

Record DaaConfig := {
  target_block_time_ms : Z;
  window_size : Z;
  max_adjustment_bits : Z;
  min_level : Z;
  max_level : Z;
}.
Definition default_daa_config : DaaConfig :=
  {| target_block_time_ms := 1000; window_size := 90; max_adjustment_bits := 1;
     min_level := 1; max_level := 128 |}.

(** [Difficulty]: the level, in leading zero bits. *)
Record Difficulty := { level : Z }.
Definition difficulty_clamp (d : Difficulty) (c : DaaConfig) : Difficulty :=
  {| level := clamp (min_level c) (max_level c) (level d) |}.

Record DaaSample := { timestamp_ms : Z; s_blue_work : Z; s_block_work : Z }.

Definition work_from_bits (bits : Z) : Z :=
  if bits =? 0 then 1 else if 128 <=? bits then u128_max else Z.shiftl 1 bits.

(** Median of the first (newest) at most eleven timestamps. *)
Definition median_time_past (timestamps_newest_first : list Z) : Z :=
  let n := Nat.min (length timestamps_newest_first) 11 in
  if (n =? 0)%nat then 0
  else nth (n / 2) (sort_by Z.compare (take n timestamps_newest_first)) 0.

(** The loop over [samples.windows(2)]: accumulated work and elapsed time. *)
Fixpoint window_totals (total_work elapsed_ms : Z) (samples : list DaaSample) : Z * Z :=
  match samples with
  | older :: (newer :: _) as rest =>
    let work_delta := Z.max (Z.max (s_block_work newer)
                        (saturating_sub (s_blue_work newer) (s_blue_work older))) 1 in
    let dt := Z.max (saturating_sub (timestamp_ms newer) (timestamp_ms older)) 1 in
    window_totals (saturating_add u128_max total_work work_delta)
                  (saturating_add u64_max elapsed_ms dt) rest
  | _ => (total_work, elapsed_ms)
  end.

(** [while delta < max_bits]: exact doublings of [thr] that fit under [num]. *)
Fixpoint raise_loop (fuel : nat) (num thr delta : Z) : Z :=
  match fuel with
  | O => delta
  | S fuel' =>
    let next_thr := saturating_mul u128_max thr 2 in
    if next_thr <=? num then
      if next_thr =? u128_max then delta + 1 else raise_loop fuel' num next_thr (delta + 1)
    else delta
  end.
(** [while delta > -max_bits]: exact doublings of [thr] that fit under [den]. *)
Fixpoint lower_loop (fuel : nat) (den thr delta : Z) : Z :=
  match fuel with
  | O => delta
  | S fuel' =>
    let next_thr := saturating_mul u128_max thr 2 in
    if next_thr <=? den then
      if next_thr =? u128_max then delta - 1 else lower_loop fuel' den next_thr (delta - 1)
    else delta
  end.

Definition next_difficulty_weighted (config : DaaConfig) (parent_bits : Difficulty)
  (samples : list DaaSample) : Difficulty :=
  let parent := difficulty_clamp parent_bits config in
  if (length samples <? 2)%nat then parent
  else
    let '(total_work, elapsed_ms) := window_totals 0 0 samples in
    if (total_work =? 0) || (elapsed_ms =? 0) then parent
    else
      let parent_work := Z.max (work_from_bits (level parent)) 1 in
      let target := Z.max (target_block_time_ms config) 1 in
      let num := saturating_mul u128_max total_work target in
      let den := saturating_mul u128_max parent_work elapsed_ms in
      let max_bits := Z.max (max_adjustment_bits config) 1 in
      let delta := if den <=? num then raise_loop (Z.to_nat max_bits) num den 0
                   else lower_loop (Z.to_nat max_bits) den num 0 in
      {| level := clamp (min_level config) (max_level config) (level parent + delta) |}.

(** The uniform-work helper: synthetic samples of equal work. *)
Definition next_difficulty (config : DaaConfig) (current : Difficulty)
  (window_timestamps_ms : list Z) : Difficulty :=
  let w := work_from_bits (level (difficulty_clamp current config)) in
  next_difficulty_weighted config current
    (imap (fun i t => {| timestamp_ms := t;
                         s_blue_work := saturating_mul u128_max w
                                          (saturating_add u128_max (Z.of_nat i) 1);
                         s_block_work := w |}) window_timestamps_ms).

(** [EmissionSchedule] *)
Record EmissionSchedule := { initial_reward : Z; halving_interval : Z }.
Definition default_emission : EmissionSchedule :=
  {| initial_reward := 5000000000; halving_interval := 210000 |}.
Definition reward_at_blue_score (s : EmissionSchedule) (blue_score : Z) : Z :=
  let halvings := blue_score / halving_interval s in
  if 64 <=? halvings then 0 else Z.shiftr (initial_reward s) halvings.

(** ** Retargeting *)

Lemma raise_loop_bounds fuel num thr delta :
  delta <= raise_loop fuel num thr delta <= delta + Z.of_nat fuel.
Proof.
  revert thr delta. induction fuel as [|fuel IH]; intros thr delta; simpl; [lia|].
  repeat case_match; try lia. specialize (IH (saturating_mul u128_max thr 2) (delta + 1)). lia.
Qed.
Lemma lower_loop_bounds fuel den thr delta :
  delta - Z.of_nat fuel <= lower_loop fuel den thr delta <= delta.
Proof.
  revert thr delta. induction fuel as [|fuel IH]; intros thr delta; simpl; [lia|].
  repeat case_match; try lia. specialize (IH (saturating_mul u128_max thr 2) (delta - 1)). lia.
Qed.

(** Largest number of doublings, as long as the bound is not saturated. *)
Lemma raise_loop_exact fuel num thr delta :
  0 < thr -> thr <= num -> num < u128_max ->
  let j := raise_loop fuel num thr delta - delta in
  thr * 2 ^ j <= num /\ (j < Z.of_nat fuel -> num < thr * 2 ^ (j + 1)).
Proof.
  revert thr delta. induction fuel as [|fuel IH]; intros thr delta Ht Hle Hlt; cbn [raise_loop].
  { rewrite Z.sub_diag, Z.mul_1_r. split; [done|lia]. }
  unfold saturating_mul. destruct (Z.leb_spec (Z.min u128_max (thr * 2)) num) as [Hn|Hn].
  - rewrite Z.min_r in * by lia. destruct (Z.eqb_spec (thr * 2) u128_max); [lia|].
    pose proof (raise_loop_bounds fuel num (thr * 2) (delta + 1)) as Hb.
    destruct (IH (thr * 2) (delta + 1)) as [H1 H2]; [lia..|].
    set (r := raise_loop fuel num (thr * 2) (delta + 1)) in *.
    replace (r - delta) with (Z.succ (r - (delta + 1))) by lia.
    rewrite Z.pow_succ_r, Z.mul_assoc by lia. split; [done|]. intros Hj.
    replace (Z.succ (r - (delta + 1)) + 1) with (Z.succ (r - (delta + 1) + 1)) by lia.
    rewrite Z.pow_succ_r, Z.mul_assoc by lia. apply H2. lia.
  - rewrite Z.sub_diag, Z.mul_1_r. split; [done|]. intros _. simpl. lia.
Qed.
Lemma lower_raise fuel den thr delta :
  lower_loop fuel den thr delta = delta - (raise_loop fuel den thr delta - delta).
Proof.
  revert thr delta. induction fuel as [|fuel IH]; intros thr delta; simpl; [lia|].
  repeat case_match; try lia. rewrite IH.
  assert (forall f n t a b, raise_loop f n t a - a = raise_loop f n t b - b) as Hsh.
  { clear. induction f as [|f IH]; intros n t a b; simpl; [lia|].
    repeat case_match; try lia. specialize (IH n (saturating_mul u128_max t 2) (a + 1) (b + 1)). lia. }
  specialize (Hsh fuel den (saturating_mul u128_max thr 2) (delta - 1) (delta + 1)). lia.
Qed.

Lemma window_totals_cons tw el a b l :
  window_totals tw el (a :: b :: l) =
  window_totals
    (saturating_add u128_max tw
       (Z.max (Z.max (s_block_work b) (saturating_sub (s_blue_work b) (s_blue_work a))) 1))
    (saturating_add u64_max el (Z.max (saturating_sub (timestamp_ms b) (timestamp_ms a)) 1))
    (b :: l).
Proof. done. Qed.

Lemma window_totals_pos tw el samples :
  0 <= tw -> 0 <= el -> (2 <= length samples)%nat ->
  0 < (window_totals tw el samples).1 <= u128_max /\
  0 < (window_totals tw el samples).2 <= u64_max.
Proof.
  assert (forall l tw el, 0 < tw <= u128_max -> 0 < el <= u64_max ->
    0 < (window_totals tw el l).1 <= u128_max /\ 0 < (window_totals tw el l).2 <= u64_max) as Hp.
  { induction l as [|a [|b l] IH]; intros tw' el' ? ?; [done..|].
    rewrite window_totals_cons. apply IH; unfold_ints; lia. }
  intros Htw Hel Hlen. destruct samples as [|a [|b l]]; simpl in Hlen; [lia..|].
  rewrite window_totals_cons. apply Hp; unfold_ints; lia.
Qed.

Lemma level_parent_clamped c d : min_level c <= max_level c ->
  min_level c <= level (difficulty_clamp d c) <= max_level c.
Proof. apply clamp_bounds. Qed.

(** the retarget stays within the configured levels and moves by at most
    [max_adjustment_bits] (at least one) bits from the parent's level, whatever
    the samples, timestamps out of order or saturated work included. *)
Theorem next_difficulty_bounded c parent samples :
  min_level c <= max_level c ->
  let p := level (difficulty_clamp parent c) in
  let n := level (next_difficulty_weighted c parent samples) in
  min_level c <= n <= max_level c /\ Z.abs (n - p) <= Z.max (max_adjustment_bits c) 1.
Proof.
  intros Hc. cbv zeta. pose proof (level_parent_clamped c parent Hc) as Hp.
  unfold next_difficulty_weighted.
  destruct (length samples <? 2)%nat; [lia|].
  destruct (window_totals 0 0 samples) as [tw el].
  destruct (_ || _); [lia|]. cbn [level].
  set (b := Z.max (max_adjustment_bits c) 1).
  set (num := saturating_mul _ tw _). set (den := saturating_mul _ _ el).
  pose proof (raise_loop_bounds (Z.to_nat b) num den 0).
  pose proof (lower_loop_bounds (Z.to_nat b) den num 0).
  split; [by apply clamp_bounds|]. unfold clamp. repeat case_match; lia.
Qed.

(** the retarget is exact.  With at least two samples, and as long as
    the products do not saturate, the adjustment is the largest number [j] of
    doublings (up to the configured bound) with [den * 2^j <= num] when the
    window was at least as fast as the target, and the largest number of
    halvings with [num * 2^j <= den] when it was slower. *)
Theorem next_difficulty_exact c parent samples :
  let p := level (difficulty_clamp parent c) in
  let '(tw, el) := window_totals 0 0 samples in
  let num := saturating_mul u128_max tw (Z.max (target_block_time_ms c) 1) in
  let den := saturating_mul u128_max (Z.max (work_from_bits p) 1) el in
  let mb := Z.max (max_adjustment_bits c) 1 in
  (2 <= length samples)%nat -> num < u128_max -> den < u128_max ->
  exists j, 0 <= j <= mb /\
    (den <= num ->
       level (next_difficulty_weighted c parent samples) = clamp (min_level c) (max_level c) (p + j) /\
       den * 2 ^ j <= num /\ (j < mb -> num < den * 2 ^ (j + 1))) /\
    (num < den ->
       level (next_difficulty_weighted c parent samples) = clamp (min_level c) (max_level c) (p - j) /\
       num * 2 ^ j <= den /\ (j < mb -> den < num * 2 ^ (j + 1))).
Proof.
  cbv zeta. destruct (window_totals 0 0 samples) as [tw el] eqn:Hwt.
  set (p := level (difficulty_clamp parent c)).
  set (num := saturating_mul u128_max tw (Z.max (target_block_time_ms c) 1)).
  set (den := saturating_mul u128_max (Z.max (work_from_bits p) 1) el).
  set (mb := Z.max (max_adjustment_bits c) 1). intros Hlen Hnum Hden.
  pose proof (window_totals_pos 0 0 samples) as Hpos. rewrite Hwt in Hpos. simpl in Hpos.
  destruct Hpos as [Htw Hel]; [lia..|].
  assert (0 < num) by (unfold num, saturating_mul, u128_max; nia).
  assert (0 < den) by (unfold den, saturating_mul, u128_max; nia).
  unfold next_difficulty_weighted. rewrite Hwt.
  destruct (Nat.ltb_spec (length samples) 2) as [|_]; [lia|].
  destruct (Z.eqb_spec tw 0); [lia|]. destruct (Z.eqb_spec el 0); [lia|].
  cbn [orb level]. fold p. fold num. fold den. fold mb.
  assert (Z.of_nat (Z.to_nat mb) = mb) as Hmb by lia.
  destruct (Z.leb_spec den num) as [Hle|Hlt].
  - pose proof (raise_loop_bounds (Z.to_nat mb) num den 0) as Hb.
    destruct (raise_loop_exact (Z.to_nat mb) num den 0) as [H1 H2]; [lia..|].
    rewrite Z.sub_0_r, Hmb in *. eexists. split; [|split; [intros _|lia]]; [|done]. lia.
  - pose proof (raise_loop_bounds (Z.to_nat mb) den num 0) as Hb.
    destruct (raise_loop_exact (Z.to_nat mb) den num 0) as [H1 H2]; [lia..|].
    rewrite lower_raise, Z.sub_0_r, Hmb in *.
    exists (raise_loop (Z.to_nat mb) den num 0). split; [lia|]. split; [lia|]. intros _.
    split; [f_equal; lia|done].
Qed.

(** ** Median time past *)

Lemma count_sorted_split (l : list Z) (P : Z -> Prop) `{!forall x, Decision (P x)} i :
  (forall x, x ∈ take i l -> ~ P x) -> (length (filter P l) <= length l - i)%nat.
Proof.
  intros Hn. rewrite <- (take_drop i l) at 1. rewrite filter_app, length_app.
  assert (filter P (take i l) = []) as ->.
  { destruct (filter P (take i l)) as [|x r] eqn:E; [done|]. exfalso.
    assert (x ∈ filter P (take i l)) as [Hx Hin]%list_elem_of_filter by (rewrite E; left).
    by apply (Hn x). }
  simpl. etrans; [apply length_filter|]. rewrite length_drop. done.
Qed.
Lemma count_sorted_split_r (l : list Z) (P : Z -> Prop) `{!forall x, Decision (P x)} i :
  (forall x, x ∈ drop i l -> ~ P x) -> (length (filter P l) <= i)%nat.
Proof.
  intros Hn. rewrite <- (take_drop i l) at 1. rewrite filter_app, length_app.
  assert (filter P (drop i l) = []) as ->.
  { destruct (filter P (drop i l)) as [|x r] eqn:E; [done|]. exfalso.
    assert (x ∈ filter P (drop i l)) as [Hx Hin]%list_elem_of_filter by (rewrite E; left).
    by apply (Hn x). }
  simpl. rewrite Nat.add_0_r. etrans; [apply length_filter|]. rewrite length_take. lia.
Qed.

Lemma sorted_nth (l : list Z) i d :
  StronglySorted (cmp_le Z.compare) l -> (i < length l)%nat ->
  (forall x, x ∈ take (S i) l -> x <= nth i l d) /\ (forall x, x ∈ drop i l -> nth i l d <= x).
Proof.
  intros Hs. revert i. induction Hs as [|y l Hs IH Hy]; intros i Hi; simpl in Hi; [lia|].
  rewrite Forall_forall in Hy. destruct i as [|i]; simpl.
  - split; [by intros x ->%list_elem_of_singleton|].
    intros x [->|Hx]%elem_of_cons; [done|]. by apply Hy.
  - destruct (IH i) as [H1 H2]; [lia|]. split; [|done].
    intros x [->|Hx]%elem_of_cons; [|by apply H1]. apply Hy.
    destruct (nth_in_or_default i l d) as [Hin|]; [by apply list_elem_of_In|].
    apply list_elem_of_In, nth_In. lia.
Qed.

(** a majority fixes the median time past.  When more than half of the
    at most eleven newest timestamps lie in an interval, so does the median,
    so a minority of back- or forward-dated headers cannot move it out. *)
Theorem median_time_past_majority (ts : list Z) (lo hi : Z) :
  let w := take (Nat.min (length ts) 11) ts in
  (length w < 2 * length (filter (fun t => (lo <= t <= hi)%Z) w))%nat ->
  lo <= median_time_past ts <= hi.
Proof.
  cbv zeta. set (n := Nat.min (length ts) 11). set (w := take n ts). intros Hmaj.
  assert (length w = n) as Hlen by (unfold w; rewrite length_take; lia).
  unfold median_time_past. fold n. destruct (Nat.eqb_spec n 0) as [E|Hn0].
  { destruct w; simpl in *; lia. }
  fold w. set (s := sort_by Z.compare w).
  assert (length s = n) as Hs by (unfold s; by rewrite length_sort_by).
  assert (length (filter (fun t => (lo <= t <= hi)%Z) s) = length (filter (fun t => (lo <= t <= hi)%Z) w)) as Hf.
  { apply Permutation_length. unfold s. by rewrite sort_by_perm. }
  assert (n / 2 < n)%nat by (apply Nat.div_lt; lia).
  destruct (sorted_nth s (n / 2) 0) as [H1 H2]; [apply sort_by_sorted, _|lia|].
  pose proof (Nat.div_mod_eq n 2). pose proof (Nat.mod_upper_bound n 2).
  split; apply Z.nlt_ge; intros Hlt.
  - assert (length (filter (fun t => (lo <= t <= hi)%Z) s) <= length s - S (n / 2))%nat; [|lia].
    apply count_sorted_split. intros x Hx%H1. lia.
  - assert (length (filter (fun t => (lo <= t <= hi)%Z) s) <= n / 2)%nat; [|lia].
    apply count_sorted_split_r. intros x Hx%H2. lia.
Qed.

(** ** Work and emission *)

Lemma work_from_bits_pow bits : 0 <= bits < 128 -> work_from_bits bits = 2 ^ bits.
Proof.
  intros Hb. unfold work_from_bits. destruct (Z.eqb_spec bits 0) as [->|]; [done|].
  destruct (Z.leb_spec 128 bits); [lia|]. rewrite Z.shiftl_mul_pow2 by lia. lia.
Qed.

Lemma pow2_le_u128 b : 0 <= b <= 127 -> 1 <= 2 ^ b <= u128_max.
Proof.
  intros Hb. assert (2 ^ b <= 2 ^ 127) by (apply Z.pow_le_mono_r; lia).
  assert (0 < 2 ^ b) by (apply Z.pow_pos_nonneg; lia).
  change (2 ^ 127) with 170141183460469231731687303715884105728 in *. unfold u128_max. lia.
Qed.

(** the work of a level fits in [u128], is strictly monotone below 128
    bits, doubles per bit there, and saturates from 128 bits on. *)
Theorem work_from_bits_monotone b1 b2 :
  0 <= b1 -> b1 <= b2 ->
  1 <= work_from_bits b1 <= work_from_bits b2 /\ work_from_bits b2 <= u128_max /\
  (b1 < b2 -> b1 < 128 -> work_from_bits b1 < work_from_bits b2) /\
  (b1 < 127 -> work_from_bits (b1 + 1) = 2 * work_from_bits b1).
Proof.
  intros H0 Hle.
  assert (forall b, 128 <= b -> work_from_bits b = u128_max) as Hsat.
  { intros b Hb. unfold work_from_bits. destruct (Z.eqb_spec b 0); [lia|].
    by destruct (Z.leb_spec 128 b); [|lia]. }
  assert (forall b, 0 <= b < 128 -> 1 <= work_from_bits b < u128_max) as Hpow.
  { intros b Hb. rewrite work_from_bits_pow by done.
    assert (2 ^ b <= 2 ^ 127) by (apply Z.pow_le_mono_r; lia).
    assert (0 < 2 ^ b) by (apply Z.pow_pos_nonneg; lia).
    change (2 ^ 127) with 170141183460469231731687303715884105728 in *. unfold u128_max. lia. }
  split_and!.
  - destruct (Z.lt_ge_cases b1 128); [by apply Hpow|]. rewrite Hsat by lia. done.
  - destruct (Z.lt_ge_cases b2 128); [|rewrite (Hsat b2) by lia].
    + rewrite !work_from_bits_pow by lia. apply Z.pow_le_mono_r; lia.
    + destruct (Z.lt_ge_cases b1 128); [|by rewrite Hsat by lia].
      destruct (Hpow b1); lia.
  - destruct (Z.lt_ge_cases b2 128); [destruct (Hpow b2); lia|by rewrite Hsat by lia].
  - intros Hlt H128. destruct (Z.lt_ge_cases b2 128).
    + rewrite !work_from_bits_pow by lia. apply Z.pow_lt_mono_r; lia.
    + rewrite (Hsat b2) by lia. destruct (Hpow b1); lia.
  - intros H127. rewrite !work_from_bits_pow by lia. rewrite Z.add_1_r, Z.pow_succ_r by lia. done.
Qed.

Lemma reward_div s score :
  in_u64 (initial_reward s) -> 0 < halving_interval s -> 0 <= score ->
  reward_at_blue_score s score = initial_reward s / 2 ^ (score / halving_interval s).
Proof.
  intros Hi Hh Hs. unfold reward_at_blue_score.
  assert (0 <= score / halving_interval s) by (apply Z.div_pos; lia).
  destruct (Z.leb_spec 64 (score / halving_interval s)).
  - symmetry. apply Z.div_small. split; [apply Hi|].
    assert (2 ^ 64 <= 2 ^ (score / halving_interval s)) by (apply Z.pow_le_mono_r; lia).
    change (2 ^ 64) with 18446744073709551616 in *. unfold in_u64, u64_max in Hi. lia.
  - apply Z.shiftr_div_pow2. lia.
Qed.

(** Rewards paid at the blue scores [0 .. n-1]. *)
Definition total_emission (s : EmissionSchedule) (n : nat) : Z :=
  zsum ((fun i => reward_at_blue_score s (Z.of_nat i)) <$> seq 0 n).

Lemma total_emission_S s n :
  total_emission s (S n) = total_emission s n + reward_at_blue_score s (Z.of_nat n).
Proof.
  unfold total_emission. rewrite seq_S, fmap_app, zsum_app. simpl. lia.
Qed.

Lemma era_reward s m i :
  in_u64 (initial_reward s) -> 0 < halving_interval s -> 0 <= m -> 0 <= i < halving_interval s ->
  reward_at_blue_score s (halving_interval s * m + i) = initial_reward s / 2 ^ m.
Proof.
  intros Hi Hh Hm Hr. rewrite reward_div by (done || nia). do 2 f_equal.
  symmetry. apply (Z.div_unique_pos _ _ m i); lia.
Qed.

Lemma halving_le x m : 0 <= m -> 2 * (x / 2 ^ Z.succ m) <= x / 2 ^ m.
Proof.
  intros Hm. rewrite Z.pow_succ_r, (Z.mul_comm 2 (2 ^ m)) by done.
  rewrite <- Z.div_div; [|apply Z.pow_nonzero; lia|lia].
  apply Z.mul_div_le. lia.
Qed.

(** The potential of the geometric sum: within era [m], after [i] blocks. *)
Lemma total_emission_potential s (h m i : nat) :
  in_u64 (initial_reward s) -> halving_interval s = Z.of_nat h -> (0 < h)%nat -> (i <= h)%nat ->
  total_emission s (h * m + i) + (2 * Z.of_nat h - Z.of_nat i) * (initial_reward s / 2 ^ Z.of_nat m)
    <= 2 * Z.of_nat h * initial_reward s.
Proof.
  intros Hi Hh Hpos. revert i. induction m as [|m IHm]; intros i Hile.
  - induction i as [|i IHi].
    + rewrite Nat.mul_0_r, Z.div_1_r. change (total_emission s (0 + 0)) with 0. lia.
    + rewrite Nat.add_succ_r, total_emission_S. specialize (IHi ltac:(lia)).
      replace (Z.of_nat (h * 0 + i)) with (halving_interval s * 0 + Z.of_nat i) by lia.
      rewrite era_reward by (done || lia). change (Z.of_nat 0) with 0 in *. rewrite Z.pow_0_r, Z.div_1_r in *. lia.
  - set (a := initial_reward s / 2 ^ Z.of_nat m) in *.
    assert (2 * (initial_reward s / 2 ^ Z.of_nat (S m)) <= a) as Ha.
    { unfold a. rewrite Nat2Z.inj_succ. apply halving_le. lia. }
    induction i as [|i IHi].
    + specialize (IHm h ltac:(lia)). replace (h * S m + 0)%nat with (h * m + h)%nat by lia. nia.
    + rewrite Nat.add_succ_r, total_emission_S. specialize (IHi ltac:(lia)).
      replace (Z.of_nat (h * S m + i)) with (halving_interval s * Z.of_nat (S m) + Z.of_nat i) by lia.
      rewrite era_reward by (done || lia). lia.
Qed.

(** emission is capped.  The reward halves at every interval, and the
    rewards of any number of blue scores together never exceed
    [2 * halving_interval * initial_reward]. *)
Theorem emission_capped s n :
  in_u64 (initial_reward s) -> 0 < halving_interval s ->
  total_emission s n <= 2 * halving_interval s * initial_reward s /\
  forall score, 0 <= score ->
    reward_at_blue_score s (score + halving_interval s) = reward_at_blue_score s score / 2.
Proof.
  intros Hi Hh. split.
  - set (h := Z.to_nat (halving_interval s)).
    assert (halving_interval s = Z.of_nat h) as Eh by lia.
    assert (n mod h <= h)%nat as Hmod by (pose proof (Nat.mod_upper_bound n h); lia).
    pose proof (total_emission_potential s h (n / h) (n mod h) Hi Eh ltac:(lia) Hmod) as Hp.
    rewrite <- Nat.div_mod_eq in Hp. rewrite Eh.
    assert (0 <= initial_reward s / 2 ^ Z.of_nat (n / h)).
    { apply Z.div_pos; [apply Hi|]. apply Z.pow_pos_nonneg; lia. }
    nia.
  - intros score Hs. rewrite !reward_div by (done || lia).
    replace (score + halving_interval s) with (score + 1 * halving_interval s) by lia.
    rewrite Z.div_add by lia. rewrite Z.pow_add_r by (try apply Z.div_pos; lia).
    rewrite Z.pow_1_r, Z.div_div; [done| |lia].
    apply Z.pow_nonzero; [lia|]. apply Z.div_pos; lia.
Qed.

(** ** Witnesses *)

Definition fast_window : list DaaSample :=
  [ {| timestamp_ms := 0; s_blue_work := 1048576; s_block_work := 1048576 |};
    {| timestamp_ms := 200; s_blue_work := 2097152; s_block_work := 1048576 |};
    {| timestamp_ms := 400; s_blue_work := 3145728; s_block_work := 1048576 |} ].
Definition two_bit_config : DaaConfig :=
  {| target_block_time_ms := 1000; window_size := 2; max_adjustment_bits := 2;
     min_level := 1; max_level := 128 |}.

Lemma next_difficulty_bounded_witness :
  let n := level (next_difficulty_weighted two_bit_config {| level := 10 |} fast_window) in
  1 <= n <= 128 /\ Z.abs (n - 10) <= 2.
Proof. apply (next_difficulty_bounded two_bit_config {| level := 10 |} fast_window). simpl. lia. Defined.

Lemma next_difficulty_exact_witness :
  exists j, 0 <= j <= 2 /\
    level (next_difficulty_weighted two_bit_config {| level := 10 |} fast_window) = clamp 1 128 (10 + j).
Proof.
  destruct (next_difficulty_exact two_bit_config {| level := 10 |} fast_window)
    as (j & Hj & Hup & _); [simpl; lia|vm_compute; reflexivity..|].
  exists j. split; [exact Hj|]. apply Hup. vm_compute. discriminate.
Defined.

Lemma median_time_past_majority_witness : 10 <= median_time_past [50; 10; 30; 20; 40] <= 40.
Proof. apply (median_time_past_majority [50; 10; 30; 20; 40] 10 40). vm_compute. lia. Defined.

Lemma work_from_bits_monotone_witness : work_from_bits 63 < work_from_bits 64.
Proof. apply (work_from_bits_monotone 63 64); lia. Defined.

Lemma emission_capped_witness : total_emission default_emission 1000 <= 2 * 210000 * 5000000000.
Proof. apply (emission_capped default_emission 1000); unfold in_u64, u64_max; simpl; lia. Defined.
