(* ===== verification/Finality.v ===== *)
(** * Quorums, checkpoint certificates and evidence

    [consensus/src/quorum.rs], [finality.rs], [evidence.rs] and the types of
    [types/src/finality.rs]; the attestation index of
    [state-machine/src/finality_store.rs].

    A checkpoint is final when the PoW threshold and both independent
    two-thirds quorums (OVL and DRC) hold.  Certificates are mutated by three
    operations, modelled as functions; their histories are a step relation. *)

From stdpp Require Import base list strings sorting relations.
From Stdlib Require Import ZArith Lia.
From S2P Require Import Prelude Ordering Sums Types Dag.
Local Open Scope Z_scope.

(** ** Quorum *)

(** [3 * signed >= 2 * active] in [u128], and never on an empty set. *)
Definition has_two_thirds_quorum (signed_stake active_stake : Z) : bool :=
  if active_stake =? 0 then false
  else saturating_mul u128_max active_stake 2 <=? saturating_mul u128_max signed_stake 3.

Lemma quorum_iff signed active :
  in_u64 signed -> in_u64 active ->
  has_two_thirds_quorum signed active = true <-> 0 < active /\ 2 * active <= 3 * signed.
Proof.
  intros Hs Ha. unfold has_two_thirds_quorum. unfold_ints.
  destruct (Z.eqb_spec active 0); [split; [done|lia]|].
  rewrite !Z.min_r by lia. rewrite Z.leb_le. lia.
Qed.

(** ** Certificates *)

Inductive CheckpointState :=
| Proposed | PoWAccepted | AwaitingOvlQuorum | AwaitingDrcQuorum | Finalized | RevertedOrOrphaned.
#[export] Instance CheckpointState_eq_dec : EqDecision CheckpointState.
Proof. solve_decision. Defined.
Definition is_finalized (s : CheckpointState) : bool :=
  match s with Finalized => true | _ => false end.

Record CheckpointBody := {
  chain_id : string;
  genesis_hash : Hash;
  consensus_policy_hash : Hash;
  state_transition_version : string;
  cb_blue_score : Z;
  block_hash : Hash;
  state_root : Hash;
  validator_epoch : Z;
}.
#[export] Instance CheckpointBody_eq_dec : EqDecision CheckpointBody.
Proof. solve_decision. Defined.

Record CheckpointAttestation := {
  att_body : CheckpointBody;
  att_set : NativeAssetId;
  att_validator : Address;
  att_public_key : list Z;
  att_signature : list Z;
}.

Record FinalityCertificate := {
  body : CheckpointBody;
  state : CheckpointState;
  pow_work_met : bool;
  ovl_signed_stake : Z;
  ovl_active_stake : Z;
  drc_signed_stake : Z;
  drc_active_stake : Z;
}.

Definition certificate_new (b : CheckpointBody) : FinalityCertificate :=
  {| body := b; state := Proposed; pow_work_met := false; ovl_signed_stake := 0;
     ovl_active_stake := 0; drc_signed_stake := 0; drc_active_stake := 0 |}.

Record FinalityPowPolicy := { min_pow_depth : Z }.
Definition default_pow_policy : FinalityPowPolicy := {| min_pow_depth := 1 |}.
Definition pow_met (depth_or_work : Z) (policy : FinalityPowPolicy) : bool :=
  min_pow_depth policy <=? depth_or_work.

Definition evaluate_checkpoint_state (pow : bool) (ovl_signed ovl_active drc_signed drc_active : Z)
  : CheckpointState :=
  if negb pow then Proposed
  else match has_two_thirds_quorum ovl_signed ovl_active,
             has_two_thirds_quorum drc_signed drc_active with
       | true, true => Finalized
       | false, true => AwaitingOvlQuorum
       | true, false => AwaitingDrcQuorum
       | false, false => PoWAccepted
       end.

Definition refresh_certificate (c : FinalityCertificate) : FinalityCertificate :=
  {| body := body c;
     state := evaluate_checkpoint_state (pow_work_met c) (ovl_signed_stake c) (ovl_active_stake c)
                (drc_signed_stake c) (drc_active_stake c);
     pow_work_met := pow_work_met c;
     ovl_signed_stake := ovl_signed_stake c; ovl_active_stake := ovl_active_stake c;
     drc_signed_stake := drc_signed_stake c; drc_active_stake := drc_active_stake c |}.

Definition note_pow_progress (c : FinalityCertificate) (depth_or_work : Z)
  (policy : FinalityPowPolicy) : FinalityCertificate :=
  refresh_certificate
    {| body := body c; state := state c; pow_work_met := pow_met depth_or_work policy;
       ovl_signed_stake := ovl_signed_stake c; ovl_active_stake := ovl_active_stake c;
       drc_signed_stake := drc_signed_stake c; drc_active_stake := drc_active_stake c |}.

Definition note_signed_stake (c : FinalityCertificate) (b : CheckpointBody) (is_ovl : bool)
  (signed_stake active_stake : Z) : result ConsensusError FinalityCertificate :=
  if negb (bool_decide (body c = b)) then Err InvalidBlock
  else Ok (refresh_certificate
    {| body := body c; state := state c; pow_work_met := pow_work_met c;
       ovl_signed_stake := if is_ovl then signed_stake else ovl_signed_stake c;
       ovl_active_stake := if is_ovl then active_stake else ovl_active_stake c;
       drc_signed_stake := if is_ovl then drc_signed_stake c else signed_stake;
       drc_active_stake := if is_ovl then drc_active_stake c else active_stake |}).

Definition assert_reorg_allowed (finalized_blue_score : option Z) (target_blue_score : Z)
  : result ConsensusError unit :=
  match finalized_blue_score with
  | Some finalized => if target_blue_score <=? finalized then Err InvalidBlock else Ok tt
  | None => Ok tt
  end.

(** ** Evidence *)

Inductive EvidenceKind :=
| DoubleCheckpointSignature | ConflictingCheckpointSignature | InvalidStateAttestation
| ExtendedDowntime | KeyCompromiseReport.

Record SlashPolicy := {
  equivocation_slash_bps : Z;
  invalid_state_slash_bps : Z;
  downtime_slash_bps : Z;
  jail_epochs_on_invalid_state : Z;
}.
Definition default_slash_policy : SlashPolicy :=
  {| equivocation_slash_bps := 500; invalid_state_slash_bps := 100; downtime_slash_bps := 0;
     jail_epochs_on_invalid_state := 1 |}.

Definition slash_amount (bonded bps : Z) : Z := as_u64 (bonded * bps / 10000).

(** (slash amount, tombstone, jail epochs). *)
Definition penalty_for (p : SlashPolicy) (kind : EvidenceKind) (bonded : Z) : Z * bool * Z :=
  match kind with
  | DoubleCheckpointSignature | ConflictingCheckpointSignature =>
      (slash_amount bonded (equivocation_slash_bps p), true, 0)
  | InvalidStateAttestation =>
      (slash_amount bonded (invalid_state_slash_bps p), false, jail_epochs_on_invalid_state p)
  | ExtendedDowntime => (slash_amount bonded (downtime_slash_bps p), false, 1)
  | KeyCompromiseReport => (0, false, 1)
  end.

Record ValidatorEvidence := {
  ev_kind : EvidenceKind;
  ev_set : NativeAssetId;
  ev_validator : Address;
  ev_epoch : Z;
  attestation_a : option CheckpointAttestation;
  attestation_b : option CheckpointAttestation;
  note_hash : Hash;
}.

Section evidence.
(** [Hash::hash_borsh] of the domain-separated body, and of a pair of ids. *)
Variable checkpoint_id : CheckpointBody -> Hash.
Variable hash_pair : Hash -> Hash -> Hash.

Definition detect_double_checkpoint (a b : CheckpointAttestation) : option ValidatorEvidence :=
  if negb (att_validator a =? att_validator b) || negb (bool_decide (att_set a = att_set b)) then None
  else if negb (validator_epoch (att_body a) =? validator_epoch (att_body b)) then None
  else if checkpoint_id (att_body a) =? checkpoint_id (att_body b) then None
  else Some {| ev_kind := DoubleCheckpointSignature; ev_set := att_set a;
               ev_validator := att_validator a; ev_epoch := validator_epoch (att_body a);
               attestation_a := Some a; attestation_b := Some b;
               note_hash := hash_pair (checkpoint_id (att_body a)) (checkpoint_id (att_body b)) |}.

(** double-sign evidence is sound and complete: it is produced exactly
    for two attestations by the same validator, in the same set and epoch,
    with different checkpoint ids; it names that validator and epoch, is
    symmetric in its arguments, and never arises from equal bodies. *)
Theorem detect_double_checkpoint_correct (a b : CheckpointAttestation) :
  (is_Some (detect_double_checkpoint a b) <->
     att_validator a = att_validator b /\ att_set a = att_set b /\
     validator_epoch (att_body a) = validator_epoch (att_body b) /\
     checkpoint_id (att_body a) <> checkpoint_id (att_body b)) /\
  (is_Some (detect_double_checkpoint a b) <-> is_Some (detect_double_checkpoint b a)) /\
  (att_body a = att_body b -> detect_double_checkpoint a b = None) /\
  (forall ev, detect_double_checkpoint a b = Some ev ->
     ev_validator ev = att_validator a /\ ev_set ev = att_set a /\
     ev_epoch ev = validator_epoch (att_body a) /\
     attestation_a ev = Some a /\ attestation_b ev = Some b).
Proof.
  assert (forall a b, is_Some (detect_double_checkpoint a b) <->
     att_validator a = att_validator b /\ att_set a = att_set b /\
     validator_epoch (att_body a) = validator_epoch (att_body b) /\
     checkpoint_id (att_body a) <> checkpoint_id (att_body b)) as Hiff.
  { clear a b. intros a b. unfold detect_double_checkpoint.
    destruct (Z.eqb_spec (att_validator a) (att_validator b)); simpl; [|split; [by intros []|tauto]].
    case_bool_decide; simpl; [|split; [by intros []|tauto]].
    destruct (Z.eqb_spec (validator_epoch (att_body a)) (validator_epoch (att_body b))); simpl;
      [|split; [by intros []|tauto]].
    destruct (Z.eqb_spec (checkpoint_id (att_body a)) (checkpoint_id (att_body b))); simpl;
      [split; [by intros []|tauto]|]. split; [done|by eexists]. }
  split; [apply Hiff|]. split; [rewrite !Hiff; intuition congruence|]. split.
  - intros E. apply eq_None_not_Some. rewrite Hiff, E. tauto.
  - intros ev Hev. unfold detect_double_checkpoint in Hev.
    repeat case_match; simplify_eq; done.
Qed.
End evidence.

Definition slash_policy_ok (p : SlashPolicy) : Prop :=
  0 <= equivocation_slash_bps p <= 10000 /\ 0 <= invalid_state_slash_bps p <= 10000 /\
  0 <= downtime_slash_bps p <= 10000.
Lemma penalty_le p kind bonded :
  in_u64 bonded -> slash_policy_ok p -> 0 <= (penalty_for p kind bonded).1.1 <= bonded.
Proof.
  intros Hb (He & Hi & Hd).
  assert (forall bps, 0 <= bps <= 10000 -> 0 <= slash_amount bonded bps <= bonded) as Hs.
  { intros bps Hbps. unfold slash_amount.
    assert (0 <= bonded * bps / 10000 <= bonded) as Hq.
    { split; [apply Z.div_pos; unfold in_u64 in Hb; nia|].
      apply Z.div_le_upper_bound; unfold in_u64 in Hb; nia. }
    rewrite as_u64_small; unfold in_u64 in *; lia. }
  destruct kind; simpl; auto. unfold in_u64 in Hb. lia.
Qed.

(** ** The life of a certificate *)

Inductive cert_step : FinalityCertificate -> FinalityCertificate -> Prop :=
| cert_pow c depth policy : cert_step c (note_pow_progress c depth policy)
| cert_stake c b is_ovl signed active c' :
    in_u64 signed -> in_u64 active ->
    note_signed_stake c b is_ovl signed active = Ok c' -> cert_step c c'
| cert_refresh c : cert_step c (refresh_certificate c).
Definition cert_reachable (b : CheckpointBody) (c : FinalityCertificate) : Prop :=
  rtc cert_step (certificate_new b) c.

Record cert_ok (b : CheckpointBody) (c : FinalityCertificate) : Prop := {
  co_body : body c = b;
  co_state : state c = evaluate_checkpoint_state (pow_work_met c) (ovl_signed_stake c)
               (ovl_active_stake c) (drc_signed_stake c) (drc_active_stake c);
  co_ovl : in_u64 (ovl_signed_stake c) /\ in_u64 (ovl_active_stake c);
  co_drc : in_u64 (drc_signed_stake c) /\ in_u64 (drc_active_stake c);
}.

Lemma cert_step_ok b c c' : cert_ok b c -> cert_step c c' -> cert_ok b c'.
Proof.
  intros [Hb Hs Ho Hd] Hst. destruct Hst as [c depth policy|c b' ovl s a c' Hs' Ha' Hn|c].
  - by split.
  - unfold note_signed_stake in Hn. destruct (bool_decide _); simpl in Hn; [|done]. simplify_eq.
    split; simpl; destruct ovl; auto.
  - by split.
Qed.

Lemma cert_reachable_ok b c : cert_reachable b c -> cert_ok b c.
Proof.
  unfold cert_reachable. assert (cert_ok b (certificate_new b)) as Hi.
  { split; simpl; unfold in_u64, u64_max; try done; lia. }
  revert Hi. generalize (certificate_new b). intros c0 Hi Hr. revert Hi.
  induction Hr as [|c1 c2 c3 Hst _ IH]; [done|]. intros. apply IH. by eapply cert_step_ok.
Qed.

(** no bypass.  However a certificate was updated, it is final exactly
    when PoW is met and both OVL and DRC hold two thirds of a nonempty active
    stake; without PoW it is only proposed, and its body never changes. *)
Theorem certificate_finalized_iff b c :
  cert_reachable b c ->
  body c = b /\
  (state c = Finalized <->
     pow_work_met c = true /\
     0 < ovl_active_stake c /\ 2 * ovl_active_stake c <= 3 * ovl_signed_stake c /\
     0 < drc_active_stake c /\ 2 * drc_active_stake c <= 3 * drc_signed_stake c) /\
  (pow_work_met c = false -> state c = Proposed) /\ state c <> RevertedOrOrphaned.
Proof.
  intros [Hb Hs [Ho1 Ho2] [Hd1 Hd2]]%cert_reachable_ok. split; [done|]. rewrite Hs.
  unfold evaluate_checkpoint_state.
  pose proof (quorum_iff _ _ Ho1 Ho2) as Hqo. pose proof (quorum_iff _ _ Hd1 Hd2) as Hqd.
  destruct (pow_work_met c); simpl; [|naive_solver].
  destruct (has_two_thirds_quorum (ovl_signed_stake c) _), (has_two_thirds_quorum (drc_signed_stake c) _);
    (split; [|done]); intuition congruence.
Qed.

Definition demo_body : CheckpointBody :=
  {| chain_id := "c"; genesis_hash := 0; consensus_policy_hash := 0; state_transition_version := "v";
     cb_blue_score := 42; block_hash := 7; state_root := 0; validator_epoch := 1 |}.
Lemma certificate_finalized_iff_witness :
  exists c, cert_reachable demo_body c /\ state c = Finalized /\ 0 < ovl_active_stake c.
Proof.
  pose (c0 := certificate_new demo_body).
  pose (c1 := note_pow_progress c0 1 default_pow_policy).
  destruct (note_signed_stake c1 demo_body true 70 100) as [c2|e2] eqn:E2; [|discriminate E2].
  destruct (note_signed_stake c2 demo_body false 70 100) as [c3|e3] eqn:E3;
    [|vm_compute in E2; injection E2 as <-; discriminate E3].
  assert (cert_reachable demo_body c3) as Hr.
  { eapply rtc_l; [apply (cert_pow c0 1 default_pow_policy)|].
    eapply rtc_l; [eapply (cert_stake c1 demo_body true 70 100); [unfold_ints; lia..|exact E2]|].
    eapply rtc_once, (cert_stake c2 demo_body false 70 100); [unfold_ints; lia..|exact E3]. }
  destruct (certificate_finalized_iff demo_body c3 Hr) as (_ & Hf & _).
  vm_compute in E2; injection E2 as <-. vm_compute in E3; injection E3 as <-.
  exists {| body := demo_body; state := Finalized; pow_work_met := true; ovl_signed_stake := 70;
            ovl_active_stake := 100; drc_signed_stake := 70; drc_active_stake := 100 |}.
  split; [exact Hr|]. split; [reflexivity|]. apply Hf. reflexivity.
Defined.

(** ** The attestation index *)

Record AttestationIndex := { ovl_signers : list Address; drc_signers : list Address }.
Definition index_default : AttestationIndex := {| ovl_signers := []; drc_signers := [] |}.

Definition insert_signer (addr : Address) (l : list Address) : list Address :=
  if bool_decide (addr ∈ l) then l else sort_by Z.compare (l ++ [addr]).
Definition index_insert (i : AttestationIndex) (set : NativeAssetId) (addr : Address)
  : AttestationIndex :=
  match set with
  | OVL => {| ovl_signers := insert_signer addr (ovl_signers i); drc_signers := drc_signers i |}
  | DRC => {| ovl_signers := ovl_signers i; drc_signers := insert_signer addr (drc_signers i) |}
  | TLT => i
  end.
Definition signers (i : AttestationIndex) (set : NativeAssetId) : list Address :=
  match set with OVL => ovl_signers i | DRC => drc_signers i | TLT => [] end.

Lemma insert_signer_elem x addr l : x ∈ insert_signer addr l <-> x = addr \/ x ∈ l.
Proof.
  unfold insert_signer. case_bool_decide; [naive_solver|].
  rewrite elem_of_sort_by, elem_of_app, list_elem_of_singleton. tauto.
Qed.
Lemma insert_signer_nodup addr l : NoDup l -> NoDup (insert_signer addr l).
Proof.
  intros Hl. unfold insert_signer. case_bool_decide; [done|].
  apply NoDup_sort_by, NoDup_app. split; [done|]. split; [|apply NoDup_singleton].
  intros x Hx ->%list_elem_of_singleton. done.
Qed.
Lemma index_insert_nodup i set set' addr :
  NoDup (signers i set') -> NoDup (signers (index_insert i set addr) set').
Proof. destruct set, set'; simpl; auto using insert_signer_nodup. Qed.
