(* ===== verification/Store.v ===== *)
(** * The Meta column family ([state-machine/src/store.rs], [columns.rs])

    The account, supply, ticket, staking and finality modules keep their records in one
    byte-keyed column family.  The model has one finite map per key family;
    [meta_key] gives the byte keys of the source and [meta_key_injective]
    shows that no two families share a key, so the maps are independent.

    A [WriteBatch] is the ordered list of writes an operation pushes;
    operations read the store as it was before the batch, and [write_batch]
    applies the list in order (a later write to the same key wins). *)

From stdpp Require Import base gmap list fin_maps strings.
From Stdlib Require Import ZArith Lia.
From S2P Require Import Prelude Types Finality.
Local Open Scope Z_scope.

(** [StateError], with the variants these modules raise. *)
Inductive StateError :=
| Storage (msg : string)
| UnknownZone
| MissingUtxo (op : OutPoint)
| DoubleSpend (op : OutPoint)
| InvalidTx (msg : string)
| Coinbase (msg : string)
| ImmatureCoinbase (op : OutPoint)
| SupplyCapExceeded
| BurnedSupplyExceedsIssued
| BlockLimit (msg : string)
| DuplicateOutpoint (op : OutPoint).

(** [AccountState] ([accounts/mod.rs]). *)
Record AccountState := { balance : Z; nonce : Z }.
Definition default_account : AccountState := {| balance := 0; nonce := 0 |}.

(** [DrcAccountTickets] ([types/src/drc_ticket.rs]). *)
Record DrcAccountTickets := { at_version : Z; at_owner : Address; at_sequences : list Z }.

(** [ValidatorStatus], [ValidatorRecord], [DelegationRecord],
    [UnbondingEntry], [ValidatorSetSnapshot] ([staking/mod.rs]). *)
Inductive ValidatorStatus := Bonded | Unbonding | Jailed | Tombstoned.
#[export] Instance ValidatorStatus_eq_dec : EqDecision ValidatorStatus.
Proof. solve_decision. Defined.

Record ValidatorRecord := {
  operator : Address;
  consensus_pubkey : list Z;
  withdrawal : Address;
  self_bond : Z;
  delegated : Z;
  commission_bps : Z;
  status : ValidatorStatus;
  jailed_until_epoch : Z;
  metadata_hash : Hash;
}.
Record DelegationRecord := { del_delegator : Address; del_validator : Address; del_amount : Z }.
Record UnbondingEntry := { ub_owner : Address; ub_amount : Z; release_epoch : Z }.
Record ValidatorSetSnapshot := {
  vs_epoch : Z;
  vs_asset : NativeAssetId;
  validators : list (Address * Z);
  total_active_stake : Z;
}.

(** The column family, one map per key family. *)
Record StateStore := mkStore {
  st_accounts : gmap (NativeAssetId * Address) AccountState;
  st_tickets : gmap Address DrcAccountTickets;
  st_validators : gmap (NativeAssetId * Address) ValidatorRecord;
  st_delegations : gmap (NativeAssetId * Address * Address) DelegationRecord;
  st_unbonding : gmap (NativeAssetId * Address) UnbondingEntry;
  st_epochs : gmap NativeAssetId Z;
  st_snapshots : gmap (NativeAssetId * Z) ValidatorSetSnapshot;
  st_reward_pool : gmap NativeAssetId Z;
  st_reserve : gmap NativeAssetId Z;
  st_issued : gmap NativeAssetId Z;
  st_burned : gmap NativeAssetId Z;
  st_max_supply : gmap NativeAssetId Z;
  st_schema : option Z;
  (* the pre-Trident TLT keys, mirrored by the supply writers *)
  st_issued_legacy : option Z;
  st_max_legacy : option Z;
  (* the DRC ledger-object index marker *)
  st_index_marker : bool;
  st_certificates : gmap Hash FinalityCertificate;
  st_att_index : gmap Hash AttestationIndex;
  st_last_att : gmap (NativeAssetId * Address * Z) CheckpointAttestation;
  st_finalized_tip : option Z;
}.
Definition empty_store : StateStore :=
  mkStore ∅ ∅ ∅ ∅ ∅ ∅ ∅ ∅ ∅ ∅ ∅ ∅ None None None false ∅ ∅ ∅ None.

(** A record of the column family, named by what its byte key encodes. *)
Inductive MetaKey :=
| KAccount (asset : NativeAssetId) (a : Address)
| KTickets (owner : Address)
| KValidator (asset : NativeAssetId) (op : Address)
| KDelegation (asset : NativeAssetId) (delegator validator : Address)
| KUnbonding (asset : NativeAssetId) (owner : Address)
| KEpoch (asset : NativeAssetId)
| KSnapshot (asset : NativeAssetId) (epoch : Z)
| KRewardPool (asset : NativeAssetId)
| KReserve (asset : NativeAssetId)
| KIssued (asset : NativeAssetId)
| KBurned (asset : NativeAssetId)
| KMaxSupply (asset : NativeAssetId)
| KSchema
| KIssuedLegacy
| KMaxLegacy
| KIndexMarker
| KCertificate (block : Hash)
| KAttIndex (block : Hash)
| KLastAtt (set : NativeAssetId) (validator : Address) (epoch : Z)
| KFinalizedTip.

(** [WriteOp], by key family. *)
Inductive WriteOp :=
| PutAccount (asset : NativeAssetId) (a : Address) (v : AccountState)
| PutTickets (owner : Address) (v : DrcAccountTickets)
| PutValidator (asset : NativeAssetId) (op : Address) (v : ValidatorRecord)
| PutDelegation (asset : NativeAssetId) (delegator validator : Address) (v : DelegationRecord)
| PutUnbonding (asset : NativeAssetId) (owner : Address) (v : UnbondingEntry)
| PutEpoch (asset : NativeAssetId) (v : Z)
| PutSnapshot (asset : NativeAssetId) (epoch : Z) (v : ValidatorSetSnapshot)
| PutRewardPool (asset : NativeAssetId) (v : Z)
| PutReserve (asset : NativeAssetId) (v : Z)
| PutIssued (asset : NativeAssetId) (v : Z)
| PutBurned (asset : NativeAssetId) (v : Z)
| PutMaxSupply (asset : NativeAssetId) (v : Z)
| PutSchema (v : Z)
| PutIssuedLegacy (v : Z)
| PutMaxLegacy (v : Z)
| PutIndexMarker
| PutCertificate (block : Hash) (v : FinalityCertificate)
| PutAttIndex (block : Hash) (v : AttestationIndex)
| PutLastAtt (set : NativeAssetId) (validator : Address) (epoch : Z) (v : CheckpointAttestation)
| PutFinalizedTip (v : Z)
| Delete (key : MetaKey).
Abbreviation WriteBatch := (list WriteOp) (only parsing).

Definition apply_op (s : StateStore) (op : WriteOp) : StateStore :=
  let '(mkStore acc tic val del unb epo snp rwd rsv iss brn mxs sch
          isl mxl idx cer atx las fin) := s in
  match op with
  | PutAccount x a v =>
      mkStore (<[(x, a) := v]> acc) tic val del unb epo snp rwd rsv iss brn mxs sch isl mxl idx cer atx las fin
  | PutTickets o v =>
      mkStore acc (<[o := v]> tic) val del unb epo snp rwd rsv iss brn mxs sch isl mxl idx cer atx las fin
  | PutValidator x o v =>
      mkStore acc tic (<[(x, o) := v]> val) del unb epo snp rwd rsv iss brn mxs sch isl mxl idx cer atx las fin
  | PutDelegation x d o v =>
      mkStore acc tic val (<[(x, d, o) := v]> del) unb epo snp rwd rsv iss brn mxs sch isl mxl idx cer atx las fin
  | PutUnbonding x o v =>
      mkStore acc tic val del (<[(x, o) := v]> unb) epo snp rwd rsv iss brn mxs sch isl mxl idx cer atx las fin
  | PutEpoch x v =>
      mkStore acc tic val del unb (<[x := v]> epo) snp rwd rsv iss brn mxs sch isl mxl idx cer atx las fin
  | PutSnapshot x e v =>
      mkStore acc tic val del unb epo (<[(x, e) := v]> snp) rwd rsv iss brn mxs sch isl mxl idx cer atx las fin
  | PutRewardPool x v =>
      mkStore acc tic val del unb epo snp (<[x := v]> rwd) rsv iss brn mxs sch isl mxl idx cer atx las fin
  | PutReserve x v =>
      mkStore acc tic val del unb epo snp rwd (<[x := v]> rsv) iss brn mxs sch isl mxl idx cer atx las fin
  | PutIssued x v =>
      mkStore acc tic val del unb epo snp rwd rsv (<[x := v]> iss) brn mxs sch isl mxl idx cer atx las fin
  | PutBurned x v =>
      mkStore acc tic val del unb epo snp rwd rsv iss (<[x := v]> brn) mxs sch isl mxl idx cer atx las fin
  | PutMaxSupply x v =>
      mkStore acc tic val del unb epo snp rwd rsv iss brn (<[x := v]> mxs) sch isl mxl idx cer atx las fin
  | PutSchema v =>
      mkStore acc tic val del unb epo snp rwd rsv iss brn mxs (Some v) isl mxl idx cer atx las fin
  | PutIssuedLegacy v =>
      mkStore acc tic val del unb epo snp rwd rsv iss brn mxs sch (Some v) mxl idx cer atx las fin
  | PutMaxLegacy v =>
      mkStore acc tic val del unb epo snp rwd rsv iss brn mxs sch isl (Some v) idx cer atx las fin
  | PutIndexMarker =>
      mkStore acc tic val del unb epo snp rwd rsv iss brn mxs sch isl mxl true cer atx las fin
  | PutCertificate h v =>
      mkStore acc tic val del unb epo snp rwd rsv iss brn mxs sch isl mxl idx (<[h := v]> cer) atx las fin
  | PutAttIndex h v =>
      mkStore acc tic val del unb epo snp rwd rsv iss brn mxs sch isl mxl idx cer (<[h := v]> atx) las fin
  | PutLastAtt x a e v =>
      mkStore acc tic val del unb epo snp rwd rsv iss brn mxs sch isl mxl idx cer atx (<[(x, a, e) := v]> las) fin
  | PutFinalizedTip v =>
      mkStore acc tic val del unb epo snp rwd rsv iss brn mxs sch isl mxl idx cer atx las (Some v)
  | Delete key =>
      match key with
      | KAccount x a =>
          mkStore (delete (x, a) acc) tic val del unb epo snp rwd rsv iss brn mxs sch isl mxl idx cer atx las fin
      | KTickets o =>
          mkStore acc (delete o tic) val del unb epo snp rwd rsv iss brn mxs sch isl mxl idx cer atx las fin
      | KValidator x o =>
          mkStore acc tic (delete (x, o) val) del unb epo snp rwd rsv iss brn mxs sch isl mxl idx cer atx las fin
      | KDelegation x d o =>
          mkStore acc tic val (delete (x, d, o) del) unb epo snp rwd rsv iss brn mxs sch isl mxl idx cer atx las fin
      | KUnbonding x o =>
          mkStore acc tic val del (delete (x, o) unb) epo snp rwd rsv iss brn mxs sch isl mxl idx cer atx las fin
      | KEpoch x =>
          mkStore acc tic val del unb (delete x epo) snp rwd rsv iss brn mxs sch isl mxl idx cer atx las fin
      | KSnapshot x e =>
          mkStore acc tic val del unb epo (delete (x, e) snp) rwd rsv iss brn mxs sch isl mxl idx cer atx las fin
      | KRewardPool x =>
          mkStore acc tic val del unb epo snp (delete x rwd) rsv iss brn mxs sch isl mxl idx cer atx las fin
      | KReserve x =>
          mkStore acc tic val del unb epo snp rwd (delete x rsv) iss brn mxs sch isl mxl idx cer atx las fin
      | KIssued x =>
          mkStore acc tic val del unb epo snp rwd rsv (delete x iss) brn mxs sch isl mxl idx cer atx las fin
      | KBurned x =>
          mkStore acc tic val del unb epo snp rwd rsv iss (delete x brn) mxs sch isl mxl idx cer atx las fin
      | KMaxSupply x =>
          mkStore acc tic val del unb epo snp rwd rsv iss brn (delete x mxs) sch isl mxl idx cer atx las fin
      | KSchema =>
          mkStore acc tic val del unb epo snp rwd rsv iss brn mxs None isl mxl idx cer atx las fin
      | KIssuedLegacy =>
          mkStore acc tic val del unb epo snp rwd rsv iss brn mxs sch None mxl idx cer atx las fin
      | KMaxLegacy =>
          mkStore acc tic val del unb epo snp rwd rsv iss brn mxs sch isl None idx cer atx las fin
      | KIndexMarker =>
          mkStore acc tic val del unb epo snp rwd rsv iss brn mxs sch isl mxl false cer atx las fin
      | KCertificate h =>
          mkStore acc tic val del unb epo snp rwd rsv iss brn mxs sch isl mxl idx (delete h cer) atx las fin
      | KAttIndex h =>
          mkStore acc tic val del unb epo snp rwd rsv iss brn mxs sch isl mxl idx cer (delete h atx) las fin
      | KLastAtt x a e =>
          mkStore acc tic val del unb epo snp rwd rsv iss brn mxs sch isl mxl idx cer atx (delete (x, a, e) las) fin
      | KFinalizedTip =>
          mkStore acc tic val del unb epo snp rwd rsv iss brn mxs sch isl mxl idx cer atx las None
      end
  end.
Definition write_batch (s : StateStore) (b : WriteBatch) : StateStore := foldl apply_op s b.

Lemma write_batch_cons s op b : write_batch s (op :: b) = write_batch (apply_op s op) b.
Proof. done. Qed.
Lemma write_batch_app s b1 b2 : write_batch s (b1 ++ b2) = write_batch (write_batch s b1) b2.
Proof. apply foldl_app. Qed.

(** The record an operation writes, and the write that restores a record to
    its value in [s] ([snapshot_meta_keys]: [Some value] is put back, [None]
    is deleted).  [snapshot_op] doubles as the uniform read of the store. *)
Definition op_key (op : WriteOp) : MetaKey :=
  match op with
  | PutAccount x a _ => KAccount x a
  | PutTickets o _ => KTickets o
  | PutValidator x o _ => KValidator x o
  | PutDelegation x d o _ => KDelegation x d o
  | PutUnbonding x o _ => KUnbonding x o
  | PutEpoch x _ => KEpoch x
  | PutSnapshot x e _ => KSnapshot x e
  | PutRewardPool x _ => KRewardPool x
  | PutReserve x _ => KReserve x
  | PutIssued x _ => KIssued x
  | PutBurned x _ => KBurned x
  | PutMaxSupply x _ => KMaxSupply x
  | PutSchema _ => KSchema
  | PutIssuedLegacy _ => KIssuedLegacy
  | PutMaxLegacy _ => KMaxLegacy
  | PutIndexMarker => KIndexMarker
  | PutCertificate h _ => KCertificate h
  | PutAttIndex h _ => KAttIndex h
  | PutLastAtt x a e _ => KLastAtt x a e
  | PutFinalizedTip _ => KFinalizedTip
  | Delete k => k
  end.
Definition put_or_delete {V} (put : V -> WriteOp) (key : MetaKey) (o : option V) : WriteOp :=
  match o with Some v => put v | None => Delete key end.
Definition snapshot_op (s : StateStore) (key : MetaKey) : WriteOp :=
  match key with
  | KAccount x a => put_or_delete (PutAccount x a) key (st_accounts s !! (x, a))
  | KTickets o => put_or_delete (PutTickets o) key (st_tickets s !! o)
  | KValidator x o => put_or_delete (PutValidator x o) key (st_validators s !! (x, o))
  | KDelegation x d o => put_or_delete (PutDelegation x d o) key (st_delegations s !! (x, d, o))
  | KUnbonding x o => put_or_delete (PutUnbonding x o) key (st_unbonding s !! (x, o))
  | KEpoch x => put_or_delete (PutEpoch x) key (st_epochs s !! x)
  | KSnapshot x e => put_or_delete (PutSnapshot x e) key (st_snapshots s !! (x, e))
  | KRewardPool x => put_or_delete (PutRewardPool x) key (st_reward_pool s !! x)
  | KReserve x => put_or_delete (PutReserve x) key (st_reserve s !! x)
  | KIssued x => put_or_delete (PutIssued x) key (st_issued s !! x)
  | KBurned x => put_or_delete (PutBurned x) key (st_burned s !! x)
  | KMaxSupply x => put_or_delete (PutMaxSupply x) key (st_max_supply s !! x)
  | KSchema => put_or_delete PutSchema key (st_schema s)
  | KIssuedLegacy => put_or_delete PutIssuedLegacy key (st_issued_legacy s)
  | KMaxLegacy => put_or_delete PutMaxLegacy key (st_max_legacy s)
  | KIndexMarker => if st_index_marker s then PutIndexMarker else Delete key
  | KCertificate h => put_or_delete (PutCertificate h) key (st_certificates s !! h)
  | KAttIndex h => put_or_delete (PutAttIndex h) key (st_att_index s !! h)
  | KLastAtt x a e => put_or_delete (PutLastAtt x a e) key (st_last_att s !! (x, a, e))
  | KFinalizedTip => put_or_delete PutFinalizedTip key (st_finalized_tip s)
  end.
Definition snapshot_meta_keys (s : StateStore) (keys : list MetaKey) : WriteBatch :=
  snapshot_op s <$> keys.

#[export] Instance MetaKey_eq_dec : EqDecision MetaKey.
Proof. solve_decision. Defined.

Lemma op_key_snapshot s key : op_key (snapshot_op s key) = key.
Proof. destruct key; simpl; unfold put_or_delete; by case_match. Qed.

Ltac store_cases s :=
  destruct s; simpl; repeat first [ rewrite lookup_insert_eq | rewrite lookup_delete_eq
    | rewrite lookup_insert_ne by congruence | rewrite lookup_delete_ne by congruence ]; try done.

(** Reading back the record just written, and any other record. *)
Lemma snapshot_apply_eq s op : snapshot_op (apply_op s op) (op_key op) = op.
Proof. destruct op as [| | | | | | | | | | | | | | | | | | | | []]; store_cases s. Qed.
Lemma snapshot_apply_ne s op key :
  key <> op_key op -> snapshot_op (apply_op s op) key = snapshot_op s key.
Proof.
  intros Hne. destruct op as [| | | | | | | | | | | | | | | | | | | | []], key; simpl in Hne;
    store_cases s; done.
Qed.

(** A store is determined by its records. *)
Lemma put_or_delete_inj {V} (put : V -> WriteOp) key o1 o2 :
  (forall v w, put v = put w -> v = w) -> (forall v, put v <> Delete key) ->
  put_or_delete put key o1 = put_or_delete put key o2 -> o1 = o2.
Proof.
  intros Hinj Hd. destruct o1, o2; simpl; intros E; try done.
  - by rewrite (Hinj _ _ E).
  - by apply Hd in E.
  - by symmetry in E; apply Hd in E.
Qed.
Ltac same_record H key :=
  eapply put_or_delete_inj; [| |exact (H key)]; [by intros ?? [= ->]|done].
Lemma store_ext s1 s2 : (forall key, snapshot_op s1 key = snapshot_op s2 key) -> s1 = s2.
Proof.
  intros H. destruct s1, s2. f_equal; try (apply map_eq; intros k).
  - destruct k as [x a]. same_record H (KAccount x a).
  - same_record H (KTickets k).
  - destruct k as [x o]. same_record H (KValidator x o).
  - destruct k as [[x d] o]. same_record H (KDelegation x d o).
  - destruct k as [x o]. same_record H (KUnbonding x o).
  - same_record H (KEpoch k).
  - destruct k as [x e]. same_record H (KSnapshot x e).
  - same_record H (KRewardPool k).
  - same_record H (KReserve k).
  - same_record H (KIssued k).
  - same_record H (KBurned k).
  - same_record H (KMaxSupply k).
  - same_record H (KSchema).
  - same_record H (KIssuedLegacy).
  - same_record H (KMaxLegacy).
  - specialize (H KIndexMarker). simpl in H. by destruct st_index_marker0, st_index_marker1.
  - same_record H (KCertificate k).
  - same_record H (KAttIndex k).
  - destruct k as [[x a] e]. same_record H (KLastAtt x a e).
  - same_record H (KFinalizedTip).
Qed.

(** ** Undo logs

    A reverted block restores records from values snapshotted before each
    operation.  An absent account and the all-zero account read the same
    ([AccountState::default]); [view] identifies them, and [≡] compares stores
    through it. *)

Definition norm (op : WriteOp) : WriteOp :=
  match op with Delete (KAccount x a) => PutAccount x a default_account | _ => op end.
Definition view (s : StateStore) (key : MetaKey) : WriteOp := norm (snapshot_op s key).
#[export] Instance store_equiv : Equiv StateStore := fun s1 s2 => forall key, view s1 key = view s2 key.
#[export] Instance store_equivalence : Equivalence (≡@{StateStore}).
Proof.
  split.
  - by intros s key.
  - by intros s1 s2 H key; rewrite H.
  - by intros s1 s2 s3 H1 H2 key; rewrite H1, H2.
Qed.
Lemma view_apply s op key :
  view (apply_op s op) key = if bool_decide (key = op_key op) then norm op else view s key.
Proof.
  unfold view. case_bool_decide as Hk; [subst; by rewrite snapshot_apply_eq|].
  by rewrite snapshot_apply_ne.
Qed.
#[export] Instance write_batch_proper : Proper ((≡) ==> (=) ==> (≡)) write_batch.
Proof.
  intros s1 s2 H b ? <-. revert s1 s2 H. induction b as [|op b IH]; intros s1 s2 H; [done|].
  apply IH. intros key. by rewrite !view_apply, H.
Qed.

(** The first record of a key in a log: the value before the first write. *)
Definition first_record (log : list WriteOp) (key : MetaKey) : option WriteOp :=
  List.find (fun op => bool_decide (op_key op = key)) log.
Lemma first_record_cons op log key :
  first_record (op :: log) key = if bool_decide (op_key op = key) then Some op else first_record log key.
Proof. done. Qed.
Lemma first_record_app l1 l2 key :
  first_record (l1 ++ l2) key =
    match first_record l1 key with Some op => Some op | None => first_record l2 key end.
Proof.
  induction l1 as [|op l1 IH]; [done|]. rewrite <- app_comm_cons, !first_record_cons.
  by case_bool_decide.
Qed.
Lemma first_record_None log key :
  first_record log key = None <-> Forall (fun op => op_key op <> key) log.
Proof.
  induction log as [|op log IH]; [by split|]. rewrite first_record_cons, Forall_cons.
  case_bool_decide; [naive_solver|]. rewrite IH. tauto.
Qed.
Lemma first_record_snapshot s keys key :
  first_record (snapshot_meta_keys s keys) key =
    if bool_decide (key ∈ keys) then Some (snapshot_op s key) else None.
Proof.
  induction keys as [|k keys IH]; [done|]. cbn [snapshot_meta_keys fmap list_fmap].
  rewrite first_record_cons, op_key_snapshot. destruct (decide (k = key)) as [->|H1].
  - rewrite (bool_decide_eq_true_2 (key = key)) by done. by rewrite (bool_decide_eq_true_2 (key ∈ _)) by (apply elem_of_cons; by left).
  - rewrite (bool_decide_eq_false_2 (k = key)) by done.
    unfold snapshot_meta_keys in IH. rewrite IH. apply eq_sym.
    destruct (decide (key ∈ keys)) as [Hin|Hin].
    + by rewrite !bool_decide_eq_true_2 by (done || (apply elem_of_cons; by right)).
    + rewrite !bool_decide_eq_false_2; [done|done|]. rewrite elem_of_cons. naive_solver.
Qed.

Lemma view_revert s log key :
  view (write_batch s (reverse log)) key =
    match first_record log key with Some op => norm op | None => view s key end.
Proof.
  induction log as [|op log IH]; [done|].
  rewrite reverse_cons, write_batch_app, first_record_cons. simpl. rewrite view_apply.
  destruct (decide (op_key op = key)) as [->|Hne].
  - by rewrite !bool_decide_eq_true_2.
  - by rewrite !bool_decide_eq_false_2 by congruence.
Qed.

(** [log] undoes what led from [s] to [t]. *)
Definition undoes (log : list WriteOp) (s t : StateStore) : Prop :=
  forall key, match first_record log key with
              | Some op => norm op = view s key
              | None => view t key = view s key
              end.
Lemma undoes_revert log s t : undoes log s t -> write_batch t (reverse log) ≡ s.
Proof. intros H key. rewrite view_revert. specialize (H key). by destruct (first_record log key). Qed.

Lemma view_untouched s b key :
  Forall (fun op => op_key op <> key) b -> view (write_batch s b) key = view s key.
Proof.
  revert s. induction b as [|op b IH]; intros s Hb; [done|]. apply Forall_cons in Hb as [Hop Hb].
  simpl. rewrite IH by done. by rewrite view_apply, bool_decide_eq_false_2 by congruence.
Qed.
(** Every written key is in the new part of the log, with its value before. *)
Definition covers (new : list WriteOp) (t : StateStore) (b : WriteBatch) : Prop :=
  (forall key op, first_record new key = Some op -> norm op = view t key) /\
  Forall (fun op => is_Some (first_record new (op_key op))) b.
Lemma undoes_extend log new s t b :
  undoes log s t -> covers new t b -> undoes (log ++ new) s (write_batch t b).
Proof.
  intros Hu [Hn Hc] key. rewrite first_record_app. specialize (Hu key).
  destruct (first_record log key); [done|].
  destruct (first_record new key) as [op|] eqn:E; [rewrite <- Hu; by apply Hn|].
  rewrite <- Hu. apply view_untouched. eapply Forall_impl; [exact Hc|].
  intros op [x Hx] <-. simpl in Hx. congruence.
Qed.

(** ** Byte keys *)

(** The bytes of an ASCII literal. *)
Fixpoint ascii_bytes (s : string) : list Z :=
  match s with
  | EmptyString => []
  | String c s' => Z.of_N (Ascii.N_of_ascii c) :: ascii_bytes s'
  end.
(** Big-endian bytes of an address, little-endian bytes of a [u64]. *)
Fixpoint le_bytes (n : nat) (x : Z) : list Z :=
  match n with O => [] | S n' => x mod 256 :: le_bytes n' (x / 256) end.
Definition address_bytes (a : Address) : list Z := reverse (le_bytes 20 a).
Definition hash_bytes (h : Hash) : list Z := reverse (le_bytes 32 h).
Definition u64_le_bytes (x : Z) : list Z := le_bytes 8 x.

Definition account_key (asset : NativeAssetId) (a : Address) : list Z :=
  ascii_bytes "account/" ++ [wire_byte asset] ++ ascii_bytes "/" ++ address_bytes a.
Definition drc_ticket_meta_key (owner : Address) : list Z :=
  ascii_bytes "account/drc/tickets/" ++ address_bytes owner.
Definition validator_meta_key (asset : NativeAssetId) (op : Address) : list Z :=
  ascii_bytes "stake/val/" ++ [wire_byte asset] ++ ascii_bytes "/" ++ address_bytes op.
Definition delegation_key (asset : NativeAssetId) (delegator validator : Address) : list Z :=
  ascii_bytes "stake/del/" ++ [wire_byte asset] ++ ascii_bytes "/" ++ address_bytes delegator ++
    ascii_bytes "/" ++ address_bytes validator.
Definition unbonding_key (asset : NativeAssetId) (op : Address) : list Z :=
  ascii_bytes "stake/unbond/" ++ [wire_byte asset] ++ ascii_bytes "/" ++ address_bytes op.
Definition epoch_key (asset : NativeAssetId) : list Z :=
  ascii_bytes "stake/epoch/" ++ [wire_byte asset].
Definition snapshot_key (asset : NativeAssetId) (epoch : Z) : list Z :=
  ascii_bytes "stake/snap/" ++ [wire_byte asset] ++ ascii_bytes "/" ++ u64_le_bytes epoch.
Definition reward_pool_key (asset : NativeAssetId) : list Z :=
  ascii_bytes "stake/reward_pool/" ++ [wire_byte asset].
Definition staking_reserve_key (asset : NativeAssetId) : list Z :=
  ascii_bytes "stake/reserve_remaining/" ++ [wire_byte asset].
Definition issued_supply_key (asset : NativeAssetId) : list Z :=
  ascii_bytes "meta/issued_supply/" ++ [wire_byte asset].
Definition burned_supply_key (asset : NativeAssetId) : list Z :=
  ascii_bytes "meta/burned_supply/" ++ [wire_byte asset].
Definition max_supply_key (asset : NativeAssetId) : list Z :=
  ascii_bytes "meta/max_supply/" ++ [wire_byte asset].
Definition schema_key : list Z := ascii_bytes "meta/schema_version".
Definition issued_legacy_key : list Z := ascii_bytes "meta/issued_supply".
Definition max_legacy_key : list Z := ascii_bytes "meta/max_supply".
Definition index_marker_key : list Z := ascii_bytes "ledger/drc/index/version".
Definition certificate_key (block : Hash) : list Z := ascii_bytes "finality/cert/" ++ hash_bytes block.
Definition index_key (block : Hash) : list Z := ascii_bytes "finality/idx/" ++ hash_bytes block.
Definition last_attestation_key (set : NativeAssetId) (validator : Address) (epoch : Z) : list Z :=
  ascii_bytes "finality/last_att/" ++ [wire_byte set] ++ ascii_bytes "/" ++ address_bytes validator ++
    ascii_bytes "/" ++ u64_le_bytes epoch.
Definition finalized_tip_key : list Z := ascii_bytes "finality/tip_blue_score".

Definition meta_key (key : MetaKey) : list Z :=
  match key with
  | KAccount x a => account_key x a
  | KTickets o => drc_ticket_meta_key o
  | KValidator x o => validator_meta_key x o
  | KDelegation x d o => delegation_key x d o
  | KUnbonding x o => unbonding_key x o
  | KEpoch x => epoch_key x
  | KSnapshot x e => snapshot_key x e
  | KRewardPool x => reward_pool_key x
  | KReserve x => staking_reserve_key x
  | KIssued x => issued_supply_key x
  | KBurned x => burned_supply_key x
  | KMaxSupply x => max_supply_key x
  | KSchema => schema_key
  | KIssuedLegacy => issued_legacy_key
  | KMaxLegacy => max_legacy_key
  | KIndexMarker => index_marker_key
  | KCertificate h => certificate_key h
  | KAttIndex h => index_key h
  | KLastAtt x a e => last_attestation_key x a e
  | KFinalizedTip => finalized_tip_key
  end.

Definition is_address (a : Z) : Prop := 0 <= a < 2 ^ 160.
Definition is_hash (h : Z) : Prop := 0 <= h < 2 ^ 256.
Definition valid_key (key : MetaKey) : Prop :=
  match key with
  | KAccount _ a | KValidator _ a | KUnbonding _ a | KTickets a => is_address a
  | KDelegation _ a b => is_address a /\ is_address b
  | KSnapshot _ e => in_u64 e
  | KCertificate h | KAttIndex h => is_hash h
  | KLastAtt _ a e => is_address a /\ in_u64 e
  | _ => True
  end.

Lemma length_le_bytes n x : length (le_bytes n x) = n.
Proof. revert x. induction n; intros; simpl; auto. Qed.
Lemma le_bytes_inj n x y :
  0 <= x < 256 ^ Z.of_nat n -> 0 <= y < 256 ^ Z.of_nat n -> le_bytes n x = le_bytes n y -> x = y.
Proof.
  revert x y. induction n as [|n IH]; intros x y Hx Hy; [simpl in *; lia|].
  rewrite Nat2Z.inj_succ, Z.pow_succ_r in Hx, Hy by lia. cbn [le_bytes].
  intros [= Hm Hd]. apply IH in Hd.
  - rewrite (Z.div_mod x 256), (Z.div_mod y 256) by lia. lia.
  - split; [apply Z.div_pos; lia|]. apply Z.div_lt_upper_bound; lia.
  - split; [apply Z.div_pos; lia|]. apply Z.div_lt_upper_bound; lia.
Qed.
Lemma length_address_bytes a : length (address_bytes a) = 20%nat.
Proof. unfold address_bytes. by rewrite length_reverse, length_le_bytes. Qed.
Lemma address_bytes_inj a b :
  is_address a -> is_address b -> address_bytes a = address_bytes b -> a = b.
Proof.
  unfold is_address. change (2 ^ 160) with (256 ^ Z.of_nat 20). intros Ha Hb E%(inj reverse).
  by apply (le_bytes_inj 20).
Qed.
Lemma length_hash_bytes h : length (hash_bytes h) = 32%nat.
Proof. unfold hash_bytes. by rewrite length_reverse, length_le_bytes. Qed.
Lemma hash_bytes_inj a b : is_hash a -> is_hash b -> hash_bytes a = hash_bytes b -> a = b.
Proof.
  unfold is_hash. change (2 ^ 256) with (256 ^ Z.of_nat 32). intros Ha Hb E%(inj reverse).
  by apply (le_bytes_inj 32).
Qed.
Lemma wire_byte_inj a b : wire_byte a = wire_byte b -> a = b.
Proof. by destruct a, b. Qed.

(** Peels equal fixed-length segments off both sides of a key equation. *)
Lemma key_segment (x y r1 r2 : list Z) :
  length x = length y -> x ++ r1 = y ++ r2 -> x = y /\ r1 = r2.
Proof. apply app_inj_1. Qed.
Ltac peel E :=
  match type of E with
  | address_bytes _ ++ _ = _ =>
      apply key_segment in E as [?Ha E]; [|by rewrite !length_address_bytes]; peel E
  | _ ++ _ = _ => apply key_segment in E as [?Hw E]; [|reflexivity]; peel E
  | _ => idtac
  end.
Ltac same_family E :=
  unfold account_key, drc_ticket_meta_key, validator_meta_key, delegation_key, unbonding_key,
    epoch_key, snapshot_key, reward_pool_key, staking_reserve_key, issued_supply_key,
    burned_supply_key, max_supply_key, certificate_key, index_key, last_attestation_key,
    u64_le_bytes in E;
  peel E;
  repeat match goal with
  | H : [_] = [_] |- _ => injection H as H
  | H : wire_byte _ = wire_byte _ |- _ => apply wire_byte_inj in H
  | H : address_bytes _ = address_bytes _ |- _ => apply address_bytes_inj in H; [|done|done]
  | H : hash_bytes _ = hash_bytes _ |- _ => apply hash_bytes_inj in H; [|done|done]
  | H : le_bytes 8 _ = le_bytes 8 _ |- _ => apply (le_bytes_inj 8) in H;
      [|unfold_ints; lia|unfold_ints; lia]
  end; subst; reflexivity.

(** the key families do not overlap.  The byte keys of any two records
    (accounts, tickets, validators, delegations, unbondings, epochs, snapshots,
    pools, reserves, supplies, certificates and attestations) are equal only for the same record, so the
    per-family maps of the model are what the shared column family holds. *)
Theorem meta_key_injective (k1 k2 : MetaKey) :
  valid_key k1 -> valid_key k2 -> meta_key k1 = meta_key k2 -> k1 = k2.
Proof.
  intros H1 H2 E. destruct k1, k2; simpl in H1, H2; cbn [meta_key] in E; try destruct_and!;
    first [ reflexivity | cbn -[wire_byte address_bytes hash_bytes u64_le_bytes] in E; discriminate E
          | same_family E ].
Qed.
Lemma meta_key_injective_witness :
  meta_key (KAccount DRC 7) <> meta_key (KTickets 7) /\ valid_key (KAccount DRC 7).
Proof.
  split; [|by unfold valid_key, is_address; lia].
  intros E. apply (meta_key_injective (KAccount DRC 7) (KTickets 7)) in E;
    [discriminate E|unfold valid_key, is_address; lia|unfold valid_key, is_address; lia].
Defined.
