(* ===== verification/Utxo.v ===== *)
(** * The TLT lane: unspent outputs ([state-machine/src/apply.rs])

    Applying a block's coinbase and transfers to the Utxo column family.  A
    first pass selects the transfers that can apply and their fees, which fixes
    the coinbase budget; the second pass applies coinbase and transfers into a
    write batch and a journal.  In virtual order a transfer that lost its
    inputs is skipped with a status; in strict mode it fails the block.

    Blocks carry no covenants here.  Signature verification, the address of a
    key and the transaction id are parameters. *)

From stdpp Require Import base gmap list fin_maps strings.
From Stdlib Require Import ZArith Lia.
From S2P Require Import Prelude Ordering Sums Types Finality Store.
Local Open Scope Z_scope.

Inductive TransactionAcceptance := Accepted | ExactDuplicate | ConflictLost | Invalid.
Inductive ApplyMode := Strict | Virtual.
#[export] Instance ApplyMode_eq_dec : EqDecision ApplyMode.
Proof. solve_decision. Defined.

(** ** The column family and its write batches *)

Abbreviation UtxoSet := (gmap OutPoint TxOut).
Inductive UtxoOp := UPut (op : OutPoint) (out : TxOut) | UDelete (op : OutPoint).
Definition apply_utxo_op (u : UtxoSet) (o : UtxoOp) : UtxoSet :=
  match o with UPut op out => <[op := out]> u | UDelete op => delete op u end.
Definition write_utxos (u : UtxoSet) (b : list UtxoOp) : UtxoSet := foldl apply_utxo_op u b.

Definition load_utxo (u : UtxoSet) (op : OutPoint) : result StateError TxOut :=
  ok_or (MissingUtxo op) (u !! op).

(** The checked sum of output values. *)
Definition sum_outputs (e : StateError) (outs : list TxOut) : result StateError Z :=
  rfold (fun total o => ok_or e (checked_add u64_max total (out_value o))) 0 outs.

(** The part of [UtxoJournal] this lane writes. *)
Record UtxoJournal := {
  created : list OutPoint;
  spent : list (OutPoint * TxOut);
  fees : Z;
  j_coinbase_total : Z;
  subsidy : Z;
}.

(** The mutable arguments of the apply functions. *)
Record UtxoState := {
  u_batch : list UtxoOp;
  u_created : list OutPoint;
  u_spent : list (OutPoint * TxOut);
  spent_in_block : gset OutPoint;
  created_in_block : gmap OutPoint TxOut;
  coinbase_created : gset OutPoint;
}.
Definition utxo_start : UtxoState :=
  {| u_batch := []; u_created := []; u_spent := []; spent_in_block := ∅; created_in_block := ∅;
     coinbase_created := ∅ |}.

Definition spend_utxo (st : UtxoState) (s : OutPoint * TxOut) : UtxoState :=
  let in_block := bool_decide (is_Some (created_in_block st !! s.1)) in
  {| u_batch := u_batch st ++ [UDelete s.1];
     u_created := if in_block then filter (fun c => c <> s.1) (u_created st) else u_created st;
     u_spent := if in_block then u_spent st else u_spent st ++ [s];
     spent_in_block := {[s.1]} ∪ spent_in_block st;
     created_in_block := delete s.1 (created_in_block st);
     coinbase_created := coinbase_created st |}.

Section utxo.
Context {Auth : Type}.
(** [verify_transaction_bound], [address_from_pubkey], [signer_address] and
    [Transaction::tx_id]. *)
Variable verify_transaction_bound : Transaction -> Auth -> result StateError unit.
Variable address_from_pubkey : list Z -> Address.
Variable signer_address : Transaction -> result StateError Address.
Variable tx_id : Transaction -> Hash.

Definition verify_and_signer (tx : Transaction) (auth : option Auth) : result StateError Address :=
  match auth with
  | Some ctx =>
      verify_transaction_bound tx ctx ;?
      ensure (Nat.eqb (length (tx_public_key tx)) 33) (InvalidTx "bad pubkey") ;?
      Ok (address_from_pubkey (tx_public_key tx))
  | None => signer_address tx
  end.

(** The outpoints a transaction creates, with their outputs. *)
Definition outpoints (tx : Transaction) : list (OutPoint * TxOut) :=
  imap (fun i o => ({| op_tx := tx_id tx; op_index := as_u32 (Z.of_nat i) |}, o)) (outputs tx).
Definition insert_outputs (m : gmap OutPoint TxOut) (tx : Transaction) : gmap OutPoint TxOut :=
  foldl (fun m e => <[e.1 := e.2]> m) m (outpoints tx).

(** ** Fees *)

Definition transfer_fee_in_context (u : UtxoSet) (tx : Transaction) (made : gmap OutPoint TxOut)
  : result StateError Z :=
  if bool_decide (inputs tx = []) then Ok 0 else
  let? input_value := rfold (fun v i =>
    let? o := match made !! previous_outpoint i with
              | Some o => Ok o
              | None => load_utxo u (previous_outpoint i)
              end in
    ok_or (InvalidTx "input value overflow") (checked_add u64_max v (out_value o))) 0 (inputs tx) in
  let? output_value := sum_outputs (InvalidTx "output value overflow") (outputs tx) in
  ensure (output_value <=? input_value) (InvalidTx "insufficient funds") ;?
  Ok (input_value - output_value).

Definition transfer_fee (u : UtxoSet) (tx : Transaction) : result StateError Z :=
  if bool_decide (inputs tx = []) then Ok 0 else
  let? input_value := rfold (fun v i =>
    let? o := load_utxo u (previous_outpoint i) in
    ok_or (InvalidTx "input value overflow") (checked_add u64_max v (out_value o))) 0 (inputs tx) in
  let? output_value := sum_outputs (InvalidTx "output value overflow") (outputs tx) in
  ensure (output_value <=? input_value) (InvalidTx "insufficient funds") ;?
  Ok (input_value - output_value).

Definition sum_transfer_fees (u : UtxoSet) (txs : list Transaction) : result StateError Z :=
  let? (total, _) := rfold (fun st tx =>
    let? total := (if bool_decide (inputs tx = []) then Ok st.1 else
                   let? fee := transfer_fee_in_context u tx st.2 in
                   ok_or (InvalidTx "fee overflow") (checked_add u64_max st.1 fee)) in
    Ok (total, insert_outputs st.2 tx)) (0, ∅) txs in
  Ok total.

(** ** Selection *)

Definition coinbase_outpoints_exist (u : UtxoSet) (tx : Transaction) : bool :=
  existsb (fun e => bool_decide (is_Some (u !! e.1))) (outpoints tx).

Record SelState := {
  sel_out : list (Transaction * Z);
  reserved : gset OutPoint;
  sel_created : gmap OutPoint TxOut;
}.

(** The inputs of a transfer: [None] when one is reserved, repeated or missing;
    otherwise their value and outpoints. *)
Fixpoint select_inputs (u : UtxoSet) (st : SelState) (ins : list TxIn) (value : Z)
  (pending : list OutPoint) : result StateError (option (Z * list OutPoint)) :=
  match ins with
  | [] => Ok (Some (value, pending))
  | i :: ins' =>
      let op := previous_outpoint i in
      if bool_decide (op ∈ reserved st) || bool_decide (op ∈ pending) then Ok None else
      match (match sel_created st !! op with Some c => Some c | None => u !! op end) with
      | None => Ok None
      | Some o =>
          let? value := ok_or (InvalidTx "input value overflow")
                          (checked_add u64_max value (out_value o)) in
          select_inputs u st ins' value (pending ++ [op])
      end
  end.

Definition select_step (mode : ApplyMode) (auth : option Auth) (u : UtxoSet) (st : SelState)
  (tx : Transaction) : result StateError SelState :=
  if bool_decide (inputs tx = []) then Ok st else
  (if bool_decide (mode = Strict) then let? _ := verify_and_signer tx auth in Ok tt else Ok tt) ;?
  let? r := select_inputs u st (inputs tx) 0 [] in
  match r with
  | None =>
      Ok (if bool_decide (mode = Strict)
          then {| sel_out := sel_out st ++ [(tx, 0)]; reserved := reserved st;
                  sel_created := sel_created st |}
          else st)
  | Some (input_value, pending) =>
      let? output_value := sum_outputs (InvalidTx "output value overflow") (outputs tx) in
      ensure (output_value <=? input_value) (InvalidTx "insufficient funds") ;?
      Ok {| sel_out := sel_out st ++ [(tx, input_value - output_value)];
            reserved := list_to_set pending ∪ reserved st;
            sel_created := insert_outputs (sel_created st) tx |}
  end.

(** Coinbase outputs that will be created are spendable in the selection. *)
Definition seed_created (mode : ApplyMode) (u : UtxoSet) (txs : list Transaction)
  : gmap OutPoint TxOut :=
  foldl (fun m tx =>
    if bool_decide (inputs tx = []) then
      if bool_decide (mode = Virtual) && coinbase_outpoints_exist u tx then m else insert_outputs m tx
    else m) ∅ txs.
Definition select_start (mode : ApplyMode) (u : UtxoSet) (txs : list Transaction) : SelState :=
  {| sel_out := []; reserved := ∅; sel_created := seed_created mode u txs |}.
Definition selectable_transfers (mode : ApplyMode) (auth : option Auth) (u : UtxoSet)
  (txs : list Transaction) : result StateError (list (Transaction * Z)) :=
  let? st := rfold (select_step mode auth u) (select_start mode u txs) txs in
  Ok (sel_out st).

(** ** Application *)

Definition create_output (u : UtxoSet) (is_coinbase : bool) (st : UtxoState) (e : OutPoint * TxOut)
  : result StateError UtxoState :=
  ensure (negb (bool_decide (is_Some (created_in_block st !! e.1)))) (DuplicateOutpoint e.1) ;?
  ensure (negb (bool_decide (is_Some (u !! e.1)))) (DuplicateOutpoint e.1) ;?
  Ok {| u_batch := u_batch st ++ [UPut e.1 e.2]; u_created := u_created st ++ [e.1];
        u_spent := u_spent st; spent_in_block := spent_in_block st;
        created_in_block := <[e.1 := e.2]> (created_in_block st);
        coinbase_created := if is_coinbase then {[e.1]} ∪ coinbase_created st
                            else coinbase_created st |}.
Definition create_outputs (u : UtxoSet) (is_coinbase : bool) (st : UtxoState) (tx : Transaction)
  : result StateError UtxoState := rfold (create_output u is_coinbase) st (outpoints tx).

Definition apply_coinbase (u : UtxoSet) (st : UtxoState) (tx : Transaction) (coinbase_reward : Z)
  : result StateError (UtxoState * Z) :=
  ensure (negb (bool_decide (outputs tx = []))) (Coinbase "coinbase has no outputs") ;?
  let? total := sum_outputs (Coinbase "output overflow") (outputs tx) in
  ensure (total <=? coinbase_reward) (Coinbase "coinbase exceeds reward") ;?
  let? st := create_outputs u true st tx in
  Ok (st, total).

(** One input of [apply_transfer]: the value so far and the pending spends. *)
Definition take_input (u : UtxoSet) (st : UtxoState) (signer : Address)
  (acc : Z * list (OutPoint * TxOut)) (i : TxIn) : result StateError (Z * list (OutPoint * TxOut)) :=
  let op := previous_outpoint i in
  ensure (negb (bool_decide (op ∈ spent_in_block st))) (DoubleSpend op) ;?
  ensure (negb (bool_decide (op ∈ coinbase_created st))) (ImmatureCoinbase op) ;?
  let? out := match created_in_block st !! op with
              | Some o => Ok o
              | None => load_utxo u op
              end in
  ensure (out_address out =? signer) (InvalidTx "input not owned by signer") ;?
  let? v := ok_or (InvalidTx "input value overflow") (checked_add u64_max acc.1 (out_value out)) in
  Ok (v, acc.2 ++ [(op, out)]).

Definition apply_transfer (u : UtxoSet) (auth : option Auth) (st : UtxoState) (tx : Transaction)
  : result StateError UtxoState :=
  let? signer := verify_and_signer tx auth in
  let? (input_value, pending_spends) := rfold (take_input u st signer) (0, []) (inputs tx) in
  let? output_value := sum_outputs (InvalidTx "output value overflow") (outputs tx) in
  ensure (output_value <=? input_value) (InvalidTx "insufficient funds") ;?
  create_outputs u false (foldl spend_utxo st pending_spends) tx.

Record BlockState := {
  bs_utxo : UtxoState;
  coinbases : Z;
  coinbase_total : Z;
  transfer_idx : nat;
  bs_statuses : list TransactionAcceptance;
  accepted_tx_ids : gset Hash;
}.
Definition block_start : BlockState :=
  {| bs_utxo := utxo_start; coinbases := 0; coinbase_total := 0; transfer_idx := 0;
     bs_statuses := []; accepted_tx_ids := ∅ |}.
Definition accept_tx (bs : BlockState) (st : UtxoState) (tx : Transaction) (idx : nat) : BlockState :=
  {| bs_utxo := st; coinbases := coinbases bs; coinbase_total := coinbase_total bs;
     transfer_idx := idx; bs_statuses := bs_statuses bs ++ [Accepted];
     accepted_tx_ids := {[tx_id tx]} ∪ accepted_tx_ids bs |}.

(** One iteration of the loop over [block.transactions]. *)
Definition block_step (mode : ApplyMode) (auth : option Auth) (u : UtxoSet)
  (transferable : list (Transaction * Z)) (coinbase_budget : Z) (bs : BlockState) (tx : Transaction)
  : result StateError BlockState :=
  if bool_decide (inputs tx = []) then
    let n := coinbases bs + 1 in
    ensure (n <=? 1) (Coinbase "multiple coinbase txs") ;?
    if bool_decide (mode = Virtual) && coinbase_outpoints_exist u tx then
      Ok {| bs_utxo := bs_utxo bs; coinbases := n; coinbase_total := coinbase_total bs;
            transfer_idx := transfer_idx bs; bs_statuses := bs_statuses bs ++ [ExactDuplicate];
            accepted_tx_ids := accepted_tx_ids bs |}
    else
      let? (st, total) := apply_coinbase u (bs_utxo bs) tx coinbase_budget in
      Ok {| bs_utxo := st; coinbases := n; coinbase_total := total;
            transfer_idx := transfer_idx bs; bs_statuses := bs_statuses bs ++ [Accepted];
            accepted_tx_ids := {[tx_id tx]} ∪ accepted_tx_ids bs |}
  else if (match transferable !! transfer_idx bs with
           | Some e => tx_id e.1 =? tx_id tx
           | None => false
           end) then
    let? st := apply_transfer u auth (bs_utxo bs) tx in
    Ok (accept_tx bs st tx (S (transfer_idx bs)))
  else if bool_decide (mode = Virtual) then
    let? _ := verify_and_signer tx auth in
    Ok {| bs_utxo := bs_utxo bs; coinbases := coinbases bs; coinbase_total := coinbase_total bs;
          transfer_idx := transfer_idx bs;
          bs_statuses := bs_statuses bs ++
            [if bool_decide (tx_id tx ∈ accepted_tx_ids bs) then ExactDuplicate else ConflictLost];
          accepted_tx_ids := accepted_tx_ids bs |}
  else
    let? st := apply_transfer u auth (bs_utxo bs) tx in
    Ok (accept_tx bs st tx (transfer_idx bs)).

(** The TLT part of [apply_block_batched_mode]: the batch, the journal and the
    statuses. *)
Definition apply_transactions (mode : ApplyMode) (auth : option Auth) (u : UtxoSet)
  (txs : list Transaction) (emission_reward : Z)
  : result StateError (list UtxoOp * UtxoJournal * list TransactionAcceptance) :=
  let? transferable := selectable_transfers mode auth u txs in
  let? applied_fees := rfold (fun total e =>
    ok_or (InvalidTx "fee overflow") (checked_add u64_max total e.2)) 0 transferable in
  let? coinbase_budget := ok_or (Coinbase "reward overflow")
    (checked_add u64_max emission_reward applied_fees) in
  let? bs := rfold (block_step mode auth u transferable coinbase_budget) block_start txs in
  ensure (negb (coinbases bs =? 0)) (Coinbase "missing coinbase") ;?
  Ok (u_batch (bs_utxo bs),
      {| created := u_created (bs_utxo bs); spent := u_spent (bs_utxo bs); fees := applied_fees;
         j_coinbase_total := coinbase_total bs;
         subsidy := saturating_sub (coinbase_total bs) (Z.min applied_fees (coinbase_total bs)) |},
      bs_statuses bs).

(** ** Mempool admission *)

Definition MAX_TX_INPUTS : Z := 64.
Definition MAX_TX_OUTPUTS : Z := 64.
Definition MAX_TX_BYTES : Z := 100000.
(** The length of the borsh encoding. *)
Variable encoded_len : Transaction -> Z.

Definition mempool_input (u : UtxoSet) (taken : gset OutPoint) (signer : Address)
  (acc : Z * gset OutPoint) (i : TxIn) : result StateError (Z * gset OutPoint) :=
  let op := previous_outpoint i in
  ensure (negb (bool_decide (op ∈ acc.2) || bool_decide (op ∈ taken))) (DoubleSpend op) ;?
  let? out := load_utxo u op in
  ensure (out_address out =? signer) (InvalidTx "input not owned by signer") ;?
  let? v := ok_or (InvalidTx "input value overflow") (checked_add u64_max acc.1 (out_value out)) in
  Ok (v, {[op]} ∪ acc.2).

Definition validate_mempool_tx_with_auth (u : UtxoSet) (tx : Transaction) (taken : gset OutPoint)
  (auth : option Auth) : result StateError Z :=
  ensure (negb (bool_decide (inputs tx = []))) (InvalidTx "coinbase not allowed in mempool") ;?
  ensure (Z.of_nat (length (inputs tx)) <=? MAX_TX_INPUTS) (BlockLimit "too many inputs") ;?
  ensure (Z.of_nat (length (outputs tx)) <=? MAX_TX_OUTPUTS) (BlockLimit "too many outputs") ;?
  ensure (encoded_len tx <=? MAX_TX_BYTES) (BlockLimit "tx too large") ;?
  let? signer := verify_and_signer tx auth in
  let? (input_value, _) := rfold (mempool_input u taken signer) (0, ∅) (inputs tx) in
  let? output_value := sum_outputs (InvalidTx "output value overflow") (outputs tx) in
  ensure (output_value <=? input_value) (InvalidTx "insufficient funds") ;?
  Ok (input_value - output_value).
End utxo.

(** [revert_journal_batched], for the Utxo column family. *)
Definition revert_utxos (j : UtxoJournal) : list UtxoOp :=
  (UDelete <$> reverse (created j)) ++ ((fun e => UPut e.1 e.2) <$> reverse (spent j)).

(** [balance_of], over a scan of the column family. *)
Definition balance_of (u : UtxoSet) (address : Address) : result StateError Z :=
  rfold (fun total e =>
    if out_address e.2 =? address
    then ok_or (Storage "balance overflow") (checked_add u64_max total (out_value e.2))
    else Ok total) 0 (map_to_list u).
