(* ===== verification/UtxoProps.v ===== *)
(** * The TLT lane: conservation, reversal and double spends

    In virtual order, the mode the node applies blocks in: the fees of the
    selection pass are exactly the fees the apply pass collects, so the value of
    the unspent set grows by the coinbase less the fees, the subsidy is within
    the emission, and the journal restores the set.  In strict mode a transfer
    that names one output twice is accepted at twice its value (finding). *)

From stdpp Require Import base gmap list fin_maps strings.
From Stdlib Require Import ZArith Lia.
From S2P Require Import Prelude Ordering Sums Types Finality Store Utxo.
Local Open Scope Z_scope.

(** The value of an unspent set, of spends and of outputs. *)
Definition utxo_total (u : UtxoSet) : Z := msum (fun _ o => out_value o) u.
Definition spent_value (l : list (OutPoint * TxOut)) : Z := zsum ((fun e => out_value e.2) <$> l).
Definition view_of (u : UtxoSet) (st : UtxoState) : UtxoSet := write_utxos u (u_batch st).

(** The state of the apply pass describes its batch and journal. *)
Record utxo_inv (u : UtxoSet) (st : UtxoState) : Prop := {
  ui_view op : view_of u st !! op =
    match created_in_block st !! op with
    | Some o => Some o
    | None => if bool_decide (op ∈ spent_in_block st) then None else u !! op
    end;
  ui_fresh op o : created_in_block st !! op = Some o -> u !! op = None;
  ui_created op : op ∈ u_created st <-> is_Some (created_in_block st !! op);
  ui_spent op o : (op, o) ∈ u_spent st -> u !! op = Some o /\ op ∈ spent_in_block st;
  ui_spent_all op o : op ∈ spent_in_block st -> u !! op = Some o -> (op, o) ∈ u_spent st;
  ui_spent_nodup : NoDup (u_spent st).*1;
}.

Lemma write_utxos_app u b1 b2 : write_utxos u (b1 ++ b2) = write_utxos (write_utxos u b1) b2.
Proof. apply foldl_app. Qed.

Lemma utxo_inv_start u : utxo_inv u utxo_start.
Proof.
  split; unfold utxo_start; cbn [u_batch u_created u_spent spent_in_block created_in_block].
  - intros op. rewrite lookup_empty. reflexivity.
  - intros op o H. by rewrite lookup_empty in H.
  - intros op. rewrite lookup_empty. split; [by intros ?%elem_of_nil|by intros []].
  - by intros op o ?%elem_of_nil.
  - intros op o ?. set_solver.
  - constructor.
Qed.

Ltac case_created H :=
  match goal with |- context [bool_decide (is_Some ?x)] =>
    destruct (bool_decide (is_Some x)) eqn:H;
    [apply bool_decide_eq_true in H|apply bool_decide_eq_false in H] end.

(** Spending an output the view holds. *)
Lemma spend_inv u st op out :
  utxo_inv u st -> view_of u st !! op = Some out ->
  utxo_inv u (spend_utxo st (op, out)) /\
  utxo_total (view_of u (spend_utxo st (op, out))) = utxo_total (view_of u st) - out_value out.
Proof.
  intros [Hv Hf Hc Hs Ha Hn] Hop.
  assert (view_of u (spend_utxo st (op, out)) = delete op (view_of u st)) as Ev.
  { unfold view_of, spend_utxo. cbn [u_batch fst]. by rewrite write_utxos_app. }
  split; [|rewrite Ev; unfold utxo_total; by rewrite (msum_delete_eq _ op out)].
  pose proof (Hv op) as Hvop. rewrite Hop in Hvop.
  split; unfold spend_utxo; cbn [u_batch u_created u_spent spent_in_block created_in_block coinbase_created fst].
  - intros op'. change (view_of u _) with (view_of u (spend_utxo st (op, out))). rewrite Ev. destruct (decide (op' = op)) as [->|Hne].
    + rewrite !lookup_delete_eq, bool_decide_eq_true_2 by set_solver. done.
    + rewrite !lookup_delete_ne by done. rewrite Hv.
      by rewrite (bool_decide_ext (op' ∈ {[op]} ∪ _) (op' ∈ spent_in_block st)) by set_solver.
  - intros op' o [_ H]%lookup_delete_Some. by eapply Hf.
  - intros op'. case_created Hin.
    + rewrite list_elem_of_filter, Hc. destruct (decide (op' = op)) as [->|Hne].
      * rewrite lookup_delete_eq. split; [by intros [? _]|by intros []].
      * rewrite lookup_delete_ne by done. tauto.
    + rewrite Hc. destruct (decide (op' = op)) as [->|Hne]; [|by rewrite lookup_delete_ne].
      rewrite lookup_delete_eq. split; [done|by intros []].
  - intros op' o. case_created Hin; intros H; [apply Hs in H as [? ?]; split; [done|set_solver]|].
    apply elem_of_app in H as [H|[= -> ->]%list_elem_of_singleton]; [apply Hs in H as [? ?]; split; [done|set_solver]|].
    apply eq_None_not_Some in Hin. rewrite Hin in Hvop. case_bool_decide; simplify_eq. split; [done|set_solver].
  - intros op' o H Hu. case_created Hin.
    + apply Ha; [|done]. apply elem_of_union in H as [->%elem_of_singleton|H]; [|done].
      destruct Hin as [w Hw]. apply Hf in Hw. congruence.
    + apply elem_of_app. apply elem_of_union in H as [->%elem_of_singleton|H]; [|left; by apply Ha].
      right. apply list_elem_of_singleton. apply eq_None_not_Some in Hin. rewrite Hin in Hvop.
      case_bool_decide; congruence.
  - case_created Hin; [done|]. rewrite fmap_app. apply NoDup_app. split; [done|].
    split; [|apply NoDup_singleton]. intros op' Hin' Hs'. simpl in Hs'.
    apply list_elem_of_singleton in Hs' as ->.
    apply list_elem_of_fmap in Hin' as ([op2 o2] & -> & H2). apply Hs in H2 as [_ H2]. cbn [fst] in *.
    apply eq_None_not_Some in Hin. rewrite Hin, bool_decide_eq_true_2 in Hvop by done. done.
Qed.

Lemma spent_value_app l1 l2 : spent_value (l1 ++ l2) = spent_value l1 + spent_value l2.
Proof. unfold spent_value. by rewrite fmap_app, zsum_app. Qed.

(** Spending distinct outputs the view holds. *)
Lemma spends_inv u (l : list (OutPoint * TxOut)) st :
  utxo_inv u st -> NoDup l.*1 -> (forall e, e ∈ l -> view_of u st !! e.1 = Some e.2) ->
  let st' := foldl spend_utxo st l in
  utxo_inv u st' /\ utxo_total (view_of u st') = utxo_total (view_of u st) - spent_value l /\
  (forall op, op ∈ spent_in_block st' <-> op ∈ l.*1 \/ op ∈ spent_in_block st) /\
  (forall op o, created_in_block st' !! op = Some o -> created_in_block st !! op = Some o) /\
  coinbase_created st' = coinbase_created st.
Proof.
  revert st. induction l as [|[op o] l IH]; intros st Hi Hn Hl; cbv zeta; cbn [foldl].
  { split; [done|]. split; [unfold spent_value; simpl; lia|]. split; [|done].
    intros op. simpl. split; [by right|by intros [?%elem_of_nil|]]. }
  rewrite fmap_cons in Hn. apply NoDup_cons in Hn as [Hnin Hn]. cbn [fst] in Hnin.
  destruct (spend_inv u st op o Hi (Hl (op, o) ltac:(left))) as [Hi1 Ht1].
  destruct (IH _ Hi1 Hn) as (Hi2 & Ht2 & Hs2 & Hc2 & Hcb2).
  { intros e He. unfold view_of, spend_utxo. cbn [u_batch fst]. rewrite write_utxos_app. simpl.
    rewrite lookup_delete_ne; [apply Hl; by right|]. intros ->. apply Hnin. apply list_elem_of_fmap. by exists e. }
  split; [done|]. rewrite Ht2, Ht1. split; [unfold spent_value; rewrite fmap_cons, zsum_cons; simpl; lia|].
  split; [|split; [|by rewrite Hcb2]].
  - intros op'. rewrite Hs2. unfold spend_utxo. cbn [spent_in_block fst]. rewrite fmap_cons, elem_of_cons. set_solver.
  - intros op' o' H. apply Hc2 in H. unfold spend_utxo in H. cbn [created_in_block fst] in H.
    by apply lookup_delete_Some in H as [_ H].
Qed.

Lemma create_output_inv u cb st e st' :
  utxo_inv u st -> create_output u cb st e = Ok st' ->
  utxo_inv u st' /\ utxo_total (view_of u st') = utxo_total (view_of u st) + out_value e.2 /\
  spent_in_block st' = spent_in_block st /\ u !! e.1 = None /\
  created_in_block st' = <[e.1 := e.2]> (created_in_block st) /\
  coinbase_created st' = (if cb then {[e.1]} ∪ coinbase_created st else coinbase_created st).
Proof.
  destruct e as [op o]. intros [Hv Hf Hc Hs Ha Hn] H. unfold create_output in H. cbn [fst snd] in *.
  apply rbind_Ok in H as (_ & H1%ensure_Ok%negb_true_iff%bool_decide_eq_false & H).
  apply rbind_Ok in H as (_ & H2%ensure_Ok%negb_true_iff%bool_decide_eq_false & H).
  apply Ok_inj in H. subst st'. apply eq_None_not_Some in H1, H2.
  assert (view_of u st !! op = None) as Hvop by (rewrite Hv, H1, H2; by destruct (bool_decide _)).
  match goal with |- utxo_inv u ?s /\ _ => set (st' := s) end.
  assert (view_of u st' = <[op := o]> (view_of u st)) as Ev
    by (unfold view_of, st'; cbn [u_batch]; by rewrite write_utxos_app).
  split; [|split; [rewrite Ev; unfold utxo_total; rewrite msum_insert_new by done; lia|done]].
  split.
  - intros op'. rewrite Ev. unfold st'. cbn [created_in_block spent_in_block].
    destruct (decide (op' = op)) as [->|Hne]; [by rewrite !lookup_insert_eq|].
    by rewrite !lookup_insert_ne by done.
  - intros op' o'. unfold st'. cbn [created_in_block].
    intros [[<- <-]|[_ ?]]%lookup_insert_Some; [done|by eapply Hf].
  - intros op'. unfold st'. cbn [u_created created_in_block].
    rewrite elem_of_app, list_elem_of_singleton, Hc.
    destruct (decide (op' = op)) as [->|Hne].
    + rewrite lookup_insert_eq. split; [by eexists|by right].
    + rewrite lookup_insert_ne by done. naive_solver.
  - exact Hs.
  - exact Ha.
  - exact Hn.
Qed.

Lemma create_all_inv u cb (l : list (OutPoint * TxOut)) st st' :
  utxo_inv u st -> rfold (create_output u cb) st l = Ok st' ->
  utxo_inv u st' /\ utxo_total (view_of u st') = utxo_total (view_of u st) + spent_value l /\
  spent_in_block st' = spent_in_block st /\ (forall e, e ∈ l -> u !! e.1 = None) /\
  created_in_block st' = foldl (fun m e => <[e.1 := e.2]> m) (created_in_block st) l /\
  (forall op, op ∈ coinbase_created st' <->
     op ∈ coinbase_created st \/ (cb = true /\ op ∈ l.*1)).
Proof.
  revert st. induction l as [|e l IH]; intros st Hi H; cbn [rfold foldl] in *.
  { injection H as ->. split; [done|]. split; [unfold spent_value; simpl; lia|]. split; [done|].
    split; [by intros e ?%elem_of_nil|]. split; [done|]. intros op. simpl.
    split; [by left|by intros [?|[_ ?%elem_of_nil]]]. }
  apply rbind_Ok in H as (st1 & H1 & H).
  apply create_output_inv in H1 as (Hi1 & Ht1 & Hs1 & Hu1 & Hc1 & Hcb1); [|done].
  destruct (IH _ Hi1 H) as (Hi2 & Ht2 & Hs2 & Hu2 & Hc2 & Hcb2).
  split; [done|]. split; [rewrite Ht2, Ht1; unfold spent_value; rewrite fmap_cons, zsum_cons; lia|].
  split; [congruence|]. split; [intros e' [->|?]%elem_of_cons; [done|by apply Hu2]|].
  split; [by rewrite Hc2, Hc1|]. intros op. rewrite Hcb2, Hcb1, fmap_cons, elem_of_cons.
  destruct cb; [|naive_solver]. rewrite elem_of_union, elem_of_singleton. naive_solver.
Qed.

Lemma sum_outputs_Ok e outs v : sum_outputs e outs = Ok v -> v = zsum (out_value <$> outs).
Proof.
  unfold sum_outputs. assert (forall t v, rfold (fun total o =>
    ok_or e (checked_add u64_max total (out_value o))) t outs = Ok v -> v = t + zsum (out_value <$> outs)) as H.
  { clear v. induction outs as [|o outs IH]; intros t v H; cbn [rfold] in H; [injection H as <-; simpl; lia|].
    apply rbind_Ok in H as (t' & [-> _]%ok_or_Ok%checked_add_Some & H). apply IH in H as ->.
    rewrite fmap_cons, zsum_cons. lia. }
  intros Hv. apply H in Hv. lia.
Qed.

(** The inputs [apply_transfer] collects are what the view holds. *)
Lemma take_inputs_Ok u st signer ins acc r :
  utxo_inv u st -> rfold (take_input u st signer) acc ins = Ok r ->
  exists new, r = (acc.1 + spent_value new, acc.2 ++ new) /\ new.*1 = previous_outpoint <$> ins /\
    forall e, e ∈ new -> view_of u st !! e.1 = Some e.2 /\ e.1 ∉ spent_in_block st /\
      e.1 ∉ coinbase_created st /\ out_address e.2 = signer /\
      (created_in_block st !! e.1 = Some e.2 \/ (created_in_block st !! e.1 = None /\ u !! e.1 = Some e.2)).
Proof.
  intros Hi. revert acc. induction ins as [|i ins IH]; intros acc H; cbn [rfold] in H.
  { injection H as <-. exists []. split; [|split; [done|by intros e ?%elem_of_nil]].
    destruct acc. unfold spent_value. simpl. rewrite app_nil_r. f_equal. lia. }
  apply rbind_Ok in H as (acc1 & H1 & H). unfold take_input in H1.
  apply rbind_Ok in H1 as (_ & Hs%ensure_Ok%negb_true_iff%bool_decide_eq_false & H1).
  apply rbind_Ok in H1 as (_ & Hcb%ensure_Ok%negb_true_iff%bool_decide_eq_false & H1).
  apply rbind_Ok in H1 as (out & Hout & H1).
  apply rbind_Ok in H1 as (_ & Hown%ensure_Ok%Z.eqb_eq & H1).
  apply rbind_Ok in H1 as (v & [-> _]%ok_or_Ok%checked_add_Some & [= <-]).
  destruct (IH _ H) as (new & -> & Hops & Hnew). cbn [fst snd].
  exists ((previous_outpoint i, out) :: new).
  split; [rewrite <- app_assoc; unfold spent_value; rewrite fmap_cons, zsum_cons; simpl; f_equal; lia|].
  split; [by rewrite !fmap_cons, Hops|]. intros e [->|He]%elem_of_cons; [|by apply Hnew]. cbn [fst snd].
  rewrite (ui_view u st Hi), (bool_decide_eq_false_2 _ Hs).
  destruct (created_in_block st !! previous_outpoint i) as [c|]; [injection Hout as <-; auto 10|].
  apply ok_or_Ok in Hout. rewrite Hout. auto 10.
Qed.

(** The selection of a transfer's inputs: distinct, not reserved, and valued
    from the outputs selected before and the unspent set. *)
Definition sel_lookup (u : UtxoSet) (st : SelState) (op : OutPoint) : option TxOut :=
  match sel_created st !! op with Some c => Some c | None => u !! op end.
Lemma select_inputs_Ok u st ins v pend r :
  NoDup pend -> select_inputs u st ins v pend = Ok (Some r) ->
  exists outs, Forall2 (fun i o => sel_lookup u st (previous_outpoint i) = Some o) ins outs /\
    r = (v + zsum (out_value <$> outs), pend ++ (previous_outpoint <$> ins)) /\
    NoDup (pend ++ (previous_outpoint <$> ins)) /\
    (forall i, i ∈ ins -> previous_outpoint i ∉ reserved st).
Proof.
  revert v pend. induction ins as [|i ins IH]; intros v pend Hn H; cbn [select_inputs] in H.
  { injection H as <-. exists []. rewrite fmap_nil, app_nil_r. split; [constructor|].
    split; [simpl; f_equal; lia|]. split; [done|by intros i ?%elem_of_nil]. }
  destruct (bool_decide (_ ∈ reserved st)) eqn:Hr; [done|].
  destruct (bool_decide (_ ∈ pend)) eqn:Hp; [done|]. cbn [orb] in H.
  apply bool_decide_eq_false in Hr, Hp. fold (sel_lookup u st (previous_outpoint i)) in H.
  destruct (sel_lookup u st (previous_outpoint i)) as [o|] eqn:Ho; [|done].
  apply rbind_Ok in H as (v' & [-> _]%ok_or_Ok%checked_add_Some & H).
  apply IH in H as (outs & Hf & -> & Hn' & Hres).
  - exists (o :: outs). rewrite <- app_assoc in *. split; [by constructor|].
    split; [rewrite fmap_cons, zsum_cons; f_equal; lia|]. split; [done|].
    intros i' [->|?]%elem_of_cons; [done|by apply Hres].
  - apply NoDup_app. split; [done|]. split; [|apply NoDup_singleton].
    intros op Hop ->%list_elem_of_singleton. done.
Qed.

Lemma fold_insert_sub (l : list (OutPoint * TxOut)) (m1 m2 : gmap OutPoint TxOut) (P : OutPoint -> Prop) :
  (forall op o, P op -> m1 !! op = Some o -> m2 !! op = Some o) ->
  forall op o, P op -> foldl (fun m e => <[e.1 := e.2]> m) m1 l !! op = Some o ->
    foldl (fun m e => <[e.1 := e.2]> m) m2 l !! op = Some o.
Proof.
  revert m1 m2. induction l as [|e l IH]; intros m1 m2 Hm; cbn [foldl]; [exact Hm|].
  apply IH. intros op o HP. destruct (decide (op = e.1)) as [->|Hne]; [by rewrite !lookup_insert_eq|].
  rewrite !lookup_insert_ne by done. by apply Hm.
Qed.
Lemma fold_insert_Some (l : list (OutPoint * TxOut)) (m : gmap OutPoint TxOut) op o :
  foldl (fun m e => <[e.1 := e.2]> m) m l !! op = Some o -> m !! op = Some o \/ op ∈ l.*1.
Proof.
  revert m. induction l as [|e l IH]; intros m H; cbn [foldl] in H; [by left|].
  apply IH in H as [[[<- <-]|[_ ?]]%lookup_insert_Some|?]; [right; left|by left|right; by right].
Qed.

(** ** Reversal *)

Lemma write_deletes (l : list OutPoint) u op :
  write_utxos u (UDelete <$> l) !! op = if bool_decide (op ∈ l) then None else u !! op.
Proof.
  revert u. induction l as [|x l IH]; intros u; [by rewrite bool_decide_eq_false_2 by apply not_elem_of_nil|].
  rewrite fmap_cons. unfold write_utxos. cbn [foldl]. fold (write_utxos (apply_utxo_op u (UDelete x)) (UDelete <$> l)).
  rewrite IH. cbn [apply_utxo_op]. destruct (decide (op = x)) as [->|Hne].
  - rewrite lookup_delete_eq, (bool_decide_eq_true_2 (x ∈ x :: l)) by left. by destruct (bool_decide _).
  - rewrite lookup_delete_ne by done. by rewrite (bool_decide_ext (op ∈ x :: l) (op ∈ l)) by set_solver.
Qed.
Lemma write_puts (l : list (OutPoint * TxOut)) u op :
  (forall o, (op, o) ∈ l -> write_utxos u ((fun e => UPut e.1 e.2) <$> l) !! op <> None) /\
  (forall o, write_utxos u ((fun e => UPut e.1 e.2) <$> l) !! op = Some o -> (op, o) ∈ l \/ u !! op = Some o) /\
  (op ∉ l.*1 -> write_utxos u ((fun e => UPut e.1 e.2) <$> l) !! op = u !! op).
Proof.
  revert u. induction l as [|[x w] l IH]; intros u.
  { split; [by intros o ?%elem_of_nil|]. split; [by right|done]. }
  rewrite !fmap_cons. unfold write_utxos. cbn [foldl fst snd].
  fold (write_utxos (apply_utxo_op u (UPut x w)) ((fun e => UPut e.1 e.2) <$> l)). cbn [apply_utxo_op].
  destruct (IH (<[x := w]> u)) as (H1 & H2 & H3). split; [|split].
  - intros o [[= -> ->]|H]%elem_of_cons; [|by eapply H1].
    destruct (decide (x ∈ l.*1)) as [([x' w'] & -> & Hin)%list_elem_of_fmap|Hn]; [by eapply H1|].
    rewrite H3 by done. by rewrite lookup_insert_eq.
  - intros o [?|[[<- <-]|[_ ?]]%lookup_insert_Some]%H2; [left; by right|left; left|by right].
  - intros Hn. apply not_elem_of_cons in Hn as [Hne Hn]. rewrite H3 by done. by rewrite lookup_insert_ne by congruence.
Qed.

Lemma revert_inv u st j :
  utxo_inv u st -> created j = u_created st -> spent j = u_spent st ->
  write_utxos (view_of u st) (revert_utxos j) = u.
Proof.
  intros [Hv Hf Hc Hs Ha Hn] Ec Es. apply map_eq. intros op. unfold revert_utxos.
  rewrite write_utxos_app, Ec, Es.
  set (m := write_utxos (view_of u st) (UDelete <$> reverse (u_created st))).
  assert (m !! op = if bool_decide (is_Some (created_in_block st !! op)) then None
                    else if bool_decide (op ∈ spent_in_block st) then None else u !! op) as Hm.
  { unfold m. rewrite write_deletes, Hv.
    rewrite (bool_decide_ext _ (is_Some (created_in_block st !! op))) by (by rewrite elem_of_reverse, Hc).
    case_bool_decide as H; [done|]. apply eq_None_not_Some in H. by rewrite H. }
  destruct (write_puts (reverse (u_spent st)) m op) as (H1 & H2 & H3).
  destruct (decide (op ∈ (reverse (u_spent st)).*1)) as [Hin|Hnin].
  - apply list_elem_of_fmap in Hin as ([op' o] & -> & Hin). cbn [fst] in *.
    pose proof (H1 _ Hin) as Hsome. destruct (write_utxos m _ !! op') as [w|] eqn:Ew; [|done].
    rewrite elem_of_reverse in Hin. apply Hs in Hin as [Hu Hsp]. rewrite Hu.
    destruct (H2 _ eq_refl) as [Hin'|Hmw]; [rewrite elem_of_reverse in Hin'; apply Hs in Hin' as [? _]; congruence|].
    rewrite Hm in Hmw. rewrite (bool_decide_eq_true_2 (op' ∈ _) Hsp) in Hmw. by destruct (bool_decide _).
  - rewrite H3, Hm by done. destruct (bool_decide (is_Some _)) eqn:Hcr.
    + apply bool_decide_eq_true in Hcr as [w Hw]. symmetry. by eapply Hf.
    + case_bool_decide as Hsp; [|done]. destruct (u !! op) as [o|] eqn:Hu; [|done]. exfalso. apply Hnin.
      apply list_elem_of_fmap. exists (op, o). split; [done|]. apply elem_of_reverse. by apply Ha.
Qed.

Section virtual.
Context {Auth : Type}.
Variable verify_transaction_bound : Transaction -> Auth -> result StateError unit.
Variable address_from_pubkey : list Z -> Address.
Variable signer_address : Transaction -> result StateError Address.
Variable tx_id : Transaction -> Hash.
Variable auth : option Auth.
Variable u : UtxoSet.
Abbreviation select := (select_step verify_transaction_bound address_from_pubkey signer_address tx_id
                          Virtual auth u).
Abbreviation step := (block_step verify_transaction_bound address_from_pubkey signer_address tx_id
                        Virtual auth u).
Abbreviation transfer := (apply_transfer verify_transaction_bound address_from_pubkey signer_address
                            tx_id u auth).

Lemma outpoints_value tx : spent_value (outpoints tx_id tx) = zsum (out_value <$> outputs tx).
Proof.
  unfold spent_value, outpoints. rewrite fmap_imap. f_equal.
  erewrite imap_ext; [apply imap_const|]. intros i o _. reflexivity.
Qed.

(** What an applied transfer does, when its inputs are distinct. *)
Lemma utxo_transfer_inv st tx st' :
  utxo_inv u st -> NoDup (previous_outpoint <$> inputs tx) -> transfer st tx = Ok st' ->
  exists new, new.*1 = (previous_outpoint <$> inputs tx) /\
    (forall e, e ∈ new -> e.1 ∉ spent_in_block st /\ e.1 ∉ coinbase_created st /\
      (created_in_block st !! e.1 = Some e.2 \/ (created_in_block st !! e.1 = None /\ u !! e.1 = Some e.2))) /\
    utxo_inv u st' /\
    utxo_total (view_of u st') =
      utxo_total (view_of u st) - spent_value new + zsum (out_value <$> outputs tx) /\
    (forall op, op ∈ spent_in_block st' <-> op ∈ new.*1 \/ op ∈ spent_in_block st) /\
    (forall e, e ∈ outpoints tx_id tx -> u !! e.1 = None) /\
    coinbase_created st' = coinbase_created st /\
    exists m, (forall op o, m !! op = Some o -> created_in_block st !! op = Some o) /\
      created_in_block st' = insert_outputs tx_id m tx.
Proof.
  intros Hi Hn H. unfold apply_transfer in H. apply rbind_Ok in H as (signer & _ & H).
  apply rbind_Ok in H as ([iv ps] & Ht & H). apply take_inputs_Ok in Ht as (new & E & Hops & Hnew); [|done].
  cbn [fst snd app] in E. apply pair_eq in E as [-> ->].
  apply rbind_Ok in H as (ov & _ & H). apply rbind_Ok in H as (_ & _ & H).
  destruct (spends_inv u new st Hi) as (Hi1 & Ht1 & Hs1 & Hc1 & Hcb1);
    [by rewrite Hops|intros e He; by apply Hnew|].
  unfold create_outputs in H. apply create_all_inv in H as (Hi2 & Ht2 & Hs2 & Hu2 & Hc2 & Hcb2); [|done].
  exists new. split; [done|]. split; [intros e He; apply Hnew in He; tauto|]. split; [done|].
  rewrite outpoints_value in Ht2. split; [rewrite Ht2, Ht1; lia|].
  split; [intros op; by rewrite Hs2, Hs1|]. split; [done|].
  split; [|by exists (created_in_block (foldl spend_utxo st new))].
  rewrite <- Hcb1. apply set_eq. intros op. rewrite Hcb2. naive_solver.
Qed.

(** What one step of the selection does, in virtual order. *)
Lemma select_inv sel tx sel' :
  select sel tx = Ok sel' ->
  sel' = sel \/
  exists outs fee, inputs tx <> [] /\
    Forall2 (fun i o => sel_lookup u sel (previous_outpoint i) = Some o) (inputs tx) outs /\
    NoDup (previous_outpoint <$> inputs tx) /\
    (forall i, i ∈ inputs tx -> previous_outpoint i ∉ reserved sel) /\
    fee = zsum (out_value <$> outs) - zsum (out_value <$> outputs tx) /\ 0 <= fee /\
    sel_out sel' = sel_out sel ++ [(tx, fee)] /\
    (forall op, op ∈ reserved sel' <-> op ∈ (previous_outpoint <$> inputs tx) \/ op ∈ reserved sel) /\
    sel_created sel' = insert_outputs tx_id (sel_created sel) tx.
Proof.
  unfold select_step. destruct (bool_decide (inputs tx = [])) eqn:Hin; [intros [= <-]; by left|].
  apply bool_decide_eq_false in Hin. cbn [bool_decide decide ApplyMode_eq_dec rbind].
  intros H. apply rbind_Ok in H as ([] & _ & H). apply rbind_Ok in H as ([[iv pend]|] & Hsi & H).
  - right. apply rbind_Ok in H as (ov & ->%sum_outputs_Ok & H).
    apply rbind_Ok in H as (_ & Hle%ensure_Ok%Z.leb_le & H). apply Ok_inj in H. subst sel'.
    apply select_inputs_Ok in Hsi as (outs & Hf & E & Hn & Hres); [|constructor].
    apply pair_eq in E as [-> ->]. rewrite app_nil_l in *. exists outs. eexists. split; [done|].
    split; [done|]. split; [done|]. split; [done|]. split; [reflexivity|]. split; [lia|].
    cbn [sel_out reserved sel_created]. split; [done|]. split; [|done].
    intros op. by rewrite elem_of_union, elem_of_list_to_set.
  - left. rewrite bool_decide_eq_false_2 in H by done. by injection H.
Qed.

(** Non-selected transfers leave the selection as it is, so the first entry
    after the current ones is one the current state selects. *)
Lemma select_fold_out txs sel sel_f :
  rfold select sel txs = Ok sel_f -> exists rest, sel_out sel_f = sel_out sel ++ rest.
Proof.
  revert sel. induction txs as [|tx txs IH]; intros sel H; cbn [rfold] in H.
  { injection H as <-. exists []. by rewrite app_nil_r. }
  apply rbind_Ok in H as (sel1 & H1 & H). destruct (IH _ H) as (rest & ->).
  apply select_inv in H1 as [->|(outs & fee & _ & _ & _ & _ & _ & _ & -> & _)]; [by exists rest|].
  exists ((tx, fee) :: rest). by rewrite <- app_assoc.
Qed.
Lemma next_selected txs sel sel_f t f :
  rfold select sel txs = Ok sel_f -> sel_out sel_f !! length (sel_out sel) = Some (t, f) ->
  exists sel1, select sel t = Ok sel1 /\ sel_out sel1 = sel_out sel ++ [(t, f)].
Proof.
  revert sel. induction txs as [|tx txs IH]; intros sel H Hl; cbn [rfold] in H.
  { injection H as <-. by rewrite lookup_ge_None_2 in Hl. }
  apply rbind_Ok in H as (sel1 & H1 & H). pose proof H1 as H1'.
  apply select_inv in H1 as [->|(outs & fee & _ & _ & _ & _ & _ & _ & E & _)]; [by apply IH|].
  destruct (select_fold_out _ _ _ H) as (rest & Er). rewrite Er, E, <- app_assoc in Hl. cbn [app] in Hl.
  rewrite list_lookup_middle in Hl by done. injection Hl as -> ->. by exists sel1.
Qed.

(** The selection and the apply pass in step. *)
Record joint (budget : Z) (sel : SelState) (bs : BlockState) : Prop := {
  jt_inv : utxo_inv u (bs_utxo bs);
  jt_spent op : op ∈ reserved sel <-> op ∈ spent_in_block (bs_utxo bs);
  jt_created op o : op ∉ coinbase_created (bs_utxo bs) ->
    created_in_block (bs_utxo bs) !! op = Some o -> sel_created sel !! op = Some o;
  jt_fresh op o : sel_created sel !! op = Some o -> u !! op = None;
  jt_idx : transfer_idx bs = length (sel_out sel);
  jt_total : utxo_total (view_of u (bs_utxo bs)) =
    utxo_total u + coinbase_total bs - zsum (snd <$> sel_out sel);
  jt_cb : 0 <= coinbases bs /\ (coinbases bs = 0 -> coinbase_total bs = 0) /\
    coinbase_total bs <= budget;
}.

(** The value the selection computed is the value the apply pass spends. *)
Lemma joint_values budget sel bs (ins : list TxIn) outs (new : list (OutPoint * TxOut)) :
  joint budget sel bs ->
  Forall2 (fun i o => sel_lookup u sel (previous_outpoint i) = Some o) ins outs ->
  new.*1 = (previous_outpoint <$> ins) ->
  (forall e, e ∈ new -> e.1 ∉ spent_in_block (bs_utxo bs) /\ e.1 ∉ coinbase_created (bs_utxo bs) /\
     (created_in_block (bs_utxo bs) !! e.1 = Some e.2 \/
      (created_in_block (bs_utxo bs) !! e.1 = None /\ u !! e.1 = Some e.2))) ->
  spent_value new = zsum (out_value <$> outs).
Proof.
  intros J Hf. revert new. induction Hf as [|i o ins outs Ho Hf IH]; intros new Hops Hnew.
  { apply fmap_nil_inv in Hops as ->. reflexivity. }
  destruct new as [|[op w] new]; [done|]. rewrite !fmap_cons in Hops. injection Hops as -> Hops.
  unfold spent_value. rewrite !fmap_cons, !zsum_cons. cbn [snd]. fold (spent_value new).
  rewrite (IH new Hops) by (intros e He; apply Hnew; by right). f_equal. f_equal.
  destruct (Hnew _ ltac:(left)) as (_ & Hcb & H). cbn [fst snd] in *. unfold sel_lookup in Ho.
  destruct H as [H|[_ H]]; [rewrite (jt_created _ _ _ J _ _ Hcb H) in Ho; congruence|].
  destruct (sel_created sel !! previous_outpoint i) eqn:E; [|congruence].
  apply (jt_fresh _ _ _ J) in E. congruence.
Qed.

Lemma joint_select budget sel bs tx sel' st' :
  joint budget sel bs -> select sel tx = Ok sel' -> sel' <> sel ->
  transfer (bs_utxo bs) tx = Ok st' ->
  joint budget sel' (accept_tx tx_id bs st' tx (S (transfer_idx bs))).
Proof.
  intros J Hsel Hne Htr. apply select_inv in Hsel as [->|(outs & fee & Hin & Hf & Hn & Hres & -> & Hfee & Ho & Hr & Hc)]; [done|].
  destruct (utxo_transfer_inv _ _ _ (jt_inv _ _ _ J) Hn Htr) as
    (new & Hops & Hnew & Hi & Ht & Hs & Hu & Hcb & m & Hm & Hm').
  pose proof (joint_values _ _ _ _ _ _ J Hf Hops Hnew) as Hval.
  split; unfold accept_tx; cbn [bs_utxo transfer_idx coinbase_total coinbases].
  - done.
  - intros op. by rewrite Hr, Hs, Hops, (jt_spent _ _ _ J).
  - intros op o Hop. rewrite Hm', Hc, Hcb in *. unfold insert_outputs.
    apply (fold_insert_sub _ _ _ (fun op => op ∉ coinbase_created (bs_utxo bs))); [|done].
    intros op' o' H1 H2. apply (jt_created _ _ _ J); [done|by apply Hm].
  - intros op o. rewrite Hc. intros [H|H]%fold_insert_Some; [by eapply (jt_fresh _ _ _ J)|].
    apply list_elem_of_fmap in H as (e & -> & He). by apply Hu.
  - rewrite Ho, length_app, (jt_idx _ _ _ J). simpl. lia.
  - rewrite Ht, Ho, (jt_total _ _ _ J), fmap_app, zsum_app, Hval. simpl. lia.
  - apply (jt_cb _ _ _ J).
Qed.

Lemma joint_coinbase budget sel bs tx st total n :
  joint budget sel bs -> coinbases bs = 0 -> 0 < n ->
  apply_coinbase tx_id u (bs_utxo bs) tx budget = Ok (st, total) ->
  joint budget sel {| bs_utxo := st; coinbases := n; coinbase_total := total;
    transfer_idx := transfer_idx bs; bs_statuses := bs_statuses bs ++ [Accepted];
    accepted_tx_ids := {[tx_id tx]} ∪ accepted_tx_ids bs |}.
Proof.
  intros J H0 Hpos H. unfold apply_coinbase in H. apply rbind_Ok in H as (_ & _ & H).
  apply rbind_Ok in H as (v & ->%sum_outputs_Ok & H). apply rbind_Ok in H as (_ & Hle%ensure_Ok%Z.leb_le & H).
  apply rbind_Ok in H as (st1 & Hc & H). injection H as <- <-. unfold create_outputs in Hc.
  apply create_all_inv in Hc as (Hi & Ht & Hs & Hu & Hcr & Hcb); [|apply (jt_inv _ _ _ J)].
  destruct (jt_cb _ _ _ J) as (_ & Hct & _). rewrite outpoints_value in Ht.
  split; cbn [bs_utxo transfer_idx coinbase_total coinbases].
  - done.
  - intros op. by rewrite Hs, (jt_spent _ _ _ J).
  - intros op o Hop. rewrite Hcb in Hop. rewrite Hcr. intros [H|H]%fold_insert_Some; [|tauto].
    apply (jt_created _ _ _ J); tauto.
  - apply (jt_fresh _ _ _ J).
  - apply (jt_idx _ _ _ J).
  - rewrite Ht, (jt_total _ _ _ J), Hct by done. lia.
  - lia.
Qed.

Section collision_free.
Hypothesis tx_id_inj : forall t t', tx_id t = tx_id t' -> t = t'.

Lemma joint_step budget sel bs tx txs sel' sel_f bs' :
  joint budget sel bs -> select sel tx = Ok sel' -> rfold select sel' txs = Ok sel_f ->
  step (sel_out sel_f) budget bs tx = Ok bs' -> joint budget sel' bs'.
Proof.
  intros J Hsel Hrest H. unfold block_step in H.
  destruct (bool_decide (inputs tx = [])) eqn:Hin.
  - assert (sel' = sel) as -> by (unfold select_step in Hsel; rewrite Hin in Hsel; by injection Hsel).
    apply rbind_Ok in H as (_ & Hn%ensure_Ok%Z.leb_le & H).
    pose proof (jt_cb _ _ _ J) as (Hc0 & Hct & Hb). rewrite bool_decide_eq_true_2 in H by done. cbn [andb] in H.
    destruct (coinbase_outpoints_exist tx_id u tx).
    + apply Ok_inj in H. subst bs'. destruct J. split; cbn [bs_utxo transfer_idx coinbase_total coinbases]; auto. lia.
    + apply rbind_Ok in H as ([st total] & Hcb & H). apply Ok_inj in H. subst bs'.
      apply (joint_coinbase budget sel bs tx st total (coinbases bs + 1) J); [lia|lia|exact Hcb].
  - apply bool_decide_eq_false in Hin. pose proof (jt_idx _ _ _ J) as Hidx.
    destruct (select_fold_out _ _ _ Hrest) as (rest & Er).
    destruct (match sel_out sel_f !! transfer_idx bs with
              | Some e => tx_id e.1 =? tx_id tx | None => false end) eqn:Hm.
    + apply rbind_Ok in H as (st & Htr & H). apply Ok_inj in H. subst bs'.
      apply (joint_select _ _ _ _ _ _ J Hsel); [|done].
      destruct (sel_out sel_f !! transfer_idx bs) as [[t f]|] eqn:El; [|done]. cbn [fst] in Hm.
      apply Z.eqb_eq, tx_id_inj in Hm. subst t. rewrite Hidx in El. intros ->.
      destruct (next_selected _ _ _ _ _ Hrest El) as (sel1 & Hs1 & Eo). rewrite Hsel in Hs1. injection Hs1 as <-.
      apply (f_equal length) in Eo. rewrite length_app in Eo. simpl in Eo. lia.
    + rewrite bool_decide_eq_true_2 in H by done. apply rbind_Ok in H as (_ & _ & H). apply Ok_inj in H. subst bs'.
      apply select_inv in Hsel as [->|(outs & fee & _ & _ & _ & _ & _ & _ & Eo & _)].
      * destruct J. split; cbn [bs_utxo transfer_idx coinbase_total coinbases]; auto.
      * rewrite Er, Eo, <- app_assoc in Hm. cbn [app] in Hm.
        rewrite Hidx, list_lookup_middle in Hm by done. by rewrite Z.eqb_refl in Hm.
Qed.

Lemma joint_run budget sel bs txs sel_f bs' :
  joint budget sel bs -> rfold select sel txs = Ok sel_f ->
  rfold (step (sel_out sel_f) budget) bs txs = Ok bs' -> joint budget sel_f bs'.
Proof.
  revert sel bs. induction txs as [|tx txs IH]; intros sel bs J Hs Hb; cbn [rfold] in *.
  { by injection Hs as <-; injection Hb as <-. }
  apply rbind_Ok in Hs as (sel1 & Hs1 & Hs). apply rbind_Ok in Hb as (bs1 & Hb1 & Hb).
  exact (IH _ _ (joint_step _ _ _ _ _ _ _ _ J Hs1 Hs Hb1) Hs Hb).
Qed.

Lemma joint_start budget txs :
  0 <= budget -> joint budget (select_start tx_id Virtual u txs) block_start.
Proof.
  intros Hb. split; cbn [select_start block_start bs_utxo utxo_start reserved sel_created sel_out
    spent_in_block created_in_block coinbase_created transfer_idx coinbase_total coinbases].
  - apply utxo_inv_start.
  - set_solver.
  - intros op o _ H. by rewrite lookup_empty in H.
  - unfold seed_created. intros op o.
    assert (forall m, (forall op o, m !! op = Some o -> u !! op = None) ->
      forall op o, foldl (fun m tx =>
        if bool_decide (inputs tx = []) then
          if bool_decide (Virtual = Virtual) && coinbase_outpoints_exist tx_id u tx then m
          else insert_outputs tx_id m tx
        else m) m txs !! op = Some o -> u !! op = None) as Hgen; [|apply Hgen; intros ? ?; by rewrite lookup_empty].
    clear op o. induction txs as [|tx txs IH]; intros m Hm op o; cbn [foldl]; [apply Hm|].
    apply IH. destruct (bool_decide (inputs tx = [])); [|done].
    rewrite bool_decide_eq_true_2 by done. cbn [andb].
    destruct (coinbase_outpoints_exist tx_id u tx) eqn:Hex; [done|].
    intros op' o' [H|H]%fold_insert_Some; [by eapply Hm|].
    apply list_elem_of_fmap in H as (e & -> & He). apply eq_None_not_Some. intros Hs.
    assert (coinbase_outpoints_exist tx_id u tx = true); [|congruence].
    apply existsb_exists. exists e. split; [by apply list_elem_of_In|by apply bool_decide_eq_true_2].
  - done.
  - unfold view_of. simpl. lia.
  - lia.
Qed.

Lemma fees_sum (l : list (Transaction * Z)) v :
  rfold (fun total e => ok_or (InvalidTx "fee overflow") (checked_add u64_max total e.2)) 0 l = Ok v ->
  v = zsum (snd <$> l).
Proof.
  assert (forall t v, rfold (fun total (e : Transaction * Z) =>
    ok_or (InvalidTx "fee overflow") (checked_add u64_max total e.2)) t l = Ok v -> v = t + zsum (snd <$> l)) as H.
  { clear v. induction l as [|e l IH]; intros t v H; cbn [rfold] in H; [injection H as <-; simpl; lia|].
    apply rbind_Ok in H as (t' & [-> _]%ok_or_Ok%checked_add_Some & H). apply IH in H as ->.
    rewrite fmap_cons, zsum_cons. lia. }
  intros Hv. apply H in Hv. lia.
Qed.
Lemma fees_nonneg txs sel sel_f :
  Forall (fun f => 0 <= f) (snd <$> sel_out sel) -> rfold select sel txs = Ok sel_f ->
  Forall (fun f => 0 <= f) (snd <$> sel_out sel_f).
Proof.
  intros H0. apply (rfold_inv select (fun sel => Forall (fun f => 0 <= f) (snd <$> sel_out sel))); [done|].
  intros s1 tx s2 Hs _ [->|(outs & fee & _ & _ & _ & _ & _ & Hfee & -> & _)]%select_inv; [done|].
  rewrite fmap_app. apply Forall_app. split; [done|]. by repeat constructor.
Qed.

Abbreviation apply_txs := (apply_transactions verify_transaction_bound address_from_pubkey signer_address
                             tx_id Virtual auth u).
Lemma apply_joint txs emission b j stats :
  0 <= emission -> apply_txs txs emission = Ok (b, j, stats) ->
  exists sel bs, joint (emission + fees j) sel bs /\ fees j = zsum (snd <$> sel_out sel) /\
    b = u_batch (bs_utxo bs) /\ created j = u_created (bs_utxo bs) /\ spent j = u_spent (bs_utxo bs) /\
    j_coinbase_total j = coinbase_total bs /\
    subsidy j = saturating_sub (coinbase_total bs) (Z.min (fees j) (coinbase_total bs)).
Proof.
  intros He H. unfold apply_transactions in H. apply rbind_Ok in H as (l & Hsel & H).
  unfold selectable_transfers in Hsel. apply rbind_Ok in Hsel as (sel & Hsel & [= <-]).
  apply rbind_Ok in H as (fs & ->%fees_sum & H). apply rbind_Ok in H as (bud & [-> _]%ok_or_Ok%checked_add_Some & H).
  apply rbind_Ok in H as (bs & Hbs & H). apply rbind_Ok in H as (_ & _ & H). apply Ok_inj in H.
  apply pair_eq in H as [H _]. apply pair_eq in H as [<- <-]. exists sel, bs. cbn [fees created spent j_coinbase_total subsidy].
  split; [|done]. eapply joint_run; [|exact Hsel|exact Hbs]. apply joint_start.
  apply fees_nonneg in Hsel; [|constructor]. apply zsum_nonneg in Hsel. lia.
Qed.

(** a block creates TLT only as subsidy.  Applying a block in virtual order
    changes the value of the unspent set by exactly the coinbase less the fees
    of the transfers it applied, whichever transfers were skipped; the subsidy
    the journal records is what the coinbase claims above the fees, is at most
    the emission, and bounds the growth of the set. *)
Theorem virtual_block_conserves_tlt txs emission b j stats :
  0 <= emission -> apply_txs txs emission = Ok (b, j, stats) ->
  utxo_total (write_utxos u b) = utxo_total u + j_coinbase_total j - fees j /\
  subsidy j = Z.max 0 (j_coinbase_total j - fees j) /\ subsidy j <= emission /\
  utxo_total (write_utxos u b) <= utxo_total u + subsidy j.
Proof.
  intros He H. destruct (apply_joint _ _ _ _ _ He H) as (sel & bs & J & Hf & -> & _ & _ & -> & ->).
  destruct (jt_cb _ _ _ J) as (_ & _ & Hb). pose proof (jt_total _ _ _ J) as Ht. unfold view_of in Ht.
  rewrite Ht, <- Hf. unfold saturating_sub. lia.
Qed.

(** the journal undoes a block and records each spent output once.
    Applying a block in virtual order and then the batch built from its journal
    gives back exactly the unspent set; the outputs the block spent are listed
    without repetition, with the values they had, and are gone after it. *)
Theorem virtual_block_journal txs emission b j stats :
  0 <= emission -> apply_txs txs emission = Ok (b, j, stats) ->
  write_utxos (write_utxos u b) (revert_utxos j) = u /\ NoDup (spent j).*1 /\
  forall op o, (op, o) ∈ spent j -> u !! op = Some o /\ write_utxos u b !! op = None.
Proof.
  intros He H. destruct (apply_joint _ _ _ _ _ He H) as (sel & bs & J & _ & -> & Hc & Hs & _ & _).
  pose proof (jt_inv _ _ _ J) as Hi. split; [by apply (revert_inv u (bs_utxo bs))|].
  rewrite Hs. split; [apply (ui_spent_nodup _ _ Hi)|]. intros op o Hin.
  destruct (ui_spent _ _ Hi _ _ Hin) as [Hu Hsp]. split; [done|]. fold (view_of u (bs_utxo bs)).
  rewrite (ui_view _ _ Hi). rewrite (bool_decide_eq_true_2 _ Hsp).
  destruct (created_in_block (bs_utxo bs) !! op) eqn:E; [|done]. apply (ui_fresh _ _ Hi) in E. congruence.
Qed.
End collision_free.
End virtual.

(** ** Concrete blocks *)

Definition demo_in (t i : Z) : TxIn := {| previous_outpoint := {| op_tx := t; op_index := i |} |}.
Definition demo_out (v a : Z) : TxOut := {| out_value := v; out_address := a |}.
Definition demo_tx (n : Z) (ins : list TxIn) (outs : list TxOut) : Transaction :=
  {| tx_version := 1; inputs := ins; outputs := outs; tx_nonce := n; tx_public_key := []; tx_signature := [] |}.
(** A collision-free id: the encoding of the fields in a row, lengths first. *)
Definition in_row (i : TxIn) : list Z := [op_tx (previous_outpoint i); op_index (previous_outpoint i)].
Definition out_row (o : TxOut) : list Z := [out_value o; out_address o].
Definition tx_row (t : Transaction) : list Z :=
  [tx_version t; tx_nonce t; Z.of_nat (length (inputs t)); Z.of_nat (length (outputs t));
   Z.of_nat (length (tx_public_key t))] ++
  mjoin (in_row <$> inputs t) ++ mjoin (out_row <$> outputs t) ++ tx_public_key t ++ tx_signature t.
Definition demo_tx_id (t : Transaction) : Hash := Z.pos (encode (tx_row t)).

#[local] Instance in_row_inj : Inj (=) (=) in_row.
Proof. intros [[]] [[]] [=]. by subst. Qed.
#[local] Instance out_row_inj : Inj (=) (=) out_row.
Proof. intros [] [] [=]. by subst. Qed.
Lemma rows_app_inj {A} (f : A -> list Z) `{!Inj (=) (=) f} l l' r r' :
  (forall x, length (f x) = 2%nat) -> length l = length l' ->
  mjoin (f <$> l) ++ r = mjoin (f <$> l') ++ r' -> l = l' /\ r = r'.
Proof.
  intros Hf. revert l'. induction l as [|x l IH]; intros [|x' l'] Hl H; try done.
  cbn [fmap list_fmap mjoin list_join] in H. rewrite <- !(assoc_L (++)) in H.
  apply app_inj_1 in H as [Hx%(inj f) H]; [|by rewrite !Hf]. destruct (IH l') as [-> ->]; [by injection Hl|done|].
  by subst.
Qed.
Lemma demo_tx_id_inj t t' : demo_tx_id t = demo_tx_id t' -> t = t'.
Proof.
  unfold demo_tx_id. intros [= H%(inj encode)]. destruct t as [v i o n p s], t' as [v' i' o' n' p' s'].
  unfold tx_row in H. cbn [tx_version inputs outputs tx_nonce tx_public_key tx_signature] in H.
  apply app_inj_1 in H as [[= -> -> Hi%Nat2Z.inj Ho%Nat2Z.inj Hp%Nat2Z.inj] H]; [|done].
  apply rows_app_inj in H as [-> H]; [|apply _|done..]. apply rows_app_inj in H as [-> H]; [|apply _|done..].
  by apply app_inj_1 in H as [-> ->].
Qed.
Definition owner_7 (_ : Transaction) : result StateError Address := Ok 7.
Definition demo_utxos : UtxoSet := {[ {| op_tx := 1; op_index := 0 |} := demo_out 100 7 ]}.
Definition demo_apply (mode : ApplyMode) (txs : list Transaction) (emission : Z) :=
  apply_transactions (Auth := unit) (fun _ _ => Ok tt) (fun _ => 0) owner_7 demo_tx_id mode None
    demo_utxos txs emission.
(** A coinbase, a transfer with fee 10, and a transfer that lost its input. *)
Definition demo_txs : list Transaction :=
  [demo_tx 0 [] [demo_out 55 9]; demo_tx 1 [demo_in 1 0] [demo_out 90 8]; demo_tx 2 [demo_in 1 0] [demo_out 70 8]].

Lemma virtual_block_conserves_tlt_witness :
  exists b j stats, demo_apply Virtual demo_txs 50 = Ok (b, j, stats) /\ subsidy j = 45 /\
    utxo_total (write_utxos demo_utxos b) = 145.
Proof.
  assert (match demo_apply Virtual demo_txs 50 with
          | Ok (_, j, _) => subsidy j = 45 /\ j_coinbase_total j - fees j = 45
          | Err _ => False end) as H by (vm_compute; split; reflexivity).
  assert (utxo_total demo_utxos = 100) as H0 by (vm_compute; reflexivity).
  destruct (demo_apply Virtual demo_txs 50) as [[[b j] stats]|] eqn:E; [|destruct H].
  destruct (virtual_block_conserves_tlt (Auth := unit) (fun _ _ => Ok tt) (fun _ => 0) owner_7 demo_tx_id
    None demo_utxos demo_tx_id_inj demo_txs 50 b j stats) as (Ht & _); [lia|exact E|].
  exists b, j, stats. split; [reflexivity|]. split; [apply H|]. rewrite Ht, H0. lia.
Defined.
Lemma virtual_block_journal_witness :
  exists b j stats, demo_apply Virtual demo_txs 50 = Ok (b, j, stats) /\
    write_utxos (write_utxos demo_utxos b) (revert_utxos j) = demo_utxos.
Proof.
  destruct (demo_apply Virtual demo_txs 50) as [[[b j] stats]|] eqn:E; [|vm_compute in E; discriminate E].
  exists b, j, stats. split; [reflexivity|].
  apply (virtual_block_journal (Auth := unit) (fun _ _ => Ok tt) (fun _ => 0) owner_7 demo_tx_id
    None demo_utxos demo_tx_id_inj demo_txs 50 b j stats); [lia|exact E].
Defined.

(** strict mode counts a repeated input twice (finding).  A transfer that
    names the same output twice passes strict application: the block is
    accepted, the output is spent once, and the unspent set doubles in value
    without any subsidy.  The same block in virtual order skips the transfer. *)
Theorem strict_repeated_input_inflates :
  let txs := [demo_tx 0 [] [demo_out 0 9]; demo_tx 1 [demo_in 1 0; demo_in 1 0] [demo_out 200 7]] in
  (exists b j, demo_apply Strict txs 0 = Ok (b, j, [Accepted; Accepted]) /\ subsidy j = 0 /\
     utxo_total demo_utxos = 100 /\ utxo_total (write_utxos demo_utxos b) = 200) /\
  (exists b j, demo_apply Virtual txs 0 = Ok (b, j, [Accepted; ConflictLost]) /\
     utxo_total (write_utxos demo_utxos b) = 100).
Proof.
  cbv zeta. split; eexists _, _; (split; [vm_compute; reflexivity|]); split_and?; (vm_compute; reflexivity).
Qed.
