(* ===== verification/Supply.v ===== *)
(** * Monetary policy and supply accounting

    [state-machine/src/monetary.rs] (caps, allocations and emission of the
    three assets) and [supply.rs] (issued, burned and net supply, fee burning,
    the schema-20 migration and genesis ignition).  The byte encodings of the
    counters are those of [Store.v]; a counter is a [u64] there, so the
    length tests on raw bytes have no counterpart. *)

From stdpp Require Import base gmap list fin_maps strings.
From Stdlib Require Import ZArith Lia.
From S2P Require Import Prelude Types Finality Store.
Local Open Scope Z_scope.

(** ** Monetary policy *)

Definition TLT_MAX_SUPPLY_BASE : Z := 10000000000000000.
Definition OVL_MAX_SUPPLY_BASE : Z := 2100000000000000000.
Definition DRC_MAX_SUPPLY_BASE : Z := 600000000000000000.
Definition OVL_WORKING_RESERVE_BASE : Z := OVL_MAX_SUPPLY_BASE / 10.
Definition DRC_WORKING_RESERVE_BASE : Z := DRC_MAX_SUPPLY_BASE / 10.
Definition WORKING_EPOCH_RESERVE_DRIP : Z := 1000000000.

Inductive EmissionKind :=
| PowHalving (initial_reward halving_interval : Z)
| StakingReserve (reserve_base_units : Z).

Record AssetMonetaryPolicy := {
  mp_asset : NativeAssetId;
  mp_max_supply : Z;
  decimals : Z;
  mineable : bool;
  genesis_allocation : Z;
  treasury_allocation : Z;
  emission : EmissionKind;
}.

Definition tlt_default : AssetMonetaryPolicy :=
  {| mp_asset := TLT; mp_max_supply := TLT_MAX_SUPPLY_BASE; decimals := 8; mineable := true;
     genesis_allocation := TLT_MAX_SUPPLY_BASE / 10; treasury_allocation := 0;
     emission := PowHalving 5000000000 210000 |}.
Definition ovl_default : AssetMonetaryPolicy :=
  {| mp_asset := OVL; mp_max_supply := OVL_MAX_SUPPLY_BASE; decimals := 8; mineable := false;
     genesis_allocation := 0; treasury_allocation := 0;
     emission := StakingReserve OVL_WORKING_RESERVE_BASE |}.
Definition drc_default : AssetMonetaryPolicy :=
  {| mp_asset := DRC; mp_max_supply := DRC_MAX_SUPPLY_BASE; decimals := 8; mineable := false;
     genesis_allocation := 0; treasury_allocation := 0;
     emission := StakingReserve DRC_WORKING_RESERVE_BASE |}.

Definition validate_caps (p : AssetMonetaryPolicy) : result string unit :=
  ensure (decimals p =? 8) "decimals must be 8 for v3" ;?
  ensure (Bool.eqb (mineable p) (is_mineable (mp_asset p))) "mineable flag disagrees with protocol" ;?
  ensure (bool_decide (mp_asset p = TLT) ||
          match emission p with PowHalving _ _ => false | StakingReserve _ => true end)
    "cannot use PoW emission" ;?
  let? reserved := ok_or "allocation overflow"%string
    (checked_add u64_max (genesis_allocation p) (treasury_allocation p)) in
  let emission_reserve :=
    match emission p with PowHalving _ _ => 0 | StakingReserve r => r end in
  let? committed := ok_or "emission reserve overflow"%string
    (checked_add u64_max reserved emission_reserve) in
  ensure (committed <=? mp_max_supply p) "committed supply exceeds max".

Record TridentMonetaryPolicy := {
  p_tlt : AssetMonetaryPolicy;
  p_ovl : AssetMonetaryPolicy;
  p_drc : AssetMonetaryPolicy;
}.
Definition default_monetary_policy : TridentMonetaryPolicy :=
  {| p_tlt := tlt_default; p_ovl := ovl_default; p_drc := drc_default |}.

Definition validate_policy (p : TridentMonetaryPolicy) : result string unit :=
  validate_caps (p_tlt p) ;?
  validate_caps (p_ovl p) ;?
  validate_caps (p_drc p) ;?
  ensure (bool_decide (mp_asset (p_tlt p) = TLT) && bool_decide (mp_asset (p_ovl p) = OVL)
          && bool_decide (mp_asset (p_drc p) = DRC))
    "monetary policy asset ids must be TLT/OVL/DRC in order".

Definition policy (p : TridentMonetaryPolicy) (asset : NativeAssetId) : AssetMonetaryPolicy :=
  match asset with TLT => p_tlt p | OVL => p_ovl p | DRC => p_drc p end.

Definition issued_within_cap (issued max : Z) : bool := issued <=? max.

(** ** Supply counters *)

Definition SCHEMA_VERSION : Z := 22.
Definition OVL_EVM_SCHEMA_VERSION : Z := 22.
Definition DRC_FEE_BURN_SCHEMA_VERSION : Z := 20.
Definition DRC_LEDGER_INDEX_DATADIR_SCHEMA : Z := 21.
Definition ovl_evm_schema_active (schema : Z) : bool := OVL_EVM_SCHEMA_VERSION <=? schema.

Record NativeSupplyState := {
  nss_asset : NativeAssetId;
  maximum_supply : Z;
  issued_supply : Z;
  burned_supply : Z;
  net_supply : Z;
}.

Definition load_schema_version (s : StateStore) : Z := default 1 (st_schema s).
Definition put_schema_version_into (b : WriteBatch) (version : Z) : WriteBatch :=
  b ++ [PutSchema version] ++
  (if DRC_LEDGER_INDEX_DATADIR_SCHEMA <=? version then [PutIndexMarker] else []).

Definition load_issued_supply (s : StateStore) (asset : NativeAssetId) : Z :=
  match st_issued s !! asset with
  | Some v => v
  | None => if bool_decide (asset = TLT) then default 0 (st_issued_legacy s) else 0
  end.
Definition put_issued_supply_into (b : WriteBatch) (asset : NativeAssetId) (issued : Z) : WriteBatch :=
  b ++ [PutIssued asset issued] ++ (if bool_decide (asset = TLT) then [PutIssuedLegacy issued] else []).

Definition load_burned_supply (s : StateStore) (asset : NativeAssetId) : result StateError Z :=
  match st_burned s !! asset with
  | Some v => Ok v
  | None => if DRC_FEE_BURN_SCHEMA_VERSION <=? load_schema_version s
            then Err (Storage "missing the burned-supply counter") else Ok 0
  end.
Definition put_burned_supply_into (b : WriteBatch) (asset : NativeAssetId) (burned : Z) : WriteBatch :=
  b ++ [PutBurned asset burned].

Definition load_max_supply (s : StateStore) (asset : NativeAssetId) : Z :=
  match asset with
  | TLT => default TLT_MAX_SUPPLY_BASE (st_max_legacy s)
  | OVL | DRC =>
      default (mp_max_supply (policy default_monetary_policy asset)) (st_max_supply s !! asset)
  end.
Definition put_max_supply_into (b : WriteBatch) (asset : NativeAssetId) (max : Z) : WriteBatch :=
  b ++ [PutMaxSupply asset max] ++ (if bool_decide (asset = TLT) then [PutMaxLegacy max] else []).

Definition load_native_supply_state (s : StateStore) (asset : NativeAssetId)
  : result StateError NativeSupplyState :=
  let issued := load_issued_supply s asset in
  let? burned := load_burned_supply s asset in
  let? net := ok_or BurnedSupplyExceedsIssued (checked_sub issued burned) in
  Ok {| nss_asset := asset; maximum_supply := load_max_supply s asset;
        issued_supply := issued; burned_supply := burned; net_supply := net |}.

Definition burn_drc_fee_into (s : StateStore) (b : WriteBatch) (fee : Z)
  : result StateError WriteBatch :=
  let schema := load_schema_version s in
  ensure ((DRC_FEE_BURN_SCHEMA_VERSION <=? schema) && (schema <=? SCHEMA_VERSION))
    (InvalidTx "DRC fee burning requires a supported schema") ;?
  if fee =? 0 then Ok b else
  let issued := load_issued_supply s DRC in
  let? burned := load_burned_supply s DRC in
  let? next := ok_or (InvalidTx "DRC burned-supply overflow") (checked_add u64_max burned fee) in
  ensure (next <=? issued) BurnedSupplyExceedsIssued ;?
  Ok (put_burned_supply_into b DRC next).

Definition burn_tlt_fee_into (s : StateStore) (b : WriteBatch) (fee : Z)
  : result StateError WriteBatch :=
  if fee =? 0 then Ok b else
  let issued := load_issued_supply s TLT in
  let? burned := load_burned_supply s TLT in
  let? next := ok_or (InvalidTx "TLT burned-supply overflow") (checked_add u64_max burned fee) in
  ensure (next <=? issued) BurnedSupplyExceedsIssued ;?
  Ok (put_burned_supply_into b TLT next).

(** Whether the recorded maximum is a live issuance ceiling. *)
Definition cap_is_live (schema : Z) (asset : NativeAssetId) : bool :=
  negb (bool_decide (asset = OVL) && ovl_evm_schema_active schema).

Definition verify_supply_invariants (s : StateStore) : result StateError unit :=
  let schema := load_schema_version s in
  rfold (fun _ asset =>
    let? st := load_native_supply_state s asset in
    ensure (negb (cap_is_live schema asset && (maximum_supply st <? issued_supply st)))
      SupplyCapExceeded) tt all_assets.

Definition migrate_drc_fee_burn_schema (s : StateStore) : result StateError StateStore :=
  let version := load_schema_version s in
  if (DRC_FEE_BURN_SCHEMA_VERSION <=? version) && (version <=? SCHEMA_VERSION) then
    rfold (fun _ asset => ensure (bool_decide (is_Some (st_burned s !! asset)))
      (Storage "missing the burned-supply counter")) tt all_assets ;?
    verify_supply_invariants s ;?
    Ok s
  else
  ensure (version <=? SCHEMA_VERSION) (Storage "unsupported future datadir schema") ;?
  ensure (version =? DRC_FEE_BURN_SCHEMA_VERSION - 1)
    (Storage "DRC fee-burn migration requires schema 19") ;?
  rfold (fun _ asset => ensure (bool_decide (st_burned s !! asset = None))
    (Storage "schema 19 unexpectedly contains a burned-supply counter")) tt all_assets ;?
  verify_supply_invariants s ;?
  let b := foldl (fun b asset => put_burned_supply_into b asset 0) [] all_assets in
  Ok (write_batch s (put_schema_version_into b DRC_FEE_BURN_SCHEMA_VERSION)).

Definition put_staking_reserve_remaining_into (b : WriteBatch) (asset : NativeAssetId) (amount : Z)
  : WriteBatch := b ++ [PutReserve asset amount].
Definition init_staking_reserve_into (b : WriteBatch) (asset : NativeAssetId) (reserve : Z)
  : result StateError WriteBatch :=
  ensure (is_account_asset asset) (InvalidTx "staking reserve only for OVL/DRC") ;?
  Ok (put_staking_reserve_remaining_into b asset reserve).
Definition load_staking_reserve_remaining (s : StateStore) (asset : NativeAssetId) : Z :=
  default 0 (st_reserve s !! asset).

Definition lift_msg {A} (r : result string A) : result StateError A :=
  match r with Ok a => Ok a | Err msg => Err (InvalidTx msg) end.

Definition ignite_trident_supply (b : WriteBatch) (pol : TridentMonetaryPolicy)
  : result StateError WriteBatch :=
  lift_msg (validate_policy pol) ;?
  let? b := rfold (fun b asset =>
    let p := policy pol asset in
    let b := put_max_supply_into b asset (mp_max_supply p) in
    let issued := saturating_add u64_max (genesis_allocation p) (treasury_allocation p) in
    ensure (issued <=? mp_max_supply p) SupplyCapExceeded ;?
    let b := put_issued_supply_into b asset issued in
    let b := put_burned_supply_into b asset 0 in
    match emission p with
    | StakingReserve r => init_staking_reserve_into b asset r
    | PowHalving _ _ => Ok b
    end) b all_assets in
  Ok (put_schema_version_into b SCHEMA_VERSION).

(** ** What the counters promise *)

(** The source's stated invariant: burned <= issued, and issued <= max where
    the cap is live. *)
Definition supply_ok (s : StateStore) : Prop :=
  forall asset, exists st, load_native_supply_state s asset = Ok st /\
    (cap_is_live (load_schema_version s) asset = true -> issued_supply st <= maximum_supply st).

Lemma native_supply_state_inv s asset st :
  load_native_supply_state s asset = Ok st ->
  load_burned_supply s asset = Ok (burned_supply st) /\
  issued_supply st = load_issued_supply s asset /\ maximum_supply st = load_max_supply s asset /\
  net_supply st = issued_supply st - burned_supply st /\ burned_supply st <= issued_supply st.
Proof.
  unfold load_native_supply_state. intros H.
  apply rbind_Ok in H as (burned & Hb & H). apply rbind_Ok in H as (net & Hn & H).
  injection H as <-. apply ok_or_Ok, checked_sub_Some in Hn as [-> Hle]. simpl. auto.
Qed.
Lemma native_supply_state_intro s asset burned :
  load_burned_supply s asset = Ok burned -> burned <= load_issued_supply s asset ->
  load_native_supply_state s asset =
    Ok {| nss_asset := asset; maximum_supply := load_max_supply s asset;
          issued_supply := load_issued_supply s asset; burned_supply := burned;
          net_supply := load_issued_supply s asset - burned |}.
Proof.
  intros Hb Hle. unfold load_native_supply_state. rewrite Hb. simpl.
  unfold checked_sub. by rewrite (proj2 (Z.leb_le _ _) Hle).
Qed.

Lemma verify_supply_invariants_iff s :
  verify_supply_invariants s = Ok tt <-> supply_ok s.
Proof.
  unfold verify_supply_invariants, supply_ok, all_assets.
  assert (forall asset,
    (exists u, (let? st := load_native_supply_state s asset in
      ensure (negb (cap_is_live (load_schema_version s) asset &&
        (maximum_supply st <? issued_supply st))) SupplyCapExceeded) = Ok u) <->
    (exists st, load_native_supply_state s asset = Ok st /\
      (cap_is_live (load_schema_version s) asset = true -> issued_supply st <= maximum_supply st)))
    as Hone.
  { intros asset. destruct (load_native_supply_state s asset) as [st|e]; simpl.
    - destruct (cap_is_live _ asset); simpl; [destruct (Z.ltb_spec (maximum_supply st) (issued_supply st))|];
        simpl; split.
      + by intros [].
      + intros (st' & [= <-] & Hle). specialize (Hle eq_refl). lia.
      + intros _. by exists st.
      + intros _. by exists tt.
      + intros _. by exists st.
      + intros _. by exists tt.
    - split; [by intros []|by intros (? & ? & _)]. }
  split.
  - intros H. simpl in H.
    apply rbind_Ok in H as ([] & H1 & H). apply rbind_Ok in H as ([] & H2 & H).
    apply rbind_Ok in H as ([] & H3 & _).
    intros []; apply Hone; by eexists.
  - intros H. cbn [rfold].
    destruct (proj2 (Hone TLT) (H TLT)) as [[] ->]. destruct (proj2 (Hone OVL) (H OVL)) as [[] ->].
    destruct (proj2 (Hone DRC) (H DRC)) as [[] ->]. done.
Qed.

(** [s'] is [s] after [fee] of [a] was destroyed: only the burned and net
    supply of [a] move, and they move by [fee]. *)
Definition fee_burned (a : NativeAssetId) (fee : Z) (s s' : StateStore) : Prop :=
  supply_ok s' /\
  forall x st, load_native_supply_state s x = Ok st ->
    let d := if bool_decide (x = a) then fee else 0 in
    load_native_supply_state s' x =
      Ok {| nss_asset := x; maximum_supply := maximum_supply st; issued_supply := issued_supply st;
            burned_supply := burned_supply st + d; net_supply := net_supply st - d |}.

(** The supply view after one counter is written. *)
Lemma burned_put s a v x :
  load_issued_supply (write_batch s [PutBurned a v]) x = load_issued_supply s x /\
  load_max_supply (write_batch s [PutBurned a v]) x = load_max_supply s x /\
  load_schema_version (write_batch s [PutBurned a v]) = load_schema_version s /\
  load_burned_supply (write_batch s [PutBurned a v]) x =
    if bool_decide (x = a) then Ok v else load_burned_supply s x.
Proof.
  destruct s. repeat split. unfold load_burned_supply. simpl. case_bool_decide as Hx.
  - subst. by rewrite lookup_insert_eq.
  - by rewrite lookup_insert_ne by congruence.
Qed.

Lemma put_burned_fee_burned s a fee st :
  supply_ok s -> load_native_supply_state s a = Ok st -> 0 <= fee ->
  burned_supply st + fee <= issued_supply st ->
  fee_burned a fee s (write_batch s [PutBurned a (burned_supply st + fee)]).
Proof.
  intros Hok Hst Hfee Hle.
  apply native_supply_state_inv in Hst as (Hb' & Hi' & Hm' & Hn' & Hbi').
  assert (forall x st0, load_native_supply_state s x = Ok st0 ->
    load_native_supply_state (write_batch s [PutBurned a (burned_supply st + fee)]) x =
      Ok {| nss_asset := x; maximum_supply := maximum_supply st0; issued_supply := issued_supply st0;
            burned_supply := burned_supply st0 + (if bool_decide (x = a) then fee else 0);
            net_supply := net_supply st0 - (if bool_decide (x = a) then fee else 0) |}) as Hview.
  { intros x st0 Hst0. destruct (burned_put s a (burned_supply st + fee) x) as (Ei & Em & _ & Eb).
    apply native_supply_state_inv in Hst0 as (Hb & Hi & Hm & Hn & Hbi).
    set (d := if bool_decide (x = a) then fee else 0).
    assert (burned_supply st0 + d <= issued_supply st0 /\
      load_burned_supply (write_batch s [PutBurned a (burned_supply st + fee)]) x =
        Ok (burned_supply st0 + d)) as [Hd Eb'].
    { rewrite Eb. subst d. case_bool_decide as Hx; [subst x|split; [lia|rewrite Hb; f_equal; lia]].
      assert (burned_supply st0 = burned_supply st) as -> by congruence. split; [lia|done]. }
    rewrite (native_supply_state_intro _ _ _ Eb') by (rewrite Ei, <- Hi; exact Hd).
    rewrite Ei, Em, Hn, <- Hi, <- Hm. do 2 f_equal. lia. }
  split; [|exact Hview]. intros x. destruct (Hok x) as (st0 & Hst0 & Hcap).
  rewrite (Hview _ _ Hst0). eexists. split; [done|]. cbn [issued_supply maximum_supply].
  destruct (burned_put s a (burned_supply st + fee) x) as (_ & _ & -> & _). exact Hcap.
Qed.

(** The two burners after their schema and zero-fee guards. *)
Lemma burn_step s a fee st msg :
  supply_ok s -> load_native_supply_state s a = Ok st -> in_u64 (issued_supply st) -> in_u64 fee ->
  (let? burned := load_burned_supply s a in
   let? next := ok_or (InvalidTx msg) (checked_add u64_max burned fee) in
   ensure (next <=? load_issued_supply s a) BurnedSupplyExceedsIssued ;?
   Ok (put_burned_supply_into [] a next)) =
  if fee <=? net_supply st then Ok [PutBurned a (burned_supply st + fee)]
  else Err (if burned_supply st + fee <=? u64_max then BurnedSupplyExceedsIssued else InvalidTx msg).
Proof.
  intros Hok Hst Hi Hfee. apply native_supply_state_inv in Hst as (-> & <- & _ & -> & Hle).
  simpl. unfold checked_add, put_burned_supply_into, in_u64 in *.
  destruct (Z.leb_spec fee (issued_supply st - burned_supply st)).
  - rewrite (proj2 (Z.leb_le (burned_supply st + fee) u64_max)) by lia. simpl.
    by rewrite (proj2 (Z.leb_le (burned_supply st + fee) (issued_supply st))) by lia.
  - destruct (Z.leb_spec (burned_supply st + fee) u64_max); simpl; [|done].
    by rewrite (proj2 (Z.leb_gt (burned_supply st + fee) (issued_supply st))) by lia.
Qed.

Lemma fee_burned_zero s a : supply_ok s -> fee_burned a 0 s s.
Proof.
  intros Hok. split; [done|]. intros x st Hst. rewrite Hst.
  pose proof (native_supply_state_inv _ _ _ Hst) as (_ & _ & _ & _ & _).
  unfold load_native_supply_state in Hst. apply rbind_Ok in Hst as (b & _ & Hst).
  apply rbind_Ok in Hst as (n & _ & [= <-]). simpl. do 2 f_equal; case_bool_decide; lia.
Qed.
Lemma fee_burned_net s a fee st :
  supply_ok s -> load_native_supply_state s a = Ok st -> in_u64 fee -> fee <= net_supply st ->
  fee_burned a fee s (write_batch s (if fee =? 0 then [] else [PutBurned a (burned_supply st + fee)])).
Proof.
  intros Hok Hst Hfee Hle. pose proof (native_supply_state_inv _ _ _ Hst) as (_ & _ & _ & Hn & _).
  destruct (Z.eqb_spec fee 0) as [->|]; [by apply fee_burned_zero|].
  apply put_burned_fee_burned; unfold in_u64 in *; try done; lia.
Qed.

(** accepted fees are destroyed exactly.  On a store whose supply
    invariants verify, a DRC fee burn succeeds iff the schema supports it and
    the fee does not exceed the net supply, a TLT fee burn iff the fee does not
    exceed the net supply; the burn moves the burned and net supply of that
    asset by the fee, changes nothing else, and the invariants verify again. *)
Theorem burn_fees_exact (s : StateStore) (fee : Z) (drc tlt : NativeSupplyState) :
  verify_supply_invariants s = Ok tt -> in_u64 fee ->
  load_native_supply_state s DRC = Ok drc -> load_native_supply_state s TLT = Ok tlt ->
  in_u64 (issued_supply drc) -> in_u64 (issued_supply tlt) -> 0 <= burned_supply drc -> 0 <= burned_supply tlt ->
  (is_ok (burn_drc_fee_into s [] fee) = true <->
     20 <= load_schema_version s <= 22 /\ fee <= net_supply drc) /\
  (forall b, burn_drc_fee_into s [] fee = Ok b -> fee_burned DRC fee s (write_batch s b)) /\
  (is_ok (burn_tlt_fee_into s [] fee) = true <-> fee <= net_supply tlt) /\
  (forall b, burn_tlt_fee_into s [] fee = Ok b -> fee_burned TLT fee s (write_batch s b)).
Proof.
  intros Hok%verify_supply_invariants_iff Hfee Hd Ht Hdi Hti Hdb Htb.
  pose proof (native_supply_state_inv _ _ _ Hd) as (_ & _ & _ & Hdn & Hdl).
  pose proof (native_supply_state_inv _ _ _ Ht) as (_ & _ & _ & Htn & Htl).
  pose proof (fee_burned_net s DRC fee drc Hok Hd Hfee) as HbD.
  pose proof (fee_burned_net s TLT fee tlt Hok Ht Hfee) as HbT.
  unfold burn_drc_fee_into, burn_tlt_fee_into, DRC_FEE_BURN_SCHEMA_VERSION, SCHEMA_VERSION. cbv zeta.
  rewrite (burn_step s DRC fee drc) by done. rewrite (burn_step s TLT fee tlt) by done.
  destruct (Z.eqb_spec fee 0) as [->|Hnz].
  - split; [|split; [|split]].
    + destruct (Z.leb_spec 20 (load_schema_version s)), (Z.leb_spec (load_schema_version s) 22); simpl;
        intuition (lia || done).
    + intros b H. apply rbind_Ok in H as (_ & _ & [= <-]). apply HbD; lia.
    + simpl. intuition lia.
    + intros b [= <-]. apply HbT; lia.
  - split; [|split; [|split]].
    + destruct (Z.leb_spec 20 (load_schema_version s)), (Z.leb_spec (load_schema_version s) 22),
        (Z.leb_spec fee (net_supply drc)); simpl; intuition (lia || done).
    + intros b H. apply rbind_Ok in H as (_ & _ & H).
      destruct (Z.leb_spec fee (net_supply drc)); [|done]. injection H as <-. by apply HbD.
    + destruct (Z.leb_spec fee (net_supply tlt)); simpl; intuition (lia || done).
    + intros b H. destruct (Z.leb_spec fee (net_supply tlt)); [|done]. injection H as <-. by apply HbT.
Qed.

(** ** Genesis ignition *)

Definition emission_reserve (p : AssetMonetaryPolicy) : Z :=
  match emission p with PowHalving _ _ => 0 | StakingReserve r => r end.
Definition is_pow (p : AssetMonetaryPolicy) : bool :=
  match emission p with PowHalving _ _ => true | StakingReserve _ => false end.
Definition policy_ints (p : AssetMonetaryPolicy) : Prop :=
  in_u64 (mp_max_supply p) /\ in_u64 (genesis_allocation p) /\ in_u64 (treasury_allocation p) /\
  in_u64 (emission_reserve p).

Lemma validate_caps_Ok p :
  validate_caps p = Ok tt ->
  (mp_asset p <> TLT -> is_pow p = false) /\
  genesis_allocation p + treasury_allocation p <= u64_max /\
  genesis_allocation p + treasury_allocation p + emission_reserve p <= mp_max_supply p.
Proof.
  unfold validate_caps. intros H.
  apply rbind_Ok in H as (_ & _ & H). apply rbind_Ok in H as (_ & _ & H).
  apply rbind_Ok in H as (_ & Hp%ensure_Ok & H).
  apply rbind_Ok in H as (r & Hr%ok_or_Ok & H). apply checked_add_Some in Hr as [-> Hr].
  apply rbind_Ok in H as (c & Hc%ok_or_Ok & H). apply checked_add_Some in Hc as [-> Hc].
  apply ensure_Ok, Z.leb_le in H. unfold emission_reserve, is_pow.
  split; [|destruct (emission p); lia].
  intros Hne. rewrite bool_decide_eq_false_2 in Hp by done. by destruct (emission p).
Qed.

Lemma validate_policy_Ok pol :
  validate_policy pol = Ok tt ->
  forall asset, validate_caps (policy pol asset) = Ok tt /\ mp_asset (policy pol asset) = asset.
Proof.
  unfold validate_policy. intros H.
  apply rbind_Ok in H as ([] & H1 & H). apply rbind_Ok in H as ([] & H2 & H).
  apply rbind_Ok in H as ([] & H3 & H). apply ensure_Ok in H.
  repeat (apply andb_true_iff in H as [H ?]).
  repeat match goal with X : bool_decide _ = true |- _ => apply bool_decide_eq_true_1 in X end.
  by intros [].
Qed.

Ltac simpl_maps := repeat (rewrite lookup_insert_eq || rewrite lookup_insert_ne by done).

(** The writes of one asset's ignition. *)
Definition ignite_ops (p : AssetMonetaryPolicy) (asset : NativeAssetId) : WriteBatch :=
  [PutMaxSupply asset (mp_max_supply p)] ++
  (if bool_decide (asset = TLT) then [PutMaxLegacy (mp_max_supply p)] else []) ++
  [PutIssued asset (genesis_allocation p + treasury_allocation p)] ++
  (if bool_decide (asset = TLT)
   then [PutIssuedLegacy (genesis_allocation p + treasury_allocation p)] else []) ++
  [PutBurned asset 0] ++
  match emission p with StakingReserve r => [PutReserve asset r] | PowHalving _ _ => [] end.

Lemma ignite_run pol :
  (forall asset, policy_ints (policy pol asset)) -> validate_policy pol = Ok tt ->
  ignite_trident_supply [] pol =
    if is_pow (p_tlt pol)
    then Ok (ignite_ops (p_tlt pol) TLT ++ ignite_ops (p_ovl pol) OVL ++ ignite_ops (p_drc pol) DRC
             ++ [PutSchema 22; PutIndexMarker])
    else Err (InvalidTx "staking reserve only for OVL/DRC").
Proof.
  intros Hi Hv. pose proof (validate_policy_Ok _ Hv) as Hp.
  unfold ignite_trident_supply. rewrite Hv. cbn [lift_msg rbind].
  destruct (Hp TLT) as [HcT HaT], (Hp OVL) as [HcO HaO], (Hp DRC) as [HcD HaD].
  apply validate_caps_Ok in HcT as (_ & HT1 & HT2), HcO as (HO0 & HO1 & HO2), HcD as (HD0 & HD1 & HD2).
  rewrite HaO in HO0. rewrite HaD in HD0. specialize (HO0 ltac:(done)). specialize (HD0 ltac:(done)).
  destruct (Hi TLT) as (_ & _ & _ & HT3), (Hi OVL) as (_ & _ & _ & HO3), (Hi DRC) as (_ & _ & _ & HD3).
  cbn [all_assets rfold policy] in *.
  rewrite !saturating_add_exact by done.
  rewrite !(proj2 (Z.leb_le (genesis_allocation _ + treasury_allocation _) _))
    by (unfold in_u64 in *; lia).
  unfold is_pow, ignite_ops, emission_reserve in *.
  destruct (emission (p_tlt pol)), (emission (p_ovl pol)), (emission (p_drc pol)); try done.
Qed.

Lemma ignite_state pol s :
  (forall asset, policy_ints (policy pol asset)) ->
  (forall asset, validate_caps (policy pol asset) = Ok tt /\ mp_asset (policy pol asset) = asset) ->
  is_pow (p_tlt pol) = true ->
  let s' := write_batch s (ignite_ops (p_tlt pol) TLT ++ ignite_ops (p_ovl pol) OVL ++
              ignite_ops (p_drc pol) DRC ++ [PutSchema 22; PutIndexMarker]) in
  load_schema_version s' = 22 /\
  forall asset,
    let p := policy pol asset in let issued := genesis_allocation p + treasury_allocation p in
    load_native_supply_state s' asset =
      Ok {| nss_asset := asset; maximum_supply := mp_max_supply p; issued_supply := issued;
            burned_supply := 0; net_supply := issued |} /\
    (is_account_asset asset = true -> load_staking_reserve_remaining s' asset = emission_reserve p).
Proof.
  intros Hi Hp Hpow s'. split.
  { subst s'. rewrite !app_assoc, write_batch_app. by destruct (write_batch s _). }
  intros asset p issued. subst issued p.
  destruct (Hp OVL) as [(HpO & _)%validate_caps_Ok HaO], (Hp DRC) as [(HpD & _)%validate_caps_Ok HaD].
  rewrite HaO in HpO. rewrite HaD in HpD. specialize (HpO ltac:(done)). specialize (HpD ltac:(done)).
  destruct (Hi asset) as (_ & Hg & Ht & _). unfold in_u64 in Hg, Ht.
  unfold is_pow, emission_reserve, ignite_ops in *. subst s'. destruct s. cbn [policy] in *.
  destruct (emission (p_tlt pol)), (emission (p_ovl pol)) eqn:EO, (emission (p_drc pol)) eqn:ED; try done.
  unfold load_staking_reserve_remaining, load_native_supply_state, load_burned_supply,
    load_issued_supply, load_max_supply, checked_sub.
  destruct asset; simpl in *; simpl_maps; simpl;
    rewrite (proj2 (Z.leb_le 0 _)), Z.sub_0_r by lia; (split; [done|]); rewrite ?EO, ?ED; done.
Qed.

(** genesis ignition.  For a policy with [u64] fields, ignition succeeds
    exactly when the policy validates and TLT is mined; the store it writes
    (over any store) passes the supply invariants at schema 22, issues exactly
    the genesis and treasury allocations with nothing burned, and leaves room
    under every account asset's cap for its whole staking reserve. *)
Theorem ignition_correct (pol : TridentMonetaryPolicy) (s : StateStore) :
  (forall asset, policy_ints (policy pol asset)) ->
  (is_ok (ignite_trident_supply [] pol) = true <->
     validate_policy pol = Ok tt /\ is_pow (p_tlt pol) = true) /\
  forall b, ignite_trident_supply [] pol = Ok b ->
    let s' := write_batch s b in
    verify_supply_invariants s' = Ok tt /\ load_schema_version s' = 22 /\
    forall asset, let p := policy pol asset in
      let issued := genesis_allocation p + treasury_allocation p in
      load_native_supply_state s' asset =
        Ok {| nss_asset := asset; maximum_supply := mp_max_supply p; issued_supply := issued;
              burned_supply := 0; net_supply := issued |} /\
      (is_account_asset asset = true ->
         load_staking_reserve_remaining s' asset = emission_reserve p /\
         issued + load_staking_reserve_remaining s' asset <= mp_max_supply p).
Proof.
  intros Hi. split.
  - destruct (validate_policy pol) as [[]|e] eqn:Hv.
    + rewrite (ignite_run pol Hi Hv). destruct (is_pow (p_tlt pol)); simpl; naive_solver.
    + unfold ignite_trident_supply. rewrite Hv. simpl. naive_solver.
  - intros b Hb. destruct (validate_policy pol) as [[]|e] eqn:Hv;
      [|unfold ignite_trident_supply in Hb; by rewrite Hv in Hb].
    rewrite (ignite_run pol Hi Hv) in Hb. destruct (is_pow (p_tlt pol)) eqn:Hpow; [|done].
    apply Ok_inj in Hb. rewrite <- Hb. cbv zeta.
    pose proof (validate_policy_Ok _ Hv) as Hp.
    pose proof (ignite_state pol s Hi Hp Hpow) as [Hsch Hstate]. cbv zeta in Hstate.
    split; [|split; [exact Hsch|]].
    + apply verify_supply_invariants_iff. intros asset. destruct (Hstate asset) as [Hl _].
      eexists. split; [exact Hl|]. intros _. cbn [issued_supply maximum_supply].
      destruct (Hp asset) as [(_ & _ & Hc)%validate_caps_Ok _]. destruct (Hi asset) as (_ & _ & _ & Hr).
      unfold in_u64 in Hr. lia.
    + intros asset. destruct (Hstate asset) as [Hl Hr]. split; [exact Hl|].
      intros Ha. specialize (Hr Ha). split; [exact Hr|]. rewrite Hr.
      by destruct (Hp asset) as [(_ & _ & Hc)%validate_caps_Ok _].
Qed.
Lemma ignition_correct_witness :
  exists b, ignite_trident_supply [] default_monetary_policy = Ok b /\
    verify_supply_invariants (write_batch empty_store b) = Ok tt.
Proof.
  assert (forall asset, policy_ints (policy default_monetary_policy asset)) as Hi.
  { intros []; unfold policy_ints, in_u64; cbn -[Z.le]; unfold emission_reserve; cbn -[Z.le];
      vm_compute; intuition discriminate. }
  destruct (ignition_correct default_monetary_policy empty_store Hi) as [_ H].
  eexists. split; [reflexivity|]. apply H. reflexivity.
Defined.

(** ** The schema-20 migration *)

Lemma rfold_ensure_Ok {E A} (f : A -> bool) (e : A -> E) (l : list A) u :
  rfold (fun _ x => ensure (f x) (e x)) u l = Ok tt <-> Forall (fun x => f x = true) l.
Proof.
  revert u. induction l as [|x l IH]; intros []; simpl; [by split|].
  rewrite Forall_cons. destruct (f x); simpl; [rewrite IH; tauto|naive_solver].
Qed.

(** the fee-burn migration.  On a schema-19 datadir with no burn
    counters whose invariants hold it succeeds; the result is at schema 20,
    has every counter at zero, keeps all issued, maximum and net supplies and
    the invariants; and running the migration again changes nothing. *)
Theorem migration_correct (s : StateStore) :
  load_schema_version s = 19 -> (forall asset, st_burned s !! asset = None) ->
  verify_supply_invariants s = Ok tt ->
  exists s', migrate_drc_fee_burn_schema s = Ok s' /\
    load_schema_version s' = 20 /\ verify_supply_invariants s' = Ok tt /\
    migrate_drc_fee_burn_schema s' = Ok s' /\
    forall asset, load_native_supply_state s' asset = load_native_supply_state s asset.
Proof.
  intros Hv Hb Hok.
  set (s' := write_batch s [PutBurned TLT 0; PutBurned OVL 0; PutBurned DRC 0; PutSchema 20]).
  assert (migrate_drc_fee_burn_schema s = Ok s') as Hm.
  { unfold migrate_drc_fee_burn_schema. rewrite Hv, Hok. cbn -[rfold all_assets s'].
    rewrite (proj2 (rfold_ensure_Ok _ _ _ tt)); [done|].
    apply Forall_forall. intros x _. by apply bool_decide_eq_true_2. }
  assert (load_schema_version s' = 20) as Hv' by (subst s'; by destruct s).
  assert (forall asset, st_burned s' !! asset = Some 0) as Hb'.
  { subst s'. destruct s. simpl. intros []; by simpl_maps. }
  assert (forall asset, load_native_supply_state s' asset = load_native_supply_state s asset) as Hl.
  { intros asset. unfold load_native_supply_state, load_burned_supply. rewrite Hb', Hb, Hv.
    subst s'. destruct s. done. }
  assert (verify_supply_invariants s' = Ok tt) as Hok'.
  { apply verify_supply_invariants_iff. apply verify_supply_invariants_iff in Hok.
    intros asset. rewrite Hl, Hv'. specialize (Hok asset). rewrite Hv in Hok. by destruct asset. }
  exists s'. repeat (split; [assumption|]). split; [|exact Hl].
  unfold migrate_drc_fee_burn_schema. rewrite Hv', Hok'. cbn -[rfold all_assets s'].
  rewrite (proj2 (rfold_ensure_Ok _ _ _ tt)); [done|].
  apply Forall_forall. intros x _. apply bool_decide_eq_true_2. by rewrite Hb'.
Qed.
Definition schema19_store : StateStore :=
  write_batch empty_store [PutIssued DRC 1000; PutSchema 19].
Lemma migration_correct_witness :
  exists s', migrate_drc_fee_burn_schema schema19_store = Ok s' /\ load_schema_version s' = 20.
Proof.
  destruct (migration_correct schema19_store) as (s' & H1 & H2 & _);
    [vm_compute; reflexivity|intros []; vm_compute; reflexivity|vm_compute; reflexivity|].
  exists s'. split; assumption.
Defined.

Definition schema20_store : StateStore :=
  write_batch empty_store [PutIssued DRC 1000; PutBurned TLT 0; PutBurned OVL 0; PutBurned DRC 100;
                           PutSchema 20].
Lemma burn_fees_exact_witness :
  fee_burned DRC 900 schema20_store (write_batch schema20_store [PutBurned DRC 1000]).
Proof.
  eapply (burn_fees_exact schema20_store 900);
    try (vm_compute; reflexivity); unfold in_u64; cbn -[Z.le]; unfold u64_max; lia.
Defined.
