(* ===== verification/Accounts.v ===== *)
(** * Accounts, sequences and tickets

    The OVL and DRC account modules: [state-machine/src/accounts/mod.rs],
    the sequence selector of [types/src/drc_sequence.rs] and the one-use
    tickets of [types/src/drc_ticket.rs] and [state-machine/src/drc_ticket.rs].

    Authorization ([drc_account_auth.rs]) reads the store and the signed
    envelope and only accepts or rejects; it is a parameter here, and every
    theorem holds for any verifier.  A DRC account orders its operations by a
    nonce and by tickets: a ticket reserves the number after the creating
    nonce, and is consumed once, in any order. *)

From stdpp Require Import base gmap list fin_maps strings sorting.
From Stdlib Require Import ZArith Lia.
From S2P Require Import Prelude Ordering Sums Types Finality Store Supply.
Local Open Scope Z_scope.

(** ** Sequence selectors *)

Definition DRC_MAX_OUTSTANDING_TICKETS_PER_ACCOUNT : nat := 32.
Definition DRC_TICKET_STATE_VERSION : Z := 1.
Definition ACCOUNT_TRANSFER_DRC_TICKET_VERSION : Z := 3.

Inductive DrcAccountSequence := Nonce | Ticket.
#[export] Instance DrcAccountSequence_eq_dec : EqDecision DrcAccountSequence.
Proof. solve_decision. Defined.
Record DrcAccountSequenceSelector := { kind : DrcAccountSequence; value : Z }.

Inductive DrcAccountSequenceError := TicketSelectorOnLegacyVersion | MissingAccountSequence.
Definition sequence_error_msg (e : DrcAccountSequenceError) : string :=
  match e with
  | TicketSelectorOnLegacyVersion =>
      "ticket sequence selector requires a ticket-capable operation version"
  | MissingAccountSequence => "ticket-capable operation version requires account_sequence"
  end.

Definition resolve_drc_account_sequence (version ticket_capable_version nonce : Z)
  (account_sequence : option DrcAccountSequenceSelector)
  : result DrcAccountSequenceError DrcAccountSequenceSelector :=
  if ticket_capable_version <=? version then ok_or MissingAccountSequence account_sequence
  else match account_sequence with
       | Some {| kind := Ticket |} => Err TicketSelectorOnLegacyVersion
       | _ => Ok {| kind := Nonce; value := nonce |}
       end.
Definition lift_sequence {A} (r : result DrcAccountSequenceError A) : result StateError A :=
  match r with Ok a => Ok a | Err e => Err (InvalidTx (sequence_error_msg e)) end.

(** ** Accounts *)

Definition load_account (s : StateStore) (asset : NativeAssetId) (a : Address)
  : result StateError AccountState :=
  ensure (negb (bool_decide (asset = TLT))) (InvalidTx "TLT uses UTXO module, not account module") ;?
  Ok (default default_account (st_accounts s !! (asset, a))).
Definition account_exists (s : StateStore) (asset : NativeAssetId) (a : Address)
  : result StateError bool :=
  ensure (negb (bool_decide (asset = TLT))) (InvalidTx "TLT uses UTXO module, not account module") ;?
  Ok (bool_decide (is_Some (st_accounts s !! (asset, a)))).
Definition put_account_into (b : WriteBatch) (asset : NativeAssetId) (a : Address) (st : AccountState)
  : result StateError WriteBatch :=
  ensure (negb (bool_decide (asset = TLT))) (InvalidTx "TLT uses UTXO module, not account module") ;?
  Ok (b ++ [PutAccount asset a st]).

Definition credit_account_into (b : WriteBatch) (s : StateStore) (asset : NativeAssetId)
  (a : Address) (amount : Z) : result StateError WriteBatch :=
  ensure (negb (amount =? 0)) (InvalidTx "zero credit") ;?
  let? acct := load_account s asset a in
  let? bal := ok_or (InvalidTx "balance overflow") (checked_add u64_max (balance acct) amount) in
  put_account_into b asset a {| balance := bal; nonce := nonce acct |}.

Definition genesis_credit (s : StateStore) (b : WriteBatch) (asset : NativeAssetId) (a : Address)
  (amount : Z) : result StateError WriteBatch :=
  let? b := credit_account_into b s asset a amount in
  let issued := load_issued_supply s asset in
  let? next := ok_or SupplyCapExceeded (checked_add u64_max issued amount) in
  Ok (put_issued_supply_into b asset next).

(** [AccountJournal]: account states before each change, oldest first. *)
Abbreviation AccountJournal := (list (NativeAssetId * Address * AccountState)) (only parsing).
Definition revert_account_journal_into (b : WriteBatch) (j : AccountJournal)
  : result StateError WriteBatch :=
  rfold (fun b e => put_account_into b e.1.1 e.1.2 e.2) b (reverse j).

(** ** Tickets *)

Fixpoint strictly_increasing (l : list Z) : bool :=
  match l with
  | x :: (y :: _) as l' => (x <? y) && strictly_increasing l'
  | _ => true
  end.
Definition validate_tickets (r : DrcAccountTickets) : result string unit :=
  ensure (at_version r =? DRC_TICKET_STATE_VERSION) "unsupported DRC ticket state version"%string ;?
  ensure (negb (at_owner r =? 0)) "zero DRC ticket owner"%string ;?
  ensure (Nat.leb (length (at_sequences r)) DRC_MAX_OUTSTANDING_TICKETS_PER_ACCOUNT)
    "DRC outstanding ticket cap exceeded"%string ;?
  ensure (strictly_increasing (at_sequences r)) "unsorted DRC ticket sequences in state"%string.
Definition lift_storage {A} (r : result string A) : result StateError A :=
  match r with Ok a => Ok a | Err msg => Err (Storage msg) end.

Definition load_drc_account_tickets (s : StateStore) (owner : Address)
  : result StateError (list Z) :=
  match st_tickets s !! owner with
  | None => Ok []
  | Some r =>
      lift_storage (validate_tickets r) ;?
      ensure (at_owner r =? owner) (Storage "DRC ticket record does not match index key") ;?
      Ok (at_sequences r)
  end.
Definition put_tickets_into (b : WriteBatch) (owner : Address) (sequences : list Z)
  : result StateError WriteBatch :=
  match sequences with
  | [] => Ok (b ++ [Delete (KTickets owner)])
  | _ =>
      let r := {| at_version := DRC_TICKET_STATE_VERSION; at_owner := owner;
                  at_sequences := sequences |} in
      lift_msg (validate_tickets r) ;?
      Ok (b ++ [PutTickets owner r])
  end.

Inductive DrcSequenceConsumption := AdvanceNonce | ConsumeTicket (sequence : Z).
Definition validate_drc_account_sequence (s : StateStore) (owner : Address)
  (sel : DrcAccountSequenceSelector) : result StateError DrcSequenceConsumption :=
  match kind sel with
  | Nonce =>
      let? acct := load_account s DRC owner in
      ensure (nonce acct =? value sel) (InvalidTx "bad DRC account nonce") ;?
      Ok AdvanceNonce
  | Ticket =>
      let? tickets := load_drc_account_tickets s owner in
      ensure (bool_decide (value sel ∈ tickets)) (InvalidTx "unknown DRC ticket sequence") ;?
      Ok (ConsumeTicket (value sel))
  end.

(** The batch and the account after the sequence is consumed. *)
Definition finish_drc_account_sequence (b : WriteBatch) (owner : Address) (acct : AccountState)
  (c : DrcSequenceConsumption) (tickets_before : list Z)
  : result StateError (WriteBatch * AccountState) :=
  match c with
  | AdvanceNonce =>
      let? n := ok_or (InvalidTx "DRC account nonce overflow") (checked_add u64_max (nonce acct) 1) in
      Ok (b, {| balance := balance acct; nonce := n |})
  | ConsumeTicket seq =>
      let next := sort_by Z.compare (filter (fun t => t <> seq) tickets_before) in
      let? b := put_tickets_into b owner next in
      Ok (b, acct)
  end.

Definition begin_drc_account_sequence (s : StateStore) (owner : Address)
  (sel : DrcAccountSequenceSelector) : result StateError (DrcSequenceConsumption * list Z) :=
  let? tickets_before := load_drc_account_tickets s owner in
  let? consumption := validate_drc_account_sequence s owner sel in
  Ok (consumption, tickets_before).

(** ** Transactions *)

Record AccountTransfer := {
  at_tx_version : Z;
  at_asset : NativeAssetId;
  at_from : Address;
  at_to : Address;
  at_amount : Z;
  at_fee : Z;
  at_nonce : Z;
  at_account_sequence : option DrcAccountSequenceSelector;
  at_public_key : list Z;
  at_tx_signature : list Z;
}.
Record DrcTicketCreateTx := {
  tc_version : Z;
  tc_owner : Address;
  tc_fee : Z;
  tc_nonce : Z;
  tc_public_key : list Z;
  tc_signature : list Z;
}.

Section accounts.
(** [TxAuthContext], and the verifiers of [drc_account_auth.rs]. *)
Context {Auth : Type}.
Variable verify_drc_account_transfer_operation :
  StateStore -> AccountTransfer -> Auth -> result StateError unit.
Variable verify_drc_ticket_create_operation :
  StateStore -> DrcTicketCreateTx -> Auth -> result StateError unit.

Definition check_transfer_auth (s : StateStore) (tx : AccountTransfer) (auth : option Auth)
  : result StateError unit :=
  match auth with
  | Some ctx => verify_drc_account_transfer_operation s tx ctx
  | None =>
      ensure (bool_decide (at_public_key tx = []) && bool_decide (at_tx_signature tx = []))
        (InvalidTx "account transfer requires network-bound auth")
  end.

Definition apply_account_transfer_checked (s : StateStore) (tx : AccountTransfer)
  (auth : option Auth) (b : WriteBatch) (j : AccountJournal)
  : result StateError (WriteBatch * AccountJournal) :=
  ensure (negb (bool_decide (at_asset tx = TLT))) (InvalidTx "cannot account-transfer TLT") ;?
  ensure (is_account_asset (at_asset tx)) (InvalidTx "unknown native asset") ;?
  ensure (negb (at_amount tx =? 0)) (InvalidTx "zero transfer") ;?
  ensure (negb (at_from tx =? at_to tx)) (InvalidTx "self-transfer forbidden") ;?
  check_transfer_auth s tx auth ;?
  ensure (negb ((ACCOUNT_TRANSFER_DRC_TICKET_VERSION <=? at_tx_version tx) &&
                negb (bool_decide (at_asset tx = DRC))))
    (InvalidTx "ticket-aware account transfer is DRC-only") ;?
  let? from := load_account s (at_asset tx) (at_from tx) in
  let? to := load_account s (at_asset tx) (at_to tx) in
  let? sequence_ctx :=
    (if bool_decide (at_asset tx = DRC) then
       let? sel := lift_sequence (resolve_drc_account_sequence (at_tx_version tx)
         ACCOUNT_TRANSFER_DRC_TICKET_VERSION (at_nonce tx) (at_account_sequence tx)) in
       let? ctx := begin_drc_account_sequence s (at_from tx) sel in
       Ok (Some ctx)
     else
       ensure (nonce from =? at_nonce tx) (InvalidTx "bad nonce") ;?
       Ok None) in
  let? new_to := ok_or (InvalidTx "recipient overflow")
    (checked_add u64_max (balance to) (at_amount tx)) in
  let? debit := ok_or (InvalidTx "amount+fee overflow")
    (checked_add u64_max (at_amount tx) (at_fee tx)) in
  ensure (debit <=? balance from) (InvalidTx "insufficient account balance") ;?
  let j := j ++ [(at_asset tx, at_from tx, from); (at_asset tx, at_to tx, to)] in
  let debited := {| balance := balance from - debit; nonce := nonce from |} in
  let? (b, from') :=
    match sequence_ctx with
    | Some (consumption, tickets_before) =>
        finish_drc_account_sequence b (at_from tx) debited consumption tickets_before
    | None =>
        let? n := ok_or (InvalidTx "nonce overflow") (checked_add u64_max (nonce from) 1) in
        Ok (b, {| balance := balance debited; nonce := n |})
    end in
  let? b := put_account_into b (at_asset tx) (at_from tx) from' in
  let? b := put_account_into b (at_asset tx) (at_to tx) {| balance := new_to; nonce := nonce to |} in
  Ok (b, j).

Definition apply_drc_ticket_create (s : StateStore) (tx : DrcTicketCreateTx) (auth : Auth)
  (b : WriteBatch) (j : AccountJournal)
  : result StateError (Z * WriteBatch * AccountJournal) :=
  verify_drc_ticket_create_operation s tx auth ;?
  let? owner := load_account s DRC (tc_owner tx) in
  ensure (nonce owner =? tc_nonce tx) (InvalidTx "bad DRC ticket-create nonce") ;?
  ensure (tc_fee tx <=? balance owner) (InvalidTx "insufficient DRC ticket-create balance") ;?
  let? ticket_sequence := ok_or (InvalidTx "DRC ticket sequence overflow")
    (checked_add u64_max (tc_nonce tx) 1) in
  let? next_nonce := ok_or (InvalidTx "DRC ticket-create nonce overflow")
    (checked_add u64_max ticket_sequence 1) in
  let? tickets := load_drc_account_tickets s (tc_owner tx) in
  ensure (negb (bool_decide (ticket_sequence ∈ tickets)))
    (InvalidTx "duplicate DRC ticket sequence") ;?
  ensure (Nat.ltb (length tickets) DRC_MAX_OUTSTANDING_TICKETS_PER_ACCOUNT)
    (InvalidTx "DRC outstanding ticket cap exceeded") ;?
  let tickets := sort_by Z.compare (tickets ++ [ticket_sequence]) in
  let j := j ++ [(DRC, tc_owner tx, owner)] in
  let? b := put_account_into b DRC (tc_owner tx)
    {| balance := balance owner - tc_fee tx; nonce := next_nonce |} in
  let? b := put_tickets_into b (tc_owner tx) tickets in
  Ok (ticket_sequence, b, j).
End accounts.

(** ** Reading the store after a batch *)

Definition acct_of (s : StateStore) (asset : NativeAssetId) (a : Address) : AccountState :=
  default default_account (st_accounts s !! (asset, a)).
Lemma load_account_Ok s asset a acct :
  load_account s asset a = Ok acct <-> asset <> TLT /\ acct = acct_of s asset a.
Proof.
  unfold load_account, acct_of. case_bool_decide; simpl; [naive_solver|].
  split; [intros [= <-]; done|intros [_ ->]; done].
Qed.
Lemma load_account_acct s asset a : asset <> TLT -> load_account s asset a = Ok (acct_of s asset a).
Proof. intros Ha. by apply load_account_Ok. Qed.
Lemma put_account_into_Ok b asset a st b' :
  put_account_into b asset a st = Ok b' <-> asset <> TLT /\ b' = b ++ [PutAccount asset a st].
Proof.
  unfold put_account_into. case_bool_decide; simpl; [naive_solver|].
  split; [intros [= <-]; done|intros [_ ->]; done].
Qed.
Lemma acct_of_put s x a v y c :
  acct_of (apply_op s (PutAccount x a v)) y c =
    if bool_decide ((y, c) = (x, a)) then v else acct_of s y c.
Proof.
  unfold acct_of. destruct s; simpl. case_bool_decide as E.
  - rewrite E. by rewrite lookup_insert_eq.
  - by rewrite lookup_insert_ne by congruence.
Qed.
(** Writes to other families leave the accounts alone. *)
Definition is_account_op (op : WriteOp) : bool :=
  match op_key op with KAccount _ _ => true | _ => false end.
Definition is_ticket_op (op : WriteOp) : bool :=
  match op_key op with KTickets _ => true | _ => false end.
Lemma accounts_frame s b :
  Forall (fun op => is_account_op op = false) b -> st_accounts (write_batch s b) = st_accounts s.
Proof.
  revert s. induction b as [|op b IH]; intros s Hb; [done|]. apply Forall_cons in Hb as [Hop Hb].
  simpl. rewrite IH by done. destruct s, op as [| | | | | | | | | | | | | | | | | | | | []]; done.
Qed.
Lemma tickets_frame s b :
  Forall (fun op => is_ticket_op op = false) b -> st_tickets (write_batch s b) = st_tickets s.
Proof.
  revert s. induction b as [|op b IH]; intros s Hb; [done|]. apply Forall_cons in Hb as [Hop Hb].
  simpl. rewrite IH by done. destruct s, op as [| | | | | | | | | | | | | | | | | | | | []]; done.
Qed.

(** Total liquid balance of an asset. *)
Definition liquid (asset : NativeAssetId) (s : StateStore) : Z :=
  msum (fun k v => if bool_decide (k.1 = asset) then balance v else 0) (st_accounts s).
Lemma liquid_put s x a v y :
  liquid y (apply_op s (PutAccount x a v)) =
    liquid y s + (if bool_decide (x = y) then balance v - balance (acct_of s x a) else 0).
Proof.
  unfold liquid, acct_of. destruct s; simpl. rewrite msum_insert. simpl.
  destruct (_ !! (x, a)) as [w|]; simpl; case_bool_decide; simpl; lia.
Qed.
Lemma liquid_frame y s b :
  Forall (fun op => is_account_op op = false) b -> liquid y (write_batch s b) = liquid y s.
Proof. intros Hb. unfold liquid. by rewrite accounts_frame. Qed.

(** ** How an operation uses its sequence number *)

Inductive seq_effect (s : StateStore) (owner : Address) (n : Z) :
  DrcAccountSequenceSelector -> WriteBatch -> Z -> Prop :=
| seq_nonce :
    n + 1 <= u64_max -> seq_effect s owner n {| kind := Nonce; value := n |} [] (n + 1)
| seq_ticket t tickets ops :
    load_drc_account_tickets s owner = Ok tickets -> t ∈ tickets ->
    put_tickets_into [] owner (sort_by Z.compare (filter (fun x => x <> t) tickets)) = Ok ops ->
    seq_effect s owner n {| kind := Ticket; value := t |} ops n.

Lemma put_tickets_into_app b owner l :
  put_tickets_into b owner l = let? ops := put_tickets_into [] owner l in Ok (b ++ ops).
Proof. destruct l; simpl; [done|]. by destruct (lift_msg _). Qed.
Lemma put_tickets_into_keys owner l ops :
  put_tickets_into [] owner l = Ok ops -> exists op, ops = [op] /\ op_key op = KTickets owner.
Proof.
  destruct l; simpl.
  - intros [= <-]. by eexists.
  - intros H. apply rbind_Ok in H as (_ & _ & [= <-]). by eexists.
Qed.
Lemma seq_effect_keys s owner n0 sel ops n :
  seq_effect s owner n0 sel ops n -> Forall (fun op => op_key op = KTickets owner) ops.
Proof.
  destruct 1 as [|t tk ops _ _ Hp]; [done|].
  apply put_tickets_into_keys in Hp as (op & -> & Hk). by constructor.
Qed.

Lemma sequence_run s owner sel c tb b acct b' acct' :
  begin_drc_account_sequence s owner sel = Ok (c, tb) ->
  nonce acct = nonce (acct_of s DRC owner) ->
  finish_drc_account_sequence b owner acct c tb = Ok (b', acct') ->
  exists ops n', b' = b ++ ops /\ acct' = {| balance := balance acct; nonce := n' |} /\
    seq_effect s owner (nonce acct) sel ops n'.
Proof.
  unfold begin_drc_account_sequence, validate_drc_account_sequence. intros Hb Hn Hf.
  apply rbind_Ok in Hb as (tickets & Ht & Hb). apply rbind_Ok in Hb as (c' & Hc & [= -> ->]).
  destruct sel as [[] v]; cbn [kind value] in Hc.
  - apply rbind_Ok in Hc as (a & [_ ->]%load_account_Ok & Hc).
    apply rbind_Ok in Hc as (_ & Hv%ensure_Ok & [= <-]). apply Z.eqb_eq in Hv. simpl in Hf.
    apply rbind_Ok in Hf as (n & Hadd%ok_or_Ok & [= <- <-]). apply checked_add_Some in Hadd as [-> Hle].
    exists [], (nonce acct + 1). rewrite app_nil_r. repeat split. rewrite <- Hv, <- Hn. by constructor.
  - rewrite Ht in Hc. simpl in Hc. apply rbind_Ok in Hc as (_ & Hv%ensure_Ok & [= <-]).
    apply bool_decide_eq_true_1 in Hv. simpl in Hf. rewrite put_tickets_into_app in Hf.
    apply rbind_Ok in Hf as (b0 & Hp & [= <- <-]). apply rbind_Ok in Hp as (ops & Hp & [= <-]).
    exists ops, (nonce acct). destruct acct. repeat split. by econstructor.
Qed.

(** ** The ticket set of an account *)

Lemma strictly_increasing_sorted l :
  strictly_increasing l = true <-> StronglySorted Z.lt l.
Proof.
  induction l as [|x [|y l] IH].
  - split; [constructor|done].
  - split; [by repeat constructor|done].
  - cbn [strictly_increasing]. fold (strictly_increasing (y :: l)).
    rewrite andb_true_iff, Z.ltb_lt, IH. split.
    + intros [Hxy Hs]. constructor; [done|]. apply StronglySorted_inv in Hs as [_ Hy].
      constructor; [done|]. eapply Forall_impl; [exact Hy|]. intros z Hz. simpl in Hz. lia.
    + intros [Hs Hx]%StronglySorted_inv. split; [|done]. by apply Forall_cons in Hx as [? _].
Qed.
Lemma strictly_increasing_nodup l : strictly_increasing l = true -> NoDup l.
Proof.
  rewrite strictly_increasing_sorted. induction 1 as [|x l _ IH Hx]; constructor; [|done].
  intros Hin. rewrite Forall_forall in Hx. specialize (Hx x Hin). lia.
Qed.
Lemma sort_strictly_increasing l : NoDup l -> strictly_increasing (sort_by Z.compare l) = true.
Proof.
  intros Hd. apply strictly_increasing_sorted.
  pose proof (NoDup_sort_by Z.compare l Hd) as Hd'. pose proof (sort_by_sorted Z.compare l) as Hs.
  induction Hs as [|x k _ IH Hx]; constructor; apply NoDup_cons in Hd' as [Hnin Hd']; [by apply IH|].
  rewrite Forall_forall in *. intros y Hy. specialize (Hx y Hy). unfold cmp_le in Hx.
  destruct (Z.compare_spec x y); [subst; done|done|done].
Qed.

Definition tickets_of (s : StateStore) (owner : Address) : list Z :=
  match st_tickets s !! owner with Some r => at_sequences r | None => [] end.

Lemma validate_tickets_Ok r :
  validate_tickets r = Ok tt <->
  at_version r = 1 /\ at_owner r <> 0 /\ (length (at_sequences r) <= 32)%nat /\
  strictly_increasing (at_sequences r) = true.
Proof.
  unfold validate_tickets, DRC_TICKET_STATE_VERSION, DRC_MAX_OUTSTANDING_TICKETS_PER_ACCOUNT.
  destruct (Z.eqb_spec (at_version r) 1); simpl; [|naive_solver].
  destruct (Z.eqb_spec (at_owner r) 0); simpl; [naive_solver|].
  destruct (Nat.leb_spec (length (at_sequences r)) 32); simpl; [|naive_solver lia].
  destruct (strictly_increasing _); simpl; naive_solver.
Qed.

(** Writing a ticket set that fits, and reading it back. *)
Lemma put_tickets_total owner l :
  owner <> 0 -> NoDup l -> (length l <= 32)%nat ->
  exists ops, put_tickets_into [] owner (sort_by Z.compare l) = Ok ops.
Proof.
  intros Ho Hd Hl. unfold put_tickets_into. destruct (sort_by Z.compare l) as [|x k] eqn:E; [by eexists|].
  rewrite <- E. rewrite (proj2 (validate_tickets_Ok _)); [by eexists|]. simpl.
  rewrite length_sort_by. auto using sort_strictly_increasing.
Qed.
Lemma put_tickets_read s owner l ops o :
  put_tickets_into [] owner l = Ok ops ->
  tickets_of (write_batch s ops) o = (if bool_decide (o = owner) then l else tickets_of s o) /\
  st_tickets (write_batch s ops) !! o =
    (if bool_decide (o = owner)
     then match l with [] => None
          | _ => Some {| at_version := 1; at_owner := owner; at_sequences := l |} end
     else st_tickets s !! o) /\
  (l <> [] -> validate_tickets {| at_version := 1; at_owner := owner; at_sequences := l |} = Ok tt).
Proof.
  unfold put_tickets_into, tickets_of. destruct l as [|x l]; intros H.
  - injection H as <-. destruct s; simpl. case_bool_decide as E; [subst; by rewrite lookup_delete_eq|].
    by rewrite lookup_delete_ne by congruence.
  - apply rbind_Ok in H as ([] & Hv & [= <-]).
    assert (validate_tickets {| at_version := 1; at_owner := owner; at_sequences := x :: l |} = Ok tt) as Hv'.
    { unfold lift_msg, DRC_TICKET_STATE_VERSION in Hv. by destruct (validate_tickets _) as [[]|]. }
    destruct s; simpl. case_bool_decide as E; [subst; by rewrite lookup_insert_eq|].
    by rewrite lookup_insert_ne by congruence.
Qed.

(** ** The account invariant *)

Record accounts_ok (s : StateStore) : Prop := {
  ao_ints x a : in_u64 (balance (acct_of s x a)) /\ in_u64 (nonce (acct_of s x a));
  ao_tickets owner r : st_tickets s !! owner = Some r -> validate_tickets r = Ok tt /\ at_owner r = owner;
  ao_fresh owner t : t ∈ tickets_of s owner -> 0 <= t < nonce (acct_of s DRC owner);
}.

Lemma load_tickets_ok s owner :
  accounts_ok s -> load_drc_account_tickets s owner = Ok (tickets_of s owner).
Proof.
  intros Hok. unfold load_drc_account_tickets, tickets_of.
  destruct (st_tickets s !! owner) as [r|] eqn:E; [|done].
  destruct (ao_tickets _ Hok _ _ E) as [-> Ho]. simpl. by rewrite Ho, Z.eqb_refl.
Qed.
Lemma tickets_of_facts s owner :
  accounts_ok s -> NoDup (tickets_of s owner) /\ (length (tickets_of s owner) <= 32)%nat /\
    (tickets_of s owner <> [] -> owner <> 0).
Proof.
  intros Hok. unfold tickets_of. destruct (st_tickets s !! owner) as [r|] eqn:E; [|simpl; split; [constructor|split; [lia|done]]].
  destruct (ao_tickets _ Hok _ _ E) as [(_ & Hz & Hl & Hs)%validate_tickets_Ok <-].
  auto using strictly_increasing_nodup.
Qed.

(** What a consumed sequence does to the ticket sets. *)
Lemma seq_effect_tickets s owner sel ops n o :
  accounts_ok s -> seq_effect s owner (nonce (acct_of s DRC owner)) sel ops n ->
  tickets_of (write_batch s ops) o =
    if bool_decide (o = owner) then
      match kind sel with
      | Nonce => tickets_of s owner
      | Ticket => sort_by Z.compare (filter (fun x => x <> value sel) (tickets_of s owner))
      end
    else tickets_of s o.
Proof.
  intros Hok Hs. destruct Hs as [Hle|t tk ops Hl Hin Hp]; simpl.
  - by case_bool_decide; subst.
  - rewrite load_tickets_ok in Hl by done. injection Hl as <-.
    by destruct (put_tickets_read s owner _ ops o Hp) as [-> _].
Qed.

Lemma seq_effect_store s owner sel ops n n0 o r :
  accounts_ok s -> seq_effect s owner n0 sel ops n ->
  st_tickets (write_batch s ops) !! o = Some r -> validate_tickets r = Ok tt /\ at_owner r = o.
Proof.
  intros Hok Hs. destruct Hs as [Hle|t tk ops Hl Hin Hp]; [by apply (ao_tickets _ Hok)|].
  destruct (put_tickets_read s owner _ ops o Hp) as (_ & -> & Hv).
  case_bool_decide as E; [subst o|by apply (ao_tickets _ Hok)].
  destruct (sort_by Z.compare _) as [|x k]; [done|]. intros [= <-]. split; [by apply Hv|done].
Qed.

(** ** Transfers and ticket creation, branch by branch *)

Definition transfer_selector (tx : AccountTransfer)
  : result DrcAccountSequenceError DrcAccountSequenceSelector :=
  if bool_decide (at_asset tx = DRC)
  then resolve_drc_account_sequence (at_tx_version tx) ACCOUNT_TRANSFER_DRC_TICKET_VERSION
         (at_nonce tx) (at_account_sequence tx)
  else Ok {| kind := Nonce; value := at_nonce tx |}.
Definition seq_ready (s : StateStore) (asset : NativeAssetId) (owner : Address)
  (sel : DrcAccountSequenceSelector) : Prop :=
  match kind sel with
  | Nonce => value sel = nonce (acct_of s asset owner) /\ nonce (acct_of s asset owner) + 1 <= u64_max
  | Ticket => value sel ∈ tickets_of s owner
  end.
Definition transfer_ready (s : StateStore) (tx : AccountTransfer) : Prop :=
  is_account_asset (at_asset tx) = true /\ at_amount tx <> 0 /\ at_from tx <> at_to tx /\
  (3 <= at_tx_version tx -> at_asset tx = DRC) /\
  (exists sel, transfer_selector tx = Ok sel /\ seq_ready s (at_asset tx) (at_from tx) sel) /\
  balance (acct_of s (at_asset tx) (at_to tx)) + at_amount tx <= u64_max /\
  at_amount tx + at_fee tx <= balance (acct_of s (at_asset tx) (at_from tx)).

(** The writes of an accepted transfer. *)
Definition transfer_writes (s : StateStore) (tx : AccountTransfer) (ops : WriteBatch) (n' : Z)
  : WriteBatch :=
  let from := acct_of s (at_asset tx) (at_from tx) in
  let to := acct_of s (at_asset tx) (at_to tx) in
  ops ++ [PutAccount (at_asset tx) (at_from tx)
            {| balance := balance from - (at_amount tx + at_fee tx); nonce := n' |};
          PutAccount (at_asset tx) (at_to tx)
            {| balance := balance to + at_amount tx; nonce := nonce to |}].
Definition transfer_journal (s : StateStore) (tx : AccountTransfer) : AccountJournal :=
  [(at_asset tx, at_from tx, acct_of s (at_asset tx) (at_from tx));
   (at_asset tx, at_to tx, acct_of s (at_asset tx) (at_to tx))].

Lemma is_account_asset_spec x : is_account_asset x = true <-> x <> TLT.
Proof. by destruct x. Qed.

(** A sequence that is ready can be begun and finished. *)
Lemma sequence_total s owner sel b acct :
  accounts_ok s -> seq_ready s DRC owner sel -> nonce acct = nonce (acct_of s DRC owner) ->
  exists c tb r, begin_drc_account_sequence s owner sel = Ok (c, tb) /\
    finish_drc_account_sequence b owner acct c tb = Ok r.
Proof.
  intros Hok Hr Hn. unfold begin_drc_account_sequence. rewrite load_tickets_ok by done. cbn [rbind].
  unfold validate_drc_account_sequence. rewrite load_tickets_ok by done.
  destruct sel as [[] v]; unfold seq_ready in Hr; cbn [kind value] in *.
  - destruct Hr as [Hv Hle]. rewrite load_account_acct by done. cbn [rbind value] in *.
    rewrite Hv, Z.eqb_refl. simpl. do 3 eexists. split; [done|]. simpl.
    rewrite Hn. unfold checked_add. by rewrite (proj2 (Z.leb_le _ _) Hle).
  - rename Hr into Hv. cbn [rbind]. rewrite bool_decide_eq_true_2 by done. simpl.
    destruct (tickets_of_facts s owner Hok) as (Hd & Hl & Ho).
    destruct (put_tickets_total owner (filter (fun x => x <> v) (tickets_of s owner))) as [ops Hops].
    + apply Ho. by destruct (tickets_of s owner); [apply elem_of_nil in Hv|].
    + by apply NoDup_filter.
    + etransitivity; [apply length_filter|done].
    + do 3 eexists. split; [done|]. simpl. by rewrite put_tickets_into_app, Hops.
Qed.

Lemma seq_effect_nonce s owner n sel ops n' :
  seq_effect s owner n sel ops n' -> in_u64 n -> n <= n' /\ in_u64 n'.
Proof. destruct 1; unfold in_u64; lia. Qed.
Lemma seq_effect_frame s owner n sel ops n' :
  seq_effect s owner n sel ops n' -> Forall (fun op => is_account_op op = false) ops.
Proof.
  intros H%seq_effect_keys. eapply Forall_impl; [exact H|]. unfold is_account_op. by intros op ->.
Qed.
Lemma acct_of_frame s b x a :
  Forall (fun op => is_account_op op = false) b -> acct_of (write_batch s b) x a = acct_of s x a.
Proof. intros Hb. unfold acct_of. by rewrite accounts_frame. Qed.

(** A step preserves the invariant when tickets are only dropped or freshly
    numbered and nonces do not go back. *)
Lemma accounts_ok_step s s' :
  accounts_ok s ->
  (forall x a, in_u64 (balance (acct_of s' x a)) /\ in_u64 (nonce (acct_of s' x a))) ->
  (forall o r, st_tickets s' !! o = Some r -> validate_tickets r = Ok tt /\ at_owner r = o) ->
  (forall o t, t ∈ tickets_of s' o -> t ∈ tickets_of s o \/ 0 <= t < nonce (acct_of s' DRC o)) ->
  (forall o, nonce (acct_of s DRC o) <= nonce (acct_of s' DRC o)) ->
  accounts_ok s'.
Proof.
  intros Hok Hi Ht Hf Hn. split; [done|done|]. intros o t [Hin|?]%Hf; [|done].
  pose proof (ao_fresh _ Hok _ _ Hin). specialize (Hn o). lia.
Qed.

Section accounts_spec.
Context {Auth : Type}.
Variable verify_transfer : StateStore -> AccountTransfer -> Auth -> result StateError unit.
Variable verify_ticket : StateStore -> DrcTicketCreateTx -> Auth -> result StateError unit.
Implicit Types (s : StateStore).

Lemma transfer_inv s tx auth b j b' j' :
  apply_account_transfer_checked verify_transfer s tx auth b j = Ok (b', j') ->
  exists sel ops n',
    check_transfer_auth verify_transfer s tx auth = Ok tt /\
    at_asset tx <> TLT /\ at_amount tx <> 0 /\ at_from tx <> at_to tx /\
    (3 <= at_tx_version tx -> at_asset tx = DRC) /\
    transfer_selector tx = Ok sel /\
    seq_effect s (at_from tx) (nonce (acct_of s (at_asset tx) (at_from tx))) sel ops n' /\
    (kind sel = Ticket -> at_asset tx = DRC) /\
    balance (acct_of s (at_asset tx) (at_to tx)) + at_amount tx <= u64_max /\
    at_amount tx + at_fee tx <= balance (acct_of s (at_asset tx) (at_from tx)) /\
    b' = b ++ transfer_writes s tx ops n' /\ j' = j ++ transfer_journal s tx.
Proof.
  unfold apply_account_transfer_checked. intros H.
  apply rbind_Ok in H as (_ & Ht%ensure_Ok & H). apply negb_true_iff, bool_decide_eq_false_1 in Ht.
  apply rbind_Ok in H as (_ & _ & H).
  apply rbind_Ok in H as (_ & Ha%ensure_Ok & H). apply negb_true_iff, Z.eqb_neq in Ha.
  apply rbind_Ok in H as (_ & Hft%ensure_Ok & H). apply negb_true_iff, Z.eqb_neq in Hft.
  apply rbind_Ok in H as ([] & Hauth & H).
  apply rbind_Ok in H as (_ & Hver%ensure_Ok & H).
  apply rbind_Ok in H as (from & [_ ->]%load_account_Ok & H).
  apply rbind_Ok in H as (to & [_ ->]%load_account_Ok & H).
  apply rbind_Ok in H as (sq & Hsq & H).
  apply rbind_Ok in H as (nt & Hnt%ok_or_Ok & H). apply checked_add_Some in Hnt as [-> Hto].
  apply rbind_Ok in H as (db & Hdb%ok_or_Ok & H). apply checked_add_Some in Hdb as [-> _].
  apply rbind_Ok in H as (_ & Hfunds%ensure_Ok & H). apply Z.leb_le in Hfunds.
  apply rbind_Ok in H as ([b1 from'] & Hfin & H).
  apply rbind_Ok in H as (b2 & [_ ->]%put_account_into_Ok & H).
  apply rbind_Ok in H as (b3 & [_ ->]%put_account_into_Ok & [= <- <-]).
  assert (3 <= at_tx_version tx -> at_asset tx = DRC) as Hver'.
  { intros Hv%Z.leb_le. unfold ACCOUNT_TRANSFER_DRC_TICKET_VERSION in Hver. rewrite Hv in Hver.
    case_bool_decide; done. }
  assert (exists sel ops n', transfer_selector tx = Ok sel /\
    seq_effect s (at_from tx) (nonce (acct_of s (at_asset tx) (at_from tx))) sel ops n' /\
    (kind sel = Ticket -> at_asset tx = DRC) /\ b1 = b ++ ops /\
    from' = {| balance := balance (acct_of s (at_asset tx) (at_from tx)) - (at_amount tx + at_fee tx);
               nonce := n' |}) as (sel & ops & n' & Hsel & Heff & Htk & -> & ->).
  { unfold transfer_selector. case_bool_decide as Hdrc.
    - apply rbind_Ok in Hsq as (sel & Hsel & Hsq). apply rbind_Ok in Hsq as ([c tb] & Hbeg & [= <-]).
      apply (sequence_run _ _ _ _ _ _ _ _ _ Hbeg) in Hfin as (ops & n' & -> & -> & Heff);
        [|simpl; by rewrite Hdrc].
      exists sel, ops, n'. split; [|done].
      unfold lift_sequence in Hsel. destruct (resolve_drc_account_sequence _ _ _ _); [|done].
      by injection Hsel as ->.
    - apply rbind_Ok in Hsq as (_ & Hn%ensure_Ok & [= <-]). apply Z.eqb_eq in Hn.
      apply rbind_Ok in Hfin as (n & Hadd%ok_or_Ok & [= <- <-]). apply checked_add_Some in Hadd as [-> Hle].
      do 3 eexists. split; [reflexivity|]. rewrite <- Hn. split; [by constructor|].
      rewrite app_nil_r. done. }
  exists sel, ops, n'. repeat (split; [done|]). split; [|done].
  unfold transfer_writes. by rewrite <- !app_assoc.
Qed.

Lemma transfer_total s tx auth b j :
  accounts_ok s -> check_transfer_auth verify_transfer s tx auth = Ok tt -> transfer_ready s tx ->
  exists r, apply_account_transfer_checked verify_transfer s tx auth b j = Ok r.
Proof.
  intros Hok Hauth (Hacc & Ha & Hft & Hver & (sel & Hsel & Hready) & Hto & Hfunds).
  pose proof (proj1 (is_account_asset_spec _) Hacc) as Ht.
  destruct (ao_ints _ Hok (at_asset tx) (at_from tx)) as [Hbf _]. unfold in_u64 in Hbf.
  unfold apply_account_transfer_checked.
  rewrite (bool_decide_eq_false_2 (at_asset tx = TLT)) by done. rewrite Hacc, Hauth.
  rewrite (proj2 (Z.eqb_neq _ _) Ha), (proj2 (Z.eqb_neq _ _) Hft). cbn [negb ensure rbind].
  assert (negb ((ACCOUNT_TRANSFER_DRC_TICKET_VERSION <=? at_tx_version tx) &&
    negb (bool_decide (at_asset tx = DRC))) = true) as ->.
  { unfold ACCOUNT_TRANSFER_DRC_TICKET_VERSION. destruct (Z.leb_spec 3 (at_tx_version tx)); [|done].
    by rewrite bool_decide_eq_true_2 by auto. }
  rewrite !load_account_acct by done. cbn [ensure rbind].
  assert (checked_add u64_max (balance (acct_of s (at_asset tx) (at_to tx))) (at_amount tx) =
    Some (balance (acct_of s (at_asset tx) (at_to tx)) + at_amount tx)) as -> by by apply checked_add_Some.
  assert (checked_add u64_max (at_amount tx) (at_fee tx) = Some (at_amount tx + at_fee tx)) as ->
    by (apply checked_add_Some; lia).
  cbn [ok_or rbind]. rewrite (proj2 (Z.leb_le _ _) Hfunds).
  unfold transfer_selector in Hsel. unfold put_account_into. rewrite (bool_decide_eq_false_2 (at_asset tx = TLT)) by done.
  case_bool_decide as Hdrc.
  - rewrite Hsel. cbn [lift_sequence rbind]. rewrite Hdrc in Hready |- *.
    edestruct (sequence_total s (at_from tx) sel b
      {| balance := balance (acct_of s DRC (at_from tx)) - (at_amount tx + at_fee tx);
         nonce := nonce (acct_of s DRC (at_from tx)) |} Hok Hready) as (c & tb & [b' from'] & -> & Hf);
      [done|]. cbn [rbind ensure negb]. rewrite Hf. cbn [rbind ensure negb]. by eexists.
  - injection Hsel as <-. destruct Hready as [Hn Hle]. simpl in Hn. rewrite <- Hn, Z.eqb_refl.
    cbn [ensure rbind]. assert (checked_add u64_max (at_nonce tx) 1 = Some (at_nonce tx + 1)) as ->
      by (apply checked_add_Some; lia). cbn [ok_or rbind ensure negb]. by eexists.
Qed.

(** Accounts after an accepted transfer. *)
Lemma transfer_accounts s tx ops n' x a :
  Forall (fun op => is_account_op op = false) ops -> at_from tx <> at_to tx ->
  acct_of (write_batch s (transfer_writes s tx ops n')) x a =
    if bool_decide ((x, a) = (at_asset tx, at_to tx)) then
      {| balance := balance (acct_of s x a) + at_amount tx; nonce := nonce (acct_of s x a) |}
    else if bool_decide ((x, a) = (at_asset tx, at_from tx)) then
      {| balance := balance (acct_of s x a) - (at_amount tx + at_fee tx); nonce := n' |}
    else acct_of s x a.
Proof.
  intros Hops Hne. unfold transfer_writes. rewrite write_batch_app. simpl. rewrite !acct_of_put.
  rewrite acct_of_frame by done.
  case_bool_decide as E1; [by simplify_eq|]. case_bool_decide as E2; by simplify_eq.
Qed.
Lemma transfer_tickets s tx ops n' :
  st_tickets (write_batch s (transfer_writes s tx ops n')) = st_tickets (write_batch s ops).
Proof. unfold transfer_writes. rewrite write_batch_app. by destruct (write_batch s ops). Qed.
Lemma transfer_liquid s tx ops n' y :
  Forall (fun op => is_account_op op = false) ops -> at_from tx <> at_to tx ->
  liquid y (write_batch s (transfer_writes s tx ops n')) =
    liquid y s - (if bool_decide (y = at_asset tx) then at_fee tx else 0).
Proof.
  intros Hops Hne. unfold transfer_writes. rewrite write_batch_app. simpl.
  rewrite !liquid_put, acct_of_put, acct_of_frame, liquid_frame by done.
  rewrite (bool_decide_eq_false_2 ((_, _) = (_, _))) by congruence. rewrite acct_of_frame by done.
  destruct (decide (y = at_asset tx)) as [->|Hy].
  - rewrite !bool_decide_eq_true_2 by done. simpl. lia.
  - rewrite !bool_decide_eq_false_2 by congruence. lia.
Qed.

Lemma transfer_preserves s tx auth b' j' :
  accounts_ok s -> 0 <= at_amount tx -> 0 <= at_fee tx ->
  apply_account_transfer_checked verify_transfer s tx auth [] [] = Ok (b', j') ->
  accounts_ok (write_batch s b').
Proof.
  intros Hok Ha Hf H. apply transfer_inv in H as
    (sel & ops & n' & _ & Ht & _ & Hne & _ & _ & Heff & Htk & Hto & Hfunds & -> & _). simpl.
  pose proof (seq_effect_frame _ _ _ _ _ _ Heff) as Hfr.
  destruct (ao_ints _ Hok (at_asset tx) (at_from tx)) as [Hbf Hnf].
  destruct (ao_ints _ Hok (at_asset tx) (at_to tx)) as [Hbt Hnt].
  destruct (seq_effect_nonce _ _ _ _ _ _ Heff Hnf) as [Hn1 Hn2].
  apply (accounts_ok_step s); [done|..].
  - intros x a. rewrite transfer_accounts by done.
    case_bool_decide; [|case_bool_decide; [|by apply (ao_ints _ Hok)]]; simplify_eq; simpl;
      unfold in_u64 in *; lia.
  - intros o r. rewrite transfer_tickets. by eapply seq_effect_store.
  - intros o t. unfold tickets_of at 1. rewrite transfer_tickets. fold (tickets_of (write_batch s ops) o).
    destruct (decide (at_asset tx = DRC)) as [Hd|Hd].
    + rewrite Hd in Heff. rewrite (seq_effect_tickets _ _ _ _ _ o Hok Heff).
      intros Hin. left. case_bool_decide; [subst|done]. destruct (kind sel); [done|].
      by apply elem_of_sort_by, list_elem_of_filter in Hin as [_ ?].
    + destruct Heff; [by left|]. by destruct (Hd (Htk eq_refl)).
  - intros o. rewrite transfer_accounts by done.
    case_bool_decide; [simpl; lia|]. case_bool_decide as E; [|lia]. injection E as -> ->. done.
Qed.

(** Ticket creation. *)
Definition ticket_writes (s : StateStore) (tx : DrcTicketCreateTx) (ops : WriteBatch) : WriteBatch :=
  [PutAccount DRC (tc_owner tx)
     {| balance := balance (acct_of s DRC (tc_owner tx)) - tc_fee tx; nonce := tc_nonce tx + 2 |}] ++ ops.
Lemma ticket_inv s tx auth b j t b' j' :
  apply_drc_ticket_create verify_ticket s tx auth b j = Ok (t, b', j') ->
  exists tickets ops,
    verify_ticket s tx auth = Ok tt /\ nonce (acct_of s DRC (tc_owner tx)) = tc_nonce tx /\
    tc_fee tx <= balance (acct_of s DRC (tc_owner tx)) /\ t = tc_nonce tx + 1 /\
    tc_nonce tx + 2 <= u64_max /\
    load_drc_account_tickets s (tc_owner tx) = Ok tickets /\ t ∉ tickets /\ (length tickets < 32)%nat /\
    put_tickets_into [] (tc_owner tx) (sort_by Z.compare (tickets ++ [t])) = Ok ops /\
    b' = b ++ ticket_writes s tx ops /\
    j' = j ++ [(DRC, tc_owner tx, acct_of s DRC (tc_owner tx))].
Proof.
  unfold apply_drc_ticket_create. intros H.
  apply rbind_Ok in H as ([] & Hauth & H). apply rbind_Ok in H as (o & [_ ->]%load_account_Ok & H).
  apply rbind_Ok in H as (_ & Hn%ensure_Ok & H). apply Z.eqb_eq in Hn.
  apply rbind_Ok in H as (_ & Hf%ensure_Ok & H). apply Z.leb_le in Hf.
  apply rbind_Ok in H as (t1 & Ht1%ok_or_Ok & H). apply checked_add_Some in Ht1 as [-> _].
  apply rbind_Ok in H as (t2 & Ht2%ok_or_Ok & H). apply checked_add_Some in Ht2 as [-> Hle].
  apply rbind_Ok in H as (tickets & Htk & H).
  apply rbind_Ok in H as (_ & Hd%ensure_Ok & H). apply negb_true_iff, bool_decide_eq_false_1 in Hd.
  apply rbind_Ok in H as (_ & Hl%ensure_Ok & H). apply Nat.ltb_lt in Hl.
  apply rbind_Ok in H as (b1 & [_ ->]%put_account_into_Ok & H). rewrite put_tickets_into_app in H.
  apply rbind_Ok in H as (b2 & Hp & [= <- <- <-]). apply rbind_Ok in Hp as (ops & Hp & [= <-]).
  exists tickets, ops. unfold ticket_writes. rewrite <- app_assoc.
  replace (tc_nonce tx + 1 + 1) with (tc_nonce tx + 2) in * by lia. done.
Qed.
Lemma ticket_accounts s tx ops x a :
  Forall (fun op => is_account_op op = false) ops ->
  acct_of (write_batch s (ticket_writes s tx ops)) x a =
    if bool_decide ((x, a) = (DRC, tc_owner tx)) then
      {| balance := balance (acct_of s DRC (tc_owner tx)) - tc_fee tx; nonce := tc_nonce tx + 2 |}
    else acct_of s x a.
Proof.
  intros Hops. unfold ticket_writes. rewrite write_batch_app, acct_of_frame by done.
  simpl. by rewrite acct_of_put.
Qed.
Lemma ticket_sets s tx ops l o :
  put_tickets_into [] (tc_owner tx) l = Ok ops ->
  st_tickets (write_batch s (ticket_writes s tx ops)) = st_tickets (write_batch s ops) /\
  Forall (fun op => is_account_op op = false) ops /\
  tickets_of (write_batch s (ticket_writes s tx ops)) o =
    if bool_decide (o = tc_owner tx) then l else tickets_of s o.
Proof.
  intros Hp. pose proof (put_tickets_into_keys _ _ _ Hp) as (op & -> & Hk).
  assert (st_tickets (write_batch s (ticket_writes s tx [op])) = st_tickets (write_batch s [op])) as E.
  { unfold ticket_writes. destruct s, op as [| | | | | | | | | | | | | | | | | | | | []]; done. }
  split; [exact E|]. split; [constructor; [unfold is_account_op; by rewrite Hk|done]|].
  unfold tickets_of at 1. rewrite E. by apply put_tickets_read.
Qed.

Lemma ticket_preserves s (tx : DrcTicketCreateTx) (auth : Auth) t b' j' :
  accounts_ok s -> 0 <= tc_fee tx ->
  apply_drc_ticket_create verify_ticket s tx auth [] [] = Ok (t, b', j') ->
  accounts_ok (write_batch s b').
Proof.
  intros Hok Hf H. apply ticket_inv in H as
    (tickets & ops & _ & Hn & Hfee & -> & Hle & Htk & Hnin & Hlen & Hp & -> & _). rewrite app_nil_l.
  rewrite load_tickets_ok in Htk by done. injection Htk as <-.
  destruct (ao_ints _ Hok DRC (tc_owner tx)) as [Hb Hnn].
  apply (accounts_ok_step s); [done|..].
  - intros x a. destruct (ticket_sets s tx ops _ a Hp) as (_ & Hfr & _). rewrite ticket_accounts by done.
    case_bool_decide; [|by apply (ao_ints _ Hok)]. simpl. unfold in_u64 in *. lia.
  - intros o r. destruct (ticket_sets s tx ops _ o Hp) as (-> & _ & _).
    destruct (put_tickets_read s _ _ ops o Hp) as (_ & -> & Hv).
    case_bool_decide as E; [subst o|by apply (ao_tickets _ Hok)].
    destruct (sort_by Z.compare _) as [|x k] eqn:E'; [done|]. intros [= <-]. split; [by apply Hv|done].
  - intros o t. destruct (ticket_sets s tx ops _ o Hp) as (_ & Hfr & ->).
    case_bool_decide as E; [subst o|by left]. rewrite elem_of_sort_by, elem_of_app, list_elem_of_singleton.
    intros [Ho | ->]; [by left|]. right. rewrite ticket_accounts by done.
    rewrite bool_decide_eq_true_2 by done. simpl. unfold in_u64 in *. lia.
  - intros o. destruct (ticket_sets s tx ops _ o Hp) as (_ & Hfr & _). rewrite ticket_accounts by done.
    case_bool_decide as E; [|lia]. injection E as ->. simpl. lia.
Qed.

(** account transfers.  In a well-formed state a transfer is accepted
    iff its authorization verifies, its nonce or ticket is the one the
    account expects, the sender covers amount plus fee, and nothing
    overflows.  An accepted transfer moves exactly the amount, takes exactly
    amount plus fee from the sender, lowers the asset's liquid total by
    exactly the fee, touches no other account and keeps the state
    well-formed. *)
Theorem transfer_correct s (tx : AccountTransfer) (auth : option Auth) :
  accounts_ok s -> in_u64 (at_amount tx) -> in_u64 (at_fee tx) ->
  (is_ok (apply_account_transfer_checked verify_transfer s tx auth [] []) = true <->
     check_transfer_auth verify_transfer s tx auth = Ok tt /\ transfer_ready s tx) /\
  forall b j, apply_account_transfer_checked verify_transfer s tx auth [] [] = Ok (b, j) ->
    let s' := write_batch s b in
    let bal t a := balance (acct_of t (at_asset tx) a) in
    accounts_ok s' /\
    bal s' (at_from tx) = bal s (at_from tx) - (at_amount tx + at_fee tx) /\
    bal s' (at_to tx) = bal s (at_to tx) + at_amount tx /\
    (forall x a, (x, a) <> (at_asset tx, at_from tx) -> (x, a) <> (at_asset tx, at_to tx) ->
       acct_of s' x a = acct_of s x a) /\
    (forall x, liquid x s' = liquid x s - if bool_decide (x = at_asset tx) then at_fee tx else 0).
Proof.
  intros Hok Ha Hf. split.
  - split.
    + destruct (apply_account_transfer_checked _ _ _ _ _ _) as [[b j]|] eqn:E; [|done]. intros _.
      apply transfer_inv in E as
        (sel & ops & n' & Hau & Ht & Hz & Hne & Hv & Hsel & Heff & Htk & Hto & Hfunds & _).
      split; [done|]. repeat (split; [by try apply is_account_asset_spec|]).
      split; [|done]. exists sel. split; [done|]. destruct Heff as [Hle|t tk ops Hl Hin _]; [done|].
      rewrite load_tickets_ok in Hl by done. by injection Hl as <-.
    + intros [Hau Hr]. destruct (transfer_total s tx auth [] [] Hok Hau Hr) as [r ->]. done.
  - intros b j H. cbv zeta. split; [apply (transfer_preserves s tx auth b j); (done || (unfold in_u64 in *; lia))|].
    apply transfer_inv in H as (sel & ops & n' & _ & _ & _ & Hne & _ & _ & Heff & _ & _ & _ & -> & _). simpl.
    pose proof (seq_effect_frame _ _ _ _ _ _ Heff) as Hfr. rewrite !transfer_accounts by done.
    rewrite (bool_decide_eq_false_2 ((_, at_from tx) = _)), !bool_decide_eq_true_2 by congruence.
    split; [done|]. split; [done|]. split; [|intros x; by apply transfer_liquid].
    intros x a H1 H2. rewrite transfer_accounts by done. by rewrite !bool_decide_eq_false_2.
Qed.

(** ticket creation.  An accepted creation returns the number after the
    creating nonce, adds exactly that ticket to the owner's set, moves the
    nonce past it, takes exactly the fee, and keeps the state well-formed;
    the ticket is smaller than every later nonce and the set never holds more
    than 32 tickets. *)
Theorem ticket_create_correct s (tx : DrcTicketCreateTx) (auth : Auth) t b j :
  accounts_ok s -> in_u64 (tc_fee tx) ->
  apply_drc_ticket_create verify_ticket s tx auth [] [] = Ok (t, b, j) ->
  let s' := write_batch s b in let o := tc_owner tx in
  accounts_ok s' /\ nonce (acct_of s DRC o) = tc_nonce tx /\
  t = tc_nonce tx + 1 /\ nonce (acct_of s' DRC o) = t + 1 /\
  balance (acct_of s' DRC o) = balance (acct_of s DRC o) - tc_fee tx /\
  t ∉ tickets_of s o /\ (forall x, x ∈ tickets_of s' o <-> x ∈ tickets_of s o \/ x = t) /\
  (length (tickets_of s' o) <= 32)%nat /\
  (forall a, a <> o -> acct_of s' DRC a = acct_of s DRC a /\ tickets_of s' a = tickets_of s a) /\
  liquid DRC s' = liquid DRC s - tc_fee tx.
Proof.
  intros Hok Hf H. cbv zeta. pose proof (ticket_preserves s tx auth t b j Hok ltac:(unfold in_u64 in *; lia) H) as Hok'.
  split; [done|]. apply ticket_inv in H as
    (tickets & ops & _ & Hn & Hfee & -> & Hle & Htk & Hnin & Hlen & Hp & -> & _). rewrite app_nil_l in Hok' |- *.
  rewrite load_tickets_ok in Htk by done. injection Htk as <-.
  destruct (ticket_sets s tx ops _ (tc_owner tx) Hp) as (_ & Hfr & Hset).
  rewrite ticket_accounts, bool_decide_eq_true_2 by done.
  rewrite bool_decide_eq_true_2 in Hset by done.
  do 2 (split; [done|]). split; [simpl; lia|]. do 2 (split; [done|]). split.
  { intros x. rewrite Hset, elem_of_sort_by, elem_of_app, list_elem_of_singleton. done. }
  split; [by destruct (tickets_of_facts _ (tc_owner tx) Hok') as (_ & ? & _)|]. split.
  - intros a Ha. rewrite ticket_accounts by done. destruct (ticket_sets s tx ops _ a Hp) as (_ & _ & ->).
    by rewrite !bool_decide_eq_false_2 by congruence.
  - unfold ticket_writes. rewrite write_batch_app, liquid_frame by done. simpl.
    rewrite liquid_put, bool_decide_eq_true_2 by done. simpl. lia.
Qed.
End accounts_spec.

(** A concrete ledger: account 1 holds DRC and one ticket. *)
Definition demo_ledger : StateStore :=
  write_batch empty_store
    [PutAccount DRC 1 {| balance := 1000; nonce := 7 |};
     PutTickets 1 {| at_version := 1; at_owner := 1; at_sequences := [5] |}].
Lemma demo_ledger_ok : accounts_ok demo_ledger.
Proof.
  assert (forall x a, acct_of demo_ledger x a =
    if bool_decide ((x, a) = (DRC, 1)) then {| balance := 1000; nonce := 7 |} else default_account) as Ha.
  { intros x a. unfold demo_ledger. simpl.
    transitivity (acct_of (apply_op empty_store (PutAccount DRC 1 {| balance := 1000; nonce := 7 |})) x a);
      [done|]. by rewrite acct_of_put. }
  split.
  - intros x a. rewrite Ha. case_bool_decide; simpl; unfold_ints; lia.
  - intros o r. unfold demo_ledger. simpl. intros [[<- <-]|[_ ?]]%lookup_insert_Some; done.
  - intros o t. unfold tickets_of, demo_ledger. simpl. intros Hin. rewrite Ha.
    destruct (decide (o = 1)) as [->|Ho].
    + rewrite lookup_insert_eq in Hin. apply list_elem_of_singleton in Hin as ->. simpl. lia.
    + rewrite lookup_insert_ne in Hin by congruence. by apply elem_of_nil in Hin.
Qed.
Definition demo_transfer : AccountTransfer :=
  {| at_tx_version := 3; at_asset := DRC; at_from := 1; at_to := 2; at_amount := 100; at_fee := 3;
     at_nonce := 0; at_account_sequence := Some {| kind := Ticket; value := 5 |};
     at_public_key := []; at_tx_signature := [] |}.
Definition accept_all {A : Type} (s : StateStore) (tx : A) (auth : unit) : result StateError unit := Ok tt.
Lemma transfer_correct_witness :
  exists b j, apply_account_transfer_checked accept_all demo_ledger demo_transfer (Some tt) [] [] = Ok (b, j) /\
    liquid DRC (write_batch demo_ledger b) = liquid DRC demo_ledger - 3.
Proof.
  destruct (transfer_correct accept_all demo_ledger demo_transfer (Some tt) demo_ledger_ok) as [_ H];
    [unfold_ints; simpl; lia|unfold_ints; simpl; lia|].
  do 2 eexists. split; [vm_compute; reflexivity|].
  edestruct H as (_ & _ & _ & _ & Hl); [vm_compute; reflexivity|]. apply (Hl DRC).
Defined.
Lemma ticket_create_correct_witness :
  exists b j, apply_drc_ticket_create accept_all demo_ledger
      {| tc_version := 1; tc_owner := 1; tc_fee := 10; tc_nonce := 7; tc_public_key := []; tc_signature := [] |}
      tt [] [] = Ok (8, b, j) /\ nonce (acct_of (write_batch demo_ledger b) DRC 1) = 8 + 1.
Proof.
  do 2 eexists. split; [vm_compute; reflexivity|].
  eapply (ticket_create_correct accept_all demo_ledger
    {| tc_version := 1; tc_owner := 1; tc_fee := 10; tc_nonce := 7; tc_public_key := []; tc_signature := [] |} tt);
    [apply demo_ledger_ok|unfold_ints; simpl; lia|vm_compute; reflexivity].
Defined.
