(* ===== verification/Staking.v ===== *)
(** * Staking ([state-machine/src/staking/mod.rs])

    The independent OVL and DRC validator sets: bonding, delegation,
    unbonding, epoch snapshots, reserve drips, reward distribution, slashing
    and signed stake transactions.  Operations read the store and append to a
    batch, as in the source; the batch is applied by [write_batch].

    [iter().sum()] and the one unchecked [+] on [u64] wrap in a release build
    and are written with [as_u64]; scans of a key prefix are scans of the
    family's map, in any order, and the source sorts or only accumulates what
    they return. *)

From stdpp Require Import base gmap list fin_maps strings sorting.
From Stdlib Require Import ZArith Lia.
From S2P Require Import Prelude Ordering Sums Types Finality Store Supply Accounts.
Local Open Scope Z_scope.

Definition MAX_VALIDATOR_COMMISSION_BPS : Z := 10000.

Record StakingParams := {
  sp_asset : NativeAssetId;
  max_validators : Z;
  min_self_bond : Z;
  unbonding_period_epochs : Z;
  max_commission_bps : Z;
  max_concentration_bps : Z;
  epoch_reserve_drip : Z;
}.
Definition staking_default (asset : NativeAssetId) : StakingParams :=
  {| sp_asset := asset; max_validators := 100; min_self_bond := 1000000;
     unbonding_period_epochs := 7; max_commission_bps := 5000; max_concentration_bps := 3000;
     epoch_reserve_drip := WORKING_EPOCH_RESERVE_DRIP |}.

Definition validate_asset (p : StakingParams) : result StateError unit :=
  ensure (is_account_asset (sp_asset p)) (InvalidTx "staking only for OVL or DRC").
Definition validate_params (p : StakingParams) : result StateError unit :=
  validate_asset p ;?
  ensure (max_commission_bps p <=? MAX_VALIDATOR_COMMISSION_BPS)
    (InvalidTx "maximum commission exceeds global basis-point limit") ;?
  ensure (negb ((max_concentration_bps p =? 0) ||
                (MAX_VALIDATOR_COMMISSION_BPS <? max_concentration_bps p)))
    (InvalidTx "validator concentration basis-point policy is invalid").

Definition voting_power (v : ValidatorRecord) : Z :=
  if bool_decide (status v = Bonded) then saturating_add u64_max (self_bond v) (delegated v) else 0.

Definition power_of (snap : ValidatorSetSnapshot) (op : Address) : Z :=
  match List.find (fun e => e.1 =? op) (validators snap) with Some e => e.2 | None => 0 end.

(** ** Counters *)

Definition load_reward_pool (s : StateStore) (asset : NativeAssetId) : Z :=
  default 0 (st_reward_pool s !! asset).
Definition put_reward_pool_into (b : WriteBatch) (asset : NativeAssetId) (amount : Z) : WriteBatch :=
  b ++ [PutRewardPool asset amount].
Definition credit_reward_pool_into (s : StateStore) (b : WriteBatch) (asset : NativeAssetId)
  (amount : Z) : result StateError (WriteBatch * Z) :=
  ensure (is_account_asset asset) (InvalidTx "reward pool only for OVL/DRC") ;?
  let? next := ok_or (InvalidTx "reward pool overflow")
    (checked_add u64_max (load_reward_pool s asset) amount) in
  Ok (put_reward_pool_into b asset next, next).
Definition credit_fee_share_to_reward_pool (s : StateStore) (b : WriteBatch) (asset : NativeAssetId)
  (amount : Z) : result StateError (WriteBatch * Z) :=
  ensure (bool_decide (asset = OVL))
    (InvalidTx "fee-share reward pool only accepts OVL; accepted DRC fees burn") ;?
  credit_reward_pool_into s b asset amount.

Definition load_epoch (s : StateStore) (asset : NativeAssetId) : Z := default 0 (st_epochs s !! asset).
Definition load_validator (s : StateStore) (asset : NativeAssetId) (op : Address)
  : option ValidatorRecord := st_validators s !! (asset, op).
Definition put_validator_into (b : WriteBatch) (asset : NativeAssetId) (r : ValidatorRecord)
  : WriteBatch := b ++ [PutValidator asset (operator r) r].
Definition load_delegation (s : StateStore) (asset : NativeAssetId) (delegator validator : Address)
  : option DelegationRecord := st_delegations s !! (asset, delegator, validator).
Definition put_delegation_into (b : WriteBatch) (asset : NativeAssetId) (d : DelegationRecord)
  : WriteBatch := b ++ [PutDelegation asset (del_delegator d) (del_validator d) d].

Definition debit_liquid (s : StateStore) (b : WriteBatch) (asset : NativeAssetId) (owner : Address)
  (amount : Z) : result StateError WriteBatch :=
  let? acct := load_account s asset owner in
  ensure (amount <=? balance acct) (InvalidTx "insufficient liquid stake funds") ;?
  put_account_into b asset owner {| balance := balance acct - amount; nonce := nonce acct |}.
Definition credit_liquid (s : StateStore) (b : WriteBatch) (asset : NativeAssetId) (owner : Address)
  (amount : Z) : result StateError WriteBatch :=
  let? acct := load_account s asset owner in
  let? bal := ok_or (InvalidTx "balance overflow") (checked_add u64_max (balance acct) amount) in
  put_account_into b asset owner {| balance := bal; nonce := nonce acct |}.

(** Move up to [amount] from the staking reserve to the reward pool. *)
Definition drip_staking_reserve (s : StateStore) (b : WriteBatch) (asset : NativeAssetId) (amount : Z)
  : result StateError (WriteBatch * Z) :=
  if amount =? 0 then Ok (b, 0) else
  ensure (is_account_asset asset) (InvalidTx "cannot drip TLT staking reserve") ;?
  let remaining := load_staking_reserve_remaining s asset in
  let drip := Z.min amount remaining in
  if drip =? 0 then Ok (b, 0) else
  let issued := load_issued_supply s asset in
  let max := load_max_supply s asset in
  let? next_issued := ok_or (InvalidTx "issued overflow") (checked_add u64_max issued drip) in
  ensure (negb (cap_is_live (load_schema_version s) asset && (max <? next_issued))) SupplyCapExceeded ;?
  let b := put_staking_reserve_remaining_into b asset (remaining - drip) in
  let b := put_issued_supply_into b asset next_issued in
  let? (b, _) := credit_reward_pool_into s b asset drip in
  Ok (b, drip).

(** ** Snapshots *)

Definition unjail (epoch : Z) (v : ValidatorRecord) : ValidatorRecord :=
  if bool_decide (status v = Jailed) && (jailed_until_epoch v <=? epoch)
  then {| operator := operator v; consensus_pubkey := consensus_pubkey v; withdrawal := withdrawal v;
          self_bond := self_bond v; delegated := delegated v; commission_bps := commission_bps v;
          status := Bonded; jailed_until_epoch := jailed_until_epoch v;
          metadata_hash := metadata_hash v |}
  else v.
Definition snapshot_entry (asset : NativeAssetId) (epoch : Z)
  (e : NativeAssetId * Address * ValidatorRecord) : option (Address * Z) :=
  if bool_decide (e.1.1 = asset) then
    let rec := unjail epoch e.2 in
    let power := voting_power rec in
    if 0 <? power then Some (operator rec, power) else None
  else None.
Definition by_address {V} (a b : Address * V) : comparison := Z.compare a.1 b.1.
Definition build_snapshot (s : StateStore) (asset : NativeAssetId) (epoch : Z)
  : ValidatorSetSnapshot :=
  let vs := sort_by by_address (omap (snapshot_entry asset epoch) (map_to_list (st_validators s))) in
  {| vs_epoch := epoch; vs_asset := asset; validators := vs;
     total_active_stake := as_u64 (zsum (snd <$> vs)) |}.

Definition signed_stake_for (snap : ValidatorSetSnapshot) (signers : list Address) : Z :=
  foldl (fun total a => saturating_add u64_max total (power_of snap a)) 0 signers.

(** ** Operations *)

Definition bond_validator (s : StateStore) (b : WriteBatch) (p : StakingParams) (op : Address)
  (pubkey : list Z) (withdraw_to : Address) (bond commission : Z) (metadata : Hash)
  : result StateError WriteBatch :=
  validate_params p ;?
  ensure (min_self_bond p <=? bond) (InvalidTx "self-bond below minimum") ;?
  ensure (commission <=? max_commission_bps p) (InvalidTx "commission too high") ;?
  ensure (Nat.eqb (length pubkey) 33) (InvalidTx "consensus pubkey must be 33 bytes") ;?
  ensure (match load_validator s (sp_asset p) op with
          | Some v => negb (bool_decide (status v = Tombstoned))
          | None => true
          end) (InvalidTx "tombstoned validator") ;?
  let snap := build_snapshot s (sp_asset p) (load_epoch s (sp_asset p)) in
  ensure (negb ((max_validators p <=? as_u32 (Z.of_nat (length (validators snap)))) &&
                bool_decide (load_validator s (sp_asset p) op = None)))
    (InvalidTx "validator set full") ;?
  let? b := debit_liquid s b (sp_asset p) op bond in
  Ok (put_validator_into b (sp_asset p)
    {| operator := op; consensus_pubkey := pubkey; withdrawal := withdraw_to; self_bond := bond;
       delegated := 0; commission_bps := commission; status := Bonded; jailed_until_epoch := 0;
       metadata_hash := metadata |}).

Definition set_delegated (v : ValidatorRecord) (d : Z) : ValidatorRecord :=
  {| operator := operator v; consensus_pubkey := consensus_pubkey v; withdrawal := withdrawal v;
     self_bond := self_bond v; delegated := d; commission_bps := commission_bps v;
     status := status v; jailed_until_epoch := jailed_until_epoch v; metadata_hash := metadata_hash v |}.

Definition delegate (s : StateStore) (b : WriteBatch) (p : StakingParams)
  (delegator validator : Address) (amount : Z) : result StateError WriteBatch :=
  validate_asset p ;?
  ensure (negb (amount =? 0)) (InvalidTx "zero delegation") ;?
  let? val := ok_or (InvalidTx "unknown validator") (load_validator s (sp_asset p) validator) in
  ensure (bool_decide (status val = Bonded)) (InvalidTx "validator not active") ;?
  let snap := build_snapshot s (sp_asset p) (load_epoch s (sp_asset p)) in
  let new_power := saturating_add u64_max (voting_power val) amount in
  let new_total := saturating_add u64_max (total_active_stake snap) amount in
  let other_stake := saturating_sub (total_active_stake snap) (voting_power val) in
  ensure (negb ((0 <? other_stake) && (0 <? new_total) &&
                (max_concentration_bps p <? as_u16 (new_power * 10000 / new_total))))
    (InvalidTx "delegation would exceed concentration limit") ;?
  let? b := debit_liquid s b (sp_asset p) delegator amount in
  let? d := ok_or (InvalidTx "delegated overflow") (checked_add u64_max (delegated val) amount) in
  let b := put_validator_into b (sp_asset p) (set_delegated val d) in
  let del := default {| del_delegator := delegator; del_validator := validator; del_amount := 0 |}
               (load_delegation s (sp_asset p) delegator validator) in
  let? da := ok_or (InvalidTx "delegation overflow") (checked_add u64_max (del_amount del) amount) in
  Ok (put_delegation_into b (sp_asset p)
        {| del_delegator := del_delegator del; del_validator := del_validator del; del_amount := da |}).

Definition begin_unbond_self (s : StateStore) (b : WriteBatch) (p : StakingParams) (op : Address)
  : result StateError WriteBatch :=
  validate_asset p ;?
  let? val := ok_or (InvalidTx "unknown validator") (load_validator s (sp_asset p) op) in
  ensure (negb (bool_decide (status val = Tombstoned))) (InvalidTx "tombstoned") ;?
  let epoch := load_epoch s (sp_asset p) in
  let b := put_validator_into b (sp_asset p)
    {| operator := operator val; consensus_pubkey := consensus_pubkey val;
       withdrawal := withdrawal val; self_bond := 0; delegated := delegated val;
       commission_bps := commission_bps val; status := Unbonding;
       jailed_until_epoch := jailed_until_epoch val; metadata_hash := metadata_hash val |} in
  Ok (b ++ [PutUnbonding (sp_asset p) op
    {| ub_owner := op; ub_amount := self_bond val;
       release_epoch := saturating_add u64_max epoch (unbonding_period_epochs p) |}]).

Definition withdraw_unbonded (s : StateStore) (b : WriteBatch) (p : StakingParams) (owner : Address)
  : result StateError (WriteBatch * Z) :=
  validate_asset p ;?
  let epoch := load_epoch s (sp_asset p) in
  match st_unbonding s !! (sp_asset p, owner) with
  | None => Ok (b, 0)
  | Some entry =>
      ensure (release_epoch entry <=? epoch) (InvalidTx "unbonding period not elapsed") ;?
      let? b := credit_liquid s b (sp_asset p) owner (ub_amount entry) in
      Ok (b ++ [Delete (KUnbonding (sp_asset p) owner)], ub_amount entry)
  end.

(** ** Reward distribution *)

(** [entry(a).and_modify(saturating_add).or_insert]. *)
Definition add_credit (credits : gmap Address Z) (a : Address) (amt : Z) : gmap Address Z :=
  <[a := match credits !! a with Some v => saturating_add u64_max v amt | None => amt end]> credits.

(** The delegation records of [op], as the prefix scan finds them. *)
Definition delegations_of (s : StateStore) (asset : NativeAssetId) (op : Address)
  : list DelegationRecord :=
  omap (fun e => if bool_decide (e.1.1.1 = asset) && (e.1.2 =? op) then Some e.2 else None)
    (map_to_list (st_delegations s)).
Definition delegator_pieces (after_commission bonded : Z) (ds : list DelegationRecord)
  : list (Address * Z) :=
  omap (fun d =>
    if del_amount d =? 0 then None else
    let piece := as_u64 (after_commission * del_amount d / bonded) in
    if 0 <? piece then Some (del_delegator d, piece) else None) ds.

(** One validator's turn of the loop: what it and its delegators are credited. *)
Definition pay_validator (s : StateStore) (asset : NativeAssetId) (snap : ValidatorSetSnapshot)
  (pool : Z) (st : Z * gmap Address Z) (e : Address * Z) : Z * gmap Address Z :=
  let '(remaining, credits) := st in
  let '(op, power) := e in
  if power =? 0 then st else
  let share := as_u64 (pool * power / total_active_stake snap) in
  if share =? 0 then st else
  match load_validator s asset op with
  | None => st
  | Some val =>
      let commission := as_u64 (share * commission_bps val / MAX_VALIDATOR_COMMISSION_BPS) in
      let after_commission := saturating_sub share commission in
      let bonded := Z.max (saturating_add u64_max (self_bond val) (delegated val)) 1 in
      let op_stake_share := as_u64 (after_commission * self_bond val / bonded) in
      let pieces := delegator_pieces after_commission bonded (delegations_of s asset op) in
      let del_paid := foldl (saturating_add u64_max) 0 (snd <$> pieces) in
      let credits := foldl (fun c pc => add_credit c pc.1 pc.2) credits pieces in
      let unpaid := saturating_sub after_commission (as_u64 (op_stake_share + del_paid)) in
      let to_operator :=
        saturating_add u64_max (saturating_add u64_max commission op_stake_share) unpaid in
      let credits := if 0 <? to_operator then add_credit credits (withdrawal val) to_operator
                     else credits in
      (saturating_sub remaining share, credits)
  end.

Definition distribute_reward_pool_amount (s : StateStore) (b : WriteBatch) (asset : NativeAssetId)
  (snap : ValidatorSetSnapshot) (pool : Z) : result StateError (WriteBatch * Z) :=
  if (pool =? 0) || (total_active_stake snap =? 0) then Ok (b, 0) else
  let '(remaining, credits) :=
    foldl (pay_validator s asset snap pool) (pool, ∅) (validators snap) in
  let? b := rfold (fun b e => credit_liquid s b asset e.1 e.2) b
    (sort_by by_address (map_to_list credits)) in
  Ok (put_reward_pool_into b asset remaining, saturating_sub pool remaining).

Definition distribute_reward_pool (s : StateStore) (b : WriteBatch) (asset : NativeAssetId)
  (snap : ValidatorSetSnapshot) : result StateError (WriteBatch * Z) :=
  distribute_reward_pool_amount s b asset snap (load_reward_pool s asset).

Definition advance_epoch_with_params (s : StateStore) (b : WriteBatch) (p : StakingParams)
  : result StateError (WriteBatch * ValidatorSetSnapshot) :=
  validate_asset p ;?
  let asset := sp_asset p in
  let? (b, dripped) :=
    (if 0 <? epoch_reserve_drip p then drip_staking_reserve s b asset (epoch_reserve_drip p)
     else Ok (b, 0)) in
  let next := saturating_add u64_max (load_epoch s asset) 1 in
  let snap := build_snapshot s asset next in
  let b := b ++ [PutEpoch asset next; PutSnapshot asset next snap] in
  let pool := saturating_add u64_max (load_reward_pool s asset) dripped in
  let? (b, _) := distribute_reward_pool_amount s b asset snap pool in
  Ok (b, snap).

Definition params_for_asset (asset : NativeAssetId) : StakingParams :=
  match asset with OVL => staking_default OVL | DRC => staking_default DRC | TLT => staking_default OVL end.
Definition advance_epoch (s : StateStore) (b : WriteBatch) (asset : NativeAssetId)
  : result StateError (WriteBatch * ValidatorSetSnapshot) :=
  advance_epoch_with_params s b (params_for_asset asset).

(** ** Slashing *)

Definition apply_evidence (s : StateStore) (b : WriteBatch) (ev : ValidatorEvidence)
  (policy : SlashPolicy) : result StateError (WriteBatch * Z) :=
  ensure (is_account_asset (ev_set ev)) (InvalidTx "bad evidence set") ;?
  let? val := ok_or (InvalidTx "unknown validator") (load_validator s (ev_set ev) (ev_validator ev)) in
  let bonded := saturating_add u64_max (self_bond val) (delegated val) in
  let '(slash, tombstone, jail_epochs) := penalty_for policy (ev_kind ev) bonded in
  let from_self := Z.min slash (self_bond val) in
  let from_del := Z.min (slash - from_self) (delegated val) in
  let '(st, until) :=
    if (tombstone : bool) then (Tombstoned, jailed_until_epoch val)
    else if 0 <? jail_epochs
    then (Jailed, saturating_add u64_max (load_epoch s (ev_set ev)) jail_epochs)
    else (status val, jailed_until_epoch val) in
  let b := put_validator_into b (ev_set ev)
    {| operator := operator val; consensus_pubkey := consensus_pubkey val;
       withdrawal := withdrawal val; self_bond := self_bond val - from_self;
       delegated := delegated val - from_del; commission_bps := commission_bps val;
       status := st; jailed_until_epoch := until; metadata_hash := metadata_hash val |} in
  let? b := (if 0 <? slash then
               let? (b, _) := credit_reward_pool_into s b (ev_set ev) slash in Ok b
             else Ok b) in
  Ok (b, slash).

Definition validator_key_matches (s : StateStore) (att : CheckpointAttestation) : bool :=
  match load_validator s (att_set att) (att_validator att) with
  | None => false
  | Some val => bool_decide (consensus_pubkey val = att_public_key att) &&
                bool_decide (status val = Bonded)
  end.

(** ** Signed stake transactions *)

Definition STAKE_TX_TICKET_VERSION : Z := 2.
Inductive StakeOpKind := Bond | Delegate | UnbondSelf | Withdraw.
Record SignedStakeTx := {
  sx_version : Z;
  sx_asset : NativeAssetId;
  sx_kind : StakeOpKind;
  sx_actor : Address;
  sx_validator : Address;
  sx_amount : Z;
  sx_consensus_pubkey : list Z;
  sx_withdrawal : Address;
  sx_commission_bps : Z;
  sx_metadata_hash : Hash;
  sx_nonce : Z;
  sx_account_sequence : option DrcAccountSequenceSelector;
  sx_public_key : list Z;
  sx_signature : list Z;
}.

(** The records a stake transaction may change, for the reorg journal. *)
Definition stake_meta_keys_touched (tx : SignedStakeTx) : list MetaKey :=
  [KValidator (sx_asset tx) (sx_validator tx);
   KDelegation (sx_asset tx) (sx_actor tx) (sx_validator tx);
   KUnbonding (sx_asset tx) (sx_actor tx);
   KRewardPool (sx_asset tx)] ++
  (if sx_actor tx =? sx_validator tx then []
   else [KValidator (sx_asset tx) (sx_actor tx); KUnbonding (sx_asset tx) (sx_validator tx)]).

(** The operation a stake transaction names: its batch and the actor's liquid
    balance after it. *)
Definition stake_operation (s : StateStore) (b : WriteBatch) (tx : SignedStakeTx) (p : StakingParams)
  (bal : Z) : result StateError (WriteBatch * Z) :=
  match sx_kind tx with
  | Bond =>
      ensure (sx_actor tx =? sx_validator tx) (InvalidTx "bond actor must equal validator") ;?
      let? b := bond_validator s b p (sx_actor tx) (sx_consensus_pubkey tx) (sx_withdrawal tx)
                  (sx_amount tx) (sx_commission_bps tx) (sx_metadata_hash tx) in
      let? bal := ok_or (InvalidTx "insufficient liquid stake funds") (checked_sub bal (sx_amount tx)) in
      Ok (b, bal)
  | Delegate =>
      let? b := delegate s b p (sx_actor tx) (sx_validator tx) (sx_amount tx) in
      let? bal := ok_or (InvalidTx "insufficient liquid stake funds") (checked_sub bal (sx_amount tx)) in
      Ok (b, bal)
  | UnbondSelf =>
      let? b := begin_unbond_self s b p (sx_actor tx) in
      Ok (b, bal)
  | Withdraw =>
      let? (b, credited) := withdraw_unbonded s b p (sx_actor tx) in
      let? bal := ok_or (InvalidTx "balance overflow") (checked_add u64_max bal credited) in
      Ok (b, bal)
  end.

Section stake_tx.
(** [TxAuthContext], and [verify_drc_stake_operation] of [drc_account_auth.rs]. *)
Context {Auth : Type}.
Variable verify_drc_stake_operation :
  StateStore -> SignedStakeTx -> Auth -> result StateError unit.

Definition apply_signed_stake_tx (s : StateStore) (b : WriteBatch) (tx : SignedStakeTx) (auth : Auth)
  (p : StakingParams) : result StateError WriteBatch :=
  validate_asset p ;?
  ensure (bool_decide (sx_asset tx = sp_asset p)) (InvalidTx "stake asset mismatch") ;?
  verify_drc_stake_operation s tx auth ;?
  let? acct := load_account s (sx_asset tx) (sx_actor tx) in
  ensure (negb ((STAKE_TX_TICKET_VERSION <=? sx_version tx) &&
                negb (bool_decide (sx_asset tx = DRC))))
    (InvalidTx "ticket-aware stake version requires DRC") ;?
  let? sequence_ctx :=
    (if bool_decide (sx_asset tx = DRC) then
       let? sel := lift_sequence (resolve_drc_account_sequence (sx_version tx)
         STAKE_TX_TICKET_VERSION (sx_nonce tx) (sx_account_sequence tx)) in
       let? ctx := begin_drc_account_sequence s (sx_actor tx) sel in
       Ok (Some ctx)
     else
       ensure (nonce acct =? sx_nonce tx) (InvalidTx "bad stake nonce") ;?
       Ok None) in
  let? (b, bal) := stake_operation s b tx p (balance acct) in
  let? (b, after) :=
    match sequence_ctx with
    | Some (consumption, tickets_before) =>
        finish_drc_account_sequence b (sx_actor tx) {| balance := bal; nonce := nonce acct |}
          consumption tickets_before
    | None =>
        let? n := ok_or (InvalidTx "nonce overflow") (checked_add u64_max (sx_nonce tx) 1) in
        Ok (b, {| balance := bal; nonce := n |})
    end in
  put_account_into b (sx_asset tx) (sx_actor tx) after.
End stake_tx.

(** Genesis registration; [operator_of_pubkey] stands for the curve-point
    parser and [address_from_pubkey]. *)
Definition validate_genesis_registration (operator_of_pubkey : list Z -> option Address)
  (v : ValidatorRecord) (p : StakingParams) : result StateError unit :=
  validate_params p ;?
  let? key_owner := ok_or (InvalidTx "invalid consensus pubkey")
    (operator_of_pubkey (consensus_pubkey v)) in
  ensure (key_owner =? operator v) (InvalidTx "validator operator does not match consensus pubkey") ;?
  ensure (min_self_bond p <=? self_bond v) (InvalidTx "self-bond below minimum") ;?
  ensure ((delegated v =? 0) && bool_decide (status v = Bonded) && (jailed_until_epoch v =? 0))
    (InvalidTx "genesis validator must begin bonded without delegated or jailed state") ;?
  ensure ((commission_bps v <=? max_commission_bps p) &&
          (commission_bps v <=? MAX_VALIDATOR_COMMISSION_BPS)) (InvalidTx "commission too high") ;?
  ensure (negb (metadata_hash v =? 0)) (InvalidTx "genesis validator metadata hash must be nonzero").
