(* ===== verification/StakingProps.v ===== *)
(** * Properties of staking

    Conservation of the staked assets, the exact payout of reward
    distribution, snapshots and quorum intersection, and the supply effect of
    reserve drips. *)

From stdpp Require Import base gmap list fin_maps strings sorting.
From Stdlib Require Import ZArith Lia.
From S2P Require Import Prelude Ordering Sums Types Finality Store Supply Accounts Staking.
Local Open Scope Z_scope.

(** ** Holdings: every base unit of an asset the modules account for *)

Definition stake_at (s : StateStore) (x : NativeAssetId) (o : Address) : Z :=
  match st_validators s !! (x, o) with Some v => self_bond v + delegated v | None => 0 end.
Definition unbonding_at (s : StateStore) (x : NativeAssetId) (o : Address) : Z :=
  match st_unbonding s !! (x, o) with Some u => ub_amount u | None => 0 end.
Definition bonded_total (y : NativeAssetId) (s : StateStore) : Z :=
  msum (fun k v => if bool_decide (k.1 = y) then self_bond v + delegated v else 0) (st_validators s).
Definition unbonding_total (y : NativeAssetId) (s : StateStore) : Z :=
  msum (fun k u => if bool_decide (k.1 = y) then ub_amount u else 0) (st_unbonding s).
Definition holdings (y : NativeAssetId) (s : StateStore) : Z :=
  liquid y s + bonded_total y s + unbonding_total y s + load_reward_pool s y.

(** How one write changes the holdings of [y]. *)
Definition holdings_delta (s : StateStore) (op : WriteOp) (y : NativeAssetId) : Z :=
  match op with
  | PutAccount x a v => if bool_decide (x = y) then balance v - balance (acct_of s x a) else 0
  | PutValidator x o v =>
      if bool_decide (x = y) then self_bond v + delegated v - stake_at s x o else 0
  | PutUnbonding x o u => if bool_decide (x = y) then ub_amount u - unbonding_at s x o else 0
  | PutRewardPool x v => if bool_decide (x = y) then v - load_reward_pool s x else 0
  | Delete (KAccount x a) => if bool_decide (x = y) then - balance (acct_of s x a) else 0
  | Delete (KValidator x o) => if bool_decide (x = y) then - stake_at s x o else 0
  | Delete (KUnbonding x o) => if bool_decide (x = y) then - unbonding_at s x o else 0
  | Delete (KRewardPool x) => if bool_decide (x = y) then - load_reward_pool s x else 0
  | _ => 0
  end.
Lemma holdings_apply s op y : holdings y (apply_op s op) = holdings y s + holdings_delta s op y.
Proof.
  destruct s, op as [| | | | | | | | | | | | | | | | | | | | []];
    unfold holdings, liquid, bonded_total, unbonding_total, load_reward_pool, holdings_delta,
      acct_of, stake_at, unbonding_at, load_reward_pool; simpl;
    rewrite ?msum_insert, ?msum_delete_contrib; simpl; try lia;
    try (destruct (_ !! (asset, _)) as [w|]; simpl; case_bool_decide; simpl; lia);
    (destruct (decide (asset = y)) as [->|Hne];
     [rewrite bool_decide_eq_true_2, ?lookup_insert_eq, ?lookup_delete_eq by done; simpl; lia
     |rewrite bool_decide_eq_false_2, ?lookup_insert_ne, ?lookup_delete_ne by done; lia]).
Qed.

(** The reads of the next writes in a batch. *)
Lemma stake_at_frame s op x o :
  op_key op <> KValidator x o -> stake_at (apply_op s op) x o = stake_at s x o.
Proof.
  intros Hk. unfold stake_at. destruct s, op as [| | | | | | | | | | | | | | | | | | | | []];
    simpl in *; rewrite ?lookup_insert_ne, ?lookup_delete_ne by congruence; done.
Qed.
Lemma unbonding_at_frame s op x o :
  op_key op <> KUnbonding x o -> unbonding_at (apply_op s op) x o = unbonding_at s x o.
Proof.
  intros Hk. unfold unbonding_at. destruct s, op as [| | | | | | | | | | | | | | | | | | | | []];
    simpl in *; rewrite ?lookup_insert_ne, ?lookup_delete_ne by congruence; done.
Qed.
Lemma acct_of_apply_frame s op x a :
  op_key op <> KAccount x a -> acct_of (apply_op s op) x a = acct_of s x a.
Proof.
  intros Hk. unfold acct_of. destruct s, op as [| | | | | | | | | | | | | | | | | | | | []];
    simpl in *; rewrite ?lookup_insert_ne, ?lookup_delete_ne by congruence; done.
Qed.
Lemma reward_pool_frame s op x :
  op_key op <> KRewardPool x -> load_reward_pool (apply_op s op) x = load_reward_pool s x.
Proof.
  intros Hk. unfold load_reward_pool. destruct s, op as [| | | | | | | | | | | | | | | | | | | | []];
    simpl in *; rewrite ?lookup_insert_ne, ?lookup_delete_ne by congruence; done.
Qed.

(** ** The staking invariant *)

Record staking_ok (s : StateStore) : Prop := {
  so_val x o v : st_validators s !! (x, o) = Some v ->
    operator v = o /\ in_u64 (self_bond v) /\ in_u64 (delegated v) /\
    0 <= commission_bps v <= 10000;
  so_unbond x o u : st_unbonding s !! (x, o) = Some u -> in_u64 (ub_amount u);
  so_del x d o r : st_delegations s !! (x, d, o) = Some r ->
    del_delegator r = d /\ del_validator r = o /\ in_u64 (del_amount r);
  so_pool x : in_u64 (load_reward_pool s x);
}.

(** ** Stake operations, branch by branch *)

Lemma debit_liquid_Ok s b x o amt b' :
  debit_liquid s b x o amt = Ok b' <->
  x <> TLT /\ amt <= balance (acct_of s x o) /\
  b' = b ++ [PutAccount x o {| balance := balance (acct_of s x o) - amt; nonce := nonce (acct_of s x o) |}].
Proof.
  unfold debit_liquid. split.
  - intros H. apply rbind_Ok in H as (a & [Hx ->]%load_account_Ok & H).
    apply rbind_Ok in H as (_ & Hle%ensure_Ok & [_ ->]%put_account_into_Ok). by apply Z.leb_le in Hle.
  - intros (Hx & Hle & ->). rewrite load_account_acct by done. simpl.
    rewrite (proj2 (Z.leb_le _ _) Hle). by apply put_account_into_Ok.
Qed.
Lemma credit_liquid_Ok s b x o amt b' :
  credit_liquid s b x o amt = Ok b' <->
  x <> TLT /\ balance (acct_of s x o) + amt <= u64_max /\
  b' = b ++ [PutAccount x o {| balance := balance (acct_of s x o) + amt; nonce := nonce (acct_of s x o) |}].
Proof.
  unfold credit_liquid. split.
  - intros H. apply rbind_Ok in H as (a & [Hx ->]%load_account_Ok & H).
    apply rbind_Ok in H as (n & Hn%ok_or_Ok & [_ ->]%put_account_into_Ok).
    by apply checked_add_Some in Hn as [-> Hle].
  - intros (Hx & Hle & ->). rewrite load_account_acct by done. simpl.
    unfold checked_add. rewrite (proj2 (Z.leb_le _ _) Hle). by apply put_account_into_Ok.
Qed.

(** What an operation pushes, and the conditions it checked. *)
Lemma bond_inv s b p op pk w bond com md b' :
  bond_validator s b p op pk w bond com md = Ok b' ->
  validate_params p = Ok tt /\ com <= max_commission_bps p /\ bond <= balance (acct_of s (sp_asset p) op) /\
  (forall v, load_validator s (sp_asset p) op = Some v -> status v <> Tombstoned) /\
  b' = b ++ [PutAccount (sp_asset p) op {| balance := balance (acct_of s (sp_asset p) op) - bond;
                                          nonce := nonce (acct_of s (sp_asset p) op) |};
             PutValidator (sp_asset p) op
               {| operator := op; consensus_pubkey := pk; withdrawal := w; self_bond := bond; delegated := 0;
                  commission_bps := com; status := Bonded; jailed_until_epoch := 0; metadata_hash := md |}].
Proof.
  unfold bond_validator. intros H.
  apply rbind_Ok in H as ([] & Hp & H). apply rbind_Ok in H as (_ & _ & H).
  apply rbind_Ok in H as (_ & Hc%ensure_Ok & H). apply Z.leb_le in Hc.
  apply rbind_Ok in H as (_ & _ & H). apply rbind_Ok in H as (_ & Ht%ensure_Ok & H).
  apply rbind_Ok in H as (_ & _ & H). apply rbind_Ok in H as (b1 & (_ & Hle & ->)%debit_liquid_Ok & [= <-]).
  unfold put_validator_into. rewrite <- app_assoc. repeat (split; [done|]). split; [|done].
  intros v Hv. rewrite Hv in Ht. by apply negb_true_iff, bool_decide_eq_false_1 in Ht.
Qed.
Lemma delegate_inv s b p d o amt b' :
  delegate s b p d o amt = Ok b' ->
  exists val r, load_validator s (sp_asset p) o = Some val /\ status val = Bonded /\ amt <> 0 /\
    amt <= balance (acct_of s (sp_asset p) d) /\ delegated val + amt <= u64_max /\
    r = default {| del_delegator := d; del_validator := o; del_amount := 0 |} (load_delegation s (sp_asset p) d o) /\
    del_amount r + amt <= u64_max /\
    b' = b ++ [PutAccount (sp_asset p) d {| balance := balance (acct_of s (sp_asset p) d) - amt;
                                           nonce := nonce (acct_of s (sp_asset p) d) |};
               PutValidator (sp_asset p) (operator val) (set_delegated val (delegated val + amt));
               PutDelegation (sp_asset p) (del_delegator r) (del_validator r)
                 {| del_delegator := del_delegator r; del_validator := del_validator r;
                    del_amount := del_amount r + amt |}].
Proof.
  unfold delegate. intros H. apply rbind_Ok in H as (_ & _ & H).
  apply rbind_Ok in H as (_ & Hz%ensure_Ok & H). apply negb_true_iff, Z.eqb_neq in Hz.
  apply rbind_Ok in H as (val & Hv%ok_or_Ok & H). apply rbind_Ok in H as (_ & Hst%ensure_Ok & H).
  apply bool_decide_eq_true_1 in Hst. apply rbind_Ok in H as (_ & _ & H).
  apply rbind_Ok in H as (b1 & (_ & Hle & ->)%debit_liquid_Ok & H).
  apply rbind_Ok in H as (dd & Hd%ok_or_Ok & H). apply checked_add_Some in Hd as [-> Hd].
  apply rbind_Ok in H as (da & Ha%ok_or_Ok & [= <-]). apply checked_add_Some in Ha as [-> Ha].
  unfold put_delegation_into, put_validator_into. rewrite <- !app_assoc. do 2 eexists.
  repeat (split; [done|]). done.
Qed.
Lemma unbond_inv s b p op b' :
  begin_unbond_self s b p op = Ok b' ->
  exists val, load_validator s (sp_asset p) op = Some val /\ status val <> Tombstoned /\
    b' = b ++ [PutValidator (sp_asset p) (operator val)
                 {| operator := operator val; consensus_pubkey := consensus_pubkey val;
                    withdrawal := withdrawal val; self_bond := 0; delegated := delegated val;
                    commission_bps := commission_bps val; status := Unbonding;
                    jailed_until_epoch := jailed_until_epoch val; metadata_hash := metadata_hash val |};
               PutUnbonding (sp_asset p) op
                 {| ub_owner := op; ub_amount := self_bond val;
                    release_epoch := saturating_add u64_max (load_epoch s (sp_asset p))
                                       (unbonding_period_epochs p) |}].
Proof.
  unfold begin_unbond_self. intros H. apply rbind_Ok in H as (_ & _ & H).
  apply rbind_Ok in H as (val & Hv%ok_or_Ok & H). apply rbind_Ok in H as (_ & Ht%ensure_Ok & [= <-]).
  apply negb_true_iff, bool_decide_eq_false_1 in Ht. unfold put_validator_into. rewrite <- app_assoc.
  by exists val.
Qed.
Lemma withdraw_inv s b p o b' c :
  withdraw_unbonded s b p o = Ok (b', c) ->
  (st_unbonding s !! (sp_asset p, o) = None /\ b' = b /\ c = 0) \/
  exists u, st_unbonding s !! (sp_asset p, o) = Some u /\ c = ub_amount u /\
    release_epoch u <= load_epoch s (sp_asset p) /\
    balance (acct_of s (sp_asset p) o) + ub_amount u <= u64_max /\
    b' = b ++ [PutAccount (sp_asset p) o {| balance := balance (acct_of s (sp_asset p) o) + ub_amount u;
                                           nonce := nonce (acct_of s (sp_asset p) o) |};
               Delete (KUnbonding (sp_asset p) o)].
Proof.
  unfold withdraw_unbonded. intros H. apply rbind_Ok in H as (_ & _ & H).
  destruct (st_unbonding s !! (sp_asset p, o)) as [u|]; [|left; by injection H as <- <-]. right.
  apply rbind_Ok in H as (_ & Hr%ensure_Ok & H). apply Z.leb_le in Hr.
  apply rbind_Ok in H as (b1 & (_ & Hle & ->)%credit_liquid_Ok & [= <- <-]). rewrite <- app_assoc. eauto 10.
Qed.

(** Stake that an operation overwrites instead of moving (see C30). *)
Definition stake_lost (s : StateStore) (tx : SignedStakeTx) : Z :=
  match sx_kind tx with
  | Bond => stake_at s (sx_asset tx) (sx_actor tx)
  | UnbondSelf => unbonding_at s (sx_asset tx) (sx_actor tx)
  | Delegate | Withdraw => 0
  end.

(** Evaluates the holdings after an explicit list of writes. *)
Ltac holdings_run :=
  cbn [write_batch foldl]; repeat rewrite holdings_apply; cbn [holdings_delta];
  repeat first [ rewrite stake_at_frame by (simpl; congruence)
               | rewrite unbonding_at_frame by (simpl; congruence)
               | rewrite reward_pool_frame by (simpl; congruence)
               | rewrite acct_of_apply_frame by (simpl; congruence) ].

Lemma stake_operation_holdings s tx p b bal y :
  staking_ok s -> sx_asset tx = sp_asset p ->
  stake_operation s [] tx p (balance (acct_of s (sx_asset tx) (sx_actor tx))) = Ok (b, bal) ->
  holdings y (write_batch s b) =
    holdings y s - (if bool_decide (sx_asset tx = y) then stake_lost s tx else 0).
Proof.
  intros Hok Hx. unfold stake_operation, stake_lost. rewrite Hx. destruct (sx_kind tx); intros H.
  - apply rbind_Ok in H as (_ & _ & H). apply rbind_Ok in H as (b1 & Hb & H).
    apply rbind_Ok in H as (bal1 & _ & [= <- <-]). apply bond_inv in Hb as (_ & _ & _ & _ & ->).
    rewrite app_nil_l. holdings_run. case_bool_decide; simpl; lia.
  - apply rbind_Ok in H as (b1 & Hb & H). apply rbind_Ok in H as (bal1 & _ & [= <- <-]).
    apply delegate_inv in Hb as (val & r & Hv & _ & _ & _ & _ & _ & _ & ->).
    destruct (so_val _ Hok _ _ _ Hv) as [Ho _]. rewrite app_nil_l, Ho. holdings_run.
    unfold load_validator in Hv. unfold stake_at. rewrite Hv. case_bool_decide; simpl; lia.
  - apply rbind_Ok in H as (b1 & Hb & [= <- <-]). apply unbond_inv in Hb as (val & Hv & _ & ->).
    destruct (so_val _ Hok _ _ _ Hv) as [Ho _]. rewrite app_nil_l, Ho. holdings_run.
    unfold load_validator in Hv. unfold stake_at. rewrite Hv. case_bool_decide; simpl; lia.
  - apply rbind_Ok in H as ([b1 c] & Hb & H). apply rbind_Ok in H as (bal1 & _ & [= <- <-]).
    apply withdraw_inv in Hb as [(_ & -> & _)|(u & Hu & _ & _ & _ & ->)].
    + simpl. case_bool_decide; lia.
    + rewrite app_nil_l. holdings_run. unfold unbonding_at. rewrite Hu. case_bool_decide; simpl; lia.
Qed.

(** The accounts and tickets after the operation: only the actor's balance. *)
Lemma stake_operation_accounts s tx p b bal :
  sx_asset tx = sp_asset p -> 0 <= sx_amount tx -> staking_ok s -> accounts_ok s ->
  stake_operation s [] tx p (balance (acct_of s (sx_asset tx) (sx_actor tx))) = Ok (b, bal) ->
  (forall x a, acct_of (write_batch s b) x a =
     if bool_decide ((x, a) = (sx_asset tx, sx_actor tx))
     then {| balance := bal; nonce := nonce (acct_of s x a) |} else acct_of s x a) /\
  st_tickets (write_batch s b) = st_tickets s /\ in_u64 bal.
Proof.
  intros Hx Ham Hok Hacc. unfold stake_operation. rewrite Hx. intros H.
  assert (forall v, in_u64 v ->
    (forall x a, acct_of (apply_op s (PutAccount (sp_asset p) (sx_actor tx)
      {| balance := v; nonce := nonce (acct_of s (sp_asset p) (sx_actor tx)) |})) x a =
     if bool_decide ((x, a) = (sp_asset p, sx_actor tx))
     then {| balance := v; nonce := nonce (acct_of s x a) |} else acct_of s x a)) as Hput.
  { intros v _ x a. rewrite acct_of_put. case_bool_decide as E; [|done]. by injection E as -> ->. }
  pose proof (proj1 (ao_ints _ Hacc (sp_asset p) (sx_actor tx))) as Hbal.
  destruct (sx_kind tx).
  - apply rbind_Ok in H as (_ & _ & H). apply rbind_Ok in H as (b1 & Hb & H).
    apply rbind_Ok in H as (bal1 & Hc%ok_or_Ok & [= <- <-]). apply checked_sub_Some in Hc as [-> Hle].
    apply bond_inv in Hb as (_ & _ & _ & _ & ->). rewrite app_nil_l. cbn [write_batch foldl].
    split; [|split; [by destruct s|unfold in_u64 in *; lia]].
    intros x a. rewrite acct_of_apply_frame by done. apply Hput. unfold in_u64 in *; lia.
  - apply rbind_Ok in H as (b1 & Hb & H). apply rbind_Ok in H as (bal1 & Hc%ok_or_Ok & [= <- <-]).
    apply checked_sub_Some in Hc as [-> Hle].
    apply delegate_inv in Hb as (val & r & _ & _ & _ & _ & _ & _ & _ & ->). rewrite app_nil_l.
    cbn [write_batch foldl]. split; [|split; [by destruct s|unfold in_u64 in *; lia]].
    intros x a. rewrite !acct_of_apply_frame by done. apply Hput. unfold in_u64 in *; lia.
  - apply rbind_Ok in H as (b1 & Hb & [= <- <-]). apply unbond_inv in Hb as (val & _ & _ & ->).
    rewrite app_nil_l. cbn [write_batch foldl]. split; [|split; [by destruct s|done]].
    intros x a. rewrite !acct_of_apply_frame by done. case_bool_decide as E; [|done].
    injection E as -> ->. by destruct (acct_of s (sp_asset p) (sx_actor tx)).
  - apply rbind_Ok in H as ([b1 c] & Hb & H). apply rbind_Ok in H as (bal1 & Hc%ok_or_Ok & [= <- <-]).
    apply checked_add_Some in Hc as [-> Hle].
    apply withdraw_inv in Hb as [(_ & -> & ->)|(u & Hu & -> & _ & _ & ->)].
    + simpl. rewrite Z.add_0_r. split; [|done]. intros x a. case_bool_decide as E; [|done].
      injection E as -> ->. by destruct (acct_of s (sp_asset p) (sx_actor tx)).
    + pose proof (so_unbond _ Hok _ _ _ Hu) as Hui. rewrite app_nil_l. cbn [write_batch foldl].
      split; [|split; [by destruct s|unfold in_u64 in *; lia]].
      intros x a. rewrite acct_of_apply_frame by done. apply Hput. unfold in_u64 in *; lia.
Qed.

Definition stake_selector (tx : SignedStakeTx)
  : result DrcAccountSequenceError DrcAccountSequenceSelector :=
  if bool_decide (sx_asset tx = DRC)
  then resolve_drc_account_sequence (sx_version tx) STAKE_TX_TICKET_VERSION (sx_nonce tx)
         (sx_account_sequence tx)
  else Ok {| kind := Nonce; value := sx_nonce tx |}.

Section stake_tx_spec.
Context {Auth : Type}.
Variable verify_stake : StateStore -> SignedStakeTx -> Auth -> result StateError unit.

Lemma stake_tx_inv s tx (auth : Auth) p b :
  apply_signed_stake_tx verify_stake s [] tx auth p = Ok b ->
  exists sel ops n' b1 bal,
    verify_stake s tx auth = Ok tt /\ sx_asset tx = sp_asset p /\ sx_asset tx <> TLT /\
    stake_selector tx = Ok sel /\
    stake_operation s [] tx p (balance (acct_of s (sx_asset tx) (sx_actor tx))) = Ok (b1, bal) /\
    seq_effect s (sx_actor tx) (nonce (acct_of s (sx_asset tx) (sx_actor tx))) sel ops n' /\
    (kind sel = Ticket -> sx_asset tx = DRC) /\
    b = b1 ++ ops ++ [PutAccount (sx_asset tx) (sx_actor tx) {| balance := bal; nonce := n' |}].
Proof.
  unfold apply_signed_stake_tx. intros H.
  apply rbind_Ok in H as (_ & _ & H). apply rbind_Ok in H as (_ & Hx%ensure_Ok & H).
  apply bool_decide_eq_true_1 in Hx. apply rbind_Ok in H as ([] & Hauth & H).
  apply rbind_Ok in H as (acct & [Ht ->]%load_account_Ok & H).
  apply rbind_Ok in H as (_ & _ & H). apply rbind_Ok in H as (sq & Hsq & H).
  apply rbind_Ok in H as ([b1 bal] & Hop & H). apply rbind_Ok in H as ([b2 after] & Hfin & H).
  apply put_account_into_Ok in H as [_ ->]. unfold stake_selector. case_bool_decide as Hdrc.
  - apply rbind_Ok in Hsq as (sel & Hsel & Hsq). apply rbind_Ok in Hsq as ([c tb] & Hbeg & [= <-]).
    apply (sequence_run _ _ _ _ _ _ _ _ _ Hbeg) in Hfin as (ops & n' & -> & -> & Heff);
      [|simpl; by rewrite Hdrc].
    exists sel, ops, n', b1, bal. rewrite <- app_assoc. repeat (split; [done|]). split; [|done].
    unfold lift_sequence in Hsel. destruct (resolve_drc_account_sequence _ _ _ _); [|done].
    by injection Hsel as ->.
  - apply rbind_Ok in Hsq as (_ & Hn%ensure_Ok & [= <-]). apply Z.eqb_eq in Hn.
    apply rbind_Ok in Hfin as (n & Hadd%ok_or_Ok & [= <- <-]). apply checked_add_Some in Hadd as [-> Hle].
    exists {| kind := Nonce; value := sx_nonce tx |}, [], (sx_nonce tx + 1), b1, bal.
    do 5 (split; [done|]). rewrite Hn. split; [by constructor|]. done.
Qed.

Lemma ticket_ops_holdings s ops y :
  Forall (fun op => exists o, op_key op = KTickets o) ops -> holdings y (write_batch s ops) = holdings y s.
Proof.
  revert s. induction ops as [|op ops IH]; intros s Hf; [done|]. apply Forall_cons in Hf as [[o Ho] Hf].
  change (write_batch s (op :: ops)) with (write_batch (apply_op s op) ops). rewrite IH by done.
  rewrite holdings_apply. destruct op as [| | | | | | | | | | | | | | | | | | | | []]; simpl in *; try done; lia.
Qed.

(** C16: stake transactions conserve the asset, exactly.  Over every accepted
    stake transaction the holdings of each asset (liquid, bonded and
    delegated, unbonding, reward pool) are unchanged, except for what a bond
    over an existing validator record or an unbond over a pending unbonding
    entry overwrites. *)
Theorem stake_tx_conservation s (tx : SignedStakeTx) (auth : Auth) p b :
  staking_ok s -> accounts_ok s -> in_u64 (sx_amount tx) ->
  apply_signed_stake_tx verify_stake s [] tx auth p = Ok b ->
  forall y, holdings y (write_batch s b) =
    holdings y s - (if bool_decide (sx_asset tx = y) then stake_lost s tx else 0).
Proof.
  intros Hok Hacc Ham H y.
  apply stake_tx_inv in H as (sel & ops & n' & b1 & bal & _ & Hx & _ & _ & Hop & Heff & _ & ->).
  pose proof (stake_operation_holdings s tx p b1 bal y Hok Hx Hop) as Hh.
  destruct (stake_operation_accounts s tx p b1 bal) as (Ha & _ & _); try done; [unfold in_u64 in *; lia|].
  pose proof (seq_effect_keys _ _ _ _ _ _ Heff) as Hk.
  rewrite !write_batch_app. cbn [write_batch foldl]. rewrite holdings_apply. cbn [holdings_delta].
  fold (write_batch s b1). fold (write_batch (write_batch s b1) ops).
  rewrite ticket_ops_holdings by (eapply Forall_impl; [exact Hk|]; by eexists).
  rewrite acct_of_frame, Ha, Hh by (by eapply seq_effect_frame).
  rewrite (bool_decide_eq_true_2 ((_, _) = (_, _))) by done.
  simpl. case_bool_decide; lia.
Qed.
End stake_tx_spec.

(** ** Snapshots *)

Lemma by_address_total {V} : TotalCmp (@by_address V).
Proof. apply (on_total fst Z.compare). apply _. Qed.
Lemma unjail_stake e v :
  operator (unjail e v) = operator v /\ self_bond (unjail e v) = self_bond v /\
  delegated (unjail e v) = delegated v.
Proof. unfold unjail. by case_match. Qed.
Lemma voting_power_bounds v :
  0 <= self_bond v -> 0 <= delegated v -> 0 <= voting_power v <= self_bond v + delegated v.
Proof. intros. unfold voting_power, saturating_add, u64_max. case_bool_decide; lia. Qed.

Lemma snapshot_entry_Some x e k v o pw :
  snapshot_entry x e (k, v) = Some (o, pw) <->
  k.1 = x /\ o = operator v /\ pw = voting_power (unjail e v) /\ 0 < pw.
Proof.
  unfold snapshot_entry. simpl. destruct (unjail_stake e v) as (-> & _).
  case_bool_decide; [|naive_solver]. destruct (Z.ltb_spec 0 (voting_power (unjail e v))); naive_solver lia.
Qed.
Lemma elem_of_snapshot s x e o pw :
  staking_ok s ->
  (o, pw) ∈ validators (build_snapshot s x e) <->
  exists v, st_validators s !! (x, o) = Some v /\ pw = voting_power (unjail e v) /\ 0 < pw.
Proof.
  intros Hok. simpl. rewrite elem_of_sort_by, list_elem_of_omap. split.
  - intros ([k v] & Hin & He). apply elem_of_map_to_list in Hin.
    apply snapshot_entry_Some in He as (Hk & -> & -> & Hp). destruct k as [x' o']. simpl in Hk. subst x'.
    destruct (so_val _ Hok _ _ _ Hin) as [-> _]. eauto.
  - intros (v & Hv & -> & Hp). exists ((x, o), v). split; [by apply elem_of_map_to_list|].
    apply snapshot_entry_Some. by destruct (so_val _ Hok _ _ _ Hv) as [-> _].
Qed.
Lemma snapshot_operators_nodup s x e :
  staking_ok s -> NoDup (fst <$> validators (build_snapshot s x e)).
Proof.
  intros Hok. simpl. rewrite (sort_by_perm _ _).
  assert (forall l : list (NativeAssetId * Z * ValidatorRecord),
    (forall k v, (k, v) ∈ l -> operator v = k.2) -> NoDup (fst <$> l) ->
    NoDup (fst <$> omap (snapshot_entry x e) l)) as Hgen.
  { induction l as [|[k v] l IH]; intros Hop Hd; [constructor|].
    cbn [fmap list_fmap] in Hd. apply NoDup_cons in Hd as [Hnin Hd].
    assert (NoDup (fst <$> omap (snapshot_entry x e) l)) as IHl.
    { apply IH; [|done]. intros k' v' Hin. apply Hop. by right. }
    cbn [omap list_omap]. destruct (snapshot_entry x e (k, v)) as [[o pw]|] eqn:E; [|done].
    cbn [fmap list_fmap]. constructor; [|done]. intros Hin.
    apply list_elem_of_fmap in Hin as ([o' pw'] & Ho & Hin). simpl in Ho. subst o'.
    apply list_elem_of_omap in Hin as ([k' v'] & Hin & E').
    apply snapshot_entry_Some in E as (Hk & Ho & _). apply snapshot_entry_Some in E' as (Hk' & Ho' & _).
    rewrite (Hop k v) in Ho by left. rewrite (Hop k' v') in Ho' by (by right).
    apply Hnin. apply list_elem_of_fmap. exists (k', v'). split; [|done].
    destruct k, k'. simpl in *. congruence. }
  apply Hgen; [|apply NoDup_fst_map_to_list].
  intros [x' o'] v Hin%elem_of_map_to_list. by destruct (so_val _ Hok _ _ _ Hin) as [-> _].
Qed.
Lemma snapshot_powers_nonneg s x e :
  staking_ok s -> Forall (fun p => 0 <= p) (snd <$> validators (build_snapshot s x e)).
Proof.
  intros Hok. apply Forall_forall. intros p Hin. apply list_elem_of_fmap in Hin as ([o pw] & -> & Hin).
  apply elem_of_snapshot in Hin as (v & _ & _ & ?); [simpl; lia|done].
Qed.
(** Snapshot power is backed by bonded stake, so the sum does not wrap. *)
Lemma snapshot_sum_bonded s x e :
  staking_ok s -> zsum (snd <$> validators (build_snapshot s x e)) <= bonded_total x s.
Proof.
  intros Hok. simpl. unfold bonded_total. rewrite msum_list.
  rewrite (zsum_perm _ (snd <$> omap (snapshot_entry x e) (map_to_list (st_validators s))))
    by (apply fmap_Permutation, sort_by_perm).
  assert (forall kv, kv ∈ map_to_list (st_validators s) ->
    0 <= self_bond kv.2 /\ 0 <= delegated kv.2) as Hnn.
  { intros [[x' o] v] Hin%elem_of_map_to_list. destruct (so_val _ Hok _ _ _ Hin) as (_ & ? & ? & _).
    unfold in_u64 in *. simpl. lia. }
  revert Hnn. generalize (map_to_list (st_validators s)).
  induction l as [|[k v] l IH]; intros Hnn; [done|].
  assert (zsum (snd <$> omap (snapshot_entry x e) l) <=
    zsum ((fun kv => if bool_decide (kv.1.1 = x) then self_bond kv.2 + delegated kv.2 else 0) <$> l)) as IHl.
  { apply IH. intros kv Hin. apply Hnn. by right. }
  destruct (Hnn (k, v) ltac:(left)) as [Hs Hd]. simpl in Hs, Hd.
  rewrite fmap_cons, zsum_cons. cbn [fst snd].
  cbn [omap list_omap]. destruct (snapshot_entry x e (k, v)) as [[o pw]|] eqn:E.
  - apply snapshot_entry_Some in E as (Hk & _ & -> & _). rewrite bool_decide_eq_true_2 by done.
    destruct (unjail_stake e v) as (_ & E1 & E2).
    pose proof (voting_power_bounds (unjail e v)) as Hb. rewrite E1, E2 in Hb. specialize (Hb Hs Hd).
    rewrite fmap_cons, zsum_cons. cbn [snd]. lia.
  - case_bool_decide; lia.
Qed.
Lemma snapshot_total s x e :
  staking_ok s -> bonded_total x s <= u64_max ->
  total_active_stake (build_snapshot s x e) = zsum (snd <$> validators (build_snapshot s x e)).
Proof.
  intros Hok Hb. pose proof (snapshot_sum_bonded s x e Hok) as Hs.
  pose proof (zsum_nonneg _ (snapshot_powers_nonneg s x e Hok)) as Hn.
  unfold total_active_stake, build_snapshot at 1. apply as_u64_small. split; [exact Hn|]. etransitivity; [exact Hs|exact Hb].
Qed.

(** ** Signed stake and quorum intersection *)

Definition stake_in (P : Address -> bool) (vs : list (Address * Z)) : Z :=
  zsum ((fun e => if P e.1 then e.2 else 0) <$> vs).
Lemma stake_in_cons P e vs : stake_in P (e :: vs) = (if P e.1 then e.2 else 0) + stake_in P vs.
Proof. done. Qed.
Lemma stake_in_ext P Q vs : (forall o, P o = Q o) -> stake_in P vs = stake_in Q vs.
Proof. intros H. induction vs as [|e vs IH]; [done|]. by rewrite !stake_in_cons, H, IH. Qed.
Lemma stake_in_none P (vs : list (Address * Z)) :
  (forall o, o ∈ fst <$> vs -> P o = false) -> stake_in P vs = 0.
Proof.
  induction vs as [|e vs IH]; intros H; [done|]. rewrite stake_in_cons, (H e.1) by left.
  rewrite IH; [done|]. intros o Ho. apply H. by right.
Qed.
Lemma stake_in_nonneg P vs : Forall (fun p => 0 <= p) (snd <$> vs) -> 0 <= stake_in P vs.
Proof.
  induction vs as [|e vs IH]; [done|]. rewrite fmap_cons, Forall_cons. intros [He Hv].
  rewrite stake_in_cons. specialize (IH Hv). case_match; lia.
Qed.
(** Inclusion-exclusion, and the total as an upper bound. *)
Lemma stake_in_overlap P Q vs :
  Forall (fun p => 0 <= p) (snd <$> vs) ->
  stake_in P vs + stake_in Q vs <= zsum (snd <$> vs) + stake_in (fun o => P o && Q o) vs.
Proof.
  induction vs as [|e vs IH]; [done|]. rewrite !fmap_cons, Forall_cons. intros [He Hv].
  rewrite !stake_in_cons, zsum_cons. specialize (IH Hv). destruct (P e.1), (Q e.1); simpl; lia.
Qed.
Lemma stake_in_total P vs :
  Forall (fun p => 0 <= p) (snd <$> vs) -> stake_in P vs <= zsum (snd <$> vs).
Proof.
  induction vs as [|e vs IH]; [done|]. rewrite fmap_cons, Forall_cons. intros [He Hv].
  rewrite stake_in_cons, zsum_cons. specialize (IH Hv). case_match; lia.
Qed.

Lemma power_of_stake_in snap a :
  NoDup (fst <$> validators snap) -> power_of snap a = stake_in (fun o => o =? a) (validators snap).
Proof.
  unfold power_of. induction (validators snap) as [|e vs IH]; [done|].
  rewrite fmap_cons. intros [Hnin Hd]%NoDup_cons. rewrite stake_in_cons. cbn [List.find].
  destruct (Z.eqb_spec e.1 a) as [E|Hne]; [|by rewrite IH].
  rewrite stake_in_none; [lia|]. intros o Ho. apply Z.eqb_neq. congruence.
Qed.

Section signed_stake.
Variable snap : ValidatorSetSnapshot.
Hypothesis snap_nodup : NoDup (fst <$> validators snap).
Hypothesis snap_nonneg : Forall (fun p => 0 <= p) (snd <$> validators snap).
Hypothesis snap_fits : zsum (snd <$> validators snap) <= u64_max.

Lemma stake_in_members l :
  NoDup l -> stake_in (fun o => bool_decide (o ∈ l)) (validators snap) = zsum (power_of snap <$> l).
Proof.
  induction l as [|a l IH]; intros Hl.
  - rewrite stake_in_none; [done|]. intros o _. apply bool_decide_eq_false_2, not_elem_of_nil.
  - apply NoDup_cons in Hl as [Hnin Hl]. rewrite fmap_cons, zsum_cons, <- IH, power_of_stake_in by done. clear -Hnin.
    induction (validators snap) as [|e vs IH]; [done|]. rewrite !stake_in_cons, IH. destruct (Z.eqb_spec e.1 a) as [->|Hne].
    + rewrite bool_decide_eq_true_2 by left. rewrite bool_decide_eq_false_2 by done. lia.
    + destruct (decide (e.1 ∈ l)).
      * rewrite !bool_decide_eq_true_2 by (done || by right). lia.
      * rewrite !bool_decide_eq_false_2; [lia|done|]. rewrite elem_of_cons. tauto.
Qed.
Lemma power_of_nonneg a : 0 <= power_of snap a.
Proof. rewrite power_of_stake_in by done. by apply stake_in_nonneg. Qed.
Lemma signed_stake_exact signers :
  NoDup signers ->
  signed_stake_for snap signers = stake_in (fun o => bool_decide (o ∈ signers)) (validators snap).
Proof.
  intros Hd. unfold signed_stake_for.
  assert (forall l acc, 0 <= acc -> acc + zsum (power_of snap <$> l) <= u64_max ->
    foldl (fun total a => saturating_add u64_max total (power_of snap a)) acc l = acc + zsum (power_of snap <$> l)) as Hgen.
  { induction l as [|a l IH]; intros acc Hacc Hle; [simpl; lia|]. rewrite fmap_cons, zsum_cons in *. cbn [foldl].
    pose proof (power_of_nonneg a). assert (0 <= zsum (power_of snap <$> l)).
    { apply zsum_nonneg, Forall_fmap, Forall_forall. intros x _. apply power_of_nonneg. }
    rewrite saturating_add_exact by lia. rewrite IH by lia. lia. }
  rewrite stake_in_members by done. rewrite Hgen; [lia|lia|]. rewrite <- stake_in_members by done.
  pose proof (stake_in_total (fun o => bool_decide (o ∈ signers)) _ snap_nonneg). lia.
Qed.
Lemma signed_stake_in_u64 signers : NoDup signers -> in_u64 (signed_stake_for snap signers).
Proof.
  intros Hd. rewrite signed_stake_exact by done. split; [by apply stake_in_nonneg|].
  etransitivity; [by apply stake_in_total|done].
Qed.
End signed_stake.

(** What some validators gained between two snapshots. *)
Definition gained (snap1 snap2 : ValidatorSetSnapshot) (l : list Address) : Z :=
  zsum ((fun v => Z.max 0 (power_of snap2 v - power_of snap1 v)) <$> l).
Lemma gained_power snap1 snap2 l : zsum (power_of snap2 <$> l) <= zsum (power_of snap1 <$> l) + gained snap1 snap2 l.
Proof. unfold gained. induction l as [|a l IH]; [done|]. rewrite !fmap_cons, !zsum_cons. lia. Qed.
Lemma gained_same snap1 snap2 l : validators snap1 = validators snap2 -> gained snap1 snap2 l = 0.
Proof. intros E. unfold gained, power_of. rewrite E. induction l as [|a l IH]; [done|]. rewrite fmap_cons, zsum_cons, IH. lia. Qed.

(** The facts of a snapshot the sums need. *)
Record snapshot_ok (snap : ValidatorSetSnapshot) : Prop := {
  sn_nodup : NoDup (fst <$> validators snap);
  sn_nonneg : Forall (fun p => 0 <= p) (snd <$> validators snap);
  sn_fits : zsum (snd <$> validators snap) <= u64_max;
  sn_total : total_active_stake snap = zsum (snd <$> validators snap);
}.
Lemma build_snapshot_ok s x e : staking_ok s -> bonded_total x s <= u64_max -> snapshot_ok (build_snapshot s x e).
Proof.
  intros Hok Hb. split; [by apply snapshot_operators_nodup|by apply snapshot_powers_nonneg| |by apply snapshot_total].
  etransitivity; [by apply snapshot_sum_bonded|done].
Qed.
(** Two quorums, each on its own snapshot, overlap. *)
Lemma quorums_overlap snap1 snap2 V1 V2 :
  snapshot_ok snap1 -> snapshot_ok snap2 -> NoDup V1 -> NoDup V2 ->
  has_two_thirds_quorum (signed_stake_for snap1 V1) (total_active_stake snap1) = true ->
  has_two_thirds_quorum (signed_stake_for snap2 V2) (total_active_stake snap2) = true ->
  0 < total_active_stake snap1 /\
  2 * total_active_stake snap2 - total_active_stake snap1 - 3 * gained snap1 snap2 V2 <=
    3 * signed_stake_for snap1 (filter (fun v => v ∈ V2) V1).
Proof.
  intros [N1 P1 F1 T1] [N2 P2 F2 T2] Hd1 Hd2 Hq1 Hq2.
  apply quorum_iff in Hq1 as [Hpos Hq1]; [|by apply signed_stake_in_u64|rewrite T1; split; [by apply zsum_nonneg|done]].
  apply quorum_iff in Hq2 as [_ Hq2]; [|by apply signed_stake_in_u64|rewrite T2; split; [by apply zsum_nonneg|done]].
  assert (signed_stake_for snap1 (filter (fun v => v ∈ V2) V1) =
    stake_in (fun o => bool_decide (o ∈ V1) && bool_decide (o ∈ V2)) (validators snap1)) as ->.
  { rewrite signed_stake_exact by (done || by apply NoDup_filter). apply stake_in_ext. intros o.
    rewrite <- bool_decide_and. apply bool_decide_ext. rewrite list_elem_of_filter. tauto. }
  pose proof (stake_in_overlap (fun o => bool_decide (o ∈ V1)) (fun o => bool_decide (o ∈ V2)) (validators snap1) P1) as Hov. cbv beta in Hov.
  rewrite signed_stake_exact in Hq1, Hq2 by done. pose proof (gained_power snap1 snap2 V2) as Hg.
  rewrite <- !stake_in_members in Hg by done. split; [done|]. lia.
Qed.

Section accountability.
Variable checkpoint_id : CheckpointBody -> Hash.
Variable hash_pair : Hash -> Hash -> Hash.

(** C12: Accountable safety, with the validator set read anew for each checkpoint.
    Let two different checkpoints of one epoch each gather a two-thirds quorum
    of those who signed that very checkpoint, weighed by the snapshot the store
    gave when it was counted.  Then the validators who signed both hold, in the
    first snapshot, at least two thirds of the second total less a third of the
    first total and less what the second quorum's signers gained in between;
    when the set did not change that is a third of the stake.  For each of them the
    two attestations yield double-signing evidence against exactly that
    validator.  (Votes the index kept from an older body of the same block are
    not signatures of the checkpoint and are not counted here.) *)
Theorem accountable_safety s1 s2 x e b1 b2 (atts1 atts2 : list CheckpointAttestation) :
  staking_ok s1 -> bonded_total x s1 <= u64_max -> staking_ok s2 -> bonded_total x s2 <= u64_max ->
  checkpoint_id b1 <> checkpoint_id b2 -> validator_epoch b1 = e -> validator_epoch b2 = e ->
  (forall a, a ∈ atts1 -> att_set a = x /\ att_body a = b1) ->
  (forall a, a ∈ atts2 -> att_set a = x /\ att_body a = b2) ->
  NoDup (att_validator <$> atts1) -> NoDup (att_validator <$> atts2) ->
  let snap1 := build_snapshot s1 x e in
  let snap2 := build_snapshot s2 x e in
  has_two_thirds_quorum (signed_stake_for snap1 (att_validator <$> atts1)) (total_active_stake snap1) = true ->
  has_two_thirds_quorum (signed_stake_for snap2 (att_validator <$> atts2)) (total_active_stake snap2) = true ->
  exists guilty, NoDup guilty /\
    2 * total_active_stake snap2 - total_active_stake snap1 - 3 * gained snap1 snap2 (att_validator <$> atts2)
      <= 3 * signed_stake_for snap1 guilty /\
    (validators snap1 = validators snap2 ->
       0 < signed_stake_for snap1 guilty /\ total_active_stake snap1 <= 3 * signed_stake_for snap1 guilty) /\
    forall v, v ∈ guilty -> exists a1 a2 ev, a1 ∈ atts1 /\ a2 ∈ atts2 /\
      detect_double_checkpoint checkpoint_id hash_pair a1 a2 = Some ev /\
      ev_validator ev = v /\ ev_set ev = x.
Proof.
  intros Hok1 Hb1 Hok2 Hb2 Hid He1 He2 Ha1 Ha2 Hd1 Hd2 snap1 snap2 Hq1 Hq2.
  pose proof (build_snapshot_ok s1 x e Hok1 Hb1) as S1. pose proof (build_snapshot_ok s2 x e Hok2 Hb2) as S2. fold snap1 in S1. fold snap2 in S2.
  destruct (quorums_overlap snap1 snap2 _ _ S1 S2 Hd1 Hd2 Hq1 Hq2) as [Hpos Hle].
  exists (filter (fun v => v ∈ att_validator <$> atts2) (att_validator <$> atts1)). split; [by apply NoDup_filter|]. split; [exact Hle|]. split.
  - intros E. rewrite (gained_same _ _ _ E) in Hle. rewrite (sn_total _ S2), <- E, <- (sn_total _ S1) in Hle. lia.
  - intros v Hv. apply list_elem_of_filter in Hv as [Hv2 Hv1].
    apply list_elem_of_fmap in Hv1 as (a1 & -> & Hin1). apply list_elem_of_fmap in Hv2 as (a2 & Ev & Hin2).
    destruct (Ha1 a1 Hin1) as [Hs1 Hbo1], (Ha2 a2 Hin2) as [Hs2 Hbo2].
    exists a1, a2. unfold detect_double_checkpoint.
    rewrite Ev, Z.eqb_refl, Hs1, Hs2, bool_decide_eq_true_2, Hbo1, Hbo2, He1, He2, Z.eqb_refl by done.
    rewrite (proj2 (Z.eqb_neq _ _) Hid). simpl. eexists. by rewrite <- Ev.
Qed.
End accountability.

(** Three equal validators: two quorums of two overlap in one. *)
Definition bonded_at (n : Z) (o : Address) : ValidatorRecord :=
  {| operator := o; consensus_pubkey := []; withdrawal := o; self_bond := n; delegated := 0;
     commission_bps := 0; status := Bonded; jailed_until_epoch := 0; metadata_hash := 0 |}.
Definition demo_validator (o : Address) : ValidatorRecord := bonded_at 100 o.
(** The third validator's bond is [n]. *)
Definition third_at (n : Z) : StateStore :=
  write_batch empty_store [PutValidator OVL 1 (demo_validator 1); PutValidator OVL 2 (demo_validator 2); PutValidator OVL 3 (bonded_at n 3)].
Definition demo_stake : StateStore := third_at 100.
Lemma third_at_ok n : 0 <= n <= 1000 -> staking_ok (third_at n).
Proof.
  intros Hn. split; unfold third_at; simpl.
  - intros x o v. rewrite !lookup_insert_Some. intros H.
    repeat destruct H as [[[= <- <-] <-]|[_ H]]; simpl; try (unfold_ints; lia). by rewrite lookup_empty in H.
  - intros x o u. by rewrite lookup_empty.
  - intros x d o r. by rewrite lookup_empty.
  - intros x. unfold load_reward_pool. simpl. rewrite lookup_empty. unfold_ints. simpl. lia.
Qed.
Lemma demo_stake_ok : staking_ok demo_stake.
Proof. apply third_at_ok. lia. Qed.
Definition demo_att (root v : Z) : CheckpointAttestation :=
  {| att_body := {| chain_id := "c"; genesis_hash := 0; consensus_policy_hash := 0;
                    state_transition_version := "v"; cb_blue_score := 1; block_hash := 7;
                    state_root := root; validator_epoch := 0 |};
     att_set := OVL; att_validator := v; att_public_key := []; att_signature := [] |}.
(** The third validator bonds 3 more between the two quorums. *)
Lemma accountable_safety_witness :
  exists guilty, 297 <= 3 * signed_stake_for (build_snapshot demo_stake OVL 0) guilty /\
    forall v, v ∈ guilty -> exists a1 a2 ev,
      a1 ∈ [demo_att 1 1; demo_att 1 2] /\ a2 ∈ [demo_att 2 2; demo_att 2 3] /\
      detect_double_checkpoint state_root Z.add a1 a2 = Some ev /\ ev_validator ev = v.
Proof.
  destruct (accountable_safety state_root Z.add demo_stake (third_at 103) OVL 0 (att_body (demo_att 1 1))
    (att_body (demo_att 2 2)) [demo_att 1 1; demo_att 1 2] [demo_att 2 2; demo_att 2 3])
    as (g & _ & Hg & _ & Hev).
  - apply demo_stake_ok.
  - vm_compute. discriminate.
  - apply third_at_ok. lia.
  - vm_compute. discriminate.
  - discriminate.
  - reflexivity.
  - reflexivity.
  - intros a Ha. repeat (apply elem_of_cons in Ha as [->|Ha]; [by split|]). by apply elem_of_nil in Ha.
  - intros a Ha. repeat (apply elem_of_cons in Ha as [->|Ha]; [by split|]). by apply elem_of_nil in Ha.
  - apply (bool_decide_eq_true_1 _). vm_compute. reflexivity.
  - apply (bool_decide_eq_true_1 _). vm_compute. reflexivity.
  - vm_compute. reflexivity.
  - vm_compute. reflexivity.
  - exists g. split; [exact Hg|]. intros v Hv. destruct (Hev v Hv) as (a1 & a2 & ev & ? & ? & ? & ? & _).
    exists a1, a2, ev. auto.
Defined.

(** ** Slashing *)

Lemma evidence_inv s ev policy b slash :
  apply_evidence s [] ev policy = Ok (b, slash) ->
  exists val st until,
    ev_set ev <> TLT /\ load_validator s (ev_set ev) (ev_validator ev) = Some val /\
    let bonded := saturating_add u64_max (self_bond val) (delegated val) in
    let from_self := Z.min slash (self_bond val) in
    slash = (penalty_for policy (ev_kind ev) bonded).1.1 /\
    ((penalty_for policy (ev_kind ev) bonded).1.2 = true -> st = Tombstoned) /\
    (0 < slash -> load_reward_pool s (ev_set ev) + slash <= u64_max) /\
    b = [PutValidator (ev_set ev) (operator val)
           {| operator := operator val; consensus_pubkey := consensus_pubkey val;
              withdrawal := withdrawal val; self_bond := self_bond val - from_self;
              delegated := delegated val - Z.min (slash - from_self) (delegated val);
              commission_bps := commission_bps val; status := st; jailed_until_epoch := until;
              metadata_hash := metadata_hash val |}] ++
        (if 0 <? slash then [PutRewardPool (ev_set ev) (load_reward_pool s (ev_set ev) + slash)] else []).
Proof.
  unfold apply_evidence. intros H.
  apply rbind_Ok in H as (_ & Ha%ensure_Ok & H). apply is_account_asset_spec in Ha.
  apply rbind_Ok in H as (val & Hv%ok_or_Ok & H). cbv zeta in H.
  destruct (penalty_for policy (ev_kind ev) _) as [[sl tomb] jail] eqn:Hpen.
  set (sj := if tomb then (Tombstoned, jailed_until_epoch val)
             else if 0 <? jail
                  then (Jailed, saturating_add u64_max (load_epoch s (ev_set ev)) jail)
                  else (status val, jailed_until_epoch val)) in H.
  assert (tomb = true -> sj.1 = Tombstoned) as Hst by (unfold sj; by intros ->).
  destruct sj as [st until]. unfold put_validator_into in H. cbn [app] in H.
  apply rbind_Ok in H as (b1 & Hb & [= <- <-]). exists val, st, until. cbv zeta. rewrite Hpen. cbn [fst snd] in *.
  do 2 (split; [done|]). split; [done|]. split; [done|]. destruct (0 <? sl) eqn:Hlt.
  - apply rbind_Ok in Hb as ([b2 nx] & Hc & [= <-]). unfold credit_reward_pool_into in Hc.
    apply rbind_Ok in Hc as (_ & _ & Hc). apply rbind_Ok in Hc as (n & Hn%ok_or_Ok & [= <- <-]).
    apply checked_add_Some in Hn as [-> Hle]. done.
  - injection Hb as <-. split; [|done]. apply Z.ltb_ge in Hlt. lia.
Qed.

(** A validator's stake is part of the bonded total. *)
Lemma stake_at_le s x o v :
  staking_ok s -> load_validator s x o = Some v ->
  stake_at s x o = self_bond v + delegated v /\ self_bond v + delegated v <= bonded_total x s.
Proof.
  intros Hok Hv. unfold stake_at, bonded_total. unfold load_validator in Hv. rewrite Hv. split; [done|].
  pose proof (msum_lookup_le (fun k v => if bool_decide (k.1 = x) then self_bond v + delegated v else 0)
    (x, o) v (st_validators s)) as Hm. cbn [fst] in Hm. rewrite bool_decide_eq_true_2 in Hm by done.
  apply Hm; [|exact Hv]. intros [x' o'] v' Hv'. destruct (so_val _ Hok _ _ _ Hv') as (_ & ? & ? & _).
  unfold in_u64 in *. case_bool_decide; lia.
Qed.

(** Slashing moves stake, it does not destroy it.  Evidence against a
    validator takes between nothing and all of its stake, first from its own
    bond and then from its delegations; exactly what it takes enters the reward
    pool, so holdings are unchanged; no other validator is touched; and
    equivocation leaves the validator tombstoned. *)
Lemma slash_conservation s ev policy b slash :
  staking_ok s -> bonded_total (ev_set ev) s <= u64_max -> slash_policy_ok policy ->
  apply_evidence s [] ev policy = Ok (b, slash) ->
  let t := write_batch s b in let x := ev_set ev in
  0 <= slash <= stake_at s x (ev_validator ev) /\
  stake_at t x (ev_validator ev) = stake_at s x (ev_validator ev) - slash /\
  load_reward_pool t x = load_reward_pool s x + slash /\
  (forall y, holdings y t = holdings y s) /\
  (forall y o, (y, o) <> (x, ev_validator ev) -> st_validators t !! (y, o) = st_validators s !! (y, o)) /\
  (ev_kind ev = DoubleCheckpointSignature ->
     exists v, load_validator t x (ev_validator ev) = Some v /\ status v = Tombstoned).
Proof.
  intros Hok Hbt Hpol H. cbv zeta.
  apply evidence_inv in H as (val & st & until & Ht & Hv & Hsl & Hst & _ & ->). cbv zeta in *.
  destruct (so_val _ Hok _ _ _ Hv) as (Ho & Hs & Hd & _).
  destruct (stake_at_le _ _ _ _ Hok Hv) as [Est Hle].
  unfold in_u64 in Hs, Hd. rewrite saturating_add_exact in Hsl, Hst by lia.
  pose proof (penalty_le policy (ev_kind ev) (self_bond val + delegated val)) as Hp. rewrite <- Hsl in Hp.
  specialize (Hp ltac:(unfold in_u64; lia) Hpol).
  rewrite Est, Ho. unfold write_batch. cbn [app foldl]. split; [exact Hp|].
  assert (forall o2, stake_at (apply_op s (PutValidator (ev_set ev) (ev_validator ev) o2))
    (ev_set ev) (ev_validator ev) = self_bond o2 + delegated o2) as Eput.
  { intros o2. unfold stake_at. destruct s; simpl. by rewrite lookup_insert_eq. }
  destruct (Z.ltb_spec 0 slash) as [Hpos|Hz]; cbn [foldl].
  - rewrite stake_at_frame, Eput by done. cbn [self_bond delegated]. split; [lia|].
    split; [unfold load_reward_pool; destruct s; simpl; by rewrite lookup_insert_eq|].
    split; [intros y; holdings_run; rewrite Est; cbn [self_bond delegated]; case_bool_decide; lia|].
    split; [intros y o Hne; destruct s; simpl; by rewrite lookup_insert_ne by congruence|].
    intros Hk. unfold load_validator. destruct s; simpl. rewrite lookup_insert_eq. eexists. split; [done|].
    simpl. apply Hst. by rewrite Hk.
  - rewrite Eput. cbn [self_bond delegated]. split; [lia|].
    split; [rewrite reward_pool_frame by done; lia|].
    split; [intros y; holdings_run; rewrite Est; cbn [self_bond delegated]; case_bool_decide; lia|].
    split; [intros y o Hne; destruct s; simpl; by rewrite lookup_insert_ne by congruence|].
    intros Hk. unfold load_validator. destruct s; simpl. rewrite lookup_insert_eq. eexists. split; [done|].
    simpl. apply Hst. by rewrite Hk.
Qed.
(** ** A finding about jailed validators *)

Lemma power_of_elem snap o pw :
  NoDup (fst <$> validators snap) -> (o, pw) ∈ validators snap -> power_of snap o = pw.
Proof.
  unfold power_of. induction (validators snap) as [|en vs IH]; intros Hd Hin; [by apply elem_of_nil in Hin|].
  rewrite fmap_cons in Hd. apply NoDup_cons in Hd as [Hnin Hd]. cbn [List.find].
  apply elem_of_cons in Hin as [<-|Hin]; [by rewrite Z.eqb_refl|].
  destruct (Z.eqb_spec en.1 o) as [E|Hne]; [|by apply IH].
  exfalso. apply Hnin. apply list_elem_of_fmap. exists (o, pw). by rewrite E.
Qed.

(** a released validator weighs on the quorum but cannot vote (finding).
    Once the jail term of a validator is over, every snapshot counts its whole
    stake in the active total again, but its record still says jailed, so each
    of its attestations is refused whatever key it carries. *)
Theorem released_validator_cannot_attest s x o v e att :
  staking_ok s -> st_validators s !! (x, o) = Some v ->
  status v = Jailed -> jailed_until_epoch v <= e -> 0 < self_bond v + delegated v <= u64_max ->
  att_set att = x -> att_validator att = o ->
  power_of (build_snapshot s x e) o = self_bond v + delegated v /\
  validator_key_matches s att = false.
Proof.
  intros Hok Hv Hj Hu Hpos Hs Ho. split.
  - apply power_of_elem; [by apply snapshot_operators_nodup|]. apply elem_of_snapshot; [done|].
    exists v. split; [done|]. unfold unjail. rewrite bool_decide_eq_true_2 by done.
    rewrite (proj2 (Z.leb_le _ _) Hu). simpl. unfold voting_power. simpl.
    rewrite saturating_add_exact by lia. lia.
  - unfold validator_key_matches, load_validator. rewrite Hs, Ho, Hv.
    rewrite (bool_decide_eq_false_2 (status v = Bonded)) by (rewrite Hj; done). apply andb_false_r.
Qed.
Definition jailed_store : StateStore :=
  write_batch demo_stake
    [PutValidator OVL 2 {| operator := 2; consensus_pubkey := []; withdrawal := 2; self_bond := 99;
       delegated := 0; commission_bps := 0; status := Jailed; jailed_until_epoch := 1; metadata_hash := 0 |}].
Lemma released_validator_cannot_attest_witness :
  validator_key_matches jailed_store (demo_att 1 2) = false /\
  power_of (build_snapshot jailed_store OVL 1) 2 = 99.
Proof.
  assert (staking_ok jailed_store) as Hok.
  { destruct demo_stake_ok as [H1 H2 H3 H4]. split; [|exact H2|exact H3|exact H4].
    intros x o v. unfold jailed_store. simpl. rewrite lookup_insert_Some.
    intros [[[= <- <-] <-]|[_ Hv]]; [simpl; unfold_ints; lia|]. exact (H1 x o v Hv). }
  edestruct (released_validator_cannot_attest jailed_store OVL 2) with (e := 1) (att := demo_att 1 2)
    as [Hp Hk]; [exact Hok|vm_compute; reflexivity|reflexivity|simpl; lia|unfold_ints; simpl; lia
    |reflexivity|reflexivity|].
  split; [exact Hk|exact Hp].
Defined.
