(* ===== verification/Rewards.v ===== *)
(** * Reward distribution and epochs

    The payout loop of [distribute_reward_pool_amount] and the epoch
    transition [advance_epoch_with_params] ([staking/mod.rs]): what is paid is
    exactly what leaves the pool, and an epoch creates exactly what it issues. *)

From stdpp Require Import base gmap list fin_maps strings sorting.
From Stdlib Require Import ZArith Lia.
From S2P Require Import Prelude Ordering Sums Types Finality Store Supply Accounts Staking StakingProps.
Local Open Scope Z_scope.

(** ** Credits *)

Definition csum (c : gmap Address Z) : Z := msum (fun _ v => v) c.
Definition credits_nonneg (c : gmap Address Z) : Prop := forall a v, c !! a = Some v -> 0 <= v.

Lemma csum_nonneg c : credits_nonneg c -> 0 <= csum c.
Proof. intros Hc. by apply msum_nonneg. Qed.
Lemma add_credit_sum c a amt :
  credits_nonneg c -> 0 <= amt -> csum c + amt <= u64_max ->
  csum (add_credit c a amt) = csum c + amt /\ credits_nonneg (add_credit c a amt).
Proof.
  intros Hc Ha Hle. unfold add_credit, csum in *. rewrite msum_insert.
  destruct (c !! a) as [v|] eqn:E; simpl.
  - assert (v <= msum (fun _ v => v) c) by (by apply (msum_lookup_le (fun _ v => v) a v)).
    pose proof (Hc _ _ E). rewrite saturating_add_exact by lia. split; [lia|].
    intros a' v' [[<- <-]|[_ Hv]]%lookup_insert_Some; [lia|by apply (Hc a')].
  - split; [lia|]. intros a' v' [[<- <-]|[_ Hv]]%lookup_insert_Some; [lia|by apply (Hc a')].
Qed.
Lemma add_credits_sum (pieces : list (Address * Z)) c :
  credits_nonneg c -> Forall (fun p => 0 <= p) (snd <$> pieces) -> csum c + zsum (snd <$> pieces) <= u64_max ->
  csum (foldl (fun c pc => add_credit c pc.1 pc.2) c pieces) = csum c + zsum (snd <$> pieces) /\
  credits_nonneg (foldl (fun c pc => add_credit c pc.1 pc.2) c pieces).
Proof.
  revert c. induction pieces as [|[a amt] pieces IH]; intros c Hc Hp Hle; [simpl; split; [lia|done]|].
  rewrite fmap_cons, Forall_cons in Hp. destruct Hp as [Hamt Hp]. rewrite fmap_cons, zsum_cons in Hle |- *.
  simpl in Hamt, Hle |- *. pose proof (zsum_nonneg _ Hp) as Hz.
  destruct (add_credit_sum c a amt) as [E Hc']; [done|done|lia|].
  destruct (IH (add_credit c a amt)) as [E2 Hc2]; [done|done|rewrite E; lia|]. rewrite E2, E. split; [lia|done].
Qed.
Lemma saturating_fold_sum l :
  Forall (fun p => 0 <= p) l -> zsum l <= u64_max -> foldl (saturating_add u64_max) 0 l = zsum l.
Proof.
  assert (forall l acc, Forall (fun p => 0 <= p) l -> 0 <= acc -> acc + zsum l <= u64_max ->
    foldl (saturating_add u64_max) acc l = acc + zsum l) as Hgen.
  { clear l. induction l as [|x l' IH]; intros acc Hf Ha Hle; [simpl; lia|].
    apply Forall_cons in Hf as [Hx Hf]. rewrite zsum_cons in Hle |- *. pose proof (zsum_nonneg _ Hf).
    simpl. rewrite saturating_add_exact by lia. rewrite IH by (done || lia). lia. }
  intros Hf Hle. rewrite Hgen by (done || lia). lia.
Qed.

(** ** One validator's payout *)

Definition delegated_sum (ds : list DelegationRecord) : Z := zsum (del_amount <$> ds).

(** Floor shares of [k] by parts of [n] do not exceed [k]. *)
Lemma pieces_bound ac bonded ds :
  0 <= ac -> ac <= u64_max -> 0 < bonded -> Forall (fun d => 0 <= del_amount d) ds ->
  delegated_sum ds <= bonded ->
  let pieces := delegator_pieces ac bonded ds in
  Forall (fun p => 0 <= p) (snd <$> pieces) /\
  bonded * zsum (snd <$> pieces) <= ac * delegated_sum ds.
Proof.
  intros Hac Hmax Hb Hds Hle pieces. subst pieces. revert Hle.
  induction Hds as [|d ds Hd Hds IH]; intros Hle; [split; [constructor|unfold delegated_sum; simpl; lia]|].
  unfold delegated_sum in *. rewrite fmap_cons, zsum_cons in Hle |- *.
  assert (0 <= zsum (del_amount <$> ds)) as Hz by (apply zsum_nonneg; by apply Forall_fmap).
  destruct IH as [IHf IHs]; [lia|]. unfold delegator_pieces in *. cbn [omap list_omap].
  destruct (Z.eqb_spec (del_amount d) 0) as [E|E]; [rewrite E; split; [exact IHf|etransitivity; [exact IHs|lia]]|].
  assert (0 <= ac * del_amount d / bonded) as Hq0 by (apply Z.div_pos; nia).
  assert (bonded * (ac * del_amount d / bonded) <= ac * del_amount d) as Hq by by apply Z.mul_div_le.
  assert (ac * del_amount d / bonded <= ac) as Hq1 by (apply Z.div_le_upper_bound; nia).
  rewrite as_u64_small by (unfold in_u64; lia).
  destruct (Z.ltb_spec 0 (ac * del_amount d / bonded)).
  - rewrite fmap_cons, zsum_cons, Forall_cons. cbn [snd].
    split; [by split|]. rewrite !Z.mul_add_distr_l. apply Z.add_le_mono; [exact Hq|exact IHs].
  - split; [exact IHf|]. etransitivity; [exact IHs|]. nia.
Qed.

Lemma pay_validator_step s x snap pool rem c op pw val :
  let T := total_active_stake snap in
  in_u64 pool -> 0 < T -> 0 <= pw <= T ->
  load_validator s x op = Some val ->
  in_u64 (self_bond val) -> in_u64 (delegated val) -> self_bond val + delegated val <= u64_max ->
  0 <= commission_bps val <= 10000 ->
  Forall (fun d => 0 <= del_amount d) (delegations_of s x op) ->
  delegated_sum (delegations_of s x op) <= delegated val ->
  credits_nonneg c -> 0 <= rem -> rem + csum c = pool -> pool * pw <= T * rem ->
  let '(rem', c') := pay_validator s x snap pool (rem, c) (op, pw) in
  credits_nonneg c' /\ 0 <= rem' /\ rem' + csum c' = pool /\ T * rem - pool * pw <= T * rem'.
Proof.
  intros T Hpool HT Hpw Hv Hs Hd Hsd Hcm Hdn Hds Hc Hrem Hsum Hinv. unfold in_u64 in *. cbn [pay_validator].
  pose proof (csum_nonneg c Hc) as Hcs.
  destruct (Z.eqb_spec pw 0) as [->|Hpw0]; [repeat split; (done || lia)|].
  fold T. assert (0 <= pool * pw / T) as Hsh0 by (apply Z.div_pos; nia).
  assert (T * (pool * pw / T) <= pool * pw) as HshT by by apply Z.mul_div_le.
  assert (pool * pw / T <= rem) as Hshr by nia.
  rewrite (as_u64_small (pool * pw / T)) by (unfold in_u64; lia).
  set (share := pool * pw / T) in *. clearbody share.
  destruct (Z.eqb_spec share 0) as [E0|Hsh]; [repeat split; (done || nia)|]. rewrite Hv. cbv zeta.
  assert (0 <= share * commission_bps val / 10000 <= share) as Hcom.
  { split; [apply Z.div_pos; nia|]. apply Z.div_le_upper_bound; nia. }
  unfold MAX_VALIDATOR_COMMISSION_BPS. rewrite (as_u64_small (share * _ / 10000)) by (unfold in_u64; lia).
  set (com := share * commission_bps val / 10000) in *. clearbody com.
  rewrite (saturating_sub_exact share com) by lia. rewrite (saturating_add_exact u64_max (self_bond val)) by lia.
  set (bonded := Z.max (self_bond val + delegated val) 1). assert (0 < bonded) as Hb by lia.
  assert (self_bond val + delegated val <= bonded) as Hb2 by lia. clearbody bonded.
  set (ac := share - com). assert (0 <= ac <= share) as Hac by lia. assert (com + ac = share) as Hca by lia.
  clearbody ac.
  assert (0 <= ac * self_bond val / bonded <= ac) as Hop.
  { split; [apply Z.div_pos; nia|]. apply Z.div_le_upper_bound; nia. }
  assert (bonded * (ac * self_bond val / bonded) <= ac * self_bond val) as Hop2 by by apply Z.mul_div_le.
  rewrite (as_u64_small (ac * self_bond val / bonded)) by (unfold in_u64; lia).
  set (ops := ac * self_bond val / bonded) in *. clearbody ops.
  destruct (pieces_bound ac bonded (delegations_of s x op)) as [Hpf Hps]; try lia; [done|].
  set (pieces := delegator_pieces ac bonded (delegations_of s x op)) in *. clearbody pieces.
  pose proof (zsum_nonneg _ Hpf) as Hz.
  assert (ops + zsum (snd <$> pieces) <= ac) as Hpaid.
  { assert (bonded * (ops + zsum (snd <$> pieces)) <= bonded * ac) as Hm; [|nia].
    rewrite Z.mul_add_distr_l. etransitivity; [apply Z.add_le_mono; [exact Hop2|exact Hps]|]. nia. }
  rewrite saturating_fold_sum by (done || lia).
  rewrite (as_u64_small (ops + _)) by (unfold in_u64; lia). rewrite (saturating_sub_exact ac) by lia.
  rewrite (saturating_add_exact u64_max com ops) by lia. rewrite saturating_add_exact by lia.
  destruct (add_credits_sum pieces c) as [E1 Hc1]; [done|done|lia|].
  set (c1 := foldl (fun c pc => add_credit c pc.1 pc.2) c pieces) in *. clearbody c1.
  rewrite (saturating_sub_exact rem share) by lia.
  destruct (Z.ltb_spec 0 (com + ops + (ac - (ops + zsum (snd <$> pieces))))).
  - destruct (add_credit_sum c1 (withdrawal val) (com + ops + (ac - (ops + zsum (snd <$> pieces)))))
      as [E2 Hc2]; [done|lia|lia|]. rewrite E2, E1. split; [done|]. repeat split; lia.
  - split; [done|]. repeat split; lia.
Qed.

(** ** The payout loop *)

(** Delegation records never claim more than the validator's delegated stake. *)
Definition delegations_backed (s : StateStore) (x : NativeAssetId) : Prop :=
  forall op val, load_validator s x op = Some val ->
    delegated_sum (delegations_of s x op) <= delegated val.

Lemma delegations_of_nonneg s x op :
  staking_ok s -> Forall (fun d => 0 <= del_amount d) (delegations_of s x op).
Proof.
  intros Hok. apply Forall_forall. intros d Hd. unfold delegations_of in Hd.
  apply list_elem_of_omap in Hd as ([[[x' dl] o] r] & Hin%elem_of_map_to_list & E).
  destruct (so_del _ Hok _ _ _ _ Hin) as (_ & _ & Ha). simpl in E. case_match; simplify_eq.
  unfold in_u64 in Ha. lia.
Qed.
Lemma payout_loop s x e pool :
  staking_ok s -> bonded_total x s <= u64_max -> delegations_backed s x -> in_u64 pool ->
  let snap := build_snapshot s x e in
  total_active_stake snap <> 0 ->
  let '(rem, c) := foldl (pay_validator s x snap pool) (pool, ∅) (validators snap) in
  credits_nonneg c /\ 0 <= rem /\ rem + csum c = pool.
Proof.
  intros Hok Hbt Hdb Hpool snap HT0.
  pose proof (snapshot_powers_nonneg s x e Hok) as Hnn. pose proof (snapshot_total s x e Hok Hbt) as Htot.
  pose proof (zsum_nonneg _ Hnn) as Hz. fold snap in Hnn, Htot, Hz. rewrite Htot in HT0.
  assert (0 < total_active_stake snap) as HT by lia. unfold in_u64 in Hpool.
  assert (forall (vs : list (Address * Z)) rem c,
    Forall (fun en => exists val, load_validator s x en.1 = Some val) vs ->
    Forall (fun p => 0 <= p <= total_active_stake snap) (snd <$> vs) ->
    credits_nonneg c -> 0 <= rem -> rem + csum c = pool ->
    pool * zsum (snd <$> vs) <= total_active_stake snap * rem ->
    let '(rem', c') := foldl (pay_validator s x snap pool) (rem, c) vs in
    credits_nonneg c' /\ 0 <= rem' /\ rem' + csum c' = pool) as Hgen.
  { induction vs as [|[op pw] vs IH]; intros rem c Hv Hp Hc Hr Hs Hi; [done|].
    apply Forall_cons in Hv as [[val Hval] Hv]. rewrite fmap_cons, Forall_cons in Hp.
    destruct Hp as [Hpw Hp]. rewrite fmap_cons, zsum_cons in Hi. cbn [fst snd] in *.
    assert (0 <= zsum (snd <$> vs)) as Hzv.
    { apply zsum_nonneg. eapply Forall_impl; [exact Hp|]. simpl. lia. }
    assert (0 <= pool * zsum (snd <$> vs)) as Hpz by (apply Z.mul_nonneg_nonneg; lia).
    rewrite Z.mul_add_distr_l in Hi.
    destruct (so_val _ Hok _ _ _ Hval) as (_ & Hsb & Hd & Hcm).
    pose proof (proj2 (stake_at_le s x op val Hok Hval)) as Hsd.
    pose proof (pay_validator_step s x snap pool rem c op pw val) as Hstep. cbv zeta in Hstep.
    cbn [foldl]. destruct (pay_validator s x snap pool (rem, c) (op, pw)) as [rem' c'] eqn:E.
    destruct Hstep as (Hc' & Hr' & Hs' & Hi'); try done; try lia.
    - by apply delegations_of_nonneg.
    - by apply Hdb.
    - apply IH; try done. lia. }
  apply Hgen.
  - apply Forall_forall. intros [o pw] Hin. apply (elem_of_snapshot s x e o pw Hok) in Hin as (v & Hv & _). by exists v.
  - apply Forall_forall. intros p Hin. split; [by eapply Forall_forall in Hnn|].
    rewrite Htot. by apply zsum_elem_le.
  - intros a v Hv. by rewrite lookup_empty in Hv.
  - lia.
  - unfold csum. rewrite msum_empty. lia.
  - rewrite Htot. lia.
Qed.

(** ** The credits as writes *)

Definition credit_op (s : StateStore) (x : NativeAssetId) (en : Address * Z) : WriteOp :=
  PutAccount x en.1 {| balance := balance (acct_of s x en.1) + en.2; nonce := nonce (acct_of s x en.1) |}.
Lemma credits_run s x b (l : list (Address * Z)) :
  x <> TLT -> Forall (fun en => balance (acct_of s x en.1) + en.2 <= u64_max) l ->
  rfold (fun b en => credit_liquid s b x en.1 en.2) b l = Ok (b ++ (credit_op s x <$> l)).
Proof.
  intros Hx. revert b. induction l as [|en l IH]; intros b Hl; [by rewrite app_nil_r|].
  apply Forall_cons in Hl as [He Hl]. cbn [rfold]. rewrite (proj2 (credit_liquid_Ok s b x en.1 en.2 (b ++ [credit_op s x en]))); [|done].
  cbn [rbind]. rewrite IH by done. by rewrite <- app_assoc.
Qed.
Lemma credits_run_inv s x b (l : list (Address * Z)) b' :
  rfold (fun b en => credit_liquid s b x en.1 en.2) b l = Ok b' -> b' = b ++ (credit_op s x <$> l).
Proof.
  revert b. induction l as [|en l IH]; intros b; [rewrite app_nil_r; by intros [= <-]|]. cbn [rfold].
  intros H. apply rbind_Ok in H as (b1 & (_ & _ & ->)%credit_liquid_Ok & H). apply IH in H as ->.
  by rewrite <- app_assoc.
Qed.
Lemma credits_holdings s t x (l : list (Address * Z)) y :
  NoDup (fst <$> l) -> (forall a, a ∈ fst <$> l -> acct_of t x a = acct_of s x a) ->
  holdings y (write_batch t (credit_op s x <$> l)) =
    holdings y t + (if bool_decide (x = y) then zsum (snd <$> l) else 0).
Proof.
  revert t. induction l as [|en l IH]; intros t Hd Ht; [simpl; case_bool_decide; lia|].
  rewrite fmap_cons in Hd, Ht. apply NoDup_cons in Hd as [Hnin Hd].
  rewrite !fmap_cons, write_batch_cons. rewrite IH; [|done|].
  - rewrite holdings_apply. cbn [holdings_delta credit_op balance]. rewrite Ht by left.
    rewrite zsum_cons. case_bool_decide; lia.
  - intros a Ha. rewrite acct_of_apply_frame; [apply Ht; by right|]. simpl. intros [= E]. congruence.
Qed.
Lemma credits_reward_pool s t x (l : list (Address * Z)) y :
  load_reward_pool (write_batch t (credit_op s x <$> l)) y = load_reward_pool t y.
Proof.
  revert t. induction l as [|en l IH]; intros t; [done|]. rewrite fmap_cons, write_batch_cons.
  rewrite IH. by rewrite reward_pool_frame.
Qed.
Lemma credits_fields s t x (l : list (Address * Z)) :
  let t' := write_batch t (credit_op s x <$> l) in
  st_issued t' = st_issued t /\ st_issued_legacy t' = st_issued_legacy t /\ st_reserve t' = st_reserve t /\
  st_epochs t' = st_epochs t /\ st_snapshots t' = st_snapshots t.
Proof.
  cbv zeta. revert t. induction l as [|en l IH]; intros t; [done|]. rewrite fmap_cons, write_batch_cons.
  destruct (IH (apply_op t (credit_op s x en))) as (-> & -> & -> & -> & ->). by destruct t.
Qed.

(** ** Reserve drips *)

Definition drip_ops (s : StateStore) (x : NativeAssetId) (d : Z) : WriteBatch :=
  if d =? 0 then [] else
  [PutReserve x (load_staking_reserve_remaining s x - d); PutIssued x (load_issued_supply s x + d);
   PutRewardPool x (load_reward_pool s x + d)].
Definition drip_amount (s : StateStore) (x : NativeAssetId) (amount : Z) : Z :=
  Z.min amount (load_staking_reserve_remaining s x).
(** There is room to issue the whole reserve. *)
Definition reserve_fits (s : StateStore) (x : NativeAssetId) : Prop :=
  0 <= load_staking_reserve_remaining s x /\ 0 <= load_issued_supply s x /\
  load_issued_supply s x + load_staking_reserve_remaining s x <= u64_max /\
  (cap_is_live (load_schema_version s) x = true ->
     load_issued_supply s x + load_staking_reserve_remaining s x <= load_max_supply s x).

Lemma drip_run s b x amount :
  x <> TLT -> reserve_fits s x -> 0 <= amount ->
  load_reward_pool s x + load_staking_reserve_remaining s x <= u64_max ->
  drip_staking_reserve s b x amount = Ok (b ++ drip_ops s x (drip_amount s x amount), drip_amount s x amount).
Proof.
  intros Hx (Hr & Hi & Hu & Hcap) Ha Hp. unfold drip_staking_reserve, drip_ops, drip_amount.
  destruct (Z.eqb_spec amount 0) as [->|Hne].
  { rewrite Z.min_l by lia. simpl. by rewrite app_nil_r. }
  rewrite (proj2 (is_account_asset_spec x) Hx). cbn [ensure rbind].
  destruct (Z.eqb_spec (Z.min amount (load_staking_reserve_remaining s x)) 0) as [E|E].
  { rewrite E, app_nil_r. done. }
  unfold checked_add at 1. rewrite (proj2 (Z.leb_le _ _)) by lia. cbn [ok_or rbind].
  assert (negb (cap_is_live (load_schema_version s) x &&
    (load_max_supply s x <? load_issued_supply s x + Z.min amount (load_staking_reserve_remaining s x))) = true) as ->.
  { destruct (cap_is_live _ x); [|done]. specialize (Hcap eq_refl). simpl.
    apply negb_true_iff, Z.ltb_ge. lia. }
  unfold credit_reward_pool_into. rewrite (proj2 (is_account_asset_spec x) Hx). cbn [ensure rbind].
  unfold checked_add. rewrite (proj2 (Z.leb_le _ _)) by lia. cbn [ok_or rbind].
  unfold put_reward_pool_into, put_issued_supply_into, put_staking_reserve_remaining_into.
  rewrite bool_decide_eq_false_2 by done. by rewrite app_nil_r, <- !app_assoc.
Qed.

(** ** The epoch transition *)

Section epoch.
Variables (s : StateStore) (p : StakingParams).
Abbreviation x := (sp_asset p).
Hypothesis Hx : is_account_asset x = true.
Hypothesis Hstake : staking_ok s.
Hypothesis Hacc : accounts_ok s.
Hypothesis Hback : delegations_backed s x.
Hypothesis Hdrip : 0 <= epoch_reserve_drip p.
Hypothesis Hres : reserve_fits s x.
Hypothesis Hfit : holdings x s + load_staking_reserve_remaining s x <= u64_max.

Lemma holdings_parts :
  0 <= liquid x s /\ 0 <= bonded_total x s /\ 0 <= unbonding_total x s /\ 0 <= load_reward_pool s x.
Proof.
  repeat split.
  - apply msum_nonneg. intros [y a] v Hv. destruct (ao_ints _ Hacc y a) as [Hb _]. unfold acct_of in Hb.
    rewrite Hv in Hb. unfold in_u64 in Hb. simpl in *. case_bool_decide; lia.
  - apply msum_nonneg. intros [y o] v Hv. destruct (so_val _ Hstake _ _ _ Hv) as (_ & ? & ? & _).
    unfold in_u64 in *. case_bool_decide; lia.
  - apply msum_nonneg. intros [y o] u Hu. pose proof (so_unbond _ Hstake _ _ _ Hu). unfold in_u64 in *.
    case_bool_decide; lia.
  - pose proof (so_pool _ Hstake x). unfold in_u64 in *. lia.
Qed.
Lemma balance_le_liquid a : balance (acct_of s x a) <= liquid x s.
Proof.
  destruct holdings_parts as (Hl & _). unfold acct_of, liquid in *.
  destruct (st_accounts s !! (x, a)) as [v|] eqn:E; simpl; [|done].
  pose proof (msum_lookup_le (fun k v => if bool_decide (k.1 = x) then balance v else 0) (x, a) v
    (st_accounts s)) as H. cbn [fst] in H. rewrite bool_decide_eq_true_2 in H by done. apply H; [|exact E].
  intros [y b] w Hw. destruct (ao_ints _ Hacc y b) as [Hb _]. unfold acct_of in Hb. rewrite Hw in Hb.
  unfold in_u64 in Hb. simpl in *. case_bool_decide; lia.
Qed.

(** The batch of a distribution, and that it cannot fail. *)
Lemma distribute_run b e pool :
  in_u64 pool -> liquid x s + bonded_total x s + pool <= u64_max ->
  let snap := build_snapshot s x e in
  exists rem (l : list (Address * Z)) ops,
    distribute_reward_pool_amount s b x snap pool = Ok (b ++ ops, pool - rem) /\
    NoDup (fst <$> l) /\ rem + zsum (snd <$> l) = pool /\
    (ops = (credit_op s x <$> l) ++ [PutRewardPool x rem] \/ ops = [] /\ l = [] /\ rem = pool).
Proof.
  intros Hpool Hle snap. pose proof holdings_parts as (Hl & Hbt & _ & _). unfold in_u64 in Hpool.
  unfold distribute_reward_pool_amount.
  destruct (Z.eqb_spec pool 0) as [->|Hp0]; cbn [orb].
  { exists 0, [], []. rewrite app_nil_r. repeat split; [constructor|auto]. }
  destruct (Z.eqb_spec (total_active_stake snap) 0) as [HT|HT]; cbn [orb].
  { exists pool, [], []. rewrite app_nil_r, Z.sub_diag. repeat split; [constructor|simpl; lia|auto]. }
  assert (bonded_total x s <= u64_max) as Hbu by lia.
  pose proof (payout_loop s x e pool Hstake Hbu Hback Hpool HT) as Hloop. fold snap in Hloop.
  destruct (foldl (pay_validator s x snap pool) (pool, ∅) (validators snap)) as [rem c].
  destruct Hloop as (Hc & Hr & Hsum).
  set (l := sort_by by_address (map_to_list c)).
  assert (zsum (snd <$> l) = csum c) as El.
  { unfold l. rewrite (zsum_perm _ (snd <$> map_to_list c)) by (apply fmap_Permutation, sort_by_perm).
    unfold csum. by rewrite msum_list. }
  pose proof (csum_nonneg c Hc) as Hcs.
  assert (Forall (fun en => balance (acct_of s x en.1) + en.2 <= u64_max) l) as Hfits.
  { apply Forall_forall. intros [a amt] Hin. unfold l in Hin. apply elem_of_sort_by, elem_of_map_to_list in Hin.
    pose proof (balance_le_liquid a). pose proof (msum_lookup_le (fun _ v => v) a amt c Hc Hin) as Hm.
    cbv beta in Hm. fold (csum c) in Hm. cbn [fst snd]. lia. }
  exists rem, l, ((credit_op s x <$> l) ++ [PutRewardPool x rem]).
  rewrite credits_run; [|by apply is_account_asset_spec|done]. cbn [rbind].
  unfold put_reward_pool_into. rewrite saturating_sub_exact, app_assoc by lia.
  split; [done|]. split; [|split; [lia|by left]].
  unfold l. rewrite (sort_by_perm _ _). apply NoDup_fst_map_to_list.
Qed.

Lemma drip_effect d y :
  0 <= d <= load_staking_reserve_remaining s x ->
  let t := write_batch s (drip_ops s x d) in
  holdings y t = holdings y s + (if bool_decide (x = y) then d else 0) /\
  load_reward_pool t x = load_reward_pool s x + d /\
  load_issued_supply t x = load_issued_supply s x + d /\
  load_staking_reserve_remaining t x = load_staking_reserve_remaining s x - d /\
  forall a, acct_of t x a = acct_of s x a.
Proof.
  intros Hd t. subst t. unfold drip_ops. destruct (Z.eqb_spec d 0) as [->|Hne].
  { simpl. rewrite !Z.add_0_r, Z.sub_0_r. repeat split. case_bool_decide; lia. }
  split; [holdings_run; case_bool_decide; lia|].
  unfold load_reward_pool, load_issued_supply, load_staking_reserve_remaining.
  split; [destruct s; simpl; by rewrite lookup_insert_eq|].
  split; [destruct s; simpl; by rewrite lookup_insert_eq|].
  split; [destruct s; simpl; by rewrite lookup_insert_eq|]. intros a. by destruct s.
Qed.

(** C15: an epoch creates exactly what it issues.  From a well-formed state
    whose delegation records are backed and whose reserve still fits under
    the cap, the epoch transition succeeds; it moves the reserve drip into
    circulation (issued supply up, reserve down, both by the drip), pays
    rewards only out of the pool so that the asset's holdings grow by the
    drip and by nothing else, leaves other assets alone, and records the
    next epoch with its snapshot. *)
Theorem epoch_conservation :
  exists b snap, advance_epoch_with_params s [] p = Ok (b, snap) /\
    let t := write_batch s b in
    let d := drip_amount s x (epoch_reserve_drip p) in
    let e := saturating_add u64_max (load_epoch s x) 1 in
    load_issued_supply t x = load_issued_supply s x + d /\
    load_staking_reserve_remaining t x = load_staking_reserve_remaining s x - d /\
    (forall y, holdings y t = holdings y s + if bool_decide (x = y) then d else 0) /\
    load_epoch t x = e /\ snap = build_snapshot s x e /\ st_snapshots t !! (x, e) = Some snap.
Proof.
  pose proof holdings_parts as (Hl & Hbt & Hub & Hpl). destruct Hres as (Hr0 & Hi0 & _ & _).
  unfold holdings in Hfit. set (d := drip_amount s x (epoch_reserve_drip p)).
  assert (0 <= d <= load_staking_reserve_remaining s x) as Hd by (unfold d, drip_amount; lia).
  set (e := saturating_add u64_max (load_epoch s x) 1). set (snap := build_snapshot s x e).
  assert ((if 0 <? epoch_reserve_drip p then drip_staking_reserve s [] x (epoch_reserve_drip p)
           else Ok ([], 0)) = Ok (drip_ops s x d, d)) as Hdr.
  { destruct (Z.ltb_spec 0 (epoch_reserve_drip p)).
    - rewrite drip_run by (by apply is_account_asset_spec || done || lia). done.
    - assert (d = 0) as -> by (unfold d, drip_amount; lia). done. }
  assert (saturating_add u64_max (load_reward_pool s x) d = load_reward_pool s x + d) as Hpool
    by (apply saturating_add_exact; lia).
  destruct (distribute_run (drip_ops s x d ++ [PutEpoch x e; PutSnapshot x e snap]) e
    (load_reward_pool s x + d)) as (rem & l & ops & Hdist & Hnd & Hsum & Hops);
    [unfold in_u64; lia|lia|]. fold snap in Hdist.
  exists ((drip_ops s x d ++ [PutEpoch x e; PutSnapshot x e snap]) ++ ops), snap.
  split.
  { unfold advance_epoch_with_params, validate_asset. rewrite Hx. cbn [ensure rbind]. rewrite Hdr.
    cbn [rbind]. fold e. fold snap. rewrite Hpool, Hdist. done. }
  cbv zeta. clear Hdist Hdr. rewrite !write_batch_app.
  set (t1 := write_batch (write_batch s (drip_ops s x d)) [PutEpoch x e; PutSnapshot x e snap]).
  assert ((forall y, holdings y t1 = holdings y s + if bool_decide (x = y) then d else 0) /\
    load_reward_pool t1 x = load_reward_pool s x + d /\
    load_issued_supply t1 x = load_issued_supply s x + d /\
    load_staking_reserve_remaining t1 x = load_staking_reserve_remaining s x - d /\
    (forall a, acct_of t1 x a = acct_of s x a) /\
    st_epochs t1 !! x = Some e /\ st_snapshots t1 !! (x, e) = Some snap) as (H1 & H2 & H3 & H4 & H5 & H6 & H7).
  { unfold t1. split; [intros y; holdings_run; destruct (drip_effect d y Hd) as (E & _); rewrite !Z.add_0_r; exact E|].
    destruct (drip_effect d x Hd) as (_ & E2 & E3 & E4 & E5).
    destruct (write_batch s (drip_ops s x d)). repeat (split; [done|]). simpl. by rewrite !lookup_insert_eq. }
  clearbody t1. destruct Hops as [->|(-> & -> & ->)].
  - rewrite write_batch_app. destruct (credits_fields s t1 x l) as (F1 & F2 & F3 & F4 & F5).
    pose proof (fun y => credits_holdings s t1 x l y Hnd (fun a _ => H5 a)) as Fh.
    pose proof (credits_reward_pool s t1 x l x) as Fp.
    set (t2 := write_batch t1 (credit_op s x <$> l)) in *. clearbody t2.
    unfold load_issued_supply, load_staking_reserve_remaining, load_epoch in *.
    split; [rewrite <- H3, <- F1, <- F2; by destruct t2|].
    split; [rewrite <- H4, <- F3; by destruct t2|].
    split; [|split; [rewrite <- F4 in H6; destruct t2; simpl in *; by rewrite H6|
      split; [done|rewrite <- F5 in H7; by destruct t2]]].
    intros y. holdings_run. rewrite Fh, H1, Fp, H2. destruct (bool_decide (x = y)); lia.
  - split; [exact H3|]. split; [exact H4|]. split; [exact H1|].
    unfold load_epoch. change (write_batch t1 []) with t1. rewrite H6. done.
Qed.
End epoch.

(** ** Concrete ledgers *)

Definition demo_bank : StateStore :=
  write_batch demo_stake
    [PutAccount OVL 11 {| balance := 3000000; nonce := 0 |};
     PutAccount OVL 12 {| balance := 1000000; nonce := 0 |}; PutReserve OVL 10000000000].
Lemma demo_bank_accounts : accounts_ok demo_bank.
Proof.
  assert (forall x a, acct_of demo_bank x a =
    if bool_decide ((x, a) = (OVL, 12)) then {| balance := 1000000; nonce := 0 |}
    else if bool_decide ((x, a) = (OVL, 11)) then {| balance := 3000000; nonce := 0 |}
    else default_account) as Ha.
  { intros x a. unfold demo_bank. rewrite !write_batch_cons. change (write_batch ?t []) with t.
    rewrite acct_of_apply_frame by done. by rewrite !acct_of_put. }
  split.
  - intros x a. rewrite Ha. repeat case_bool_decide; simpl; unfold_ints; lia.
  - intros o r Hr. change (st_tickets demo_bank) with (∅ : gmap Z DrcAccountTickets) in Hr.
    by rewrite lookup_empty in Hr.
  - intros o t Ht. unfold tickets_of in Ht. change (st_tickets demo_bank) with (∅ : gmap Z DrcAccountTickets) in Ht.
    rewrite lookup_empty in Ht. by apply elem_of_nil in Ht.
Qed.
Lemma demo_bank_staking : staking_ok demo_bank.
Proof.
  destruct demo_stake_ok as [H1 H2 H3 H4].
  split; [exact H1|exact H2|exact H3|]. intros x. specialize (H4 x).
  unfold load_reward_pool in *. exact H4.
Qed.
Definition demo_params : StakingParams := staking_default OVL.
Definition demo_bond (actor : Address) (n : Z) : SignedStakeTx :=
  {| sx_version := 1; sx_asset := OVL; sx_kind := Bond; sx_actor := actor; sx_validator := actor;
     sx_amount := 1000000; sx_consensus_pubkey := replicate 33 0; sx_withdrawal := actor;
     sx_commission_bps := 0; sx_metadata_hash := 0; sx_nonce := n; sx_account_sequence := None;
     sx_public_key := []; sx_signature := [] |}.
Definition demo_op (k : StakeOpKind) (actor validator : Address) (n : Z) : SignedStakeTx :=
  {| sx_version := 1; sx_asset := OVL; sx_kind := k; sx_actor := actor; sx_validator := validator;
     sx_amount := 1000000; sx_consensus_pubkey := []; sx_withdrawal := 0;
     sx_commission_bps := 0; sx_metadata_hash := 0; sx_nonce := n; sx_account_sequence := None;
     sx_public_key := []; sx_signature := [] |}.
Lemma stake_tx_conservation_witness :
  exists b, apply_signed_stake_tx accept_all demo_bank [] (demo_bond 11 0) tt demo_params = Ok b /\
    holdings OVL (write_batch demo_bank b) = holdings OVL demo_bank - 0.
Proof.
  eexists. split; [vm_compute; reflexivity|].
  eapply (stake_tx_conservation accept_all demo_bank (demo_bond 11 0) tt demo_params) with (y := OVL);
    [apply demo_bank_staking|apply demo_bank_accounts|unfold_ints; simpl; lia|vm_compute; reflexivity].
Defined.
Lemma epoch_conservation_witness :
  exists b snap, advance_epoch_with_params demo_bank [] demo_params = Ok (b, snap) /\
    holdings OVL (write_batch demo_bank b) = holdings OVL demo_bank + 1000000000.
Proof.
  destruct (epoch_conservation demo_bank demo_params) as (b & snap & Hrun & _ & _ & Hh & _).
  - reflexivity.
  - apply demo_bank_staking.
  - apply demo_bank_accounts.
  - intros op val Hv. assert (delegations_of demo_bank (sp_asset demo_params) op = []) as ->.
    { unfold delegations_of. change (st_delegations demo_bank) with
        (∅ : gmap (NativeAssetId * Z * Z) DelegationRecord). by rewrite map_to_list_empty. }
    destruct (so_val _ demo_bank_staking _ _ _ Hv) as (_ & _ & Hd & _). apply Hd.
  - simpl. unfold WORKING_EPOCH_RESERVE_DRIP. lia.
  - unfold reserve_fits. vm_compute. intuition discriminate.
  - vm_compute. discriminate.
  - exists b, snap. split; [exact Hrun|]. apply (Hh OVL).
Defined.

(** ** Findings *)

(** A sequence of stake transactions, each on the state the last one left. *)
Definition run_stake (s : StateStore) (txs : list SignedStakeTx) : result StateError StateStore :=
  rfold (fun s tx => let? b := apply_signed_stake_tx accept_all s [] tx tt demo_params in
                     Ok (write_batch s b)) s txs.

(** stake can be lost (finding).  A second bond by the same operator is
    accepted and its first bond is gone, and a second unbond before
    withdrawing replaces the pending entry by an empty one: both runs are
    accepted and end with 1,000,000 fewer OVL than they started with. *)
Theorem rebond_and_double_unbond_lose_stake :
  exists s1 s2,
    run_stake demo_bank [demo_bond 11 0; demo_bond 11 1] = Ok s1 /\
    holdings OVL s1 = holdings OVL demo_bank - 1000000 /\
    run_stake demo_bank [demo_bond 11 0; demo_op UnbondSelf 11 11 1; demo_op UnbondSelf 11 11 2] = Ok s2 /\
    holdings OVL s2 = holdings OVL demo_bank - 1000000 /\ unbonding_at s2 OVL 11 = 0.
Proof.
  eexists _, _. split; [vm_compute; reflexivity|]. split; [vm_compute; reflexivity|]. split; [vm_compute; reflexivity|].
  split; [vm_compute; reflexivity|vm_compute; reflexivity].
Qed.

(** rewards can exceed the pool (finding).  After a delegation and a
    re-bond, the delegation record outlives the validator's delegated total;
    the next epoch then pays the delegator on top of the whole share, and OVL
    holdings grow by more than the epoch issued. *)
Theorem rewards_can_exceed_pool :
  exists s b snap,
    run_stake (write_batch empty_store
      [PutAccount OVL 11 {| balance := 3000000; nonce := 0 |};
       PutAccount OVL 12 {| balance := 1000000; nonce := 0 |}; PutReserve OVL 10000000000])
      [demo_bond 11 0; demo_op Delegate 12 11 0; demo_bond 11 1] = Ok s /\
    advance_epoch s [] OVL = Ok (b, snap) /\
    load_issued_supply (write_batch s b) OVL = load_issued_supply s OVL + 1000000000 /\
    holdings OVL (write_batch s b) = holdings OVL s + 2000000000.
Proof.
  eexists _, _, _. split; [vm_compute; reflexivity|]. split; [vm_compute; reflexivity|].
  split; [vm_compute; reflexivity|vm_compute; reflexivity].
Qed.
