(* ===== verification/Lanes.v ===== *)
(** * The account lanes of block application ([state-machine/src/apply.rs])

    A block's ticket creations, account transfers and stake operations run in
    this order on a copy-on-write overlay of the store ([apply_trident_lanes]).
    Each accepted operation settles its fee, is written to the overlay and
    appended to the block's batch, and extends the reorg journal with the
    values its keys had before; in virtual order a conflicting operation is
    skipped with a status instead of failing the block.
    [revert_journal_batched] turns the journal back into a batch. *)

From stdpp Require Import base gmap list fin_maps strings sorting relations.
From Stdlib Require Import ZArith Lia.
From S2P Require Import Prelude Ordering Sums Types Finality Store Utxo Supply Accounts Staking StakingProps.
Local Open Scope Z_scope.

(** [str::contains]. *)
Fixpoint str_contains (needle hay : string) : bool :=
  String.prefix needle hay ||
  match hay with EmptyString => false | String _ h => str_contains needle h end.
(** The messages that mean a conflict, not an invalid operation. *)
Definition soft_messages : list string :=
  ["bad nonce"; "bad stake nonce"; "insufficient account balance";
   "insufficient liquid stake funds"; "unknown validator"; "already bonded";
   "self-transfer forbidden"; "bad OVL execution nonce"; "insufficient OVL execution balance";
   "bad DRC payment nonce"; "insufficient DRC payment balance"; "duplicate DRC payment id";
   "duplicate DRC merchant invoice"; "bad DRC account-policy nonce";
   "insufficient DRC account-policy balance"; "DRC destination tag required";
   "bad DRC deposit-preauthorization nonce"; "insufficient DRC deposit-preauthorization balance";
   "duplicate DRC deposit preauthorization"; "missing DRC deposit preauthorization";
   "DRC deposit authorization required"; "bad DRC account nonce"; "unknown DRC ticket sequence";
   "bad DRC ticket-create nonce"; "duplicate DRC ticket sequence";
   "DRC outstanding ticket cap exceeded"; "duplicate DRC escrow id"; "unknown DRC escrow";
   "DRC escrow already settled"; "DRC live escrow cap exceeded"; "bad DRC escrow-create nonce";
   "insufficient DRC escrow-create balance"; "bad DRC escrow-finish nonce";
   "insufficient DRC escrow-finish balance"; "bad DRC escrow-cancel nonce";
   "insufficient DRC escrow-cancel balance"; "DRC escrow finish not yet allowed";
   "DRC escrow cancel not yet allowed"; "duplicate DRC check id"; "unknown DRC check";
   "DRC check already settled"; "DRC live check cap exceeded"; "bad DRC check-create nonce";
   "insufficient DRC check-create balance"; "bad DRC check-cash nonce";
   "insufficient DRC check-cash submitter balance"; "insufficient DRC check owner balance";
   "bad DRC check-cancel nonce"; "insufficient DRC check-cancel balance"; "DRC check expired";
   "DRC check cash submitter must be destination"; "DRC check cancel submitter not authorized";
   "bad trust line set nonce"; "bad issued transfer nonce";
   "trust line delete requires zero balance"; "recipient missing trust line";
   "sender missing trust line"; "issue exceeds line limit"; "transfer exceeds sender balance";
   "transfer exceeds recipient limit"; "redeem exceeds balance"; "insufficient DRC for fee";
   "recipient requires destination tag"; "require_auth only at zero liability";
   "clawback only at zero liability"; "no_freeze incompatible with line freeze";
   "clawback not enabled"; "issued movement frozen"; "trust line not authorized";
   "duplicate DRC offer id"; "bad DRC offer-create nonce"; "bad DRC offer-cancel nonce";
   "DRC offer owner is unfunded"; "DRC offer fill-or-kill";
   "DRC offer cancel submitter is not the owner"; "DRC offer match cap exceeded";
   "insufficient DRC offer balance"; "DRC offer book cap exceeded"; "DRC live offer cap exceeded";
   "issued balance is reserved by a DRC offer"; "DRC offer expiration is already past"]%string.
Definition is_lane_soft_conflict (e : StateError) : bool :=
  match e with
  | InvalidTx msg => existsb (fun m => str_contains m msg) soft_messages
  | _ => false
  end.

Definition params_for_stake_asset (asset : NativeAssetId) : result StateError StakingParams :=
  match asset with
  | OVL => Ok (staking_default OVL)
  | DRC => Ok (staking_default DRC)
  | TLT => Err (InvalidTx "TLT cannot be staked")
  end.

(** Settle an accepted fee: the batch, and what the journal records. *)
Definition apply_accepted_account_fee (s : StateStore) (b : WriteBatch) (asset : NativeAssetId) (fee : Z)
  : result StateError (WriteBatch * list WriteOp) :=
  if bool_decide (asset = DRC) && (fee =? 0) then
    let? b := burn_drc_fee_into s b 0 in Ok (b, [])
  else if fee =? 0 then Ok (b, []) else
  match asset with
  | DRC =>
      let? b := burn_drc_fee_into s b fee in
      Ok (b, snapshot_meta_keys s [KBurned DRC])
  | OVL =>
      let? (b, _) := credit_fee_share_to_reward_pool s b OVL fee in
      Ok (b, snapshot_meta_keys s [KRewardPool OVL])
  | TLT => Err (InvalidTx "TLT fees are settled by the UTXO/coinbase lane")
  end.

(** The parts of [UtxoJournal] these lanes write. *)
Record LaneJournal := {
  account_before : AccountJournal;
  stake_meta_before : list WriteOp;
  drc_ticket_meta_before : list WriteOp;
}.
Definition empty_journal : LaneJournal :=
  {| account_before := []; stake_meta_before := []; drc_ticket_meta_before := [] |}.
Definition journal_extend (j : LaneJournal) (acc : AccountJournal) (stake tickets : list WriteOp)
  : LaneJournal :=
  {| account_before := account_before j ++ acc; stake_meta_before := stake_meta_before j ++ stake;
     drc_ticket_meta_before := drc_ticket_meta_before j ++ tickets |}.

(** The overlay, the block's batch and journal, and one lane's ids and statuses. *)
Record LaneState := {
  lane : StateStore;
  ls_batch : WriteBatch;
  ls_journal : LaneJournal;
  seen : list Hash;
  statuses : list TransactionAcceptance;
}.

Definition lane_accept (st : LaneState) (id : Hash) (b : WriteBatch) (acc : AccountJournal)
  (stake tickets : list WriteOp) : LaneState :=
  {| lane := write_batch (lane st) b; ls_batch := ls_batch st ++ b;
     ls_journal := journal_extend (ls_journal st) acc stake tickets;
     seen := id :: seen st; statuses := statuses st ++ [Accepted] |}.
Definition lane_conflict (mode : ApplyMode) (st : LaneState) (id : Hash) (e : StateError)
  : result StateError LaneState :=
  if bool_decide (mode = Virtual) && is_lane_soft_conflict e then
    Ok {| lane := lane st; ls_batch := ls_batch st; ls_journal := ls_journal st; seen := seen st;
          statuses := statuses st ++
            [if bool_decide (id ∈ seen st) then ExactDuplicate else ConflictLost] |}
  else Err e.

Definition lane_auth_required : string :=
  "stake/execution/payment/policy/preauthorization/regular-key/signer-list/escrow/check/payment-channel/trust-line/issued-control/offer ops require network-bound auth".

(** The lanes of a block. *)
Record LaneBlock := {
  drc_ticket_creates : list DrcTicketCreateTx;
  account_transfers : list AccountTransfer;
  stake_ops : list SignedStakeTx;
}.

Section lanes.
Context {Auth : Type}.
Variable verify_transfer : StateStore -> AccountTransfer -> Auth -> result StateError unit.
Variable verify_ticket : StateStore -> DrcTicketCreateTx -> Auth -> result StateError unit.
Variable verify_stake : StateStore -> SignedStakeTx -> Auth -> result StateError unit.
(** [Hash::hash_borsh] of the signed envelopes. *)
Variable ticket_create_tx_id : DrcTicketCreateTx -> Hash.
Variable transfer_id : AccountTransfer -> Hash.
Variable stake_tx_id : SignedStakeTx -> Hash.
Variable mode : ApplyMode.

Definition ticket_lane_step (ctx : Auth) (st : LaneState) (tx : DrcTicketCreateTx)
  : result StateError LaneState :=
  let id := ticket_create_tx_id tx in
  let meta_before := snapshot_meta_keys (lane st) [KTickets (tc_owner tx)] in
  match apply_drc_ticket_create verify_ticket (lane st) tx ctx [] [] with
  | Ok (_, b, aj) =>
      let? (b, fee_before) := apply_accepted_account_fee (lane st) b DRC (tc_fee tx) in
      Ok (lane_accept st id b aj fee_before meta_before)
  | Err e => lane_conflict mode st id e
  end.

Definition transfer_lane_step (auth : option Auth) (st : LaneState) (tx : AccountTransfer)
  : result StateError LaneState :=
  let id := transfer_id tx in
  let ticket_snap := if bool_decide (at_asset tx = DRC)
                     then snapshot_meta_keys (lane st) [KTickets (at_from tx)] else [] in
  match apply_account_transfer_checked verify_transfer (lane st) tx auth [] [] with
  | Ok (b, aj) =>
      let? (b, fee_before) := apply_accepted_account_fee (lane st) b (at_asset tx) (at_fee tx) in
      Ok (lane_accept st id b aj fee_before ticket_snap)
  | Err e => lane_conflict mode st id e
  end.

Definition stake_lane_step (ctx : Auth) (st : LaneState) (tx : SignedStakeTx)
  : result StateError LaneState :=
  let id := stake_tx_id tx in
  let? params := params_for_stake_asset (sx_asset tx) in
  let? actor_before := load_account (lane st) (sx_asset tx) (sx_actor tx) in
  let snap := snapshot_meta_keys (lane st) (stake_meta_keys_touched tx) in
  let ticket_snap := if bool_decide (sx_asset tx = DRC)
                     then snapshot_meta_keys (lane st) [KTickets (sx_actor tx)] else [] in
  match apply_signed_stake_tx verify_stake (lane st) [] tx ctx params with
  | Ok b => Ok (lane_accept st id b [(sx_asset tx, sx_actor tx, actor_before)] snap ticket_snap)
  | Err e => lane_conflict mode st id e
  end.

(** Entering the next lane: fresh ids and statuses. *)
Definition next_lane (st : LaneState) : LaneState :=
  {| lane := lane st; ls_batch := ls_batch st; ls_journal := ls_journal st; seen := []; statuses := [] |}.

Definition apply_account_lanes (s : StateStore) (block : LaneBlock) (auth : option Auth)
  : result StateError (LaneState * (list TransactionAcceptance * list TransactionAcceptance *
                                    list TransactionAcceptance)) :=
  let st := {| lane := s; ls_batch := []; ls_journal := empty_journal; seen := []; statuses := [] |} in
  match auth with
  | None =>
      ensure (bool_decide (drc_ticket_creates block = []) && bool_decide (stake_ops block = []))
        (InvalidTx lane_auth_required) ;?
      let? st := rfold (transfer_lane_step None) st (account_transfers block) in
      Ok (st, ([], statuses st, []))
  | Some ctx =>
      let? st1 := rfold (ticket_lane_step ctx) st (drc_ticket_creates block) in
      let? st2 := rfold (transfer_lane_step (Some ctx)) (next_lane st1) (account_transfers block) in
      let? st3 := rfold (stake_lane_step ctx) (next_lane st2) (stake_ops block) in
      Ok (st3, (statuses st1, statuses st2, statuses st3))
  end.
End lanes.

(** [revert_journal_batched], for these lanes. *)
Definition revert_journal_batched (j : LaneJournal) : result StateError WriteBatch :=
  let? b := revert_account_journal_into [] (account_before j) in
  Ok (b ++ reverse (stake_meta_before j) ++ reverse (drc_ticket_meta_before j)).
