(* ===== verification/LanesProps.v ===== *)
(** * Properties of the account lanes

    Over the ticket, transfer and stake lanes of any block: the state invariants
    survive, nonces and tickets are never reused, fees leave circulation exactly
    as accounted, and the journal reverts the lanes. *)

From stdpp Require Import base gmap list fin_maps strings sorting relations.
From Stdlib Require Import ZArith Lia.
From S2P Require Import Prelude Ordering Sums Types Finality Store Utxo Supply Accounts Staking StakingProps Lanes.
Local Open Scope Z_scope.
#[local] Set Default Proof Using "Type".

(** ** Fees *)

(** What settling a fee writes. *)
Inductive fee_writes (s : StateStore) (asset : NativeAssetId) (fee : Z) : WriteBatch -> list WriteOp -> Prop :=
| fee_zero : fee = 0 -> fee_writes s asset fee [] []
| fee_burned_drc burned : asset = DRC -> load_burned_supply s DRC = Ok burned -> fee <> 0 ->
    burned + fee <= load_issued_supply s DRC ->
    fee_writes s asset fee [PutBurned DRC (burned + fee)] (snapshot_meta_keys s [KBurned DRC])
| fee_pooled : asset = OVL -> fee <> 0 -> load_reward_pool s OVL + fee <= u64_max ->
    fee_writes s asset fee [PutRewardPool OVL (load_reward_pool s OVL + fee)]
      (snapshot_meta_keys s [KRewardPool OVL]).

Lemma burn_drc_inv s b fee b' :
  burn_drc_fee_into s b fee = Ok b' ->
  (fee = 0 /\ b' = b) \/
  (fee <> 0 /\ exists burned, load_burned_supply s DRC = Ok burned /\
    burned + fee <= load_issued_supply s DRC /\ b' = b ++ [PutBurned DRC (burned + fee)]).
Proof.
  unfold burn_drc_fee_into. intros H. apply rbind_Ok in H as (_ & _ & H).
  destruct (Z.eqb_spec fee 0) as [E|E]; [left; by injection H as <-|]. right. split; [done|].
  apply rbind_Ok in H as (bd & Hb & H). apply rbind_Ok in H as (n & Hn%ok_or_Ok & H).
  apply checked_add_Some in Hn as [-> _]. apply rbind_Ok in H as (_ & Hle%ensure_Ok & [= <-]).
  apply Z.leb_le in Hle. by exists bd.
Qed.
Lemma fee_inv s b asset fee b' fb :
  apply_accepted_account_fee s b asset fee = Ok (b', fb) ->
  exists ops, b' = b ++ ops /\ fee_writes s asset fee ops fb.
Proof.
  unfold apply_accepted_account_fee. destruct (Z.eqb_spec fee 0) as [E|E].
  - rewrite andb_true_r. case_bool_decide as Hd; intros H.
    + apply rbind_Ok in H as (b1 & Hb & [= <- <-]). apply burn_drc_inv in Hb as [[_ ->]|[? _]]; [|done].
      exists []. rewrite app_nil_r. split; [done|by constructor].
    + injection H as <- <-. exists []. rewrite app_nil_r. split; [done|by constructor].
  - rewrite andb_false_r. destruct asset; intros H; [done|..].
    + apply rbind_Ok in H as ([b1 n1] & Hb & [= <- <-]). unfold credit_fee_share_to_reward_pool,
        credit_reward_pool_into in Hb. apply rbind_Ok in Hb as (_ & _ & Hb). apply rbind_Ok in Hb as (_ & _ & Hb).
      apply rbind_Ok in Hb as (n & Hn%ok_or_Ok & [= <- <-]). apply checked_add_Some in Hn as [-> Hle].
      eexists. split; [done|by constructor].
    + apply rbind_Ok in H as (b1 & Hb & [= <- <-]).
      apply burn_drc_inv in Hb as [[? _]|(_ & bd & Hbd & Hle & ->)]; [done|].
      eexists. split; [done|by constructor].
Qed.
Lemma fee_frame s asset fee ops fb :
  fee_writes s asset fee ops fb ->
  Forall (fun op => is_account_op op = false) ops /\ Forall (fun op => is_ticket_op op = false) ops.
Proof. destruct 1; repeat constructor. Qed.

(** Circulation: holdings plus what was burned. *)
Definition burned_at (s : StateStore) (x : NativeAssetId) : Z := default 0 (st_burned s !! x).
Definition circulation (y : NativeAssetId) (s : StateStore) : Z := holdings y s + burned_at s y.
(** [t] is the store the fee is applied to: the operation's own writes done,
    pool and burn counter as the fee computation read them. *)
Lemma fee_circulation s t asset fee ops fb y :
  fee_writes s asset fee ops fb ->
  load_reward_pool t OVL = load_reward_pool s OVL -> burned_at t DRC = burned_at s DRC ->
  circulation y (write_batch t ops) = circulation y t + (if bool_decide (asset = y) then fee else 0).
Proof.
  intros Hf Hp Hb. unfold circulation. destruct Hf as [->|bd -> Hbd Hne Hle| -> Hne Hle].
  - simpl. case_bool_decide; lia.
  - rewrite write_batch_cons. change (write_batch ?t []) with t. rewrite holdings_apply. cbn [holdings_delta].
    assert (burned_at t DRC = bd) as Ebd.
    { rewrite Hb. unfold load_burned_supply in Hbd. unfold burned_at. destruct (st_burned s !! DRC); simpl.
      - by injection Hbd.
      - case_match; [done|]. by injection Hbd. }
    clear Hb Hp. unfold burned_at in *. destruct t; simpl in *. case_bool_decide as Hy.
    + subst y. rewrite lookup_insert_eq. simpl. lia.
    + rewrite lookup_insert_ne by done. lia.
  - rewrite write_batch_cons. change (write_batch ?t []) with t. rewrite holdings_apply. cbn [holdings_delta].
    rewrite Hp. unfold burned_at. destruct t; simpl. case_bool_decide; lia.
Qed.

(** ** The staking invariant over the lanes *)

Definition is_staking_op (op : WriteOp) : bool :=
  match op_key op with
  | KValidator _ _ | KDelegation _ _ _ | KUnbonding _ _ | KRewardPool _ => true | _ => false
  end.
Lemma staking_frame s b :
  Forall (fun op => is_staking_op op = false) b -> staking_ok s -> staking_ok (write_batch s b).
Proof.
  revert s. induction b as [|op b IH]; intros s Hb Hok; [done|]. apply Forall_cons in Hb as [Hop Hb].
  rewrite write_batch_cons. apply IH; [done|]. destruct Hok as [H1 H2 H3 H4].
  destruct s, op as [| | | | | | | | | | | | | | | | | | | | []]; try done; by split.
Qed.
Lemma staking_put_pool s x v : staking_ok s -> in_u64 v -> staking_ok (apply_op s (PutRewardPool x v)).
Proof.
  intros [H1 H2 H3 H4] Hv. split; [by destruct s..|]. intros y. specialize (H4 y).
  unfold load_reward_pool in *. destruct s; simpl in *. destruct (decide (x = y)) as [->|Hne].
  - by rewrite lookup_insert_eq.
  - by rewrite lookup_insert_ne.
Qed.
Lemma staking_put_validator s x o v :
  staking_ok s -> operator v = o -> in_u64 (self_bond v) -> in_u64 (delegated v) ->
  0 <= commission_bps v <= 10000 -> staking_ok (apply_op s (PutValidator x o v)).
Proof.
  intros [H1 H2 H3 H4] Ho Hs Hd Hc. split; [|by destruct s..].
  intros y o' w. destruct s; simpl. rewrite lookup_insert_Some.
  intros [[[= <- <-] <-]|[_ Hw]]; [done|exact (H1 _ _ _ Hw)].
Qed.
Lemma staking_put_delegation s x d o r :
  staking_ok s -> del_delegator r = d -> del_validator r = o -> in_u64 (del_amount r) ->
  staking_ok (apply_op s (PutDelegation x d o r)).
Proof.
  intros [H1 H2 H3 H4] Hd Ho Ha. split; [by destruct s..| |by destruct s].
  intros y d' o' w. destruct s; simpl. rewrite lookup_insert_Some.
  intros [[[= <- <- <-] <-]|[_ Hw]]; [done|exact (H3 _ _ _ _ Hw)].
Qed.
Lemma staking_put_unbonding s x o u :
  staking_ok s -> in_u64 (ub_amount u) -> staking_ok (apply_op s (PutUnbonding x o u)).
Proof.
  intros [H1 H2 H3 H4] Hu. split; [by destruct s| |by destruct s..].
  intros y o' w. destruct s; simpl. rewrite lookup_insert_Some.
  intros [[[= <- <-] <-]|[_ Hw]]; [done|exact (H2 _ _ _ Hw)].
Qed.
Lemma staking_delete_unbonding s x o : staking_ok s -> staking_ok (apply_op s (Delete (KUnbonding x o))).
Proof.
  intros [H1 H2 H3 H4]. split; [by destruct s| |by destruct s..].
  intros y o' w. destruct s; simpl. rewrite lookup_delete_Some. intros [_ Hw]. exact (H2 _ _ _ Hw).
Qed.
Lemma fee_staking s t asset fee ops fb :
  fee_writes s asset fee ops fb -> in_u64 fee -> staking_ok s -> staking_ok t ->
  staking_ok (write_batch t ops).
Proof.
  intros Hf Hfee Hok Ht. destruct Hf as [->|bd -> Hbd Hne Hle| -> Hne Hle]; [done|by apply staking_frame; [constructor|]|].
  apply staking_put_pool; [done|]. pose proof (so_pool _ Hok OVL). unfold in_u64 in *. lia.
Qed.

Definition stake_tx_ints (tx : SignedStakeTx) : Prop :=
  in_u64 (sx_amount tx) /\ 0 <= sx_commission_bps tx.
Lemma stake_operation_staking s tx p bal b bal' :
  staking_ok s -> stake_tx_ints tx ->
  stake_operation s [] tx p bal = Ok (b, bal') -> staking_ok (write_batch s b).
Proof.
  intros Hok [Ha Hc]. unfold stake_operation. destruct (sx_kind tx); intros H.
  - apply rbind_Ok in H as (_ & _ & H). apply rbind_Ok in H as (b1 & Hb & H).
    apply rbind_Ok in H as (bal1 & _ & [= <- <-]). apply bond_inv in Hb as (Hp & Hcm & _ & _ & ->).
    unfold validate_params in Hp. apply rbind_Ok in Hp as (_ & _ & Hp).
    apply rbind_Ok in Hp as (_ & Hmx%ensure_Ok & _). apply Z.leb_le in Hmx.
    unfold MAX_VALIDATOR_COMMISSION_BPS in Hmx. rewrite app_nil_l, !write_batch_cons.
    apply staking_put_validator; simpl; unfold_ints; try done; try lia.
    by apply (staking_frame s [PutAccount _ _ _]); [constructor|].
  - apply rbind_Ok in H as (b1 & Hb & H). apply rbind_Ok in H as (bal1 & _ & [= <- <-]).
    apply delegate_inv in Hb as (val & r & Hv & _ & _ & _ & Hd & Hr & Hda & ->).
    destruct (so_val _ Hok _ _ _ Hv) as (Ho & Hs & Hdel & Hcm).
    assert (in_u64 (del_amount r)) as Hdr.
    { subst r. unfold load_delegation. destruct (st_delegations s !! _) as [r|] eqn:E; simpl;
        [apply (so_del _ Hok _ _ _ _ E)|unfold_ints; lia]. }
    rewrite app_nil_l, !write_batch_cons. unfold in_u64 in *.
    apply staking_put_delegation; [|done|done|simpl; unfold in_u64; lia].
    apply staking_put_validator; simpl; unfold in_u64; try done; try lia.
    by apply (staking_frame s [PutAccount _ _ _]); [constructor|].
  - apply rbind_Ok in H as (b1 & Hb & [= <- <-]). apply unbond_inv in Hb as (val & Hv & _ & ->).
    destruct (so_val _ Hok _ _ _ Hv) as (Ho & Hs & Hdel & Hcm). rewrite app_nil_l, !write_batch_cons.
    apply staking_put_unbonding; [|done]. apply staking_put_validator; simpl; (done || (unfold_ints; lia)).
  - apply rbind_Ok in H as ([b1 c] & Hb & H). apply rbind_Ok in H as (bal1 & _ & [= <- <-]).
    apply withdraw_inv in Hb as [(_ & -> & _)|(u & _ & _ & _ & _ & ->)]; [done|].
    rewrite app_nil_l, !write_batch_cons. apply staking_delete_unbonding.
    by apply (staking_frame s [PutAccount _ _ _]); [constructor|].
Qed.
Lemma stake_operation_keys s tx p bal b bal' :
  staking_ok s -> sx_asset tx = sp_asset p ->
  stake_operation s [] tx p bal = Ok (b, bal') ->
  Forall (fun op => op_key op = KAccount (sx_asset tx) (sx_actor tx) \/
                    op_key op ∈ stake_meta_keys_touched tx) b.
Proof.
  intros Hok Hx. unfold stake_operation, stake_meta_keys_touched. rewrite Hx. destruct (sx_kind tx); intros H.
  - apply rbind_Ok in H as (_ & Hav%ensure_Ok & H). apply Z.eqb_eq in Hav.
    apply rbind_Ok in H as (b1 & Hb & H). apply rbind_Ok in H as (bal1 & _ & [= <- <-]).
    apply bond_inv in Hb as (_ & _ & _ & _ & ->). rewrite Hav.
    constructor; [by left|]. constructor; [right; by left|done].
  - apply rbind_Ok in H as (b1 & Hb & H). apply rbind_Ok in H as (bal1 & _ & [= <- <-]).
    apply delegate_inv in Hb as (val & r & Hv & _ & _ & _ & _ & Hr & _ & ->).
    destruct (so_val _ Hok _ _ _ Hv) as (Ho & _).
    assert (del_delegator r = sx_actor tx /\ del_validator r = sx_validator tx) as [Hd1 Hd2].
    { subst r. unfold load_delegation. destruct (st_delegations s !! _) as [r|] eqn:E; simpl; [|done].
      by destruct (so_del _ Hok _ _ _ _ E) as (? & ? & _). }
    constructor; [by left|]. constructor; [right; rewrite Ho; by left|].
    constructor; [|done]. right. simpl. rewrite Hd1, Hd2. set_solver.
  - apply rbind_Ok in H as (b1 & Hb & [= <- <-]). apply unbond_inv in Hb as (val & Hv & _ & ->).
    destruct (so_val _ Hok _ _ _ Hv) as (Ho & _). constructor; [right|constructor; [right|done]]; simpl.
    + rewrite Ho. destruct (Z.eqb_spec (sx_actor tx) (sx_validator tx)) as [->|]; set_solver.
    + set_solver.
  - apply rbind_Ok in H as ([b1 c] & Hb & H). apply rbind_Ok in H as (bal1 & _ & [= <- <-]).
    apply withdraw_inv in Hb as [(_ & -> & _)|(u & _ & _ & _ & _ & ->)]; [done|].
    constructor; [by left|]. constructor; [|done]. right. simpl. set_solver.
Qed.

(** ** How sequence numbers move *)

(** How a step moves nonces and tickets. *)
Record seq_moved (s : StateStore) (u : NativeAssetId * Address * DrcAccountSequenceSelector)
  (s' : StateStore) : Prop := {
  sm_ready : seq_ready s u.1.1 u.1.2 u.2 /\ (kind u.2 = Ticket -> u.1.1 = DRC);
  sm_used : match kind u.2 with
            | Nonce => value u.2 < nonce (acct_of s' u.1.1 u.1.2)
            | Ticket => value u.2 ∉ tickets_of s' u.1.2
            end;
  sm_nonce x a : nonce (acct_of s x a) <= nonce (acct_of s' x a);
  sm_tickets o t : t ∈ tickets_of s' o -> t ∈ tickets_of s o \/ nonce (acct_of s DRC o) < t;
}.

Lemma accounts_ok_frame s b :
  Forall (fun op => is_account_op op = false) b -> Forall (fun op => is_ticket_op op = false) b ->
  accounts_ok s -> accounts_ok (write_batch s b).
Proof.
  intros Ha Ht [H1 H2 H3]. split; unfold tickets_of in *.
  - intros x a. by rewrite acct_of_frame.
  - intros o r. rewrite tickets_frame by done. apply H2.
  - intros o t. rewrite tickets_frame, acct_of_frame by done. apply H3.
Qed.
Lemma tickets_congr s1 s2 b :
  st_tickets s1 = st_tickets s2 -> st_tickets (write_batch s1 b) = st_tickets (write_batch s2 b).
Proof.
  revert s1 s2. induction b as [|op b IH]; intros s1 s2 E; [done|]. rewrite !write_batch_cons. apply IH.
  destruct s1, s2. simpl in E. subst. by destruct op as [| | | | | | | | | | | | | | | | | | | | []].
Qed.

(** The shape shared by transfers and stake operations: one sequence number
    consumed, one account's nonce moved. *)
Lemma seq_step_ok s s' x o sel ops n' :
  accounts_ok s -> seq_effect s o (nonce (acct_of s x o)) sel ops n' -> (kind sel = Ticket -> x = DRC) ->
  st_tickets s' = st_tickets (write_batch s ops) ->
  (forall y a, in_u64 (balance (acct_of s' y a))) ->
  (forall y a, nonce (acct_of s' y a) = if bool_decide ((y, a) = (x, o)) then n' else nonce (acct_of s y a)) ->
  accounts_ok s' /\ seq_moved s (x, o, sel) s'.
Proof.
  intros Hok Heff Htk Hts Hbal Hnon.
  destruct (ao_ints _ Hok x o) as [_ Hn]. destruct (seq_effect_nonce _ _ _ _ _ _ Heff Hn) as [Hn1 Hn2].
  assert (forall o', tickets_of s' o' = tickets_of (write_batch s ops) o') as Ets
    by (intros o'; unfold tickets_of; by rewrite Hts).
  assert (forall o' t, t ∈ tickets_of s' o' -> t ∈ tickets_of s o') as Hsub.
  { intros o' t. rewrite Ets. destruct (decide (kind sel = Ticket)) as [Hk|Hk].
    - rewrite (Htk Hk) in Heff. rewrite (seq_effect_tickets _ _ _ _ _ o' Hok Heff), Hk.
      case_bool_decide; [subst|done]. intros Hin. by apply elem_of_sort_by, list_elem_of_filter in Hin as [_ ?].
    - destruct Heff; done. }
  assert (forall y a, nonce (acct_of s y a) <= nonce (acct_of s' y a)) as Hmono.
  { intros y a. rewrite Hnon. case_bool_decide as E; [|lia]. injection E as -> ->. done. }
  split.
  - apply (accounts_ok_step s); [done|..].
    + intros y a. split; [done|]. rewrite Hnon. case_bool_decide; [done|]. apply (ao_ints _ Hok).
    + intros o' r. rewrite Hts. by eapply seq_effect_store.
    + intros o' t Ht. left. by apply Hsub.
    + intros o'. apply Hmono.
  - split; cbn [fst snd].
    + split; [|done]. destruct Heff as [Hle|t tk ops Hl Hin _]; [done|].
      rewrite load_tickets_ok in Hl by done. by injection Hl as <-.
    + destruct (kind sel) eqn:Hk.
      * rewrite Hnon, bool_decide_eq_true_2 by done. destruct Heff; simpl in *; [lia|done].
      * rewrite Ets. rewrite (Htk eq_refl) in Heff. rewrite (seq_effect_tickets _ _ _ _ _ o Hok Heff), Hk.
        rewrite bool_decide_eq_true_2 by done. rewrite elem_of_sort_by, list_elem_of_filter. tauto.
    + done.
    + intros o' t Ht. left. by apply Hsub.
Qed.

Lemma transfer_writes_keys s tx ops n' :
  Forall (fun op => op_key op = KTickets (at_from tx)) ops ->
  Forall (fun op => op_key op ∈ [KTickets (at_from tx); KAccount (at_asset tx) (at_from tx);
                                 KAccount (at_asset tx) (at_to tx)]) (transfer_writes s tx ops n').
Proof.
  intros Hk. apply Forall_app. split; [|repeat constructor; set_solver].
  eapply Forall_impl; [exact Hk|]. intros op ->. by left.
Qed.
Lemma not_staking_keys b o x a1 a2 :
  Forall (fun op => op_key op ∈ [KTickets o; KAccount x a1; KAccount x a2]) b ->
  Forall (fun op => is_staking_op op = false) b.
Proof.
  intros H. eapply Forall_impl; [exact H|]. unfold is_staking_op. intros op Hop.
  repeat (apply elem_of_cons in Hop as [->|Hop]; [done|]). by apply elem_of_nil in Hop.
Qed.

(** ** Accepted operations as steps

    One accepted operation of any lane, with the sequence number it used. *)

Section steps.
Context {Auth : Type}.
Variable verify_transfer : StateStore -> AccountTransfer -> Auth -> result StateError unit.
Variable verify_ticket : StateStore -> DrcTicketCreateTx -> Auth -> result StateError unit.
Variable verify_stake : StateStore -> SignedStakeTx -> Auth -> result StateError unit.

Inductive op_step (s : StateStore) : NativeAssetId * Address * DrcAccountSequenceSelector -> StateStore -> Prop :=
| step_ticket tx ctx t b aj ops fb :
    in_u64 (tc_fee tx) ->
    apply_drc_ticket_create verify_ticket s tx ctx [] [] = Ok (t, b, aj) ->
    apply_accepted_account_fee s b DRC (tc_fee tx) = Ok (ops, fb) ->
    op_step s (DRC, tc_owner tx, {| kind := Nonce; value := tc_nonce tx |}) (write_batch s ops)
| step_transfer tx auth b aj ops fb sel :
    in_u64 (at_amount tx) -> in_u64 (at_fee tx) -> transfer_selector tx = Ok sel ->
    apply_account_transfer_checked verify_transfer s tx auth [] [] = Ok (b, aj) ->
    apply_accepted_account_fee s b (at_asset tx) (at_fee tx) = Ok (ops, fb) ->
    op_step s (at_asset tx, at_from tx, sel) (write_batch s ops)
| step_stake tx ctx p b sel :
    stake_tx_ints tx -> stake_selector tx = Ok sel -> params_for_stake_asset (sx_asset tx) = Ok p ->
    apply_signed_stake_tx verify_stake s [] tx ctx p = Ok b ->
    op_step s (sx_asset tx, sx_actor tx, sel) (write_batch s b).

Lemma transfer_step_ok s tx auth b aj b' fb sel :
  accounts_ok s -> staking_ok s -> in_u64 (at_amount tx) -> in_u64 (at_fee tx) ->
  transfer_selector tx = Ok sel ->
  apply_account_transfer_checked verify_transfer s tx auth [] [] = Ok (b, aj) ->
  apply_accepted_account_fee s b (at_asset tx) (at_fee tx) = Ok (b', fb) ->
  accounts_ok (write_batch s b') /\ staking_ok (write_batch s b') /\
  seq_moved s (at_asset tx, at_from tx, sel) (write_batch s b').
Proof.
  intros Hacc Hst Ha Hf Hsel H Hfee. apply fee_inv in Hfee as (fops & -> & Hfw).
  destruct (fee_frame _ _ _ _ _ Hfw) as [Hf1 Hf2].
  apply transfer_inv in H as (sel' & ops & n' & _ & Ht & _ & Hne & _ & Hsel' & Heff & Htk & Hto & Hfunds & -> & _).
  assert (sel' = sel) as -> by congruence. rewrite app_nil_l, write_batch_app.
  pose proof (seq_effect_frame _ _ _ _ _ _ Heff) as Hfr.
  destruct (seq_step_ok s (write_batch (write_batch s (transfer_writes s tx ops n')) fops)
    (at_asset tx) (at_from tx) sel ops n') as [H1 H2]; try done.
  - rewrite tickets_frame by done. apply transfer_tickets.
  - intros y a. rewrite acct_of_frame, transfer_accounts by done.
    pose proof (proj1 (ao_ints _ Hacc y a)) as Hb. case_bool_decide; [|case_bool_decide]; simplify_eq; simpl;
      unfold in_u64 in *; (done || lia).
  - intros y a. rewrite acct_of_frame, transfer_accounts by done.
    case_bool_decide as E1; [|by case_bool_decide]. rewrite bool_decide_eq_false_2 by congruence. done.
  - split; [done|]. split; [|done]. eapply fee_staking; [exact Hfw|done|done|].
    apply staking_frame; [|done]. eapply not_staking_keys, transfer_writes_keys, seq_effect_keys. exact Heff.
Qed.

Lemma stake_step_ok s tx ctx p b sel :
  accounts_ok s -> staking_ok s -> stake_tx_ints tx -> stake_selector tx = Ok sel ->
  apply_signed_stake_tx verify_stake s [] tx ctx p = Ok b ->
  accounts_ok (write_batch s b) /\ staking_ok (write_batch s b) /\
  seq_moved s (sx_asset tx, sx_actor tx, sel) (write_batch s b).
Proof.
  intros Hacc Hst Hi Hsel H. pose proof Hi as [Ham _].
  apply stake_tx_inv in H as (sel' & ops & n' & b1 & bal & _ & Hx & Ht & Hsel' & Hop & Heff & Htk & ->).
  assert (sel' = sel) as -> by congruence.
  destruct (stake_operation_accounts s tx p b1 bal) as (Ha & Htic & Hbal); try done; [unfold in_u64 in *; lia|].
  pose proof (seq_effect_frame _ _ _ _ _ _ Heff) as Hfr. rewrite !write_batch_app.
  set (t := write_batch (write_batch s b1) ops).
  assert (forall y a, acct_of (write_batch t [PutAccount (sx_asset tx) (sx_actor tx)
    {| balance := bal; nonce := n' |}]) y a =
    if bool_decide ((y, a) = (sx_asset tx, sx_actor tx)) then {| balance := bal; nonce := n' |}
    else acct_of s y a) as Hfin.
  { intros y a. rewrite write_batch_cons. change (write_batch ?u []) with u. rewrite acct_of_put.
    case_bool_decide as E; [done|]. unfold t. rewrite acct_of_frame, Ha by done.
    by rewrite bool_decide_eq_false_2. }
  destruct (seq_step_ok s (write_batch t [PutAccount (sx_asset tx) (sx_actor tx) {| balance := bal; nonce := n' |}])
    (sx_asset tx) (sx_actor tx) sel ops n') as [H1 H2]; try done.
  - transitivity (st_tickets t); [by destruct t|]. unfold t. by apply tickets_congr.
  - intros y a. rewrite Hfin. case_bool_decide; [done|]. apply (ao_ints _ Hacc).
  - intros y a. rewrite Hfin. by case_bool_decide.
  - split; [done|]. split; [|done]. apply staking_frame; [by constructor|]. unfold t.
    apply staking_frame; [|by eapply stake_operation_staking].
    eapply Forall_impl; [exact (seq_effect_keys _ _ _ _ _ _ Heff)|]. unfold is_staking_op. by intros op ->.
Qed.

Lemma ticket_step_ok s tx ctx t b aj b' fb :
  accounts_ok s -> staking_ok s -> in_u64 (tc_fee tx) ->
  apply_drc_ticket_create verify_ticket s tx ctx [] [] = Ok (t, b, aj) ->
  apply_accepted_account_fee s b DRC (tc_fee tx) = Ok (b', fb) ->
  accounts_ok (write_batch s b') /\ staking_ok (write_batch s b') /\
  seq_moved s (DRC, tc_owner tx, {| kind := Nonce; value := tc_nonce tx |}) (write_batch s b').
Proof.
  intros Hacc Hst Hf H Hfee. apply fee_inv in Hfee as (fops & -> & Hfw).
  destruct (fee_frame _ _ _ _ _ Hfw) as [Hf1 Hf2].
  pose proof (ticket_preserves verify_ticket s tx ctx t b aj Hacc) as Hok.
  specialize (Hok ltac:(unfold in_u64 in *; lia) H).
  apply ticket_inv in H as (tk & ops & _ & Hn & Hfe & -> & Hle & Htk & Hnin & Hlen & Hp & -> & _).
  rewrite app_nil_l in Hok |- *. rewrite write_batch_app. rewrite load_tickets_ok in Htk by done. injection Htk as <-.
  assert (forall o, tickets_of (write_batch (write_batch s (ticket_writes s tx ops)) fops) o =
    tickets_of (write_batch s (ticket_writes s tx ops)) o) as Ets
    by (intros o; unfold tickets_of; by rewrite tickets_frame).
  destruct (ticket_sets s tx ops _ 0 Hp) as (_ & Hfr & _).
  split; [by apply accounts_ok_frame|]. split.
  - eapply fee_staking; [exact Hfw|done|done|]. apply staking_frame; [|done].
    pose proof (put_tickets_into_keys _ _ _ Hp) as (op & -> & Hk). unfold ticket_writes.
    constructor; [done|]. constructor; [|done]. unfold is_staking_op. by rewrite Hk.
  - split; cbn [fst snd kind value].
    + split; [|done]. unfold seq_ready. cbn [kind value]. rewrite Hn. lia.
    + rewrite acct_of_frame, ticket_accounts, bool_decide_eq_true_2 by done. simpl. lia.
    + intros x a. rewrite acct_of_frame, ticket_accounts by done. case_bool_decide as E; [|lia].
      injection E as -> ->. simpl. lia.
    + intros o t Ht. rewrite Ets in Ht. destruct (ticket_sets s tx ops _ o Hp) as (_ & _ & Es).
      rewrite Es in Ht. case_bool_decide; [subst|by left].
      apply elem_of_sort_by, elem_of_app in Ht as [Ht|Ht%list_elem_of_singleton]; [by left|]. right. lia.
Qed.

Lemma op_step_ok s u s' :
  accounts_ok s -> staking_ok s -> op_step s u s' ->
  accounts_ok s' /\ staking_ok s' /\ seq_moved s u s'.
Proof.
  intros Hacc Hst Hstep. destruct Hstep.
  - by eapply ticket_step_ok.
  - by eapply transfer_step_ok.
  - by eapply stake_step_ok.
Qed.

(** A sequence number that cannot be used any more. *)
Definition used_up (s : StateStore) (u : NativeAssetId * Address * DrcAccountSequenceSelector) : Prop :=
  match kind u.2 with
  | Nonce => value u.2 < nonce (acct_of s u.1.1 u.1.2)
  | Ticket => value u.2 ∉ tickets_of s u.1.2 /\ value u.2 < nonce (acct_of s DRC u.1.2)
  end.
Lemma used_up_after s u s' : accounts_ok s -> seq_moved s u s' -> used_up s' u.
Proof.
  intros Hok [[Hr Hk] Hu Hn Ht]. unfold used_up, seq_ready in *.
  destruct (kind u.2); [done|]. split; [done|]. pose proof (ao_fresh _ Hok _ _ Hr). specialize (Hn DRC u.1.2). lia.
Qed.
Lemma used_up_stable s u v s' : seq_moved s v s' -> used_up s u -> used_up s' u.
Proof.
  intros [_ _ Hn Ht]. unfold used_up. destruct (kind u.2); [specialize (Hn u.1.1 u.1.2); lia|].
  intros [Hnin Hlt]. specialize (Hn DRC u.1.2). split; [|lia]. intros [?|?]%Ht; [done|lia].
Qed.
Lemma used_up_rejects s u s' : seq_moved s u s' -> used_up s u -> False.
Proof.
  intros [[Hr _] _ _ _]. unfold used_up, seq_ready in *. destruct (kind u.2); [lia|]. by intros [? _].
Qed.

(** C14: no replay among transfers, ticket creations and stake operations.  Once
    an operation of one of these three lanes has used an account's nonce or
    ticket, no operation of these lanes can ever be accepted for that account
    with the same nonce or ticket again, whatever sequence of their accepted
    operations, by anybody, lies between; and the state invariants hold
    throughout. *)
Theorem no_sequence_replay s u s1 s2 :
  accounts_ok s -> staking_ok s ->
  op_step s u s1 -> rtc (fun t t' => exists v, op_step t v t') s1 s2 ->
  accounts_ok s2 /\ staking_ok s2 /\ forall s3, ~ op_step s2 u s3.
Proof.
  intros Hacc Hst Hstep Hrun. destruct (op_step_ok s u s1 Hacc Hst Hstep) as (Ha1 & Hs1 & Hm).
  pose proof (used_up_after _ _ _ Hacc Hm) as Hu. clear Hm Hstep Hacc Hst s.
  induction Hrun as [s2|s2 s3 s4 [v Hv] _ IH].
  - split; [done|]. split; [done|]. intros s3 Hs3. destruct (op_step_ok s2 u s3 Ha1 Hs1 Hs3) as (_ & _ & Hm).
    by eapply used_up_rejects.
  - destruct (op_step_ok s2 v s3 Ha1 Hs1 Hv) as (Ha2 & Hs2 & Hm). apply IH; [done|done|].
    by eapply used_up_stable.
Qed.
End steps.

(** ** The journal *)

Definition acct_undo (e : NativeAssetId * Address * AccountState) : WriteOp := PutAccount e.1.1 e.1.2 e.2.
Definition lane_log (j : LaneJournal) : list WriteOp :=
  drc_ticket_meta_before j ++ stake_meta_before j ++ (acct_undo <$> account_before j).
(** The three parts of a journal concern disjoint key families. *)
Definition family (k : MetaKey) : Z := match k with KTickets _ => 0 | KAccount _ _ => 2 | _ => 1 end.
Definition in_family (n : Z) (l : list WriteOp) : Prop := Forall (fun op => family (op_key op) = n) l.
Record journal_wf (j : LaneJournal) : Prop := {
  jw_tickets : in_family 0 (drc_ticket_meta_before j);
  jw_stake : in_family 1 (stake_meta_before j);
  jw_accounts : Forall (fun e => e.1.1 <> TLT) (account_before j);
}.

Lemma undo_family a : in_family 2 (acct_undo <$> a).
Proof. apply Forall_fmap, Forall_forall. done. Qed.
Lemma first_record_family n l key : in_family n l -> family key <> n -> first_record l key = None.
Proof.
  intros Hl Hk. apply first_record_None. eapply Forall_impl; [exact Hl|]. simpl. intros op Hop <-. congruence.
Qed.
Lemma log_extend j a sm tm key :
  journal_wf j -> in_family 0 tm -> in_family 1 sm ->
  first_record (lane_log (journal_extend j a sm tm)) key =
  first_record (lane_log j ++ (tm ++ sm ++ (acct_undo <$> a))) key.
Proof.
  intros [Ht Hs _] Htm Hsm. unfold lane_log. simpl. rewrite fmap_app, !first_record_app.
  destruct (decide (family key = 0)) as [E0|E0]; [|destruct (decide (family key = 1)) as [E1|E1]].
  - rewrite (first_record_family 1 (stake_meta_before j)), (first_record_family 1 sm),
      (first_record_family 2 (acct_undo <$> account_before j)) by (done || apply undo_family || lia).
    by destruct (first_record (drc_ticket_meta_before j) key), (first_record tm key).
  - rewrite (first_record_family 0 (drc_ticket_meta_before j)), (first_record_family 0 tm),
      (first_record_family 2 (acct_undo <$> account_before j)) by (done || apply undo_family || lia).
    by destruct (first_record (stake_meta_before j) key), (first_record sm key).
  - assert (forall m l, (m = 0 \/ m = 1) -> in_family m l -> first_record l key = None) as Hn.
    { intros m l [-> | ->] Hl; by eapply first_record_family. }
    rewrite (Hn 0 (drc_ticket_meta_before j)), (Hn 0 tm), (Hn 1 (stake_meta_before j)), (Hn 1 sm) by auto.
    done.
Qed.
Lemma revert_run j : journal_wf j -> revert_journal_batched j = Ok (reverse (lane_log j)).
Proof.
  intros [_ _ Ha]. unfold revert_journal_batched, revert_account_journal_into, lane_log.
  assert (forall (l : AccountJournal) b, Forall (fun e => e.1.1 <> TLT) l ->
    rfold (fun b e => put_account_into b e.1.1 e.1.2 e.2) b l = Ok (b ++ (acct_undo <$> l))) as Hrun.
  { induction l as [|e l IH]; intros b Hl; [by rewrite app_nil_r|]. apply Forall_cons in Hl as [He Hl].
    cbn [rfold]. rewrite (proj2 (put_account_into_Ok b _ _ _ (b ++ [acct_undo e]))) by done. cbn [rbind].
    rewrite IH by done. by rewrite <- app_assoc. }
  rewrite Hrun by (by apply Forall_reverse). cbn [rbind]. rewrite app_nil_l, !reverse_app, fmap_reverse.
  by rewrite app_assoc.
Qed.

Lemma view_account s x a : view s (KAccount x a) = PutAccount x a (acct_of s x a).
Proof. unfold view, acct_of. simpl. by destruct (st_accounts s !! (x, a)). Qed.
Lemma acct_undo_value s x a :
  norm (acct_undo (x, a, acct_of s x a)) = view s (op_key (acct_undo (x, a, acct_of s x a))).
Proof. symmetry. apply view_account. Qed.
(** A log of values read from [t] covers every key it lists. *)
Lemma covers_intro new t b :
  Forall (fun op => norm op = view t (op_key op)) new ->
  Forall (fun op => op_key op ∈ op_key <$> new) b -> covers new t b.
Proof.
  intros Hn Hb. split.
  - intros key op Hop. unfold first_record in Hop. apply List.find_some in Hop as [Hin Hk].
    apply bool_decide_eq_true_1 in Hk. subst key. rewrite Forall_forall in Hn. apply Hn. by apply list_elem_of_In.
  - eapply Forall_impl; [exact Hb|]. intros op Hin. apply not_eq_None_Some. rewrite first_record_None.
    rewrite Forall_forall. intros Hall. apply list_elem_of_fmap in Hin as (op' & E & Hin).
    by apply (Hall op' Hin).
Qed.
Lemma snapshot_values t keys :
  Forall (fun op => norm op = view t (op_key op)) (snapshot_meta_keys t keys).
Proof. apply Forall_fmap, Forall_forall. intros k _. simpl. by rewrite op_key_snapshot. Qed.
Lemma snapshot_keys t keys : op_key <$> snapshot_meta_keys t keys = keys.
Proof.
  induction keys as [|k keys IH]; [done|]. unfold snapshot_meta_keys in *.
  by rewrite !fmap_cons, IH, op_key_snapshot.
Qed.

(** ** Running a block *)

Record lane_inv (s : StateStore) (st : LaneState) : Prop := {
  li_lane : lane st = write_batch s (ls_batch st);
  li_undo : undoes (lane_log (ls_journal st)) s (lane st);
  li_wf : journal_wf (ls_journal st);
  li_accounts : accounts_ok (lane st);
  li_staking : staking_ok (lane st);
}.
Lemma lane_accept_inv s st id b a sm tm :
  lane_inv s st -> in_family 0 tm -> in_family 1 sm -> Forall (fun e => e.1.1 <> TLT) a ->
  covers (tm ++ sm ++ (acct_undo <$> a)) (lane st) b ->
  accounts_ok (write_batch (lane st) b) -> staking_ok (write_batch (lane st) b) ->
  lane_inv s (lane_accept st id b a sm tm).
Proof.
  intros [Hl Hu Hw Ha Hs] Ht Hsm Hx Hc Ha' Hs'. split; simpl; [|..].
  - by rewrite write_batch_app, <- Hl.
  - intros key. rewrite log_extend by done. by apply (undoes_extend _ _ _ _ _ Hu Hc).
  - destruct Hw as [H1 H2 H3]. split; simpl; by apply Forall_app.
  - done.
  - done.
Qed.
Lemma lane_conflict_inv mode s st id e st' :
  lane_inv s st -> lane_conflict mode st id e = Ok st' -> lane_inv s st'.
Proof.
  intros [Hl Hu Hw Ha Hs]. unfold lane_conflict. case_match; [|done]. intros [= <-]. by split.
Qed.
Lemma next_lane_inv s st : lane_inv s st -> lane_inv s (next_lane st).
Proof. intros [Hl Hu Hw Ha Hs]. by split. Qed.

Lemma fee_cover s asset fee ops fb :
  fee_writes s asset fee ops fb ->
  in_family 1 fb /\ Forall (fun op => norm op = view s (op_key op)) fb /\
  Forall (fun op => op_key op ∈ op_key <$> fb) ops.
Proof.
  destruct 1; [split; [constructor|split; constructor]|..].
  - split; [by constructor; [rewrite op_key_snapshot|]|]. split; [apply snapshot_values|].
    constructor; [|done]. rewrite snapshot_keys. by left.
  - split; [by constructor; [rewrite op_key_snapshot|]|]. split; [apply snapshot_values|].
    constructor; [|done]. rewrite snapshot_keys. by left.
Qed.
Lemma ticket_snapshot_family s o : in_family 0 (snapshot_meta_keys s [KTickets o]).
Proof. constructor; [by rewrite op_key_snapshot|done]. Qed.

Section block.
Context {Auth : Type}.
Variable verify_transfer : StateStore -> AccountTransfer -> Auth -> result StateError unit.
Variable verify_ticket : StateStore -> DrcTicketCreateTx -> Auth -> result StateError unit.
Variable verify_stake : StateStore -> SignedStakeTx -> Auth -> result StateError unit.
Variable ticket_create_tx_id : DrcTicketCreateTx -> Hash.
Variable transfer_id : AccountTransfer -> Hash.
Variable stake_tx_id : SignedStakeTx -> Hash.
Variable mode : ApplyMode.

Lemma ticket_lane_inv s st ctx tx st' :
  lane_inv s st -> in_u64 (tc_fee tx) ->
  ticket_lane_step verify_ticket ticket_create_tx_id mode ctx st tx = Ok st' -> lane_inv s st'.
Proof.
  intros Hi Hf. unfold ticket_lane_step.
  destruct (apply_drc_ticket_create verify_ticket (lane st) tx ctx [] []) as [[[t b] aj]|e] eqn:H;
    [|by apply lane_conflict_inv]. intros Hr. apply rbind_Ok in Hr as ([b' fb] & Hfee & Hr).
  apply Ok_inj in Hr. subst st'.
  destruct (ticket_step_ok verify_ticket _ _ _ _ _ _ _ _ (li_accounts _ _ Hi) (li_staking _ _ Hi) Hf H Hfee)
    as (Ha & Hs & _). apply fee_inv in Hfee as (fops & -> & Hfw).
  destruct (fee_cover _ _ _ _ _ Hfw) as (F1 & F2 & F3).
  apply ticket_inv in H as (tk & ops & _ & _ & _ & _ & _ & _ & _ & _ & Hp & -> & ->).
  rewrite !app_nil_l in *. apply lane_accept_inv; try done; [apply ticket_snapshot_family|by constructor|].
  pose proof (put_tickets_into_keys _ _ _ Hp) as (op & -> & Hk). apply covers_intro.
  - rewrite Forall_app; split; [apply snapshot_values|]. rewrite Forall_app; split; [done|].
    constructor; [|done]. apply acct_undo_value.
  - rewrite !fmap_app, snapshot_keys. rewrite Forall_app; split.
    + constructor; [do 2 (apply elem_of_app; right); by left|]. constructor; [|done]. rewrite Hk. by left.
    + eapply Forall_impl; [exact F3|]. simpl. intros op' Hin. rewrite elem_of_cons, elem_of_app. auto.
Qed.

Lemma transfer_lane_inv s st auth tx st' :
  lane_inv s st -> in_u64 (at_amount tx) -> in_u64 (at_fee tx) ->
  transfer_lane_step verify_transfer transfer_id mode auth st tx = Ok st' -> lane_inv s st'.
Proof.
  intros Hi Ham Hf. unfold transfer_lane_step.
  destruct (apply_account_transfer_checked verify_transfer (lane st) tx auth [] []) as [[b aj]|e] eqn:H;
    [|by apply lane_conflict_inv]. intros Hr. apply rbind_Ok in Hr as ([b' fb] & Hfee & Hr).
  apply Ok_inj in Hr. subst st'.
  pose proof H as H0. apply transfer_inv in H0 as
    (sel & ops & n' & _ & Ht & _ & Hne & _ & Hsel & Heff & Htk & _ & _ & -> & ->).
  edestruct (@transfer_step_ok Auth) as (Ha & Hs & _);
    [exact (li_accounts _ _ Hi)|exact (li_staking _ _ Hi)|exact Ham|exact Hf|exact Hsel|exact H|exact Hfee|]. apply fee_inv in Hfee as (fops & -> & Hfw).
  destruct (fee_cover _ _ _ _ _ Hfw) as (F1 & F2 & F3). rewrite !app_nil_l in *.
  set (tm := if bool_decide (at_asset tx = DRC) then snapshot_meta_keys (lane st) [KTickets (at_from tx)] else []).
  assert (in_family 0 tm /\ Forall (fun op => norm op = view (lane st) (op_key op)) tm /\
    Forall (fun op => op_key op ∈ op_key <$> tm) ops) as (T1 & T2 & T3).
  { unfold tm. case_bool_decide as Hd.
    - split; [apply ticket_snapshot_family|]. split; [apply snapshot_values|].
      eapply Forall_impl; [exact (seq_effect_keys _ _ _ _ _ _ Heff)|]. intros op ->. rewrite snapshot_keys. by left.
    - split; [constructor|]. split; [constructor|]. destruct Heff; [constructor|]. by destruct (Hd (Htk eq_refl)). }
  apply lane_accept_inv; try done; [by repeat constructor|]. apply covers_intro.
  - rewrite Forall_app; split; [done|]. rewrite Forall_app; split; [done|].
    repeat constructor; apply acct_undo_value.
  - rewrite !fmap_app. unfold transfer_writes. rewrite !Forall_app. repeat split.
    + eapply Forall_impl; [exact T3|]. simpl. intros op Hin. rewrite elem_of_app. auto.
    + constructor; [do 2 (apply elem_of_app; right); by left|].
      constructor; [do 2 (apply elem_of_app; right); right; by left|done].
    + eapply Forall_impl; [exact F3|]. simpl. intros op Hin. rewrite !elem_of_app. auto.
Qed.

Lemma stake_lane_inv s st ctx tx st' :
  lane_inv s st -> stake_tx_ints tx ->
  stake_lane_step verify_stake stake_tx_id mode ctx st tx = Ok st' -> lane_inv s st'.
Proof.
  intros Hi Hints. unfold stake_lane_step. intros Hr. apply rbind_Ok in Hr as (p & Hp & Hr).
  apply rbind_Ok in Hr as (acct & [Hx ->]%load_account_Ok & Hr).
  destruct (apply_signed_stake_tx verify_stake (lane st) [] tx ctx p) as [b|e] eqn:H;
    [|by eapply lane_conflict_inv]. apply Ok_inj in Hr. subst st'.
  pose proof H as H0. apply stake_tx_inv in H0 as
    (sel & ops & n' & b1 & bal & _ & Hxp & _ & Hsel & Hop & Heff & Htk & ->).
  edestruct (@stake_step_ok Auth) as (Ha & Hs & _);
    [exact (li_accounts _ _ Hi)|exact (li_staking _ _ Hi)|exact Hints|exact Hsel|exact H|].
  set (tm := if bool_decide (sx_asset tx = DRC) then snapshot_meta_keys (lane st) [KTickets (sx_actor tx)] else []).
  assert (in_family 0 tm /\ Forall (fun op => norm op = view (lane st) (op_key op)) tm /\
    Forall (fun op => op_key op ∈ op_key <$> tm) ops) as (T1 & T2 & T3).
  { unfold tm. case_bool_decide as Hd.
    - split; [apply ticket_snapshot_family|]. split; [apply snapshot_values|].
      eapply Forall_impl; [exact (seq_effect_keys _ _ _ _ _ _ Heff)|]. intros op ->. rewrite snapshot_keys. by left.
    - split; [constructor|]. split; [constructor|]. destruct Heff; [constructor|]. by destruct (Hd (Htk eq_refl)). }
  apply lane_accept_inv; try done.
  - apply Forall_fmap, Forall_forall. intros k Hk. simpl. rewrite op_key_snapshot.
    unfold stake_meta_keys_touched in Hk. destruct (sx_actor tx =? sx_validator tx); simpl in Hk;
      repeat (apply elem_of_cons in Hk as [->|Hk]; [done|]); by apply elem_of_nil in Hk.
  - by constructor.
  - apply covers_intro.
    + rewrite Forall_app; split; [done|]. rewrite Forall_app; split; [apply snapshot_values|].
      repeat constructor; apply acct_undo_value.
    + rewrite !fmap_app, snapshot_keys, !Forall_app. split; [|split].
      * eapply Forall_impl; [exact (stake_operation_keys _ _ _ _ _ _ (li_staking _ _ Hi) Hxp Hop)|].
        intros op [-> | Hk]; apply elem_of_app; right; apply elem_of_app; [right; by left|by left].
      * eapply Forall_impl; [exact T3|]. simpl. intros op Hin. rewrite elem_of_app. auto.
      * constructor; [do 2 (apply elem_of_app; right); by left|done].
Qed.

Definition block_ints (block : LaneBlock) : Prop :=
  Forall (fun tx => in_u64 (tc_fee tx)) (drc_ticket_creates block) /\
  Forall (fun tx => in_u64 (at_amount tx) /\ in_u64 (at_fee tx)) (account_transfers block) /\
  Forall stake_tx_ints (stake_ops block).

Lemma account_lanes_inv s block auth st stats :
  accounts_ok s -> staking_ok s -> block_ints block ->
  apply_account_lanes verify_transfer verify_ticket verify_stake ticket_create_tx_id transfer_id
    stake_tx_id mode s block auth = Ok (st, stats) -> lane_inv s st.
Proof.
  intros Ha Hs (B1 & B2 & B3) H. pose proof (proj1 (Forall_forall _ _) B1) as C1.
  pose proof (proj1 (Forall_forall _ _) B2) as C2. pose proof (proj1 (Forall_forall _ _) B3) as C3.
  clear B1 B2 B3.
  set (st0 := {| lane := s; ls_batch := []; ls_journal := empty_journal; seen := []; statuses := [] |}).
  assert (lane_inv s st0) as Hi0.
  { split; [done|by intros key|split; constructor|done|done]. }
  unfold apply_account_lanes in H. fold st0 in H. destruct auth as [ctx|].
  - apply rbind_Ok in H as (st1 & H1 & H). apply rbind_Ok in H as (st2 & H2 & H).
    apply rbind_Ok in H as (st3 & H3 & [= <- _]).
    apply (rfold_inv _ (lane_inv s)) in H1; [|done|intros; eapply ticket_lane_inv; eauto].
    apply (rfold_inv _ (lane_inv s)) in H2; [|by apply next_lane_inv|
      intros ? tx ? ? Hin; destruct (C2 tx Hin); intros; eapply transfer_lane_inv; eauto].
    apply (rfold_inv _ (lane_inv s)) in H3; [done|by apply next_lane_inv|intros; eapply stake_lane_inv; eauto].
  - apply rbind_Ok in H as (_ & _ & H). apply rbind_Ok in H as (st2 & H2 & [= <- _]).
    apply (rfold_inv _ (lane_inv s)) in H2; [done|done|
      intros ? tx ? ? Hin; destruct (C2 tx Hin); intros; eapply transfer_lane_inv; eauto].
Qed.

(** C13: the journal reverts the ticket, transfer and stake lanes.  After these
    three lanes of a block ran on a store, in either mode and with any accepted
    and skipped operations, the overlay is the store with their batch applied,
    the invariants hold, and the batch built from their journal takes every
    record of the store back to its value before the block, except that a
    missing account may come back as the zero account it reads as. *)
Theorem journal_reverts_block s block auth st stats :
  accounts_ok s -> staking_ok s -> block_ints block ->
  apply_account_lanes verify_transfer verify_ticket verify_stake ticket_create_tx_id transfer_id
    stake_tx_id mode s block auth = Ok (st, stats) ->
  lane st = write_batch s (ls_batch st) /\ accounts_ok (lane st) /\ staking_ok (lane st) /\
  exists rb, revert_journal_batched (ls_journal st) = Ok rb /\
    write_batch (write_batch s (ls_batch st)) rb ≡ s.
Proof.
  intros Ha Hs B H. destruct (account_lanes_inv _ _ _ _ _ Ha Hs B H) as [Hl Hu Hw Ha' Hs'].
  split; [done|]. split; [done|]. split; [done|].
  exists (reverse (lane_log (ls_journal st))). split; [by apply revert_run|].
  rewrite <- Hl. by apply undoes_revert.
Qed.
End block.

(** ** Fees and circulation *)

Lemma burned_frame s b :
  Forall (fun op => exists k, op_key op = k /\ match k with KBurned _ => False | _ => True end) b ->
  st_burned (write_batch s b) = st_burned s.
Proof.
  revert s. induction b as [|op b IH]; intros s Hb; [done|]. apply Forall_cons in Hb as [(k & Hk & Hn) Hb].
  rewrite write_batch_cons, IH by done. destruct s, op as [| | | | | | | | | | | | | | | | | | | | []]; subst; done.
Qed.
Lemma pool_frame s b x :
  Forall (fun op => op_key op <> KRewardPool x) b -> load_reward_pool (write_batch s b) x = load_reward_pool s x.
Proof.
  revert s. induction b as [|op b IH]; intros s Hb; [done|]. apply Forall_cons in Hb as [Hk Hb].
  rewrite write_batch_cons, IH by done. by apply reward_pool_frame.
Qed.
Lemma account_ticket_frames s b :
  Forall (fun op => family (op_key op) <> 1) b ->
  st_burned (write_batch s b) = st_burned s /\ forall x, load_reward_pool (write_batch s b) x = load_reward_pool s x.
Proof.
  intros Hb. split.
  - apply burned_frame. eapply Forall_impl; [exact Hb|]. simpl. intros op Hop. eexists. split; [done|].
    by destruct (op_key op).
  - intros x. apply pool_frame. eapply Forall_impl; [exact Hb|]. simpl. intros op Hop Hk. by rewrite Hk in Hop.
Qed.

Section circulation_spec.
Context {Auth : Type}.
Variable verify_transfer : StateStore -> AccountTransfer -> Auth -> result StateError unit.
Variable verify_ticket : StateStore -> DrcTicketCreateTx -> Auth -> result StateError unit.

(** fees are conserved.  An accepted transfer or ticket creation, with
    its fee settled, leaves each asset's circulation (liquid, staked,
    unbonding and pooled units plus burned units) unchanged: a DRC fee is
    burned and an OVL fee enters the reward pool, in full. *)
Theorem fees_conserve_circulation s y :
  (forall tx (auth : option Auth) b aj b' fb,
     apply_account_transfer_checked verify_transfer s tx auth [] [] = Ok (b, aj) ->
     apply_accepted_account_fee s b (at_asset tx) (at_fee tx) = Ok (b', fb) ->
     circulation y (write_batch s b') = circulation y s) /\
  (forall tx (auth : Auth) t b aj b' fb,
     apply_drc_ticket_create verify_ticket s tx auth [] [] = Ok (t, b, aj) ->
     apply_accepted_account_fee s b DRC (tc_fee tx) = Ok (b', fb) ->
     circulation y (write_batch s b') = circulation y s).
Proof.
  split.
  - intros tx auth b aj b' fb H Hfee. apply fee_inv in Hfee as (fops & -> & Hfw).
    apply transfer_inv in H as (sel & ops & n' & _ & _ & _ & Hne & _ & _ & Heff & _ & _ & _ & -> & _).
    rewrite app_nil_l, write_batch_app. pose proof (seq_effect_keys _ _ _ _ _ _ Heff) as Hk.
    destruct (account_ticket_frames s (transfer_writes s tx ops n')) as [Hb Hp].
    { apply Forall_app. split; [|by repeat constructor]. eapply Forall_impl; [exact Hk|]. by intros op ->. }
    rewrite (fee_circulation _ _ _ _ _ _ y Hfw) by (unfold burned_at; by rewrite ?Hb, ?Hp).
    unfold circulation, burned_at. rewrite Hb. unfold transfer_writes. rewrite write_batch_app. holdings_run.
    rewrite (ticket_ops_holdings s ops y) by (eapply Forall_impl; [exact Hk|]; by eexists).
    rewrite !acct_of_frame by (by eapply seq_effect_frame). simpl. case_bool_decide; lia.
  - intros tx auth t b aj b' fb H Hfee. apply fee_inv in Hfee as (fops & -> & Hfw).
    apply ticket_inv in H as (tk & ops & _ & _ & _ & _ & _ & _ & _ & _ & Hp0 & -> & _).
    rewrite app_nil_l, write_batch_app. pose proof (put_tickets_into_keys _ _ _ Hp0) as (op & -> & Hk).
    destruct (account_ticket_frames s (ticket_writes s tx [op])) as [Hb Hp].
    { constructor; [done|]. constructor; [|done]. by rewrite Hk. }
    rewrite (fee_circulation _ _ _ _ _ _ y Hfw) by (unfold burned_at; by rewrite ?Hb, ?Hp).
    unfold circulation, burned_at. rewrite Hb. unfold ticket_writes. rewrite write_batch_app.
    rewrite (ticket_ops_holdings _ [op] y) by (constructor; [by eexists|done]). holdings_run.
    simpl. case_bool_decide; lia.
Qed.
End circulation_spec.

(** ** Concrete blocks *)

(** The ledger of [demo_ledger] at schema 22, with its supply counters. *)
Definition live_ledger : StateStore :=
  write_batch demo_ledger [PutIssued DRC 1000; PutBurned DRC 0; PutSchema 22].
Lemma live_ledger_accounts : accounts_ok live_ledger.
Proof. apply accounts_ok_frame; [repeat constructor..|]. apply demo_ledger_ok. Qed.
Lemma live_ledger_staking : staking_ok live_ledger.
Proof.
  split.
  - intros x o v. change (st_validators live_ledger) with (∅ : gmap (NativeAssetId * Z) ValidatorRecord).
    by rewrite lookup_empty.
  - intros x o u. change (st_unbonding live_ledger) with (∅ : gmap (NativeAssetId * Z) UnbondingEntry).
    by rewrite lookup_empty.
  - intros x d o r. change (st_delegations live_ledger) with (∅ : gmap (NativeAssetId * Z * Z) DelegationRecord).
    by rewrite lookup_empty.
  - intros x. unfold load_reward_pool. change (st_reward_pool live_ledger) with (∅ : gmap NativeAssetId Z).
    rewrite lookup_empty. unfold_ints. simpl. lia.
Qed.
Definition demo_block : LaneBlock :=
  {| drc_ticket_creates := [{| tc_version := 1; tc_owner := 1; tc_fee := 10; tc_nonce := 7;
                               tc_public_key := []; tc_signature := [] |}];
     account_transfers := [demo_transfer; demo_transfer]; stake_ops := [] |}.
Definition run_demo (m : ApplyMode) : result StateError
    (LaneState * (list TransactionAcceptance * list TransactionAcceptance * list TransactionAcceptance)) :=
  apply_account_lanes accept_all accept_all accept_all (fun _ => 1) (fun _ => 2) (fun _ => 3) m
    live_ledger demo_block (Some tt).

Lemma no_sequence_replay_witness :
  exists s1, op_step accept_all (@accept_all DrcTicketCreateTx) (@accept_all SignedStakeTx) live_ledger
      (DRC, 1, {| kind := Ticket; value := 5 |}) s1 /\
    forall s3, ~ op_step accept_all (@accept_all DrcTicketCreateTx) (@accept_all SignedStakeTx) s1
      (DRC, 1, {| kind := Ticket; value := 5 |}) s3.
Proof.
  eexists. match goal with |- ?A /\ _ => assert A as Hstep end.
  { eapply (step_transfer _ _ _ live_ledger demo_transfer (Some tt));
      [unfold_ints; simpl; lia|unfold_ints; simpl; lia|reflexivity|vm_compute; reflexivity|vm_compute; reflexivity]. }
  split; [exact Hstep|].
  eapply (no_sequence_replay _ _ _ live_ledger);
    [apply live_ledger_accounts|apply live_ledger_staking|exact Hstep|apply rtc_refl].
Defined.
Lemma journal_reverts_block_witness :
  exists st stats rb, run_demo Virtual = Ok (st, stats) /\
    stats = ([Accepted], [Accepted; ExactDuplicate], []) /\
    revert_journal_batched (ls_journal st) = Ok rb /\
    write_batch (write_batch live_ledger (ls_batch st)) rb ≡ live_ledger.
Proof.
  destruct (run_demo Virtual) as [[st stats]|e] eqn:E; [|vm_compute in E; discriminate E].
  exists st, stats.
  destruct (journal_reverts_block accept_all accept_all accept_all (fun _ => 1) (fun _ => 2) (fun _ => 3) Virtual
    live_ledger demo_block (Some tt) st stats) as (_ & _ & _ & rb & Hrb & Heq).
  - apply live_ledger_accounts.
  - apply live_ledger_staking.
  - unfold block_ints, in_u64, u64_max. simpl. repeat constructor; simpl; lia.
  - exact E.
  - exists rb. split; [reflexivity|]. split; [vm_compute in E; injection E as _ <-; reflexivity|].
    split; [exact Hrb|exact Heq].
Defined.

(** a reverted block leaves a trace (finding).  Reverting a block that
    credited a new account restores every balance and nonce, but writes the
    account back as a zero record instead of deleting it: [account_exists],
    which gates DRC policy, preauthorization, regular-key and signer-list
    operations, answers differently after the reorg than before the block. *)
Theorem reverted_block_leaves_account :
  exists st stats rb, run_demo Virtual = Ok (st, stats) /\
    revert_journal_batched (ls_journal st) = Ok rb /\
    account_exists live_ledger DRC 2 = Ok false /\
    account_exists (write_batch (write_batch live_ledger (ls_batch st)) rb) DRC 2 = Ok true.
Proof. do 3 eexists. split; [vm_compute; reflexivity|]. split_and?; (vm_compute; reflexivity). Qed.
