(* ===== verification/FinalityAdmit.v ===== *)
(** * Finality in the node ([node-bin/src/admit/finality.rs],
    [state-machine/src/finality_store.rs])

    The dual-PoS hooks of [ChainState]: the reorg guard, PoW progress on the
    virtual tip, and the admission of checkpoint attestations, over the DAG,
    the GHOSTDAG colouring and the store.

    Signature verification, hashing and the composed state root are
    parameters.  An operation that can write before it returns an error
    returns the new store next to its result. *)

From stdpp Require Import base gmap list fin_maps strings sorting relations.
From Stdlib Require Import ZArith Lia.
From S2P Require Import Prelude Ordering Sums Types Dag Ghostdag Finality Store Supply Accounts Staking StakingProps.
Local Open Scope Z_scope.

(** ** The finality store *)

Definition put_certificate_into (b : WriteBatch) (c : FinalityCertificate) : WriteBatch :=
  b ++ [PutCertificate (block_hash (body c)) c] ++
  (if is_finalized (state c) then [PutFinalizedTip (cb_blue_score (body c))] else []).
Definition load_certificate (s : StateStore) (h : Hash) : option FinalityCertificate :=
  st_certificates s !! h.
Definition load_finalized_blue_score (s : StateStore) : option Z := st_finalized_tip s.
Definition put_attestation_index_into (b : WriteBatch) (h : Hash) (i : AttestationIndex) : WriteBatch :=
  b ++ [PutAttIndex h i].
Definition load_attestation_index (s : StateStore) (h : Hash) : AttestationIndex :=
  default index_default (st_att_index s !! h).
Definition put_last_attestation_into (b : WriteBatch) (a : CheckpointAttestation) : WriteBatch :=
  b ++ [PutLastAtt (att_set a) (att_validator a) (validator_epoch (att_body a)) a].
Definition load_last_attestation (s : StateStore) (set : NativeAssetId) (v : Address) (epoch : Z)
  : option CheckpointAttestation := st_last_att s !! (set, v, epoch).

(** ** The chain state *)

Record ChainState := {
  cs_dag : Dag;
  cs_ghostdag : Ghostdag;
  cs_store : StateStore;
  finality_pow : FinalityPowPolicy;
  cs_chain_id : option string;
  cs_genesis : Hash;
  cs_policy_hash : Hash;
}.
Definition set_store (cs : ChainState) (s : StateStore) : ChainState :=
  {| cs_dag := cs_dag cs; cs_ghostdag := cs_ghostdag cs; cs_store := s; finality_pow := finality_pow cs;
     cs_chain_id := cs_chain_id cs; cs_genesis := cs_genesis cs; cs_policy_hash := cs_policy_hash cs |}.

(** The text of a rejection: a literal, or the rendering of a lower error. *)
Inductive AttestationReason :=
| Reason (msg : string)
| BadSignature
| ConsensusReason (e : ConsensusError)
| StateReason (e : StateError).
Inductive AdmitError :=
| AdmitStorage (msg : string)
| Consensus (e : ConsensusError)
| AdmitUtxo (e : StateError)
| AdmitSubsidy (subsidy emission : Z)
| AdmitUncolored (h : Hash)
| AdmitSupplyCap
| FinalityReorg (finalized abandoned : Z)
| InvalidAttestation (why : AttestationReason)
| AdmitInvalidPow
| AdmitWrongDifficulty (expected got : Z)
| AdmitMissingParent (h : Hash)
| AdmitDuplicate (h : Hash)
| AdmitBadTxRoot
| AdmitTooManyParents (got max : Z)
| AdmitTooFewParents
| AdmitDuplicateParent (h : Hash)
| AdmitBlockTooLarge (got max : Z)
| AdmitTooManyTransactions (got max : Z)
| AdmitTooManyDataCommitments (got max : Z)
| AdmitTxTooLarge (tx_index : nat) (got max : Z)
| AdmitTooManyTxInputs (tx_index : nat) (got max : Z)
| AdmitTooManyTxOutputs (tx_index : nat) (got max : Z)
| AdmitTimestampTooFarAhead (ts max : Z)
| AdmitTimestampBeforeParent (ts parent_ts : Z)
| AdmitImmatureCoinbase (op : OutPoint) (required next : Z)
(* the other texts of [Utxo] and [Consensus] *)
| AdmitCoinbase (msg : string)
| AdmitNoVirtualTip.

(** Blues of the order of [tip]'s past, in apply order. *)
Definition blues_in_order (d : Dag) (g : Ghostdag) (tip : Hash) : result AdmitError (list Hash) :=
  match blue_order d g tip with
  | Ok l => Ok l
  | Err e => Err (Consensus e)
  end.
Definition applied_blues (cs : ChainState) (tip : Hash) : result AdmitError (list Hash) :=
  blues_in_order (cs_dag cs) (cs_ghostdag cs) tip.

Fixpoint common_prefix_len (a b : list Hash) : nat :=
  match a, b with
  | x :: a', y :: b' => if x =? y then S (common_prefix_len a' b') else 0%nat
  | _, _ => 0%nat
  end.

Definition score_or_zero (cs : ChainState) (h : Hash) : Z := default 0 (get_blue_score (cs_ghostdag cs) h).

Definition guard_reorg_vs_finality (cs : ChainState) (old_virtual new_virtual : Hash)
  : result AdmitError unit :=
  match load_finalized_blue_score (cs_store cs) with
  | None => Ok tt
  | Some finalized =>
      if old_virtual =? new_virtual then Ok tt else
      let? applied := applied_blues cs old_virtual in
      let? target := applied_blues cs new_virtual in
      let prefix := common_prefix_len applied target in
      rfold (fun _ h =>
        let score := score_or_zero cs h in
        ensure (negb (score <=? finalized)) (FinalityReorg finalized score)) tt (drop prefix applied) ;?
      let new_score := score_or_zero cs new_virtual in
      match assert_reorg_allowed (Some finalized) new_score with
      | Ok _ => Ok tt
      | Err _ => Err (FinalityReorg finalized new_score)
      end
  end.

Definition TRIDENT_STATE_TRANSITION_VERSION : string := "agora-trident-state-v24".

Section finality.
Variable verify_checkpoint_attestation : CheckpointAttestation -> bool.
Variable checkpoint_id : CheckpointBody -> Hash.
Variable hash_pair : Hash -> Hash -> Hash.
(** [compose_trident_state_root]. *)
Variable compose_trident_state_root : StateStore -> Hash -> Hash.

Definition checkpoint_body_for (cs : ChainState) (h : Hash) (score : Z) : CheckpointBody :=
  {| chain_id := default "agora-dev"%string (cs_chain_id cs); genesis_hash := cs_genesis cs;
     consensus_policy_hash := cs_policy_hash cs;
     state_transition_version := TRIDENT_STATE_TRANSITION_VERSION;
     cb_blue_score := score; block_hash := h;
     state_root := compose_trident_state_root (cs_store cs) h;
     validator_epoch := Z.max (load_epoch (cs_store cs) OVL) (load_epoch (cs_store cs) DRC) |}.

(** What a validator must sign for a known block. *)
Definition checkpoint_body_of (cs : ChainState) (h : Hash) : option CheckpointBody :=
  checkpoint_body_for cs h <$> get_blue_score (cs_ghostdag cs) h.

(** Keep the stake counters of a certificate under a new body. *)
Definition rebody (c : FinalityCertificate) (b : CheckpointBody) : FinalityCertificate :=
  {| body := b; state := Proposed; pow_work_met := false;
     ovl_signed_stake := ovl_signed_stake c; ovl_active_stake := ovl_active_stake c;
     drc_signed_stake := drc_signed_stake c; drc_active_stake := drc_active_stake c |}.

Definition note_pow_on_virtual_tip (cs : ChainState) (tip : Hash) : ChainState :=
  match get_blue_score (cs_ghostdag cs) tip with
  | None => cs
  | Some score =>
      let b := checkpoint_body_for cs tip score in
      let cert := default (certificate_new b) (load_certificate (cs_store cs) tip) in
      let cert := if bool_decide (body cert = b) then cert else rebody cert b in
      let cert := refresh_certificate (note_pow_progress cert score (finality_pow cs)) in
      set_store cs (write_batch (cs_store cs) (put_certificate_into [] cert))
  end.

(** The second half of [admit_attestation]: the attestation is authentic and
    neither an equivocation nor a replay. *)
Definition record_attestation (cs : ChainState) (att : CheckpointAttestation)
  : ChainState * result AdmitError FinalityCertificate :=
  let s := cs_store cs in
  match get_blue_score (cs_ghostdag cs) (block_hash (att_body att)) with
  | None => (cs, Err (InvalidAttestation (Reason "unknown checkpoint block")))
  | Some local_score =>
      let expected := checkpoint_body_for cs (block_hash (att_body att)) local_score in
      if negb (bool_decide (att_body att = expected)) then
        (cs, Err (InvalidAttestation (Reason "checkpoint body mismatch")))
      else
        let idx := index_insert (load_attestation_index s (block_hash (att_body att)))
                     (att_set att) (att_validator att) in
        let snap := build_snapshot s (att_set att) (validator_epoch (att_body att)) in
        let signed := signed_stake_for snap (signers idx (att_set att)) in
        let active := total_active_stake snap in
        let cert := default (certificate_new expected)
                      (load_certificate s (block_hash (att_body att))) in
        let cert := if bool_decide (body cert = expected) then cert else certificate_new expected in
        let cert := note_pow_progress cert local_score (finality_pow cs) in
        match note_signed_stake cert expected (bool_decide (att_set att = OVL)) signed active with
        | Err e => (cs, Err (InvalidAttestation (ConsensusReason e)))
        | Ok cert =>
            let b := put_attestation_index_into [] (block_hash (att_body att)) idx in
            let b := put_last_attestation_into b att in
            let b := put_certificate_into b cert in
            (set_store cs (write_batch s b), Ok cert)
        end
  end.

Definition admit_attestation (cs : ChainState) (att : CheckpointAttestation)
  : ChainState * result AdmitError FinalityCertificate :=
  let s := cs_store cs in
  if negb (is_account_asset (att_set att)) then
    (cs, Err (InvalidAttestation (Reason "attestation set must be OVL or DRC"))) else
  if negb (verify_checkpoint_attestation att) then (cs, Err (InvalidAttestation BadSignature)) else
  if negb (validator_key_matches s att) then
    (cs, Err (InvalidAttestation (Reason "validator key mismatch or inactive"))) else
  match load_last_attestation s (att_set att) (att_validator att) (validator_epoch (att_body att)) with
  | None => record_attestation cs att
  | Some prev =>
      match detect_double_checkpoint checkpoint_id hash_pair prev att with
      | Some ev =>
          match apply_evidence s [] ev default_slash_policy with
          | Err e => (cs, Err (InvalidAttestation (StateReason e)))
          | Ok (b, _) =>
              (set_store cs (write_batch s (put_last_attestation_into b att)),
               Err (InvalidAttestation (Reason "equivocation evidence applied")))
          end
      | None =>
          if checkpoint_id (att_body prev) =? checkpoint_id (att_body att) then
            (cs, match load_certificate s (block_hash (att_body att)) with
                 | Some c => Ok c
                 | None => Err (InvalidAttestation (Reason "missing certificate for replay"))
                 end)
          else record_attestation cs att
      end
  end.
End finality.
