(* ===== verification/FinalityProps.v ===== *)
(** * Finality: what the node guarantees

    The reorg guard, the admission of attestations and the punishment of
    equivocation, for every signature scheme, hash function and state root;
    then concrete histories that show where the guarantees end. *)

From stdpp Require Import base gmap list fin_maps strings sorting relations.
From Stdlib Require Import ZArith Lia.
From S2P Require Import Prelude Ordering Sums Types Dag Ghostdag GhostdagProps Finality Store Supply Accounts Staking StakingProps FinalityAdmit.
Local Open Scope Z_scope.

(** ** The reorg guard *)

Lemma common_prefix_take (a b : list Hash) i :
  (i < length a)%nat -> (i < common_prefix_len a b)%nat <-> take (S i) a = take (S i) b.
Proof.
  revert b i. induction a as [|x a IH]; intros b i Hi; simpl in Hi; [lia|].
  destruct b as [|y b]; simpl; [split; [lia|done]|].
  destruct (Z.eqb_spec x y) as [->|Hne]; [|split; [lia|intros [=]; done]].
  destruct i as [|i]; [split; [done|lia]|].
  rewrite <- Nat.succ_lt_mono, IH by lia. simpl. split; [by intros ->|by intros [=]].
Qed.

Lemma rfold_check {E A} (f : A -> bool) (err : A -> E) (l : list A) :
  (rfold (fun _ x => ensure (f x) (err x)) tt l = Ok tt <-> forall x, x ∈ l -> f x = true) /\
  (rfold (fun _ x => ensure (f x) (err x)) tt l = Ok tt \/
   exists x, f x = false /\ rfold (fun _ x => ensure (f x) (err x)) tt l = Err (err x)).
Proof.
  induction l as [|x l [IH1 IH2]]; simpl; [split; [split; [by intros _ ? ?%elem_of_nil|done]|by left]|].
  unfold ensure at 1 3 5. destruct (f x) eqn:Hx; simpl.
  - split; [rewrite IH1; setoid_rewrite elem_of_cons; naive_solver|].
    destruct IH2 as [?|(z & ? & ?)]; [by left|]. right. by exists z.
  - split; [split; [done|]|right; by exists x].
    intros H. rewrite H in Hx; [done|left].
Qed.

(** C6: the reorg guard protects finality.  With a finalized frontier, a
    change of virtual tip is allowed exactly when the new tip lies above the
    frontier and every applied blue at or below the frontier stays applied in
    its place, with everything applied before it; any other change is refused
    with a finality error. *)
Theorem guard_reorg_correct cs old new f applied target :
  load_finalized_blue_score (cs_store cs) = Some f -> old <> new ->
  applied_blues cs old = Ok applied -> applied_blues cs new = Ok target ->
  (guard_reorg_vs_finality cs old new = Ok tt <->
     f < score_or_zero cs new /\
     forall i h, applied !! i = Some h -> score_or_zero cs h <= f ->
       take (S i) applied = take (S i) target) /\
  (guard_reorg_vs_finality cs old new = Ok tt \/
   exists abandoned, guard_reorg_vs_finality cs old new = Err (FinalityReorg f abandoned) /\ abandoned <= f).
Proof.
  intros Hf Hne Ha Ht. unfold guard_reorg_vs_finality. rewrite Hf.
  rewrite (proj2 (Z.eqb_neq old new) Hne), Ha, Ht. cbn [rbind].
  set (rest := drop (common_prefix_len applied target) applied).
  destruct (rfold_check (fun h => negb (score_or_zero cs h <=? f))
    (fun h => FinalityReorg f (score_or_zero cs h)) rest) as [Hiff Hor].
  cbv beta in Hiff, Hor. set (r := rfold _ tt rest) in *.
  assert ((forall h, h ∈ rest -> negb (score_or_zero cs h <=? f) = true) <->
          (forall i h, applied !! i = Some h -> score_or_zero cs h <= f ->
             take (S i) applied = take (S i) target)) as Hrest.
  { unfold rest. split.
    - intros H i h Hi Hs. apply common_prefix_take; [by eapply lookup_lt_Some|].
      destruct (decide (i < common_prefix_len applied target)%nat) as [|Hge]; [done|].
      specialize (H h). rewrite negb_true_iff, Z.leb_gt in H.
      enough (f < score_or_zero cs h) by lia. apply H, list_elem_of_lookup.
      exists (i - common_prefix_len applied target)%nat. rewrite lookup_drop.
      by replace (_ + _)%nat with i by lia.
    - intros H h [i Hi]%list_elem_of_lookup. rewrite lookup_drop in Hi.
      apply negb_true_iff, Z.leb_gt. destruct (Z.lt_ge_cases f (score_or_zero cs h)) as [|Hle]; [done|].
      specialize (H _ _ Hi Hle). apply common_prefix_take in H; [lia|by eapply lookup_lt_Some]. }
  rewrite <- Hrest, <- Hiff. unfold assert_reorg_allowed.
  destruct Hor as [Hr|(h & Hh & Hr)]; rewrite Hr; cbn [rbind].
  - destruct (Z.leb_spec (score_or_zero cs new) f) as [Hle|Hlt].
    + split; [split; [done|lia]|]. right. by eexists.
    + split; [tauto|by left].
  - split; [split; [done|by intros [_ ?]]|]. right. eexists. split; [done|].
    by apply negb_false_iff, Z.leb_le in Hh.
Qed.

(** ** Attestations *)

Section attestations.
Variable verify_checkpoint_attestation : CheckpointAttestation -> bool.
Variable checkpoint_id : CheckpointBody -> Hash.
Variable hash_pair : Hash -> Hash -> Hash.
Variable compose_trident_state_root : StateStore -> Hash -> Hash.
Abbreviation admitted := (admit_attestation verify_checkpoint_attestation checkpoint_id hash_pair
                         compose_trident_state_root).
Abbreviation expected_body := (checkpoint_body_of compose_trident_state_root).

(** The gates every attestation passes first. *)
Definition attestation_authentic (s : StateStore) (att : CheckpointAttestation) : Prop :=
  att_set att <> TLT /\ verify_checkpoint_attestation att = true /\
  exists v, load_validator s (att_set att) (att_validator att) = Some v /\
    consensus_pubkey v = att_public_key att /\ status v = Bonded.

Lemma validator_key_matches_iff s att :
  validator_key_matches s att = true <->
  exists v, load_validator s (att_set att) (att_validator att) = Some v /\
    consensus_pubkey v = att_public_key att /\ status v = Bonded.
Proof.
  unfold validator_key_matches. destruct (load_validator _ _ _) as [v|]; [|naive_solver].
  rewrite andb_true_iff, !bool_decide_eq_true. naive_solver.
Qed.

Lemma admit_rejects_unauthentic cs att :
  (attestation_authentic (cs_store cs) att) \/
  (exists why, admitted cs att = (cs, Err (InvalidAttestation why))).
Proof.
  unfold admit_attestation, attestation_authentic.
  destruct (is_account_asset (att_set att)) eqn:Ha; simpl; [|right; by eexists].
  destruct (verify_checkpoint_attestation att) eqn:Hv; simpl; [|right; by eexists].
  destruct (validator_key_matches _ _) eqn:Hk; simpl; [|right; by eexists].
  left. apply is_account_asset_spec in Ha. apply validator_key_matches_iff in Hk. auto.
Qed.

(** The certificate an attestation starts from: the stored one when it is for
    the same body, otherwise a fresh one. *)
Definition base_certificate (s : StateStore) (b : CheckpointBody) : FinalityCertificate :=
  match load_certificate s (block_hash b) with
  | Some c => if bool_decide (body c = b) then c else certificate_new b
  | None => certificate_new b
  end.
Definition signed_of (c : FinalityCertificate) (x : NativeAssetId) : Z * Z :=
  match x with
  | OVL => (ovl_signed_stake c, ovl_active_stake c)
  | _ => (drc_signed_stake c, drc_active_stake c)
  end.
Definition other_set (x : NativeAssetId) : NativeAssetId := match x with OVL => DRC | _ => OVL end.

(** What an accepted, new attestation does to the node. *)
Record attested (cs cs' : ChainState) (att : CheckpointAttestation) (cert : FinalityCertificate)
  : Prop := {
  at_body : expected_body cs (block_hash (att_body att)) = Some (att_body att);
  at_cert_body : body cert = att_body att;
  at_signers : forall x, x ∈ signers (load_attestation_index (cs_store cs') (block_hash (att_body att)))
                  (att_set att) <->
                x = att_validator att \/
                x ∈ signers (load_attestation_index (cs_store cs) (block_hash (att_body att)))
                      (att_set att);
  at_stake : signed_of cert (att_set att) =
    let snap := build_snapshot (cs_store cs) (att_set att) (validator_epoch (att_body att)) in
    (signed_stake_for snap
       (signers (load_attestation_index (cs_store cs') (block_hash (att_body att))) (att_set att)),
     total_active_stake snap);
  at_other : signed_of cert (other_set (att_set att)) =
             signed_of (base_certificate (cs_store cs) (att_body att)) (other_set (att_set att));
  at_pow : pow_work_met cert = pow_met (cb_blue_score (att_body att)) (finality_pow cs);
  at_state : state cert = evaluate_checkpoint_state (pow_work_met cert) (ovl_signed_stake cert)
               (ovl_active_stake cert) (drc_signed_stake cert) (drc_active_stake cert);
  at_stored : load_certificate (cs_store cs') (block_hash (att_body att)) = Some cert;
  at_last : load_last_attestation (cs_store cs') (att_set att) (att_validator att)
              (validator_epoch (att_body att)) = Some att;
  at_frontier : load_finalized_blue_score (cs_store cs') =
    if is_finalized (state cert) then Some (cb_blue_score (att_body att))
    else load_finalized_blue_score (cs_store cs);
  at_ledger : (forall y, holdings y (cs_store cs') = holdings y (cs_store cs)) /\
    st_validators (cs_store cs') = st_validators (cs_store cs) /\
    st_epochs (cs_store cs') = st_epochs (cs_store cs);
  at_dag : cs_dag cs' = cs_dag cs /\ cs_ghostdag cs' = cs_ghostdag cs;
}.

Lemma signers_insert i x a z :
  x <> TLT -> z ∈ signers (index_insert i x a) x <-> z = a \/ z ∈ signers i x.
Proof. destruct x; simpl; [done|intros _; apply insert_signer_elem..]. Qed.

Lemma finality_writes s h i a c :
  let t := write_batch s (put_certificate_into
             (put_last_attestation_into (put_attestation_index_into [] h i) a) c) in
  load_attestation_index t h = i /\ load_certificate t (block_hash (body c)) = Some c /\
  load_last_attestation t (att_set a) (att_validator a) (validator_epoch (att_body a)) = Some a /\
  load_finalized_blue_score t =
    (if is_finalized (state c) then Some (cb_blue_score (body c)) else load_finalized_blue_score s) /\
  (forall y, holdings y t = holdings y s) /\
  st_validators t = st_validators s /\ st_epochs t = st_epochs s.
Proof.
  unfold put_certificate_into, put_last_attestation_into, put_attestation_index_into,
    load_attestation_index, load_certificate, load_last_attestation, load_finalized_blue_score.
  destruct s, (is_finalized (state c)); simpl; rewrite !lookup_insert_eq; done.
Qed.

Lemma record_attestation_spec cs att cs' cert :
  att_set att <> TLT ->
  record_attestation compose_trident_state_root cs att = (cs', Ok cert) ->
  attested cs cs' att cert.
Proof.
  intros Hx. unfold record_attestation. cbv zeta.
  destruct (get_blue_score (cs_ghostdag cs) (block_hash (att_body att))) as [sc|] eqn:Hsc; [|done].
  destruct (bool_decide (att_body att = _)) eqn:Hb; cbn [negb]; [|done].
  apply bool_decide_eq_true in Hb.
  set (e := checkpoint_body_for _ cs _ sc) in *.
  assert (block_hash e = block_hash (att_body att)) as He by done.
  assert (cb_blue_score (att_body att) = sc) as Hcs by (rewrite Hb; done).
  assert (expected_body cs (block_hash (att_body att)) = Some (att_body att)) as Hexp
    by (unfold checkpoint_body_of; rewrite Hsc; simpl; by rewrite Hb at 2).
  set (idx := index_insert _ _ _). set (snap := build_snapshot _ _ _).
  set (c0 := if bool_decide _ then _ else certificate_new e).
  assert (c0 = base_certificate (cs_store cs) (att_body att)) as Hc0.
  { unfold c0, base_certificate. rewrite Hb, He.
    destruct (load_certificate _ _) as [c|]; simpl; [done|].
    by destruct (bool_decide _). }
  assert (body c0 = e) as Hbc.
  { rewrite Hc0. unfold base_certificate. destruct (load_certificate _ _) as [c|]; [|by rewrite Hb].
    rewrite <- Hb. case_bool_decide; done. }
  clearbody c0 e. unfold note_signed_stake. rewrite bool_decide_eq_true_2 by done. cbn [negb].
  pose proof (eq_refl snap) as Hsn. unfold snap at 2 in Hsn. clearbody snap.
  intros H. apply pair_eq in H as [<- Hc]. apply Ok_inj in Hc. subst cert.
  assert (block_hash (body c0) = block_hash (att_body att)) as Hbh by (by rewrite Hbc).
  assert (cb_blue_score (body c0) = sc) as Hbs by (by rewrite Hbc, <- Hb).
  assert (forall x, x ∈ signers idx (att_set att) <-> x = att_validator att \/
    x ∈ signers (load_attestation_index (cs_store cs) (block_hash (att_body att))) (att_set att)) as Hidx
    by (intros; unfold idx; by apply signers_insert).
  clearbody idx.
  match goal with |- attested _ (set_store _ (write_batch _ (put_certificate_into _ ?c))) _ _ =>
    destruct (finality_writes (cs_store cs) (block_hash (att_body att)) idx att c)
      as (W1 & W2 & W3 & W4 & W5) end.
  cbn [body refresh_certificate note_pow_progress] in W2, W4. rewrite Hbh in W2. rewrite Hbs in W4.
  split; cbn [cs_store set_store cs_dag cs_ghostdag]; rewrite ?W1; auto.
  - cbn [body refresh_certificate note_pow_progress]. congruence.
  - rewrite <- Hsn. clear Hsn. destruct (att_set att); simpl; done.
  - rewrite <- Hc0. destruct (att_set att); simpl; done.
  - simpl. by rewrite Hcs.
  - rewrite Hcs. exact W4.
Qed.

(** only authentic votes for the local checkpoint count.  An accepted
    attestation is for OVL or DRC, carries a valid signature and the key of a
    bonded validator.  Either it repeats a vote already recorded, and nothing
    changes; or its body is the one this node computes for that block, the
    signer joins the block's index, the certificate's stake in that set is
    exactly the stake the index holds in the epoch's snapshot, the other set
    is untouched, the certificate is evaluated, stored, and moves the
    finalized frontier when final; no balance, stake or epoch changes. *)
Theorem admit_attestation_sound cs att cs' cert :
  admitted cs att = (cs', Ok cert) ->
  attestation_authentic (cs_store cs) att /\
  ((cs' = cs /\ load_certificate (cs_store cs) (block_hash (att_body att)) = Some cert /\
    exists prev, load_last_attestation (cs_store cs) (att_set att) (att_validator att)
        (validator_epoch (att_body att)) = Some prev /\
      checkpoint_id (att_body prev) = checkpoint_id (att_body att)) \/
   attested cs cs' att cert).
Proof.
  intros H. destruct (admit_rejects_unauthentic cs att) as [Hau|(why & E)]; [|congruence].
  split; [done|]. destruct Hau as (Hx & Hv & Hk).
  unfold admit_attestation in H. apply is_account_asset_spec in Hx as Ha.
  apply validator_key_matches_iff in Hk. rewrite Ha, Hv, Hk in H. cbn [negb] in H.
  destruct (load_last_attestation _ _ _ _) as [prev|] eqn:Hprev; [|right; by apply record_attestation_spec].
  destruct (detect_double_checkpoint _ _ _ _) as [ev|].
  { destruct (apply_evidence _ _ _ _) as [[]|]; done. }
  destruct (Z.eqb_spec (checkpoint_id (att_body prev)) (checkpoint_id (att_body att))) as [E|];
    [|right; by apply record_attestation_spec].
  left. destruct (load_certificate _ _); simplify_eq. split; [done|]. split; [done|]. by exists prev.
Qed.

(** Every recorded attestation sits under its own set, validator and epoch. *)
Definition last_attestations_keyed (s : StateStore) : Prop :=
  forall x o e a, st_last_att s !! (x, o, e) = Some a ->
    att_set a = x /\ att_validator a = o /\ validator_epoch (att_body a) = e.

Lemma record_last s b a :
  let t := write_batch s (put_last_attestation_into b a) in
  st_validators t = st_validators (write_batch s b) /\
  (forall x, load_reward_pool t x = load_reward_pool (write_batch s b) x) /\
  (forall y, holdings y t = holdings y (write_batch s b)).
Proof.
  unfold put_last_attestation_into. rewrite write_batch_app. by destruct (write_batch s b).
Qed.

Lemma evidence_total s ev policy v :
  ev_set ev <> TLT -> load_validator s (ev_set ev) (ev_validator ev) = Some v ->
  load_reward_pool s (ev_set ev) +
    (penalty_for policy (ev_kind ev) (saturating_add u64_max (self_bond v) (delegated v))).1.1 <= u64_max ->
  exists b slash, apply_evidence s [] ev policy = Ok (b, slash).
Proof.
  intros Hx Hv Hle. unfold apply_evidence. rewrite (proj2 (is_account_asset_spec _) Hx), Hv.
  cbn [ensure rbind ok_or]. cbv zeta. destruct (penalty_for _ _ _) as [[sl tomb] jail]. cbn [fst] in Hle.
  destruct (if tomb then _ else _) as [st until]. destruct (0 <? sl); cbn [rbind]; [|by eexists _, _].
  unfold credit_reward_pool_into. rewrite (proj2 (is_account_asset_spec _) Hx). cbn [ensure rbind].
  rewrite (proj2 (checked_add_Some _ _ _ _) (conj eq_refl Hle)). cbn [ok_or rbind]. by eexists _, _.
Qed.

(** equivocation is punished once and for all.  A validator that votes
    for a second checkpoint in one epoch gets an error instead of a vote,
    loses five percent of its stake to the reward pool and is tombstoned; no
    other validator and no total is affected, and from then on every
    attestation it sends is refused without any change to the node. *)
Theorem equivocation_punished cs att prev :
  let s := cs_store cs in let x := att_set att in let o := att_validator att in
  staking_ok s -> bonded_total x s + load_reward_pool s x <= u64_max -> last_attestations_keyed s ->
  attestation_authentic s att ->
  load_last_attestation s x o (validator_epoch (att_body att)) = Some prev ->
  checkpoint_id (att_body prev) <> checkpoint_id (att_body att) ->
  exists cs', admitted cs att =
      (cs', Err (InvalidAttestation (Reason "equivocation evidence applied"))) /\
    let t := cs_store cs' in let slash := stake_at s x o * 500 / 10000 in
    (exists v, load_validator t x o = Some v /\ status v = Tombstoned) /\
    stake_at t x o = stake_at s x o - slash /\
    load_reward_pool t x = load_reward_pool s x + slash /\
    (forall y, holdings y t = holdings y s) /\
    (forall y a, (y, a) <> (x, o) -> st_validators t !! (y, a) = st_validators s !! (y, a)) /\
    (forall att2, att_set att2 = x -> att_validator att2 = o ->
       exists why, admitted cs' att2 = (cs', Err (InvalidAttestation why))).
Proof.
  intros s x o Hok Hbt Hkeyed (Hx & Hsig & v & Hv & Hkey & Hst) Hprev Hid.
  destruct (Hkeyed _ _ _ _ Hprev) as (Hps & Hpo & Hpe).
  set (ev := {| ev_kind := DoubleCheckpointSignature; ev_set := x; ev_validator := o;
     ev_epoch := validator_epoch (att_body att); attestation_a := Some prev; attestation_b := Some att;
     note_hash := hash_pair (checkpoint_id (att_body prev)) (checkpoint_id (att_body att)) |}).
  assert (detect_double_checkpoint checkpoint_id hash_pair prev att = Some ev) as Hev.
  { unfold detect_double_checkpoint, ev. rewrite Hps, Hpo, Hpe, !Z.eqb_refl, bool_decide_eq_true_2 by done.
    by rewrite (proj2 (Z.eqb_neq _ _) Hid). }
  pose proof (stake_at_le s x o v Hok Hv) as [Est Hle].
  destruct (so_pool _ Hok x) as [Hp0 _]. destruct (so_val _ Hok _ _ _ Hv) as (_ & Hs & Hd & _).
  unfold in_u64 in Hs, Hd.
  assert (0 <= stake_at s x o * 500 / 10000 <= stake_at s x o) as Hq.
  { split; [apply Z.div_pos; lia|apply Z.div_le_upper_bound; lia]. }
  assert ((penalty_for default_slash_policy (ev_kind ev)
    (saturating_add u64_max (self_bond v) (delegated v))).1.1 = stake_at s x o * 500 / 10000) as Hpen.
  { rewrite saturating_add_exact by lia. rewrite <- Est. simpl. unfold slash_amount.
    apply as_u64_small. unfold in_u64. lia. }
  destruct (evidence_total s ev default_slash_policy v Hx Hv) as (b & sl & Hb); [rewrite Hpen; simpl; lia|].
  apply evidence_inv in Hb as Hb'. destruct Hb' as (v' & _ & _ & _ & Hv' & Hsl & _).
  cbn [ev_set ev_validator ev] in Hv'. unfold o, x in Hv'. rewrite Hv in Hv'. injection Hv' as <-.
  cbv zeta in Hsl. rewrite Hpen in Hsl. subst sl.
  assert (slash_policy_ok default_slash_policy) as Hpol by (unfold slash_policy_ok; simpl; lia).
  destruct (slash_conservation s ev default_slash_policy b _ Hok ltac:(simpl; lia) Hpol Hb)
    as (_ & Hst' & Hpool & Hhold & Hoth & Htomb).
  cbn [ev_set ev_validator ev_kind ev] in *. destruct (Htomb eq_refl) as (w & Hw & Hws).
  destruct (record_last s b att) as (Rv & Rp & Rh). cbv zeta.
  eexists. split.
  { unfold admit_attestation. fold s x o.
    rewrite (proj2 (is_account_asset_spec x) Hx), Hsig.
    rewrite (proj2 (validator_key_matches_iff s att)) by (by exists v). cbn [negb].
    rewrite Hprev, Hev, Hb. reflexivity. }
  cbn [cs_store set_store]. unfold load_validator, stake_at in *. rewrite Rv, Rp.
  split; [by exists w|]. split; [done|]. split; [done|]. split; [intros y; by rewrite Rh|].
  split; [done|]. intros att2 H2 H3.
  destruct (admit_rejects_unauthentic (set_store cs (write_batch s (put_last_attestation_into b att))) att2)
    as [(_ & _ & u & Hu & _ & Hub)|E]; [|exact E].
  exfalso. unfold load_validator in Hu. cbn [cs_store set_store] in Hu. rewrite Rv, H2, H3, Hw in Hu. congruence.
Qed.
End attestations.

(** ** Concrete histories *)

(** A fork [0 - 1 - 2] and [0 - 1 - 3 - 4 - 5], one OVL and three DRC
    validators of equal stake, and a state root that reads the DRC reward pool. *)
Definition fork_blocks : list (Hash * list Hash * Z) :=
  [(0, [], 1); (1, [0], 1); (2, [1], 1); (3, [1], 1); (4, [3], 1); (5, [4], 1)].
Definition voter_store : StateStore :=
  write_batch empty_store
    [PutValidator OVL 1 (demo_validator 1); PutValidator DRC 1 (demo_validator 1);
     PutValidator DRC 2 (demo_validator 2); PutValidator DRC 3 (demo_validator 3)].
Definition demo_chain : ChainState :=
  let st := node_state default_config fork_blocks in
  {| cs_dag := st.1; cs_ghostdag := st.2; cs_store := voter_store;
     finality_pow := default_pow_policy; cs_chain_id := None; cs_genesis := 0; cs_policy_hash := 0 |}.
Definition demo_root (s : StateStore) (_ : Hash) : Hash := load_reward_pool s DRC.
Definition demo_id (b : CheckpointBody) : Hash :=
  (block_hash b * 1000 + state_root b) * 1000 + validator_epoch b.
Definition demo_admit := admit_attestation (fun _ => true) demo_id Z.add demo_root.
Definition vote (cs : ChainState) (h : Hash) (x : NativeAssetId) (o : Address) : CheckpointAttestation :=
  {| att_body := default demo_body (checkpoint_body_of demo_root cs h); att_set := x;
     att_validator := o; att_public_key := []; att_signature := [] |}.
(** Each validator in turn votes for the body the node itself computes. *)
Definition honest_votes (cs : ChainState) (vs : list (Hash * NativeAssetId * Address)) : ChainState :=
  foldl (fun cs v => (demo_admit cs (vote cs v.1.1 v.1.2 v.2)).1) cs vs.
Definition with_batch {A} (cs : ChainState) (r : result StateError (WriteBatch * A)) : ChainState :=
  match r with Ok (b, _) => set_store cs (write_batch (cs_store cs) b) | Err _ => cs end.

(** Blocks 2 and then, one epoch later, 1 are finalized. *)
Definition finalized_2 : ChainState :=
  honest_votes demo_chain [(2, OVL, 1); (2, DRC, 1); (2, DRC, 2)].
Definition finalized_1_later : ChainState :=
  honest_votes (with_batch finalized_2 (advance_epoch (cs_store finalized_2) [] OVL))
    [(1, OVL, 1); (1, DRC, 1); (1, DRC, 2)].

(** finality can be undone (finding).  The finalized frontier is
    overwritten by the last finalized certificate, whatever its score: after
    block 2 is final the guard refuses the reorg that abandons it, but when the
    same honest validators finalize its parent in the next epoch the frontier
    moves back and the same reorg is allowed. *)
Theorem finality_can_be_undone :
  load_finalized_blue_score (cs_store finalized_2) = Some 3 /\
  guard_reorg_vs_finality finalized_2 2 5 = Err (FinalityReorg 3 3) /\
  load_finalized_blue_score (cs_store finalized_1_later) = Some 2 /\
  guard_reorg_vs_finality finalized_1_later 2 5 = Ok tt.
Proof. split_and?; (vm_compute; reflexivity). Qed.

(** Validator 1 votes for block 2, the reward pool and with it the state root
    changes, and validator 2 votes for block 2. *)
Definition drifted : ChainState :=
  let cs := honest_votes demo_chain [(2, DRC, 1)] in
  with_batch cs (credit_reward_pool_into (cs_store cs) [] DRC 7).

(** votes for an old body count for the new one (finding).  The signer
    index is kept per block, not per checkpoint body: when the state root of a
    block has changed, one vote for the new body yields a certificate that
    claims the stake of the signer of the old body too, and with it the
    two-thirds quorum. *)
Theorem stale_votes_reach_quorum :
  exists cert,
    (demo_admit drifted (vote drifted 2 DRC 2)).2 = Ok cert /\
    body cert <> att_body (vote demo_chain 2 DRC 1) /\
    (drc_signed_stake cert, drc_active_stake cert) = (200, 300) /\
    has_two_thirds_quorum (drc_signed_stake cert) (drc_active_stake cert) = true /\
    has_two_thirds_quorum (power_of (build_snapshot (cs_store drifted) DRC 0) 2) 300 = false.
Proof.
  eexists. split; [vm_compute; reflexivity|].
  split; [vm_compute; discriminate|]. split_and?; (vm_compute; reflexivity).
Qed.

(** voting for a block and then for its child is punished (finding).
    Evidence is any second checkpoint of an epoch, in conflict with the first
    or not: a validator that follows the chain and attests what the node
    expects, first for block 1 and then for its child 2, is tombstoned. *)
Theorem honest_chain_votes_slashed :
  parents (cs_dag demo_chain) !! 2 = Some [1] /\
  let cs := honest_votes demo_chain [(1, DRC, 1)] in
  (demo_admit cs (vote cs 2 DRC 1)).2
    = Err (InvalidAttestation (Reason "equivocation evidence applied")) /\
  exists v, load_validator (cs_store (demo_admit cs (vote cs 2 DRC 1)).1) DRC 1 = Some v /\
    status v = Tombstoned /\ self_bond v = 95.
Proof.
  split; [vm_compute; reflexivity|]. cbv zeta. split; [vm_compute; reflexivity|].
  eexists. split; [vm_compute; reflexivity|]. split; reflexivity.
Qed.

(** ** Witnesses *)

Lemma voter_store_ok : staking_ok voter_store.
Proof.
  split; unfold voter_store; simpl.
  - intros x o v. rewrite !lookup_insert_Some. intros H.
    repeat destruct H as [[[= <- <-] <-]|[_ H]]; simpl; try (unfold_ints; lia). by rewrite lookup_empty in H.
  - intros x o u. by rewrite lookup_empty.
  - intros x d o r. by rewrite lookup_empty.
  - intros x. unfold load_reward_pool. simpl. rewrite lookup_empty. unfold_ints. simpl. lia.
Qed.

Lemma guard_reorg_correct_witness :
  exists abandoned, guard_reorg_vs_finality finalized_2 2 5 = Err (FinalityReorg 3 abandoned) /\ abandoned <= 3.
Proof.
  destruct (guard_reorg_correct finalized_2 2 5 3 [0; 1; 2] [0; 1; 3; 4; 5]) as [_ [H|H]];
    [vm_compute; reflexivity|discriminate|vm_compute; reflexivity..|vm_compute in H; discriminate H|exact H].
Defined.

Lemma admit_attestation_sound_witness :
  exists cert, demo_admit demo_chain (vote demo_chain 2 DRC 1) =
      ((demo_admit demo_chain (vote demo_chain 2 DRC 1)).1, Ok cert) /\
    attestation_authentic (fun _ => true) voter_store (vote demo_chain 2 DRC 1).
Proof.
  eexists. assert (forall (p : ChainState * result AdmitError FinalityCertificate) c,
    p.2 = Ok c -> p = (p.1, Ok c)) as Hp by (intros [] ? <-; reflexivity).
  assert (demo_admit demo_chain (vote demo_chain 2 DRC 1) = _) as E
    by (apply Hp; vm_compute; reflexivity).
  split; [exact E|].
  exact (proj1 (admit_attestation_sound (fun _ => true) demo_id Z.add demo_root _ _ _ _ E)).
Defined.

Definition voted_chain : ChainState :=
  set_store demo_chain
    (write_batch voter_store [PutLastAtt DRC 1 0 (vote demo_chain 1 DRC 1)]).
Lemma equivocation_punished_witness :
  exists cs', demo_admit voted_chain (vote voted_chain 2 DRC 1) =
      (cs', Err (InvalidAttestation (Reason "equivocation evidence applied"))) /\
    stake_at (cs_store cs') DRC 1 = 95.
Proof.
  destruct (equivocation_punished (fun _ => true) demo_id Z.add demo_root voted_chain
    (vote voted_chain 2 DRC 1) (vote demo_chain 1 DRC 1)) as (cs' & E & _ & Hs & _).
  - destruct voter_store_ok as [H1 H2 H3 H4]. split; [exact H1|exact H2|exact H3|exact H4].
  - vm_compute. discriminate.
  - intros x o e a.
    change (st_last_att _) with ({[(DRC, 1, 0) := vote demo_chain 1 DRC 1]} :
      gmap (NativeAssetId * Address * Z) CheckpointAttestation).
    rewrite lookup_singleton_Some. intros [[= <- <- <-] <-]. vm_compute. auto.
  - split; [discriminate|]. split; [reflexivity|]. eexists. split; [vm_compute; reflexivity|]. split; reflexivity.
  - vm_compute. reflexivity.
  - vm_compute. discriminate.
  - exists cs'. split; [exact E|]. etransitivity; [exact Hs|]. vm_compute. reflexivity.
Defined.
