(* ===== verification/Reorg.v ===== *)
(** * Virtual reorgs ([node-bin/src/admit/mod.rs])

    The node keeps the ledger of one virtual tip.  Moving to another tip undoes
    the abandoned blues with their journals and applies the new ones, with a
    durable marker for crash recovery.

    The ledger itself is behind an interface: executing a block on it yields a
    journal, and undoing the journal gives the ledger back.  The operations are
    written against the interface; the TLT lanes implement it (the file TltLedger).  Transaction
    indexes, which do not affect the ledger, are left out. *)

From stdpp Require Import base gmap list fin_maps strings.
From Stdlib Require Import ZArith Lia.
From S2P Require Import Prelude Ordering Sums Types Dag Ghostdag Daa Finality Store Utxo FinalityAdmit.
Local Open Scope Z_scope.

(** ** The ledger interface *)

Class Ledger (L Blk J : Type) := {
  (** [apply_block_batched_virtual_at_blue_score], with its batch written. *)
  exec : L -> Blk -> Z -> Z -> result StateError (L * J);
  (** [revert_journal_batched], with its batch written. *)
  undo : L -> J -> L;
  journal_subsidy : J -> Z;
  (** The ledgers that can arise. *)
  ledger_ok : L -> Prop;
}.
Class LedgerLaws (L Blk J : Type) `{Ledger L Blk J} : Prop := {
  exec_keeps l b emission score l' j :
    ledger_ok l -> 0 <= emission -> exec l b emission score = Ok (l', j) -> ledger_ok l';
  undo_exec l b emission score l' j :
    ledger_ok l -> 0 <= emission -> exec l b emission score = Ok (l', j) -> undo l' j = l;
  subsidy_bounds l b emission score l' j :
    ledger_ok l -> 0 <= emission -> exec l b emission score = Ok (l', j) -> 0 <= journal_subsidy j <= emission;
}.

Section reorg.
Context {L Blk J : Type} `{!Ledger L Blk J}.

(** The durable records a block application touches. *)
Record Core := {
  ledger : L;
  journals : gmap Hash J;
  issued : Z;          (* meta/issued_supply, which the node reads *)
  issued_asset : Z;    (* meta/issued_supply/TLT *)
  max_supply : Z;
  bodies : gmap Hash Blk;
}.
Record NodeStore := {
  core : Core;
  virtual_tip : option Hash;
  pending_virtual : option Hash;
}.

Variable d : Dag.
Variable g : Ghostdag.
Variable genesis : Hash.
Variable emission : EmissionSchedule.

Definition clamp_emission (c : Core) (scheduled : Z) : Z :=
  Z.min scheduled (saturating_sub (max_supply c) (issued c)).

Definition apply_block_to_virtual (c : Core) (hash : Hash) : result AdmitError Core :=
  if hash =? genesis then Ok c else
  if bool_decide (is_Some (journals c !! hash)) then Ok c else
  let? block := ok_or (AdmitStorage "missing block") (bodies c !! hash) in
  let? score := ok_or (AdmitUncolored hash) (get_blue_score g hash) in
  let reward := clamp_emission c (reward_at_blue_score emission score) in
  match exec (ledger c) block reward score with
  | Err e => Err (AdmitUtxo e)
  | Ok (l, j) =>
      ensure (journal_subsidy j <=? reward) (AdmitSubsidy (journal_subsidy j) reward) ;?
      let next := saturating_add u64_max (issued c) (journal_subsidy j) in
      ensure (next <=? max_supply c) AdmitSupplyCap ;?
      Ok {| ledger := l; journals := <[hash := j]> (journals c); issued := next;
            issued_asset := next; max_supply := max_supply c; bodies := bodies c |}
  end.

(** The journal an unapply of [hash] replays, if the block is applied. *)
Definition plan_unapply_block (c : Core) (hash : Hash) : option (Hash * J) :=
  if hash =? genesis then None else (fun j => (hash, j)) <$> journals c !! hash.

(** Unapplies planned from one state and committed in one batch. *)
Definition commit_unapply (c : Core) (plan : list (Hash * J)) : Core :=
  match plan with
  | [] => c
  | _ => {| ledger := foldl (fun l e => undo l e.2) (ledger c) plan;
            journals := foldl (fun m e => delete e.1 m) (journals c) plan;
            issued := foldl (fun i e => saturating_sub i (journal_subsidy e.2)) (issued c) plan;
            issued_asset := issued_asset c; max_supply := max_supply c; bodies := bodies c |}
  end.
Definition unapply_blocks (c : Core) (suffix : list Hash) : Core :=
  commit_unapply c (omap (plan_unapply_block c) (reverse suffix)).

(** [try_restore_after_failed_reorg]: one commit per undone block, then the old
    suffix again; stops at the first failure. *)
Definition undo_each (c : Core) (hs : list Hash) : Core :=
  foldl (fun c h => commit_unapply c (omap (plan_unapply_block c) [h])) c hs.
Fixpoint apply_each (c : Core) (hs : list Hash) : Core * option AdmitError :=
  match hs with
  | [] => (c, None)
  | h :: hs' =>
      match apply_block_to_virtual c h with
      | Ok c' => apply_each c' hs'
      | Err e => (c, Some e)
      end
  end.
Definition try_restore_after_failed_reorg (c : Core) (old_suffix partial_new : list Hash)
  : Core * bool :=
  let '(c', failed) := apply_each (undo_each c (reverse partial_new)) old_suffix in
  (c', match failed with None => true | Some _ => false end).

(** The loop over the target suffix: the state, and on failure the error with
    the blocks applied before it. *)
Fixpoint apply_target (c : Core) (applied rest : list Hash)
  : Core * option (AdmitError * list Hash) :=
  match rest with
  | [] => (c, None)
  | h :: rest' =>
      match apply_block_to_virtual c h with
      | Ok c' => apply_target c' (applied ++ [h]) rest'
      | Err e => (c, Some (e, applied))
      end
  end.

Definition reorg_utxo_to_virtual (ns : NodeStore) (old new : Hash) : NodeStore * result AdmitError unit :=
  if old =? new then
    ({| core := core ns; virtual_tip := Some new; pending_virtual := None |}, Ok tt)
  else
    let marked := {| core := core ns; virtual_tip := virtual_tip ns; pending_virtual := Some new |} in
    match blues_in_order d g old, blues_in_order d g new with
    | Err e, _ => (marked, Err e)
    | Ok _, Err e => (marked, Err e)
    | Ok applied, Ok target =>
        let prefix := common_prefix_len applied target in
        let c := unapply_blocks (core ns) (drop prefix applied) in
        match apply_target c [] (drop prefix target) with
        | (c', None) => ({| core := c'; virtual_tip := Some new; pending_virtual := None |}, Ok tt)
        | (c', Some (e, partial_new)) =>
            match try_restore_after_failed_reorg c' (drop prefix applied) partial_new with
            | (c'', true) =>
                ({| core := c''; virtual_tip := Some old; pending_virtual := None |}, Err e)
            | (c'', false) =>
                ({| core := c''; virtual_tip := virtual_tip ns; pending_virtual := Some new |}, Err e)
            end
        end
    end.

Definition recover_pending_virtual (ns : NodeStore) : NodeStore * result AdmitError unit :=
  match pending_virtual ns with
  | None => (ns, Ok tt)
  | Some pending => reorg_utxo_to_virtual ns (default genesis (virtual_tip ns)) pending
  end.

(** The store on disk when the process stops after the marker, the unapplies and
    [n] blocks of the target suffix. *)
Definition crash_after (ns : NodeStore) (old new : Hash) (n : nat) : result AdmitError NodeStore :=
  let? applied := blues_in_order d g old in
  let? target := blues_in_order d g new in
  let prefix := common_prefix_len applied target in
  let c := unapply_blocks (core ns) (drop prefix applied) in
  match apply_target c [] (take n (drop prefix target)) with
  | (c', None) => Ok {| core := c'; virtual_tip := virtual_tip ns; pending_virtual := Some new |}
  | (_, Some (e, _)) => Err e
  end.
End reorg.
