(* ===== verification/ReorgProps.v ===== *)
(** * Virtual reorgs: correctness, rollback and crash recovery

    Stated against the ledger interface.  A store is synced to a tip when its
    ledger, journals and supply are what applying the tip's blues in order to
    the genesis store gives.  Reorgs keep stores synced, a failed reorg rolls
    back, and recovery finishes an interrupted one unless the two orders share
    blocks beyond their common prefix (finding). *)

From stdpp Require Import base gmap list fin_maps strings.
From Stdlib Require Import ZArith Lia.
From S2P Require Import Prelude Ordering Sums Types Dag Ghostdag GhostdagProps Daa Finality Store Utxo UtxoProps FinalityAdmit FinalityProps Reorg.
Local Open Scope Z_scope.

Section reorg_spec.
Context {L Blk J : Type} `{!Ledger L Blk J} `{!LedgerLaws L Blk J}.
Variable d : Dag.
Variable g : Ghostdag.
Variable genesis : Hash.
Variable emission : EmissionSchedule.
Hypothesis emission_nonneg : 0 <= initial_reward emission.
Abbreviation apply := (apply_block_to_virtual (L := L) (Blk := Blk) (J := J) g genesis emission).
Abbreviation Core := (@Core L Blk J).

(** Equal up to the per-asset supply mirror. *)
#[export] Instance core_equiv : Equiv Core := fun c c' =>
  ledger c = ledger c' /\ journals c = journals c' /\ issued c = issued c' /\
  max_supply c = max_supply c' /\ bodies c = bodies c'.
#[export] Instance core_equivalence : Equivalence (≡@{Core}).
Proof.
  split; [by intros c|intros c c' (? & ? & ? & ? & ?); repeat split; congruence|].
  intros c1 c2 c3 (? & ? & ? & ? & ?) (? & ? & ? & ? & ?). repeat split; congruence.
Qed.

Definition core_ok (c : Core) : Prop := max_supply c <= u64_max /\ 0 <= issued c <= u64_max /\ ledger_ok (ledger c).

(** What a successful, non-trivial application does. *)
Lemma apply_Ok c h c' :
  core_ok c -> apply c h = Ok c' ->
  core_ok c' /\ max_supply c' = max_supply c /\ bodies c' = bodies c /\
  ((c' = c /\ (h = genesis \/ is_Some (journals c !! h))) \/
   (exists j, h <> genesis /\ journals c !! h = None /\ journals c' = <[h := j]> (journals c) /\
      undo (ledger c') j = ledger c /\ issued c' = issued c + journal_subsidy j /\
      0 <= journal_subsidy j)).
Proof.
  intros (Hmax & Hiss & Hl) H. unfold apply_block_to_virtual in H.
  destruct (Z.eqb_spec h genesis) as [->|Hg]; [injection H as <-; unfold core_ok; tauto|].
  destruct (bool_decide (is_Some (journals c !! h))) eqn:Hj.
  { injection H as <-. apply bool_decide_eq_true in Hj. unfold core_ok. tauto. }
  apply bool_decide_eq_false, eq_None_not_Some in Hj.
  apply rbind_Ok in H as (blk & _ & H). apply rbind_Ok in H as (sc & _ & H). cbv zeta in H.
  set (rw := clamp_emission c _) in H.
  assert (0 <= rw /\ rw <= saturating_sub (max_supply c) (issued c)) as [Hrw Hrw'].
  { unfold rw, clamp_emission. split; [|apply Z.le_min_r]. apply Z.min_glb; [|unfold saturating_sub; lia].
    unfold reward_at_blue_score. destruct (64 <=? _); [done|]. by apply Z.shiftr_nonneg. }
  destruct (exec (ledger c) blk rw sc) as [[l j]|] eqn:He; [|done].
  apply rbind_Ok in H as (_ & Hsub%ensure_Ok%Z.leb_le & H).
  apply rbind_Ok in H as (_ & Hcap%ensure_Ok%Z.leb_le & H). apply Ok_inj in H. subst c'.
  destruct (subsidy_bounds _ _ _ _ _ _ Hl Hrw He) as [Hnn _]. pose proof (exec_keeps _ _ _ _ _ _ Hl Hrw He) as Hl2.
  assert (issued c + journal_subsidy j <= u64_max) as Hsum.
  { unfold saturating_add in Hcap. unfold saturating_sub in Hrw'. lia. }
  unfold core_ok. cbn [max_supply bodies journals ledger issued]. rewrite saturating_add_exact by lia.
  split; [split_and!; [lia..|done]|]. split; [done|]. split; [done|]. right. exists j. repeat split; try done.
  exact (undo_exec _ _ _ _ _ _ Hl Hrw He).
Qed.

(** Application depends on the store only up to equivalence. *)
Lemma apply_proper c1 c2 h :
  c1 ≡ c2 ->
  match apply c1 h, apply c2 h with
  | Ok c1', Ok c2' => c1' ≡ c2'
  | Err e1, Err e2 => e1 = e2
  | _, _ => False
  end.
Proof.
  destruct c1 as [l1 j1 i1 a1 m1 b1], c2 as [l2 j2 i2 a2 m2 b2].
  intros (E1 & E2 & E3 & E4 & E5). cbn [ledger journals issued max_supply bodies] in *. subst.
  unfold apply_block_to_virtual, clamp_emission. cbn [ledger journals issued max_supply bodies].
  destruct (h =? genesis); [by repeat split|]. destruct (bool_decide (is_Some (j2 !! h))); [by repeat split|].
  destruct (b2 !! h); cbn [ok_or rbind]; [|done]. destruct (get_blue_score g h); cbn [ok_or rbind]; [|done].
  destruct (exec _ _ _ _) as [[l j]|]; [|done].
  destruct (_ <=? _); cbn [ensure rbind]; [|done]. destruct (_ <=? _); cbn [ensure rbind]; [|done].
  by repeat split.
Qed.

(** ** Undoing *)

Abbreviation plan := (plan_unapply_block (L := L) (Blk := Blk) (J := J) genesis).
Abbreviation undo_hs := (undo_each (L := L) (Blk := Blk) (J := J) genesis).

Lemma commit_proper c1 c2 (p : list (Hash * J)) : c1 ≡ c2 -> commit_unapply c1 p ≡ commit_unapply c2 p.
Proof.
  destruct c1 as [l1 j1 i1 a1 m1 b1], c2 as [l2 j2 i2 a2 m2 b2].
  intros (E1 & E2 & E3 & E4 & E5). cbn [ledger journals issued max_supply bodies] in *. subst.
  by destruct p.
Qed.
Lemma plan_proper c1 c2 h : c1 ≡ c2 -> plan c1 h = plan c2 h.
Proof. intros (_ & E & _). unfold plan_unapply_block. by rewrite E. Qed.
Lemma undo_one_proper c1 c2 h : c1 ≡ c2 -> undo_hs c1 [h] ≡ undo_hs c2 [h].
Proof. intros E. unfold undo_each. cbn [foldl omap list_omap]. rewrite (plan_proper _ _ h E). by apply commit_proper. Qed.

(** One commit per block is one commit for all, for distinct blocks. *)
Lemma undo_each_commit c hs : NoDup hs -> undo_hs c hs = commit_unapply c (omap (plan c) hs).
Proof.
  revert c. induction hs as [|h hs IH]; intros c Hn; [done|].
  apply NoDup_cons in Hn as [Hnin Hn]. unfold undo_each. cbn [foldl]. fold (undo_hs (commit_unapply c (omap (plan c) [h])) hs).
  rewrite IH by done. cbn [omap list_omap]. destruct (plan c h) as [[h' j]|] eqn:Hp; [|done].
  assert (h' = h) as -> by (unfold plan_unapply_block in Hp; destruct (_ =? _); [done|];
    destruct (journals c !! h); simpl in Hp; congruence).
  assert (omap (plan (commit_unapply c [(h, j)])) hs = omap (plan c) hs) as ->.
  { apply list_omap_ext. apply Forall_Forall2_diag, Forall_forall. intros x Hx. unfold plan_unapply_block. cbn [commit_unapply journals foldl fst].
    rewrite lookup_delete_ne by (intros ->; done). done. }
  by destruct (omap (plan c) hs).
Qed.

Lemma undo_apply c h c' :
  core_ok c -> journals c !! h = None -> apply c h = Ok c' -> undo_hs c' [h] ≡ c.
Proof.
  intros Hok Hj H. destruct (apply_Ok _ _ _ Hok H) as (_ & Hm & Hb & [[-> [->|[? ?]]]|(j & Hg & _ & Ej & Eu & Ei & Hs)]).
  - unfold undo_each, plan_unapply_block. cbn [foldl omap list_omap]. by rewrite Z.eqb_refl.
  - congruence.
  - unfold undo_each, plan_unapply_block. cbn [foldl omap list_omap].
    rewrite (proj2 (Z.eqb_neq _ _) Hg), Ej, lookup_insert_eq. cbn [fmap option_fmap option_map].
    unfold commit_unapply. cbn [foldl fst snd]. destruct Hok as (_ & Hi & _).
    repeat split; cbn [ledger journals issued max_supply bodies]; try done.
    + rewrite Ej. by rewrite delete_insert_id.
    + rewrite Ei. unfold saturating_sub. lia.
Qed.

(** ** Runs *)

Lemma run_dom c hs c' :
  core_ok c -> rfold apply c hs = Ok c' ->
  core_ok c' /\ forall h, is_Some (journals c' !! h) <-> is_Some (journals c !! h) \/ (h ∈ hs /\ h <> genesis).
Proof.
  revert c. induction hs as [|x hs IH]; intros c Hok H; cbn [rfold] in H.
  { injection H as <-. split; [done|]. intros h. split; [by left|by intros [?|[?%elem_of_nil _]]]. }
  apply rbind_Ok in H as (c1 & H1 & H).
  destruct (apply_Ok _ _ _ Hok H1) as (Hok1 & _ & _ & Hc). destruct (IH _ Hok1 H) as [Hok' Hd].
  split; [done|]. intros h. rewrite Hd, elem_of_cons.
  destruct Hc as [[-> Hx]|(j & Hg & _ & -> & _)]; [naive_solver|].
  destruct (decide (h = x)) as [->|Hne]; [rewrite lookup_insert_eq; naive_solver|].
  rewrite lookup_insert_ne by done. naive_solver.
Qed.

Lemma undo_run c hs c' :
  core_ok c -> NoDup hs -> (forall h, h ∈ hs -> journals c !! h = None) -> rfold apply c hs = Ok c' ->
  undo_hs c' (reverse hs) ≡ c.
Proof.
  revert c. induction hs as [|x hs IH]; intros c Hok Hn Hj H; cbn [rfold] in H; [by injection H as <-|].
  apply rbind_Ok in H as (c1 & H1 & H). apply NoDup_cons in Hn as [Hnin Hn].
  destruct (apply_Ok _ _ _ Hok H1) as (Hok1 & _ & _ & Hc).
  rewrite reverse_cons. unfold undo_each. rewrite foldl_app. fold (undo_hs c' (reverse hs)).
  change (undo_hs (undo_hs c' (reverse hs)) [x] ≡ c).
  transitivity (undo_hs c1 [x]); [|apply undo_apply; [done|apply Hj; left|done]].
  apply undo_one_proper, IH; try done. intros h Hh.
  destruct Hc as [[-> _]|(j & _ & _ & -> & _)]; [apply Hj; by right|].
  rewrite lookup_insert_ne by (intros ->; done). apply Hj. by right.
Qed.

Lemma run_proper c1 c2 hs c1' :
  c1 ≡ c2 -> rfold apply c1 hs = Ok c1' -> exists c2', rfold apply c2 hs = Ok c2' /\ c1' ≡ c2'.
Proof.
  revert c1 c2. induction hs as [|h hs IH]; intros c1 c2 E H; cbn [rfold] in *.
  { injection H as <-. by exists c2. }
  apply rbind_Ok in H as (c & H1 & H). pose proof (apply_proper _ _ h E) as Hp. rewrite H1 in Hp.
  destruct (apply c2 h) as [c2'|]; [|done]. destruct (IH _ _ Hp H) as (c3 & ? & ?). by exists c3.
Qed.

Lemma apply_target_spec c done rest :
  match apply_target g genesis emission c done rest with
  | (c', None) => rfold apply c rest = Ok c'
  | (c', Some (e, part)) => exists k1 h k2, rest = k1 ++ h :: k2 /\ part = done ++ k1 /\
      rfold apply c k1 = Ok c' /\ apply c' h = Err e
  end.
Proof.
  revert c done. induction rest as [|h rest IH]; intros c done; cbn [apply_target rfold]; [reflexivity|].
  destruct (apply c h) as [c1|e] eqn:H1; cbn [rbind].
  - specialize (IH c1 (done ++ [h])). destruct (apply_target _ _ _ c1 _ rest) as [c' [[e part]|]]; [|exact IH].
    destruct IH as (k1 & x & k2 & -> & -> & Hr & He). exists (h :: k1), x, k2.
    rewrite <- app_assoc. cbn [rfold app]. rewrite H1. auto.
  - exists [], h, rest. by rewrite app_nil_r.
Qed.
Lemma apply_each_Ok c hs c' : rfold apply c hs = Ok c' -> apply_each g genesis emission c hs = (c', None).
Proof.
  revert c. induction hs as [|h hs IH]; intros c H; cbn [rfold apply_each] in *; [by injection H as <-|].
  apply rbind_Ok in H as (c1 & -> & H). by apply IH.
Qed.

(** ** Reorgs *)

Lemma common_prefix_split (a b : list Hash) :
  let n := common_prefix_len a b in
  exists p, a = p ++ drop n a /\ b = p ++ drop n b /\ p = take n a.
Proof.
  cbv zeta. exists (take (common_prefix_len a b) a). rewrite take_drop. split; [done|]. split; [|done].
  revert b. induction a as [|x a IH]; intros [|y b]; simpl; try done.
  destruct (Z.eqb_spec x y) as [->|]; [|done]. simpl. by rewrite <- IH.
Qed.

Variable cfg : GhostdagConfig.
Hypothesis reachable : gd_reachable cfg (d, g).

Lemma blues_nodup tip hs : blues_in_order d g tip = Ok hs -> NoDup hs.
Proof.
  unfold blues_in_order. destruct (blue_order d g tip) as [l|] eqn:E; [|done]. intros [= <-].
  pose proof E as E'. unfold blue_order in E'. apply rbind_Ok in E' as (o & E' & _).
  unfold order_past_view in E'. apply rbind_Ok in E' as (s & _ & E').
  apply rbind_Ok in E' as (c & Hc%ok_or_Ok & _). by destruct (blue_order_spec cfg d g tip c l reachable Hc E) as (_ & _ & ?).
Qed.

Variable base : Core.
Hypothesis base_ok : core_ok base.
Hypothesis base_fresh : journals base = ∅.

(** The store is what applying the blues of [tip] in order to the genesis store
    gives. *)
Definition synced (c : Core) (tip : Hash) : Prop :=
  exists hs c0, blues_in_order d g tip = Ok hs /\ rfold apply base hs = Ok c0 /\ c ≡ c0.

(** After the unapplies the store is at the common prefix. *)
Lemma unapply_to_prefix c old new applied target :
  synced c old -> blues_in_order d g old = Ok applied -> blues_in_order d g new = Ok target ->
  let n := common_prefix_len applied target in
  exists p cp c0, applied = p ++ drop n applied /\ target = p ++ drop n target /\
    rfold apply base p = Ok cp /\ core_ok cp /\
    unapply_blocks genesis c (drop n applied) ≡ cp /\
    rfold apply cp (drop n applied) = Ok c0 /\ c ≡ c0 /\
    (forall h, h ∈ drop n applied -> journals cp !! h = None) /\
    (forall h, h ∈ drop n target -> journals cp !! h = None) /\
    NoDup (drop n applied) /\ NoDup (drop n target).
Proof.
  intros (hs & c0 & Hb & Hr & Ec) Ha Ht n. rewrite Ha in Hb. injection Hb as <-.
  destruct (common_prefix_split applied target) as (p & Ea & Et & _). fold n in Ea, Et.
  pose proof (blues_nodup _ _ Ha) as Hna. pose proof (blues_nodup _ _ Ht) as Hnt.
  set (os := drop n applied) in *. set (ts := drop n target) in *. clearbody os ts.
  rewrite Ea in Hr, Hna. rewrite Et in Hnt. rewrite rfold_app in Hr. apply rbind_Ok in Hr as (cp & Hp & Hr).
  apply NoDup_app in Hna as (_ & Hdo & Hno). apply NoDup_app in Hnt as (_ & Hdt & Hnt).
  destruct (run_dom _ _ _ base_ok Hp) as [Hokp Hd].
  assert (forall h, h ∉ p -> journals cp !! h = None) as Hfresh.
  { intros h Hh. apply eq_None_not_Some. rewrite Hd, base_fresh, lookup_empty. intros [[? ?]|[? _]]; done. }
  assert (forall h, h ∈ os -> journals cp !! h = None) as Hjo by (intros h Hh; apply Hfresh; intros Hp'; by eapply Hdo).
  assert (forall h, h ∈ ts -> journals cp !! h = None) as Hjt by (intros h Hh; apply Hfresh; intros Hp'; by eapply Hdt).
  exists p, cp, c0. repeat (split; [done|]). split; [|by auto 10].
  unfold unapply_blocks. rewrite <- undo_each_commit by (by apply NoDup_rev).
  transitivity (undo_hs c0 (reverse os)); [|by apply undo_run].
  rewrite !undo_each_commit by (by apply NoDup_rev).
  rewrite (list_omap_ext (plan c) (plan c0) (reverse os) (reverse os)); [by apply commit_proper|].
  apply Forall_Forall2_diag, Forall_forall. intros x _. by apply plan_proper.
Qed.

Lemma reorg_outcome ns old new target ns' r :
  synced (core ns) old -> old <> new -> blues_in_order d g new = Ok target ->
  reorg_utxo_to_virtual d g genesis emission ns old new = (ns', r) ->
  (r = Ok tt <-> exists c, rfold apply base target = Ok c) /\
  (r = Ok tt -> synced (core ns') new /\ virtual_tip ns' = Some new /\ pending_virtual ns' = None) /\
  (forall e, r = Err e -> core ns' ≡ core ns /\ virtual_tip ns' = Some old /\ pending_virtual ns' = None).
Proof.
  intros Hs Hne Ht H. destruct Hs as (applied & c00 & Ha & Hr0 & Ec0).
  assert (synced (core ns) old) as Hs by (by exists applied, c00).
  destruct (unapply_to_prefix _ _ _ _ _ Hs Ha Ht) as
    (p & cp & c0 & Ea & Et & Hp & Hokp & Hun & Hos & Ec & Hjo & Hjt & Hno & Hnt).
  unfold reorg_utxo_to_virtual in H. rewrite (proj2 (Z.eqb_neq _ _) Hne), Ha, Ht in H. cbv zeta in H.
  set (n := common_prefix_len applied target) in *. set (os := drop n applied) in *.
  set (ts := drop n target) in *. clearbody os ts n.
  set (c := unapply_blocks genesis (core ns) os) in *. clearbody c.
  pose proof (apply_target_spec c [] ts) as Hat.
  destruct (apply_target _ _ _ c [] ts) as [c' [[e part]|]].
  - destruct Hat as (k1 & h & k2 & Ets & -> & Hk1 & Herr). rewrite app_nil_l in H.
    destruct (run_proper _ _ _ _ Hun Hk1) as (ck & Hck & Eck).
    assert (c' ≡ ck) as Ecc by done.
    assert (NoDup k1 /\ forall x, x ∈ k1 -> journals cp !! x = None) as [Hnk Hjk].
    { rewrite Ets in Hnt, Hjt. apply NoDup_app in Hnt as [? _]. split; [done|]. intros x Hx. apply Hjt.
      apply elem_of_app. by left. }
    assert (undo_hs c' (reverse k1) ≡ cp) as Hback.
    { transitivity (undo_hs ck (reverse k1)); [|by apply undo_run].
      rewrite !undo_each_commit by (by apply NoDup_rev).
      rewrite (list_omap_ext (plan c') (plan ck) (reverse k1) (reverse k1)); [by apply commit_proper|].
      apply Forall_Forall2_diag, Forall_forall. intros x _. by apply plan_proper. }
    symmetry in Hback. destruct (run_proper _ _ _ _ Hback Hos) as (cr & Hcr & Ecr).
    unfold try_restore_after_failed_reorg in H. rewrite (apply_each_Ok _ _ _ Hcr) in H.
    injection H as <- <-. split; [|split; [done|]].
    + split; [done|]. intros (cx & Hx). exfalso. rewrite Et, rfold_app, Hp in Hx. cbn [rbind] in Hx.
      rewrite Ets, rfold_app, Hck in Hx. cbn [rbind rfold] in Hx.
      pose proof (apply_proper _ _ h Eck) as Hpr. rewrite Herr in Hpr. by destruct (apply ck h).
    + intros e' _. cbn [core virtual_tip pending_virtual]. split; [|done]. by rewrite <- Ecr, Ec.
  - destruct (run_proper _ _ _ _ Hun Hat) as (cf & Hcf & Ecf). injection H as <- <-.
    assert (rfold apply base target = Ok cf) as Hall by (rewrite Et, rfold_app, Hp; exact Hcf).
    split; [split; [by exists cf|done]|]. split; [|done]. intros _. cbn [core virtual_tip pending_virtual].
    split; [|done]. by exists target, cf.
Qed.

(** ** Crash recovery *)

Lemma core_ok_proper c1 c2 : c1 ≡ c2 -> core_ok c2 -> core_ok c1.
Proof. intros (E & _ & E1 & E2 & _). unfold core_ok. by rewrite E, E1, E2. Qed.

(** Blocks already applied are skipped. *)
Lemma run_skips c hs :
  (forall h, h ∈ hs -> h = genesis \/ is_Some (journals c !! h)) -> rfold apply c hs = Ok c.
Proof.
  induction hs as [|h hs IH]; intros H; cbn [rfold]; [done|].
  assert (apply c h = Ok c) as ->.
  { unfold apply_block_to_virtual. destruct (Z.eqb_spec h genesis) as [|Hg]; [done|].
    rewrite bool_decide_eq_true_2; [done|]. destruct (H h) as [?|?]; [by left|done|done]. }
  cbn [rbind]. apply IH. intros x Hx. apply H. by right.
Qed.

(** Unapplying blocks that are not applied does nothing. *)
Lemma unapply_nothing c hs :
  (forall h, h ∈ hs -> h = genesis \/ journals c !! h = None) -> unapply_blocks genesis c hs = c.
Proof.
  intros H. unfold unapply_blocks. assert (omap (plan c) (reverse hs) = []) as ->; [|done].
  apply elem_of_nil_inv. intros [h' j] Hin. apply list_elem_of_omap in Hin as (h & Hh & Hp).
  rewrite elem_of_reverse in Hh. unfold plan_unapply_block in Hp.
  destruct (Z.eqb_spec h genesis); [done|]. destruct (H h Hh) as [?|E]; [done|]. by rewrite E in Hp.
Qed.

(** Recovery ends where the reorg would have. *)
Lemma recovery_outcome ns old new applied target n ns' crashed :
  synced (core ns) old -> default genesis (virtual_tip ns) = old -> old <> new ->
  blues_in_order d g old = Ok applied -> blues_in_order d g new = Ok target ->
  let k := common_prefix_len applied target in
  (forall h, h ∈ drop k applied -> h ∉ take n (drop k target)) ->
  reorg_utxo_to_virtual d g genesis emission ns old new = (ns', Ok tt) ->
  crash_after d g genesis emission ns old new n = Ok crashed ->
  recover_pending_virtual d g genesis emission crashed = (ns', Ok tt).
Proof.
  intros Hs Htip Hne Ha Ht k Hdis Hr Hc.
  destruct (unapply_to_prefix _ _ _ _ _ Hs Ha Ht) as
    (p & cp & c0 & _ & _ & _ & Hokp & Hun & _ & _ & Hjo & _ & _ & _).
  fold k in Hun, Hjo. unfold crash_after in Hc. rewrite Ha, Ht in Hc. cbn [rbind] in Hc. cbv zeta in Hc. fold k in Hc.
  unfold reorg_utxo_to_virtual in Hr. rewrite (proj2 (Z.eqb_neq _ _) Hne), Ha, Ht in Hr. cbv zeta in Hr. fold k in Hr.
  set (c := unapply_blocks genesis (core ns) (drop k applied)) in *.
  set (ts := drop k target) in *. set (os := drop k applied) in *. clearbody c.
  pose proof (apply_target_spec c [] (take n ts)) as Hat1.
  destruct (apply_target _ _ _ c [] (take n ts)) as [c1 [[e ?]|]]; [done|].
  apply Ok_inj in Hc. subst crashed.
  pose proof (apply_target_spec c [] ts) as Hat2.
  destruct (apply_target _ _ _ c [] ts) as [c2 [[e part]|]].
  { destruct (try_restore_after_failed_reorg _ _ _ c2 _ part) as [? []]; apply pair_eq in Hr as [_ Hr]; done. }
  apply pair_eq in Hr as [<- _].
  destruct (run_dom c _ _ (core_ok_proper _ _ Hun Hokp) Hat1) as [_ Hd].
  unfold recover_pending_virtual, reorg_utxo_to_virtual. cbn [pending_virtual virtual_tip core].
  rewrite Htip, (proj2 (Z.eqb_neq _ _) Hne), Ha, Ht. cbv zeta. fold k. fold ts os.
  rewrite (unapply_nothing c1 os).
  2:{ intros h Hh. destruct (decide (h = genesis)) as [|Hg]; [by left|right]. apply eq_None_not_Some. rewrite Hd.
      destruct Hun as (_ & -> & _). rewrite (Hjo h Hh). intros [[? ?]|[Hin _]]; [done|]. by eapply Hdis. }
  rewrite <- (take_drop n ts) in Hat2. rewrite rfold_app, Hat1 in Hat2. cbn [rbind] in Hat2.
  assert (rfold apply c1 ts = Ok c2) as Hfin.
  { rewrite <- (take_drop n ts), rfold_app, run_skips; [exact Hat2|]. intros h Hh. rewrite Hd.
    destruct (decide (h = genesis)); naive_solver. }
  pose proof (apply_target_spec c1 [] ts) as Hat3.
  destruct (apply_target _ _ _ c1 [] ts) as [c3 [[e part]|]].
  - exfalso. destruct Hat3 as (k1 & h & k2 & -> & _ & H1 & H2). rewrite rfold_app, H1 in Hfin.
    cbn [rbind rfold] in Hfin. by rewrite H2 in Hfin.
  - rewrite Hfin in Hat3. apply Ok_inj in Hat3. by subst.
Qed.
End reorg_spec.
