(* ===== verification/Objects.v ===== *)
(** * Typed DRC ledger objects: what their lanes share

    Escrows, checks and payment channels are typed objects of the DRC ledger
    ([state-machine/src/drc_escrow.rs], [drc_check.rs],
    [drc_payment_channel.rs]).  Each module keeps, under key prefixes of its
    own, the live objects by id, an index of the live ids per owner, a settled
    marker, a receipt per settled id, and audit events; a [Book] is these maps.
    The batch of an operation is kept as two lists, the writes to the account
    and ticket records and the writes to the book: the keys are disjoint.

    The sequence check that opens every operation and the sequence update that
    closes it are the same code in every module. *)

From stdpp Require Import base gmap list fin_maps strings sorting relations.
From Stdlib Require Import ZArith Lia.
From S2P Require Import Prelude Ordering Sums Types Finality Store Supply Accounts.
Local Open Scope Z_scope.

(** ** Sequences *)

(** The ticket-capable versions resolve a selector; the others compare nonces. *)
Definition begin_op_sequence (s : StateStore) (owner : Address) (acct : AccountState)
  (version ticket_version tx_nonce : Z) (sel : option DrcAccountSequenceSelector) (bad_nonce : string)
  : result StateError (option (DrcSequenceConsumption * list Z)) :=
  if ticket_version <=? version then
    let? sel := lift_sequence (resolve_drc_account_sequence version ticket_version tx_nonce sel) in
    let? ctx := begin_drc_account_sequence s owner sel in
    Ok (Some ctx)
  else
    ensure (nonce acct =? tx_nonce) (InvalidTx bad_nonce) ;?
    Ok None.
Definition finish_op_sequence (b : WriteBatch) (owner : Address) (acct : AccountState)
  (ctx : option (DrcSequenceConsumption * list Z)) (overflow : string)
  : result StateError (WriteBatch * AccountState) :=
  match ctx with
  | Some (consumption, tickets_before) =>
      finish_drc_account_sequence b owner acct consumption tickets_before
  | None =>
      let? n := ok_or (InvalidTx overflow) (checked_add u64_max (nonce acct) 1) in
      Ok (b, {| balance := balance acct; nonce := n |})
  end.

Lemma op_sequence_run s owner version tv tn sel bad ctx ovf b bal b' acct' :
  begin_op_sequence s owner (acct_of s DRC owner) version tv tn sel bad = Ok ctx ->
  finish_op_sequence b owner {| balance := bal; nonce := nonce (acct_of s DRC owner) |} ctx ovf = Ok (b', acct') ->
  exists sel' ops n', b' = b ++ ops /\ acct' = {| balance := bal; nonce := n' |} /\
    seq_effect s owner (nonce (acct_of s DRC owner)) sel' ops n'.
Proof.
  unfold begin_op_sequence, finish_op_sequence. intros Hb Hf. destruct (tv <=? version).
  - apply rbind_Ok in Hb as (sel' & _ & Hb). apply rbind_Ok in Hb as ([c tb] & Hb & [= <-]).
    eapply sequence_run in Hf as (ops & n' & -> & -> & Heff); [|exact Hb|done]. by exists sel', ops, n'.
  - apply rbind_Ok in Hb as (_ & Hn%ensure_Ok & [= <-]).
    apply rbind_Ok in Hf as (n & [-> Hle]%ok_or_Ok%checked_add_Some & [= <- <-]). cbn [nonce balance] in *.
    exists {| kind := Nonce; value := nonce (acct_of s DRC owner) |}, [], (nonce (acct_of s DRC owner) + 1).
    rewrite app_nil_r. repeat split. by constructor.
Qed.

(** An operation whose sequence is ready can begin and finish it. *)
Definition op_seq_ready (s : StateStore) (owner : Address) (version tv tn : Z)
  (sel : option DrcAccountSequenceSelector) : Prop :=
  if tv <=? version then exists sel', sel = Some sel' /\ seq_ready s DRC owner sel'
  else tn = nonce (acct_of s DRC owner) /\ tn + 1 <= u64_max.
Lemma op_sequence_total s owner version tv tn sel bad ovf b bal :
  accounts_ok s -> op_seq_ready s owner version tv tn sel ->
  exists ctx r, begin_op_sequence s owner (acct_of s DRC owner) version tv tn sel bad = Ok ctx /\
    finish_op_sequence b owner {| balance := bal; nonce := nonce (acct_of s DRC owner) |} ctx ovf = Ok r.
Proof.
  intros Hok Hr. unfold op_seq_ready, begin_op_sequence in *. destruct (tv <=? version) eqn:Hv.
  - destruct Hr as (sel' & -> & Hr). unfold resolve_drc_account_sequence. rewrite Hv. cbn [ok_or lift_sequence rbind].
    edestruct (sequence_total s owner sel' b {| balance := bal; nonce := nonce (acct_of s DRC owner) |} Hok Hr)
      as (c & tb & r & -> & Hf); [done|]. cbn [rbind]. by exists (Some (c, tb)), r.
  - destruct Hr as [-> Hle]. rewrite Z.eqb_refl. cbn [ensure rbind].
    exists None, (b, {| balance := bal; nonce := nonce (acct_of s DRC owner) + 1 |}). split; [done|].
    cbn [finish_op_sequence nonce balance]. unfold checked_add. by rewrite (proj2 (Z.leb_le _ _) Hle).
Qed.

Definition has_ticket_selector (sel : option DrcAccountSequenceSelector) : bool :=
  match sel with Some s => bool_decide (kind s = Ticket) | None => false end.
(** What a submitter needs. *)
Definition submitter_ready (s : StateStore) (a : Address) (fee version nonce_ : Z)
  (sel : option DrcAccountSequenceSelector) : Prop :=
  a <> 0 /\ fee <= balance (acct_of s DRC a) /\
  (version = 1 \/ version = 2) /\ ~ (version = 1 /\ has_ticket_selector sel = true) /\
  op_seq_ready s a version 2 nonce_ sel.
Lemma strictly_increasing_filter (P : Z -> Prop) `{forall x, Decision (P x)} l :
  strictly_increasing l = true -> strictly_increasing (filter P l) = true.
Proof.
  rewrite !strictly_increasing_sorted. induction 1 as [|x l Hs IH Hx]; [constructor|].
  rewrite filter_cons. destruct (decide (P x)); [|done]. constructor; [done|].
  rewrite Forall_forall in *. intros y [_ Hy]%list_elem_of_filter. by apply Hx.
Qed.

(** ** Account writes of an operation *)

Definition put_drc (e : Address * AccountState) : WriteOp := PutAccount DRC e.1 e.2.

Lemma put_drc_total b a v : put_account_into b DRC a v = Ok (b ++ [PutAccount DRC a v]).
Proof. by apply put_account_into_Ok. Qed.
Lemma acct_of_puts s ops l x a :
  Forall (fun op => is_account_op op = false) ops ->
  acct_of (write_batch s (ops ++ (put_drc <$> l))) x a =
    foldl (fun v e => if bool_decide ((x, a) = (DRC, e.1)) then e.2 else v) (acct_of s x a) l.
Proof.
  intros Hops. rewrite write_batch_app, <- (acct_of_frame s ops x a Hops).
  generalize (write_batch s ops). clear. induction l as [|e l IH]; intros s; [done|].
  cbn [fmap list_fmap foldl]. rewrite write_batch_cons, IH. by rewrite <- acct_of_put.
Qed.
Lemma liquid_put_one s ops a v y :
  Forall (fun op => is_account_op op = false) ops ->
  liquid y (write_batch s (ops ++ (put_drc <$> [(a, v)]))) =
    liquid y s + (if bool_decide (y = DRC) then balance v - balance (acct_of s DRC a) else 0).
Proof.
  intros Hops. rewrite write_batch_app. unfold put_drc. cbn [fmap list_fmap fst snd]. unfold write_batch at 1. cbn [foldl].
  rewrite liquid_put, acct_of_frame, liquid_frame by done.
  rewrite (bool_decide_ext (DRC = y) (y = DRC)) by (split; congruence). lia.
Qed.
Lemma liquid_put_two s ops a v c w y :
  Forall (fun op => is_account_op op = false) ops ->
  liquid y (write_batch s (ops ++ (put_drc <$> [(a, v); (c, w)]))) =
    liquid y s + (if bool_decide (y = DRC) then
      balance w - balance (acct_of s DRC c) +
        (if bool_decide (a = c) then 0 else balance v - balance (acct_of s DRC a)) else 0).
Proof.
  intros Hops. rewrite write_batch_app. unfold put_drc. cbn [fmap list_fmap fst snd]. unfold write_batch at 1. cbn [foldl].
  rewrite !liquid_put, acct_of_put, !acct_of_frame, liquid_frame by done.
  rewrite (bool_decide_ext (DRC = y) (y = DRC)) by (split; congruence).
  rewrite (bool_decide_ext ((DRC, c) = (DRC, a)) (a = c)) by (split; congruence).
  destruct (bool_decide (y = DRC)); [|lia]. destruct (bool_decide (a = c)) eqn:E; [|lia].
  apply bool_decide_eq_true_1 in E. subst. lia.
Qed.

Lemma puts_tickets s ops l :
  st_tickets (write_batch s (ops ++ (put_drc <$> l))) = st_tickets (write_batch s ops).
Proof.
  rewrite write_batch_app. apply tickets_frame. apply Forall_fmap, Forall_forall. by intros [].
Qed.

Lemma acct_le_liquid s x a : accounts_ok s -> balance (acct_of s x a) <= liquid x s.
Proof.
  intros Hok. assert (forall k v, st_accounts s !! k = Some v ->
    0 <= (if bool_decide (k.1 = x) then balance v else 0)) as Hpos.
  { intros [y c] v Hv. case_bool_decide; [|lia]. cbn in H. subst.
    destruct (ao_ints _ Hok x c) as [[H _] _]. unfold acct_of in H. by rewrite Hv in H. }
  unfold acct_of, liquid. destruct (st_accounts s !! (x, a)) as [v|] eqn:Ea; cbn [default].
  - etransitivity; [|by apply (msum_lookup_le _ _ _ _ Hpos Ea)]. cbn. by rewrite bool_decide_eq_true_2.
  - by apply msum_nonneg.
Qed.

(** The account invariant after an operation that consumes a sequence of
    [owner] and writes DRC accounts whose nonces do not go back. *)
Lemma puts_accounts_ok s owner sel ops n' l :
  accounts_ok s -> seq_effect s owner (nonce (acct_of s DRC owner)) sel ops n' ->
  Forall (fun e => in_u64 (balance e.2) /\ in_u64 (nonce e.2) /\ nonce (acct_of s DRC e.1) <= nonce e.2) l ->
  accounts_ok (write_batch s (ops ++ (put_drc <$> l))).
Proof.
  intros Hok Heff Hl. pose proof (seq_effect_frame _ _ _ _ _ _ Heff) as Hfr.
  assert (forall x a, in_u64 (balance (acct_of (write_batch s (ops ++ (put_drc <$> l))) x a)) /\
    in_u64 (nonce (acct_of (write_batch s (ops ++ (put_drc <$> l))) x a)) /\
    nonce (acct_of s x a) <= nonce (acct_of (write_batch s (ops ++ (put_drc <$> l))) x a)) as Hall.
  { intros x a. rewrite acct_of_puts by done.
    assert (forall v, in_u64 (balance v) /\ in_u64 (nonce v) /\ nonce (acct_of s x a) <= nonce v ->
      let w := foldl (fun v e => if bool_decide ((x, a) = (DRC, e.1)) then e.2 else v) v l in
      in_u64 (balance w) /\ in_u64 (nonce w) /\ nonce (acct_of s x a) <= nonce w) as Hfold.
    { clear Heff Hfr. induction Hl as [|e l He Hl IH]; intros v Hv; [done|]. cbn [foldl]. apply IH.
      destruct (bool_decide _) eqn:E; [|done]. apply bool_decide_eq_true_1 in E. by injection E as -> ->. }
    apply Hfold. destruct (ao_ints _ Hok x a) as [H1 H2]. split; [exact H1|]. split; [exact H2|lia]. }
  apply (accounts_ok_step s); [done|..].
  - intros x a. destruct (Hall x a) as (H1 & H2 & _). exact (conj H1 H2).
  - intros o r. rewrite puts_tickets. by eapply seq_effect_store.
  - intros o t. unfold tickets_of at 1. rewrite puts_tickets. fold (tickets_of (write_batch s ops) o).
    rewrite (seq_effect_tickets _ _ _ _ _ o Hok Heff). intros Hin. left.
    case_bool_decide; [subst|done]. destruct (kind sel); [done|].
    by apply elem_of_sort_by, list_elem_of_filter in Hin as [_ ?].
  - intros o. apply Hall.
Qed.

(** The account writes of an operation whose sequence is charged to [owner]. *)
Definition charges (s : StateStore) (owner : Address) (l : Z -> list (Address * AccountState)) (b : WriteBatch) : Prop :=
  exists sel tops n', seq_effect s owner (nonce (acct_of s DRC owner)) sel tops n' /\ b = tops ++ (put_drc <$> l n').
Lemma charges_ok s owner l b :
  accounts_ok s -> charges s owner l b ->
  (forall n', nonce (acct_of s DRC owner) <= n' -> in_u64 n' ->
     Forall (fun e => in_u64 (balance e.2) /\ in_u64 (nonce e.2) /\ nonce (acct_of s DRC e.1) <= nonce e.2) (l n')) ->
  accounts_ok (write_batch s b).
Proof.
  intros Hok (sel & tops & n' & Heff & ->) Hl. destruct (ao_ints _ Hok DRC owner) as [_ Hn].
  destruct (seq_effect_nonce _ _ _ _ _ _ Heff Hn) as [Hn1 Hn2]. eapply puts_accounts_ok; [done..|]. by apply Hl.
Qed.
Lemma charges_one s owner bal b y :
  charges s owner (fun n' => [(owner, {| balance := bal; nonce := n' |})]) b ->
  liquid y (write_batch s b) = liquid y s + (if bool_decide (y = DRC) then bal - balance (acct_of s DRC owner) else 0).
Proof.
  intros (sel & tops & n' & Heff & ->). by rewrite (liquid_put_one s tops) by (by eapply seq_effect_frame).
Qed.

(** ** Books *)

(** [DrcEscrowOwnerIndex], [DrcCheckOwnerIndex], [OwnerIndex]. *)
Record OwnerIndex := { oi_version : Z; oi_owner : Address; oi_live_ids : list Hash }.
Definition OWNER_INDEX_VERSION : Z := 1.

Section book.
Context {L R E : Type}.

Record Book := {
  live : gmap Hash L;
  owner_index : gmap Address OwnerIndex;
  settled : gmap Hash Hash;
  receipts : gmap Hash R;
  (* audit events, by key prefix and transaction id *)
  events : gmap (string * Hash) E;
}.
Definition empty_book : Book :=
  {| live := ∅; owner_index := ∅; settled := ∅; receipts := ∅; events := ∅ |}.

Inductive BookOp :=
| PutLive (id : Hash) (v : L)
| DeleteLive (id : Hash)
| PutIndex (owner : Address) (r : OwnerIndex)
| DeleteIndex (owner : Address)
| PutSettled (id tx : Hash)
| PutReceipt (id : Hash) (r : R)
| PutEvent (prefix : string) (id : Hash) (e : E).
Definition apply_book_op (bk : Book) (op : BookOp) : Book :=
  let '{| live := l; owner_index := o; settled := s; receipts := r; events := e |} := bk in
  match op with
  | PutLive id v => {| live := <[id := v]> l; owner_index := o; settled := s; receipts := r; events := e |}
  | DeleteLive id => {| live := delete id l; owner_index := o; settled := s; receipts := r; events := e |}
  | PutIndex a i => {| live := l; owner_index := <[a := i]> o; settled := s; receipts := r; events := e |}
  | DeleteIndex a => {| live := l; owner_index := delete a o; settled := s; receipts := r; events := e |}
  | PutSettled id tx => {| live := l; owner_index := o; settled := <[id := tx]> s; receipts := r; events := e |}
  | PutReceipt id x => {| live := l; owner_index := o; settled := s; receipts := <[id := x]> r; events := e |}
  | PutEvent p id x => {| live := l; owner_index := o; settled := s; receipts := r; events := <[(p, id) := x]> e |}
  end.
Definition write_book (bk : Book) (ops : list BookOp) : Book := foldl apply_book_op bk ops.

Definition load_owner_index (bk : Book) (owner : Address) (invalid : string) : result StateError (list Hash) :=
  match owner_index bk !! owner with
  | None => Ok []
  | Some r =>
      ensure ((oi_version r =? OWNER_INDEX_VERSION) && (oi_owner r =? owner)) (Storage invalid) ;?
      Ok (oi_live_ids r)
  end.
Definition put_owner_index (owner : Address) (live_ids : list Hash) (cap : nat) (exceeded : string)
  : result StateError (list BookOp) :=
  match live_ids with
  | [] => Ok [DeleteIndex owner]
  | _ =>
      ensure (Nat.leb (length live_ids) cap) (InvalidTx exceeded) ;?
      Ok [PutIndex owner {| oi_version := OWNER_INDEX_VERSION; oi_owner := owner; oi_live_ids := live_ids |}]
  end.
Definition ensure_unsettled (bk : Book) (id : Hash) (already : string) : result StateError unit :=
  ensure (negb (bool_decide (is_Some (settled bk !! id)))) (InvalidTx already).

(** ** The invariant of a book *)

Variable owner_of : L -> Address.
Variable cap : nat.

Definition index_ids (bk : Book) (owner : Address) : list Hash :=
  match owner_index bk !! owner with Some r => oi_live_ids r | None => [] end.

(** The index of an owner lists exactly its live objects, sorted and without
    repetition, within the cap; no settled id is live. *)
Record book_ok (bk : Book) : Prop := {
  bk_index o r : owner_index bk !! o = Some r ->
    oi_version r = OWNER_INDEX_VERSION /\ oi_owner r = o /\ oi_live_ids r <> [];
  bk_sorted o : strictly_increasing (index_ids bk o) = true /\ (length (index_ids bk o) <= cap)%nat;
  bk_exact o id : id ∈ index_ids bk o <-> exists v, live bk !! id = Some v /\ owner_of v = o;
  bk_unsettled id : is_Some (live bk !! id) -> settled bk !! id = None;
}.

Lemma empty_book_ok : book_ok empty_book.
Proof.
  split; unfold index_ids, empty_book; cbn [owner_index live settled].
  - intros o r H. by rewrite lookup_empty in H.
  - intros o. rewrite lookup_empty. split; [done|simpl; lia].
  - intros o id. rewrite lookup_empty. split; [by intros ?%elem_of_nil|].
    intros (v & H & _). by rewrite lookup_empty in H.
  - intros id [v H]. by rewrite lookup_empty in H.
Qed.

Lemma load_index_ok bk owner msg : book_ok bk -> load_owner_index bk owner msg = Ok (index_ids bk owner).
Proof.
  intros Hok. unfold load_owner_index, index_ids. destruct (owner_index bk !! owner) as [r|] eqn:Ei; [|done].
  destruct (bk_index _ Hok _ _ Ei) as (-> & -> & _). by rewrite !Z.eqb_refl.
Qed.

(** Writing an index: the ids read back, everything else as it was. *)
Definition index_written (bk bk' : Book) (owner : Address) (ids : list Hash) : Prop :=
  live bk' = live bk /\ settled bk' = settled bk /\ receipts bk' = receipts bk /\ events bk' = events bk /\
  (forall o, index_ids bk' o = if bool_decide (o = owner) then ids else index_ids bk o) /\
  (forall o r, owner_index bk' !! o = Some r ->
     if bool_decide (o = owner) then oi_version r = OWNER_INDEX_VERSION /\ oi_owner r = o /\ oi_live_ids r <> []
     else owner_index bk !! o = Some r) /\
  (ids = [] \/ (length ids <= cap)%nat).
Lemma put_index_written bk owner ids msg ops :
  put_owner_index owner ids cap msg = Ok ops -> index_written bk (write_book bk ops) owner ids.
Proof.
  intros H. unfold put_owner_index in H. destruct ids as [|x l].
  - injection H as <-. destruct bk as [lv oi st rc ev]. unfold index_written, index_ids. cbn.
    repeat (split; [done|]). split.
    { intros o. case_bool_decide as Eo; [subst; by rewrite lookup_delete_eq|]. by rewrite lookup_delete_ne by congruence. }
    split; [|by left]. intros o r. case_bool_decide as Eo; [subst; by rewrite lookup_delete_eq|].
    by rewrite lookup_delete_ne by congruence.
  - apply rbind_Ok in H as (_ & Hl%ensure_Ok & [= <-]). apply Nat.leb_le in Hl.
    destruct bk as [lv oi st rc ev]. unfold index_written, index_ids. cbn.
    repeat (split; [done|]). split.
    { intros o. case_bool_decide as Eo; [subst; by rewrite lookup_insert_eq|]. by rewrite lookup_insert_ne by congruence. }
    split; [|by right]. intros o r. case_bool_decide as Eo; [subst; rewrite lookup_insert_eq; by intros [= <-]|].
    by rewrite lookup_insert_ne by congruence.
Qed.

Lemma write_book_app bk b1 b2 : write_book bk (b1 ++ b2) = write_book (write_book bk b1) b2.
Proof. apply foldl_app. Qed.

(** A new object, indexed under its owner. *)
Lemma book_create_ok bk id v msg iops :
  book_ok bk -> live bk !! id = None -> settled bk !! id = None ->
  put_owner_index (owner_of v) (sort_by Z.compare (index_ids bk (owner_of v) ++ [id])) cap msg = Ok iops ->
  let bk' := write_book bk (iops ++ [PutLive id v]) in
  book_ok bk' /\ live bk' = <[id := v]> (live bk) /\ settled bk' = settled bk /\ receipts bk' = receipts bk /\
  events bk' = events bk.
Proof.
  intros Hok Hl Hs Hp. cbv zeta. rewrite write_book_app.
  destruct (put_index_written bk _ _ _ _ Hp) as (El & Es & Er & Ee & Hi & Ho & Hc).
  destruct (write_book bk iops) as [lv oi st rc ev]. unfold write_book. cbn in *. subst lv st rc ev.
  split; [|done].
  set (ids := sort_by Z.compare (index_ids bk (owner_of v) ++ [id])) in *.
  assert (id ∉ index_ids bk (owner_of v)) as Hnew by (intros (w & Hw & _)%(bk_exact _ Hok); congruence).
  assert (NoDup (index_ids bk (owner_of v))) as Hnd
    by (apply strictly_increasing_nodup, (bk_sorted _ Hok)).
  split; unfold index_ids; cbn [owner_index live settled]; fold (index_ids bk).
  - intros o r Hr. specialize (Ho o r Hr). case_bool_decide; [done|]. by apply (bk_index _ Hok).
  - intros o. specialize (Hi o). unfold index_ids in Hi at 1. cbn [owner_index] in Hi. rewrite Hi.
    case_bool_decide; [|apply (bk_sorted _ Hok)]. split.
    + apply sort_strictly_increasing. apply NoDup_app. split; [done|]. split; [|by apply NoDup_singleton].
      intros x Hx ->%list_elem_of_singleton. done.
    + destruct Hc as [Hc|]; [|done]. exfalso. unfold ids in Hc.
      apply (f_equal length) in Hc. rewrite length_sort_by, length_app in Hc. simpl in Hc. lia.
  - intros o x. specialize (Hi o). unfold index_ids in Hi at 1. cbn [owner_index] in Hi. rewrite Hi.
    destruct (bool_decide (o = owner_of v)) eqn:Eo.
    + apply bool_decide_eq_true_1 in Eo as ->. unfold ids.
      rewrite elem_of_sort_by, elem_of_app, list_elem_of_singleton, (bk_exact _ Hok).
      destruct (decide (x = id)) as [->|Hx]; [rewrite lookup_insert_eq; naive_solver|].
      rewrite lookup_insert_ne by done. naive_solver.
    + apply bool_decide_eq_false_1 in Eo. rewrite (bk_exact _ Hok).
      destruct (decide (x = id)) as [->|Hx]; [rewrite lookup_insert_eq; naive_solver|].
      by rewrite lookup_insert_ne by done.
  - intros x Hx. destruct (decide (x = id)) as [->|Hne]; [done|]. rewrite lookup_insert_ne in Hx by done.
    by apply (bk_unsettled _ Hok).
Qed.

(** A settled object leaves the live set and the index for good. *)
Lemma book_settle_ok bk id v tx r msg iops :
  book_ok bk -> live bk !! id = Some v ->
  put_owner_index (owner_of v) (filter (fun x => x <> id) (index_ids bk (owner_of v))) cap msg = Ok iops ->
  let bk' := write_book bk (iops ++ [DeleteLive id; PutSettled id tx; PutReceipt id r]) in
  book_ok bk' /\ live bk' = delete id (live bk) /\ settled bk' = <[id := tx]> (settled bk) /\
  receipts bk' = <[id := r]> (receipts bk) /\ events bk' = events bk.
Proof.
  intros Hok Hl Hp. cbv zeta. rewrite write_book_app.
  destruct (put_index_written bk _ _ _ _ Hp) as (El & Es & Er & Ee & Hi & Ho & Hc).
  destruct (write_book bk iops) as [lv oi st rc ev]. unfold write_book. cbn in *. subst lv st rc ev.
  split; [|done].
  split; unfold index_ids; cbn [owner_index live settled]; fold (index_ids bk).
  - intros o r' Hr. specialize (Ho o r' Hr). case_bool_decide; [done|]. by apply (bk_index _ Hok).
  - intros o. specialize (Hi o). unfold index_ids in Hi at 1. cbn [owner_index] in Hi. rewrite Hi.
    case_bool_decide; [|apply (bk_sorted _ Hok)]. subst o. destruct (bk_sorted _ Hok (owner_of v)) as [Hs Hcap]. split.
    + by apply strictly_increasing_filter.
    + etransitivity; [apply length_filter|done].
  - intros o x. specialize (Hi o). unfold index_ids in Hi at 1. cbn [owner_index] in Hi. rewrite Hi.
    destruct (bool_decide (o = owner_of v)) eqn:Eo.
    + apply bool_decide_eq_true_1 in Eo as ->. rewrite list_elem_of_filter, (bk_exact _ Hok).
      destruct (decide (x = id)) as [->|Hx]; [rewrite lookup_delete_eq; naive_solver|].
      rewrite lookup_delete_ne by done. naive_solver.
    + apply bool_decide_eq_false_1 in Eo. rewrite (bk_exact _ Hok).
      destruct (decide (x = id)) as [->|Hx]; [rewrite lookup_delete_eq; naive_solver|].
      by rewrite lookup_delete_ne by done.
  - intros x Hx. destruct (decide (x = id)) as [->|Hne]; [rewrite lookup_delete_eq in Hx; by destruct Hx|].
    rewrite lookup_delete_ne in Hx by done. rewrite lookup_insert_ne by done. by apply (bk_unsettled _ Hok).
Qed.

(** A live object is replaced by one of the same owner, with an event. *)
Lemma book_update_ok bk id v v' p t e :
  book_ok bk -> live bk !! id = Some v -> owner_of v' = owner_of v ->
  let bk' := write_book bk [PutLive id v'; PutEvent p t e] in
  book_ok bk' /\ live bk' = <[id := v']> (live bk) /\ settled bk' = settled bk /\ receipts bk' = receipts bk.
Proof.
  intros Hok Hl Ho. destruct bk as [lv oi st rc ev]. unfold write_book. cbn in *. split; [|done].
  split; unfold index_ids; cbn [owner_index live settled].
  - apply (bk_index _ Hok).
  - apply (bk_sorted _ Hok).
  - intros o x. pose proof (bk_exact _ Hok o x) as Hx. unfold index_ids in Hx. cbn [owner_index live] in Hx.
    rewrite Hx. destruct (decide (x = id)) as [->|Hne]; [rewrite lookup_insert_eq; naive_solver|].
    by rewrite lookup_insert_ne by done.
  - intros x Hx. apply (bk_unsettled _ Hok). cbn [live]. destruct (decide (x = id)) as [->|Hne]; [done|].
    by rewrite lookup_insert_ne in Hx by done.
Qed.
(** Settling never runs into the cap. *)
Lemma settle_index_total bk owner id msg :
  book_ok bk -> exists iops, put_owner_index owner (filter (fun x => x <> id) (index_ids bk owner)) cap msg = Ok iops.
Proof.
  intros Hok. destruct (bk_sorted _ Hok owner) as [_ Hc].
  pose proof (length_filter (fun x => x <> id) (index_ids bk owner)) as Hl. unfold put_owner_index.
  destruct (filter _ _) as [|x l]; [by eexists|]. rewrite (proj2 (Nat.leb_le _ _)) by lia. by eexists.
Qed.

(** ** The life of an object *)

(** The abstract state of an id, and how it may change: an object is created
    once, updated while it is live, and settled once, with a receipt. *)
Inductive Status := Absent | Live (v : L) | Settled (tx : Hash) (r : option R).
Definition status (bk : Book) (id : Hash) : Status :=
  match settled bk !! id with
  | Some tx => Settled tx (receipts bk !! id)
  | None => match live bk !! id with Some v => Live v | None => Absent end
  end.
Section life.
Variable new : Hash -> L -> Prop.
Variable update : L -> L -> Prop.
Variable receipt : L -> Hash -> R -> Prop.

Inductive status_step (id : Hash) : Status -> Status -> Prop :=
| step_create v : new id v -> status_step id Absent (Live v)
| step_update v v' : update v v' -> status_step id (Live v) (Live v')
| step_settle v tx r : receipt v tx r -> status_step id (Live v) (Settled tx (Some r)).
(** One id moves, the others keep their state. *)
Definition moves (bk bk' : Book) (id : Hash) : Prop :=
  status_step id (status bk id) (status bk' id) /\ forall x, x <> id -> status bk' x = status bk x.

Lemma settled_final id tx r st : rtc (status_step id) (Settled tx r) st -> st = Settled tx r.
Proof. inversion 1 as [|? ? ? H1]; [done|]. inversion H1. Qed.

Lemma status_frame bk bk' x :
  live bk' !! x = live bk !! x -> settled bk' !! x = settled bk !! x -> receipts bk' !! x = receipts bk !! x ->
  status bk' x = status bk x.
Proof. unfold status. by intros -> -> ->. Qed.
Lemma create_moves bk bk' id v :
  live bk !! id = None -> settled bk !! id = None -> new id v ->
  live bk' = <[id := v]> (live bk) -> settled bk' = settled bk -> receipts bk' = receipts bk -> moves bk bk' id.
Proof.
  intros Hl Hs Hn El Es Er. split.
  - unfold status. rewrite Es, El, Hs, Hl, lookup_insert_eq. by constructor.
  - intros x Hx. apply status_frame; rewrite ?El, ?Es, ?Er; [|done..]. by rewrite lookup_insert_ne.
Qed.
Lemma update_moves bk bk' id v v' :
  book_ok bk -> live bk !! id = Some v -> update v v' ->
  live bk' = <[id := v']> (live bk) -> settled bk' = settled bk -> receipts bk' = receipts bk -> moves bk bk' id.
Proof.
  intros Hok Hl Hu El Es Er. assert (settled bk !! id = None) as Hs by (by apply (bk_unsettled _ Hok); eexists). split.
  - unfold status. rewrite Es, El, Hs, Hl, lookup_insert_eq. by constructor.
  - intros x Hx. apply status_frame; rewrite ?El, ?Es, ?Er; [|done..]. by rewrite lookup_insert_ne.
Qed.
Lemma settle_moves bk bk' id v tx r :
  book_ok bk -> live bk !! id = Some v -> receipt v tx r ->
  live bk' = delete id (live bk) -> settled bk' = <[id := tx]> (settled bk) -> receipts bk' = <[id := r]> (receipts bk) ->
  moves bk bk' id.
Proof.
  intros Hok Hl Hr El Es Er. assert (settled bk !! id = None) as Hs by (by apply (bk_unsettled _ Hok); eexists). split.
  - unfold status. rewrite Es, Er, Hs, Hl, !lookup_insert_eq. by constructor.
  - intros x Hx. apply status_frame; rewrite ?El, ?Es, ?Er;
      [by rewrite lookup_delete_ne|by rewrite lookup_insert_ne..].
Qed.

Lemma life_from_live id v st : rtc (status_step id) (Live v) st ->
  match st with
  | Absent => False
  | Live v' => rtc update v v'
  | Settled tx r => exists v' r', rtc update v v' /\ r = Some r' /\ receipt v' tx r'
  end.
Proof.
  intros H. remember (Live v) as a eqn:Ea. revert v Ea.
  induction H as [|a b c Hab Hbc IH]; intros v ->; [constructor|]. inversion Hab as [|v0 v' Hu|v0 tx r Hr]; subst.
  - specialize (IH _ eq_refl). destruct c as [|w|tx r]; [done|by econstructor|].
    destruct IH as (w & r' & Hw & -> & Hr'). exists w, r'. split; [by econstructor|done].
  - apply settled_final in Hbc as ->. exists v, r. split; [constructor|done].
Qed.

(** A run whose steps each move one id refines, id by id, the life above. *)
Lemma run_refines {X} (step : relation X) (book_of : X -> Book) (inv : X -> Prop) x y :
  (forall a b, inv a -> step a b -> inv b /\ exists id, moves (book_of a) (book_of b) id) ->
  inv x -> rtc step x y ->
  inv y /\ forall id, rtc (status_step id) (status (book_of x) id) (status (book_of y) id).
Proof.
  intros Hstep Hx Hr. revert Hx. induction Hr as [x|x y z Hxy Hyz IH]; intros Hx; [split; [done|]; intros id; constructor|].
  destruct (Hstep _ _ Hx Hxy) as [Hy (i & Hm & Hf)]. destruct (IH Hy) as [Hz Hr]. split; [done|].
  intros id. destruct (decide (id = i)) as [->|Hne]; [by econstructor|]. by rewrite <- (Hf id Hne).
Qed.
End life.
End book.
Arguments Book : clear implicits.
Arguments BookOp : clear implicits.
Arguments Status : clear implicits.
