(* ===== verification/Policy.v ===== *)
(** * DRC account policies and deposit preauthorization

    [types/src/drc_policy.rs], [types/src/drc_deposit_preauth.rs],
    [state-machine/src/drc_policy.rs], [drc_deposit_preauth.rs].  An account
    may require destination tags, require deposits to be preauthorized and
    disable its master key; it grants and revokes preauthorizations one source
    at a time.  The payment-like lanes consult both. *)

From stdpp Require Import base gmap list fin_maps strings.
From Stdlib Require Import ZArith Lia.
From S2P Require Import Prelude Ordering Sums Types Finality Store Supply Accounts Objects.
Local Open Scope Z_scope.

(** ** Records *)

Record DrcAccountPolicy := {
  pol_version : Z;
  require_destination_tag : bool;
  deposit_auth_required : bool;
  master_key_disabled : bool;
}.
Definition default_account_policy : DrcAccountPolicy :=
  {| pol_version := 1; require_destination_tag := false; deposit_auth_required := false;
     master_key_disabled := false |}.
Definition validate_account_policy (p : DrcAccountPolicy) : result string unit :=
  if pol_version p =? 1 then
    ensure (negb (deposit_auth_required p || master_key_disabled p))
      "DRC account-policy v1 state cannot carry extended fields"%string
  else if pol_version p =? 2 then
    ensure (negb (master_key_disabled p)) "DRC account-policy v2 state cannot carry master-key disable"%string
  else ensure (pol_version p =? 3) "unsupported DRC account-policy state version"%string.
Definition canonical_state_version (p : DrcAccountPolicy) : Z :=
  if master_key_disabled p then 3 else if deposit_auth_required p then 2 else 1.

Record DrcDepositPreauth := { dp_version : Z; dp_owner : Address; dp_source : Address }.
Definition DRC_DEPOSIT_PREAUTH_STATE_VERSION : Z := 1.
Definition preauth_new (owner source : Address) : DrcDepositPreauth :=
  {| dp_version := DRC_DEPOSIT_PREAUTH_STATE_VERSION; dp_owner := owner; dp_source := source |}.
Definition validate_preauth (r : DrcDepositPreauth) : result string unit :=
  ensure (dp_version r =? DRC_DEPOSIT_PREAUTH_STATE_VERSION)
    "unsupported DRC deposit-preauthorization state version"%string ;?
  ensure (negb (dp_owner r =? 0)) "DRC deposit-preauthorization owner must be non-zero"%string ;?
  ensure (negb (dp_source r =? 0)) "DRC deposit-preauthorization source must be non-zero"%string ;?
  ensure (negb (dp_owner r =? dp_source r)) "DRC accounts cannot preauthorize themselves"%string.

(** The records of the two key families, and their writes. *)
Record PolicyStore := {
  policies : gmap Address DrcAccountPolicy;
  preauths : gmap (Address * Address) DrcDepositPreauth;
}.
Inductive PolicyOp :=
| PutPolicy (a : Address) (p : DrcAccountPolicy)
| DeletePolicy (a : Address)
| PutPreauth (owner source : Address) (r : DrcDepositPreauth)
| DeletePreauth (owner source : Address).
Definition apply_policy_op (ps : PolicyStore) (op : PolicyOp) : PolicyStore :=
  match op with
  | PutPolicy a p => {| policies := <[a := p]> (policies ps); preauths := preauths ps |}
  | DeletePolicy a => {| policies := delete a (policies ps); preauths := preauths ps |}
  | PutPreauth o s r => {| policies := policies ps; preauths := <[(o, s) := r]> (preauths ps) |}
  | DeletePreauth o s => {| policies := policies ps; preauths := delete (o, s) (preauths ps) |}
  end.
Definition write_policies (ps : PolicyStore) (ops : list PolicyOp) : PolicyStore := foldl apply_policy_op ps ops.

Definition load_drc_account_policy (ps : PolicyStore) (account : Address) : result StateError DrcAccountPolicy :=
  match policies ps !! account with
  | None => Ok default_account_policy
  | Some p => lift_storage (validate_account_policy p) ;? Ok p
  end.
Definition load_drc_deposit_preauth (ps : PolicyStore) (owner source : Address) : result StateError bool :=
  match preauths ps !! (owner, source) with
  | None => Ok false
  | Some r =>
      lift_storage (validate_preauth r) ;?
      ensure ((dp_owner r =? owner) && (dp_source r =? source))
        (Storage "DRC deposit-preauthorization record does not match index key") ;?
      Ok true
  end.

(** ** Operations *)

Inductive DrcAccountPolicyAction :=
| SetRequireDestinationTag | ClearRequireDestinationTag
| SetDepositAuthRequired | ClearDepositAuthRequired
| SetMasterKeyDisabled | ClearMasterKeyDisabled.
Definition destination_tag_requirement (a : DrcAccountPolicyAction) : option bool :=
  match a with
  | SetRequireDestinationTag => Some true
  | ClearRequireDestinationTag => Some false
  | _ => None
  end.
Definition deposit_auth_requirement (a : DrcAccountPolicyAction) : option bool :=
  match a with SetDepositAuthRequired => Some true | ClearDepositAuthRequired => Some false | _ => None end.
Definition master_key_disabled_requirement (a : DrcAccountPolicyAction) : option bool :=
  match a with SetMasterKeyDisabled => Some true | ClearMasterKeyDisabled => Some false | _ => None end.

Record DrcAccountPolicyTx := {
  pt_version : Z;
  pt_account : Address;
  pt_action : DrcAccountPolicyAction;
  pt_fee : Z;
  pt_nonce : Z;
  pt_account_sequence : option DrcAccountSequenceSelector;
  pt_public_key : list Z;
  pt_signature : list Z;
}.
Definition DRC_ACCOUNT_POLICY_TICKET_TX_VERSION : Z := 4.
Definition validate_version (tx : DrcAccountPolicyTx) : result string unit :=
  ensure (negb ((pt_version tx <? DRC_ACCOUNT_POLICY_TICKET_TX_VERSION) && has_ticket_selector (pt_account_sequence tx)))
    "ticket sequence selector requires a ticket-capable operation version"%string ;?
  if pt_version tx =? 4 then Ok tt
  else if (pt_version tx =? 1) || (pt_version tx =? 2) || (pt_version tx =? 3) then
    ensure (match pt_action tx with
            | SetRequireDestinationTag | ClearRequireDestinationTag => pt_version tx =? 1
            | SetDepositAuthRequired | ClearDepositAuthRequired => pt_version tx =? 2
            | SetMasterKeyDisabled | ClearMasterKeyDisabled => pt_version tx =? 3
            end) "DRC account-policy action is invalid for envelope version"%string
  else Err "unsupported DRC account-policy version"%string.

Inductive DrcDepositPreauthAction := Authorize | Unauthorize.
Record DrcDepositPreauthTx := {
  px_version : Z;
  px_owner : Address;
  px_action : DrcDepositPreauthAction;
  px_authorized_source : Address;
  px_fee : Z;
  px_nonce : Z;
  px_account_sequence : option DrcAccountSequenceSelector;
  px_public_key : list Z;
  px_signature : list Z;
}.
Definition DRC_DEPOSIT_PREAUTH_TICKET_TX_VERSION : Z := 2.
Definition validate_preauth_tx (tx : DrcDepositPreauthTx) : result string unit :=
  ensure ((px_version tx =? 1) || (px_version tx =? DRC_DEPOSIT_PREAUTH_TICKET_TX_VERSION))
    "unsupported DRC deposit-preauthorization transaction version"%string ;?
  ensure (negb ((px_version tx =? 1) && has_ticket_selector (px_account_sequence tx)))
    "ticket sequence selector requires a ticket-capable operation version"%string ;?
  ensure (negb (px_owner tx =? 0)) "DRC deposit-preauthorization owner must be non-zero"%string ;?
  ensure (negb (px_authorized_source tx =? 0)) "DRC deposit-preauthorization source must be non-zero"%string ;?
  ensure (negb (px_owner tx =? px_authorized_source tx)) "DRC accounts cannot preauthorize themselves"%string.

Section policy.
Context {Auth : Type}.
(** [drc_account_auth.rs]. *)
Variable verify_drc_account_policy_operation :
  StateStore -> PolicyStore -> DrcAccountPolicyTx -> Auth -> result StateError unit.
Variable verify_drc_deposit_preauth_operation :
  StateStore -> PolicyStore -> DrcDepositPreauthTx -> Auth -> result StateError unit.

(** The policy after an action. *)
Definition set_policy (p : DrcAccountPolicy) (a : DrcAccountPolicyAction) : DrcAccountPolicy :=
  let p' := {| pol_version := pol_version p;
               require_destination_tag := default (require_destination_tag p) (destination_tag_requirement a);
               deposit_auth_required := default (deposit_auth_required p) (deposit_auth_requirement a);
               master_key_disabled := default (master_key_disabled p) (master_key_disabled_requirement a) |} in
  {| pol_version := canonical_state_version p'; require_destination_tag := require_destination_tag p';
     deposit_auth_required := deposit_auth_required p'; master_key_disabled := master_key_disabled p' |}.

Definition apply_drc_account_policy (s : StateStore) (ps : PolicyStore) (tx : DrcAccountPolicyTx) (auth : Auth)
  (b : WriteBatch) (j : AccountJournal)
  : result StateError (DrcAccountPolicy * WriteBatch * list PolicyOp * AccountJournal) :=
  lift_msg (validate_version tx) ;?
  verify_drc_account_policy_operation s ps tx auth ;?
  let? known := account_exists s DRC (pt_account tx) in
  ensure (negb (bool_decide (is_Some (deposit_auth_requirement (pt_action tx))) && negb known))
    (InvalidTx "unknown DRC DepositAuth policy owner") ;?
  let? account := load_account s DRC (pt_account tx) in
  let? ctx := begin_op_sequence s (pt_account tx) account (pt_version tx) DRC_ACCOUNT_POLICY_TICKET_TX_VERSION
    (pt_nonce tx) (pt_account_sequence tx) "bad DRC account-policy nonce" in
  ensure (pt_fee tx <=? balance account) (InvalidTx "insufficient DRC account-policy balance") ;?
  let? policy := load_drc_account_policy ps (pt_account tx) in
  let policy := set_policy policy (pt_action tx) in
  lift_msg (validate_account_policy policy) ;?
  let j := j ++ [(DRC, pt_account tx, account)] in
  let? (b, account) := finish_op_sequence b (pt_account tx)
    {| balance := balance account - pt_fee tx; nonce := nonce account |} ctx "DRC account-policy nonce overflow" in
  let? b := put_account_into b DRC (pt_account tx) account in
  let ops := if require_destination_tag policy || deposit_auth_required policy || master_key_disabled policy
             then [PutPolicy (pt_account tx) policy] else [DeletePolicy (pt_account tx)] in
  Ok (policy, b, ops, j).

Definition apply_drc_deposit_preauth (s : StateStore) (ps : PolicyStore) (tx : DrcDepositPreauthTx) (auth : Auth)
  (b : WriteBatch) (j : AccountJournal)
  : result StateError (bool * WriteBatch * list PolicyOp * AccountJournal) :=
  lift_msg (validate_preauth_tx tx) ;?
  verify_drc_deposit_preauth_operation s ps tx auth ;?
  let? o := account_exists s DRC (px_owner tx) in
  ensure o (InvalidTx "unknown DRC deposit-preauthorization owner") ;?
  let? a := account_exists s DRC (px_authorized_source tx) in
  ensure a (InvalidTx "unknown DRC deposit-preauthorization source") ;?
  let? exists_ := load_drc_deposit_preauth ps (px_owner tx) (px_authorized_source tx) in
  match px_action tx, exists_ with
  | Authorize, true => Err (InvalidTx "duplicate DRC deposit preauthorization")
  | Unauthorize, false => Err (InvalidTx "missing DRC deposit preauthorization")
  | _, _ => Ok tt
  end ;?
  let? owner := load_account s DRC (px_owner tx) in
  let? ctx := begin_op_sequence s (px_owner tx) owner (px_version tx) DRC_DEPOSIT_PREAUTH_TICKET_TX_VERSION
    (px_nonce tx) (px_account_sequence tx) "bad DRC deposit-preauthorization nonce" in
  ensure (px_fee tx <=? balance owner) (InvalidTx "insufficient DRC deposit-preauthorization balance") ;?
  let record := preauth_new (px_owner tx) (px_authorized_source tx) in
  let j := j ++ [(DRC, px_owner tx, owner)] in
  let? (b, owner) := finish_op_sequence b (px_owner tx)
    {| balance := balance owner - px_fee tx; nonce := nonce owner |} ctx
    "DRC deposit-preauthorization nonce overflow" in
  let? b := put_account_into b DRC (px_owner tx) owner in
  match px_action tx with
  | Authorize => Ok (true, b, [PutPreauth (px_owner tx) (px_authorized_source tx) record], j)
  | Unauthorize => Ok (false, b, [DeletePreauth (px_owner tx) (px_authorized_source tx)], j)
  end.
End policy.

(** Whether a deposit from [source] may reach [recipient] ([DrcDepositAuthorization]). *)
Definition deposit_authorized (ps : PolicyStore) (recipient source : Address) : bool :=
  negb (deposit_auth_required (default default_account_policy (policies ps !! recipient))) ||
  (recipient =? source) || bool_decide (is_Some (preauths ps !! (recipient, source))).

(** ** The invariant *)

Definition policies_ok (ps : PolicyStore) : Prop :=
  (forall a p, policies ps !! a = Some p ->
     pol_version p = canonical_state_version p /\
     (require_destination_tag p || deposit_auth_required p || master_key_disabled p) = true) /\
  (forall o s r, preauths ps !! (o, s) = Some r -> r = preauth_new o s /\ o <> 0 /\ s <> 0 /\ o <> s).
Lemma canonical_valid p : pol_version p = canonical_state_version p -> validate_account_policy p = Ok tt.
Proof.
  unfold validate_account_policy, canonical_state_version. intros ->.
  destruct p as [v [] [] []]; reflexivity.
Qed.
Lemma load_policy_ok ps a :
  policies_ok ps -> load_drc_account_policy ps a = Ok (default default_account_policy (policies ps !! a)).
Proof.
  intros [Hp _]. unfold load_drc_account_policy. destruct (policies ps !! a) as [p|] eqn:Ea; [|done].
  destruct (Hp _ _ Ea) as [Hv _]. by rewrite canonical_valid.
Qed.
Lemma load_preauth_ok ps o s :
  policies_ok ps -> load_drc_deposit_preauth ps o s = Ok (bool_decide (is_Some (preauths ps !! (o, s)))).
Proof.
  intros [_ Hp]. unfold load_drc_deposit_preauth. destruct (preauths ps !! (o, s)) as [r|] eqn:Ea; [|done].
  destruct (Hp _ _ _ Ea) as (-> & Ho & Hs & Hne). unfold validate_preauth, preauth_new. cbn [dp_version dp_owner dp_source].
  rewrite (proj2 (Z.eqb_neq _ _) Ho), (proj2 (Z.eqb_neq _ _) Hs), (proj2 (Z.eqb_neq _ _) Hne), !Z.eqb_refl. done.
Qed.
Lemma deposit_gate_open ps recipient source e :
  policies_ok ps -> deposit_authorized ps recipient source = true ->
  (if deposit_auth_required (default default_account_policy (policies ps !! recipient)) && negb (source =? recipient) then
     let? preauthorized := load_drc_deposit_preauth ps recipient source in ensure preauthorized e
   else Ok tt) = Ok tt.
Proof.
  intros Hps Hd. rewrite load_preauth_ok by done. unfold deposit_authorized in Hd. rewrite (Z.eqb_sym recipient) in Hd.
  destruct (deposit_auth_required _), (source =? recipient), (bool_decide _); done.
Qed.
