(* ===== verification/Escrow.v ===== *)
(** * DRC escrows ([types/src/drc_escrow.rs], [state-machine/src/drc_escrow.rs])

    An owner locks DRC for a recipient.  From [finish_after] on anyone may
    finish the escrow (the recipient is paid), from [cancel_after] on anyone
    may cancel it (the owner is paid back); the submitter pays the fee. *)

From stdpp Require Import base gmap list fin_maps strings.
From Stdlib Require Import ZArith Lia.
From S2P Require Import Prelude Ordering Sums Types Finality Store Supply Accounts Objects Policy.
Local Open Scope Z_scope.

Definition DRC_MAX_LIVE_ESCROWS_PER_ACCOUNT : nat := 32.
Definition DRC_ESCROW_CREATE_TICKET_VERSION : Z := 2.
Definition DRC_ESCROW_FINISH_TICKET_VERSION : Z := 2.
Definition DRC_ESCROW_CANCEL_TICKET_VERSION : Z := 2.
Definition DRC_ESCROW_LIVE_STATE_VERSION : Z := 1.
Definition DRC_ESCROW_RECEIPT_VERSION : Z := 1.
Definition DRC_ESCROW_MAX_BLUE_SCORE_BOUND : Z := u64_max - 1.

Inductive DrcEscrowOutcome := EscrowFinished | EscrowCancelled.

Record DrcEscrowCreateTx := {
  ec_version : Z;
  ec_owner : Address;
  ec_recipient : Address;
  ec_amount : Z;
  ec_fee : Z;
  ec_destination_tag : option Z;
  ec_source_tag : option Z;
  ec_invoice_id : Hash;
  ec_finish_after : option Z;
  ec_cancel_after : option Z;
  ec_nonce : Z;
  ec_account_sequence : option DrcAccountSequenceSelector;
  ec_public_key : list Z;
  ec_signature : list Z;
}.
(** [DrcEscrowFinishTx] and [DrcEscrowCancelTx] have the same fields. *)
Record DrcEscrowFinishTx := {
  ef_version : Z;
  ef_submitter : Address;
  ef_escrow_id : Hash;
  ef_fee : Z;
  ef_nonce : Z;
  ef_account_sequence : option DrcAccountSequenceSelector;
  ef_public_key : list Z;
  ef_signature : list Z;
}.
Record DrcEscrowCancelTx := {
  ex_version : Z;
  ex_submitter : Address;
  ex_escrow_id : Hash;
  ex_fee : Z;
  ex_nonce : Z;
  ex_account_sequence : option DrcAccountSequenceSelector;
  ex_public_key : list Z;
  ex_signature : list Z;
}.
Record DrcEscrowLive := {
  el_version : Z;
  el_escrow_id : Hash;
  el_owner : Address;
  el_recipient : Address;
  el_amount : Z;
  el_destination_tag : option Z;
  el_source_tag : option Z;
  el_invoice_id : Hash;
  el_finish_after : option Z;
  el_cancel_after : option Z;
  el_create_blue_score : Z;
}.
Record DrcEscrowReceipt := {
  er_version : Z;
  er_escrow_id : Hash;
  er_outcome : DrcEscrowOutcome;
  er_owner : Address;
  er_recipient : Address;
  er_amount : Z;
  er_destination_tag : option Z;
  er_source_tag : option Z;
  er_invoice_id : Hash;
  er_settlement_blue_score : Z;
  er_settlement_tx_id : Hash;
}.

(** ** Time windows *)

Definition bound_fits (o : option Z) : bool :=
  match o with Some b => b <=? DRC_ESCROW_MAX_BLUE_SCORE_BOUND | None => true end.
Definition validate_escrow_time_bounds (finish_after cancel_after : option Z) : result string unit :=
  ensure (negb (bool_decide (finish_after = None) && bool_decide (cancel_after = None)))
    "escrow requires at least one blue-score time bound"%string ;?
  ensure (bound_fits finish_after && bound_fits cancel_after) "escrow blue-score bound overflow"%string ;?
  match finish_after, cancel_after with
  | Some f, Some c => ensure (f <? c) "finish_after must be strictly less than cancel_after"%string
  | _, _ => Ok tt
  end.
Definition escrow_finish_allowed (score : Z) (finish_after cancel_after : option Z) : bool :=
  (match finish_after with Some f => f <=? score | None => true end) &&
  (match cancel_after with Some c => score <? c | None => true end).
Definition escrow_cancel_allowed (score : Z) (cancel_after : option Z) : bool :=
  match cancel_after with Some c => c <=? score | None => false end.

(** ** Structure *)

Definition validate_create (tx : DrcEscrowCreateTx) : result string unit :=
  ensure ((ec_version tx =? 1) || (ec_version tx =? DRC_ESCROW_CREATE_TICKET_VERSION))
    "unsupported DRC escrow version"%string ;?
  ensure (negb ((ec_version tx <? DRC_ESCROW_CREATE_TICKET_VERSION) && has_ticket_selector (ec_account_sequence tx)))
    "ticket selector on legacy escrow version"%string ;?
  ensure (negb ((ec_owner tx =? 0) || (ec_recipient tx =? 0))) "zero address or escrow id"%string ;?
  ensure (negb (ec_amount tx =? 0)) "zero escrow amount"%string ;?
  validate_escrow_time_bounds (ec_finish_after tx) (ec_cancel_after tx) ;?
  ensure (ec_invoice_id tx =? 0) "escrow v1 does not support merchant invoice_id (must be zero)"%string.
Definition validate_settle (version ticket_version : Z) (submitter : Address) (escrow_id : Hash)
  (sel : option DrcAccountSequenceSelector) : result string unit :=
  ensure ((version =? 1) || (version =? ticket_version)) "unsupported DRC escrow version"%string ;?
  ensure (negb ((version <? ticket_version) && has_ticket_selector sel))
    "ticket selector on legacy escrow version"%string ;?
  ensure (negb ((submitter =? 0) || (escrow_id =? 0))) "zero address or escrow id"%string.
Definition validate_finish (tx : DrcEscrowFinishTx) : result string unit :=
  validate_settle (ef_version tx) DRC_ESCROW_FINISH_TICKET_VERSION (ef_submitter tx) (ef_escrow_id tx)
    (ef_account_sequence tx).
Definition validate_cancel (tx : DrcEscrowCancelTx) : result string unit :=
  validate_settle (ex_version tx) DRC_ESCROW_CANCEL_TICKET_VERSION (ex_submitter tx) (ex_escrow_id tx)
    (ex_account_sequence tx).
Definition validate_escrow_live (e : DrcEscrowLive) : result string unit :=
  ensure (el_version e =? DRC_ESCROW_LIVE_STATE_VERSION) "unsupported DRC escrow state version"%string ;?
  ensure (negb (el_escrow_id e =? 0)) "zero address or escrow id"%string ;?
  validate_escrow_time_bounds (el_finish_after e) (el_cancel_after e).
Definition validate_escrow_receipt (r : DrcEscrowReceipt) : result string unit :=
  ensure (er_version r =? DRC_ESCROW_RECEIPT_VERSION) "unsupported DRC escrow receipt version"%string.

(** ** State *)

Abbreviation EscrowBook := (Book DrcEscrowLive DrcEscrowReceipt Empty_set).
Abbreviation EscrowOp := (BookOp DrcEscrowLive DrcEscrowReceipt Empty_set).

Definition load_drc_escrow_live (bk : EscrowBook) (id : Hash) : result StateError (option DrcEscrowLive) :=
  match live bk !! id with
  | None => Ok None
  | Some e =>
      lift_storage (validate_escrow_live e) ;?
      ensure (el_escrow_id e =? id) (Storage "DRC escrow live id does not match index key") ;?
      Ok (Some e)
  end.

Definition receipt_of (e : DrcEscrowLive) (outcome : DrcEscrowOutcome) (score : Z) (tx : Hash) : DrcEscrowReceipt :=
  {| er_version := DRC_ESCROW_RECEIPT_VERSION; er_escrow_id := el_escrow_id e; er_outcome := outcome;
     er_owner := el_owner e; er_recipient := el_recipient e; er_amount := el_amount e;
     er_destination_tag := el_destination_tag e; er_source_tag := el_source_tag e;
     er_invoice_id := el_invoice_id e; er_settlement_blue_score := score; er_settlement_tx_id := tx |}.
Definition settle_escrow (bk : EscrowBook) (e : DrcEscrowLive) (outcome : DrcEscrowOutcome) (score : Z) (tx : Hash)
  : result StateError (list EscrowOp) :=
  let? live_ids := load_owner_index bk (el_owner e) "invalid DRC escrow owner index" in
  let live_ids := filter (fun id => id <> el_escrow_id e) live_ids in
  let? iops := put_owner_index (el_owner e) live_ids DRC_MAX_LIVE_ESCROWS_PER_ACCOUNT "DRC live escrow cap exceeded" in
  let receipt := receipt_of e outcome score tx in
  lift_storage (validate_escrow_receipt receipt) ;?
  Ok (iops ++ [DeleteLive (el_escrow_id e); PutSettled (el_escrow_id e) tx; PutReceipt (el_escrow_id e) receipt]).

Section escrow.
Context {Auth : Type}.
(** [drc_account_auth.rs] and the hashes of the signed envelopes. *)
Variable verify_create : StateStore -> PolicyStore -> DrcEscrowCreateTx -> Auth -> result StateError unit.
Variable verify_finish : StateStore -> PolicyStore -> DrcEscrowFinishTx -> Auth -> result StateError unit.
Variable verify_cancel : StateStore -> PolicyStore -> DrcEscrowCancelTx -> Auth -> result StateError unit.
Variable escrow_id : DrcEscrowCreateTx -> Hash.
Variable finish_tx_id : DrcEscrowFinishTx -> Hash.
Variable cancel_tx_id : DrcEscrowCancelTx -> Hash.

Definition apply_drc_escrow_create (s : StateStore) (ps : PolicyStore) (bk : EscrowBook)
  (tx : DrcEscrowCreateTx) (auth : Auth) (score : Z) (b : WriteBatch) (j : AccountJournal)
  : result StateError (Hash * WriteBatch * list EscrowOp * AccountJournal) :=
  lift_msg (validate_create tx) ;?
  verify_create s ps tx auth ;?
  let id := escrow_id tx in
  ensure (negb (bool_decide (is_Some (live bk !! id)))) (InvalidTx "duplicate DRC escrow id") ;?
  ensure_unsettled bk id "DRC escrow already settled" ;?
  let? recipient_policy := load_drc_account_policy ps (ec_recipient tx) in
  ensure (negb (require_destination_tag recipient_policy && bool_decide (ec_destination_tag tx = None)))
    (InvalidTx "DRC destination tag required by recipient policy") ;?
  let? owner := load_account s DRC (ec_owner tx) in
  let? ctx := begin_op_sequence s (ec_owner tx) owner (ec_version tx) DRC_ESCROW_CREATE_TICKET_VERSION
    (ec_nonce tx) (ec_account_sequence tx) "bad DRC escrow-create nonce" in
  let? debit := ok_or (InvalidTx "DRC escrow create amount+fee overflow")
    (checked_add u64_max (ec_amount tx) (ec_fee tx)) in
  ensure (debit <=? balance owner) (InvalidTx "insufficient DRC escrow-create balance") ;?
  let? live_ids := load_owner_index bk (ec_owner tx) "invalid DRC escrow owner index" in
  ensure (Nat.ltb (length live_ids) DRC_MAX_LIVE_ESCROWS_PER_ACCOUNT) (InvalidTx "DRC live escrow cap exceeded") ;?
  ensure (negb (bool_decide (id ∈ live_ids))) (InvalidTx "duplicate DRC escrow id") ;?
  let j := j ++ [(DRC, ec_owner tx, owner)] in
  let? (b, owner) := finish_op_sequence b (ec_owner tx)
    {| balance := balance owner - debit; nonce := nonce owner |} ctx "DRC escrow-create nonce overflow" in
  let? b := put_account_into b DRC (ec_owner tx) owner in
  let live_ids := sort_by Z.compare (live_ids ++ [id]) in
  let? iops := put_owner_index (ec_owner tx) live_ids DRC_MAX_LIVE_ESCROWS_PER_ACCOUNT "DRC live escrow cap exceeded" in
  let e := {| el_version := DRC_ESCROW_LIVE_STATE_VERSION; el_escrow_id := id; el_owner := ec_owner tx;
              el_recipient := ec_recipient tx; el_amount := ec_amount tx;
              el_destination_tag := ec_destination_tag tx; el_source_tag := ec_source_tag tx;
              el_invoice_id := ec_invoice_id tx; el_finish_after := ec_finish_after tx;
              el_cancel_after := ec_cancel_after tx; el_create_blue_score := score |} in
  lift_msg (validate_escrow_live e) ;?
  Ok (id, b, iops ++ [PutLive id e], j).

(** The two settlements differ in their gate and in who is paid. *)
Definition apply_drc_escrow_finish (s : StateStore) (ps : PolicyStore) (bk : EscrowBook)
  (tx : DrcEscrowFinishTx) (auth : Auth) (score : Z) (b : WriteBatch) (j : AccountJournal)
  : result StateError (DrcEscrowReceipt * WriteBatch * list EscrowOp * AccountJournal) :=
  lift_msg (validate_finish tx) ;?
  verify_finish s ps tx auth ;?
  ensure_unsettled bk (ef_escrow_id tx) "DRC escrow already settled" ;?
  let? found := load_drc_escrow_live bk (ef_escrow_id tx) in
  let? e := ok_or (InvalidTx "unknown DRC escrow") found in
  ensure (escrow_finish_allowed score (el_finish_after e) (el_cancel_after e))
    (InvalidTx "DRC escrow finish not yet allowed at this blue score") ;?
  let? recipient_policy := load_drc_account_policy ps (el_recipient e) in
  (if deposit_auth_required recipient_policy && negb (el_owner e =? el_recipient e) then
     let? preauthorized := load_drc_deposit_preauth ps (el_recipient e) (el_owner e) in
     ensure preauthorized (InvalidTx "DRC deposit authorization required by recipient policy")
   else Ok tt) ;?
  let? submitter := load_account s DRC (ef_submitter tx) in
  let? ctx := begin_op_sequence s (ef_submitter tx) submitter (ef_version tx) DRC_ESCROW_FINISH_TICKET_VERSION
    (ef_nonce tx) (ef_account_sequence tx) "bad DRC escrow-finish nonce" in
  ensure (ef_fee tx <=? balance submitter) (InvalidTx "insufficient DRC escrow-finish balance") ;?
  let? recipient := load_account s DRC (el_recipient e) in
  let? new_balance := ok_or (InvalidTx "DRC escrow finish recipient overflow")
    (checked_add u64_max (balance recipient) (el_amount e)) in
  let j := j ++ [(DRC, ef_submitter tx, submitter); (DRC, el_recipient e, recipient)] in
  let? (b, submitter) := finish_op_sequence b (ef_submitter tx)
    {| balance := balance submitter - ef_fee tx; nonce := nonce submitter |} ctx "DRC escrow-finish nonce overflow" in
  let? b := put_account_into b DRC (ef_submitter tx) submitter in
  let? b := put_account_into b DRC (el_recipient e) {| balance := new_balance; nonce := nonce recipient |} in
  let? ops := settle_escrow bk e EscrowFinished score (finish_tx_id tx) in
  Ok (receipt_of e EscrowFinished score (finish_tx_id tx), b, ops, j).

Definition apply_drc_escrow_cancel (s : StateStore) (ps : PolicyStore) (bk : EscrowBook)
  (tx : DrcEscrowCancelTx) (auth : Auth) (score : Z) (b : WriteBatch) (j : AccountJournal)
  : result StateError (DrcEscrowReceipt * WriteBatch * list EscrowOp * AccountJournal) :=
  lift_msg (validate_cancel tx) ;?
  verify_cancel s ps tx auth ;?
  ensure_unsettled bk (ex_escrow_id tx) "DRC escrow already settled" ;?
  let? found := load_drc_escrow_live bk (ex_escrow_id tx) in
  let? e := ok_or (InvalidTx "unknown DRC escrow") found in
  ensure (escrow_cancel_allowed score (el_cancel_after e))
    (InvalidTx "DRC escrow cancel not yet allowed at this blue score") ;?
  let? submitter := load_account s DRC (ex_submitter tx) in
  let? ctx := begin_op_sequence s (ex_submitter tx) submitter (ex_version tx) DRC_ESCROW_CANCEL_TICKET_VERSION
    (ex_nonce tx) (ex_account_sequence tx) "bad DRC escrow-cancel nonce" in
  ensure (ex_fee tx <=? balance submitter) (InvalidTx "insufficient DRC escrow-cancel balance") ;?
  let? owner := load_account s DRC (el_owner e) in
  let? new_balance := ok_or (InvalidTx "DRC escrow cancel owner balance overflow")
    (checked_add u64_max (balance owner) (el_amount e)) in
  let j := j ++ [(DRC, ex_submitter tx, submitter); (DRC, el_owner e, owner)] in
  let? (b, submitter) := finish_op_sequence b (ex_submitter tx)
    {| balance := balance submitter - ex_fee tx; nonce := nonce submitter |} ctx "DRC escrow-cancel nonce overflow" in
  let? b := put_account_into b DRC (ex_submitter tx) submitter in
  let? b := put_account_into b DRC (el_owner e) {| balance := new_balance; nonce := nonce owner |} in
  let? ops := settle_escrow bk e EscrowCancelled score (cancel_tx_id tx) in
  Ok (receipt_of e EscrowCancelled score (cancel_tx_id tx), b, ops, j).

(** The state the lanes read and write, and the three operations on it. *)
Record EscrowState := { es_base : StateStore; es_book : EscrowBook }.
Inductive EscrowTx :=
| CreateEscrow (tx : DrcEscrowCreateTx)
| FinishEscrow (tx : DrcEscrowFinishTx)
| CancelEscrow (tx : DrcEscrowCancelTx).
Definition apply_escrow_tx (ps : PolicyStore) (st : EscrowState) (tx : EscrowTx) (auth : Auth) (score : Z)
  : result StateError EscrowState :=
  let commit (b : WriteBatch) (ops : list EscrowOp) :=
    {| es_base := write_batch (es_base st) b; es_book := write_book (es_book st) ops |} in
  match tx with
  | CreateEscrow t =>
      let? (_, b, ops, _) := apply_drc_escrow_create (es_base st) ps (es_book st) t auth score [] [] in Ok (commit b ops)
  | FinishEscrow t =>
      let? (_, b, ops, _) := apply_drc_escrow_finish (es_base st) ps (es_book st) t auth score [] [] in Ok (commit b ops)
  | CancelEscrow t =>
      let? (_, b, ops, _) := apply_drc_escrow_cancel (es_base st) ps (es_book st) t auth score [] [] in Ok (commit b ops)
  end.
End escrow.
