(* ===== verification/EscrowProps.v ===== *)
(** * Escrows: conservation, settlement and progress *)

From stdpp Require Import base gmap list fin_maps strings relations.
From Stdlib Require Import ZArith Lia.
From S2P Require Import Prelude Ordering Sums Types Finality Store Supply Accounts Objects Policy Escrow.
Local Open Scope Z_scope.

(** ** Time windows *)

Lemma escrow_bounds_Ok f c :
  validate_escrow_time_bounds f c = Ok tt <->
  (f <> None \/ c <> None) /\ (forall x, f = Some x -> x <= u64_max - 1) /\
  (forall y, c = Some y -> y <= u64_max - 1) /\ (forall x y, f = Some x -> c = Some y -> x < y).
Proof.
  unfold validate_escrow_time_bounds, bound_fits, DRC_ESCROW_MAX_BLUE_SCORE_BOUND. split.
  - intros H. apply rbind_Ok in H as (_ & H1%ensure_Ok & H). apply rbind_Ok in H as (_ & H2%ensure_Ok & H).
    apply andb_true_iff in H2 as [H2 H3]. destruct f as [x|], c as [y|]; cbn in H1; try discriminate H1;
      rewrite ?Z.leb_le in *; try (apply ensure_Ok, Z.ltb_lt in H); repeat split; intros; simplify_eq; auto.
  - intros (Hs & Hf & Hc & Hlt). destruct f as [x|], c as [y|]; cbn [bool_decide decide_rel]; rewrite ?bool_decide_eq_false_2 by done;
      rewrite ?bool_decide_eq_true_2 by done; cbn [andb negb ensure rbind].
    + rewrite (proj2 (Z.leb_le _ _) (Hf _ eq_refl)), (proj2 (Z.leb_le _ _) (Hc _ eq_refl)).
      by rewrite (proj2 (Z.ltb_lt _ _) (Hlt _ _ eq_refl eq_refl)).
    + by rewrite (proj2 (Z.leb_le _ _) (Hf _ eq_refl)).
    + by rewrite (proj2 (Z.leb_le _ _) (Hc _ eq_refl)).
    + destruct Hs as [[]|[]]; done.
Qed.

(** The locked amount of a book. *)
Definition locked (bk : EscrowBook) : Z := msum (fun _ e => el_amount e) (live bk).

Section escrow_spec.
Context {Auth : Type}.
Variable verify_create : StateStore -> PolicyStore -> DrcEscrowCreateTx -> Auth -> result StateError unit.
Variable verify_finish : StateStore -> PolicyStore -> DrcEscrowFinishTx -> Auth -> result StateError unit.
Variable verify_cancel : StateStore -> PolicyStore -> DrcEscrowCancelTx -> Auth -> result StateError unit.
Variable escrow_id : DrcEscrowCreateTx -> Hash.
Variable finish_tx_id : DrcEscrowFinishTx -> Hash.
Variable cancel_tx_id : DrcEscrowCancelTx -> Hash.
Abbreviation create := (apply_drc_escrow_create verify_create escrow_id).
Abbreviation finish := (apply_drc_escrow_finish verify_finish finish_tx_id).
Abbreviation cancel := (apply_drc_escrow_cancel verify_cancel cancel_tx_id).
Abbreviation apply := (apply_escrow_tx verify_create verify_finish verify_cancel escrow_id finish_tx_id cancel_tx_id).
Implicit Types (s : StateStore) (bk : EscrowBook) (e : DrcEscrowLive) (st : EscrowState).

(** ** The invariant *)

Record escrow_ok (st : EscrowState) : Prop := {
  eo_accounts : accounts_ok (es_base st);
  eo_book : book_ok el_owner 32 (es_book st);
  eo_live id e : live (es_book st) !! id = Some e ->
    validate_escrow_live e = Ok tt /\ el_escrow_id e = id /\ in_u64 (el_amount e) /\ 0 < el_amount e;
}.
Definition tx_ints (tx : EscrowTx) : Prop :=
  match tx with
  | CreateEscrow t => 0 <= ec_amount t /\ 0 <= ec_fee t
  | FinishEscrow t => 0 <= ef_fee t
  | CancelEscrow t => 0 <= ex_fee t
  end.

(** ** What each accepted operation does *)

(** An object leaves the book against a payment of its amount. *)
Definition settles (s : StateStore) (bk : EscrowBook) (submitter payee : Address) (fee : Z) (e : DrcEscrowLive)
  (outcome : DrcEscrowOutcome) (score : Z) (tx : Hash) (b : WriteBatch) (ops : list EscrowOp) : Prop :=
  live bk !! el_escrow_id e = Some e /\
  fee <= balance (acct_of s DRC submitter) /\ balance (acct_of s DRC payee) + el_amount e <= u64_max /\
  exists sel tops n' iops,
    seq_effect s submitter (nonce (acct_of s DRC submitter)) sel tops n' /\
    b = tops ++ (put_drc <$> [(submitter, {| balance := balance (acct_of s DRC submitter) - fee; nonce := n' |});
                              (payee, {| balance := balance (acct_of s DRC payee) + el_amount e;
                                         nonce := nonce (acct_of s DRC payee) |})]) /\
    put_owner_index (el_owner e) (filter (fun x => x <> el_escrow_id e) (index_ids bk (el_owner e))) 32
      "DRC live escrow cap exceeded" = Ok iops /\
    ops = iops ++ [DeleteLive (el_escrow_id e); PutSettled (el_escrow_id e) tx;
                   PutReceipt (el_escrow_id e) (receipt_of e outcome score tx)].

Lemma load_live_ok bk id found :
  load_drc_escrow_live bk id = Ok found ->
  live bk !! id = found /\ (forall e, found = Some e -> el_escrow_id e = id).
Proof.
  unfold load_drc_escrow_live. destruct (live bk !! id) as [e|]; [|intros [= <-]; done].
  intros H. apply rbind_Ok in H as (_ & _ & H). apply rbind_Ok in H as (_ & Hi%ensure_Ok%Z.eqb_eq & [= <-]).
  split; [done|]. by intros ? [= <-].
Qed.
Lemma settle_ops bk e outcome score tx ops :
  book_ok el_owner 32 bk -> settle_escrow bk e outcome score tx = Ok ops ->
  exists iops, put_owner_index (el_owner e) (filter (fun x => x <> el_escrow_id e) (index_ids bk (el_owner e))) 32
      "DRC live escrow cap exceeded" = Ok iops /\
    ops = iops ++ [DeleteLive (el_escrow_id e); PutSettled (el_escrow_id e) tx;
                   PutReceipt (el_escrow_id e) (receipt_of e outcome score tx)].
Proof.
  intros Hok H. unfold settle_escrow in H. erewrite load_index_ok in H by done. cbn [rbind] in H.
  apply rbind_Ok in H as (iops & Hi & H). apply rbind_Ok in H as (_ & _ & H). apply Ok_inj in H.
  exists iops. split; [exact Hi|]. by subst.
Qed.

(** The common end of the two settlements. *)
Lemma settles_intro s bk submitter payee fee e outcome score tx version tv tn sel bad ctx ovf b1 acct b2 ops nb :
  book_ok el_owner 32 bk -> live bk !! el_escrow_id e = Some e ->
  begin_op_sequence s submitter (acct_of s DRC submitter) version tv tn sel bad = Ok ctx ->
  fee <= balance (acct_of s DRC submitter) ->
  checked_add u64_max (balance (acct_of s DRC payee)) (el_amount e) = Some nb ->
  finish_op_sequence [] submitter
    {| balance := balance (acct_of s DRC submitter) - fee; nonce := nonce (acct_of s DRC submitter) |} ctx ovf
    = Ok (b1, acct) ->
  b2 = (b1 ++ [PutAccount DRC submitter acct]) ++
    [PutAccount DRC payee {| balance := nb; nonce := nonce (acct_of s DRC payee) |}] ->
  settle_escrow bk e outcome score tx = Ok ops ->
  settles s bk submitter payee fee e outcome score tx b2 ops.
Proof.
  intros Hok Hl Hb Hf [-> Hle]%checked_add_Some Hfin -> Hs.
  destruct (op_sequence_run _ _ _ _ _ _ _ _ _ _ _ _ _ Hb Hfin) as (sel' & tops & n' & -> & -> & Heff).
  destruct (settle_ops _ _ _ _ _ _ Hok Hs) as (iops & Hi & ->).
  split; [done|]. split; [done|]. split; [done|]. exists sel', tops, n', iops. split; [done|]. split; [|done].
  by rewrite <- app_assoc.
Qed.

Lemma finish_inv s ps bk tx auth score r b ops j :
  book_ok el_owner 32 bk -> finish s ps bk tx auth score [] [] = Ok (r, b, ops, j) ->
  exists e, live bk !! ef_escrow_id tx = Some e /\ el_escrow_id e = ef_escrow_id tx /\
    settled bk !! ef_escrow_id tx = None /\
    escrow_finish_allowed score (el_finish_after e) (el_cancel_after e) = true /\
    settles s bk (ef_submitter tx) (el_recipient e) (ef_fee tx) e EscrowFinished score (finish_tx_id tx) b ops.
Proof.
  intros Hok H. unfold apply_drc_escrow_finish in H.
  apply rbind_Ok in H as (_ & _ & H). apply rbind_Ok in H as (_ & _ & H).
  apply rbind_Ok in H as (_ & Hu%ensure_Ok & H). apply negb_true_iff, bool_decide_eq_false_1, eq_None_not_Some in Hu.
  apply rbind_Ok in H as (found & [Hl Hid]%load_live_ok & H). apply rbind_Ok in H as (e & ->%ok_or_Ok & H).
  specialize (Hid e eq_refl). apply rbind_Ok in H as (_ & Ha%ensure_Ok & H).
  apply rbind_Ok in H as (pol & _ & H). apply rbind_Ok in H as (_ & _ & H).
  apply rbind_Ok in H as (sub & [_ ->]%load_account_Ok & H). apply rbind_Ok in H as (ctx & Hb & H).
  apply rbind_Ok in H as (_ & Hf%ensure_Ok%Z.leb_le & H).
  apply rbind_Ok in H as (rc & [_ ->]%load_account_Ok & H). apply rbind_Ok in H as (nb & Hnb%ok_or_Ok & H).
  apply rbind_Ok in H as ([b1 acct] & Hfin & H).
  apply rbind_Ok in H as (b2 & [_ ->]%put_account_into_Ok & H). apply rbind_Ok in H as (b3 & [_ ->]%put_account_into_Ok & H).
  apply rbind_Ok in H as (ops' & Hs & H). apply Ok_inj in H. apply pair_eq in H as [H _].
  apply pair_eq in H as [H <-]. apply pair_eq in H as [_ <-].
  exists e. repeat (split; [done|]). eapply settles_intro; eauto. by rewrite Hid.
Qed.
Lemma cancel_inv s ps bk tx auth score r b ops j :
  book_ok el_owner 32 bk -> cancel s ps bk tx auth score [] [] = Ok (r, b, ops, j) ->
  exists e, live bk !! ex_escrow_id tx = Some e /\ el_escrow_id e = ex_escrow_id tx /\
    settled bk !! ex_escrow_id tx = None /\ escrow_cancel_allowed score (el_cancel_after e) = true /\
    settles s bk (ex_submitter tx) (el_owner e) (ex_fee tx) e EscrowCancelled score (cancel_tx_id tx) b ops.
Proof.
  intros Hok H. unfold apply_drc_escrow_cancel in H.
  apply rbind_Ok in H as (_ & _ & H). apply rbind_Ok in H as (_ & _ & H).
  apply rbind_Ok in H as (_ & Hu%ensure_Ok & H). apply negb_true_iff, bool_decide_eq_false_1, eq_None_not_Some in Hu.
  apply rbind_Ok in H as (found & [Hl Hid]%load_live_ok & H). apply rbind_Ok in H as (e & ->%ok_or_Ok & H).
  specialize (Hid e eq_refl). apply rbind_Ok in H as (_ & Ha%ensure_Ok & H).
  apply rbind_Ok in H as (sub & [_ ->]%load_account_Ok & H). apply rbind_Ok in H as (ctx & Hb & H).
  apply rbind_Ok in H as (_ & Hf%ensure_Ok%Z.leb_le & H).
  apply rbind_Ok in H as (rc & [_ ->]%load_account_Ok & H). apply rbind_Ok in H as (nb & Hnb%ok_or_Ok & H).
  apply rbind_Ok in H as ([b1 acct] & Hfin & H).
  apply rbind_Ok in H as (b2 & [_ ->]%put_account_into_Ok & H). apply rbind_Ok in H as (b3 & [_ ->]%put_account_into_Ok & H).
  apply rbind_Ok in H as (ops' & Hs & H). apply Ok_inj in H. apply pair_eq in H as [H _].
  apply pair_eq in H as [H <-]. apply pair_eq in H as [_ <-].
  exists e. repeat (split; [done|]). eapply settles_intro; eauto. by rewrite Hid.
Qed.

(** The object an accepted creation adds. *)
Definition new_escrow (tx : DrcEscrowCreateTx) (score : Z) : DrcEscrowLive :=
  {| el_version := DRC_ESCROW_LIVE_STATE_VERSION; el_escrow_id := escrow_id tx; el_owner := ec_owner tx;
     el_recipient := ec_recipient tx; el_amount := ec_amount tx; el_destination_tag := ec_destination_tag tx;
     el_source_tag := ec_source_tag tx; el_invoice_id := ec_invoice_id tx; el_finish_after := ec_finish_after tx;
     el_cancel_after := ec_cancel_after tx; el_create_blue_score := score |}.
Lemma create_inv s ps bk tx auth score id b ops j :
  book_ok el_owner 32 bk -> create s ps bk tx auth score [] [] = Ok (id, b, ops, j) ->
  live bk !! escrow_id tx = None /\ settled bk !! escrow_id tx = None /\ ec_amount tx <> 0 /\
  ec_amount tx + ec_fee tx <= u64_max /\
  ec_amount tx + ec_fee tx <= balance (acct_of s DRC (ec_owner tx)) /\
  validate_escrow_live (new_escrow tx score) = Ok tt /\
  exists sel tops n' iops,
    seq_effect s (ec_owner tx) (nonce (acct_of s DRC (ec_owner tx))) sel tops n' /\
    b = tops ++ (put_drc <$> [(ec_owner tx, {| balance := balance (acct_of s DRC (ec_owner tx)) - (ec_amount tx + ec_fee tx);
                                               nonce := n' |})]) /\
    put_owner_index (ec_owner tx) (sort_by Z.compare (index_ids bk (ec_owner tx) ++ [escrow_id tx])) 32
      "DRC live escrow cap exceeded" = Ok iops /\
    ops = iops ++ [PutLive (escrow_id tx) (new_escrow tx score)].
Proof.
  intros Hok H. unfold apply_drc_escrow_create in H.
  apply rbind_Ok in H as ([] & Hv & H). apply rbind_Ok in H as (_ & _ & H).
  apply rbind_Ok in H as (_ & Hl%ensure_Ok & H). apply negb_true_iff, bool_decide_eq_false_1, eq_None_not_Some in Hl.
  apply rbind_Ok in H as (_ & Hu%ensure_Ok & H). apply negb_true_iff, bool_decide_eq_false_1, eq_None_not_Some in Hu.
  apply rbind_Ok in H as (pol & _ & H). apply rbind_Ok in H as (_ & _ & H).
  apply rbind_Ok in H as (ow & [_ ->]%load_account_Ok & H). apply rbind_Ok in H as (ctx & Hb & H).
  apply rbind_Ok in H as (db & [-> Hdb]%ok_or_Ok%checked_add_Some & H).
  apply rbind_Ok in H as (_ & Hf%ensure_Ok%Z.leb_le & H).
  erewrite load_index_ok in H by done. cbn [rbind] in H.
  apply rbind_Ok in H as (_ & _ & H). apply rbind_Ok in H as (_ & _ & H).
  apply rbind_Ok in H as ([b1 acct] & Hfin & H). apply rbind_Ok in H as (b2 & [_ ->]%put_account_into_Ok & H).
  apply rbind_Ok in H as (iops & Hi & H). cbv zeta in H. fold (new_escrow tx score) in H.
  apply rbind_Ok in H as ([] & Hlive & H). apply Ok_inj in H. apply pair_eq in H as [H _].
  apply pair_eq in H as [H <-]. apply pair_eq in H as [_ <-].
  destruct (op_sequence_run _ _ _ _ _ _ _ _ _ _ _ _ _ Hb Hfin) as (sel' & tops & n' & -> & -> & Heff).
  assert (ec_amount tx <> 0) as Ha.
  { unfold lift_msg, validate_create in Hv. intros Ha. rewrite Ha in Hv.
    destruct (_ || _); [|done]. cbn [ensure rbind] in Hv. destruct (negb (_ && _)); [|done]. cbn [ensure rbind] in Hv.
    by destruct (negb (_ || _)). }
  assert (validate_escrow_live (new_escrow tx score) = Ok tt) as Hlv.
  { unfold lift_msg in Hlive. by destruct (validate_escrow_live _) as [[]|]. }
  repeat (split; [done|]). exists sel', tops, n', iops. done.
Qed.

(** ** Conservation *)

(** The fee an accepted operation takes out of circulation: nothing when the
    submitter of a settlement is the account it pays. *)
Definition fee_charged (bk : EscrowBook) (tx : EscrowTx) : Z :=
  match tx with
  | CreateEscrow t => ec_fee t
  | FinishEscrow t =>
      match live bk !! ef_escrow_id t with
      | Some e => if ef_submitter t =? el_recipient e then 0 else ef_fee t
      | None => 0
      end
  | CancelEscrow t =>
      match live bk !! ex_escrow_id t with
      | Some e => if ex_submitter t =? el_owner e then 0 else ex_fee t
      | None => 0
      end
  end.

Lemma settles_effect s bk submitter payee fee e outcome score tx b ops :
  escrow_ok {| es_base := s; es_book := bk |} -> 0 <= fee ->
  settles s bk submitter payee fee e outcome score tx b ops ->
  escrow_ok {| es_base := write_batch s b; es_book := write_book bk ops |} /\
  liquid DRC (write_batch s b) = liquid DRC s + el_amount e - (if submitter =? payee then 0 else fee) /\
  live (write_book bk ops) = delete (el_escrow_id e) (live bk) /\
  settled (write_book bk ops) = <[el_escrow_id e := tx]> (settled bk) /\
  receipts (write_book bk ops) = <[el_escrow_id e := receipt_of e outcome score tx]> (receipts bk).
Proof.
  intros [Hacc Hbk Hlv] Hfee (Hl & Hf & Hp & sel & tops & n' & iops & Heff & -> & Hi & ->). cbn [es_base es_book] in *.
  destruct (book_settle_ok el_owner 32 bk _ e tx (receipt_of e outcome score tx) _ _ Hbk Hl Hi) as (Hok' & El & Es & Er & _).
  destruct (Hlv _ _ Hl) as (_ & _ & Hae & Hpos).
  destruct (ao_ints _ Hacc DRC submitter) as [Hbs Hns]. destruct (ao_ints _ Hacc DRC payee) as [Hbp Hnp].
  destruct (seq_effect_nonce _ _ _ _ _ _ Heff Hns) as [Hn1 Hn2].
  split; [split; cbn [es_base es_book]|].
  - eapply puts_accounts_ok; [done..|]. unfold in_u64 in *.
    repeat constructor; cbn [fst snd balance nonce]; lia.
  - exact Hok'.
  - intros id e'. rewrite El. intros [_ H]%lookup_delete_Some. by apply Hlv.
  - split; [|done]. rewrite (liquid_put_two s tops) by (by eapply seq_effect_frame).
    rewrite bool_decide_eq_true_2 by done. cbn [balance].
    destruct (Z.eqb_spec submitter payee) as [->|Hne]; [rewrite bool_decide_eq_true_2 by done|rewrite bool_decide_eq_false_2 by done]; lia.
Qed.

Lemma locked_delete bk bk' id e :
  live bk !! id = Some e -> live bk' = delete id (live bk) -> locked bk' = locked bk - el_amount e.
Proof. intros Hl E. unfold locked. rewrite E. rewrite (msum_delete_eq _ id e) by done. lia. Qed.

Lemma escrow_effect ps st tx auth score st' :
  escrow_ok st -> tx_ints tx -> apply ps st tx auth score = Ok st' ->
  escrow_ok st' /\
  liquid DRC (es_base st') + locked (es_book st') =
    liquid DRC (es_base st) + locked (es_book st) - fee_charged (es_book st) tx.
Proof.
  intros Hok Hi H. destruct st as [s bk]. pose proof Hok as [Hacc Hbk Hlv].
  destruct tx as [tx|tx|tx]; cbn [apply_escrow_tx es_base es_book tx_ints fee_charged] in *.
  - apply rbind_Ok in H as ([[[id b] ops] j] & H & H'). apply Ok_inj in H'. subst st'.
    apply create_inv in H as (Hl & Hs & Ha & Hmax & Hf & Hv & sel & tops & n' & iops & Heff & -> & Hp & ->); [|done].
    destruct (book_create_ok el_owner 32 bk _ (new_escrow tx score) _ _ Hbk Hl Hs Hp) as (Hok' & El & _ & _).
    destruct (ao_ints _ Hacc DRC (ec_owner tx)) as [Hb Hn].
    destruct (seq_effect_nonce _ _ _ _ _ _ Heff Hn) as [Hn1 Hn2]. unfold in_u64 in *.
    split; [split; cbn [es_base es_book]|cbn [es_base es_book]].
    + eapply puts_accounts_ok; [done..|]. unfold in_u64. repeat constructor; cbn [fst snd balance nonce]; lia.
    + exact Hok'.
    + intros id' e'. rewrite El. intros [[<- <-]|[_ H]]%lookup_insert_Some; [|by apply Hlv].
      unfold in_u64. cbn [new_escrow el_escrow_id el_amount]. repeat split; [done|lia..].
    + rewrite (liquid_put_one s tops) by (by eapply seq_effect_frame). rewrite bool_decide_eq_true_2 by done.
      unfold locked. rewrite El, msum_insert, Hl. cbn [contrib balance new_escrow el_amount]. lia.
  - apply rbind_Ok in H as ([[[r b] ops] j] & H & H'). apply Ok_inj in H'. subst st'.
    apply finish_inv in H as (e & Hl & Hid & _ & _ & Hst); [|done]. rewrite Hl.
    destruct (settles_effect _ _ _ _ _ _ _ _ _ _ _ Hok Hi Hst) as (Hok' & Hliq & El & _ & _). split; [done|].
    cbn [es_base es_book]. rewrite Hliq, (locked_delete bk _ _ e) by (rewrite ?Hid in *; done). lia.
  - apply rbind_Ok in H as ([[[r b] ops] j] & H & H'). apply Ok_inj in H'. subst st'.
    apply cancel_inv in H as (e & Hl & Hid & _ & _ & Hst); [|done]. rewrite Hl.
    destruct (settles_effect _ _ _ _ _ _ _ _ _ _ _ Hok Hi Hst) as (Hok' & Hliq & El & _ & _). split; [done|].
    cbn [es_base es_book]. rewrite Hliq, (locked_delete bk _ _ e) by (rewrite ?Hid in *; done). lia.
Qed.

Lemma escrow_keeps ps st tx auth score st' :
  escrow_ok st -> tx_ints tx -> apply ps st tx auth score = Ok st' -> escrow_ok st'.
Proof. intros. by eapply escrow_effect. Qed.

(** C26: escrows conserve DRC.  Every accepted operation keeps the invariant, and
    liquid balances plus locked escrows change by exactly the fee taken, which is
    the whole fee except when a settlement is submitted by the account it pays:
    then no fee is taken at all. *)
Theorem escrow_conservation ps st tx auth score st' :
  escrow_ok st -> tx_ints tx -> apply ps st tx auth score = Ok st' ->
  escrow_ok st' /\
  liquid DRC (es_base st') + locked (es_book st') =
    liquid DRC (es_base st) + locked (es_book st) - fee_charged (es_book st) tx.
Proof. apply escrow_effect. Qed.

(** ** Life of an escrow *)

(** Anyone, at any score and under any policies, submits an accepted operation. *)
Inductive escrow_step : relation EscrowState :=
| EscrowStep ps st tx auth score st' :
    tx_ints tx -> apply ps st tx auth score = Ok st' -> escrow_step st st'.
Definition escrow_born (id : Hash) (e : DrcEscrowLive) : Prop := el_escrow_id e = id /\ 0 < el_amount e.
(** A receipt records the object, and an outcome whose window was open. *)
Definition escrow_receipt (e : DrcEscrowLive) (tx : Hash) (r : DrcEscrowReceipt) : Prop :=
  exists outcome score, r = receipt_of e outcome score tx /\
    match outcome with
    | EscrowFinished => escrow_finish_allowed score (el_finish_after e) (el_cancel_after e)
    | EscrowCancelled => escrow_cancel_allowed score (el_cancel_after e)
    end = true.
Definition escrow_life := status_step escrow_born (fun _ _ => False) escrow_receipt.
Definition escrow_target (tx : EscrowTx) : Hash :=
  match tx with
  | CreateEscrow t => escrow_id t
  | FinishEscrow t => ef_escrow_id t
  | CancelEscrow t => ex_escrow_id t
  end.

Lemma escrow_moves ps st tx auth score st' :
  escrow_ok st -> tx_ints tx -> apply ps st tx auth score = Ok st' ->
  moves escrow_born (fun _ _ => False) escrow_receipt (es_book st) (es_book st') (escrow_target tx).
Proof.
  intros Hok Hi H. destruct st as [s bk]. pose proof Hok as [Hacc Hbk Hlv].
  destruct tx as [tx|tx|tx]; cbn [apply_escrow_tx es_base es_book tx_ints escrow_target] in *;
    apply rbind_Ok in H as ([[[r b] ops] j] & H & H'); apply Ok_inj in H'; subst st'.
  - apply create_inv in H as (Hl & Hs & Ha & Hmax & Hf & Hv & sel & tops & n' & iops & Heff & -> & Hp & ->); [|done].
    destruct (book_create_ok el_owner 32 bk _ (new_escrow tx score) _ _ Hbk Hl Hs Hp) as (_ & El & Es & Er & _).
    eapply create_moves; eauto. split; [done|]. cbn [new_escrow el_amount]. lia.
  - apply finish_inv in H as (e & Hl & Hid & _ & Hw & Hst); [|done].
    destruct (settles_effect _ _ _ _ _ _ _ _ _ _ _ Hok Hi Hst) as (_ & _ & El & Es & Er).
    rewrite Hid in *. eapply settle_moves; eauto. by exists EscrowFinished, score.
  - apply cancel_inv in H as (e & Hl & Hid & _ & Hw & Hst); [|done].
    destruct (settles_effect _ _ _ _ _ _ _ _ _ _ _ Hok Hi Hst) as (_ & _ & El & Es & Er).
    rewrite Hid in *. eapply settle_moves; eauto. by exists EscrowCancelled, score.
Qed.

Lemma escrow_ok_step st st' : escrow_ok st -> escrow_step st st' ->
  escrow_ok st' /\ exists id, moves escrow_born (fun _ _ => False) escrow_receipt (es_book st) (es_book st') id.
Proof.
  intros Hok Hs. destruct Hs as [ps st1 tx auth score st2 Hi H]. split; [|exists (escrow_target tx); by apply (escrow_moves ps st1 tx auth score)].
  by eapply escrow_keeps.
Qed.

(** C27: an escrow has one life.  Along any run of accepted operations each id
    follows absent, live, settled: the object does not change while it is live,
    and it is settled at most once, with a receipt of what it locked whose outcome
    the window of that score allows.  Once settled it stays so, and every further
    operation on its id is refused. *)
Theorem escrow_lifecycle st st' :
  escrow_ok st -> rtc escrow_step st st' ->
  escrow_ok st' /\
  (forall id, rtc (escrow_life id) (status (es_book st) id) (status (es_book st') id)) /\
  (forall id tx r, status (es_book st) id = Settled tx r ->
     status (es_book st') id = Settled tx r /\
     forall ps t auth score st2, tx_ints t -> escrow_target t = id -> apply ps st' t auth score <> Ok st2).
Proof.
  intros Hok Hr. destruct (run_refines _ _ _ _ es_book _ _ _ escrow_ok_step Hok Hr) as [Hok' Hlife].
  split; [done|]. split; [done|]. intros id tx r Hs. specialize (Hlife id). rewrite Hs in Hlife.
  apply settled_final in Hlife. split; [done|]. intros ps t auth score st2 Hi <- H.
  apply escrow_moves in H as [Hm _]; [|done..]. rewrite Hlife in Hm. inversion Hm.
Qed.

(** ** Progress *)

Lemma escrow_windows e score :
  (forall f, el_finish_after e = Some f -> f <= score) ->
  escrow_finish_allowed score (el_finish_after e) (el_cancel_after e) =
    negb (escrow_cancel_allowed score (el_cancel_after e)).
Proof.
  intros Hf. unfold escrow_finish_allowed, escrow_cancel_allowed.
  assert (match el_finish_after e with Some f => f <=? score | None => true end = true) as ->
    by (destruct (el_finish_after e); [apply Z.leb_le, Hf|]; done).
  destruct (el_cancel_after e); [|done]. cbn [andb]. by rewrite Z.ltb_antisym.
Qed.

Lemma load_live_total st id e :
  escrow_ok st -> live (es_book st) !! id = Some e -> load_drc_escrow_live (es_book st) id = Ok (Some e).
Proof.
  intros Hok Hl. destruct (eo_live _ Hok _ _ Hl) as (Hv & Hid & _). unfold load_drc_escrow_live.
  rewrite Hl. rewrite Hv. cbn [lift_storage rbind]. by rewrite Hid, Z.eqb_refl.
Qed.
Lemma settle_escrow_total bk e outcome score tx :
  book_ok el_owner 32 bk -> exists ops, settle_escrow bk e outcome score tx = Ok ops.
Proof.
  intros Hok. unfold settle_escrow. rewrite (load_index_ok _ _ _ _ _ Hok). cbn [rbind].
  destruct (settle_index_total el_owner 32 bk (el_owner e) (el_escrow_id e) "DRC live escrow cap exceeded" Hok) as [iops Hi].
  unfold DRC_MAX_LIVE_ESCROWS_PER_ACCOUNT. rewrite Hi. by eexists.
Qed.
(** A payee never overflows while all the DRC there is fits a [u64]. *)
Lemma payee_fits st id e payee :
  escrow_ok st -> live (es_book st) !! id = Some e -> liquid DRC (es_base st) + locked (es_book st) <= u64_max ->
  balance (acct_of (es_base st) DRC payee) + el_amount e <= u64_max.
Proof.
  intros Hok Hl Hcap. pose proof (acct_le_liquid _ DRC payee (eo_accounts _ Hok)).
  assert (el_amount e <= locked (es_book st)); [|lia].
  apply (msum_lookup_le (fun _ x => el_amount x) id); [|done].
  intros k v Hv. destruct (eo_live _ Hok _ _ Hv) as (_ & _ & _ & ?). lia.
Qed.

Lemma validate_settle_total s a fee version n sel id :
  submitter_ready s a fee version n sel -> id <> 0 -> validate_settle version 2 a id sel = Ok tt.
Proof.
  intros (Ha & _ & Hv & Ht & _) Hid. unfold validate_settle.
  rewrite (proj2 (Z.eqb_neq _ _) Ha), (proj2 (Z.eqb_neq _ _) Hid).
  destruct Hv as [-> | ->]; cbn; [|done]. destruct (has_ticket_selector sel); [|done]. by destruct Ht.
Qed.

Lemma live_unsettled st id e msg :
  escrow_ok st -> live (es_book st) !! id = Some e -> id <> 0 /\ ensure_unsettled (es_book st) id msg = Ok tt.
Proof.
  intros Hok Hl. destruct (eo_live _ Hok _ _ Hl) as (Hv & Hid & _ & _). split.
  - rewrite <- Hid. unfold validate_escrow_live in Hv. apply rbind_Ok in Hv as (_ & _ & Hv).
    by apply rbind_Ok in Hv as (_ & Hz%ensure_Ok%negb_true_iff%Z.eqb_neq & _).
  - unfold ensure_unsettled. rewrite (bk_unsettled _ _ _ (eo_book _ Hok)) by (by eexists).
    by rewrite bool_decide_eq_false_2 by (by intros [? ?]).
Qed.
Lemma cancel_total ps st id e score auth tx :
  escrow_ok st -> live (es_book st) !! id = Some e -> liquid DRC (es_base st) + locked (es_book st) <= u64_max ->
  escrow_cancel_allowed score (el_cancel_after e) = true ->
  ex_escrow_id tx = id -> verify_cancel (es_base st) ps tx auth = Ok tt ->
  submitter_ready (es_base st) (ex_submitter tx) (ex_fee tx) (ex_version tx) (ex_nonce tx) (ex_account_sequence tx) ->
  exists st', apply ps st (CancelEscrow tx) auth score = Ok st'.
Proof.
  intros Hok Hl Hcap Hc Et Hver Hsub.
  destruct (live_unsettled st id e "DRC escrow already settled" Hok Hl) as [Hid0 Hun].
  edestruct (op_sequence_total (es_base st) (ex_submitter tx)) as (ctx & [b1 acct] & Hb & Hfin);
    [apply Hok|apply Hsub|].
  destruct (settle_escrow_total (es_book st) e EscrowCancelled score (cancel_tx_id tx) (eo_book _ Hok)) as [ops Hs].
  cbn [apply_escrow_tx]. unfold apply_drc_escrow_cancel, validate_cancel, DRC_ESCROW_CANCEL_TICKET_VERSION.
  rewrite (validate_settle_total _ _ _ _ _ _ _ Hsub) by (by rewrite Et). cbn [lift_msg rbind].
  rewrite Hver, Et. cbn [rbind]. rewrite Hun. cbn [rbind].
  rewrite (load_live_total _ _ _ Hok Hl). cbn [rbind ok_or]. rewrite Hc. cbn [ensure rbind].
  rewrite load_account_acct by done. cbn [rbind]. rewrite Hb. cbn [rbind].
  rewrite (proj2 (Z.leb_le _ _) (proj1 (proj2 Hsub))). cbn [ensure rbind].
  rewrite load_account_acct by done. cbn [rbind]. unfold checked_add.
  rewrite (proj2 (Z.leb_le _ _) (payee_fits _ _ _ (el_owner e) Hok Hl Hcap)). cbn [ok_or rbind].
  rewrite Hfin. cbn [rbind]. rewrite put_drc_total. cbn [rbind]. rewrite put_drc_total. cbn [rbind].
  rewrite Hs. by eexists.
Qed.
Lemma finish_total ps st id e score auth tx :
  escrow_ok st -> policies_ok ps -> live (es_book st) !! id = Some e ->
  liquid DRC (es_base st) + locked (es_book st) <= u64_max ->
  escrow_finish_allowed score (el_finish_after e) (el_cancel_after e) = true ->
  deposit_authorized ps (el_recipient e) (el_owner e) = true ->
  ef_escrow_id tx = id -> verify_finish (es_base st) ps tx auth = Ok tt ->
  submitter_ready (es_base st) (ef_submitter tx) (ef_fee tx) (ef_version tx) (ef_nonce tx) (ef_account_sequence tx) ->
  exists st', apply ps st (FinishEscrow tx) auth score = Ok st'.
Proof.
  intros Hok Hps Hl Hcap Hw Hdep Et Hver Hsub.
  destruct (live_unsettled st id e "DRC escrow already settled" Hok Hl) as [Hid0 Hun].
  edestruct (op_sequence_total (es_base st) (ef_submitter tx)) as (ctx & [b1 acct] & Hb & Hfin);
    [apply Hok|apply Hsub|].
  destruct (settle_escrow_total (es_book st) e EscrowFinished score (finish_tx_id tx) (eo_book _ Hok)) as [ops Hs].
  cbn [apply_escrow_tx]. unfold apply_drc_escrow_finish, validate_finish, DRC_ESCROW_FINISH_TICKET_VERSION.
  rewrite (validate_settle_total _ _ _ _ _ _ _ Hsub) by (by rewrite Et). cbn [lift_msg rbind].
  rewrite Hver, Et. cbn [rbind]. rewrite Hun. cbn [rbind].
  rewrite (load_live_total _ _ _ Hok Hl). cbn [rbind ok_or]. rewrite Hw. cbn [ensure rbind].
  rewrite load_policy_ok by done. cbn [rbind]. rewrite (deposit_gate_open _ _ _ _ Hps Hdep). cbn [rbind].
  rewrite load_account_acct by done. cbn [rbind]. rewrite Hb. cbn [rbind].
  rewrite (proj2 (Z.leb_le _ _) (proj1 (proj2 Hsub))). cbn [ensure rbind].
  rewrite load_account_acct by done. cbn [rbind]. unfold checked_add.
  rewrite (proj2 (Z.leb_le _ _) (payee_fits _ _ _ (el_recipient e) Hok Hl Hcap)). cbn [ok_or rbind].
  rewrite Hfin. cbn [rbind]. rewrite put_drc_total. cbn [rbind]. rewrite put_drc_total. cbn [rbind].
  rewrite Hs. by eexists.
Qed.

(** an escrow never gets stuck.  From its [finish_after] on exactly one of
    the two settlements is open, and while the whole DRC supply fits a [u64] the
    open one is accepted from any account that can pay the fee and whose sequence
    and signature are in order; a finish also needs the recipient's deposit policy
    to admit the owner. *)
Theorem escrow_progress ps st id e score auth :
  escrow_ok st -> policies_ok ps -> live (es_book st) !! id = Some e ->
  liquid DRC (es_base st) + locked (es_book st) <= u64_max ->
  (forall f, el_finish_after e = Some f -> f <= score) ->
  if escrow_cancel_allowed score (el_cancel_after e) then
    forall tx, ex_escrow_id tx = id -> verify_cancel (es_base st) ps tx auth = Ok tt ->
      submitter_ready (es_base st) (ex_submitter tx) (ex_fee tx) (ex_version tx) (ex_nonce tx) (ex_account_sequence tx) ->
      exists st', apply ps st (CancelEscrow tx) auth score = Ok st'
  else
    forall tx, ef_escrow_id tx = id -> verify_finish (es_base st) ps tx auth = Ok tt ->
      submitter_ready (es_base st) (ef_submitter tx) (ef_fee tx) (ef_version tx) (ef_nonce tx) (ef_account_sequence tx) ->
      deposit_authorized ps (el_recipient e) (el_owner e) = true ->
      exists st', apply ps st (FinishEscrow tx) auth score = Ok st'.
Proof.
  intros Hok Hps Hl Hcap Hf. destruct (eo_live _ Hok _ _ Hl) as (Hv & _).
  pose proof (escrow_windows e score Hf) as Hw.
  destruct (escrow_cancel_allowed score (el_cancel_after e)) eqn:Hc.
  - intros tx Et Hver Hsub. by eapply cancel_total.
  - intros tx Et Hver Hsub Hdep. by eapply finish_total.
Qed.

(** ** Settling for oneself *)

(** settling an escrow for oneself is free.  When the submitter of a finish is
    the recipient, or of a cancellation the owner, the second account write replaces
    the first: the account gains the whole amount, pays no fee, and its nonce does
    not move, whatever fee the transaction names. *)
Theorem self_settlement_free ps st tx auth score st' e :
  escrow_ok st -> live (es_book st) !! escrow_target tx = Some e ->
  match tx with
  | CreateEscrow _ => False
  | FinishEscrow t => ef_submitter t = el_recipient e
  | CancelEscrow t => ex_submitter t = el_owner e
  end ->
  apply ps st tx auth score = Ok st' ->
  let a := match tx with FinishEscrow _ => el_recipient e | _ => el_owner e end in
  acct_of (es_base st') DRC a =
    {| balance := balance (acct_of (es_base st) DRC a) + el_amount e; nonce := nonce (acct_of (es_base st) DRC a) |}.
Proof.
  intros Hok Hl Hs H. destruct st as [s bk]. pose proof Hok as [Hacc Hbk Hlv].
  destruct tx as [tx|tx|tx]; [done|..]; cbn [apply_escrow_tx es_base es_book escrow_target] in *;
    apply rbind_Ok in H as ([[[r b] ops] j] & H & H'); apply Ok_inj in H'; subst st'.
  - apply finish_inv in H as (e' & Hl' & _ & _ & _ & Hst); [|done]. assert (e' = e) as -> by congruence.
    destruct Hst as (_ & _ & _ & sel & tops & n' & iops & Heff & -> & _). rewrite Hs. cbv zeta. cbn [es_base].
    rewrite acct_of_puts by (by eapply seq_effect_frame). cbn [foldl fst snd]. by rewrite !bool_decide_eq_true_2.
  - apply cancel_inv in H as (e' & Hl' & _ & _ & _ & Hst); [|done]. assert (e' = e) as -> by congruence.
    destruct Hst as (_ & _ & _ & sel & tops & n' & iops & Heff & -> & _). rewrite Hs. cbv zeta. cbn [es_base].
    rewrite acct_of_puts by (by eapply seq_effect_frame). cbn [foldl fst snd]. by rewrite !bool_decide_eq_true_2.
Qed.
End escrow_spec.

(** ** Witnesses *)

Definition accept_escrow {A : Type} (s : StateStore) (ps : PolicyStore) (tx : A) (auth : unit) : result StateError unit :=
  Ok tt.
Definition open_policies : PolicyStore := {| policies := ∅; preauths := ∅ |}.
Abbreviation demo_escrow_apply :=
  (apply_escrow_tx accept_escrow accept_escrow accept_escrow (fun _ => 77) (fun t => 200 + ef_nonce t)
     (fun t => 300 + ex_nonce t) open_policies).
Definition demo_escrow_state : EscrowState := {| es_base := demo_ledger; es_book := empty_book |}.
(** Account 1 locks 100 for account 2, spending its ticket. *)
Definition demo_create : DrcEscrowCreateTx :=
  {| ec_version := 2; ec_owner := 1; ec_recipient := 2; ec_amount := 100; ec_fee := 2; ec_destination_tag := None;
     ec_source_tag := None; ec_invoice_id := 0; ec_finish_after := Some 5; ec_cancel_after := Some 10; ec_nonce := 0;
     ec_account_sequence := Some {| kind := Ticket; value := 5 |}; ec_public_key := []; ec_signature := [] |}.
Definition demo_escrow_cancel : DrcEscrowCancelTx :=
  {| ex_version := 1; ex_submitter := 1; ex_escrow_id := 77; ex_fee := 3; ex_nonce := 7; ex_account_sequence := None;
     ex_public_key := []; ex_signature := [] |}.
Definition run_create : result StateError EscrowState := demo_escrow_apply demo_escrow_state (CreateEscrow demo_create) tt 3.
Definition demo_locked : EscrowState := match run_create with Ok st => st | Err _ => demo_escrow_state end.
Lemma demo_escrow_state_ok : escrow_ok demo_escrow_state.
Proof.
  split; cbn [demo_escrow_state es_base es_book]; [apply demo_ledger_ok|apply empty_book_ok|].
  intros id e H. cbn in H. by rewrite lookup_empty in H.
Qed.
Lemma demo_created : run_create = Ok demo_locked.
Proof.
  assert (match run_create with Ok _ => True | Err _ => False end) as Hrun by (vm_compute; exact I).
  unfold demo_locked. by destruct run_create.
Qed.
Lemma demo_locked_ok : escrow_ok demo_locked.
Proof.
  pose proof demo_created as H. unfold run_create in H. eapply escrow_keeps; [apply demo_escrow_state_ok| |exact H].
  cbn. lia.
Qed.
Lemma open_policies_ok : policies_ok open_policies.
Proof. split; cbn [open_policies policies preauths]; intros *; by rewrite lookup_empty. Qed.

Lemma escrow_conservation_witness :
  liquid DRC (es_base demo_locked) + locked (es_book demo_locked) =
    liquid DRC demo_ledger + locked (es_book demo_escrow_state) - 2.
Proof.
  pose proof demo_created as H. unfold run_create in H.
  eapply (escrow_conservation _ _ _ _ _ _ _ demo_escrow_state (CreateEscrow demo_create));
    [apply demo_escrow_state_ok|cbn; lia|exact H].
Defined.
Lemma escrow_lifecycle_witness :
  escrow_ok demo_locked /\ status (es_book demo_locked) 77 = Live (new_escrow (fun _ => 77) demo_create 3) /\
  rtc (escrow_life 77) Absent (status (es_book demo_locked) 77).
Proof.
  edestruct (escrow_lifecycle accept_escrow accept_escrow accept_escrow (fun _ => 77) (fun t => 200 + ef_nonce t)
     (fun t => 300 + ex_nonce t) demo_escrow_state demo_locked demo_escrow_state_ok) as (Hok & Hl & _).
  { eapply rtc_once, (EscrowStep _ _ _ _ _ _ open_policies _ (CreateEscrow demo_create) tt 3); [cbn; lia|apply demo_created]. }
  split; [exact Hok|]. split; [vm_compute; reflexivity|]. apply (Hl 77).
Defined.
Lemma escrow_progress_witness :
  exists st', demo_escrow_apply demo_locked (CancelEscrow demo_escrow_cancel) tt 12 = Ok st'.
Proof.
  refine (escrow_progress accept_escrow accept_escrow accept_escrow (fun _ => 77) (fun t => 200 + ef_nonce t)
     (fun t => 300 + ex_nonce t) open_policies demo_locked 77 (new_escrow (fun _ => 77) demo_create 3) 12 tt
     demo_locked_ok open_policies_ok _ _ _ demo_escrow_cancel _ _ _); [vm_compute; reflexivity|vm_compute; discriminate| |done..|].
  - intros f [= <-]. lia.
  - split; [done|]. split; [vm_compute; discriminate|]. split; [by left|]. split; [by intros [_ ?]|].
    cbn. split; [reflexivity|vm_compute; discriminate].
Defined.
Lemma self_settlement_free_witness :
  exists st', demo_escrow_apply demo_locked (CancelEscrow demo_escrow_cancel) tt 12 = Ok st' /\
    acct_of (es_base st') DRC 1 = {| balance := 998; nonce := 7 |} /\ ex_fee demo_escrow_cancel = 3.
Proof.
  set (run := demo_escrow_apply demo_locked (CancelEscrow demo_escrow_cancel) tt 12).
  assert (match run with Ok _ => True | Err _ => False end) as Hrun by (vm_compute; exact I).
  destruct run as [st'|] eqn:E; [|done]. exists st'. split; [done|]. split; [|done].
  etransitivity; [apply (self_settlement_free accept_escrow accept_escrow accept_escrow (fun _ => 77)
     (fun t => 200 + ef_nonce t) (fun t => 300 + ex_nonce t) open_policies demo_locked
     (CancelEscrow demo_escrow_cancel) tt 12 st' (new_escrow (fun _ => 77) demo_create 3) demo_locked_ok);
     [vm_compute; reflexivity|reflexivity|exact E]|].
  vm_compute. reflexivity.
Defined.
