(* ===== verification/Check.v ===== *)
(** * DRC checks ([types/src/drc_check.rs], [state-machine/src/drc_check.rs])

    An owner authorizes a destination to draw an exact amount; nothing is
    locked when the check is written.  Before it expires the destination may
    cash it, drawing on the owner's balance of that moment, and the owner or
    the destination may cancel it; from its expiration on anyone may cancel it.
    The multisign bundle of the envelopes, which their encoding leaves out, is
    read by authorization only and is part of [Auth]. *)

From stdpp Require Import base gmap list fin_maps strings.
From Stdlib Require Import ZArith Lia.
From S2P Require Import Prelude Ordering Sums Types Finality Store Supply Accounts Objects Policy.
Local Open Scope Z_scope.

Definition DRC_MAX_LIVE_CHECKS_PER_ACCOUNT : nat := 32.
Definition DRC_CHECK_TX_VERSION : Z := 1.
Definition DRC_CHECK_TICKET_VERSION : Z := 2.
Definition DRC_CHECK_LIVE_STATE_VERSION : Z := 1.
Definition DRC_CHECK_RECEIPT_VERSION : Z := 1.
Definition DRC_CHECK_MAX_BLUE_SCORE_BOUND : Z := u64_max - 1.

Inductive DrcCheckOutcome := Cashed | CheckCancelled.

Record DrcCheckCreateTx := {
  cc_version : Z;
  cc_owner : Address;
  cc_destination : Address;
  cc_amount : Z;
  cc_fee : Z;
  cc_destination_tag : option Z;
  cc_source_tag : option Z;
  cc_invoice_id : Hash;
  cc_expires_after : option Z;
  cc_nonce : Z;
  cc_account_sequence : option DrcAccountSequenceSelector;
  cc_public_key : list Z;
  cc_signature : list Z;
}.
Record DrcCheckCashTx := {
  ch_version : Z;
  ch_submitter : Address;
  ch_check_id : Hash;
  ch_fee : Z;
  ch_nonce : Z;
  ch_account_sequence : option DrcAccountSequenceSelector;
  ch_public_key : list Z;
  ch_signature : list Z;
}.
Record DrcCheckCancelTx := {
  cx_version : Z;
  cx_submitter : Address;
  cx_check_id : Hash;
  cx_fee : Z;
  cx_nonce : Z;
  cx_account_sequence : option DrcAccountSequenceSelector;
  cx_public_key : list Z;
  cx_signature : list Z;
}.
Record DrcCheckLive := {
  cl_version : Z;
  cl_check_id : Hash;
  cl_owner : Address;
  cl_destination : Address;
  cl_amount : Z;
  cl_destination_tag : option Z;
  cl_source_tag : option Z;
  cl_invoice_id : Hash;
  cl_expires_after : option Z;
  cl_create_blue_score : Z;
}.
Record DrcCheckReceipt := {
  cr_version : Z;
  cr_check_id : Hash;
  cr_outcome : DrcCheckOutcome;
  cr_owner : Address;
  cr_destination : Address;
  cr_amount : Z;
  cr_destination_tag : option Z;
  cr_source_tag : option Z;
  cr_invoice_id : Hash;
  cr_settlement_blue_score : Z;
  cr_settlement_tx_id : Hash;
}.

(** ** Structure *)

Definition validate_check_expiration_bound (expires_after : option Z) : result string unit :=
  match expires_after with
  | Some b => ensure (b <=? DRC_CHECK_MAX_BLUE_SCORE_BOUND) "blue score bound overflow"%string
  | None => Ok tt
  end.
Definition check_expired (score : Z) (expires_after : option Z) : bool :=
  match expires_after with Some e => e <=? score | None => false end.
Definition check_cash_allowed (score : Z) (expires_after : option Z) : bool := negb (check_expired score expires_after).
Definition check_cancel_submitter_allowed (score : Z) (expires_after : option Z)
  (submitter owner destination : Address) : bool :=
  if check_expired score expires_after then true else (submitter =? owner) || (submitter =? destination).

(** Versions and selectors: the same test opens the three envelopes. *)
Definition validate_check_envelope (version : Z) (sel : option DrcAccountSequenceSelector) : result string unit :=
  ensure ((version =? DRC_CHECK_TX_VERSION) || (version =? DRC_CHECK_TICKET_VERSION)) "unsupported version"%string ;?
  ensure (negb ((version <? DRC_CHECK_TICKET_VERSION) && has_ticket_selector sel))
    "ticket selector on legacy tx version"%string.
Definition validate_check_create (tx : DrcCheckCreateTx) : result string unit :=
  validate_check_envelope (cc_version tx) (cc_account_sequence tx) ;?
  ensure (negb ((cc_owner tx =? 0) || (cc_destination tx =? 0))) "zero address or id"%string ;?
  ensure (negb (cc_amount tx =? 0)) "zero amount"%string ;?
  ensure (cc_invoice_id tx =? 0) "non-zero invoice_id not supported"%string ;?
  validate_check_expiration_bound (cc_expires_after tx).
Definition validate_check_cash (tx : DrcCheckCashTx) : result string unit :=
  validate_check_envelope (ch_version tx) (ch_account_sequence tx) ;?
  ensure (negb ((ch_submitter tx =? 0) || (ch_check_id tx =? 0))) "zero address or id"%string.
Definition validate_check_cancel (tx : DrcCheckCancelTx) : result string unit :=
  validate_check_envelope (cx_version tx) (cx_account_sequence tx) ;?
  ensure (negb ((cx_submitter tx =? 0) || (cx_check_id tx =? 0))) "zero address or id"%string.
Definition validate_check_live (c : DrcCheckLive) : result string unit :=
  ensure (cl_version c =? DRC_CHECK_LIVE_STATE_VERSION) "unsupported live state version"%string ;?
  ensure (negb (cl_check_id c =? 0)) "zero address or id"%string ;?
  validate_check_expiration_bound (cl_expires_after c).
Definition validate_check_receipt (r : DrcCheckReceipt) : result string unit :=
  ensure (cr_version r =? DRC_CHECK_RECEIPT_VERSION) "unsupported receipt version"%string.

(** The sequence the signature binds ([signing_bytes_bound]): the selector from the
    ticket version on, the nonce before; [None] where the code panics, on a missing
    selector. *)
Definition check_signing_sequence (version nonce_ : Z) (sel : option DrcAccountSequenceSelector)
  : option (Z + DrcAccountSequenceSelector) :=
  if DRC_CHECK_TICKET_VERSION <=? version then inr <$> sel else Some (inl nonce_).

(** ** State *)

Abbreviation CheckBook := (Book DrcCheckLive DrcCheckReceipt Empty_set).
Abbreviation CheckOp := (BookOp DrcCheckLive DrcCheckReceipt Empty_set).

Definition load_drc_check_live (bk : CheckBook) (id : Hash) : result StateError (option DrcCheckLive) :=
  match live bk !! id with
  | None => Ok None
  | Some c =>
      lift_storage (validate_check_live c) ;?
      ensure (cl_check_id c =? id) (Storage "DRC check live id does not match index key") ;?
      Ok (Some c)
  end.
Definition check_receipt_of (c : DrcCheckLive) (outcome : DrcCheckOutcome) (score : Z) (tx : Hash) : DrcCheckReceipt :=
  {| cr_version := DRC_CHECK_RECEIPT_VERSION; cr_check_id := cl_check_id c; cr_outcome := outcome;
     cr_owner := cl_owner c; cr_destination := cl_destination c; cr_amount := cl_amount c;
     cr_destination_tag := cl_destination_tag c; cr_source_tag := cl_source_tag c; cr_invoice_id := cl_invoice_id c;
     cr_settlement_blue_score := score; cr_settlement_tx_id := tx |}.
Definition settle_check (bk : CheckBook) (c : DrcCheckLive) (outcome : DrcCheckOutcome) (score : Z) (tx : Hash)
  : result StateError (list CheckOp) :=
  let? live_ids := load_owner_index bk (cl_owner c) "invalid DRC check owner index" in
  let live_ids := filter (fun id => id <> cl_check_id c) live_ids in
  let? iops := put_owner_index (cl_owner c) live_ids DRC_MAX_LIVE_CHECKS_PER_ACCOUNT "DRC live check cap exceeded" in
  let receipt := check_receipt_of c outcome score tx in
  lift_storage (validate_check_receipt receipt) ;?
  Ok (iops ++ [DeleteLive (cl_check_id c); PutSettled (cl_check_id c) tx; PutReceipt (cl_check_id c) receipt]).

Section check.
Context {Auth : Type}.
(** [drc_account_auth.rs] and the hashes of the signed envelopes. *)
Variable verify_create : StateStore -> PolicyStore -> DrcCheckCreateTx -> Auth -> result StateError unit.
Variable verify_cash : StateStore -> PolicyStore -> DrcCheckCashTx -> Auth -> result StateError unit.
Variable verify_cancel : StateStore -> PolicyStore -> DrcCheckCancelTx -> Auth -> result StateError unit.
Variable check_id : DrcCheckCreateTx -> Hash.
Variable cash_tx_id : DrcCheckCashTx -> Hash.
Variable cancel_tx_id : DrcCheckCancelTx -> Hash.

Definition apply_drc_check_create (s : StateStore) (ps : PolicyStore) (bk : CheckBook)
  (tx : DrcCheckCreateTx) (auth : Auth) (score : Z) (b : WriteBatch) (j : AccountJournal)
  : result StateError (Hash * WriteBatch * list CheckOp * AccountJournal) :=
  lift_msg (validate_check_create tx) ;?
  verify_create s ps tx auth ;?
  let id := check_id tx in
  ensure (negb (bool_decide (is_Some (live bk !! id)))) (InvalidTx "duplicate DRC check id") ;?
  ensure_unsettled bk id "DRC check already settled" ;?
  let? destination_policy := load_drc_account_policy ps (cc_destination tx) in
  ensure (negb (require_destination_tag destination_policy && bool_decide (cc_destination_tag tx = None)))
    (InvalidTx "DRC destination tag required by destination policy") ;?
  let? owner := load_account s DRC (cc_owner tx) in
  let? ctx := begin_op_sequence s (cc_owner tx) owner (cc_version tx) DRC_CHECK_TICKET_VERSION
    (cc_nonce tx) (cc_account_sequence tx) "bad DRC check-create nonce" in
  ensure (cc_fee tx <=? balance owner) (InvalidTx "insufficient DRC check-create balance for fee") ;?
  let? live_ids := load_owner_index bk (cc_owner tx) "invalid DRC check owner index" in
  ensure (Nat.ltb (length live_ids) DRC_MAX_LIVE_CHECKS_PER_ACCOUNT) (InvalidTx "DRC live check cap exceeded") ;?
  ensure (negb (bool_decide (id ∈ live_ids))) (InvalidTx "duplicate DRC check id") ;?
  let j := j ++ [(DRC, cc_owner tx, owner)] in
  let? (b, owner) := finish_op_sequence b (cc_owner tx)
    {| balance := balance owner - cc_fee tx; nonce := nonce owner |} ctx "DRC check-create nonce overflow" in
  let? b := put_account_into b DRC (cc_owner tx) owner in
  let live_ids := sort_by Z.compare (live_ids ++ [id]) in
  let? iops := put_owner_index (cc_owner tx) live_ids DRC_MAX_LIVE_CHECKS_PER_ACCOUNT "DRC live check cap exceeded" in
  let c := {| cl_version := DRC_CHECK_LIVE_STATE_VERSION; cl_check_id := id; cl_owner := cc_owner tx;
              cl_destination := cc_destination tx; cl_amount := cc_amount tx;
              cl_destination_tag := cc_destination_tag tx; cl_source_tag := cc_source_tag tx;
              cl_invoice_id := cc_invoice_id tx; cl_expires_after := cc_expires_after tx;
              cl_create_blue_score := score |} in
  lift_storage (validate_check_live c) ;?
  Ok (id, b, iops ++ [PutLive id c], j).

Definition apply_drc_check_cash (s : StateStore) (ps : PolicyStore) (bk : CheckBook)
  (tx : DrcCheckCashTx) (auth : Auth) (score : Z) (b : WriteBatch) (j : AccountJournal)
  : result StateError (DrcCheckReceipt * WriteBatch * list CheckOp * AccountJournal) :=
  lift_msg (validate_check_cash tx) ;?
  verify_cash s ps tx auth ;?
  ensure_unsettled bk (ch_check_id tx) "DRC check already settled" ;?
  let? found := load_drc_check_live bk (ch_check_id tx) in
  let? c := ok_or (InvalidTx "unknown DRC check") found in
  ensure (ch_submitter tx =? cl_destination c) (InvalidTx "DRC check cash submitter must be destination") ;?
  ensure (check_cash_allowed score (cl_expires_after c)) (InvalidTx "DRC check expired at this blue score") ;?
  let? submitter := load_account s DRC (ch_submitter tx) in
  let? ctx := begin_op_sequence s (ch_submitter tx) submitter (ch_version tx) DRC_CHECK_TICKET_VERSION
    (ch_nonce tx) (ch_account_sequence tx) "bad DRC check-cash nonce" in
  ensure (ch_fee tx <=? balance submitter) (InvalidTx "insufficient DRC check-cash submitter balance for fee") ;?
  let? owner := load_account s DRC (cl_owner c) in
  ensure (cl_amount c <=? balance owner) (InvalidTx "insufficient DRC check owner balance for cash") ;?
  let j := j ++ [(DRC, ch_submitter tx, submitter); (DRC, cl_owner c, owner)] in
  let? credited := ok_or (InvalidTx "DRC check cash destination overflow")
    (checked_add u64_max (balance submitter - ch_fee tx) (cl_amount c)) in
  let? (b, submitter) := finish_op_sequence b (ch_submitter tx)
    {| balance := credited; nonce := nonce submitter |} ctx "DRC check-cash nonce overflow" in
  let? b := put_account_into b DRC (ch_submitter tx) submitter in
  let? b := put_account_into b DRC (cl_owner c) {| balance := balance owner - cl_amount c; nonce := nonce owner |} in
  let? ops := settle_check bk c Cashed score (cash_tx_id tx) in
  Ok (check_receipt_of c Cashed score (cash_tx_id tx), b, ops, j).

Definition apply_drc_check_cancel (s : StateStore) (ps : PolicyStore) (bk : CheckBook)
  (tx : DrcCheckCancelTx) (auth : Auth) (score : Z) (b : WriteBatch) (j : AccountJournal)
  : result StateError (DrcCheckReceipt * WriteBatch * list CheckOp * AccountJournal) :=
  lift_msg (validate_check_cancel tx) ;?
  verify_cancel s ps tx auth ;?
  ensure_unsettled bk (cx_check_id tx) "DRC check already settled" ;?
  let? found := load_drc_check_live bk (cx_check_id tx) in
  let? c := ok_or (InvalidTx "unknown DRC check") found in
  ensure (check_cancel_submitter_allowed score (cl_expires_after c) (cx_submitter tx) (cl_owner c) (cl_destination c))
    (InvalidTx "DRC check cancel submitter not authorized") ;?
  let? submitter := load_account s DRC (cx_submitter tx) in
  let? ctx := begin_op_sequence s (cx_submitter tx) submitter (cx_version tx) DRC_CHECK_TICKET_VERSION
    (cx_nonce tx) (cx_account_sequence tx) "bad DRC check-cancel nonce" in
  ensure (cx_fee tx <=? balance submitter) (InvalidTx "insufficient DRC check-cancel balance") ;?
  let j := j ++ [(DRC, cx_submitter tx, submitter)] in
  let? (b, submitter) := finish_op_sequence b (cx_submitter tx)
    {| balance := balance submitter - cx_fee tx; nonce := nonce submitter |} ctx "DRC check-cancel nonce overflow" in
  let? b := put_account_into b DRC (cx_submitter tx) submitter in
  let? ops := settle_check bk c CheckCancelled score (cancel_tx_id tx) in
  Ok (check_receipt_of c CheckCancelled score (cancel_tx_id tx), b, ops, j).

Record CheckState := { ck_base : StateStore; ck_book : CheckBook }.
Inductive CheckTx :=
| CreateCheck (tx : DrcCheckCreateTx)
| CashCheck (tx : DrcCheckCashTx)
| CancelCheck (tx : DrcCheckCancelTx).
Definition apply_check_tx (ps : PolicyStore) (st : CheckState) (tx : CheckTx) (auth : Auth) (score : Z)
  : result StateError CheckState :=
  let commit (b : WriteBatch) (ops : list CheckOp) :=
    {| ck_base := write_batch (ck_base st) b; ck_book := write_book (ck_book st) ops |} in
  match tx with
  | CreateCheck t =>
      let? (_, b, ops, _) := apply_drc_check_create (ck_base st) ps (ck_book st) t auth score [] [] in Ok (commit b ops)
  | CashCheck t =>
      let? (_, b, ops, _) := apply_drc_check_cash (ck_base st) ps (ck_book st) t auth score [] [] in Ok (commit b ops)
  | CancelCheck t =>
      let? (_, b, ops, _) := apply_drc_check_cancel (ck_base st) ps (ck_book st) t auth score [] [] in Ok (commit b ops)
  end.

(** [lookup_drc_check_point]: a settled check reads as unknown. *)
Definition lookup_drc_check_point (bk : CheckBook) (id : Hash) : result StateError string :=
  ensure (negb (id =? 0)) (InvalidTx "zero DRC check id") ;?
  let? found := load_drc_check_live bk id in
  Ok (match found with Some _ => "live" | None => "unknown" end%string).
End check.
