(* ===== verification/CheckProps.v ===== *)
(** * Checks: who pays, one life, and the check written to oneself *)

From stdpp Require Import base gmap list fin_maps strings relations.
From Stdlib Require Import ZArith Lia.
From S2P Require Import Prelude Ordering Sums Types Finality Store Supply Accounts Objects Policy Check.
Local Open Scope Z_scope.

Section check_spec.
Context {Auth : Type}.
Variable verify_create : StateStore -> PolicyStore -> DrcCheckCreateTx -> Auth -> result StateError unit.
Variable verify_cash : StateStore -> PolicyStore -> DrcCheckCashTx -> Auth -> result StateError unit.
Variable verify_cancel : StateStore -> PolicyStore -> DrcCheckCancelTx -> Auth -> result StateError unit.
Variable check_id : DrcCheckCreateTx -> Hash.
Variable cash_tx_id : DrcCheckCashTx -> Hash.
Variable cancel_tx_id : DrcCheckCancelTx -> Hash.
Abbreviation create := (apply_drc_check_create verify_create check_id).
Abbreviation cash := (apply_drc_check_cash verify_cash cash_tx_id).
Abbreviation cancel := (apply_drc_check_cancel verify_cancel cancel_tx_id).
Abbreviation run := (apply_check_tx verify_create verify_cash verify_cancel check_id cash_tx_id cancel_tx_id).
Implicit Types (s : StateStore) (bk : CheckBook) (c : DrcCheckLive) (st : CheckState).

(** ** The invariant *)

Record check_ok (st : CheckState) : Prop := {
  co_accounts : accounts_ok (ck_base st);
  co_book : book_ok cl_owner 32 (ck_book st);
  co_live id c : live (ck_book st) !! id = Some c ->
    validate_check_live c = Ok tt /\ cl_check_id c = id /\ 0 < cl_amount c;
}.
Definition check_ints (tx : CheckTx) : Prop :=
  match tx with
  | CreateCheck t => 0 <= cc_amount t /\ 0 <= cc_fee t
  | CashCheck t => 0 <= ch_fee t
  | CancelCheck t => 0 <= cx_fee t
  end.

(** ** What each accepted operation does *)

Definition leaves bk c (outcome : DrcCheckOutcome) (score : Z) (tx : Hash) (ops : list CheckOp) : Prop :=
  live bk !! cl_check_id c = Some c /\
  exists iops,
    put_owner_index (cl_owner c) (filter (fun x => x <> cl_check_id c) (index_ids bk (cl_owner c))) 32
      "DRC live check cap exceeded" = Ok iops /\
    ops = iops ++ [DeleteLive (cl_check_id c); PutSettled (cl_check_id c) tx;
                   PutReceipt (cl_check_id c) (check_receipt_of c outcome score tx)].
Lemma load_check_ok bk id found :
  load_drc_check_live bk id = Ok found ->
  live bk !! id = found /\ (forall c, found = Some c -> cl_check_id c = id).
Proof.
  unfold load_drc_check_live. destruct (live bk !! id) as [c|]; [|intros [= <-]; done].
  intros H. apply rbind_Ok in H as (_ & _ & H). apply rbind_Ok in H as (_ & Hi%ensure_Ok%Z.eqb_eq & [= <-]).
  split; [done|]. by intros ? [= <-].
Qed.
Lemma settle_check_ops bk c outcome score tx ops :
  book_ok cl_owner 32 bk -> live bk !! cl_check_id c = Some c -> settle_check bk c outcome score tx = Ok ops ->
  leaves bk c outcome score tx ops.
Proof.
  intros Hok Hl H. split; [done|]. unfold settle_check in H. erewrite load_index_ok in H by done. cbn [rbind] in H.
  apply rbind_Ok in H as (iops & Hi & H). apply rbind_Ok in H as (_ & _ & H). apply Ok_inj in H.
  exists iops. split; [exact Hi|]. by subst.
Qed.
Lemma cash_inv s ps bk tx auth score r b ops j :
  book_ok cl_owner 32 bk -> cash s ps bk tx auth score [] [] = Ok (r, b, ops, j) ->
  exists c, live bk !! ch_check_id tx = Some c /\ cl_check_id c = ch_check_id tx /\
    ch_submitter tx = cl_destination c /\ check_cash_allowed score (cl_expires_after c) = true /\
    let d := acct_of s DRC (cl_destination c) in let o := acct_of s DRC (cl_owner c) in
    ch_fee tx <= balance d /\ cl_amount c <= balance o /\ balance d - ch_fee tx + cl_amount c <= u64_max /\
    charges s (cl_destination c)
      (fun n' => [(cl_destination c, {| balance := balance d - ch_fee tx + cl_amount c; nonce := n' |});
                  (cl_owner c, {| balance := balance o - cl_amount c; nonce := nonce o |})]) b /\
    leaves bk c Cashed score (cash_tx_id tx) ops.
Proof.
  intros Hok H. unfold apply_drc_check_cash in H.
  apply rbind_Ok in H as (_ & _ & H). apply rbind_Ok in H as (_ & _ & H). apply rbind_Ok in H as (_ & _ & H).
  apply rbind_Ok in H as (found & [Hl Hid]%load_check_ok & H). apply rbind_Ok in H as (c & ->%ok_or_Ok & H).
  specialize (Hid c eq_refl). apply rbind_Ok in H as (_ & Hd%ensure_Ok%Z.eqb_eq & H).
  apply rbind_Ok in H as (_ & Ha%ensure_Ok & H). rewrite Hd in H.
  apply rbind_Ok in H as (sub & [_ ->]%load_account_Ok & H). apply rbind_Ok in H as (ctx & Hb & H).
  apply rbind_Ok in H as (_ & Hf%ensure_Ok%Z.leb_le & H). apply rbind_Ok in H as (ow & [_ ->]%load_account_Ok & H).
  apply rbind_Ok in H as (_ & Hamt%ensure_Ok%Z.leb_le & H).
  apply rbind_Ok in H as (nb & [-> Hnb]%ok_or_Ok%checked_add_Some & H). apply rbind_Ok in H as ([b1 acct] & Hfin & H).
  apply rbind_Ok in H as (b2 & [_ ->]%put_account_into_Ok & H). apply rbind_Ok in H as (b3 & [_ ->]%put_account_into_Ok & H).
  apply rbind_Ok in H as (ops' & Hs & H). apply Ok_inj in H. apply pair_eq in H as [H _].
  apply pair_eq in H as [H <-]. apply pair_eq in H as [_ <-].
  destruct (op_sequence_run _ _ _ _ _ _ _ _ _ _ _ _ _ Hb Hfin) as (sel & tops & n' & -> & -> & Heff).
  exists c. cbv zeta. repeat (split; [done|]). split.
  - exists sel, tops, n'. split; [done|]. by rewrite <- app_assoc.
  - apply settle_check_ops; [done| |done]. by rewrite Hid.
Qed.
Lemma check_cancel_inv s ps bk tx auth score r b ops j :
  book_ok cl_owner 32 bk -> cancel s ps bk tx auth score [] [] = Ok (r, b, ops, j) ->
  exists c, live bk !! cx_check_id tx = Some c /\ cl_check_id c = cx_check_id tx /\
    check_cancel_submitter_allowed score (cl_expires_after c) (cx_submitter tx) (cl_owner c) (cl_destination c) = true /\
    let a := acct_of s DRC (cx_submitter tx) in
    cx_fee tx <= balance a /\
    charges s (cx_submitter tx) (fun n' => [(cx_submitter tx, {| balance := balance a - cx_fee tx; nonce := n' |})]) b /\
    leaves bk c CheckCancelled score (cancel_tx_id tx) ops.
Proof.
  intros Hok H. unfold apply_drc_check_cancel in H.
  apply rbind_Ok in H as (_ & _ & H). apply rbind_Ok in H as (_ & _ & H). apply rbind_Ok in H as (_ & _ & H).
  apply rbind_Ok in H as (found & [Hl Hid]%load_check_ok & H). apply rbind_Ok in H as (c & ->%ok_or_Ok & H).
  specialize (Hid c eq_refl). apply rbind_Ok in H as (_ & Ha%ensure_Ok & H).
  apply rbind_Ok in H as (sub & [_ ->]%load_account_Ok & H). apply rbind_Ok in H as (ctx & Hb & H).
  apply rbind_Ok in H as (_ & Hf%ensure_Ok%Z.leb_le & H). apply rbind_Ok in H as ([b1 acct] & Hfin & H).
  apply rbind_Ok in H as (b2 & [_ ->]%put_account_into_Ok & H).
  apply rbind_Ok in H as (ops' & Hs & H). apply Ok_inj in H. apply pair_eq in H as [H _].
  apply pair_eq in H as [H <-]. apply pair_eq in H as [_ <-].
  destruct (op_sequence_run _ _ _ _ _ _ _ _ _ _ _ _ _ Hb Hfin) as (sel & tops & n' & -> & -> & Heff).
  exists c. cbv zeta. repeat (split; [done|]). split; [by exists sel, tops, n'|].
  apply settle_check_ops; [done| |done]. by rewrite Hid.
Qed.

Definition new_check (tx : DrcCheckCreateTx) (score : Z) : DrcCheckLive :=
  {| cl_version := DRC_CHECK_LIVE_STATE_VERSION; cl_check_id := check_id tx; cl_owner := cc_owner tx;
     cl_destination := cc_destination tx; cl_amount := cc_amount tx; cl_destination_tag := cc_destination_tag tx;
     cl_source_tag := cc_source_tag tx; cl_invoice_id := cc_invoice_id tx; cl_expires_after := cc_expires_after tx;
     cl_create_blue_score := score |}.
Lemma check_create_inv s ps bk tx auth score id b ops j :
  book_ok cl_owner 32 bk -> create s ps bk tx auth score [] [] = Ok (id, b, ops, j) ->
  live bk !! check_id tx = None /\ settled bk !! check_id tx = None /\ cc_amount tx <> 0 /\
  validate_check_live (new_check tx score) = Ok tt /\
  let a := acct_of s DRC (cc_owner tx) in
  cc_fee tx <= balance a /\
  charges s (cc_owner tx) (fun n' => [(cc_owner tx, {| balance := balance a - cc_fee tx; nonce := n' |})]) b /\
  exists iops,
    put_owner_index (cc_owner tx) (sort_by Z.compare (index_ids bk (cc_owner tx) ++ [check_id tx])) 32
      "DRC live check cap exceeded" = Ok iops /\
    ops = iops ++ [PutLive (check_id tx) (new_check tx score)].
Proof.
  intros Hok H. unfold apply_drc_check_create in H.
  apply rbind_Ok in H as ([] & Hv & H). apply rbind_Ok in H as (_ & _ & H).
  apply rbind_Ok in H as (_ & Hl%ensure_Ok & H). apply negb_true_iff, bool_decide_eq_false_1, eq_None_not_Some in Hl.
  apply rbind_Ok in H as (_ & Hu%ensure_Ok & H). apply negb_true_iff, bool_decide_eq_false_1, eq_None_not_Some in Hu.
  apply rbind_Ok in H as (pol & _ & H). apply rbind_Ok in H as (_ & _ & H).
  apply rbind_Ok in H as (ow & [_ ->]%load_account_Ok & H). apply rbind_Ok in H as (ctx & Hb & H).
  apply rbind_Ok in H as (_ & Hf%ensure_Ok%Z.leb_le & H).
  erewrite load_index_ok in H by done. cbn [rbind] in H.
  apply rbind_Ok in H as (_ & _ & H). apply rbind_Ok in H as (_ & _ & H).
  apply rbind_Ok in H as ([b1 acct] & Hfin & H). apply rbind_Ok in H as (b2 & [_ ->]%put_account_into_Ok & H).
  apply rbind_Ok in H as (iops & Hi & H). cbv zeta in H. fold (new_check tx score) in H.
  apply rbind_Ok in H as ([] & Hlive & H). apply Ok_inj in H. apply pair_eq in H as [H _].
  apply pair_eq in H as [H <-]. apply pair_eq in H as [_ <-].
  destruct (op_sequence_run _ _ _ _ _ _ _ _ _ _ _ _ _ Hb Hfin) as (sel & tops & n' & -> & -> & Heff).
  assert (cc_amount tx <> 0) as Ha.
  { destruct (validate_check_create tx) as [[]|] eqn:E; [|done]. unfold validate_check_create in E.
    apply rbind_Ok in E as (_ & _ & E). apply rbind_Ok in E as (_ & _ & E).
    by apply rbind_Ok in E as (_ & Hz%ensure_Ok%negb_true_iff%Z.eqb_neq & _). }
  assert (validate_check_live (new_check tx score) = Ok tt) as Hlv.
  { unfold lift_storage in Hlive. by destruct (validate_check_live _) as [[]|]. }
  cbv zeta. repeat (split; [done|]). split; [by exists sel, tops, n'|]. by exists iops.
Qed.

(** ** Balances *)

(** The DRC an accepted operation takes out of circulation. *)
Definition taken bk (tx : CheckTx) : Z :=
  match tx with
  | CreateCheck t => cc_fee t
  | CancelCheck t => cx_fee t
  | CashCheck t =>
      match live bk !! ch_check_id t with
      | Some c => if cl_owner c =? cl_destination c then cl_amount c else ch_fee t
      | None => 0
      end
  end.

Lemma leaves_book bk c outcome score tx ops :
  book_ok cl_owner 32 bk -> leaves bk c outcome score tx ops ->
  book_ok cl_owner 32 (write_book bk ops) /\ live (write_book bk ops) = delete (cl_check_id c) (live bk) /\
  settled (write_book bk ops) = <[cl_check_id c := tx]> (settled bk) /\
  receipts (write_book bk ops) = <[cl_check_id c := check_receipt_of c outcome score tx]> (receipts bk).
Proof.
  intros Hok (Hl & iops & Hi & ->).
  by destruct (book_settle_ok cl_owner 32 bk _ c tx (check_receipt_of c outcome score tx) _ _ Hok Hl Hi) as (? & ? & ? & ? & _).
Qed.
Lemma check_effect ps st tx auth score st' :
  check_ok st -> check_ints tx -> run ps st tx auth score = Ok st' ->
  check_ok st' /\ liquid DRC (ck_base st') = liquid DRC (ck_base st) - taken (ck_book st) tx.
Proof.
  intros Hok Hi H. destruct st as [s bk]. pose proof Hok as [Hacc Hbk Hlv].
  destruct tx as [tx|tx|tx]; cbn [apply_check_tx ck_base ck_book check_ints taken] in *;
    apply rbind_Ok in H as ([[[r b] ops] j] & H & H'); apply Ok_inj in H'; subst st'; cbn [ck_base ck_book].
  - apply check_create_inv in H as (Hl & Hs & Ha & Hv & Hf & Hch & iops & Hp & ->); [|done].
    destruct (book_create_ok cl_owner 32 bk _ (new_check tx score) _ _ Hbk Hl Hs Hp) as (Hok' & El & _ & _).
    destruct (ao_ints _ Hacc DRC (cc_owner tx)) as [Hb Hn]. unfold in_u64 in *.
    split; [split; cbn [ck_base ck_book]|].
    + eapply charges_ok; [done..|]. intros n' H1 H2. unfold in_u64 in *. repeat constructor; cbn [fst snd balance nonce]; lia.
    + exact Hok'.
    + intros id' c'. rewrite El. intros [[<- <-]|[_ H]]%lookup_insert_Some; [|by apply Hlv].
      repeat split; [done|]. cbn [new_check cl_amount]. lia.
    + rewrite (charges_one _ _ _ _ DRC Hch), bool_decide_eq_true_2 by done. lia.
  - apply cash_inv in H as (c & Hl & Hid & Hd & _ & Hf & Ham & Hmax & Hch & Hle); [|done]. rewrite Hl.
    destruct (leaves_book _ _ _ _ _ _ Hbk Hle) as (Hok' & El & _ & _). destruct (Hlv _ _ Hl) as (_ & _ & Hpos).
    destruct (ao_ints _ Hacc DRC (cl_owner c)) as [Hb Hn]. destruct (ao_ints _ Hacc DRC (cl_destination c)) as [Hb' Hn'].
    split; [split; cbn [ck_base ck_book]|].
    + eapply charges_ok; [done..|]. intros n' H1 H2. unfold in_u64 in *. repeat constructor; cbn [fst snd balance nonce]; lia.
    + exact Hok'.
    + intros id' c'. rewrite El. intros [_ H]%lookup_delete_Some. by apply Hlv.
    + destruct Hch as (sel & tops & n' & Heff & ->). rewrite (liquid_put_two s tops) by (by eapply seq_effect_frame).
      rewrite bool_decide_eq_true_2 by done. cbn [balance]. destruct (Z.eqb_spec (cl_owner c) (cl_destination c)) as [E|E].
      * rewrite bool_decide_eq_true_2 by done. lia.
      * rewrite bool_decide_eq_false_2 by congruence. lia.
  - apply check_cancel_inv in H as (c & Hl & Hid & _ & Hf & Hch & Hle); [|done].
    destruct (leaves_book _ _ _ _ _ _ Hbk Hle) as (Hok' & El & _ & _).
    destruct (ao_ints _ Hacc DRC (cx_submitter tx)) as [Hb Hn].
    split; [split; cbn [ck_base ck_book]|].
    + eapply charges_ok; [done..|]. intros n' H1 H2. unfold in_u64 in *. repeat constructor; cbn [fst snd balance nonce]; lia.
    + exact Hok'.
    + intros id' c'. rewrite El. intros [_ H]%lookup_delete_Some. by apply Hlv.
    + rewrite (charges_one _ _ _ _ DRC Hch), bool_decide_eq_true_2 by done. lia.
Qed.

(** checks move DRC and take only fees.  Every accepted operation keeps the
    invariant (indices exact and capped, ids live or settled but not both, balances
    in range) and takes from the liquid total exactly the fee, with one exception:
    cashing a check whose owner is its own destination takes the amount of the
    check instead. *)
Theorem check_conservation ps st tx auth score st' :
  check_ok st -> check_ints tx -> run ps st tx auth score = Ok st' ->
  check_ok st' /\ liquid DRC (ck_base st') = liquid DRC (ck_base st) - taken (ck_book st) tx.
Proof. apply check_effect. Qed.

(** cashing is exact.  An accepted cash comes from the destination before the
    expiration, moves exactly the amount from the owner to it, takes the fee from
    it, advances nothing of the owner, touches no other account, and leaves a
    receipt; the owner's balance then covers the amount.  For a check written to
    oneself the account loses the amount and keeps its nonce. *)
Theorem check_cash_correct ps st tx auth score st' c :
  check_ok st -> check_ints (CashCheck tx) -> live (ck_book st) !! ch_check_id tx = Some c ->
  run ps st (CashCheck tx) auth score = Ok st' ->
  ch_submitter tx = cl_destination c /\ check_cash_allowed score (cl_expires_after c) = true /\
  cl_amount c <= balance (acct_of (ck_base st) DRC (cl_owner c)) /\
  acct_of (ck_base st') DRC (cl_owner c) =
    {| balance := balance (acct_of (ck_base st) DRC (cl_owner c)) - cl_amount c;
       nonce := nonce (acct_of (ck_base st) DRC (cl_owner c)) |} /\
  (cl_owner c <> cl_destination c ->
     balance (acct_of (ck_base st') DRC (cl_destination c)) =
       balance (acct_of (ck_base st) DRC (cl_destination c)) - ch_fee tx + cl_amount c) /\
  (forall x a, (x, a) <> (DRC, cl_owner c) -> (x, a) <> (DRC, cl_destination c) ->
     acct_of (ck_base st') x a = acct_of (ck_base st) x a) /\
  status (ck_book st') (ch_check_id tx) =
    Settled (cash_tx_id tx) (Some (check_receipt_of c Cashed score (cash_tx_id tx))).
Proof.
  intros Hok Hi Hl H. destruct st as [s bk]. pose proof Hok as [Hacc Hbk Hlv].
  cbn [apply_check_tx ck_base ck_book] in *. apply rbind_Ok in H as ([[[r b] ops] j] & H & H'). apply Ok_inj in H'. subst st'.
  cbn [ck_base ck_book]. apply cash_inv in H as (c' & Hl' & Hid & Hd & Hw & Hf & Ham & _ & Hch & Hle); [|done].
  assert (c' = c) as -> by congruence. destruct (leaves_book _ _ _ _ _ _ Hbk Hle) as (_ & _ & Es & Er).
  destruct Hch as (sel & tops & n' & Heff & ->). apply seq_effect_frame in Heff.
  split; [done|]. split; [done|]. split; [done|]. split; [|split; [|split]].
  - rewrite acct_of_puts by done. cbn [foldl fst snd]. by rewrite (bool_decide_eq_true_2 (_ = (DRC, cl_owner c))).
  - intros Hne. rewrite acct_of_puts by done. cbn [foldl fst snd].
    rewrite (bool_decide_eq_true_2 (_ = (DRC, cl_destination c))) by done.
    by rewrite (bool_decide_eq_false_2 (_ = (DRC, cl_owner c))) by congruence.
  - intros x a H1 H2. rewrite acct_of_puts by done. cbn [foldl fst snd]. by rewrite !bool_decide_eq_false_2.
  - unfold status. rewrite Es, Er, Hid, !lookup_insert_eq. done.
Qed.

(** ** Life of a check *)

Inductive check_step : relation CheckState :=
| CheckStep ps st tx auth score st' :
    check_ints tx -> run ps st tx auth score = Ok st' -> check_step st st'.
Definition check_born (id : Hash) (c : DrcCheckLive) : Prop := cl_check_id c = id /\ 0 < cl_amount c.
(** Only an unexpired check is cashed. *)
Definition check_receipt (c : DrcCheckLive) (tx : Hash) (r : DrcCheckReceipt) : Prop :=
  exists outcome score, r = check_receipt_of c outcome score tx /\
    (outcome = Cashed -> check_cash_allowed score (cl_expires_after c) = true).
Definition check_life := status_step check_born (fun _ _ => False) check_receipt.
Definition check_target (tx : CheckTx) : Hash :=
  match tx with
  | CreateCheck t => check_id t
  | CashCheck t => ch_check_id t
  | CancelCheck t => cx_check_id t
  end.

Lemma check_moves ps st tx auth score st' :
  check_ok st -> check_ints tx -> run ps st tx auth score = Ok st' ->
  moves check_born (fun _ _ => False) check_receipt (ck_book st) (ck_book st') (check_target tx).
Proof.
  intros Hok Hi H. destruct st as [s bk]. pose proof Hok as [Hacc Hbk Hlv].
  destruct tx as [tx|tx|tx]; cbn [apply_check_tx ck_base ck_book check_ints check_target] in *;
    apply rbind_Ok in H as ([[[r b] ops] j] & H & H'); apply Ok_inj in H'; subst st'; cbn [ck_book].
  - apply check_create_inv in H as (Hl & Hs & Ha & Hv & Hf & Hch & iops & Hp & ->); [|done].
    destruct (book_create_ok cl_owner 32 bk _ (new_check tx score) _ _ Hbk Hl Hs Hp) as (_ & El & Es & Er & _).
    eapply create_moves; eauto. split; [done|]. cbn [new_check cl_amount]. lia.
  - apply cash_inv in H as (c & Hl & Hid & _ & Hw & _ & _ & _ & _ & Hle); [|done].
    destruct (leaves_book _ _ _ _ _ _ Hbk Hle) as (_ & El & Es & Er).
    rewrite Hid in *. eapply settle_moves; eauto. by exists Cashed, score.
  - apply check_cancel_inv in H as (c & Hl & Hid & _ & _ & _ & Hle); [|done].
    destruct (leaves_book _ _ _ _ _ _ Hbk Hle) as (_ & El & Es & Er).
    rewrite Hid in *. eapply settle_moves; eauto. by exists CheckCancelled, score.
Qed.
Lemma check_ok_step st st' : check_ok st -> check_step st st' ->
  check_ok st' /\ exists id, moves check_born (fun _ _ => False) check_receipt (ck_book st) (ck_book st') id.
Proof.
  intros Hok Hs. destruct Hs as [ps st1 tx auth score st2 Hi H].
  split; [by eapply check_effect|]. exists (check_target tx). by eapply check_moves.
Qed.

(** a check has one life.  Along any run of accepted operations each id goes
    from absent to live to settled, unchanged while live; it is cashed or cancelled
    at most once, cashed only before it expires, and once settled every further
    operation on its id is refused. *)
Theorem check_lifecycle st st' :
  check_ok st -> rtc check_step st st' ->
  check_ok st' /\
  (forall id, rtc (check_life id) (status (ck_book st) id) (status (ck_book st') id)) /\
  (forall id tx r, status (ck_book st) id = Settled tx r ->
     status (ck_book st') id = Settled tx r /\
     forall ps t auth score st2, check_ints t -> check_target t = id -> run ps st' t auth score <> Ok st2).
Proof.
  intros Hok Hr. destruct (run_refines _ _ _ _ ck_book _ _ _ check_ok_step Hok Hr) as [Hok' Hlife].
  split; [done|]. split; [done|]. intros id tx r Hs. specialize (Hlife id). rewrite Hs in Hlife.
  apply settled_final in Hlife. split; [done|]. intros ps t auth score st2 Hi <- H.
  apply check_moves in H as [Hm _]; [|done..]. rewrite Hlife in Hm. inversion Hm.
Qed.
End check_spec.

(** ** Witnesses *)

Definition accept_check {A : Type} (s : StateStore) (ps : PolicyStore) (tx : A) (auth : unit) : result StateError unit :=
  Ok tt.
Definition no_policies : PolicyStore := {| policies := ∅; preauths := ∅ |}.
Abbreviation demo_check_apply :=
  (apply_check_tx accept_check accept_check accept_check (fun t => 77 + cc_destination t) (fun t => 200 + ch_nonce t)
     (fun t => 300 + cx_nonce t) no_policies).
Definition demo_check_state : CheckState := {| ck_base := demo_ledger; ck_book := empty_book |}.
(** Account 1 writes a check of 100, spending its ticket. *)
Definition demo_check (destination : Address) : DrcCheckCreateTx :=
  {| cc_version := 2; cc_owner := 1; cc_destination := destination; cc_amount := 100; cc_fee := 2;
     cc_destination_tag := None; cc_source_tag := None; cc_invoice_id := 0; cc_expires_after := Some 10; cc_nonce := 0;
     cc_account_sequence := Some {| kind := Ticket; value := 5 |}; cc_public_key := []; cc_signature := [] |}.
Definition demo_cash (destination nonce_ fee : Z) : DrcCheckCashTx :=
  {| ch_version := 1; ch_submitter := destination; ch_check_id := 77 + destination; ch_fee := fee; ch_nonce := nonce_;
     ch_account_sequence := None; ch_public_key := []; ch_signature := [] |}.
Definition run_check (d : Address) : result StateError CheckState :=
  demo_check_apply demo_check_state (CreateCheck (demo_check d)) tt 3.
Definition demo_written (d : Address) : CheckState := match run_check d with Ok st => st | Err _ => demo_check_state end.
Lemma demo_check_state_ok : check_ok demo_check_state.
Proof.
  split; cbn [demo_check_state ck_base ck_book]; [apply demo_ledger_ok|apply empty_book_ok|].
  intros id c H. cbn in H. by rewrite lookup_empty in H.
Qed.
Lemma demo_check_run d : match run_check d with Ok _ => True | Err _ => False end ->
  run_check d = Ok (demo_written d) /\ check_ok (demo_written d).
Proof.
  intros Hrun. unfold demo_written. destruct (run_check d) as [st|] eqn:E; [|done]. split; [done|].
  unfold run_check in E. eapply check_effect; [apply demo_check_state_ok| |exact E]. cbn. lia.
Qed.
Lemma check_conservation_witness :
  exists st', demo_check_apply (demo_written 1) (CashCheck (demo_cash 1 7 3)) tt 4 = Ok st' /\
    liquid DRC (ck_base st') = liquid DRC (ck_base (demo_written 1)) - 100.
Proof.
  set (out := demo_check_apply (demo_written 1) (CashCheck (demo_cash 1 7 3)) tt 4).
  assert (match out with Ok _ => True | Err _ => False end) as Hrun by (vm_compute; exact I).
  destruct out as [st'|] eqn:E; [|done]. exists st'. split; [done|].
  apply (check_conservation accept_check accept_check accept_check (fun t => 77 + cc_destination t)
    (fun t => 200 + ch_nonce t) (fun t => 300 + cx_nonce t) no_policies (demo_written 1) (CashCheck (demo_cash 1 7 3)) tt 4 st');
    [apply demo_check_run; vm_compute; exact I|cbn; lia|exact E].
Defined.
Lemma check_cash_correct_witness :
  exists st', demo_check_apply (demo_written 2) (CashCheck (demo_cash 2 0 0)) tt 4 = Ok st' /\
    balance (acct_of (ck_base st') DRC 2) = 0 - 0 + 100.
Proof.
  set (out := demo_check_apply (demo_written 2) (CashCheck (demo_cash 2 0 0)) tt 4).
  assert (match out with Ok _ => True | Err _ => False end) as Hrun by (vm_compute; exact I).
  destruct out as [st'|] eqn:E; [|done]. exists st'. split; [done|].
  apply (check_cash_correct accept_check accept_check accept_check (fun t => 77 + cc_destination t)
    (fun t => 200 + ch_nonce t) (fun t => 300 + cx_nonce t) no_policies (demo_written 2) (demo_cash 2 0 0) tt 4 st'
    (new_check (fun t => 77 + cc_destination t) (demo_check 2) 3));
    [apply demo_check_run; vm_compute; exact I|cbn; lia|vm_compute; reflexivity|exact E|done].
Defined.
Lemma check_lifecycle_witness :
  check_ok (demo_written 2) /\ rtc (check_life 79) Absent (status (ck_book (demo_written 2)) 79).
Proof.
  destruct (demo_check_run 2) as [H _]; [vm_compute; exact I|]. unfold run_check in H.
  edestruct (check_lifecycle accept_check accept_check accept_check (fun t => 77 + cc_destination t)
    (fun t => 200 + ch_nonce t) (fun t => 300 + cx_nonce t) demo_check_state (demo_written 2) demo_check_state_ok)
    as (Hok & Hl & _).
  { eapply rtc_once, (CheckStep _ _ _ _ _ _ no_policies _ (CreateCheck (demo_check 2)) tt 3); [cbn; lia|exact H]. }
  split; [exact Hok|]. apply (Hl 79).
Defined.

(** (finding) The structural check accepts an envelope of the ticket version that
    has no selector, for which computing the signing bytes panics; nothing stands
    between the two. *)
Theorem selectorless_check_panics tx :
  validate_check_create tx = Ok tt ->
  check_signing_sequence (cc_version tx) (cc_nonce tx) (cc_account_sequence tx) = None <->
  cc_version tx = 2 /\ cc_account_sequence tx = None.
Proof.
  intros H. unfold validate_check_create, validate_check_envelope in H. apply rbind_Ok in H as ([] & H & _).
  apply rbind_Ok in H as (_ & Hv%ensure_Ok & _). unfold check_signing_sequence, DRC_CHECK_TICKET_VERSION, DRC_CHECK_TX_VERSION in *.
  apply orb_true_iff in Hv as [Hv%Z.eqb_eq|Hv%Z.eqb_eq]; rewrite Hv; cbn [Z.leb Z.compare Pos.compare Pos.compare_cont].
  - naive_solver.
  - destruct (cc_account_sequence tx); naive_solver.
Qed.
Definition selectorless_check : DrcCheckCreateTx :=
  {| cc_version := 2; cc_owner := 1; cc_destination := 2; cc_amount := 1; cc_fee := 0; cc_destination_tag := None;
     cc_source_tag := None; cc_invoice_id := 0; cc_expires_after := None; cc_nonce := 0; cc_account_sequence := None;
     cc_public_key := []; cc_signature := [] |}.
Lemma selectorless_check_panics_witness :
  check_signing_sequence (cc_version selectorless_check) (cc_nonce selectorless_check)
    (cc_account_sequence selectorless_check) = None.
Proof. apply (selectorless_check_panics selectorless_check); [vm_compute; reflexivity|done]. Defined.
