(* ===== verification/Channel.v ===== *)
(** * DRC payment channels ([types/src/drc_payment_channel.rs],
      [state-machine/src/drc_payment_channel.rs])

    An owner locks DRC for a destination and signs, off the ledger, cumulative
    amounts with a claim key.  The destination claims by presenting a larger
    cumulative amount than the last one; the owner may add funds.  The
    destination may close at any time; the owner schedules a close, which may
    be finalized after the settle delay, or from [cancel_after] on.  What was
    not claimed goes back to the owner. *)

From stdpp Require Import base gmap list fin_maps strings.
From Stdlib Require Import ZArith Lia.
From S2P Require Import Prelude Ordering Sums Types Finality Store Supply Accounts Objects Policy.
Local Open Scope Z_scope.

Definition DRC_MAX_LIVE_PAYMENT_CHANNELS_PER_ACCOUNT : nat := 32.
Definition DRC_PAYMENT_CHANNEL_TX_VERSION : Z := 1.
Definition DRC_PAYMENT_CHANNEL_TICKET_VERSION : Z := 2.
Definition DRC_PAYMENT_CHANNEL_LIVE_STATE_VERSION : Z := 1.
Definition DRC_PAYMENT_CHANNEL_RECEIPT_VERSION : Z := 2.
Definition DRC_PAYMENT_CHANNEL_MAX_BLUE_SCORE_BOUND : Z := u64_max - 1.

Inductive DrcPaymentChannelCloseKind := OwnerScheduleClose | DestinationClose | Finalize.
#[export] Instance close_kind_eq_dec : EqDecision DrcPaymentChannelCloseKind.
Proof. solve_decision. Defined.
Inductive DrcPaymentChannelOutcome := Closed.

Record DrcPaymentChannelCreateTx := {
  pc_version : Z;
  pc_owner : Address;
  pc_destination : Address;
  pc_amount : Z;
  pc_fee : Z;
  pc_claim_public_key : list Z;
  pc_settle_delay : Z;
  pc_destination_tag : option Z;
  pc_source_tag : option Z;
  pc_invoice_id : Hash;
  pc_cancel_after : option Z;
  pc_nonce : Z;
  pc_account_sequence : option DrcAccountSequenceSelector;
  pc_public_key : list Z;
  pc_signature : list Z;
}.
Record DrcPaymentChannelFundTx := {
  fu_version : Z;
  fu_submitter : Address;
  fu_channel_id : Hash;
  fu_amount : Z;
  fu_fee : Z;
  fu_nonce : Z;
  fu_account_sequence : option DrcAccountSequenceSelector;
  fu_public_key : list Z;
  fu_signature : list Z;
}.
Record DrcPaymentChannelClaimTx := {
  cm_version : Z;
  cm_submitter : Address;
  cm_channel_id : Hash;
  cm_cumulative_authorized : Z;
  cm_channel_claim_signature : list Z;
  cm_fee : Z;
  cm_nonce : Z;
  cm_account_sequence : option DrcAccountSequenceSelector;
  cm_public_key : list Z;
  cm_signature : list Z;
}.
Record DrcPaymentChannelCloseTx := {
  co_version : Z;
  co_submitter : Address;
  co_channel_id : Hash;
  co_close_kind : DrcPaymentChannelCloseKind;
  co_fee : Z;
  co_nonce : Z;
  co_account_sequence : option DrcAccountSequenceSelector;
  co_public_key : list Z;
  co_signature : list Z;
}.
Record DrcPaymentChannelLive := {
  pl_version : Z;
  pl_channel_id : Hash;
  pl_owner : Address;
  pl_destination : Address;
  pl_destination_tag : option Z;
  pl_source_tag : option Z;
  pl_invoice_id : Hash;
  pl_claim_public_key : list Z;
  pl_settle_delay : Z;
  pl_cancel_after : option Z;
  pl_total_funded : Z;
  pl_cumulative_claimed : Z;
  pl_close_finalizable_after : option Z;
  pl_create_blue_score : Z;
}.
Record DrcPaymentChannelReceipt := {
  pr_version : Z;
  pr_channel_id : Hash;
  pr_outcome : DrcPaymentChannelOutcome;
  pr_owner : Address;
  pr_destination : Address;
  pr_destination_tag : option Z;
  pr_source_tag : option Z;
  pr_total_funded : Z;
  pr_cumulative_claimed : Z;
  pr_settlement_blue_score : Z;
  pr_settlement_tx_id : Hash;
}.
(** The three audit records, all at version 1, by key prefix and transaction id. *)
Inductive ChannelEvent :=
| FundEvent (channel_id fund_tx_id : Hash) (amount total_funded_after score : Z)
| ClaimEvent (channel_id claim_tx_id : Hash) (cumulative_authorized claim_delta score : Z)
| ScheduleEvent (channel_id close_tx_id : Hash) (close_finalizable_after score : Z).

(** ** Time and authority *)

Definition validate_payment_channel_blue_score_bound (bound : option Z) : result string unit :=
  match bound with
  | Some score => ensure (score <=? DRC_PAYMENT_CHANNEL_MAX_BLUE_SCORE_BOUND) "blue score bound overflow"%string
  | None => Ok tt
  end.
Definition payment_channel_owner_schedule_deadline (score delay : Z) : result string Z :=
  ok_or "blue score bound overflow"%string (checked_add u64_max score delay).
Definition payment_channel_cancel_after_valid_at_create (score : Z) (cancel_after : option Z) : result string unit :=
  match cancel_after with
  | Some cancel =>
      ensure (negb (cancel <=? score)) "cancel after must be strictly future at create"%string ;?
      validate_payment_channel_blue_score_bound (Some cancel)
  | None => Ok tt
  end.
Definition payment_channel_onchain_claim_allowed (score : Z) (cancel_after : option Z) : bool :=
  match cancel_after with Some cancel => score <? cancel | None => true end.
Definition payment_channel_finalize_allowed (score : Z) (close_finalizable_after cancel_after : option Z) : bool :=
  (match cancel_after with Some after => after <=? score | None => false end) ||
  (match close_finalizable_after with Some finalize => finalize <=? score | None => false end).
Definition payment_channel_close_submitter_allowed (k : DrcPaymentChannelCloseKind)
  (submitter owner destination : Address) : bool :=
  match k with
  | OwnerScheduleClose => submitter =? owner
  | DestinationClose => submitter =? destination
  | Finalize => (submitter =? owner) || (submitter =? destination)
  end.

(** ** Structure *)

Definition validate_channel_envelope (version : Z) (sel : option DrcAccountSequenceSelector) : result string unit :=
  ensure ((version =? DRC_PAYMENT_CHANNEL_TX_VERSION) || (version =? DRC_PAYMENT_CHANNEL_TICKET_VERSION))
    "unsupported version"%string ;?
  ensure (negb ((version <? DRC_PAYMENT_CHANNEL_TICKET_VERSION) && has_ticket_selector sel))
    "ticket selector on legacy version"%string.
Definition validate_channel_create (tx : DrcPaymentChannelCreateTx) : result string unit :=
  validate_channel_envelope (pc_version tx) (pc_account_sequence tx) ;?
  ensure (negb ((pc_owner tx =? 0) || (pc_destination tx =? 0) || (pc_owner tx =? pc_destination tx))) "zero address"%string ;?
  ensure (negb (pc_amount tx =? 0)) "zero amount"%string ;?
  ensure (negb (pc_fee tx =? 0)) "zero fee"%string ;?
  ensure (Nat.eqb (length (pc_claim_public_key tx)) 33) "malformed claim public key"%string ;?
  ensure (negb (pc_settle_delay tx =? 0)) "zero settle delay"%string ;?
  validate_payment_channel_blue_score_bound (pc_cancel_after tx) ;?
  ensure (pc_invoice_id tx =? 0) "non-zero invoice not supported"%string.
Definition validate_channel_fund (tx : DrcPaymentChannelFundTx) : result string unit :=
  validate_channel_envelope (fu_version tx) (fu_account_sequence tx) ;?
  ensure (negb ((fu_submitter tx =? 0) || (fu_channel_id tx =? 0))) "zero address"%string ;?
  ensure (negb (fu_amount tx =? 0)) "zero amount"%string.
Definition validate_channel_claim (tx : DrcPaymentChannelClaimTx) : result string unit :=
  validate_channel_envelope (cm_version tx) (cm_account_sequence tx) ;?
  ensure (negb ((cm_submitter tx =? 0) || (cm_channel_id tx =? 0))) "zero address"%string ;?
  ensure (negb (cm_cumulative_authorized tx =? 0)) "zero amount"%string ;?
  ensure (Nat.eqb (length (cm_channel_claim_signature tx)) 64) "malformed claim signature"%string.
Definition validate_channel_close (tx : DrcPaymentChannelCloseTx) : result string unit :=
  validate_channel_envelope (co_version tx) (co_account_sequence tx) ;?
  ensure (negb ((co_submitter tx =? 0) || (co_channel_id tx =? 0))) "zero address"%string.
Definition validate_channel_live (c : DrcPaymentChannelLive) : result string unit :=
  ensure (pl_version c =? DRC_PAYMENT_CHANNEL_LIVE_STATE_VERSION) "unsupported version"%string ;?
  ensure (Nat.eqb (length (pl_claim_public_key c)) 33) "malformed claim public key"%string ;?
  ensure (pl_cumulative_claimed c <=? pl_total_funded c) "claim exceeds funded"%string.
Definition locked_remainder (c : DrcPaymentChannelLive) : result string Z :=
  ok_or "claim exceeds funded"%string (checked_sub (pl_total_funded c) (pl_cumulative_claimed c)).
Definition validate_channel_receipt (r : DrcPaymentChannelReceipt) : result string unit :=
  ensure (pr_version r =? DRC_PAYMENT_CHANNEL_RECEIPT_VERSION) "unsupported version"%string.

(** ** State *)

Abbreviation ChannelBook := (Book DrcPaymentChannelLive DrcPaymentChannelReceipt ChannelEvent).
Abbreviation ChannelOp := (BookOp DrcPaymentChannelLive DrcPaymentChannelReceipt ChannelEvent).

Definition load_drc_payment_channel_live (bk : ChannelBook) (id : Hash)
  : result StateError (option DrcPaymentChannelLive) :=
  match live bk !! id with
  | None => Ok None
  | Some c =>
      lift_storage (validate_channel_live c) ;?
      ensure (pl_channel_id c =? id) (Storage "DRC payment channel live id mismatch") ;?
      Ok (Some c)
  end.
(** Assignments to a field of the live record. *)
Definition set_total_funded (c : DrcPaymentChannelLive) (total : Z) : DrcPaymentChannelLive :=
  {| pl_version := pl_version c; pl_channel_id := pl_channel_id c; pl_owner := pl_owner c;
     pl_destination := pl_destination c; pl_destination_tag := pl_destination_tag c;
     pl_source_tag := pl_source_tag c; pl_invoice_id := pl_invoice_id c;
     pl_claim_public_key := pl_claim_public_key c; pl_settle_delay := pl_settle_delay c;
     pl_cancel_after := pl_cancel_after c; pl_total_funded := total;
     pl_cumulative_claimed := pl_cumulative_claimed c; pl_close_finalizable_after := pl_close_finalizable_after c;
     pl_create_blue_score := pl_create_blue_score c |}.
Definition set_cumulative_claimed (c : DrcPaymentChannelLive) (claimed : Z) : DrcPaymentChannelLive :=
  {| pl_version := pl_version c; pl_channel_id := pl_channel_id c; pl_owner := pl_owner c;
     pl_destination := pl_destination c; pl_destination_tag := pl_destination_tag c;
     pl_source_tag := pl_source_tag c; pl_invoice_id := pl_invoice_id c;
     pl_claim_public_key := pl_claim_public_key c; pl_settle_delay := pl_settle_delay c;
     pl_cancel_after := pl_cancel_after c; pl_total_funded := pl_total_funded c;
     pl_cumulative_claimed := claimed; pl_close_finalizable_after := pl_close_finalizable_after c;
     pl_create_blue_score := pl_create_blue_score c |}.
Definition set_close_finalizable_after (c : DrcPaymentChannelLive) (deadline : option Z) : DrcPaymentChannelLive :=
  {| pl_version := pl_version c; pl_channel_id := pl_channel_id c; pl_owner := pl_owner c;
     pl_destination := pl_destination c; pl_destination_tag := pl_destination_tag c;
     pl_source_tag := pl_source_tag c; pl_invoice_id := pl_invoice_id c;
     pl_claim_public_key := pl_claim_public_key c; pl_settle_delay := pl_settle_delay c;
     pl_cancel_after := pl_cancel_after c; pl_total_funded := pl_total_funded c;
     pl_cumulative_claimed := pl_cumulative_claimed c; pl_close_finalizable_after := deadline;
     pl_create_blue_score := pl_create_blue_score c |}.
Definition put_live (c : DrcPaymentChannelLive) : result StateError (list ChannelOp) :=
  lift_storage (validate_channel_live c) ;? Ok [PutLive (pl_channel_id c) c].
Definition channel_receipt_of (c : DrcPaymentChannelLive) (score : Z) (tx : Hash) : DrcPaymentChannelReceipt :=
  {| pr_version := DRC_PAYMENT_CHANNEL_RECEIPT_VERSION; pr_channel_id := pl_channel_id c; pr_outcome := Closed;
     pr_owner := pl_owner c; pr_destination := pl_destination c; pr_destination_tag := pl_destination_tag c;
     pr_source_tag := pl_source_tag c; pr_total_funded := pl_total_funded c;
     pr_cumulative_claimed := pl_cumulative_claimed c; pr_settlement_blue_score := score; pr_settlement_tx_id := tx |}.

(** The remainder goes to the owner: into the record the caller holds when the
    caller is the owner, into the stored one otherwise. *)
Definition finalize_channel (s : StateStore) (bk : ChannelBook) (b : WriteBatch) (j : AccountJournal)
  (c : DrcPaymentChannelLive) (score : Z) (tx : Hash) (owner_after_close_fee : option AccountState)
  : result StateError (DrcPaymentChannelReceipt * option AccountState * WriteBatch * list ChannelOp * AccountJournal) :=
  let? remainder := lift_msg (locked_remainder c) in
  let? (held, b, j) :=
    if 0 <? remainder then
      match owner_after_close_fee with
      | Some owner =>
          let? bal := ok_or (InvalidTx "payment channel remainder overflow") (checked_add u64_max (balance owner) remainder) in
          let owner := {| balance := bal; nonce := nonce owner |} in
          let? b := put_account_into b DRC (pl_owner c) owner in
          Ok (Some owner, b, j)
      | None =>
          let? owner := load_account s DRC (pl_owner c) in
          let j := j ++ [(DRC, pl_owner c, owner)] in
          let? bal := ok_or (InvalidTx "payment channel remainder overflow") (checked_add u64_max (balance owner) remainder) in
          let? b := put_account_into b DRC (pl_owner c) {| balance := bal; nonce := nonce owner |} in
          Ok (None, b, j)
      end
    else Ok (owner_after_close_fee, b, j) in
  let? live_ids := load_owner_index bk (pl_owner c) "invalid payment channel owner index" in
  let live_ids := filter (fun id => id <> pl_channel_id c) live_ids in
  let? iops := put_owner_index (pl_owner c) live_ids DRC_MAX_LIVE_PAYMENT_CHANNELS_PER_ACCOUNT
    "DRC live payment channel cap exceeded" in
  let receipt := channel_receipt_of c score tx in
  lift_storage (validate_channel_receipt receipt) ;?
  Ok (receipt, held, b,
      iops ++ [DeleteLive (pl_channel_id c); PutSettled (pl_channel_id c) tx; PutReceipt (pl_channel_id c) receipt], j).

Section channel.
Context {Auth : Type}.
(** [drc_account_auth.rs] and the hashes of the signed envelopes. *)
Variable verify_create : StateStore -> PolicyStore -> DrcPaymentChannelCreateTx -> Auth -> result StateError unit.
Variable verify_fund : StateStore -> PolicyStore -> DrcPaymentChannelFundTx -> Auth -> result StateError unit.
Variable verify_claim_envelope : StateStore -> PolicyStore -> DrcPaymentChannelClaimTx -> Auth -> result StateError unit.
Variable verify_close : StateStore -> PolicyStore -> DrcPaymentChannelCloseTx -> Auth -> result StateError unit.
(** The claim key's signature over the channel id and the cumulative amount. *)
Variable verify_payment_channel_offledger_claim :
  list Z -> list Z -> Auth -> Hash -> Z -> result string unit.
Variable channel_id : DrcPaymentChannelCreateTx -> Hash.
Variable fund_tx_id : DrcPaymentChannelFundTx -> Hash.
Variable claim_tx_id : DrcPaymentChannelClaimTx -> Hash.
Variable close_tx_id : DrcPaymentChannelCloseTx -> Hash.

Definition verify_drc_payment_channel_claim_operation (s : StateStore) (ps : PolicyStore) (bk : ChannelBook)
  (tx : DrcPaymentChannelClaimTx) (auth : Auth) : result StateError unit :=
  verify_claim_envelope s ps tx auth ;?
  let? found := load_drc_payment_channel_live bk (cm_channel_id tx) in
  let? c := ok_or (InvalidTx "unknown payment channel for claim") found in
  lift_msg (verify_payment_channel_offledger_claim (pl_claim_public_key c) (cm_channel_claim_signature tx) auth
    (cm_channel_id tx) (cm_cumulative_authorized tx)).

Definition apply_drc_payment_channel_create (s : StateStore) (ps : PolicyStore) (bk : ChannelBook)
  (tx : DrcPaymentChannelCreateTx) (auth : Auth) (score : Z) (b : WriteBatch) (j : AccountJournal)
  : result StateError (Hash * WriteBatch * list ChannelOp * AccountJournal) :=
  lift_msg (validate_channel_create tx) ;?
  verify_create s ps tx auth ;?
  let id := channel_id tx in
  ensure (negb (bool_decide (is_Some (live bk !! id)))) (InvalidTx "duplicate payment channel id") ;?
  ensure_unsettled bk id "DRC payment channel already settled" ;?
  lift_msg (payment_channel_cancel_after_valid_at_create score (pc_cancel_after tx)) ;?
  let? _ := lift_msg (payment_channel_owner_schedule_deadline score (pc_settle_delay tx)) in
  let? recipient_policy := load_drc_account_policy ps (pc_destination tx) in
  ensure (negb (require_destination_tag recipient_policy && bool_decide (pc_destination_tag tx = None)))
    (InvalidTx "DRC destination tag required by recipient policy") ;?
  let? owner := load_account s DRC (pc_owner tx) in
  let? ctx := begin_op_sequence s (pc_owner tx) owner (pc_version tx) DRC_PAYMENT_CHANNEL_TICKET_VERSION
    (pc_nonce tx) (pc_account_sequence tx) "bad payment channel create nonce" in
  let? debit := ok_or (InvalidTx "payment channel create amount+fee overflow")
    (checked_add u64_max (pc_amount tx) (pc_fee tx)) in
  ensure (debit <=? balance owner) (InvalidTx "insufficient DRC balance for payment channel create") ;?
  let? live_ids := load_owner_index bk (pc_owner tx) "invalid payment channel owner index" in
  ensure (Nat.ltb (length live_ids) DRC_MAX_LIVE_PAYMENT_CHANNELS_PER_ACCOUNT)
    (InvalidTx "DRC live payment channel cap exceeded") ;?
  let j := j ++ [(DRC, pc_owner tx, owner)] in
  let? (b, owner) := finish_op_sequence b (pc_owner tx)
    {| balance := balance owner - debit; nonce := nonce owner |} ctx "payment channel create nonce overflow" in
  let? b := put_account_into b DRC (pc_owner tx) owner in
  let live_ids := sort_by Z.compare (live_ids ++ [id]) in
  let? iops := put_owner_index (pc_owner tx) live_ids DRC_MAX_LIVE_PAYMENT_CHANNELS_PER_ACCOUNT
    "DRC live payment channel cap exceeded" in
  let c := {| pl_version := DRC_PAYMENT_CHANNEL_LIVE_STATE_VERSION; pl_channel_id := id; pl_owner := pc_owner tx;
              pl_destination := pc_destination tx; pl_destination_tag := pc_destination_tag tx;
              pl_source_tag := pc_source_tag tx; pl_invoice_id := pc_invoice_id tx;
              pl_claim_public_key := pc_claim_public_key tx; pl_settle_delay := pc_settle_delay tx;
              pl_cancel_after := pc_cancel_after tx; pl_total_funded := pc_amount tx; pl_cumulative_claimed := 0;
              pl_close_finalizable_after := None; pl_create_blue_score := score |} in
  let? lops := put_live c in
  Ok (id, b, iops ++ lops, j).

Definition apply_drc_payment_channel_fund (s : StateStore) (ps : PolicyStore) (bk : ChannelBook)
  (tx : DrcPaymentChannelFundTx) (auth : Auth) (score : Z) (b : WriteBatch) (j : AccountJournal)
  : result StateError (WriteBatch * list ChannelOp * AccountJournal) :=
  lift_msg (validate_channel_fund tx) ;?
  verify_fund s ps tx auth ;?
  ensure_unsettled bk (fu_channel_id tx) "DRC payment channel already settled" ;?
  let? found := load_drc_payment_channel_live bk (fu_channel_id tx) in
  let? c := ok_or (InvalidTx "unknown payment channel") found in
  ensure (fu_submitter tx =? pl_owner c) (InvalidTx "payment channel fund submitter must be owner") ;?
  let? owner := load_account s DRC (pl_owner c) in
  let? ctx := begin_op_sequence s (fu_submitter tx) owner (fu_version tx) DRC_PAYMENT_CHANNEL_TICKET_VERSION
    (fu_nonce tx) (fu_account_sequence tx) "bad payment channel fund nonce" in
  let? debit := ok_or (InvalidTx "payment channel fund amount+fee overflow")
    (checked_add u64_max (fu_amount tx) (fu_fee tx)) in
  ensure (debit <=? balance owner) (InvalidTx "insufficient DRC balance for payment channel fund") ;?
  let j := j ++ [(DRC, pl_owner c, owner)] in
  let? (b, owner) := finish_op_sequence b (fu_submitter tx)
    {| balance := balance owner - debit; nonce := nonce owner |} ctx "payment channel fund nonce overflow" in
  let? b := put_account_into b DRC (pl_owner c) owner in
  let? total := ok_or (InvalidTx "payment channel total_funded overflow")
    (checked_add u64_max (pl_total_funded c) (fu_amount tx)) in
  let c := set_total_funded c total in
  let? lops := put_live c in
  Ok (b, lops ++ [PutEvent "paychan/drc/fund/" (fund_tx_id tx)
                    (FundEvent (pl_channel_id c) (fund_tx_id tx) (fu_amount tx) total score)], j).

Definition apply_drc_payment_channel_claim (s : StateStore) (ps : PolicyStore) (bk : ChannelBook)
  (tx : DrcPaymentChannelClaimTx) (auth : Auth) (score : Z) (b : WriteBatch) (j : AccountJournal)
  : result StateError (WriteBatch * list ChannelOp * AccountJournal) :=
  lift_msg (validate_channel_claim tx) ;?
  verify_drc_payment_channel_claim_operation s ps bk tx auth ;?
  ensure_unsettled bk (cm_channel_id tx) "DRC payment channel already settled" ;?
  let? found := load_drc_payment_channel_live bk (cm_channel_id tx) in
  let? c := ok_or (InvalidTx "unknown payment channel") found in
  ensure (cm_submitter tx =? pl_destination c) (InvalidTx "payment channel claim submitter must be destination") ;?
  ensure (payment_channel_onchain_claim_allowed score (pl_cancel_after c))
    (InvalidTx "payment channel on-chain claim not allowed at or after cancel after") ;?
  ensure (pl_cumulative_claimed c <? cm_cumulative_authorized tx)
    (InvalidTx "payment channel claim must increase cumulative authorized") ;?
  ensure (cm_cumulative_authorized tx <=? pl_total_funded c)
    (InvalidTx "payment channel claim exceeds total funded") ;?
  let delta := cm_cumulative_authorized tx - pl_cumulative_claimed c in
  let? destination := load_account s DRC (cm_submitter tx) in
  let? ctx := begin_op_sequence s (cm_submitter tx) destination (cm_version tx) DRC_PAYMENT_CHANNEL_TICKET_VERSION
    (cm_nonce tx) (cm_account_sequence tx) "bad payment channel claim nonce" in
  ensure (cm_fee tx <=? balance destination) (InvalidTx "insufficient DRC balance for payment channel claim fee") ;?
  let j := j ++ [(DRC, cm_submitter tx, destination)] in
  let? credited := ok_or (InvalidTx "payment channel claim destination overflow")
    (checked_add u64_max (balance destination - cm_fee tx) delta) in
  let? (b, destination) := finish_op_sequence b (cm_submitter tx)
    {| balance := credited; nonce := nonce destination |} ctx "payment channel claim nonce overflow" in
  let? b := put_account_into b DRC (cm_submitter tx) destination in
  let c := set_cumulative_claimed c (cm_cumulative_authorized tx) in
  let? lops := put_live c in
  Ok (b, lops ++ [PutEvent "paychan/drc/claim/" (claim_tx_id tx)
                    (ClaimEvent (pl_channel_id c) (claim_tx_id tx) (cm_cumulative_authorized tx) delta score)], j).

Definition apply_drc_payment_channel_close (s : StateStore) (ps : PolicyStore) (bk : ChannelBook)
  (tx : DrcPaymentChannelCloseTx) (auth : Auth) (score : Z) (b : WriteBatch) (j : AccountJournal)
  : result StateError (option DrcPaymentChannelReceipt * WriteBatch * list ChannelOp * AccountJournal) :=
  lift_msg (validate_channel_close tx) ;?
  verify_close s ps tx auth ;?
  ensure_unsettled bk (co_channel_id tx) "DRC payment channel already settled" ;?
  let? found := load_drc_payment_channel_live bk (co_channel_id tx) in
  let? c := ok_or (InvalidTx "unknown payment channel") found in
  ensure (payment_channel_close_submitter_allowed (co_close_kind tx) (co_submitter tx) (pl_owner c) (pl_destination c))
    (InvalidTx "payment channel close submitter not authorized for close kind") ;?
  let? submitter := load_account s DRC (co_submitter tx) in
  let? ctx := begin_op_sequence s (co_submitter tx) submitter (co_version tx) DRC_PAYMENT_CHANNEL_TICKET_VERSION
    (co_nonce tx) (co_account_sequence tx) "bad payment channel close nonce" in
  ensure (co_fee tx <=? balance submitter) (InvalidTx "insufficient DRC balance for payment channel close fee") ;?
  let j := j ++ [(DRC, co_submitter tx, submitter)] in
  let? (b, submitter) := finish_op_sequence b (co_submitter tx)
    {| balance := balance submitter - co_fee tx; nonce := nonce submitter |} ctx "payment channel close nonce overflow" in
  match co_close_kind tx with
  | OwnerScheduleClose =>
      let? b := put_account_into b DRC (co_submitter tx) submitter in
      let? finalize_at := lift_msg (payment_channel_owner_schedule_deadline score (pl_settle_delay c)) in
      let c := set_close_finalizable_after c (Some finalize_at) in
      let? lops := put_live c in
      Ok (None, b, lops ++ [PutEvent "paychan/drc/schedule/" (close_tx_id tx)
                              (ScheduleEvent (pl_channel_id c) (close_tx_id tx) finalize_at score)], j)
  | DestinationClose =>
      let? b := put_account_into b DRC (co_submitter tx) submitter in
      let? (receipt, _, b, ops, j) := finalize_channel s bk b j c score (close_tx_id tx) None in
      Ok (Some receipt, b, ops, j)
  | Finalize =>
      ensure (payment_channel_finalize_allowed score (pl_close_finalizable_after c) (pl_cancel_after c))
        (InvalidTx "payment channel not yet finalizable at this blue score") ;?
      let owner_in_flight := if co_submitter tx =? pl_owner c then Some submitter else None in
      let? (receipt, held, b, ops, j) := finalize_channel s bk b j c score (close_tx_id tx) owner_in_flight in
      let? b := put_account_into b DRC (co_submitter tx) (default submitter held) in
      Ok (Some receipt, b, ops, j)
  end.

Record ChannelState := { pc_base : StateStore; pc_book : ChannelBook }.
Inductive ChannelTx :=
| CreateChannel (tx : DrcPaymentChannelCreateTx)
| FundChannel (tx : DrcPaymentChannelFundTx)
| ClaimChannel (tx : DrcPaymentChannelClaimTx)
| CloseChannel (tx : DrcPaymentChannelCloseTx).
Definition apply_channel_tx (ps : PolicyStore) (st : ChannelState) (tx : ChannelTx) (auth : Auth) (score : Z)
  : result StateError ChannelState :=
  let s := pc_base st in
  let bk := pc_book st in
  let commit (b : WriteBatch) (ops : list ChannelOp) :=
    {| pc_base := write_batch s b; pc_book := write_book bk ops |} in
  match tx with
  | CreateChannel t =>
      let? (_, b, ops, _) := apply_drc_payment_channel_create s ps bk t auth score [] [] in Ok (commit b ops)
  | FundChannel t =>
      let? (b, ops, _) := apply_drc_payment_channel_fund s ps bk t auth score [] [] in Ok (commit b ops)
  | ClaimChannel t =>
      let? (b, ops, _) := apply_drc_payment_channel_claim s ps bk t auth score [] [] in Ok (commit b ops)
  | CloseChannel t =>
      let? (_, b, ops, _) := apply_drc_payment_channel_close s ps bk t auth score [] [] in Ok (commit b ops)
  end.
End channel.
