(* ===== verification/ChannelProps.v ===== *)
(** * Payment channels: conservation, claims, settlement and exit *)

From stdpp Require Import base gmap list fin_maps strings relations.
From Stdlib Require Import ZArith Lia.
From S2P Require Import Prelude Ordering Sums Types Finality Store Supply Accounts Objects Policy Channel.
Local Open Scope Z_scope.

(** What a channel still locks. *)
Definition remainder (c : DrcPaymentChannelLive) : Z := pl_total_funded c - pl_cumulative_claimed c.
Definition locked_channels (bk : ChannelBook) : Z := msum (fun _ c => remainder c) (live bk).

(** The account writes of a settlement: the fee from the submitter, the
    remainder to the owner, in the orders the close kinds use. *)
Inductive close_puts (s : StateStore) (sub owner : Address) (fee rem n' : Z) : list (Address * AccountState) -> Prop :=
| cp_self_rem a : sub = owner -> 0 < rem ->
    a = {| balance := balance (acct_of s DRC owner) - fee + rem; nonce := n' |} -> balance a <= u64_max ->
    close_puts s sub owner fee rem n' [(owner, a); (owner, a)]
| cp_zero : rem = 0 ->
    close_puts s sub owner fee rem n' [(sub, {| balance := balance (acct_of s DRC sub) - fee; nonce := n' |})]
| cp_other l : sub <> owner -> 0 < rem -> balance (acct_of s DRC owner) + rem <= u64_max ->
    Permutation l [(sub, {| balance := balance (acct_of s DRC sub) - fee; nonce := n' |});
         (owner, {| balance := balance (acct_of s DRC owner) + rem; nonce := nonce (acct_of s DRC owner) |})] ->
    close_puts s sub owner fee rem n' l.
Definition closes s sub owner fee rem b : Prop :=
  exists sel tops n' l, seq_effect s sub (nonce (acct_of s DRC sub)) sel tops n' /\
    close_puts s sub owner fee rem n' l /\ b = tops ++ (put_drc <$> l).

Lemma closes_effect s sub owner fee rem b :
  accounts_ok s -> 0 <= fee <= balance (acct_of s DRC sub) -> closes s sub owner fee rem b ->
  accounts_ok (write_batch s b) /\
  (forall y, liquid y (write_batch s b) = liquid y s + (if bool_decide (y = DRC) then rem - fee else 0)) /\
  balance (acct_of (write_batch s b) DRC owner) =
    balance (acct_of s DRC owner) + rem - (if sub =? owner then fee else 0) /\
  (sub <> owner -> balance (acct_of (write_batch s b) DRC sub) = balance (acct_of s DRC sub) - fee) /\
  (forall x a, (x, a) <> (DRC, sub) -> (x, a) <> (DRC, owner) -> acct_of (write_batch s b) x a = acct_of s x a).
Proof.
  intros Hok Hfee (sel & tops & n' & l & Heff & Hp & ->).
  destruct (ao_ints _ Hok DRC sub) as [Hbs Hns]. destruct (ao_ints _ Hok DRC owner) as [Hbo Hno].
  destruct (seq_effect_nonce _ _ _ _ _ _ Heff Hns) as [Hn1 Hn2]. pose proof (seq_effect_frame _ _ _ _ _ _ Heff) as Hfr.
  unfold in_u64 in *. destruct Hp as [a -> Hr -> Hmax| ->|l Hne Hr Hmax Hl].
  - split; [eapply puts_accounts_ok; [done..|]; unfold in_u64; repeat constructor; cbn [fst snd balance nonce] in *; lia|].
    split; [intros y; rewrite liquid_put_two by done; rewrite (bool_decide_eq_true_2 (owner = owner)) by done;
      cbn [balance]; destruct (bool_decide _); lia|].
    rewrite !acct_of_puts by done. cbn [foldl fst snd]. rewrite (bool_decide_eq_true_2 (_ = _)) by done. rewrite Z.eqb_refl.
    cbn [balance]. split; [lia|]. split; [done|]. intros x c H1 _. rewrite acct_of_puts by done. cbn [foldl fst snd].
    by rewrite !bool_decide_eq_false_2.
  - split; [eapply puts_accounts_ok; [done..|]; unfold in_u64; repeat constructor; cbn [fst snd balance nonce] in *; lia|].
    split; [intros y; rewrite liquid_put_one by done; cbn [balance]; destruct (bool_decide _); lia|].
    rewrite !acct_of_puts by done. cbn [foldl fst snd]. split.
    + destruct (Z.eqb_spec sub owner) as [->|Hne]; [by rewrite bool_decide_eq_true_2; [cbn [balance]; lia|]|].
      rewrite bool_decide_eq_false_2 by congruence. lia.
    + split; [intros _; by rewrite bool_decide_eq_true_2|]. intros x c H1 _. rewrite acct_of_puts by done.
      cbn [foldl fst snd]. by rewrite bool_decide_eq_false_2.
  - rewrite (proj2 (Z.eqb_neq _ _) Hne). assert (l = _ \/ l = _) as Hcases by (by apply Permutation_length_2_inv; symmetry).
    assert (forall x c, acct_of (write_batch s (tops ++ (put_drc <$> l))) x c =
      if bool_decide ((x, c) = (DRC, sub)) then {| balance := balance (acct_of s DRC sub) - fee; nonce := n' |}
      else if bool_decide ((x, c) = (DRC, owner)) then
        {| balance := balance (acct_of s DRC owner) + rem; nonce := nonce (acct_of s DRC owner) |}
      else acct_of s x c) as Hacct.
    { intros x c. rewrite acct_of_puts by done.
      destruct Hcases as [-> | ->]; cbn [foldl fst snd]; repeat case_bool_decide; congruence. }
    split; [|split; [|split; [|split]]].
    + eapply puts_accounts_ok; [done..|]. destruct Hcases as [-> | ->]; unfold in_u64;
        repeat constructor; cbn [fst snd balance nonce] in *; lia.
    + intros y. destruct Hcases as [-> | ->]; rewrite liquid_put_two by done;
        rewrite (bool_decide_eq_false_2 (_ = _ :> Address)) by congruence; cbn [balance]; destruct (bool_decide _); lia.
    + rewrite Hacct, bool_decide_eq_false_2, bool_decide_eq_true_2 by congruence. cbn [balance]. lia.
    + intros _. by rewrite Hacct, bool_decide_eq_true_2.
    + intros x c H1 H2. by rewrite Hacct, !bool_decide_eq_false_2.
Qed.

Section channel_spec.
Context {Auth : Type}.
Variable verify_create : StateStore -> PolicyStore -> DrcPaymentChannelCreateTx -> Auth -> result StateError unit.
Variable verify_fund : StateStore -> PolicyStore -> DrcPaymentChannelFundTx -> Auth -> result StateError unit.
Variable verify_claim_envelope : StateStore -> PolicyStore -> DrcPaymentChannelClaimTx -> Auth -> result StateError unit.
Variable verify_close : StateStore -> PolicyStore -> DrcPaymentChannelCloseTx -> Auth -> result StateError unit.
Variable verify_offledger : list Z -> list Z -> Auth -> Hash -> Z -> result string unit.
Variable channel_id : DrcPaymentChannelCreateTx -> Hash.
Variable fund_tx_id : DrcPaymentChannelFundTx -> Hash.
Variable claim_tx_id : DrcPaymentChannelClaimTx -> Hash.
Variable close_tx_id : DrcPaymentChannelCloseTx -> Hash.
Abbreviation create := (apply_drc_payment_channel_create verify_create channel_id).
Abbreviation fund := (apply_drc_payment_channel_fund verify_fund fund_tx_id).
Abbreviation claim := (apply_drc_payment_channel_claim verify_claim_envelope verify_offledger claim_tx_id).
Abbreviation close := (apply_drc_payment_channel_close verify_close close_tx_id).
Abbreviation run := (apply_channel_tx verify_create verify_fund verify_claim_envelope verify_close verify_offledger
  channel_id fund_tx_id claim_tx_id close_tx_id).
Implicit Types (s : StateStore) (bk : ChannelBook) (c : DrcPaymentChannelLive) (st : ChannelState).

(** ** The invariant *)

Record live_ok (id : Hash) (c : DrcPaymentChannelLive) : Prop := {
  lo_valid : validate_channel_live c = Ok tt;
  lo_id : pl_channel_id c = id;
  lo_amounts : 0 <= pl_cumulative_claimed c <= pl_total_funded c /\ pl_total_funded c <= u64_max;
  lo_parties : pl_owner c <> pl_destination c;
  lo_delay : 0 < pl_settle_delay c;
}.
Record channel_ok (st : ChannelState) : Prop := {
  ch_accounts : accounts_ok (pc_base st);
  ch_book : book_ok pl_owner 32 (pc_book st);
  ch_live id c : live (pc_book st) !! id = Some c -> live_ok id c;
}.
Definition channel_ints (tx : ChannelTx) : Prop :=
  match tx with
  | CreateChannel t => 0 <= pc_amount t /\ 0 <= pc_fee t /\ 0 <= pc_settle_delay t
  | FundChannel t => 0 <= fu_amount t /\ 0 <= fu_fee t
  | ClaimChannel t => 0 <= cm_fee t
  | CloseChannel t => 0 <= co_fee t
  end.

(** ** What each accepted operation does *)

Lemma load_channel_ok bk id found :
  load_drc_payment_channel_live bk id = Ok found ->
  live bk !! id = found /\ (forall c, found = Some c -> pl_channel_id c = id).
Proof.
  unfold load_drc_payment_channel_live. destruct (live bk !! id) as [c|]; [|intros [= <-]; done].
  intros H. apply rbind_Ok in H as (_ & _ & H). apply rbind_Ok in H as (_ & Hi%ensure_Ok%Z.eqb_eq & [= <-]).
  split; [done|]. by intros ? [= <-].
Qed.
Lemma put_live_Ok c ops :
  put_live c = Ok ops -> ops = [PutLive (pl_channel_id c) c] /\ validate_channel_live c = Ok tt.
Proof.
  unfold put_live, lift_storage. destruct (validate_channel_live c) as [[]|]; [|done]. cbn [rbind].
  intros H. apply Ok_inj in H. by subst.
Qed.

Definition new_channel (tx : DrcPaymentChannelCreateTx) (score : Z) : DrcPaymentChannelLive :=
  {| pl_version := DRC_PAYMENT_CHANNEL_LIVE_STATE_VERSION; pl_channel_id := channel_id tx; pl_owner := pc_owner tx;
     pl_destination := pc_destination tx; pl_destination_tag := pc_destination_tag tx;
     pl_source_tag := pc_source_tag tx; pl_invoice_id := pc_invoice_id tx;
     pl_claim_public_key := pc_claim_public_key tx; pl_settle_delay := pc_settle_delay tx;
     pl_cancel_after := pc_cancel_after tx; pl_total_funded := pc_amount tx; pl_cumulative_claimed := 0;
     pl_close_finalizable_after := None; pl_create_blue_score := score |}.
Lemma channel_create_inv s ps bk tx auth score id b ops j :
  book_ok pl_owner 32 bk -> channel_ints (CreateChannel tx) ->
  create s ps bk tx auth score [] [] = Ok (id, b, ops, j) ->
  live bk !! channel_id tx = None /\ settled bk !! channel_id tx = None /\ live_ok (channel_id tx) (new_channel tx score) /\
  let a := acct_of s DRC (pc_owner tx) in
  pc_amount tx + pc_fee tx <= balance a /\
  charges s (pc_owner tx) (fun n' => [(pc_owner tx, {| balance := balance a - (pc_amount tx + pc_fee tx); nonce := n' |})]) b /\
  exists iops,
    put_owner_index (pc_owner tx) (sort_by Z.compare (index_ids bk (pc_owner tx) ++ [channel_id tx])) 32
      "DRC live payment channel cap exceeded" = Ok iops /\
    ops = iops ++ [PutLive (channel_id tx) (new_channel tx score)].
Proof.
  intros Hok (Hi1 & Hi2 & Hi3) H. unfold apply_drc_payment_channel_create in H.
  apply rbind_Ok in H as ([] & Hv & H). apply rbind_Ok in H as (_ & _ & H).
  apply rbind_Ok in H as (_ & Hl%ensure_Ok & H). apply negb_true_iff, bool_decide_eq_false_1, eq_None_not_Some in Hl.
  apply rbind_Ok in H as (_ & Hu%ensure_Ok & H). apply negb_true_iff, bool_decide_eq_false_1, eq_None_not_Some in Hu.
  apply rbind_Ok in H as (_ & _ & H). apply rbind_Ok in H as (_ & _ & H).
  apply rbind_Ok in H as (pol & _ & H). apply rbind_Ok in H as (_ & _ & H).
  apply rbind_Ok in H as (ow & [_ ->]%load_account_Ok & H). apply rbind_Ok in H as (ctx & Hb & H).
  apply rbind_Ok in H as (db & [-> Hdb]%ok_or_Ok%checked_add_Some & H).
  apply rbind_Ok in H as (_ & Hf%ensure_Ok%Z.leb_le & H).
  erewrite load_index_ok in H by done. cbn [rbind] in H. apply rbind_Ok in H as (_ & _ & H).
  apply rbind_Ok in H as ([b1 acct] & Hfin & H). apply rbind_Ok in H as (b2 & [_ ->]%put_account_into_Ok & H).
  apply rbind_Ok in H as (iops & Hi & H). cbv zeta in H. fold (new_channel tx score) in H.
  apply rbind_Ok in H as (lops & [-> Hlv]%put_live_Ok & H). apply Ok_inj in H. apply pair_eq in H as [H _].
  apply pair_eq in H as [H <-]. apply pair_eq in H as [_ <-].
  destruct (op_sequence_run _ _ _ _ _ _ _ _ _ _ _ _ _ Hb Hfin) as (sel & tops & n' & -> & -> & Heff).
  split; [done|]. split; [done|]. split.
  - destruct (validate_channel_create tx) as [[]|] eqn:E; [|done]. unfold validate_channel_create in E.
    apply rbind_Ok in E as (_ & _ & E). apply rbind_Ok in E as (_ & Ha%ensure_Ok%negb_true_iff & E).
    apply orb_false_iff in Ha as [_ Ha%Z.eqb_neq]. do 3 apply rbind_Ok in E as (_ & _ & E).
    apply rbind_Ok in E as (_ & Hd%ensure_Ok%negb_true_iff%Z.eqb_neq & _).
    split; cbn [new_channel pl_channel_id pl_cumulative_claimed pl_total_funded pl_owner pl_destination pl_settle_delay]; [done|done| |done|]; lia.
  - cbv zeta. split; [done|]. split; [by exists sel, tops, n'|]. by exists iops.
Qed.

Lemma fund_inv s ps bk tx auth score b ops j :
  fund s ps bk tx auth score [] [] = Ok (b, ops, j) ->
  exists c, live bk !! fu_channel_id tx = Some c /\ pl_channel_id c = fu_channel_id tx /\ fu_submitter tx = pl_owner c /\
    fu_amount tx <> 0 /\
    let c' := set_total_funded c (pl_total_funded c + fu_amount tx) in
    let a := acct_of s DRC (pl_owner c) in
    pl_total_funded c' <= u64_max /\ validate_channel_live c' = Ok tt /\ fu_amount tx + fu_fee tx <= balance a /\
    charges s (pl_owner c) (fun n' => [(pl_owner c, {| balance := balance a - (fu_amount tx + fu_fee tx); nonce := n' |})]) b /\
    ops = [PutLive (fu_channel_id tx) c';
           PutEvent "paychan/drc/fund/" (fund_tx_id tx)
             (FundEvent (fu_channel_id tx) (fund_tx_id tx) (fu_amount tx) (pl_total_funded c') score)].
Proof.
  intros H. unfold apply_drc_payment_channel_fund in H.
  apply rbind_Ok in H as ([] & Hv & H). do 2 apply rbind_Ok in H as (_ & _ & H).
  apply rbind_Ok in H as (found & [Hl Hid]%load_channel_ok & H). apply rbind_Ok in H as (c & ->%ok_or_Ok & H).
  specialize (Hid c eq_refl). apply rbind_Ok in H as (_ & Ho%ensure_Ok%Z.eqb_eq & H). rewrite Ho in H.
  apply rbind_Ok in H as (ow & [_ ->]%load_account_Ok & H). apply rbind_Ok in H as (ctx & Hb & H).
  apply rbind_Ok in H as (db & [-> Hdb]%ok_or_Ok%checked_add_Some & H).
  apply rbind_Ok in H as (_ & Hf%ensure_Ok%Z.leb_le & H).
  apply rbind_Ok in H as ([b1 acct] & Hfin & H). apply rbind_Ok in H as (b2 & [_ ->]%put_account_into_Ok & H).
  apply rbind_Ok in H as (tot & [-> Htot]%ok_or_Ok%checked_add_Some & H). cbv zeta in H.
  apply rbind_Ok in H as (lops & [-> Hlv]%put_live_Ok & H). apply Ok_inj in H. apply pair_eq in H as [H _].
  apply pair_eq in H as [<- <-].
  destruct (op_sequence_run _ _ _ _ _ _ _ _ _ _ _ _ _ Hb Hfin) as (sel & tops & n' & -> & -> & Heff).
  exists c. repeat (split; [done|]). split.
  { destruct (validate_channel_fund tx) as [[]|] eqn:E; [|done]. unfold validate_channel_fund in E.
    do 2 apply rbind_Ok in E as (_ & _ & E). by apply ensure_Ok, negb_true_iff, Z.eqb_neq in E. }
  cbv zeta. repeat (split; [done|]). split; [by exists sel, tops, n'|]. cbn [set_total_funded pl_channel_id pl_total_funded].
  by rewrite Hid.
Qed.
Lemma claim_inv s ps bk tx auth score b ops j :
  claim s ps bk tx auth score [] [] = Ok (b, ops, j) ->
  exists c, live bk !! cm_channel_id tx = Some c /\ pl_channel_id c = cm_channel_id tx /\
    cm_submitter tx = pl_destination c /\ payment_channel_onchain_claim_allowed score (pl_cancel_after c) = true /\
    verify_offledger (pl_claim_public_key c) (cm_channel_claim_signature tx) auth (cm_channel_id tx)
      (cm_cumulative_authorized tx) = Ok tt /\
    pl_cumulative_claimed c < cm_cumulative_authorized tx <= pl_total_funded c /\
    let c' := set_cumulative_claimed c (cm_cumulative_authorized tx) in
    let delta := cm_cumulative_authorized tx - pl_cumulative_claimed c in
    let a := acct_of s DRC (pl_destination c) in
    validate_channel_live c' = Ok tt /\ cm_fee tx <= balance a /\ balance a - cm_fee tx + delta <= u64_max /\
    charges s (pl_destination c) (fun n' => [(pl_destination c, {| balance := balance a - cm_fee tx + delta; nonce := n' |})]) b /\
    ops = [PutLive (cm_channel_id tx) c';
           PutEvent "paychan/drc/claim/" (claim_tx_id tx)
             (ClaimEvent (cm_channel_id tx) (claim_tx_id tx) (cm_cumulative_authorized tx) delta score)].
Proof.
  intros H. unfold apply_drc_payment_channel_claim in H.
  apply rbind_Ok in H as (_ & _ & H). apply rbind_Ok in H as ([] & Hver & H). apply rbind_Ok in H as (_ & _ & H).
  apply rbind_Ok in H as (found & Hload & H). pose proof Hload as [Hl Hid]%load_channel_ok.
  apply rbind_Ok in H as (c & ->%ok_or_Ok & H).
  assert (verify_offledger (pl_claim_public_key c) (cm_channel_claim_signature tx) auth (cm_channel_id tx)
      (cm_cumulative_authorized tx) = Ok tt) as Hsig.
  { unfold verify_drc_payment_channel_claim_operation in Hver. apply rbind_Ok in Hver as (_ & _ & Hver).
    rewrite Hload in Hver. cbn [rbind ok_or] in Hver. unfold lift_msg in Hver. by destruct (verify_offledger _ _ _ _ _) as [[]|]. }
  specialize (Hid c eq_refl). apply rbind_Ok in H as (_ & Ho%ensure_Ok%Z.eqb_eq & H). rewrite Ho in H.
  apply rbind_Ok in H as (_ & Hw%ensure_Ok & H). apply rbind_Ok in H as (_ & Hlt%ensure_Ok%Z.ltb_lt & H).
  apply rbind_Ok in H as (_ & Hle%ensure_Ok%Z.leb_le & H). cbv zeta in H.
  apply rbind_Ok in H as (ow & [_ ->]%load_account_Ok & H). apply rbind_Ok in H as (ctx & Hb & H).
  apply rbind_Ok in H as (_ & Hf%ensure_Ok%Z.leb_le & H).
  apply rbind_Ok in H as (cr & [-> Hcr]%ok_or_Ok%checked_add_Some & H).
  apply rbind_Ok in H as ([b1 acct] & Hfin & H). apply rbind_Ok in H as (b2 & [_ ->]%put_account_into_Ok & H).
  apply rbind_Ok in H as (lops & [-> Hlv]%put_live_Ok & H). apply Ok_inj in H. apply pair_eq in H as [H _].
  apply pair_eq in H as [<- <-].
  destruct (op_sequence_run _ _ _ _ _ _ _ _ _ _ _ _ _ Hb Hfin) as (sel & tops & n' & -> & -> & Heff).
  exists c. repeat (split; [done|]). cbv zeta. repeat (split; [done|]). split; [by exists sel, tops, n'|].
  cbn [set_cumulative_claimed pl_channel_id]. by rewrite Hid.
Qed.

(** The book side of a settlement, and the account write of the remainder. *)
Definition channel_leaves bk c (score : Z) (tx : Hash) (ops : list ChannelOp) : Prop :=
  exists iops,
    put_owner_index (pl_owner c) (filter (fun x => x <> pl_channel_id c) (index_ids bk (pl_owner c))) 32
      "DRC live payment channel cap exceeded" = Ok iops /\
    ops = iops ++ [DeleteLive (pl_channel_id c); PutSettled (pl_channel_id c) tx;
                   PutReceipt (pl_channel_id c) (channel_receipt_of c score tx)].
Lemma finalize_inv s bk b j c score tx held r held' b' ops j' :
  book_ok pl_owner 32 bk -> finalize_channel s bk b j c score tx held = Ok (r, held', b', ops, j') ->
  r = channel_receipt_of c score tx /\ channel_leaves bk c score tx ops /\
  ((remainder c = 0 /\ held' = held /\ b' = b) \/
   (0 < remainder c /\
    let base := default (acct_of s DRC (pl_owner c)) held in
    let o := {| balance := balance base + remainder c; nonce := nonce base |} in
    balance o <= u64_max /\ b' = b ++ [PutAccount DRC (pl_owner c) o] /\ held' = (fun _ => o) <$> held)).
Proof.
  intros Hok H. unfold finalize_channel in H. apply rbind_Ok in H as (rem & Hrem & H).
  assert (rem = remainder c /\ 0 <= rem) as [-> Hpos].
  { unfold locked_remainder, checked_sub in Hrem. destruct (pl_cumulative_claimed c <=? pl_total_funded c) eqn:E; [|done].
    apply Z.leb_le in E. cbn in Hrem. injection Hrem as <-. unfold remainder. lia. }
  apply rbind_Ok in H as ([[h b1] j1] & Hpay & H).
  erewrite load_index_ok in H by done. cbn [rbind] in H. apply rbind_Ok in H as (iops & Hi & H).
  apply rbind_Ok in H as (_ & _ & H). apply Ok_inj in H. apply pair_eq in H as [H _]. apply pair_eq in H as [H <-].
  apply pair_eq in H as [H <-]. apply pair_eq in H as [<- <-].
  split; [done|]. split; [by exists iops|]. destruct (0 <? remainder c) eqn:E.
  - apply Z.ltb_lt in E. right. split; [done|]. cbv zeta. destruct held as [o|].
    + apply rbind_Ok in Hpay as (bal & [-> Hb]%ok_or_Ok%checked_add_Some & Hpay).
      apply rbind_Ok in Hpay as (b2 & [_ ->]%put_account_into_Ok & Hpay). apply Ok_inj in Hpay.
      apply pair_eq in Hpay as [Hpay _]. by apply pair_eq in Hpay as [<- <-].
    + apply rbind_Ok in Hpay as (o & [_ ->]%load_account_Ok & Hpay).
      apply rbind_Ok in Hpay as (bal & [-> Hb]%ok_or_Ok%checked_add_Some & Hpay).
      apply rbind_Ok in Hpay as (b2 & [_ ->]%put_account_into_Ok & Hpay). apply Ok_inj in Hpay.
      apply pair_eq in Hpay as [Hpay _]. by apply pair_eq in Hpay as [<- <-].
  - apply Z.ltb_ge in E. left. apply Ok_inj in Hpay. apply pair_eq in Hpay as [Hpay _].
    apply pair_eq in Hpay as [<- <-]. split; [lia|done].
Qed.

Lemma close_inv s ps bk tx auth score r b ops j :
  channel_ok {| pc_base := s; pc_book := bk |} -> close s ps bk tx auth score [] [] = Ok (r, b, ops, j) ->
  exists c, live bk !! co_channel_id tx = Some c /\ pl_channel_id c = co_channel_id tx /\
    co_fee tx <= balance (acct_of s DRC (co_submitter tx)) /\
    payment_channel_close_submitter_allowed (co_close_kind tx) (co_submitter tx) (pl_owner c) (pl_destination c) = true /\
    (co_close_kind tx = Finalize ->
       payment_channel_finalize_allowed score (pl_close_finalizable_after c) (pl_cancel_after c) = true) /\
    if bool_decide (co_close_kind tx = OwnerScheduleClose) then
      let d := score + pl_settle_delay c in
      let c' := set_close_finalizable_after c (Some d) in
      let a := acct_of s DRC (pl_owner c) in
      d <= u64_max /\ validate_channel_live c' = Ok tt /\
      charges s (pl_owner c) (fun n' => [(pl_owner c, {| balance := balance a - co_fee tx; nonce := n' |})]) b /\
      ops = [PutLive (co_channel_id tx) c';
             PutEvent "paychan/drc/schedule/" (close_tx_id tx) (ScheduleEvent (co_channel_id tx) (close_tx_id tx) d score)]
    else closes s (co_submitter tx) (pl_owner c) (co_fee tx) (remainder c) b /\
         channel_leaves bk c score (close_tx_id tx) ops.
Proof.
  intros Hok H. pose proof (ch_book _ Hok) as Hbk. cbn [pc_book] in Hbk. unfold apply_drc_payment_channel_close in H.
  do 3 apply rbind_Ok in H as (_ & _ & H).
  apply rbind_Ok in H as (found & [Hl Hid]%load_channel_ok & H). apply rbind_Ok in H as (c & ->%ok_or_Ok & H).
  specialize (Hid c eq_refl). pose proof (lo_parties _ _ (ch_live _ Hok _ _ Hl)) as Hpar.
  apply rbind_Ok in H as (_ & Ho%ensure_Ok & H).
  apply rbind_Ok in H as (ow & [_ ->]%load_account_Ok & H). apply rbind_Ok in H as (ctx & Hb & H).
  apply rbind_Ok in H as (_ & Hf%ensure_Ok%Z.leb_le & H). apply rbind_Ok in H as ([b1 acct] & Hfin & H).
  destruct (op_sequence_run _ _ _ _ _ _ _ _ _ _ _ _ _ Hb Hfin) as (sel & tops & n' & -> & -> & Heff).
  exists c. repeat (split; [done|]). destruct (co_close_kind tx) eqn:Ek; cbn [payment_channel_close_submitter_allowed] in Ho.
  - split; [done|]. apply Z.eqb_eq in Ho. rewrite Ho in *. rewrite bool_decide_eq_true_2 by done. cbv zeta.
    apply rbind_Ok in H as (b2 & [_ ->]%put_account_into_Ok & H). apply rbind_Ok in H as (d & Hd & H).
    assert (d = score + pl_settle_delay c /\ d <= u64_max) as [-> Hmax].
    { unfold payment_channel_owner_schedule_deadline, lift_msg in Hd. destruct (checked_add _ _ _) eqn:E; [|done].
      apply checked_add_Some in E as [-> ?]. by injection Hd as <-. }
    apply rbind_Ok in H as (lops & [-> Hlv]%put_live_Ok & H). apply Ok_inj in H. apply pair_eq in H as [H _].
    apply pair_eq in H as [H <-]. apply pair_eq in H as [_ <-]. split; [done|]. split; [done|].
    split; [by exists sel, tops, n'|]. cbn [set_close_finalizable_after pl_channel_id]. by rewrite Hid.
  - split; [done|]. apply Z.eqb_eq in Ho. rewrite bool_decide_eq_false_2 by done.
    apply rbind_Ok in H as (b2 & [_ ->]%put_account_into_Ok & H).
    apply rbind_Ok in H as ([[[[r1 h] b3] ops1] j1] & Hz & H). apply Ok_inj in H. apply pair_eq in H as [H _].
    apply pair_eq in H as [H <-]. apply pair_eq in H as [_ <-].
    apply finalize_inv in Hz as (_ & Hle & [(Hr & _ & ->)|(Hr & Hmax & -> & _)]); [..|done]; split; try done;
      exists sel, tops, n'; eexists; (split; [done|]).
    + split; [by apply cp_zero|done].
    + cbn [default balance] in *. split; [apply cp_other; [congruence|done|done|reflexivity]|].
      rewrite <- app_assoc. done.
  - apply rbind_Ok in H as (_ & Hw%ensure_Ok & H). split; [done|]. rewrite bool_decide_eq_false_2 by done. cbv zeta in H.
    apply rbind_Ok in H as ([[[[r1 h] b3] ops1] j1] & Hz & H). apply rbind_Ok in H as (b4 & [_ ->]%put_account_into_Ok & H).
    apply Ok_inj in H. apply pair_eq in H as [H _]. apply pair_eq in H as [H <-]. apply pair_eq in H as [_ <-].
    destruct (Z.eqb_spec (co_submitter tx) (pl_owner c)) as [Es|Es];
    apply finalize_inv in Hz as (_ & Hle & [(Hr & -> & ->)|(Hr & Hmax & -> & ->)]); try done; (split; [|done]);
      exists sel, tops, n'; eexists; (split; [done|]); cbn [default fmap option_fmap option_map] in *.
    + split; [by apply cp_zero|done].
    + rewrite Es in *. split; [by eapply cp_self_rem|]. cbn [balance nonce]. rewrite <- app_assoc. done.
    + split; [by apply cp_zero|done].
    + split; [apply cp_other; [done|done|done|apply Permutation_swap]|]. rewrite <- app_assoc. done.
Qed.

(** ** Conservation *)

Definition channel_fee (tx : ChannelTx) : Z :=
  match tx with
  | CreateChannel t => pc_fee t
  | FundChannel t => fu_fee t
  | ClaimChannel t => cm_fee t
  | CloseChannel t => co_fee t
  end.
Definition channel_target (tx : ChannelTx) : Hash :=
  match tx with
  | CreateChannel t => channel_id t
  | FundChannel t => fu_channel_id t
  | ClaimChannel t => cm_channel_id t
  | CloseChannel t => co_channel_id t
  end.
(** How a live channel may change: funds are added, the claimed amount grows
    within them, or a close is scheduled one settle delay ahead. *)
Inductive channel_update : DrcPaymentChannelLive -> DrcPaymentChannelLive -> Prop :=
| upd_fund c total : pl_total_funded c < total -> channel_update c (set_total_funded c total)
| upd_claim c n : pl_cumulative_claimed c < n <= pl_total_funded c -> channel_update c (set_cumulative_claimed c n)
| upd_schedule c score :
    channel_update c (set_close_finalizable_after c (Some (score + pl_settle_delay c))).
Definition channel_born (id : Hash) (c : DrcPaymentChannelLive) : Prop :=
  live_ok id c /\ pl_cumulative_claimed c = 0 /\ pl_close_finalizable_after c = None.
(** A channel is settled by its destination, or once it is finalizable. *)
Definition channel_receipt (c : DrcPaymentChannelLive) (tx : Hash) (r : DrcPaymentChannelReceipt) : Prop :=
  exists t score, tx = close_tx_id t /\ r = channel_receipt_of c score tx /\
    (co_submitter t = pl_destination c \/
     co_submitter t = pl_owner c /\
       payment_channel_finalize_allowed score (pl_close_finalizable_after c) (pl_cancel_after c) = true).

(** One accepted operation: the invariant, the balance, the life of its channel. *)
Definition channel_effect st (tx : ChannelTx) st' : Prop :=
  channel_ok st' /\
  liquid DRC (pc_base st') + locked_channels (pc_book st') =
    liquid DRC (pc_base st) + locked_channels (pc_book st) - channel_fee tx /\
  moves channel_born channel_update channel_receipt (pc_book st) (pc_book st') (channel_target tx).

(** The effect of an operation that replaces a live channel and charges one account. *)
Lemma update_effect s bk id c c' a bal fee b p t e tx :
  channel_ok {| pc_base := s; pc_book := bk |} -> live bk !! id = Some c -> channel_update c c' -> live_ok id c' ->
  charges s a (fun n' => [(a, {| balance := bal; nonce := n' |})]) b -> in_u64 bal ->
  bal + remainder c' = balance (acct_of s DRC a) + remainder c - fee ->
  channel_target tx = id -> channel_fee tx = fee ->
  channel_effect {| pc_base := s; pc_book := bk |} tx
    {| pc_base := write_batch s b; pc_book := write_book bk [PutLive id c'; PutEvent p t e] |}.
Proof.
  intros Hok Hl Hu Hlv Hch Hbal Hsum Ht Hf. pose proof Hok as [Hacc Hbk Hlive]. cbn [pc_base pc_book] in *.
  assert (pl_owner c' = pl_owner c) as Ho by (by destruct Hu).
  destruct (book_update_ok pl_owner 32 bk id c c' p t e Hbk Hl Ho) as (Hok' & El & Es & Er).
  split; [split; cbn [pc_base pc_book]|split].
  - eapply charges_ok; [done..|]. intros n' H1 H2. apply Forall_singleton. cbn [fst snd balance nonce]. exact (conj Hbal (conj H2 H1)).
  - exact Hok'.
  - intros id' v. rewrite El. intros [[<- <-]|[_ H]]%lookup_insert_Some; [done|by apply Hlive].
  - cbn [pc_base pc_book]. rewrite (charges_one _ _ _ _ DRC Hch), bool_decide_eq_true_2 by done.
    unfold locked_channels. rewrite El, msum_insert, Hl. cbn [contrib]. lia.
  - cbn [pc_book]. rewrite Ht. by eapply update_moves.
Qed.

Lemma channel_leaves_book bk id c score tx ops :
  book_ok pl_owner 32 bk -> live bk !! id = Some c -> pl_channel_id c = id -> channel_leaves bk c score tx ops ->
  book_ok pl_owner 32 (write_book bk ops) /\ live (write_book bk ops) = delete id (live bk) /\
  settled (write_book bk ops) = <[id := tx]> (settled bk) /\
  receipts (write_book bk ops) = <[id := channel_receipt_of c score tx]> (receipts bk).
Proof.
  intros Hok Hl <- (iops & Hi & ->).
  by destruct (book_settle_ok pl_owner 32 bk _ c tx (channel_receipt_of c score tx) _ _ Hok Hl Hi) as (? & ? & ? & ? & _).
Qed.

Lemma close_effect s ps bk tx auth score r b ops j :
  channel_ok {| pc_base := s; pc_book := bk |} -> 0 <= co_fee tx ->
  close s ps bk tx auth score [] [] = Ok (r, b, ops, j) ->
  channel_effect {| pc_base := s; pc_book := bk |} (CloseChannel tx)
    {| pc_base := write_batch s b; pc_book := write_book bk ops |}.
Proof.
  intros Hok Hfee H. pose proof Hok as [Hacc Hbk Hlive]. cbn [pc_base pc_book] in *.
  apply close_inv in H as (c & Hl & Hid & Hf & Hsub & Hfz & H); [|done]. pose proof (Hlive _ _ Hl) as Hlv.
  destruct (bool_decide (co_close_kind tx = OwnerScheduleClose)) eqn:Ek.
  - destruct H as (Hd & Hv & Hch & ->). apply bool_decide_eq_true_1 in Ek. rewrite Ek in Hsub.
    apply Z.eqb_eq in Hsub. rewrite Hsub in *. destruct (ao_ints _ Hacc DRC (pl_owner c)) as [Hb _].
    eapply update_effect; eauto; [constructor| |unfold in_u64 in *; lia|].
    + destruct Hlv. by split.
    + unfold remainder. cbn [set_close_finalizable_after pl_total_funded pl_cumulative_claimed channel_fee]. lia.
  - destruct H as [Hcl Hle]. destruct (channel_leaves_book _ _ _ _ _ _ Hbk Hl Hid Hle) as (Hok' & El & Es & Er).
    destruct (closes_effect _ _ _ _ _ _ Hacc (conj Hfee Hf) Hcl) as (Hacc' & Hliq & _).
    split; [split; cbn [pc_base pc_book]; [done|done|]|split; cbn [pc_base pc_book channel_fee channel_target]].
    + intros id' v. rewrite El. intros [_ H]%lookup_delete_Some. by apply Hlive.
    + rewrite Hliq, bool_decide_eq_true_2 by done. unfold locked_channels. rewrite El, (msum_delete_eq _ _ _ _ Hl). lia.
    + eapply settle_moves; eauto. exists tx, score. split; [done|]. split; [done|].
      destruct (co_close_kind tx); cbn [payment_channel_close_submitter_allowed] in Hsub; [done|left; by apply Z.eqb_eq|].
      apply orb_true_iff in Hsub as [Hs|Hs]; apply Z.eqb_eq in Hs; [right; split; [done|by apply Hfz]|by left].
Qed.

Lemma channel_run_effect ps st tx auth score st' :
  channel_ok st -> channel_ints tx -> run ps st tx auth score = Ok st' -> channel_effect st tx st'.
Proof.
  intros Hok Hi H. destruct st as [s bk]. pose proof Hok as [Hacc Hbk Hlive]. cbn [pc_base pc_book] in *.
  destruct tx as [tx|tx|tx|tx]; cbn [apply_channel_tx pc_base pc_book channel_ints] in *.
  - apply rbind_Ok in H as ([[[id b] ops] j] & H & H'). apply Ok_inj in H'. subst st'.
    apply channel_create_inv in H as (Hl & Hs & Hlv & Hf & Hch & iops & Hp & ->); [|done..].
    destruct (book_create_ok pl_owner 32 bk _ (new_channel tx score) _ _ Hbk Hl Hs Hp) as (Hok' & El & Es & Er & _).
    destruct (ao_ints _ Hacc DRC (pc_owner tx)) as [Hb _]. unfold in_u64 in *.
    split; [split; cbn [pc_base pc_book]|split; cbn [pc_base pc_book channel_fee channel_target]].
    + eapply charges_ok; [done..|]. intros n' H1 H2. unfold in_u64 in *. repeat constructor; cbn [fst snd balance nonce]; lia.
    + exact Hok'.
    + intros id' v. rewrite El. intros [[<- <-]|[_ H]]%lookup_insert_Some; [done|by apply Hlive].
    + rewrite (charges_one _ _ _ _ DRC Hch), bool_decide_eq_true_2 by done. unfold locked_channels.
      rewrite El, msum_insert, Hl. cbn [contrib]. unfold remainder. cbn [new_channel pl_total_funded pl_cumulative_claimed]. lia.
    + eapply create_moves; eauto. by split.
  - apply rbind_Ok in H as ([[b ops] j] & H & H'). apply Ok_inj in H'. subst st'.
    apply fund_inv in H as (c & Hl & Hid & Hs & Ha & Hmax & Hv & Hf & Hch & ->). pose proof (Hlive _ _ Hl) as [H1 H2 H3 H4 H5].
    destruct (ao_ints _ Hacc DRC (pl_owner c)) as [Hb _]. cbn [set_total_funded pl_total_funded] in Hmax.
    eapply update_effect; eauto; [constructor; lia| |unfold in_u64 in *; lia|].
    + split; cbn [set_total_funded pl_channel_id pl_cumulative_claimed pl_total_funded pl_owner pl_destination pl_settle_delay]; auto; lia.
    + unfold remainder. cbn [set_total_funded pl_total_funded pl_cumulative_claimed channel_fee]. lia.
  - apply rbind_Ok in H as ([[b ops] j] & H & H'). apply Ok_inj in H'. subst st'.
    apply claim_inv in H as (c & Hl & Hid & Hs & Hw & _ & Hcum & Hv & Hf & Hmax & Hch & ->).
    pose proof (Hlive _ _ Hl) as [H1 H2 H3 H4 H5]. destruct (ao_ints _ Hacc DRC (pl_destination c)) as [Hb _].
    eapply update_effect; eauto; [by constructor| |unfold in_u64 in *; lia|].
    + split; cbn [set_cumulative_claimed pl_channel_id pl_cumulative_claimed pl_total_funded pl_owner pl_destination pl_settle_delay]; auto; lia.
    + unfold remainder. cbn [set_cumulative_claimed pl_total_funded pl_cumulative_claimed channel_fee]. lia.
  - apply rbind_Ok in H as ([[[r b] ops] j] & H & H'). apply Ok_inj in H'. subst st'. by eapply close_effect.
Qed.

(** channels conserve DRC.  Every accepted operation keeps the invariant, and
    liquid balances plus what live channels lock change by exactly the fee of the
    transaction, whoever submits it. *)
Theorem channel_conservation ps st tx auth score st' :
  channel_ok st -> channel_ints tx -> run ps st tx auth score = Ok st' ->
  channel_ok st' /\
  liquid DRC (pc_base st') + locked_channels (pc_book st') =
    liquid DRC (pc_base st) + locked_channels (pc_book st) - channel_fee tx.
Proof. intros Hok Hi H. by destruct (channel_run_effect _ _ _ _ _ _ Hok Hi H) as (? & ? & _). Qed.

(** ** Life of a channel *)

Inductive channel_step : relation ChannelState :=
| ChannelStep ps st tx auth score st' :
    channel_ints tx -> run ps st tx auth score = Ok st' -> channel_step st st'.
Definition channel_life := status_step channel_born channel_update channel_receipt.
(** What the parties agreed on, and what may only grow. *)
Definition extends c c' : Prop :=
  pl_channel_id c' = pl_channel_id c /\ pl_owner c' = pl_owner c /\ pl_destination c' = pl_destination c /\
  pl_claim_public_key c' = pl_claim_public_key c /\ pl_settle_delay c' = pl_settle_delay c /\
  pl_cancel_after c' = pl_cancel_after c /\
  pl_total_funded c <= pl_total_funded c' /\ pl_cumulative_claimed c <= pl_cumulative_claimed c'.
Lemma updates_extend c c' : rtc channel_update c c' -> extends c c'.
Proof.
  induction 1 as [c|c1 c2 c3 Hu _ IH]; [by repeat split|]. destruct Hu; unfold extends in *; simpl in *; intuition; lia.
Qed.
Lemma deadline_kept c c' :
  rtc channel_update c c' -> (exists d, pl_close_finalizable_after c = Some d) ->
  exists d, pl_close_finalizable_after c' = Some d.
Proof. induction 1 as [c|c1 c2 c3 Hu _ IH]; [done|]. intros H. apply IH. destruct Hu; [done|done|by eexists]. Qed.
Lemma channel_ok_step st st' : channel_ok st -> channel_step st st' ->
  channel_ok st' /\ exists id, moves channel_born channel_update channel_receipt (pc_book st) (pc_book st') id.
Proof.
  intros Hok Hs. destruct Hs as [ps st1 tx auth score st2 Hi H].
  destruct (channel_run_effect _ _ _ _ _ _ Hok Hi H) as (? & _ & ?). split; [done|]. by exists (channel_target tx).
Qed.

(** a channel has one life.  Along any run of accepted operations each id
    goes from absent to live to settled; while it is live its parties, claim key,
    delay and cutoff never change, and the funded and claimed totals never go back.
    It is settled once, by its destination or, for the owner, not before the
    scheduled deadline or the cutoff; the receipt holds its final totals, and
    after that every operation on the id is refused. *)
Theorem channel_lifecycle st st' :
  channel_ok st -> rtc channel_step st st' ->
  channel_ok st' /\
  (forall id, rtc (channel_life id) (status (pc_book st) id) (status (pc_book st') id)) /\
  (forall id c, status (pc_book st) id = Live c ->
     match status (pc_book st') id with
     | Absent => False
     | Live c' => extends c c'
     | Settled tx r => exists c' r', r = Some r' /\ extends c c' /\ channel_receipt c' tx r'
     end) /\
  (forall id tx r, status (pc_book st) id = Settled tx r ->
     status (pc_book st') id = Settled tx r /\
     forall ps t auth score st2, channel_ints t -> channel_target t = id -> run ps st' t auth score <> Ok st2).
Proof.
  intros Hok Hr. destruct (run_refines _ _ _ _ pc_book _ _ _ channel_ok_step Hok Hr) as [Hok' Hlife].
  split; [done|]. split; [done|]. split.
  - intros id c Hc. specialize (Hlife id). rewrite Hc in Hlife. apply life_from_live in Hlife.
    destruct (status (pc_book st') id) as [|c'|tx r]; [done|by apply updates_extend|].
    destruct Hlife as (c' & r' & Hu & -> & Hrc). exists c', r'. split; [done|]. split; [by apply updates_extend|done].
  - intros id tx r Hs. specialize (Hlife id). rewrite Hs in Hlife. apply settled_final in Hlife. split; [done|].
    intros ps t auth score st2 Hi <- H. apply channel_run_effect in H as (_ & _ & [Hm _]); [|done..].
    rewrite Hlife in Hm. inversion Hm.
Qed.

(** a claim pays what the claim key signed.  An accepted claim is submitted by
    the destination before the cutoff, carries a valid signature of the channel's
    claim key over its id and cumulative amount, raises the claimed total to that
    amount, which stays within the funds, and pays the difference, less the fee, to
    the destination; no other account changes. *)
Theorem channel_claim_correct ps st tx auth score st' :
  channel_ok st -> channel_ints (ClaimChannel tx) -> run ps st (ClaimChannel tx) auth score = Ok st' ->
  exists c, live (pc_book st) !! cm_channel_id tx = Some c /\ cm_submitter tx = pl_destination c /\
    payment_channel_onchain_claim_allowed score (pl_cancel_after c) = true /\
    verify_offledger (pl_claim_public_key c) (cm_channel_claim_signature tx) auth (cm_channel_id tx)
      (cm_cumulative_authorized tx) = Ok tt /\
    pl_cumulative_claimed c < cm_cumulative_authorized tx <= pl_total_funded c /\
    live (pc_book st') !! cm_channel_id tx = Some (set_cumulative_claimed c (cm_cumulative_authorized tx)) /\
    balance (acct_of (pc_base st') DRC (pl_destination c)) =
      balance (acct_of (pc_base st) DRC (pl_destination c)) - cm_fee tx +
        (cm_cumulative_authorized tx - pl_cumulative_claimed c) /\
    (forall x a, (x, a) <> (DRC, pl_destination c) -> acct_of (pc_base st') x a = acct_of (pc_base st) x a).
Proof.
  intros Hok Hi H. destruct st as [s bk]. pose proof Hok as [Hacc Hbk Hlive]. cbn [apply_channel_tx pc_base pc_book] in *.
  apply rbind_Ok in H as ([[b ops] j] & H & H'). apply Ok_inj in H'. subst st'. cbn [pc_base pc_book].
  apply claim_inv in H as (c & Hl & Hid & Hs & Hw & Hsig & Hcum & Hv & Hf & Hmax & Hch & ->).
  destruct Hch as (sel & tops & n' & Heff & ->). apply seq_effect_frame in Heff.
  exists c. repeat (split; [done|]). split; [|split].
  - destruct bk. unfold write_book. cbn. by rewrite lookup_insert_eq.
  - rewrite acct_of_puts by done. cbn [foldl fst snd]. by rewrite bool_decide_eq_true_2.
  - intros x a Hx. rewrite acct_of_puts by done. cbn [foldl fst snd]. by rewrite bool_decide_eq_false_2.
Qed.

(** a settlement pays the remainder.  An accepted destination close or
    finalization gives the owner exactly what was funded and not claimed, takes the
    fee from the submitter, who may be the owner, changes no other account, and
    records the totals in the receipt; a finalization happens only from the
    scheduled deadline or the cutoff on. *)
Theorem channel_close_correct ps st tx auth score st' :
  channel_ok st -> channel_ints (CloseChannel tx) -> co_close_kind tx <> OwnerScheduleClose ->
  run ps st (CloseChannel tx) auth score = Ok st' ->
  exists c, live (pc_book st) !! co_channel_id tx = Some c /\
    (co_submitter tx = pl_destination c \/ co_submitter tx = pl_owner c) /\
    (co_close_kind tx = Finalize \/ co_submitter tx = pl_owner c ->
       payment_channel_finalize_allowed score (pl_close_finalizable_after c) (pl_cancel_after c) = true) /\
    balance (acct_of (pc_base st') DRC (pl_owner c)) =
      balance (acct_of (pc_base st) DRC (pl_owner c)) + (pl_total_funded c - pl_cumulative_claimed c) -
        (if co_submitter tx =? pl_owner c then co_fee tx else 0) /\
    (co_submitter tx <> pl_owner c ->
       balance (acct_of (pc_base st') DRC (co_submitter tx)) = balance (acct_of (pc_base st) DRC (co_submitter tx)) - co_fee tx) /\
    (forall x a, (x, a) <> (DRC, co_submitter tx) -> (x, a) <> (DRC, pl_owner c) ->
       acct_of (pc_base st') x a = acct_of (pc_base st) x a) /\
    status (pc_book st') (co_channel_id tx) = Settled (close_tx_id tx) (Some (channel_receipt_of c score (close_tx_id tx))).
Proof.
  intros Hok Hi Hk H. destruct st as [s bk]. pose proof Hok as [Hacc Hbk Hlive]. cbn [apply_channel_tx pc_base pc_book] in *.
  apply rbind_Ok in H as ([[[r b] ops] j] & H & H'). apply Ok_inj in H'. subst st'. cbn [pc_base pc_book].
  apply close_inv in H as (c & Hl & Hid & Hf & Hsub & Hfz & H); [|done].
  rewrite bool_decide_eq_false_2 in H by done. destruct H as [Hcl Hle].
  destruct (channel_leaves_book _ _ _ _ _ _ Hbk Hl Hid Hle) as (_ & _ & Es & Er).
  destruct (closes_effect _ _ _ _ _ _ Hacc (conj Hi Hf) Hcl) as (_ & _ & Hb1 & Hb2 & Hb3).
  pose proof (lo_parties _ _ (Hlive _ _ Hl)) as Hpar. exists c. split; [done|].
  destruct (co_close_kind tx); cbn [payment_channel_close_submitter_allowed] in Hsub; [done|apply Z.eqb_eq in Hsub|].
  - split; [by left|]. split; [intros [?|?]; congruence|]. do 3 (split; [done|]).
    unfold status. by rewrite Es, Er, !lookup_insert_eq.
  - split; [apply orb_true_iff in Hsub as [?%Z.eqb_eq|?%Z.eqb_eq]; auto|]. split; [auto|]. do 3 (split; [done|]).
    unfold status. by rewrite Es, Er, !lookup_insert_eq.
Qed.

(** ** Leaving a channel *)

Lemma load_channel_total st id c :
  channel_ok st -> live (pc_book st) !! id = Some c -> load_drc_payment_channel_live (pc_book st) id = Ok (Some c).
Proof.
  intros Hok Hl. destruct (ch_live _ Hok _ _ Hl) as [Hv Hid _ _ _]. unfold load_drc_payment_channel_live.
  rewrite Hl, Hv. cbn [lift_storage rbind]. by rewrite Hid, Z.eqb_refl.
Qed.
Lemma channel_unsettled st id c msg :
  channel_ok st -> live (pc_book st) !! id = Some c -> ensure_unsettled (pc_book st) id msg = Ok tt.
Proof.
  intros Hok Hl. unfold ensure_unsettled. rewrite (bk_unsettled _ _ _ (ch_book _ Hok)) by (by eexists).
  by rewrite bool_decide_eq_false_2 by (by intros [? ?]).
Qed.
Lemma envelope_total s a fee version n sel :
  submitter_ready s a fee version n sel -> validate_channel_envelope version sel = Ok tt.
Proof.
  intros (_ & _ & Hv & Ht & _). unfold validate_channel_envelope.
  destruct Hv as [-> | ->]; cbn; [|done]. destruct (has_ticket_selector sel); [|done]. by destruct Ht.
Qed.
Lemma locked_covers st id c :
  channel_ok st -> live (pc_book st) !! id = Some c -> remainder c <= locked_channels (pc_book st).
Proof.
  intros Hok Hl. apply (msum_lookup_le (fun _ x => remainder x) id); [|done]. intros k v Hv.
  destruct (lo_amounts _ _ (ch_live _ Hok _ _ Hv)). unfold remainder. lia.
Qed.
Lemma finalize_total st b j id c score tx held :
  channel_ok st -> live (pc_book st) !! id = Some c ->
  balance (default (acct_of (pc_base st) DRC (pl_owner c)) held) + remainder c <= u64_max ->
  exists r, finalize_channel (pc_base st) (pc_book st) b j c score tx held = Ok r.
Proof.
  intros Hok Hl Hfit. destruct (lo_amounts _ _ (ch_live _ Hok _ _ Hl)) as [[H1 H2] _].
  unfold finalize_channel, locked_remainder, checked_sub. rewrite (proj2 (Z.leb_le _ _) H2).
  cbn [lift_msg ok_or rbind]. fold (remainder c).
  destruct (settle_index_total pl_owner 32 (pc_book st) (pl_owner c) (pl_channel_id c)
    "DRC live payment channel cap exceeded" (ch_book _ Hok)) as [iops Hi].
  rewrite (load_index_ok _ _ _ _ _ (ch_book _ Hok)). unfold DRC_MAX_LIVE_PAYMENT_CHANNELS_PER_ACCOUNT, checked_add.
  destruct (0 <? remainder c); [destruct held as [o|]; cbn in Hfit|].
  - rewrite (proj2 (Z.leb_le _ _) Hfit). cbn [ok_or rbind]. rewrite put_drc_total. cbn [rbind]. rewrite Hi. by eexists.
  - rewrite load_account_acct by done. cbn [rbind]. rewrite (proj2 (Z.leb_le _ _) Hfit). cbn [ok_or rbind].
    rewrite put_drc_total. cbn [rbind]. rewrite Hi. by eexists.
  - cbn [rbind]. rewrite Hi. by eexists.
Qed.

(** A close whose guards hold is accepted. *)
Definition close_ready ps st c (score : Z) (auth : Auth) (tx : DrcPaymentChannelCloseTx) : Prop :=
  co_channel_id tx <> 0 /\ 0 <= co_fee tx /\ verify_close (pc_base st) ps tx auth = Ok tt /\
  submitter_ready (pc_base st) (co_submitter tx) (co_fee tx) (co_version tx) (co_nonce tx) (co_account_sequence tx) /\
  match co_close_kind tx with
  | OwnerScheduleClose => co_submitter tx = pl_owner c /\ score + pl_settle_delay c <= u64_max
  | DestinationClose => co_submitter tx = pl_destination c
  | Finalize => (co_submitter tx = pl_owner c \/ co_submitter tx = pl_destination c) /\
      payment_channel_finalize_allowed score (pl_close_finalizable_after c) (pl_cancel_after c) = true
  end.
Lemma close_ready_allowed ps st c score auth tx :
  close_ready ps st c score auth tx ->
  payment_channel_close_submitter_allowed (co_close_kind tx) (co_submitter tx) (pl_owner c) (pl_destination c) = true.
Proof.
  intros (_ & _ & _ & _ & H). unfold payment_channel_close_submitter_allowed.
  destruct (co_close_kind tx); [apply Z.eqb_eq, H|by apply Z.eqb_eq|].
  apply orb_true_iff. destruct H as [[H|H] _]; [left|right]; by apply Z.eqb_eq.
Qed.
Lemma close_total ps st c score auth tx :
  channel_ok st -> live (pc_book st) !! co_channel_id tx = Some c ->
  liquid DRC (pc_base st) + locked_channels (pc_book st) <= u64_max -> close_ready ps st c score auth tx ->
  exists st', run ps st (CloseChannel tx) auth score = Ok st'.
Proof.
  intros Hok Hl Hcap Hr. pose proof (close_ready_allowed _ _ _ _ _ _ Hr) as Hsub.
  destruct Hr as (Hid & Hfee & Hver & Hready & Hkind).
  pose proof (acct_le_liquid _ DRC (pl_owner c) (ch_accounts _ Hok)) as Hle. pose proof (locked_covers _ _ _ Hok Hl) as Hlk.
  edestruct (op_sequence_total (pc_base st) (co_submitter tx)) as (ctx & [b1 acct] & Hb & Hfin); [apply Hok|apply Hready|].
  cbn [apply_channel_tx]. unfold apply_drc_payment_channel_close, validate_channel_close, DRC_PAYMENT_CHANNEL_TICKET_VERSION.
  rewrite (envelope_total _ _ _ _ _ _ Hready). cbn [lift_msg rbind]. destruct Hready as (Ha & Hbal & _).
  rewrite (proj2 (Z.eqb_neq _ _) Ha), (proj2 (Z.eqb_neq _ _) Hid). cbn [orb negb ensure rbind].
  rewrite Hver. cbn [rbind]. rewrite (channel_unsettled _ _ _ _ Hok Hl). cbn [rbind].
  rewrite (load_channel_total _ _ _ Hok Hl). cbn [rbind ok_or]. rewrite Hsub. cbn [ensure rbind].
  rewrite load_account_acct by done. cbn [rbind]. rewrite Hb. cbn [rbind]. rewrite (proj2 (Z.leb_le _ _) Hbal).
  cbn [ensure rbind]. rewrite Hfin. cbn [rbind].
  destruct (op_sequence_run _ _ _ _ _ _ _ _ _ _ _ _ _ Hb Hfin) as (sel & tops & n' & -> & -> & Heff).
  destruct (co_close_kind tx).
  - rewrite put_drc_total. cbn [rbind]. unfold payment_channel_owner_schedule_deadline, checked_add.
    rewrite (proj2 (Z.leb_le _ _) (proj2 Hkind)). cbn [ok_or lift_msg rbind]. unfold put_live.
    assert (validate_channel_live (set_close_finalizable_after c (Some (score + pl_settle_delay c))) = Ok tt) as ->
      by apply (lo_valid _ _ (ch_live _ Hok _ _ Hl)). by eexists.
  - rewrite put_drc_total. cbn [rbind].
    edestruct (finalize_total st) as ([[[[r h] b3] ops] j] & ->); [done|done|cbn; lia|]. by eexists.
  - rewrite (proj2 Hkind). cbn [ensure rbind].
    edestruct (finalize_total st) as ([[[[r h] b3] ops] j] & Hz); [done|done| |].
    2: { rewrite Hz. cbn [rbind]. rewrite put_drc_total. by eexists. }
    destruct (Z.eqb_spec (co_submitter tx) (pl_owner c)) as [Es|Es]; cbn; [rewrite Es|]; lia.
Qed.

(** nobody is locked in.  While the DRC supply fits a [u64], the destination can
    close at any score; the owner can schedule a close at any score, and once the
    settle delay has passed, whatever was claimed or funded meanwhile, its
    finalization is accepted. *)
Theorem channel_exit ps st id c :
  channel_ok st -> live (pc_book st) !! id = Some c ->
  liquid DRC (pc_base st) + locked_channels (pc_book st) <= u64_max ->
  (forall score auth tx, co_channel_id tx = id -> co_close_kind tx = DestinationClose ->
     close_ready ps st c score auth tx -> exists st', run ps st (CloseChannel tx) auth score = Ok st') /\
  (forall score auth tx, co_channel_id tx = id -> co_close_kind tx = OwnerScheduleClose ->
     close_ready ps st c score auth tx ->
     exists st1, run ps st (CloseChannel tx) auth score = Ok st1 /\
       live (pc_book st1) !! id = Some (set_close_finalizable_after c (Some (score + pl_settle_delay c))) /\
       forall st2 c2 score2 auth2 tx2, rtc channel_step st1 st2 ->
         live (pc_book st2) !! id = Some c2 ->
         liquid DRC (pc_base st2) + locked_channels (pc_book st2) <= u64_max ->
         (forall d, pl_close_finalizable_after c2 = Some d -> d <= score2) ->
         co_channel_id tx2 = id -> co_close_kind tx2 = Finalize -> co_submitter tx2 = pl_owner c2 ->
         co_channel_id tx2 <> 0 -> 0 <= co_fee tx2 -> verify_close (pc_base st2) ps tx2 auth2 = Ok tt ->
         submitter_ready (pc_base st2) (co_submitter tx2) (co_fee tx2) (co_version tx2) (co_nonce tx2) (co_account_sequence tx2) ->
         exists st3, run ps st2 (CloseChannel tx2) auth2 score2 = Ok st3).
Proof.
  intros Hok Hl Hcap. split.
  - intros score auth tx <- _ Hr. by eapply close_total.
  - intros score auth tx <- Hk Hr. destruct (close_total _ _ _ _ _ _ Hok Hl Hcap Hr) as [st1 H1]. exists st1. split; [done|].
    pose proof (channel_run_effect ps st (CloseChannel tx) auth score st1 Hok (proj1 (proj2 Hr)) H1) as (Hok1 & _ & _).
    assert (live (pc_book st1) !! co_channel_id tx =
      Some (set_close_finalizable_after c (Some (score + pl_settle_delay c)))) as Hl1.
    { destruct st as [s bk]. cbn [apply_channel_tx pc_base pc_book] in *. clear Hr Hcap.
      apply rbind_Ok in H1 as ([[[r b] ops] j] & H1 & H'). apply Ok_inj in H'. subst st1.
      apply close_inv in H1 as (c' & Hl' & _ & _ & _ & _ & H1); [|done]. assert (c' = c) as -> by congruence.
      rewrite bool_decide_eq_true_2 in H1 by done. destruct H1 as (_ & _ & _ & ->). clear Hok Hok1 Hl Hl'.
      destruct bk. unfold write_book. cbn. by rewrite lookup_insert_eq. }
    split; [done|]. intros st2 c2 score2 auth2 tx2 Hrun Hl2 Hcap2 Hd Et Hk2 Hs2 Hid2 Hf2 Hv2 Hready2.
    destruct (run_refines _ _ _ _ pc_book _ _ _ channel_ok_step Hok1 Hrun) as [Hok2 Hlife].
    specialize (Hlife (co_channel_id tx)).
    assert (exists d, pl_close_finalizable_after c2 = Some d) as [d Ed].
    { unfold status in Hlife. rewrite (bk_unsettled _ _ _ (ch_book _ Hok1)) in Hlife by (by eexists).
      rewrite (bk_unsettled _ _ _ (ch_book _ Hok2)) in Hlife by (by eexists). rewrite Hl1, Hl2 in Hlife.
      apply life_from_live in Hlife. eapply deadline_kept; [exact Hlife|by eexists]. }
    eapply close_total; [done|by rewrite Et|done|]. split; [done|]. split; [done|]. split; [done|]. split; [done|].
    rewrite Hk2. split; [by left|]. unfold payment_channel_finalize_allowed. rewrite Ed.
    rewrite (proj2 (Z.leb_le _ _) (Hd _ Ed)). apply orb_true_r.
Qed.
End channel_spec.

(** ** Witnesses *)

Definition accept_channel {A : Type} (s : StateStore) (ps : PolicyStore) (tx : A) (auth : unit) : result StateError unit :=
  Ok tt.
(** A claim key that signed 40 for channel 77. *)
Definition signed_40 (key sig : list Z) (auth : unit) (id : Hash) (cumulative : Z) : result string unit :=
  ensure ((id =? 77) && (cumulative =? 40)) "bad claim signature"%string.
Definition free_policies : PolicyStore := {| policies := ∅; preauths := ∅ |}.
Abbreviation with_demo f :=
  (f accept_channel accept_channel accept_channel accept_channel signed_40 (fun _ => 77) (fun t => 200 + fu_nonce t)
     (fun t => 300 + cm_nonce t) (fun t => 400 + co_nonce t)).
Definition demo_channel_apply : ChannelState -> ChannelTx -> unit -> Z -> result StateError ChannelState :=
  apply_channel_tx accept_channel accept_channel accept_channel accept_channel signed_40 (fun _ => 77)
    (fun t => 200 + fu_nonce t) (fun t => 300 + cm_nonce t) (fun t => 400 + co_nonce t) free_policies.
Definition demo_channel_state : ChannelState := {| pc_base := demo_ledger; pc_book := empty_book |}.
Definition demo_channel_create : DrcPaymentChannelCreateTx :=
  {| pc_version := 2; pc_owner := 1; pc_destination := 2; pc_amount := 100; pc_fee := 2;
     pc_claim_public_key := repeat 0 33; pc_settle_delay := 20; pc_destination_tag := None; pc_source_tag := None;
     pc_invoice_id := 0; pc_cancel_after := Some 500; pc_nonce := 0;
     pc_account_sequence := Some {| kind := Ticket; value := 5 |}; pc_public_key := []; pc_signature := [] |}.
Definition demo_claim : DrcPaymentChannelClaimTx :=
  {| cm_version := 1; cm_submitter := 2; cm_channel_id := 77; cm_cumulative_authorized := 40;
     cm_channel_claim_signature := repeat 0 64; cm_fee := 0; cm_nonce := 0; cm_account_sequence := None;
     cm_public_key := []; cm_signature := [] |}.
Definition demo_close (k : DrcPaymentChannelCloseKind) (sub fee n : Z) : DrcPaymentChannelCloseTx :=
  {| co_version := 1; co_submitter := sub; co_channel_id := 77; co_close_kind := k; co_fee := fee; co_nonce := n;
     co_account_sequence := None; co_public_key := []; co_signature := [] |}.
Definition run_channel : result StateError ChannelState :=
  demo_channel_apply demo_channel_state (CreateChannel demo_channel_create) tt 3.
Definition demo_open : ChannelState := match run_channel with Ok st => st | Err _ => demo_channel_state end.
Definition demo_live : DrcPaymentChannelLive := new_channel (fun _ => 77) demo_channel_create 3.
Lemma demo_channel_state_ok : channel_ok demo_channel_state.
Proof.
  split; cbn [demo_channel_state pc_base pc_book]; [apply demo_ledger_ok|apply empty_book_ok|].
  intros id c H. cbn in H. by rewrite lookup_empty in H.
Qed.
Lemma demo_opened : demo_channel_apply demo_channel_state (CreateChannel demo_channel_create) tt 3 = Ok demo_open.
Proof.
  assert (match run_channel with Ok _ => True | Err _ => False end) as Hrun by (vm_compute; exact I).
  fold run_channel. unfold demo_open. by destruct run_channel.
Qed.
Lemma demo_open_ok : channel_ok demo_open.
Proof. refine (proj1 (channel_run_effect _ _ _ _ _ _ _ _ _ _ _ _ _ _ _ demo_channel_state_ok _ demo_opened)). cbn. lia. Qed.
Lemma demo_open_live : live (pc_book demo_open) !! 77 = Some demo_live.
Proof. vm_compute. reflexivity. Qed.

Lemma channel_conservation_witness :
  liquid DRC (pc_base demo_open) + locked_channels (pc_book demo_open) =
    liquid DRC demo_ledger + locked_channels (pc_book demo_channel_state) - 2.
Proof.
  apply (with_demo channel_conservation free_policies demo_channel_state (CreateChannel demo_channel_create) tt 3 demo_open
    demo_channel_state_ok); [cbn; lia|exact demo_opened].
Defined.
Lemma channel_lifecycle_witness :
  channel_ok demo_open /\ status (pc_book demo_open) 77 = Live demo_live.
Proof.
  edestruct (with_demo channel_lifecycle demo_channel_state demo_open demo_channel_state_ok) as (Hok & _).
  { eapply rtc_once, (ChannelStep _ _ _ _ _ _ _ _ _ free_policies _ (CreateChannel demo_channel_create) tt 3);
      [cbn; lia|exact demo_opened]. }
  split; [exact Hok|vm_compute; reflexivity].
Defined.
Lemma channel_claim_correct_witness :
  exists st', demo_channel_apply demo_open (ClaimChannel demo_claim) tt 4 = Ok st' /\
    balance (acct_of (pc_base st') DRC 2) = 0 - 0 + (40 - 0).
Proof.
  destruct (demo_channel_apply demo_open (ClaimChannel demo_claim) tt 4) as [st'|] eqn:E; [|vm_compute in E; discriminate E].
  exists st'. split; [done|].
  destruct (with_demo channel_claim_correct free_policies demo_open demo_claim tt 4 st' demo_open_ok) as
    (c & Hl & _ & _ & _ & _ & _ & Hb & _); [cbn; lia|exact E|].
  change (cm_channel_id demo_claim) with 77 in Hl. rewrite demo_open_live in Hl. injection Hl as <-. exact Hb.
Defined.
Lemma channel_close_correct_witness :
  exists st', demo_channel_apply demo_open (CloseChannel (demo_close DestinationClose 2 0 0)) tt 9 = Ok st' /\
    balance (acct_of (pc_base st') DRC 1) = 898 + (100 - 0) - 0.
Proof.
  destruct (demo_channel_apply demo_open (CloseChannel (demo_close DestinationClose 2 0 0)) tt 9) as [st'|] eqn:E;
    [|vm_compute in E; discriminate E].
  exists st'. split; [done|].
  destruct (with_demo channel_close_correct free_policies demo_open (demo_close DestinationClose 2 0 0) tt 9 st' demo_open_ok)
    as (c & Hl & _ & _ & Hb & _); [cbn; lia|done|exact E|].
  change (co_channel_id (demo_close DestinationClose 2 0 0)) with 77 in Hl. rewrite demo_open_live in Hl. injection Hl as <-.
  etransitivity; [exact Hb|]. vm_compute. reflexivity.
Defined.
Lemma channel_exit_witness :
  exists st', demo_channel_apply demo_open (CloseChannel (demo_close OwnerScheduleClose 1 3 7)) tt 9 = Ok st'.
Proof.
  destruct (with_demo channel_exit free_policies demo_open 77 demo_live demo_open_ok demo_open_live) as [_ H];
    [vm_compute; discriminate|].
  destruct (H 9 tt (demo_close OwnerScheduleClose 1 3 7)) as (st1 & H1 & _); [done|done| |by exists st1].
  split; [done|]. split; [cbn; lia|]. split; [done|]. split; [|split; [done|vm_compute; discriminate]].
  split; [done|]. split; [vm_compute; discriminate|]. split; [by left|]. split; [by intros [_ ?]|].
  cbn. split; [reflexivity|vm_compute; discriminate].
Defined.
