(* ===== verification/Authority.v ===== *)
(** * DRC account authorization

    [state-machine/src/drc_account_auth.rs], [drc_master_key_recovery.rs],
    [drc_regular_key.rs], [drc_signer_list.rs]; [types/src/drc_multisign.rs],
    [drc_regular_key.rs], [drc_signer_list.rs]; [crypto/src/drc_multisign.rs],
    [drc_operation.rs], [drc_regular_key.rs], [drc_signer_list.rs].

    A DRC account is controlled by its master key (the key whose address is the
    account), by at most one regular key, and by a weighted signer list.  The
    master key may be disabled; the guards of this file keep some other way in.
    The multisign bundle of an envelope is not part of its encoding: it travels
    beside it, in [TxAuth]. *)

From stdpp Require Import base gmap list fin_maps strings sorting.
From Stdlib Require Import ZArith Lia.
From S2P Require Import Prelude Ordering Sums Types Finality Store Supply Accounts Objects Policy.
Local Open Scope Z_scope.

(** ** Regular keys *)

Definition DRC_REGULAR_KEY_TX_VERSION : Z := 1.
Definition DRC_REGULAR_KEY_TICKET_TX_VERSION : Z := 2.
Definition DRC_REGULAR_KEY_STATE_VERSION : Z := 1.
Inductive DrcRegularKeyAction := SetKey | ClearKey.
Record DrcRegularKeyTx := {
  rk_version : Z;
  rk_owner : Address;
  rk_action : DrcRegularKeyAction;
  rk_regular_key : Address;
  rk_regular_key_public_key : list Z;
  rk_fee : Z;
  rk_nonce : Z;
  rk_account_sequence : option DrcAccountSequenceSelector;
  rk_public_key : list Z;
  rk_signature : list Z;
}.
Definition validate_regular_key_tx (tx : DrcRegularKeyTx) : result string unit :=
  ensure ((rk_version tx =? DRC_REGULAR_KEY_TX_VERSION) || (rk_version tx =? DRC_REGULAR_KEY_TICKET_TX_VERSION))
    "unsupported DRC regular-key transaction version"%string ;?
  ensure (negb ((rk_version tx =? DRC_REGULAR_KEY_TX_VERSION) && has_ticket_selector (rk_account_sequence tx)))
    "ticket sequence selector requires a ticket-capable operation version"%string ;?
  ensure (negb (rk_owner tx =? 0)) "DRC regular-key owner must be non-zero"%string ;?
  match rk_action tx with
  | SetKey =>
      ensure (negb (rk_regular_key tx =? 0)) "DRC regular key must be non-zero"%string ;?
      ensure (negb (rk_regular_key tx =? rk_owner tx)) "master key cannot be installed as its own regular key"%string ;?
      ensure (Nat.eqb (length (rk_regular_key_public_key tx)) 33)
        "regular-key public key must be 33-byte compressed secp256k1"%string
  | ClearKey =>
      ensure ((rk_regular_key tx =? 0) && bool_decide (rk_regular_key_public_key tx = []))
        "clear regular-key operation must leave key fields empty"%string
  end.
Record DrcAccountRegularKey := { ark_version : Z; ark_owner : Address; ark_regular_key : Address }.
Definition regular_key_new (owner key : Address) : DrcAccountRegularKey :=
  {| ark_version := DRC_REGULAR_KEY_STATE_VERSION; ark_owner := owner; ark_regular_key := key |}.
Definition validate_regular_key (r : DrcAccountRegularKey) : result string unit :=
  ensure (ark_version r =? DRC_REGULAR_KEY_STATE_VERSION) "unsupported DRC regular-key state version"%string ;?
  ensure (negb ((ark_owner r =? 0) || (ark_regular_key r =? 0))) "DRC regular key must be non-zero"%string ;?
  ensure (negb (ark_owner r =? ark_regular_key r)) "master key cannot be installed as its own regular key"%string.

(** ** Signer lists *)

Definition DRC_SIGNER_LIST_MAX_ENTRIES : nat := 32.
Definition DRC_SIGNER_LIST_TX_VERSION : Z := 1.
Definition DRC_SIGNER_LIST_TICKET_TX_VERSION : Z := 2.
Definition DRC_SIGNER_LIST_STATE_VERSION : Z := 1.
Record DrcSignerListEntry := { sl_signer : Address; sl_weight : Z }.
#[export] Instance signer_entry_eq_dec : EqDecision DrcSignerListEntry.
Proof. solve_decision. Defined.
Inductive DrcSignerListAction := SetList | DeleteList.
Record DrcSignerListTx := {
  st_version : Z;
  st_owner : Address;
  st_action : DrcSignerListAction;
  st_quorum : Z;
  st_entries : list DrcSignerListEntry;
  st_fee : Z;
  st_nonce : Z;
  st_account_sequence : option DrcAccountSequenceSelector;
  st_public_key : list Z;
  st_signature : list Z;
}.
(** The loop over the entries carries the last signer and the total weight. *)
Definition signer_entry_step (owner : Address) (acc : option Address * Z) (e : DrcSignerListEntry)
  : result string (option Address * Z) :=
  let '(last, total) := acc in
  ensure (negb (sl_signer e =? 0)) "signer-list signer must be non-zero"%string ;?
  ensure (negb (sl_signer e =? owner)) "owner cannot appear on its own signer list"%string ;?
  ensure (negb (sl_weight e =? 0)) "signer weight must be non-zero"%string ;?
  ensure (match last with Some prev => negb (sl_signer e <=? prev) | None => true end)
    "signer-list entries must be strictly sorted by signer without duplicates"%string ;?
  let? total := ok_or "signer-list weight sum overflow"%string (checked_add u64_max total (sl_weight e)) in
  Ok (Some (sl_signer e), total).
Definition validate_signer_list_payload (owner : Address) (entries : list DrcSignerListEntry) (quorum : Z)
  : result string unit :=
  ensure (negb (bool_decide (entries = []))) "signer list must not be empty"%string ;?
  ensure (Nat.leb (length entries) DRC_SIGNER_LIST_MAX_ENTRIES) "too many signer-list entries"%string ;?
  ensure (negb (quorum =? 0)) "signer-list quorum must be non-zero"%string ;?
  let? (_, total) := rfold (signer_entry_step owner) (None, 0) entries in
  ensure (negb (total <? quorum)) "signer-list quorum exceeds total weight"%string.
Definition signer_cmp (a b : DrcSignerListEntry) : comparison := Z.compare (sl_signer a) (sl_signer b).
Definition canonical_sorted_entries (entries : list DrcSignerListEntry) : list DrcSignerListEntry :=
  sort_by signer_cmp entries.
Definition validate_signer_list_tx (tx : DrcSignerListTx) : result string unit :=
  ensure ((st_version tx =? DRC_SIGNER_LIST_TX_VERSION) || (st_version tx =? DRC_SIGNER_LIST_TICKET_TX_VERSION))
    "unsupported DRC signer-list transaction version"%string ;?
  ensure (negb ((st_version tx =? DRC_SIGNER_LIST_TX_VERSION) && has_ticket_selector (st_account_sequence tx)))
    "ticket sequence selector requires a ticket-capable operation version"%string ;?
  ensure (negb (st_owner tx =? 0)) "DRC signer-list owner must be non-zero"%string ;?
  match st_action tx with
  | SetList => validate_signer_list_payload (st_owner tx) (st_entries tx) (st_quorum tx)
  | DeleteList =>
      ensure ((st_quorum tx =? 0) && bool_decide (st_entries tx = []))
        "signer-list delete must leave quorum/entries empty"%string
  end.
Record DrcAccountSignerList := {
  asl_version : Z;
  asl_owner : Address;
  asl_quorum : Z;
  asl_entries : list DrcSignerListEntry;
}.
Definition validate_signer_list (l : DrcAccountSignerList) : result string unit :=
  ensure (asl_version l =? DRC_SIGNER_LIST_STATE_VERSION) "unsupported DRC signer-list state version"%string ;?
  validate_signer_list_payload (asl_owner l) (asl_entries l) (asl_quorum l) ;?
  ensure (bool_decide (canonical_sorted_entries (asl_entries l) = asl_entries l))
    "persisted signer-list entries are not in canonical order"%string.

(** ** Multisign bundles *)

Definition DRC_MULTISIGN_AUTH_VERSION : Z := 1.
Record DrcMultisignEntry := { me_signer : Address; me_public_key : list Z; me_signature : list Z }.
Record DrcMultisignAuth := {
  ma_version : Z;
  ma_signing_for : Address;
  ma_signatures : list DrcMultisignEntry;
}.
Definition multisign_entry_step (last : option Address) (e : DrcMultisignEntry) : result string (option Address) :=
  ensure (negb (me_signer e =? 0)) "multisign signer must be non-zero"%string ;?
  ensure (Nat.eqb (length (me_public_key e)) 33 && Nat.eqb (length (me_signature e)) 64)
    "multisign participant keys must be 33-byte pubkey and 64-byte signature"%string ;?
  ensure (match last with Some prev => negb (me_signer e <=? prev) | None => true end)
    "multisign signatures must be strictly sorted by signer without duplicates"%string ;?
  Ok (Some (me_signer e)).
Definition validate_multisign (a : DrcMultisignAuth) : result string unit :=
  ensure (ma_version a =? DRC_MULTISIGN_AUTH_VERSION) "unsupported DRC multisign version"%string ;?
  ensure (negb (ma_signing_for a =? 0)) "multisign signing_for must be non-zero"%string ;?
  ensure (negb (bool_decide (ma_signatures a = []))) "multisign bundle must include at least one signature"%string ;?
  ensure (Nat.leb (length (ma_signatures a)) DRC_SIGNER_LIST_MAX_ENTRIES) "too many multisign signatures"%string ;?
  let? _ := rfold multisign_entry_step None (ma_signatures a) in
  Ok tt.
Definition validate_exclusive_authorization (public_key signature : list Z) (multisign : option DrcMultisignAuth)
  : result string unit :=
  let single := negb (bool_decide (public_key = [])) || negb (bool_decide (signature = [])) in
  match single, bool_decide (is_Some multisign) with
  | true, true => Err "operation cannot combine single-signature and multisign authorization"%string
  | false, false => Err "operation missing authorization"%string
  | _, _ => Ok tt
  end.

(** ** State *)

Record KeyStore := {
  regular_keys : gmap Address DrcAccountRegularKey;
  signer_lists : gmap Address DrcAccountSignerList;
}.
Inductive KeyOp :=
| PutRegularKey (owner : Address) (r : DrcAccountRegularKey)
| DeleteRegularKey (owner : Address)
| PutSignerList (owner : Address) (l : DrcAccountSignerList)
| DeleteSignerList (owner : Address).
Definition apply_key_op (ks : KeyStore) (op : KeyOp) : KeyStore :=
  match op with
  | PutRegularKey o r => {| regular_keys := <[o := r]> (regular_keys ks); signer_lists := signer_lists ks |}
  | DeleteRegularKey o => {| regular_keys := delete o (regular_keys ks); signer_lists := signer_lists ks |}
  | PutSignerList o l => {| regular_keys := regular_keys ks; signer_lists := <[o := l]> (signer_lists ks) |}
  | DeleteSignerList o => {| regular_keys := regular_keys ks; signer_lists := delete o (signer_lists ks) |}
  end.
Definition write_keys (ks : KeyStore) (ops : list KeyOp) : KeyStore := foldl apply_key_op ks ops.

Definition load_drc_account_regular_key (ks : KeyStore) (owner : Address) : result StateError (option Address) :=
  match regular_keys ks !! owner with
  | None => Ok None
  | Some r =>
      lift_storage (validate_regular_key r) ;?
      ensure (ark_owner r =? owner) (Storage "DRC regular-key record does not match index key") ;?
      Ok (Some (ark_regular_key r))
  end.
Definition load_drc_account_signer_list (ks : KeyStore) (owner : Address)
  : result StateError (option DrcAccountSignerList) :=
  match signer_lists ks !! owner with
  | None => Ok None
  | Some l =>
      lift_storage (validate_signer_list l) ;?
      ensure (asl_owner l =? owner) (Storage "DRC signer-list record does not match index key") ;?
      Ok (Some l)
  end.

(** ** Recovery guards ([drc_master_key_recovery.rs]) *)

Definition drc_master_key_disabled (ps : PolicyStore) (owner : Address) : result StateError bool :=
  let? p := load_drc_account_policy ps owner in Ok (master_key_disabled p).
Definition has_alternate_recovery (ks : KeyStore) (owner : Address) : result StateError bool :=
  let? k := load_drc_account_regular_key ks owner in
  if bool_decide (is_Some k) then Ok true
  else let? l := load_drc_account_signer_list ks owner in Ok (bool_decide (is_Some l)).
Definition ensure_alternate_recovery (regular_key : option Address) (list_ : option DrcAccountSignerList)
  : result StateError unit :=
  ensure (bool_decide (is_Some regular_key) || bool_decide (is_Some list_))
    (InvalidTx "DRC master-key disable requires a live regular key or signer list").
Definition ensure_no_lockout_after_regular_key (ps : PolicyStore) (ks : KeyStore) (tx : DrcRegularKeyTx)
  : result StateError unit :=
  let? disabled := drc_master_key_disabled ps (rk_owner tx) in
  if negb disabled then Ok tt else
  let after_regular := match rk_action tx with SetKey => Some (rk_regular_key tx) | ClearKey => None end in
  let? after_list := load_drc_account_signer_list ks (rk_owner tx) in
  ensure_alternate_recovery after_regular after_list.
Definition signer_list_of (tx : DrcSignerListTx) : DrcAccountSignerList :=
  {| asl_version := DRC_SIGNER_LIST_STATE_VERSION; asl_owner := st_owner tx; asl_quorum := st_quorum tx;
     asl_entries := canonical_sorted_entries (st_entries tx) |}.
Definition ensure_no_lockout_after_signer_list (ps : PolicyStore) (ks : KeyStore) (tx : DrcSignerListTx)
  : result StateError unit :=
  let? disabled := drc_master_key_disabled ps (st_owner tx) in
  if negb disabled then Ok tt else
  let? after_regular := load_drc_account_regular_key ks (st_owner tx) in
  let after_list := match st_action tx with SetList => Some (signer_list_of tx) | DeleteList => None end in
  ensure_alternate_recovery after_regular after_list.

Section authority.
Context {Ctx : Type}.
(** [KeyPair::verify] and [address_from_pubkey], and the signing bytes of the
    envelopes, which bind the chain id and genesis in [Ctx]. *)
Variable key_verify : list Z -> list Z -> list Z -> result string unit.
Variable address_from_pubkey : list Z -> Address.
Variable participant_bytes : Address -> list Z -> Ctx -> list Z.
Variable policy_bytes : DrcAccountPolicyTx -> Ctx -> list Z.
Variable preauth_bytes : DrcDepositPreauthTx -> Ctx -> list Z.
Variable regular_key_bytes : DrcRegularKeyTx -> Ctx -> list Z.
Variable signer_list_bytes : DrcSignerListTx -> Ctx -> list Z.

(** What accompanies an envelope: the network it is bound to and its multisign bundle. *)
Record TxAuth := { ta_ctx : Ctx; ta_multisign : option DrcMultisignAuth }.

Definition bad_auth : string := "transaction auth material missing or malformed".
Definition verify_bound_secp256k1 (public_key signature bytes : list Z) : result string Address :=
  ensure (Nat.eqb (length public_key) 33 && Nat.eqb (length signature) 64) bad_auth ;?
  key_verify public_key bytes signature ;?
  Ok (address_from_pubkey public_key).

(** Signatures are counted until the quorum is reached. *)
Fixpoint count_signatures (bytes : list Z) (entries : list DrcSignerListEntry) (quorum weight : Z)
  (sigs : list DrcMultisignEntry) : result string unit :=
  match sigs with
  | [] => Err bad_auth
  | e :: sigs =>
      let? listed := ok_or bad_auth (List.find (fun x => sl_signer x =? me_signer e) entries) in
      let? derived := verify_bound_secp256k1 (me_public_key e) (me_signature e) bytes in
      ensure (derived =? me_signer e) bad_auth ;?
      let? weight := ok_or bad_auth (checked_add u64_max weight (sl_weight listed)) in
      if quorum <=? weight then Ok tt else count_signatures bytes entries quorum weight sigs
  end.
Definition verify_drc_multisign_against_list (a : DrcMultisignAuth) (signing_for : Address) (bytes : list Z)
  (ctx : Ctx) (entries : list DrcSignerListEntry) (quorum : Z) : result string unit :=
  match validate_multisign a with Ok _ => Ok tt | Err _ => Err bad_auth end ;?
  ensure (ma_signing_for a =? signing_for) bad_auth ;?
  count_signatures (participant_bytes signing_for bytes ctx) entries quorum 0 (ma_signatures a).

Definition authorize_drc_account_operator (ps : PolicyStore) (ks : KeyStore) (owner signer : Address)
  : result StateError unit :=
  if signer =? owner then
    let? disabled := drc_master_key_disabled ps owner in
    ensure (negb disabled) (InvalidTx "DRC master key is disabled for this account")
  else
    let? k := load_drc_account_regular_key ks owner in
    match k with
    | None => Err (InvalidTx "DRC operation signer is not master or regular key")
    | Some regular_key => ensure (signer =? regular_key) (InvalidTx "DRC operation signer is not master or regular key")
    end.

Definition new_only (entries installed : list DrcSignerListEntry) (e : DrcMultisignEntry) : bool :=
  existsb (fun x => sl_signer x =? me_signer e) entries && negb (existsb (fun x => sl_signer x =? me_signer e) installed).
Definition verify_multisign_or_single (ps : PolicyStore) (ks : KeyStore) (owner : Address)
  (public_key signature : list Z) (multisign : option DrcMultisignAuth) (bytes : list Z) (ctx : Ctx)
  (forbidden : option (list DrcSignerListEntry)) : result StateError unit :=
  lift_msg (validate_exclusive_authorization public_key signature multisign) ;?
  match multisign with
  | Some bundle =>
      lift_msg (validate_multisign bundle) ;?
      ensure (ma_signing_for bundle =? owner) (InvalidTx "multisign signing_for mismatch") ;?
      let? found := load_drc_account_signer_list ks owner in
      let? l := ok_or (InvalidTx "multisign requires an installed signer list") found in
      ensure (match forbidden with
              | Some new_entries => negb (existsb (new_only new_entries (asl_entries l)) (ma_signatures bundle))
              | None => true
              end) (InvalidTx "new signer list cannot authorize its own installation") ;?
      lift_msg (verify_drc_multisign_against_list bundle owner bytes ctx (asl_entries l) (asl_quorum l))
  | None =>
      let? signer := lift_msg (verify_bound_secp256k1 public_key signature bytes) in
      (if signer =? owner then
         let? disabled := drc_master_key_disabled ps owner in
         ensure (negb disabled) (InvalidTx "DRC master key is disabled for this account")
       else Ok tt) ;?
      authorize_drc_account_operator ps ks owner signer
  end.

(** ** The four account-control operations *)

Definition verify_drc_account_policy_operation (ks : KeyStore) (s : StateStore) (ps : PolicyStore)
  (tx : DrcAccountPolicyTx) (auth : TxAuth) : result StateError unit :=
  lift_msg (validate_version tx) ;?
  let bytes := policy_bytes tx (ta_ctx auth) in
  match pt_action tx with
  | SetMasterKeyDisabled =>
      lift_msg (validate_exclusive_authorization (pt_public_key tx) (pt_signature tx) (ta_multisign auth)) ;?
      ensure (negb (bool_decide (is_Some (ta_multisign auth))))
        (InvalidTx "master-key disable must be authorized by the owner master key") ;?
      let? signer := lift_msg (verify_bound_secp256k1 (pt_public_key tx) (pt_signature tx) bytes) in
      ensure (signer =? pt_account tx) (InvalidTx "master-key disable must be authorized by the owner master key") ;?
      let? disabled := drc_master_key_disabled ps (pt_account tx) in
      ensure (negb disabled) (InvalidTx "DRC master key is already disabled") ;?
      let? alternate := has_alternate_recovery ks (pt_account tx) in
      ensure alternate (InvalidTx "master-key disable requires a live regular key or signer list")
  | ClearMasterKeyDisabled =>
      let? disabled := drc_master_key_disabled ps (pt_account tx) in
      ensure disabled (InvalidTx "DRC master key is not disabled") ;?
      lift_msg (validate_exclusive_authorization (pt_public_key tx) (pt_signature tx) (ta_multisign auth)) ;?
      match ta_multisign auth with
      | Some bundle =>
          verify_multisign_or_single ps ks (pt_account tx) (pt_public_key tx) (pt_signature tx) (Some bundle) bytes
            (ta_ctx auth) None
      | None =>
          let? signer := lift_msg (verify_bound_secp256k1 (pt_public_key tx) (pt_signature tx) bytes) in
          ensure (negb (signer =? pt_account tx)) (InvalidTx "disabled DRC master key cannot clear master-key disable") ;?
          authorize_drc_account_operator ps ks (pt_account tx) signer
      end
  | _ =>
      verify_multisign_or_single ps ks (pt_account tx) (pt_public_key tx) (pt_signature tx) (ta_multisign auth) bytes
        (ta_ctx auth) None
  end.
Definition verify_drc_deposit_preauth_operation (ks : KeyStore) (s : StateStore) (ps : PolicyStore)
  (tx : DrcDepositPreauthTx) (auth : TxAuth) : result StateError unit :=
  lift_msg (validate_preauth_tx tx) ;?
  verify_multisign_or_single ps ks (px_owner tx) (px_public_key tx) (px_signature tx) (ta_multisign auth)
    (preauth_bytes tx (ta_ctx auth)) (ta_ctx auth) None.

(** The single-signature path also ties a new regular key to its public key. *)
Definition verify_drc_regular_key_bound (tx : DrcRegularKeyTx) (ctx : Ctx) : result string unit :=
  match validate_regular_key_tx tx with Ok _ => Ok tt | Err _ => Err bad_auth end ;?
  let? _ := verify_bound_secp256k1 (rk_public_key tx) (rk_signature tx) (regular_key_bytes tx ctx) in
  match rk_action tx with
  | SetKey => ensure (address_from_pubkey (rk_regular_key_public_key tx) =? rk_regular_key tx) bad_auth
  | ClearKey => Ok tt
  end.
Definition verify_drc_regular_key_operation (ps : PolicyStore) (ks : KeyStore) (tx : DrcRegularKeyTx) (auth : TxAuth)
  : result StateError unit :=
  lift_msg (validate_regular_key_tx tx) ;?
  match validate_exclusive_authorization (rk_public_key tx) (rk_signature tx) (ta_multisign auth) with
  | Ok _ => Ok tt | Err _ => Err (InvalidTx bad_auth) end ;?
  (if bool_decide (is_Some (ta_multisign auth)) then Ok tt
   else lift_msg (verify_drc_regular_key_bound tx (ta_ctx auth))) ;?
  verify_multisign_or_single ps ks (rk_owner tx) (rk_public_key tx) (rk_signature tx) (ta_multisign auth)
    (regular_key_bytes tx (ta_ctx auth)) (ta_ctx auth) None.
Definition verify_drc_signer_list_operation (ps : PolicyStore) (ks : KeyStore) (tx : DrcSignerListTx) (auth : TxAuth)
  : result StateError unit :=
  lift_msg (validate_signer_list_tx tx) ;?
  match validate_exclusive_authorization (st_public_key tx) (st_signature tx) (ta_multisign auth) with
  | Ok _ => Ok tt | Err _ => Err (InvalidTx bad_auth) end ;?
  let bytes := signer_list_bytes tx (ta_ctx auth) in
  let forbidden := match st_action tx with SetList => Some (st_entries tx) | DeleteList => None end in
  if bool_decide (is_Some (ta_multisign auth)) then
    verify_multisign_or_single ps ks (st_owner tx) (st_public_key tx) (st_signature tx) (ta_multisign auth) bytes
      (ta_ctx auth) forbidden
  else
    let? signer := lift_msg (verify_bound_secp256k1 (st_public_key tx) (st_signature tx) bytes) in
    authorize_drc_account_operator ps ks (st_owner tx) signer.

Definition apply_drc_regular_key (s : StateStore) (ps : PolicyStore) (ks : KeyStore) (tx : DrcRegularKeyTx)
  (auth : TxAuth) (b : WriteBatch) (j : AccountJournal)
  : result StateError (option Address * WriteBatch * list KeyOp * AccountJournal) :=
  verify_drc_regular_key_operation ps ks tx auth ;?
  ensure_no_lockout_after_regular_key ps ks tx ;?
  let? known := account_exists s DRC (rk_owner tx) in
  ensure known (InvalidTx "unknown DRC regular-key owner") ;?
  let? _ := load_drc_account_regular_key ks (rk_owner tx) in
  let? owner := load_account s DRC (rk_owner tx) in
  let? ctx := begin_op_sequence s (rk_owner tx) owner (rk_version tx) DRC_REGULAR_KEY_TICKET_TX_VERSION
    (rk_nonce tx) (rk_account_sequence tx) "bad DRC regular-key nonce" in
  ensure (rk_fee tx <=? balance owner) (InvalidTx "insufficient DRC regular-key balance") ;?
  let j := j ++ [(DRC, rk_owner tx, owner)] in
  let? (b, owner) := finish_op_sequence b (rk_owner tx)
    {| balance := balance owner - rk_fee tx; nonce := nonce owner |} ctx "DRC regular-key nonce overflow" in
  let? b := put_account_into b DRC (rk_owner tx) owner in
  match rk_action tx with
  | SetKey =>
      Ok (Some (rk_regular_key tx), b, [PutRegularKey (rk_owner tx) (regular_key_new (rk_owner tx) (rk_regular_key tx))], j)
  | ClearKey => Ok (None, b, [DeleteRegularKey (rk_owner tx)], j)
  end.
Definition apply_drc_signer_list (s : StateStore) (ps : PolicyStore) (ks : KeyStore) (tx : DrcSignerListTx)
  (auth : TxAuth) (b : WriteBatch) (j : AccountJournal)
  : result StateError (option DrcAccountSignerList * WriteBatch * list KeyOp * AccountJournal) :=
  verify_drc_signer_list_operation ps ks tx auth ;?
  ensure_no_lockout_after_signer_list ps ks tx ;?
  let? known := account_exists s DRC (st_owner tx) in
  ensure known (InvalidTx "unknown DRC signer-list owner") ;?
  let? owner := load_account s DRC (st_owner tx) in
  let? ctx := begin_op_sequence s (st_owner tx) owner (st_version tx) DRC_SIGNER_LIST_TICKET_TX_VERSION
    (st_nonce tx) (st_account_sequence tx) "bad DRC signer-list nonce" in
  ensure (st_fee tx <=? balance owner) (InvalidTx "insufficient DRC signer-list balance") ;?
  let j := j ++ [(DRC, st_owner tx, owner)] in
  let? (b, owner) := finish_op_sequence b (st_owner tx)
    {| balance := balance owner - st_fee tx; nonce := nonce owner |} ctx "DRC signer-list nonce overflow" in
  let? b := put_account_into b DRC (st_owner tx) owner in
  match st_action tx with
  | SetList =>
      let record := signer_list_of tx in
      lift_msg (validate_signer_list record) ;?
      Ok (Some record, b, [PutSignerList (st_owner tx) record], j)
  | DeleteList => Ok (None, b, [DeleteSignerList (st_owner tx)], j)
  end.

Record AuthState := { au_base : StateStore; au_policies : PolicyStore; au_keys : KeyStore }.
Inductive AuthTx :=
| PolicyTx (tx : DrcAccountPolicyTx)
| PreauthTx (tx : DrcDepositPreauthTx)
| RegularKeyTx (tx : DrcRegularKeyTx)
| SignerListTx (tx : DrcSignerListTx).
Definition apply_auth_tx (st : AuthState) (tx : AuthTx) (auth : TxAuth) : result StateError AuthState :=
  let '{| au_base := s; au_policies := ps; au_keys := ks |} := st in
  match tx with
  | PolicyTx t =>
      let? (_, b, ops, _) := apply_drc_account_policy (verify_drc_account_policy_operation ks) s ps t auth [] [] in
      Ok {| au_base := write_batch s b; au_policies := write_policies ps ops; au_keys := ks |}
  | PreauthTx t =>
      let? (_, b, ops, _) := apply_drc_deposit_preauth (verify_drc_deposit_preauth_operation ks) s ps t auth [] [] in
      Ok {| au_base := write_batch s b; au_policies := write_policies ps ops; au_keys := ks |}
  | RegularKeyTx t =>
      let? (_, b, ops, _) := apply_drc_regular_key s ps ks t auth [] [] in
      Ok {| au_base := write_batch s b; au_policies := ps; au_keys := write_keys ks ops |}
  | SignerListTx t =>
      let? (_, b, ops, _) := apply_drc_signer_list s ps ks t auth [] [] in
      Ok {| au_base := write_batch s b; au_policies := ps; au_keys := write_keys ks ops |}
  end.
End authority.
Arguments TxAuth : clear implicits.
