(* ===== verification/AuthorityProps.v ===== *)
(** * Account authorization: who may act, and when one cannot lock oneself out *)

From stdpp Require Import base gmap list fin_maps strings relations.
From Stdlib Require Import ZArith Lia Sorted.
From S2P Require Import Prelude Ordering Sums Types Finality Store Supply Accounts Objects Policy Authority.
Local Open Scope Z_scope.

Lemma lift_msg_Ok {A} (r : result string A) a : lift_msg r = Ok a <-> r = Ok a.
Proof. destruct r; unfold lift_msg; split; congruence. Qed.

(** ** Signer lists *)

Definition weights_ok (entries : list DrcSignerListEntry) : Prop :=
  Forall (fun e => 0 <= sl_weight e <= 65535) entries.
Definition total_weight (entries : list DrcSignerListEntry) : Z := zsum (sl_weight <$> entries).

(** The loop of [validate_signer_list_payload] computes the total weight of a
    strictly sorted list. *)
Lemma signer_loop owner entries last total r :
  rfold (signer_entry_step owner) (last, total) entries = Ok r ->
  StronglySorted Z.lt (sl_signer <$> entries) /\
  (forall p, last = Some p -> Forall (fun e => p < sl_signer e) entries) /\
  r.2 = total + total_weight entries /\
  Forall (fun e => sl_signer e <> 0 /\ sl_signer e <> owner /\ sl_weight e <> 0) entries.
Proof.
  revert last total. induction entries as [|e l IH]; intros last total H; cbn [rfold] in H.
  { apply Ok_inj in H. subst r. split; [constructor|]. split; [intros; constructor|]. cbn. split; [lia|constructor]. }
  apply rbind_Ok in H as ([last' total'] & H1 & H). unfold signer_entry_step in H1.
  apply rbind_Ok in H1 as (_ & Hz%ensure_Ok%negb_true_iff%Z.eqb_neq & H1).
  apply rbind_Ok in H1 as (_ & Ho%ensure_Ok%negb_true_iff%Z.eqb_neq & H1).
  apply rbind_Ok in H1 as (_ & Hw%ensure_Ok%negb_true_iff%Z.eqb_neq & H1).
  apply rbind_Ok in H1 as (_ & Hl%ensure_Ok & H1).
  apply rbind_Ok in H1 as (t & [-> Ht]%ok_or_Ok%checked_add_Some & H1). apply Ok_inj in H1. apply pair_eq in H1 as [<- <-].
  destruct (IH _ _ H) as (Hs & Hp & Hr & Hf). specialize (Hp _ eq_refl). split; [|split; [|split]].
  - cbn [fmap list_fmap]. constructor; [done|]. by apply Forall_fmap.
  - intros p ->. apply negb_true_iff, Z.leb_gt in Hl. constructor; [done|].
    eapply Forall_impl; [exact Hp|]. cbn. lia.
  - rewrite Hr. unfold total_weight. cbn [fmap list_fmap]. rewrite zsum_cons. lia.
  - by constructor.
Qed.
Lemma signer_payload owner entries quorum :
  validate_signer_list_payload owner entries quorum = Ok tt ->
  entries <> [] /\ (length entries <= 32)%nat /\ quorum <> 0 /\ quorum <= total_weight entries /\
  StronglySorted Z.lt (sl_signer <$> entries) /\
  Forall (fun e => sl_signer e <> 0 /\ sl_signer e <> owner /\ sl_weight e <> 0) entries.
Proof.
  intros H. unfold validate_signer_list_payload in H.
  apply rbind_Ok in H as (_ & He%ensure_Ok%negb_true_iff%bool_decide_eq_false_1 & H).
  apply rbind_Ok in H as (_ & Hlen%ensure_Ok%Nat.leb_le & H).
  apply rbind_Ok in H as (_ & Hq%ensure_Ok%negb_true_iff%Z.eqb_neq & H).
  apply rbind_Ok in H as ([last total] & H1 & H%ensure_Ok%negb_true_iff%Z.ltb_ge).
  destruct (signer_loop _ _ _ _ _ H1) as (Hs & _ & Hr & Hf). cbn in Hr. unfold DRC_SIGNER_LIST_MAX_ENTRIES in Hlen.
  split; [done|]. split; [done|]. split; [done|]. split; [lia|]. done.
Qed.

(** A strictly sorted list is already canonical. *)
Lemma canonical_sorted entries :
  StronglySorted Z.lt (sl_signer <$> entries) -> canonical_sorted_entries entries = entries.
Proof.
  intros H. unfold canonical_sorted_entries. induction entries as [|e l IH]; [done|]. cbn [fmap list_fmap] in H.
  inversion H as [|? ? Hs Hf]; subst. cbn [sort_by foldr]. change (foldr (insert_by signer_cmp) [] l) with (sort_by signer_cmp l).
  rewrite IH by done. destruct l as [|x l]; [done|]. cbn [insert_by]. cbn [fmap list_fmap] in Hf.
  inversion Hf; subst. unfold cmp_leb, signer_cmp. rewrite (proj2 (Z.compare_lt_iff _ _)) by done. done.
Qed.

(** ** Multisign bundles *)

Lemma multisign_loop sigs last r :
  rfold multisign_entry_step last sigs = Ok r ->
  StronglySorted Z.lt (me_signer <$> sigs) /\ (forall p, last = Some p -> Forall (fun e => p < me_signer e) sigs).
Proof.
  revert last. induction sigs as [|e l IH]; intros last H; cbn [rfold] in H.
  { split; [constructor|intros; constructor]. }
  apply rbind_Ok in H as (last' & H1 & H). unfold multisign_entry_step in H1.
  apply rbind_Ok in H1 as (_ & _ & H1). apply rbind_Ok in H1 as (_ & _ & H1).
  apply rbind_Ok in H1 as (_ & Hl%ensure_Ok & H1). apply Ok_inj in H1. subst last'.
  destruct (IH _ H) as [Hs Hp]. specialize (Hp _ eq_refl). split.
  - cbn [fmap list_fmap]. constructor; [done|]. by apply Forall_fmap.
  - intros p ->. apply negb_true_iff, Z.leb_gt in Hl. constructor; [done|]. eapply Forall_impl; [exact Hp|]. cbn. lia.
Qed.
Lemma multisign_distinct a : validate_multisign a = Ok tt -> NoDup (me_signer <$> ma_signatures a).
Proof.
  intros H. unfold validate_multisign in H. do 4 apply rbind_Ok in H as (_ & _ & H).
  apply rbind_Ok in H as (r & [Hs _]%multisign_loop & _).
  induction Hs as [|x l _ IH Hf]; constructor; [|done]. intros Hin. rewrite Forall_forall in Hf. specialize (Hf _ Hin). lia.
Qed.

Section authority_spec.
Context {Ctx : Type}.
Variable key_verify : list Z -> list Z -> list Z -> result string unit.
Variable address_from_pubkey : list Z -> Address.
Variable participant_bytes : Address -> list Z -> Ctx -> list Z.
Variable policy_bytes : DrcAccountPolicyTx -> Ctx -> list Z.
Variable preauth_bytes : DrcDepositPreauthTx -> Ctx -> list Z.
Variable regular_key_bytes : DrcRegularKeyTx -> Ctx -> list Z.
Variable signer_list_bytes : DrcSignerListTx -> Ctx -> list Z.
Abbreviation verify_bound := (verify_bound_secp256k1 key_verify address_from_pubkey).
Abbreviation count := (count_signatures key_verify address_from_pubkey).
Abbreviation verify := (verify_multisign_or_single key_verify address_from_pubkey participant_bytes).
Abbreviation run := (apply_auth_tx key_verify address_from_pubkey participant_bytes policy_bytes preauth_bytes
  regular_key_bytes signer_list_bytes).
Implicit Types (ps : PolicyStore) (ks : KeyStore) (st : AuthState).

(** ** The invariant *)

Record keys_ok (ks : KeyStore) : Prop := {
  ko_regular o r : regular_keys ks !! o = Some r -> validate_regular_key r = Ok tt /\ ark_owner r = o;
  ko_list o l : signer_lists ks !! o = Some l ->
    validate_signer_list l = Ok tt /\ asl_owner l = o /\ weights_ok (asl_entries l) /\ 0 <= asl_quorum l;
}.
Definition regular_key_of ks (o : Address) : option Address := ark_regular_key <$> regular_keys ks !! o.
Definition master_disabled ps (o : Address) : bool :=
  master_key_disabled (default default_account_policy (policies ps !! o)).

Lemma load_regular_ok ks o : keys_ok ks -> load_drc_account_regular_key ks o = Ok (regular_key_of ks o).
Proof.
  intros Hok. unfold load_drc_account_regular_key, regular_key_of. destruct (regular_keys ks !! o) as [r|] eqn:E; [|done].
  destruct (ko_regular _ Hok _ _ E) as [-> Ho]. cbn [lift_storage rbind]. by rewrite Ho, Z.eqb_refl.
Qed.
Lemma load_list_ok ks o : keys_ok ks -> load_drc_account_signer_list ks o = Ok (signer_lists ks !! o).
Proof.
  intros Hok. unfold load_drc_account_signer_list. destruct (signer_lists ks !! o) as [l|] eqn:E; [|done].
  destruct (ko_list _ Hok _ _ E) as (-> & Ho & _). cbn [lift_storage rbind]. by rewrite Ho, Z.eqb_refl.
Qed.
Lemma master_disabled_ok ps o : policies_ok ps -> drc_master_key_disabled ps o = Ok (master_disabled ps o).
Proof. intros Hps. unfold drc_master_key_disabled. by rewrite load_policy_ok. Qed.

(** ** Counting signatures *)

Definition listed_weight (entries : list DrcSignerListEntry) (e : DrcMultisignEntry) : Z :=
  match List.find (fun x => sl_signer x =? me_signer e) entries with Some x => sl_weight x | None => 0 end.
Definition sig_ok (bytes : list Z) (entries : list DrcSignerListEntry) (e : DrcMultisignEntry) : Prop :=
  is_Some (List.find (fun x => sl_signer x =? me_signer e) entries) /\
  verify_bound (me_public_key e) (me_signature e) bytes = Ok (me_signer e).

Lemma listed_weight_range entries e : weights_ok entries -> 0 <= listed_weight entries e <= 65535.
Proof.
  intros Hw. unfold listed_weight. destruct (List.find _ entries) as [x|] eqn:E; [|lia].
  apply List.find_some in E as [E _]. apply (proj1 (Forall_forall _ _)) with (x := x) in Hw; [exact Hw|].
  by apply list_elem_of_In.
Qed.
Lemma count_correct bytes entries quorum w sigs :
  weights_ok entries -> 0 <= w -> w + 65535 * Z.of_nat (length sigs) <= u64_max ->
  count bytes entries quorum w sigs = Ok tt <->
  exists p, p `prefix_of` sigs /\ p <> [] /\ Forall (sig_ok bytes entries) p /\
    quorum <= w + zsum (listed_weight entries <$> p).
Proof.
  intros Hw. revert w. induction sigs as [|e l IH]; intros w H0 Hmax; cbn [count_signatures].
  { split; [done|]. intros (p & Hp & Hne & _). by apply prefix_nil_inv in Hp. }
  pose proof (listed_weight_range entries e Hw) as Hr. unfold listed_weight in Hr. cbn [length] in Hmax. split.
  - intros H. apply rbind_Ok in H as (x & Hx%ok_or_Ok & H). apply rbind_Ok in H as (d & Hd & H).
    apply rbind_Ok in H as (_ & ->%ensure_Ok%Z.eqb_eq & H).
    apply rbind_Ok in H as (w' & [-> Hw']%ok_or_Ok%checked_add_Some & H).
    assert (sig_ok bytes entries e) as Hs by (split; [by eexists|done]).
    assert (listed_weight entries e = sl_weight x) as Hlw by (unfold listed_weight; by rewrite Hx).
    rewrite Hx in Hr. destruct (quorum <=? w + sl_weight x) eqn:Eq.
    + apply Z.leb_le in Eq. exists [e]. split; [apply prefix_cons, prefix_nil|]. split; [done|]. split; [by constructor|].
      cbn. lia.
    + apply IH in H as (p & Hp & Hne & Hf & Hq); [|lia..]. exists (e :: p). split; [by apply prefix_cons|]. split; [done|].
      split; [by constructor|]. cbn [fmap list_fmap]. rewrite zsum_cons. lia.
  - intros (p & Hp & Hne & Hf & Hq). destruct p as [|e' p]; [done|].
    pose proof (prefix_cons_inv_1 _ _ _ _ Hp) as ->. apply prefix_cons_inv_2 in Hp.
    inversion Hf as [|? ? [[x Hx] Hv] Hf']; subst. rewrite Hx in *. cbn [ok_or rbind]. rewrite Hv. cbn [rbind].
    rewrite Z.eqb_refl. cbn [ensure rbind]. unfold checked_add. rewrite (proj2 (Z.leb_le _ _)) by lia. cbn [ok_or rbind].
    destruct (quorum <=? w + sl_weight x) eqn:Eq; [done|]. apply Z.leb_gt in Eq.
    cbn [fmap list_fmap] in Hq. rewrite zsum_cons in Hq.
    assert (listed_weight entries e = sl_weight x) as Hlw by (unfold listed_weight; by rewrite Hx).
    apply IH; [lia..|]. exists p. split; [done|]. split; [intros ->; cbn in Hq; lia|]. split; [done|lia].
Qed.

(** ** Who may act *)

(** What a valid authorization of [owner] is. *)
Definition authorizes ps ks (owner : Address) (pk sg : list Z) (ms : option DrcMultisignAuth) (bytes : list Z) (ctx : Ctx)
  : Prop :=
  match ms with
  | None => (pk <> [] \/ sg <> []) /\ exists signer, verify_bound pk sg bytes = Ok signer /\
      (signer = owner /\ master_disabled ps owner = false \/ signer <> owner /\ regular_key_of ks owner = Some signer)
  | Some bundle => pk = [] /\ sg = [] /\ validate_multisign bundle = Ok tt /\ ma_signing_for bundle = owner /\
      exists l p, signer_lists ks !! owner = Some l /\ p `prefix_of` ma_signatures bundle /\
        Forall (sig_ok (participant_bytes owner bytes ctx) (asl_entries l)) p /\ NoDup (me_signer <$> p) /\
        asl_quorum l <= zsum (listed_weight (asl_entries l) <$> p)
  end.

Lemma exclusive_Ok pk sg ms :
  validate_exclusive_authorization pk sg ms = Ok tt <->
  match ms with None => pk <> [] \/ sg <> [] | Some _ => pk = [] /\ sg = [] end.
Proof.
  unfold validate_exclusive_authorization. destruct ms as [a|].
  - rewrite (bool_decide_eq_true_2 (is_Some (Some a))) by (by eexists). repeat case_bool_decide; cbn; naive_solver.
  - rewrite (bool_decide_eq_false_2 (is_Some None)) by (by intros [? ?]). repeat case_bool_decide; cbn; naive_solver.
Qed.
Lemma operator_Ok ps ks owner signer :
  policies_ok ps -> keys_ok ks ->
  authorize_drc_account_operator ps ks owner signer = Ok tt <->
  (signer = owner /\ master_disabled ps owner = false \/ signer <> owner /\ regular_key_of ks owner = Some signer).
Proof.
  intros Hps Hks. unfold authorize_drc_account_operator. destruct (Z.eqb_spec signer owner) as [->|Hne].
  - rewrite master_disabled_ok by done. cbn [rbind]. destruct (master_disabled ps owner); cbn; naive_solver.
  - rewrite load_regular_ok by done. cbn [rbind]. destruct (regular_key_of ks owner) as [k|].
    + destruct (Z.eqb_spec signer k) as [->|Hk]; cbn; naive_solver.
    + naive_solver.
Qed.
Lemma multisign_length a : validate_multisign a = Ok tt -> (length (ma_signatures a) <= 32)%nat.
Proof.
  intros H. unfold validate_multisign in H. do 3 apply rbind_Ok in H as (_ & _ & H).
  by apply rbind_Ok in H as (_ & Hl%ensure_Ok%Nat.leb_le & _).
Qed.
Lemma multisign_list_Ok ks l a owner bytes ctx :
  keys_ok ks -> signer_lists ks !! owner = Some l -> validate_multisign a = Ok tt -> ma_signing_for a = owner ->
  verify_drc_multisign_against_list key_verify address_from_pubkey participant_bytes a owner bytes ctx (asl_entries l)
    (asl_quorum l) = Ok tt <->
  exists p, p `prefix_of` ma_signatures a /\
    Forall (sig_ok (participant_bytes owner bytes ctx) (asl_entries l)) p /\ NoDup (me_signer <$> p) /\
    asl_quorum l <= zsum (listed_weight (asl_entries l) <$> p).
Proof.
  intros Hks Hl Ha <-. destruct (ko_list _ Hks _ _ Hl) as (Hv & Ho & Hw & Hq0). unfold verify_drc_multisign_against_list.
  rewrite Ha. cbn [rbind]. rewrite Z.eqb_refl. cbn [ensure rbind]. pose proof (multisign_length _ Ha) as Hlen.
  assert (0 < asl_quorum l) as Hq.
  { unfold validate_signer_list in Hv. apply rbind_Ok in Hv as (_ & _ & Hv). apply rbind_Ok in Hv as ([] & Hp & _).
    apply signer_payload in Hp as (_ & _ & Hq & _). lia. }
  rewrite count_correct by (done || unfold u64_max; lia). split.
  - intros (p & Hp & Hne & Hf & Hs). exists p. split; [done|]. split; [done|]. split; [|lia].
    apply multisign_distinct in Ha. destruct Hp as [r Er]. rewrite Er, fmap_app in Ha. by apply NoDup_app in Ha as [? _].
  - intros (p & Hp & Hf & _ & Hs). exists p. split; [done|]. split; [intros ->; cbn in Hs; lia|]. split; [done|lia].
Qed.

Lemma authorization_iff ps ks owner pk sg ms bytes ctx :
  policies_ok ps -> keys_ok ks ->
  verify ps ks owner pk sg ms bytes ctx None = Ok tt <-> authorizes ps ks owner pk sg ms bytes ctx.
Proof.
  intros Hps Hks. unfold verify_multisign_or_single, authorizes. split.
  - intros H. apply rbind_Ok in H as ([] & Hx%lift_msg_Ok & H). apply exclusive_Ok in Hx. destruct ms as [a|].
    + destruct Hx as [Hpk Hsg]. apply rbind_Ok in H as ([] & Ha%lift_msg_Ok & H).
      apply rbind_Ok in H as (_ & Ho%ensure_Ok%Z.eqb_eq & H). rewrite load_list_ok in H by done. cbn [rbind] in H.
      apply rbind_Ok in H as (l & Hl%ok_or_Ok & H). apply rbind_Ok in H as (_ & _ & H%lift_msg_Ok).
      apply (multisign_list_Ok ks) in H as (q & Hq); [|done..]. do 4 (split; [done|]). by exists l, q.
    + apply rbind_Ok in H as (signer & Hs%lift_msg_Ok & H). apply rbind_Ok in H as (_ & _ & H).
      apply operator_Ok in H; [|done..]. split; [done|]. by exists signer.
  - destruct ms as [a|].
    + intros (-> & -> & Ha & Ho & l & q & Hl & Hq). rewrite (proj2 (exclusive_Ok [] [] (Some a))) by done.
      cbn [lift_msg rbind]. rewrite Ha. cbn [lift_msg rbind]. rewrite (proj2 (Z.eqb_eq _ _) Ho). cbn [ensure rbind].
      rewrite load_list_ok by done. cbn [rbind]. rewrite Hl. cbn [ok_or rbind ensure].
      apply lift_msg_Ok, (multisign_list_Ok ks); [done..|]. by exists q.
    + intros (Hx & signer & Hs & Hcase). rewrite (proj2 (exclusive_Ok pk sg None)) by done. cbn [lift_msg rbind].
      rewrite Hs. cbn [lift_msg rbind]. rewrite master_disabled_ok by done. cbn [rbind].
      rewrite (proj2 (operator_Ok ps ks owner signer Hps Hks) Hcase).
      destruct Hcase as [[-> ->]|[Hne _]]; [by rewrite Z.eqb_refl|by rewrite (proj2 (Z.eqb_neq _ _) Hne)].
Qed.

(** C28: authorization is exactly the account's control structure.  The check that
    every DRC operation runs accepts an authorization iff it is a valid signature of
    the master key while that is enabled, a valid signature of the installed regular
    key, or a well-formed bundle for this account in which distinct listed signers,
    each with a valid signature over the operation, carry the quorum of the installed
    list; never a mix of the two. *)
Theorem authorization_correct ps ks owner pk sg ms bytes ctx :
  policies_ok ps -> keys_ok ks ->
  verify ps ks owner pk sg ms bytes ctx None = Ok tt <-> authorizes ps ks owner pk sg ms bytes ctx.
Proof. apply authorization_iff. Qed.

(** ** No lockout *)

Record auth_ok (st : AuthState) : Prop := {
  uo_accounts : accounts_ok (au_base st);
  uo_policies : policies_ok (au_policies st);
  uo_keys : keys_ok (au_keys st);
  uo_recovery o : master_disabled (au_policies st) o = true ->
    is_Some (regular_keys (au_keys st) !! o) \/ is_Some (signer_lists (au_keys st) !! o);
}.
Definition auth_ints (tx : AuthTx) : Prop :=
  match tx with
  | PolicyTx t => 0 <= pt_fee t
  | PreauthTx t => 0 <= px_fee t
  | RegularKeyTx t => 0 <= rk_fee t
  | SignerListTx t => 0 <= st_fee t /\ 0 <= st_quorum t /\ weights_ok (st_entries t)
  end.

(** The four operations charge their account alike. *)
Lemma fee_accounts s owner fee b :
  accounts_ok s -> 0 <= fee <= balance (acct_of s DRC owner) ->
  charges s owner (fun n' => [(owner, {| balance := balance (acct_of s DRC owner) - fee; nonce := n' |})]) b ->
  accounts_ok (write_batch s b).
Proof.
  intros Hok Hf Hch. destruct (ao_ints _ Hok DRC owner) as [Hb _]. eapply charges_ok; [done..|].
  intros n' H1 H2. apply Forall_singleton. cbn [fst snd balance nonce]. split; [|done]. unfold in_u64 in *. lia.
Qed.
Lemma op_charge s owner version tv tn sel bad ctx fee ovf b1 acct :
  begin_op_sequence s owner (acct_of s DRC owner) version tv tn sel bad = Ok ctx ->
  finish_op_sequence [] owner {| balance := balance (acct_of s DRC owner) - fee; nonce := nonce (acct_of s DRC owner) |} ctx ovf
    = Ok (b1, acct) ->
  charges s owner (fun n' => [(owner, {| balance := balance (acct_of s DRC owner) - fee; nonce := n' |})])
    (b1 ++ [PutAccount DRC owner acct]).
Proof.
  intros Hb Hfin. destruct (op_sequence_run _ _ _ _ _ _ _ _ _ _ _ _ _ Hb Hfin) as (sel' & tops & n' & -> & -> & Heff).
  by exists sel', tops, n'.
Qed.

Lemma policy_inv vf s ps tx (auth : TxAuth Ctx) p b ops j :
  policies_ok ps -> apply_drc_account_policy vf s ps tx auth [] [] = Ok (p, b, ops, j) ->
  vf s ps tx auth = Ok tt /\ pt_fee tx <= balance (acct_of s DRC (pt_account tx)) /\
  charges s (pt_account tx) (fun n' => [(pt_account tx, {| balance := balance (acct_of s DRC (pt_account tx)) - pt_fee tx;
                                                          nonce := n' |})]) b /\
  p = set_policy (default default_account_policy (policies ps !! pt_account tx)) (pt_action tx) /\
  ops = (if require_destination_tag p || deposit_auth_required p || master_key_disabled p
         then [PutPolicy (pt_account tx) p] else [DeletePolicy (pt_account tx)]).
Proof.
  intros Hps H. unfold apply_drc_account_policy in H. apply rbind_Ok in H as (_ & _ & H).
  apply rbind_Ok in H as ([] & Hv & H). do 2 apply rbind_Ok in H as (? & _ & H).
  apply rbind_Ok in H as (a & [_ ->]%load_account_Ok & H). apply rbind_Ok in H as (ctx & Hb & H).
  apply rbind_Ok in H as (_ & Hf%ensure_Ok%Z.leb_le & H). rewrite load_policy_ok in H by done. cbn [rbind] in H.
  apply rbind_Ok in H as (_ & _ & H). apply rbind_Ok in H as ([b1 acct] & Hfin & H).
  apply rbind_Ok in H as (b2 & [_ ->]%put_account_into_Ok & H). apply Ok_inj in H. apply pair_eq in H as [H _].
  apply pair_eq in H as [H <-]. apply pair_eq in H as [<- <-].
  split; [done|]. split; [done|]. split; [by eapply op_charge|]. done.
Qed.
Lemma preauth_inv vf s ps tx (auth : TxAuth Ctx) r b ops j :
  policies_ok ps -> apply_drc_deposit_preauth vf s ps tx auth [] [] = Ok (r, b, ops, j) ->
  validate_preauth_tx tx = Ok tt /\ px_fee tx <= balance (acct_of s DRC (px_owner tx)) /\
  charges s (px_owner tx) (fun n' => [(px_owner tx, {| balance := balance (acct_of s DRC (px_owner tx)) - px_fee tx;
                                                      nonce := n' |})]) b /\
  ops = match px_action tx with
        | Authorize => [PutPreauth (px_owner tx) (px_authorized_source tx) (preauth_new (px_owner tx) (px_authorized_source tx))]
        | Unauthorize => [DeletePreauth (px_owner tx) (px_authorized_source tx)]
        end.
Proof.
  intros Hps H. unfold apply_drc_deposit_preauth in H. apply rbind_Ok in H as ([] & Hv%lift_msg_Ok & H).
  do 7 apply rbind_Ok in H as (? & _ & H).
  apply rbind_Ok in H as (a & [_ ->]%load_account_Ok & H). apply rbind_Ok in H as (ctx & Hb & H).
  apply rbind_Ok in H as (_ & Hf%ensure_Ok%Z.leb_le & H). cbv zeta in H. apply rbind_Ok in H as ([b1 acct] & Hfin & H).
  apply rbind_Ok in H as (b2 & [_ ->]%put_account_into_Ok & H).
  split; [done|]. split; [done|].
  destruct (px_action tx); apply Ok_inj in H; apply pair_eq in H as [H _]; apply pair_eq in H as [H <-];
    apply pair_eq in H as [_ <-]; (split; [by eapply op_charge|done]).
Qed.
Lemma regular_key_inv s ps ks tx auth r b ops j :
  policies_ok ps -> keys_ok ks ->
  apply_drc_regular_key key_verify address_from_pubkey participant_bytes regular_key_bytes s ps ks tx auth [] []
    = Ok (r, b, ops, j) ->
  validate_regular_key_tx tx = Ok tt /\ rk_fee tx <= balance (acct_of s DRC (rk_owner tx)) /\
  charges s (rk_owner tx) (fun n' => [(rk_owner tx, {| balance := balance (acct_of s DRC (rk_owner tx)) - rk_fee tx;
                                                      nonce := n' |})]) b /\
  match rk_action tx with
  | SetKey => ops = [PutRegularKey (rk_owner tx) (regular_key_new (rk_owner tx) (rk_regular_key tx))]
  | ClearKey => ops = [DeleteRegularKey (rk_owner tx)] /\
      (master_disabled ps (rk_owner tx) = true -> is_Some (signer_lists ks !! rk_owner tx))
  end.
Proof.
  intros Hps Hks H. unfold apply_drc_regular_key in H. apply rbind_Ok in H as ([] & Hv & H).
  unfold verify_drc_regular_key_operation in Hv. apply rbind_Ok in Hv as ([] & Hs%lift_msg_Ok & _).
  apply rbind_Ok in H as ([] & Hlock & H). do 3 apply rbind_Ok in H as (? & _ & H).
  apply rbind_Ok in H as (a & [_ ->]%load_account_Ok & H). apply rbind_Ok in H as (ctx & Hb & H).
  apply rbind_Ok in H as (_ & Hf%ensure_Ok%Z.leb_le & H). cbv zeta in H. apply rbind_Ok in H as ([b1 acct] & Hfin & H).
  apply rbind_Ok in H as (b2 & [_ ->]%put_account_into_Ok & H). split; [done|]. split; [done|].
  unfold ensure_no_lockout_after_regular_key in Hlock. rewrite master_disabled_ok, load_list_ok in Hlock by done.
  cbn [rbind] in Hlock.
  destruct (rk_action tx); apply Ok_inj in H; apply pair_eq in H as [H _]; apply pair_eq in H as [H <-];
    apply pair_eq in H as [_ <-]; (split; [by eapply op_charge|]); [done|]. split; [done|].
  intros Hd. rewrite Hd in Hlock. cbn [negb] in Hlock. apply ensure_Ok in Hlock.
  rewrite (bool_decide_eq_false_2 (is_Some None)) in Hlock by (by intros [? ?]). cbn [orb] in Hlock.
  by apply bool_decide_eq_true_1 in Hlock.
Qed.
Lemma signer_list_inv s ps ks tx auth r b ops j :
  policies_ok ps -> keys_ok ks ->
  apply_drc_signer_list key_verify address_from_pubkey participant_bytes signer_list_bytes s ps ks tx auth [] []
    = Ok (r, b, ops, j) ->
  st_fee tx <= balance (acct_of s DRC (st_owner tx)) /\
  charges s (st_owner tx) (fun n' => [(st_owner tx, {| balance := balance (acct_of s DRC (st_owner tx)) - st_fee tx;
                                                      nonce := n' |})]) b /\
  match st_action tx with
  | SetList => ops = [PutSignerList (st_owner tx) (signer_list_of tx)] /\ validate_signer_list (signer_list_of tx) = Ok tt
  | DeleteList => ops = [DeleteSignerList (st_owner tx)] /\
      (master_disabled ps (st_owner tx) = true -> is_Some (regular_keys ks !! st_owner tx))
  end.
Proof.
  intros Hps Hks H. unfold apply_drc_signer_list in H. apply rbind_Ok in H as (_ & _ & H).
  apply rbind_Ok in H as ([] & Hlock & H). do 2 apply rbind_Ok in H as (? & _ & H).
  apply rbind_Ok in H as (a & [_ ->]%load_account_Ok & H). apply rbind_Ok in H as (ctx & Hb & H).
  apply rbind_Ok in H as (_ & Hf%ensure_Ok%Z.leb_le & H). cbv zeta in H. apply rbind_Ok in H as ([b1 acct] & Hfin & H).
  apply rbind_Ok in H as (b2 & [_ ->]%put_account_into_Ok & H). split; [done|].
  unfold ensure_no_lockout_after_signer_list in Hlock. rewrite master_disabled_ok, load_regular_ok in Hlock by done.
  cbn [rbind] in Hlock. destruct (st_action tx).
  - apply rbind_Ok in H as ([] & Hv%lift_msg_Ok & H). apply Ok_inj in H. apply pair_eq in H as [H _].
    apply pair_eq in H as [H <-]. apply pair_eq in H as [_ <-]. split; [by eapply op_charge|done].
  - apply Ok_inj in H. apply pair_eq in H as [H _]. apply pair_eq in H as [H <-]. apply pair_eq in H as [_ <-].
    split; [by eapply op_charge|]. split; [done|]. intros Hd. rewrite Hd in Hlock. cbn [negb] in Hlock.
    apply ensure_Ok in Hlock. rewrite (bool_decide_eq_false_2 (is_Some (None : option DrcAccountSignerList))) in Hlock
      by (by intros [? ?]). rewrite orb_false_r in Hlock. apply bool_decide_eq_true_1 in Hlock.
    by apply fmap_is_Some in Hlock.
Qed.

Lemma set_policy_ok ps a act :
  policies_ok ps ->
  let p := set_policy (default default_account_policy (policies ps !! a)) act in
  let ps' := write_policies ps (if require_destination_tag p || deposit_auth_required p || master_key_disabled p
                                then [PutPolicy a p] else [DeletePolicy a]) in
  policies_ok ps' /\
  (forall o, master_disabled ps' o = if bool_decide (o = a) then master_key_disabled p else master_disabled ps o).
Proof.
  intros [Hp Hq]. cbv zeta. set (p := set_policy _ act).
  destruct (require_destination_tag p || deposit_auth_required p || master_key_disabled p) eqn:Ef;
    unfold write_policies; cbn [foldl apply_policy_op].
  - split; [split; cbn [policies preauths]; [|exact Hq]|].
    + intros o r [[<- <-]|[_ H]]%lookup_insert_Some; [|exact (Hp _ _ H)]. split; [done|exact Ef].
    + intros o. unfold master_disabled. cbn [policies]. case_bool_decide as E; [subst; by rewrite lookup_insert_eq|].
      by rewrite lookup_insert_ne by congruence.
  - split; [split; cbn [policies preauths]; [|exact Hq]|].
    + intros o r [_ H]%lookup_delete_Some. exact (Hp _ _ H).
    + intros o. unfold master_disabled. cbn [policies]. case_bool_decide as E; [subst; rewrite lookup_delete_eq|].
      * apply orb_false_iff in Ef as [_ Ef]. by rewrite Ef.
      * by rewrite lookup_delete_ne by congruence.
Qed.
Lemma preauth_policies ps tx :
  policies_ok ps -> validate_preauth_tx tx = Ok tt ->
  policies_ok (write_policies ps
    match px_action tx with
    | Authorize => [PutPreauth (px_owner tx) (px_authorized_source tx) (preauth_new (px_owner tx) (px_authorized_source tx))]
    | Unauthorize => [DeletePreauth (px_owner tx) (px_authorized_source tx)]
    end) /\
  policies (write_policies ps
    match px_action tx with
    | Authorize => [PutPreauth (px_owner tx) (px_authorized_source tx) (preauth_new (px_owner tx) (px_authorized_source tx))]
    | Unauthorize => [DeletePreauth (px_owner tx) (px_authorized_source tx)]
    end) = policies ps.
Proof.
  intros [Hp Hq] Hv. unfold validate_preauth_tx in Hv. do 2 apply rbind_Ok in Hv as (_ & _ & Hv).
  apply rbind_Ok in Hv as (_ & H1%ensure_Ok%negb_true_iff%Z.eqb_neq & Hv).
  apply rbind_Ok in Hv as (_ & H2%ensure_Ok%negb_true_iff%Z.eqb_neq & H3%ensure_Ok%negb_true_iff%Z.eqb_neq).
  destruct (px_action tx); unfold write_policies; cbn [foldl apply_policy_op]; (split; [split; cbn [policies preauths]|done]); auto.
  - intros o s r [[[= <- <-] <-]|[_ H]]%lookup_insert_Some; [done|exact (Hq _ _ _ H)].
  - intros o s r [_ H]%lookup_delete_Some. exact (Hq _ _ _ H).
Qed.

Lemma disable_needs_alternate ks s ps tx auth :
  policies_ok ps -> keys_ok ks -> pt_action tx = SetMasterKeyDisabled ->
  verify_drc_account_policy_operation key_verify address_from_pubkey participant_bytes policy_bytes ks s ps tx auth = Ok tt ->
  is_Some (regular_keys ks !! pt_account tx) \/ is_Some (signer_lists ks !! pt_account tx).
Proof.
  intros Hps Hks Ha H. unfold verify_drc_account_policy_operation in H. rewrite Ha in H.
  do 6 apply rbind_Ok in H as (? & _ & H).
  apply rbind_Ok in H as (_ & _ & H). apply rbind_Ok in H as (alt & Halt & ->%ensure_Ok).
  unfold has_alternate_recovery in Halt. rewrite load_regular_ok, load_list_ok in Halt by done. cbn [rbind] in Halt.
  unfold regular_key_of in Halt. destruct (regular_keys ks !! pt_account tx); [by left|].
  rewrite bool_decide_eq_false_2 in Halt by (by intros [? ?]). right. apply Ok_inj in Halt.
  by apply bool_decide_eq_true_1 in Halt.
Qed.

Lemma regular_keys_written ks o r :
  keys_ok ks -> validate_regular_key r = Ok tt -> ark_owner r = o -> keys_ok (write_keys ks [PutRegularKey o r]).
Proof.
  intros [Hr Hl] Hv Ho. split; unfold write_keys; cbn [foldl apply_key_op regular_keys signer_lists]; [|done].
  intros o' r' [[<- <-]|[_ H]]%lookup_insert_Some; [done|exact (Hr _ _ H)].
Qed.
Lemma auth_tx_ok st tx auth st' : auth_ok st -> auth_ints tx -> run st tx auth = Ok st' -> auth_ok st'.
Proof.
  intros [Ha Hp Hk Hrec] Hi H. destruct st as [s ps ks]. cbn [au_base au_policies au_keys] in *.
  destruct tx as [tx|tx|tx|tx]; cbn [apply_auth_tx auth_ints] in *;
    apply rbind_Ok in H as ([[[r b] ops] j] & H & H'); apply Ok_inj in H'; subst st'.
  - apply policy_inv in H as (Hv & Hf & Hch & -> & ->); [|done].
    destruct (set_policy_ok ps (pt_account tx) (pt_action tx) Hp) as [Hp' Hm].
    split; cbn [au_base au_policies au_keys]; [by eapply fee_accounts|done|done|].
    intros o. rewrite Hm. case_bool_decide as Eo; [subst o|apply Hrec]. intros Hd.
    assert (pt_action tx = SetMasterKeyDisabled \/ master_disabled ps (pt_account tx) = true) as [E|E].
    { unfold master_disabled, set_policy in *. cbn [master_key_disabled] in Hd.
      destruct (pt_action tx); cbn in Hd; auto; done. }
    + by apply (disable_needs_alternate ks s ps tx auth).
    + by apply Hrec.
  - apply preauth_inv in H as (Hv & Hf & Hch & ->); [|done]. destruct (preauth_policies ps tx Hp Hv) as [Hp' Hq].
    split; cbn [au_base au_policies au_keys]; [by eapply fee_accounts|done|done|].
    intros o. unfold master_disabled. rewrite Hq. apply Hrec.
  - apply regular_key_inv in H as (Hv & Hf & Hch & H); [|done..].
    assert (rk_action tx = SetKey -> validate_regular_key (regular_key_new (rk_owner tx) (rk_regular_key tx)) = Ok tt) as Hset.
    { intros E. unfold validate_regular_key_tx in Hv. rewrite E in Hv. do 2 apply rbind_Ok in Hv as (_ & _ & Hv).
      apply rbind_Ok in Hv as (_ & H1%ensure_Ok%negb_true_iff & Hv). apply rbind_Ok in Hv as (_ & H2%ensure_Ok%negb_true_iff & Hv).
      apply rbind_Ok in Hv as (_ & H3%ensure_Ok%negb_true_iff & _). unfold validate_regular_key, regular_key_new.
      cbn [ark_version ark_owner ark_regular_key]. rewrite Z.eqb_sym in H3. by rewrite H1, H2, H3. }
    destruct (rk_action tx); [subst ops|destruct H as [-> Hal]];
      (split; cbn [au_base au_policies au_keys]; [by eapply fee_accounts|done| |]).
    + by apply regular_keys_written; [|apply Hset|].
    + intros o Hd. unfold write_keys. cbn [foldl apply_key_op regular_keys signer_lists].
      destruct (decide (o = rk_owner tx)) as [->|Hne]; [left; rewrite lookup_insert_eq; by eexists|].
      rewrite lookup_insert_ne by congruence. by apply Hrec.
    + destruct Hk as [Hr Hl]. split; unfold write_keys; cbn [foldl apply_key_op regular_keys signer_lists]; [|done].
      intros o' r' [_ H]%lookup_delete_Some. exact (Hr _ _ H).
    + intros o Hd. unfold write_keys. cbn [foldl apply_key_op regular_keys signer_lists].
      destruct (decide (o = rk_owner tx)) as [->|Hne]; [right; by apply Hal|]. rewrite lookup_delete_ne by congruence. by apply Hrec.
  - destruct Hi as (Hi & Hq & Hw). apply signer_list_inv in H as (Hf & Hch & H); [|done..].
    destruct (st_action tx); destruct H as [-> H]; (split; cbn [au_base au_policies au_keys]; [by apply (fee_accounts _ _ _ _ Ha (conj Hi Hf) Hch)|done| |]);
      unfold write_keys; cbn [foldl apply_key_op].
    + destruct Hk as [Hr Hl]. split; cbn [regular_keys signer_lists]; [done|].
      intros o l [[<- <-]|[_ Ho]]%lookup_insert_Some; [|exact (Hl _ _ Ho)]. split; [done|]. split; [done|]. split; [|done].
      unfold weights_ok. cbn [signer_list_of asl_entries]. unfold canonical_sorted_entries. by rewrite sort_by_perm.
    + intros o Hd. cbn [regular_keys signer_lists].
      destruct (decide (o = st_owner tx)) as [->|Hne]; [right; rewrite lookup_insert_eq; by eexists|].
      rewrite lookup_insert_ne by congruence. by apply Hrec.
    + destruct Hk as [Hr Hl]. split; cbn [regular_keys signer_lists]; [done|].
      intros o l [_ Ho]%lookup_delete_Some. exact (Hl _ _ Ho).
    + intros o Hd. cbn [regular_keys signer_lists].
      destruct (decide (o = st_owner tx)) as [->|Hne]; [left; by apply H|]. rewrite lookup_delete_ne by congruence. by apply Hrec.
Qed.




End authority_spec.

(** ** Witnesses *)

(** Every signature verifies; the address of a key is its first byte. *)
Definition any_key (pk bytes sg : list Z) : result string unit := Ok tt.
Definition first_byte (pk : list Z) : Address := hd 0 pk mod 256.
Definition key_of (a : Address) : list Z := a :: repeat 0 32.
Definition some_sig : list Z := repeat 0 64.
Abbreviation demo_auth_apply :=
  (apply_auth_tx any_key first_byte (fun _ b (_ : unit) => b) (fun _ _ => []) (fun _ _ => []) (fun _ _ => []) (fun _ _ => [])).
Definition by_master : TxAuth unit := {| ta_ctx := tt; ta_multisign := None |}.
Definition by_signer_2 : TxAuth unit :=
  {| ta_ctx := tt;
     ta_multisign := Some {| ma_version := 1; ma_signing_for := 1;
       ma_signatures := [{| me_signer := 2; me_public_key := key_of 2; me_signature := some_sig |}] |} |}.
Definition demo_auth_state : AuthState :=
  {| au_base := demo_ledger; au_policies := {| policies := ∅; preauths := ∅ |};
     au_keys := {| regular_keys := ∅; signer_lists := ∅ |} |}.
Definition set_list (pk sg : list Z) (action : DrcSignerListAction) (entries : list DrcSignerListEntry) (quorum n : Z) : AuthTx :=
  SignerListTx {| st_version := 1; st_owner := 1; st_action := action; st_quorum := quorum; st_entries := entries;
    st_fee := 1; st_nonce := n; st_account_sequence := None; st_public_key := pk; st_signature := sg |}.
Definition set_regular (pk sg : list Z) (n : Z) : AuthTx :=
  RegularKeyTx {| rk_version := 1; rk_owner := 1; rk_action := SetKey; rk_regular_key := 999;
    rk_regular_key_public_key := key_of 3; rk_fee := 1; rk_nonce := n; rk_account_sequence := None;
    rk_public_key := pk; rk_signature := sg |}.
Definition disable_master (n : Z) : AuthTx :=
  PolicyTx {| pt_version := 3; pt_account := 1; pt_action := SetMasterKeyDisabled; pt_fee := 1; pt_nonce := n;
    pt_account_sequence := None; pt_public_key := key_of 1; pt_signature := some_sig |}.
Lemma demo_auth_state_ok : auth_ok demo_auth_state.
Proof.
  split; cbn [demo_auth_state au_base au_policies au_keys]; [apply demo_ledger_ok| | |].
  - split; cbn [policies preauths]; intros *; by rewrite lookup_empty.
  - split; cbn [regular_keys signer_lists]; intros *; by rewrite lookup_empty.
  - intros o. unfold master_disabled. cbn [policies]. by rewrite lookup_empty.
Qed.
Definition with_list : result StateError AuthState :=
  demo_auth_apply demo_auth_state (set_list (key_of 1) some_sig SetList [{| sl_signer := 2; sl_weight := 1 |}] 1 7) by_master.
Definition with_disabled : result StateError AuthState :=
  let? st := with_list in demo_auth_apply st (disable_master 8) by_master.

Lemma authorization_correct_witness :
  exists st, with_disabled = Ok st /\
    authorizes any_key first_byte (fun _ b (_ : unit) => b) (au_policies st) (au_keys st) 1 [] [] (ta_multisign by_signer_2) [] tt.
Proof.
  destruct with_disabled as [st|] eqn:E; [|vm_compute in E; discriminate E]. exists st. split; [done|].
  assert (auth_ok st) as [_ Hp Hk _].
  { unfold with_disabled, with_list in E. apply rbind_Ok in E as (st1 & E1 & E2).
    eapply auth_tx_ok; [eapply auth_tx_ok; [apply demo_auth_state_ok| |exact E1]| |exact E2]; cbn; [|lia].
    split; [lia|]. split; [lia|]. repeat constructor; cbn; lia. }
  apply authorization_correct; [exact Hp|exact Hk|].
  assert (match with_disabled with
          | Ok st => verify_multisign_or_single any_key first_byte (fun _ b (_ : unit) => b) (au_policies st) (au_keys st) 1 [] []
                       (ta_multisign by_signer_2) [] tt None
          | Err e => Err e end = Ok tt) as H by (vm_compute; reflexivity).
  rewrite E in H. exact H.
Defined.

(** ** A regular key nobody holds *)

Lemma locked_for_good ps ks :
  policies_ok ps -> keys_ok ks -> master_disabled ps 1 = true -> regular_key_of ks 1 = Some 999 -> signer_lists ks !! 1 = None ->
  forall pk sg ms bytes f, verify_multisign_or_single any_key first_byte (fun _ b (_ : unit) => b) ps ks 1 pk sg ms bytes tt f <> Ok tt.
Proof.
  intros Hp Hk Hd Hr Hl pk sg ms bytes f H. unfold verify_multisign_or_single in H.
  apply rbind_Ok in H as (_ & _ & H). destruct ms as [a|].
  - do 2 apply rbind_Ok in H as (_ & _ & H). rewrite load_list_ok in H by done. cbn [rbind] in H. by rewrite Hl in H.
  - apply rbind_Ok in H as (signer & Hs%lift_msg_Ok & H). apply rbind_Ok in H as (_ & _ & H).
    apply (operator_Ok (Ctx := unit)) in H as [[-> H]|[_ H]]; [congruence| |done..]. rewrite Hr in H. injection H as <-.
    unfold verify_bound_secp256k1 in Hs. do 2 apply rbind_Ok in Hs as (_ & _ & Hs). apply Ok_inj in Hs.
    unfold first_byte in Hs. pose proof (Z.mod_pos_bound (hd 0 pk) 256). lia.
Qed.
Definition lockout_history : result StateError AuthState :=
  let? st := with_list in
  let? st := demo_auth_apply st (set_regular [] [] 8) by_signer_2 in
  let? st := demo_auth_apply st (disable_master 9) by_master in
  demo_auth_apply st (set_list [] [] DeleteList [] 0 10) by_signer_2.

(** (finding) a regular key installed by multisign is not checked against its
    public key, which the single-signature path does.  In this history account 1
    installs, through its signer list, a regular key that is the address of no key,
    disables its master key and deletes the list, each guard seeing another way in;
    after it no authorization of any kind is accepted for the account again, while
    the same installation signed by the master key is refused. *)
Theorem multisign_regular_key_locks_out :
  (exists st, lockout_history = Ok st /\
     forall pk sg ms bytes f,
       verify_multisign_or_single any_key first_byte (fun _ b (_ : unit) => b) (au_policies st) (au_keys st) 1 pk sg ms bytes tt f
         <> Ok tt) /\
  demo_auth_apply demo_auth_state (set_regular (key_of 1) some_sig 7) by_master = Err (InvalidTx bad_auth).
Proof.
  split; [|vm_compute; reflexivity].
  destruct lockout_history as [st|] eqn:E; [|vm_compute in E; discriminate E]. exists st. split; [done|].
  assert (match lockout_history with
          | Ok st => (master_disabled (au_policies st) 1, regular_key_of (au_keys st) 1, signer_lists (au_keys st) !! 1)
          | Err _ => (false, None, None) end = (true, Some 999, None)) as Hf by (vm_compute; reflexivity).
  rewrite E in Hf. apply pair_eq in Hf as [Hf Hl]. apply pair_eq in Hf as [Hd Hr].
  unfold lockout_history, with_list in E. apply rbind_Ok in E as (st1 & E1 & E). apply rbind_Ok in E as (st2 & E2 & E).
  apply rbind_Ok in E as (st3 & E3 & E4).
  assert (auth_ok st) as [_ Hp Hk _]; [|by apply locked_for_good].
  eapply auth_tx_ok; [eapply auth_tx_ok; [eapply auth_tx_ok; [eapply auth_tx_ok; [apply demo_auth_state_ok| |exact E1]| |
    exact E2]| |exact E3]| |exact E4]; cbn; [|lia|lia|].
  - split; [lia|]. split; [lia|]. repeat constructor; cbn; lia.
  - split; [lia|]. split; [lia|]. constructor.
Qed.
