(* ===== verification/Trust.v ===== *)
(** * Trust lines and issued value

    [types/src/drc_trust_line.rs], [types/src/drc_issued_controls.rs],
    [state-machine/src/drc_trust_line.rs], [drc_issued_controls.rs].  An issuer
    owes its holders: a trust line records what one holder accepts and holds of
    one issued asset, and the issuer's liability is what all of them hold.  The
    issuer may require its holders to be authorized, freeze lines or the whole
    asset, renounce freezing for good, and claw value back where it enabled that
    before issuing.

    The records live under one key prefix per family; a [TrustStore] has a map
    for each, [TrustKey] names the keys, and the batch of an operation is a list
    of [TrustOp].  The units reserved by resting offers
    ([offer/drc/reserve/]) are written by the order book and read here. *)

From stdpp Require Import base gmap list fin_maps strings.
From Stdlib Require Import ZArith Lia.
From S2P Require Import Prelude Ordering Sums Types Finality Store Supply Accounts Objects Policy.
Local Open Scope Z_scope.

(** ** Issued assets *)

Definition DRC_MAX_LIVE_TRUST_LINES_PER_HOLDER : nat := 64.
Definition DRC_MAX_TRUST_LINE_HOLDERS_PER_ISSUER : nat := 256.
Definition DRC_TRUST_LINE_SET_TX_VERSION : Z := 1.
Definition DRC_TRUST_LINE_SET_TICKET_VERSION : Z := 2.
Definition DRC_TRUST_LINE_LIVE_STATE_VERSION : Z := 1.
Definition DRC_TRUST_LINE_LIVE_STATE_V2 : Z := 2.
Definition DRC_ISSUER_LIABILITY_STATE_VERSION : Z := 1.
Definition DRC_ISSUED_TRANSFER_RECEIPT_VERSION : Z := 2.
Definition INDEX_VERSION : Z := 1.

(** [IssuedCurrencyCode]: twenty bytes. *)
Abbreviation IssuedCurrencyCode := (list Z).
Definition is_ascii_uppercase (b : Z) : bool := (65 <=? b) && (b <=? 90).
Definition is_ascii_digit (b : Z) : bool := (48 <=? b) && (b <=? 57).
Definition is_standard_three_byte (code : IssuedCurrencyCode) : bool :=
  let b := default 0 (code !! 0%nat) in is_ascii_uppercase b || is_ascii_digit b.
Definition reserved_tags : list (list Z) := [[68; 82; 67]; [84; 76; 84]; [79; 86; 76]; [88; 82; 80]].
Definition is_reserved_native_colliding_code (code : IssuedCurrencyCode) : bool :=
  existsb (fun tag => bool_decide (take 3 code = tag) && forallb (Z.eqb 0) (drop 3 code)) reserved_tags.
Definition validate_currency (code : IssuedCurrencyCode) : result string unit :=
  ensure (negb (forallb (Z.eqb 0) code)) "zero currency code"%string ;?
  ensure (negb (is_reserved_native_colliding_code code)) "currency code collides with reserved native marker"%string ;?
  if is_standard_three_byte code then
    ensure (forallb (fun b => is_ascii_uppercase b || is_ascii_digit b) (take 3 code))
      "malformed standard three-byte currency code"%string ;?
    ensure (forallb (Z.eqb 0) (drop 3 code)) "malformed standard three-byte currency code"%string
  else ensure (negb (default 0 (code !! 0%nat) =? 0)) "malformed non-standard currency code"%string.

Record IssuedAssetId := { ia_issuer : Address; ia_currency : IssuedCurrencyCode }.
#[export] Instance IssuedAssetId_eq_dec : EqDecision IssuedAssetId.
Proof. solve_decision. Defined.
#[export] Instance IssuedAssetId_countable : Countable IssuedAssetId.
Proof.
  refine (inj_countable' (fun a => (ia_issuer a, ia_currency a))
    (fun p => {| ia_issuer := p.1; ia_currency := p.2 |}) _). by intros [].
Defined.
Definition validate_asset (a : IssuedAssetId) : result string unit :=
  ensure (negb (ia_issuer a =? 0)) "zero issuer"%string ;?
  validate_currency (ia_currency a).

(** ** Transactions *)

Record DrcTrustLineSetTx := {
  ts_version : Z;
  ts_holder : Address;
  ts_issuer : Address;
  ts_currency : IssuedCurrencyCode;
  ts_limit : Z;
  ts_fee : Z;
  ts_nonce : Z;
  ts_account_sequence : option DrcAccountSequenceSelector;
  ts_public_key : list Z;
  ts_signature : list Z;
}.
Definition ts_asset_id (tx : DrcTrustLineSetTx) : IssuedAssetId :=
  {| ia_issuer := ts_issuer tx; ia_currency := ts_currency tx |}.
Definition lift_asset (r : result string unit) : result string unit :=
  match r with Ok u => Ok u | Err e => Err (String.append "asset: " e) end.
Definition validate_trust_line_set (tx : DrcTrustLineSetTx) : result string unit :=
  ensure ((ts_version tx =? DRC_TRUST_LINE_SET_TX_VERSION) || (ts_version tx =? DRC_TRUST_LINE_SET_TICKET_VERSION))
    "unsupported version"%string ;?
  ensure (negb ((ts_holder tx =? 0) || (ts_issuer tx =? 0))) "zero account"%string ;?
  ensure (negb (ts_holder tx =? ts_issuer tx)) "self trust line"%string ;?
  lift_asset (validate_asset (ts_asset_id tx)) ;?
  ensure (negb (ts_fee tx =? 0)) "zero fee"%string.

Record DrcIssuedTransferTx := {
  it_version : Z;
  it_sender : Address;
  it_recipient : Address;
  it_issuer : Address;
  it_currency : IssuedCurrencyCode;
  it_amount : Z;
  it_fee : Z;
  it_destination_tag : option Z;
  it_source_tag : option Z;
  it_invoice_id : Hash;
  it_nonce : Z;
  it_account_sequence : option DrcAccountSequenceSelector;
  it_public_key : list Z;
  it_signature : list Z;
}.
Definition it_asset_id (tx : DrcIssuedTransferTx) : IssuedAssetId :=
  {| ia_issuer := it_issuer tx; ia_currency := it_currency tx |}.
Definition DRC_TRUST_LINE_ISSUED_TRANSFER_TICKET_VERSION : Z := 2.
Definition validate_issued_transfer (tx : DrcIssuedTransferTx) : result string unit :=
  ensure ((it_version tx =? 1) || (it_version tx =? DRC_TRUST_LINE_ISSUED_TRANSFER_TICKET_VERSION))
    "unsupported version"%string ;?
  ensure (negb ((it_sender tx =? 0) || (it_recipient tx =? 0))) "zero account"%string ;?
  ensure (negb (it_sender tx =? it_recipient tx)) "self transfer"%string ;?
  lift_asset (validate_asset (it_asset_id tx)) ;?
  ensure (0 <? it_amount tx) "non-positive amount"%string ;?
  ensure (it_invoice_id tx =? 0) "invoice routing not supported"%string ;?
  ensure (negb (it_fee tx =? 0)) "zero fee"%string.

Inductive DrcIssuedAssetPolicyAction :=
| EnableRequireAuth | EnableGlobalFreeze | ClearGlobalFreeze | EnableNoFreeze | EnableClawback.
#[export] Instance DrcIssuedAssetPolicyAction_eq_dec : EqDecision DrcIssuedAssetPolicyAction.
Proof. solve_decision. Defined.
Record DrcIssuedAssetPolicySetTx := {
  ap_version : Z;
  ap_issuer : Address;
  ap_currency : IssuedCurrencyCode;
  ap_action : DrcIssuedAssetPolicyAction;
  ap_fee : Z;
  ap_nonce : Z;
  ap_account_sequence : option DrcAccountSequenceSelector;
  ap_public_key : list Z;
  ap_signature : list Z;
}.
Definition ap_asset_id (tx : DrcIssuedAssetPolicySetTx) : IssuedAssetId :=
  {| ia_issuer := ap_issuer tx; ia_currency := ap_currency tx |}.
Definition DRC_ISSUED_ASSET_POLICY_SET_TICKET_VERSION : Z := 2.
Definition validate_policy_set (tx : DrcIssuedAssetPolicySetTx) : result string unit :=
  ensure ((ap_version tx =? 1) || (ap_version tx =? DRC_ISSUED_ASSET_POLICY_SET_TICKET_VERSION))
    "unsupported version"%string ;?
  ensure (negb (ap_issuer tx =? 0)) "zero account"%string ;?
  lift_asset (validate_currency (ap_currency tx)) ;?
  ensure (negb (ap_fee tx =? 0)) "zero fee"%string.

Inductive DrcTrustLineIssuerControlAction :=
| AuthorizeHolder
| SetLineFrozen (b : bool)
| SetLineDeepFrozen (b : bool).
Record DrcTrustLineIssuerControlTx := {
  ic_version : Z;
  ic_issuer : Address;
  ic_holder : Address;
  ic_currency : IssuedCurrencyCode;
  ic_action : DrcTrustLineIssuerControlAction;
  ic_fee : Z;
  ic_nonce : Z;
  ic_account_sequence : option DrcAccountSequenceSelector;
  ic_public_key : list Z;
  ic_signature : list Z;
}.
Definition ic_asset_id (tx : DrcTrustLineIssuerControlTx) : IssuedAssetId :=
  {| ia_issuer := ic_issuer tx; ia_currency := ic_currency tx |}.
Definition DRC_TRUST_LINE_ISSUER_CONTROL_TICKET_VERSION : Z := 2.
Definition validate_issuer_control (tx : DrcTrustLineIssuerControlTx) : result string unit :=
  ensure ((ic_version tx =? 1) || (ic_version tx =? DRC_TRUST_LINE_ISSUER_CONTROL_TICKET_VERSION))
    "unsupported version"%string ;?
  ensure (negb ((ic_issuer tx =? 0) || (ic_holder tx =? 0))) "zero account"%string ;?
  ensure (negb (ic_issuer tx =? ic_holder tx)) "self line"%string ;?
  lift_asset (validate_currency (ic_currency tx)) ;?
  ensure (negb (ic_fee tx =? 0)) "zero fee"%string.

Record DrcIssuedClawbackTx := {
  cb_version : Z;
  cb_issuer : Address;
  cb_holder : Address;
  cb_currency : IssuedCurrencyCode;
  cb_amount : Z;
  cb_fee : Z;
  cb_nonce : Z;
  cb_account_sequence : option DrcAccountSequenceSelector;
  cb_public_key : list Z;
  cb_signature : list Z;
}.
Definition cb_asset_id (tx : DrcIssuedClawbackTx) : IssuedAssetId :=
  {| ia_issuer := cb_issuer tx; ia_currency := cb_currency tx |}.
Definition DRC_ISSUED_CLAWBACK_TICKET_VERSION : Z := 2.
Definition validate_clawback (tx : DrcIssuedClawbackTx) : result string unit :=
  ensure ((cb_version tx =? 1) || (cb_version tx =? DRC_ISSUED_CLAWBACK_TICKET_VERSION))
    "unsupported version"%string ;?
  ensure (negb ((cb_issuer tx =? 0) || (cb_holder tx =? 0))) "zero account"%string ;?
  ensure (negb (cb_issuer tx =? cb_holder tx)) "self line"%string ;?
  ensure (0 <? cb_amount tx) "non-positive amount"%string ;?
  lift_asset (validate_currency (cb_currency tx)) ;?
  ensure (negb (cb_fee tx =? 0)) "zero fee"%string.

(** ** Records *)

Record DrcTrustLineLive := {
  tl_version : Z;
  tl_holder : Address;
  tl_asset : IssuedAssetId;
  tl_limit : Z;
  tl_balance : Z;
  tl_authorized : bool;
  tl_line_frozen : bool;
  tl_line_deep_frozen : bool;
}.
Definition with_line_version (l : DrcTrustLineLive) (v : Z) : DrcTrustLineLive :=
  {| tl_version := v; tl_holder := tl_holder l; tl_asset := tl_asset l; tl_limit := tl_limit l;
     tl_balance := tl_balance l; tl_authorized := tl_authorized l; tl_line_frozen := tl_line_frozen l;
     tl_line_deep_frozen := tl_line_deep_frozen l |}.
Definition with_limit (l : DrcTrustLineLive) (v : Z) : DrcTrustLineLive :=
  {| tl_version := tl_version l; tl_holder := tl_holder l; tl_asset := tl_asset l; tl_limit := v;
     tl_balance := tl_balance l; tl_authorized := tl_authorized l; tl_line_frozen := tl_line_frozen l;
     tl_line_deep_frozen := tl_line_deep_frozen l |}.
Definition with_balance (l : DrcTrustLineLive) (v : Z) : DrcTrustLineLive :=
  {| tl_version := tl_version l; tl_holder := tl_holder l; tl_asset := tl_asset l; tl_limit := tl_limit l;
     tl_balance := v; tl_authorized := tl_authorized l; tl_line_frozen := tl_line_frozen l;
     tl_line_deep_frozen := tl_line_deep_frozen l |}.
Definition with_flags (l : DrcTrustLineLive) (authorized frozen deep : bool) : DrcTrustLineLive :=
  {| tl_version := tl_version l; tl_holder := tl_holder l; tl_asset := tl_asset l; tl_limit := tl_limit l;
     tl_balance := tl_balance l; tl_authorized := authorized; tl_line_frozen := frozen;
     tl_line_deep_frozen := deep |}.
Definition as_v2_storage (l : DrcTrustLineLive) : DrcTrustLineLive := with_line_version l DRC_TRUST_LINE_LIVE_STATE_V2.
(** What serializing and reading back a line gives: version 1 is written as version 2. *)
Definition stored_line (l : DrcTrustLineLive) : DrcTrustLineLive :=
  if tl_version l =? DRC_TRUST_LINE_LIVE_STATE_VERSION then as_v2_storage l else l.
Definition validate_line (l : DrcTrustLineLive) : result string unit :=
  ensure ((tl_version l =? DRC_TRUST_LINE_LIVE_STATE_VERSION) || (tl_version l =? DRC_TRUST_LINE_LIVE_STATE_V2))
    "unsupported live state version"%string ;?
  lift_asset (validate_asset (tl_asset l)) ;?
  ensure (tl_balance l <=? tl_limit l) "balance exceeds limit"%string ;?
  ensure (negb (tl_line_deep_frozen l && negb (tl_line_frozen l))) "deep freeze requires line freeze"%string.
Definition available_limit (l : DrcTrustLineLive) : result string Z :=
  ok_or "balance exceeds limit"%string (checked_sub (tl_limit l) (tl_balance l)).

Record DrcIssuerLiability := { il_version : Z; il_asset : IssuedAssetId; il_outstanding : Z }.
Record DrcIssuedTransferReceipt := {
  xr_version : Z;
  xr_transfer_tx_id : Hash;
  xr_asset : IssuedAssetId;
  xr_sender : Address;
  xr_recipient : Address;
  xr_amount : Z;
  xr_source_tag : option Z;
  xr_destination_tag : option Z;
  xr_settlement_blue_score : Z;
}.
Record DrcIssuedAssetPolicyLive := {
  ipol_version : Z;
  ipol_asset : IssuedAssetId;
  require_auth : bool;
  global_freeze : bool;
  no_freeze : bool;
  clawback_enabled : bool;
}.
Definition DRC_ISSUED_ASSET_POLICY_LIVE_VERSION : Z := 1.
Definition validate_asset_policy (p : DrcIssuedAssetPolicyLive) : result string unit :=
  ensure (ipol_version p =? DRC_ISSUED_ASSET_POLICY_LIVE_VERSION) "unsupported live version"%string ;?
  lift_asset (validate_asset (ipol_asset p)) ;?
  ensure (negb (no_freeze p && global_freeze p)) "invalid policy combination"%string ;?
  ensure (negb (no_freeze p && clawback_enabled p)) "invalid policy combination"%string.
Definition default_for_asset (asset : IssuedAssetId) : DrcIssuedAssetPolicyLive :=
  {| ipol_version := DRC_ISSUED_ASSET_POLICY_LIVE_VERSION; ipol_asset := asset; require_auth := false;
     global_freeze := false; no_freeze := false; clawback_enabled := false |}.
Record DrcIssuedAssetPolicyReceipt := {
  pr_version : Z; pr_policy_set_tx_id : Hash; pr_asset : IssuedAssetId;
  pr_action : DrcIssuedAssetPolicyAction; pr_settlement_blue_score : Z;
}.
Record DrcTrustLineIssuerControlReceipt := {
  lr_version : Z; lr_control_tx_id : Hash; lr_asset : IssuedAssetId; lr_holder : Address;
  lr_action : DrcTrustLineIssuerControlAction; lr_settlement_blue_score : Z;
}.
Record DrcIssuedClawbackReceipt := {
  br_version : Z; br_clawback_tx_id : Hash; br_asset : IssuedAssetId; br_holder : Address;
  br_amount : Z; br_settlement_blue_score : Z;
}.
Record HolderIndex := { hi_version : Z; hi_holder : Address; hi_assets : list Hash }.
Record IssuerHoldersIndex := {
  ii_version : Z; ii_issuer : Address; ii_currency : IssuedCurrencyCode; ii_holders : list Address;
}.

(** ** The key families *)

Record TrustStore := {
  lines : gmap (Address * Hash) DrcTrustLineLive;
  holder_index : gmap Address HolderIndex;
  issuer_index : gmap (Address * IssuedCurrencyCode) IssuerHoldersIndex;
  liabilities : gmap Hash DrcIssuerLiability;
  asset_policies : gmap Hash DrcIssuedAssetPolicyLive;
  reserves : gmap (Address * Hash) Z;
  transfer_receipts : gmap Hash DrcIssuedTransferReceipt;
  policy_receipts : gmap Hash DrcIssuedAssetPolicyReceipt;
  control_receipts : gmap Hash DrcTrustLineIssuerControlReceipt;
  clawback_receipts : gmap Hash DrcIssuedClawbackReceipt;
}.
Definition empty_trust : TrustStore :=
  {| lines := ∅; holder_index := ∅; issuer_index := ∅; liabilities := ∅; asset_policies := ∅; reserves := ∅;
     transfer_receipts := ∅; policy_receipts := ∅; control_receipts := ∅; clawback_receipts := ∅ |}.

Inductive TrustKey :=
| TKLine (h : Address) (k : Hash)
| TKHolder (h : Address)
| TKIssuer (i : Address) (c : IssuedCurrencyCode)
| TKLiability (k : Hash)
| TKPolicy (k : Hash)
| TKReserve (h : Address) (k : Hash)
| TKTransfer (id : Hash)
| TKPolicyReceipt (id : Hash)
| TKControlReceipt (id : Hash)
| TKClawbackReceipt (id : Hash).
#[export] Instance TrustKey_eq_dec : EqDecision TrustKey.
Proof. solve_decision. Defined.
Inductive TrustVal :=
| VLine (l : DrcTrustLineLive)
| VHolder (r : HolderIndex)
| VIssuer (r : IssuerHoldersIndex)
| VLiability (r : DrcIssuerLiability)
| VPolicy (r : DrcIssuedAssetPolicyLive)
| VReserve (n : Z)
| VTransfer (r : DrcIssuedTransferReceipt)
| VPolicyReceipt (r : DrcIssuedAssetPolicyReceipt)
| VControlReceipt (r : DrcTrustLineIssuerControlReceipt)
| VClawbackReceipt (r : DrcIssuedClawbackReceipt).
Inductive TrustOp :=
| PutLine (h : Address) (k : Hash) (l : DrcTrustLineLive)
| PutHolderIndex (h : Address) (r : HolderIndex)
| PutIssuerIndex (i : Address) (c : IssuedCurrencyCode) (r : IssuerHoldersIndex)
| PutLiability (k : Hash) (r : DrcIssuerLiability)
| PutAssetPolicy (k : Hash) (r : DrcIssuedAssetPolicyLive)
| PutReserveUnits (h : Address) (k : Hash) (n : Z)
| PutTransferReceipt (id : Hash) (r : DrcIssuedTransferReceipt)
| PutPolicyReceipt (id : Hash) (r : DrcIssuedAssetPolicyReceipt)
| PutControlReceipt (id : Hash) (r : DrcTrustLineIssuerControlReceipt)
| PutClawbackReceipt (id : Hash) (r : DrcIssuedClawbackReceipt)
| DeleteTrust (key : TrustKey).
Definition apply_trust_op (ts : TrustStore) (op : TrustOp) : TrustStore :=
  let '(Build_TrustStore ln hi ii li po re xr pr cr br) := ts in
  match op with
  | PutLine h k l => Build_TrustStore (<[(h, k) := l]> ln) hi ii li po re xr pr cr br
  | PutHolderIndex h r => Build_TrustStore ln (<[h := r]> hi) ii li po re xr pr cr br
  | PutIssuerIndex i c r => Build_TrustStore ln hi (<[(i, c) := r]> ii) li po re xr pr cr br
  | PutLiability k r => Build_TrustStore ln hi ii (<[k := r]> li) po re xr pr cr br
  | PutAssetPolicy k r => Build_TrustStore ln hi ii li (<[k := r]> po) re xr pr cr br
  | PutReserveUnits h k n => Build_TrustStore ln hi ii li po (<[(h, k) := n]> re) xr pr cr br
  | PutTransferReceipt id r => Build_TrustStore ln hi ii li po re (<[id := r]> xr) pr cr br
  | PutPolicyReceipt id r => Build_TrustStore ln hi ii li po re xr (<[id := r]> pr) cr br
  | PutControlReceipt id r => Build_TrustStore ln hi ii li po re xr pr (<[id := r]> cr) br
  | PutClawbackReceipt id r => Build_TrustStore ln hi ii li po re xr pr cr (<[id := r]> br)
  | DeleteTrust (TKLine h k) => Build_TrustStore (delete (h, k) ln) hi ii li po re xr pr cr br
  | DeleteTrust (TKHolder h) => Build_TrustStore ln (delete h hi) ii li po re xr pr cr br
  | DeleteTrust (TKIssuer i c) => Build_TrustStore ln hi (delete (i, c) ii) li po re xr pr cr br
  | DeleteTrust (TKLiability k) => Build_TrustStore ln hi ii (delete k li) po re xr pr cr br
  | DeleteTrust (TKPolicy k) => Build_TrustStore ln hi ii li (delete k po) re xr pr cr br
  | DeleteTrust (TKReserve h k) => Build_TrustStore ln hi ii li po (delete (h, k) re) xr pr cr br
  | DeleteTrust (TKTransfer id) => Build_TrustStore ln hi ii li po re (delete id xr) pr cr br
  | DeleteTrust (TKPolicyReceipt id) => Build_TrustStore ln hi ii li po re xr (delete id pr) cr br
  | DeleteTrust (TKControlReceipt id) => Build_TrustStore ln hi ii li po re xr pr (delete id cr) br
  | DeleteTrust (TKClawbackReceipt id) => Build_TrustStore ln hi ii li po re xr pr cr (delete id br)
  end.
Definition write_trust (ts : TrustStore) (ops : list TrustOp) : TrustStore := foldl apply_trust_op ts ops.
Definition trust_op_key (op : TrustOp) : TrustKey :=
  match op with
  | PutLine h k _ => TKLine h k
  | PutHolderIndex h _ => TKHolder h
  | PutIssuerIndex i c _ => TKIssuer i c
  | PutLiability k _ => TKLiability k
  | PutAssetPolicy k _ => TKPolicy k
  | PutReserveUnits h k _ => TKReserve h k
  | PutTransferReceipt id _ => TKTransfer id
  | PutPolicyReceipt id _ => TKPolicyReceipt id
  | PutControlReceipt id _ => TKControlReceipt id
  | PutClawbackReceipt id _ => TKClawbackReceipt id
  | DeleteTrust key => key
  end.

(** [snapshot_meta_keys] and its restoration: the write that puts back what a key held. *)
Definition undo_of (ts : TrustStore) (key : TrustKey) : TrustOp :=
  match key with
  | TKLine h k => match lines ts !! (h, k) with Some v => PutLine h k v | None => DeleteTrust key end
  | TKHolder h => match holder_index ts !! h with Some v => PutHolderIndex h v | None => DeleteTrust key end
  | TKIssuer i c => match issuer_index ts !! (i, c) with Some v => PutIssuerIndex i c v | None => DeleteTrust key end
  | TKLiability k => match liabilities ts !! k with Some v => PutLiability k v | None => DeleteTrust key end
  | TKPolicy k => match asset_policies ts !! k with Some v => PutAssetPolicy k v | None => DeleteTrust key end
  | TKReserve h k => match reserves ts !! (h, k) with Some v => PutReserveUnits h k v | None => DeleteTrust key end
  | TKTransfer i => match transfer_receipts ts !! i with Some v => PutTransferReceipt i v | None => DeleteTrust key end
  | TKPolicyReceipt i => match policy_receipts ts !! i with Some v => PutPolicyReceipt i v | None => DeleteTrust key end
  | TKControlReceipt i =>
      match control_receipts ts !! i with Some v => PutControlReceipt i v | None => DeleteTrust key end
  | TKClawbackReceipt i =>
      match clawback_receipts ts !! i with Some v => PutClawbackReceipt i v | None => DeleteTrust key end
  end.
Definition snapshot_meta_keys (ts : TrustStore) (keys : list TrustKey) : list TrustOp := undo_of ts <$> keys.

(** ** Policy of a movement *)

Inductive IssuedMovementKind := Issue | HolderTransfer | Redeem.
Definition normalize_trust_line_live (l : DrcTrustLineLive) (p : DrcIssuedAssetPolicyLive) : DrcTrustLineLive :=
  if tl_version l =? DRC_TRUST_LINE_LIVE_STATE_VERSION
  then with_flags l (negb (require_auth p)) (tl_line_frozen l) (tl_line_deep_frozen l) else l.
Definition issued_movement_allowed (p : DrcIssuedAssetPolicyLive) (l : DrcTrustLineLive) (kind : IssuedMovementKind)
  : result StateError unit :=
  ensure (tl_authorized l) (InvalidTx "trust line not authorized") ;?
  let movement_frozen := global_freeze p || tl_line_frozen l in
  match kind with
  | Issue | HolderTransfer => ensure (negb movement_frozen) (InvalidTx "issued movement frozen")
  | Redeem => ensure (negb (tl_line_deep_frozen l)) (InvalidTx "issued redeem deep-frozen")
  end.

(** What the lanes take from outside: the hash of an asset, the part of
    [drc_account_auth.rs] that follows the structure check (modelled in
    [Authority]), and the hashes of the signed envelopes. *)
Class TrustLane (Auth : Type) := {
  asset_key : IssuedAssetId -> Hash;
  authorize_trust_line_set : StateStore -> PolicyStore -> DrcTrustLineSetTx -> Auth -> result StateError unit;
  authorize_issued_transfer : StateStore -> PolicyStore -> DrcIssuedTransferTx -> Auth -> result StateError unit;
  authorize_policy_set : StateStore -> PolicyStore -> DrcIssuedAssetPolicySetTx -> Auth -> result StateError unit;
  authorize_issuer_control : StateStore -> PolicyStore -> DrcTrustLineIssuerControlTx -> Auth -> result StateError unit;
  authorize_clawback : StateStore -> PolicyStore -> DrcIssuedClawbackTx -> Auth -> result StateError unit;
  issued_transfer_tx_id : DrcIssuedTransferTx -> Hash;
  policy_set_tx_id : DrcIssuedAssetPolicySetTx -> Hash;
  issuer_control_tx_id : DrcTrustLineIssuerControlTx -> Hash;
  clawback_tx_id : DrcIssuedClawbackTx -> Hash;
}.

Section trust.
Context {Auth : Type} `{TL : TrustLane Auth}.
Implicit Types (s : StateStore) (ps : PolicyStore) (ts : TrustStore) (auth : Auth).

Definition verify_drc_trust_line_set_operation s ps (tx : DrcTrustLineSetTx) auth : result StateError unit :=
  lift_msg (validate_trust_line_set tx) ;? authorize_trust_line_set s ps tx auth.
Definition verify_drc_issued_transfer_operation s ps (tx : DrcIssuedTransferTx) auth : result StateError unit :=
  lift_msg (validate_issued_transfer tx) ;? authorize_issued_transfer s ps tx auth.
Definition verify_drc_issued_asset_policy_set_operation s ps (tx : DrcIssuedAssetPolicySetTx) auth : result StateError unit :=
  lift_msg (validate_policy_set tx) ;? authorize_policy_set s ps tx auth.
Definition verify_drc_trust_line_issuer_control_operation s ps (tx : DrcTrustLineIssuerControlTx) auth
  : result StateError unit :=
  lift_msg (validate_issuer_control tx) ;? authorize_issuer_control s ps tx auth.
Definition verify_drc_issued_clawback_operation s ps (tx : DrcIssuedClawbackTx) auth : result StateError unit :=
  lift_msg (validate_clawback tx) ;? authorize_clawback s ps tx auth.

(** ** Reading *)

Definition trust_line_key (h : Address) (a : IssuedAssetId) : TrustKey := TKLine h (asset_key a).
Definition issuer_liability_key (a : IssuedAssetId) : TrustKey := TKLiability (asset_key a).
Definition trust_line_meta_keys (h : Address) (a : IssuedAssetId) : list TrustKey :=
  [trust_line_key h a; TKHolder h; TKIssuer (ia_issuer a) (ia_currency a); issuer_liability_key a].
Definition load_drc_trust_line_live ts (h : Address) (a : IssuedAssetId) : result StateError (option DrcTrustLineLive) :=
  match lines ts !! (h, asset_key a) with
  | None => Ok None
  | Some l => lift_storage (validate_line l) ;? Ok (Some l)
  end.
Definition load_drc_issuer_liability ts (a : IssuedAssetId) : result StateError Z :=
  match liabilities ts !! asset_key a with
  | None => Ok 0
  | Some r =>
      ensure ((il_version r =? DRC_ISSUER_LIABILITY_STATE_VERSION) && bool_decide (il_asset r = a))
        (Storage "invalid issuer liability record") ;?
      Ok (il_outstanding r)
  end.
Definition load_holder_index ts (h : Address) : result StateError (list Hash) :=
  match holder_index ts !! h with
  | None => Ok []
  | Some r =>
      ensure ((hi_version r =? INDEX_VERSION) && (hi_holder r =? h)) (Storage "invalid trust line holder index") ;?
      Ok (hi_assets r)
  end.
Definition load_issuer_holders_index ts (i : Address) (c : IssuedCurrencyCode) : result StateError (list Address) :=
  match issuer_index ts !! (i, c) with
  | None => Ok []
  | Some r =>
      ensure ((ii_version r =? INDEX_VERSION) && (ii_issuer r =? i) && bool_decide (ii_currency r = c))
        (Storage "invalid trust line issuer holders index") ;?
      Ok (ii_holders r)
  end.
Definition load_drc_issued_asset_policy ts (a : IssuedAssetId) : result StateError DrcIssuedAssetPolicyLive :=
  match asset_policies ts !! asset_key a with
  | None => Ok (default_for_asset a)
  | Some p => lift_storage (validate_asset_policy p) ;? Ok p
  end.
Definition load_drc_issued_transfer_receipt ts (id : Hash) : result StateError (option DrcIssuedTransferReceipt) :=
  match transfer_receipts ts !! id with
  | None => Ok None
  | Some r =>
      ensure (xr_version r =? DRC_ISSUED_TRANSFER_RECEIPT_VERSION) (Storage "invalid issued transfer receipt") ;?
      Ok (Some r)
  end.
Definition count_live_trust_lines_for_holder ts (h : Address) : result StateError nat :=
  let? l := load_holder_index ts h in Ok (length l).
Definition count_live_trust_line_holders_for_issuer ts (i : Address) (c : IssuedCurrencyCode) : result StateError nat :=
  let? l := load_issuer_holders_index ts i c in Ok (length l).
Definition sum_holder_balances_for_asset ts (a : IssuedAssetId) : result StateError Z :=
  let? holders := load_issuer_holders_index ts (ia_issuer a) (ia_currency a) in
  rfold (fun total h =>
    let? line := load_drc_trust_line_live ts h a in
    match line with
    | Some l => ok_or (Storage "issued balance sum overflow") (checked_add u64_max total (tl_balance l))
    | None => Ok total
    end) 0 holders.
Definition line_freeze_step ts (a : IssuedAssetId) (p : DrcIssuedAssetPolicyLive) (found : bool) (h : Address)
  : result StateError bool :=
  if found then Ok true else
  let? line := load_drc_trust_line_live ts h a in
  match line with
  | None => Ok false
  | Some l => let l := normalize_trust_line_live l p in Ok (tl_line_frozen l || tl_line_deep_frozen l)
  end.
Definition asset_has_active_line_freeze ts (a : IssuedAssetId) (p : DrcIssuedAssetPolicyLive) : result StateError bool :=
  let? holders := load_issuer_holders_index ts (ia_issuer a) (ia_currency a) in
  rfold (line_freeze_step ts a p) false holders.
Definition require_auth_migration_meta_keys ts (a : IssuedAssetId) : result StateError (list TrustKey) :=
  let? holders := load_issuer_holders_index ts (ia_issuer a) (ia_currency a) in
  Ok ((fun h => trust_line_key h a) <$> holders).
Definition load_issued_offer_reserve ts (h : Address) (a : IssuedAssetId) : Z :=
  default 0 (reserves ts !! (h, asset_key a)).
(** [drc_offer.rs]: spends never touch units reserved by live offers. *)
Definition assert_issued_offer_reserve ts (h : Address) (a : IssuedAssetId) (spend : Z) : result StateError unit :=
  let? line := load_drc_trust_line_live ts h a in
  let? l := ok_or (InvalidTx "missing trust line") line in
  ensure (spend <=? saturating_sub (tl_balance l) (load_issued_offer_reserve ts h a))
    (InvalidTx "issued balance is reserved by a DRC offer").
Definition lookup_drc_trust_line_point ts (h : Address) (a : IssuedAssetId) : result StateError string :=
  let? line := load_drc_trust_line_live ts h a in
  Ok (match line with Some _ => "live" | None => "unknown" end%string).
Definition lookup_drc_issuer_liability_point ts (a : IssuedAssetId) : result StateError (string * Z) :=
  lift_msg (validate_asset a) ;?
  let? outstanding := load_drc_issuer_liability ts a in
  Ok ((if outstanding =? 0 then "unknown"%string else "live"%string), outstanding).

(** ** Writing *)

Definition put_live (l : DrcTrustLineLive) : result StateError (list TrustOp) :=
  lift_msg (validate_line l) ;?
  Ok [PutLine (tl_holder l) (asset_key (tl_asset l)) (stored_line l)].
Definition put_liability (a : IssuedAssetId) (outstanding : Z) : list TrustOp :=
  if outstanding =? 0 then [DeleteTrust (issuer_liability_key a)]
  else [PutLiability (asset_key a)
          {| il_version := DRC_ISSUER_LIABILITY_STATE_VERSION; il_asset := a; il_outstanding := outstanding |}].
Definition put_holder_index (h : Address) (assets : list Hash) : result StateError (list TrustOp) :=
  match assets with
  | [] => Ok [DeleteTrust (TKHolder h)]
  | _ =>
      ensure (Nat.leb (length assets) DRC_MAX_LIVE_TRUST_LINES_PER_HOLDER) (InvalidTx "trust line holder cap exceeded") ;?
      Ok [PutHolderIndex h {| hi_version := INDEX_VERSION; hi_holder := h; hi_assets := assets |}]
  end.
Definition put_issuer_holders_index (i : Address) (c : IssuedCurrencyCode) (holders : list Address)
  : result StateError (list TrustOp) :=
  match holders with
  | [] => Ok [DeleteTrust (TKIssuer i c)]
  | _ =>
      ensure (Nat.leb (length holders) DRC_MAX_TRUST_LINE_HOLDERS_PER_ISSUER)
        (InvalidTx "trust line issuer holder cap exceeded") ;?
      Ok [PutIssuerIndex i c {| ii_version := INDEX_VERSION; ii_issuer := i; ii_currency := c; ii_holders := holders |}]
  end.
(** The batch and the previous records of the lines it rewrites. *)
Definition upgrade_line_step ts (a : IssuedAssetId) (acc : list TrustOp * list TrustOp) (h : Address)
  : result StateError (list TrustOp * list TrustOp) :=
  let? line := load_drc_trust_line_live ts h a in
  match line with
  | None => Ok acc
  | Some l =>
      let? put := put_live (with_flags (with_line_version l DRC_TRUST_LINE_LIVE_STATE_V2) false
        (tl_line_frozen l) (tl_line_deep_frozen l)) in
      Ok (acc.1 ++ put, acc.2 ++ [undo_of ts (trust_line_key h a)])
  end.
Definition upgrade_trust_lines_for_require_auth ts (a : IssuedAssetId)
  : result StateError (list TrustOp * list TrustOp) :=
  let? holders := load_issuer_holders_index ts (ia_issuer a) (ia_currency a) in
  rfold (upgrade_line_step ts a) ([], []) holders.
Definition debit_drc_fee s (b : WriteBatch) (j : AccountJournal) (payer : Address) (fee : Z)
  (ctx : option (DrcSequenceConsumption * list Z)) : result StateError (WriteBatch * AccountJournal) :=
  let? account := load_account s DRC payer in
  let j := j ++ [(DRC, payer, account)] in
  ensure (fee <=? balance account) (InvalidTx "insufficient DRC for fee") ;?
  let? (b, account) := finish_op_sequence b payer {| balance := balance account - fee; nonce := nonce account |} ctx
    "nonce overflow" in
  let? b := put_account_into b DRC payer account in
  Ok (b, j).

(** ** Operations *)

Definition apply_drc_trust_line_set s ps ts (tx : DrcTrustLineSetTx) auth (b : WriteBatch) (j : AccountJournal)
  : result StateError (WriteBatch * list TrustOp * AccountJournal) :=
  lift_msg (validate_trust_line_set tx) ;?
  verify_drc_trust_line_set_operation s ps tx auth ;?
  let? acct := load_account s DRC (ts_holder tx) in
  let? _ := load_account s DRC (ts_issuer tx) in
  let asset := ts_asset_id tx in
  let? ctx := begin_op_sequence s (ts_holder tx) acct (ts_version tx) DRC_TRUST_LINE_SET_TICKET_VERSION
    (ts_nonce tx) (ts_account_sequence tx) "bad trust line set nonce" in
  let? (b, j) := debit_drc_fee s b j (ts_holder tx) (ts_fee tx) ctx in
  let? existing := load_drc_trust_line_live ts (ts_holder tx) asset in
  if ts_limit tx =? 0 then
    let? live := ok_or (InvalidTx "unknown trust line") existing in
    ensure (tl_balance live =? 0) (InvalidTx "trust line delete requires zero balance") ;?
    let? assets := load_holder_index ts (ts_holder tx) in
    let? hops := put_holder_index (ts_holder tx) (filter (fun k => k <> asset_key asset) assets) in
    let? holders := load_issuer_holders_index ts (ts_issuer tx) (ts_currency tx) in
    let? iops := put_issuer_holders_index (ts_issuer tx) (ts_currency tx) (filter (fun h => h <> ts_holder tx) holders) in
    Ok (b, [DeleteTrust (trust_line_key (ts_holder tx) asset)] ++ hops ++ iops, j)
  else
    let? (live, ops) :=
      match existing with
      | Some live =>
          ensure (negb (ts_limit tx <? tl_balance live)) (InvalidTx "limit below balance") ;?
          Ok (with_limit live (ts_limit tx), [])
      | None =>
          let? assets := load_holder_index ts (ts_holder tx) in
          ensure (negb (Nat.leb DRC_MAX_LIVE_TRUST_LINES_PER_HOLDER (length assets)))
            (InvalidTx "trust line holder cap exceeded") ;?
          let? hops := put_holder_index (ts_holder tx) (assets ++ [asset_key asset]) in
          let? holders := load_issuer_holders_index ts (ts_issuer tx) (ts_currency tx) in
          ensure (negb (Nat.leb DRC_MAX_TRUST_LINE_HOLDERS_PER_ISSUER (length holders)))
            (InvalidTx "trust line issuer holder cap exceeded") ;?
          let? iops := (if bool_decide (ts_holder tx ∈ holders) then Ok []
                        else put_issuer_holders_index (ts_issuer tx) (ts_currency tx) (holders ++ [ts_holder tx])) in
          let? policy := load_drc_issued_asset_policy ts asset in
          Ok ({| tl_version := DRC_TRUST_LINE_LIVE_STATE_V2; tl_holder := ts_holder tx; tl_asset := asset;
                 tl_limit := ts_limit tx; tl_balance := 0; tl_authorized := negb (require_auth policy);
                 tl_line_frozen := false; tl_line_deep_frozen := false |}, hops ++ iops)
      end in
    let? put := put_live live in
    Ok (b, ops ++ put, j).

Definition movement_kind (issuer sender recipient : Address) : option IssuedMovementKind :=
  if (sender =? issuer) && negb (recipient =? issuer) then Some Issue
  else if (recipient =? issuer) && negb (sender =? issuer) then Some Redeem
  else if negb (sender =? issuer) && negb (recipient =? issuer) then Some HolderTransfer
  else None.
Definition load_line_or ts (h : Address) (a : IssuedAssetId) (missing : string) : result StateError DrcTrustLineLive :=
  let? line := load_drc_trust_line_live ts h a in ok_or (InvalidTx missing) line.
(** The controls of a transfer. *)
Definition check_movement ts (a : IssuedAssetId) (p : DrcIssuedAssetPolicyLive) (kind : IssuedMovementKind)
  (sender recipient : Address) : result StateError unit :=
  match kind with
  | Issue =>
      let? l := load_line_or ts recipient a "recipient missing trust line" in
      issued_movement_allowed p (normalize_trust_line_live l p) kind
  | Redeem =>
      let? l := load_line_or ts sender a "sender missing trust line" in
      issued_movement_allowed p (normalize_trust_line_live l p) kind
  | HolderTransfer =>
      let? l := load_line_or ts sender a "sender missing trust line" in
      let? r := load_line_or ts recipient a "recipient missing trust line" in
      issued_movement_allowed p (normalize_trust_line_live l p) kind ;?
      issued_movement_allowed p (normalize_trust_line_live r p) kind
  end.
(** The lines and the liability after a transfer. *)
Definition move_value ts (a : IssuedAssetId) (liability : Z) (kind : IssuedMovementKind)
  (sender recipient : Address) (amount : Z) : result StateError (list TrustOp * Z) :=
  match kind with
  | Issue =>
      let? l := load_line_or ts recipient a "recipient missing trust line" in
      let? available := lift_msg (available_limit l) in
      ensure (negb (available <? amount)) (InvalidTx "issue exceeds line limit") ;?
      let? bal := ok_or (InvalidTx "issued balance overflow") (checked_add u64_max (tl_balance l) amount) in
      let? liability := ok_or (InvalidTx "issuer liability overflow") (checked_add u64_max liability amount) in
      let? ops := put_live (with_balance l bal) in
      Ok (ops, liability)
  | Redeem =>
      let? l := load_line_or ts sender a "sender missing trust line" in
      let? bal := ok_or (InvalidTx "redeem exceeds balance") (checked_sub (tl_balance l) amount) in
      let? liability := ok_or (InvalidTx "issuer liability underflow") (checked_sub liability amount) in
      let? ops := put_live (with_balance l bal) in
      Ok (ops, liability)
  | HolderTransfer =>
      let? l := load_line_or ts sender a "sender missing trust line" in
      let? r := load_line_or ts recipient a "recipient missing trust line" in
      let? lbal := ok_or (InvalidTx "transfer exceeds sender balance") (checked_sub (tl_balance l) amount) in
      let? available := lift_msg (available_limit r) in
      ensure (negb (available <? amount)) (InvalidTx "transfer exceeds recipient limit") ;?
      let? rbal := ok_or (InvalidTx "recipient balance overflow") (checked_add u64_max (tl_balance r) amount) in
      let? lops := put_live (with_balance l lbal) in
      let? rops := put_live (with_balance r rbal) in
      Ok (lops ++ rops, liability)
  end.

Definition apply_drc_issued_transfer s ps ts (tx : DrcIssuedTransferTx) auth (score : Z)
  (b : WriteBatch) (j : AccountJournal) : result StateError (WriteBatch * list TrustOp * AccountJournal) :=
  lift_msg (validate_issued_transfer tx) ;?
  verify_drc_issued_transfer_operation s ps tx auth ;?
  let asset := it_asset_id tx in
  let? acct := load_account s DRC (it_sender tx) in
  let? _ := load_account s DRC (it_recipient tx) in
  let? _ := load_account s DRC (ia_issuer asset) in
  let? recipient_policy := load_drc_account_policy ps (it_recipient tx) in
  ensure (negb (require_destination_tag recipient_policy && bool_decide (it_destination_tag tx = None)))
    (InvalidTx "recipient requires destination tag") ;?
  (if deposit_auth_required recipient_policy && negb (it_sender tx =? it_recipient tx) then
     let? preauthorized := load_drc_deposit_preauth ps (it_recipient tx) (it_sender tx) in
     ensure preauthorized (InvalidTx "DRC deposit authorization required by recipient policy")
   else Ok tt) ;?
  let? ctx := begin_op_sequence s (it_sender tx) acct (it_version tx) DRC_TRUST_LINE_ISSUED_TRANSFER_TICKET_VERSION
    (it_nonce tx) (it_account_sequence tx) "bad issued transfer nonce" in
  let? (b, j) := debit_drc_fee s b j (it_sender tx) (it_fee tx) ctx in
  (if negb (it_sender tx =? ia_issuer asset) then assert_issued_offer_reserve ts (it_sender tx) asset (it_amount tx)
   else Ok tt) ;?
  let? policy := load_drc_issued_asset_policy ts asset in
  let? kind := ok_or (InvalidTx "invalid issuer transfer endpoints")
    (movement_kind (ia_issuer asset) (it_sender tx) (it_recipient tx)) in
  check_movement ts asset policy kind (it_sender tx) (it_recipient tx) ;?
  let? liability := load_drc_issuer_liability ts asset in
  let? (ops, liability) := move_value ts asset liability kind (it_sender tx) (it_recipient tx) (it_amount tx) in
  let id := issued_transfer_tx_id tx in
  let receipt := {| xr_version := DRC_ISSUED_TRANSFER_RECEIPT_VERSION; xr_transfer_tx_id := id; xr_asset := asset;
                    xr_sender := it_sender tx; xr_recipient := it_recipient tx; xr_amount := it_amount tx;
                    xr_source_tag := it_source_tag tx; xr_destination_tag := it_destination_tag tx;
                    xr_settlement_blue_score := score |} in
  Ok (b, ops ++ put_liability asset liability ++ [PutTransferReceipt id receipt], j).

Definition check_policy_action ts (asset : IssuedAssetId) (policy : DrcIssuedAssetPolicyLive) (liability : Z)
  (a : DrcIssuedAssetPolicyAction) : result StateError unit :=
  match a with
  | EnableRequireAuth =>
      ensure (liability =? 0) (InvalidTx "require_auth only at zero liability") ;?
      ensure (negb (require_auth policy)) (InvalidTx "require_auth already enabled")
  | EnableGlobalFreeze => ensure (negb (no_freeze policy)) (InvalidTx "no_freeze set")
  | ClearGlobalFreeze => ensure (negb (no_freeze policy)) (InvalidTx "no_freeze set")
  | EnableNoFreeze =>
      ensure (negb (no_freeze policy)) (InvalidTx "no_freeze already set") ;?
      ensure (negb (global_freeze policy || clawback_enabled policy))
        (InvalidTx "no_freeze incompatible with active policy") ;?
      let? active := asset_has_active_line_freeze ts asset policy in
      ensure (negb active) (InvalidTx "no_freeze incompatible with line freeze")
  | EnableClawback =>
      ensure (liability =? 0) (InvalidTx "clawback only at zero liability") ;?
      ensure (negb (no_freeze policy)) (InvalidTx "no_freeze set") ;?
      ensure (negb (clawback_enabled policy)) (InvalidTx "clawback already enabled")
  end.
Definition set_asset_policy (p : DrcIssuedAssetPolicyLive) (a : DrcIssuedAssetPolicyAction) : DrcIssuedAssetPolicyLive :=
  {| ipol_version := ipol_version p; ipol_asset := ipol_asset p;
     require_auth := match a with EnableRequireAuth => true | _ => require_auth p end;
     global_freeze := match a with EnableGlobalFreeze => true | ClearGlobalFreeze => false | _ => global_freeze p end;
     no_freeze := match a with EnableNoFreeze => true | _ => no_freeze p end;
     clawback_enabled := match a with EnableClawback => true | _ => clawback_enabled p end |}.

(** Returns, besides the batch, the previous records it adds to the journal. *)
Definition apply_drc_issued_asset_policy_set s ps ts (tx : DrcIssuedAssetPolicySetTx) auth
  (b : WriteBatch) (j : AccountJournal) (score : Z)
  : result StateError (WriteBatch * list TrustOp * AccountJournal * list TrustOp) :=
  verify_drc_issued_asset_policy_set_operation s ps tx auth ;?
  let asset := ap_asset_id tx in
  ensure (ap_issuer tx =? ia_issuer asset) (InvalidTx "issuer mismatch") ;?
  let? policy := load_drc_issued_asset_policy ts asset in
  let? liability := load_drc_issuer_liability ts asset in
  let meta_before := [undo_of ts (TKPolicy (asset_key asset))] in
  let? acct := load_account s DRC (ap_issuer tx) in
  let? ctx := begin_op_sequence s (ap_issuer tx) acct (ap_version tx) DRC_ISSUED_ASSET_POLICY_SET_TICKET_VERSION
    (ap_nonce tx) (ap_account_sequence tx) "bad policy set nonce" in
  check_policy_action ts asset policy liability (ap_action tx) ;?
  let? (b, j) := debit_drc_fee s b j (ap_issuer tx) (ap_fee tx) ctx in
  let? (ops, upgraded) :=
    match ap_action tx with
    | EnableRequireAuth => upgrade_trust_lines_for_require_auth ts asset
    | _ => Ok ([], [])
    end in
  let policy := set_asset_policy policy (ap_action tx) in
  lift_msg (validate_asset_policy policy) ;?
  let id := policy_set_tx_id tx in
  let receipt := {| pr_version := 1; pr_policy_set_tx_id := id; pr_asset := asset; pr_action := ap_action tx;
                    pr_settlement_blue_score := score |} in
  Ok (b, ops ++ [PutAssetPolicy (asset_key asset) policy; PutPolicyReceipt id receipt], j, meta_before ++ upgraded).

Definition check_control_action (line : DrcTrustLineLive) (policy : DrcIssuedAssetPolicyLive)
  (a : DrcTrustLineIssuerControlAction) : result StateError unit :=
  match a with
  | AuthorizeHolder => ensure (negb (tl_authorized line)) (InvalidTx "already authorized")
  | SetLineFrozen true => ensure (negb (no_freeze policy || global_freeze policy)) (InvalidTx "freeze not allowed")
  | SetLineFrozen false => ensure (negb (tl_line_deep_frozen line)) (InvalidTx "clear deep freeze first")
  | SetLineDeepFrozen true =>
      ensure (negb (no_freeze policy || global_freeze policy)) (InvalidTx "deep freeze not allowed") ;?
      ensure (tl_line_frozen line) (InvalidTx "line must be frozen first")
  | SetLineDeepFrozen false => Ok tt
  end.
Definition set_line_control (l : DrcTrustLineLive) (a : DrcTrustLineIssuerControlAction) : DrcTrustLineLive :=
  match a with
  | AuthorizeHolder => with_flags l true (tl_line_frozen l) (tl_line_deep_frozen l)
  | SetLineFrozen b => with_flags l (tl_authorized l) b (tl_line_deep_frozen l)
  | SetLineDeepFrozen b => with_flags l (tl_authorized l) (tl_line_frozen l) b
  end.
Definition apply_drc_trust_line_issuer_control s ps ts (tx : DrcTrustLineIssuerControlTx) auth
  (b : WriteBatch) (j : AccountJournal) (score : Z)
  : result StateError (WriteBatch * list TrustOp * AccountJournal * list TrustOp) :=
  verify_drc_trust_line_issuer_control_operation s ps tx auth ;?
  let asset := ic_asset_id tx in
  let? policy := load_drc_issued_asset_policy ts asset in
  let? line := load_line_or ts (ic_holder tx) asset "missing trust line" in
  let line := normalize_trust_line_live line policy in
  let meta_before := [undo_of ts (trust_line_key (ic_holder tx) asset)] in
  let? acct := load_account s DRC (ic_issuer tx) in
  let? ctx := begin_op_sequence s (ic_issuer tx) acct (ic_version tx) DRC_TRUST_LINE_ISSUER_CONTROL_TICKET_VERSION
    (ic_nonce tx) (ic_account_sequence tx) "bad issuer control nonce" in
  check_control_action line policy (ic_action tx) ;?
  let? (b, j) := debit_drc_fee s b j (ic_issuer tx) (ic_fee tx) ctx in
  let line := with_line_version (set_line_control line (ic_action tx)) DRC_TRUST_LINE_LIVE_STATE_V2 in
  lift_msg (validate_line line) ;?
  let? put := put_live line in
  let id := issuer_control_tx_id tx in
  let receipt := {| lr_version := 1; lr_control_tx_id := id; lr_asset := asset; lr_holder := ic_holder tx;
                    lr_action := ic_action tx; lr_settlement_blue_score := score |} in
  Ok (b, put ++ [PutControlReceipt id receipt], j, meta_before).

Definition apply_drc_issued_clawback s ps ts (tx : DrcIssuedClawbackTx) auth
  (b : WriteBatch) (j : AccountJournal) (score : Z)
  : result StateError (WriteBatch * list TrustOp * AccountJournal * list TrustOp) :=
  verify_drc_issued_clawback_operation s ps tx auth ;?
  let asset := cb_asset_id tx in
  let? policy := load_drc_issued_asset_policy ts asset in
  ensure (clawback_enabled policy) (InvalidTx "clawback not enabled") ;?
  ensure (negb (no_freeze policy)) (InvalidTx "clawback incompatible with no_freeze") ;?
  let? line := load_line_or ts (cb_holder tx) asset "missing trust line" in
  let line := normalize_trust_line_live line policy in
  ensure (tl_authorized line) (InvalidTx "line not authorized") ;?
  let? liability := load_drc_issuer_liability ts asset in
  let meta_before := [undo_of ts (trust_line_key (cb_holder tx) asset); undo_of ts (issuer_liability_key asset)] in
  ensure (negb (cb_amount tx =? 0)) (InvalidTx "clawback amount must be positive") ;?
  ensure (negb (tl_balance line <? cb_amount tx)) (InvalidTx "clawback exceeds balance") ;?
  assert_issued_offer_reserve ts (cb_holder tx) asset (cb_amount tx) ;?
  let? acct := load_account s DRC (cb_issuer tx) in
  let? ctx := begin_op_sequence s (cb_issuer tx) acct (cb_version tx) DRC_ISSUED_CLAWBACK_TICKET_VERSION
    (cb_nonce tx) (cb_account_sequence tx) "bad clawback nonce" in
  let? (b, j) := debit_drc_fee s b j (cb_issuer tx) (cb_fee tx) ctx in
  let? bal := ok_or (InvalidTx "clawback underflow") (checked_sub (tl_balance line) (cb_amount tx)) in
  let? liability := ok_or (InvalidTx "liability underflow") (checked_sub liability (cb_amount tx)) in
  let? put := put_live (with_line_version (with_balance line bal) DRC_TRUST_LINE_LIVE_STATE_V2) in
  let id := clawback_tx_id tx in
  let receipt := {| br_version := 1; br_clawback_tx_id := id; br_asset := asset; br_holder := cb_holder tx;
                    br_amount := cb_amount tx; br_settlement_blue_score := score |} in
  Ok (b, put ++ put_liability asset liability ++ [PutClawbackReceipt id receipt], j, meta_before).

(** ** The lanes *)

Definition trust_line_set_meta_keys (tx : DrcTrustLineSetTx) : list TrustKey :=
  trust_line_meta_keys (ts_holder tx) (ts_asset_id tx).
Definition issued_transfer_meta_keys (tx : DrcIssuedTransferTx) : list TrustKey :=
  trust_line_meta_keys (it_sender tx) (it_asset_id tx) ++
  (if it_recipient tx =? it_sender tx then [] else trust_line_meta_keys (it_recipient tx) (it_asset_id tx)) ++
  [TKTransfer (issued_transfer_tx_id tx)].
Definition issued_controls_meta_keys_for_policy (tx : DrcIssuedAssetPolicySetTx) : list TrustKey :=
  [TKPolicy (asset_key (ap_asset_id tx)); TKPolicyReceipt (policy_set_tx_id tx)].
Definition issued_controls_meta_keys_for_issuer_control (tx : DrcTrustLineIssuerControlTx) : list TrustKey :=
  [trust_line_key (ic_holder tx) (ic_asset_id tx); TKControlReceipt (issuer_control_tx_id tx)].
Definition issued_controls_meta_keys_for_clawback (tx : DrcIssuedClawbackTx) : list TrustKey :=
  [trust_line_key (cb_holder tx) (cb_asset_id tx); issuer_liability_key (cb_asset_id tx);
   TKClawbackReceipt (clawback_tx_id tx)].

Record TrustState := { tr_base : StateStore; tr_trust : TrustStore }.
Inductive TrustTx :=
| SetPolicy (tx : DrcIssuedAssetPolicySetTx)
| ControlLine (tx : DrcTrustLineIssuerControlTx)
| SetTrustLine (tx : DrcTrustLineSetTx)
| TransferIssued (tx : DrcIssuedTransferTx)
| Clawback (tx : DrcIssuedClawbackTx).
(** One accepted transaction of the lanes: the store after it, and what the
    journal keeps of the trust records ([drc_trust_line_meta_before]). *)
Definition apply_trust_tx ps (st : TrustState) (tx : TrustTx) auth (score : Z)
  : result StateError (TrustState * list TrustOp) :=
  let ts := tr_trust st in
  let commit (b : WriteBatch) (ops : list TrustOp) :=
    {| tr_base := write_batch (tr_base st) b; tr_trust := write_trust ts ops |} in
  match tx with
  | SetPolicy t =>
      let before := snapshot_meta_keys ts (issued_controls_meta_keys_for_policy t) in
      let? (b, ops, _, meta) := apply_drc_issued_asset_policy_set (tr_base st) ps ts t auth [] [] score in
      Ok (commit b ops, before ++ meta)
  | ControlLine t =>
      let before := snapshot_meta_keys ts (issued_controls_meta_keys_for_issuer_control t) in
      let? (b, ops, _, meta) := apply_drc_trust_line_issuer_control (tr_base st) ps ts t auth [] [] score in
      Ok (commit b ops, before ++ meta)
  | SetTrustLine t =>
      let before := snapshot_meta_keys ts (trust_line_set_meta_keys t) in
      let? (b, ops, _) := apply_drc_trust_line_set (tr_base st) ps ts t auth [] [] in
      Ok (commit b ops, before)
  | TransferIssued t =>
      let before := snapshot_meta_keys ts (issued_transfer_meta_keys t) in
      let? (b, ops, _) := apply_drc_issued_transfer (tr_base st) ps ts t auth score [] [] in
      Ok (commit b ops, before)
  | Clawback t =>
      let before := snapshot_meta_keys ts (issued_controls_meta_keys_for_clawback t) in
      let? (b, ops, _, meta) := apply_drc_issued_clawback (tr_base st) ps ts t auth [] [] score in
      Ok (commit b ops, before ++ meta)
  end.
(** [revert_journal_batched]: the snapshots written back, the latest first. *)
Definition revert_trust_meta (ts : TrustStore) (before : list TrustOp) : TrustStore :=
  write_trust ts (reverse before).
End trust.
