(* ===== verification/TrustProps.v ===== *)
(** * Trust lines: what is owed is what is held

    The invariant of the issued-value records, what each accepted operation
    does to them, and the guarantees holders and issuers read from it. *)

From stdpp Require Import base gmap list fin_maps strings relations.
From Stdlib Require Import ZArith Lia.
From S2P Require Import Prelude Ordering Sums Types Finality Store Supply Accounts Objects Policy Trust.
Local Open Scope Z_scope.

(** ** Batches, field by field *)

Definition line_step (m : gmap (Address * Hash) DrcTrustLineLive) (op : TrustOp) :=
  match op with
  | PutLine h k l => <[(h, k) := l]> m
  | DeleteTrust (TKLine h k) => delete (h, k) m
  | _ => m
  end.
Definition holder_step (m : gmap Address HolderIndex) (op : TrustOp) :=
  match op with PutHolderIndex h r => <[h := r]> m | DeleteTrust (TKHolder h) => delete h m | _ => m end.
Definition issuer_step (m : gmap (Address * IssuedCurrencyCode) IssuerHoldersIndex) (op : TrustOp) :=
  match op with PutIssuerIndex i c r => <[(i, c) := r]> m | DeleteTrust (TKIssuer i c) => delete (i, c) m | _ => m end.
Definition liability_step (m : gmap Hash DrcIssuerLiability) (op : TrustOp) :=
  match op with PutLiability k r => <[k := r]> m | DeleteTrust (TKLiability k) => delete k m | _ => m end.
Definition policy_step (m : gmap Hash DrcIssuedAssetPolicyLive) (op : TrustOp) :=
  match op with PutAssetPolicy k r => <[k := r]> m | DeleteTrust (TKPolicy k) => delete k m | _ => m end.
Definition reserve_step (m : gmap (Address * Hash) Z) (op : TrustOp) :=
  match op with PutReserveUnits h k n => <[(h, k) := n]> m | DeleteTrust (TKReserve h k) => delete (h, k) m | _ => m end.

Lemma lines_write ts ops : lines (write_trust ts ops) = foldl line_step (lines ts) ops.
Proof. revert ts. induction ops as [|op ops IH]; intros ts; [done|]. cbn. rewrite IH. by destruct ts, op as [| | | | | | | | | |[]]. Qed.
Lemma holders_write ts ops : holder_index (write_trust ts ops) = foldl holder_step (holder_index ts) ops.
Proof. revert ts. induction ops as [|op ops IH]; intros ts; [done|]. cbn. rewrite IH. by destruct ts, op as [| | | | | | | | | |[]]. Qed.
Lemma issuers_write ts ops : issuer_index (write_trust ts ops) = foldl issuer_step (issuer_index ts) ops.
Proof. revert ts. induction ops as [|op ops IH]; intros ts; [done|]. cbn. rewrite IH. by destruct ts, op as [| | | | | | | | | |[]]. Qed.
Lemma liabilities_write ts ops : liabilities (write_trust ts ops) = foldl liability_step (liabilities ts) ops.
Proof. revert ts. induction ops as [|op ops IH]; intros ts; [done|]. cbn. rewrite IH. by destruct ts, op as [| | | | | | | | | |[]]. Qed.
Lemma policies_write ts ops : asset_policies (write_trust ts ops) = foldl policy_step (asset_policies ts) ops.
Proof. revert ts. induction ops as [|op ops IH]; intros ts; [done|]. cbn. rewrite IH. by destruct ts, op as [| | | | | | | | | |[]]. Qed.
Lemma reserves_write ts ops : reserves (write_trust ts ops) = foldl reserve_step (reserves ts) ops.
Proof. revert ts. induction ops as [|op ops IH]; intros ts; [done|]. cbn. rewrite IH. by destruct ts, op as [| | | | | | | | | |[]]. Qed.
Lemma write_trust_app ts ops1 ops2 : write_trust ts (ops1 ++ ops2) = write_trust (write_trust ts ops1) ops2.
Proof. apply foldl_app. Qed.

(** ** The journal of a trust operation *)

Definition trust_lookup (ts : TrustStore) (key : TrustKey) : option TrustVal :=
  match key with
  | TKLine h k => VLine <$> lines ts !! (h, k)
  | TKHolder h => VHolder <$> holder_index ts !! h
  | TKIssuer i c => VIssuer <$> issuer_index ts !! (i, c)
  | TKLiability k => VLiability <$> liabilities ts !! k
  | TKPolicy k => VPolicy <$> asset_policies ts !! k
  | TKReserve h k => VReserve <$> reserves ts !! (h, k)
  | TKTransfer i => VTransfer <$> transfer_receipts ts !! i
  | TKPolicyReceipt i => VPolicyReceipt <$> policy_receipts ts !! i
  | TKControlReceipt i => VControlReceipt <$> control_receipts ts !! i
  | TKClawbackReceipt i => VClawbackReceipt <$> clawback_receipts ts !! i
  end.
Definition trust_op_val (op : TrustOp) : option TrustVal :=
  match op with
  | PutLine _ _ v => Some (VLine v)
  | PutHolderIndex _ v => Some (VHolder v)
  | PutIssuerIndex _ _ v => Some (VIssuer v)
  | PutLiability _ v => Some (VLiability v)
  | PutAssetPolicy _ v => Some (VPolicy v)
  | PutReserveUnits _ _ v => Some (VReserve v)
  | PutTransferReceipt _ v => Some (VTransfer v)
  | PutPolicyReceipt _ v => Some (VPolicyReceipt v)
  | PutControlReceipt _ v => Some (VControlReceipt v)
  | PutClawbackReceipt _ v => Some (VClawbackReceipt v)
  | DeleteTrust _ => None
  end.
Lemma map_eq_via {K A V} `{Countable K} (f : A -> V) (m m' : gmap K A) :
  (forall x y, f x = f y -> x = y) -> (forall k, f <$> m !! k = f <$> m' !! k) -> m = m'.
Proof.
  intros Hf He. apply map_eq. intros k. specialize (He k). destruct (m !! k), (m' !! k); try done.
  f_equal. apply Hf. by injection He.
Qed.
Lemma trust_ext ts ts' : (forall key, trust_lookup ts key = trust_lookup ts' key) -> ts = ts'.
Proof.
  intros He. destruct ts as [a1 a2 a3 a4 a5 a6 a7 a8 a9 a0], ts' as [b1 b2 b3 b4 b5 b6 b7 b8 b9 b0].
  cut (a1 = b1 /\ a2 = b2 /\ a3 = b3 /\ a4 = b4 /\ a5 = b5 /\ a6 = b6 /\ a7 = b7 /\ a8 = b8 /\ a9 = b9 /\ a0 = b0).
  { by intros (-> & -> & -> & -> & -> & -> & -> & -> & -> & ->). }
  repeat split.
  - apply (map_eq_via VLine); [by intros ?? [=]|]. intros [h k]. exact (He (TKLine h k)).
  - apply (map_eq_via VHolder); [by intros ?? [=]|]. intros h. exact (He (TKHolder h)).
  - apply (map_eq_via VIssuer); [by intros ?? [=]|]. intros [i c]. exact (He (TKIssuer i c)).
  - apply (map_eq_via VLiability); [by intros ?? [=]|]. intros k. exact (He (TKLiability k)).
  - apply (map_eq_via VPolicy); [by intros ?? [=]|]. intros k. exact (He (TKPolicy k)).
  - apply (map_eq_via VReserve); [by intros ?? [=]|]. intros [h k]. exact (He (TKReserve h k)).
  - apply (map_eq_via VTransfer); [by intros ?? [=]|]. intros k. exact (He (TKTransfer k)).
  - apply (map_eq_via VPolicyReceipt); [by intros ?? [=]|]. intros k. exact (He (TKPolicyReceipt k)).
  - apply (map_eq_via VControlReceipt); [by intros ?? [=]|]. intros k. exact (He (TKControlReceipt k)).
  - apply (map_eq_via VClawbackReceipt); [by intros ?? [=]|]. intros k. exact (He (TKClawbackReceipt k)).
Qed.
Ltac map_lookup_cases :=
  case_decide; simplify_eq; rewrite ?lookup_insert_eq, ?lookup_delete_eq; try done;
  rewrite ?lookup_insert_ne, ?lookup_delete_ne by congruence; done.
Lemma trust_lookup_op ts op key :
  trust_lookup (apply_trust_op ts op) key =
    if decide (trust_op_key op = key) then trust_op_val op else trust_lookup ts key.
Proof. destruct ts, op as [| | | | | | | | | |[]], key; cbn; map_lookup_cases. Qed.
Lemma trust_lookup_write ts ops key :
  key ∉ (trust_op_key <$> ops) -> trust_lookup (write_trust ts ops) key = trust_lookup ts key.
Proof.
  revert ts. induction ops as [|op ops IH]; intros ts Hk; [done|]. cbn in Hk |- *.
  apply not_elem_of_cons in Hk as [Hk Hk']. rewrite IH by done. rewrite trust_lookup_op. by rewrite decide_False.
Qed.
Lemma undo_of_key ts key : trust_op_key (undo_of ts key) = key.
Proof. destruct key; cbn; by destruct (_ !! _). Qed.
Lemma undo_of_val ts key : trust_op_val (undo_of ts key) = trust_lookup ts key.
Proof. destruct key; cbn; by destruct (_ !! _). Qed.
(** Writing back what a set of keys held restores a store that differs from
    the original on those keys only. *)
Lemma restore_keys ts ts' keys :
  (forall key, key ∉ keys -> trust_lookup ts' key = trust_lookup ts key) ->
  write_trust ts' (undo_of ts <$> keys) = ts.
Proof.
  revert ts'. induction keys as [|key keys IH]; intros ts' He; [apply trust_ext; intros key; by apply He, not_elem_of_nil|].
  cbn. apply IH. intros key' Hk'. rewrite trust_lookup_op, undo_of_key. case_decide as E; [subst; apply undo_of_val|].
  apply He. rewrite not_elem_of_cons. by split.
Qed.
Lemma restore_after ts ops keys :
  trust_op_key <$> ops ⊆ keys -> revert_trust_meta (write_trust ts ops) (undo_of ts <$> keys) = ts.
Proof.
  intros Hs. unfold revert_trust_meta. rewrite <- fmap_reverse. apply restore_keys. intros key Hk.
  apply trust_lookup_write. intros Hin. apply Hk. rewrite elem_of_reverse. by apply Hs.
Qed.

Section trust_spec.
Context {Auth : Type} `{TL : TrustLane Auth}.
Implicit Types (s : StateStore) (ps : PolicyStore) (ts : TrustStore) (a : IssuedAssetId) (l : DrcTrustLineLive).

(** ** What the records say *)

Definition bal_of ts (x : Address * Hash) : Z := match lines ts !! x with Some l => tl_balance l | None => 0 end.
Definition liab_of ts (k : Hash) : Z := match liabilities ts !! k with Some r => il_outstanding r | None => 0 end.
Definition policy_of ts a : DrcIssuedAssetPolicyLive := default (default_for_asset a) (asset_policies ts !! asset_key a).
Definition holder_ids ts (h : Address) : list Hash := match holder_index ts !! h with Some r => hi_assets r | None => [] end.
Definition issuer_ids ts (x : Address * IssuedCurrencyCode) : list Address :=
  match issuer_index ts !! x with Some r => ii_holders r | None => [] end.
(** What the holders of an asset have together. *)
Definition held_in (m : gmap (Address * Hash) DrcTrustLineLive) (k : Hash) : Z :=
  msum (fun x l => if bool_decide (x.2 = k) then tl_balance l else 0) m.
Definition held ts (k : Hash) : Z := held_in (lines ts) k.
(** Whether the controls treat the line as authorized. *)
Definition line_authorized ts (h : Address) a : bool :=
  match lines ts !! (h, asset_key a) with
  | Some l => tl_authorized (normalize_trust_line_live l (policy_of ts a))
  | None => false
  end.

Record line_ok (h : Address) (k : Hash) (l : DrcTrustLineLive) : Prop := {
  lo_holder : tl_holder l = h;
  lo_key : asset_key (tl_asset l) = k;
  lo_valid : validate_line l = Ok tt;
  lo_nonneg : 0 <= tl_balance l;
  lo_limit : tl_limit l <= u64_max;
  lo_other : h <> ia_issuer (tl_asset l);
  lo_v1 : tl_version l = 1 -> tl_authorized l = true /\ tl_line_frozen l = false;
}.
Definition asset_at (x : Address * IssuedCurrencyCode) : IssuedAssetId := {| ia_issuer := x.1; ia_currency := x.2 |}.

(** The indexes list exactly the live lines, without repetition and within
    their caps. *)
Record index_ok ts : Prop := {
  xo_holder h r : holder_index ts !! h = Some r -> hi_version r = INDEX_VERSION /\ hi_holder r = h;
  xo_holder_ids h : NoDup (holder_ids ts h) /\ (length (holder_ids ts h) <= 64)%nat;
  xo_holder_exact h k : k ∈ holder_ids ts h <-> is_Some (lines ts !! (h, k));
  xo_issuer i c r : issuer_index ts !! (i, c) = Some r -> ii_version r = INDEX_VERSION /\ ii_issuer r = i /\ ii_currency r = c;
  xo_issuer_ids x : NoDup (issuer_ids ts x) /\ (length (issuer_ids ts x) <= 256)%nat;
  xo_issuer_exact x h : h ∈ issuer_ids ts x <-> is_Some (lines ts !! (h, asset_key (asset_at x)));
}.
(** Liabilities are what is held; reserved units are covered. *)
Record value_ok ts : Prop := {
  vo_liab k r : liabilities ts !! k = Some r ->
    il_version r = DRC_ISSUER_LIABILITY_STATE_VERSION /\ asset_key (il_asset r) = k /\ 0 < il_outstanding r <= u64_max;
  vo_sum k : liab_of ts k = held ts k;
  vo_reserve x n : reserves ts !! x = Some n -> 0 < n <= bal_of ts x;
}.
(** An asset that requires authorization has no line of the old version, whose
    authorization would be implied; one that renounced freezing has none frozen. *)
Record controls_ok ts : Prop := {
  no_policy k p : asset_policies ts !! k = Some p -> validate_asset_policy p = Ok tt /\ asset_key (ipol_asset p) = k;
  no_auth h k l p : lines ts !! (h, k) = Some l -> asset_policies ts !! k = Some p -> require_auth p = true -> tl_version l = 2;
  no_frozen h k l p : lines ts !! (h, k) = Some l -> asset_policies ts !! k = Some p -> no_freeze p = true ->
    tl_line_frozen l = false;
}.
Record trust_ok ts : Prop := {
  to_lines h k l : lines ts !! (h, k) = Some l -> line_ok h k l;
  to_index : index_ok ts;
  to_value : value_ok ts;
  to_controls : controls_ok ts;
}.

(** ** Loading *)

Lemma validate_line_inv l :
  validate_line l = Ok tt <->
  (tl_version l = 1 \/ tl_version l = 2) /\ lift_asset (validate_asset (tl_asset l)) = Ok tt /\
  tl_balance l <= tl_limit l /\ (tl_line_deep_frozen l = true -> tl_line_frozen l = true).
Proof.
  unfold validate_line. destruct (lift_asset _) as [[]|] eqn:Ea; split.
  - intros H. apply rbind_Ok in H as (_ & Hv%ensure_Ok & H). apply rbind_Ok in H as (_ & _ & H).
    apply rbind_Ok in H as (_ & Hb%ensure_Ok & Hd%ensure_Ok).
    split; [unfold DRC_TRUST_LINE_LIVE_STATE_VERSION, DRC_TRUST_LINE_LIVE_STATE_V2 in Hv; lia|]. split; [done|]. split; [lia|].
    by destruct (tl_line_deep_frozen l), (tl_line_frozen l).
  - intros (Hv & _ & Hb & Hd).
    assert ((tl_version l =? DRC_TRUST_LINE_LIVE_STATE_VERSION) || (tl_version l =? DRC_TRUST_LINE_LIVE_STATE_V2) = true) as ->
      by (unfold DRC_TRUST_LINE_LIVE_STATE_VERSION, DRC_TRUST_LINE_LIVE_STATE_V2; lia).
    cbn [ensure rbind]. rewrite (proj2 (Z.leb_le _ _) Hb). cbn [ensure rbind].
    destruct (tl_line_deep_frozen l), (tl_line_frozen l); try done. by specialize (Hd eq_refl).
  - intros H. apply rbind_Ok in H as (_ & _ & H). by apply rbind_Ok in H as (_ & [=] & _).
  - by intros (_ & [=] & _).
Qed.
Lemma load_line_Ok ts h a o : load_drc_trust_line_live ts h a = Ok o -> lines ts !! (h, asset_key a) = o.
Proof.
  unfold load_drc_trust_line_live. destruct (lines ts !! _); [|by intros [= <-]].
  intros H. by apply rbind_Ok in H as (_ & _ & [= <-]).
Qed.
Lemma load_line_or_Ok ts h a m l : load_line_or ts h a m = Ok l -> lines ts !! (h, asset_key a) = Some l.
Proof. intros H. by apply rbind_Ok in H as (o & <-%load_line_Ok & H%ok_or_Ok). Qed.
Lemma load_line_ok ts h a : trust_ok ts -> load_drc_trust_line_live ts h a = Ok (lines ts !! (h, asset_key a)).
Proof.
  intros Hok. unfold load_drc_trust_line_live. destruct (lines ts !! _) as [l|] eqn:El; [|done].
  by rewrite (lo_valid _ _ _ (to_lines _ Hok _ _ _ El)).
Qed.
Lemma load_liability_Ok ts a v : load_drc_issuer_liability ts a = Ok v -> v = liab_of ts (asset_key a).
Proof.
  unfold load_drc_issuer_liability, liab_of. destruct (liabilities ts !! _); [|by intros [= <-]].
  intros H. by apply rbind_Ok in H as (_ & _ & [= <-]).
Qed.
Lemma load_policy_Ok ts a p : load_drc_issued_asset_policy ts a = Ok p -> p = policy_of ts a.
Proof.
  unfold load_drc_issued_asset_policy, policy_of. destruct (asset_policies ts !! _); [|by intros [= <-]].
  intros H. by apply rbind_Ok in H as (_ & _ & [= <-]).
Qed.
Lemma load_asset_policy_ok ts a : trust_ok ts -> load_drc_issued_asset_policy ts a = Ok (policy_of ts a).
Proof.
  intros Hok. unfold load_drc_issued_asset_policy, policy_of. destruct (asset_policies ts !! _) as [p|] eqn:Ep; [|done].
  by rewrite (proj1 (no_policy _ (to_controls _ Hok) _ _ Ep)).
Qed.
Lemma load_holder_Ok ts h ids : load_holder_index ts h = Ok ids -> ids = holder_ids ts h.
Proof.
  unfold load_holder_index, holder_ids. destruct (holder_index ts !! _); [|by intros [= <-]].
  intros H. by apply rbind_Ok in H as (_ & _ & [= <-]).
Qed.
Lemma load_issuer_Ok ts i c ids : load_issuer_holders_index ts i c = Ok ids -> ids = issuer_ids ts (i, c).
Proof.
  unfold load_issuer_holders_index, issuer_ids. destruct (issuer_index ts !! _); [|by intros [= <-]].
  intros H. by apply rbind_Ok in H as (_ & _ & [= <-]).
Qed.
Lemma load_issuer_ok ts i c : trust_ok ts -> load_issuer_holders_index ts i c = Ok (issuer_ids ts (i, c)).
Proof.
  intros Hok. unfold load_issuer_holders_index, issuer_ids. destruct (issuer_index ts !! _) as [r|] eqn:Er; [|done].
  destruct (xo_issuer _ (to_index _ Hok) _ _ _ Er) as (-> & -> & ->). by rewrite !Z.eqb_refl, bool_decide_eq_true_2.
Qed.
Lemma put_line_Ok l ops :
  put_live l = Ok ops ->
  validate_line l = Ok tt /\ ops = [PutLine (tl_holder l) (asset_key (tl_asset l)) (stored_line l)].
Proof.
  unfold put_live. destruct (validate_line l) as [[]|]; [|done]. intros H. split; [done|]. by injection H as <-.
Qed.
Lemma assert_reserve_Ok ts h a n :
  assert_issued_offer_reserve ts h a n = Ok tt ->
  exists l, lines ts !! (h, asset_key a) = Some l /\ n <= saturating_sub (tl_balance l) (load_issued_offer_reserve ts h a).
Proof.
  intros H. apply rbind_Ok in H as (o & Ho%load_line_Ok & H). apply rbind_Ok in H as (l & ->%ok_or_Ok & H%ensure_Ok).
  exists l. split; [done|lia].
Qed.
Lemma debit_fee_run s b j payer version tv tn sel bad fee ctx b' j' :
  begin_op_sequence s payer (acct_of s DRC payer) version tv tn sel bad = Ok ctx ->
  debit_drc_fee s b j payer fee ctx = Ok (b', j') ->
  fee <= balance (acct_of s DRC payer) /\
  exists ops, b' = b ++ ops /\
    charges s payer (fun n' => [(payer, {| balance := balance (acct_of s DRC payer) - fee; nonce := n' |})]) ops.
Proof.
  intros Hb H. apply rbind_Ok in H as (acct & [_ ->]%load_account_Ok & H).
  apply rbind_Ok in H as (_ & Hf%ensure_Ok%Z.leb_le & H). apply rbind_Ok in H as ([b1 acct] & Hfin & H).
  apply rbind_Ok in H as (b2 & [_ ->]%put_account_into_Ok & H). apply Ok_inj, pair_eq in H as [<- _].
  destruct (op_sequence_run _ _ _ _ _ _ _ _ _ _ _ _ _ Hb Hfin) as (sel' & tops & n' & -> & -> & Heff).
  split; [done|]. exists (tops ++ [put_drc (payer, {| balance := balance (acct_of s DRC payer) - fee; nonce := n' |})]).
  split; [by rewrite <- app_assoc|]. by exists sel', tops, n'.
Qed.

(** ** What each accepted operation does *)

Definition pays_fee s (payer : Address) (fee : Z) (b : WriteBatch) : Prop :=
  fee <= balance (acct_of s DRC payer) /\
  charges s payer (fun n' => [(payer, {| balance := balance (acct_of s DRC payer) - fee; nonce := n' |})]) b.
Lemma debit_fee_pays s j payer version tv tn sel bad fee ctx b' j' :
  begin_op_sequence s payer (acct_of s DRC payer) version tv tn sel bad = Ok ctx ->
  debit_drc_fee s [] j payer fee ctx = Ok (b', j') -> pays_fee s payer fee b'.
Proof. intros Hb H. destruct (debit_fee_run _ _ _ _ _ _ _ _ _ _ _ _ _ Hb H) as (Hf & ops & -> & Hc). by split. Qed.

Definition new_line ts (tx : DrcTrustLineSetTx) : DrcTrustLineLive :=
  {| tl_version := DRC_TRUST_LINE_LIVE_STATE_V2; tl_holder := ts_holder tx; tl_asset := ts_asset_id tx;
     tl_limit := ts_limit tx; tl_balance := 0; tl_authorized := negb (require_auth (policy_of ts (ts_asset_id tx)));
     tl_line_frozen := false; tl_line_deep_frozen := false |}.
Inductive set_effect ts (tx : DrcTrustLineSetTx) : list TrustOp -> Prop :=
| set_deletes l hops iops :
    ts_limit tx = 0 -> lines ts !! (ts_holder tx, asset_key (ts_asset_id tx)) = Some l -> tl_balance l = 0 ->
    put_holder_index (ts_holder tx) (filter (fun k => k <> asset_key (ts_asset_id tx)) (holder_ids ts (ts_holder tx))) = Ok hops ->
    put_issuer_holders_index (ts_issuer tx) (ts_currency tx)
      (filter (fun h => h <> ts_holder tx) (issuer_ids ts (ts_issuer tx, ts_currency tx))) = Ok iops ->
    set_effect ts tx ([DeleteTrust (trust_line_key (ts_holder tx) (ts_asset_id tx))] ++ hops ++ iops)
| set_limits l :
    ts_limit tx <> 0 -> lines ts !! (ts_holder tx, asset_key (ts_asset_id tx)) = Some l ->
    tl_balance l <= ts_limit tx -> validate_line (with_limit l (ts_limit tx)) = Ok tt ->
    set_effect ts tx [PutLine (ts_holder tx) (asset_key (ts_asset_id tx)) (stored_line (with_limit l (ts_limit tx)))]
| set_creates hops iops :
    ts_limit tx <> 0 -> lines ts !! (ts_holder tx, asset_key (ts_asset_id tx)) = None ->
    (length (holder_ids ts (ts_holder tx)) < 64)%nat ->
    (length (issuer_ids ts (ts_issuer tx, ts_currency tx)) < 256)%nat ->
    put_holder_index (ts_holder tx) (holder_ids ts (ts_holder tx) ++ [asset_key (ts_asset_id tx)]) = Ok hops ->
    put_issuer_holders_index (ts_issuer tx) (ts_currency tx)
      (issuer_ids ts (ts_issuer tx, ts_currency tx) ++ [ts_holder tx]) = Ok iops ->
    validate_line (new_line ts tx) = Ok tt ->
    set_effect ts tx ((hops ++ iops) ++ [PutLine (ts_holder tx) (asset_key (ts_asset_id tx)) (new_line ts tx)]).
Lemma set_inv s ps ts tx auth b ops j :
  trust_ok ts -> apply_drc_trust_line_set s ps ts tx auth [] [] = Ok (b, ops, j) ->
  validate_trust_line_set tx = Ok tt /\ pays_fee s (ts_holder tx) (ts_fee tx) b /\ set_effect ts tx ops.
Proof.
  intros Hok H. unfold apply_drc_trust_line_set in H. destruct (validate_trust_line_set tx) as [[]|] eqn:Hv; [|done].
  split; [done|]. cbn [lift_msg rbind] in H. apply rbind_Ok in H as (_ & _ & H).
  apply rbind_Ok in H as (acct & [_ ->]%load_account_Ok & H). apply rbind_Ok in H as (_ & _ & H).
  apply rbind_Ok in H as (ctx & Hb & H). apply rbind_Ok in H as ([b1 j1] & Hd & H).
  pose proof (debit_fee_pays _ _ _ _ _ _ _ _ _ _ _ _ Hb Hd) as Hpay.
  apply rbind_Ok in H as (ex & Hex%load_line_Ok & H). destruct (ts_limit tx =? 0) eqn:Hl.
  - apply rbind_Ok in H as (l & ->%ok_or_Ok & H). apply rbind_Ok in H as (_ & Hz%ensure_Ok%Z.eqb_eq & H).
    apply rbind_Ok in H as (ids & ->%load_holder_Ok & H). apply rbind_Ok in H as (hops & Hh & H).
    apply rbind_Ok in H as (hs & ->%load_issuer_Ok & H). apply rbind_Ok in H as (iops & Hi & H).
    apply Ok_inj, pair_eq in H as [H _]. apply pair_eq in H as [<- <-]. split; [done|].
    econstructor; try done. by apply Z.eqb_eq.
  - apply Z.eqb_neq in Hl. apply rbind_Ok in H as ([lv lops] & Hlv & H).
    apply rbind_Ok in H as (put & [Hval ->]%put_line_Ok & H).
    apply Ok_inj, pair_eq in H as [H _]. apply pair_eq in H as [<- <-]. split; [done|].
    destruct ex as [l|].
    + apply rbind_Ok in Hlv as (_ & Hle%ensure_Ok & Hlv). apply Ok_inj, pair_eq in Hlv as [<- <-].
      destruct (to_lines _ Hok _ _ _ Hex) as [Hh Hk]. cbn [app with_limit tl_holder tl_asset]. rewrite Hh, Hk.
      apply set_limits; try done. lia.
    + apply rbind_Ok in Hlv as (ids & ->%load_holder_Ok & Hlv). apply rbind_Ok in Hlv as (_ & Hc1%ensure_Ok & Hlv).
      apply rbind_Ok in Hlv as (hops & Hh & Hlv). apply rbind_Ok in Hlv as (hs & ->%load_issuer_Ok & Hlv).
      apply rbind_Ok in Hlv as (_ & Hc2%ensure_Ok & Hlv). apply rbind_Ok in Hlv as (iops & Hi & Hlv).
      apply rbind_Ok in Hlv as (p & ->%load_policy_Ok & Hlv). apply Ok_inj, pair_eq in Hlv as [<- <-].
      rewrite bool_decide_eq_false_2 in Hi.
      * apply (set_creates ts tx hops iops); try done.
        -- apply negb_true_iff, Nat.leb_gt in Hc1. exact Hc1.
        -- apply negb_true_iff, Nat.leb_gt in Hc2. exact Hc2.
      * intros Hin. apply (xo_issuer_exact _ (to_index _ Hok) (ts_issuer tx, ts_currency tx)) in Hin as [l Hl'].
        unfold asset_at, ts_asset_id in *. cbn in Hl'. congruence.
Qed.

Definition move_effect ts a (kind : IssuedMovementKind) (sender recipient : Address) (n : Z)
  (ops : list TrustOp) (liability liability' : Z) : Prop :=
  let k := asset_key a in
  match kind with
  | Issue => exists l, lines ts !! (recipient, k) = Some l /\ tl_balance l + n <= tl_limit l /\
      liability' = liability + n /\ liability + n <= u64_max /\
      ops = [PutLine recipient k (stored_line (with_balance l (tl_balance l + n)))]
  | Redeem => exists l, lines ts !! (sender, k) = Some l /\ n <= tl_balance l /\
      liability' = liability - n /\ n <= liability /\
      ops = [PutLine sender k (stored_line (with_balance l (tl_balance l - n)))]
  | HolderTransfer => exists l r, lines ts !! (sender, k) = Some l /\ lines ts !! (recipient, k) = Some r /\
      n <= tl_balance l /\ tl_balance r + n <= tl_limit r /\ liability' = liability /\
      ops = [PutLine sender k (stored_line (with_balance l (tl_balance l - n)));
             PutLine recipient k (stored_line (with_balance r (tl_balance r + n)))]
  end.
Lemma move_inv ts a liability kind sender recipient n ops liability' :
  trust_ok ts -> move_value ts a liability kind sender recipient n = Ok (ops, liability') ->
  move_effect ts a kind sender recipient n ops liability liability'.
Proof.
  intros Hok H. destruct kind; cbn [move_value move_effect] in *.
  - apply rbind_Ok in H as (l & Hl%load_line_or_Ok & H). apply rbind_Ok in H as (av & Hav & H).
    apply rbind_Ok in H as (_ & Hle%ensure_Ok & H). apply rbind_Ok in H as (bal & [-> Hb]%ok_or_Ok%checked_add_Some & H).
    apply rbind_Ok in H as (li & [-> Hli]%ok_or_Ok%checked_add_Some & H). apply rbind_Ok in H as (put & [_ ->]%put_line_Ok & H).
    apply Ok_inj, pair_eq in H as [<- <-]. destruct (to_lines _ Hok _ _ _ Hl) as [Hh Hk].
    exists l. cbn [with_balance tl_holder tl_asset]. rewrite Hh, Hk. repeat (split; [done|]).
    unfold available_limit in Hav. destruct (checked_sub _ _) as [v|] eqn:Hs; [|done]. injection Hav as ->.
    apply checked_sub_Some in Hs as [-> Hs]. split; [lia|]. done.
  - apply rbind_Ok in H as (l & Hl%load_line_or_Ok & H). apply rbind_Ok in H as (r & Hr%load_line_or_Ok & H).
    apply rbind_Ok in H as (lb & [-> Hlb]%ok_or_Ok%checked_sub_Some & H). apply rbind_Ok in H as (av & Hav & H).
    apply rbind_Ok in H as (_ & Hle%ensure_Ok & H). apply rbind_Ok in H as (rb & [-> Hrb]%ok_or_Ok%checked_add_Some & H).
    apply rbind_Ok in H as (lops & [_ ->]%put_line_Ok & H). apply rbind_Ok in H as (rops & [_ ->]%put_line_Ok & H).
    apply Ok_inj, pair_eq in H as [<- <-].
    destruct (to_lines _ Hok _ _ _ Hl) as [Hh Hk], (to_lines _ Hok _ _ _ Hr) as [Hh' Hk'].
    exists l, r. cbn [with_balance tl_holder tl_asset]. rewrite Hh, Hk, Hh', Hk'. repeat (split; [done|]).
    unfold available_limit in Hav. destruct (checked_sub _ _) as [v|] eqn:Hs; [|done]. injection Hav as ->.
    apply checked_sub_Some in Hs as [-> Hs]. split; [lia|]. done.
  - apply rbind_Ok in H as (l & Hl%load_line_or_Ok & H).
    apply rbind_Ok in H as (bal & [-> Hb]%ok_or_Ok%checked_sub_Some & H).
    apply rbind_Ok in H as (li & [-> Hli]%ok_or_Ok%checked_sub_Some & H). apply rbind_Ok in H as (put & [_ ->]%put_line_Ok & H).
    apply Ok_inj, pair_eq in H as [<- <-]. destruct (to_lines _ Hok _ _ _ Hl) as [Hh Hk].
    exists l. cbn [with_balance tl_holder tl_asset]. rewrite Hh, Hk. done.
Qed.

Lemma validate_transfer_inv tx :
  validate_issued_transfer tx = Ok tt ->
  it_sender tx <> it_recipient tx /\ lift_asset (validate_asset (it_asset_id tx)) = Ok tt /\ 0 < it_amount tx.
Proof.
  intros H. apply rbind_Ok in H as (_ & _ & H). apply rbind_Ok in H as (_ & _ & H).
  apply rbind_Ok in H as (_ & Hne%ensure_Ok & H). apply rbind_Ok in H as ([] & Ha & H).
  apply rbind_Ok in H as (_ & Hp%ensure_Ok & H). split; [lia|]. split; [done|lia].
Qed.
Definition transfer_receipt_of (tx : DrcIssuedTransferTx) (score : Z) : DrcIssuedTransferReceipt :=
  {| xr_version := DRC_ISSUED_TRANSFER_RECEIPT_VERSION; xr_transfer_tx_id := issued_transfer_tx_id tx;
     xr_asset := it_asset_id tx; xr_sender := it_sender tx; xr_recipient := it_recipient tx; xr_amount := it_amount tx;
     xr_source_tag := it_source_tag tx; xr_destination_tag := it_destination_tag tx; xr_settlement_blue_score := score |}.
Record transfer_effect s ts (tx : DrcIssuedTransferTx) (score : Z) (b : WriteBatch) (ops : list TrustOp)
  (kind : IssuedMovementKind) (mops : list TrustOp) (liability' : Z) : Prop := {
  te_valid : validate_issued_transfer tx = Ok tt;
  te_fee : pays_fee s (it_sender tx) (it_fee tx) b;
  te_reserve : it_sender tx <> it_issuer tx ->
    assert_issued_offer_reserve ts (it_sender tx) (it_asset_id tx) (it_amount tx) = Ok tt;
  te_kind : movement_kind (it_issuer tx) (it_sender tx) (it_recipient tx) = Some kind;
  te_allowed : check_movement ts (it_asset_id tx) (policy_of ts (it_asset_id tx)) kind (it_sender tx) (it_recipient tx) = Ok tt;
  te_moves : move_effect ts (it_asset_id tx) kind (it_sender tx) (it_recipient tx) (it_amount tx) mops
    (liab_of ts (asset_key (it_asset_id tx))) liability';
  te_ops : ops = mops ++ put_liability (it_asset_id tx) liability' ++
    [PutTransferReceipt (issued_transfer_tx_id tx) (transfer_receipt_of tx score)];
}.
Lemma issued_transfer_inv s ps ts tx auth score b ops j :
  trust_ok ts -> apply_drc_issued_transfer s ps ts tx auth score [] [] = Ok (b, ops, j) ->
  exists kind mops liability', transfer_effect s ts tx score b ops kind mops liability'.
Proof.
  intros Hok H. unfold apply_drc_issued_transfer in H. destruct (validate_issued_transfer tx) as [[]|] eqn:Hv; [|done].
  cbn [lift_msg rbind] in H. apply rbind_Ok in H as (_ & _ & H).
  apply rbind_Ok in H as (acct & [_ ->]%load_account_Ok & H). apply rbind_Ok in H as (_ & _ & H).
  apply rbind_Ok in H as (_ & _ & H). apply rbind_Ok in H as (pol & _ & H). apply rbind_Ok in H as (_ & _ & H).
  apply rbind_Ok in H as (_ & _ & H). apply rbind_Ok in H as (ctx & Hb & H). apply rbind_Ok in H as ([b1 j1] & Hd & H).
  pose proof (debit_fee_pays _ _ _ _ _ _ _ _ _ _ _ _ Hb Hd) as Hpay.
  apply rbind_Ok in H as ([] & Hr & H). apply rbind_Ok in H as (p & ->%load_policy_Ok & H).
  apply rbind_Ok in H as (kind & Hk%ok_or_Ok & H). apply rbind_Ok in H as ([] & Hc & H).
  apply rbind_Ok in H as (li & ->%load_liability_Ok & H).
  apply rbind_Ok in H as ([mops li'] & Hm & H). apply Ok_inj, pair_eq in H as [H _]. apply pair_eq in H as [<- <-].
  exists kind, mops, li'. split; try done.
  - intros Hne. cbn [ia_issuer it_asset_id] in Hr. by rewrite (proj2 (Z.eqb_neq _ _) Hne) in Hr.
  - by apply move_inv.
Qed.

Lemma normalize_balance l p : tl_balance (normalize_trust_line_live l p) = tl_balance l.
Proof. unfold normalize_trust_line_live. by case_match. Qed.
Lemma control_inv s ps ts tx auth score b ops j meta :
  trust_ok ts -> apply_drc_trust_line_issuer_control s ps ts tx auth [] [] score = Ok (b, ops, j, meta) ->
  exists l, let p := policy_of ts (ic_asset_id tx) in let k := asset_key (ic_asset_id tx) in
    let n := normalize_trust_line_live l p in let l' := with_line_version (set_line_control n (ic_action tx)) 2 in
    lines ts !! (ic_holder tx, k) = Some l /\ pays_fee s (ic_issuer tx) (ic_fee tx) b /\
    check_control_action n p (ic_action tx) = Ok tt /\ validate_line l' = Ok tt /\
    meta = [undo_of ts (TKLine (ic_holder tx) k)] /\
    exists r, ops = [PutLine (ic_holder tx) k l'; PutControlReceipt (issuer_control_tx_id tx) r].
Proof.
  intros Hok H. unfold apply_drc_trust_line_issuer_control in H. apply rbind_Ok in H as (_ & _ & H).
  apply rbind_Ok in H as (p & ->%load_policy_Ok & H). apply rbind_Ok in H as (l & Hl%load_line_or_Ok & H).
  apply rbind_Ok in H as (acct & [_ ->]%load_account_Ok & H). apply rbind_Ok in H as (ctx & Hb & H).
  apply rbind_Ok in H as ([] & Hc & H). apply rbind_Ok in H as ([b1 j1] & Hd & H).
  pose proof (debit_fee_pays _ _ _ _ _ _ _ _ _ _ _ _ Hb Hd) as Hpay.
  apply rbind_Ok in H as ([] & _ & H). apply rbind_Ok in H as (put & [Hval ->]%put_line_Ok & H).
  apply Ok_inj, pair_eq in H as [H <-]. apply pair_eq in H as [H _]. apply pair_eq in H as [<- <-].
  exists l. cbv zeta. repeat (split; [done|]). destruct (to_lines _ Hok _ _ _ Hl) as [Hh Hk].
  unfold normalize_trust_line_live in *.
  destruct (tl_version l =? _), (ic_action tx); eexists;
    cbn [app with_line_version set_line_control with_flags tl_holder tl_asset]; rewrite Hh, Hk; reflexivity.
Qed.
Lemma clawback_inv s ps ts tx auth score b ops j meta :
  trust_ok ts -> apply_drc_issued_clawback s ps ts tx auth [] [] score = Ok (b, ops, j, meta) ->
  exists l, let p := policy_of ts (cb_asset_id tx) in let k := asset_key (cb_asset_id tx) in
    let l' := with_line_version (with_balance (normalize_trust_line_live l p) (tl_balance l - cb_amount tx)) 2 in
    lines ts !! (cb_holder tx, k) = Some l /\ pays_fee s (cb_issuer tx) (cb_fee tx) b /\
    clawback_enabled p = true /\ no_freeze p = false /\ tl_authorized (normalize_trust_line_live l p) = true /\
    cb_amount tx <> 0 /\ cb_amount tx <= liab_of ts k /\
    cb_amount tx <= saturating_sub (tl_balance l) (load_issued_offer_reserve ts (cb_holder tx) (cb_asset_id tx)) /\
    cb_amount tx <= tl_balance l /\
    meta = [undo_of ts (TKLine (cb_holder tx) k); undo_of ts (TKLiability k)] /\
    exists r, ops = [PutLine (cb_holder tx) k l'] ++ put_liability (cb_asset_id tx) (liab_of ts k - cb_amount tx) ++
      [PutClawbackReceipt (clawback_tx_id tx) r].
Proof.
  intros Hok H. unfold apply_drc_issued_clawback in H. apply rbind_Ok in H as (_ & _ & H).
  apply rbind_Ok in H as (p & ->%load_policy_Ok & H). apply rbind_Ok in H as (_ & Hcb%ensure_Ok & H).
  apply rbind_Ok in H as (_ & Hnf%ensure_Ok & H). apply rbind_Ok in H as (l & Hl%load_line_or_Ok & H).
  apply rbind_Ok in H as (_ & Hau%ensure_Ok & H). apply rbind_Ok in H as (li & ->%load_liability_Ok & H).
  apply rbind_Ok in H as (_ & Hz%ensure_Ok & H). apply rbind_Ok in H as (_ & Hlt%ensure_Ok & H).
  apply rbind_Ok in H as ([] & (l1 & Hl1 & Hr)%assert_reserve_Ok & H). assert (l1 = l) as -> by congruence.
  apply rbind_Ok in H as (acct & [_ ->]%load_account_Ok & H). apply rbind_Ok in H as (ctx & Hb & H).
  apply rbind_Ok in H as ([b1 j1] & Hd & H). pose proof (debit_fee_pays _ _ _ _ _ _ _ _ _ _ _ _ Hb Hd) as Hpay.
  apply rbind_Ok in H as (bal & [-> Hbal]%ok_or_Ok%checked_sub_Some & H).
  apply rbind_Ok in H as (li & [-> Hli]%ok_or_Ok%checked_sub_Some & H). apply rbind_Ok in H as (put & [_ ->]%put_line_Ok & H).
  apply Ok_inj, pair_eq in H as [H <-]. apply pair_eq in H as [H _]. apply pair_eq in H as [<- <-].
  rewrite normalize_balance in *. exists l. cbv zeta. repeat (split; [done|]). split; [by apply negb_true_iff in Hnf|].
  split; [done|]. split; [lia|]. repeat (split; [done|]). destruct (to_lines _ Hok _ _ _ Hl) as [Hh Hk].
  unfold normalize_trust_line_live in *.
  destruct (tl_version l =? _); eexists; cbn [with_line_version with_balance with_flags tl_holder tl_asset];
    rewrite Hh, Hk; reflexivity.
Qed.

(** Every line of the asset, as [EnableRequireAuth] leaves it. *)
Definition upgraded_line l : DrcTrustLineLive :=
  with_flags (with_line_version l DRC_TRUST_LINE_LIVE_STATE_V2) false (tl_line_frozen l) (tl_line_deep_frozen l).
Lemma put_live_upgraded ts h a l :
  trust_ok ts -> lines ts !! (h, asset_key a) = Some l ->
  put_live (upgraded_line l) = Ok [PutLine h (asset_key a) (upgraded_line l)].
Proof.
  intros Hok Hl. destruct (to_lines _ Hok _ _ _ Hl) as [Hh Hk (Hv & Ha & Hb & Hd)%validate_line_inv _ _ _ _].
  unfold put_live. rewrite (proj2 (validate_line_inv (upgraded_line l))).
  - cbn. by rewrite Hh, Hk.
  - cbn. tauto.
Qed.
Lemma upgrade_fold ts a hs acc :
  trust_ok ts -> Forall (fun h => is_Some (lines ts !! (h, asset_key a))) hs ->
  exists ls, Forall2 (fun h l => lines ts !! (h, asset_key a) = Some l) hs ls /\
  rfold (upgrade_line_step ts a) acc hs =
  Ok (acc.1 ++ zip_with (fun h l => PutLine h (asset_key a) (upgraded_line l)) hs ls,
      acc.2 ++ ((fun h => undo_of ts (TKLine h (asset_key a))) <$> hs)).
Proof.
  intros Hok Hhs. revert acc. induction Hhs as [|h hs [l Hl] Hhs IH]; intros [ops before].
  - exists []. split; [constructor|]. cbn. by rewrite !app_nil_r.
  - cbn [rfold]. unfold upgrade_line_step at 1. rewrite (load_line_ok ts h a Hok), Hl. cbn [rbind].
    fold (upgraded_line l). rewrite (put_live_upgraded ts h a l Hok Hl). cbn [rbind fst snd].
    destruct (IH (ops ++ [PutLine h (asset_key a) (upgraded_line l)], before ++ [undo_of ts (trust_line_key h a)])) as (ls & Hls & ->).
    exists (l :: ls). split; [by constructor|]. cbn. by rewrite <- !app_assoc.
Qed.
Lemma upgrade_lines (k : Hash) (hs : list Address) (ls : list DrcTrustLineLive) (m0 m : gmap (Address * Hash) DrcTrustLineLive) (x : Address * Hash) :
  NoDup hs -> Forall2 (fun h l => m0 !! (h, k) = Some l) hs ls ->
  foldl line_step m (zip_with (fun h l => PutLine h k (upgraded_line l)) hs ls) !! x =
    if bool_decide (x.1 ∈ hs /\ x.2 = k) then upgraded_line <$> m0 !! x else m !! x.
Proof.
  intros Hnd H. revert m. induction H as [|h l hs ls Hl Hls IH]; intros m.
  - cbn. rewrite bool_decide_eq_false_2; [done|]. by intros [Hin%elem_of_nil _].
  - apply NoDup_cons in Hnd as [Hh Hnd]. cbn. rewrite IH by done. destruct x as [g k']. cbn.
    destruct (decide (k' = k)) as [->|Hk].
    2:{ rewrite !bool_decide_eq_false_2 by naive_solver. by rewrite lookup_insert_ne by congruence. }
    destruct (decide (g = h)) as [->|Hg].
    + rewrite bool_decide_eq_false_2, bool_decide_eq_true_2 by set_solver. by rewrite lookup_insert_eq, Hl.
    + rewrite lookup_insert_ne by congruence. by rewrite (bool_decide_ext (g ∈ h :: hs /\ k = k) (g ∈ hs /\ k = k)) by set_solver.
Qed.
Lemma validate_policy_set_asset tx :
  lift_msg (validate_policy_set tx) = Ok tt -> lift_asset (validate_asset (ap_asset_id tx)) = Ok tt.
Proof.
  intros H. destruct (validate_policy_set tx) as [[]|] eqn:Hv; [|done]. apply rbind_Ok in Hv as (_ & _ & Hv).
  apply rbind_Ok in Hv as (_ & Hz%ensure_Ok & Hv). apply rbind_Ok in Hv as ([] & Hc & _).
  unfold validate_asset. cbn [ia_issuer ap_asset_id]. rewrite Hz. exact Hc.
Qed.
Lemma asset_policy_inv s ps ts tx auth score b ops j meta :
  trust_ok ts -> apply_drc_issued_asset_policy_set s ps ts tx auth [] [] score = Ok (b, ops, j, meta) ->
  let a := ap_asset_id tx in let p := policy_of ts a in let k := asset_key a in
  lift_asset (validate_asset a) = Ok tt /\ pays_fee s (ap_issuer tx) (ap_fee tx) b /\
  check_policy_action ts a p (liab_of ts k) (ap_action tx) = Ok tt /\
  validate_asset_policy (set_asset_policy p (ap_action tx)) = Ok tt /\
  exists uops r, ops = uops ++ [PutAssetPolicy k (set_asset_policy p (ap_action tx)); PutPolicyReceipt (policy_set_tx_id tx) r] /\
    Forall (fun op => exists h l, op = PutLine h k l) uops /\
    meta = undo_of ts (TKPolicy k) :: (undo_of ts <$> (trust_op_key <$> uops)) /\
    forall x, foldl line_step (lines ts) uops !! x =
      if bool_decide (ap_action tx = EnableRequireAuth /\ x.2 = k) then upgraded_line <$> lines ts !! x else lines ts !! x.
Proof.
  intros Hok H. unfold apply_drc_issued_asset_policy_set in H. apply rbind_Ok in H as ([] & Hver & H).
  apply rbind_Ok in Hver as ([] & Hv & _). apply rbind_Ok in H as (_ & _ & H).
  apply rbind_Ok in H as (p & ->%load_policy_Ok & H). apply rbind_Ok in H as (li & ->%load_liability_Ok & H).
  apply rbind_Ok in H as (acct & [_ ->]%load_account_Ok & H). apply rbind_Ok in H as (ctx & Hb & H).
  apply rbind_Ok in H as ([] & Hc & H). apply rbind_Ok in H as ([b1 j1] & Hd & H).
  pose proof (debit_fee_pays _ _ _ _ _ _ _ _ _ _ _ _ Hb Hd) as Hpay.
  apply rbind_Ok in H as ([uops up] & Hu & H). apply rbind_Ok in H as ([] & Hpv & H).
  apply Ok_inj, pair_eq in H as [H <-]. apply pair_eq in H as [H _]. apply pair_eq in H as [<- <-]. cbv zeta.
  split; [by apply validate_policy_set_asset|]. split; [done|]. split; [done|].
  split; [by destruct (validate_asset_policy _) as [[]|]|]. eexists uops, _. split; [done|].
  destruct (decide (ap_action tx = EnableRequireAuth)) as [He|Hne].
  - rewrite He in Hu. unfold upgrade_trust_lines_for_require_auth in Hu. rewrite load_issuer_ok in Hu by done. cbn [rbind] in Hu.
    destruct (upgrade_fold ts (ap_asset_id tx) (issuer_ids ts (ia_issuer (ap_asset_id tx), ia_currency (ap_asset_id tx))) ([], []) Hok)
      as (ls & Hls & Heq).
    { apply Forall_forall. intros h Hh. by apply (xo_issuer_exact _ (to_index _ Hok)) in Hh. }
    rewrite Heq in Hu. apply Ok_inj, pair_eq in Hu as [<- <-]. cbn [app fst snd]. split; [|split].
    + clear -Hls. induction Hls; constructor; eauto.
    + f_equal. clear -Hls. induction Hls; cbn; [done|]. by f_equal.
    + intros x. rewrite (upgrade_lines _ _ _ (lines ts)); [|apply (to_index _ Hok)|exact Hls].
      destruct (decide (x.2 = asset_key (ap_asset_id tx))) as [Ex|Ex].
      2:{ rewrite !bool_decide_eq_false_2; [done|naive_solver..]. }
      rewrite (bool_decide_eq_true_2 (ap_action tx = _ /\ _)) by done. case_bool_decide as Ein; [done|].
      destruct (lines ts !! x) as [l|] eqn:El; [|done]. destruct Ein. split; [|done].
      apply (xo_issuer_exact _ (to_index _ Hok)). destruct x as [h k]. cbn in Ex |- *. subst. eexists. exact El.
  - assert (uops = [] /\ up = []) as [-> ->] by (destruct (ap_action tx); [done|by injection Hu as <- <-..]).
    split; [constructor|]. split; [done|]. intros x. cbn. by rewrite bool_decide_eq_false_2 by naive_solver.
Qed.

(** ** Preservation *)

Context (key_inj : forall a a', asset_key a = asset_key a' -> a = a').

Lemma held_insert m x l k :
  held_in (<[x := l]> m) k =
    held_in m k + (if bool_decide (x.2 = k) then tl_balance l - match m !! x with Some l => tl_balance l | None => 0 end else 0).
Proof. unfold held_in. rewrite msum_insert. destruct (m !! x); cbn; case_bool_decide; lia. Qed.
Lemma held_delete m x k :
  held_in (delete x m) k =
    held_in m k - (if bool_decide (x.2 = k) then match m !! x with Some l => tl_balance l | None => 0 end else 0).
Proof. unfold held_in. rewrite msum_delete_contrib. destruct (m !! x); cbn; case_bool_decide; lia. Qed.
Lemma held_nonneg ts k : trust_ok ts -> 0 <= held ts k.
Proof.
  intros Hok. apply msum_nonneg. intros [h k'] l Hl. case_bool_decide; [|done]. by apply (lo_nonneg _ _ _ (to_lines _ Hok _ _ _ Hl)).
Qed.
Lemma liab_bounds ts k : trust_ok ts -> 0 <= liab_of ts k <= u64_max.
Proof.
  intros Hok. unfold liab_of. destruct (liabilities ts !! k) as [r|] eqn:E; [|by unfold u64_max].
  destruct (vo_liab _ (to_value _ Hok) _ _ E) as (_ & _ & H). lia.
Qed.

Lemma stored_version l : validate_line l = Ok tt -> tl_version (stored_line l) = 2.
Proof.
  intros [Hv _]%validate_line_inv. unfold stored_line, DRC_TRUST_LINE_LIVE_STATE_VERSION.
  destruct (Z.eqb_spec (tl_version l) 1); [done|]. lia.
Qed.
Lemma stored_fields l :
  tl_holder (stored_line l) = tl_holder l /\ tl_asset (stored_line l) = tl_asset l /\ tl_limit (stored_line l) = tl_limit l /\
  tl_balance (stored_line l) = tl_balance l /\ tl_authorized (stored_line l) = tl_authorized l /\
  tl_line_frozen (stored_line l) = tl_line_frozen l /\ tl_line_deep_frozen (stored_line l) = tl_line_deep_frozen l.
Proof. unfold stored_line. by case_match. Qed.
(** A valid line that keeps holder and asset may replace the old one. *)
Lemma line_ok_update h k l l' :
  line_ok h k l -> tl_holder l' = tl_holder l -> tl_asset l' = tl_asset l -> validate_line l' = Ok tt ->
  0 <= tl_balance l' -> tl_limit l' <= u64_max -> tl_version l' = 2 -> line_ok h k l'.
Proof. intros [] Hh Ha Hv Hb Hl H2. split; rewrite ?Hh, ?Ha; try done. by rewrite H2. Qed.
Lemma line_ok_balance h k l v :
  line_ok h k l -> 0 <= v <= tl_limit l -> line_ok h k (stored_line (with_balance l v)).
Proof.
  intros Hl Hv. pose proof Hl as [Hh Hk Hval Hb Hlim Ho _]. apply validate_line_inv in Hval as (Hver & Ha & _ & Hd).
  assert (validate_line (with_balance l v) = Ok tt) as Hval'
    by (apply validate_line_inv; cbn; split; [done|]; split; [done|]; split; [lia|done]).
  destruct (stored_fields (with_balance l v)) as (F1 & F2 & F3 & F4 & F5 & F6 & F7).
  split; rewrite ?F1, ?F2, ?F3, ?F4; cbn; try done; [|lia|by rewrite stored_version].
  apply validate_line_inv. rewrite stored_version, F2, F3, F4, F6, F7 by done. cbn. split; [by right|]. split; [done|]. split; [lia|done].
Qed.
Lemma insert_dom {K V} `{Countable K} (m : gmap K V) x v v' y :
  m !! x = Some v -> is_Some (<[x := v']> m !! y) <-> is_Some (m !! y).
Proof. intros Hx. rewrite lookup_insert_is_Some. split; [intros [<-|[_ Hy]]; [by eexists|done]|]. destruct (decide (x = y)); naive_solver. Qed.
(** Lines are rewritten in place: the indexes stay exact. *)
Lemma rewrite_ok ts ts' :
  trust_ok ts -> holder_index ts' = holder_index ts -> issuer_index ts' = issuer_index ts ->
  (forall x, is_Some (lines ts' !! x) <-> is_Some (lines ts !! x)) ->
  (forall h k l, lines ts' !! (h, k) = Some l -> line_ok h k l) -> value_ok ts' -> controls_ok ts' -> trust_ok ts'.
Proof.
  intros Hok Hh Hi Hd Hl Hv Hc. split; [done| |done|done]. destruct (to_index _ Hok) as [X1 X2 X3 X4 X5 X6].
  split; unfold holder_ids, issuer_ids in *; rewrite ?Hh, ?Hi; try done; intros; rewrite Hd; naive_solver.
Qed.

Definition is_line_op (op : TrustOp) : bool := match op with PutLine _ _ _ => true | _ => false end.
Definition is_receipt_op (op : TrustOp) : bool :=
  match op with PutTransferReceipt _ _ | PutPolicyReceipt _ _ | PutControlReceipt _ _ | PutClawbackReceipt _ _ => true | _ => false end.
(** The shape of the operations that rewrite lines and settle a liability. *)
Lemma write_shape ts mops a v op :
  Forall is_line_op mops -> is_receipt_op op = true ->
  let ts' := write_trust ts (mops ++ put_liability a v ++ [op]) in
  lines ts' = foldl line_step (lines ts) mops /\ holder_index ts' = holder_index ts /\ issuer_index ts' = issuer_index ts /\
  asset_policies ts' = asset_policies ts /\ reserves ts' = reserves ts /\
  liabilities ts' = foldl liability_step (liabilities ts) (put_liability a v).
Proof.
  intros Hm Hop. cbv zeta. rewrite lines_write, holders_write, issuers_write, policies_write, reserves_write, liabilities_write.
  rewrite !foldl_app. unfold put_liability.
  assert (forall X (f : X -> TrustOp -> X) x, (forall x h k l, f x (PutLine h k l) = x) -> foldl f x mops = x) as Hskip.
  { intros X f x Hf. revert x. induction Hm as [|o mops Ho Hm IH]; intros x; [done|]. cbn. destruct o; try done. by rewrite Hf. }
  rewrite (Hskip _ holder_step), (Hskip _ issuer_step), (Hskip _ policy_step), (Hskip _ reserve_step), (Hskip _ liability_step) by done.
  by destruct op; try done; case_match.
Qed.
Lemma liability_value ts ts' a v k :
  liabilities ts' = foldl liability_step (liabilities ts) (put_liability a v) ->
  liab_of ts' k = if bool_decide (k = asset_key a) then v else liab_of ts k.
Proof.
  intros He. unfold liab_of. rewrite He. unfold put_liability. destruct (Z.eqb_spec v 0) as [->|Hv]; cbn.
  - case_bool_decide; subst; [by rewrite lookup_delete_eq|by rewrite lookup_delete_ne].
  - case_bool_decide; subst; [by rewrite lookup_insert_eq|by rewrite lookup_insert_ne].
Qed.
Lemma value_step ts ts' a v :
  trust_ok ts -> liabilities ts' = foldl liability_step (liabilities ts) (put_liability a v) -> 0 <= v <= u64_max ->
  reserves ts' = reserves ts ->
  (forall k, held ts' k = held ts k + if bool_decide (k = asset_key a) then v - liab_of ts (asset_key a) else 0) ->
  (forall x n, reserves ts !! x = Some n -> n <= bal_of ts' x) -> value_ok ts'.
Proof.
  intros Hok Hl Hv Hr Hs Hb. destruct (to_value _ Hok) as [V1 V2 V3]. split.
  - intros k r. rewrite Hl. unfold put_liability. destruct (Z.eqb_spec v 0); cbn.
    + intros [_ H]%lookup_delete_Some. by apply V1.
    + intros [[<- <-]|[_ H]]%lookup_insert_Some; [|by apply V1]. cbn. split; [done|]. split; [done|lia].
  - intros k. rewrite (liability_value ts ts' a v) by done. rewrite Hs. case_bool_decide; subst; rewrite <- V2; lia.
  - intros x n. rewrite Hr. intros Hx. pose proof (V3 _ _ Hx). split; [lia|]. by apply Hb.
Qed.
Lemma controls_step ts ts' :
  trust_ok ts -> asset_policies ts' = asset_policies ts ->
  (forall h k l', lines ts' !! (h, k) = Some l' -> exists l, lines ts !! (h, k) = Some l /\
     (tl_version l' = tl_version l \/ tl_version l' = 2) /\ tl_line_frozen l' = tl_line_frozen l) -> controls_ok ts'.
Proof.
  intros Hok Hp Hl. destruct (to_controls _ Hok) as [C1 C2 C3]. split; rewrite Hp; [done|..].
  - intros h k l' p (l & H & Hv & _)%Hl Hpk Hr. pose proof (C2 _ _ _ _ H Hpk Hr). lia.
  - intros h k l' p (l & H & _ & ->)%Hl Hpk Hr. by apply (C3 _ _ _ _ H Hpk).
Qed.

(** Balances after a movement of [n] units of [k]. *)
Definition moved (kind : IssuedMovementKind) (sender recipient : Address) (k : Hash) (n : Z) (x : Address * Hash) : Z :=
  (match kind with Redeem => 0 | _ => if bool_decide (x = (recipient, k)) then n else 0 end) -
  (match kind with Issue => 0 | _ => if bool_decide (x = (sender, k)) then n else 0 end).
Definition bal_in (m : gmap (Address * Hash) DrcTrustLineLive) (x : Address * Hash) : Z :=
  match m !! x with Some l => tl_balance l | None => 0 end.
Lemma bal_insert m x l y : bal_in (<[x := l]> m) y = if bool_decide (y = x) then tl_balance l else bal_in m y.
Proof. unfold bal_in. case_bool_decide; subst; [by rewrite lookup_insert_eq|by rewrite lookup_insert_ne]. Qed.
Lemma stored_balance l v : tl_balance (stored_line (with_balance l v)) = v.
Proof. unfold stored_line. by case_match. Qed.
Lemma move_spec ts a kind sender recipient n mops liability liability' :
  trust_ok ts -> sender <> recipient -> 0 < n ->
  move_effect ts a kind sender recipient n mops liability liability' ->
  let m' := foldl line_step (lines ts) mops in let k := asset_key a in
  Forall is_line_op mops /\
  (forall x, bal_in m' x = bal_in (lines ts) x + moved kind sender recipient k n x) /\
  (forall k', held_in m' k' = held ts k' + if bool_decide (k' = k) then liability' - liability else 0) /\
  (forall x, is_Some (m' !! x) <-> is_Some (lines ts !! x)) /\
  (forall h k l', m' !! (h, k) = Some l' -> line_ok h k l' /\ exists l, lines ts !! (h, k) = Some l /\
     (tl_version l' = tl_version l \/ tl_version l' = 2) /\ tl_line_frozen l' = tl_line_frozen l /\
     tl_authorized l' = tl_authorized l /\ tl_line_deep_frozen l' = tl_line_deep_frozen l /\ tl_limit l' = tl_limit l).
Proof.
  intros Hok Hne Hn He. cbv zeta.
  assert (forall h k l, lines ts !! (h, k) = Some l -> line_ok h k l /\ exists l0, lines ts !! (h, k) = Some l0 /\
     (tl_version l = tl_version l0 \/ tl_version l = 2) /\ tl_line_frozen l = tl_line_frozen l0 /\
     tl_authorized l = tl_authorized l0 /\ tl_line_deep_frozen l = tl_line_deep_frozen l0 /\ tl_limit l = tl_limit l0) as Hold.
  { intros h k l Hl. split; [by apply (to_lines _ Hok)|]. exists l. repeat split; by try left. }
  assert (forall h k l v, lines ts !! (h, k) = Some l -> 0 <= v <= tl_limit l ->
    let l' := stored_line (with_balance l v) in line_ok h k l' /\ exists l0, lines ts !! (h, k) = Some l0 /\
     (tl_version l' = tl_version l0 \/ tl_version l' = 2) /\ tl_line_frozen l' = tl_line_frozen l0 /\
     tl_authorized l' = tl_authorized l0 /\ tl_line_deep_frozen l' = tl_line_deep_frozen l0 /\ tl_limit l' = tl_limit l0) as Hnew.
  { intros h k l v Hl Hv. pose proof (to_lines _ Hok _ _ _ Hl) as Hlo. split; [by apply line_ok_balance|]. exists l.
    split; [done|]. unfold stored_line. case_match; cbn; repeat split; by (left + right). }
  destruct kind; cbn [move_effect] in He.
  - destruct He as (l & Hl & Hlim & -> & _ & ->). pose proof (lo_nonneg _ _ _ (to_lines _ Hok _ _ _ Hl)) as Hb.
    cbn [foldl line_step]. split; [by constructor|]. split; [|split; [|split]].
    + intros x. rewrite bal_insert, stored_balance. unfold moved. case_bool_decide; subst; [|lia].
      unfold bal_in. rewrite Hl. lia.
    + intros k'. rewrite held_insert, stored_balance, Hl. unfold held. cbn.
      rewrite (bool_decide_ext (asset_key a = k') (k' = asset_key a)) by (split; congruence). case_bool_decide; lia.
    + intros x. by eapply insert_dom.
    + intros h k l' [[[= <- <-] <-]|[_ H]]%lookup_insert_Some; [apply Hnew; [done|lia]|by apply Hold].
  - destruct He as (l & r & Hl & Hr & Hle & Hlim & -> & ->).
    pose proof (lo_nonneg _ _ _ (to_lines _ Hok _ _ _ Hl)) as Hb. pose proof (lo_nonneg _ _ _ (to_lines _ Hok _ _ _ Hr)) as Hb'.
    pose proof (proj1 (validate_line_inv _) (lo_valid _ _ _ (to_lines _ Hok _ _ _ Hl))) as (_ & _ & Hll & _).
    assert ((recipient, asset_key a) <> (sender, asset_key a)) as Hkne by congruence.
    cbn [foldl line_step]. split; [by repeat constructor|]. split; [|split; [|split]].
    + intros x. rewrite !bal_insert, !stored_balance. unfold moved. destruct (decide (x = (recipient, asset_key a))) as [->|Hx].
      * rewrite bool_decide_eq_true_2, (bool_decide_eq_false_2 (_ = (sender, _))) by done. unfold bal_in. rewrite Hr. lia.
      * rewrite (bool_decide_eq_false_2 (x = (recipient, _))) by done. case_bool_decide; subst; [|lia].
        unfold bal_in. rewrite Hl. lia.
    + intros k'. rewrite !held_insert, !stored_balance, lookup_insert_ne, Hl, Hr by congruence. unfold held. cbn.
      case_bool_decide; case_bool_decide; lia.
    + intros x. rewrite (insert_dom _ _ r); [by eapply insert_dom|]. by rewrite lookup_insert_ne.
    + intros h k l' [[[= <- <-] <-]|[_ [[[= <- <-] <-]|[_ H]]%lookup_insert_Some]]%lookup_insert_Some;
        [apply Hnew; [done|lia]..|by apply Hold].
  - destruct He as (l & Hl & Hle & -> & _ & ->).
    pose proof (proj1 (validate_line_inv _) (lo_valid _ _ _ (to_lines _ Hok _ _ _ Hl))) as (_ & _ & Hll & _).
    cbn [foldl line_step]. split; [by constructor|]. split; [|split; [|split]].
    + intros x. rewrite bal_insert, stored_balance. unfold moved. case_bool_decide; subst; [|lia].
      unfold bal_in. rewrite Hl. lia.
    + intros k'. rewrite held_insert, stored_balance, Hl. unfold held. cbn.
      rewrite (bool_decide_ext (asset_key a = k') (k' = asset_key a)) by (split; congruence). case_bool_decide; lia.
    + intros x. by eapply insert_dom.
    + intros h k l' [[[= <- <-] <-]|[_ H]]%lookup_insert_Some; [apply Hnew; [done|lia]|by apply Hold].
Qed.

Lemma movement_kind_inv issuer sender recipient kind :
  movement_kind issuer sender recipient = Some kind ->
  match kind with
  | Issue => sender = issuer /\ recipient <> issuer
  | Redeem => recipient = issuer /\ sender <> issuer
  | HolderTransfer => sender <> issuer /\ recipient <> issuer
  end.
Proof.
  unfold movement_kind. destruct (Z.eqb_spec sender issuer), (Z.eqb_spec recipient issuer); cbn; intros [= <-]; done.
Qed.
(** The units a spender may use are those its offers have not reserved. *)
Lemma reserve_spend ts h a amt n :
  assert_issued_offer_reserve ts h a amt = Ok tt -> 0 < amt -> reserves ts !! (h, asset_key a) = Some n ->
  n <= bal_of ts (h, asset_key a) - amt.
Proof.
  intros (l & Hl & Hle)%assert_reserve_Ok Ha Hn. unfold load_issued_offer_reserve, saturating_sub in Hle. unfold bal_of.
  rewrite Hn in Hle. rewrite Hl. cbn in Hle. lia.
Qed.
Lemma transfer_ok s ts tx score b ops kind mops liability' :
  trust_ok ts -> transfer_effect s ts tx score b ops kind mops liability' -> trust_ok (write_trust ts ops).
Proof.
  intros Hok [Hv Hf Hr Hk Ha Hm ->]. apply validate_transfer_inv in Hv as (Hne & _ & Hamt).
  destruct (move_spec _ _ _ _ _ _ _ _ _ Hok Hne Hamt Hm) as (Hlo & Hbal & Hheld & Hdom & Hlines).
  destruct (write_shape ts mops (it_asset_id tx) liability'
    (PutTransferReceipt (issued_transfer_tx_id tx) (transfer_receipt_of tx score)) Hlo eq_refl)
    as (El & Eh & Ei & Ep & Er & Eli). cbv zeta in *. set (ts' := write_trust _ _) in *.
  apply (rewrite_ok ts); [done..| | | |].
  - intros x. by rewrite El.
  - intros h k l. rewrite El. intros H. by apply Hlines.
  - eapply value_step; [done|exact Eli| |exact Er| |].
    + pose proof (liab_bounds ts (asset_key (it_asset_id tx)) Hok).
      destruct kind; [destruct Hm as (l & _ & _ & -> & ? & _)|destruct Hm as (l & r & _ & _ & _ & _ & -> & _)|
        destruct Hm as (l & _ & _ & -> & ? & _)]; lia.
    + intros k. unfold held at 1. rewrite El. apply Hheld.
    + intros x n Hx. pose proof (vo_reserve _ (to_value _ Hok) _ _ Hx) as Hn. apply movement_kind_inv in Hk.
      unfold bal_of. rewrite El. fold (bal_in (foldl line_step (lines ts) mops) x). rewrite Hbal.
      change (bal_in (lines ts) x) with (bal_of ts x). unfold moved.
      assert (it_sender tx <> it_issuer tx -> x = (it_sender tx, asset_key (it_asset_id tx)) -> n <= bal_of ts x - it_amount tx) as Hsp.
      { intros Hs ->. by apply reserve_spend; [apply Hr| |]. }
      destruct kind; repeat case_bool_decide; first [lia|specialize (Hsp (proj1 Hk) ltac:(done)); lia|
        specialize (Hsp (proj2 Hk) ltac:(done)); lia].
  - eapply controls_step; [done|exact Ep|]. intros h k l'. rewrite El. intros (_ & l & H1 & H2 & H3 & _)%Hlines. by exists l.
Qed.
Lemma set_control_valid n p act :
  check_control_action n p act = Ok tt -> no_freeze p = true -> tl_line_frozen n = false ->
  tl_line_frozen (set_line_control n act) = false.
Proof. intros Hc Hp Hf. destruct act as [|[]|[]]; cbn in *; try done; by rewrite Hp in Hc. Qed.
Lemma control_ok ts h k l p act r id :
  trust_ok ts -> lines ts !! (h, k) = Some l -> p = default (default_for_asset (tl_asset l)) (asset_policies ts !! k) ->
  let n := normalize_trust_line_live l p in let l' := with_line_version (set_line_control n act) 2 in
  check_control_action n p act = Ok tt -> validate_line l' = Ok tt ->
  trust_ok (write_trust ts [PutLine h k l'; PutControlReceipt id r]).
Proof.
  intros Hok Hl Hp n l' Hc Hv. pose proof (to_lines _ Hok _ _ _ Hl) as Hlo.
  assert (tl_holder l' = tl_holder l /\ tl_asset l' = tl_asset l /\ tl_balance l' = tl_balance l /\ tl_limit l' = tl_limit l /\
    tl_line_frozen n = tl_line_frozen l) as (F1 & F2 & F3 & F4 & F5).
  { unfold l', n, normalize_trust_line_live. destruct (tl_version l =? _), act; done. }
  set (ts' := write_trust _ _).
  assert (lines ts' = <[(h, k) := l']> (lines ts)) as El by (unfold ts'; by rewrite lines_write).
  assert (asset_policies ts' = asset_policies ts) as Ep by (unfold ts'; by rewrite policies_write).
  assert (liabilities ts' = liabilities ts) as Eli by (unfold ts'; by rewrite liabilities_write).
  assert (reserves ts' = reserves ts) as Er by (unfold ts'; by rewrite reserves_write).
  apply (rewrite_ok ts); [done|unfold ts'; by rewrite holders_write|unfold ts'; by rewrite issuers_write|..].
  - intros x. rewrite El. by eapply insert_dom.
  - intros h' k' l0. rewrite El. intros [[[= <- <-] <-]|[_ H]]%lookup_insert_Some; [|by apply (to_lines _ Hok)].
    destruct Hlo. eapply line_ok_update; [by split| | |done|..]; congruence || done.
  - destruct (to_value _ Hok) as [V1 V2 V3]. split; rewrite ?Eli, ?Er; [done|..].
    + intros k'. unfold liab_of. rewrite Eli. fold (liab_of ts k'). rewrite V2. unfold held. rewrite El, held_insert, Hl, F3.
      case_bool_decide; lia.
    + intros x m Hx. specialize (V3 _ _ Hx). unfold bal_of. rewrite El. fold (bal_in (<[(h, k) := l']> (lines ts)) x).
      rewrite bal_insert. case_bool_decide; subst; [|done]. unfold bal_of in V3. rewrite Hl in V3. by rewrite F3.
  - destruct (to_controls _ Hok) as [C1 C2 C3]. split; rewrite Ep; [done|..]; intros h' k' l0 q; rewrite El.
    + intros [[[= <- <-] <-]|[_ H]]%lookup_insert_Some; [done|by apply C2 with (1 := H)].
    + intros [[[= <- <-] <-]|[_ H]]%lookup_insert_Some Hq Hnf; [|by apply (C3 _ _ _ _ H Hq)].
      rewrite Hq in Hp. cbn in Hp. subst q. specialize (C3 _ _ _ _ Hl Hq Hnf).
      apply (set_control_valid n p act); [done|done|by rewrite F5].
Qed.

Lemma normalize_line_ok h k l p :
  line_ok h k l -> let n := normalize_trust_line_live l p in
  tl_holder n = tl_holder l /\ tl_asset n = tl_asset l /\ tl_limit n = tl_limit l /\
  tl_line_frozen n = tl_line_frozen l /\ tl_line_deep_frozen n = tl_line_deep_frozen l.
Proof. unfold normalize_trust_line_live. by case_match. Qed.
Lemma clawback_ok ts h a l p n r id :
  trust_ok ts -> lines ts !! (h, asset_key a) = Some l -> 0 < n <= tl_balance l -> n <= liab_of ts (asset_key a) ->
  n <= saturating_sub (tl_balance l) (load_issued_offer_reserve ts h a) ->
  let l' := with_line_version (with_balance (normalize_trust_line_live l p) (tl_balance l - n)) 2 in
  trust_ok (write_trust ts ([PutLine h (asset_key a) l'] ++ put_liability a (liab_of ts (asset_key a) - n) ++
    [PutClawbackReceipt id r])).
Proof.
  intros Hok Hl Hn Hli Hr l'. pose proof (to_lines _ Hok _ _ _ Hl) as Hlo.
  destruct (normalize_line_ok _ _ _ p Hlo) as (F1 & F2 & F3 & F4 & F5). cbv zeta in *.
  pose proof (lo_valid _ _ _ Hlo) as (Hv1 & Hv2 & Hv3 & Hv4)%validate_line_inv.
  assert (validate_line l' = Ok tt) as Hv.
  { apply validate_line_inv. cbn. rewrite F2, F3, F4, F5. split; [by right|]. split; [done|]. split; [lia|done]. }
  destruct (write_shape ts [PutLine h (asset_key a) l'] a (liab_of ts (asset_key a) - n) (PutClawbackReceipt id r))
    as (El & Eh & Ei & Ep & Er & Eli); [by constructor|done|]. cbv zeta in *. set (ts' := write_trust _ _) in *.
  cbn [foldl line_step] in El. pose proof (liab_bounds ts (asset_key a) Hok) as Hlb.
  apply (rewrite_ok ts); [done..| | | |].
  - intros x. rewrite El. by eapply insert_dom.
  - intros h' k' l0. rewrite El. intros [[[= <- <-] <-]|[_ H]]%lookup_insert_Some; [|by apply (to_lines _ Hok)].
    eapply line_ok_update; [exact Hlo|exact F1|exact F2|done|cbn; lia| |done]. cbn. rewrite F3. apply Hlo.
  - eapply value_step; [done|exact Eli|lia|exact Er| |].
    + intros k. unfold held. rewrite El, held_insert, Hl. cbn.
      rewrite (bool_decide_ext (asset_key a = k) (k = asset_key a)) by (split; congruence). case_bool_decide; lia.
    + intros x m Hx. pose proof (vo_reserve _ (to_value _ Hok) _ _ Hx) as Hm. unfold bal_of. rewrite El.
      fold (bal_in (<[(h, asset_key a) := l']> (lines ts)) x). rewrite bal_insert. case_bool_decide; subst; [|apply Hm].
      unfold load_issued_offer_reserve, saturating_sub in Hr. rewrite Hx in Hr. cbn in Hr |- *. lia.
  - eapply controls_step; [done|exact Ep|]. intros h' k' l0. rewrite El.
    intros [[[= <- <-] <-]|[_ H]]%lookup_insert_Some; [exists l|exists l0].
    + split; [done|]. split; [by right|]. exact F4.
    + split; [done|]. split; [by left|done].
Qed.

Lemma put_holder_spec h ids hops :
  put_holder_index h ids = Ok hops ->
  (length ids <= 64)%nat /\
  forall m, foldl holder_step m hops = match ids with [] => delete h m | _ => <[h := {| hi_version := INDEX_VERSION; hi_holder := h; hi_assets := ids |}]> m end /\
    exists op, hops = [op] /\ trust_op_key op = TKHolder h.
Proof.
  unfold put_holder_index. destruct ids as [|i ids]; [intros [= <-]; split; [cbn; lia|]|].
  - intros m. repeat split. by eexists.
  - intros H. apply rbind_Ok in H as (_ & Hle%ensure_Ok%Nat.leb_le & H). apply Ok_inj in H as <-. split; [exact Hle|].
    intros m. repeat split. by eexists.
Qed.
Lemma put_issuer_spec i c ids iops :
  put_issuer_holders_index i c ids = Ok iops ->
  (length ids <= 256)%nat /\
  forall m, foldl issuer_step m iops = match ids with [] => delete (i, c) m | _ =>
      <[(i, c) := {| ii_version := INDEX_VERSION; ii_issuer := i; ii_currency := c; ii_holders := ids |}]> m end /\
    exists op, iops = [op] /\ trust_op_key op = TKIssuer i c.
Proof.
  unfold put_issuer_holders_index. destruct ids as [|x ids]; [intros [= <-]; split; [cbn; lia|]|].
  - intros m. repeat split. by eexists.
  - intros H. apply rbind_Ok in H as (_ & Hle%ensure_Ok%Nat.leb_le & H). apply Ok_inj in H as <-. split; [exact Hle|].
    intros m. repeat split. by eexists.
Qed.
(** A line appears or disappears, and both indexes follow. *)
Lemma index_ok_update ts ts' h a hids iids hops iops :
  trust_ok ts -> put_holder_index h hids = Ok hops ->
  put_issuer_holders_index (ia_issuer a) (ia_currency a) iids = Ok iops ->
  holder_index ts' = foldl holder_step (holder_index ts) hops ->
  issuer_index ts' = foldl issuer_step (issuer_index ts) iops ->
  (forall x, x <> (h, asset_key a) -> lines ts' !! x = lines ts !! x) -> NoDup hids -> NoDup iids ->
  (forall k, k ∈ hids <-> is_Some (lines ts' !! (h, k))) ->
  (forall h', h' ∈ iids <-> is_Some (lines ts' !! (h', asset_key a))) -> index_ok ts'.
Proof.
  intros Hok [Hlen Hh]%put_holder_spec [Hlen' Hi]%put_issuer_spec Eh Ei Hl Hnd Hnd' Hhx Hix.
  destruct (to_index _ Hok) as [X1 X2 X3 X4 X5 X6].
  rewrite (proj1 (Hh _)) in Eh. rewrite (proj1 (Hi _)) in Ei.
  assert (forall h', holder_ids ts' h' = if decide (h' = h) then hids else holder_ids ts h') as Hids.
  { intros h'. unfold holder_ids. rewrite Eh. case_decide; subst; destruct hids;
      rewrite ?lookup_delete_eq, ?lookup_insert_eq, ?lookup_delete_ne, ?lookup_insert_ne by congruence; done. }
  assert (forall x, issuer_ids ts' x = if decide (x = (ia_issuer a, ia_currency a)) then iids else issuer_ids ts x) as Hiids.
  { intros x. unfold issuer_ids. rewrite Ei. case_decide; subst; destruct iids;
      rewrite ?lookup_delete_eq, ?lookup_insert_eq, ?lookup_delete_ne, ?lookup_insert_ne by congruence; done. }
  split.
  - intros h' r. rewrite Eh. destruct hids; [intros [_ H]%lookup_delete_Some; by apply X1|].
    intros [[<- <-]|[_ H]]%lookup_insert_Some; [done|by apply X1].
  - intros h'. rewrite Hids. case_decide; [by split|apply X2].
  - intros h' k. rewrite Hids. case_decide as E; [by subst; apply Hhx|]. rewrite X3, Hl; [done|congruence].
  - intros i c r. rewrite Ei. destruct iids; [intros [_ H]%lookup_delete_Some; by apply X4|].
    intros [[[= <- <-] <-]|[_ H]]%lookup_insert_Some; [done|by apply X4].
  - intros x. rewrite Hiids. case_decide; [by split|apply X5].
  - intros x h'. rewrite Hiids. case_decide as E; [subst; destruct a; by apply Hix|].
    rewrite X6, Hl; [done|]. intros [= -> Hk%key_inj]. apply E. destruct x, a. by injection Hk as <- <-.
Qed.

Lemma validate_set_inv tx :
  validate_trust_line_set tx = Ok tt ->
  ts_holder tx <> ts_issuer tx /\ lift_asset (validate_asset (ts_asset_id tx)) = Ok tt.
Proof.
  intros H. apply rbind_Ok in H as (_ & _ & H). apply rbind_Ok in H as (_ & _ & H).
  apply rbind_Ok in H as (_ & Hne%ensure_Ok & H). apply rbind_Ok in H as ([] & Ha & H). split; [lia|done].
Qed.
(** A line of balance zero appears or disappears: no total changes. *)
Lemma zero_line_ok ts ts' h a m :
  trust_ok ts -> m = lines ts' -> (forall x, x <> (h, asset_key a) -> m !! x = lines ts !! x) ->
  bal_of ts (h, asset_key a) = 0 -> bal_in m (h, asset_key a) = 0 ->
  liabilities ts' = liabilities ts -> reserves ts' = reserves ts -> value_ok ts'.
Proof.
  intros Hok -> Hx Hb Hb' Eli Er. destruct (to_value _ Hok) as [V1 V2 V3].
  assert (forall x, bal_of ts' x = bal_of ts x) as Hbal.
  { intros x. destruct (decide (x = (h, asset_key a))) as [->|Hne]; [by rewrite Hb|]. unfold bal_of. by rewrite Hx. }
  split; rewrite ?Eli, ?Er; [done|..].
  - intros k. unfold liab_of. rewrite Eli. fold (liab_of ts k). rewrite V2. unfold held, held_in. apply msum_contrib_ext.
    intros x. specialize (Hbal x). unfold bal_of in Hbal. destruct (lines ts !! x), (lines ts' !! x); cbn in *; try case_bool_decide; lia.
  - intros x n H. rewrite Hbal. by apply V3.
Qed.
Lemma index_ops_frame ts h i c hids iids hops iops :
  put_holder_index h hids = Ok hops -> put_issuer_holders_index i c iids = Ok iops ->
  let ts' := write_trust ts (hops ++ iops) in
  lines ts' = lines ts /\ holder_index ts' = foldl holder_step (holder_index ts) hops /\
  issuer_index ts' = foldl issuer_step (issuer_index ts) iops /\
  liabilities ts' = liabilities ts /\ reserves ts' = reserves ts /\ asset_policies ts' = asset_policies ts.
Proof.
  intros [_ Hh]%put_holder_spec [_ Hi]%put_issuer_spec. cbv zeta.
  destruct (Hh (holder_index ts)) as (_ & hop & -> & Hho), (Hi (issuer_index ts)) as (_ & iop & -> & Hio).
  rewrite lines_write, holders_write, issuers_write, liabilities_write, reserves_write, policies_write. cbn.
  destruct hop as [| | | | | | | | | |[]]; try done; destruct iop as [| | | | | | | | | |[]]; done.
Qed.

Section set_ok.
Context (ts : TrustStore) (tx : DrcTrustLineSetTx) (Hok : trust_ok ts).
Let h := ts_holder tx.
Let a := ts_asset_id tx.
Lemma set_delete_ok l hops iops :
  lines ts !! (h, asset_key a) = Some l -> tl_balance l = 0 ->
  put_holder_index h (filter (fun k => k <> asset_key a) (holder_ids ts h)) = Ok hops ->
  put_issuer_holders_index (ts_issuer tx) (ts_currency tx)
    (filter (fun h' => h' <> h) (issuer_ids ts (ts_issuer tx, ts_currency tx))) = Ok iops ->
  trust_ok (write_trust ts ([DeleteTrust (trust_line_key h a)] ++ hops ++ iops)).
Proof.
  intros Hl Hb Hh Hi. pose proof (to_index _ Hok) as HX. rewrite write_trust_app.
  destruct (index_ops_frame (write_trust ts [DeleteTrust (trust_line_key h a)]) _ _ _ _ _ _ _ Hh Hi) as (El & Eh & Ei & Eli & Er & Ep).
  cbv zeta in *. set (ts' := write_trust _ (hops ++ iops)) in *. rewrite lines_write in El.
  rewrite holders_write in Eh. rewrite issuers_write in Ei. rewrite liabilities_write in Eli.
  rewrite reserves_write in Er. rewrite policies_write in Ep.
  cbn [foldl line_step holder_step issuer_step liability_step reserve_step policy_step trust_line_key] in *.
  assert (forall x, x <> (h, asset_key a) -> lines ts' !! x = lines ts !! x) as Hsame
    by (intros x Hx; rewrite El; by rewrite lookup_delete_ne).
  split.
  - intros h' k' l'. rewrite El. intros [_ H]%lookup_delete_Some. by apply (to_lines _ Hok).
  - eapply (index_ok_update ts ts' h a); [done|exact Hh|exact Hi|exact Eh|exact Ei|done|..].
    + apply NoDup_filter, HX.
    + apply NoDup_filter, HX.
    + intros k. rewrite list_elem_of_filter, (xo_holder_exact _ HX), El. destruct (decide (k = asset_key a)) as [->|Hk].
      * rewrite lookup_delete_eq. split; [by intros []|by intros [? [=]]].
      * rewrite lookup_delete_ne by congruence. tauto.
    + intros h'. rewrite list_elem_of_filter, (xo_issuer_exact _ HX), El. destruct (decide (h' = h)) as [->|Hk].
      * rewrite lookup_delete_eq. split; [by intros []|by intros [? [=]]].
      * rewrite lookup_delete_ne by congruence. unfold asset_at, a, ts_asset_id. cbn. tauto.
  - apply (zero_line_ok ts ts' h a (lines ts')); [done..| | |done|done].
    + unfold bal_of. by rewrite Hl.
    + unfold bal_in. by rewrite El, lookup_delete_eq.
  - eapply controls_step; [done|exact Ep|]. intros h' k' l'. rewrite El. intros [_ H]%lookup_delete_Some.
    exists l'. split; [done|]. split; [by left|done].
Qed.
Lemma set_limit_ok l :
  lines ts !! (h, asset_key a) = Some l -> tl_balance l <= ts_limit tx <= u64_max ->
  trust_ok (write_trust ts [PutLine h (asset_key a) (stored_line (with_limit l (ts_limit tx)))]).
Proof.
  intros Hl Hb. pose proof (to_lines _ Hok _ _ _ Hl) as Hlo.
  pose proof (lo_valid _ _ _ Hlo) as (Hv1 & Hv2 & Hv3 & Hv4)%validate_line_inv.
  assert (validate_line (with_limit l (ts_limit tx)) = Ok tt) as Hv
    by (apply validate_line_inv; cbn; split; [done|]; split; [done|]; split; [lia|done]).
  set (l' := stored_line _). destruct (stored_fields (with_limit l (ts_limit tx))) as (F1 & F2 & F3 & F4 & F5 & F6 & F7).
  fold l' in F1, F2, F3, F4, F5, F6, F7. set (ts' := write_trust _ _).
  assert (lines ts' = <[(h, asset_key a) := l']> (lines ts)) as El by (unfold ts'; by rewrite lines_write).
  apply (rewrite_ok ts); [done|unfold ts'; by rewrite holders_write|unfold ts'; by rewrite issuers_write|..].
  - intros x. rewrite El. by eapply insert_dom.
  - intros h' k' l0. rewrite El. intros [[[= <- <-] <-]|[_ H]]%lookup_insert_Some; [|by apply (to_lines _ Hok)].
    eapply line_ok_update; [exact Hlo|exact F1|exact F2| |rewrite F4; apply Hlo|rewrite F3; cbn; lia|by apply stored_version].
    apply validate_line_inv. rewrite F2, F3, F4, F6, F7. split; [right; by apply stored_version|]. split; [done|]. split; [cbn; lia|done].
  - destruct (to_value _ Hok) as [V1 V2 V3].
    assert (liabilities ts' = liabilities ts) as Eli by (unfold ts'; by rewrite liabilities_write).
    assert (reserves ts' = reserves ts) as Er by (unfold ts'; by rewrite reserves_write).
    split; rewrite ?Eli, ?Er; [done|..].
    + intros k. unfold liab_of. rewrite Eli. fold (liab_of ts k). rewrite V2. unfold held. rewrite El, held_insert, Hl, F4. cbn. case_bool_decide; lia.
    + intros x n Hx. specialize (V3 _ _ Hx). unfold bal_of. rewrite El. fold (bal_in (<[(h, asset_key a) := l']> (lines ts)) x).
      rewrite bal_insert. case_bool_decide; subst; [|done]. unfold bal_of in V3. rewrite Hl in V3. by rewrite F4.
  - eapply controls_step; [done|unfold ts'; by rewrite policies_write|]. intros h' k' l0. rewrite El.
    intros [[[= <- <-] <-]|[_ H]]%lookup_insert_Some; [exists l|exists l0].
    + split; [done|]. split; [right; by apply stored_version|]. exact F6.
    + split; [done|]. split; [by left|done].
Qed.
Lemma set_create_ok hops iops :
  h <> ts_issuer tx -> 0 <= ts_limit tx <= u64_max -> lines ts !! (h, asset_key a) = None ->
  put_holder_index h (holder_ids ts h ++ [asset_key a]) = Ok hops ->
  put_issuer_holders_index (ts_issuer tx) (ts_currency tx) (issuer_ids ts (ts_issuer tx, ts_currency tx) ++ [h]) = Ok iops ->
  validate_line (new_line ts tx) = Ok tt ->
  trust_ok (write_trust ts ((hops ++ iops) ++ [PutLine h (asset_key a) (new_line ts tx)])).
Proof.
  intros Hne Hlim Hl Hh Hi Hv. pose proof (to_index _ Hok) as HX. rewrite write_trust_app.
  destruct (index_ops_frame ts _ _ _ _ _ _ _ Hh Hi) as (El0 & Eh & Ei & Eli & Er & Ep). cbv zeta in *.
  set (ts1 := write_trust ts (hops ++ iops)) in *. set (ts' := write_trust ts1 _).
  assert (lines ts' = <[(h, asset_key a) := new_line ts tx]> (lines ts)) as El by (unfold ts'; rewrite lines_write; cbn; by rewrite El0).
  assert (forall x, x <> (h, asset_key a) -> lines ts' !! x = lines ts !! x) as Hsame
    by (intros x Hx; rewrite El; by rewrite lookup_insert_ne).
  split.
  - intros h' k' l'. rewrite El. intros [[[= <- <-] <-]|[_ H]]%lookup_insert_Some; [|by apply (to_lines _ Hok)].
    split; try done. cbn. lia.
  - eapply (index_ok_update ts ts' h a);
      [done|exact Hh|exact Hi|unfold ts'; by rewrite holders_write|unfold ts'; by rewrite issuers_write|done|..].
    + apply NoDup_app. split; [apply HX|]. split; [|apply NoDup_singleton].
      intros k Hk ->%list_elem_of_singleton. apply (xo_holder_exact _ HX) in Hk as [l0 Hl0]. congruence.
    + apply NoDup_app. split; [apply HX|]. split; [|apply NoDup_singleton].
      intros h' Hk ->%list_elem_of_singleton. apply (xo_issuer_exact _ HX) in Hk as [l0 Hl0].
      unfold asset_at in Hl0. cbn in Hl0. unfold a, ts_asset_id in Hl. congruence.
    + intros k. rewrite elem_of_app, list_elem_of_singleton, (xo_holder_exact _ HX), El, lookup_insert_is_Some'.
      split; [intros [?| ->]; [by right|by left]|intros [[= ->]|?]; [by right|by left]].
    + intros h'. rewrite elem_of_app, list_elem_of_singleton, (xo_issuer_exact _ HX), El, lookup_insert_is_Some'.
      split; [intros [?| ->]; [by right|by left]|intros [[= ->]|?]; [by right|by left]].
  - apply (zero_line_ok ts ts' h a (lines ts')); [done..| | |unfold ts'; by rewrite liabilities_write|unfold ts'; by rewrite reserves_write].
    + unfold bal_of. by rewrite Hl.
    + unfold bal_in. by rewrite El, lookup_insert_eq.
  - destruct (to_controls _ Hok) as [C1 C2 C3].
    assert (asset_policies ts' = asset_policies ts) as Ep' by (unfold ts'; by rewrite policies_write).
    split; rewrite Ep'; [done|..]; intros h' k' l0 q; rewrite El.
    + intros [[[= <- <-] <-]|[_ H]]%lookup_insert_Some; [done|by apply C2 with (1 := H)].
    + intros [[[= <- <-] <-]|[_ H]]%lookup_insert_Some; [done|by apply C3 with (1 := H)].
Qed.
Lemma set_ok ops :
  validate_trust_line_set tx = Ok tt -> 0 <= ts_limit tx <= u64_max -> set_effect ts tx ops -> trust_ok (write_trust ts ops).
Proof.
  intros [Hne _]%validate_set_inv Hlim He. destruct He as [l hops iops Hz Hl Hb Hh Hi|l Hz Hl Hb Hv|hops iops Hz Hl Hc1 Hc2 Hh Hi Hv].
  - by eapply set_delete_ok.
  - apply set_limit_ok; [done|lia].
  - by apply set_create_ok.
Qed.
End set_ok.

Lemma no_line_frozen ts a p :
  trust_ok ts -> asset_has_active_line_freeze ts a p = Ok false ->
  forall h l, lines ts !! (h, asset_key a) = Some l -> tl_line_frozen l = false.
Proof.
  intros Hok H h l Hl. unfold asset_has_active_line_freeze in H. rewrite load_issuer_ok in H by done. cbn [rbind] in H.
  assert (forall hs, rfold (line_freeze_step ts a p) true hs = Ok true) as Htrue by (intros hs; induction hs; done).
  assert (forall hs found, h ∈ hs -> rfold (line_freeze_step ts a p) found hs = Ok false -> tl_line_frozen l = false) as Hf.
  { induction hs as [|g hs IH]; intros found Hin Hr; [by apply elem_of_nil in Hin|]. cbn [rfold] in Hr.
    apply rbind_Ok in Hr as (f1 & H1 & Hr). apply elem_of_cons in Hin as [<-|Hin]; [|by apply (IH f1 Hin)].
    destruct f1; [by rewrite Htrue in Hr|]. destruct found; [done|]. unfold line_freeze_step in H1.
    rewrite load_line_ok, Hl in H1 by done. cbn [rbind] in H1. injection H1 as H1.
    destruct (normalize_line_ok _ _ _ p (to_lines _ Hok _ _ _ Hl)) as (_ & _ & _ & F & _). cbv zeta in F. rewrite F in H1.
    by destruct (tl_line_frozen l). }
  eapply Hf; [|exact H]. apply (xo_issuer_exact _ (to_index _ Hok)). destruct a. by eexists.
Qed.
Lemma policy_shape ts k p' id r uops :
  Forall (fun op => exists h l, op = PutLine h k l) uops ->
  let ts' := write_trust ts (uops ++ [PutAssetPolicy k p'; PutPolicyReceipt id r]) in
  lines ts' = foldl line_step (lines ts) uops /\ holder_index ts' = holder_index ts /\ issuer_index ts' = issuer_index ts /\
  asset_policies ts' = <[k := p']> (asset_policies ts) /\ reserves ts' = reserves ts /\ liabilities ts' = liabilities ts.
Proof.
  intros Hm. cbv zeta. rewrite lines_write, holders_write, issuers_write, policies_write, reserves_write, liabilities_write, !foldl_app.
  assert (forall X (f : X -> TrustOp -> X) x, (forall x h k l, f x (PutLine h k l) = x) -> foldl f x uops = x) as Hskip.
  { intros X f x Hf. revert x. induction Hm as [|o mops (h & l & ->) Hm IH]; intros x; [done|]. cbn. by rewrite Hf. }
  by rewrite (Hskip _ holder_step), (Hskip _ issuer_step), (Hskip _ policy_step), (Hskip _ reserve_step), (Hskip _ liability_step) by done.
Qed.
Lemma policy_ok ts a act id r uops :
  let p := policy_of ts a in let k := asset_key a in
  trust_ok ts -> check_policy_action ts a p (liab_of ts k) act = Ok tt ->
  validate_asset_policy (set_asset_policy p act) = Ok tt -> Forall (fun op => exists h l, op = PutLine h k l) uops ->
  (forall x, foldl line_step (lines ts) uops !! x =
     if bool_decide (act = EnableRequireAuth /\ x.2 = k) then upgraded_line <$> lines ts !! x else lines ts !! x) ->
  trust_ok (write_trust ts (uops ++ [PutAssetPolicy k (set_asset_policy p act); PutPolicyReceipt id r])).
Proof.
  intros p k Hok Hc Hv Hu Hx.
  destruct (policy_shape ts k (set_asset_policy p act) id r uops Hu) as (El & Eh & Ei & Ep & Er & Eli). cbv zeta in *.
  set (ts' := write_trust _ _) in *.
  assert (forall x l', lines ts' !! x = Some l' -> exists l, lines ts !! x = Some l /\ tl_balance l' = tl_balance l /\
    tl_line_frozen l' = tl_line_frozen l /\ (l' = l \/ l' = upgraded_line l) /\ (act = EnableRequireAuth -> x.2 = k -> l' = upgraded_line l)) as Hold.
  { intros x l'. rewrite El, Hx. case_bool_decide as E.
    - intros (l & Hl & ->)%fmap_Some. exists l. do 3 (split; [done|]). split; [by right|done].
    - intros Hl. exists l'. do 3 (split; [done|]). split; [by left|]. tauto. }
  assert (asset_key (ipol_asset p) = k) as Hpk.
  { unfold p, policy_of, k. destruct (asset_policies ts !! _) as [q|] eqn:Eq; [|done]. exact (proj2 (no_policy _ (to_controls _ Hok) _ _ Eq)). }
  assert (forall q, asset_policies ts !! k = Some q -> q = p) as Hpol by (intros q Hq; unfold p, policy_of; fold k; by rewrite Hq).
  assert ((require_auth p = true \/ no_freeze p = true) -> asset_policies ts !! k = Some p) as Hdef.
  { unfold p, policy_of. fold k. destruct (asset_policies ts !! k) as [q|] eqn:Eq; [done|]. cbn. by intros [[=]|[=]]. }
  destruct (to_controls _ Hok) as [C1 C2 C3]. apply (rewrite_ok ts); [done..| | | |].
  - intros x. rewrite El, Hx. case_bool_decide; [by rewrite fmap_is_Some|done].
  - intros h k' l' (l & Hl & _ & _ & Hor & _)%Hold. pose proof (to_lines _ Hok _ _ _ Hl) as Hlo. destruct Hor as [-> | ->]; [done|].
    destruct Hlo as [L1 L2 (L3 & L4 & L5 & L6)%validate_line_inv L7 L8 L9 L10]. split; try done.
    apply validate_line_inv. cbn. split; [by right|]. done.
  - destruct (to_value _ Hok) as [V1 V2 V3].
    assert (forall x, bal_of ts' x = bal_of ts x) as Hb.
    { intros x. unfold bal_of. rewrite El, Hx. case_bool_decide; [|done]. by destruct (lines ts !! x). }
    split; rewrite ?Er, ?Eli; [done| |intros x n H; rewrite Hb; by apply V3].
    intros k'. unfold liab_of. rewrite Eli. fold (liab_of ts k'). rewrite V2. apply msum_contrib_ext. intros x. specialize (Hb x).
    unfold bal_of in Hb. rewrite El, Hx in *. case_bool_decide; [|done]. by destruct (lines ts !! x).
  - split; rewrite Ep.
    + intros k' q [[<- <-]|[_ H]]%lookup_insert_Some; [|by apply C1]. split; [done|]. exact Hpk.
    + intros h k' l' q (l & Hl & _ & _ & Hor & Hup)%Hold [[<- <-]|[Hne Hq]]%lookup_insert_Some Hr.
      * destruct (decide (act = EnableRequireAuth)) as [E|E]; [by rewrite (Hup E eq_refl)|].
        assert (require_auth p = true) as Hr' by (destruct act; done).
        destruct Hor as [-> | ->]; [|done]. by apply (C2 _ _ _ _ Hl (Hdef (or_introl Hr'))).
      * destruct Hor as [-> | ->]; [|done]. by apply (C2 _ _ _ _ Hl Hq).
    + intros h k' l' q (l & Hl & _ & -> & _ & _)%Hold [[<- <-]|[Hne Hq]]%lookup_insert_Some Hr; [|by apply (C3 _ _ _ _ Hl Hq)].
      destruct (decide (act = EnableNoFreeze)) as [->|E].
      * apply rbind_Ok in Hc as (_ & _ & Hc). apply rbind_Ok in Hc as (_ & _ & Hc).
        apply rbind_Ok in Hc as (f & Hf & Hc%ensure_Ok). destruct f; [done|]. by apply (no_line_frozen ts a p Hok Hf h).
      * assert (no_freeze p = true) as Hr' by (destruct act; done). by apply (C3 _ _ _ _ Hl (Hdef (or_intror Hr'))).
Qed.

(** ** The lanes preserve the invariant *)

Record lane_ok (st : TrustState) : Prop := { la_accounts : accounts_ok (tr_base st); la_trust : trust_ok (tr_trust st) }.
(** What the width of the wire integers gives. *)
Definition trust_ints (tx : TrustTx) : Prop :=
  match tx with
  | SetPolicy t => 0 <= ap_fee t
  | ControlLine t => 0 <= ic_fee t
  | SetTrustLine t => 0 <= ts_fee t /\ 0 <= ts_limit t <= u64_max
  | TransferIssued t => 0 <= it_fee t
  | Clawback t => 0 <= cb_fee t /\ 0 <= cb_amount t
  end.
Definition trust_payer (tx : TrustTx) : Address * Z :=
  match tx with
  | SetPolicy t => (ap_issuer t, ap_fee t)
  | ControlLine t => (ic_issuer t, ic_fee t)
  | SetTrustLine t => (ts_holder t, ts_fee t)
  | TransferIssued t => (it_sender t, it_fee t)
  | Clawback t => (cb_issuer t, cb_fee t)
  end.
Lemma pays_fee_ok s payer fee b : accounts_ok s -> 0 <= fee -> pays_fee s payer fee b -> accounts_ok (write_batch s b).
Proof.
  intros Hok Hf [Hle Hc]. eapply charges_ok; [done|exact Hc|]. intros n' Hn Hn'. apply Forall_singleton. cbn.
  destruct (ao_ints _ Hok DRC payer) as [[H1 H2] _]. split; [unfold in_u64 in *; lia|]. by split.
Qed.

Lemma put_liability_key a v : trust_op_key <$> put_liability a v = [issuer_liability_key a].
Proof. unfold put_liability. by case_match. Qed.
Lemma move_keys ts a kind sender recipient n mops liability liability' :
  move_effect ts a kind sender recipient n mops liability liability' ->
  trust_op_key <$> mops ⊆ [TKLine sender (asset_key a); TKLine recipient (asset_key a)].
Proof.
  destruct kind; cbn [move_effect]; [intros (l & _ & _ & _ & _ & ->)|intros (l & r & _ & _ & _ & _ & _ & ->)|intros (l & _ & _ & _ & _ & ->)];
    cbn; set_solver.
Qed.
Lemma set_keys ts tx ops : set_effect ts tx ops -> trust_op_key <$> ops ⊆ trust_line_set_meta_keys tx.
Proof.
  intros [l hops iops Hz Hl Hb [_ Hh]%put_holder_spec [_ Hi]%put_issuer_spec|l Hz Hl Hb Hv|
    hops iops Hz Hl Hc1 Hc2 [_ Hh]%put_holder_spec [_ Hi]%put_issuer_spec Hv].
  - destruct (Hh (holder_index ts)) as (_ & hop & -> & Hho), (Hi (issuer_index ts)) as (_ & iop & -> & Hio). cbn. rewrite Hho, Hio.
    unfold trust_line_set_meta_keys, trust_line_meta_keys. cbn. set_solver.
  - unfold trust_line_set_meta_keys, trust_line_meta_keys, trust_line_key. cbn. set_solver.
  - destruct (Hh (holder_index ts)) as (_ & hop & -> & Hho), (Hi (issuer_index ts)) as (_ & iop & -> & Hio). cbn. rewrite Hho, Hio.
    unfold trust_line_set_meta_keys, trust_line_meta_keys, trust_line_key. cbn. set_solver.
Qed.
Definition is_reserve_key (key : TrustKey) : bool := match key with TKReserve _ _ => true | _ => false end.
Record lane_effect (st : TrustState) (tx : TrustTx) (st' : TrustState) (before : list TrustOp) : Prop := {
  le_fee : exists b, tr_base st' = write_batch (tr_base st) b /\ pays_fee (tr_base st) (trust_payer tx).1 (trust_payer tx).2 b;
  le_trust : trust_ok (tr_trust st');
  le_keys : exists ops keys, tr_trust st' = write_trust (tr_trust st) ops /\ trust_op_key <$> ops ⊆ keys /\
    before = undo_of (tr_trust st) <$> keys /\ Forall (fun key => is_reserve_key key = false) keys;
}.
Lemma lane_inv ps st tx auth score st' before :
  trust_ok (tr_trust st) -> trust_ints tx -> apply_trust_tx ps st tx auth score = Ok (st', before) ->
  lane_effect st tx st' before.
Proof.
  intros Hok Hint H. destruct tx as [t|t|t|t|t]; cbn [apply_trust_tx] in H.
  - apply rbind_Ok in H as ([[[b ops] j] meta] & Ha & H). apply Ok_inj, pair_eq in H as [<- <-].
    destruct (asset_policy_inv _ _ _ _ _ _ _ _ _ _ Hok Ha) as (_ & Hf & Hc & Hv & uops & r & -> & Hu & -> & Hx). cbv zeta in *.
    split; [by exists b|by apply policy_ok|].
    eexists _, (issued_controls_meta_keys_for_policy t ++ TKPolicy (asset_key (ap_asset_id t)) :: (trust_op_key <$> uops)).
    split; [done|]. split; [|split; [unfold snapshot_meta_keys; by rewrite fmap_app|]].
    + rewrite fmap_app. unfold issued_controls_meta_keys_for_policy. cbn. set_solver.
    + repeat constructor. clear -Hu. induction Hu as [|op uops (h & l & ->)]; by constructor.
  - apply rbind_Ok in H as ([[[b ops] j] meta] & Ha & H). apply Ok_inj, pair_eq in H as [<- <-].
    destruct (control_inv _ _ _ _ _ _ _ _ _ _ Hok Ha) as (l & Hl & Hf & Hc & Hv & -> & r & ->). cbv zeta in *.
    split; [by exists b| |].
    + eapply control_ok; [done|exact Hl| |exact Hc|exact Hv]. unfold policy_of. f_equal. f_equal. symmetry.
      apply key_inj. exact (lo_key _ _ _ (to_lines _ Hok _ _ _ Hl)).
    + exists [PutLine (ic_holder t) (asset_key (ic_asset_id t))
          (with_line_version (set_line_control (normalize_trust_line_live l (policy_of (tr_trust st) (ic_asset_id t))) (ic_action t)) 2);
          PutControlReceipt (issuer_control_tx_id t) r],
        (issued_controls_meta_keys_for_issuer_control t ++ [TKLine (ic_holder t) (asset_key (ic_asset_id t))]).
      split; [done|]. split; [|split; [unfold snapshot_meta_keys; by rewrite fmap_app|by repeat constructor]].
      unfold issued_controls_meta_keys_for_issuer_control, trust_line_key. cbn. set_solver.
  - apply rbind_Ok in H as ([[b ops] j] & Ha & H). apply Ok_inj, pair_eq in H as [<- <-].
    destruct (set_inv _ _ _ _ _ _ _ _ Hok Ha) as (Hv & Hf & He). destruct Hint as [_ Hlim].
    split; [by exists b|by eapply set_ok|]. exists ops, (trust_line_set_meta_keys t). split; [done|].
    split; [|split; [done|by repeat constructor]]. by eapply set_keys.
  - apply rbind_Ok in H as ([[b ops] j] & Ha & H). apply Ok_inj, pair_eq in H as [<- <-].
    destruct (issued_transfer_inv _ _ _ _ _ _ _ _ _ Hok Ha) as (kind & mops & li' & He).
    split; [exists b; split; [done|apply He]|by eapply transfer_ok|]. exists ops, (issued_transfer_meta_keys t). split; [done|].
    split; [|split; [done|unfold issued_transfer_meta_keys; case_match; by repeat constructor]].
    destruct He as [Hv _ _ _ _ Hm%move_keys ->]. apply validate_transfer_inv in Hv as [Hne _].
    rewrite !fmap_app, put_liability_key. unfold issued_transfer_meta_keys, trust_line_meta_keys, trust_line_key.
    destruct (Z.eqb_spec (it_recipient t) (it_sender t)); [congruence|]. cbn. set_solver.
  - apply rbind_Ok in H as ([[[b ops] j] meta] & Ha & H). apply Ok_inj, pair_eq in H as [<- <-]. destruct Hint as [_ Hamt].
    destruct (clawback_inv _ _ _ _ _ _ _ _ _ _ Hok Ha) as (l & Hl & Hf & Hcb & Hnf & Hau & Hz & Hli & Hr & Hle & -> & r & ->). cbv zeta in *.
    split; [by exists b|apply (clawback_ok _ _ _ _ _ _ _ _ Hok Hl); [lia|done..]|].
    eexists _, (issued_controls_meta_keys_for_clawback t ++ [TKLine (cb_holder t) (asset_key (cb_asset_id t));
      TKLiability (asset_key (cb_asset_id t))]).
    split; [done|]. split; [|split; [unfold snapshot_meta_keys; by rewrite fmap_app|by repeat constructor]].
    rewrite !fmap_app, put_liability_key. unfold issued_controls_meta_keys_for_clawback, trust_line_key, issuer_liability_key. cbn. set_solver.
Qed.
Lemma reserves_keep ts ops :
  Forall (fun key => is_reserve_key key = false) (trust_op_key <$> ops) -> reserves (write_trust ts ops) = reserves ts.
Proof.
  rewrite reserves_write. generalize (reserves ts). induction ops as [|op ops IH]; intros m H; [done|].
  apply Forall_cons in H as [Hop H]. cbn. rewrite IH by done. by destruct op as [| | | | | | | | | |[]].
Qed.
Lemma lane_reserves st tx st' before : lane_effect st tx st' before -> reserves (tr_trust st') = reserves (tr_trust st).
Proof.
  intros [_ _ (ops & keys & -> & Hs & _ & Hk)]. apply reserves_keep, Forall_forall. intros key Hin.
  rewrite Forall_forall in Hk. by apply Hk, Hs.
Qed.
Lemma lane_step ps st tx auth score st' before :
  lane_ok st -> trust_ints tx -> apply_trust_tx ps st tx auth score = Ok (st', before) -> lane_ok st'.
Proof.
  intros [Ha Ht] Hint H. destruct (lane_inv _ _ _ _ _ _ _ Ht Hint H) as [(b & Hb & Hf) Ht' _]. split; [rewrite Hb|done].
  eapply pays_fee_ok; [done| |exact Hf]. destruct tx; cbn in *; tauto.
Qed.
End trust_spec.
