(* ===== verification/TrustSafety.v ===== *)
(** * Issued value: what issuers and holders can rely on

    The guarantees of the trust-line lanes, over any sequence of accepted
    transactions: issued value is backed one to one, transfers move exactly what
    they say, authorization is the issuer's to give, renouncing freezes is final,
    a balance falls only by its holder's hand or by an announced clawback, and
    the journal of a block undoes it. *)

From stdpp Require Import base gmap list fin_maps strings relations.
From Stdlib Require Import ZArith Lia.
From S2P Require Import Prelude Ordering Sums Types Finality Store Supply Accounts Objects Policy Trust TrustProps.
Local Open Scope Z_scope.

Section safety.
Context {Auth : Type} `{TL : TrustLane Auth}.
Context (key_inj : forall a a', asset_key a = asset_key a' -> a = a').
Implicit Types (st : TrustState) (ts : TrustStore) (a : IssuedAssetId).

Definition trust_step (ps : PolicyStore) (st st' : TrustState) : Prop :=
  exists tx auth score before, trust_ints tx /\ apply_trust_tx ps st tx auth score = Ok (st', before).
Lemma run_ok ps st st' : lane_ok st -> rtc (trust_step ps) st st' -> lane_ok st'.
Proof. intros Hok Hr. induction Hr as [|x y z (tx & auth & score & before & Hi & H) _ IH]; [done|]. apply IH. by eapply lane_step. Qed.

(** ** Backing *)

Lemma held_ids (m : gmap (Address * Hash) DrcTrustLineLive) k hs :
  NoDup hs -> (forall h, h ∈ hs <-> is_Some (m !! (h, k))) -> held_in m k = zsum ((fun h => bal_in m (h, k)) <$> hs).
Proof.
  intros Hnd. revert m. induction Hnd as [|h hs Hh Hnd IH]; intros m Hx.
  - unfold held_in. rewrite (msum_contrib_ext _ m ∅); [by rewrite msum_empty|]. intros [h k']. rewrite lookup_empty. cbn.
    destruct (m !! (h, k')) as [l|] eqn:El; [|done]. cbn. case_bool_decide; [|done]. subst.
    assert (h ∈ ([] : list Address)) as Hin%elem_of_nil by (apply Hx; by eexists). done.
  - cbn [fmap list_fmap]. rewrite zsum_cons.
    assert (held_in m k = bal_in m (h, k) + held_in (delete (h, k) m) k) as ->.
    { rewrite held_delete. cbn. rewrite bool_decide_eq_true_2 by done. unfold bal_in. lia. }
    f_equal. rewrite IH.
    + f_equal. apply list_fmap_ext. intros i g Hg. unfold bal_in. rewrite lookup_delete_ne; [done|]. intros [= <-].
      apply Hh. by eapply list_elem_of_lookup_2.
    + intros g. destruct (decide (g = h)) as [->|Hg].
      * rewrite lookup_delete_eq. split; [done|by intros [? [=]]].
      * rewrite lookup_delete_ne by congruence. rewrite <- Hx. set_solver.
Qed.
Lemma sum_fold ts a hs total :
  trust_ok ts -> total + zsum ((fun h => bal_in (lines ts) (h, asset_key a)) <$> hs) <= u64_max ->
  rfold (fun total h =>
    let? line := load_drc_trust_line_live ts h a in
    match line with
    | Some l => ok_or (Storage "issued balance sum overflow") (checked_add u64_max total (tl_balance l))
    | None => Ok total
    end) total hs = Ok (total + zsum ((fun h => bal_in (lines ts) (h, asset_key a)) <$> hs)).
Proof.
  intros Hok. revert total. induction hs as [|h hs IH]; intros total Hle; [cbn; f_equal; lia|].
  cbn [rfold fmap list_fmap] in *. rewrite zsum_cons in *. rewrite load_line_ok by done. cbn [rbind].
  assert (0 <= zsum ((fun h => bal_in (lines ts) (h, asset_key a)) <$> hs)) as Hn.
  { apply zsum_nonneg, Forall_fmap, Forall_forall. intros g _. cbn. unfold bal_in.
    destruct (lines ts !! _) as [l|] eqn:El; [|done]. by apply (lo_nonneg _ _ _ (to_lines _ Hok _ _ _ El)). }
  destruct (lines ts !! (h, asset_key a)) as [l|] eqn:El.
  - assert (bal_in (lines ts) (h, asset_key a) = tl_balance l) as Hb by (unfold bal_in; by rewrite El). rewrite Hb in *.
    assert (checked_add u64_max total (tl_balance l) = Some (total + tl_balance l)) as -> by (apply checked_add_Some; lia).
    cbn [ok_or rbind]. rewrite IH by lia. f_equal. lia.
  - assert (bal_in (lines ts) (h, asset_key a) = 0) as Hb by (unfold bal_in; by rewrite El). rewrite Hb in *.
    cbn [rbind]. rewrite IH by lia. done.
Qed.
Lemma sum_held ts a : trust_ok ts -> sum_holder_balances_for_asset ts a = Ok (held ts (asset_key a)).
Proof.
  intros Hok. unfold sum_holder_balances_for_asset. rewrite load_issuer_ok by done. cbn [rbind].
  destruct (xo_issuer_ids _ (to_index _ Hok) (ia_issuer a, ia_currency a)) as [Hnd _].
  assert (held ts (asset_key a) = zsum ((fun h => bal_in (lines ts) (h, asset_key a)) <$> issuer_ids ts (ia_issuer a, ia_currency a))) as Hh.
  { apply held_ids; [done|]. intros h. rewrite (xo_issuer_exact _ (to_index _ Hok)). by destruct a. }
  rewrite sum_fold; [f_equal; lia|done|]. rewrite <- Hh, <- (vo_sum _ (to_value _ Hok)), Z.add_0_l. by apply liab_bounds.
Qed.
Lemma load_liability_held ts a : trust_ok ts -> load_drc_issuer_liability ts a = Ok (held ts (asset_key a)).
Proof.
  intros Hok. rewrite <- (vo_sum _ (to_value _ Hok)). unfold load_drc_issuer_liability, liab_of.
  destruct (liabilities ts !! asset_key a) as [r|] eqn:Er; [|done].
  destruct (vo_liab _ (to_value _ Hok) _ _ Er) as (-> & Hk%key_inj & _). by rewrite Z.eqb_refl, bool_decide_eq_true_2.
Qed.

(** Issued value is backed one to one.  After any sequence of accepted
    transactions the liability the ledger answers for an asset equals the sum of
    its holders' balances, which the audit computes without overflow; every
    balance is within its line's limit and covers the units its owner's offers
    have reserved. *)
Theorem issued_value_backed ps st st' a :
  lane_ok st -> rtc (trust_step ps) st st' ->
  let ts := tr_trust st' in
  (exists total, load_drc_issuer_liability ts a = Ok total /\ sum_holder_balances_for_asset ts a = Ok total /\
     total = held ts (asset_key a) /\ 0 <= total <= u64_max) /\
  (forall h l, lines ts !! (h, asset_key a) = Some l ->
     0 <= load_issued_offer_reserve ts h a <= tl_balance l /\ tl_balance l <= tl_limit l <= u64_max /\ h <> ia_issuer a).
Proof.
  intros Hok Hr. destruct (run_ok ps st st' Hok Hr) as [_ Ht]. cbv zeta. split.
  - exists (held (tr_trust st') (asset_key a)). split; [by apply load_liability_held|]. split; [by apply sum_held|]. split; [done|].
    rewrite <- (vo_sum _ (to_value _ Ht)). by apply liab_bounds.
  - intros h l Hl. pose proof (to_lines _ Ht _ _ _ Hl) as [_ Hk%key_inj Hv Hb Hlim Ho _].
    apply validate_line_inv in Hv as (_ & _ & Hle & _). subst. split; [|by split].
    unfold load_issued_offer_reserve. destruct (reserves _ !! _) as [n|] eqn:En; cbn; [|lia].
    pose proof (vo_reserve _ (to_value _ Ht) _ _ En) as Hn. unfold bal_of in Hn. rewrite Hl in Hn. lia.
Qed.

(** ** Transfers *)

(** The controls of an asset let the line of [h] take part in a movement. *)
Definition may_move ts a (kind : IssuedMovementKind) (h : Address) : Prop :=
  line_authorized ts h a = true /\ exists l, lines ts !! (h, asset_key a) = Some l /\
  match kind with
  | Redeem => tl_line_deep_frozen l = false
  | _ => global_freeze (policy_of ts a) = false /\ tl_line_frozen l = false
  end.
Lemma movement_allowed_spec ts a kind h l :
  trust_ok ts -> lines ts !! (h, asset_key a) = Some l ->
  issued_movement_allowed (policy_of ts a) (normalize_trust_line_live l (policy_of ts a)) kind = Ok tt <-> may_move ts a kind h.
Proof.
  intros Hok Hl. destruct (normalize_line_ok _ _ _ (policy_of ts a) (to_lines _ Hok _ _ _ Hl)) as (_ & _ & _ & F4 & F5).
  cbv zeta in *. unfold issued_movement_allowed, may_move, line_authorized. rewrite Hl, F4, F5.
  set (n := normalize_trust_line_live _ _). destruct (tl_authorized n); cbn [ensure rbind].
  2:{ split; [done|]. by intros [? _]. }
  split.
  - intros H. split; [done|]. exists l. split; [done|].
    destruct kind; apply ensure_Ok, negb_true_iff in H; [by apply orb_false_iff in H..|done].
  - intros [_ (l' & [= <-] & H)]. destruct kind; [destruct H as [-> ->]..|rewrite H]; done.
Qed.
Lemma check_movement_spec ts a kind sender recipient :
  trust_ok ts -> check_movement ts a (policy_of ts a) kind sender recipient = Ok tt ->
  (kind <> Redeem -> may_move ts a kind recipient) /\ (kind <> Issue -> may_move ts a kind sender).
Proof.
  intros Hok H. destruct kind; cbn [check_movement] in H.
  - apply rbind_Ok in H as (l & Hl%load_line_or_Ok & H). split; [|done]. intros _. by eapply movement_allowed_spec.
  - apply rbind_Ok in H as (l & Hl%load_line_or_Ok & H). apply rbind_Ok in H as (r & Hr%load_line_or_Ok & H).
    apply rbind_Ok in H as ([] & H1 & H2). split; intros _; by eapply movement_allowed_spec.
  - apply rbind_Ok in H as (l & Hl%load_line_or_Ok & H). split; [done|]. intros _. by eapply movement_allowed_spec.
Qed.
Lemma receipts_write ts mops a v id r :
  Forall is_line_op mops -> transfer_receipts (write_trust ts (mops ++ put_liability a v ++ [PutTransferReceipt id r])) !! id = Some r.
Proof.
  intros _. rewrite app_assoc, write_trust_app. generalize (write_trust ts (mops ++ put_liability a v)). intros []. cbn. apply lookup_insert_eq.
Qed.

Definition liability_change (kind : IssuedMovementKind) (n : Z) : Z :=
  match kind with Issue => n | HolderTransfer => 0 | Redeem => - n end.

(** An accepted transfer of issued value is an issue, a redemption or a
    transfer between holders, by which of the two ends is the issuer.  It moves
    exactly the amount between the two lines, changes the issuer's liability by
    what was issued or redeemed and nothing else, spends only unreserved units,
    stays within the recipient's limit, respects authorization and freezes of the
    lines it touches, leaves its receipt, and costs the sender its fee. *)
Theorem issued_transfer_correct ps st t auth score st' before :
  lane_ok st -> 0 <= it_fee t -> apply_trust_tx ps st (TransferIssued t) auth score = Ok (st', before) ->
  let ts := tr_trust st in let ts' := tr_trust st' in let a := it_asset_id t in let k := asset_key a in let n := it_amount t in
  0 < n /\ it_sender t <> it_recipient t /\
  exists kind, movement_kind (it_issuer t) (it_sender t) (it_recipient t) = Some kind /\
    (forall x, bal_of ts' x = bal_of ts x + moved kind (it_sender t) (it_recipient t) k n x) /\
    (forall k', liab_of ts' k' = liab_of ts k' + if bool_decide (k' = k) then liability_change kind n else 0) /\
    (kind <> Issue -> n <= bal_of ts (it_sender t, k) - load_issued_offer_reserve ts (it_sender t) a /\ may_move ts a kind (it_sender t)) /\
    (kind <> Redeem -> may_move ts a kind (it_recipient t) /\
       exists l, lines ts !! (it_recipient t, k) = Some l /\ tl_balance l + n <= tl_limit l) /\
    transfer_receipts ts' !! issued_transfer_tx_id t = Some (transfer_receipt_of t score) /\
    liquid DRC (tr_base st') = liquid DRC (tr_base st) - it_fee t.
Proof.
  intros [Ha Hok] Hfee H. cbn [apply_trust_tx] in H. apply rbind_Ok in H as ([[b ops] j] & H & Hst).
  apply Ok_inj, pair_eq in Hst as [<- _]. cbv zeta. cbn [tr_trust tr_base].
  destruct (issued_transfer_inv _ _ _ _ _ _ _ _ _ Hok H) as (kind & mops & li' & [Hv [Hf Hc] Hr Hk Hal Hm ->]).
  pose proof (validate_transfer_inv _ Hv) as (Hne & _ & Hamt). split; [done|]. split; [done|]. exists kind. split; [done|].
  destruct (move_spec _ _ _ _ _ _ _ _ _ Hok Hne Hamt Hm) as (Hlo & Hbal & _ & _ & _).
  destruct (write_shape (tr_trust st) mops (it_asset_id t) li'
    (PutTransferReceipt (issued_transfer_tx_id t) (transfer_receipt_of t score)) Hlo eq_refl) as (El & _ & _ & _ & _ & Eli).
  cbv zeta in *. destruct (check_movement_spec _ _ _ _ _ Hok Hal) as [M1 M2].
  pose proof (movement_kind_inv _ _ _ _ Hk) as Hki.
  split; [intros x; unfold bal_of; rewrite El; apply Hbal|]. split.
  { intros k'. rewrite (liability_value _ _ _ _ k' Eli). case_bool_decide; [|lia]. subst.
    destruct kind; [destruct Hm as (l & _ & _ & -> & _)|destruct Hm as (l & r & _ & _ & _ & _ & -> & _)|
      destruct Hm as (l & _ & _ & -> & _)]; cbn; lia. }
  split.
  { intros Hki'. split; [|by apply M2]. assert (it_sender t <> it_issuer t) as Hs by (destruct kind; tauto).
    destruct (assert_reserve_Ok _ _ _ _ (Hr Hs)) as (l & Hl & Hle). unfold bal_of. rewrite Hl. unfold saturating_sub in Hle. lia. }
  split.
  { intros Hki'. split; [by apply M1|]. destruct kind; [destruct Hm as (l & Hl & Hle & _)|destruct Hm as (l & r & _ & Hl & _ & Hle & _)|done];
      by eexists. }
  split; [by apply receipts_write|]. rewrite (charges_one _ _ _ _ DRC Hc). rewrite bool_decide_eq_true_2 by done. lia.
Qed.

(** ** One line at a time *)

Lemma normalize_authorized ts h a l :
  trust_ok ts -> lines ts !! (h, asset_key a) = Some l ->
  tl_authorized (normalize_trust_line_live l (policy_of ts a)) = tl_authorized l.
Proof.
  intros Hok Hl. unfold normalize_trust_line_live, DRC_TRUST_LINE_LIVE_STATE_VERSION. destruct (Z.eqb_spec (tl_version l) 1) as [E|]; [|done].
  cbn. rewrite (proj1 (lo_v1 _ _ _ (to_lines _ Hok _ _ _ Hl) E)). unfold policy_of.
  destruct (asset_policies ts !! asset_key a) as [p|] eqn:Ep; [|done]. cbn. destruct (require_auth p) eqn:Er; [|done].
  pose proof (no_auth _ (to_controls _ Hok) _ _ _ _ Hl Ep Er). lia.
Qed.
Lemma line_authorized_raw ts h a :
  trust_ok ts -> line_authorized ts h a = match lines ts !! (h, asset_key a) with Some l => tl_authorized l | None => false end.
Proof. intros Hok. unfold line_authorized. destruct (lines ts !! _) eqn:El; [|done]. by apply (normalize_authorized ts h). Qed.

(** Where the line [l'] of [(h, k)] after a transaction comes from. *)
Inductive line_origin ts (tx : TrustTx) (h : Address) (k : Hash) (l' : DrcTrustLineLive) : Prop :=
| line_kept l :
    lines ts !! (h, k) = Some l -> tl_authorized l' = tl_authorized l -> line_origin ts tx h k l'
| line_created t :
    tx = SetTrustLine t -> h = ts_holder t -> k = asset_key (ts_asset_id t) -> lines ts !! (h, k) = None ->
    l' = new_line ts t -> line_origin ts tx h k l'
| line_controlled t :
    tx = ControlLine t -> h = ic_holder t -> k = asset_key (ic_asset_id t) -> ic_action t = AuthorizeHolder ->
    line_origin ts tx h k l'
| line_upgraded t :
    tx = SetPolicy t -> k = asset_key (ap_asset_id t) -> ap_action t = EnableRequireAuth -> tl_authorized l' = false ->
    line_origin ts tx h k l'.
Lemma lane_lines ps st tx auth score st' before h k l' :
  trust_ok (tr_trust st) -> trust_ints tx -> apply_trust_tx ps st tx auth score = Ok (st', before) ->
  lines (tr_trust st') !! (h, k) = Some l' -> line_origin (tr_trust st) tx h k l'.
Proof.
  intros Hok Hint H. destruct tx as [t|t|t|t|t]; cbn [apply_trust_tx] in H.
  - apply rbind_Ok in H as ([[[b ops] j] meta] & Ha & H). apply Ok_inj, pair_eq in H as [<- _]. cbn [tr_trust].
    destruct (asset_policy_inv _ _ _ _ _ _ _ _ _ _ Hok Ha) as (_ & _ & _ & _ & uops & r & -> & Hu & _ & Hx). cbv zeta in *.
    destruct (policy_shape (tr_trust st) _ (set_asset_policy (policy_of (tr_trust st) (ap_asset_id t)) (ap_action t)) (policy_set_tx_id t) r uops Hu) as [El _]. cbv zeta in El.
    rewrite El, Hx. case_bool_decide as E; [|intros Hl; by eapply line_kept].
    destruct E as [E1 E2]. intros (l & _ & ->)%fmap_Some. by eapply line_upgraded.
  - apply rbind_Ok in H as ([[[b ops] j] meta] & Ha & H). apply Ok_inj, pair_eq in H as [<- _]. cbn [tr_trust].
    destruct (control_inv _ _ _ _ _ _ _ _ _ _ Hok Ha) as (l & Hl & _ & _ & _ & _ & r & ->). cbv zeta in *.
    rewrite lines_write. cbn [foldl line_step]. intros [[[= <- <-] <-]|[_ H]]%lookup_insert_Some; [|by eapply line_kept].
    destruct (ic_action t) eqn:Eact; [by eapply line_controlled|eapply line_kept; [exact Hl|]..];
      cbn; by apply (normalize_authorized _ (ic_holder t)).
  - apply rbind_Ok in H as ([[b ops] j] & Ha & H). apply Ok_inj, pair_eq in H as [<- _]. cbn [tr_trust].
    destruct (set_inv _ _ _ _ _ _ _ _ Hok Ha) as (_ & _ & [l hops iops Hz Hl Hb Hh Hi|l Hz Hl Hb Hv|hops iops Hz Hl Hc1 Hc2 Hh Hi Hv]).
    + rewrite write_trust_app. rewrite (proj1 (index_ops_frame _ _ _ _ _ _ _ _ Hh Hi)), lines_write. cbn [foldl line_step trust_line_key].
      intros [_ H]%lookup_delete_Some. by eapply line_kept.
    + rewrite lines_write. cbn [foldl line_step]. intros [[[= <- <-] <-]|[_ H]]%lookup_insert_Some; eapply line_kept; try done.
      by destruct (stored_fields (with_limit l (ts_limit t))) as (_ & _ & _ & _ & F & _).
    + rewrite write_trust_app, lines_write, (proj1 (index_ops_frame _ _ _ _ _ _ _ _ Hh Hi)). cbn [foldl line_step].
      intros [[[= <- <-] <-]|[_ H]]%lookup_insert_Some; [by eapply line_created|by eapply line_kept].
  - apply rbind_Ok in H as ([[b ops] j] & Ha & H). apply Ok_inj, pair_eq in H as [<- _]. cbn [tr_trust].
    destruct (issued_transfer_inv _ _ _ _ _ _ _ _ _ Hok Ha) as (kind & mops & li' & [Hv _ _ _ _ Hm ->]).
    apply validate_transfer_inv in Hv as (Hne & _ & Hamt).
    destruct (move_spec _ _ _ _ _ _ _ _ _ Hok Hne Hamt Hm) as (Hlo & _ & _ & _ & Hlines).
    rewrite (proj1 (write_shape _ mops _ _ (PutTransferReceipt (issued_transfer_tx_id t) (transfer_receipt_of t score)) Hlo eq_refl)). intros (_ & l & Hl & _ & _ & F & _)%Hlines. by eapply line_kept.
  - apply rbind_Ok in H as ([[[b ops] j] meta] & Ha & H). apply Ok_inj, pair_eq in H as [<- _]. cbn [tr_trust].
    destruct (clawback_inv _ _ _ _ _ _ _ _ _ _ Hok Ha) as (l & Hl & _ & _ & _ & _ & _ & _ & _ & _ & _ & r & ->). cbv zeta in *.
    match goal with |- context [write_trust _ ([?op] ++ _)] => assert (Forall is_line_op [op]) as Hlo by (by constructor) end.
    rewrite (proj1 (write_shape _ _ _ _ (PutClawbackReceipt (clawback_tx_id t) r) Hlo eq_refl)). cbn [foldl line_step].
    intros [[[= <- <-] <-]|[_ H]]%lookup_insert_Some; eapply line_kept; try done. cbn. by apply (normalize_authorized _ (cb_holder t)).
Qed.

(** The policies after a transaction. *)
Lemma lane_policies ps st tx auth score st' before :
  trust_ok (tr_trust st) -> trust_ints tx -> apply_trust_tx ps st tx auth score = Ok (st', before) ->
  asset_policies (tr_trust st') =
    match tx with
    | SetPolicy t => <[asset_key (ap_asset_id t) := set_asset_policy (policy_of (tr_trust st) (ap_asset_id t)) (ap_action t)]>
                       (asset_policies (tr_trust st))
    | _ => asset_policies (tr_trust st)
    end.
Proof.
  intros Hok Hint H. destruct tx as [t|t|t|t|t]; cbn [apply_trust_tx] in H.
  - apply rbind_Ok in H as ([[[b ops] j] meta] & Ha & H). apply Ok_inj, pair_eq in H as [<- _]. cbn [tr_trust].
    destruct (asset_policy_inv _ _ _ _ _ _ _ _ _ _ Hok Ha) as (_ & _ & _ & _ & uops & r & -> & Hu & _). cbv zeta in *.
    by destruct (policy_shape (tr_trust st) _ (set_asset_policy (policy_of (tr_trust st) (ap_asset_id t)) (ap_action t)) (policy_set_tx_id t) r uops Hu) as (_ & _ & _ & E & _).
  - apply rbind_Ok in H as ([[[b ops] j] meta] & Ha & H). apply Ok_inj, pair_eq in H as [<- _]. cbn [tr_trust].
    destruct (control_inv _ _ _ _ _ _ _ _ _ _ Hok Ha) as (l & Hl & _ & _ & _ & _ & r & ->). by rewrite policies_write.
  - apply rbind_Ok in H as ([[b ops] j] & Ha & H). apply Ok_inj, pair_eq in H as [<- _]. cbn [tr_trust].
    destruct (set_inv _ _ _ _ _ _ _ _ Hok Ha) as (_ & _ & [l hops iops Hz Hl Hb Hh Hi|l Hz Hl Hb Hv|hops iops Hz Hl Hc1 Hc2 Hh Hi Hv]).
    + rewrite write_trust_app. destruct (index_ops_frame (write_trust (tr_trust st) [DeleteTrust (trust_line_key (ts_holder t) (ts_asset_id t))]) _ _ _ _ _ _ _ Hh Hi) as (_ & _ & _ & _ & _ & E).
      cbv zeta in E. rewrite E. by rewrite policies_write.
    + by rewrite policies_write.
    + rewrite write_trust_app, policies_write. by destruct (index_ops_frame (tr_trust st) _ _ _ _ _ _ _ Hh Hi) as (_ & _ & _ & _ & _ & E).
  - apply rbind_Ok in H as ([[b ops] j] & Ha & H). apply Ok_inj, pair_eq in H as [<- _]. cbn [tr_trust].
    destruct (issued_transfer_inv _ _ _ _ _ _ _ _ _ Hok Ha) as (kind & mops & li' & [Hv _ _ _ _ Hm ->]).
    apply validate_transfer_inv in Hv as (Hne & _ & Hamt). destruct (move_spec _ _ _ _ _ _ _ _ _ Hok Hne Hamt Hm) as (Hlo & _).
    by destruct (write_shape (tr_trust st) mops (it_asset_id t) li' (PutTransferReceipt (issued_transfer_tx_id t) (transfer_receipt_of t score)) Hlo eq_refl) as (_ & _ & _ & E & _).
  - apply rbind_Ok in H as ([[[b ops] j] meta] & Ha & H). apply Ok_inj, pair_eq in H as [<- _]. cbn [tr_trust].
    destruct (clawback_inv _ _ _ _ _ _ _ _ _ _ Hok Ha) as (l & Hl & _ & _ & _ & _ & _ & _ & _ & _ & _ & r & ->).
    rewrite policies_write, !foldl_app. unfold put_liability. by case_match.
Qed.
Lemma lane_policy_of ps st tx auth score st' before a :
  trust_ok (tr_trust st) -> trust_ints tx -> apply_trust_tx ps st tx auth score = Ok (st', before) ->
  policy_of (tr_trust st') a = policy_of (tr_trust st) a \/
  exists t, tx = SetPolicy t /\ ap_asset_id t = a /\
    policy_of (tr_trust st') a = set_asset_policy (policy_of (tr_trust st) a) (ap_action t) /\
    validate_asset_policy (set_asset_policy (policy_of (tr_trust st) a) (ap_action t)) = Ok tt.
Proof.
  intros Hok Hint H. pose proof (lane_policies _ _ _ _ _ _ _ Hok Hint H) as E.
  assert (policy_of (tr_trust st') a = default (default_for_asset a) (asset_policies (tr_trust st') !! asset_key a)) as Ep by done.
  rewrite E in Ep. destruct tx as [t|t|t|t|t]; try by left.
  destruct (decide (ap_asset_id t = a)) as [<-|Hne].
  - right. exists t. rewrite lookup_insert_eq in Ep. repeat (split; [done|]). cbn [apply_trust_tx] in H.
    apply rbind_Ok in H as ([[[b ops] j] meta] & Ha & _). by apply asset_policy_inv in Ha as (_ & _ & _ & Hv & _).
  - left. rewrite lookup_insert_ne in Ep; [done|]. by intros Hk%key_inj.
Qed.

(** Authorization is the issuer's to give.  Where an asset requires it, it
    keeps requiring it, and a line that is authorized after a transaction was
    authorized before it, unless the transaction is the issuer's own
    authorization of that holder. *)
Theorem authorization_only_by_issuer ps st tx auth score st' before h a :
  lane_ok st -> trust_ints tx -> apply_trust_tx ps st tx auth score = Ok (st', before) ->
  require_auth (policy_of (tr_trust st) a) = true ->
  require_auth (policy_of (tr_trust st') a) = true /\
  (line_authorized (tr_trust st') h a = true ->
   line_authorized (tr_trust st) h a = true \/
   exists t, tx = ControlLine t /\ ic_issuer t = ia_issuer a /\ ic_asset_id t = a /\ ic_holder t = h /\ ic_action t = AuthorizeHolder).
Proof.
  intros [Ha Hok] Hint H Hreq. split.
  { destruct (lane_policy_of _ _ _ _ _ _ _ a Hok Hint H) as [-> |(t & _ & _ & -> & _)]; [done|]. by destruct (ap_action t). }
  pose proof (le_trust _ _ _ _ (lane_inv key_inj _ _ _ _ _ _ _ Hok Hint H)) as Hok'.
  rewrite !line_authorized_raw by done. destruct (lines (tr_trust st') !! _) as [l'|] eqn:El; [|done]. intros Hl'.
  destruct (lane_lines _ _ _ _ _ _ _ _ _ _ Hok Hint H El) as [l Hl Hau|t Htx Hh Hk%key_inj Hn ->|t Htx Hh Hk%key_inj Hact|t Htx Hk Hact Hau].
  - left. by rewrite Hl, <- Hau.
  - subst a. cbn in Hl'. by rewrite Hreq in Hl'.
  - right. exists t. by subst.
  - congruence.
Qed.

(** Renouncing freezes is final.  Once an asset carries [no_freeze], after
    any further transactions it still does; it is never globally frozen, none of
    its lines is frozen or deep-frozen, and no clawback of it is accepted. *)
Theorem no_freeze_is_final ps st st' a :
  lane_ok st -> no_freeze (policy_of (tr_trust st) a) = true -> rtc (trust_step ps) st st' ->
  let p := policy_of (tr_trust st') a in
  no_freeze p = true /\ global_freeze p = false /\ clawback_enabled p = false /\
  (forall h l, lines (tr_trust st') !! (h, asset_key a) = Some l -> tl_line_frozen l = false /\ tl_line_deep_frozen l = false) /\
  (forall t auth score r, cb_asset_id t = a -> apply_trust_tx ps st' (Clawback t) auth score <> Ok r).
Proof.
  intros Hok Hnf Hr. cbv zeta. pose proof (run_ok _ _ _ Hok Hr) as [_ Ht].
  assert (no_freeze (policy_of (tr_trust st') a) = true) as Hnf'.
  { clear Ht. induction Hr as [|x y z (tx & auth & score & before & Hi & H) _ IH]; [done|]. apply IH; [by eapply lane_step|].
    destruct (lane_policy_of _ _ _ _ _ _ _ a (la_trust _ Hok) Hi H) as [-> |(t & _ & _ & -> & _)]; [done|]. by destruct (ap_action t). }
  assert (asset_policies (tr_trust st') !! asset_key a = Some (policy_of (tr_trust st') a)) as Hp.
  { unfold policy_of in *. by destruct (asset_policies (tr_trust st') !! asset_key a). }
  destruct (to_controls _ Ht) as [C1 C2 C3]. destruct (C1 _ _ Hp) as [Hv _].
  apply rbind_Ok in Hv as (_ & _ & Hv). apply rbind_Ok in Hv as (_ & _ & Hv). apply rbind_Ok in Hv as (_ & Hg%ensure_Ok & Hc%ensure_Ok).
  rewrite Hnf' in Hg, Hc. split; [done|]. split; [by apply negb_true_iff in Hg|]. split; [by apply negb_true_iff in Hc|]. split.
  - intros h l Hl. pose proof (C3 _ _ _ _ Hl Hp Hnf') as Hf. split; [done|].
    pose proof (lo_valid _ _ _ (to_lines _ Ht _ _ _ Hl)) as (_ & _ & _ & Hd)%validate_line_inv.
    destruct (tl_line_deep_frozen l); [|done]. by rewrite Hd in Hf.
  - intros t auth score [st2 bf] Ha H. cbn [apply_trust_tx] in H. apply rbind_Ok in H as ([[[b ops] j] meta] & H & _).
    destruct (clawback_inv _ _ _ _ _ _ _ _ _ _ Ht H) as (l & _ & _ & _ & Hn & _). subst a. cbv zeta in Hn. congruence.
Qed.

(** ** Balances *)

Lemma bal_insert_same ts ts' x l l' y :
  lines ts' = <[x := l']> (lines ts) -> lines ts !! x = Some l -> tl_balance l' = tl_balance l -> bal_of ts' y = bal_of ts y.
Proof.
  intros El Hl Hb. unfold bal_of. rewrite El. destruct (decide (x = y)) as [<-|Hne].
  - by rewrite lookup_insert_eq, Hl.
  - by rewrite lookup_insert_ne.
Qed.
Lemma lane_balances ps st tx auth score st' before x :
  trust_ok (tr_trust st) -> trust_ints tx -> apply_trust_tx ps st tx auth score = Ok (st', before) ->
  bal_of (tr_trust st') x = bal_of (tr_trust st) x +
    match tx with
    | TransferIssued t => default 0 ((fun kind => moved kind (it_sender t) (it_recipient t) (asset_key (it_asset_id t)) (it_amount t) x) <$>
        movement_kind (it_issuer t) (it_sender t) (it_recipient t))
    | Clawback t => if bool_decide (x = (cb_holder t, asset_key (cb_asset_id t))) then - cb_amount t else 0
    | _ => 0
    end.
Proof.
  intros Hok Hint H. destruct tx as [t|t|t|t|t]; cbn [apply_trust_tx] in H; rewrite ?Z.add_0_r.
  - apply rbind_Ok in H as ([[[b ops] j] meta] & Ha & H). apply Ok_inj, pair_eq in H as [<- _]. cbn [tr_trust].
    destruct (asset_policy_inv _ _ _ _ _ _ _ _ _ _ Hok Ha) as (_ & _ & _ & _ & uops & r & -> & Hu & _ & Hx). cbv zeta in *.
    destruct (policy_shape (tr_trust st) _ (set_asset_policy (policy_of (tr_trust st) (ap_asset_id t)) (ap_action t)) (policy_set_tx_id t) r uops Hu) as [El _].
    cbv zeta in El. unfold bal_of. rewrite El, Hx. case_bool_decide; [|done]. by destruct (lines _ !! x).
  - apply rbind_Ok in H as ([[[b ops] j] meta] & Ha & H). apply Ok_inj, pair_eq in H as [<- _]. cbn [tr_trust].
    destruct (control_inv _ _ _ _ _ _ _ _ _ _ Hok Ha) as (l & Hl & _ & _ & _ & _ & r & ->). cbv zeta in *.
    eapply bal_insert_same; [by rewrite lines_write|exact Hl|]. destruct (ic_action t); cbn; apply normalize_balance.
  - apply rbind_Ok in H as ([[b ops] j] & Ha & H). apply Ok_inj, pair_eq in H as [<- _]. cbn [tr_trust].
    destruct (set_inv _ _ _ _ _ _ _ _ Hok Ha) as (_ & _ & [l hops iops Hz Hl Hb Hh Hi|l Hz Hl Hb Hv|hops iops Hz Hl Hc1 Hc2 Hh Hi Hv]).
    + rewrite write_trust_app. unfold bal_of. rewrite (proj1 (index_ops_frame _ _ _ _ _ _ _ _ Hh Hi)), lines_write. cbn [foldl line_step trust_line_key].
      destruct (decide (x = (ts_holder t, asset_key (ts_asset_id t)))) as [->|Hne]; [by rewrite lookup_delete_eq, Hl|by rewrite lookup_delete_ne].
    + eapply bal_insert_same; [by rewrite lines_write|exact Hl|].
      by destruct (stored_fields (with_limit l (ts_limit t))) as (_ & _ & _ & F & _).
    + rewrite write_trust_app. unfold bal_of. rewrite lines_write, (proj1 (index_ops_frame _ _ _ _ _ _ _ _ Hh Hi)). cbn [foldl line_step].
      destruct (decide (x = (ts_holder t, asset_key (ts_asset_id t)))) as [->|Hne]; [by rewrite lookup_insert_eq, Hl|by rewrite lookup_insert_ne].
  - apply rbind_Ok in H as ([[b ops] j] & Ha & H). apply Ok_inj, pair_eq in H as [<- _]. cbn [tr_trust].
    destruct (issued_transfer_inv _ _ _ _ _ _ _ _ _ Hok Ha) as (kind & mops & li' & [Hv _ _ Hk _ Hm ->]).
    apply validate_transfer_inv in Hv as (Hne & _ & Hamt). destruct (move_spec _ _ _ _ _ _ _ _ _ Hok Hne Hamt Hm) as (Hlo & Hbal & _).
    unfold bal_of. rewrite (proj1 (write_shape _ mops _ _ (PutTransferReceipt (issued_transfer_tx_id t) (transfer_receipt_of t score)) Hlo eq_refl)).
    rewrite Hk. cbn [fmap option_fmap option_map default]. apply Hbal.
  - apply rbind_Ok in H as ([[[b ops] j] meta] & Ha & H). apply Ok_inj, pair_eq in H as [<- _]. cbn [tr_trust].
    destruct (clawback_inv _ _ _ _ _ _ _ _ _ _ Hok Ha) as (l & Hl & _ & _ & _ & _ & _ & _ & _ & _ & _ & r & ->). cbv zeta in *.
    match goal with |- context [write_trust _ ([?op] ++ _)] => assert (Forall is_line_op [op]) as Hlo by (by constructor) end.
    unfold bal_of. rewrite (proj1 (write_shape _ _ _ _ (PutClawbackReceipt (clawback_tx_id t) r) Hlo eq_refl)). cbn [foldl line_step].
    case_bool_decide; subst; [rewrite lookup_insert_eq, Hl; cbn; lia|rewrite lookup_insert_ne by done; lia].
Qed.

(** C25: A balance falls by consent.  When a trust-line, issue, transfer,
    redemption, control or clawback transaction (the offers of the book trade
    apart) lowers the balance of a holder, it is that holder's own transfer of the asset, by the amount it
    names, or the issuer's clawback of the asset from that holder, under a policy
    that enabled clawbacks; neither touches the units reserved by the holder's
    offers. *)
Theorem balance_falls_by_consent ps st tx auth score st' before h a :
  lane_ok st -> trust_ints tx -> apply_trust_tx ps st tx auth score = Ok (st', before) ->
  let k := asset_key a in
  bal_of (tr_trust st') (h, k) < bal_of (tr_trust st) (h, k) ->
  exists n, bal_of (tr_trust st') (h, k) = bal_of (tr_trust st) (h, k) - n /\
    load_issued_offer_reserve (tr_trust st) h a <= bal_of (tr_trust st') (h, k) /\
    ((exists t, tx = TransferIssued t /\ it_sender t = h /\ it_asset_id t = a /\ it_amount t = n) \/
     (exists t, tx = Clawback t /\ cb_holder t = h /\ cb_asset_id t = a /\ cb_amount t = n /\
        clawback_enabled (policy_of (tr_trust st) a) = true)).
Proof.
  intros Hok Hint H k Hlt. pose proof (lane_balances _ _ _ _ _ _ _ (h, k) (la_trust _ Hok) Hint H) as Hb.
  pose proof (lane_inv key_inj _ _ _ _ _ _ _ (la_trust _ Hok) Hint H) as Heff. pose proof (le_trust _ _ _ _ Heff) as Ht'.
  assert (load_issued_offer_reserve (tr_trust st) h a <= bal_of (tr_trust st') (h, k)) as Hres.
  { unfold load_issued_offer_reserve. fold k. rewrite <- (lane_reserves _ _ _ _ Heff).
    destruct (reserves (tr_trust st') !! (h, k)) as [n|] eqn:En; [by apply (vo_reserve _ (to_value _ Ht'))|].
    cbn. unfold bal_of. destruct (lines _ !! _) as [l|] eqn:El; [|done]. apply (lo_nonneg _ _ _ (to_lines _ Ht' _ _ _ El)). }
  destruct tx as [t|t|t|t|t]; try lia.
  - cbn [apply_trust_tx] in H. apply rbind_Ok in H as ([[b ops] j] & Ha & _).
    destruct (issued_transfer_inv _ _ _ _ _ _ _ _ _ (la_trust _ Hok) Ha) as (kind & mops & li' & [Hv _ _ Hk _ _ _]).
    apply validate_transfer_inv in Hv as (Hne & _ & Hamt). rewrite Hk in Hb. cbn in Hb. unfold moved in Hb.
    exists (it_amount t). assert ((h, k) = (it_sender t, asset_key (it_asset_id t)) /\
      bal_of (tr_trust st') (h, k) = bal_of (tr_trust st) (h, k) - it_amount t) as [[= Hh Hkk] Hb'].
    { destruct kind; repeat case_bool_decide; try lia; split; done || lia || congruence. }
    split; [done|]. split; [done|]. left. exists t. by apply key_inj in Hkk as <-.
  - cbn [apply_trust_tx] in H. apply rbind_Ok in H as ([[[b ops] j] meta] & Ha & _).
    destruct (clawback_inv _ _ _ _ _ _ _ _ _ _ (la_trust _ Hok) Ha) as (l & _ & _ & Hcb & _).
    case_bool_decide as E; [|lia]. injection E as Hh Hk%key_inj. cbv zeta in Hcb. exists (cb_amount t).
    split; [lia|]. split; [done|]. right. exists t. by subst.
Qed.

(** ** The journal *)

(** A block's transactions in order, with the records their journals keep. *)
Fixpoint run_trust (ps : PolicyStore) (st : TrustState) (txs : list (TrustTx * Auth)) (score : Z)
  : result StateError (TrustState * list TrustOp) :=
  match txs with
  | [] => Ok (st, [])
  | (tx, auth) :: txs =>
      let? (st1, b1) := apply_trust_tx ps st tx auth score in
      let? (st2, b2) := run_trust ps st1 txs score in
      Ok (st2, b1 ++ b2)
  end.
Lemma run_trust_rtc ps st txs score st' before :
  Forall (fun x => trust_ints x.1) txs -> run_trust ps st txs score = Ok (st', before) -> rtc (trust_step ps) st st'.
Proof.
  intros Hint. revert st before. induction Hint as [|[tx auth] txs Hi Hint IH]; intros st before H; cbn [run_trust] in H.
  - injection H as -> _. constructor.
  - apply rbind_Ok in H as ([st1 b1] & H1 & H). apply rbind_Ok in H as ([st2 b2] & H2 & H). injection H as -> _.
    eapply rtc_l; [|by eapply IH]. by exists tx, auth, score, b1.
Qed.
(** The journal undoes the lanes.  Writing back the snapshots that a
    sequence of trust-line transactions journaled, the latest first, restores
    every trust record exactly. *)
Theorem trust_journal_roundtrip ps st txs score st' before :
  lane_ok st -> Forall (fun x => trust_ints x.1) txs -> run_trust ps st txs score = Ok (st', before) ->
  revert_trust_meta (tr_trust st') before = tr_trust st.
Proof.
  intros Hok Hint. revert st before Hok. induction Hint as [|[tx auth] txs Hi Hint IH]; intros st before Hok H; cbn [run_trust] in H.
  - by injection H as -> <-.
  - apply rbind_Ok in H as ([st1 b1] & H1 & H). apply rbind_Ok in H as ([st2 b2] & H2 & H). injection H as -> <-.
    pose proof (lane_step key_inj _ _ _ _ _ _ _ Hok Hi H1) as Hok1.
    destruct (lane_inv key_inj _ _ _ _ _ _ _ (la_trust _ Hok) Hi H1) as [_ _ (ops & keys & Ets & Hs & -> & _)].
    unfold revert_trust_meta. rewrite reverse_app, write_trust_app.
    specialize (IH st1 b2 Hok1 H2). unfold revert_trust_meta in IH. rewrite IH, Ets. by apply restore_after.
Qed.

(** ** Exit *)

Lemma debit_fee_total s payer version tv tn sel bad fee :
  accounts_ok s -> op_seq_ready s payer version tv tn sel -> fee <= balance (acct_of s DRC payer) ->
  exists ctx r, begin_op_sequence s payer (acct_of s DRC payer) version tv tn sel bad = Ok ctx /\
    debit_drc_fee s [] [] payer fee ctx = Ok r.
Proof.
  intros Hok Hr Hf. destruct (op_sequence_total s payer version tv tn sel bad "nonce overflow" []
    (balance (acct_of s DRC payer) - fee) Hok Hr) as (ctx & [b acct] & Hb & Hfin).
  exists ctx. unfold debit_drc_fee. rewrite load_account_acct by done. cbn [rbind].
  rewrite (proj2 (Z.leb_le _ _) Hf). cbn [ensure rbind]. rewrite Hfin. cbn [rbind]. rewrite put_drc_total. cbn [rbind]. by eexists.
Qed.
(** Holders can leave.  Whatever freezes are in force, short of a deep
    freeze of the line itself, an authorized holder can redeem any amount up to
    its unreserved balance with the issuer: a well-formed redemption that is
    signed, can pay its fee and meets the issuer's deposit policy is accepted. *)
Theorem holder_can_redeem ps st t auth score l :
  lane_ok st -> policies_ok ps -> validate_issued_transfer t = Ok tt ->
  authorize_issued_transfer (tr_base st) ps t auth = Ok tt ->
  let ts := tr_trust st in let a := it_asset_id t in
  it_recipient t = it_issuer t -> lines ts !! (it_sender t, asset_key a) = Some l ->
  line_authorized ts (it_sender t) a = true -> tl_line_deep_frozen l = false ->
  it_amount t <= tl_balance l - load_issued_offer_reserve ts (it_sender t) a ->
  it_fee t <= balance (acct_of (tr_base st) DRC (it_sender t)) ->
  op_seq_ready (tr_base st) (it_sender t) (it_version t) 2 (it_nonce t) (it_account_sequence t) ->
  (require_destination_tag (default default_account_policy (policies ps !! it_recipient t)) = true -> it_destination_tag t <> None) ->
  deposit_authorized ps (it_recipient t) (it_sender t) = true ->
  exists st' before, apply_trust_tx ps st (TransferIssued t) auth score = Ok (st', before).
Proof.
  intros [Ha Hok] Hps Hv Hau ts a Hrec Hl Hla Hdeep Hamt Hfee Hseq Htag Hdep.
  destruct (debit_fee_total _ _ _ _ _ _ "bad issued transfer nonce" _ Ha Hseq Hfee) as (ctx & [b j] & Hb & Hd).
  destruct (validate_transfer_inv _ Hv) as (Hne & _ & Hpos).
  assert (it_sender t <> it_issuer t) as Hsi by congruence.
  assert (load_drc_trust_line_live ts (it_sender t) a = Ok (Some l)) as Hload by (rewrite load_line_ok by done; by rewrite Hl).
  cbn [apply_trust_tx]. unfold apply_drc_issued_transfer, verify_drc_issued_transfer_operation.
  fold ts. fold a. change (ia_issuer a) with (it_issuer t). rewrite Hv. cbn [lift_msg rbind]. rewrite Hau. cbn [rbind].
  rewrite !load_account_acct by done. cbn [rbind]. rewrite load_policy_ok by done. cbn [rbind].
  assert (negb (require_destination_tag (default default_account_policy (policies ps !! it_recipient t)) &&
    bool_decide (it_destination_tag t = None)) = true) as ->.
  { destruct (require_destination_tag _); [|done]. by rewrite bool_decide_eq_false_2 by (by apply Htag). }
  cbn [ensure rbind]. rewrite deposit_gate_open by done. cbn [rbind].
  change DRC_TRUST_LINE_ISSUED_TRANSFER_TICKET_VERSION with 2. rewrite Hb. cbn [rbind]. rewrite Hd. cbn [rbind].
  rewrite (proj2 (Z.eqb_neq _ _) Hsi). cbn [negb].
  assert (assert_issued_offer_reserve ts (it_sender t) a (it_amount t) = Ok tt) as ->.
  { unfold assert_issued_offer_reserve. rewrite Hload. cbn [rbind ok_or]. apply ensure_Ok, Z.leb_le. unfold saturating_sub. lia. }
  cbn [rbind]. rewrite load_asset_policy_ok by done. cbn [rbind]. unfold movement_kind.
  rewrite (proj2 (Z.eqb_neq _ _) Hsi), Hrec, Z.eqb_refl. cbn [andb negb ok_or rbind check_movement move_value].
  unfold load_line_or. rewrite Hload. cbn [rbind ok_or].
  rewrite (proj2 (movement_allowed_spec ts a Redeem (it_sender t) l Hok Hl)).
  2:{ split; [done|]. by exists l. }
  cbn [rbind]. rewrite load_liability_held by done. cbn [rbind].
  pose proof (lo_nonneg _ _ _ (to_lines _ Hok _ _ _ Hl)) as Hnn.
  assert (0 <= load_issued_offer_reserve ts (it_sender t) a) as Hrn.
  { unfold load_issued_offer_reserve. destruct (reserves ts !! _) as [m|] eqn:Em; [|done]. cbn.
    pose proof (vo_reserve _ (to_value _ Hok) _ _ Em). lia. }
  assert (tl_balance l <= held ts (asset_key a)) as Hheld.
  { unfold held, held_in. etransitivity; [|apply (msum_lookup_le _ (it_sender t, asset_key a) l); [|exact Hl]].
    - cbn. by rewrite bool_decide_eq_true_2.
    - intros [h' k'] l' Hl'. case_bool_decide; [|done]. apply (lo_nonneg _ _ _ (to_lines _ Hok _ _ _ Hl')). }
  assert (checked_sub (tl_balance l) (it_amount t) = Some (tl_balance l - it_amount t)) as -> by (apply checked_sub_Some; lia).
  assert (checked_sub (held ts (asset_key a)) (it_amount t) = Some (held ts (asset_key a) - it_amount t)) as -> by (apply checked_sub_Some; lia).
  cbn [ok_or rbind]. unfold put_live.
  pose proof (lo_valid _ _ _ (to_lines _ Hok _ _ _ Hl)) as (V1 & V2 & V3 & V4)%validate_line_inv.
  rewrite (proj2 (validate_line_inv (with_balance l _))); [by do 2 eexists|].
  cbn. split; [done|]. split; [done|]. split; [lia|done].
Qed.
End safety.

(** ** A concrete issuer

    Account 1 issues an asset it requires authorization for and has renounced
    freezing; accounts 2 and 3 hold it. *)

Lemma empty_trust_ok {Auth} `{TrustLane Auth} : trust_ok empty_trust.
Proof.
  split; cbn.
  - intros h k l Hl. by rewrite lookup_empty in Hl.
  - split; unfold holder_ids, issuer_ids; cbn; intros; rewrite ?lookup_empty in *; try done.
    + split; [constructor|cbn; lia].
    + split; [by intros ?%elem_of_nil|by intros [? [=]]].
    + split; [constructor|cbn; lia].
    + split; [by intros ?%elem_of_nil|by intros [? [=]]].
  - split; unfold liab_of, held, bal_of; cbn; intros; rewrite ?lookup_empty in *; try done.
  - split; cbn; intros; by rewrite lookup_empty in *.
Qed.
Definition accept_trust {A : Type} (s : StateStore) (ps : PolicyStore) (tx : A) (auth : unit) : result StateError unit := Ok tt.
Definition demo_asset_key (a : IssuedAssetId) : Hash := Zpos (encode a).
#[export] Instance demo_lane : TrustLane unit := {|
  asset_key := demo_asset_key;
  authorize_trust_line_set := accept_trust;
  authorize_issued_transfer := accept_trust;
  authorize_policy_set := accept_trust;
  authorize_issuer_control := accept_trust;
  authorize_clawback := accept_trust;
  issued_transfer_tx_id := fun t => 1000 + it_nonce t;
  policy_set_tx_id := fun t => 2000 + ap_nonce t;
  issuer_control_tx_id := fun t => 3000 + ic_nonce t;
  clawback_tx_id := fun t => 4000 + cb_nonce t |}.
Lemma demo_key_inj (a a' : IssuedAssetId) : @asset_key unit demo_lane a = @asset_key unit demo_lane a' -> a = a'.
Proof. cbn. unfold demo_asset_key. intros [= H]. by apply (inj encode) in H. Qed.

Definition demo_currency : IssuedCurrencyCode := [85; 83; 68] ++ replicate 17 0.
Definition demo_asset : IssuedAssetId := {| ia_issuer := 1; ia_currency := demo_currency |}.
Definition demo_accounts : StateStore :=
  write_batch empty_store
    [PutAccount DRC 1 {| balance := 1000; nonce := 0 |}; PutAccount DRC 2 {| balance := 1000; nonce := 0 |};
     PutAccount DRC 3 {| balance := 1000; nonce := 0 |}].
Lemma demo_accounts_ok : accounts_ok demo_accounts.
Proof.
  assert (forall x a, in_u64 (balance (acct_of demo_accounts x a)) /\ in_u64 (nonce (acct_of demo_accounts x a))) as Ha.
  { intros x a. unfold demo_accounts. rewrite !write_batch_cons. change (write_batch ?t []) with t. rewrite !acct_of_put.
    change (acct_of empty_store x a) with default_account. repeat case_bool_decide; cbn; unfold_ints; lia. }
  split; [done|..].
  - intros o r Hr. change (st_tickets demo_accounts) with (∅ : gmap Z DrcAccountTickets) in Hr. by rewrite lookup_empty in Hr.
  - intros o t Ht. unfold tickets_of in Ht. change (st_tickets demo_accounts) with (∅ : gmap Z DrcAccountTickets) in Ht.
    rewrite lookup_empty in Ht. by apply elem_of_nil in Ht.
Qed.
Definition demo_line (holder limit nonce_ : Z) : TrustTx :=
  SetTrustLine {| ts_version := 1; ts_holder := holder; ts_issuer := 1; ts_currency := demo_currency; ts_limit := limit; ts_fee := 1;
    ts_nonce := nonce_; ts_account_sequence := None; ts_public_key := []; ts_signature := [] |}.
Definition demo_policy (act : DrcIssuedAssetPolicyAction) (nonce_ : Z) : TrustTx :=
  SetPolicy {| ap_version := 1; ap_issuer := 1; ap_currency := demo_currency; ap_action := act; ap_fee := 1; ap_nonce := nonce_;
    ap_account_sequence := None; ap_public_key := []; ap_signature := [] |}.
Definition demo_authorize (holder nonce_ : Z) : TrustTx :=
  ControlLine {| ic_version := 1; ic_issuer := 1; ic_holder := holder; ic_currency := demo_currency; ic_action := AuthorizeHolder;
    ic_fee := 1; ic_nonce := nonce_; ic_account_sequence := None; ic_public_key := []; ic_signature := [] |}.
Definition demo_send (sender recipient amount nonce_ : Z) : DrcIssuedTransferTx :=
  {| it_version := 1; it_sender := sender; it_recipient := recipient; it_issuer := 1; it_currency := demo_currency; it_amount := amount;
     it_fee := 1; it_destination_tag := None; it_source_tag := None; it_invoice_id := 0; it_nonce := nonce_;
     it_account_sequence := None; it_public_key := []; it_signature := [] |}.
Definition open_policies : PolicyStore := {| policies := ∅; preauths := ∅ |}.
Definition demo_start : TrustState := {| tr_base := demo_accounts; tr_trust := empty_trust |}.
Definition demo_block : list (TrustTx * unit) :=
  (fun tx => (tx, tt)) <$>
  [demo_policy EnableRequireAuth 0; demo_line 2 100 0; demo_line 3 100 0; demo_authorize 2 1; demo_authorize 3 2;
   demo_policy EnableNoFreeze 3; TransferIssued (demo_send 1 2 50 4); TransferIssued (demo_send 1 3 30 5)].
Definition demo_out := run_trust open_policies demo_start demo_block 9.
Definition demo_issued : TrustState := match demo_out with Ok (st, _) => st | Err _ => demo_start end.
Definition demo_journal : list TrustOp := match demo_out with Ok (_, j) => j | Err _ => [] end.
Lemma demo_run : demo_out = Ok (demo_issued, demo_journal).
Proof.
  assert (match demo_out with Ok _ => True | Err _ => False end) as H by (vm_compute; exact I).
  unfold demo_issued, demo_journal. by destruct demo_out as [[]|].
Qed.
Lemma demo_start_ok : lane_ok demo_start.
Proof. split; [apply demo_accounts_ok|apply empty_trust_ok]. Qed.
Lemma demo_ints : Forall (fun x => trust_ints x.1) demo_block.
Proof. unfold demo_block, demo_line, demo_policy, demo_authorize, demo_send. cbn [fmap list_fmap]. repeat (apply Forall_cons; split; [cbn; unfold_ints; lia|]). constructor. Qed.
Lemma demo_reached : rtc (trust_step open_policies) demo_start demo_issued.
Proof. exact (run_trust_rtc _ _ _ _ _ _ demo_ints demo_run). Qed.
Lemma demo_issued_ok : lane_ok demo_issued.
Proof. exact (run_ok demo_key_inj _ _ _ demo_start_ok demo_reached). Qed.

Lemma issued_value_backed_witness :
  load_drc_issuer_liability (tr_trust demo_issued) demo_asset = Ok 80 /\
  sum_holder_balances_for_asset (tr_trust demo_issued) demo_asset = Ok 80.
Proof.
  destruct (issued_value_backed demo_key_inj open_policies demo_start demo_issued demo_asset demo_start_ok demo_reached)
    as [(total & H1 & H2 & _) _].
  assert (load_drc_issuer_liability (tr_trust demo_issued) demo_asset = Ok 80) as H by (vm_compute; reflexivity).
  rewrite H in H1. injection H1 as <-. split; [exact H|exact H2].
Defined.
Definition demo_transfer_out := apply_trust_tx open_policies demo_issued (TransferIssued (demo_send 2 3 20 1)) tt 10.
Lemma issued_transfer_correct_witness :
  exists st' before, demo_transfer_out = Ok (st', before) /\
    bal_of (tr_trust st') (3, asset_key demo_asset) = bal_of (tr_trust demo_issued) (3, asset_key demo_asset) + 20.
Proof.
  assert (match demo_transfer_out with Ok _ => True | Err _ => False end) as Hrun by (vm_compute; exact I).
  destruct demo_transfer_out as [[st' before]|] eqn:E; [|destruct Hrun]. exists st', before. split; [reflexivity|].
  destruct (issued_transfer_correct open_policies demo_issued (demo_send 2 3 20 1) tt 10 st' before demo_issued_ok ltac:(cbn; lia) E)
    as (_ & _ & kind & Hk & Hb & _). vm_compute in Hk. injection Hk as <-. rewrite Hb. f_equal.
Defined.
Lemma authorization_only_by_issuer_witness :
  exists st' before, apply_trust_tx open_policies demo_issued (demo_line 3 90 1) tt 10 = Ok (st', before) /\
    require_auth (policy_of (tr_trust st') demo_asset) = true.
Proof.
  set (out := apply_trust_tx open_policies demo_issued (demo_line 3 90 1) tt 10).
  assert (match out with Ok _ => True | Err _ => False end) as Hrun by (vm_compute; exact I).
  destruct out as [[st' before]|] eqn:E; [|destruct Hrun]. exists st', before. split; [reflexivity|].
  apply (authorization_only_by_issuer demo_key_inj open_policies demo_issued (demo_line 3 90 1) tt 10 st' before 3 demo_asset demo_issued_ok);
    [cbn; unfold_ints; lia|exact E|vm_compute; reflexivity].
Defined.
Lemma no_freeze_is_final_witness :
  no_freeze (policy_of (tr_trust demo_issued) demo_asset) = true /\
  global_freeze (policy_of (tr_trust demo_issued) demo_asset) = false.
Proof.
  destruct (no_freeze_is_final demo_key_inj open_policies demo_issued demo_issued demo_asset demo_issued_ok)
    as (H1 & H2 & _); [vm_compute; reflexivity|constructor|]. split; [exact H1|exact H2].
Defined.
Lemma balance_falls_by_consent_witness :
  exists st' before n, demo_transfer_out = Ok (st', before) /\
    bal_of (tr_trust st') (2, asset_key demo_asset) = bal_of (tr_trust demo_issued) (2, asset_key demo_asset) - n.
Proof.
  assert (match demo_transfer_out with Ok (st', _) =>
      (bal_of (tr_trust st') (2, asset_key demo_asset) <? bal_of (tr_trust demo_issued) (2, asset_key demo_asset)) = true
    | Err _ => False end) as Hrun by (vm_compute; reflexivity).
  destruct demo_transfer_out as [[st' before]|] eqn:E; [|destruct Hrun]. exists st', before.
  destruct (balance_falls_by_consent demo_key_inj open_policies demo_issued (TransferIssued (demo_send 2 3 20 1)) tt 10 st' before 2 demo_asset
    demo_issued_ok) as (n & Hn & _); [cbn; lia|exact E|apply Z.ltb_lt; exact Hrun|]. exists n. split; [reflexivity|exact Hn].
Defined.
Lemma trust_journal_roundtrip_witness : revert_trust_meta (tr_trust demo_issued) demo_journal = empty_trust.
Proof.
  exact (trust_journal_roundtrip demo_key_inj open_policies demo_start demo_block 9 demo_issued demo_journal demo_start_ok demo_ints demo_run).
Defined.
Lemma trust_open_policies_ok : policies_ok open_policies.
Proof. split; cbn; intros *; by rewrite lookup_empty. Qed.
Definition demo_holding : DrcTrustLineLive :=
  default (new_line empty_trust {| ts_version := 1; ts_holder := 2; ts_issuer := 1; ts_currency := demo_currency; ts_limit := 1; ts_fee := 1;
    ts_nonce := 0; ts_account_sequence := None; ts_public_key := []; ts_signature := [] |})
    (lines (tr_trust demo_issued) !! (2, asset_key demo_asset)).
Lemma holder_can_redeem_witness :
  exists st' before, apply_trust_tx open_policies demo_issued (TransferIssued (demo_send 2 1 50 1)) tt 10 = Ok (st', before).
Proof.
  apply (holder_can_redeem demo_key_inj open_policies demo_issued (demo_send 2 1 50 1) tt 10 demo_holding demo_issued_ok trust_open_policies_ok);
    try (vm_compute; reflexivity).
  - assert ((50 <=? tl_balance demo_holding - load_issued_offer_reserve (tr_trust demo_issued) 2 demo_asset) = true) as H%Z.leb_le
      by (vm_compute; reflexivity). exact H.
  - assert ((1 <=? balance (acct_of (tr_base demo_issued) DRC 2)) = true) as H%Z.leb_le by (vm_compute; reflexivity). exact H.
  - unfold op_seq_ready. cbn [it_version it_sender demo_send Z.leb Z.compare Pos.compare Pos.compare_cont it_nonce].
    assert (nonce (acct_of (tr_base demo_issued) DRC 2) = 1) as Hn by (vm_compute; reflexivity). rewrite Hn. split; [reflexivity|unfold u64_max; lia].
  - intros H. vm_compute in H. discriminate H.
Defined.
