(* ===== verification/Offer.v ===== *)
(** * The DRC order book

    [types/src/drc_offer.rs], [state-machine/src/drc_offer.rs].  An offer sells
    one asset for another; a new offer first crosses the resting offers of the
    opposite book, best rate and oldest first, and what is left may rest.  What a
    resting offer sells is set aside when it is placed: native DRC leaves the
    account, issued units are reserved on the owner's line.

    The crossing works on [Working], a cache of every record it reads: a record
    is loaded from the store once, changes are made in the cache, and [flush]
    writes the cache back as one batch.  The functions are written in a state
    and error monad over that cache. *)

From stdpp Require Import base gmap list fin_maps strings.
From Stdlib Require Import ZArith Lia.
From S2P Require Import Prelude Ordering Sums Types Finality Store Supply Accounts Objects Policy Trust.
Local Open Scope Z_scope.

Definition DRC_MAX_LIVE_OFFERS_PER_ACCOUNT : nat := 32.
Definition DRC_MAX_OFFERS_PER_BOOK : nat := 256.
Definition DRC_MAX_OFFER_MATCHES_PER_TX : nat := 16.
Definition DRC_MAX_OFFER_MATCHES_PER_BLOCK : nat := 64.
Definition DRC_OFFER_LIVE_STATE_VERSION : Z := 1.
Definition DRC_OFFER_CREATE_TICKET_VERSION : Z := 2.
Definition DRC_OFFER_CANCEL_TICKET_VERSION : Z := 2.
Definition DRC_OFFER_MAX_BLUE_SCORE_BOUND : Z := u64_max - 1.

(** ** Books and rates *)

Inductive DrcBookAsset := NativeDrc | Issued (a : IssuedAssetId).
#[export] Instance DrcBookAsset_eq_dec : EqDecision DrcBookAsset.
Proof. solve_decision. Defined.
Definition validate_book_asset (x : DrcBookAsset) : result string unit :=
  match x with
  | NativeDrc => Ok tt
  | Issued a => match validate_asset a with Ok u => Ok u | Err _ => Err "native DRC is not an issued asset"%string end
  end.
Definition is_native (x : DrcBookAsset) : bool := match x with NativeDrc => true | Issued _ => false end.
Definition issued (x : DrcBookAsset) : option IssuedAssetId := match x with NativeDrc => None | Issued a => Some a end.

Record DrcOfferBook := { bk_pays : DrcBookAsset; bk_gets : DrcBookAsset }.
#[export] Instance DrcOfferBook_eq_dec : EqDecision DrcOfferBook.
Proof. solve_decision. Defined.
Definition validate_book (b : DrcOfferBook) : result string unit :=
  validate_book_asset (bk_pays b) ;?
  validate_book_asset (bk_gets b) ;?
  ensure (negb (bool_decide (bk_pays b = bk_gets b))) "offer book must exchange two distinct assets"%string.
Definition opposite (b : DrcOfferBook) : DrcOfferBook := {| bk_pays := bk_gets b; bk_gets := bk_pays b |}.

Inductive DrcOfferFillMode := Buy | Sell.
Definition fill_mode_from_u8 (v : Z) : result string DrcOfferFillMode :=
  if v =? 1 then Ok Buy else if v =? 2 then Ok Sell else Err "unsupported offer fill mode"%string.
Inductive DrcOfferTimeInForce := GoodTillCancel | ImmediateOrCancel | FillOrKill.
#[export] Instance DrcOfferTimeInForce_eq_dec : EqDecision DrcOfferTimeInForce.
Proof. solve_decision. Defined.
Definition time_in_force_from_u8 (v : Z) : result string DrcOfferTimeInForce :=
  if v =? 1 then Ok GoodTillCancel else if v =? 2 then Ok ImmediateOrCancel else if v =? 3 then Ok FillOrKill
  else Err "unsupported offer time in force"%string.

(** Products of two [u64] fit in [u128]. *)
Definition offer_quality_better (gets_a pays_a gets_b pays_b : Z) : bool := gets_b * pays_a <? gets_a * pays_b.
Definition offers_cross (taker_gets taker_pays maker_gets maker_pays : Z) : bool :=
  if (taker_gets =? 0) || (taker_pays =? 0) || (maker_gets =? 0) || (maker_pays =? 0) then false
  else maker_pays * taker_pays <=? taker_gets * maker_gets.
Definition div_ceil (a b : Z) : Z := a / b + if a mod b =? 0 then 0 else 1.
Definition offer_fill_step (maker_gets maker_pays want_out budget_in : Z) : option (Z * Z) :=
  if (maker_gets =? 0) || (maker_pays =? 0) || (want_out =? 0) || (budget_in =? 0) then None
  else
    let want := Z.min want_out maker_gets in
    let budget := Z.min budget_in maker_pays in
    let out := Z.min want (budget * maker_gets / maker_pays) in
    if out =? 0 then None
    else
      let input := div_ceil (out * maker_pays) maker_gets in
      if (input =? 0) || (budget <? input) || (maker_pays <? input) then None
      else Some (as_u64 out, as_u64 input).
Definition validate_expiration (bound : option Z) : result string unit :=
  match bound with
  | Some score => ensure (negb ((score =? 0) || (DRC_OFFER_MAX_BLUE_SCORE_BOUND <? score))) "offer expiration is out of range"%string
  | None => Ok tt
  end.

(** ** Envelopes and records *)

Record DrcOfferCreateTx := {
  oc_version : Z;
  oc_owner : Address;
  oc_taker_pays : DrcBookAsset;
  oc_taker_pays_amount : Z;
  oc_taker_gets : DrcBookAsset;
  oc_taker_gets_amount : Z;
  oc_fill_mode : Z;
  oc_time_in_force : Z;
  oc_fee : Z;
  oc_expires_after : option Z;
  oc_nonce : Z;
  oc_account_sequence : option DrcAccountSequenceSelector;
  oc_public_key : list Z;
  oc_signature : list Z;
}.
Definition oc_book (tx : DrcOfferCreateTx) : DrcOfferBook := {| bk_pays := oc_taker_pays tx; bk_gets := oc_taker_gets tx |}.
Definition validate_offer_envelope (version : Z) (sel : option DrcAccountSequenceSelector) : result string unit :=
  ensure ((version =? 1) || (version =? 2)) "unsupported DRC offer version"%string ;?
  ensure (negb ((version <? 2) && has_ticket_selector sel)) "ticket selector on legacy DRC offer version"%string.
Definition validate_offer_create (tx : DrcOfferCreateTx) : result string unit :=
  validate_offer_envelope (oc_version tx) (oc_account_sequence tx) ;?
  ensure (negb (oc_owner tx =? 0)) "zero address"%string ;?
  ensure (negb ((oc_taker_pays_amount tx =? 0) || (oc_taker_gets_amount tx =? 0))) "offer amount must be positive"%string ;?
  validate_book (oc_book tx) ;?
  let? _ := fill_mode_from_u8 (oc_fill_mode tx) in
  let? _ := time_in_force_from_u8 (oc_time_in_force tx) in
  validate_expiration (oc_expires_after tx).
Record DrcOfferCancelTx := {
  ox_version : Z;
  ox_submitter : Address;
  ox_offer_id : Hash;
  ox_fee : Z;
  ox_nonce : Z;
  ox_account_sequence : option DrcAccountSequenceSelector;
  ox_public_key : list Z;
  ox_signature : list Z;
}.
Definition validate_offer_cancel (tx : DrcOfferCancelTx) : result string unit :=
  validate_offer_envelope (ox_version tx) (ox_account_sequence tx) ;?
  ensure (negb ((ox_submitter tx =? 0) || (ox_offer_id tx =? 0))) "zero address"%string.

Record DrcOfferLive := {
  of_version : Z;
  of_offer_id : Hash;
  of_owner : Address;
  of_taker_pays : DrcBookAsset;
  of_taker_pays_original : Z;
  of_taker_pays_remaining : Z;
  of_taker_gets : DrcBookAsset;
  of_taker_gets_original : Z;
  of_taker_gets_remaining : Z;
  of_fill_mode : Z;
  of_book_sequence : Z;
  of_create_blue_score : Z;
  of_expires_after : option Z;
  of_native_locked : Z;
}.
Definition of_book (o : DrcOfferLive) : DrcOfferBook := {| bk_pays := of_taker_pays o; bk_gets := of_taker_gets o |}.
Definition validate_offer_live (o : DrcOfferLive) : result string unit :=
  ensure (of_version o =? DRC_OFFER_LIVE_STATE_VERSION) "unsupported DRC offer version"%string ;?
  ensure (negb ((of_owner o =? 0) || (of_offer_id o =? 0))) "zero address"%string ;?
  ensure (negb ((of_taker_pays_original o =? 0) || (of_taker_gets_original o =? 0) || (of_taker_pays_remaining o =? 0) ||
                (of_taker_gets_remaining o =? 0) || (of_taker_pays_original o <? of_taker_pays_remaining o) ||
                (of_taker_gets_original o <? of_taker_gets_remaining o))) "malformed live offer"%string ;?
  validate_book (of_book o) ;?
  let? _ := fill_mode_from_u8 (of_fill_mode o) in
  validate_expiration (of_expires_after o) ;?
  if is_native (of_taker_gets o)
  then ensure (of_native_locked o =? of_taker_gets_remaining o) "malformed live offer"%string
  else ensure (of_native_locked o =? 0) "malformed live offer"%string.
Definition expired_at (o : DrcOfferLive) (score : Z) : bool :=
  match of_expires_after o with Some bound => bound <? score | None => false end.
Definition with_remaining (o : DrcOfferLive) (gets pays locked : Z) : DrcOfferLive :=
  {| of_version := of_version o; of_offer_id := of_offer_id o; of_owner := of_owner o; of_taker_pays := of_taker_pays o;
     of_taker_pays_original := of_taker_pays_original o; of_taker_pays_remaining := pays; of_taker_gets := of_taker_gets o;
     of_taker_gets_original := of_taker_gets_original o; of_taker_gets_remaining := gets; of_fill_mode := of_fill_mode o;
     of_book_sequence := of_book_sequence o; of_create_blue_score := of_create_blue_score o;
     of_expires_after := of_expires_after o; of_native_locked := locked |}.

Inductive DrcOfferCancelOutcome := Removed | AbsentOffer.
Record DrcOfferCreateReceipt := {
  or_version : Z; or_offer_id : Hash; or_owner : Address; or_placed : bool; or_fully_filled : bool;
  or_taker_paid : Z; or_taker_received : Z; or_steps : Z; or_self_cross_cancelled : Z;
  or_removed_offer_ids : list Hash; or_fee : Z; or_settlement_blue_score : Z;
}.
Record DrcOfferCancelReceipt := {
  oxr_version : Z; oxr_cancel_tx_id : Hash; oxr_offer_id : Hash; oxr_submitter : Address;
  oxr_outcome : DrcOfferCancelOutcome; oxr_fee : Z; oxr_settlement_blue_score : Z;
}.
Record BookIndex := { bi_version : Z; bi_book_key : Hash; bi_live_ids : list Hash }.

Record OfferStore := {
  live_offers : gmap Hash DrcOfferLive;
  offer_owners : gmap Address OwnerIndex;
  offer_books : gmap Hash BookIndex;
  offer_sequence : option Z;
  create_receipts : gmap Hash DrcOfferCreateReceipt;
  cancel_receipts : gmap Hash DrcOfferCancelReceipt;
}.
Definition empty_offers : OfferStore :=
  {| live_offers := ∅; offer_owners := ∅; offer_books := ∅; offer_sequence := None; create_receipts := ∅; cancel_receipts := ∅ |}.
Inductive OfferKey :=
| OKLive (id : Hash) | OKOwner (a : Address) | OKBook (k : Hash) | OKSequence | OKCreate (id : Hash) | OKCancel (id : Hash).
Inductive OfferOp :=
| PutOffer (id : Hash) (o : DrcOfferLive)
| PutOfferOwner (a : Address) (r : OwnerIndex)
| PutOfferBook (k : Hash) (r : BookIndex)
| PutSequence (n : Z)
| PutCreateReceipt (id : Hash) (r : DrcOfferCreateReceipt)
| PutCancelReceipt (id : Hash) (r : DrcOfferCancelReceipt)
| DeleteOffer (key : OfferKey).
Definition apply_offer_op (os : OfferStore) (op : OfferOp) : OfferStore :=
  let '(Build_OfferStore l w b q c x) := os in
  match op with
  | PutOffer id o => Build_OfferStore (<[id := o]> l) w b q c x
  | PutOfferOwner a r => Build_OfferStore l (<[a := r]> w) b q c x
  | PutOfferBook k r => Build_OfferStore l w (<[k := r]> b) q c x
  | PutSequence n => Build_OfferStore l w b (Some n) c x
  | PutCreateReceipt id r => Build_OfferStore l w b q (<[id := r]> c) x
  | PutCancelReceipt id r => Build_OfferStore l w b q c (<[id := r]> x)
  | DeleteOffer (OKLive id) => Build_OfferStore (delete id l) w b q c x
  | DeleteOffer (OKOwner a) => Build_OfferStore l (delete a w) b q c x
  | DeleteOffer (OKBook k) => Build_OfferStore l w (delete k b) q c x
  | DeleteOffer OKSequence => Build_OfferStore l w b None c x
  | DeleteOffer (OKCreate id) => Build_OfferStore l w b q (delete id c) x
  | DeleteOffer (OKCancel id) => Build_OfferStore l w b q c (delete id x)
  end.
Definition write_offers (os : OfferStore) (ops : list OfferOp) : OfferStore := foldl apply_offer_op os ops.
Definition undo_offer (os : OfferStore) (key : OfferKey) : OfferOp :=
  match key with
  | OKLive id => match live_offers os !! id with Some v => PutOffer id v | None => DeleteOffer key end
  | OKOwner a => match offer_owners os !! a with Some v => PutOfferOwner a v | None => DeleteOffer key end
  | OKBook k => match offer_books os !! k with Some v => PutOfferBook k v | None => DeleteOffer key end
  | OKSequence => match offer_sequence os with Some v => PutSequence v | None => DeleteOffer key end
  | OKCreate id => match create_receipts os !! id with Some v => PutCreateReceipt id v | None => DeleteOffer key end
  | OKCancel id => match cancel_receipts os !! id with Some v => PutCancelReceipt id v | None => DeleteOffer key end
  end.

(** ** Priority *)

Definition compare_offers (l r : DrcOfferLive) : comparison :=
  if offer_quality_better (of_taker_gets_original l) (of_taker_pays_original l)
       (of_taker_gets_original r) (of_taker_pays_original r) then Lt
  else if offer_quality_better (of_taker_gets_original r) (of_taker_pays_original r)
       (of_taker_gets_original l) (of_taker_pays_original l) then Gt
  else match Z.compare (of_book_sequence l) (of_book_sequence r) with
       | Eq => Z.compare (of_offer_id l) (of_offer_id r)
       | c => c
       end.
Definition sort_book (offers : list DrcOfferLive) : list DrcOfferLive := sort_by compare_offers offers.
Definition bump_steps (steps cap : nat) : result StateError nat :=
  ensure (negb (Nat.ltb cap (S steps))) (InvalidTx "DRC offer match cap exceeded") ;? Ok (S steps).
Definition taker_done (mode : DrcOfferFillMode) (pays_remaining gets_remaining : Z) : bool :=
  match mode with Buy => pays_remaining =? 0 | Sell => gets_remaining =? 0 end.

(** ** The working set *)

(** The loaded records of a family and which of them have changed. *)
Record Cache (K V : Type) `{Countable K} := { cached : gmap K V; dirty : gset K }.
Arguments cached {_ _ _ _} _.
Arguments dirty {_ _ _ _} _.
Section cache.
Context {K V : Type} `{Countable K}.
Definition empty_cache : Cache K V := {| cached := ∅; dirty := ∅ |}.
Definition cache_load (c : Cache K V) (k : K) (v : V) : Cache K V := {| cached := <[k := v]> (cached c); dirty := dirty c |}.
Definition cache_write (c : Cache K V) (k : K) (v : V) : Cache K V :=
  {| cached := <[k := v]> (cached c); dirty := {[k]} ∪ dirty c |}.
End cache.

Record Working := {
  w_accounts : gmap Address AccountState;
  w_originals : gmap Address AccountState;
  w_lines : Cache (Address * IssuedAssetId) DrcTrustLineLive;
  w_liability : Cache IssuedAssetId Z;
  w_reserve : Cache (Address * IssuedAssetId) Z;
  w_offers : gmap Hash DrcOfferLive;
  w_deleted : gset Hash;
  w_owners : Cache Address (list Hash);
  w_books : Cache Hash (DrcOfferBook * list Hash);
  w_sequence : Z;
  w_sequence_dirty : bool;
}.
Definition set_accounts (w : Working) accounts originals : Working :=
  {| w_accounts := accounts; w_originals := originals; w_lines := w_lines w; w_liability := w_liability w; w_reserve := w_reserve w;
     w_offers := w_offers w; w_deleted := w_deleted w; w_owners := w_owners w; w_books := w_books w;
     w_sequence := w_sequence w; w_sequence_dirty := w_sequence_dirty w |}.
Definition set_lines (w : Working) c : Working :=
  {| w_accounts := w_accounts w; w_originals := w_originals w; w_lines := c; w_liability := w_liability w; w_reserve := w_reserve w;
     w_offers := w_offers w; w_deleted := w_deleted w; w_owners := w_owners w; w_books := w_books w;
     w_sequence := w_sequence w; w_sequence_dirty := w_sequence_dirty w |}.
Definition set_liability (w : Working) c : Working :=
  {| w_accounts := w_accounts w; w_originals := w_originals w; w_lines := w_lines w; w_liability := c; w_reserve := w_reserve w;
     w_offers := w_offers w; w_deleted := w_deleted w; w_owners := w_owners w; w_books := w_books w;
     w_sequence := w_sequence w; w_sequence_dirty := w_sequence_dirty w |}.
Definition set_reserve (w : Working) c : Working :=
  {| w_accounts := w_accounts w; w_originals := w_originals w; w_lines := w_lines w; w_liability := w_liability w; w_reserve := c;
     w_offers := w_offers w; w_deleted := w_deleted w; w_owners := w_owners w; w_books := w_books w;
     w_sequence := w_sequence w; w_sequence_dirty := w_sequence_dirty w |}.
Definition set_offers (w : Working) offers deleted : Working :=
  {| w_accounts := w_accounts w; w_originals := w_originals w; w_lines := w_lines w; w_liability := w_liability w; w_reserve := w_reserve w;
     w_offers := offers; w_deleted := deleted; w_owners := w_owners w; w_books := w_books w;
     w_sequence := w_sequence w; w_sequence_dirty := w_sequence_dirty w |}.
Definition set_owners (w : Working) c : Working :=
  {| w_accounts := w_accounts w; w_originals := w_originals w; w_lines := w_lines w; w_liability := w_liability w; w_reserve := w_reserve w;
     w_offers := w_offers w; w_deleted := w_deleted w; w_owners := c; w_books := w_books w;
     w_sequence := w_sequence w; w_sequence_dirty := w_sequence_dirty w |}.
Definition set_books (w : Working) c : Working :=
  {| w_accounts := w_accounts w; w_originals := w_originals w; w_lines := w_lines w; w_liability := w_liability w; w_reserve := w_reserve w;
     w_offers := w_offers w; w_deleted := w_deleted w; w_owners := w_owners w; w_books := c;
     w_sequence := w_sequence w; w_sequence_dirty := w_sequence_dirty w |}.
Definition set_sequence (w : Working) n : Working :=
  {| w_accounts := w_accounts w; w_originals := w_originals w; w_lines := w_lines w; w_liability := w_liability w; w_reserve := w_reserve w;
     w_offers := w_offers w; w_deleted := w_deleted w; w_owners := w_owners w; w_books := w_books w;
     w_sequence := n; w_sequence_dirty := true |}.

(** [Working -> Result<(A, Working)>]. *)
Definition W (A : Type) : Type := Working -> result StateError (A * Working).
Definition wret {A} (a : A) : W A := fun w => Ok (a, w).
Definition werr {A} (e : StateError) : W A := fun _ => Err e.
Definition wbind {A B} (m : W A) (k : A -> W B) : W B := fun w => let? (a, w) := m w in k a w.
Definition wlift {A} (r : result StateError A) : W A := fun w => let? a := r in Ok (a, w).
Definition wupd (f : Working -> Working) : W unit := fun w => Ok (tt, f w).
Definition wget {A} (f : Working -> A) : W A := fun w => Ok (f w, w).
Notation "'let!' x := e 'in' k" := (wbind e (fun x => k)) (at level 10, x pattern, e at level 200, k at level 200) : agora_scope.
Notation "e ';!' k" := (wbind e (fun _ => k)) (at level 199, k at level 200) : agora_scope.

Inductive Cross := Fill (paid received : Z) | RemoveMaker | Skip | Stop.
Inductive TransferGate := Done | SkipGate.
Definition is_err_skip (g : TransferGate) : bool := match g with SkipGate => true | Done => false end.

(** What the lane takes from outside, besides what trust lines do. *)
Class OfferLane (Auth : Type) := {
  authorize_offer_create : StateStore -> PolicyStore -> DrcOfferCreateTx -> Auth -> result StateError unit;
  authorize_offer_cancel : StateStore -> PolicyStore -> DrcOfferCancelTx -> Auth -> result StateError unit;
  book_key : DrcOfferBook -> Hash;
  offer_id : DrcOfferCreateTx -> Hash;
  cancel_tx_id : DrcOfferCancelTx -> Hash;
}.

Section offer.
Context {Auth : Type} `{TL : TrustLane Auth} `{OL : OfferLane Auth}.
(** The stores the working set reads through to. *)
Variables (s : StateStore) (ts : TrustStore) (os : OfferStore).

Definition load_drc_offer_live (id : Hash) : result StateError (option DrcOfferLive) :=
  match live_offers os !! id with
  | None => Ok None
  | Some o =>
      lift_storage (validate_offer_live o) ;?
      ensure (of_offer_id o =? id) (Storage "DRC offer live id does not match index key") ;?
      Ok (Some o)
  end.
Definition load_owner_ids (owner : Address) : result StateError (list Hash) :=
  match offer_owners os !! owner with
  | None => Ok []
  | Some r =>
      ensure ((oi_version r =? 1) && (oi_owner r =? owner)) (Storage "invalid DRC offer owner index") ;?
      Ok (oi_live_ids r)
  end.
Definition load_book (book : DrcOfferBook) : result StateError (list DrcOfferLive) :=
  match offer_books os !! book_key book with
  | None => Ok []
  | Some r =>
      ensure ((bi_version r =? 1) && (bi_book_key r =? book_key book)) (Storage "invalid DRC offer book index") ;?
      rfold (fun offers id =>
        let? live := load_drc_offer_live id in
        Ok (match live with Some o => offers ++ [o] | None => offers end)) [] (bi_live_ids r)
  end.

Definition working_new : Working :=
  {| w_accounts := ∅; w_originals := ∅; w_lines := empty_cache; w_liability := empty_cache; w_reserve := empty_cache;
     w_offers := ∅; w_deleted := ∅; w_owners := empty_cache; w_books := empty_cache;
     w_sequence := default 0 (offer_sequence os); w_sequence_dirty := false |}.

(** Reads, through the cache. *)
Definition account (owner : Address) : W AccountState := fun w =>
  match w_accounts w !! owner with
  | Some a => Ok (a, w)
  | None =>
      let? a := load_account s DRC owner in
      Ok (a, set_accounts w (<[owner := a]> (w_accounts w)) (<[owner := a]> (w_originals w)))
  end.
Definition put_account (owner : Address) (a : AccountState) : W unit :=
  wupd (fun w => set_accounts w (<[owner := a]> (w_accounts w)) (w_originals w)).
Definition line (holder : Address) (a : IssuedAssetId) : W (option DrcTrustLineLive) := fun w =>
  match cached (w_lines w) !! (holder, a) with
  | Some l => Ok (Some l, w)
  | None =>
      let? o := load_drc_trust_line_live ts holder a in
      match o with
      | Some l => Ok (Some l, set_lines w (cache_load (w_lines w) (holder, a) l))
      | None => Ok (None, w)
      end
  end.
Definition put_line (holder : Address) (a : IssuedAssetId) (l : DrcTrustLineLive) : W unit :=
  wupd (fun w => set_lines w (cache_write (w_lines w) (holder, a) l)).
Definition reserve_of (holder : Address) (a : IssuedAssetId) : W Z := fun w =>
  match cached (w_reserve w) !! (holder, a) with
  | Some v => Ok (v, w)
  | None =>
      let v := load_issued_offer_reserve ts holder a in
      Ok (v, set_reserve w (cache_load (w_reserve w) (holder, a) v))
  end.
Definition offer (id : Hash) : W (option DrcOfferLive) := fun w =>
  if decide (id ∈ w_deleted w) then Ok (None, w) else
  match w_offers w !! id with
  | Some o => Ok (Some o, w)
  | None =>
      let? live := load_drc_offer_live id in
      match live with
      | Some o => Ok (Some o, set_offers w (<[id := o]> (w_offers w)) (w_deleted w))
      | None => Ok (None, w)
      end
  end.
Definition owner_ids (owner : Address) : W (list Hash) := fun w =>
  match cached (w_owners w) !! owner with
  | Some ids => Ok (ids, w)
  | None =>
      let? ids := load_owner_ids owner in
      Ok (ids, set_owners w (cache_load (w_owners w) owner ids))
  end.
Definition remember_offers (loaded : list DrcOfferLive) (m : gmap Hash DrcOfferLive) : gmap Hash DrcOfferLive :=
  foldl (fun m o => match m !! of_offer_id o with Some _ => m | None => <[of_offer_id o := o]> m end) m loaded.
Definition load_book_ids (book : DrcOfferBook) : W unit := fun w =>
  match cached (w_books w) !! book_key book with
  | Some _ => Ok (tt, w)
  | None =>
      let? loaded := load_book book in
      Ok (tt, set_books (set_offers w (remember_offers loaded (w_offers w)) (w_deleted w))
                (cache_load (w_books w) (book_key book) (book, of_offer_id <$> loaded)))
  end.
Fixpoint collect_offers (ids : list Hash) : W (list DrcOfferLive) :=
  match ids with
  | [] => wret []
  | id :: ids =>
      let! o := offer id in
      let! rest := collect_offers ids in
      wret (match o with Some o => o :: rest | None => rest end)
  end.
Definition book_offers (book : DrcOfferBook) : W (list DrcOfferLive) :=
  load_book_ids book ;!
  let! ids := wget (fun w => default [] (snd <$> cached (w_books w) !! book_key book)) in
  collect_offers ids.

Definition debit_native (owner : Address) (amount : Z) : W unit :=
  if amount =? 0 then wret tt else
  let! a := account owner in
  wlift (ensure (negb (balance a <? amount)) (InvalidTx "insufficient DRC offer balance")) ;!
  put_account owner {| balance := balance a - amount; nonce := nonce a |}.
Definition credit_native (owner : Address) (amount : Z) : W unit :=
  if amount =? 0 then wret tt else
  let! a := account owner in
  let! b := wlift (ok_or (InvalidTx "DRC offer balance overflow") (checked_add u64_max (balance a) amount)) in
  put_account owner {| balance := b; nonce := nonce a |}.
Definition issued_policy (a : IssuedAssetId) : W DrcIssuedAssetPolicyLive := wlift (load_drc_issued_asset_policy ts a).

Definition seller_can_fund (owner : Address) (asset : DrcBookAsset) (amount : Z) : W bool :=
  if amount =? 0 then wret false else
  match asset with
  | NativeDrc => let! a := account owner in wret (amount <=? balance a)
  | Issued a =>
      if owner =? ia_issuer a then wret true else
      let! l := line owner a in
      match l with
      | None => wret false
      | Some l =>
          let! p := issued_policy a in
          let l := normalize_trust_line_live l p in
          if negb (tl_authorized l) || tl_line_deep_frozen l then wret false else
          let! reserved := reserve_of owner a in
          wret (amount <=? saturating_sub (tl_balance l) reserved)
      end
  end.
Definition write_reserve (holder : Address) (a : IssuedAssetId) (v : Z) : W unit :=
  wupd (fun w => set_reserve w (cache_write (w_reserve w) (holder, a) v)).
Definition add_reserve (holder : Address) (a : IssuedAssetId) (amount : Z) : W unit :=
  if amount =? 0 then wret tt else
  let! current := reserve_of holder a in
  let! next := wlift (ok_or (InvalidTx "DRC offer reserve overflow") (checked_add u64_max current amount)) in
  write_reserve holder a next.
Definition sub_reserve (holder : Address) (a : IssuedAssetId) (amount : Z) : W unit :=
  if amount =? 0 then wret tt else
  let! current := reserve_of holder a in
  wlift (ensure (negb (current <? amount)) (InvalidTx "DRC offer reserve underflow")) ;!
  write_reserve holder a (current - amount).
Definition alloc_sequence : W Z :=
  let! n := wget w_sequence in
  let! next := wlift (ok_or (InvalidTx "DRC offer sequence overflow") (checked_add u64_max n 1)) in
  wupd (fun w => set_sequence w next) ;!
  wret next.

(** Placing and removing an offer. *)
Definition book_length (book : DrcOfferBook) : W nat := fun w =>
  match cached (w_books w) !! book_key book with
  | Some (_, ids) => Ok (length ids, w)
  | None => let? loaded := load_book book in Ok (length loaded, w)
  end.
Definition push_new (id : Hash) (ids : list Hash) : list Hash := if decide (id ∈ ids) then ids else ids ++ [id].
Definition insert_offer (o : DrcOfferLive) : W unit :=
  wlift (lift_msg (validate_offer_live o)) ;!
  let! ids := owner_ids (of_owner o) in
  wlift (ensure (negb (Nat.leb DRC_MAX_LIVE_OFFERS_PER_ACCOUNT (length ids))) (InvalidTx "DRC live offer cap exceeded")) ;!
  let! n := book_length (of_book o) in
  wlift (ensure (negb (Nat.leb DRC_MAX_OFFERS_PER_BOOK n)) (InvalidTx "DRC offer book cap exceeded")) ;!
  wupd (fun w => set_offers w (<[of_offer_id o := o]> (w_offers w)) (w_deleted w ∖ {[of_offer_id o]})) ;!
  wupd (fun w => set_owners w (cache_write (w_owners w) (of_owner o)
    (push_new (of_offer_id o) (default [] (cached (w_owners w) !! of_owner o))))) ;!
  (fun w => match cached (w_books w) !! book_key (of_book o) with
            | Some _ => Ok (tt, w)
            | None =>
                let? loaded := load_book (of_book o) in
                Ok (tt, set_books w (cache_load (w_books w) (book_key (of_book o)) (of_book o, of_offer_id <$> loaded)))
            end) ;!
  wupd (fun w =>
    let entry := default (of_book o, []) (cached (w_books w) !! book_key (of_book o)) in
    set_books w (cache_write (w_books w) (book_key (of_book o)) (entry.1, push_new (of_offer_id o) entry.2))).
Definition persist_offer (o : DrcOfferLive) : W unit :=
  wlift (lift_msg (validate_offer_live o)) ;!
  wupd (fun w => set_offers w (<[of_offer_id o := o]> (w_offers w)) (w_deleted w)).
Definition reserve_new (live : DrcOfferLive) : W unit :=
  match of_taker_gets live with
  | NativeDrc =>
      debit_native (of_owner live) (of_taker_gets_remaining live) ;!
      insert_offer (with_remaining live (of_taker_gets_remaining live) (of_taker_pays_remaining live) (of_taker_gets_remaining live))
  | Issued a =>
      (if of_owner live =? ia_issuer a then wret tt else
       let! l := line (of_owner live) a in
       let! l := wlift (ok_or (InvalidTx "DRC offer owner is unfunded for the sell asset") l) in
       let! r := reserve_of (of_owner live) a in
       let reserved := as_u64 (r + of_taker_gets_remaining live) in
       wlift (ensure (negb (tl_balance l <? reserved)) (InvalidTx "DRC offer owner is unfunded for the sell asset")) ;!
       add_reserve (of_owner live) a (of_taker_gets_remaining live)) ;!
      insert_offer live
  end.
Definition drop_id (id : Hash) (ids : list Hash) : list Hash := filter (fun x => x <> id) ids.
(** The offer leaves the live offers, its owner's list and its book. *)
Definition unlist_offer (o : DrcOfferLive) : W unit :=
  wupd (fun w => set_offers w (delete (of_offer_id o) (w_offers w)) ({[of_offer_id o]} ∪ w_deleted w)) ;!
  let! ids := owner_ids (of_owner o) in
  wupd (fun w => set_owners w (cache_write (w_owners w) (of_owner o) (drop_id (of_offer_id o) ids))) ;!
  wupd (fun w =>
    let entry := match cached (w_books w) !! book_key (of_book o) with
                 | Some e => e
                 | None => (of_book o, match load_book (of_book o) with Ok l => of_offer_id <$> l | Err _ => [] end)
                 end in
    set_books w (cache_write (w_books w) (book_key (of_book o)) (entry.1, drop_id (of_offer_id o) entry.2))).
Definition release_offer (o : DrcOfferLive) : W unit :=
  (if 0 <? of_native_locked o then credit_native (of_owner o) (of_native_locked o) else wret tt) ;!
  match issued (of_taker_gets o) with
  | Some a => if of_owner o =? ia_issuer a then wret tt else sub_reserve (of_owner o) a (of_taker_gets_remaining o)
  | None => wret tt
  end ;!
  unlist_offer o.

(** ** Crossing *)

Definition bump_liability (a : IssuedAssetId) (amount : Z) (issue : bool) : W unit := fun w =>
  let? current := match cached (w_liability w) !! a with Some v => Ok v | None => load_drc_issuer_liability ts a end in
  let? next := (if issue then ok_or (InvalidTx "issuer liability overflow") (checked_add u64_max current amount)
                else ok_or (InvalidTx "issuer liability underflow") (checked_sub current amount)) in
  Ok (tt, set_liability w (cache_write (w_liability w) a next)).

(** Moves [amount], or only tells whether it could be moved when [dry]. *)
Definition transfer (from to : Address) (asset : DrcBookAsset) (amount : Z) (from_native_lock dry : bool) : W TransferGate :=
  if amount =? 0 then wret Done else
  match asset with
  | NativeDrc =>
      if from_native_lock then
        if dry then wret Done else credit_native to amount ;! wret Done
      else
        let! a := account from in
        if balance a <? amount then wret SkipGate else
        if dry then wret Done else
        debit_native from amount ;! credit_native to amount ;! wret Done
  | Issued i =>
      if (from =? ia_issuer i) && (to =? ia_issuer i) then
        werr (InvalidTx "DRC offer cannot move an issued asset to its issuer from the issuer")
      else
      let! p := issued_policy i in
      if from =? ia_issuer i then
        let! l := line to i in
        match l with
        | None => wret SkipGate
        | Some l =>
            let l := normalize_trust_line_live l p in
            if negb (is_ok (issued_movement_allowed p l Issue)) then wret SkipGate else
            let! room := wlift (lift_msg (available_limit l)) in
            if room <? amount then wret SkipGate else
            if dry then wret Done else
            let! b := wlift (ok_or (InvalidTx "issued balance overflow") (checked_add u64_max (tl_balance l) amount)) in
            put_line to i (with_balance l b) ;! bump_liability i amount true ;! wret Done
        end
      else if to =? ia_issuer i then
        let! l := line from i in
        match l with
        | None => wret SkipGate
        | Some l =>
            let l := normalize_trust_line_live l p in
            if negb (is_ok (issued_movement_allowed p l Redeem)) then wret SkipGate else
            if tl_balance l <? amount then wret SkipGate else
            if dry then wret Done else
            let! b := wlift (ok_or (InvalidTx "issued redeem exceeds balance") (checked_sub (tl_balance l) amount)) in
            put_line from i (with_balance l b) ;! bump_liability i amount false ;! wret Done
        end
      else
        let! sender := line from i in
        match sender with
        | None => wret SkipGate
        | Some sender =>
            let! recipient := line to i in
            match recipient with
            | None => wret SkipGate
            | Some recipient =>
                let sender := normalize_trust_line_live sender p in
                let recipient := normalize_trust_line_live recipient p in
                if negb (is_ok (issued_movement_allowed p sender HolderTransfer)) ||
                   negb (is_ok (issued_movement_allowed p recipient HolderTransfer)) then wret SkipGate else
                let! room := wlift (lift_msg (available_limit recipient)) in
                if (room <? amount) || (tl_balance sender <? amount) then wret SkipGate else
                if dry then wret Done else
                let! sb := wlift (ok_or (InvalidTx "issued transfer exceeds balance") (checked_sub (tl_balance sender) amount)) in
                let! rb := wlift (ok_or (InvalidTx "issued balance overflow") (checked_add u64_max (tl_balance recipient) amount)) in
                put_line from i (with_balance sender sb) ;! put_line to i (with_balance recipient rb) ;! wret Done
            end
        end
  end.

Definition deliverable (owner : Address) (asset : DrcBookAsset) (from_offer_lock : bool) (maker : DrcOfferLive) : W Z :=
  match asset with
  | NativeDrc =>
      if from_offer_lock && (of_owner maker =? owner) then wret (of_native_locked maker)
      else let! a := account owner in wret (balance a)
  | Issued i =>
      if owner =? ia_issuer i then wret u64_max else
      let! l := line owner i in
      match l with
      | None => wret 0
      | Some l =>
          let! reserved := reserve_of owner i in
          if from_offer_lock && (of_owner maker =? owner) && bool_decide (of_taker_gets maker = asset)
          then wret (Z.min (of_taker_gets_remaining maker) (tl_balance l))
          else wret (saturating_sub (tl_balance l) reserved)
      end
  end.
Definition maker_unfunded (maker : DrcOfferLive) : W Cross :=
  match of_taker_gets maker with
  | NativeDrc => wret RemoveMaker
  | Issued a =>
      if of_owner maker =? ia_issuer a then wret Skip else
      let! l := line (of_owner maker) a in
      match l with
      | None => wret RemoveMaker
      | Some l =>
          let! p := issued_policy a in
          let l := normalize_trust_line_live l p in
          wret (if negb (tl_authorized l) || tl_line_deep_frozen l || (tl_balance l =? 0) then RemoveMaker else Skip)
      end
  end.
Definition cross_one (taker : Address) (taker_gets taker_pays : DrcBookAsset) (maker : DrcOfferLive)
  (gets_remaining pays_remaining : Z) : W Cross :=
  if negb (offers_cross gets_remaining pays_remaining (of_taker_gets_remaining maker) (of_taker_pays_remaining maker))
  then wret Stop else
  let! maker_budget := deliverable (of_owner maker) (of_taker_gets maker) true maker in
  if maker_budget =? 0 then maker_unfunded maker else
  let! taker_budget := deliverable taker taker_gets false maker in
  if taker_budget =? 0 then wret Stop else
  let want := Z.min (Z.min pays_remaining (of_taker_gets_remaining maker)) maker_budget in
  let budget := Z.min (Z.min gets_remaining (of_taker_pays_remaining maker)) taker_budget in
  match offer_fill_step (of_taker_gets_remaining maker) (of_taker_pays_remaining maker) want budget with
  | None => wret RemoveMaker
  | Some (received, paid) =>
      let! pay_gate := transfer taker (of_owner maker) taker_gets paid false true in
      let! receive_gate := transfer (of_owner maker) taker taker_pays received true true in
      if is_err_skip pay_gate then wret Stop else
      if is_err_skip receive_gate then maker_unfunded maker else
      transfer taker (of_owner maker) taker_gets paid false false ;!
      transfer (of_owner maker) taker taker_pays received true false ;!
      let gets := of_taker_gets_remaining maker - received in
      let pays := of_taker_pays_remaining maker - paid in
      match of_taker_gets maker with
      | NativeDrc => wret tt
      | Issued a => if of_owner maker =? ia_issuer a then wret tt else sub_reserve (of_owner maker) a received
      end ;!
      let locked := if is_native (of_taker_gets maker) then saturating_sub (of_native_locked maker) received
                    else of_native_locked maker in
      wupd (fun w => set_offers w (<[of_offer_id maker := with_remaining maker gets pays locked]> (w_offers w)) (w_deleted w)) ;!
      wret (Fill paid received)
  end.

(** The state of the crossing loop. *)
Record Crossing := {
  cs_steps : nat;
  cs_removed : list Hash;
  cs_pays_remaining : Z;
  cs_gets_remaining : Z;
  cs_paid : Z;
  cs_received : Z;
  cs_stopped : bool;
}.
Fixpoint wfold {A B} (f : B -> A -> W B) (b : B) (l : list A) : W B :=
  match l with
  | [] => wret b
  | x :: l => let! b := f b x in wfold f b l
  end.
(** The owner's own offers that the new one would cross are withdrawn first. *)
Definition cancel_own (tx : DrcOfferCreateTx) (cap : nat) (acc : nat * list Hash) (id : Hash) : W (nat * list Hash) :=
  let '(steps, removed) := acc in
  let! o := offer id in
  match o with
  | None => wret acc
  | Some o =>
      if negb (bool_decide (of_book o = opposite (oc_book tx))) then wret acc else
      if negb (offers_cross (oc_taker_gets_amount tx) (oc_taker_pays_amount tx) (of_taker_gets_remaining o) (of_taker_pays_remaining o))
      then wret acc else
      let! steps := wlift (bump_steps steps cap) in
      release_offer o ;!
      wret (steps, removed ++ [id])
  end.
Definition cross_maker (tx : DrcOfferCreateTx) (mode : DrcOfferFillMode) (score : Z) (cap : nat) (c : Crossing) (m : DrcOfferLive) : W Crossing :=
  let stop := {| cs_steps := cs_steps c; cs_removed := cs_removed c; cs_pays_remaining := cs_pays_remaining c;
                 cs_gets_remaining := cs_gets_remaining c; cs_paid := cs_paid c; cs_received := cs_received c; cs_stopped := true |} in
  let remove (m : DrcOfferLive) (steps : nat) := 
    release_offer m ;!
    wret {| cs_steps := steps; cs_removed := cs_removed c ++ [of_offer_id m]; cs_pays_remaining := cs_pays_remaining c;
            cs_gets_remaining := cs_gets_remaining c; cs_paid := cs_paid c; cs_received := cs_received c; cs_stopped := false |} in
  if cs_stopped c then wret c else
  if decide (of_offer_id m ∈ cs_removed c) then wret c else
  if taker_done mode (cs_pays_remaining c) (cs_gets_remaining c) then wret stop else
  let! m := offer (of_offer_id m) in
  match m with
  | None => wret c
  | Some m =>
      if expired_at m score then
        let! steps := wlift (bump_steps (cs_steps c) cap) in remove m steps
      else
      let! cross := cross_one (oc_owner tx) (oc_taker_gets tx) (oc_taker_pays tx) m (cs_gets_remaining c) (cs_pays_remaining c) in
      match cross with
      | Skip => wret c
      | Stop => wret stop
      | RemoveMaker => let! steps := wlift (bump_steps (cs_steps c) cap) in remove m steps
      | Fill paid received =>
          let! steps := wlift (bump_steps (cs_steps c) cap) in
          let c' removed :=
            {| cs_steps := steps; cs_removed := removed; cs_pays_remaining := cs_pays_remaining c - received;
               cs_gets_remaining := cs_gets_remaining c - paid; cs_paid := cs_paid c + paid;
               cs_received := cs_received c + received; cs_stopped := false |} in
          let! updated := offer (of_offer_id m) in
          match updated with
          | None => wret (c' (cs_removed c))
          | Some u =>
              if (of_taker_gets_remaining u =? 0) || (of_taker_pays_remaining u =? 0)
              then release_offer u ;! wret (c' (cs_removed c ++ [of_offer_id u]))
              else persist_offer u ;! wret (c' (cs_removed c))
          end
      end
  end.

(** ** Writing back *)

Inductive OfferMetaKey := OfferK (k : OfferKey) | TrustK (k : TrustKey).
Record Flushed := {
  fl_batch : WriteBatch;
  fl_trust : list TrustOp;
  fl_offers : list OfferOp;
  fl_journal : AccountJournal;
  fl_keys : list OfferMetaKey;
}.
Definition flush_accounts (w : Working) (b : WriteBatch) (j : AccountJournal) : result StateError (WriteBatch * AccountJournal) :=
  rfold (fun '(b, j) '(owner, a) =>
    let j := match w_originals w !! owner with Some prior => j ++ [(DRC, owner, prior)] | None => j end in
    let? b := put_account_into b DRC owner a in
    Ok (b, j)) (b, j) (map_to_list (w_accounts w)).
Definition flush_offers (w : Working) : list OfferOp :=
  ((fun id => DeleteOffer (OKLive id)) <$> elements (w_deleted w)) ++
  ((fun e => PutOffer e.1 e.2) <$> filter (fun e => e.1 ∉ w_deleted w) (map_to_list (w_offers w))) ++
  ((fun owner => match default [] (cached (w_owners w) !! owner) with
     | [] => DeleteOffer (OKOwner owner)
     | ids => PutOfferOwner owner {| oi_version := 1; oi_owner := owner; oi_live_ids := sort_by Z.compare ids |}
     end) <$> elements (dirty (w_owners w))) ++
  concat ((fun key => match cached (w_books w) !! key with
     | None => []
     | Some (book, []) => [DeleteOffer (OKBook (book_key book))]
     | Some (book, ids) => [PutOfferBook (book_key book) {| bi_version := 1; bi_book_key := key; bi_live_ids := ids |}]
     end) <$> elements (dirty (w_books w))) ++
  (if w_sequence_dirty w then [PutSequence (w_sequence w)] else []).
Definition flush_reserves (w : Working) : list TrustOp :=
  (fun x => match default 0 (cached (w_reserve w) !! x) with
     | 0 => DeleteTrust (TKReserve x.1 (asset_key x.2))
     | v => PutReserveUnits x.1 (asset_key x.2) v
     end) <$> elements (dirty (w_reserve w)).
Definition flush_lines (w : Working) : result StateError (list TrustOp) :=
  rfold (fun ops x => match cached (w_lines w) !! x with
     | None => Ok ops
     | Some l => let? put := put_live l in Ok (ops ++ put)
     end) [] (elements (dirty (w_lines w))).
Definition flush_liabilities (w : Working) : list TrustOp :=
  concat ((fun a => put_liability a (default 0 (cached (w_liability w) !! a))) <$> elements (dirty (w_liability w))).
Definition offer_op_key (op : OfferOp) : OfferKey :=
  match op with
  | PutOffer id _ => OKLive id
  | PutOfferOwner a _ => OKOwner a
  | PutOfferBook k _ => OKBook k
  | PutSequence _ => OKSequence
  | PutCreateReceipt id _ => OKCreate id
  | PutCancelReceipt id _ => OKCancel id
  | DeleteOffer key => key
  end.
Definition flush (w : Working) (b : WriteBatch) (j : AccountJournal) (payer : Address)
  (ctx : option (DrcSequenceConsumption * list Z)) (ticket_version : bool) : result StateError Flushed :=
  let? (b, accounts) :=
    match w_accounts w !! payer with
    | None => Ok (b, w_accounts w)
    | Some a =>
        if ticket_version then
          match ctx with
          | Some (consumption, tickets_before) =>
              let? (b, a) := finish_drc_account_sequence b payer a consumption tickets_before in
              Ok (b, <[payer := a]> (w_accounts w))
          | None => Ok (b, w_accounts w)
          end
        else
          let? n := ok_or (InvalidTx "DRC offer nonce overflow") (checked_add u64_max (nonce a) 1) in
          Ok (b, <[payer := {| balance := balance a; nonce := n |}]> (w_accounts w))
    end in
  let? (b, j) := flush_accounts (set_accounts w accounts (w_originals w)) b j in
  let oops := flush_offers w in
  let reserves := flush_reserves w in
  let? lines := flush_lines w in
  let trust := reserves ++ lines ++ flush_liabilities w in
  Ok {| fl_batch := b; fl_trust := trust; fl_offers := oops; fl_journal := j;
        fl_keys := (OfferK <$> (offer_op_key <$> oops)) ++ (TrustK <$> (trust_op_key <$> trust)) |}.

(** ** Operations *)

(** Whether what is left of the new offer rests in the book. *)
Definition place_rest (tx : DrcOfferCreateTx) (tif : DrcOfferTimeInForce) (fully_filled : bool) (c : Crossing) (score : Z) : W bool :=
  if bool_decide (tif = GoodTillCancel) && negb fully_filled && (0 <? cs_pays_remaining c) && (0 <? cs_gets_remaining c) then
    let! funded := seller_can_fund (oc_owner tx) (oc_taker_gets tx) (cs_gets_remaining c) in
    if funded then
      let! sequence := alloc_sequence in
      reserve_new {| of_version := DRC_OFFER_LIVE_STATE_VERSION; of_offer_id := offer_id tx; of_owner := oc_owner tx;
                     of_taker_pays := oc_taker_pays tx; of_taker_pays_original := oc_taker_pays_amount tx;
                     of_taker_pays_remaining := cs_pays_remaining c; of_taker_gets := oc_taker_gets tx;
                     of_taker_gets_original := oc_taker_gets_amount tx; of_taker_gets_remaining := cs_gets_remaining c;
                     of_fill_mode := oc_fill_mode tx; of_book_sequence := sequence; of_create_blue_score := score;
                     of_expires_after := oc_expires_after tx; of_native_locked := 0 |} ;!
      wret true
    else if cs_paid c =? 0 then werr (InvalidTx "DRC offer owner is unfunded for the sell asset")
    else wret false
  else if (cs_paid c =? 0) && bool_decide (tif = GoodTillCancel)
  then werr (InvalidTx "DRC offer owner is unfunded for the sell asset")
  else wret false.
(** What comes before the crossing: the fee, the funding check, the withdrawal of
    the owner's own crossing offers, and the other side of the book in order. *)
Definition start_crossing (tx : DrcOfferCreateTx) (cap : nat) : W (Crossing * list DrcOfferLive * DrcOfferFillMode) :=
  let! _ := account (oc_owner tx) in
  debit_native (oc_owner tx) (oc_fee tx) ;!
  let! funded := seller_can_fund (oc_owner tx) (oc_taker_gets tx) 1 in
  wlift (ensure funded (InvalidTx "DRC offer owner is unfunded for the sell asset")) ;!
  let! own := owner_ids (oc_owner tx) in
  let! (steps, removed) := wfold (cancel_own tx cap) (0%nat, []) own in
  let! makers := book_offers (opposite (oc_book tx)) in
  let makers := sort_book makers in
  let! mode := wlift (lift_msg (fill_mode_from_u8 (oc_fill_mode tx))) in
  wret ({| cs_steps := steps; cs_removed := removed; cs_pays_remaining := oc_taker_pays_amount tx;
           cs_gets_remaining := oc_taker_gets_amount tx; cs_paid := 0; cs_received := 0; cs_stopped := false |}, makers, mode).
(** The crossing of a new offer, from its fee to what rests. *)
Definition execute_offer (tx : DrcOfferCreateTx) (score : Z) (steps_remaining : nat) : W (Crossing * nat * bool * bool) :=
  let cap := Nat.min steps_remaining DRC_MAX_OFFER_MATCHES_PER_TX in
  let! (c0, makers, mode) := start_crossing tx cap in
  let self_cross_cancelled := cs_steps c0 in
  let! c := wfold (cross_maker tx mode score cap) c0 makers in
  let fully_filled := taker_done mode (cs_pays_remaining c) (cs_gets_remaining c) in
  let! tif := wlift (lift_msg (time_in_force_from_u8 (oc_time_in_force tx))) in
  wlift (ensure (negb (bool_decide (tif = FillOrKill) && negb fully_filled))
    (InvalidTx "DRC offer fill-or-kill was not fully filled")) ;!
  let! placed := place_rest tx tif fully_filled c score in
  wret (c, self_cross_cancelled, placed, fully_filled).

Definition create_sequence (tx : DrcOfferCreateTx) : result StateError (option (DrcSequenceConsumption * list Z)) :=
  let? acct := load_account s DRC (oc_owner tx) in
  begin_op_sequence s (oc_owner tx) acct (oc_version tx) DRC_OFFER_CREATE_TICKET_VERSION (oc_nonce tx)
    (oc_account_sequence tx) "bad DRC offer-create nonce".
Definition apply_drc_offer_create (ps : PolicyStore) (tx : DrcOfferCreateTx) (auth : Auth) (score : Z) (steps_remaining : nat)
  (b : WriteBatch) (j : AccountJournal) : result StateError (DrcOfferCreateReceipt * Flushed * nat) :=
  lift_msg (validate_offer_create tx) ;?
  authorize_offer_create s ps tx auth ;?
  let id := offer_id tx in
  let? dup := load_drc_offer_live id in
  ensure (bool_decide (dup = None)) (InvalidTx "duplicate DRC offer id") ;?
  ensure (negb (match oc_expires_after tx with Some bound => bound <? score | None => false end))
    (InvalidTx "DRC offer expiration is already past") ;?
  let? ctx := create_sequence tx in
  let? ((c, self_cancelled, placed, fully_filled), w) := execute_offer tx score steps_remaining working_new in
  let receipt := {| or_version := 1; or_offer_id := id; or_owner := oc_owner tx; or_placed := placed; or_fully_filled := fully_filled;
                    or_taker_paid := cs_paid c; or_taker_received := cs_received c; or_steps := Z.of_nat (cs_steps c);
                    or_self_cross_cancelled := Z.of_nat self_cancelled;
                    or_removed_offer_ids := sort_by Z.compare (remove_dups (cs_removed c)); or_fee := oc_fee tx;
                    or_settlement_blue_score := score |} in
  let? f := flush w b j (oc_owner tx) ctx (DRC_OFFER_CREATE_TICKET_VERSION <=? oc_version tx) in
  Ok (receipt, {| fl_batch := fl_batch f; fl_trust := fl_trust f; fl_offers := fl_offers f ++ [PutCreateReceipt id receipt];
                  fl_journal := fl_journal f; fl_keys := fl_keys f ++ [OfferK (OKCreate id)] |}, cs_steps c).

Definition cancel_live (tx : DrcOfferCancelTx) : W DrcOfferCancelOutcome :=
  let! _ := account (ox_submitter tx) in
  debit_native (ox_submitter tx) (ox_fee tx) ;!
  let! o := offer (ox_offer_id tx) in
  match o with
  | None => wret AbsentOffer
  | Some o =>
      wlift (ensure (of_owner o =? ox_submitter tx) (InvalidTx "DRC offer cancel submitter is not the owner")) ;!
      release_offer o ;!
      wret Removed
  end.
Definition apply_drc_offer_cancel (ps : PolicyStore) (tx : DrcOfferCancelTx) (auth : Auth) (score : Z)
  (b : WriteBatch) (j : AccountJournal) : result StateError (DrcOfferCancelReceipt * Flushed) :=
  lift_msg (validate_offer_cancel tx) ;?
  authorize_offer_cancel s ps tx auth ;?
  let? acct := load_account s DRC (ox_submitter tx) in
  let? ctx := begin_op_sequence s (ox_submitter tx) acct (ox_version tx) DRC_OFFER_CANCEL_TICKET_VERSION (ox_nonce tx)
    (ox_account_sequence tx) "bad DRC offer-cancel nonce" in
  let? (outcome, w) := cancel_live tx working_new in
  let receipt := {| oxr_version := 1; oxr_cancel_tx_id := cancel_tx_id tx; oxr_offer_id := ox_offer_id tx;
                    oxr_submitter := ox_submitter tx; oxr_outcome := outcome; oxr_fee := ox_fee tx;
                    oxr_settlement_blue_score := score |} in
  let? f := flush w b j (ox_submitter tx) ctx (DRC_OFFER_CANCEL_TICKET_VERSION <=? ox_version tx) in
  Ok (receipt, {| fl_batch := fl_batch f; fl_trust := fl_trust f; fl_offers := fl_offers f ++ [PutCancelReceipt (cancel_tx_id tx) receipt];
                  fl_journal := fl_journal f; fl_keys := fl_keys f ++ [OfferK (OKCancel (cancel_tx_id tx))] |}).

(** What an offer can deliver now, for readers ([funded_gets]). *)
Definition funded_gets (o : DrcOfferLive) : result StateError Z :=
  match of_taker_gets o with
  | NativeDrc => Ok (Z.min (of_native_locked o) (of_taker_gets_remaining o))
  | Issued a =>
      if of_owner o =? ia_issuer a then Ok (of_taker_gets_remaining o) else
      let? l := load_drc_trust_line_live ts (of_owner o) a in
      match l with
      | None => Ok 0
      | Some l =>
          let? p := load_drc_issued_asset_policy ts a in
          let l := normalize_trust_line_live l p in
          Ok (if negb (tl_authorized l) || tl_line_deep_frozen l then 0 else Z.min (tl_balance l) (of_taker_gets_remaining o))
      end
  end.
End offer.

(** ** The lanes of a block *)

Section lanes.
Context {Auth : Type} `{TL : TrustLane Auth} `{OL : OfferLane Auth}.

Record Ledger := { ld_base : StateStore; ld_trust : TrustStore; ld_offers : OfferStore }.
Inductive OfferTx := CreateOffer (tx : DrcOfferCreateTx) | CancelOffer (tx : DrcOfferCancelTx).
(** [drc_offer_meta_before]: what the records an offer operation rewrites held. *)
Inductive OfferUndo := UndoOffer (op : OfferOp) | UndoTrust (op : TrustOp).
Definition snapshot_key (l : Ledger) (k : OfferMetaKey) : OfferUndo :=
  match k with
  | OfferK k => UndoOffer (undo_offer (ld_offers l) k)
  | TrustK k => UndoTrust (undo_of (ld_trust l) k)
  end.
Definition commit_flushed (l : Ledger) (f : Flushed) : Ledger :=
  {| ld_base := write_batch (ld_base l) (fl_batch f); ld_trust := write_trust (ld_trust l) (fl_trust f);
     ld_offers := write_offers (ld_offers l) (fl_offers f) |}.
(** One accepted transaction: the ledger after it, its journal, the steps left to the block. *)
Definition apply_offer_tx (ps : PolicyStore) (l : Ledger) (tx : OfferTx) (auth : Auth) (score : Z) (steps_remaining : nat)
  : result StateError (Ledger * list OfferUndo * nat) :=
  match tx with
  | CreateOffer t =>
      let? (_, f, steps) := apply_drc_offer_create (ld_base l) (ld_trust l) (ld_offers l) ps t auth score steps_remaining [] [] in
      Ok (commit_flushed l f, snapshot_key l <$> fl_keys f, (steps_remaining - steps)%nat)
  | CancelOffer t =>
      let? (_, f) := apply_drc_offer_cancel (ld_base l) (ld_trust l) (ld_offers l) ps t auth score [] [] in
      Ok (commit_flushed l f, snapshot_key l <$> fl_keys f, steps_remaining)
  end.
Definition undo_one (l : Ledger) (u : OfferUndo) : Ledger :=
  match u with
  | UndoOffer op => {| ld_base := ld_base l; ld_trust := ld_trust l; ld_offers := apply_offer_op (ld_offers l) op |}
  | UndoTrust op => {| ld_base := ld_base l; ld_trust := apply_trust_op (ld_trust l) op; ld_offers := ld_offers l |}
  end.
(** [revert_journal_batched]: the trust-line snapshots, the latest first, and
    after them the offer snapshots, the latest first. *)
Definition revert_lanes (l : Ledger) (trust_before : list TrustOp) (offer_before : list OfferUndo) : Ledger :=
  let l := {| ld_base := ld_base l; ld_trust := revert_trust_meta (ld_trust l) trust_before; ld_offers := ld_offers l |} in
  foldl undo_one l (reverse offer_before).
End lanes.
