(* ===== verification/OfferProps.v ===== *)
(** * The order book: rates, priority and what a taker pays

    The arithmetic of one fill, the order in which resting offers are tried, and
    the bounds a new offer keeps whatever it crosses. *)

From stdpp Require Import base gmap list fin_maps strings sorting.
From Stdlib Require Import ZArith Lia.
From S2P Require Import Prelude Ordering Sums Types Finality Store Supply Accounts Objects Policy Trust TrustProps TrustSafety Offer.
Local Open Scope Z_scope.

(** ** One fill *)

Lemma div_ceil_spec a b : 0 < b -> 0 <= a -> a <= div_ceil a b * b /\ (div_ceil a b - 1) * b < a /\ (0 < a -> 0 < div_ceil a b).
Proof.
  intros Hb Ha. unfold div_ceil. pose proof (Z.div_mod a b ltac:(lia)) as Hd. pose proof (Z.mod_pos_bound a b Hb) as Hm.
  destruct (Z.eqb_spec (a mod b) 0); repeat split; nia.
Qed.
Lemma div_ceil_le a b c : 0 < b -> 0 <= a -> a <= c * b -> div_ceil a b <= c.
Proof. intros Hb Ha Hc. destruct (div_ceil_spec a b Hb Ha) as (_ & H & _). nia. Qed.

Lemma fill_step_spec mg mp want budget :
  0 < mg <= u64_max -> 0 < mp <= u64_max -> 0 <= want <= u64_max -> 0 <= budget <= u64_max ->
  match offer_fill_step mg mp want budget with
  | Some (out, input) =>
      0 < out <= Z.min want mg /\ 0 < input <= Z.min budget mp /\
      out * mp <= input * mg /\ (input - 1) * mg < out * mp /\
      (forall out', 0 <= out' <= Z.min want mg -> out' * mp <= Z.min budget mp * mg -> out' <= out)
  | None => want = 0 \/ Z.min budget mp * mg < mp
  end.
Proof.
  intros Hg Hp Hw Hb. unfold offer_fill_step.
  destruct ((mg =? 0) || (mp =? 0) || (want =? 0) || (budget =? 0)) eqn:Hz.
  { assert (want = 0 \/ budget = 0) as [->| ->] by lia; [by left|right]. rewrite Z.min_l by lia. lia. }
  assert (0 < want /\ 0 < budget) as [Hw' Hb'] by lia. clear Hz. set (bud := Z.min budget mp). set (wan := Z.min want mg).
  pose proof (Z.div_mod (bud * mg) mp ltac:(lia)) as Hd. pose proof (Z.mod_pos_bound (bud * mg) mp ltac:(lia)) as Hm.
  set (q := bud * mg / mp) in *.
  destruct (Z.eqb_spec (Z.min wan q) 0) as [E|E]; [right; assert (0 <= q) by (apply Z.div_pos; lia); nia|].
  assert (0 <= q) as Hq by (apply Z.div_pos; nia). set (out := Z.min wan q) in *.
  assert (0 < out) as Hout by lia. assert (out * mp <= bud * mg) as Haff by nia.
  destruct (div_ceil_spec (out * mp) mg ltac:(lia) ltac:(nia)) as (H1 & H2 & H3). specialize (H3 ltac:(nia)).
  assert (div_ceil (out * mp) mg <= bud) as H4 by (apply div_ceil_le; nia).
  assert ((div_ceil (out * mp) mg =? 0) || (bud <? div_ceil (out * mp) mg) || (mp <? div_ceil (out * mp) mg) = false) as -> by lia.
  rewrite !as_u64_small by (unfold in_u64; lia). split; [lia|]. split; [lia|]. split; [lia|]. split; [lia|].
  intros out' Ho Haf. assert (out' <= q); [|lia]. apply Z.div_le_lower_bound; lia.
Qed.

(** One fill is exact.  A fill of an offer that sells [mg] for [mp] gives the
    taker the most it can have: no more than it wants, than the offer has and than
    its budget buys at the offer's rate, and every affordable amount is at most
    that.  The taker pays the offer's rate rounded up, by less than one unit, so
    the maker is never short-changed, and never more than its budget or than the
    offer asks for in total.  Nothing is filled only when the budget cannot buy
    one unit. *)
Theorem fill_step_correct mg mp want budget :
  0 < mg <= u64_max -> 0 < mp <= u64_max -> 0 <= want <= u64_max -> 0 <= budget <= u64_max ->
  match offer_fill_step mg mp want budget with
  | Some (out, input) =>
      0 < out <= Z.min want mg /\ 0 < input <= Z.min budget mp /\
      out * mp <= input * mg /\ (input - 1) * mg < out * mp /\
      (forall out', 0 <= out' <= Z.min want mg -> out' * mp <= Z.min budget mp * mg -> out' <= out)
  | None => want = 0 \/ Z.min budget mp * mg < mp
  end.
Proof. intros. by apply fill_step_spec. Qed.
Lemma fill_step_correct_witness :
  match offer_fill_step 3 2 2 2 with Some (out, input) => 0 < out <= Z.min 2 3 | None => 2 = 0 \/ Z.min 2 2 * 3 < 2 end.
Proof.
  pose proof (fill_step_correct 3 2 2 2) as H. unfold u64_max in H.
  specialize (H ltac:(lia) ltac:(lia) ltac:(lia) ltac:(lia)). vm_compute in H |- *. exact (proj1 H).
Defined.

(** ** Priority *)

(** The comparator with the original amounts forced positive is a total order;
    on live offers, whose amounts are positive, it is the comparator of the code. *)
Definition rate_cmp (l r : DrcOfferLive) : comparison :=
  Z.compare (Z.max 1 (of_taker_gets_original r) * Z.max 1 (of_taker_pays_original l))
            (Z.max 1 (of_taker_gets_original l) * Z.max 1 (of_taker_pays_original r)).
Definition offer_cmp (l r : DrcOfferLive) : comparison :=
  then_with (rate_cmp l r)
    (then_with (Z.compare (of_book_sequence l) (of_book_sequence r)) (Z.compare (of_offer_id l) (of_offer_id r))).
Lemma rate_total : TotalCmp rate_cmp.
Proof.
  split.
  - intros a b. unfold rate_cmp. apply Z.compare_antisym.
  - intros a b c. unfold rate_cmp, cmp_le. rewrite !Z.compare_le_iff.
    set (ga := Z.max 1 _). set (pb := Z.max 1 (of_taker_pays_original b)). set (pa := Z.max 1 (of_taker_pays_original a)).
    set (gb := Z.max 1 _). set (gc := Z.max 1 (of_taker_gets_original c)). set (pc := Z.max 1 (of_taker_pays_original c)). 
    intros H1 H2. assert (0 < pb) by lia. nia.
Qed.
#[export] Instance offer_total : TotalCmp offer_cmp.
Proof.
  apply then_total; [apply rate_total|]. apply then_total; [by apply (on_total of_book_sequence), _|by apply (on_total of_offer_id), _].
Qed.
Definition positive_rate (o : DrcOfferLive) : Prop := 0 < of_taker_gets_original o /\ 0 < of_taker_pays_original o.
Lemma compare_offers_cmp l r : positive_rate l -> positive_rate r -> compare_offers l r = offer_cmp l r.
Proof.
  intros [Hgl Hpl] [Hgr Hpr]. unfold compare_offers, offer_cmp, rate_cmp, offer_quality_better. rewrite !Z.max_r by lia.
  destruct (Z.compare_spec (of_taker_gets_original r * of_taker_pays_original l) (of_taker_gets_original l * of_taker_pays_original r)) as [E|E|E];
    destruct (Z.ltb_spec (of_taker_gets_original r * of_taker_pays_original l) (of_taker_gets_original l * of_taker_pays_original r)); try lia;
    destruct (Z.ltb_spec (of_taker_gets_original l * of_taker_pays_original r) (of_taker_gets_original r * of_taker_pays_original l)); try lia; try done.
  by destruct (of_book_sequence l ?= of_book_sequence r).
Qed.
Lemma sort_book_cmp offers : Forall positive_rate offers -> sort_book offers = sort_by offer_cmp offers.
Proof. rewrite Forall_forall. intros Hp. apply sort_by_ext. intros x y Hx Hy. apply compare_offers_cmp; by apply Hp. Qed.
Lemma offer_cmp_tie x y : offer_cmp x y = Eq -> of_offer_id x = of_offer_id y.
Proof.
  unfold offer_cmp, then_with. destruct (rate_cmp x y); [|done..]. destruct (Z.compare _ _); [|done..]. apply Z.compare_eq.
Qed.
Lemma ids_inj (offers : list DrcOfferLive) x y :
  NoDup (of_offer_id <$> offers) -> x ∈ offers -> y ∈ offers -> of_offer_id x = of_offer_id y -> x = y.
Proof.
  intros Hnd [i Hi]%list_elem_of_lookup [j Hj]%list_elem_of_lookup E.
  assert (i = j) as -> by (eapply NoDup_lookup; [exact Hnd|rewrite list_lookup_fmap, Hi; reflexivity|rewrite list_lookup_fmap, Hj; cbn; by rewrite E]).
  congruence.
Qed.
(** [x] is tried before [y]: a better rate, or the same rate and an earlier
    place in the book, or both equal and the smaller id. *)
Definition ahead (x y : DrcOfferLive) : Prop :=
  let better := of_taker_gets_original x * of_taker_pays_original y in
  let worse := of_taker_gets_original y * of_taker_pays_original x in
  worse < better \/
  (worse = better /\ (of_book_sequence x < of_book_sequence y \/
     (of_book_sequence x = of_book_sequence y /\ of_offer_id x <= of_offer_id y))).
Lemma cmp_ahead x y : positive_rate x -> positive_rate y -> cmp_le offer_cmp x y -> ahead x y.
Proof.
  intros [Hgx Hpx] [Hgy Hpy]. unfold cmp_le, offer_cmp, rate_cmp, ahead. rewrite !Z.max_r by lia.
  destruct (Z.compare_spec (of_taker_gets_original y * of_taker_pays_original x) (of_taker_gets_original x * of_taker_pays_original y)); cbn; [|lia|done].
  destruct (Z.compare_spec (of_book_sequence x) (of_book_sequence y)); cbn; [|lia|done].
  destruct (Z.compare_spec (of_offer_id x) (of_offer_id y)); [lia|lia|done].
Qed.

Lemma sorted_lookup {A} (R : A -> A -> Prop) l : StronglySorted R l ->
  forall i j x y, (i < j)%nat -> l !! i = Some x -> l !! j = Some y -> R x y.
Proof.
  induction 1 as [|z l Hl IH Hz]; intros i j x y Hij Hx Hy; [done|]. destruct j as [|j]; [lia|]. destruct i as [|i]; cbn in Hx, Hy.
  - injection Hx as ->. rewrite Forall_forall in Hz. by apply Hz, (list_elem_of_lookup_2 _ j).
  - by apply (IH i j); [lia|..].
Qed.

(** Sorting the resting offers: from the best stated rate down, of two offers of
    one rate the one placed earlier first, whatever order they are stored in. *)
Lemma sort_book_priority offers stored :
  Forall positive_rate offers -> NoDup (of_offer_id <$> offers) -> stored ≡ₚ offers ->
  sort_book stored = sort_book offers /\ sort_book offers ≡ₚ offers /\
  forall i j x y, (i < j)%nat -> sort_book offers !! i = Some x -> sort_book offers !! j = Some y -> ahead x y /\ of_offer_id x <> of_offer_id y.
Proof.
  intros Hp Hnd Hperm. assert (Forall positive_rate stored) as Hp' by (by rewrite Hperm). rewrite !sort_book_cmp by done.
  split.
  { apply (sorted_unique_on offer_cmp); [|apply sort_by_sorted, _..|by rewrite !sort_by_perm].
    intros x y Hx%elem_of_sort_by Hy%elem_of_sort_by E%offer_cmp_tie. rewrite Hperm in Hx, Hy. by eapply ids_inj. }
  split; [apply sort_by_perm|]. intros i j x y Hij Hx Hy. split.
  - rewrite Forall_forall in Hp. pose proof (list_elem_of_lookup_2 _ _ _ Hx) as Ix%elem_of_sort_by.
    pose proof (list_elem_of_lookup_2 _ _ _ Hy) as Iy%elem_of_sort_by. apply cmp_ahead; [by apply Hp..|].
    by eapply (sorted_lookup _ _ (sort_by_sorted offer_cmp offers)).
  - intros E. assert (i = j); [|lia]. assert (NoDup (of_offer_id <$> sort_by offer_cmp offers)) as Hnd' by (by rewrite sort_by_perm).
    eapply NoDup_lookup; [exact Hnd'|rewrite list_lookup_fmap, Hx; reflexivity|rewrite list_lookup_fmap, Hy; cbn; by rewrite E].
Qed.

