(* ===== verification/OfferView.v ===== *)
(** * The working set of the order book is transparent

    The crossing of an offer works on caches.  [View] is the ledger it stands
    for: the accounts, lines, liabilities, reserves, offers and indexes as they
    would be if every change were made in the store at once.  [rep w v] relates
    the two, and the lemmas below show that each operation on the working set
    reads and changes exactly the view. *)

From stdpp Require Import base gmap list fin_maps strings.
From Stdlib Require Import ZArith Lia.
From S2P Require Import Prelude Ordering Sums Types Finality Store Supply Accounts Objects Policy Trust TrustProps Offer.
Local Open Scope Z_scope.

(** ** Running the monad *)

Lemma wbind_Ok {A B} (m : W A) (k : A -> W B) w r :
  wbind m k w = Ok r -> exists a w1, m w = Ok (a, w1) /\ k a w1 = Ok r.
Proof. unfold wbind. intros ([a w1] & H1 & H2)%rbind_Ok. by exists a, w1. Qed.
Lemma wlift_Ok {A} (x : result StateError A) w a w' : wlift x w = Ok (a, w') -> x = Ok a /\ w' = w.
Proof. unfold wlift. intros (a' & -> & H)%rbind_Ok. by apply Ok_inj, pair_eq in H as [<- <-]. Qed.
Lemma wret_Ok {A} (x : A) w a w' : wret x w = Ok (a, w') -> a = x /\ w' = w.
Proof. unfold wret. intros H. by apply Ok_inj, pair_eq in H as [<- <-]. Qed.
Lemma wupd_Ok f w u w' : wupd f w = Ok (u, w') -> w' = f w.
Proof. unfold wupd. intros H. by apply Ok_inj, pair_eq in H as [_ <-]. Qed.
Lemma wget_Ok {A} (f : Working -> A) w a w' : wget f w = Ok (a, w') -> a = f w /\ w' = w.
Proof. unfold wget. intros H. by apply Ok_inj, pair_eq in H as [<- <-]. Qed.
(** Steps through one bind of a run [H]. *)
Ltac wstep H := let a := fresh "r" in let w := fresh "w" in let E := fresh "E" in apply wbind_Ok in H as (a & w & E & H).

(** A fold keeps what each of its steps keeps. *)
Lemma wfold_inv {A B} (f : B -> A -> W B) (P : B -> Working -> Prop) l b w b' w' :
  (forall b x w b' w', x ∈ l -> P b w -> f b x w = Ok (b', w') -> P b' w') ->
  P b w -> wfold f b l w = Ok (b', w') -> P b' w'.
Proof.
  revert b w. induction l as [|x l IH]; intros b w Hf HP H; cbn in H.
  - by apply wret_Ok in H as [-> ->].
  - wstep H. eapply IH; [|eapply Hf; [left|exact HP|exact E]|exact H]. intros; eapply Hf; [by right|done..].
Qed.

(** ** Caches *)

Section caches.
Context {K V : Type} `{Countable K}.
(** What is not dirty is as stored. *)
Definition cache_ok (stored : K -> V -> Prop) (c : Cache K V) : Prop :=
  (forall k v, cached c !! k = Some v -> k ∉ dirty c -> stored k v) /\ (forall k, k ∈ dirty c -> is_Some (cached c !! k)).
Lemma cache_ok_empty stored : cache_ok stored empty_cache.
Proof. split; cbn; [intros k v Hk; by rewrite lookup_empty in Hk|]. intros k Hk. by apply elem_of_empty in Hk. Qed.
Lemma cache_ok_load stored c k v : cache_ok stored c -> stored k v -> cache_ok stored (cache_load c k v).
Proof.
  intros [Hc Hd] Hv. split; cbn.
  - intros k' v' [[<- <-]|[_ Hk]]%lookup_insert_Some Hn; [done|by eapply Hc].
  - intros k' Hk. apply lookup_insert_is_Some. destruct (decide (k = k')); [by left|right]. by split; [|apply Hd].
Qed.
Lemma cache_ok_write stored c k v : cache_ok stored c -> cache_ok stored (cache_write c k v).
Proof.
  intros [Hc Hd]. split; cbn.
  - intros k' v' [[<- <-]|[_ Hk]]%lookup_insert_Some Hn; [set_solver|]. eapply Hc; [done|set_solver].
  - intros k' Hk. apply lookup_insert_is_Some. destruct (decide (k = k')); [by left|right]. split; [done|]. apply Hd. set_solver.
Qed.
End caches.

(** ** The view *)

Record View := {
  va : Address -> AccountState;
  vn : Z; (* how much the native balances have changed in total *)
  vl : gmap (Address * Hash) DrcTrustLineLive;
  vi : IssuedAssetId -> Z;
  vr : Address * IssuedAssetId -> Z;
  vo : gmap Hash DrcOfferLive;
  vw : Address -> list Hash;
  vb : Hash -> list Hash;
  vs : Z;
  vk : gset Address; (* accounts the working set is known to hold *)
}.
Definition upd {A B} `{EqDecision A} (f : A -> B) (a : A) (b : B) : A -> B := fun x => if decide (x = a) then b else f x.
Definition v_acc a x v := {| va := upd (va v) a x; vn := vn v + balance x - balance (va v a); vl := vl v; vi := vi v; vr := vr v; vo := vo v; vw := vw v; vb := vb v; vs := vs v; vk := vk v |}.
Definition v_line x l v := {| va := va v; vn := vn v; vl := <[x := l]> (vl v); vi := vi v; vr := vr v; vo := vo v; vw := vw v; vb := vb v; vs := vs v; vk := vk v |}.
Definition v_liab a n v := {| va := va v; vn := vn v; vl := vl v; vi := upd (vi v) a n; vr := vr v; vo := vo v; vw := vw v; vb := vb v; vs := vs v; vk := vk v |}.
Definition v_res x n v := {| va := va v; vn := vn v; vl := vl v; vi := vi v; vr := upd (vr v) x n; vo := vo v; vw := vw v; vb := vb v; vs := vs v; vk := vk v |}.
Definition v_off o v := {| va := va v; vn := vn v; vl := vl v; vi := vi v; vr := vr v; vo := o; vw := vw v; vb := vb v; vs := vs v; vk := vk v |}.
Definition v_own a ids v := {| va := va v; vn := vn v; vl := vl v; vi := vi v; vr := vr v; vo := vo v; vw := upd (vw v) a ids; vb := vb v; vs := vs v; vk := vk v |}.
Definition v_bk k ids v := {| va := va v; vn := vn v; vl := vl v; vi := vi v; vr := vr v; vo := vo v; vw := vw v; vb := upd (vb v) k ids; vs := vs v; vk := vk v |}.
Definition v_seq n v := {| va := va v; vn := vn v; vl := vl v; vi := vi v; vr := vr v; vo := vo v; vw := vw v; vb := vb v; vs := n; vk := vk v |}.
Definition v_know a v := {| va := va v; vn := vn v; vl := vl v; vi := vi v; vr := vr v; vo := vo v; vw := vw v; vb := vb v; vs := vs v; vk := {[a]} ∪ vk v |}.
Definition v_add a n v := v_acc a {| balance := balance (va v a) + n; nonce := nonce (va v a) |} v.

Section view.
Context {Auth : Type} `{TL : TrustLane Auth} `{OL : OfferLane Auth}.
Context (key_inj : forall a a', asset_key a = asset_key a' -> a = a').
Variables (s : StateStore) (ts : TrustStore) (os : OfferStore).

Definition lkey (x : Address * IssuedAssetId) : Address * Hash := (x.1, asset_key x.2).
#[local] Instance lkey_inj : Inj (=) (=) lkey.
Proof. intros [h a] [h' a'] [= -> E%key_inj]. by subst. Qed.
Definition owner_stored (a : Address) : list Hash := match offer_owners os !! a with Some r => oi_live_ids r | None => [] end.
Definition book_stored (k : Hash) : list Hash :=
  match offer_books os !! k with Some r => filter (fun id => is_Some (live_offers os !! id)) (bi_live_ids r) | None => [] end.
Definition live_view (w : Working) : gmap Hash DrcOfferLive :=
  filter (fun e => e.1 ∉ w_deleted w) (w_offers w ∪ live_offers os).

Record wf (w : Working) : Prop := {
  wf_lines : cache_ok (fun x l => lines ts !! lkey x = Some l) (w_lines w);
  wf_liab : cache_ok (fun a n => n = liab_of ts (asset_key a)) (w_liability w);
  wf_res : cache_ok (fun x n => n = load_issued_offer_reserve ts x.1 x.2) (w_reserve w);
  wf_own : cache_ok (fun a ids => ids = owner_stored a) (w_owners w);
  wf_bk : cache_ok (fun k e => e.2 = book_stored k) (w_books w);
  wf_bkey k e : cached (w_books w) !! k = Some e -> book_key e.1 = k;
  wf_seq : w_sequence_dirty w = false -> w_sequence w = default 0 (offer_sequence os);
}.
Record rep (w : Working) (v : View) : Prop := {
  r_wf : wf w;
  r_acc a : va v a = default (acct_of s DRC a) (w_accounts w !! a);
  r_n : vn v = msum (fun a x => balance x - balance (acct_of s DRC a)) (w_accounts w);
  r_l : vl v = kmap lkey (cached (w_lines w)) ∪ lines ts;
  r_i a : vi v a = default (liab_of ts (asset_key a)) (cached (w_liability w) !! a);
  r_r x : vr v x = default (load_issued_offer_reserve ts x.1 x.2) (cached (w_reserve w) !! x);
  r_o : vo v = live_view w;
  r_w a : vw v a = default (owner_stored a) (cached (w_owners w) !! a);
  r_b k : vb v k = default (book_stored k) (snd <$> cached (w_books w) !! k);
  r_s : vs v = w_sequence w;
  r_k : vk v ⊆ dom (w_accounts w);
}.
Definition view_start : View :=
  {| va := acct_of s DRC; vn := 0; vl := lines ts; vi := fun a => liab_of ts (asset_key a);
     vr := fun x => load_issued_offer_reserve ts x.1 x.2; vo := live_offers os; vw := owner_stored; vb := book_stored;
     vs := default 0 (offer_sequence os); vk := ∅ |}.
Lemma rep_new : rep (working_new os) view_start.
Proof.
  split; cbn; try done.
  - by rewrite kmap_empty, (left_id_L ∅ (∪)).
  - unfold live_view. cbn. rewrite (left_id_L ∅ (∪)). symmetry. apply map_filter_id. intros i x _. cbn. set_solver.
Qed.

(** ** Reading *)

Lemma account_rep w v a r w' : rep w v -> account s a w = Ok (r, w') -> r = va v a /\ rep w' v.
Proof.
  intros R H. unfold account in H. destruct (w_accounts w !! a) as [x|] eqn:Ea.
  - apply Ok_inj, pair_eq in H as [<- <-]. split; [|done]. by rewrite (r_acc _ _ R), Ea.
  - apply rbind_Ok in H as (x & [_ ->]%load_account_Ok & H). apply Ok_inj, pair_eq in H as [<- <-].
    split; [by rewrite (r_acc _ _ R), Ea|]. destruct R as [W A N L I Re O Wn B S K]. split; cbn; try done; [by destruct W|..].
    + intros a'. rewrite A. destruct (decide (a = a')) as [<-|]; [by rewrite Ea, lookup_insert_eq|by rewrite lookup_insert_ne].
    + rewrite N, msum_insert, Ea. cbn. lia.
    + rewrite dom_insert. set_solver.
Qed.
Lemma account_known w v a r w' : rep w v -> account s a w = Ok (r, w') -> rep w' (v_know a v).
Proof.
  intros R H. destruct (account_rep _ _ _ _ _ R H) as [_ [W A N L I Re O Wn B S K]]. split; cbn; try done.
  assert (a ∈ dom (w_accounts w')); [|set_solver]. unfold account in H. apply elem_of_dom. destruct (w_accounts w !! a) as [x|] eqn:Ea.
  - apply Ok_inj, pair_eq in H as [_ <-]. by rewrite Ea.
  - apply rbind_Ok in H as (x & _ & H). apply Ok_inj, pair_eq in H as [_ <-]. cbn. rewrite lookup_insert_eq. by eexists.
Qed.
Lemma vl_lookup w v h a :
  rep w v -> vl v !! (h, asset_key a) = match cached (w_lines w) !! (h, a) with Some l => Some l | None => lines ts !! (h, asset_key a) end.
Proof.
  intros R. rewrite (r_l _ _ R). change (h, asset_key a) with (lkey (h, a)). rewrite lookup_union, lookup_kmap by apply _.
  destruct (cached (w_lines w) !! (h, a)); cbn; [by rewrite union_Some_l|by rewrite (left_id_L None union)].
Qed.
Lemma line_rep w v h a r w' : rep w v -> line ts h a w = Ok (r, w') -> r = vl v !! (h, asset_key a) /\ rep w' v.
Proof.
  intros R H. rewrite (vl_lookup _ _ _ _ R). unfold line in H. destruct (cached (w_lines w) !! (h, a)) as [x|] eqn:Ea.
  - by apply Ok_inj, pair_eq in H as [<- <-].
  - apply rbind_Ok in H as (o & Ho%load_line_Ok & H). rewrite Ho. destruct o as [l|]; apply Ok_inj, pair_eq in H as [<- <-]; [|done].
    split; [done|]. destruct R as [W A N L I Re O Wn B S K]. split; cbn; try done.
    + destruct W. split; try done. by apply cache_ok_load.
    + rewrite L, kmap_insert by apply _. rewrite <- insert_union_l. symmetry. apply insert_id. change (lkey (h, a)) with (h, asset_key a).
      rewrite lookup_union. change (h, asset_key a) with (lkey (h, a)). rewrite lookup_kmap by apply _. rewrite Ea, (left_id_L None union). done.
Qed.
Lemma reserve_rep w v h a r w' : rep w v -> reserve_of ts h a w = Ok (r, w') -> r = vr v (h, a) /\ rep w' v.
Proof.
  intros R H. rewrite (r_r _ _ R). unfold reserve_of in H. destruct (cached (w_reserve w) !! (h, a)) as [x|] eqn:Ea.
  - by apply Ok_inj, pair_eq in H as [<- <-].
  - apply Ok_inj, pair_eq in H as [<- <-]. split; [done|]. destruct R as [W A N L I Re O Wn B S K]. split; cbn; try done.
    + destruct W. split; try done. by apply cache_ok_load.
    + intros x. rewrite Re. destruct (decide ((h, a) = x)) as [<-|]; [by rewrite Ea, lookup_insert_eq|by rewrite lookup_insert_ne].
Qed.
Lemma live_lookup w id :
  live_view w !! id = if decide (id ∈ w_deleted w) then None else match w_offers w !! id with Some o => Some o | None => live_offers os !! id end.
Proof.
  unfold live_view. destruct (decide _) as [Hd|Hd].
  - apply map_lookup_filter_None. right. intros x _ Hn. by apply Hn.
  - destruct (w_offers w !! id) as [o|] eqn:Eo.
    + apply map_lookup_filter_Some. split; [|done]. apply lookup_union_Some_raw. by left.
    + destruct (live_offers os !! id) as [o|] eqn:El.
      * apply map_lookup_filter_Some. split; [|done]. apply lookup_union_Some_raw. by right.
      * apply map_lookup_filter_None. left. by apply lookup_union_None.
Qed.
Lemma load_offer_Ok id r : load_drc_offer_live os id = Ok r ->
  r = live_offers os !! id /\ (forall o, r = Some o -> of_offer_id o = id).
Proof.
  unfold load_drc_offer_live. destruct (live_offers os !! id) as [o|]; [|by intros [= <-]].
  intros (_ & _ & H)%rbind_Ok. apply rbind_Ok in H as (_ & He%ensure_Ok%Z.eqb_eq & H). apply Ok_inj in H as <-.
  split; [done|]. by intros ? [= <-].
Qed.
(** Adding a stored offer to the cache changes nothing. *)
Lemma live_remember w w' : w_deleted w' = w_deleted w ->
  (forall id, match w_offers w' !! id with Some o => Some o | None => live_offers os !! id end =
              match w_offers w !! id with Some o => Some o | None => live_offers os !! id end) -> live_view w' = live_view w.
Proof. intros Hd Hx. apply map_eq. intros id. by rewrite !live_lookup, Hd, Hx. Qed.
Lemma offer_rep w v id r w' : rep w v -> offer os id w = Ok (r, w') -> r = vo v !! id /\ rep w' v.
Proof.
  intros R H. rewrite (r_o _ _ R), live_lookup. unfold offer in H. destruct (decide _) as [Hd|Hd].
  { by apply Ok_inj, pair_eq in H as [<- <-]. }
  destruct (w_offers w !! id) as [x|] eqn:Ea; [by apply Ok_inj, pair_eq in H as [<- <-]|].
  apply rbind_Ok in H as (o & [Ho _]%load_offer_Ok & H). rewrite <- Ho. destruct o as [l|]; apply Ok_inj, pair_eq in H as [<- <-]; [|done].
  split; [done|]. destruct R as [W A N L I Re O Wn B S K]. split; cbn; try done; [by destruct W|].
  rewrite O. symmetry. apply live_remember; [done|]. intros id'. cbn.
  destruct (decide (id = id')) as [<-|]; [by rewrite Ea, lookup_insert_eq|by rewrite lookup_insert_ne].
Qed.
Lemma owner_rep w v a r w' : rep w v -> owner_ids os a w = Ok (r, w') -> r = vw v a /\ rep w' v.
Proof.
  intros R H. rewrite (r_w _ _ R). unfold owner_ids in H. destruct (cached (w_owners w) !! a) as [x|] eqn:Ea.
  - by apply Ok_inj, pair_eq in H as [<- <-].
  - apply rbind_Ok in H as (ids & Hi & H).
    assert (ids = owner_stored a) as ->.
    { unfold load_owner_ids, owner_stored in *. destruct (offer_owners os !! a); [|by injection Hi as <-].
      by apply rbind_Ok in Hi as (_ & _ & [= <-]). }
    apply Ok_inj, pair_eq in H as [<- <-]. split; [done|]. destruct R as [W A N L I Re O Wn B S K]. split; cbn; try done.
    + destruct W. split; try done. by apply cache_ok_load.
    + intros x. rewrite Wn. destruct (decide (a = x)) as [<-|]; [by rewrite Ea, lookup_insert_eq|by rewrite lookup_insert_ne].
Qed.
Lemma load_book_fold ids acc l :
  rfold (fun offers id => let? live := load_drc_offer_live os id in
    Ok (match live with Some o => offers ++ [o] | None => offers end)) acc ids = Ok l ->
  Forall (fun o => live_offers os !! of_offer_id o = Some o) acc ->
  of_offer_id <$> l = (of_offer_id <$> acc) ++ filter (fun id => is_Some (live_offers os !! id)) ids /\
  Forall (fun o => live_offers os !! of_offer_id o = Some o) l.
Proof.
  revert acc. induction ids as [|id ids IH]; intros acc H Hacc; cbn [rfold] in H.
  - apply Ok_inj in H as <-. by rewrite filter_nil, app_nil_r.
  - apply rbind_Ok in H as (acc1 & H1 & H). apply rbind_Ok in H1 as (o & [Ho Hid]%load_offer_Ok & H1). apply Ok_inj in H1 as <-.
    rewrite filter_cons. destruct o as [o|].
    + specialize (Hid o eq_refl). rewrite decide_True by (by rewrite <- Ho).
      destruct (IH _ H) as [H1 H2].
      { apply Forall_app_2; [done|]. constructor; [|done]. by rewrite Hid. }
      split; [|done]. rewrite H1, fmap_app. cbn. rewrite Hid. by rewrite <- app_assoc.
    + rewrite decide_False by (rewrite <- Ho; by intros [? [=]]). by apply IH.
Qed.
Lemma load_book_Ok b l :
  load_book os b = Ok l ->
  of_offer_id <$> l = book_stored (book_key b) /\ Forall (fun o => live_offers os !! of_offer_id o = Some o) l.
Proof.
  unfold load_book, book_stored. destruct (offer_books os !! book_key b) as [r|]; [|by intros [= <-]].
  intros (_ & _ & H)%rbind_Ok. by apply (load_book_fold _ []) in H.
Qed.
Lemma remember_lookup l m id :
  Forall (fun o => live_offers os !! of_offer_id o = Some o) l ->
  match remember_offers l m !! id with Some o => Some o | None => live_offers os !! id end =
  match m !! id with Some o => Some o | None => live_offers os !! id end.
Proof.
  intros Hl. revert m. induction Hl as [|o l Ho Hl IH]; intros m; [done|]. unfold remember_offers in *. cbn [foldl]. rewrite IH.
  destruct (m !! of_offer_id o) eqn:E; [done|]. destruct (decide (of_offer_id o = id)) as [<-|]; [by rewrite lookup_insert_eq, E|by rewrite lookup_insert_ne].
Qed.
(** The ids of a book enter the cache as they are. *)
Lemma rep_book_load w v b :
  rep w v -> cached (w_books w) !! book_key b = None ->
  rep (set_books w (cache_load (w_books w) (book_key b) (b, book_stored (book_key b)))) v.
Proof.
  intros [W A N L I Re O Wn B S K] Eb. split; cbn; try done.
  - destruct W. split; try done; [by apply cache_ok_load|]. cbn. intros k e [[<- <-]|[_ Hk]]%lookup_insert_Some; [done|eauto].
  - intros k. rewrite B. destruct (decide (book_key b = k)) as [<-|]; [by rewrite Eb, lookup_insert_eq|by rewrite lookup_insert_ne].
Qed.
Lemma rep_remember w v l :
  rep w v -> Forall (fun o => live_offers os !! of_offer_id o = Some o) l -> rep (set_offers w (remember_offers l (w_offers w)) (w_deleted w)) v.
Proof.
  intros [W A N L I Re O Wn B S K] Hl. split; cbn; try done; [by destruct W|]. rewrite O. symmetry. apply live_remember; [done|].
  intros id. by apply remember_lookup.
Qed.
Lemma load_book_ids_rep w v b u w' :
  rep w v -> load_book_ids os b w = Ok (u, w') -> rep w' v /\ is_Some (cached (w_books w') !! book_key b).
Proof.
  intros R H. unfold load_book_ids in H. destruct (cached (w_books w) !! book_key b) as [x|] eqn:Ea.
  - apply Ok_inj, pair_eq in H as [_ <-]. by rewrite Ea.
  - apply rbind_Ok in H as (l & [Hi Hl]%load_book_Ok & H). apply Ok_inj, pair_eq in H as [_ <-].
    rewrite Hi. split; [by apply (rep_book_load (set_offers _ _ _)); [apply rep_remember|]|]. cbn. rewrite lookup_insert_eq. by eexists.
Qed.
Lemma collect_rep w v ids l w' :
  rep w v -> collect_offers os ids w = Ok (l, w') -> l = omap (fun id => vo v !! id) ids /\ rep w' v.
Proof.
  revert w l w'. induction ids as [|id ids IH]; intros w l w' R H; cbn [collect_offers] in H.
  - by apply wret_Ok in H as [-> ->].
  - wstep H. destruct (offer_rep _ _ _ _ _ R E) as [-> R1]. wstep H. destruct (IH _ _ _ R1 E0) as [-> R2]. apply wret_Ok in H as [-> ->].
    split; [|done]. cbn. by destruct (vo v !! id).
Qed.
Lemma book_offers_rep w v b l w' :
  rep w v -> book_offers os b w = Ok (l, w') -> l = omap (fun id => vo v !! id) (vb v (book_key b)) /\ rep w' v.
Proof.
  intros R H. unfold book_offers in H. wstep H. destruct (load_book_ids_rep _ _ _ _ _ R E) as [R1 [e He]].
  wstep H. apply wget_Ok in E0 as [-> ->]. rewrite (r_b _ _ R1). rewrite He in *. by eapply collect_rep.
Qed.
Lemma book_length_rep w v b n w' :
  rep w v -> book_length os b w = Ok (n, w') -> n = length (vb v (book_key b)) /\ w' = w.
Proof.
  intros R H. rewrite (r_b _ _ R). unfold book_length in H. destruct (cached (w_books w) !! book_key b) as [[b' ids]|] eqn:Ea.
  - by apply Ok_inj, pair_eq in H as [<- <-].
  - apply rbind_Ok in H as (l & [Hi _]%load_book_Ok & H). apply Ok_inj, pair_eq in H as [<- <-]. split; [|done]. cbn.
    by rewrite <- Hi, length_fmap.
Qed.
Lemma policy_rep w v a p w' : rep w v -> issued_policy ts a w = Ok (p, w') -> p = policy_of ts a /\ rep w' v.
Proof. intros R [->%load_policy_Ok ->]%wlift_Ok. done. Qed.

(** ** Writing *)

Lemma put_account_rep w v a x u w' : rep w v -> put_account a x w = Ok (u, w') -> rep w' (v_acc a x v).
Proof.
  intros [W A N L I Re O Wn B S K] ->%wupd_Ok. split; cbn; try done; [by destruct W|..].
  - intros a'. unfold upd. destruct (decide (a' = a)) as [->|]; [by rewrite lookup_insert_eq|by rewrite lookup_insert_ne].
  - rewrite msum_insert, N, A. destruct (w_accounts w !! a); cbn; lia.
  - rewrite dom_insert. set_solver.
Qed.
Lemma put_line_rep w v h a l u w' : rep w v -> put_line h a l w = Ok (u, w') -> rep w' (v_line (h, asset_key a) l v).
Proof.
  intros [W A N L I Re O Wn B S K] ->%wupd_Ok. split; cbn; try done.
  - destruct W. split; try done. by apply cache_ok_write.
  - rewrite L, kmap_insert by apply _. by rewrite insert_union_l.
Qed.
Lemma write_reserve_rep w v h a n u w' : rep w v -> write_reserve h a n w = Ok (u, w') -> rep w' (v_res (h, a) n v).
Proof.
  intros [W A N L I Re O Wn B S K] ->%wupd_Ok. split; cbn; try done.
  - destruct W. split; try done. by apply cache_ok_write.
  - intros x. unfold upd. destruct (decide (x = (h, a))) as [->|]; [by rewrite lookup_insert_eq|by rewrite lookup_insert_ne].
Qed.
Lemma bump_rep w v a n issue u w' :
  rep w v -> bump_liability ts a n issue w = Ok (u, w') ->
  let next := if issue then vi v a + n else vi v a - n in
  rep w' (v_liab a next v) /\ if issue then next <= u64_max else 0 <= next.
Proof.
  intros R H. unfold bump_liability in H. apply rbind_Ok in H as (c & Hc & H).
  assert (c = vi v a) as ->.
  { rewrite (r_i _ _ R). destruct (cached (w_liability w) !! a); [by injection Hc as <-|]. by apply load_liability_Ok in Hc. }
  apply rbind_Ok in H as (next & Hn & H). apply Ok_inj, pair_eq in H as [_ <-].
  assert (next = (if issue then vi v a + n else vi v a - n) /\ (if issue then next <= u64_max else 0 <= next)) as [-> Hb].
  { destruct issue; apply ok_or_Ok in Hn; [apply checked_add_Some in Hn|apply checked_sub_Some in Hn]; lia. }
  cbv zeta. split; [|done]. destruct R as [W A N L I Re O Wn B S K]. split; cbn; try done.
  - destruct W. split; try done. by apply cache_ok_write.
  - intros x. unfold upd. destruct (decide (x = a)) as [->|]; [by rewrite lookup_insert_eq|by rewrite lookup_insert_ne].
Qed.
Lemma alloc_rep w v n w' : rep w v -> alloc_sequence w = Ok (n, w') -> n = vs v + 1 /\ n <= u64_max /\ rep w' (v_seq n v).
Proof.
  intros R H. unfold alloc_sequence in H. wstep H. apply wget_Ok in E as [-> ->]. wstep H. apply wlift_Ok in E as [E ->].
  apply ok_or_Ok, checked_add_Some in E as [-> Hle]. wstep H. apply wupd_Ok in E as ->. apply wret_Ok in H as [-> ->].
  rewrite (r_s _ _ R). split; [done|]. split; [lia|]. destruct R as [W A N L I Re O Wn B S K]. split; cbn; try done. by destruct W.
Qed.
(** The offers of the view. *)
Lemma rep_set_offer w v id o :
  rep w v -> is_Some (vo v !! id) -> rep (set_offers w (<[id := o]> (w_offers w)) (w_deleted w)) (v_off (<[id := o]> (vo v)) v).
Proof.
  intros [W A N L I Re O Wn B S K] Hid. split; cbn; try done; [by destruct W|]. apply map_eq. intros id'.
  rewrite O in Hid. rewrite live_lookup in Hid. rewrite live_lookup, O. cbn. destruct (decide (id = id')) as [<-|Hne].
  - rewrite !lookup_insert_eq. destruct (decide _); [by destruct Hid|done].
  - rewrite !lookup_insert_ne by done. by rewrite live_lookup.
Qed.
Lemma rep_new_offer w v id o :
  rep w v -> rep (set_offers w (<[id := o]> (w_offers w)) (w_deleted w ∖ {[id]})) (v_off (<[id := o]> (vo v)) v).
Proof.
  intros [W A N L I Re O Wn B S K]. split; cbn; try done; [by destruct W|]. apply map_eq. intros id'.
  rewrite live_lookup, O. cbn. destruct (decide (id = id')) as [<-|Hne].
  - rewrite !lookup_insert_eq. rewrite decide_False by set_solver. done.
  - rewrite !lookup_insert_ne by done. rewrite live_lookup. destruct (decide (id' ∈ w_deleted w)), (decide (id' ∈ w_deleted w ∖ {[id]})); set_solver.
Qed.
Lemma rep_drop_offer w v id :
  rep w v -> rep (set_offers w (delete id (w_offers w)) ({[id]} ∪ w_deleted w)) (v_off (delete id (vo v)) v).
Proof.
  intros [W A N L I Re O Wn B S K]. split; cbn; try done; [by destruct W|]. apply map_eq. intros id'.
  rewrite live_lookup, O. cbn. destruct (decide (id = id')) as [<-|Hne].
  - rewrite !lookup_delete_eq. by rewrite decide_True by set_solver.
  - rewrite !lookup_delete_ne by done. rewrite live_lookup. destruct (decide (id' ∈ w_deleted w)), (decide (id' ∈ {[id]} ∪ w_deleted w)); set_solver.
Qed.
Lemma rep_owner_write w v a ids : rep w v -> rep (set_owners w (cache_write (w_owners w) a ids)) (v_own a ids v).
Proof.
  intros [W A N L I Re O Wn B S K]. split; cbn; try done.
  - destruct W. split; try done. by apply cache_ok_write.
  - intros x. unfold upd. destruct (decide (x = a)) as [->|]; [by rewrite lookup_insert_eq|by rewrite lookup_insert_ne].
Qed.
Lemma rep_book_write w v k b ids :
  rep w v -> book_key b = k -> rep (set_books w (cache_write (w_books w) k (b, ids))) (v_bk k ids v).
Proof.
  intros [W A N L I Re O Wn B S K] <-. split; cbn; try done.
  - destruct W. split; try done; [by apply cache_ok_write|]. cbn. intros k e [[<- <-]|[_ Hk]]%lookup_insert_Some; [done|eauto].
  - intros x. unfold upd. destruct (decide (x = book_key b)) as [->|]; [by rewrite lookup_insert_eq|by rewrite lookup_insert_ne].
Qed.

(** ** Composite operations *)

Lemma rep_add0 w v a : rep w v -> rep w (v_add a 0 v).
Proof.
  intros [W A N L I Re O Wn B S K]. split; cbn; try done.
  - intros x. rewrite <- A. unfold upd. destruct (decide (x = a)) as [->|]; [|done]. rewrite Z.add_0_r. by destruct (va v a).
  - rewrite <- N. lia.
Qed.
Lemma rep_res0 w v x n : rep w v -> vr v x = n -> rep w (v_res x n v).
Proof.
  intros [W A N L I Re O Wn B S K] Hn. split; cbn; try done. intros y. rewrite <- Re. unfold upd. by destruct (decide (y = x)) as [->|].
Qed.
Lemma debit_rep w v a n u w' :
  rep w v -> debit_native s a n w = Ok (u, w') -> (n = 0 \/ n <= balance (va v a)) /\ rep w' (v_add a (- n) v).
Proof.
  intros R H. unfold debit_native in H. destruct (Z.eqb_spec n 0) as [->|Hn].
  { apply wret_Ok in H as [_ ->]. split; [by left|by apply rep_add0]. }
  wstep H. destruct (account_rep _ _ _ _ _ R E) as [-> R1]. wstep H. apply wlift_Ok in E0 as [E0 ->]. apply ensure_Ok in E0.
  split; [right; lia|]. by apply (put_account_rep _ _ _ _ _ _ R1) in H.
Qed.
Lemma credit_rep w v a n u w' :
  rep w v -> credit_native s a n w = Ok (u, w') -> (n = 0 \/ balance (va v a) + n <= u64_max) /\ rep w' (v_add a n v).
Proof.
  intros R H. unfold credit_native in H. destruct (Z.eqb_spec n 0) as [->|Hn].
  { apply wret_Ok in H as [_ ->]. split; [by left|by apply rep_add0]. }
  wstep H. destruct (account_rep _ _ _ _ _ R E) as [-> R1]. wstep H. apply wlift_Ok in E0 as [E0 ->].
  apply ok_or_Ok, checked_add_Some in E0 as [-> Hle]. split; [right; lia|]. by apply (put_account_rep _ _ _ _ _ _ R1) in H.
Qed.
Lemma add_reserve_rep w v h a n u w' :
  rep w v -> add_reserve ts h a n w = Ok (u, w') -> rep w' (v_res (h, a) (vr v (h, a) + n) v).
Proof.
  intros R H. unfold add_reserve in H. destruct (Z.eqb_spec n 0) as [->|Hn].
  { apply wret_Ok in H as [_ ->]. apply rep_res0; [done|lia]. }
  wstep H. destruct (reserve_rep _ _ _ _ _ _ R E) as [-> R1]. wstep H. apply wlift_Ok in E0 as [E0 ->].
  apply ok_or_Ok, checked_add_Some in E0 as [-> Hle]. by apply (write_reserve_rep _ _ _ _ _ _ _ R1) in H.
Qed.
Lemma sub_reserve_rep w v h a n u w' :
  rep w v -> sub_reserve ts h a n w = Ok (u, w') -> (n = 0 \/ n <= vr v (h, a)) /\ rep w' (v_res (h, a) (vr v (h, a) - n) v).
Proof.
  intros R H. unfold sub_reserve in H. destruct (Z.eqb_spec n 0) as [->|Hn].
  { apply wret_Ok in H as [_ ->]. split; [by left|]. apply rep_res0; [done|lia]. }
  wstep H. destruct (reserve_rep _ _ _ _ _ _ R E) as [-> R1]. wstep H. apply wlift_Ok in E0 as [E0 ->]. apply ensure_Ok in E0.
  split; [right; lia|]. by apply (write_reserve_rep _ _ _ _ _ _ _ R1) in H.
Qed.

(** What its owner can sell of an asset. *)
Definition free_units (v : View) (owner : Address) (asset : DrcBookAsset) : Z :=
  match asset with
  | NativeDrc => balance (va v owner)
  | Issued a => if owner =? ia_issuer a then u64_max else
      match vl v !! (owner, asset_key a) with Some l => saturating_sub (tl_balance l) (vr v (owner, a)) | None => 0 end
  end.
Lemma can_fund_rep w v owner asset n r w' :
  rep w v -> seller_can_fund s ts owner asset n w = Ok (r, w') -> rep w' v /\ (r = true -> n <= u64_max -> n <= free_units v owner asset).
Proof.
  intros R H. unfold seller_can_fund in H. destruct (n =? 0); [by apply wret_Ok in H as [-> ->]|].
  destruct asset as [|a]; cbn [free_units].
  - wstep H. destruct (account_rep _ _ _ _ _ R E) as [-> R1]. apply wret_Ok in H as [-> ->]. split; [done|]. lia.
  - destruct (owner =? ia_issuer a); [by apply wret_Ok in H as [-> ->]|].
    wstep H. destruct (line_rep _ _ _ _ _ _ R E) as [-> R1]. destruct (vl v !! _) as [l|]; [|by apply wret_Ok in H as [-> ->]].
    wstep H. destruct (policy_rep _ _ _ _ _ R1 E0) as [-> R2]. destruct (_ || _); [by apply wret_Ok in H as [-> ->]|].
    wstep H. destruct (reserve_rep _ _ _ _ _ _ R2 E1) as [-> R3]. apply wret_Ok in H as [-> ->]. rewrite normalize_balance. split; [done|]. lia.
Qed.

(** Removing and adding an offer, with its index entries. *)
Definition v_drop (o : DrcOfferLive) (v : View) : View :=
  v_bk (book_key (of_book o)) (drop_id (of_offer_id o) (vb v (book_key (of_book o))))
    (v_own (of_owner o) (drop_id (of_offer_id o) (vw v (of_owner o))) (v_off (delete (of_offer_id o) (vo v)) v)).
Definition v_unreserve (o : DrcOfferLive) (n : Z) (v : View) : View :=
  match issued (of_taker_gets o) with
  | Some a => if of_owner o =? ia_issuer a then v else v_res (of_owner o, a) (vr v (of_owner o, a) - n) v
  | None => v
  end.
Definition v_insert (o : DrcOfferLive) (v : View) : View :=
  v_bk (book_key (of_book o)) (push_new (of_offer_id o) (vb v (book_key (of_book o))))
    (v_own (of_owner o) (push_new (of_offer_id o) (vw v (of_owner o))) (v_off (<[of_offer_id o := o]> (vo v)) v)).
Context (books_load : forall b, exists l, load_book os b = Ok l).
Lemma unlist_rep w v o u w' : rep w v -> unlist_offer os o w = Ok (u, w') -> rep w' (v_drop o v).
Proof.
  intros R H. unfold unlist_offer in H. wstep H. apply wupd_Ok in E as ->. apply (rep_drop_offer _ _ (of_offer_id o)) in R.
  wstep H. destruct (owner_rep _ _ _ _ _ R E) as [-> R1]. wstep H. apply wupd_Ok in E0 as ->.
  apply (rep_owner_write _ _ (of_owner o) (drop_id (of_offer_id o) (vw v (of_owner o)))) in R1. apply wupd_Ok in H as ->.
  match goal with |- rep (set_books ?x (cache_write _ _ (?b, _))) _ => assert (book_key b = book_key (of_book o)) as Hk end.
  { destruct (cached _ !! _) as [e|] eqn:Ee; [|done]. by apply (wf_bkey _ (r_wf _ _ R1)) in Ee. }
  pose proof (r_b _ _ R1 (book_key (of_book o))) as Hb. cbn in Hb.
  eapply (rep_book_write _ _ _ _ _) in R1; [|exact Hk]. unfold v_drop. cbn [v_own v_off vw vb] in *.
  replace (drop_id (of_offer_id o) (vb v (book_key (of_book o)))) with
    (drop_id (of_offer_id o) (match cached (w_books w0) !! book_key (of_book o) with
       | Some e => e | None => (of_book o, match load_book os (of_book o) with Ok l => of_offer_id <$> l | Err _ => [] end) end).2); [exact R1|].
  f_equal. rewrite Hb. destruct (cached (w_books w0) !! _) as [e|]; [done|]. destruct (books_load (of_book o)) as [l Hl]. rewrite Hl.
  by destruct (load_book_Ok _ _ Hl).
Qed.
Lemma release_rep w v o u w' :
  rep w v -> 0 <= of_native_locked o -> release_offer s ts os o w = Ok (u, w') ->
  (of_native_locked o = 0 \/ balance (va v (of_owner o)) + of_native_locked o <= u64_max) /\
  rep w' (v_drop o (v_unreserve o (of_taker_gets_remaining o) (v_add (of_owner o) (of_native_locked o) v))).
Proof.
  intros R Hl H. unfold release_offer in H. wstep H.
  assert ((of_native_locked o = 0 \/ balance (va v (of_owner o)) + of_native_locked o <= u64_max) /\
    rep w0 (v_add (of_owner o) (of_native_locked o) v)) as [Hb R1].
  { destruct (Z.ltb_spec 0 (of_native_locked o)); [by eapply credit_rep|]. apply wret_Ok in E as [_ ->].
    assert (of_native_locked o = 0) as -> by lia. split; [by left|by apply rep_add0]. }
  split; [done|]. wstep H. apply (unlist_rep w1 _ _ u); [|done].
  unfold v_unreserve. destruct (issued (of_taker_gets o)) as [a|]; [|by apply wret_Ok in E0 as [_ ->]].
  destruct (of_owner o =? ia_issuer a); [by apply wret_Ok in E0 as [_ ->]|]. by eapply sub_reserve_rep in E0 as [_ E0].
Qed.
Lemma owner_cached w a r w' : owner_ids os a w = Ok (r, w') -> cached (w_owners w') !! a = Some r.
Proof.
  unfold owner_ids. intros H. destruct (cached (w_owners w) !! a) as [x|] eqn:Ea; [by apply Ok_inj, pair_eq in H as [<- <-]|].
  apply rbind_Ok in H as (ids & _ & H). apply Ok_inj, pair_eq in H as [<- <-]. apply lookup_insert_eq.
Qed.
Lemma insert_rep w v o u w' :
  rep w v -> insert_offer os o w = Ok (u, w') ->
  validate_offer_live o = Ok tt /\ (length (vw v (of_owner o)) < 32)%nat /\ (length (vb v (book_key (of_book o))) < 256)%nat /\
  rep w' (v_insert o v).
Proof.
  intros R H. unfold insert_offer in H. wstep H. apply wlift_Ok in E as [E ->].
  split; [by destruct (validate_offer_live o) as [[]|]|].
  wstep H. pose proof (owner_cached _ _ _ _ E0) as Hc. destruct (owner_rep _ _ _ _ _ R E0) as [-> R1].
  wstep H. apply wlift_Ok in E1 as [E1 ->]. apply ensure_Ok, negb_true_iff, Nat.leb_gt in E1. split; [exact E1|].
  wstep H. destruct (book_length_rep _ _ _ _ _ R1 E2) as [-> ->].
  wstep H. apply wlift_Ok in E3 as [E3 ->]. apply ensure_Ok, negb_true_iff, Nat.leb_gt in E3. split; [exact E3|].
  wstep H. apply wupd_Ok in E4 as ->. apply (rep_new_offer _ _ (of_offer_id o) o) in R1.
  wstep H. apply wupd_Ok in E4 as ->. cbn [w_owners set_offers] in H. rewrite Hc in H. cbn [default] in H.
  apply (rep_owner_write _ _ (of_owner o) (push_new (of_offer_id o) (vw v (of_owner o)))) in R1.
  apply wbind_Ok in H as ([] & w1 & Hload & H). 
  assert (rep w1 (v_own (of_owner o) (push_new (of_offer_id o) (vw v (of_owner o))) (v_off (<[of_offer_id o:=o]> (vo v)) v)) /\
    is_Some (cached (w_books w1) !! book_key (of_book o))) as [R2 [e He]].
  { destruct (cached (w_books _) !! book_key (of_book o)) as [e|] eqn:Ee.
    - apply Ok_inj, pair_eq in Hload as [_ <-]. split; [exact R1|]. rewrite Ee. by eexists.
    - apply rbind_Ok in Hload as (l & [Hi _]%load_book_Ok & Hload). apply Ok_inj, pair_eq in Hload as [_ <-]. rewrite Hi.
      split; [by apply rep_book_load|]. cbn. rewrite lookup_insert_eq. by eexists. }
  apply wupd_Ok in H as ->. rewrite He. cbn [default]. unfold v_insert.
  pose proof (r_b _ _ R2 (book_key (of_book o))) as Hb. rewrite He in Hb. cbn in Hb. rewrite Hb.
  apply rep_book_write; [done|]. by apply (wf_bkey _ (r_wf _ _ R2)) in He.
Qed.
Lemma persist_rep w v o u w' :
  rep w v -> is_Some (vo v !! of_offer_id o) -> persist_offer o w = Ok (u, w') ->
  validate_offer_live o = Ok tt /\ rep w' (v_off (<[of_offer_id o := o]> (vo v)) v).
Proof.
  intros R Hs H. unfold persist_offer in H. wstep H. apply wlift_Ok in E as [E ->]. apply wupd_Ok in H as ->.
  split; [by destruct (validate_offer_live o) as [[]|]|]. by apply rep_set_offer.
Qed.
(** Placing an offer sets aside what it sells. *)
Definition v_reserve (o : DrcOfferLive) (v : View) : View :=
  match of_taker_gets o with
  | NativeDrc => v_add (of_owner o) (- of_taker_gets_remaining o) v
  | Issued a => if of_owner o =? ia_issuer a then v
                else v_res (of_owner o, a) (vr v (of_owner o, a) + of_taker_gets_remaining o) v
  end.
Definition with_lock (o : DrcOfferLive) : DrcOfferLive :=
  if is_native (of_taker_gets o) then with_remaining o (of_taker_gets_remaining o) (of_taker_pays_remaining o) (of_taker_gets_remaining o) else o.
Lemma reserve_new_rep w v o u w' :
  rep w v -> reserve_new s ts os o w = Ok (u, w') ->
  validate_offer_live (with_lock o) = Ok tt /\ (length (vw v (of_owner o)) < 32)%nat /\
  (length (vb v (book_key (of_book o))) < 256)%nat /\ rep w' (v_insert (with_lock o) (v_reserve o v)) /\
  match of_taker_gets o with
  | NativeDrc => of_taker_gets_remaining o = 0 \/ of_taker_gets_remaining o <= balance (va v (of_owner o))
  | Issued a => of_owner o <> ia_issuer a ->
      exists l, vl v !! (of_owner o, asset_key a) = Some l /\ as_u64 (vr v (of_owner o, a) + of_taker_gets_remaining o) <= tl_balance l
  end.
Proof.
  intros R H. unfold reserve_new, with_lock, v_reserve in *. destruct (of_taker_gets o) as [|a] eqn:Eg; cbn [is_native].
  - wstep H. destruct (debit_rep _ _ _ _ _ _ R E) as [Hd R1]. by apply (insert_rep _ _ _ _ _ R1) in H as (H1 & H2 & H3 & H4).
  - wstep H. destruct (Z.eqb_spec (of_owner o) (ia_issuer a)) as [Ei|Ei].
    + apply wret_Ok in E as [_ ->]. by apply (insert_rep _ _ _ _ _ R) in H as (H1 & H2 & H3 & H4).
    + wstep E. destruct (line_rep _ _ _ _ _ _ R E0) as [-> R1]. wstep E. apply wlift_Ok in E1 as [E1 ->]. apply ok_or_Ok in E1.
      wstep E. destruct (reserve_rep _ _ _ _ _ _ R1 E2) as [-> R2]. wstep E. apply wlift_Ok in E3 as [E3 ->]. apply ensure_Ok in E3.
      apply (add_reserve_rep _ _ _ _ _ _ _ R2) in E. apply (insert_rep _ _ _ _ _ E) in H as (H1 & H2 & H3 & H4).
      split; [done|]. split; [done|]. split; [done|]. split; [done|]. intros _. exists r0. split; [done|]. lia.
Qed.

(** ** Transfers *)

(** In the view, lines read as the controls read them. *)
Definition normal (v : View) : Prop :=
  forall h a l, vl v !! (h, asset_key a) = Some l -> normalize_trust_line_live l (policy_of ts a) = l.
Definition in_gate (v : View) (a : IssuedAssetId) (h : Address) (kind : IssuedMovementKind) (n : Z) : bool :=
  match vl v !! (h, asset_key a) with
  | Some l => is_ok (issued_movement_allowed (policy_of ts a) l kind) && (n <=? tl_limit l - tl_balance l)
  | None => false
  end.
Definition out_gate (v : View) (a : IssuedAssetId) (h : Address) (kind : IssuedMovementKind) (n : Z) : bool :=
  match vl v !! (h, asset_key a) with
  | Some l => is_ok (issued_movement_allowed (policy_of ts a) l kind) && (n <=? tl_balance l)
  | None => false
  end.
(** Whether [n] of an asset can move. *)
Definition gate (v : View) (from to : Address) (asset : DrcBookAsset) (n : Z) (lock : bool) : bool :=
  match asset with
  | NativeDrc => lock || (n <=? balance (va v from))
  | Issued a =>
      if from =? ia_issuer a then in_gate v a to Issue n
      else if to =? ia_issuer a then out_gate v a from Redeem n
      else out_gate v a from HolderTransfer n && in_gate v a to HolderTransfer n
  end.
Definition v_bal (x : Address * Hash) (n : Z) (v : View) : View :=
  match vl v !! x with Some l => v_line x (with_balance l (tl_balance l + n)) v | None => v end.
Definition v_transfer (from to : Address) (asset : DrcBookAsset) (n : Z) (lock : bool) (v : View) : View :=
  match asset with
  | NativeDrc => v_add to n (if lock then v else v_add from (- n) v)
  | Issued a =>
      if from =? ia_issuer a then v_liab a (vi v a + n) (v_bal (to, asset_key a) n v)
      else if to =? ia_issuer a then v_liab a (vi v a - n) (v_bal (from, asset_key a) (- n) v)
      else v_bal (to, asset_key a) n (v_bal (from, asset_key a) (- n) v)
  end.
(** The limits a real transfer has kept. *)
Definition fits (v : View) (from to : Address) (asset : DrcBookAsset) (n : Z) (lock : bool) : Prop :=
  match asset with
  | NativeDrc => balance (va (if lock then v else v_add from (- n) v) to) + n <= u64_max
  | Issued a =>
      if from =? ia_issuer a then vi v a + n <= u64_max else if to =? ia_issuer a then 0 <= vi v a - n else True
  end.
Lemma v_bal_some v x n l : vl v !! x = Some l -> v_bal x n v = v_line x (with_balance l (tl_balance l + n)) v.
Proof. unfold v_bal. by intros ->. Qed.
Lemma transfer_native w v from to n lock dry g w' :
  rep w v -> 0 < n -> transfer s ts from to NativeDrc n lock dry w = Ok (g, w') ->
  if gate v from to NativeDrc n lock
  then g = Done /\ rep w' (if dry then v else v_transfer from to NativeDrc n lock v) /\ (dry = false -> fits v from to NativeDrc n lock)
  else g = SkipGate /\ rep w' v.
Proof.
  intros R Hn H. unfold transfer in H. rewrite (proj2 (Z.eqb_neq n 0)) in H by lia. cbn [gate v_transfer fits].
  destruct lock; cbn [orb].
  - destruct dry; [by apply wret_Ok in H as [-> ->]|]. wstep H. destruct (credit_rep _ _ _ _ _ _ R E) as [Hb R1].
    apply wret_Ok in H as [-> ->]. split; [done|]. split; [done|]. lia.
  - wstep H. destruct (account_rep _ _ _ _ _ R E) as [-> R1].
    destruct (Z.ltb_spec (balance (va v from)) n) as [Hl|Hl].
    + rewrite (proj2 (Z.leb_gt _ _) Hl). by apply wret_Ok in H as [-> ->].
    + rewrite (proj2 (Z.leb_le _ _) Hl). destruct dry; [by apply wret_Ok in H as [-> ->]|].
      wstep H. destruct (debit_rep _ _ _ _ _ _ R1 E0) as [_ R2]. wstep H. destruct (credit_rep _ _ _ _ _ _ R2 E1) as [Hb R3].
      apply wret_Ok in H as [-> ->]. split; [done|]. split; [done|]. intros _. lia.
Qed.
Lemma transfer_issued w v from to a n lock dry g w' :
  rep w v -> normal v -> 0 < n -> (from <> to \/ from = ia_issuer a) -> transfer s ts from to (Issued a) n lock dry w = Ok (g, w') ->
  if gate v from to (Issued a) n lock
  then g = Done /\ rep w' (if dry then v else v_transfer from to (Issued a) n lock v) /\ (dry = false -> fits v from to (Issued a) n lock)
  else g = SkipGate /\ rep w' v.
Proof.
  intros R Hnm Hn Hne H. unfold transfer in H. rewrite (proj2 (Z.eqb_neq n 0)) in H by lia. cbn [gate v_transfer fits].
  unfold in_gate, out_gate.
  destruct ((from =? ia_issuer a) && (to =? ia_issuer a)) eqn:Eb; [done|].
  wstep H. destruct (policy_rep _ _ _ _ _ R E) as [-> R1]. destruct (Z.eqb_spec from (ia_issuer a)) as [Hf|Hf].
  - wstep H. destruct (line_rep _ _ _ _ _ _ R1 E0) as [-> R2]. destruct (vl v !! _) as [l|] eqn:El; [|by apply wret_Ok in H as [-> ->]].
    rewrite (Hnm _ _ _ El) in H. destruct (is_ok _); cbn [negb andb] in H |- *; [|by apply wret_Ok in H as [-> ->]].
    wstep H. apply wlift_Ok in E1 as [E1 ->]. unfold available_limit in E1.
    destruct (checked_sub (tl_limit l) (tl_balance l)) as [room|] eqn:Er; [|done]. apply Ok_inj in E1 as ->.
    apply checked_sub_Some in Er as [-> Hle].
    destruct (Z.ltb_spec (tl_limit l - tl_balance l) n) as [Hlt|Hlt];
      [rewrite (proj2 (Z.leb_gt _ _) Hlt); by apply wret_Ok in H as [-> ->]|].
    rewrite (proj2 (Z.leb_le _ _) Hlt). destruct dry; [by apply wret_Ok in H as [-> ->]|].
    wstep H. apply wlift_Ok in E1 as [E1 ->]. apply ok_or_Ok, checked_add_Some in E1 as [-> Hub].
    wstep H. apply (put_line_rep _ _ _ _ _ _ _ R2) in E1. wstep H. destruct (bump_rep _ _ _ _ _ _ _ E1 E2) as [R3 Hbd]. cbv zeta in *.
    apply wret_Ok in H as [-> ->]. split; [done|]. rewrite (v_bal_some _ _ _ _ El). by split.
  - destruct (Z.eqb_spec to (ia_issuer a)) as [Ht|Ht].
    + wstep H. destruct (line_rep _ _ _ _ _ _ R1 E0) as [-> R2]. destruct (vl v !! _) as [l|] eqn:El; [|by apply wret_Ok in H as [-> ->]].
      rewrite (Hnm _ _ _ El) in H. destruct (is_ok _); cbn [negb andb] in H |- *; [|by apply wret_Ok in H as [-> ->]].
      destruct (Z.ltb_spec (tl_balance l) n) as [Hlt|Hlt];
        [rewrite (proj2 (Z.leb_gt _ _) Hlt); by apply wret_Ok in H as [-> ->]|].
      rewrite (proj2 (Z.leb_le _ _) Hlt). destruct dry; [by apply wret_Ok in H as [-> ->]|].
      wstep H. apply wlift_Ok in E1 as [E1 ->]. apply ok_or_Ok, checked_sub_Some in E1 as [-> Hub].
      wstep H. apply (put_line_rep _ _ _ _ _ _ _ R2) in E1. wstep H. destruct (bump_rep _ _ _ _ _ _ _ E1 E2) as [R3 Hbd]. cbv zeta in *.
      apply wret_Ok in H as [-> ->]. split; [done|]. rewrite (v_bal_some _ _ _ _ El). rewrite Z.add_opp_r. by split.
    + destruct Hne as [Hne|]; [|done].
      wstep H. destruct (line_rep _ _ _ _ _ _ R1 E0) as [-> R2].
      destruct (vl v !! (from, asset_key a)) as [l|] eqn:El; [|by apply wret_Ok in H as [-> ->]].
      wstep H. destruct (line_rep _ _ _ _ _ _ R2 E1) as [-> R3].
      destruct (vl v !! (to, asset_key a)) as [m|] eqn:Em; [|rewrite andb_false_r; by apply wret_Ok in H as [-> ->]].
      rewrite (Hnm _ _ _ El), (Hnm _ _ _ Em) in H.
      destruct (is_ok (issued_movement_allowed _ l _)); cbn [negb andb orb] in H |- *; [|by apply wret_Ok in H as [-> ->]].
      destruct (is_ok (issued_movement_allowed _ m _)); cbn [negb andb orb] in H |- *; [|rewrite andb_false_r; by apply wret_Ok in H as [-> ->]].
      wstep H. apply wlift_Ok in E2 as [E2 ->]. unfold available_limit in E2.
      destruct (checked_sub (tl_limit m) (tl_balance m)) as [room|] eqn:Er; [|done]. apply Ok_inj in E2 as ->.
      apply checked_sub_Some in Er as [-> Hle].
      destruct (_ || _) eqn:Eo.
      { assert ((n <=? tl_balance l) && (n <=? tl_limit m - tl_balance m) = false) as -> by lia. by apply wret_Ok in H as [-> ->]. }
      assert ((n <=? tl_balance l) && (n <=? tl_limit m - tl_balance m) = true) as -> by lia.
      destruct dry; [by apply wret_Ok in H as [-> ->]|].
      wstep H. apply wlift_Ok in E2 as [E2 ->]. apply ok_or_Ok, checked_sub_Some in E2 as [-> Hub].
      wstep H. apply wlift_Ok in E2 as [E2 ->]. apply ok_or_Ok, checked_add_Some in E2 as [-> Hub2].
      wstep H. apply (put_line_rep _ _ _ _ _ _ _ R3) in E2. wstep H. apply (put_line_rep _ _ _ _ _ _ _ E2) in E3.
      apply wret_Ok in H as [-> ->]. split; [done|]. rewrite (v_bal_some _ _ (- n) _ El). rewrite Z.add_opp_r.
      rewrite (v_bal_some _ (to, _) n m); [by split|]. cbn. rewrite lookup_insert_ne; [done|]. congruence.
Qed.
Lemma transfer_rep w v from to asset n lock dry g w' :
  rep w v -> normal v -> 0 < n -> (from <> to \/ is_native asset = true \/ exists a, asset = Issued a /\ from = ia_issuer a) ->
  transfer s ts from to asset n lock dry w = Ok (g, w') ->
  if gate v from to asset n lock
  then g = Done /\ rep w' (if dry then v else v_transfer from to asset n lock v) /\ (dry = false -> fits v from to asset n lock)
  else g = SkipGate /\ rep w' v.
Proof.
  intros R Hnm Hn Hne H. destruct asset as [|a]; [by eapply transfer_native|]. eapply transfer_issued; try done.
  destruct Hne as [?|[?|(a' & [= <-] & ?)]]; [by left|done|by right].
Qed.

(** ** One maker *)

(** What a resting offer can deliver. *)
Definition maker_units (v : View) (m : DrcOfferLive) : Z :=
  match of_taker_gets m with
  | NativeDrc => of_native_locked m
  | Issued a => if of_owner m =? ia_issuer a then u64_max else
      match vl v !! (of_owner m, asset_key a) with Some l => Z.min (of_taker_gets_remaining m) (tl_balance l) | None => 0 end
  end.
Lemma deliverable_maker w v m r w' :
  rep w v -> deliverable s ts (of_owner m) (of_taker_gets m) true m w = Ok (r, w') -> r = maker_units v m /\ rep w' v.
Proof.
  intros R H. unfold deliverable, maker_units in *. destruct (of_taker_gets m) as [|a].
  - rewrite Z.eqb_refl in H. by apply wret_Ok in H as [-> ->].
  - destruct (of_owner m =? ia_issuer a); [by apply wret_Ok in H as [-> ->]|].
    wstep H. destruct (line_rep _ _ _ _ _ _ R E) as [-> R1]. destruct (vl v !! _) as [l|]; [|by apply wret_Ok in H as [-> ->]].
    wstep H. destruct (reserve_rep _ _ _ _ _ _ R1 E0) as [-> R2]. rewrite Z.eqb_refl, bool_decide_eq_true_2 in H by done.
    by apply wret_Ok in H as [-> ->].
Qed.
Lemma deliverable_taker w v m owner asset r w' :
  rep w v -> deliverable s ts owner asset false m w = Ok (r, w') -> r = free_units v owner asset /\ rep w' v.
Proof.
  intros R H. unfold deliverable, free_units in *. cbn [andb] in H. destruct asset as [|a].
  - wstep H. destruct (account_rep _ _ _ _ _ R E) as [-> R1]. by apply wret_Ok in H as [-> ->].
  - destruct (owner =? ia_issuer a); [by apply wret_Ok in H as [-> ->]|].
    wstep H. destruct (line_rep _ _ _ _ _ _ R E) as [-> R1]. destruct (vl v !! _) as [l|]; [|by apply wret_Ok in H as [-> ->]].
    wstep H. destruct (reserve_rep _ _ _ _ _ _ R1 E0) as [-> R2]. by apply wret_Ok in H as [-> ->].
Qed.
Lemma unfunded_rep w v m r w' :
  rep w v -> maker_unfunded ts m w = Ok (r, w') -> (r = RemoveMaker \/ r = Skip) /\ rep w' v.
Proof.
  intros R H. unfold maker_unfunded in H. destruct (of_taker_gets m) as [|a]; [apply wret_Ok in H as [-> ->]; auto|].
  destruct (of_owner m =? ia_issuer a); [apply wret_Ok in H as [-> ->]; auto|].
  wstep H. destruct (line_rep _ _ _ _ _ _ R E) as [-> R1]. destruct (vl v !! _) as [l|]; [|apply wret_Ok in H as [-> ->]; auto].
  wstep H. destruct (policy_rep _ _ _ _ _ R1 E0) as [-> R2]. apply wret_Ok in H as [-> ->]. split; [case_match; auto|done].
Qed.

(** The terms of a fill: the amounts, and that both sides could pay. *)
Record fill_terms (v : View) (taker : Address) (gets pays : DrcBookAsset) (m : DrcOfferLive) (gr pr paid received : Z) : Prop := {
  ft_cross : offers_cross gr pr (of_taker_gets_remaining m) (of_taker_pays_remaining m) = true;
  ft_step : offer_fill_step (of_taker_gets_remaining m) (of_taker_pays_remaining m)
      (Z.min (Z.min pr (of_taker_gets_remaining m)) (maker_units v m))
      (Z.min (Z.min gr (of_taker_pays_remaining m)) (free_units v taker gets)) = Some (received, paid);
  ft_pay : gate v taker (of_owner m) gets paid false = true;
  ft_receive : gate v (of_owner m) taker pays received true = true;
  ft_pay_fits : fits v taker (of_owner m) gets paid false;
  ft_receive_fits : fits (v_transfer taker (of_owner m) gets paid false v) (of_owner m) taker pays received true;
}.
Definition filled_maker (m : DrcOfferLive) (paid received : Z) : DrcOfferLive :=
  with_remaining m (of_taker_gets_remaining m - received) (of_taker_pays_remaining m - paid)
    (if is_native (of_taker_gets m) then saturating_sub (of_native_locked m) received else of_native_locked m).
Definition v_fill (taker : Address) (gets pays : DrcBookAsset) (m : DrcOfferLive) (paid received : Z) (v : View) : View :=
  let v1 := v_unreserve m received (v_transfer (of_owner m) taker pays received true (v_transfer taker (of_owner m) gets paid false v)) in
  v_off (<[of_offer_id m := filled_maker m paid received]> (vo v1)) v1.

Lemma normal_transfer v from to asset n lock : normal v -> normal (v_transfer from to asset n lock v).
Proof.
  intros Hn. assert (forall x n v, normal v -> normal (v_bal x n v)) as Hb.
  { clear. intros x n v Hn. unfold v_bal. destruct (vl v !! x) as [l0|] eqn:El; [|done]. intros h a l. cbn.
    intros [[-> <-]|[_ Hl]]%lookup_insert_Some; [|by eapply Hn]. specialize (Hn _ _ _ El).
    unfold normalize_trust_line_live in *. cbn. destruct (_ =? _); [|done]. unfold with_flags, with_balance in *. cbn.
    destruct l0; cbn in *. by injection Hn as ->. }
  unfold v_transfer. destruct asset as [|a]; [by destruct lock|]. repeat case_match; [by apply (Hb _ _ v)|by apply (Hb _ _ v)|by apply Hb, Hb].
Qed.
Lemma vl_bal_ne x n v y : x <> y -> vl (v_bal x n v) !! y = vl v !! y.
Proof. intros Hne. unfold v_bal. destruct (vl v !! x); [|done]. cbn. by rewrite lookup_insert_ne. Qed.
(** Paying in one asset leaves the other side's gate as it was. *)
Lemma gate_other v from to asset n lock from' to' asset' n' :
  asset <> asset' -> gate (v_transfer from to asset n lock v) from' to' asset' n' true = gate v from' to' asset' n' true.
Proof.
  intros Hne. destruct asset' as [|a']; [done|].
  assert (forall h, vl (v_transfer from to asset n lock v) !! (h, asset_key a') = vl v !! (h, asset_key a')) as Hl.
  { intros h. destruct asset as [|a]; [by destruct lock|]. assert (asset_key a <> asset_key a') as Hk by (intros ?%key_inj; congruence).
    unfold v_transfer. repeat case_match; cbn; rewrite ?vl_bal_ne by congruence; done. }
  cbn [gate]. unfold in_gate, out_gate. by rewrite !Hl.
Qed.
Lemma vo_transfer v from to asset n lock : vo (v_transfer from to asset n lock v) = vo v.
Proof. unfold v_transfer, v_bal. repeat case_match; done. Qed.
Lemma vo_unreserve m n v : vo (v_unreserve m n v) = vo v.
Proof. unfold v_unreserve. by repeat case_match. Qed.
(** A trial transfer reads, and writes nothing, whoever is on the two sides. *)
Lemma transfer_dry w v from to asset n lock g w' :
  rep w v -> transfer s ts from to asset n lock true w = Ok (g, w') -> rep w' v.
Proof.
  intros R H. unfold transfer in H. destruct (n =? 0); [by apply wret_Ok in H as [_ ->]|]. destruct asset as [|a].
  - destruct lock; [by apply wret_Ok in H as [_ ->]|]. wstep H. destruct (account_rep _ _ _ _ _ R E) as [_ R1].
    destruct (_ <? _); by apply wret_Ok in H as [_ ->].
  - destruct ((from =? ia_issuer a) && (to =? ia_issuer a)); [done|]. wstep H. destruct (policy_rep _ _ _ _ _ R E) as [_ R1].
    destruct (from =? ia_issuer a); [|destruct (to =? ia_issuer a)]; wstep H; destruct (line_rep _ _ _ _ _ _ R1 E0) as [_ R2];
      (destruct r0 as [l|]; [|by apply wret_Ok in H as [_ ->]]).
    + destruct (negb _); [by apply wret_Ok in H as [_ ->]|]. wstep H. apply wlift_Ok in E1 as [_ ->]. destruct (_ <? _); by apply wret_Ok in H as [_ ->].
    + destruct (negb _); [by apply wret_Ok in H as [_ ->]|]. destruct (_ <? _); by apply wret_Ok in H as [_ ->].
    + wstep H. destruct (line_rep _ _ _ _ _ _ R2 E1) as [_ R3]. destruct r0 as [m|]; [|by apply wret_Ok in H as [_ ->]].
      destruct (_ || _); [by apply wret_Ok in H as [_ ->]|]. wstep H. apply wlift_Ok in E2 as [_ ->]. destruct (_ || _); by apply wret_Ok in H as [_ ->].
Qed.
(** An attempt that fills nothing changes nothing. *)
Lemma cross_one_idle w v taker gets pays m gr pr c w' :
  rep w v -> (forall paid received, c <> Fill paid received) -> cross_one s ts taker gets pays m gr pr w = Ok (c, w') -> rep w' v.
Proof.
  intros R Hc H. unfold cross_one in H. destruct (offers_cross _ _ _ _); cbn [negb] in H; [|by apply wret_Ok in H as [_ ->]].
  wstep H. destruct (deliverable_maker _ _ _ _ _ R E) as [-> R1]. destruct (_ =? 0); [by apply (unfunded_rep _ _ _ _ _ R1) in H as [_ ?]|].
  wstep H. destruct (deliverable_taker _ _ _ _ _ _ _ R1 E0) as [-> R2]. destruct (_ =? 0); [by apply wret_Ok in H as [_ ->]|].
  destruct (offer_fill_step _ _ _ _) as [[received paid]|]; [|by apply wret_Ok in H as [_ ->]].
  wstep H. pose proof (transfer_dry _ _ _ _ _ _ _ _ _ R2 E1) as R3. wstep H. pose proof (transfer_dry _ _ _ _ _ _ _ _ _ R3 E2) as R4.
  destruct (is_err_skip _); [by apply wret_Ok in H as [_ ->]|]. destruct (is_err_skip _); [by apply (unfunded_rep _ _ _ _ _ R4) in H as [_ ?]|].
  do 4 wstep H. apply wret_Ok in H as [-> _]. by destruct (Hc paid received).
Qed.
(** A fill takes the amounts of the fill step. *)
Lemma cross_one_step w v taker gets pays m gr pr paid received w' :
  rep w v -> cross_one s ts taker gets pays m gr pr w = Ok (Fill paid received, w') ->
  offer_fill_step (of_taker_gets_remaining m) (of_taker_pays_remaining m)
    (Z.min (Z.min pr (of_taker_gets_remaining m)) (maker_units v m))
    (Z.min (Z.min gr (of_taker_pays_remaining m)) (free_units v taker gets)) = Some (received, paid).
Proof.
  intros R H. unfold cross_one in H. destruct (offers_cross _ _ _ _); cbn [negb] in H; [|by apply wret_Ok in H as [? _]].
  wstep H. destruct (deliverable_maker _ _ _ _ _ R E) as [-> R1]. destruct (_ =? 0); [by apply (unfunded_rep _ _ _ _ _ R1) in H as [[|] _]|].
  wstep H. destruct (deliverable_taker _ _ _ _ _ _ _ R1 E0) as [-> R2]. destruct (_ =? 0); [by apply wret_Ok in H as [? _]|].
  destruct (offer_fill_step _ _ _ _) as [[r p]|]; [|by apply wret_Ok in H as [? _]].
  wstep H. pose proof (transfer_dry _ _ _ _ _ _ _ _ _ R2 E1) as R3. wstep H. pose proof (transfer_dry _ _ _ _ _ _ _ _ _ R3 E2) as R4.
  destruct (is_err_skip _); [by apply wret_Ok in H as [? _]|]. destruct (is_err_skip _); [by apply (unfunded_rep _ _ _ _ _ R4) in H as [[|] _]|].
  do 4 wstep H. by apply wret_Ok in H as [[= -> ->] _].
Qed.
Lemma cross_one_rep w v taker gets pays m gr pr c w' :
  rep w v -> normal v -> gets <> pays -> of_taker_gets m = pays -> vo v !! of_offer_id m = Some m -> taker <> of_owner m ->
  (forall want budget r p, offer_fill_step (of_taker_gets_remaining m) (of_taker_pays_remaining m) want budget = Some (r, p) ->
     want = Z.min (Z.min pr (of_taker_gets_remaining m)) (maker_units v m) ->
     budget = Z.min (Z.min gr (of_taker_pays_remaining m)) (free_units v taker gets) -> 0 < r /\ 0 < p) ->
  cross_one s ts taker gets pays m gr pr w = Ok (c, w') ->
  match c with
  | Fill paid received => fill_terms v taker gets pays m gr pr paid received /\ rep w' (v_fill taker gets pays m paid received v)
  | _ => rep w' v
  end.
Proof.
  intros R Hnm Hgp Hg Hid Hself Hpos H. unfold cross_one in H. destruct (offers_cross _ _ _ _) eqn:Ec; cbn [negb] in H; [|by apply wret_Ok in H as [-> ->]].
  wstep H. destruct (deliverable_maker _ _ _ _ _ R E) as [-> R1].
  destruct (maker_units v m =? 0); [apply (unfunded_rep _ _ _ _ _ R1) in H as [[-> | ->] ?]; done|].
  wstep H. destruct (deliverable_taker _ _ _ _ _ _ _ R1 E0) as [-> R2].
  destruct (free_units v taker gets =? 0); [by apply wret_Ok in H as [-> ->]|].
  destruct (offer_fill_step _ _ _ _) as [[received paid]|] eqn:Es; [|by apply wret_Ok in H as [-> ->]].
  destruct (Hpos _ _ _ _ Es eq_refl eq_refl) as [Hr Hp].
  apply wbind_Ok in H as (g1 & w2 & E1 & H). pose proof (transfer_rep _ _ _ _ _ _ _ _ _ _ R2 Hnm Hp (or_introl Hself) E1) as G1.
  assert (rep w2 v /\ (is_err_skip g1 = negb (gate v taker (of_owner m) gets paid false))) as [R3 K1].
  { destruct (gate v taker _ _ _ _); [destruct G1 as (-> & ? & _)|destruct G1 as [-> ?]]; done. }
  apply wbind_Ok in H as (g2 & w3 & E2 & H). pose proof (transfer_rep _ _ _ _ _ _ _ _ _ _ R3 Hnm Hr (or_introl (not_eq_sym Hself)) E2) as G2.
  assert (rep w3 v /\ (is_err_skip g2 = negb (gate v (of_owner m) taker pays received true))) as [R4 K2].
  { destruct (gate v (of_owner m) taker _ _ _); [destruct G2 as (-> & ? & _)|destruct G2 as [-> ?]]; done. }
  rewrite K1 in H. destruct (gate v taker (of_owner m) gets paid false) eqn:Hg1; cbn [negb] in H; [|by apply wret_Ok in H as [-> ->]].
  rewrite K2 in H. destruct (gate v (of_owner m) taker pays received true) eqn:Hg2; cbn [negb] in H;
    [|apply (unfunded_rep _ _ _ _ _ R4) in H as [[-> | ->] ?]; done].
  wstep H. pose proof (transfer_rep _ _ _ _ _ _ _ _ _ _ R4 Hnm Hp (or_introl Hself) E3) as G3. rewrite Hg1 in G3. destruct G3 as (_ & R5 & F1).
  wstep H. pose proof (transfer_rep _ _ _ _ _ _ _ _ _ _ R5 (normal_transfer _ _ _ _ _ _ Hnm) Hr (or_introl (not_eq_sym Hself)) E4) as G4.
  rewrite gate_other, Hg2 in G4 by done. destruct G4 as (_ & R6 & F2).
  apply wbind_Ok in H as (u6 & w6 & E5 & H). match type of R6 with rep _ ?x => set (v2 := x) in * end.
  assert (rep w6 (v_unreserve m received v2)) as R7.
  { unfold v_unreserve. destruct (of_taker_gets m) as [|a]; cbn [issued]; [by apply wret_Ok in E5 as [_ ->]|].
    destruct (of_owner m =? ia_issuer a); [by apply wret_Ok in E5 as [_ ->]|]. by eapply sub_reserve_rep in E5 as [_ E5]. }
  wstep H. apply wupd_Ok in E6 as ->. apply wret_Ok in H as [-> ->]. split; [by split; auto|].
  unfold v_fill. cbv zeta. apply rep_set_offer; [exact R7|]. rewrite vo_unreserve. unfold v2. rewrite !vo_transfer, Hid. by eexists.
Qed.
End view.
