(* ===== verification/OfferInv.v ===== *)
(** * The invariant of the order book

    What every operation on the order book keeps: lines within their limits and
    backed by their issuers' liabilities, reserves equal to what the live offers
    sell, live offers well formed and listed once in their owner's and their
    book's index.  The invariant is stated of a [View] and shown for each change
    the operations make. *)

From stdpp Require Import base gmap list fin_maps strings.
From Stdlib Require Import ZArith Lia.
From S2P Require Import Prelude Ordering Sums Types Finality Store Supply Accounts Objects Policy Trust TrustProps Offer OfferProps OfferView.
Local Open Scope Z_scope.

(** ** Live offers *)

Lemma validate_live_inv o :
  validate_offer_live o = Ok tt <->
  of_version o = 1 /\ of_owner o <> 0 /\ of_offer_id o <> 0 /\ of_taker_pays_original o <> 0 /\ of_taker_gets_original o <> 0 /\
  of_taker_pays_remaining o <> 0 /\ of_taker_gets_remaining o <> 0 /\ of_taker_pays_remaining o <= of_taker_pays_original o /\
  of_taker_gets_remaining o <= of_taker_gets_original o /\ validate_book (of_book o) = Ok tt /\ is_ok (fill_mode_from_u8 (of_fill_mode o)) = true /\
  validate_expiration (of_expires_after o) = Ok tt /\
  of_native_locked o = if is_native (of_taker_gets o) then of_taker_gets_remaining o else 0.
Proof.
  unfold validate_offer_live. change DRC_OFFER_LIVE_STATE_VERSION with 1. split.
  - intros (_ & Hv%ensure_Ok & H)%rbind_Ok. apply rbind_Ok in H as (_ & Ho%ensure_Ok & H). apply rbind_Ok in H as (_ & Ha%ensure_Ok & H).
    apply rbind_Ok in H as ([] & Hb & H). apply rbind_Ok in H as (fm & Hf & H). apply rbind_Ok in H as ([] & He & H).
    rewrite Hf. assert (of_native_locked o = if is_native (of_taker_gets o) then of_taker_gets_remaining o else 0) as Hl
      by (destruct (is_native _); apply ensure_Ok in H; lia).
    repeat (split; [first [done|lia]|]). done.
  - intros (Hv & Ho & Hi & H1 & H2 & H3 & H4 & H5 & H6 & Hb & Hf & He & Hl).
    rewrite Hv. cbn [ensure rbind Z.eqb].
    assert ((of_owner o =? 0) || (of_offer_id o =? 0) = false) as -> by lia. cbn [negb ensure rbind].
    match goal with |- context [ensure (negb ?b)] => assert (b = false) as -> by lia end. cbn [negb ensure rbind].
    rewrite Hb. cbn [rbind]. destruct (fill_mode_from_u8 _); [|done]. cbn [rbind]. rewrite He. cbn [rbind]. rewrite Hl.
    destruct (is_native _); by rewrite Z.eqb_refl.
Qed.
(** An offer that may have been used up: what [validate_offer_live] asks besides
    that something is left, and machine widths. *)
Record offer_shape (id : Hash) (o : DrcOfferLive) : Prop := {
  sh_id : of_offer_id o = id;
  sh_head : of_version o = 1 /\ of_owner o <> 0 /\ id <> 0 /\ is_ok (fill_mode_from_u8 (of_fill_mode o)) = true /\
    validate_expiration (of_expires_after o) = Ok tt;
  sh_book : validate_book (of_book o) = Ok tt;
  sh_gets : 0 <= of_taker_gets_remaining o <= of_taker_gets_original o /\ 0 < of_taker_gets_original o <= u64_max;
  sh_pays : 0 <= of_taker_pays_remaining o <= of_taker_pays_original o /\ 0 < of_taker_pays_original o <= u64_max;
  sh_locked : of_native_locked o = if is_native (of_taker_gets o) then of_taker_gets_remaining o else 0;
}.
Definition something_left (o : DrcOfferLive) : Prop := 0 < of_taker_gets_remaining o /\ 0 < of_taker_pays_remaining o.
Lemma shape_valid id o : offer_shape id o -> something_left o -> validate_offer_live o = Ok tt.
Proof.
  intros [E (A & B & C & D & F) G H I J] [K L]. apply validate_live_inv. subst id. repeat (split; [first [done|lia]|]). done.
Qed.
Lemma book_distinct o : validate_book (of_book o) = Ok tt -> of_taker_pays o <> of_taker_gets o.
Proof.
  unfold validate_book, of_book. cbn. intros (_ & _ & H)%rbind_Ok. apply rbind_Ok in H as (_ & _ & H%ensure_Ok%negb_true_iff).
  by apply bool_decide_eq_false_1 in H.
Qed.

(** What an offer sells of the line [(h, a)]. *)
Definition sells (o : DrcOfferLive) (x : Address * IssuedAssetId) : bool :=
  (of_owner o =? x.1) && bool_decide (of_taker_gets o = Issued x.2) && negb (x.1 =? ia_issuer x.2).
Definition reserved (offers : gmap Hash DrcOfferLive) (x : Address * IssuedAssetId) : Z :=
  msum (fun _ o => if sells o x then of_taker_gets_remaining o else 0) offers.
Definition locked_native (offers : gmap Hash DrcOfferLive) : Z := msum (fun _ o => of_native_locked o) offers.

Section inv.
Context {Auth : Type} `{TL : TrustLane Auth} `{OL : OfferLane Auth}.
Context (key_inj : forall a a', asset_key a = asset_key a' -> a = a').
Variables (s : StateStore) (ts : TrustStore).
Implicit Types (v : View) (o m : DrcOfferLive).

(** ** The invariant, component by component *)

Record lines_inv v : Prop := {
  li_dom x : is_Some (vl v !! x) <-> is_Some (lines ts !! x);
  li_line x l : vl v !! x = Some l -> exists l0, lines ts !! x = Some l0 /\ l = with_balance l0 (tl_balance l) /\ 0 <= tl_balance l <= tl_limit l;
  li_held a : vi v a = held_in (vl v) (asset_key a);
  li_range a : 0 <= vi v a <= u64_max;
}.
Definition accounts_inv v : Prop := forall a, in_u64 (balance (va v a)) /\ nonce (va v a) = nonce (acct_of s DRC a).
Definition reserves_inv v : Prop := forall h a, vr v (h, a) = reserved (vo v) (h, a) /\ vr v (h, a) <= bal_in (vl v) (h, asset_key a).
Definition shapes_inv v : Prop := forall id o, vo v !! id = Some o -> offer_shape id o.
Record index_inv v : Prop := {
  ix_own a id : id ∈ vw v a <-> exists o, vo v !! id = Some o /\ of_owner o = a;
  ix_own_list a : NoDup (vw v a) /\ (length (vw v a) <= 32)%nat;
  ix_book k id : id ∈ vb v k <-> exists o, vo v !! id = Some o /\ book_key (of_book o) = k;
  ix_book_list k : NoDup (vb v k) /\ (length (vb v k) <= 256)%nat;
}.
Record seq_inv v : Prop := {
  sq_bound id o : vo v !! id = Some o -> of_book_sequence o <= vs v;
  sq_inj id id' o o' : vo v !! id = Some o -> vo v !! id' = Some o' -> of_book_sequence o = of_book_sequence o' -> id = id';
}.
Record inv v : Prop := {
  iv_accounts : accounts_inv v;
  iv_lines : lines_inv v;
  iv_reserves : reserves_inv v;
  iv_shapes : shapes_inv v;
  iv_index : index_inv v;
  iv_seq : seq_inv v;
}.
(** Everything live has something left, the offer [except] aside. *)
Definition all_left (except : Hash) v : Prop := forall id o, vo v !! id = Some o -> id <> except -> something_left o.

Lemma reserved_nonneg v x : shapes_inv v -> 0 <= reserved (vo v) x.
Proof. intros Hs. apply msum_nonneg. intros id o Ho. destruct (sells o x); [|done]. by apply (sh_gets _ _ (Hs _ _ Ho)). Qed.
Lemma inv_normal v : trust_ok ts -> lines_inv v -> normal ts v.
Proof.
  intros Hok Hi h a l Hl. destruct (li_line _ Hi _ _ Hl) as (l0 & Hl0 & -> & _).
  unfold normalize_trust_line_live, DRC_TRUST_LINE_LIVE_STATE_VERSION. cbn. destruct (Z.eqb_spec (tl_version l0) 1) as [E|]; [|done].
  pose proof (lo_v1 _ _ _ (to_lines _ Hok _ _ _ Hl0) E) as [Ha _]. unfold with_flags, with_balance. cbn. rewrite Ha. f_equal.
  unfold policy_of. destruct (asset_policies ts !! asset_key a) as [p|] eqn:Ep; [|done]. cbn. destruct (require_auth p) eqn:Er; [|done].
  pose proof (no_auth _ (to_controls _ Hok) _ _ _ _ Hl0 Ep Er). lia.
Qed.

(** ** Balances *)

Lemma add_inv v a n : inv v -> in_u64 (balance (va v a) + n) -> inv (v_add a n v).
Proof.
  intros [A L R S I Q] Hn. split; [|by destruct L|done|done|by destruct I|by destruct Q].
  intros x. cbn. unfold upd. destruct (decide (x = a)) as [->|]; [|by apply A]. cbn. split; [done|]. by apply A.
Qed.
Lemma vn_add v a n : vn (v_add a n v) = vn v + n.
Proof. unfold v_add, v_acc. cbn. lia. Qed.
Definition in_range v (x : Address * Hash) (n : Z) : Prop :=
  exists l, vl v !! x = Some l /\ 0 <= tl_balance l + n <= tl_limit l.
Lemma bal_v_bal v x n y : in_range v x n -> bal_in (vl (v_bal x n v)) y = bal_in (vl v) y + if bool_decide (y = x) then n else 0.
Proof.
  intros (l & Hl & _). rewrite (v_bal_some _ _ _ _ Hl). cbn. rewrite bal_insert. case_bool_decide; [|lia]. subst. cbn. unfold bal_in. by rewrite Hl.
Qed.
Lemma held_v_bal v x n k : in_range v x n -> held_in (vl (v_bal x n v)) k = held_in (vl v) k + if bool_decide (x.2 = k) then n else 0.
Proof.
  intros (l & Hl & _). rewrite (v_bal_some _ _ _ _ Hl). cbn. rewrite held_insert, Hl. cbn. case_bool_decide; lia.
Qed.
Lemma vi_v_bal v x n : vi (v_bal x n v) = vi v.
Proof. unfold v_bal. by case_match. Qed.
(** The shape of the lines after a change of balance. *)
Lemma shape_v_bal v x n :
  lines_inv v -> in_range v x n ->
  (forall y, is_Some (vl (v_bal x n v) !! y) <-> is_Some (lines ts !! y)) /\
  (forall y l, vl (v_bal x n v) !! y = Some l ->
     exists l0, lines ts !! y = Some l0 /\ l = with_balance l0 (tl_balance l) /\ 0 <= tl_balance l <= tl_limit l).
Proof.
  intros Hi (l & Hl & Hr). rewrite (v_bal_some _ _ _ _ Hl). cbn. split.
  - intros y. rewrite <- (li_dom _ Hi). by apply (insert_dom _ _ l).
  - intros y l' [[<- <-]|[_ Hl']]%lookup_insert_Some; [|by apply (li_line _ Hi)].
    destruct (li_line _ Hi _ _ Hl) as (l0 & Hl0 & E & _). exists l0. split; [done|]. split; [|done]. rewrite E. done.
Qed.

(** ** Transfers *)

Definition delta (from to : Address) (asset : DrcBookAsset) (n : Z) (x : Address * Hash) : Z :=
  match asset with
  | NativeDrc => 0
  | Issued a =>
      (if bool_decide (x = (to, asset_key a)) && negb (to =? ia_issuer a) then n else 0) -
      (if bool_decide (x = (from, asset_key a)) && negb (from =? ia_issuer a) then n else 0)
  end.
Lemma in_gate_range v a h kind n : lines_inv v -> 0 < n -> in_gate ts v a h kind n = true -> in_range v (h, asset_key a) n.
Proof.
  intros Hi Hn. unfold in_gate, in_range. destruct (vl v !! _) as [l|] eqn:El; [|done]. intros [_ Hg]%andb_true_iff.
  destruct (li_line _ Hi _ _ El) as (_ & _ & _ & Hb). exists l. split; [done|]. lia.
Qed.
Lemma out_gate_range v a h kind n : lines_inv v -> 0 < n -> out_gate ts v a h kind n = true -> in_range v (h, asset_key a) (- n).
Proof.
  intros Hi Hn. unfold out_gate, in_range. destruct (vl v !! _) as [l|] eqn:El; [|done]. intros [_ Hg]%andb_true_iff.
  destruct (li_line _ Hi _ _ El) as (_ & _ & _ & Hb). exists l. split; [done|]. lia.
Qed.
Lemma in_range_other v x y n n2 : x <> y -> in_range v x n -> in_range (v_bal y n2 v) x n.
Proof. intros Hne (l & Hl & Hr). exists l. split; [|done]. by rewrite vl_bal_ne. Qed.
Lemma transfer_lines v from to asset n lock :
  lines_inv v -> 0 < n -> from <> to -> gate ts v from to asset n lock = true -> fits v from to asset n lock ->
  lines_inv (v_transfer from to asset n lock v) /\
  forall x, bal_in (vl (v_transfer from to asset n lock v)) x = bal_in (vl v) x + delta from to asset n x.
Proof.
  intros Hi Hn Hne Hg Hf. destruct asset as [|a].
  { split; [by destruct lock; destruct Hi|]. intros x. cbn. destruct lock; cbn; lia. }
  cbn [gate fits v_transfer delta] in *. destruct (Z.eqb_spec from (ia_issuer a)) as [Ef|Ef].
  - pose proof (in_gate_range _ _ _ _ _ Hi Hn Hg) as Hr. destruct (shape_v_bal _ _ _ Hi Hr) as [S1 S2].
    rewrite (proj2 (Z.eqb_neq to (ia_issuer a))) by congruence. split.
    + split; cbn; [done|done|..]; intros a'; unfold upd; destruct (decide (a' = a)) as [->|Ha]; rewrite ?vi_v_bal.
      * rewrite held_v_bal by done. cbn. rewrite bool_decide_eq_true_2, (li_held _ Hi) by done. done.
      * rewrite held_v_bal by done. cbn. rewrite bool_decide_eq_false_2, (li_held _ Hi) by (intros ?%key_inj; congruence). lia.
      * pose proof (li_range _ Hi a). lia.
      * apply (li_range _ Hi).
    + intros x. cbn. rewrite bal_v_bal by done. rewrite andb_true_r, andb_false_r. lia.
  - destruct (Z.eqb_spec to (ia_issuer a)) as [Et|Et].
    + pose proof (out_gate_range _ _ _ _ _ Hi Hn Hg) as Hr. destruct (shape_v_bal _ _ _ Hi Hr) as [S1 S2]. split.
      * split; cbn; [done|done|..]; intros a'; unfold upd; destruct (decide (a' = a)) as [->|Ha]; rewrite ?vi_v_bal.
        -- rewrite held_v_bal by done. cbn. rewrite bool_decide_eq_true_2, (li_held _ Hi) by done. lia.
        -- rewrite held_v_bal by done. cbn. rewrite bool_decide_eq_false_2, (li_held _ Hi) by (intros ?%key_inj; congruence). lia.
        -- pose proof (li_range _ Hi a). lia.
        -- apply (li_range _ Hi).
      * intros x. cbn. rewrite bal_v_bal by done. rewrite andb_true_r, andb_false_r. destruct (bool_decide _); lia.
    + apply andb_true_iff in Hg as [G1 G2].
      pose proof (out_gate_range _ _ _ _ _ Hi Hn G1) as Hr1. pose proof (in_gate_range _ _ _ _ _ Hi Hn G2) as Hr2.
      destruct (shape_v_bal _ _ _ Hi Hr1) as [S1 S2].
      assert (in_range (v_bal (from, asset_key a) (- n) v) (to, asset_key a) n) as Hr3 by (apply in_range_other; [congruence|done]).
      split.
      * destruct Hr3 as (l & Hl & Hb). rewrite (v_bal_some _ _ _ _ Hl). split; cbn.
        -- intros y. rewrite <- S1. by apply (insert_dom _ _ l).
        -- intros y l' [[<- <-]|[_ Hl']]%lookup_insert_Some; [|by apply S2].
           destruct (S2 _ _ Hl) as (l0 & Hl0 & E & _). exists l0. split; [done|]. split; [|done]. by rewrite E.
        -- intros a'. rewrite vi_v_bal, held_insert, Hl, held_v_bal by done. cbn. rewrite (li_held _ Hi). case_bool_decide; lia.
        -- intros a'. rewrite vi_v_bal. apply (li_range _ Hi).
      * intros x. rewrite !bal_v_bal by done. rewrite !andb_true_r. destruct (bool_decide (x = (to, _))), (bool_decide (x = (from, _))); lia.
Qed.
Lemma frame_transfer v from to asset n lock :
  vr (v_transfer from to asset n lock v) = vr v /\ vo (v_transfer from to asset n lock v) = vo v /\
  vw (v_transfer from to asset n lock v) = vw v /\ vb (v_transfer from to asset n lock v) = vb v /\ vs (v_transfer from to asset n lock v) = vs v.
Proof. unfold v_transfer, v_bal. repeat case_match; done. Qed.
(** What a transfer does to the native balances. *)
Lemma offer_transfer_accounts v from to asset n lock :
  accounts_inv v -> 0 < n -> gate ts v from to asset n lock = true -> fits v from to asset n lock ->
  accounts_inv (v_transfer from to asset n lock v) /\
  vn (v_transfer from to asset n lock v) = vn v + if is_native asset && lock then n else 0.
Proof.
  intros Hi Hn Hg Hf. destruct asset as [|a]; cbn [gate fits is_native andb] in *.
  2:{ assert (va (v_transfer from to (Issued a) n lock v) = va v /\ vn (v_transfer from to (Issued a) n lock v) = vn v) as [E1 E2]
        by (unfold v_transfer, v_bal; repeat case_match; done).
      split; [intros x; rewrite E1; apply Hi|lia]. }
  unfold v_transfer. assert (accounts_inv (if lock then v else v_add from (- n) v)) as Hi1.
  { destruct lock; [done|]. intros x. cbn. unfold upd. destruct (decide (x = from)) as [->|]; [|apply Hi]. cbn.
    destruct (Hi from) as [[H1 H2] H3]. cbn [orb] in Hg. split; [unfold in_u64; lia|done]. }
  split.
  - intros x. cbn. unfold upd. destruct (decide (x = to)) as [->|]; [|apply Hi1]. cbn.
    destruct (Hi1 to) as [[H1 H2] H3]. split; [unfold in_u64; lia|done].
  - rewrite vn_add. destruct lock; [lia|]. rewrite vn_add. lia.
Qed.

(** ** Removing an offer *)

Lemma drop_index v o : index_inv v -> vo v !! of_offer_id o = Some o -> index_inv (v_drop o v).
Proof.
  intros [O1 O2 B1 B2] Ho. split; cbn; unfold upd.
  - intros a id. destruct (decide (a = of_owner o)) as [->|Ha].
    + unfold drop_id. rewrite list_elem_of_filter, O1. split.
      * intros (Hne & o' & Hl & <-). exists o'. by rewrite lookup_delete_ne.
      * intros (o' & [Hne Hl]%lookup_delete_Some & <-). split; [done|]. by exists o'.
    + rewrite O1. split; intros (o' & Hl & <-); exists o'; [|by apply lookup_delete_Some in Hl as [_ ?]].
      split; [|done]. rewrite lookup_delete_ne; [done|]. intros <-. congruence.
  - intros a. destruct (decide _); [|apply O2]. unfold drop_id. split; [by apply NoDup_filter, O2|].
    etransitivity; [apply length_filter|apply O2].
  - intros k id. destruct (decide (k = book_key (of_book o))) as [->|Hk].
    + unfold drop_id. rewrite list_elem_of_filter, B1. split.
      * intros (Hne & o' & Hl & ?). exists o'. by rewrite lookup_delete_ne.
      * intros (o' & [Hne Hl]%lookup_delete_Some & ?). split; [done|]. by exists o'.
    + rewrite B1. split; intros (o' & Hl & ?); exists o'; [|by apply lookup_delete_Some in Hl as [_ ?]].
      split; [|done]. rewrite lookup_delete_ne; [done|]. intros <-. congruence.
  - intros k. destruct (decide _); [|apply B2]. unfold drop_id. split; [by apply NoDup_filter, B2|].
    etransitivity; [apply length_filter|apply B2].
Qed.
Lemma vr_unreserve o n v x : vr (v_unreserve o n v) x = vr v x - if sells o x then n else 0.
Proof.
  unfold v_unreserve, sells. destruct x as [h a]. cbn. destruct (of_taker_gets o) as [|a0]; cbn [issued].
  - rewrite (bool_decide_eq_false_2 (NativeDrc = Issued a)), andb_false_r by done. cbn. lia.
  - destruct (Z.eqb_spec (of_owner o) (ia_issuer a0)) as [Ei|Ei].
    + destruct (Z.eqb_spec (of_owner o) h); [|cbn; lia]. case_bool_decide as Ea; [|cbn; lia]. injection Ea as <-. subst h.
      rewrite Ei, Z.eqb_refl. cbn. lia.
    + cbn. unfold upd. destruct (decide ((h, a) = (of_owner o, a0))) as [E|E].
      * injection E as -> ->. rewrite Z.eqb_refl, bool_decide_eq_true_2, (proj2 (Z.eqb_neq _ _) Ei) by done. done.
      * destruct (Z.eqb_spec (of_owner o) h); [|cbn; lia]. case_bool_decide as Ea; [|cbn; lia]. injection Ea as <-. congruence.
Qed.
Lemma frame_unreserve o n v :
  va (v_unreserve o n v) = va v /\ vn (v_unreserve o n v) = vn v /\ vl (v_unreserve o n v) = vl v /\ vi (v_unreserve o n v) = vi v /\
  vo (v_unreserve o n v) = vo v /\ vw (v_unreserve o n v) = vw v /\ vb (v_unreserve o n v) = vb v /\ vs (v_unreserve o n v) = vs v.
Proof. unfold v_unreserve. by repeat case_match. Qed.
Definition total v : Z := vn v + locked_native (vo v).
Definition v_release o v : View := v_drop o (v_unreserve o (of_taker_gets_remaining o) (v_add (of_owner o) (of_native_locked o) v)).
Lemma vo_release o v : vo (v_release o v) = delete (of_offer_id o) (vo v).
Proof. unfold v_release, v_drop. cbn. by rewrite vo_unreserve. Qed.
Lemma vk_release o v : (vk (v_release o v), vs (v_release o v)) = (vk v, vs v).
Proof. unfold v_release, v_drop, v_unreserve. by repeat case_match. Qed.
Lemma vk_fill taker gets pays m paid received v :
  (vk (v_fill taker gets pays m paid received v), vs (v_fill taker gets pays m paid received v)) = (vk v, vs v).
Proof. unfold v_fill, v_unreserve, v_transfer, v_bal. cbv zeta. repeat (case_match; cbn); done. Qed.
Lemma release_inv v o :
  inv v -> vo v !! of_offer_id o = Some o ->
  (of_native_locked o = 0 \/ balance (va v (of_owner o)) + of_native_locked o <= u64_max) ->
  inv (v_release o v) /\ total (v_release o v) = total v.
Proof.
  intros Hi Ho Hfit. pose proof (iv_shapes _ Hi _ _ Ho) as Hsh. pose proof (sh_gets _ _ Hsh) as Hg. pose proof (sh_locked _ _ Hsh) as Hl.
  assert (0 <= of_native_locked o) as Hl0 by (destruct (is_native _); lia).
  assert (inv (v_add (of_owner o) (of_native_locked o) v)) as [A L R S I Q].
  { apply add_inv; [done|]. destruct (iv_accounts _ Hi (of_owner o)) as [[H1 H2] _]. unfold in_u64. lia. }
  unfold v_release. set (v1 := v_add _ _ v) in *. destruct (frame_unreserve o (of_taker_gets_remaining o) v1) as (F1 & F2 & F3 & F4 & F5 & F6 & F7 & F8).
  split; [split|].
  - intros a. cbn. rewrite F1. apply A.
  - destruct L. split; cbn; rewrite ?F3, ?F4; done.
  - intros h a. cbn. rewrite vr_unreserve, F3, F5. unfold reserved. rewrite (msum_delete_eq _ _ o) by done.
    destruct (R h a) as [R1 R2]. unfold reserved in R1. rewrite R1. split; [done|]. destruct (sells o (h, a)); lia.
  - intros id o'. cbn. rewrite F5. intros [_ H]%lookup_delete_Some. by apply S.
  - apply drop_index; [|by rewrite F5]. destruct I. split; rewrite ?F5, ?F6, ?F7; done.
  - destruct Q as [Q1 Q2]. split; cbn; rewrite F5, ?F8.
    + intros id o' [_ H]%lookup_delete_Some. by eapply Q1.
    + intros id id' o1 o2 [_ H1]%lookup_delete_Some [_ H2]%lookup_delete_Some. by eapply Q2.
  - unfold total, v_drop, v_bk, v_own, v_off. cbn [vn vo]. rewrite F2, F5. unfold v1. rewrite vn_add. unfold locked_native.
    rewrite (msum_delete_eq _ _ o) by done. cbn. lia.
Qed.

(** ** A fill *)

Lemma maker_units_nonneg v m : inv v -> offer_shape (of_offer_id m) m -> 0 <= maker_units v m.
Proof.
  intros Hi Hsh. pose proof (sh_gets _ _ Hsh) as Hg. pose proof (sh_locked _ _ Hsh) as Hl. unfold maker_units.
  destruct (of_taker_gets m) as [|a]; [rewrite Hl; cbn; lia|]. destruct (_ =? _); [done|].
  destruct (vl v !! _) as [l|] eqn:El; [|done]. destruct (li_line _ (iv_lines _ Hi) _ _ El) as (_ & _ & _ & Hb). lia.
Qed.
Lemma free_units_nonneg v owner asset : inv v -> 0 <= free_units v owner asset.
Proof.
  intros Hi. unfold free_units. destruct asset as [|a]; [apply (iv_accounts _ Hi)|]. destruct (_ =? _); [done|].
  destruct (vl v !! _); [|done]. unfold saturating_sub. lia.
Qed.
(** The amounts of a fill: within both offers, at the maker's price rounded up. *)
Record fill_amounts (m : DrcOfferLive) (free gr pr paid received : Z) : Prop := {
  fa_received : 0 < received <= Z.min pr (of_taker_gets_remaining m);
  fa_paid : 0 < paid <= Z.min gr (of_taker_pays_remaining m);
  fa_free : paid <= free;
  fa_maker : received * of_taker_pays_remaining m <= paid * of_taker_gets_remaining m;
  fa_taker : (paid - 1) * of_taker_gets_remaining m < received * of_taker_pays_remaining m;
}.
Lemma fill_step_amounts v m taker gets gr pr want budget paid received :
  inv v -> offer_shape (of_offer_id m) m -> something_left m -> 0 <= gr <= u64_max -> 0 <= pr <= u64_max ->
  want = Z.min (Z.min pr (of_taker_gets_remaining m)) (maker_units v m) ->
  budget = Z.min (Z.min gr (of_taker_pays_remaining m)) (free_units v taker gets) ->
  offer_fill_step (of_taker_gets_remaining m) (of_taker_pays_remaining m) want budget = Some (received, paid) ->
  fill_amounts m (free_units v taker gets) gr pr paid received.
Proof.
  intros Hi Hsh [Hg Hp] Hgr Hpr -> -> H. pose proof (sh_gets _ _ Hsh). pose proof (sh_pays _ _ Hsh).
  pose proof (maker_units_nonneg _ _ Hi Hsh). pose proof (free_units_nonneg _ taker gets Hi).
  assert (0 <= Z.min (Z.min pr (of_taker_gets_remaining m)) (maker_units v m) <= u64_max) as Hw by lia.
  assert (0 <= Z.min (Z.min gr (of_taker_pays_remaining m)) (free_units v taker gets) <= u64_max) as Hb by lia.
  pose proof (fill_step_spec (of_taker_gets_remaining m) (of_taker_pays_remaining m) _ _ ltac:(lia) ltac:(lia) Hw Hb) as Hs.
  rewrite H in Hs. destruct Hs as (S1 & S2 & S3 & S4 & _). split; lia.
Qed.
Lemma key_decide h a t a0 : bool_decide ((h, asset_key a) = (t, asset_key a0)) = (h =? t) && bool_decide (a = a0).
Proof.
  destruct (Z.eqb_spec h t) as [->|Hne]; cbn; [|apply bool_decide_eq_false_2; congruence].
  apply bool_decide_ext. split; [intros [= E]; by apply key_inj|by intros ->].
Qed.
Lemma same_place_index v id o o' :
  index_inv v -> vo v !! id = Some o -> of_owner o' = of_owner o -> of_book o' = of_book o -> index_inv (v_off (<[id := o']> (vo v)) v).
Proof.
  intros [O1 O2 B1 B2] Ho Eo Eb. split; cbn; [|done| |done].
  - intros a id'. rewrite O1. destruct (decide (id = id')) as [<-|Hne]; [rewrite lookup_insert_eq|by rewrite lookup_insert_ne].
    split; intros (x & Hx & Hp); [exists o'|exists o]; (split; [done|]); [assert (x = o) by congruence|assert (x = o') by congruence]; congruence.
  - intros a id'. rewrite B1. destruct (decide (id = id')) as [<-|Hne]; [rewrite lookup_insert_eq|by rewrite lookup_insert_ne].
    split; intros (x & Hx & Hp); [exists o'|exists o]; (split; [done|]); [assert (x = o) by congruence|assert (x = o') by congruence]; congruence.
Qed.
Lemma same_place_seq v id o o' :
  seq_inv v -> vo v !! id = Some o -> of_book_sequence o' = of_book_sequence o -> seq_inv (v_off (<[id := o']> (vo v)) v).
Proof.
  intros [Q1 Q2] Ho Es.
  assert (forall i x, <[id := o']> (vo v) !! i = Some x -> exists y, vo v !! i = Some y /\ of_book_sequence x = of_book_sequence y) as Hx.
  { intros i x [[<- <-]|[_ Hi]]%lookup_insert_Some; [by exists o|by exists x]. }
  split; cbn.
  - intros i x (y & Hy & ->)%Hx. by eapply Q1.
  - intros i j x y (x0 & Hx0 & ->)%Hx (y0 & Hy0 & ->)%Hx. by eapply Q2.
Qed.
Lemma filled_shape m paid received :
  offer_shape (of_offer_id m) m -> 0 < received <= of_taker_gets_remaining m -> 0 < paid <= of_taker_pays_remaining m ->
  offer_shape (of_offer_id m) (filled_maker m paid received).
Proof.
  intros [S1 S2 S3 S4 S5 S6] Hr Hp. split; cbn; try done; [lia|lia|]. destruct (is_native _); [|done]. unfold saturating_sub. lia.
Qed.
Section fill.
Context (v : View) (taker : Address) (m : DrcOfferLive) (gr pr paid received : Z).
Let gets := of_taker_pays m.
Let pays := of_taker_gets m.
Context (Hi : inv v) (Hm : vo v !! of_offer_id m = Some m) (Hself : taker <> of_owner m).
Context (Ht : fill_terms ts v taker gets pays m gr pr paid received) (Ha : fill_amounts m (free_units v taker gets) gr pr paid received).
Let v1 := v_transfer taker (of_owner m) gets paid false v.
Let v2 := v_transfer (of_owner m) taker pays received true v1.
Let m' := filled_maker m paid received.

Lemma fill_lines :
  lines_inv v2 /\
  forall x, bal_in (vl v2) x = bal_in (vl v) x + delta taker (of_owner m) gets paid x + delta (of_owner m) taker pays received x.
Proof.
  destruct Ht as [_ _ G1 G2 F1 F2]. destruct Ha as [A1 A2 _ _ _].
  destruct (transfer_lines v taker (of_owner m) gets paid false (iv_lines _ Hi) ltac:(lia) Hself G1 F1) as [L1 B1].
  assert (gets <> pays) as Hgp by (apply (book_distinct m), (iv_shapes _ Hi _ _ Hm)).
  destruct (transfer_lines v1 (of_owner m) taker pays received true L1 ltac:(lia) ltac:(done)) as [L2 B2];
    [unfold v1; by rewrite gate_other|done|].
  split; [done|]. intros x. unfold v2. rewrite B2. unfold v1. rewrite B1. done.
Qed.
Lemma fill_accounts : accounts_inv v2 /\ vn v2 = vn v + if is_native pays then received else 0.
Proof.
  destruct Ht as [_ _ G1 G2 F1 F2]. destruct Ha as [A1 A2 _ _ _].
  destruct (offer_transfer_accounts v taker (of_owner m) gets paid false (iv_accounts _ Hi) ltac:(lia) G1 F1) as [L1 B1].
  assert (gets <> pays) as Hgp by (apply (book_distinct m), (iv_shapes _ Hi _ _ Hm)).
  destruct (offer_transfer_accounts v1 (of_owner m) taker pays received true L1 ltac:(lia)) as [L2 B2];
    [unfold v1; by rewrite gate_other|done|].
  split; [done|]. unfold v2. rewrite B2. unfold v1. rewrite B1. rewrite andb_false_r, andb_true_r. lia.
Qed.
Lemma fill_reserves h a :
  vr v (h, a) - (if sells m (h, a) then received else 0) = reserved (<[of_offer_id m := m']> (vo v)) (h, a) /\
  vr v (h, a) - (if sells m (h, a) then received else 0) <= bal_in (vl v2) (h, asset_key a).
Proof.
  destruct (iv_reserves _ Hi h a) as [R1 R2]. destruct Ha as [A1 A2 A3 _ _]. split.
  - unfold reserved in *. rewrite (msum_insert_old _ _ m) by done. rewrite R1.
    change (sells m' (h, a)) with (sells m (h, a)). destruct (sells m (h, a)); cbn; lia.
  - rewrite (proj2 fill_lines). unfold delta. 
    assert (match gets with NativeDrc => True | Issued a0 => h = taker -> a = a0 -> h <> ia_issuer a0 ->
      paid <= bal_in (vl v) (h, asset_key a) - vr v (h, a) end) as Hpay.
    { unfold free_units in A3. destruct gets as [|a0]; [done|]. intros -> -> Hne. rewrite (proj2 (Z.eqb_neq _ _) Hne) in A3.
      unfold bal_in in *. destruct (vl v !! (taker, asset_key a0)); unfold saturating_sub in A3; lia. }
    assert (sells m (h, a) = match pays with NativeDrc => false | Issued a0 => (of_owner m =? h) && bool_decide (a0 = a) && negb (h =? ia_issuer a0) end) as ->.
    { unfold sells. cbn. change (of_taker_gets m) with pays. destruct pays as [|a0]; [by rewrite bool_decide_eq_false_2, andb_false_r|].
      rewrite (bool_decide_ext (Issued a0 = Issued a) (a0 = a)) by (split; congruence). case_bool_decide; [by subst|]. by rewrite !andb_false_r. }
    assert (gets <> pays) as Hgp by (apply (book_distinct m), (iv_shapes _ Hi _ _ Hm)).
    destruct gets as [|a1], pays as [|a2]; [done|..]; rewrite ?key_decide.
    + destruct (Z.eqb_spec h (of_owner m)), (Z.eqb_spec (of_owner m) h), (Z.eqb_spec h taker); subst; try congruence;
        rewrite ?(bool_decide_ext (a = a2) (a2 = a)) by (split; congruence);
        destruct (bool_decide (a2 = a)), (Z.eqb_spec (of_owner m) (ia_issuer a2)), (Z.eqb_spec taker (ia_issuer a2)); cbn; lia.
    + destruct (Z.eqb_spec h (of_owner m)), (Z.eqb_spec h taker); subst; try congruence;
        destruct (bool_decide_reflect (a = a1)), (Z.eqb_spec (of_owner m) (ia_issuer a1)), (Z.eqb_spec taker (ia_issuer a1)); cbn; subst; try lia;
        specialize (Hpay eq_refl eq_refl ltac:(assumption)); lia.
    + assert (a1 <> a2) by congruence.
      destruct (Z.eqb_spec h (of_owner m)), (Z.eqb_spec (of_owner m) h), (Z.eqb_spec h taker); subst; try congruence;
        rewrite ?(bool_decide_ext (a = a2) (a2 = a)) by (split; congruence);
        destruct (bool_decide_reflect (a = a1)), (bool_decide_reflect (a2 = a)); subst; try congruence;
        cbn; repeat match goal with |- context [?x =? ?y] => destruct (Z.eqb_spec x y) end; cbn; try lia;
        specialize (Hpay eq_refl eq_refl ltac:(assumption)); lia.
Qed.
Lemma fill_inv :
  let v' := v_fill taker gets pays m paid received v in
  inv v' /\ total v' = total v /\ vo v' = <[of_offer_id m := m']> (vo v).
Proof.
  cbv zeta. unfold v_fill. cbv zeta. fold v1 v2 m'. destruct (frame_unreserve m received v2) as (F1 & F2 & F3 & F4 & F5 & F6 & F7 & F8).
  destruct (frame_transfer v taker (of_owner m) gets paid false) as (T1 & T2 & T3 & T4 & T5).
  destruct (frame_transfer v1 (of_owner m) taker pays received true) as (U1 & U2 & U3 & U4 & U5).
  fold v1 in T1, T2, T3, T4, T5. fold v2 in U1, U2, U3, U4, U5.
  assert (vo v2 = vo v) as Eo by congruence. pose proof Hi as [A L R S I Q]. destruct Ha as [A1 A2 _ _ _].
  split; [split|split].
  - intros x. cbn. rewrite F1. apply (proj1 fill_accounts).
  - destruct fill_lines as [[] _]. split; cbn; rewrite ?F3, ?F4; done.
  - intros h a. cbn. rewrite vr_unreserve, F3, F5, U1, T1, Eo. apply fill_reserves.
  - intros id o. cbn. rewrite F5, Eo. intros [[<- <-]|[_ H]]%lookup_insert_Some; [|by apply S].
    apply filled_shape; [by apply S|lia|lia].
  - apply same_place_index with m; [|by rewrite F5, Eo|done|done].
    destruct I. split; rewrite ?F5, ?F6, ?F7, ?U3, ?U4, ?Eo, ?T3, ?T4; done.
  - apply same_place_seq with m; [|by rewrite F5, Eo|done]. destruct Q. split; rewrite ?F5, ?F8, ?U5, ?T5, ?Eo; done.
  - unfold total. cbn. rewrite F2, F5, Eo, (proj2 fill_accounts). unfold locked_native. rewrite (msum_insert_old _ _ m) by done.
    unfold m'. cbn. change (of_taker_gets m) with pays. pose proof (sh_locked _ _ (S _ _ Hm)) as Hl. change (of_taker_gets m) with pays in Hl.
    destruct (is_native pays); [unfold saturating_sub|]; lia.
  - cbn. by rewrite F5, Eo.
Qed.
End fill.

(** ** Placing an offer *)

Lemma push_new_fresh id ids : id ∉ ids -> push_new id ids = ids ++ [id].
Proof. intros Hn. unfold push_new. by rewrite decide_False. Qed.
Lemma insert_index v o :
  index_inv v -> vo v !! of_offer_id o = None -> (length (vw v (of_owner o)) < 32)%nat -> (length (vb v (book_key (of_book o))) < 256)%nat ->
  index_inv (v_insert o v).
Proof.
  intros [O1 O2 B1 B2] Ho Hl1 Hl2.
  assert (of_offer_id o ∉ vw v (of_owner o)) as N1 by (intros (x & Hx & _)%O1; congruence).
  assert (of_offer_id o ∉ vb v (book_key (of_book o))) as N2 by (intros (x & Hx & _)%B1; congruence).
  split; unfold v_insert; cbn; rewrite ?push_new_fresh by done; unfold upd.
  - intros a id. destruct (decide (a = of_owner o)) as [->|Ha].
    + rewrite elem_of_app, O1, list_elem_of_singleton. split.
      * intros [(x & Hx & <-)| ->]; [exists x; rewrite lookup_insert_ne; [done|congruence]|exists o; by rewrite lookup_insert_eq].
      * intros (x & [[<- <-]|[_ Hx]]%lookup_insert_Some & E); [by right|left; by exists x].
    + rewrite O1. split; intros (x & Hx & E); exists x.
      * rewrite lookup_insert_ne; [done|congruence].
      * apply lookup_insert_Some in Hx as [[<- <-]|[_ Hx]]; [congruence|done].
  - intros a. destruct (decide _); [|apply O2]. rewrite length_app. cbn. split; [|lia]. apply NoDup_app. split; [apply O2|].
    split; [set_solver|apply NoDup_singleton].
  - intros k id. destruct (decide (k = book_key (of_book o))) as [->|Hk].
    + rewrite elem_of_app, B1, list_elem_of_singleton. split.
      * intros [(x & Hx & E)| ->]; [exists x; rewrite lookup_insert_ne; [done|congruence]|exists o; by rewrite lookup_insert_eq].
      * intros (x & [[<- <-]|[_ Hx]]%lookup_insert_Some & E); [by right|left; by exists x].
    + rewrite B1. split; intros (x & Hx & E); exists x.
      * rewrite lookup_insert_ne; [done|congruence].
      * apply lookup_insert_Some in Hx as [[<- <-]|[_ Hx]]; [congruence|done].
  - intros k. destruct (decide _); [|apply B2]. rewrite length_app. cbn. split; [|lia]. apply NoDup_app. split; [apply B2|].
    split; [set_solver|apply NoDup_singleton].
Qed.
Lemma vr_reserve o v x : vr (v_reserve o v) x = vr v x + if sells o x then of_taker_gets_remaining o else 0.
Proof.
  unfold v_reserve, sells. destruct x as [h a]. cbn. destruct (of_taker_gets o) as [|a0].
  - rewrite (bool_decide_eq_false_2 (NativeDrc = Issued a)), andb_false_r by done. cbn. lia.
  - destruct (Z.eqb_spec (of_owner o) (ia_issuer a0)) as [Ei|Ei].
    + destruct (Z.eqb_spec (of_owner o) h); [|cbn; lia]. case_bool_decide as Ea; [|cbn; lia]. injection Ea as <-. subst h.
      rewrite Ei, Z.eqb_refl. cbn. lia.
    + cbn. unfold upd. destruct (decide ((h, a) = (of_owner o, a0))) as [E|E].
      * injection E as -> ->. rewrite Z.eqb_refl, bool_decide_eq_true_2, (proj2 (Z.eqb_neq _ _) Ei) by done. done.
      * destruct (Z.eqb_spec (of_owner o) h); [|cbn; lia]. case_bool_decide as Ea; [|cbn; lia]. injection Ea as <-. congruence.
Qed.
Lemma frame_reserve o v :
  vl (v_reserve o v) = vl v /\ vi (v_reserve o v) = vi v /\ vo (v_reserve o v) = vo v /\ vw (v_reserve o v) = vw v /\
  vb (v_reserve o v) = vb v /\ vs (v_reserve o v) = vs v.
Proof. unfold v_reserve. by repeat case_match. Qed.
Lemma place_inv v o :
  inv v -> vo v !! of_offer_id o = None -> offer_shape (of_offer_id o) (with_lock o) -> of_book_sequence o = vs v + 1 ->
  (length (vw v (of_owner o)) < 32)%nat -> (length (vb v (book_key (of_book o))) < 256)%nat ->
  of_native_locked o = 0 -> of_taker_gets_remaining o <= free_units v (of_owner o) (of_taker_gets o) ->
  let v' := v_insert (with_lock o) (v_reserve o (v_seq (vs v + 1) v)) in
  inv v' /\ total v' = total v /\ vo v' = <[of_offer_id o := with_lock o]> (vo v).
Proof.
  intros [A L R S I Q] Ho Hsh Hseq Hl1 Hl2 Hz Hfree. cbv zeta. set (v0 := v_seq (vs v + 1) v). set (o' := with_lock o).
  destruct (frame_reserve o v0) as (F1 & F2 & F3 & F4 & F5 & F6).
  assert (of_offer_id o' = of_offer_id o /\ of_owner o' = of_owner o /\ of_book o' = of_book o /\ of_book_sequence o' = of_book_sequence o /\
    of_taker_gets_remaining o' = of_taker_gets_remaining o /\ of_taker_gets o' = of_taker_gets o) as (E1 & E2 & E3 & E4 & E5 & E6)
    by (unfold o', with_lock; case_match; done).
  pose proof (sh_gets _ _ Hsh) as Hg. fold o' in Hg. rewrite E5 in Hg.
  assert (forall x, sells o' x = sells o x) as Es by (intros x; unfold sells; by rewrite E2, E6).
  split; [split|split].
  - intros x. cbn. unfold v_reserve. destruct (of_taker_gets o) as [|a] eqn:Eg; [|case_match; apply A]. cbn. unfold upd.
    destruct (decide (x = of_owner o)) as [->|]; [|apply A]. cbn [free_units] in Hfree. cbn. destruct (A (of_owner o)) as [[H1 H2] H3].
    split; [unfold in_u64; lia|done].
  - destruct L. split; cbn; rewrite ?F1, ?F2; done.
  - intros h a. cbn. rewrite vr_reserve, F1, F3, E1. cbn. destruct (R h a) as [R1 R2]. unfold reserved in *.
    rewrite msum_insert_new by done. rewrite Es, E5, R1. split; [lia|].
    destruct (sells o (h, a)) eqn:Esl; [|lia]. unfold sells in Esl. cbn in Esl.
    apply andb_true_iff in Esl as [[H1%Z.eqb_eq H2%bool_decide_eq_true_1]%andb_true_iff H3%negb_true_iff]. subst h. rewrite H2 in Hfree.
    cbn [free_units] in Hfree. rewrite H3 in Hfree. unfold bal_in in *. unfold saturating_sub in Hfree.
    destruct (vl v !! _); lia.
  - intros id x. cbn. rewrite F3, E1. intros [[<- <-]|[_ H]]%lookup_insert_Some; [done|by apply S].
  - apply insert_index; rewrite ?F3, ?F4, ?F5, ?E1, ?E2, ?E3; try done. destruct I. split; rewrite ?F3, ?F4, ?F5; done.
  - destruct Q as [Q1 Q2]. split; cbn; rewrite F3, ?F6, E1; cbn.
    + intros id x [[<- <-]|[_ H]]%lookup_insert_Some; [lia|]. apply Q1 in H. lia.
    + intros id id' x y [[<- <-]|[_ H1]]%lookup_insert_Some [[<- <-]|[_ H2]]%lookup_insert_Some Hxy; [done|..|by eapply Q2].
      * apply Q1 in H2. lia.
      * apply Q1 in H1. lia.
  - unfold total. cbn. rewrite F3, E1. cbn. unfold locked_native. rewrite msum_insert_new by done.
    unfold v_reserve. pose proof (sh_locked _ _ Hsh) as Hl. fold o' in Hl. rewrite Hl, E5, E6.
    destruct (of_taker_gets o) as [|a]; cbn [is_native]; [rewrite vn_add; cbn; lia|].
    destruct (of_owner o =? ia_issuer a); cbn; lia.
  - cbn. by rewrite F3, E1.
Qed.
End inv.
