(* ===== verification/OfferRun.v ===== *)
(** * Running an offer

    The loops of [apply_drc_offer_create]: the owner's own crossing offers are
    withdrawn, the resting offers are tried in turn, the rest is placed.  Each
    keeps the invariant of the book; the crossing also keeps the price. *)

From stdpp Require Import base gmap list fin_maps strings.
From Stdlib Require Import ZArith Lia.
From S2P Require Import Prelude Ordering Sums Types Finality Store Supply Accounts Objects Policy Trust TrustProps Offer OfferProps OfferView OfferInv.
Local Open Scope Z_scope.

Section run.
Context {Auth : Type} `{TL : TrustLane Auth} `{OL : OfferLane Auth}.
Context (key_inj : forall a a', asset_key a = asset_key a' -> a = a').
Context (book_inj : forall b b', book_key b = book_key b' -> b = b').
Variables (s : StateStore) (ts : TrustStore) (os : OfferStore).
Implicit Types (v : View) (o m : DrcOfferLive) (w : Working).

(** ** What the stores keep *)

Record offers_ok : Prop := {
  oo_live id o : live_offers os !! id = Some o -> offer_shape id o /\ something_left o;
  oo_owner a r : offer_owners os !! a = Some r -> oi_version r = 1 /\ oi_owner r = a;
  oo_owner_exact a id : id ∈ owner_stored os a <-> exists o, live_offers os !! id = Some o /\ of_owner o = a;
  oo_owner_list a : NoDup (owner_stored os a) /\ (length (owner_stored os a) <= 32)%nat;
  oo_book k r : offer_books os !! k = Some r -> bi_version r = 1 /\ bi_book_key r = k;
  oo_book_raw k r : offer_books os !! k = Some r -> Forall (fun id => is_Some (live_offers os !! id)) (bi_live_ids r);
  oo_book_exact k id : id ∈ book_stored os k <-> exists o, live_offers os !! id = Some o /\ book_key (of_book o) = k;
  oo_book_list k : NoDup (book_stored os k) /\ (length (book_stored os k) <= 256)%nat;
  oo_reserve h a : load_issued_offer_reserve ts h a = reserved (live_offers os) (h, a);
  oo_seq id o : live_offers os !! id = Some o -> of_book_sequence o <= default 0 (offer_sequence os);
  oo_seq_inj id id' o o' : live_offers os !! id = Some o -> live_offers os !! id' = Some o' ->
    of_book_sequence o = of_book_sequence o' -> id = id';
}.
Context (Hacc : accounts_ok s) (Htr : trust_ok ts) (Hoo : offers_ok).

Lemma books_load b : exists l, load_book os b = Ok l.
Proof.
  unfold load_book. destruct (offer_books os !! book_key b) as [r|] eqn:Eb; [|by eexists].
  destruct (oo_book Hoo _ _ Eb) as [-> ->]. rewrite !Z.eqb_refl. cbn [andb ensure rbind].
  match goal with |- exists l, rfold ?f [] ?ids = _ => cut (forall acc, exists l, rfold f acc ids = Ok l); [intros Hx; apply Hx|] end.
  induction (bi_live_ids r) as [|id ids IH]; intros acc; [by eexists|]. cbn [rfold].
  assert (load_drc_offer_live os id = Ok (live_offers os !! id)) as ->; [|cbn [rbind]; apply IH].
  unfold load_drc_offer_live. destruct (live_offers os !! id) as [o|] eqn:Eo; [|done]. destruct (oo_live Hoo _ _ Eo) as [Hs Hl].
  rewrite (shape_valid _ _ Hs Hl), (sh_id _ _ Hs), Z.eqb_refl. done.
Qed.
Lemma start_inv : inv s ts (view_start s ts os) /\ all_left 0 (view_start s ts os).
Proof.
  split; [split|].
  - intros a. cbn. split; [apply (ao_ints _ Hacc)|done].
  - split; cbn; [done| |intros a; apply (vo_sum _ (to_value _ Htr))|intros a; by apply liab_bounds].
    intros [h k] l Hl. exists l. split; [done|]. pose proof (to_lines _ Htr _ _ _ Hl) as [_ _ Hv Hn _ _ _].
    apply validate_line_inv in Hv as (_ & _ & Hle & _). split; [by destruct l|done].
  - intros h a. cbn. rewrite (oo_reserve Hoo). split; [done|]. rewrite <- (oo_reserve Hoo). unfold load_issued_offer_reserve.
    destruct (reserves ts !! _) as [n|] eqn:En; cbn.
    + apply (vo_reserve _ (to_value _ Htr) _ _ En).
    + unfold bal_in. destruct (lines ts !! _) as [l|] eqn:El; [|done]. by apply (lo_nonneg _ _ _ (to_lines _ Htr _ _ _ El)).
  - intros id o Ho. by apply (oo_live Hoo).
  - destruct Hoo. by split.
  - destruct Hoo. by split.
  - intros id o Ho _. by apply (oo_live Hoo) in Ho as [_ ?].
Qed.

(** ** What the loops keep *)

Definition within v0 v : Prop := forall id o, vo v !! id = Some o ->
  exists o0, vo v0 !! id = Some o0 /\ of_book o = of_book o0 /\ of_owner o = of_owner o0.
Lemma within_refl v : within v v.
Proof. intros id o Ho. by exists o. Qed.
Lemma within_trans v0 v1 v2 : within v0 v1 -> within v1 v2 -> within v0 v2.
Proof. intros H1 H2 id o (o1 & (o0 & H0 & E1 & E2)%H1 & E3 & E4)%H2. exists o0. split; [done|]. split; congruence. Qed.
(** [w] stands for a sound view reached from [v0]. *)
Record sound v0 w v : Prop := {
  so_rep : rep s ts os w v;
  so_inv : inv s ts v;
  so_left : all_left 0 v;
  so_total : total v = total v0;
  so_within : within v0 v;
  so_known : (vk v, vs v) = (vk v0, vs v0);
}.
Lemma release_sound v0 w v o u w' :
  sound v0 w v -> vo v !! of_offer_id o = Some o -> release_offer s ts os o w = Ok (u, w') ->
  sound v0 w' (v_release o v).
Proof.
  intros [R I L T Wi Kn] Ho H. pose proof (iv_shapes _ _ _ I _ _ Ho) as Hsh.
  assert (0 <= of_native_locked o) as Hl by (pose proof (sh_gets _ _ Hsh); rewrite (sh_locked _ _ Hsh); destruct (is_native _); lia).
  destruct (release_rep key_inj s ts os books_load _ _ _ _ _ R Hl H) as [Hfit R'].
  destruct (release_inv s ts v o I Ho Hfit) as [I' T']. split; [exact R'|done|..|congruence| |by rewrite vk_release].
  - intros id x. rewrite vo_release. intros [_ Hx]%lookup_delete_Some. by apply L.
  - intros id x. rewrite vo_release. intros [_ Hx]%lookup_delete_Some. by apply Wi.
Qed.

(** ** The owner's own offers *)

Definition own_crossing (tx : DrcOfferCreateTx) o : bool :=
  bool_decide (of_book o = opposite (oc_book tx)) &&
  offers_cross (oc_taker_gets_amount tx) (oc_taker_pays_amount tx) (of_taker_gets_remaining o) (of_taker_pays_remaining o).
Lemma bump_Ok steps cap n : bump_steps steps cap = Ok n -> n = S steps /\ (n <= cap)%nat.
Proof. intros (_ & H%ensure_Ok%negb_true_iff%Nat.ltb_ge & [= <-])%rbind_Ok. done. Qed.
Lemma cancel_own_step v0 tx cap steps removed id w v steps' removed' w' :
  sound v0 w v -> (steps <= cap)%nat -> cancel_own s ts os tx cap (steps, removed) id w = Ok ((steps', removed'), w') ->
  exists v', sound v0 w' v' /\ (steps' <= cap)%nat /\ vo v' ⊆ vo v /\ (forall o, vo v' !! id = Some o -> own_crossing tx o = false) /\
    (forall id' o, vo v !! id' = Some o -> (id' = id -> own_crossing tx o = false) -> vo v' !! id' = Some o).
Proof.
  intros Hs Hle H. unfold cancel_own in H. wstep H. destruct (offer_rep _ _ _ _ _ _ _ _ (so_rep _ _ _ Hs) E) as [-> R1].
  assert (sound v0 w0 v) as Hs1 by (by destruct Hs; split).
  destruct (vo v !! id) as [o|] eqn:Eo.
  2:{ apply wret_Ok in H as [H ->]. apply pair_eq in H as [-> ->]. exists v. split; [done|]. split; [done|]. split; [done|]. split; [congruence|done]. }
  unfold own_crossing. case_bool_decide as Eb; cbn [negb] in H.
  2:{ apply wret_Ok in H as [H ->]. apply pair_eq in H as [-> ->]. exists v. split; [done|]. split; [done|]. split; [done|].
      split; [|done]. intros o' Ho'. assert (o' = o) as -> by congruence. by rewrite bool_decide_eq_false_2. }
  destruct (offers_cross _ _ _ _) eqn:Ec; cbn [negb] in H.
  2:{ apply wret_Ok in H as [H ->]. apply pair_eq in H as [-> ->]. exists v. split; [done|]. split; [done|]. split; [done|].
      split; [|done]. intros o' Ho'. assert (o' = o) as -> by congruence. by rewrite Ec, andb_false_r. }
  pose proof (sh_id _ _ (iv_shapes _ _ _ (so_inv _ _ _ Hs) _ _ Eo)) as Hid.
  wstep H. apply wlift_Ok in E0 as [[-> Hc]%bump_Ok ->]. wstep H. apply wret_Ok in H as [H ->]. apply pair_eq in H as [-> ->].
  exists (v_release o v). split; [by eapply release_sound; [exact Hs1|by rewrite Hid|exact E0]|]. split; [done|].
  rewrite vo_release, Hid. split; [apply delete_subseteq|]. split; [intros o' Ho'; by rewrite lookup_delete_eq in Ho'|].
  intros id' o' Ho' Hx. destruct (decide (id' = id)) as [->|]; [|by rewrite lookup_delete_ne]. assert (o' = o) as -> by congruence.
  specialize (Hx eq_refl). rewrite bool_decide_eq_true_2, Ec in Hx by done. done.
Qed.
Lemma cancel_own_fold v0 tx cap ids steps removed w v steps' removed' w' :
  sound v0 w v -> (steps <= cap)%nat -> wfold (cancel_own s ts os tx cap) (steps, removed) ids w = Ok ((steps', removed'), w') ->
  exists v', sound v0 w' v' /\ (steps' <= cap)%nat /\ vo v' ⊆ vo v /\
    (forall id o, id ∈ ids -> vo v' !! id = Some o -> own_crossing tx o = false) /\
    (forall id o, vo v !! id = Some o -> (id ∈ ids -> own_crossing tx o = false) -> vo v' !! id = Some o).
Proof.
  revert steps removed w v. induction ids as [|id ids IH]; intros steps removed w v Hs Hle H; cbn [wfold] in H.
  - apply wret_Ok in H as [H ->]. apply pair_eq in H as [-> ->]. exists v. split; [done|]. split; [done|]. split; [done|]. split; [set_solver|done].
  - apply wbind_Ok in H as ([steps1 removed1] & w1 & H1 & H). destruct (cancel_own_step _ _ _ _ _ _ _ _ _ _ _ Hs Hle H1) as (v1 & Hs1 & Hle1 & Hsub1 & Hc1 & Hk1).
    destruct (IH _ _ _ _ Hs1 Hle1 H) as (v2 & Hs2 & Hle2 & Hsub2 & Hc2 & Hk2). exists v2. split; [done|]. split; [done|].
    split; [by etransitivity|]. split.
    + intros id' o [->|Hin]%elem_of_cons Ho; [|by eapply Hc2]. apply Hc1. by eapply lookup_weaken.
    + intros id' o Ho Hx. apply Hk2; [apply Hk1; [done|]; intros ->; apply Hx; left|]. intros Hin. apply Hx. by right.
Qed.

(** ** The resting offers *)

(** The taker's side of the crossing: what it has paid and received, and that
    it never paid above its price by more than one unit for each fill. *)
Record cross_ok (gets pays : Z) (cap : nat) (c : Crossing) : Prop := {
  co_steps : (cs_steps c <= cap)%nat;
  co_gets : cs_paid c + cs_gets_remaining c = gets /\ 0 <= cs_paid c /\ 0 <= cs_gets_remaining c;
  co_pays : cs_received c + cs_pays_remaining c = pays /\ 0 <= cs_received c /\ 0 <= cs_pays_remaining c;
  co_price : cs_pays_remaining c * gets <= (cs_gets_remaining c + Z.of_nat (cs_steps c)) * pays;
  co_both : cs_paid c = 0 <-> cs_received c = 0;
}.
Lemma price_step g p gets pays n m_gets m_pays paid received :
  0 <= gets -> 0 <= pays -> 0 <= n -> 0 <= g -> 0 < p -> 0 < m_gets -> 0 < received <= p ->
  m_pays * p <= g * m_gets -> (paid - 1) * m_gets < received * m_pays -> p * gets <= (g + n) * pays ->
  (p - received) * gets <= (g - paid + (n + 1)) * pays.
Proof.
  intros H1 H2 H3 H4 H5 H6 H7 Hc Hp Hi.
  assert ((paid - 1) * p <= received * g) as Hq.
  { apply Z.mul_le_mono_pos_r with m_gets; [done|].
    transitivity (received * (m_pays * p)); [|nia]. transitivity ((paid - 1) * m_gets * p); [nia|].
    transitivity (received * m_pays * p); [|nia]. apply Z.mul_le_mono_nonneg_r; lia. }
  apply Z.mul_le_mono_pos_r with p; [done|].
  transitivity ((p - received) * ((g + n) * pays)); [|].
  { replace ((p - received) * gets * p) with ((p - received) * (p * gets)) by ring. apply Z.mul_le_mono_nonneg_l; lia. }
  replace ((p - received) * ((g + n) * pays)) with ((p - received) * (g + n) * pays) by ring.
  replace ((g - paid + (n + 1)) * pays * p) with ((g - paid + (n + 1)) * p * pays) by ring.
  apply Z.mul_le_mono_nonneg_r; [done|]. nia.
Qed.
Lemma cross_inv gr pr mg mp : offers_cross gr pr mg mp = true -> gr <> 0 /\ pr <> 0 /\ mg <> 0 /\ mp <> 0 /\ mp * pr <= gr * mg.
Proof. unfold offers_cross. destruct (_ || _) eqn:E; [done|]. lia. Qed.

(** A step in which the taker traded with an offer of its own. *)
Definition own_fill (tx : DrcOfferCreateTx) (c c' : Crossing) m : bool :=
  (of_owner m =? oc_owner tx) && negb (cs_received c' =? cs_received c).
(** The crossing loop, run from here, never makes the taker trade with itself. *)
Fixpoint trades_with_others (tx : DrcOfferCreateTx) (mode : DrcOfferFillMode) (score : Z) (cap : nat) (c : Crossing)
  (makers : list DrcOfferLive) w : bool :=
  match makers with
  | [] => true
  | m :: makers =>
      match cross_maker s ts os tx mode score cap c m w with
      | Ok (c', w') => negb (own_fill tx c c' m) && trades_with_others tx mode score cap c' makers w'
      | Err _ => true
      end
  end.

Section crossing.
Context (tx : DrcOfferCreateTx) (mode : DrcOfferFillMode) (score : Z) (cap : nat) (v0 : View).
Let G := oc_taker_gets_amount tx.
Let P := oc_taker_pays_amount tx.
Context (HG : 0 <= G <= u64_max) (HP : 0 <= P <= u64_max).
Lemma cross_ok_release c removed :
  cross_ok G P cap c -> (S (cs_steps c) <= cap)%nat ->
  cross_ok G P cap {| cs_steps := S (cs_steps c); cs_removed := removed; cs_pays_remaining := cs_pays_remaining c;
    cs_gets_remaining := cs_gets_remaining c; cs_paid := cs_paid c; cs_received := cs_received c; cs_stopped := false |}.
Proof. intros [C1 C2 C3 C4 C5] Hle. split; cbn [cs_steps cs_paid cs_gets_remaining cs_received cs_pays_remaining]; try done. nia. Qed.
Lemma cross_ok_fill v m c removed paid received :
  cross_ok G P cap c -> (S (cs_steps c) <= cap)%nat ->
  fill_terms ts v (oc_owner tx) (oc_taker_gets tx) (oc_taker_pays tx) m (cs_gets_remaining c) (cs_pays_remaining c) paid received ->
  something_left m ->
  fill_amounts m (free_units v (oc_owner tx) (oc_taker_gets tx)) (cs_gets_remaining c) (cs_pays_remaining c) paid received ->
  cross_ok G P cap {| cs_steps := S (cs_steps c); cs_removed := removed; cs_pays_remaining := cs_pays_remaining c - received;
    cs_gets_remaining := cs_gets_remaining c - paid; cs_paid := cs_paid c + paid; cs_received := cs_received c + received; cs_stopped := false |}.
Proof.
  intros [C1 C2 C3 C4 C5] Hle [Hc _ _ _ _ _] [Hl1 Hl2] [A1 A2 _ A4 A5]. apply cross_inv in Hc as (_ & Hp0 & _ & _ & Hc).
  split; cbn [cs_steps cs_paid cs_gets_remaining cs_received cs_pays_remaining]; [done|lia|lia| |lia].
  rewrite Nat2Z.inj_succ, <- Z.add_1_r. eapply price_step; try exact Hc; try exact C4; try done; lia.
Qed.
Lemma fill_sound w v m gr pr paid received w' :
  sound v0 w v -> vo v !! of_offer_id m = Some m -> of_book m = opposite (oc_book tx) -> oc_owner tx <> of_owner m ->
  rep s ts os w' (v_fill (oc_owner tx) (oc_taker_gets tx) (oc_taker_pays tx) m paid received v) ->
  fill_terms ts v (oc_owner tx) (oc_taker_gets tx) (oc_taker_pays tx) m gr pr paid received ->
  fill_amounts m (free_units v (oc_owner tx) (oc_taker_gets tx)) gr pr paid received ->
  forall v', v' = v_fill (oc_owner tx) (oc_taker_gets tx) (oc_taker_pays tx) m paid received v ->
  rep s ts os w' v' /\ inv s ts v' /\ all_left (of_offer_id m) v' /\ total v' = total v0 /\ within v0 v' /\ (vk v', vs v') = (vk v0, vs v0) /\
  vo v' = <[of_offer_id m := filled_maker m paid received]> (vo v).
Proof.
  intros [R I L T Wi Kn] Hm Hb Hne R' Ht Ha v' ->. split; [done|].
  assert (oc_taker_gets tx = of_taker_pays m /\ oc_taker_pays tx = of_taker_gets m) as [E1 E2].
  { unfold of_book, opposite, oc_book in Hb. cbn in Hb. by injection Hb as -> ->. }
  destruct (Wi _ _ Hm) as (m0 & Hm0 & Eb & Eo).
  rewrite E1, E2 in *. destruct (fill_inv key_inj s ts v (oc_owner tx) m gr pr paid received I Hm Hne Ht Ha) as (I' & T' & O').
  cbv zeta in *. split; [done|]. rewrite O'. split; [|split; [congruence|split; [|split; [by rewrite vk_fill|done]]]].
  - intros id o. rewrite O'. intros [[<- <-]|[Hid Ho]]%lookup_insert_Some Hn; [done|]. apply (L id); [done|].
    apply (iv_shapes _ _ _ I) in Ho. by destruct (sh_head _ _ Ho) as (_ & _ & ? & _).
  - intros id o. rewrite O'. intros [[<- <-]|[Hid Ho]]%lookup_insert_Some; [by exists m0|by apply Wi].
Qed.
Lemma cross_maker_step w v c m c' w' :
  sound v0 w v -> cross_ok G P cap c ->
  (forall o, vo v !! of_offer_id m = Some o -> of_book o = opposite (oc_book tx) /\ of_owner o = of_owner m) ->
  own_fill tx c c' m = false ->
  cross_maker s ts os tx mode score cap c m w = Ok (c', w') ->
  exists v', sound v0 w' v' /\ cross_ok G P cap c'.
Proof.
  intros Hs Hc Hbk Hof H. unfold cross_maker in H.
  destruct (cs_stopped c); [apply wret_Ok in H as [-> ->]; by exists v|].
  destruct (decide _); [apply wret_Ok in H as [-> ->]; by exists v|].
  destruct (taker_done _ _ _); [apply wret_Ok in H as [-> ->]; exists v; split; [done|]; by destruct Hc; split|].
  apply wbind_Ok in H as (mo & w1 & E1 & H). destruct (offer_rep _ _ _ _ _ _ _ _ (so_rep _ _ _ Hs) E1) as [-> R1].
  assert (sound v0 w1 v) as Hs1 by (by destruct Hs; split).
  destruct (vo v !! of_offer_id m) as [o|] eqn:Eo; [|apply wret_Ok in H as [-> ->]; by exists v].
  pose proof (iv_shapes _ _ _ (so_inv _ _ _ Hs) _ _ Eo) as Hsh. pose proof (sh_id _ _ Hsh) as Hid. rewrite <- Hid in Eo, Hsh.
  destruct (Hbk o eq_refl) as [Hb Hom]. clear Hbk. rename Hb into Hbk.
  assert (forall w1 v u steps w2 c2 w3, sound v0 w1 v -> vo v !! of_offer_id o = Some o ->
    bump_steps (cs_steps c) cap = Ok steps -> release_offer s ts os o w1 = Ok (u, w2) ->
    wret {| cs_steps := steps; cs_removed := cs_removed c ++ [of_offer_id o]; cs_pays_remaining := cs_pays_remaining c;
            cs_gets_remaining := cs_gets_remaining c; cs_paid := cs_paid c; cs_received := cs_received c; cs_stopped := false |} w2 = Ok (c2, w3) ->
    exists v', sound v0 w3 v' /\ cross_ok G P cap c2) as Hrel.
  { intros w1' v' u steps w2 c2 w3 Hs' Ho [-> Hle]%bump_Ok Hr [-> ->]%wret_Ok. exists (v_release o v').
    split; [by eapply release_sound|]. by apply cross_ok_release. }
  destruct (expired_at o score).
  { wstep H. apply wlift_Ok in E as [E ->]. wstep H. by eapply Hrel. }
  apply wbind_Ok in H as (cr & w2 & E2 & H).
  assert (oc_taker_gets tx = of_taker_pays o /\ oc_taker_pays tx = of_taker_gets o) as [G1 G2].
  { unfold of_book, opposite, oc_book in Hbk. cbn in Hbk. by injection Hbk as -> ->. }
  assert (something_left o) as Hleft by (apply (so_left _ _ _ Hs (of_offer_id o)); [done|]; by destruct (sh_head _ _ Hsh) as (_ & _ & ? & _)).
  assert (0 <= cs_gets_remaining c <= u64_max /\ 0 <= cs_pays_remaining c <= u64_max) as [Hgr Hpr]
    by (destruct Hc as [_ C2 C3 _ _]; lia).
  assert (forall want budget r p, offer_fill_step (of_taker_gets_remaining o) (of_taker_pays_remaining o) want budget = Some (r, p) ->
     want = Z.min (Z.min (cs_pays_remaining c) (of_taker_gets_remaining o)) (maker_units v o) ->
     budget = Z.min (Z.min (cs_gets_remaining c) (of_taker_pays_remaining o)) (free_units v (oc_owner tx) (oc_taker_gets tx)) ->
     fill_amounts o (free_units v (oc_owner tx) (oc_taker_gets tx)) (cs_gets_remaining c) (cs_pays_remaining c) p r) as Hamt.
  { intros want budget r p Hst Hw Hb. by eapply fill_step_amounts; [exact (so_inv _ _ _ Hs)|..]. }
  assert ((forall paid received, cr <> Fill paid received) -> rep s ts os w2 v) as Hidle by (intros Hn; exact (cross_one_idle key_inj s ts os _ _ _ _ _ _ _ _ _ _ R1 Hn E2)).
  destruct cr as [paid received| | |].
  2:{ specialize (Hidle ltac:(done)). wstep H. apply wlift_Ok in E as [E ->]. wstep H. eapply Hrel; [|exact Eo|exact E|exact E0|exact H]. by destruct Hs; split. }
  2:{ specialize (Hidle ltac:(done)). apply wret_Ok in H as [-> ->]. exists v. split; [by destruct Hs; split|done]. }
  2:{ specialize (Hidle ltac:(done)). apply wret_Ok in H as [-> ->]. exists v. split; [by destruct Hs; split|]. by destruct Hc; split. }
  assert (oc_owner tx <> of_owner o) as Hne.
  { pose proof (cross_one_step key_inj s ts os _ _ _ _ _ _ _ _ _ _ _ R1 E2) as Hst.
    pose proof (Hamt _ _ _ _ Hst eq_refl eq_refl) as Ha. intros E.
    assert (cs_received c' = cs_received c + received) as Er.
    { wstep H. wstep H. destruct r0 as [u|]; [destruct (_ || _); wstep H|]; by apply wret_Ok in H as [-> _]. }
    unfold own_fill in Hof. rewrite <- Hom, <- E, Z.eqb_refl, (proj2 (Z.eqb_neq (cs_received c') _)) in Hof; [done|]. destruct Ha. lia. }
  pose proof (cross_one_rep key_inj s ts os w1 v (oc_owner tx) (oc_taker_gets tx) (oc_taker_pays tx) o (cs_gets_remaining c) (cs_pays_remaining c) (Fill paid received) w2 R1
    (inv_normal ts v Htr (iv_lines _ _ _ (so_inv _ _ _ Hs)))) as Hx.
  specialize (Hx ltac:(rewrite G1, G2; apply book_distinct, Hsh) ltac:(by rewrite G2) Eo Hne).
  specialize (Hx ltac:(intros want budget r p Hst Hw Hb; destruct (Hamt _ _ _ _ Hst Hw Hb); lia) E2).
  destruct Hx as [Ht R2]. pose proof (Hamt _ _ _ _ (ft_step _ _ _ _ _ _ _ _ _ _ Ht) eq_refl eq_refl) as Ha.
  wstep H. apply wlift_Ok in E as [[-> Hle]%bump_Ok ->].
  destruct (fill_sound _ _ _ _ _ _ _ _ Hs Eo Hbk Hne R2 Ht Ha _ eq_refl) as (_ & I2 & L2 & T2 & W2 & K2 & O2).
  set (v2 := v_fill _ _ _ _ _ _ _) in *. wstep H. destruct (offer_rep _ _ _ _ _ _ _ _ R2 E) as [-> R3].
  rewrite O2, lookup_insert_eq in H.
  assert (vo v2 !! of_offer_id o = Some (filled_maker o paid received)) as Ho2 by (by rewrite O2, lookup_insert_eq).
  pose proof (cross_ok_fill _ _ _ (cs_removed c) _ _ Hc Hle Ht Hleft Ha) as Hc2.
  destruct (_ || _) eqn:Ez.
  - wstep H. apply wret_Ok in H as [-> ->].
    assert (0 <= of_native_locked (filled_maker o paid received)) as Hl0.
    { pose proof (iv_shapes _ _ _ I2 _ _ Ho2) as Hsh2. pose proof (sh_gets _ _ Hsh2). rewrite (sh_locked _ _ Hsh2). destruct (is_native _); lia. }
    destruct (release_rep key_inj s ts os books_load _ _ _ _ _ R3 Hl0 E0) as [Hfit R4].
    destruct (release_inv s ts v2 (filled_maker o paid received) I2 Ho2 Hfit) as [I4 T4].
    exists (v_release (filled_maker o paid received) v2). split; [|by destruct Hc2; split].
    split; [exact R4|done| |congruence| |by rewrite vk_release].
    + intros id x. rewrite vo_release. intros [Hne2 Hx]%lookup_delete_Some _. by apply (L2 id); [|symmetry].
    + intros id x. rewrite vo_release. intros [_ Hx]%lookup_delete_Some. by apply W2.
  - wstep H. apply wret_Ok in H as [-> ->].
    destruct (persist_rep s ts os _ _ (filled_maker o paid received) _ _ R3 ltac:(by exists (filled_maker o paid received)) E0) as [Hval R4].
    cbn [of_offer_id filled_maker with_remaining] in R4. fold (filled_maker o paid received) in R4. rewrite insert_id in R4 by done.
    exists v2. split; [|by destruct Hc2; split]. split; [by destruct v2|done| |done|done|done].
    intros id x Hx _. destruct (decide (id = of_offer_id o)) as [->|Hn]; [|by apply (L2 id)].
    assert (x = filled_maker o paid received) as -> by congruence. pose proof (iv_shapes _ _ _ I2 _ _ Ho2) as Hsh2.
    destruct (sh_gets _ _ Hsh2), (sh_pays _ _ Hsh2). apply validate_live_inv in Hval as (_ & _ & _ & _ & _ & V1 & V2 & _). split; lia.
Qed.
Lemma cross_fold makers w v c c' w' :
  sound v0 w v -> cross_ok G P cap c ->
  (forall m o, m ∈ makers -> vo v0 !! of_offer_id m = Some o -> of_book o = opposite (oc_book tx) /\ of_owner o = of_owner m) ->
  trades_with_others tx mode score cap c makers w = true ->
  wfold (cross_maker s ts os tx mode score cap) c makers w = Ok (c', w') ->
  exists v', sound v0 w' v' /\ cross_ok G P cap c'.
Proof.
  revert w v c. induction makers as [|m makers IH]; intros w v c Hs Hc Hm Ht H; cbn [wfold] in H.
  { apply wret_Ok in H as [-> ->]. by exists v. }
  wstep H. cbn [trades_with_others] in Ht. rewrite E in Ht. apply andb_true_iff in Ht as [Ho%negb_true_iff Ht].
  assert (exists v1, sound v0 w0 v1 /\ cross_ok G P cap r) as (v1 & Hs1 & Hc1).
  { eapply cross_maker_step; [exact Hs|exact Hc| |exact Ho|exact E].
    intros o Hl. destruct (so_within _ _ _ Hs _ _ Hl) as (o0 & Ho0 & -> & ->). apply Hm; [left|done]. }
  apply (IH w0 v1 r); try done. intros m' o Hin. apply Hm. by right.
Qed.
End crossing.

(** ** The whole run *)

Lemma valid_shape o :
  validate_offer_live o = Ok tt -> 0 <= of_taker_gets_remaining o -> 0 <= of_taker_pays_remaining o ->
  of_taker_gets_original o <= u64_max -> of_taker_pays_original o <= u64_max ->
  offer_shape (of_offer_id o) o /\ something_left o.
Proof.
  intros (V & H1 & H2 & H3 & H4 & H5 & H6 & H7 & H8 & H9 & H10 & H11 & H12)%validate_live_inv R1 R2 R3 R4.
  split; [split; try done; lia|split; lia].
Qed.
Definition rest_of (tx : DrcOfferCreateTx) (c : Crossing) (o : DrcOfferLive) : Prop :=
  of_owner o = oc_owner tx /\ of_book o = oc_book tx /\ of_taker_gets_remaining o = cs_gets_remaining c /\
  of_taker_pays_remaining o = cs_pays_remaining c /\ of_taker_gets_original o = oc_taker_gets_amount tx /\
  of_taker_pays_original o = oc_taker_pays_amount tx.
Section execute.
Context (tx : DrcOfferCreateTx) (score : Z) (steps_remaining : nat).
Let G := oc_taker_gets_amount tx.
Let P := oc_taker_pays_amount tx.
Context (HG : 0 <= G <= u64_max) (HP : 0 <= P <= u64_max) (Hfee : 0 <= oc_fee tx).
Context (Hnew : live_offers os !! offer_id tx = None).
Lemma place_rest_run v0 w v c tif filled placed w' :
  sound v0 w v -> vo v !! offer_id tx = None -> 0 <= cs_gets_remaining c -> 0 <= cs_pays_remaining c -> cs_gets_remaining c <= u64_max ->
  place_rest s ts os tx tif filled c score w = Ok (placed, w') ->
  exists v', rep s ts os w' v' /\ inv s ts v' /\ all_left 0 v' /\ total v' = total v0 /\ vk v' = vk v0 /\
    (placed = false -> vo v' = vo v) /\
    (placed = true -> tif = GoodTillCancel /\ filled = false /\
       exists o, vo v' = <[offer_id tx := o]> (vo v) /\ rest_of tx c o /\ of_book_sequence o = vs v' /\ vs v' = vs v + 1).
Proof.
  intros [R I L T Wi Kn] Hn Hg0 Hp0 Hg1 H. unfold place_rest in H. injection Kn as Kn _.
  assert (forall w', rep s ts os w' v -> placed = false ->
    exists v', rep s ts os w' v' /\ inv s ts v' /\ all_left 0 v' /\ total v' = total v0 /\ vk v' = vk v0 /\ (placed = false -> vo v' = vo v) /\
    (placed = true -> tif = GoodTillCancel /\ filled = false /\
       exists o, vo v' = <[offer_id tx := o]> (vo v) /\ rest_of tx c o /\ of_book_sequence o = vs v' /\ vs v' = vs v + 1)) as Hno.
  { intros w1 R1 ->. exists v. by repeat (split; [done|]). }
  destruct (_ && _ && _ && _) eqn:Ec.
  2:{ destruct ((cs_paid c =? 0) && _); [done|]. apply wret_Ok in H as [-> ->]. by apply Hno. }
  apply andb_true_iff in Ec as [[[Et%bool_decide_eq_true_1 Ef%negb_true_iff]%andb_true_iff Hp]%andb_true_iff Hg].
  wstep H. destruct (can_fund_rep key_inj s ts os _ _ _ _ _ _ _ R E) as [R1 Hf]. destruct r.
  2:{ destruct (cs_paid c =? 0); [done|]. apply wret_Ok in H as [-> ->]. by apply Hno. }
  wstep H. destruct (alloc_rep s ts os _ _ _ _ R1 E0) as (-> & Hsq & R2).
  wstep H. apply wret_Ok in H as [-> ->]. match type of E1 with reserve_new _ _ _ ?x _ = _ => set (o := x) in * end.
  destruct (reserve_new_rep key_inj s ts os _ _ _ _ _ R2 E1) as (Hv & H1 & H2 & R3 & _).
  assert (of_taker_gets_remaining (with_lock o) = cs_gets_remaining c /\ of_taker_pays_remaining (with_lock o) = cs_pays_remaining c /\
    of_taker_gets_original (with_lock o) = G /\ of_taker_pays_original (with_lock o) = P /\ of_offer_id (with_lock o) = offer_id tx /\
    of_owner (with_lock o) = oc_owner tx /\ of_book (with_lock o) = oc_book tx /\ of_book_sequence (with_lock o) = vs v + 1)
    as (F1 & F2 & F3 & F4 & F5 & F6 & F7 & F8) by (unfold with_lock; case_match; done).
  destruct (valid_shape (with_lock o) Hv) as [Hsh Hl]; [lia..|]. rewrite F5 in Hsh.
  destruct (place_inv key_inj s ts v o I Hn Hsh eq_refl H1 H2 eq_refl) as (I' & T' & O').
  { apply Hf; [done|]. done. }
  cbv zeta in *. eexists. split; [exact R3|]. split; [done|]. change (of_offer_id o) with (offer_id tx) in O'. rewrite O'.
  split; [|split; [congruence|split; [|split; [done|intros _; split; [done|split; [done|]]]]]].
  - intros id x. rewrite O'. intros [[<- <-]|[_ Hx]]%lookup_insert_Some Hz; [done|]. by apply (L id).
  - rewrite <- Kn. cbn. unfold v_reserve. by repeat case_match.
  - exists (with_lock o). split; [done|]. split; [done|]. rewrite F8. cbn. unfold v_reserve. by repeat (case_match; cbn).
Qed.
(** What the crossing starts from: the fee is paid, the owner's own crossing
    offers are gone, and the makers are the other side of the book in order. *)
Definition priority_makers (v : View) : list DrcOfferLive :=
  sort_book (omap (fun id => vo v !! id) (vb v (book_key (opposite (oc_book tx))))).
Lemma start_run cap w r w' :
  rep s ts os w (view_start s ts os) -> start_crossing s ts os tx cap w = Ok (r, w') ->
  let '(c0, makers, mode) := r in
  exists v, sound (v_add (oc_owner tx) (- oc_fee tx) (v_know (oc_owner tx) (view_start s ts os))) w' v /\ vo v ⊆ live_offers os /\
    cross_ok G P cap c0 /\ (cs_paid c0, cs_received c0, cs_stopped c0) = (0, 0, false) /\ makers = priority_makers v /\ fill_mode_from_u8 (oc_fill_mode tx) = Ok mode /\
    (forall id o, vo v !! id = Some o -> of_owner o = oc_owner tx -> own_crossing tx o = false) /\
    (forall id o, live_offers os !! id = Some o -> (of_owner o = oc_owner tx -> own_crossing tx o = false) -> vo v !! id = Some o).
Proof.
  intros R H. unfold start_crossing in H. wstep H. pose proof (account_known key_inj s ts os _ _ _ _ _ R E) as R1. clear E.
  wstep H. destruct (debit_rep key_inj s ts os _ _ _ _ _ _ R1 E) as [Hf R2]. clear E. destruct start_inv as [I0 L0].
  set (v1 := v_add (oc_owner tx) (- oc_fee tx) (v_know (oc_owner tx) (view_start s ts os))) in *.
  assert (inv s ts v1) as I1.
  { apply add_inv; [destruct I0 as [A [] Rv S [] []]; by split|]. destruct (iv_accounts _ _ _ I0 (oc_owner tx)) as [[B1 B2] _]. unfold in_u64. cbn in *. lia. }
  wstep H. destruct (can_fund_rep key_inj s ts os _ _ _ _ _ _ _ R2 E) as [R3 _]. clear E. wstep H. apply wlift_Ok in E as [_ ->].
  wstep H. destruct (owner_rep _ _ _ _ _ _ _ _ R3 E) as [-> R4]. clear E.
  assert (forall w, rep s ts os w v1 -> sound v1 w v1) as Hs1 by (intros wx Rw; by split; [..|apply within_refl|]).
  apply wbind_Ok in H as ([own removed] & w5 & E & H).
  destruct (cancel_own_fold v1 tx cap _ _ _ _ _ _ _ _ (Hs1 _ R4) (Nat.le_0_l _) E) as (v2 & [R5 I2 L2 T2 W2 K2] & Hle2 & Hsub & Hnc & Hkeep). clear E.
  apply wbind_Ok in H as (makers & w6 & E & H). destruct (book_offers_rep _ _ _ _ _ _ _ _ R5 E) as [-> R6]. clear E.
  apply wbind_Ok in H as (mode & wm & E & H). apply wlift_Ok in E as [E ->]. apply wret_Ok in H as [-> ->].
  assert (fill_mode_from_u8 (oc_fill_mode tx) = Ok mode) as Em by (by destruct (fill_mode_from_u8 _); [injection E as ->|]).
  exists v2. split; [by split|]. split; [done|]. split.
  { split; cbn [cs_steps cs_paid cs_gets_remaining cs_received cs_pays_remaining]; [done|subst G P; lia|subst G P; lia| |done]. fold G P. nia. }
  split; [done|]. split; [done|]. split; [done|]. split.
  - intros id o Ho Hown. eapply Hnc; [|exact Ho]. apply (ix_own _ (iv_index _ _ _ I1)). exists o. split; [by eapply lookup_weaken|done].
  - intros id o Ho Hx. apply Hkeep; [done|]. intros Hin. apply Hx. apply (ix_own _ (iv_index _ _ _ I1)) in Hin as (o' & Ho' & <-).
    change (vo v1) with (live_offers os) in Ho'. congruence.
Qed.
Lemma makers_of v m o : inv s ts v -> m ∈ priority_makers v -> vo v !! of_offer_id m = Some o -> of_book o = opposite (oc_book tx) /\ o = m.
Proof.
  intros I2 (id & Hid & Hm)%elem_of_sort_by%list_elem_of_omap Ho.
  apply (ix_book _ (iv_index _ _ _ I2)) in Hid as (x & Hx & Hk). assert (x = m) as -> by congruence. apply book_inj in Hk.
  rewrite (sh_id _ _ (iv_shapes _ _ _ I2 _ _ Hx)) in Ho. split; congruence.
Qed.
(** No step of the crossing makes the taker trade with itself. *)
Definition trades_fairly w : bool :=
  let cap := Nat.min steps_remaining DRC_MAX_OFFER_MATCHES_PER_TX in
  match start_crossing s ts os tx cap w with
  | Ok ((c0, makers, mode), w0) => trades_with_others tx mode score cap c0 makers w0
  | Err _ => true
  end.
Lemma execute_run w r w' :
  rep s ts os w (view_start s ts os) -> trades_fairly w = true -> execute_offer s ts os tx score steps_remaining w = Ok (r, w') ->
  let '(c, own, placed, filled) := r in
  let cap := Nat.min steps_remaining DRC_MAX_OFFER_MATCHES_PER_TX in
  exists v, rep s ts os w' v /\ inv s ts v /\ all_left 0 v /\ total v = locked_native (live_offers os) - oc_fee tx /\ oc_owner tx ∈ vk v /\
    cross_ok G P cap c /\
    (exists mode, fill_mode_from_u8 (oc_fill_mode tx) = Ok mode /\ filled = taker_done mode (cs_pays_remaining c) (cs_gets_remaining c)) /\
    (exists tif, time_in_force_from_u8 (oc_time_in_force tx) = Ok tif /\ (tif = FillOrKill -> filled = true) /\
       (placed = true -> tif = GoodTillCancel /\ filled = false)) /\
    (if placed then exists o, vo v !! offer_id tx = Some o /\ rest_of tx c o /\ of_book_sequence o = vs v /\ vs v = default 0 (offer_sequence os) + 1
     else vo v !! offer_id tx = None) /\
    (forall id, id <> offer_id tx -> is_Some (vo v !! id) -> is_Some (live_offers os !! id)).
Proof.
  intros R Hfair H. unfold execute_offer in H. unfold trades_fairly in Hfair. set (cap := Nat.min steps_remaining DRC_MAX_OFFER_MATCHES_PER_TX) in *.
  apply wbind_Ok in H as ([[c0 makers] mode] & w6 & E & H). rewrite E in Hfair. cbv zeta in Hfair.
  destruct (start_run _ _ _ _ R E) as (v2 & [R6 I2 L2 T2 W2 K2] & Hsub & Hc0 & _ & -> & Em & _ & _). clear E.
  apply wbind_Ok in H as (c & w7 & E2 & H).
  assert (sound v2 w6 v2) as Hs2 by (by split; [..|apply within_refl|]).
  assert (exists v3, sound v2 w7 v3 /\ cross_ok G P cap c) as (v3 & Hs3 & Hc3).
  { eapply (cross_fold tx mode score cap v2 HG HP); [exact Hs2|exact Hc0| |exact Hfair|exact E2]. intros m o Hin Ho. destruct (makers_of _ _ _ I2 Hin Ho) as [? ->]. done. }
  apply wbind_Ok in H as (tif & wt & E0 & H). apply wlift_Ok in E0 as [E0 ->]. apply wbind_Ok in H as (u1 & wu & E1 & H). apply wlift_Ok in E1 as [E1 ->]. apply ensure_Ok in E1.
  assert (time_in_force_from_u8 (oc_time_in_force tx) = Ok tif) as Et by (by destruct (time_in_force_from_u8 _); [injection E0 as ->|]).
  apply wbind_Ok in H as (placed & w8 & E3 & H). apply wret_Ok in H as [-> ->].
  assert (forall id o, vo v3 !! id = Some o -> is_Some (live_offers os !! id)) as Hdom.
  { intros id o (o2 & Ho2 & _)%(so_within _ _ _ Hs3). exists o2. by eapply lookup_weaken. }
  assert (vo v3 !! offer_id tx = None) as Hn3.
  { destruct (vo v3 !! offer_id tx) as [o|] eqn:Ho; [|done]. apply Hdom in Ho as [? Ho]. congruence. }
  assert (0 <= cs_gets_remaining c <= u64_max /\ 0 <= cs_pays_remaining c) as [[B1 B2] B3] by (destruct Hc3 as [_ C2 C3 _ _]; lia).
  destruct (place_rest_run _ _ _ _ _ _ _ _ Hs3 Hn3 B1 B3 B2 E3) as (v4 & R8 & I4 & L4 & T4 & K4 & P1 & P2).
  exists v4. split; [done|]. split; [done|]. split; [done|].
  split; [rewrite T4, T2; unfold total; rewrite vn_add; cbn; lia|].
  injection K2 as K2 Q2. injection (so_known _ _ _ Hs3) as K3 Q3.
  split; [rewrite K4, K2; cbn; set_solver|]. split; [done|]. split; [by exists mode|].
  split.
  { exists tif. split; [done|]. split; [|intros Hp; by destruct (P2 Hp) as (? & ? & _)]. intros ->. 
    rewrite bool_decide_eq_true_2 in E1 by done. by destruct (taker_done _ _ _). }
  split.
  - destruct placed; [|by rewrite (P1 eq_refl)]. destruct (P2 eq_refl) as (_ & _ & o & O4 & Hr & Hq & Hs4). exists o.
    rewrite O4, lookup_insert_eq. split; [done|]. split; [done|]. split; [done|].
    rewrite Hs4, Q3, Q2. done.
  - intros id Hid [o Ho]. destruct placed; [|rewrite (P1 eq_refl) in Ho; by eapply Hdom].
    destruct (P2 eq_refl) as (_ & _ & o' & O4 & _). rewrite O4, lookup_insert_ne in Ho by done. by eapply Hdom.
Qed.
End execute.
End run.
