(* ===== verification/OfferCommit.v ===== *)
(** * Committing an offer

    [flush] writes the working set back.  If the working set stands for a view
    that keeps the invariant, the stores after the batch keep theirs, and the
    accounts carry exactly the change of the native balances. *)

From stdpp Require Import base gmap list fin_maps strings.
From Stdlib Require Import ZArith Lia.
From S2P Require Import Prelude Ordering Sums Types Finality Store Supply Accounts Objects Policy Trust TrustProps Offer OfferProps OfferView OfferInv OfferRun.
Local Open Scope Z_scope.

(** ** Batches of writes by key *)

Section put_all.
Context {K V X : Type} `{Countable K} (key : X -> K) (val : X -> option V).
Definition put_one (m : gmap K V) (x : X) : gmap K V := partial_alter (fun _ => val x) (key x) m.
Definition put_all (m : gmap K V) (xs : list X) : gmap K V := foldl put_one m xs.
Lemma put_all_out xs m k : (forall x, x ∈ xs -> key x <> k) -> put_all m xs !! k = m !! k.
Proof.
  revert m. induction xs as [|x xs IH]; intros m Hk; [done|]. unfold put_all in *. cbn [foldl]. rewrite IH by set_solver.
  unfold put_one. rewrite lookup_partial_alter_ne; [done|]. apply Hk. left.
Qed.
Lemma put_all_in (key_inj : forall x y, key x = key y -> x = y) xs m x : x ∈ xs -> put_all m xs !! key x = val x.
Proof.
  revert m. induction xs as [|y xs IH]; intros m Hx; [by apply elem_of_nil in Hx|]. change (put_all m (y :: xs)) with (put_all (put_one m y) xs).
  destruct (decide (Exists (fun z => key z = key x) xs)) as [He|Hn].
  - apply Exists_exists in He as (z & Hz & E). rewrite <- E. apply key_inj in E as ->. by apply IH.
  - rewrite put_all_out by (intros z Hz E; apply Hn, Exists_exists; by exists z). apply elem_of_cons in Hx as [->|Hx].
    + unfold put_one. by rewrite lookup_partial_alter_eq.
    + destruct Hn. apply Exists_exists. by exists x.
Qed.
End put_all.
Lemma filter_kept {A} (P : A -> Prop) `{forall x, Decision (P x)} l : Forall P l -> filter P l = l.
Proof. induction 1 as [|x l Hx Hl IH]; [done|]. by rewrite filter_cons_True, IH. Qed.
(** A fold of steps that touch one map only as [put_one] does. *)
Lemma foldl_put_all {K V X O} `{Countable K} (key : X -> K) (val : X -> option V) (step : gmap K V -> O -> gmap K V) (op : X -> O) m xs :
  (forall m x, step m (op x) = put_one key val m x) -> foldl step m (op <$> xs) = put_all key val m xs.
Proof. intros Hs. revert m. induction xs as [|x xs IH]; intros m; [done|]. cbn. rewrite Hs. apply IH. Qed.
Lemma foldl_skip {A O} (step : A -> O -> A) m ops : (forall m op, op ∈ ops -> step m op = m) -> foldl step m ops = m.
Proof. revert m. induction ops as [|op ops IH]; intros m Hs; [done|]. cbn. rewrite Hs by left. apply IH. intros. apply Hs. by right. Qed.

(** ** The fields of the offer store *)

Definition live_step (m : gmap Hash DrcOfferLive) (op : OfferOp) :=
  match op with PutOffer id o => <[id := o]> m | DeleteOffer (OKLive id) => delete id m | _ => m end.
Definition owner_step (m : gmap Address OwnerIndex) (op : OfferOp) :=
  match op with PutOfferOwner a r => <[a := r]> m | DeleteOffer (OKOwner a) => delete a m | _ => m end.
Definition book_step (m : gmap Hash BookIndex) (op : OfferOp) :=
  match op with PutOfferBook k r => <[k := r]> m | DeleteOffer (OKBook k) => delete k m | _ => m end.
Definition seq_step (m : option Z) (op : OfferOp) :=
  match op with PutSequence n => Some n | DeleteOffer OKSequence => None | _ => m end.
Lemma field_write {A} (f : OfferStore -> A) (step : A -> OfferOp -> A) os ops :
  (forall os op, f (apply_offer_op os op) = step (f os) op) -> f (write_offers os ops) = foldl step (f os) ops.
Proof. intros Hf. unfold write_offers. revert os. induction ops as [|op ops IH]; intros os; [done|]. cbn. by rewrite IH, Hf. Qed.
Lemma live_write os ops : live_offers (write_offers os ops) = foldl live_step (live_offers os) ops.
Proof. apply field_write. intros [] []; try done. by destruct key. Qed.
Lemma owners_write os ops : offer_owners (write_offers os ops) = foldl owner_step (offer_owners os) ops.
Proof. apply field_write. intros [] []; try done. by destruct key. Qed.
Lemma books_write os ops : offer_books (write_offers os ops) = foldl book_step (offer_books os) ops.
Proof. apply field_write. intros [] []; try done. by destruct key. Qed.
Lemma seq_write os ops : offer_sequence (write_offers os ops) = foldl seq_step (offer_sequence os) ops.
Proof. apply field_write. intros [] []; try done. by destruct key. Qed.

(** ** Accounts *)

Lemma flush_accounts_Ok w b j b' j' :
  flush_accounts w b j = Ok (b', j') -> b' = b ++ (put_drc <$> map_to_list (w_accounts w)).
Proof.
  unfold flush_accounts. generalize (map_to_list (w_accounts w)). intros l. revert b j. induction l as [|[a x] l IH]; intros b j H; cbn [rfold] in H.
  - apply Ok_inj, pair_eq in H as [<- _]. by rewrite app_nil_r.
  - apply rbind_Ok in H as ([b1 j1] & H1 & H). apply rbind_Ok in H1 as (b2 & [_ ->]%put_account_into_Ok & H1).
    apply Ok_inj, pair_eq in H1 as [<- <-]. rewrite (IH _ _ H). cbn. by rewrite <- app_assoc.
Qed.
Lemma liquid_puts s ops l y :
  Forall (fun op => is_account_op op = false) ops -> NoDup l.*1 ->
  liquid y (write_batch s (ops ++ (put_drc <$> l))) =
    liquid y s + (if bool_decide (y = DRC) then zsum ((fun e => balance e.2 - balance (acct_of s DRC e.1)) <$> l) else 0).
Proof.
  intros Hops Hnd. rewrite write_batch_app. rewrite <- (liquid_frame y s ops Hops).
  assert (forall a, acct_of (write_batch s ops) DRC a = acct_of s DRC a) as Ha by (intros; by apply acct_of_frame).
  assert (((fun e => balance e.2 - balance (acct_of s DRC e.1)) <$> l) = ((fun e => balance e.2 - balance (acct_of (write_batch s ops) DRC e.1)) <$> l)) as ->
    by (apply list_fmap_ext; intros; by rewrite Ha).
  generalize (write_batch s ops). clear - Hnd. revert Hnd. induction l as [|[a x] l IH]; intros Hnd s; [cbn; destruct (bool_decide _); lia|].
  apply NoDup_cons in Hnd as [Hn Hnd]. rewrite !fmap_cons, write_batch_cons, (IH Hnd). unfold put_drc. cbn [fst snd].
  rewrite liquid_put, zsum_cons. cbn [fst snd]. rewrite (bool_decide_ext (DRC = y) (y = DRC)) by (split; congruence).
  destruct (bool_decide (y = DRC)); [|lia].
  assert (((fun e : Address * AccountState => balance e.2 - balance (acct_of (apply_op s (PutAccount DRC a x)) DRC e.1)) <$> l) =
    ((fun e => balance e.2 - balance (acct_of s DRC e.1)) <$> l)) as ->; [|lia].
  apply list_fmap_ext. intros i [a' x'] He. rewrite acct_of_put, bool_decide_eq_false_2; [done|]. intros [= E]. cbn in E. subst.
  apply Hn. apply list_elem_of_fmap. exists (a, x'). split; [done|]. by eapply list_elem_of_lookup_2.
Qed.

Section commit.
Context {Auth : Type} `{TL : TrustLane Auth} `{OL : OfferLane Auth}.
Context (key_inj : forall a a', asset_key a = asset_key a' -> a = a').
Variables (s : StateStore) (ts : TrustStore) (os : OfferStore).
Context (Hacc : accounts_ok s) (Htr : trust_ok ts) (Hoo : offers_ok ts os).
Variables (w : Working) (v : View).
Context (R : rep s ts os w v) (I : inv s ts v) (L : all_left 0 v).

(** ** Trust lines *)

Definition line_val (x : Address * IssuedAssetId) : option DrcTrustLineLive := stored_line <$> cached (w_lines w) !! x.
Definition reserve_val (x : Address * IssuedAssetId) : option Z := match vr v x with 0 => None | n => Some n end.
Definition liab_val (a : IssuedAssetId) : option DrcIssuerLiability :=
  if vi v a =? 0 then None else Some {| il_version := DRC_ISSUER_LIABILITY_STATE_VERSION; il_asset := a; il_outstanding := vi v a |}.
Lemma dirty_line x : x ∈ dirty (w_lines w) -> exists l l0, cached (w_lines w) !! x = Some l /\ vl v !! lkey x = Some l /\
  lines ts !! lkey x = Some l0 /\ l = with_balance l0 (tl_balance l) /\ 0 <= tl_balance l <= tl_limit l.
Proof.
  intros Hd. destruct (proj2 (wf_lines _ _ _ (r_wf _ _ _ _ _ R)) _ Hd) as [l Hl]. destruct x as [h a].
  assert (vl v !! (h, asset_key a) = Some l) as Hv by (by rewrite (vl_lookup key_inj _ _ _ _ _ _ _ R), Hl).
  destruct (li_line _ _ (iv_lines _ _ _ I) _ _ Hv) as (l0 & Hl0 & E & Hb). exists l, l0. by repeat (split; [done|]).
Qed.
Lemma flush_lines_Ok ops m :
  flush_lines w = Ok ops -> foldl line_step m ops = put_all lkey line_val m (elements (dirty (w_lines w))) /\ Forall is_line_op ops.
Proof.
  unfold flush_lines. intros H.
  assert (forall x, x ∈ elements (dirty (w_lines w)) -> x ∈ dirty (w_lines w)) as Hd by (intros x; apply elem_of_elements).
  revert H Hd. generalize (elements (dirty (w_lines w))). intros xs.
  cut (forall acc, rfold (fun ops x => match cached (w_lines w) !! x with None => Ok ops | Some l => let? put := put_live l in Ok (ops ++ put) end) acc xs = Ok ops ->
    (forall x, x ∈ xs -> x ∈ dirty (w_lines w)) -> Forall is_line_op acc ->
    foldl line_step m ops = put_all lkey line_val (foldl line_step m acc) xs /\ Forall is_line_op ops).
  { intros Hc H Hd. by apply (Hc []). }
  induction xs as [|x xs IH]; intros acc H Hd Ha; cbn [rfold] in H.
  - by apply Ok_inj in H as <-.
  - apply rbind_Ok in H as (acc1 & H1 & H). destruct (dirty_line x) as (l & l0 & Hl & _ & Hl0 & E & _); [apply Hd; left|].
    rewrite Hl in H1. apply rbind_Ok in H1 as (ops1 & [_ ->]%put_line_Ok & H1). apply Ok_inj in H1 as <-.
    destruct (IH _ H) as [IH1 IH2]; [set_solver|apply Forall_app; split; [done|by repeat constructor]|]. split; [|done].
    rewrite IH1, foldl_app. unfold put_all. cbn [foldl line_step]. f_equal. unfold put_one, line_val. rewrite Hl.
    destruct x as [h a]. destruct (to_lines _ Htr _ _ _ Hl0) as [Eh Ek _ _ _ _ _]. rewrite E. cbn [tl_holder tl_asset with_balance]. by rewrite Eh, Ek.
Qed.
Lemma flush_reserves_step m :
  foldl reserve_step m (flush_reserves w) = put_all lkey reserve_val m (elements (dirty (w_reserve w))).
Proof.
  unfold flush_reserves.
  assert (forall x, x ∈ elements (dirty (w_reserve w)) -> x ∈ dirty (w_reserve w)) as Hd by (intros x; apply elem_of_elements).
  revert m Hd. generalize (elements (dirty (w_reserve w))). intros xs. induction xs as [|x xs IH]; intros m Hd; [done|].
  rewrite fmap_cons. unfold put_all in *. cbn [foldl]. rewrite IH by set_solver. f_equal.
  assert (default 0 (cached (w_reserve w) !! x) = vr v x) as Ev.
  { rewrite (r_r _ _ _ _ _ R). destruct (proj2 (wf_res _ _ _ (r_wf _ _ _ _ _ R)) x) as [n ->]; [apply Hd; left|done]. }
  unfold put_one, reserve_val. rewrite Ev. by destruct (vr v x).
Qed.
Lemma flush_liab_step m :
  foldl liability_step m (flush_liabilities w) = put_all asset_key liab_val m (elements (dirty (w_liability w))).
Proof.
  unfold flush_liabilities.
  assert (forall x, x ∈ elements (dirty (w_liability w)) -> x ∈ dirty (w_liability w)) as Hd by (intros x; apply elem_of_elements).
  revert m Hd. generalize (elements (dirty (w_liability w))). intros xs. induction xs as [|x xs IH]; intros m Hd; [done|].
  rewrite fmap_cons. cbn [concat]. rewrite foldl_app. unfold put_all in *. cbn [foldl]. rewrite IH by set_solver. f_equal.
  assert (default 0 (cached (w_liability w) !! x) = vi v x) as ->.
  { rewrite (r_i _ _ _ _ _ R). destruct (proj2 (wf_liab _ _ _ (r_wf _ _ _ _ _ R)) x) as [n ->]; [apply Hd; left|done]. }
  unfold put_one, liab_val, put_liability. by destruct (vi v x =? 0).
Qed.
Definition is_reserve_op (op : TrustOp) : bool := match op with PutReserveUnits _ _ _ | DeleteTrust (TKReserve _ _) => true | _ => false end.
Definition is_liab_op (op : TrustOp) : bool := match op with PutLiability _ _ | DeleteTrust (TKLiability _) => true | _ => false end.
Lemma reserve_ops : Forall is_reserve_op (flush_reserves w).
Proof. unfold flush_reserves. apply Forall_fmap, Forall_forall. intros x _. cbn. by case_match. Qed.
Lemma liab_ops : Forall is_liab_op (flush_liabilities w).
Proof.
  unfold flush_liabilities. apply Forall_concat, Forall_fmap, Forall_forall. intros x _. cbn. unfold put_liability. case_match; by repeat constructor.
Qed.
(** The trust store after the batch, field by field. *)
Record trust_after (ts' : TrustStore) : Prop := {
  ta_lines : lines ts' = put_all lkey line_val (lines ts) (elements (dirty (w_lines w)));
  ta_reserves : reserves ts' = put_all lkey reserve_val (reserves ts) (elements (dirty (w_reserve w)));
  ta_liab : liabilities ts' = put_all asset_key liab_val (liabilities ts) (elements (dirty (w_liability w)));
  ta_holders : holder_index ts' = holder_index ts;
  ta_issuers : issuer_index ts' = issuer_index ts;
  ta_policies : asset_policies ts' = asset_policies ts;
}.
Ltac skips F :=
  intros ? op Hop; pose proof (proj1 (Forall_forall _ _) F _ Hop); destruct op; try done;
  match goal with k : TrustKey |- _ => by destruct k end.
Ltac skip_ops F := apply foldl_skip; skips F.
Lemma flush_trust lops : flush_lines w = Ok lops -> trust_after (write_trust ts (flush_reserves w ++ lops ++ flush_liabilities w)).
Proof.
  intros H. pose proof reserve_ops as Fr. pose proof liab_ops as Fi.
  destruct (flush_lines_Ok _ (lines ts) H) as [El Fl].
  split; [rewrite lines_write|rewrite reserves_write|rewrite liabilities_write|rewrite holders_write|rewrite issuers_write|rewrite policies_write];
    rewrite !foldl_app.
  - rewrite (foldl_skip line_step (lines ts) (flush_reserves w)) by skips Fr. rewrite El. skip_ops Fi.
  - rewrite flush_reserves_step. rewrite (foldl_skip reserve_step _ lops) by skips Fl. skip_ops Fi.
  - rewrite (foldl_skip liability_step _ (flush_reserves w)) by skips Fr. rewrite (foldl_skip liability_step _ lops) by skips Fl.
    apply flush_liab_step.
  - rewrite (foldl_skip holder_step _ (flush_reserves w)) by skips Fr. rewrite (foldl_skip holder_step _ lops) by skips Fl. skip_ops Fi.
  - rewrite (foldl_skip issuer_step _ (flush_reserves w)) by skips Fr. rewrite (foldl_skip issuer_step _ lops) by skips Fl. skip_ops Fi.
  - rewrite (foldl_skip policy_step _ (flush_reserves w)) by skips Fr. rewrite (foldl_skip policy_step _ lops) by skips Fl. skip_ops Fi.
Qed.
Lemma lkey_eq x y : lkey x = lkey y -> x = y.
Proof. destruct x as [h a], y as [h' a']. intros [= -> E%key_inj]. by subst. Qed.

Section trust_commit.
Context (ts' : TrustStore) (Ta : trust_after ts').
(** A line after the batch: rewritten with a balance, or as it was. *)
Lemma line_after x :
  (exists y l0 b, y ∈ dirty (w_lines w) /\ x = lkey y /\ lines ts !! x = Some l0 /\ vl v !! x = Some (with_balance l0 b) /\
     0 <= b <= tl_limit l0 /\ lines ts' !! x = Some (stored_line (with_balance l0 b))) \/
  (lines ts' !! x = lines ts !! x /\ vl v !! x = lines ts !! x).
Proof.
  rewrite (ta_lines _ Ta). destruct (decide (Exists (fun y => lkey y = x) (elements (dirty (w_lines w))))) as [He|Hn].
  - left. apply Exists_exists in He as (y & Hy & <-). rewrite (put_all_in lkey line_val lkey_eq _ _ y Hy). apply elem_of_elements in Hy.
    destruct (dirty_line y Hy) as (l & l0 & Hl & Hv & Hl0 & E & Hb). exists y, l0, (tl_balance l). rewrite E in Hb. cbn in Hb.
    split; [done|]. split; [done|]. split; [done|]. split; [by rewrite <- E|]. split; [done|]. unfold line_val. rewrite Hl. cbn. by rewrite <- E.
  - right. assert (forall y, y ∈ elements (dirty (w_lines w)) -> lkey y <> x) as Hy by (intros y Hy E; apply Hn, Exists_exists; by exists y).
    rewrite put_all_out by exact Hy. split; [done|]. rewrite (r_l _ _ _ _ _ R). rewrite lookup_union.
    destruct (kmap lkey (cached (w_lines w)) !! x) as [l|] eqn:El; [|by rewrite (left_id_L None union)].
    apply lookup_kmap_Some in El as (y & -> & El); [|intros ? ?; apply lkey_eq]. 
    assert (y ∉ dirty (w_lines w)) as Hnd by (intros Hd; apply (Hy y); [by apply elem_of_elements|done]).
    rewrite (proj1 (wf_lines _ _ _ (r_wf _ _ _ _ _ R)) _ _ El Hnd). by rewrite union_Some_l.
Qed.
Lemma balance_after x : bal_of ts' x = bal_in (vl v) x.
Proof.
  unfold bal_of, bal_in. destruct (line_after x) as [(y & l0 & b & _ & _ & _ & -> & _ & ->)|[-> ->]]; [|done].
  by destruct (stored_fields (with_balance l0 b)) as (_ & _ & _ & -> & _).
Qed.
Lemma held_after k : held ts' k = held_in (vl v) k.
Proof.
  unfold held, held_in. apply msum_contrib_ext. intros x. destruct (line_after x) as [(y & l0 & b & _ & _ & _ & -> & _ & ->)|[-> ->]]; [|done].
  cbn. by destruct (stored_fields (with_balance l0 b)) as (_ & _ & _ & -> & _).
Qed.
Lemma reserve_after h a : load_issued_offer_reserve ts' h a = vr v (h, a).
Proof.
  unfold load_issued_offer_reserve. rewrite (ta_reserves _ Ta). change (h, asset_key a) with (lkey (h, a)).
  destruct (decide ((h, a) ∈ dirty (w_reserve w))) as [Hd|Hd].
  - rewrite (put_all_in lkey reserve_val lkey_eq _ _ (h, a)) by (by apply elem_of_elements). unfold reserve_val. by destruct (vr v (h, a)).
  - rewrite put_all_out by (intros y Hy ->%lkey_eq; by apply elem_of_elements in Hy). rewrite (r_r _ _ _ _ _ R).
    destruct (cached (w_reserve w) !! (h, a)) as [n|] eqn:En; [|done]. by rewrite (proj1 (wf_res _ _ _ (r_wf _ _ _ _ _ R)) _ _ En Hd).
Qed.
Lemma liability_after a : liab_of ts' (asset_key a) = vi v a.
Proof.
  unfold liab_of. rewrite (ta_liab _ Ta). destruct (decide (a ∈ dirty (w_liability w))) as [Hd|Hd].
  - rewrite (put_all_in asset_key liab_val key_inj _ _ a) by (by apply elem_of_elements). unfold liab_val. destruct (Z.eqb_spec (vi v a) 0); [done|]. done.
  - rewrite put_all_out by (intros y Hy ->%key_inj; by apply elem_of_elements in Hy). rewrite (r_i _ _ _ _ _ R).
    destruct (cached (w_liability w) !! a) as [n|] eqn:En; [|done]. by rewrite (proj1 (wf_liab _ _ _ (r_wf _ _ _ _ _ R)) _ _ En Hd).
Qed.
End trust_commit.
Section trust_commit2.
Context (ts' : TrustStore) (Ta : trust_after ts').
Lemma liability_record k r :
  liabilities ts' !! k = Some r ->
  il_version r = DRC_ISSUER_LIABILITY_STATE_VERSION /\ asset_key (il_asset r) = k /\ 0 < il_outstanding r <= u64_max.
Proof.
  rewrite (ta_liab _ Ta). destruct (decide (Exists (fun a => asset_key a = k) (elements (dirty (w_liability w))))) as [He|Hn].
  - apply Exists_exists in He as (a & Ha & <-). rewrite (put_all_in asset_key liab_val key_inj _ _ a Ha). unfold liab_val.
    destruct (Z.eqb_spec (vi v a) 0); [done|]. intros [= <-]. cbn. pose proof (li_range _ _ (iv_lines _ _ _ I) a). split; [done|]. split; [done|lia].
  - rewrite put_all_out by (intros a Ha E; apply Hn, Exists_exists; by exists a). apply (vo_liab _ (to_value _ Htr)).
Qed.
(** An asset key that no dirty record carries has the same lines and liability. *)
Lemma untouched_key k :
  (forall x, x ∈ dirty (w_lines w) -> asset_key x.2 <> k) -> (forall a, a ∈ dirty (w_liability w) -> asset_key a <> k) ->
  liab_of ts' k = liab_of ts k /\ held ts' k = held ts k.
Proof.
  intros Hl Ha. split.
  - unfold liab_of. rewrite (ta_liab _ Ta), put_all_out; [done|]. intros a Hin. by apply Ha, elem_of_elements.
  - unfold held, held_in. apply msum_contrib_ext. intros x. destruct (line_after _ Ta x) as [(y & l0 & b & Hy & -> & H1 & _ & _ & H2)|[-> _]]; [|done].
    rewrite H1, H2. cbn. by rewrite bool_decide_eq_false_2 by (by apply Hl).
Qed.
Lemma sum_after k : liab_of ts' k = held ts' k.
Proof.
  destruct (decide (Exists (fun x => asset_key x.2 = k) (elements (dirty (w_lines w))))) as [He|Hn].
  { apply Exists_exists in He as ([h a] & _ & <-). cbn. rewrite (liability_after _ Ta), (held_after _ Ta). apply (li_held _ _ (iv_lines _ _ _ I)). }
  destruct (decide (Exists (fun a => asset_key a = k) (elements (dirty (w_liability w))))) as [He2|Hn2].
  { apply Exists_exists in He2 as (a & _ & <-). rewrite (liability_after _ Ta), (held_after _ Ta). apply (li_held _ _ (iv_lines _ _ _ I)). }
  destruct (untouched_key k) as [-> ->].
  - intros x Hx E. apply Hn, Exists_exists. exists x. by rewrite elem_of_elements.
  - intros a Hx E. apply Hn2, Exists_exists. exists a. by rewrite elem_of_elements.
  - apply (vo_sum _ (to_value _ Htr)).
Qed.
Lemma reserve_record x n : reserves ts' !! x = Some n -> 0 < n <= bal_of ts' x.
Proof.
  intros Hn. assert (forall y, x = lkey y -> 0 < n <= bal_of ts' x) as Hy.
  { intros [h a] ->. rewrite (balance_after _ Ta). pose proof (reserve_after _ Ta h a) as Hr. unfold load_issued_offer_reserve in Hr.
    change (h, asset_key a) with (lkey (h, a)) in Hr. rewrite Hn in Hr. cbn in Hr. destruct (iv_reserves _ _ _ I h a) as [R1 R2].
    change (lkey (h, a)) with (h, asset_key a). rewrite Hr. split; [|done].
    rewrite (ta_reserves _ Ta) in Hn. destruct (decide ((h, a) ∈ dirty (w_reserve w))) as [Hd|Hd].
    - rewrite (put_all_in lkey reserve_val lkey_eq _ _ (h, a)) in Hn by (by apply elem_of_elements). unfold reserve_val in Hn.
      pose proof (reserved_nonneg v (h, a) (iv_shapes _ _ _ I)). destruct (vr v (h, a)) eqn:Ev; [done|lia|lia].
    - rewrite put_all_out in Hn by (intros y Hy ->%lkey_eq; by apply elem_of_elements in Hy).
      destruct (vo_reserve _ (to_value _ Htr) _ _ Hn). lia. }
  destruct (decide (Exists (fun y => lkey y = x) (elements (dirty (w_reserve w))))) as [He|Hnr].
  { apply Exists_exists in He as (y & _ & <-). by eapply Hy. }
  destruct (line_after _ Ta x) as [(y & l0 & b & _ & Ex & _)|[El _]]; [by eapply Hy|].
  rewrite (ta_reserves _ Ta), put_all_out in Hn by (intros y Hd E; apply Hnr, Exists_exists; by exists y).
  unfold bal_of. rewrite El. apply (vo_reserve _ (to_value _ Htr) _ _ Hn).
Qed.
Lemma trust_committed : trust_ok ts'.
Proof.
  apply (rewrite_ok ts); [done|apply (ta_holders _ Ta)|apply (ta_issuers _ Ta)|..].
  - intros x. destruct (line_after _ Ta x) as [(y & l0 & b & _ & _ & -> & _ & _ & ->)|[-> _]]; [|done]. split; by eexists.
  - intros h k l Hl. destruct (line_after _ Ta (h, k)) as [(y & l0 & b & _ & _ & H0 & _ & Hb & H1)|[E _]].
    + rewrite H1 in Hl. injection Hl as <-. apply line_ok_balance; [by apply (to_lines _ Htr)|done].
    + rewrite E in Hl. by apply (to_lines _ Htr).
  - split; [apply liability_record|apply sum_after|apply reserve_record].
  - split; rewrite ?(ta_policies _ Ta).
    + apply (no_policy _ (to_controls _ Htr)).
    + intros h k l p Hl Hp Hr. destruct (line_after _ Ta (h, k)) as [(y & l0 & b & _ & _ & H0 & _ & Hb & H1)|[E _]].
      * rewrite H1 in Hl. injection Hl as <-. unfold stored_line, as_v2_storage, with_line_version, with_balance. cbn.
        pose proof (no_auth _ (to_controls _ Htr) _ _ _ _ H0 Hp Hr) as Hv. by rewrite Hv.
      * rewrite E in Hl. by eapply (no_auth _ (to_controls _ Htr)).
    + intros h k l p Hl Hp Hr. destruct (line_after _ Ta (h, k)) as [(y & l0 & b & _ & _ & H0 & _ & Hb & H1)|[E _]].
      * rewrite H1 in Hl. injection Hl as <-. destruct (stored_fields (with_balance l0 b)) as (_ & _ & _ & _ & _ & -> & _). cbn.
        by eapply (no_frozen _ (to_controls _ Htr)).
      * rewrite E in Hl. by eapply (no_frozen _ (to_controls _ Htr)).
Qed.
End trust_commit2.

(** ** The offer store *)

Definition owner_val (a : Address) : option OwnerIndex :=
  match vw v a with [] => None | ids => Some {| oi_version := 1; oi_owner := a; oi_live_ids := sort_by Z.compare ids |} end.
Definition book_val (k : Hash) : option BookIndex :=
  match vb v k with [] => None | ids => Some {| bi_version := 1; bi_book_key := k; bi_live_ids := ids |} end.
(** The four groups of offer writes touch one map each. *)
Definition del_ops : list OfferOp := (fun id => DeleteOffer (OKLive id)) <$> elements (w_deleted w).
Definition put_ops : list OfferOp := (fun e => PutOffer e.1 e.2) <$> filter (fun e => e.1 ∉ w_deleted w) (map_to_list (w_offers w)).
Definition owner_ops : list OfferOp :=
  (fun owner => match default [] (cached (w_owners w) !! owner) with
     | [] => DeleteOffer (OKOwner owner)
     | ids => PutOfferOwner owner {| oi_version := 1; oi_owner := owner; oi_live_ids := sort_by Z.compare ids |}
     end) <$> elements (dirty (w_owners w)).
Definition book_ops : list OfferOp :=
  concat ((fun key => match cached (w_books w) !! key with
     | None => []
     | Some (book, []) => [DeleteOffer (OKBook (book_key book))]
     | Some (book, ids) => [PutOfferBook (book_key book) {| bi_version := 1; bi_book_key := key; bi_live_ids := ids |}]
     end) <$> elements (dirty (w_books w))).
Lemma flush_offers_eq :
  flush_offers w = del_ops ++ put_ops ++ owner_ops ++ book_ops ++ (if w_sequence_dirty w then [PutSequence (w_sequence w)] else []).
Proof. done. Qed.
Definition offer_kind (op : OfferOp) : nat :=
  match offer_op_key op with OKLive _ => 0 | OKOwner _ => 1 | OKBook _ => 2 | OKSequence => 3 | _ => 4 end.
Definition of_kind (n : nat) (op : OfferOp) : bool := Nat.eqb (offer_kind op) n.
Lemma del_kind : Forall (of_kind 0) del_ops.
Proof. apply Forall_fmap, Forall_forall. by intros. Qed.
Lemma put_kind : Forall (of_kind 0) put_ops.
Proof. apply Forall_fmap, Forall_forall. by intros. Qed.
Lemma owner_kind : Forall (of_kind 1) owner_ops.
Proof. apply Forall_fmap, Forall_forall. intros x _. cbn. by case_match. Qed.
Lemma book_kind : Forall (of_kind 2) book_ops.
Proof. apply Forall_concat, Forall_fmap, Forall_forall. intros x _. cbn. repeat case_match; by repeat constructor. Qed.
Lemma seq_kind : Forall (of_kind 3) (if w_sequence_dirty w then [PutSequence (w_sequence w)] else []).
Proof. case_match; by repeat constructor. Qed.
Ltac skips_kind F :=
  intros ? op Hop; pose proof (proj1 (Forall_forall _ _) F _ Hop) as Hk; destruct op; try done;
  match goal with k : OfferKey |- _ => by destruct k end.
Definition kept_ids : list Hash := (filter (fun e => e.1 ∉ w_deleted w) (map_to_list (w_offers w))).*1.
Lemma kept_spec id : id ∈ kept_ids <-> (id ∉ w_deleted w) /\ is_Some (w_offers w !! id).
Proof.
  unfold kept_ids. rewrite list_elem_of_fmap. split.
  - intros ([id' o] & -> & Hf). apply list_elem_of_filter in Hf as [Hn Hin%elem_of_map_to_list]. split; [done|by exists o].
  - intros [Hn [o Ho]]. exists (id, o). split; [done|]. apply list_elem_of_filter. split; [done|]. by apply elem_of_map_to_list.
Qed.
Lemma put_ops_step m : foldl live_step m put_ops = put_all (fun id => id) (fun id => w_offers w !! id) m kept_ids.
Proof.
  unfold put_ops, kept_ids. assert (forall e, e ∈ filter (fun e => e.1 ∉ w_deleted w) (map_to_list (w_offers w)) -> w_offers w !! e.1 = Some e.2) as He.
  { intros [id o] [_ Hin%elem_of_map_to_list]%list_elem_of_filter. done. }
  revert m He. generalize (filter (fun e : Hash * DrcOfferLive => e.1 ∉ w_deleted w) (map_to_list (w_offers w))). intros l.
  induction l as [|e l IH]; intros m He; [done|]. rewrite !fmap_cons. unfold put_all in *. cbn [foldl]. rewrite IH by set_solver. f_equal.
  unfold put_one. by rewrite (He e) by left.
Qed.
Section offers_commit.
Context (rest : list OfferOp) (Fr : Forall (of_kind 4) rest).
Let os' := write_offers os (flush_offers w ++ rest).
Lemma live_after : live_offers os' = vo v.
Proof.
  unfold os'. rewrite flush_offers_eq, live_write, !foldl_app.
  rewrite (foldl_skip live_step _ rest) by skips_kind Fr. rewrite (foldl_skip live_step _ (if w_sequence_dirty w then _ else _)) by skips_kind seq_kind.
  rewrite (foldl_skip live_step _ book_ops) by skips_kind book_kind. rewrite (foldl_skip live_step _ owner_ops) by skips_kind owner_kind.
  rewrite put_ops_step. unfold del_ops. rewrite (foldl_put_all (fun id : Hash => id) (fun _ => None)) by done.
  rewrite (r_o _ _ _ _ _ R). apply map_eq. intros id. rewrite live_lookup.
  destruct (decide (id ∈ kept_ids)) as [Hk|Hk].
  - rewrite (put_all_in (fun id : Hash => id) _ ltac:(done) _ _ id Hk). apply kept_spec in Hk as [Hn [o Ho]]. by rewrite decide_False, Ho.
  - rewrite put_all_out by (intros x Hx ->; done). destruct (decide (id ∈ w_deleted w)) as [Hd|Hd].
    + by rewrite (put_all_in (fun id : Hash => id) _ ltac:(done) _ _ id) by (by apply elem_of_elements).
    + rewrite put_all_out by (intros x Hx ->; by apply elem_of_elements in Hx).
      destruct (w_offers w !! id) eqn:Ho; [|done]. destruct Hk. apply kept_spec. by rewrite Ho.
Qed.
Lemma owner_map : offer_owners os' = put_all (fun a => a) owner_val (offer_owners os) (elements (dirty (w_owners w))).
Proof.
  unfold os'. rewrite flush_offers_eq, owners_write, !foldl_app.
  rewrite (foldl_skip owner_step _ rest) by skips_kind Fr. rewrite (foldl_skip owner_step _ (if w_sequence_dirty w then _ else _)) by skips_kind seq_kind.
  rewrite (foldl_skip owner_step _ book_ops) by skips_kind book_kind. rewrite (foldl_skip owner_step _ put_ops) by skips_kind put_kind.
  rewrite (foldl_skip owner_step _ del_ops) by skips_kind del_kind. unfold owner_ops.
  assert (forall x, x ∈ elements (dirty (w_owners w)) -> x ∈ dirty (w_owners w)) as Hd by (intros x; apply elem_of_elements).
  generalize (offer_owners os). revert Hd. generalize (elements (dirty (w_owners w))). intros xs. induction xs as [|x xs IH]; intros Hd m; [done|].
  rewrite fmap_cons. unfold put_all in *. cbn [foldl]. rewrite IH by set_solver. f_equal.
  assert (default [] (cached (w_owners w) !! x) = vw v x) as ->.
  { rewrite (r_w _ _ _ _ _ R). destruct (proj2 (wf_own _ _ _ (r_wf _ _ _ _ _ R)) x) as [n ->]; [apply Hd; left|done]. }
  unfold put_one, owner_val. by destruct (vw v x).
Qed.
Lemma owner_after a : owner_stored os' a ≡ₚ vw v a.
Proof.
  unfold owner_stored. rewrite owner_map. destruct (decide (a ∈ dirty (w_owners w))) as [Hd|Hd].
  - rewrite (put_all_in (fun a : Address => a) _ ltac:(done) _ _ a) by (by apply elem_of_elements). unfold owner_val.
    destruct (vw v a) as [|x l] eqn:Ev; [done|]. cbn [oi_live_ids]. apply sort_by_perm.
  - rewrite put_all_out by (intros x Hx ->; by apply elem_of_elements in Hx). fold (owner_stored os a). rewrite (r_w _ _ _ _ _ R).
    destruct (cached (w_owners w) !! a) as [ids|] eqn:En; [|done]. by rewrite (proj1 (wf_own _ _ _ (r_wf _ _ _ _ _ R)) _ _ En Hd).
Qed.
Lemma book_map : offer_books os' = put_all (fun k => k) book_val (offer_books os) (elements (dirty (w_books w))).
Proof.
  unfold os'. rewrite flush_offers_eq, books_write, !foldl_app.
  rewrite (foldl_skip book_step _ rest) by skips_kind Fr. rewrite (foldl_skip book_step _ (if w_sequence_dirty w then _ else _)) by skips_kind seq_kind.
  rewrite (foldl_skip book_step _ owner_ops) by skips_kind owner_kind. rewrite (foldl_skip book_step _ put_ops) by skips_kind put_kind.
  rewrite (foldl_skip book_step _ del_ops) by skips_kind del_kind. unfold book_ops.
  assert (forall x, x ∈ elements (dirty (w_books w)) -> x ∈ dirty (w_books w)) as Hd by (intros x; apply elem_of_elements).
  generalize (offer_books os). revert Hd. generalize (elements (dirty (w_books w))). intros xs. induction xs as [|x xs IH]; intros Hd m; [done|].
  rewrite fmap_cons. cbn [concat]. rewrite foldl_app. unfold put_all in *. cbn [foldl]. rewrite IH by set_solver. f_equal.
  destruct (proj2 (wf_bk _ _ _ (r_wf _ _ _ _ _ R)) x) as [[b ids] Hx]; [apply Hd; left|].
  pose proof (r_b _ _ _ _ _ R x) as Hb. pose proof (wf_bkey _ _ _ (r_wf _ _ _ _ _ R) _ _ Hx) as Hk. rewrite Hx in *. cbn in Hb, Hk.
  unfold put_one, book_val. rewrite Hb. destruct ids; cbn; by rewrite Hk.
Qed.
Lemma book_raw k r : offer_books os' !! k = Some r -> bi_version r = 1 /\ bi_book_key r = k /\ bi_live_ids r = vb v k.
Proof.
  rewrite book_map. destruct (decide (k ∈ dirty (w_books w))) as [Hd|Hd].
  - rewrite (put_all_in (fun k : Hash => k) _ ltac:(done) _ _ k) by (by apply elem_of_elements). unfold book_val. destruct (vb v k); [done|]. by intros [= <-].
  - rewrite put_all_out by (intros x Hx ->; by apply elem_of_elements in Hx). intros Hr. destruct (oo_book _ _ Hoo _ _ Hr) as [-> ->].
    split; [done|]. split; [done|].
    assert (book_stored os k = bi_live_ids r) as <-.
    { unfold book_stored. rewrite Hr. apply filter_kept. by apply (oo_book_raw _ _ Hoo k). }
    rewrite (r_b _ _ _ _ _ R). destruct (cached (w_books w) !! k) as [e|] eqn:En; [|done]. cbn.
    by rewrite (proj1 (wf_bk _ _ _ (r_wf _ _ _ _ _ R)) _ _ En Hd).
Qed.
Lemma book_live k : Forall (fun id => is_Some (live_offers os' !! id)) (vb v k).
Proof. rewrite live_after. apply Forall_forall. intros id (o & Ho & _)%(ix_book _ (iv_index _ _ _ I)). by exists o. Qed.
Lemma book_after k : book_stored os' k = vb v k.
Proof.
  unfold book_stored. destruct (offer_books os' !! k) as [r|] eqn:Er.
  - destruct (book_raw _ _ Er) as (_ & _ & ->). apply filter_kept, book_live.
  - destruct (vb v k) as [|id ids] eqn:Ev; [done|]. exfalso. rewrite book_map in Er. destruct (decide (k ∈ dirty (w_books w))) as [Hd|Hd].
    + rewrite (put_all_in (fun k : Hash => k) _ ltac:(done) _ _ k) in Er by (by apply elem_of_elements). unfold book_val in Er. by rewrite Ev in Er.
    + rewrite put_all_out in Er by (intros x Hx ->; by apply elem_of_elements in Hx). rewrite (r_b _ _ _ _ _ R) in Ev.
      assert (book_stored os k = []) as E by (unfold book_stored; by rewrite Er).
      destruct (cached (w_books w) !! k) as [e|] eqn:En; cbn in Ev; [|congruence].
      rewrite (proj1 (wf_bk _ _ _ (r_wf _ _ _ _ _ R)) _ _ En Hd) in Ev. congruence.
Qed.
Lemma sequence_after : default 0 (offer_sequence os') = vs v.
Proof.
  unfold os'. rewrite flush_offers_eq, seq_write, !foldl_app.
  rewrite (foldl_skip seq_step _ rest) by skips_kind Fr. rewrite (foldl_skip seq_step _ book_ops) by skips_kind book_kind.
  rewrite (foldl_skip seq_step _ owner_ops) by skips_kind owner_kind. rewrite (foldl_skip seq_step _ put_ops) by skips_kind put_kind.
  rewrite (foldl_skip seq_step _ del_ops) by skips_kind del_kind. rewrite (r_s _ _ _ _ _ R).
  destruct (w_sequence_dirty w) eqn:Ed; [done|]. cbn. by rewrite (wf_seq _ _ _ (r_wf _ _ _ _ _ R)).
Qed.
Lemma offers_committed ts' : trust_after ts' -> offers_ok ts' os'.
Proof.
  intros Ta. pose proof I as [_ _ Rv Sh [X1 X2 X3 X4] [Q1 Q2]]. split; rewrite ?live_after.
  - intros id o Ho. split; [by apply Sh|]. apply (L id o Ho). by destruct (sh_head _ _ (Sh _ _ Ho)) as (_ & _ & ? & _).
  - intros a r. rewrite owner_map. destruct (decide (a ∈ dirty (w_owners w))) as [Hd|Hd].
    + rewrite (put_all_in (fun a : Address => a) _ ltac:(done) _ _ a) by (by apply elem_of_elements). unfold owner_val. destruct (vw v a); [done|]. by intros [= <-].
    + rewrite put_all_out by (intros x Hx ->; by apply elem_of_elements in Hx). apply (oo_owner _ _ Hoo).
  - intros a id. by rewrite owner_after, X1.
  - intros a. rewrite owner_after. apply X2.
  - intros k r Hr. by destruct (book_raw _ _ Hr) as (? & ? & _).
  - intros k r Hr. destruct (book_raw _ _ Hr) as (_ & _ & ->). pose proof (book_live k) as Hl. by rewrite live_after in Hl.
  - intros k id. by rewrite book_after, X3.
  - intros k. rewrite book_after. apply X4.
  - intros h a. rewrite (reserve_after _ Ta). apply Rv.
  - intros id o Ho. rewrite sequence_after. by eapply Q1.
  - apply Q2.
Qed.
End offers_commit.

(** ** The batch *)

(** Every account in the working set, the payer's with its next sequence. *)
Definition accounts_written (payer : Address) (n' : Z) : list (Address * AccountState) :=
  map_to_list (<[payer := {| balance := balance (va v payer); nonce := n' |}]> (w_accounts w)).
Lemma flush_inv payer version tv tn sel bad ctx f :
  payer ∈ vk v -> begin_op_sequence s payer (acct_of s DRC payer) version tv tn sel bad = Ok ctx ->
  flush w [] [] payer ctx (tv <=? version) = Ok f ->
  charges s payer (accounts_written payer) (fl_batch f) /\
  (exists lops, flush_lines w = Ok lops /\ fl_trust f = flush_reserves w ++ lops ++ flush_liabilities w) /\ fl_offers f = flush_offers w /\
  fl_keys f = (OfferK <$> (offer_op_key <$> fl_offers f)) ++ (TrustK <$> (trust_op_key <$> fl_trust f)).
Proof.
  intros Hk Hb H. unfold flush in H. apply rbind_Ok in H as ([b1 accounts] & Ha & H).
  apply rbind_Ok in H as ([b2 j2] & Hf & H). apply rbind_Ok in H as (lops & Hl & H). apply Ok_inj in H as <-. cbn [fl_batch fl_trust fl_offers fl_keys].
  split; [|split; [by exists lops|done]]. apply flush_accounts_Ok in Hf as ->. cbn [w_accounts set_accounts].
  assert (payer ∈ dom (w_accounts w)) as [a Hp]%elem_of_dom by (by apply (r_k _ _ _ _ _ R)).
  pose proof (r_acc _ _ _ _ _ R payer) as Eva. rewrite Hp in Eva. cbn in Eva. rewrite Hp in Ha.
  assert (finish_op_sequence [] payer {| balance := balance (va v payer); nonce := nonce (acct_of s DRC payer) |} ctx "DRC offer nonce overflow" =
    (let? (b, accounts) := (Ok (b1, accounts) : result StateError _) in Ok (b, default a (accounts !! payer))) /\
    accounts = <[payer := default a (accounts !! payer)]> (w_accounts w)) as [Hfin Hacc'].
  { assert ({| balance := balance (va v payer); nonce := nonce (acct_of s DRC payer) |} = a) as ->.
    { rewrite <- (proj2 (iv_accounts _ _ _ I payer)), Eva. by destruct a. }
    unfold begin_op_sequence in Hb. destruct (tv <=? version).
    - apply rbind_Ok in Hb as (sel' & _ & Hb). apply rbind_Ok in Hb as ([c tb] & _ & Hb). apply Ok_inj in Hb as <-. cbn [finish_op_sequence].
      apply rbind_Ok in Ha as ([b3 a3] & -> & Ha). apply Ok_inj, pair_eq in Ha as [<- <-]. cbn [rbind]. by rewrite lookup_insert_eq.
    - apply rbind_Ok in Hb as (_ & _ & Hb). apply Ok_inj in Hb as <-. cbn [finish_op_sequence].
      apply rbind_Ok in Ha as (n & Hn & Ha). rewrite Hn. apply Ok_inj, pair_eq in Ha as [<- <-]. cbn [rbind]. by rewrite lookup_insert_eq. }
  cbn [rbind] in Hfin. destruct (op_sequence_run _ _ _ _ _ _ _ _ _ _ _ _ _ Hb Hfin) as (sel' & tops & n' & -> & Ea & Heff).
  exists sel', tops, n'. split; [done|]. rewrite Hacc', Ea. done.
Qed.
Lemma accounts_committed payer b :
  payer ∈ vk v -> charges s payer (accounts_written payer) b ->
  accounts_ok (write_batch s b) /\ liquid DRC (write_batch s b) = liquid DRC s + vn v.
Proof.
  intros Hk Hc. split.
  - eapply charges_ok; [done|exact Hc|]. intros n' Hn Hu. apply Forall_forall. intros [a x] Hin%elem_of_map_to_list. cbn.
    apply lookup_insert_Some in Hin as [[<- <-]|[Hne Hx]]; cbn; [split; [apply (iv_accounts _ _ _ I)|by split]|].
    pose proof (r_acc _ _ _ _ _ R a) as Ea. rewrite Hx in Ea. cbn in Ea. destruct (iv_accounts _ _ _ I a) as [H1 H2]. rewrite Ea in H1, H2.
    split; [done|]. rewrite H2. split; [apply (ao_ints _ Hacc)|lia].
  - destruct Hc as (sel & tops & n' & Heff & ->). unfold accounts_written.
    rewrite liquid_puts; [|by eapply seq_effect_frame|apply NoDup_fst_map_to_list]. rewrite bool_decide_eq_true_2 by done. f_equal.
    rewrite <- (msum_list (fun a x => balance x - balance (acct_of s DRC a))). rewrite (r_n _ _ _ _ _ R), msum_insert.
    assert (payer ∈ dom (w_accounts w)) as [a Hp]%elem_of_dom by (by apply (r_k _ _ _ _ _ R)).
    rewrite Hp. cbn. rewrite (r_acc _ _ _ _ _ R), Hp. cbn. lia.
Qed.
Lemma foldl_puts (m : gmap Address AccountState) a x0 :
  foldl (fun v e => if bool_decide ((DRC, a) = (DRC, e.1)) then e.2 else v) x0 (map_to_list m) = default x0 (m !! a).
Proof.
  assert (forall l x0, NoDup l.*1 -> foldl (fun v (e : Address * AccountState) => if bool_decide ((DRC, a) = (DRC, e.1)) then e.2 else v) x0 l =
    default x0 ((list_to_map l : gmap Address AccountState) !! a)) as H.
  { clear. intros l. induction l as [|[k x] l IH]; intros x0 Hnd; [done|]. apply NoDup_cons in Hnd as [Hn Hnd]. cbn [foldl list_to_map foldr fst snd].
    rewrite IH by done. case_bool_decide as E.
    - injection E as ->. rewrite lookup_insert_eq. cbn. by rewrite (not_elem_of_list_to_map_1 _ _ Hn).
    - by rewrite lookup_insert_ne by congruence. }
  rewrite H by apply NoDup_fst_map_to_list. by rewrite list_to_map_to_list.
Qed.
Lemma account_after payer b a :
  payer ∈ vk v -> charges s payer (accounts_written payer) b -> balance (acct_of (write_batch s b) DRC a) = balance (va v a).
Proof.
  intros Hk (sel & tops & n' & Heff & ->). rewrite acct_of_puts by (by eapply seq_effect_frame). unfold accounts_written. rewrite foldl_puts.
  destruct (decide (payer = a)) as [<-|Hne]; [by rewrite lookup_insert_eq|]. rewrite lookup_insert_ne by done. by rewrite (r_acc _ _ _ _ _ R).
Qed.
(** The batch can always be written. *)
Lemma flush_lines_total : exists ops, flush_lines w = Ok ops.
Proof.
  unfold flush_lines.
  assert (forall x, x ∈ elements (dirty (w_lines w)) -> x ∈ dirty (w_lines w)) as Hd by (intros x; apply elem_of_elements).
  revert Hd. generalize (elements (dirty (w_lines w))). intros xs Hd. generalize (@nil TrustOp).
  induction xs as [|x xs IH]; intros acc; [by eexists|]. cbn [rfold].
  destruct (dirty_line x) as (l & l0 & Hl & _ & Hl0 & E & Hb); [apply Hd; left|]. rewrite Hl.
  assert (validate_line l = Ok tt) as Hv.
  { destruct x as [h a]. pose proof (to_lines _ Htr _ _ _ Hl0) as [_ _ Hv _ _ _ _]. apply validate_line_inv in Hv as (V1 & V2 & _ & V4).
    apply validate_line_inv. rewrite E in Hb |- *. cbn in *. split; [done|]. split; [done|]. split; [lia|done]. }
  unfold put_live. rewrite Hv. cbn [lift_msg rbind]. apply IH. set_solver.
Qed.
Lemma flush_accounts_total w' b j : exists r, flush_accounts w' b j = Ok r.
Proof.
  unfold flush_accounts. generalize (map_to_list (w_accounts w')). intros l. revert b j. induction l as [|[a x] l IH]; intros b j; [by eexists|].
  cbn [rfold]. rewrite put_drc_total. cbn [rbind]. apply IH.
Qed.
Lemma flush_total payer version tv tn sel bad :
  payer ∈ vk v -> op_seq_ready s payer version tv tn sel ->
  exists ctx f, begin_op_sequence s payer (acct_of s DRC payer) version tv tn sel bad = Ok ctx /\ flush w [] [] payer ctx (tv <=? version) = Ok f.
Proof.
  intros Hk Hr. destruct (op_sequence_total s payer version tv tn sel bad "DRC offer nonce overflow" [] (balance (va v payer)) Hacc Hr) as (ctx & [b1 a1] & Hb & Hf).
  assert (payer ∈ dom (w_accounts w)) as [a Hp]%elem_of_dom by (by apply (r_k _ _ _ _ _ R)).
  pose proof (r_acc _ _ _ _ _ R payer) as Eva. rewrite Hp in Eva. cbn in Eva.
  assert ({| balance := balance (va v payer); nonce := nonce (acct_of s DRC payer) |} = a) as Ea.
  { rewrite <- (proj2 (iv_accounts _ _ _ I payer)), Eva. by destruct a. }
  rewrite Ea in Hf. exists ctx. unfold flush. rewrite Hp. destruct flush_lines_total as [lops ->].
  unfold begin_op_sequence in Hb |- *. destruct (tv <=? version).
  - pose proof Hb as Hb'. apply rbind_Ok in Hb as (sel' & Hs & Hb). apply rbind_Ok in Hb as ([c tb] & Hc & Hb). apply Ok_inj in Hb as <-.
    cbn [finish_op_sequence] in Hf. rewrite Hf. cbn [rbind].
    match goal with |- context [flush_accounts ?x ?y ?z] => destruct (flush_accounts_total x y z) as [[b2 j2] ->] end. cbn [rbind]. by eexists.
  - pose proof Hb as Hb'. apply rbind_Ok in Hb as (_ & _ & Hb). apply Ok_inj in Hb as <-. cbn [finish_op_sequence] in Hf.
    apply rbind_Ok in Hf as (n & Hn & _). rewrite Hn. cbn [rbind].
    match goal with |- context [flush_accounts ?x ?y ?z] => destruct (flush_accounts_total x y z) as [[b2 j2] ->] end. cbn [rbind]. by eexists.
Qed.
End commit.
