(* ===== verification/OfferSafety.v ===== *)
(** * What traders can rely on

    The guarantees of the order book together with the trust-line lanes: value
    stays backed and DRC is conserved over any sequence of transactions that
    fills no offer of its own submitter, a taker then never pays above its price,
    the book is tried by price and time, an offer can always be withdrawn; and
    where the code falls short. *)

From stdpp Require Import base gmap list fin_maps strings relations.
From Stdlib Require Import ZArith Lia.
From S2P Require Import Prelude Ordering Sums Types Finality Store Supply Accounts Objects Policy Trust TrustProps TrustSafety Offer OfferProps OfferView OfferInv OfferRun OfferCommit.
Local Open Scope Z_scope.

Section safety.
Context {Auth : Type} `{TL : TrustLane Auth} `{OL : OfferLane Auth}.
Context (key_inj : forall a a', asset_key a = asset_key a' -> a = a').
Context (book_inj : forall b b', book_key b = book_key b' -> b = b').
Implicit Types (l : Ledger).

Record ledger_ok l : Prop := {
  lg_accounts : accounts_ok (ld_base l);
  lg_trust : trust_ok (ld_trust l);
  lg_offers : offers_ok (ld_trust l) (ld_offers l);
}.
(** All DRC of the ledger: in accounts and set aside by offers. *)
Definition drc_total l : Z := liquid DRC (ld_base l) + locked_native (live_offers (ld_offers l)).
Definition offer_ints (tx : OfferTx) : Prop :=
  match tx with
  | CreateOffer t => 0 <= oc_taker_gets_amount t <= u64_max /\ 0 <= oc_taker_pays_amount t <= u64_max /\ 0 <= oc_fee t
  | CancelOffer t => 0 <= ox_fee t
  end.
(** No step of the offer's crossing trades with an offer of its own owner. *)
Definition no_self_trade l (tx : OfferTx) (score : Z) (steps_remaining : nat) : Prop :=
  match tx with
  | CreateOffer t => trades_fairly (ld_base l) (ld_trust l) (ld_offers l) t score steps_remaining (working_new (ld_offers l)) = true
  | CancelOffer _ => True
  end.
Definition offer_fee (tx : OfferTx) : Z := match tx with CreateOffer t => oc_fee t | CancelOffer t => ox_fee t end.

(** ** One transaction *)

Lemma commit_ok l w v payer version tv tn sel bad ctx f rest total' :
  ledger_ok l -> rep (ld_base l) (ld_trust l) (ld_offers l) w v -> inv (ld_base l) (ld_trust l) v -> all_left 0 v ->
  total v = locked_native (live_offers (ld_offers l)) - total' -> payer ∈ vk v ->
  begin_op_sequence (ld_base l) payer (acct_of (ld_base l) DRC payer) version tv tn sel bad = Ok ctx ->
  flush w [] [] payer ctx (tv <=? version) = Ok f -> Forall (of_kind 4) rest ->
  forall l', l' = {| ld_base := write_batch (ld_base l) (fl_batch f); ld_trust := write_trust (ld_trust l) (fl_trust f);
                     ld_offers := write_offers (ld_offers l) (fl_offers f ++ rest) |} ->
  ledger_ok l' /\ drc_total l' = drc_total l - total' /\ live_offers (ld_offers l') = vo v.
Proof.
  intros [Ha Ht Ho] R I L T Hk Hb Hf Fr l' ->.
  destruct (flush_inv (ld_base l) (ld_trust l) (ld_offers l) w v R I _ _ _ _ _ _ _ _ Hk Hb Hf) as (Hc & (lops & Hl & Et) & Eo & _).
  destruct (accounts_committed (ld_base l) (ld_trust l) (ld_offers l) Ha w v R I _ _ Hk Hc) as [Ha' Hliq].
  pose proof (flush_trust key_inj (ld_base l) (ld_trust l) (ld_offers l) Ha Ht Ho w v R I L lops Hl) as Ta. rewrite <- Et in Ta.
  rewrite Eo. split; [split; cbn|split].
  - done.
  - exact (trust_committed key_inj _ _ _ Ht w v R I _ Ta).
  - exact (offers_committed key_inj _ _ _ Ha Ht Ho w v R I L rest Fr _ Ta).
  - unfold drc_total. cbn. rewrite Hliq, (live_after key_inj (ld_base l) (ld_trust l) (ld_offers l) Ha Ht Ho w v R I L rest Fr). unfold total in T. lia.
  - exact (live_after key_inj _ _ _ Ha Ht Ho w v R I L rest Fr).
Qed.
(** What an accepted offer has done. *)
Record create_effect l (t : DrcOfferCreateTx) (steps_remaining : nat) l' (r : DrcOfferCreateReceipt) (steps : nat) : Prop := {
  ce_ledger : ledger_ok l';
  ce_total : drc_total l' = drc_total l - oc_fee t;
  ce_steps : (steps <= Nat.min steps_remaining DRC_MAX_OFFER_MATCHES_PER_TX)%nat /\ or_steps r = Z.of_nat steps;
  ce_paid : 0 <= or_taker_paid r <= oc_taker_gets_amount t;
  ce_received : 0 <= or_taker_received r <= oc_taker_pays_amount t;
  ce_price : or_taker_paid r * oc_taker_pays_amount t <= or_taker_received r * oc_taker_gets_amount t + or_steps r * oc_taker_pays_amount t;
  ce_both : or_taker_paid r = 0 <-> or_taker_received r = 0;
  ce_filled : exists mode, fill_mode_from_u8 (oc_fill_mode t) = Ok mode /\
    (or_fully_filled r = true <-> match mode with Buy => or_taker_received r = oc_taker_pays_amount t | Sell => or_taker_paid r = oc_taker_gets_amount t end);
  ce_tif : exists tif, time_in_force_from_u8 (oc_time_in_force t) = Ok tif /\ (tif = FillOrKill -> or_fully_filled r = true) /\
    (or_placed r = true -> tif = GoodTillCancel /\ or_fully_filled r = false);
  ce_rest : if or_placed r
    then exists o, live_offers (ld_offers l') !! offer_id t = Some o /\ of_owner o = oc_owner t /\ of_book o = oc_book t /\
      of_taker_gets_remaining o = oc_taker_gets_amount t - or_taker_paid r /\
      of_taker_pays_remaining o = oc_taker_pays_amount t - or_taker_received r /\
      (forall id o', live_offers (ld_offers l') !! id = Some o' -> id <> offer_id t -> of_book_sequence o' < of_book_sequence o)
    else live_offers (ld_offers l') !! offer_id t = None;
  ce_receipt : create_receipts (ld_offers l') !! offer_id t = Some r;
}.
Lemma receipt_written os ops id r : create_receipts (write_offers os (ops ++ [PutCreateReceipt id r])) !! id = Some r.
Proof. unfold write_offers. rewrite foldl_app. cbn. destruct (foldl _ _ _). cbn. apply lookup_insert_eq. Qed.
Lemma load_fresh os id : load_drc_offer_live os id = Ok None -> live_offers os !! id = None.
Proof. intros [? _]%load_offer_Ok. done. Qed.
Lemma create_run ps l t auth score n r f steps :
  ledger_ok l -> offer_ints (CreateOffer t) -> no_self_trade l (CreateOffer t) score n ->
  apply_drc_offer_create (ld_base l) (ld_trust l) (ld_offers l) ps t auth score n [] [] = Ok (r, f, steps) ->
  create_effect l t n (commit_flushed l f) r steps.
Proof.
  intros Hok (HG & HP & Hfee) Hself H. pose proof Hok as [Ha Ht Ho]. unfold apply_drc_offer_create in H.
  apply rbind_Ok in H as (_ & _ & H). apply rbind_Ok in H as (_ & _ & H). apply rbind_Ok in H as (dup & Hd & H).
  apply rbind_Ok in H as (_ & Hdn%ensure_Ok%bool_decide_eq_true_1 & H). subst dup. apply load_fresh in Hd.
  apply rbind_Ok in H as (_ & _ & H). apply rbind_Ok in H as (ctx & Hctx & H). apply rbind_Ok in H as ([[[[c own] placed] filled] w] & He & H).
  apply rbind_Ok in H as (f0 & Hf & H). apply Ok_inj in H. apply pair_eq in H as [H Hst]. apply pair_eq in H as [Hr Hfl]. subst steps f r.
  unfold create_sequence in Hctx. apply rbind_Ok in Hctx as (acct & [_ ->]%load_account_Ok & Hctx).
  pose proof (execute_run key_inj book_inj _ _ _ Ha Ht Ho t score n HG HP Hfee Hd _ _ _ (rep_new key_inj _ _ _) Hself He) as
    (v & R & I & L & T & Hk & Hc & Hmode & Htif & Hrest & Hdom).
  match goal with |- create_effect _ _ _ _ ?x _ => set (r := x) end.
  destruct (commit_ok l w v (oc_owner t) _ _ _ _ _ _ f0 [PutCreateReceipt (offer_id t) r] (oc_fee t) Hok R I L T Hk Hctx Hf
    ltac:(by repeat constructor) _ eq_refl) as (Hok' & Htot & Hlive).
  destruct Hc as [C1 C2 C3 C4 C5].
  split; unfold commit_flushed; cbn [fl_batch fl_trust fl_offers ld_base ld_trust ld_offers]; try done; rewrite ?Hlive; subst r;
    cbn [or_steps or_taker_paid or_taker_received or_fully_filled or_placed]; try lia; try nia.
  - destruct Hmode as (mode & Hm & ->). exists mode. split; [done|]. unfold taker_done. destruct mode; lia.
  - cbn in Hlive. destruct placed; [|by rewrite Hlive]. destruct Hrest as (o & Hlo & (E1 & E2 & E3 & E4 & _) & Hsq & Hsv). exists o. rewrite Hlive.
    split; [done|]. split; [done|]. split; [done|]. split; [lia|]. split; [lia|].
    intros id o' Hl' Hne. pose proof (sq_bound _ (iv_seq _ _ _ I) _ _ Hl') as Hb. rewrite Hsq.
    assert (of_book_sequence o' <> of_book_sequence o); [|lia]. intros E. apply Hne. by eapply (sq_inj _ (iv_seq _ _ _ I)).
  - apply receipt_written.
Qed.

(** ** Withdrawing an offer *)

(** What an accepted cancellation has done: an offer of the submitter's is gone
    and what it had set aside is back, or there was no such offer. *)
Record cancel_effect l (t : DrcOfferCancelTx) l' (r : DrcOfferCancelReceipt) : Prop := {
  xe_ledger : ledger_ok l';
  xe_total : drc_total l' = drc_total l - ox_fee t;
  xe_outcome :
    match oxr_outcome r with
    | Removed => exists o, live_offers (ld_offers l) !! ox_offer_id t = Some o /\ of_owner o = ox_submitter t /\
        live_offers (ld_offers l') = delete (ox_offer_id t) (live_offers (ld_offers l)) /\
        balance (acct_of (ld_base l') DRC (ox_submitter t)) =
          balance (acct_of (ld_base l) DRC (ox_submitter t)) - ox_fee t + of_native_locked o /\
        (forall a, of_taker_gets o = Issued a -> ox_submitter t <> ia_issuer a ->
           load_issued_offer_reserve (ld_trust l') (ox_submitter t) a =
             load_issued_offer_reserve (ld_trust l) (ox_submitter t) a - of_taker_gets_remaining o)
    | AbsentOffer => live_offers (ld_offers l) !! ox_offer_id t = None /\ live_offers (ld_offers l') = live_offers (ld_offers l) /\
        balance (acct_of (ld_base l') DRC (ox_submitter t)) = balance (acct_of (ld_base l) DRC (ox_submitter t)) - ox_fee t
    end;
}.
Section cancel.
Context (l : Ledger) (Hok : ledger_ok l) (t : DrcOfferCancelTx) (Hfee : 0 <= ox_fee t).
Let s := ld_base l.
Let ts := ld_trust l.
Let os := ld_offers l.
Let v1 : View := v_add (ox_submitter t) (- ox_fee t) (v_know (ox_submitter t) (view_start s ts os)).
Lemma offer_fee_inv : (ox_fee t = 0 \/ ox_fee t <= balance (acct_of s DRC (ox_submitter t))) ->
  inv s ts v1 /\ all_left 0 v1 /\ total v1 = locked_native (live_offers os) - ox_fee t.
Proof.
  intros Hf. destruct Hok as [Ha Ht Ho]. destruct (start_inv s ts os Ha Ht Ho) as [I0 L0]. split; [|split; [done|unfold total, v1; rewrite vn_add; cbn; lia]].
  apply add_inv; [destruct I0 as [A [] Rv S [] []]; by split|]. destruct (iv_accounts _ _ _ I0 (ox_submitter t)) as [[B1 B2] _]. unfold in_u64. cbn in *. lia.
Qed.
Lemma cancel_live_run outcome w :
  cancel_live s ts os t (working_new os) = Ok (outcome, w) ->
  (ox_fee t = 0 \/ ox_fee t <= balance (acct_of s DRC (ox_submitter t))) /\
  match outcome with
  | Removed => exists o, live_offers os !! ox_offer_id t = Some o /\ of_owner o = ox_submitter t /\ sound s ts os v1 w (v_release o v1)
  | AbsentOffer => live_offers os !! ox_offer_id t = None /\ sound s ts os v1 w v1
  end.
Proof.
  intros H. unfold cancel_live in H. wstep H. pose proof (account_known key_inj s ts os _ _ _ _ _ (rep_new key_inj s ts os) E) as R1. clear E.
  wstep H. destruct (debit_rep key_inj s ts os _ _ _ _ _ _ R1 E) as [Hf R2]. clear E. fold v1 in R2. cbn in Hf.
  destruct (offer_fee_inv Hf) as (I1 & L1 & T1). split; [done|]. wstep H. destruct (offer_rep _ _ _ _ _ _ _ _ R2 E) as [-> R3]. clear E.
  assert (sound s ts os v1 w2 v1) as Hs by (by split; [..|apply within_refl|]). change (vo v1) with (live_offers os) in H.
  destruct (live_offers os !! ox_offer_id t) as [o|] eqn:Eo.
  - wstep H. apply wlift_Ok in E as [E ->]. apply ensure_Ok, Z.eqb_eq in E. wstep H. apply wret_Ok in H as [-> ->]. exists o. split; [done|]. split; [done|].
    destruct Hok as [Ha Ht Ho]. eapply (release_sound key_inj s ts os Ho); [exact Hs| |exact E0].
    change (vo v1) with (live_offers os). destruct (oo_live _ _ Ho _ _ Eo) as [Hsh _]. by rewrite (sh_id _ _ Hsh).
  - by apply wret_Ok in H as [-> ->].
Qed.
Lemma cancel_run ps auth score r f :
  apply_drc_offer_cancel s ts os ps t auth score [] [] = Ok (r, f) -> cancel_effect l t (commit_flushed l f) r.
Proof.
  intros H. unfold apply_drc_offer_cancel in H. apply rbind_Ok in H as (_ & _ & H). apply rbind_Ok in H as (_ & _ & H).
  apply rbind_Ok in H as (acct & [_ ->]%load_account_Ok & H). apply rbind_Ok in H as (ctx & Hctx & H).
  apply rbind_Ok in H as ([outcome w] & He & H). apply rbind_Ok in H as (f0 & Hf & H). apply Ok_inj, pair_eq in H as [Hr Hfl]. subst r f.
  apply cancel_live_run in He as [Hfit He].
  assert (exists v, sound s ts os v1 w v /\ (match outcome with
     | Removed => exists o, live_offers os !! ox_offer_id t = Some o /\ of_owner o = ox_submitter t /\ v = v_release o v1
     | AbsentOffer => live_offers os !! ox_offer_id t = None /\ v = v1 end)) as (v & [R I L T W K] & Hv).
  { destruct outcome; [destruct He as (o & H1 & H2 & H3); exists (v_release o v1); split; [done|by exists o]|destruct He as [H1 H2]; by exists v1]. }
  assert (ox_submitter t ∈ vk v) as Hk by (injection K as -> _; cbn; set_solver).
  pose proof Hok as [Ha Ht Ho]. 
  match goal with |- cancel_effect _ _ _ ?x => set (r := x) end.
  destruct (commit_ok l w v (ox_submitter t) _ _ _ _ _ _ f0 [PutCancelReceipt (cancel_tx_id t) r] (ox_fee t) Hok R I L
    ltac:(rewrite T; by apply offer_fee_inv) Hk Hctx Hf ltac:(by repeat constructor) _ eq_refl) as (Hok' & Htot & Hlive).
  destruct (flush_inv s ts os w v R I _ _ _ _ _ _ _ _ Hk Hctx Hf) as (Hc & (lops & Hl & Et) & _ & _).
  pose proof (flush_trust key_inj s ts os Ha Ht Ho w v R I L lops Hl) as Ta. rewrite <- Et in Ta.
  pose proof (account_after s ts os w v R (ox_submitter t) _ (ox_submitter t) Hk Hc) as Hbal.
  split; unfold commit_flushed; cbn [fl_batch fl_trust fl_offers ld_base ld_trust ld_offers]; [done|done|]. cbn in Hlive. rewrite Hlive.
  unfold s in Hbal at 1. rewrite Hbal. subst r. cbn [oxr_outcome]. destruct outcome.
  - destruct Hv as (o & Hl0 & Hown & ->). exists o. split; [done|]. split; [done|]. destruct (oo_live _ _ Ho _ _ Hl0) as [Hsh _].
    split; [by rewrite vo_release, (sh_id _ _ Hsh)|]. split.
    + unfold v_release. destruct (frame_unreserve o (of_taker_gets_remaining o) (v_add (of_owner o) (of_native_locked o) v1)) as (F & _).
      cbn [va v_drop v_bk v_own v_off]. rewrite F, Hown. unfold v1. cbn. unfold upd. rewrite !decide_True by done. cbn. fold s. lia.
    + intros a Eg Hne. pose proof (reserve_after key_inj s ts os w _ R _ Ta (ox_submitter t) a) as Hr. fold ts. rewrite Hr. unfold v_release.
      cbn [vr v_drop v_bk v_own v_off]. rewrite vr_unreserve. unfold sells. cbn [fst snd].
      rewrite Hown, Z.eqb_refl, bool_decide_eq_true_2, (proj2 (Z.eqb_neq _ _) Hne) by done. done.
  - destruct Hv as [Hn ->]. split; [done|]. split; [done|]. unfold v1. cbn. unfold upd. rewrite decide_True by done. cbn. fold s. lia.
Qed.
End cancel.

(** ** Withdrawing never fails *)

Lemma account_total s a w : exists r w', account s a w = Ok (r, w').
Proof.
  unfold account. destruct (w_accounts w !! a); [by eexists _, _|]. rewrite load_account_acct by done. cbn [rbind]. by eexists _, _.
Qed.
Lemma debit_total s ts os w v a n : rep s ts os w v -> n <= balance (va v a) -> exists w', debit_native s a n w = Ok (tt, w').
Proof.
  intros R Hn. unfold debit_native. destruct (n =? 0); [by eexists|]. unfold wbind. destruct (account_total s a w) as (x & w1 & E). rewrite E. cbn [rbind].
  destruct (account_rep key_inj s ts os _ _ _ _ _ R E) as [-> _]. rewrite (proj2 (Z.ltb_ge _ _) Hn). cbn. by eexists.
Qed.
Lemma credit_total s ts os w v a n : rep s ts os w v -> balance (va v a) + n <= u64_max -> exists w', credit_native s a n w = Ok (tt, w').
Proof.
  intros R Hn. unfold credit_native. destruct (n =? 0); [by eexists|]. unfold wbind. destruct (account_total s a w) as (x & w1 & E). rewrite E. cbn [rbind].
  destruct (account_rep key_inj s ts os _ _ _ _ _ R E) as [-> _]. unfold checked_add. rewrite (proj2 (Z.leb_le _ _) Hn). cbn. by eexists.
Qed.
Lemma sub_reserve_total s ts os w v h a n : rep s ts os w v -> n <= vr v (h, a) -> exists w', sub_reserve ts h a n w = Ok (tt, w').
Proof.
  intros R Hn. unfold sub_reserve. destruct (n =? 0); [by eexists|]. unfold wbind.
  assert (exists r w1, reserve_of ts h a w = Ok (r, w1)) as (r & w1 & E) by (unfold reserve_of; destruct (cached _ !! _); by eexists _, _).
  rewrite E. cbn [rbind]. destruct (reserve_rep s ts os _ _ _ _ _ _ R E) as [-> _]. rewrite (proj2 (Z.ltb_ge _ _) Hn). cbn. by eexists.
Qed.
Lemma unlist_total ts os o w : offers_ok ts os -> exists w', unlist_offer os o w = Ok (tt, w').
Proof.
  intros Ho. unfold unlist_offer, wbind, wupd. cbn [rbind].
  match goal with |- context [owner_ids os (of_owner o) ?x] => assert (exists r w1, owner_ids os (of_owner o) x = Ok (r, w1)) as (r & w1 & E) end.
  { unfold owner_ids. destruct (cached _ !! _); [by eexists _, _|]. unfold load_owner_ids. destruct (offer_owners os !! of_owner o) as [x|] eqn:Ex; [|cbn [rbind]; by eexists _, _].
    destruct (oo_owner _ _ Ho _ _ Ex) as [-> ->]. rewrite !Z.eqb_refl. cbn [andb ensure rbind]. by eexists _, _. }
  rewrite E. cbn [rbind]. by eexists.
Qed.
Lemma release_total s ts os w v o :
  rep s ts os w v -> offers_ok ts os -> balance (va v (of_owner o)) + of_native_locked o <= u64_max ->
  (forall a, of_taker_gets o = Issued a -> of_owner o <> ia_issuer a -> of_taker_gets_remaining o <= vr v (of_owner o, a)) ->
  exists w', release_offer s ts os o w = Ok (tt, w').
Proof.
  intros R Ho Hb Hr. unfold release_offer.
  assert (exists w1, (if 0 <? of_native_locked o then credit_native s (of_owner o) (of_native_locked o) else wret tt) w = Ok (tt, w1) /\
    exists v1, rep s ts os w1 v1 /\ vr v1 = vr v) as (w1 & E1 & v1 & R1 & Ev).
  { destruct (0 <? of_native_locked o).
    - destruct (credit_total s ts os w v _ _ R Hb) as [w1 E]. exists w1. split; [done|]. destruct (credit_rep key_inj s ts os _ _ _ _ _ _ R E) as [_ R1].
      eexists. by split; [exact R1|].
    - exists w. split; [done|]. by exists v. }
  unfold wbind at 1. rewrite E1. cbn [rbind].
  assert (exists w2, match issued (of_taker_gets o) with
    | Some a => if of_owner o =? ia_issuer a then wret tt else sub_reserve ts (of_owner o) a (of_taker_gets_remaining o)
    | None => wret tt end w1 = Ok (tt, w2)) as (w2 & E2).
  { destruct (of_taker_gets o) as [|a]; cbn [issued]; [by eexists|]. destruct (Z.eqb_spec (of_owner o) (ia_issuer a)); [by eexists|].
    eapply sub_reserve_total; [exact R1|]. rewrite Ev. by apply Hr. }
  unfold wbind. rewrite E2. cbn [rbind]. by eapply unlist_total.
Qed.
Lemma validate_cancel_ready s t : submitter_ready s (ox_submitter t) (ox_fee t) (ox_version t) (ox_nonce t) (ox_account_sequence t) ->
  ox_offer_id t <> 0 -> validate_offer_cancel t = Ok tt.
Proof.
  intros (Hz & _ & Hv & Hs & _) Hid. unfold validate_offer_cancel, validate_offer_envelope.
  assert ((ox_version t =? 1) || (ox_version t =? 2) = true) as -> by lia. cbn [ensure rbind].
  assert ((ox_version t <? 2) && has_ticket_selector (ox_account_sequence t) = false) as ->.
  { destruct (has_ticket_selector _); [|by rewrite andb_false_r]. destruct Hv as [E|E]; [|by rewrite E]. by destruct Hs. }
  cbn [negb ensure rbind]. assert ((ox_submitter t =? 0) || (ox_offer_id t =? 0) = false) as -> by lia. done.
Qed.
Lemma offer_cancel_total ps l t auth score o :
  ledger_ok l -> 0 <= ox_fee t -> drc_total l <= u64_max ->
  live_offers (ld_offers l) !! ox_offer_id t = Some o -> of_owner o = ox_submitter t ->
  submitter_ready (ld_base l) (ox_submitter t) (ox_fee t) (ox_version t) (ox_nonce t) (ox_account_sequence t) ->
  authorize_offer_cancel (ld_base l) ps t auth = Ok tt ->
  exists r f, apply_drc_offer_cancel (ld_base l) (ld_trust l) (ld_offers l) ps t auth score [] [] = Ok (r, f) /\ oxr_outcome r = Removed.
Proof.
  intros Hok Hfee Hcap Hlive Hown Hready Hauth. pose proof Hok as [Ha Ht Ho]. destruct (oo_live _ _ Ho _ _ Hlive) as [Hsh _].
  set (s := ld_base l) in *. set (ts := ld_trust l) in *. set (os := ld_offers l) in *.
  assert (ox_offer_id t <> 0) as Hid by (by destruct (sh_head _ _ Hsh) as (_ & _ & ? & _)).
  unfold apply_drc_offer_cancel. rewrite (validate_cancel_ready s t Hready Hid). cbn [lift_msg rbind]. rewrite Hauth. cbn [rbind].
  rewrite load_account_acct by done. cbn [rbind]. destruct Hready as (_ & Hbal & _ & _ & Hseq).
  (* the working set *)
  assert (exists w, cancel_live s ts os t (working_new os) = Ok (Removed, w)) as (w & Hw).
  { unfold cancel_live. destruct (account_total s (ox_submitter t) (working_new os)) as (x & w1 & E1). unfold wbind at 1. rewrite E1. cbn [rbind].
    pose proof (account_known key_inj s ts os _ _ _ _ _ (rep_new key_inj s ts os) E1) as R1.
    destruct (debit_total s ts os w1 _ (ox_submitter t) (ox_fee t) R1 Hbal) as (w2 & E2). unfold wbind at 1. rewrite E2. cbn [rbind].
    destruct (debit_rep key_inj s ts os _ _ _ _ _ _ R1 E2) as [_ R2].
    assert (exists w3, offer os (ox_offer_id t) w2 = Ok (Some o, w3) /\ rep s ts os w3 (v_add (ox_submitter t) (- ox_fee t) (v_know (ox_submitter t) (view_start s ts os)))) as (w3 & E3 & R3).
    { assert (exists r w3, offer os (ox_offer_id t) w2 = Ok (r, w3)) as (r & w3 & E3).
      { unfold offer. destruct (decide _); [by eexists _, _|]. destruct (w_offers w2 !! _); [by eexists _, _|]. unfold load_drc_offer_live. rewrite Hlive.
        destruct (oo_live _ _ Ho _ _ Hlive) as [_ Hleft]. rewrite (shape_valid _ _ Hsh Hleft), (sh_id _ _ Hsh), Z.eqb_refl. cbn [lift_storage rbind ensure]. by eexists _, _. }
      destruct (offer_rep s ts os _ _ _ _ _ R2 E3) as [Er R3]. change (r = live_offers os !! ox_offer_id t) in Er. rewrite Hlive in Er. subst r. by exists w3. }
    unfold wbind at 1. rewrite E3. cbn [rbind]. rewrite (proj2 (Z.eqb_eq _ _) Hown). unfold wbind at 1. cbn [ensure wlift rbind].
    destruct (release_total s ts os w3 _ o R3 Ho) as (w4 & E4).
    - rewrite Hown. cbn. unfold upd. rewrite decide_True by done. cbn.
      pose proof (acct_le_liquid s DRC (ox_submitter t) Ha) as Hle. unfold drc_total in Hcap. fold s os in Hcap.
      assert (of_native_locked o <= locked_native (live_offers os)); [|lia].
      apply (msum_lookup_le (fun _ o => of_native_locked o) (ox_offer_id t) o); [|done].
      intros id y Hx. destruct (oo_live _ _ Ho _ _ Hx) as [Hx' _]. rewrite (sh_locked _ _ Hx'). pose proof (sh_gets _ _ Hx'). destruct (is_native _); lia.
    - intros a Eg Hne. change (of_taker_gets_remaining o <= load_issued_offer_reserve ts (of_owner o) a). rewrite (oo_reserve _ _ Ho). unfold reserved.
      transitivity (if sells o (of_owner o, a) then of_taker_gets_remaining o else 0).
      { unfold sells. cbn. rewrite Z.eqb_refl, bool_decide_eq_true_2, (proj2 (Z.eqb_neq _ _) Hne) by done. done. }
      apply (msum_lookup_le (fun _ x => if sells x (of_owner o, a) then of_taker_gets_remaining x else 0) (ox_offer_id t) o); [|done].
      intros id y Hx. destruct (oo_live _ _ Ho _ _ Hx) as [Hx' _]. pose proof (sh_gets _ _ Hx'). destruct (sells y _); lia.
    - unfold wbind. rewrite E4. cbn [rbind]. by eexists. }
  destruct (cancel_live_run l Hok t Hfee _ _ Hw) as [_ (o' & _ & _ & [R I L T W K])].
  assert (ox_submitter t ∈ vk (v_release o' (v_add (ox_submitter t) (- ox_fee t) (v_know (ox_submitter t) (view_start s ts os))))) as Hk.
  { apply pair_eq in K as [K _]. fold s ts os in K. rewrite K. cbn. set_solver. }
  destruct (flush_total key_inj s ts os Ha Ht Ho w _ R I L (ox_submitter t) (ox_version t) DRC_OFFER_CANCEL_TICKET_VERSION (ox_nonce t) (ox_account_sequence t)
    "bad DRC offer-cancel nonce" Hk Hseq) as (ctx & f & -> & Hf).
  cbn [rbind]. rewrite Hw. cbn [rbind]. rewrite Hf. cbn [rbind]. by eexists _, _.
Qed.

(** ** Blocks of trust-line and offer transactions *)

Lemma offer_step_ok ps l tx auth score n l' undo n' :
  ledger_ok l -> offer_ints tx -> no_self_trade l tx score n -> apply_offer_tx ps l tx auth score n = Ok (l', undo, n') ->
  ledger_ok l' /\ drc_total l' = drc_total l - offer_fee tx.
Proof.
  intros Hok Hint Hself H. destruct tx as [t|t]; cbn [apply_offer_tx] in H.
  - apply rbind_Ok in H as ([[r f] steps] & Hr & H). apply Ok_inj, pair_eq in H as [H _]. apply pair_eq in H as [<- _].
    destruct (create_run _ _ _ _ _ _ _ _ _ Hok Hint Hself Hr). by split.
  - apply rbind_Ok in H as ([r f] & Hr & H). apply Ok_inj, pair_eq in H as [H _]. apply pair_eq in H as [<- _].
    destruct (cancel_run l Hok t Hint _ _ _ _ _ Hr). by split.
Qed.
Lemma trust_step_ok ps l tx auth score st' before :
  ledger_ok l -> trust_ints tx -> apply_trust_tx ps {| tr_base := ld_base l; tr_trust := ld_trust l |} tx auth score = Ok (st', before) ->
  let l' := {| ld_base := tr_base st'; ld_trust := tr_trust st'; ld_offers := ld_offers l |} in
  ledger_ok l' /\ drc_total l' = drc_total l - (trust_payer tx).2.
Proof.
  intros [Ha Ht Ho] Hint H. pose proof (lane_inv key_inj ps {| tr_base := ld_base l; tr_trust := ld_trust l |} _ _ _ _ _ Ht Hint H) as He. cbv zeta. split.
  - destruct (lane_step key_inj _ _ _ _ _ _ _ (Build_lane_ok {| tr_base := ld_base l; tr_trust := ld_trust l |} Ha Ht) Hint H) as [Ha' Ht'].
    split; cbn; [done|done|]. pose proof (oo_reserve _ _ Ho) as Hres. destruct Ho. split; try done. intros h a. rewrite <- Hres. unfold load_issued_offer_reserve.
    by rewrite (lane_reserves _ _ _ _ He).
  - destruct He as [(b & -> & _ & Hc) _ _]. unfold drc_total. cbn. cbn in Hc. rewrite (charges_one _ _ _ _ DRC Hc), bool_decide_eq_true_2 by done. cbn. lia.
Qed.
(** One accepted transaction of either kind. *)
Inductive ledger_step (ps : PolicyStore) l : Z -> Ledger -> Prop :=
| trust_tx tx auth score st' before :
    trust_ints tx -> apply_trust_tx ps {| tr_base := ld_base l; tr_trust := ld_trust l |} tx auth score = Ok (st', before) ->
    ledger_step ps l (trust_payer tx).2 {| ld_base := tr_base st'; ld_trust := tr_trust st'; ld_offers := ld_offers l |}
| offer_tx tx auth score n l' undo n' :
    offer_ints tx -> no_self_trade l tx score n -> apply_offer_tx ps l tx auth score n = Ok (l', undo, n') -> ledger_step ps l (offer_fee tx) l'.
(** A sequence of them, with the fees they paid. *)
Inductive ledger_run (ps : PolicyStore) : Ledger -> Z -> Ledger -> Prop :=
| run_none l : ledger_run ps l 0 l
| run_more l fee l1 fees l2 : ledger_step ps l fee l1 -> ledger_run ps l1 fees l2 -> ledger_run ps l (fee + fees) l2.
Lemma ledger_run_ok ps l fees l' : ledger_run ps l fees l' -> ledger_ok l -> ledger_ok l' /\ drc_total l' = drc_total l - fees.
Proof.
  induction 1 as [|l fee l1 fees l2 Hs _ IH]; intros Hok; [split; [done|lia]|].
  assert (ledger_ok l1 /\ drc_total l1 = drc_total l - fee) as [Hok1 H1].
  { destruct Hs; [by eapply trust_step_ok|by eapply offer_step_ok]. }
  destruct (IH Hok1) as [Hok2 H2]. split; [done|lia].
Qed.

(** C21: The order book and the trust lines keep the ledger sound together.  After
    any sequence of accepted trust-line, transfer, control, clawback and offer
    transactions, in which no step fills an offer of the submitter's own, the
    liability of every asset is the sum of its holders' balances, each balance is
    within its limit and covers what its owner's live offers sell, the recorded
    reserve is exactly that, and all DRC in accounts and in offers has changed by
    exactly the fees paid. *)
Theorem ledger_value_backed ps l fees l' a :
  ledger_ok l -> ledger_run ps l fees l' ->
  (exists total, load_drc_issuer_liability (ld_trust l') a = Ok total /\ sum_holder_balances_for_asset (ld_trust l') a = Ok total) /\
  (forall h line, lines (ld_trust l') !! (h, asset_key a) = Some line ->
     load_issued_offer_reserve (ld_trust l') h a = reserved (live_offers (ld_offers l')) (h, a) /\
     reserved (live_offers (ld_offers l')) (h, a) <= tl_balance line <= tl_limit line) /\
  drc_total l' = drc_total l - fees.
Proof.
  intros Hok Hr. destruct (ledger_run_ok _ _ _ _ Hr Hok) as [[Ha Ht Ho] Htot]. split; [|split; [|done]].
  - eexists. split; [by apply load_liability_held|by apply sum_held].
  - intros h line Hl. split; [apply (oo_reserve _ _ Ho)|]. rewrite <- (oo_reserve _ _ Ho).
    pose proof (to_lines _ Ht _ _ _ Hl) as [_ _ Hv Hb _ _ _]. apply validate_line_inv in Hv as (_ & _ & Hle & _). split; [|done].
    unfold load_issued_offer_reserve. destruct (reserves _ !! _) as [n|] eqn:En; cbn; [|done].
    pose proof (vo_reserve _ (to_value _ Ht) _ _ En) as Hn. unfold bal_of in Hn. rewrite Hl in Hn. lia.
Qed.

(** C22: An offer never pays above its price.  For an accepted offer that sells
    [G] for [P], the amount paid is at most [G], the amount received at most [P],
    and the price paid is the stated one or better, up to one unit of what is
    paid for each of its at most sixteen matching steps (fills, removals of stale
    offers, withdrawals of its owner's own); nothing is paid for nothing.  This
    holds while no step fills an offer of the submitter's own. *)
Theorem offer_price_respected ps l t auth score n r f steps :
  ledger_ok l -> offer_ints (CreateOffer t) -> no_self_trade l (CreateOffer t) score n ->
  apply_drc_offer_create (ld_base l) (ld_trust l) (ld_offers l) ps t auth score n [] [] = Ok (r, f, steps) ->
  let G := oc_taker_gets_amount t in let P := oc_taker_pays_amount t in
  0 <= or_taker_paid r <= G /\ 0 <= or_taker_received r <= P /\ (or_taker_paid r = 0 <-> or_taker_received r = 0) /\
  or_taker_paid r * P <= or_taker_received r * G + Z.of_nat steps * P /\ (steps <= Nat.min n 16)%nat.
Proof.
  intros Hok Hi Hs H. destruct (create_run _ _ _ _ _ _ _ _ _ Hok Hi Hs H) as [_ _ [S1 S2] P1 P2 P3 P4 _ _ _ _].
  cbv zeta. rewrite S2 in P3. split; [done|]. split; [done|]. split; [done|]. split; [done|]. exact S1.
Qed.

(** C23: Price, then time.  An accepted offer crosses by the loop over a list, from
    its head, of exactly the live offers on the other side of the book, each once,
    without the owner's own that cross the stated rate; in it a better stated rate
    comes first, of two offers of one rate the one placed earlier. *)
Theorem price_time_priority l t score n c own placed filled w :
  ledger_ok l -> offer_ints (CreateOffer t) ->
  execute_offer (ld_base l) (ld_trust l) (ld_offers l) t score n (working_new (ld_offers l)) = Ok ((c, own, placed, filled), w) ->
  exists c0 makers mode w0 w1,
    (forall o, o ∈ makers <-> live_offers (ld_offers l) !! of_offer_id o = Some o /\ of_book o = opposite (oc_book t) /\
       (of_owner o = oc_owner t -> offers_cross (oc_taker_gets_amount t) (oc_taker_pays_amount t) (of_taker_gets_remaining o) (of_taker_pays_remaining o) = false)) /\
    NoDup (of_offer_id <$> makers) /\
    (forall i j x y, (i < j)%nat -> makers !! i = Some x -> makers !! j = Some y -> ahead x y) /\
    (cs_paid c0, cs_received c0, cs_gets_remaining c0, cs_pays_remaining c0) = (0, 0, oc_taker_gets_amount t, oc_taker_pays_amount t) /\
    wfold (cross_maker (ld_base l) (ld_trust l) (ld_offers l) t mode score (Nat.min n DRC_MAX_OFFER_MATCHES_PER_TX)) c0 makers w0 = Ok (c, w1).
Proof.
  intros [Ha Ht Ho] (HG & HP & Hfee) H. unfold execute_offer in H.
  apply wbind_Ok in H as ([[c0 makers] mode] & w0 & E & H). apply wbind_Ok in H as (c1 & w1 & E1 & H).
  assert (c1 = c) as ->.
  { do 3 (apply wbind_Ok in H as (? & ? & _ & H)). apply wret_Ok in H as [[= <- _] _]. done. }
  destruct (start_run key_inj book_inj _ _ _ Ha Ht Ho t HG HP Hfee _ _ _ _ (rep_new key_inj _ _ _) E)
    as (v & [R I L T W K] & Hsub & [_ C2 C3 _ _] & C0 & -> & _ & Hown & Hkeep).
  injection C0 as C0 C1 _. exists c0, (priority_makers t v), mode, w0, w1.
  set (others := omap (fun id => vo v !! id) (vb v (book_key (opposite (oc_book t))))).
  assert (forall o, o ∈ others <-> vo v !! of_offer_id o = Some o /\ of_book o = opposite (oc_book t)) as Hin.
  { intros o. unfold others. rewrite list_elem_of_omap. split.
    - intros (id & Hid & Hv). apply (ix_book _ (iv_index _ _ _ I)) in Hid as (x & Hx & Hk). assert (x = o) as -> by congruence.
      rewrite (sh_id _ _ (iv_shapes _ _ _ I _ _ Hv)). split; [done|by apply book_inj].
    - intros [Hv Hb]. exists (of_offer_id o). split; [|done]. apply (ix_book _ (iv_index _ _ _ I)). exists o. by rewrite Hb. }
  assert (Forall positive_rate others) as Hpos.
  { apply Forall_forall. intros o [Hv _]%Hin. pose proof (iv_shapes _ _ _ I _ _ Hv) as Hsh. split; [apply (sh_gets _ _ Hsh)|apply (sh_pays _ _ Hsh)]. }
  assert (NoDup (of_offer_id <$> others)) as Hnd.
  { unfold others. destruct (ix_book_list _ (iv_index _ _ _ I) (book_key (opposite (oc_book t)))) as [Hl _]. revert Hl.
    generalize (vb v (book_key (opposite (oc_book t)))). induction l0 as [|id ids IH]; [intros _; constructor|]. intros [Hn Hl]%NoDup_cons. cbn [omap list_omap].
    destruct (vo v !! id) as [o|] eqn:Eo; [|by apply IH]. cbn. apply NoDup_cons. split; [|by apply IH].
    intros (y & Ey & (id' & Hid' & Hy)%list_elem_of_omap)%list_elem_of_fmap.
    rewrite (sh_id _ _ (iv_shapes _ _ _ I _ _ Eo)), (sh_id _ _ (iv_shapes _ _ _ I _ _ Hy)) in Ey. by subst. }
  destruct (sort_book_priority others others Hpos Hnd ltac:(done)) as (_ & Hperm & Hord).
  change (priority_makers t v) with (sort_book others). split; [|split; [by rewrite Hperm|split; [intros i j x y Hij Hx Hy; by eapply Hord|split; [|done]]]].
  - intros o. rewrite Hperm, Hin. split.
    + intros [Hv Hb]. split; [by eapply lookup_weaken|]. split; [done|]. intros Ho'. pose proof (Hown _ _ Hv Ho') as Hx.
      unfold own_crossing in Hx. by rewrite bool_decide_eq_true_2 in Hx.
    + intros (Hv & Hb & Hx). split; [|done]. apply Hkeep; [done|]. intros Ho'. unfold own_crossing. by rewrite (Hx Ho'), andb_false_r.
  - rewrite C0, C1 in *. f_equal; [f_equal; lia|lia].
Qed.

(** An accepted offer is filled, placed or dropped as it asked.  It is
    reported filled exactly when its mode's side is complete; a fill-or-kill offer
    is always filled; only a good-till-cancel offer that is not filled is placed,
    with exactly what it has not yet bought and sold and behind every offer in
    the book; anything else leaves no live offer.  Its receipt is recorded. *)
Theorem offer_create_correct ps l t auth score n l' undo n' :
  ledger_ok l -> offer_ints (CreateOffer t) -> no_self_trade l (CreateOffer t) score n ->
  apply_offer_tx ps l (CreateOffer t) auth score n = Ok (l', undo, n') ->
  exists r mode tif, create_receipts (ld_offers l') !! offer_id t = Some r /\
    fill_mode_from_u8 (oc_fill_mode t) = Ok mode /\ time_in_force_from_u8 (oc_time_in_force t) = Ok tif /\
    (or_fully_filled r = true <->
       match mode with Buy => or_taker_received r = oc_taker_pays_amount t | Sell => or_taker_paid r = oc_taker_gets_amount t end) /\
    (tif = FillOrKill -> or_fully_filled r = true) /\ (or_placed r = true -> tif = GoodTillCancel /\ or_fully_filled r = false) /\
    (if or_placed r
     then exists o, live_offers (ld_offers l') !! offer_id t = Some o /\ of_owner o = oc_owner t /\ of_book o = oc_book t /\
       of_taker_gets_remaining o = oc_taker_gets_amount t - or_taker_paid r /\
       of_taker_pays_remaining o = oc_taker_pays_amount t - or_taker_received r /\
       (forall id o', live_offers (ld_offers l') !! id = Some o' -> id <> offer_id t -> of_book_sequence o' < of_book_sequence o)
     else live_offers (ld_offers l') !! offer_id t = None).
Proof.
  intros Hok Hi Hs H. cbn [apply_offer_tx] in H. apply rbind_Ok in H as ([[r f] steps] & Hr & H). apply Ok_inj, pair_eq in H as [H _]. apply pair_eq in H as [<- _].
  destruct (create_run _ _ _ _ _ _ _ _ _ Hok Hi Hs Hr) as [_ _ _ _ _ _ _ (mode & M1 & M2) (tif & T1 & T2 & T3) Hrest Hrec].
  exists r, mode, tif. by repeat (split; [done|]).
Qed.

(** A cancellation returns exactly what the offer had set aside.  Only the
    owner's own offer is removed; its locked DRC is back in the account, less the
    fee, and the units it had reserved on the owner's line are free again; no
    other offer changes, and a cancellation of an offer that is not live costs
    the fee and changes nothing. *)
Theorem offer_cancel_correct ps l t auth score r f :
  ledger_ok l -> 0 <= ox_fee t -> apply_drc_offer_cancel (ld_base l) (ld_trust l) (ld_offers l) ps t auth score [] [] = Ok (r, f) ->
  cancel_effect l t (commit_flushed l f) r.
Proof. intros Hok Hf H. by eapply cancel_run. Qed.

(** C24: An offer can always be withdrawn.  The owner of a live offer that has the
    fee and a ready sequence, and whose authorization is accepted, cancels it
    whatever has happened to the book, the asset's controls or the owner's line,
    as long as no more DRC exists than an account can hold. *)
Theorem offer_can_be_cancelled ps l t auth score n o :
  ledger_ok l -> 0 <= ox_fee t -> drc_total l <= u64_max ->
  live_offers (ld_offers l) !! ox_offer_id t = Some o -> of_owner o = ox_submitter t ->
  submitter_ready (ld_base l) (ox_submitter t) (ox_fee t) (ox_version t) (ox_nonce t) (ox_account_sequence t) ->
  authorize_offer_cancel (ld_base l) ps t auth = Ok tt ->
  exists l' undo, apply_offer_tx ps l (CancelOffer t) auth score n = Ok (l', undo, n) /\
    live_offers (ld_offers l') = delete (ox_offer_id t) (live_offers (ld_offers l)).
Proof.
  intros Hok Hf Hcap Hl Hown Hr Ha. destruct (offer_cancel_total ps l t auth score o Hok Hf Hcap Hl Hown Hr Ha) as (r & f & H & Ho).
  destruct (cancel_run l Hok t Hf _ _ _ _ _ H) as [_ _ He]. rewrite Ho in He. destruct He as (o' & _ & _ & Hd & _).
  cbn [apply_offer_tx]. rewrite H. cbn [rbind]. by eexists _, _.
Qed.
End safety.

(** ** Examples

    The ledger of [TrustSafety]'s examples, where accounts 2 and 3 hold 50 and 30
    units of a currency issued by account 1, with an empty book. *)

Lemma empty_offers_ok {Auth} `{TrustLane Auth} `{OfferLane Auth} ts : reserves ts = ∅ -> offers_ok ts empty_offers.
Proof.
  intros Hr. split; unfold owner_stored, book_stored; cbn; intros *; rewrite ?lookup_empty; try done.
  - split; [by intros ?%elem_of_nil|by intros (? & [=] & _)].
  - split; [constructor|cbn; lia].
  - split; [by intros ?%elem_of_nil|by intros (? & [=] & _)].
  - split; [constructor|cbn; lia].
  - unfold load_issued_offer_reserve. by rewrite Hr, lookup_empty.
Qed.
#[export] Instance demo_offer_lane : OfferLane unit := {|
  authorize_offer_create := accept_trust;
  authorize_offer_cancel := accept_trust;
  book_key := fun b => Zpos (encode (issued (bk_pays b), issued (bk_gets b)));
  offer_id := fun t => 5000 + 100 * oc_owner t + oc_nonce t;
  cancel_tx_id := fun t => 6000 + ox_nonce t |}.
Lemma demo_book_inj (b b' : DrcOfferBook) : @book_key unit demo_offer_lane b = @book_key unit demo_offer_lane b' -> b = b'.
Proof.
  cbn. intros [= H]. apply (inj encode) in H. injection H as H1 H2. destruct b as [p g], b' as [p' g']. cbn in *.
  f_equal; [by destruct p, p'; try done; injection H1 as ->|by destruct g, g'; try done; injection H2 as ->].
Qed.
Definition demo_ledger0 : Ledger := {| ld_base := tr_base demo_issued; ld_trust := tr_trust demo_issued; ld_offers := empty_offers |}.
Lemma demo_ledger0_ok : ledger_ok demo_ledger0.
Proof. destruct demo_issued_ok as [Ha Ht]. split; [exact Ha|exact Ht|]. apply empty_offers_ok. vm_compute. reflexivity. Qed.
(** [owner] gives [g] of one asset for [p] of the other. *)
Definition demo_offer (owner : Address) (gives : DrcBookAsset) (g : Z) (wants : DrcBookAsset) (p nonce_ : Z) : DrcOfferCreateTx :=
  {| oc_version := 1; oc_owner := owner; oc_taker_pays := wants; oc_taker_pays_amount := p; oc_taker_gets := gives; oc_taker_gets_amount := g;
     oc_fill_mode := 2; oc_time_in_force := 1; oc_fee := 1; oc_expires_after := None; oc_nonce := nonce_; oc_account_sequence := None;
     oc_public_key := []; oc_signature := [] |}.
Definition usd : DrcBookAsset := Issued demo_asset.
(** Account 3 sells 20 units for 4 DRC; account 2 sells 30 units for 45 DRC. *)
Definition ask3 : DrcOfferCreateTx := demo_offer 3 usd 20 NativeDrc 4 1.
Definition ask2 : DrcOfferCreateTx := demo_offer 2 usd 30 NativeDrc 45 1.
Definition place (l : Ledger) (t : DrcOfferCreateTx) : Ledger :=
  match apply_offer_tx open_policies l (CreateOffer t) tt 9 64 with Ok (l', _, _) => l' | Err _ => l end.
Definition demo_ledger1 : Ledger := place demo_ledger0 ask3.
Definition demo_ledger2 : Ledger := place demo_ledger1 ask2.
Lemma place_ok l t :
  ledger_ok l -> offer_ints (CreateOffer t) -> no_self_trade l (CreateOffer t) 9 64 -> ledger_ok (place l t).
Proof.
  intros Hok Hi Hs. unfold place. destruct (apply_offer_tx _ _ _ _ _ _) as [[[l' u] n']|] eqn:E; [|exact Hok].
  by destruct (offer_step_ok demo_key_inj demo_book_inj _ _ _ _ _ _ _ _ _ Hok Hi Hs E).
Qed.
Lemma demo_ints_offer owner gives g wants p n : 0 <= g <= u64_max -> 0 <= p <= u64_max -> offer_ints (CreateOffer (demo_offer owner gives g wants p n)).
Proof. intros. split; [done|]. split; [done|]. cbn. lia. Qed.
Lemma demo_ledger1_ok : ledger_ok demo_ledger1.
Proof.
  apply place_ok; [exact demo_ledger0_ok|apply demo_ints_offer; unfold u64_max; lia|vm_compute; reflexivity].
Qed.
Lemma demo_ledger2_ok : ledger_ok demo_ledger2.
Proof.
  apply place_ok; [exact demo_ledger1_ok|apply demo_ints_offer; unfold u64_max; lia|vm_compute; reflexivity].
Qed.
Lemma place_run l t :
  is_ok (apply_offer_tx open_policies l (CreateOffer t) tt 9 64) = true ->
  exists undo n', apply_offer_tx open_policies l (CreateOffer t) tt 9 64 = Ok (place l t, undo, n').
Proof. unfold place. destruct (apply_offer_tx _ _ _ _ _ _) as [[[l' u] n']|]; [intros _; by exists u, n'|done]. Qed.
Lemma ledger_value_backed_witness :
  load_drc_issuer_liability (ld_trust demo_ledger1) demo_asset = Ok 80 /\
  sum_holder_balances_for_asset (ld_trust demo_ledger1) demo_asset = Ok 80 /\ drc_total demo_ledger1 = drc_total demo_ledger0 - 1.
Proof.
  destruct (place_run demo_ledger0 ask3 ltac:(vm_compute; reflexivity)) as (undo & n' & E).
  assert (ledger_run open_policies demo_ledger0 (1 + 0) demo_ledger1) as Hrun.
  { eapply run_more; [|apply run_none]. eapply (offer_tx open_policies demo_ledger0 (CreateOffer ask3)); [|vm_compute; reflexivity|exact E].
    apply demo_ints_offer; unfold u64_max; lia. }
  destruct (ledger_value_backed demo_key_inj demo_book_inj open_policies demo_ledger0 (1 + 0) demo_ledger1 demo_asset demo_ledger0_ok Hrun)
    as ((total & H1 & H2) & _ & H3).
  assert (load_drc_issuer_liability (ld_trust demo_ledger1) demo_asset = Ok 80) as H by (vm_compute; reflexivity).
  rewrite H in H1. injection H1 as <-. split; [exact H|]. split; [exact H2|exact H3].
Defined.
(** Account 2 buys 10 units for at most 5 DRC. *)
Definition bid2 : DrcOfferCreateTx := demo_offer 2 NativeDrc 5 usd 10 1.
Definition bid2_out := apply_drc_offer_create (ld_base demo_ledger1) (ld_trust demo_ledger1) (ld_offers demo_ledger1) open_policies bid2 tt 9 64 [] [].
Lemma offer_price_respected_witness :
  exists r f steps, bid2_out = Ok (r, f, steps) /\ or_taker_paid r * 10 <= or_taker_received r * 5 + Z.of_nat steps * 10.
Proof.
  assert (is_ok bid2_out = true) as Hrun by (vm_compute; reflexivity).
  destruct bid2_out as [[[r f] steps]|] eqn:E; [|discriminate Hrun]. exists r, f, steps. split; [reflexivity|].
  destruct (offer_price_respected demo_key_inj demo_book_inj open_policies demo_ledger1 bid2 tt 9 64 r f steps demo_ledger1_ok) as (_ & _ & _ & H & _);
    [apply demo_ints_offer; unfold u64_max; lia|vm_compute; reflexivity|exact E|exact H].
Defined.
Lemma offer_create_correct_witness :
  exists l' undo n' r, apply_offer_tx open_policies demo_ledger1 (CreateOffer bid2) tt 9 64 = Ok (l', undo, n') /\
    create_receipts (ld_offers l') !! 5201 = Some r.
Proof.
  destruct (place_run demo_ledger1 bid2 ltac:(vm_compute; reflexivity)) as (undo & n' & E).
  destruct (offer_create_correct demo_key_inj demo_book_inj open_policies demo_ledger1 bid2 tt 9 64 _ undo n' demo_ledger1_ok
    ltac:(apply demo_ints_offer; unfold u64_max; lia) ltac:(vm_compute; reflexivity) E) as (r & mode & tif & H & _).
  exists (place demo_ledger1 bid2), undo, n', r. split; [exact E|exact H].
Defined.
(** Account 2's bid crosses account 3's resting offer. *)
Definition bid2_run := execute_offer (ld_base demo_ledger1) (ld_trust demo_ledger1) (ld_offers demo_ledger1) bid2 9 64 (working_new (ld_offers demo_ledger1)).
Lemma price_time_priority_witness :
  exists c own placed filled w, bid2_run = Ok ((c, own, placed, filled), w) /\
    exists makers : list DrcOfferLive, NoDup (of_offer_id <$> makers) /\ forall i j x y, (i < j)%nat -> makers !! i = Some x -> makers !! j = Some y -> ahead x y.
Proof.
  assert (is_ok bid2_run = true) as Hrun by (vm_compute; reflexivity).
  destruct bid2_run as [[[[[c own] placed] filled] w]|] eqn:E; [|discriminate Hrun]. exists c, own, placed, filled, w. split; [reflexivity|].
  destruct (price_time_priority demo_key_inj demo_book_inj demo_ledger1 bid2 9 64 c own placed filled w demo_ledger1_ok) as (c0 & makers & mode & w0 & w1 & _ & Hn & Hs & _);
    [apply demo_ints_offer; unfold u64_max; lia|exact E|]. exists makers. split; [exact Hn|exact Hs].
Defined.
Definition withdraw3 : DrcOfferCancelTx :=
  {| ox_version := 1; ox_submitter := 3; ox_offer_id := 5301; ox_fee := 1; ox_nonce := 2; ox_account_sequence := None;
     ox_public_key := []; ox_signature := [] |}.
Definition withdraw3_out := apply_drc_offer_cancel (ld_base demo_ledger1) (ld_trust demo_ledger1) (ld_offers demo_ledger1) open_policies withdraw3 tt 9 [] [].
Lemma offer_cancel_correct_witness :
  exists r f, withdraw3_out = Ok (r, f) /\ oxr_outcome r = Removed /\ cancel_effect demo_ledger1 withdraw3 (commit_flushed demo_ledger1 f) r.
Proof.
  assert (match withdraw3_out with Ok (r, _) => oxr_outcome r = Removed | Err _ => False end) as Hrun by (vm_compute; reflexivity).
  destruct withdraw3_out as [[r f]|] eqn:E; [|destruct Hrun]. exists r, f. split; [reflexivity|]. split; [exact Hrun|].
  exact (offer_cancel_correct demo_key_inj demo_book_inj open_policies demo_ledger1 withdraw3 tt 9 r f demo_ledger1_ok ltac:(cbn; lia) E).
Defined.
Definition resting3 : option DrcOfferLive := live_offers (ld_offers demo_ledger1) !! 5301.
Lemma offer_can_be_cancelled_witness :
  exists l' undo, apply_offer_tx open_policies demo_ledger1 (CancelOffer withdraw3) tt 9 64 = Ok (l', undo, 64%nat).
Proof.
  assert (match resting3 with Some o => of_owner o = 3 | None => False end) as Hr by (vm_compute; reflexivity).
  destruct resting3 as [o|] eqn:Eo; [|destruct Hr].
  destruct (offer_can_be_cancelled demo_key_inj demo_book_inj open_policies demo_ledger1 withdraw3 tt 9 64 o demo_ledger1_ok) as (l' & undo & H & _).
  - cbn. lia.
  - assert ((drc_total demo_ledger1 <=? u64_max) = true) as H%Z.leb_le by (vm_compute; reflexivity). exact H.
  - exact Eo.
  - exact Hr.
  - split; [discriminate|]. split.
    { assert ((1 <=? balance (acct_of (ld_base demo_ledger1) DRC 3)) = true) as H%Z.leb_le by (vm_compute; reflexivity). exact H. }
    split; [left; reflexivity|]. split; [intros [_ H]; discriminate H|].
    assert (nonce (acct_of (ld_base demo_ledger1) DRC 3) = 2) as Hn by (vm_compute; reflexivity).
    assert (nonce (acct_of (ld_base demo_ledger1) DRC 3) + 1 <= u64_max) as Hl by (rewrite Hn; unfold u64_max; lia). exact (conj Hn Hl).
  - reflexivity.
  - exists l', undo. exact H.
Defined.

(** ** Where the code falls short *)

(** Account 2, with 30 units for sale at 1.5 DRC, bids 50 DRC for 50 units. *)
Definition bid_through : DrcOfferCreateTx := demo_offer 2 NativeDrc 50 usd 50 2.
(** Reads of the working set, which leave its lines and liabilities alone. *)
Section self_trade.
Context {Auth : Type} `{TL : TrustLane Auth} `{OL : OfferLane Auth}.
Context (s : StateStore) (ts : TrustStore) (a : IssuedAssetId) (owner : Address) (l : DrcTrustLineLive).
Context (Hni : owner <> ia_issuer a).
Definition same_lines (w w' : Working) : Prop := w_lines w' = w_lines w /\ w_liability w' = w_liability w.
Lemma account_same b r w w' : account s b w = Ok (r, w') -> same_lines w w'.
Proof. unfold account. destruct (w_accounts w !! b); intros H; [by injection H as _ <-|]. apply rbind_Ok in H as (x & _ & H). by injection H as _ <-. Qed.
Lemma reserve_same h b r w w' : reserve_of ts h b w = Ok (r, w') -> same_lines w w'.
Proof. unfold reserve_of. destruct (cached _ !! _); intros H; by injection H as _ <-. Qed.
Lemma sub_reserve_same h b n r w w' : sub_reserve ts h b n w = Ok (r, w') -> same_lines w w'.
Proof.
  unfold sub_reserve. intros H. destruct (n =? 0); [by apply wret_Ok in H as [_ ->]|]. wstep H. apply reserve_same in E.
  destruct (_ <? _); [done|]. unfold write_reserve in H. apply wupd_Ok in H as ->. exact E.
Qed.
Lemma line_cached w : cached (w_lines w) !! (owner, a) = Some l -> line ts owner a w = Ok (Some l, w).
Proof. intros H. unfold line. by rewrite H. Qed.
Lemma same_trans w1 w2 w3 : same_lines w1 w2 -> same_lines w2 w3 -> same_lines w1 w3.
Proof. intros [H1 H2] [H3 H4]. split; congruence. Qed.
Lemma same_cached w w' : same_lines w w' -> cached (w_lines w) !! (owner, a) = Some l -> cached (w_lines w') !! (owner, a) = Some l.
Proof. intros [-> _]. done. Qed.
Lemma native_transfer_same b n lock dry r w w' : transfer s ts b b NativeDrc n lock dry w = Ok (r, w') -> same_lines w w'.
Proof.
  unfold transfer, credit_native, debit_native. intros H. destruct (n =? 0); [by apply wret_Ok in H as [_ ->]|]. destruct lock.
  - destruct dry; [by apply wret_Ok in H as [_ ->]|]. wstep H. apply wret_Ok in H as [_ ->]. wstep E.
    pose proof (account_same _ _ _ _ E0) as S. wstep E. apply wlift_Ok in E1 as [_ ->]. apply wupd_Ok in E as ->. exact S.
  - wstep H. pose proof (account_same _ _ _ _ E) as S. destruct (_ <? _); [by apply wret_Ok in H as [_ ->]|].
    destruct dry; [by apply wret_Ok in H as [_ ->]|]. wstep H. wstep H. apply wret_Ok in H as [_ ->].
    wstep E0. pose proof (account_same _ _ _ _ E2) as S2. destruct (_ <? _); [done|]. apply wupd_Ok in E0 as ->.
    wstep E1. pose proof (account_same _ _ _ _ E0) as S3. wstep E1. apply wlift_Ok in E3 as [_ ->]. apply wupd_Ok in E1 as ->.
    eapply same_trans; [exact S|]. eapply same_trans; [exact S2|exact S3].
Qed.
(** Moving an issued amount from a holder to itself: both sides are written from
    the balance before, and the credit is written last. *)
Lemma self_transfer n lock g w0 w0' r w w' :
  cached (w_lines w0) !! (owner, a) = Some l -> transfer s ts owner owner (Issued a) n lock true w0 = Ok (g, w0') -> is_err_skip g = false ->
  cached (w_lines w) !! (owner, a) = Some l -> transfer s ts owner owner (Issued a) n lock false w = Ok (r, w') ->
  w_liability w' = w_liability w /\ exists l', cached (w_lines w') !! (owner, a) = Some l' /\ tl_balance l' = tl_balance l + n.
Proof.
  intros Hl0 H0 Hg Hl H. unfold transfer in H, H0. destruct (Z.eqb_spec n 0) as [->|Hn].
  { apply wret_Ok in H as [_ ->]. split; [done|]. exists l. split; [done|lia]. }
  rewrite (proj2 (Z.eqb_neq _ _) Hni) in H, H0. cbn [andb] in H, H0.
  wstep H0. apply wlift_Ok in E as [Ep ->]. wstep H. apply wlift_Ok in E as [Ep' ->]. rewrite Ep in Ep'. apply Ok_inj in Ep' as <-.
  unfold wbind at 1 2 in H. rewrite (line_cached _ Hl) in H. cbn [rbind] in H. rewrite (line_cached _ Hl) in H. cbn [rbind] in H.
  unfold wbind at 1 2 in H0. rewrite (line_cached _ Hl0) in H0. cbn [rbind] in H0. rewrite (line_cached _ Hl0) in H0. cbn [rbind] in H0.
  destruct (negb _ || negb _); [apply wret_Ok in H0 as [-> _]; done|]. wstep H0. apply wlift_Ok in E as [Er ->]. wstep H. apply wlift_Ok in E as [Er' ->].
  rewrite Er in Er'. apply Ok_inj in Er' as <-.
  destruct (_ || _); [apply wret_Ok in H0 as [-> _]; done|]. wstep H. apply wlift_Ok in E as [_ ->]. wstep H. apply wlift_Ok in E as [E ->].
  apply ok_or_Ok, checked_add_Some in E as [-> _]. wstep H. apply wupd_Ok in E as ->. wstep H. apply wupd_Ok in E as ->. apply wret_Ok in H as [_ ->].
  split; [done|]. eexists. split; [cbn; by rewrite lookup_insert_eq|]. cbn. by rewrite normalize_balance.
Qed.
Lemma self_transfer_dry n lock r w w' :
  cached (w_lines w) !! (owner, a) = Some l -> transfer s ts owner owner (Issued a) n lock true w = Ok (r, w') -> same_lines w w'.
Proof.
  intros Hl H. unfold transfer in H. destruct (n =? 0); [by apply wret_Ok in H as [_ ->]|]. rewrite (proj2 (Z.eqb_neq _ _) Hni) in H. cbn [andb] in H.
  wstep H. apply wlift_Ok in E as [_ ->]. unfold wbind at 1 2 in H. rewrite (line_cached _ Hl) in H. cbn [rbind] in H. rewrite (line_cached _ Hl) in H. cbn [rbind] in H.
  destruct (_ || _); [by apply wret_Ok in H as [_ ->]|]. wstep H. apply wlift_Ok in E as [_ ->]. destruct (_ || _); by apply wret_Ok in H as [_ ->].
Qed.
End self_trade.

(** C40: A fill against oneself mints.  Whenever the crossing fills a resting offer
    of the taker's own that sells an issued asset for DRC, the owner's balance of
    that asset rises by the whole amount bought, although the owner also sold it,
    and the liability of the issuer stays: the two sides of the transfer are
    written from the same balance, the credit last. *)
Theorem self_cross_mints {Auth : Type} `{TL : TrustLane Auth} `{OL : OfferLane Auth} (s : StateStore) (ts : TrustStore) (m : DrcOfferLive)
    (a : IssuedAssetId) (l : DrcTrustLineLive) (gr pr paid received : Z) (w w' : Working) :
  of_taker_gets m = Issued a -> of_owner m <> ia_issuer a -> cached (w_lines w) !! (of_owner m, a) = Some l ->
  cross_one s ts (of_owner m) NativeDrc (Issued a) m gr pr w = Ok (Fill paid received, w') ->
  exists l', cached (w_lines w') !! (of_owner m, a) = Some l' /\ tl_balance l' = tl_balance l + received /\ w_liability w' = w_liability w.
Proof.
  intros Hg Hni Hl H. unfold cross_one in H. destruct (negb _); [by apply wret_Ok in H as [? _]|].
  assert (forall x c x', cached (w_lines x) !! (of_owner m, a) = Some l -> maker_unfunded ts m x = Ok (c, x') -> forall p q, c <> Fill p q) as Hun.
  { intros x c x' Hx Hu p q. unfold maker_unfunded in Hu. rewrite Hg, (proj2 (Z.eqb_neq _ _) Hni) in Hu. unfold wbind at 1 in Hu.
    rewrite (line_cached ts a (of_owner m) l _ Hx) in Hu. cbn [rbind] in Hu. wstep Hu. apply wret_Ok in Hu as [-> _]. by destruct (_ || _). }
  wstep H. assert (same_lines w w0) as S.
  { unfold deliverable in E. rewrite Hg, (proj2 (Z.eqb_neq _ _) Hni) in E. unfold wbind at 1 in E. rewrite (line_cached ts a (of_owner m) l _ Hl) in E. cbn [rbind] in E.
    wstep E. apply reserve_same in E0. destruct (_ && _); by apply wret_Ok in E as [_ ->]. }
  destruct (_ =? 0); [exfalso; by eapply Hun; [eapply same_cached; [exact S|exact Hl]|exact H|]|].
  wstep H. assert (same_lines w w1) as S1.
  { unfold deliverable in E0. wstep E0. apply account_same in E1. apply wret_Ok in E0 as [_ ->]. by eapply same_trans. }
  destruct (_ =? 0); [by apply wret_Ok in H as [? _]|]. destruct (offer_fill_step _ _ _ _) as [[rc pd]|] eqn:Es; [|by apply wret_Ok in H as [? _]].
  wstep H. apply native_transfer_same in E1. pose proof (same_trans _ _ _ S1 E1) as S2.
  wstep H. assert (same_lines w w3) as S3.
  { eapply same_trans; [exact S2|]. by eapply (self_transfer_dry s ts a (of_owner m) l Hni); [eapply same_cached; [exact S2|exact Hl]|exact E2]. }
  destruct (is_err_skip r1); [by apply wret_Ok in H as [? _]|].
  destruct (is_err_skip r2) eqn:Hgate; [exfalso; by eapply Hun; [eapply same_cached; [exact S3|exact Hl]|exact H|]|].
  wstep H. apply native_transfer_same in E3. pose proof (same_trans _ _ _ S3 E3) as S4.
  wstep H. rename E4 into Hself. wstep H. rename E4 into Hres. wstep H. apply wupd_Ok in E4 as ->. apply wret_Ok in H as [[= -> ->] ->].
  rewrite Hg, (proj2 (Z.eqb_neq _ _) Hni) in Hres. apply sub_reserve_same in Hres as [R1 R2]. cbn [w_lines w_liability set_offers]. rewrite R1, R2.
  destruct (self_transfer s ts a (of_owner m) l Hni _ _ _ _ _ _ _ _ (same_cached _ _ _ _ _ S2 Hl) E2 Hgate (same_cached _ _ _ _ _ S4 Hl) Hself) as [Hli (l' & Hl' & Hb)].
  exists l'. split; [done|]. split; [done|]. rewrite Hli. apply S4.
Qed.
(** The crossing of [bid_through] at the moment it meets its owner's own offer. *)
Definition before_self : result StateError (Crossing * list DrcOfferLive * Working) :=
  let? ((c0, makers, mode), w) := start_crossing (ld_base demo_ledger2) (ld_trust demo_ledger2) (ld_offers demo_ledger2) bid_through 16 (working_new (ld_offers demo_ledger2)) in
  let? (c, w) := wfold (cross_maker (ld_base demo_ledger2) (ld_trust demo_ledger2) (ld_offers demo_ledger2) bid_through mode 9 16) c0 (take 1 makers) w in
  Ok (c, drop 1 makers, w).
Lemma self_cross_mints_witness :
  exists c m ms w paid w' l l', before_self = Ok (c, m :: ms, w) /\ of_owner m = 2 /\
    cross_one (ld_base demo_ledger2) (ld_trust demo_ledger2) 2 NativeDrc usd m (cs_gets_remaining c) (cs_pays_remaining c) w = Ok (Fill paid 30, w') /\
    cached (w_lines w) !! (2, demo_asset) = Some l /\ cached (w_lines w') !! (2, demo_asset) = Some l' /\ tl_balance l' = tl_balance l + 30.
Proof.
  assert (match before_self with
    | Ok (c, m :: ms, w) => of_owner m = 2 /\ of_taker_gets m = usd /\ is_Some (cached (w_lines w) !! (2, demo_asset)) /\
        match cross_one (ld_base demo_ledger2) (ld_trust demo_ledger2) 2 NativeDrc usd m (cs_gets_remaining c) (cs_pays_remaining c) w with
        | Ok (Fill paid received, _) => received = 30 | _ => False end
    | _ => False end) as H by (vm_compute; repeat split; eexists; reflexivity).
  destruct before_self as [[[c [|m ms]] w]|] eqn:E; [destruct H| |destruct H]. destruct H as (Ho & Hg & [l Hl] & Hx).
  destruct (cross_one _ _ _ _ _ _ _ _ w) as [[[paid received| | |] w']|] eqn:Ex; try (destruct Hx; fail). subst received.
  rewrite <- Ho in Hl. rewrite <- Ho in Ex at 1.
  destruct (self_cross_mints _ _ m demo_asset l _ _ _ _ _ _ Hg ltac:(rewrite Ho; discriminate) Hl Ex) as (l' & Hl' & Hb & _).
  rewrite Ho in Hl, Hl', Ex. exists c, m, ms, w, paid, w', l, l'. split; [reflexivity|]. split; [exact Ho|]. split; [exact Ex|]. split; [exact Hl|]. split; [exact Hl'|exact Hb].
Defined.
(** Trading against oneself mints issued value.  The owner's own resting offer
    that does not cross the stated rate of its new offer is not withdrawn; once
    fills at better rates have improved what remains, it does cross, and the
    transfer from the owner to itself keeps only the credit.  On a sound ledger
    with 80 units issued and held, the accepted offer leaves 110 held against a
    liability of 80. *)
Theorem self_cross_inflates :
  ledger_ok demo_ledger2 /\ offer_ints (CreateOffer bid_through) /\
  load_drc_issuer_liability (ld_trust demo_ledger2) demo_asset = Ok 80 /\
  sum_holder_balances_for_asset (ld_trust demo_ledger2) demo_asset = Ok 80 /\
  match apply_offer_tx open_policies demo_ledger2 (CreateOffer bid_through) tt 9 64 with
  | Ok (l', _, _) => load_drc_issuer_liability (ld_trust l') demo_asset = Ok 80 /\ sum_holder_balances_for_asset (ld_trust l') demo_asset = Ok 110
  | Err _ => False
  end.
Proof.
  split; [exact demo_ledger2_ok|]. split; [apply demo_ints_offer; unfold u64_max; lia|]. vm_compute. repeat split.
Qed.
(** A block in which account 2 sends 5 units to account 3 and then buys units from
    account 3's resting offer. *)
Definition mixed_block : option (Ledger * list TrustOp * list OfferUndo) :=
  match apply_trust_tx open_policies {| tr_base := ld_base demo_ledger1; tr_trust := ld_trust demo_ledger1 |} (TransferIssued (demo_send 2 3 5 1)) tt 9 with
  | Ok (st, before) =>
      match apply_offer_tx open_policies {| ld_base := tr_base st; ld_trust := tr_trust st; ld_offers := ld_offers demo_ledger1 |}
              (CreateOffer (demo_offer 2 NativeDrc 2 usd 10 2)) tt 9 64 with
      | Ok (l, undo, _) => Some (l, before, undo)
      | Err _ => None
      end
  | Err _ => None
  end.
(** Undoing a block that mixes issued transfers and offers does not restore it.
    The journal is reverted lane by lane, trust lines before offers, so the offer
    snapshots, taken after the transfer, overwrite what the transfer's snapshots
    restored: account 2 is left without the 5 units it had before the block.
    Reverting the offers first restores both stores. *)
Theorem mixed_revert_is_wrong :
  match mixed_block with
  | Some (l, before, undo) =>
      let reverted := revert_lanes l before undo in
      bal_of (ld_trust demo_ledger1) (2, asset_key demo_asset) = 50 /\ bal_of (ld_trust reverted) (2, asset_key demo_asset) = 45 /\
      let offers_first := foldl undo_one l (reverse undo) in
      revert_trust_meta (ld_trust offers_first) before = ld_trust demo_ledger1 /\ ld_offers offers_first = ld_offers demo_ledger1
  | None => False
  end.
Proof. vm_compute. repeat split. Qed.
