(* ===== verification/TltScript.v ===== *)
(** * TLT scripts ([types/src/tlt_script.rs], [crypto/src/tlt_script.rs])

    The interpreter of the scripts that lock TLT outputs: a stack machine without
    loops, its programs for the standard locks, and the checks of one covenant
    input.  Bytes are integers between 0 and 255.  A stack is the list of its
    items with the top first; the stack of open branches too.  SHA-256, the
    verification of a signature and the encoding that is signed are parameters. *)

From stdpp Require Import base gmap list fin_maps strings.
From Stdlib Require Import ZArith Lia.
From S2P Require Import Prelude Types Finality Store.
Local Open Scope Z_scope.

Abbreviation Bytes := (list Z) (only parsing).

Definition TLT_COVENANT_TX_VERSION : Z := 2.
Definition TLT_MAX_SCRIPT_LEN : nat := 512.
Definition TLT_MAX_STACK : nat := 32.
Definition TLT_MAX_OPS : nat := 64.
Definition TLT_MAX_PUSH : Z := 80.
Definition TLT_MAX_MULTISIG : Z := 15.
Definition TLT_MAX_IF_DEPTH : nat := 8.
Definition TLT_SEQUENCE_FINAL : Z := 0xFFFFFFFF.
Definition TLT_SEQUENCE_DISABLE_FLAG : Z := Z.shiftl 1 31.
Definition TLT_SEQUENCE_TIME_FLAG : Z := Z.shiftl 1 22.
Definition TLT_SEQUENCE_LOCK_MASK : Z := 0x0000FFFF.
Definition TLT_CSV_TIME_STEP_SECS : Z := 512.
Definition TLT_LOCKTIME_TIME_THRESHOLD : Z := 500000000.

Definition OP_0 : Z := 0x00.
Definition OP_PUSH : Z := 0x01.
Definition OP_1 : Z := 0x51.
Definition OP_16 : Z := 0x60.
Definition OP_NOP : Z := 0x61.
Definition OP_IF : Z := 0x63.
Definition OP_ELSE : Z := 0x67.
Definition OP_ENDIF : Z := 0x68.
Definition OP_VERIFY : Z := 0x69.
Definition OP_RETURN : Z := 0x6a.
Definition OP_DROP : Z := 0x75.
Definition OP_DUP : Z := 0x76.
Definition OP_EQUAL : Z := 0x87.
Definition OP_EQUALVERIFY : Z := 0x88.
Definition OP_SHA256 : Z := 0xa8.
Definition OP_PUBKEYHASH : Z := 0xa9.
Definition OP_CHECKSIG : Z := 0xac.
Definition OP_CHECKMULTISIG : Z := 0xae.
Definition OP_CHECKLOCKTIMEVERIFY : Z := 0xb1.
Definition OP_CHECKSEQUENCEVERIFY : Z := 0xb2.

Definition sequence_signals_rbf (sequence : Z) : bool := sequence <? TLT_SEQUENCE_FINAL.

Inductive TltScriptError :=
| ScriptTooLarge | TooManyOps | StackOverflow | StackUnderflow | InvalidPush | VerifyFailed | UnbalancedIf
| OpReturn | InvalidNumber | LocktimeTypeMismatch | LocktimeNotMet | SequenceDisabled | SequenceTypeMismatch
| SequenceNotMet | InvalidMultisig | UnknownOpcode (op : Z) | BadVersion | BadInput | P2shNotPushOnly | EmptyScript.

(** ** Transactions and the context of a spend *)

Record TltOutputOrigin := { og_blue_score : Z; og_median_time_secs : Z }.
Record TltSpendContext := {
  sc_sighash_preimage : Bytes;
  sc_lock_time : Z;
  sc_sequence : Z;
  sc_spend_blue_score : Z;
  sc_median_time_past_secs : Z;
  sc_origin : TltOutputOrigin;
}.
Record TltCovenantInput := { ci_previous_outpoint : OutPoint; ci_sequence : Z; ci_script_sig : Bytes }.
Record TltCovenantOutput := { co_value : Z; co_script_pubkey : Bytes }.
Record TltCovenantTx := {
  ct_version : Z;
  ct_inputs : list TltCovenantInput;
  ct_outputs : list TltCovenantOutput;
  ct_lock_time : Z;
  ct_nonce : Z;
}.

Definition locktime_is_ignored (tx : TltCovenantTx) : bool :=
  forallb (fun i => ci_sequence i =? TLT_SEQUENCE_FINAL) (ct_inputs tx).
Definition covenant_locktime_satisfied (tx : TltCovenantTx) (spend_blue_score median_time_past_secs : Z)
  : result TltScriptError unit :=
  if locktime_is_ignored tx then Ok tt
  else if ct_lock_time tx <? TLT_LOCKTIME_TIME_THRESHOLD then
    ensure (negb (spend_blue_score <? ct_lock_time tx)) LocktimeNotMet
  else ensure (negb (median_time_past_secs <? ct_lock_time tx)) LocktimeNotMet.

(** ** The standard locks *)

Definition is_small_int (op : Z) : bool := (OP_1 <=? op) && (op <=? OP_16).
(** The buffer extended by a push of [data]. *)
Definition push_data (buf data : Bytes) : result TltScriptError Bytes :=
  match data with
  | [] => Ok (buf ++ [OP_0])
  | [b] => if (1 <=? b) && (b <=? 16) then Ok (buf ++ [OP_1 + b - 1]) else Ok (buf ++ [OP_PUSH; 1; b])
  | _ => ensure (Z.of_nat (length data) <=? TLT_MAX_PUSH) InvalidPush ;?
         Ok (buf ++ [OP_PUSH; Z.of_nat (length data)] ++ data)
  end.
(** [expect] on a push that fits. *)
Definition expect_push (r : result TltScriptError Bytes) : Bytes := match r with Ok b => b | Err _ => [] end.

(** The address its bytes spell. *)
Definition address_of_bytes (bytes : Bytes) : Address := foldl (fun v b => 256 * v + b) 0 bytes.
Definition p2pkh_address (script : Bytes) : option Address :=
  let at_ i := nth i script 0 in
  if negb (Nat.eqb (length script) 26) || negb (at_ 0%nat =? OP_DUP) || negb (at_ 1%nat =? OP_PUBKEYHASH)
     || negb (at_ 2%nat =? OP_PUSH) || negb (at_ 3%nat =? 20) || negb (at_ 24%nat =? OP_EQUALVERIFY)
     || negb (at_ 25%nat =? OP_CHECKSIG)
  then None
  else Some (address_of_bytes (take 20 (drop 4 script))).
Definition script_p2pkh (address : Address) : Bytes :=
  expect_push (push_data [OP_DUP; OP_PUBKEYHASH] (address_bytes address)) ++ [OP_EQUALVERIFY; OP_CHECKSIG].
Definition is_p2sh_script (script : Bytes) : bool :=
  let at_ i := nth i script 0 in
  Nat.eqb (length script) 36 && (at_ 0%nat =? OP_SHA256) && (at_ 1%nat =? OP_PUSH) && (at_ 2%nat =? 32)
  && (at_ 35%nat =? OP_EQUAL).
Definition script_multisig (m : Z) (pubkeys : list Bytes) : result TltScriptError Bytes :=
  let n := if Z.of_nat (length pubkeys) <=? 255 then Z.of_nat (length pubkeys) else 255 in
  ensure (negb ((m =? 0) || (n <? m) || (n =? 0) || (TLT_MAX_MULTISIG <? n))) InvalidMultisig ;?
  let? script := push_data [] [m] in
  let? script := rfold push_data script pubkeys in
  let? script := push_data script [n] in
  Ok (script ++ [OP_CHECKMULTISIG]).
Definition script_htlc (hash256 : Hash) (recipient_pubkey refund_pubkey : Bytes) (lock_time : Z)
  : result TltScriptError Bytes :=
  let? script := push_data [OP_IF; OP_SHA256] (hash_bytes hash256) in
  let? script := push_data (script ++ [OP_EQUALVERIFY]) recipient_pubkey in
  let? script := push_data (script ++ [OP_CHECKSIG; OP_ELSE]) (u64_le_bytes lock_time) in
  let? script := push_data (script ++ [OP_CHECKLOCKTIMEVERIFY; OP_DROP]) refund_pubkey in
  Ok (script ++ [OP_CHECKSIG; OP_ENDIF]).

(** ** Items and stacks *)

Abbreviation Stack := (list (list Z)) (only parsing).
Definition check_len (script : Bytes) : result TltScriptError unit :=
  ensure (Nat.leb (length script) TLT_MAX_SCRIPT_LEN) ScriptTooLarge.
Definition executing (exec : list bool) : bool := forallb id exec.
Definition is_true (bytes : Bytes) : bool := existsb (fun b => negb (b =? 0)) bytes.
Definition bool_item (value : bool) : Bytes := if value then [1] else [0].
Definition top_true (stack : Stack) : bool := match stack with item :: _ => is_true item | [] => false end.
Definition push (stack : Stack) (item : Bytes) : result TltScriptError Stack :=
  ensure (negb (Nat.leb TLT_MAX_STACK (length stack))) StackOverflow ;? Ok (item :: stack).
Definition pop (stack : Stack) : result TltScriptError (Bytes * Stack) :=
  match stack with item :: stack => Ok (item, stack) | [] => Err StackUnderflow end.
(** [u64::from_le_bytes] of the bytes padded with zeros. *)
Definition le_value (bytes : Bytes) : Z := foldr (fun b v => b + 256 * v) 0 bytes.
Definition script_u64 (bytes : Bytes) : result TltScriptError Z :=
  ensure (negb (Nat.eqb (length bytes) 0 || negb (Nat.leb (length bytes) 8))) InvalidNumber ;? Ok (le_value bytes).
Definition script_u32 (bytes : Bytes) : result TltScriptError Z :=
  let? value := script_u64 bytes in
  ensure (value <=? u32_max) InvalidNumber ;? Ok value.
Definition read_count (bytes : Bytes) : result TltScriptError nat :=
  let? n := script_u64 bytes in
  ensure (negb ((n =? 0) || (TLT_MAX_MULTISIG <? n))) InvalidMultisig ;? Ok (Z.to_nat n).
Definition locktime_is_time (lock_time : Z) : bool := TLT_LOCKTIME_TIME_THRESHOLD <=? lock_time.

Fixpoint is_push_only_from (fuel : nat) (script : Bytes) : result TltScriptError bool :=
  match script with
  | [] => Ok true
  | op :: rest =>
      match fuel with
      | O => Ok false
      | S fuel =>
          if (op =? OP_0) || is_small_int op then is_push_only_from fuel rest
          else if op =? OP_PUSH then
            match rest with
            | [] => Err InvalidPush
            | len :: rest =>
                if (len =? 0) || (TLT_MAX_PUSH <? len) || (Z.of_nat (length rest) <? len) then Err InvalidPush
                else is_push_only_from fuel (drop (Z.to_nat len) rest)
            end
          else Ok false
      end
  end.
(** Each step consumes a byte, so the length of the script bounds the loop. *)
Definition is_push_only (script : Bytes) : result TltScriptError bool := is_push_only_from (length script) script.

Definition known_opcode (op : Z) : bool :=
  bool_decide (op ∈ [OP_0; OP_NOP; OP_IF; OP_ELSE; OP_ENDIF; OP_VERIFY; OP_RETURN; OP_DROP; OP_DUP; OP_EQUAL; OP_EQUALVERIFY;
    OP_SHA256; OP_PUBKEYHASH; OP_CHECKSIG; OP_CHECKMULTISIG; OP_CHECKLOCKTIMEVERIFY; OP_CHECKSEQUENCEVERIFY]) || is_small_int op.

Definition check_locktime (stack : Stack) (ctx : TltSpendContext) : result TltScriptError unit :=
  ensure (negb (sc_sequence ctx =? TLT_SEQUENCE_FINAL)) LocktimeNotMet ;?
  let? (top, _) := pop stack in
  let? required := script_u64 top in
  ensure (Bool.eqb (locktime_is_time required) (locktime_is_time (sc_lock_time ctx))) LocktimeTypeMismatch ;?
  ensure (negb (sc_lock_time ctx <? required)) LocktimeNotMet ;?
  if locktime_is_time (sc_lock_time ctx)
  then ensure (negb (sc_median_time_past_secs ctx <? sc_lock_time ctx)) LocktimeNotMet
  else ensure (negb (sc_spend_blue_score ctx <? sc_lock_time ctx)) LocktimeNotMet.

Definition check_sequence (stack : Stack) (ctx : TltSpendContext) : result TltScriptError unit :=
  let? (top, _) := pop stack in
  let? operand := script_u32 top in
  if negb (Z.land operand TLT_SEQUENCE_DISABLE_FLAG =? 0) then Ok tt
  else
    ensure (Z.land (sc_sequence ctx) TLT_SEQUENCE_DISABLE_FLAG =? 0) SequenceDisabled ;?
    let required_time := negb (Z.land operand TLT_SEQUENCE_TIME_FLAG =? 0) in
    let input_time := negb (Z.land (sc_sequence ctx) TLT_SEQUENCE_TIME_FLAG =? 0) in
    ensure (Bool.eqb required_time input_time) SequenceTypeMismatch ;?
    let required := Z.land operand TLT_SEQUENCE_LOCK_MASK in
    let offered := Z.land (sc_sequence ctx) TLT_SEQUENCE_LOCK_MASK in
    ensure (negb (offered <? required)) SequenceNotMet ;?
    if required_time then
      let elapsed := saturating_sub (sc_median_time_past_secs ctx) (og_median_time_secs (sc_origin ctx)) in
      ensure (negb (elapsed / TLT_CSV_TIME_STEP_SECS <? required)) SequenceNotMet
    else
      let distance := saturating_sub (sc_spend_blue_score ctx) (og_blue_score (sc_origin ctx)) in
      ensure (negb (distance <? required)) SequenceNotMet.

(** [pop] repeated; the first item popped comes first. *)
Fixpoint pop_n (n : nat) (stack : Stack) : result TltScriptError (list Bytes * Stack) :=
  match n with
  | O => Ok ([], stack)
  | S n =>
      let? (item, stack) := pop stack in
      let? (items, stack) := pop_n n stack in
      Ok (item :: items, stack)
  end.

(** ** The machine *)

(** [SigChecker::check_sig], with the argument order of the trait, and SHA-256. *)
Class ScriptCrypto := {
  check_sig : Bytes -> Bytes -> Bytes -> bool;
  sha256 : Bytes -> Hash;
}.
(** [SecpChecker]: [KeyPair::verify] behind the length checks. *)
Definition secp_check_sig (verify : Bytes -> Bytes -> Bytes -> bool) (pubkey signature message : Bytes) : bool :=
  if negb (Nat.eqb (length pubkey) 33) || negb (Nat.eqb (length signature) 64) then false else verify pubkey message signature.

Section machine.
Context `{SC : ScriptCrypto}.

Definition script_p2sh (redeem_script : Bytes) : Bytes * Hash :=
  let digest := sha256 redeem_script in
  (expect_push (push_data [OP_SHA256] (hash_bytes digest)) ++ [OP_EQUAL], digest).

(** The keys left after the first one that verifies the signature. *)
Fixpoint find_key (sig : Bytes) (pubs : list Bytes) (message : Bytes) : option (list Bytes) :=
  match pubs with
  | [] => None
  | pubkey :: pubs => if check_sig pubkey sig message then Some pubs else find_key sig pubs message
  end.
(** How many leading signatures find a key, each after the one before. *)
Fixpoint count_matched (sigs pubs : list Bytes) (message : Bytes) : nat :=
  match sigs with
  | [] => 0
  | sig :: sigs =>
      match find_key sig pubs message with
      | Some pubs => S (count_matched sigs pubs message)
      | None => 0
      end
  end.
Definition check_multisig (stack : Stack) (ctx : TltSpendContext) : result TltScriptError Stack :=
  let? (top, stack) := pop stack in
  let? n := read_count top in
  let? (pubs, stack) := pop_n n stack in
  let? (top, stack) := pop stack in
  let? m := read_count top in
  ensure (negb (Nat.eqb m 0 || negb (Nat.leb m n))) InvalidMultisig ;?
  let? (sigs, stack) := pop_n m stack in
  push stack (bool_item (Nat.eqb (count_matched (reverse sigs) (reverse pubs) (sc_sighash_preimage ctx)) m)).

(** The [match op] of [run_script]. *)
Definition exec_op (op : Z) (stack : Stack) (exec : list bool) (ctx : TltSpendContext)
  : result TltScriptError (Stack * list bool) :=
  let keep (r : result TltScriptError Stack) := let? stack := r in Ok (stack, exec) in
  if op =? OP_0 then keep (push stack [])
  else if is_small_int op then keep (push stack [op - OP_1 + 1])
  else if op =? OP_NOP then Ok (stack, exec)
  else if op =? OP_IF then
    ensure (negb (Nat.leb TLT_MAX_IF_DEPTH (length exec))) UnbalancedIf ;?
    if executing exec then let? (cond, stack) := pop stack in Ok (stack, is_true cond :: exec)
    else Ok (stack, false :: exec)
  else if op =? OP_ELSE then
    match exec with top :: exec => Ok (stack, negb top :: exec) | [] => Err UnbalancedIf end
  else if op =? OP_ENDIF then
    match exec with _ :: exec => Ok (stack, exec) | [] => Err UnbalancedIf end
  else if op =? OP_VERIFY then
    let? (item, stack) := pop stack in
    ensure (is_true item) VerifyFailed ;? Ok (stack, exec)
  else if op =? OP_RETURN then Err OpReturn
  else if op =? OP_DROP then let? (_, stack) := pop stack in Ok (stack, exec)
  else if op =? OP_DUP then let? (top, _) := pop stack in keep (push stack top)
  else if op =? OP_EQUAL then
    let? (a, stack) := pop stack in
    let? (b, stack) := pop stack in
    keep (push stack (bool_item (bool_decide (a = b))))
  else if op =? OP_EQUALVERIFY then
    let? (a, stack) := pop stack in
    let? (b, stack) := pop stack in
    ensure (bool_decide (a = b)) VerifyFailed ;? Ok (stack, exec)
  else if op =? OP_SHA256 then
    let? (item, stack) := pop stack in
    keep (push stack (hash_bytes (sha256 item)))
  else if op =? OP_PUBKEYHASH then
    let? (item, stack) := pop stack in
    keep (push stack (take 20 (hash_bytes (sha256 item))))
  else if op =? OP_CHECKSIG then
    let? (pubkey, stack) := pop stack in
    let? (signature, stack) := pop stack in
    keep (push stack (bool_item (check_sig pubkey signature (sc_sighash_preimage ctx))))
  else if op =? OP_CHECKMULTISIG then keep (check_multisig stack ctx)
  else if op =? OP_CHECKLOCKTIMEVERIFY then check_locktime stack ctx ;? Ok (stack, exec)
  else if op =? OP_CHECKSEQUENCEVERIFY then check_sequence stack ctx ;? Ok (stack, exec)
  else Err (UnknownOpcode op).

(** The loop of [run_script] on what is left of the script; [ops] is how many
    more opcodes it may read. *)
Fixpoint run_ops (ops : nat) (script : Bytes) (stack : Stack) (exec : list bool) (ctx : TltSpendContext)
  : result TltScriptError Stack :=
  match script with
  | [] => match exec with [] => Ok stack | _ => Err UnbalancedIf end
  | op :: rest =>
      match ops with
      | O => Err TooManyOps
      | S ops =>
          if op =? OP_PUSH then
            match rest with
            | [] => Err InvalidPush
            | len :: rest =>
                if (len =? 0) || (TLT_MAX_PUSH <? len) || (Z.of_nat (length rest) <? len) then Err InvalidPush
                else
                  let data := take (Z.to_nat len) rest in
                  let? stack := (if executing exec then push stack data else Ok stack) in
                  run_ops ops (drop (Z.to_nat len) rest) stack exec ctx
            end
          else if negb (executing exec) && negb ((op =? OP_IF) || (op =? OP_ELSE) || (op =? OP_ENDIF)) then
            if is_small_int op || (op =? OP_0) || (op =? OP_NOP) then run_ops ops rest stack exec ctx
            else ensure (known_opcode op) (UnknownOpcode op) ;? run_ops ops rest stack exec ctx
          else
            let? (stack, exec) := exec_op op stack exec ctx in
            run_ops ops rest stack exec ctx
      end
  end.
Definition run_script (stack : Stack) (script : Bytes) (ctx : TltSpendContext) : result TltScriptError Stack :=
  run_ops TLT_MAX_OPS script stack [] ctx.

Definition eval_tlt_script (script_sig script_pubkey : Bytes) (ctx : TltSpendContext) : result TltScriptError unit :=
  ensure (negb (Nat.eqb (length script_pubkey) 0)) EmptyScript ;?
  check_len script_sig ;?
  check_len script_pubkey ;?
  let? stack := run_script [] script_sig ctx in
  let? stack :=
    (if is_p2sh_script script_pubkey then
       let? only := is_push_only script_sig in
       ensure only P2shNotPushOnly ;?
       let? (redeem, _) := pop stack in
       check_len redeem ;?
       let? stack := run_script stack script_pubkey ctx in
       ensure (top_true stack) VerifyFailed ;?
       run_script (tail stack) redeem ctx
     else run_script stack script_pubkey ctx) in
  ensure (Nat.eqb (length stack) 1 && top_true stack) VerifyFailed.

Definition eval_covenant_input_preimage (tx : TltCovenantTx) (input_index : nat) (script_pubkey : Bytes)
  (spend_blue_score median_time_past_secs : Z) (origin : TltOutputOrigin) (sighash_preimage : Bytes)
  : result TltScriptError unit :=
  ensure (ct_version tx =? TLT_COVENANT_TX_VERSION) BadVersion ;?
  let? input := ok_or BadInput (ct_inputs tx !! input_index) in
  eval_tlt_script (ci_script_sig input) script_pubkey
    {| sc_sighash_preimage := sighash_preimage; sc_lock_time := ct_lock_time tx; sc_sequence := ci_sequence input;
       sc_spend_blue_score := spend_blue_score; sc_median_time_past_secs := median_time_past_secs; sc_origin := origin |}.
End machine.
