(* ===== verification/TltScriptProps.v ===== *)
(** * What the TLT locks enforce

    Running a script keeps the machine within its limits and only ever becomes
    possible as time passes.  Each standard lock is opened exactly by what it
    names: a key and its signature, enough signatures in key order, a preimage or
    a refund after the lock time.  Two programs the library builds cannot be
    opened at all. *)

From stdpp Require Import base gmap list fin_maps strings.
From Stdlib Require Import ZArith Lia.
From S2P Require Import Prelude Types Finality Store TltScript.
Local Open Scope Z_scope.

(** ** Pushes *)

Lemma push_Ok st x st' : push st x = Ok st' <-> st' = x :: st /\ (length st < TLT_MAX_STACK)%nat.
Proof.
  unfold push. destruct (Nat.leb_spec TLT_MAX_STACK (length st)); cbn; split.
  - done.
  - intros [_ ?]. lia.
  - by intros [= <-].
  - by intros [-> _].
Qed.
Lemma pop_Ok st x st' : pop st = Ok (x, st') <-> st = x :: st'.
Proof. destruct st; cbn; split; try done; by intros [= -> ->]. Qed.

(** What fits a push, and the bytes [push_data] writes for it. *)
Definition pushable (d : Bytes) : Prop := (length d <= 80)%nat.
Definition push_bytes (d : Bytes) : Bytes := expect_push (push_data [] d).
Lemma push_data_app buf d : pushable d -> push_data buf d = Ok (buf ++ push_bytes d).
Proof.
  intros Hd. unfold push_bytes, push_data. destruct d as [|b [|c d]]; [done| |].
  - by destruct (_ && _).
  - unfold pushable in Hd. assert ((Z.of_nat (length (b :: c :: d)) <=? TLT_MAX_PUSH) = true) as -> by (unfold TLT_MAX_PUSH; lia). done.
Qed.

Section machine_props.
Context `{SC : ScriptCrypto}.
Implicit Types (st : list (list Z)) (ex : list bool) (ctx : TltSpendContext).

Lemma run_op n op rest st ex ctx :
  (op =? OP_PUSH) = false -> executing ex = true ->
  run_ops (S n) (op :: rest) st ex ctx = let? (st, ex) := exec_op op st ex ctx in run_ops n rest st ex ctx.
Proof. intros Ho He. cbn [run_ops]. by rewrite Ho, He. Qed.
Lemma run_branch n op rest st ex ctx :
  op = OP_IF \/ op = OP_ELSE \/ op = OP_ENDIF ->
  run_ops (S n) (op :: rest) st ex ctx = let? (st, ex) := exec_op op st ex ctx in run_ops n rest st ex ctx.
Proof. intros [-> |[-> | ->]]; cbn [run_ops]; destruct (executing ex); reflexivity. Qed.
Lemma run_skip n op rest st ex ctx :
  (op =? OP_PUSH) = false -> executing ex = false -> (op =? OP_IF) || (op =? OP_ELSE) || (op =? OP_ENDIF) = false ->
  known_opcode op = true -> run_ops (S n) (op :: rest) st ex ctx = run_ops n rest st ex ctx.
Proof. intros Ho He Hb Hk. cbn [run_ops]. rewrite Ho, He, Hb, Hk. cbn [negb andb ensure rbind]. by destruct (is_small_int op || _ || _). Qed.

Lemma run_raw_push n d rest st ex ctx :
  (1 <= length d <= 80)%nat ->
  run_ops (S n) (OP_PUSH :: Z.of_nat (length d) :: d ++ rest) st ex ctx =
  let? st := (if executing ex then push st d else Ok st) in run_ops n rest st ex ctx.
Proof.
  intros Hd. cbn [run_ops]. rewrite Z.eqb_refl.
  assert ((Z.of_nat (length d) =? 0) || (TLT_MAX_PUSH <? Z.of_nat (length d)) || (Z.of_nat (length (d ++ rest)) <? Z.of_nat (length d)) = false) as ->
    by (rewrite length_app; unfold TLT_MAX_PUSH; apply not_true_iff_false; rewrite !orb_true_iff, Z.eqb_eq, !Z.ltb_lt; lia).
  rewrite Nat2Z.id, take_app_length, drop_app_length. done.
Qed.
(** A push written by [push_data] pushes its data, or is skipped. *)
Lemma run_push n d rest st ex ctx :
  pushable d ->
  run_ops (S n) (push_bytes d ++ rest) st ex ctx =
  let? st := (if executing ex then push st d else Ok st) in run_ops n rest st ex ctx.
Proof.
  intros Hd. unfold push_bytes, push_data. destruct d as [|b [|c d]].
  - cbn [expect_push app]. destruct (executing ex) eqn:He.
    + rewrite run_op by done. change (exec_op OP_0 st ex ctx) with (let? st := push st [] in Ok (st, ex)). by destruct (push st []).
    + by apply run_skip.
  - destruct ((1 <=? b) && (b <=? 16)) eqn:Hb; cbn [expect_push app]; [|by apply (run_raw_push n [b])].
    assert (exists k, b = k + 1 /\ 0 <= k < 16) as (k & -> & Hk) by (exists (b - 1); lia). clear Hb.
    replace (OP_1 + (k + 1) - 1) with (OP_1 + k) by lia.
    assert (is_small_int (OP_1 + k) = true) as Hs by (unfold is_small_int, OP_1, OP_16; lia).
    assert (forall o, In o [OP_0; OP_PUSH; OP_IF; OP_ELSE; OP_ENDIF] -> (OP_1 + k =? o) = false) as Hne.
    { unfold OP_1, OP_0, OP_PUSH, OP_IF, OP_ELSE, OP_ENDIF. cbn. intros o [<-|[<-|[<-|[<-|[<-|[]]]]]]; lia. }
    destruct (executing ex) eqn:He.
    + rewrite run_op by (try done; apply Hne; cbn; tauto). unfold exec_op. rewrite Hne by (cbn; tauto). rewrite Hs.
      replace (OP_1 + k - OP_1 + 1) with (k + 1) by lia. by destruct (push st [k + 1]).
    + apply run_skip; [apply Hne; cbn; tauto|done| |unfold known_opcode; by rewrite Hs, orb_true_r].
      rewrite !Hne by (cbn; tauto). done.
  - unfold pushable in Hd. assert ((Z.of_nat (length (b :: c :: d)) <=? TLT_MAX_PUSH) = true) as -> by (unfold TLT_MAX_PUSH; lia).
    cbn [ensure rbind expect_push]. change ([] ++ [OP_PUSH; Z.of_nat (length (b :: c :: d))] ++ b :: c :: d) with (OP_PUSH :: Z.of_nat (length (b :: c :: d)) :: (b :: c :: d)).
    apply (run_raw_push n (b :: c :: d)). cbn in *. lia.
Qed.

(** ** Opcodes *)

Lemma exec_keep (r : result TltScriptError (list (list Z))) ex st' ex' :
  rbind r (fun st => Ok (st, ex)) = Ok (st', ex') <-> r = Ok st' /\ ex' = ex.
Proof. destruct r; cbn; split; [by intros [= -> ->]|by intros [[= ->] ->]|done|by intros []]. Qed.
Lemma dup_Ok st ex ctx st' ex' :
  exec_op OP_DUP st ex ctx = Ok (st', ex') -> exists x s, st = x :: s /\ st' = x :: x :: s /\ ex' = ex.
Proof.
  change (exec_op OP_DUP st ex ctx) with (let? (top, _) := pop st in rbind (push st top) (fun st => Ok (st, ex))).
  intros ([x s] & H1%pop_Ok & H2)%rbind_Ok. apply exec_keep in H2 as [(-> & _)%push_Ok ->]. exists x, s. by subst.
Qed.
Lemma drop_Ok st ex ctx st' ex' : exec_op OP_DROP st ex ctx = Ok (st', ex') -> exists x, st = x :: st' /\ ex' = ex.
Proof.
  change (exec_op OP_DROP st ex ctx) with (let? (_, st) := pop st in @Ok TltScriptError _ (st, ex)).
  intros ([x s] & H1%pop_Ok & [= <- <-])%rbind_Ok. by exists x.
Qed.
Lemma pubkeyhash_Ok st ex ctx st' ex' :
  exec_op OP_PUBKEYHASH st ex ctx = Ok (st', ex') -> exists x s, st = x :: s /\ st' = take 20 (hash_bytes (sha256 x)) :: s /\ ex' = ex.
Proof.
  change (exec_op OP_PUBKEYHASH st ex ctx) with (let? (x, st) := pop st in rbind (push st (take 20 (hash_bytes (sha256 x)))) (fun st => Ok (st, ex))).
  intros ([x s] & H1%pop_Ok & H2)%rbind_Ok. apply exec_keep in H2 as [(-> & _)%push_Ok ->]. by exists x, s.
Qed.
Lemma sha256_Ok st ex ctx st' ex' :
  exec_op OP_SHA256 st ex ctx = Ok (st', ex') -> exists x s, st = x :: s /\ st' = hash_bytes (sha256 x) :: s /\ ex' = ex.
Proof.
  change (exec_op OP_SHA256 st ex ctx) with (let? (x, st) := pop st in rbind (push st (hash_bytes (sha256 x))) (fun st => Ok (st, ex))).
  intros ([x s] & H1%pop_Ok & H2)%rbind_Ok. apply exec_keep in H2 as [(-> & _)%push_Ok ->]. by exists x, s.
Qed.
Lemma equal_Ok st ex ctx st' ex' :
  exec_op OP_EQUAL st ex ctx = Ok (st', ex') -> exists a b s, st = a :: b :: s /\ st' = bool_item (bool_decide (a = b)) :: s /\ ex' = ex.
Proof.
  change (exec_op OP_EQUAL st ex ctx) with
    (let? (a, st) := pop st in let? (b, st) := pop st in rbind (push st (bool_item (bool_decide (a = b)))) (fun st => Ok (st, ex))).
  intros ([a s] & H1%pop_Ok & ([b s'] & H2%pop_Ok & H3)%rbind_Ok)%rbind_Ok. apply exec_keep in H3 as [(-> & _)%push_Ok ->].
  exists a, b, s'. by subst.
Qed.
Lemma equalverify_Ok st ex ctx st' ex' :
  exec_op OP_EQUALVERIFY st ex ctx = Ok (st', ex') -> exists a, st = a :: a :: st' /\ ex' = ex.
Proof.
  change (exec_op OP_EQUALVERIFY st ex ctx) with
    (let? (a, st) := pop st in let? (b, st) := pop st in ensure (bool_decide (a = b)) VerifyFailed ;? Ok (st, ex)).
  intros ([a s] & H1%pop_Ok & ([b s'] & H2%pop_Ok & (u & H3%ensure_Ok%bool_decide_eq_true & [= <- <-])%rbind_Ok)%rbind_Ok)%rbind_Ok.
  exists a. by subst.
Qed.
Lemma checksig_Ok st ex ctx st' ex' :
  exec_op OP_CHECKSIG st ex ctx = Ok (st', ex') ->
  exists pk sg s, st = pk :: sg :: s /\ st' = bool_item (check_sig pk sg (sc_sighash_preimage ctx)) :: s /\ ex' = ex.
Proof.
  change (exec_op OP_CHECKSIG st ex ctx) with
    (let? (pk, st) := pop st in let? (sg, st) := pop st in
     rbind (push st (bool_item (check_sig pk sg (sc_sighash_preimage ctx)))) (fun st => Ok (st, ex))).
  intros ([a s] & H1%pop_Ok & ([b s'] & H2%pop_Ok & H3)%rbind_Ok)%rbind_Ok. apply exec_keep in H3 as [(-> & _)%push_Ok ->].
  exists a, b, s'. by subst.
Qed.
Lemma cltv_Ok st ex ctx st' ex' :
  exec_op OP_CHECKLOCKTIMEVERIFY st ex ctx = Ok (st', ex') -> check_locktime st ctx = Ok tt /\ st' = st /\ ex' = ex.
Proof.
  change (exec_op OP_CHECKLOCKTIMEVERIFY st ex ctx) with (check_locktime st ctx ;? Ok (st, ex)).
  by intros ([] & H1 & [= <- <-])%rbind_Ok.
Qed.
Lemma multisig_op_Ok st ex ctx st' ex' :
  exec_op OP_CHECKMULTISIG st ex ctx = Ok (st', ex') <-> check_multisig st ctx = Ok st' /\ ex' = ex.
Proof.
  change (exec_op OP_CHECKMULTISIG st ex ctx) with (rbind (check_multisig st ctx) (fun st => Ok (st, ex))). apply exec_keep.
Qed.
Lemma if_Ok st ctx st' ex' :
  exec_op OP_IF st [] ctx = Ok (st', ex') -> exists c, st = c :: st' /\ ex' = [is_true c].
Proof.
  change (exec_op OP_IF st [] ctx) with (let? (c, st) := pop st in @Ok TltScriptError _ (st, [is_true c])).
  intros ([x s] & H1%pop_Ok & [= <- <-])%rbind_Ok. by exists x.
Qed.
Lemma push_room st x : (length st < 32)%nat -> push st x = Ok (x :: st).
Proof. intros H. by apply push_Ok. Qed.
Lemma if_eq c st ctx : exec_op OP_IF (c :: st) [] ctx = Ok (st, [is_true c]).
Proof. reflexivity. Qed.
Lemma sha256_eq x st ex ctx : exec_op OP_SHA256 (x :: st) ex ctx = let? st := push st (hash_bytes (sha256 x)) in Ok (st, ex).
Proof. reflexivity. Qed.
Lemma equalverify_eq a st ex ctx : exec_op OP_EQUALVERIFY (a :: a :: st) ex ctx = Ok (st, ex).
Proof.
  change (exec_op OP_EQUALVERIFY (a :: a :: st) ex ctx) with (ensure (bool_decide (a = a)) VerifyFailed ;? Ok (st, ex)).
  by rewrite bool_decide_eq_true_2.
Qed.
Lemma checksig_eq pk sg st ex ctx :
  exec_op OP_CHECKSIG (pk :: sg :: st) ex ctx = let? st := push st (bool_item (check_sig pk sg (sc_sighash_preimage ctx))) in Ok (st, ex).
Proof. reflexivity. Qed.
Lemma cltv_eq st ex ctx : exec_op OP_CHECKLOCKTIMEVERIFY st ex ctx = (check_locktime st ctx ;? Ok (st, ex)).
Proof. reflexivity. Qed.
Lemma multisig_eq st ex ctx : exec_op OP_CHECKMULTISIG st ex ctx = let? st := check_multisig st ctx in Ok (st, ex).
Proof. reflexivity. Qed.
Lemma equal_eq a b st ex ctx : exec_op OP_EQUAL (a :: b :: st) ex ctx = let? st := push st (bool_item (bool_decide (a = b))) in Ok (st, ex).
Proof. reflexivity. Qed.
Lemma drop_eq x st ex ctx : exec_op OP_DROP (x :: st) ex ctx = Ok (st, ex).
Proof. reflexivity. Qed.

(** ** The end of an evaluation *)

Lemma is_true_bool b : is_true (bool_item b) = b.
Proof. by destruct b. Qed.
Lemma run_script_eq k n st s ctx : (k + n = 64)%nat -> run_script st s ctx = run_ops (k + n) s st [] ctx.
Proof. by intros ->. Qed.
Lemma run_nil n st ctx : run_ops n [] st [] ctx = Ok st.
Proof. by destruct n. Qed.
Lemma run_Ok n op rest st ctx r :
  (op =? OP_PUSH) = false -> run_ops (S n) (op :: rest) st [] ctx = Ok r ->
  exists st' ex', exec_op op st [] ctx = Ok (st', ex') /\ run_ops n rest st' ex' ctx = Ok r.
Proof. intros Ho H. rewrite run_op in H by done. apply rbind_Ok in H as ([st' ex'] & H1 & H2). by exists st', ex'. Qed.
Lemma run_push_Ok n d rest st ex ctx r :
  pushable d -> executing ex = true -> run_ops (S n) (push_bytes d ++ rest) st ex ctx = Ok r ->
  run_ops n rest (d :: st) ex ctx = Ok r.
Proof. intros Hd He H. rewrite run_push, He in H by done. by apply rbind_Ok in H as (st' & (-> & _)%push_Ok & H). Qed.

Lemma run_script_if st body ctx r :
  run_script st (OP_IF :: body) ctx = Ok r -> exists c s, st = c :: s /\ run_ops 63 body s [is_true c] ctx = Ok r.
Proof.
  unfold run_script, TLT_MAX_OPS. intros H. apply run_Ok in H as (s1 & e1 & (c & -> & ->)%if_Ok & H); [|done]. by exists c, s1.
Qed.
Lemma eval_plain sig s ctx :
  is_p2sh_script s = false -> s <> [] -> (length s <= 512)%nat ->
  eval_tlt_script sig s ctx = Ok tt <->
  (length sig <= 512)%nat /\ exists st top, run_script [] sig ctx = Ok st /\ run_script st s ctx = Ok [top] /\ is_true top = true.
Proof.
  intros Hp Hne Hl. unfold eval_tlt_script, check_len. rewrite Hp.
  assert (negb (length s =? 0)%nat = true) as -> by (by destruct s). assert ((length s <=? TLT_MAX_SCRIPT_LEN)%nat = true) as -> by (by apply Nat.leb_le).
  cbn [ensure rbind]. split.
  - intros ([] & H1%ensure_Ok%Nat.leb_le & (st & H2 & (st' & H3 & [H4 H5]%ensure_Ok%andb_true_iff)%rbind_Ok)%rbind_Ok)%rbind_Ok.
    split; [done|]. destruct st' as [|top [|? ?]]; try done. by exists st, top.
  - intros (H1%Nat.leb_le & st & top & H2 & H3 & H4). unfold TLT_MAX_SCRIPT_LEN. rewrite H1. cbn [ensure rbind]. rewrite H2. cbn [rbind].
    rewrite H3. cbn. by rewrite H4.
Qed.

(** ** Pay to a key *)

Lemma pushable_address a : pushable (address_bytes a).
Proof. unfold pushable. rewrite length_address_bytes. lia. Qed.
Lemma pushable_hash h : pushable (hash_bytes h).
Proof. unfold pushable, hash_bytes. rewrite length_reverse, length_le_bytes. lia. Qed.
Lemma length_push_bytes d : (2 <= length d <= 80)%nat -> length (push_bytes d) = S (S (length d)).
Proof.
  intros Hd. unfold push_bytes, push_data. destruct d as [|b [|c d]]; [cbn in Hd; lia..|].
  assert ((Z.of_nat (length (b :: c :: d)) <=? TLT_MAX_PUSH) = true) as -> by (apply Z.leb_le; unfold TLT_MAX_PUSH; lia). done.
Qed.
Lemma p2pkh_shape a : script_p2pkh a = OP_DUP :: OP_PUBKEYHASH :: push_bytes (address_bytes a) ++ [OP_EQUALVERIFY; OP_CHECKSIG].
Proof. unfold script_p2pkh. rewrite push_data_app by apply pushable_address. reflexivity. Qed.
Lemma length_p2pkh a : length (script_p2pkh a) = 26%nat.
Proof. rewrite p2pkh_shape. cbn [length]. rewrite length_app, length_push_bytes by (rewrite length_address_bytes; lia). rewrite length_address_bytes. done. Qed.
Lemma run_p2pkh st a ctx r :
  run_script st (script_p2pkh a) ctx = Ok r ->
  exists pk sg s, st = pk :: sg :: s /\ r = bool_item (check_sig pk sg (sc_sighash_preimage ctx)) :: s /\
    take 20 (hash_bytes (sha256 pk)) = address_bytes a.
Proof.
  rewrite p2pkh_shape. unfold run_script, TLT_MAX_OPS. intros H.
  apply run_Ok in H as (s1 & e1 & (pk & s & -> & -> & ->)%dup_Ok & H); [|done].
  apply run_Ok in H as (s2 & e2 & (x & s' & [= <- <-] & -> & ->)%pubkeyhash_Ok & H); [|done].
  apply run_push_Ok in H; [|apply pushable_address|done].
  apply run_Ok in H as (s3 & e3 & (y & Heq & ->)%equalverify_Ok & H); [|done].
  injection Heq as <- Hz <-. apply run_Ok in H as (s4 & e4 & (pk' & sg & s5 & Hs & -> & ->)%checksig_Ok & H); [|done].
  cbn in H. injection H as <-. injection Hs as -> ->. by exists pk', sg, s5.
Qed.
Lemma run_p2pkh_open pk sg a ctx :
  take 20 (hash_bytes (sha256 pk)) = address_bytes a ->
  run_script [pk; sg] (script_p2pkh a) ctx = Ok [bool_item (check_sig pk sg (sc_sighash_preimage ctx))].
Proof.
  intros Ha. rewrite p2pkh_shape. unfold run_script, TLT_MAX_OPS. rewrite run_op by done.
  change (exec_op OP_DUP [pk; sg] [] ctx) with (@Ok TltScriptError _ ([pk; pk; sg], @nil bool)). cbn [rbind]. rewrite run_op by done.
  change (exec_op OP_PUBKEYHASH [pk; pk; sg] [] ctx) with (@Ok TltScriptError _ ([take 20 (hash_bytes (sha256 pk)); pk; sg], @nil bool)). cbn [rbind].
  rewrite run_push by apply pushable_address. cbn [executing forallb]. unfold push at 1. cbn [length TLT_MAX_STACK Nat.leb negb ensure rbind].
  rewrite run_op by done. rewrite Ha.
  assert (exec_op OP_EQUALVERIFY [address_bytes a; address_bytes a; pk; sg] [] ctx = Ok ([pk; sg], [])) as ->.
  { change (exec_op OP_EQUALVERIFY [address_bytes a; address_bytes a; pk; sg] [] ctx) with
      (ensure (bool_decide (address_bytes a = address_bytes a)) VerifyFailed ;? Ok ([pk; sg], @nil bool)). by rewrite bool_decide_eq_true_2. }
  cbn [rbind]. rewrite run_op by done. reflexivity.
Qed.

Lemma p2pkh_opens sig a ctx :
  eval_tlt_script sig (script_p2pkh a) ctx = Ok tt <->
  (length sig <= 512)%nat /\
  exists pubkey signature, run_script [] sig ctx = Ok [pubkey; signature] /\
    take 20 (hash_bytes (sha256 pubkey)) = address_bytes a /\ check_sig pubkey signature (sc_sighash_preimage ctx) = true.
Proof.
  rewrite eval_plain; [|unfold is_p2sh_script; by rewrite length_p2pkh|by rewrite p2pkh_shape|rewrite length_p2pkh; lia]. split.
  - intros (Hl & st & top & H1 & (pk & sg & s & -> & [= -> <-] & Ha)%run_p2pkh & Ht). split; [done|]. exists pk, sg.
    rewrite is_true_bool in Ht. done.
  - intros (Hl & pk & sg & H1 & Ha & Hc). split; [done|]. exists [pk; sg], (bool_item (check_sig pk sg (sc_sighash_preimage ctx))).
    split; [done|]. split; [by apply run_p2pkh_open|]. by rewrite is_true_bool.
Qed.
(** An address is a lock on its key.  Whatever the spending script does, it
    opens the lock of an address exactly when it leaves a public key that hashes to
    the address and a signature of the transaction under that key, and nothing
    else. *)
Theorem p2pkh_correct sig a ctx :
  eval_tlt_script sig (script_p2pkh a) ctx = Ok tt <->
  (length sig <= 512)%nat /\
  exists pubkey signature, run_script [] sig ctx = Ok [pubkey; signature] /\
    take 20 (hash_bytes (sha256 pubkey)) = address_bytes a /\ check_sig pubkey signature (sc_sighash_preimage ctx) = true.
Proof. apply p2pkh_opens. Qed.

(** ** Hash-time locks *)

Lemma le_value_le_bytes n x : 0 <= x < 256 ^ Z.of_nat n -> le_value (le_bytes n x) = x.
Proof.
  revert x. induction n as [|n IH]; intros x Hx; [cbn in *; lia|]. rewrite Nat2Z.inj_succ, Z.pow_succ_r in Hx by lia.
  cbn [le_bytes le_value foldr]. change (foldr (fun b v => b + 256 * v) 0 (le_bytes n (x / 256))) with (le_value (le_bytes n (x / 256))).
  rewrite IH; [rewrite (Z.div_mod x 256) at 3 by lia; lia|]. split; [apply Z.div_pos; lia|apply Z.div_lt_upper_bound; lia].
Qed.
Lemma else_eq st top ex ctx : exec_op OP_ELSE st (top :: ex) ctx = Ok (st, negb top :: ex).
Proof. reflexivity. Qed.
Lemma endif_eq st top ex ctx : exec_op OP_ENDIF st (top :: ex) ctx = Ok (st, ex).
Proof. reflexivity. Qed.
Lemma run_else n rest st top ex ctx : run_ops (S n) (OP_ELSE :: rest) st (top :: ex) ctx = run_ops n rest st (negb top :: ex) ctx.
Proof. rewrite run_branch by tauto. by rewrite else_eq. Qed.
Lemma run_endif n rest st top ex ctx : run_ops (S n) (OP_ENDIF :: rest) st (top :: ex) ctx = run_ops n rest st ex ctx.
Proof. rewrite run_branch by tauto. by rewrite endif_eq. Qed.
Lemma run_push_skip n d rest st ex ctx :
  pushable d -> executing ex = false -> run_ops (S n) (push_bytes d ++ rest) st ex ctx = run_ops n rest st ex ctx.
Proof. intros Hd He. by rewrite run_push, He. Qed.
(** The lock time of the script is reached. *)
Definition lock_open (lock_time : Z) (ctx : TltSpendContext) : Prop :=
  sc_sequence ctx <> TLT_SEQUENCE_FINAL /\ locktime_is_time lock_time = locktime_is_time (sc_lock_time ctx) /\
  lock_time <= sc_lock_time ctx <= (if locktime_is_time (sc_lock_time ctx) then sc_median_time_past_secs ctx else sc_spend_blue_score ctx).
Lemma check_locktime_open lock_time s ctx :
  in_u64 lock_time -> check_locktime (u64_le_bytes lock_time :: s) ctx = Ok tt <-> lock_open lock_time ctx.
Proof.
  intros Hr. unfold check_locktime, lock_open. cbn [pop rbind].
  assert (script_u64 (u64_le_bytes lock_time) = Ok lock_time) as ->.
  { unfold script_u64, u64_le_bytes. rewrite length_le_bytes. cbn [Nat.eqb Nat.leb negb orb ensure rbind]. rewrite le_value_le_bytes; [done|].
    change (256 ^ Z.of_nat 8) with (u64_max + 1). unfold in_u64 in Hr. lia. }
  cbn [rbind]. destruct (Z.eqb_spec (sc_sequence ctx) TLT_SEQUENCE_FINAL) as [E|E]; cbn [negb ensure rbind]; [naive_solver|].
  destruct (Bool.eqb _ _) eqn:Eb; cbn [ensure rbind]; [apply eqb_prop in Eb|apply eqb_false_iff in Eb; naive_solver].
  destruct (Z.ltb_spec (sc_lock_time ctx) lock_time); cbn [negb ensure rbind]; [split; [done|lia]|].
  destruct (locktime_is_time (sc_lock_time ctx)); rewrite ensure_Ok, negb_true_iff, Z.ltb_ge; naive_solver lia.
Qed.

Section htlc.
Context (h : Hash) (recipient refund : Bytes) (lock_time : Z).
Hypothesis Hrec : length recipient = 33%nat.
Hypothesis Href : length refund = 33%nat.
Hypothesis Hlt : in_u64 lock_time.
Definition htlc_body : Bytes :=
  OP_SHA256 :: push_bytes (hash_bytes h) ++ OP_EQUALVERIFY :: push_bytes recipient ++ OP_CHECKSIG :: OP_ELSE ::
  push_bytes (u64_le_bytes lock_time) ++ OP_CHECKLOCKTIMEVERIFY :: OP_DROP :: push_bytes refund ++ [OP_CHECKSIG; OP_ENDIF].
Definition htlc_script : Bytes := OP_IF :: htlc_body.
Lemma pushable_33 d : length d = 33%nat -> pushable d.
Proof. unfold pushable. lia. Qed.
Lemma pushable_u64 n : pushable (u64_le_bytes n).
Proof. unfold pushable, u64_le_bytes. rewrite length_le_bytes. lia. Qed.
Lemma htlc_shape : script_htlc h recipient refund lock_time = Ok htlc_script.
Proof using Hrec Href.
  unfold script_htlc, htlc_script, htlc_body. rewrite push_data_app by apply pushable_hash. cbn [rbind]. rewrite push_data_app by by apply pushable_33. cbn [rbind].
  rewrite push_data_app by apply pushable_u64. cbn [rbind]. rewrite push_data_app by by apply pushable_33. cbn [rbind].
  by rewrite <- !app_assoc.
Qed.
Lemma length_htlc : length htlc_script = 123%nat.
Proof using Hrec Href.
  unfold htlc_script, htlc_body. repeat (rewrite length_app || cbn [length]).
  rewrite !length_push_bytes; rewrite ?Hrec, ?Href; unfold hash_bytes, u64_le_bytes; rewrite ?length_reverse, ?length_le_bytes; lia.
Qed.
Lemma htlc_claim_inv st ctx r :
  run_ops 63 htlc_body st [true] ctx = Ok r ->
  exists pre sg s, st = pre :: sg :: s /\ r = bool_item (check_sig recipient sg (sc_sighash_preimage ctx)) :: s /\ hash_bytes (sha256 pre) = hash_bytes h.
Proof using Hrec Href.
  unfold htlc_body. intros H. rewrite run_op in H by done.
  apply rbind_Ok in H as ([s1 e1] & (pre & s & -> & -> & ->)%sha256_Ok & H). apply run_push_Ok in H; [|apply pushable_hash|done].
  rewrite run_op in H by done. apply rbind_Ok in H as ([s2 e2] & (y & Heq & ->)%equalverify_Ok & H). injection Heq as <- Hh <-.
  apply run_push_Ok in H; [|by apply pushable_33|done]. rewrite run_op in H by done.
  apply rbind_Ok in H as ([s3 e3] & (pk & sg & s4 & Hs & -> & ->)%checksig_Ok & H). injection Hs as <- ->.
  rewrite run_else in H. rewrite run_push_skip in H by (done || apply pushable_u64). rewrite !run_skip in H by done.
  rewrite run_push_skip in H by (done || by apply pushable_33). rewrite run_skip in H by done. rewrite run_endif in H. cbn [run_ops] in H.
  injection H as <-. by exists pre, sg, s4.
Qed.
Lemma htlc_refund_inv st ctx r :
  run_ops 63 htlc_body st [false] ctx = Ok r ->
  exists sg s, st = sg :: s /\ r = bool_item (check_sig refund sg (sc_sighash_preimage ctx)) :: s /\ lock_open lock_time ctx.
Proof using Hrec Href Hlt.
  unfold htlc_body. intros H. rewrite run_skip in H by done. rewrite run_push_skip in H by (done || apply pushable_hash).
  rewrite run_skip in H by done. rewrite run_push_skip in H by (done || by apply pushable_33). rewrite run_skip in H by done. rewrite run_else in H.
  apply run_push_Ok in H; [|apply pushable_u64|done]. rewrite run_op in H by done.
  apply rbind_Ok in H as ([s1 e1] & (Hc & -> & ->)%cltv_Ok & H). apply (check_locktime_open _ _ _ Hlt) in Hc. rewrite run_op in H by done.
  apply rbind_Ok in H as ([s2 e2] & (x & [= <- <-] & ->)%drop_Ok & H). apply run_push_Ok in H; [|by apply pushable_33|done].
  rewrite run_op in H by done. apply rbind_Ok in H as ([s3 e3] & (pk & sg & s4 & Hs & -> & ->)%checksig_Ok & H). injection Hs as <- ->.
  rewrite run_endif in H. cbn [run_ops] in H. injection H as <-. by exists sg, s4.
Qed.
Lemma htlc_claim_open c pre sg ctx :
  is_true c = true -> hash_bytes (sha256 pre) = hash_bytes h ->
  run_script [c; pre; sg] htlc_script ctx = Ok [bool_item (check_sig recipient sg (sc_sighash_preimage ctx))].
Proof using Hrec Href.
  intros Hc Hh. unfold run_script, TLT_MAX_OPS, htlc_script. rewrite run_branch by tauto. rewrite if_eq, Hc. cbn [rbind]. unfold htlc_body.
  rewrite run_op by done. rewrite sha256_eq, push_room by (cbn; lia). cbn [rbind]. rewrite run_push by apply pushable_hash. cbn [executing forallb id andb].
  rewrite push_room by (cbn; lia). cbn [rbind]. rewrite run_op by done. rewrite Hh, equalverify_eq. cbn [rbind].
  rewrite run_push by by apply pushable_33. cbn [executing forallb id andb]. rewrite push_room by (cbn; lia). cbn [rbind].
  rewrite run_op by done. rewrite checksig_eq, push_room by (cbn; lia). cbn [rbind]. rewrite run_else. cbn [negb].
  rewrite run_push_skip by (done || apply pushable_u64). rewrite !run_skip by done. rewrite run_push_skip by (done || by apply pushable_33).
  rewrite run_skip by done. by rewrite run_endif.
Qed.
Lemma htlc_refund_open c sg ctx :
  is_true c = false -> lock_open lock_time ctx ->
  run_script [c; sg] htlc_script ctx = Ok [bool_item (check_sig refund sg (sc_sighash_preimage ctx))].
Proof using Hrec Href Hlt.
  intros Hc Hl. unfold run_script, TLT_MAX_OPS, htlc_script. rewrite run_branch by tauto. rewrite if_eq, Hc. cbn [rbind]. unfold htlc_body.
  rewrite run_skip by done. rewrite run_push_skip by (done || apply pushable_hash). rewrite run_skip by done.
  rewrite run_push_skip by (done || by apply pushable_33). rewrite run_skip by done. rewrite run_else. cbn [negb].
  rewrite run_push by apply pushable_u64. cbn [executing forallb id andb]. rewrite push_room by (cbn; lia). cbn [rbind].
  rewrite run_op by done. rewrite cltv_eq. rewrite (proj2 (check_locktime_open _ _ _ Hlt) Hl). cbn [rbind].
  rewrite run_op by done. rewrite drop_eq. cbn [rbind]. rewrite run_push by by apply pushable_33. cbn [executing forallb id andb].
  rewrite push_room by (cbn; lia). cbn [rbind]. rewrite run_op by done. rewrite checksig_eq, push_room by (cbn; lia). cbn [rbind].
  by rewrite run_endif.
Qed.
Lemma htlc_open sig ctx :
  eval_tlt_script sig htlc_script ctx = Ok tt <->
  (length sig <= 512)%nat /\
  ((exists flag preimage signature, run_script [] sig ctx = Ok [flag; preimage; signature] /\ is_true flag = true /\
      hash_bytes (sha256 preimage) = hash_bytes h /\ check_sig recipient signature (sc_sighash_preimage ctx) = true) \/
   (exists flag signature, run_script [] sig ctx = Ok [flag; signature] /\ is_true flag = false /\
      lock_open lock_time ctx /\ check_sig refund signature (sc_sighash_preimage ctx) = true)).
Proof using Hrec Href Hlt.
  rewrite eval_plain; [|unfold is_p2sh_script; by rewrite length_htlc|done|rewrite length_htlc; lia]. split.
  - intros (Hl & st & top & H1 & H2 & Ht). split; [done|]. apply run_script_if in H2 as (c & s1 & -> & H2). destruct (is_true c) eqn:Hc.
    + left. apply htlc_claim_inv in H2 as (pre & sg & s & -> & [= -> <-] & Hh). rewrite is_true_bool in Ht. by exists c, pre, sg.
    + right. apply htlc_refund_inv in H2 as (sg & s & -> & [= -> <-] & Hh). rewrite is_true_bool in Ht. by exists c, sg.
  - intros (Hl & [(c & pre & sg & H1 & Hc & Hh & Hs)|(c & sg & H1 & Hc & Hh & Hs)]); (split; [done|]).
    + eexists _, _. split; [exact H1|]. split; [exact (htlc_claim_open c pre sg ctx Hc Hh)|]. by rewrite is_true_bool.
    + eexists _, _. split; [exact H1|]. split; [exact (htlc_refund_open c sg ctx Hc Hh)|]. by rewrite is_true_bool.
Qed.
End htlc.

(** C19: A hash-time lock pays the recipient or refunds the sender, and nobody
    else.  A spend opens it exactly when it takes the claim branch with a preimage
    of the hash and the recipient's signature, or the refund branch with the
    sender's signature once the lock time is reached. *)
Theorem htlc_correct h recipient refund lock_time sig s ctx :
  length recipient = 33%nat -> length refund = 33%nat -> in_u64 lock_time -> script_htlc h recipient refund lock_time = Ok s ->
  eval_tlt_script sig s ctx = Ok tt <->
  (length sig <= 512)%nat /\
  ((exists flag preimage signature, run_script [] sig ctx = Ok [flag; preimage; signature] /\ is_true flag = true /\
      hash_bytes (sha256 preimage) = hash_bytes h /\ check_sig recipient signature (sc_sighash_preimage ctx) = true) \/
   (exists flag signature, run_script [] sig ctx = Ok [flag; signature] /\ is_true flag = false /\
      lock_open lock_time ctx /\ check_sig refund signature (sc_sighash_preimage ctx) = true)).
Proof. intros Hrec Href Hlt Hs. rewrite (htlc_shape h recipient refund lock_time Hrec Href) in Hs. injection Hs as <-. by apply htlc_open. Qed.

(** ** Signatures of several keys *)

(** Each signature verifies under a key of its own, in the order of the keys. *)
Definition signed_in_order (sigs pubs : list Bytes) (message : Bytes) : Prop :=
  exists keys, keys `sublist_of` pubs /\ Forall2 (fun sg pk => check_sig pk sg message = true) sigs keys.
Lemma find_key_split sg pubs msg rest :
  find_key sg pubs msg = Some rest <->
  exists before pk, pubs = before ++ pk :: rest /\ check_sig pk sg msg = true /\ Forall (fun k => check_sig k sg msg = false) before.
Proof.
  induction pubs as [|p pubs IH]; cbn [find_key]; [split; [done|by intros ([|??] & ? & ? & _)]|].
  destruct (check_sig p sg msg) eqn:E.
  - split; [intros [= <-]; by exists [], p|]. intros (before & pk & Heq & Hc & Hb). destruct before as [|q before]; injection Heq as -> ->; [done|].
    inversion Hb; congruence.
  - rewrite IH. split; intros (before & pk & Heq & Hc & Hb).
    + exists (p :: before), pk. rewrite Heq. by repeat constructor.
    + destruct before as [|q before]; injection Heq as -> ->; [congruence|]. inversion Hb. by exists before, pk.
Qed.
(** The greedy scan finds an assignment whenever there is one. *)
Lemma count_matched_all sigs pubs msg :
  count_matched sigs pubs msg = length sigs <-> signed_in_order sigs pubs msg.
Proof.
  revert pubs. induction sigs as [|sg sigs IH]; intros pubs; cbn [count_matched length].
  { split; [intros _; exists []; split; [apply sublist_nil_l|constructor]|done]. }
  destruct (find_key sg pubs msg) as [rest|] eqn:E.
  - apply find_key_split in E as (before & pk & -> & Hc & Hb). split.
    + intros [= H]. apply IH in H as (keys & Hk & Hf). exists (pk :: keys). split; [|by constructor].
      apply sublist_inserts_l. by apply sublist_skip.
    + intros (keys & Hk & Hf). f_equal. apply IH. apply Forall2_cons_inv_l in Hf as (k & keys' & Hsk & Hf' & ->). exists keys'. split; [|done].
      apply sublist_app_r in Hk as (k1 & k2 & Heq & Hk1 & Hk2). destruct k1 as [|x k1]; cbn in Heq.
      * subst k2. apply sublist_cons_r in Hk2 as [Hsub|(l' & [= <- <-] & Hsub)]; [|done]. etrans; [|exact Hsub]. by apply sublist_cons.
      * injection Heq as <- ->. assert (k ∈ before) as Hx by (eapply elem_of_sublist; [by left|exact Hk1]). rewrite Forall_forall in Hb.
        rewrite Hb in Hsk by done. done.
  - split; [done|]. intros (keys & Hk & Hf). apply Forall2_cons_inv_l in Hf as (k & keys' & Hsk & Hf' & ->).
    assert (k ∈ pubs) as (i & before & ->)%list_elem_of_split by (eapply elem_of_sublist; [by left|exact Hk]).
    exfalso. assert (exists r, find_key sg (i ++ k :: before) msg = Some r) as (r & Hr); [|congruence].
    clear E Hk Hf'. induction i as [|x i IHi]; cbn; [rewrite Hsk; by eexists|]. destruct (check_sig x sg msg); [by eexists|done].
Qed.

Lemma pop_n_Ok n st items s : pop_n n st = Ok (items, s) <-> st = items ++ s /\ length items = n.
Proof.
  revert st items s. induction n as [|n IH]; intros st items s; cbn [pop_n].
  - split; [by intros [= <- <-]|]. intros [-> H]. by destruct items.
  - rewrite rbind_Ok. split.
    + intros ([x st1] & ->%pop_Ok & ([l s'] & [-> H2]%IH & [= <- <-])%rbind_Ok). cbn. by rewrite H2.
    + intros [-> H]. destruct items as [|x items]; [done|]. exists (x, items ++ s). split; [done|]. apply rbind_Ok. exists (items, s).
      injection H as H. split; [by apply IH|done].
Qed.
Lemma read_count_small n : (1 <= n <= 15)%nat -> read_count [Z.of_nat n] = Ok n.
Proof.
  intros Hn. unfold read_count, script_u64. cbn [length Nat.eqb Nat.leb negb orb ensure rbind le_value foldr].
  replace (Z.of_nat n + 256 * 0) with (Z.of_nat n) by lia.
  assert ((Z.of_nat n =? 0) || (TLT_MAX_MULTISIG <? Z.of_nat n) = false) as ->
    by (apply not_true_iff_false; unfold TLT_MAX_MULTISIG; rewrite orb_true_iff, Z.eqb_eq, Z.ltb_lt; lia).
  cbn. by rewrite Nat2Z.id.
Qed.
Lemma check_multisig_eq keys m st ctx :
  (1 <= m <= length keys)%nat -> (length keys <= 15)%nat ->
  check_multisig ([Z.of_nat (length keys)] :: reverse keys ++ [Z.of_nat m] :: st) ctx =
  let? (sigs, st) := pop_n m st in
  push st (bool_item (Nat.eqb (count_matched (reverse sigs) keys (sc_sighash_preimage ctx)) m)).
Proof.
  intros Hm Hn. unfold check_multisig. cbn [pop rbind]. rewrite read_count_small by lia. cbn [rbind].
  rewrite (proj2 (pop_n_Ok _ _ (reverse keys) ([Z.of_nat m] :: st))) by (by rewrite length_reverse). cbn [rbind pop].
  rewrite read_count_small by lia. cbn [rbind]. assert ((m =? 0)%nat || negb (m <=? length keys)%nat = false) as ->.
  { apply not_true_iff_false. rewrite orb_true_iff, negb_true_iff, Nat.eqb_eq, Nat.leb_gt. lia. }
  cbn [negb ensure rbind]. by rewrite reverse_involutive.
Qed.

Fixpoint pushes (items : list Bytes) : Bytes := match items with [] => [] | d :: items => push_bytes d ++ pushes items end.
Lemma pushes_app l k : pushes (l ++ k) = pushes l ++ pushes k.
Proof. induction l as [|d l IH]; cbn [pushes app]; [done|]. by rewrite IH, app_assoc. Qed.
Lemma push_all buf items : Forall pushable items -> rfold push_data buf items = Ok (buf ++ pushes items).
Proof.
  intros H. revert buf. induction H as [|d items Hd H IH]; intros buf; cbn [rfold]; [by rewrite app_nil_r|].
  rewrite push_data_app by done. cbn [rbind]. rewrite IH. cbn [pushes]. by rewrite <- app_assoc.
Qed.
Lemma run_pushes n items rest st ctx :
  Forall pushable items -> (length items + length st <= 32)%nat ->
  run_ops (length items + n) (pushes items ++ rest) st [] ctx = run_ops n rest (reverse items ++ st) [] ctx.
Proof.
  intros H. revert st. induction H as [|d items Hd H IH]; intros st Hl; [done|]. cbn [pushes length Nat.add].
  rewrite <- app_assoc, run_push by done. cbn [executing forallb length] in *. rewrite push_room by lia. cbn [rbind].
  rewrite reverse_cons, <- app_assoc. apply IH. cbn. lia.
Qed.
Lemma run_pushes_Ok n items rest st ctx r :
  Forall pushable items -> run_ops (length items + n) (pushes items ++ rest) st [] ctx = Ok r ->
  run_ops n rest (reverse items ++ st) [] ctx = Ok r.
Proof.
  intros H. revert st. induction H as [|d items Hd H IH]; intros st Hr; [done|]. cbn [pushes length Nat.add] in Hr.
  rewrite <- app_assoc in Hr. apply run_push_Ok in Hr; [|done..]. rewrite reverse_cons, <- app_assoc. by apply IH.
Qed.

Section multisig.
Context (m : nat) (keys : list Bytes).
Hypothesis Hkeys : Forall (fun k => length k = 33%nat) keys.
Hypothesis Hm : (1 <= m <= length keys)%nat.
Definition multisig_items : list Bytes := [Z.of_nat m] :: keys ++ [[Z.of_nat (length keys)]].
Definition multisig_script : Bytes := pushes multisig_items ++ [OP_CHECKMULTISIG].
Lemma length_items : (length keys <= 15)%nat -> (length multisig_items + S (63 - length multisig_items) = 64)%nat.
Proof. unfold multisig_items. cbn. rewrite length_app. cbn. lia. Qed.
Lemma multisig_pushable : Forall pushable multisig_items.
Proof using Hkeys Hm.
  unfold multisig_items, pushable. constructor; [cbn; lia|]. apply Forall_app_2; [|by repeat constructor; cbn; lia].
  eapply Forall_impl; [exact Hkeys|]. cbn. lia.
Qed.
Lemma multisig_shape : (length keys <= 15)%nat -> script_multisig (Z.of_nat m) keys = Ok multisig_script.
Proof using Hkeys Hm.
  intros Hn. unfold script_multisig. assert ((Z.of_nat (length keys) <=? 255) = true) as -> by (apply Z.leb_le; lia).
  assert ((Z.of_nat m =? 0) || (Z.of_nat (length keys) <? Z.of_nat m) || (Z.of_nat (length keys) =? 0) || (TLT_MAX_MULTISIG <? Z.of_nat (length keys)) = false) as ->
    by (apply not_true_iff_false; unfold TLT_MAX_MULTISIG; rewrite !orb_true_iff, !Z.eqb_eq, !Z.ltb_lt; lia).
  cbn [negb ensure rbind]. pose proof multisig_pushable as Hp. unfold multisig_items in Hp. apply Forall_cons in Hp as [Hp1 [Hp2 Hp3]%Forall_app].
  rewrite push_data_app by done. cbn [rbind]. rewrite push_all by done. cbn [rbind]. rewrite push_data_app by (by apply Forall_singleton in Hp3).
  cbn [rbind]. unfold multisig_script, multisig_items. cbn [pushes]. rewrite pushes_app. cbn [pushes app]. rewrite app_nil_r. by rewrite <- !app_assoc.
Qed.
Lemma length_pushes33 l : Forall (fun k => length k = 33%nat) l -> length (pushes l) = (35 * length l)%nat.
Proof.
  induction 1 as [|k l Hk _ IH]; [done|]. cbn [pushes length]. rewrite length_app, IH.
  rewrite length_push_bytes by lia. lia.
Qed.
Lemma length_push1 b : 1 <= b <= 16 -> length (push_bytes [b]) = 1%nat.
Proof. intros Hb. unfold push_bytes, push_data. assert ((1 <=? b) && (b <=? 16) = true) as -> by (apply andb_true_iff; rewrite !Z.leb_le; lia). done. Qed.
Lemma length_multisig : (length keys <= 16)%nat -> length multisig_script = (35 * length keys + 3)%nat.
Proof using Hkeys Hm.
  intros Hn. unfold multisig_script, multisig_items. cbn [pushes]. rewrite pushes_app. cbn [pushes].
  rewrite !length_app, (length_pushes33 _ Hkeys), !length_push1 by lia. cbn. lia.
Qed.
Lemma multisig_run st ctx r :
  (length keys <= 15)%nat -> run_script st multisig_script ctx = Ok r ->
  exists sigs s, st = reverse sigs ++ s /\ length sigs = m /\
    r = bool_item (Nat.eqb (count_matched sigs keys (sc_sighash_preimage ctx)) m) :: s.
Proof using Hkeys Hm.
  intros Hn H. rewrite (run_script_eq _ _ _ _ _ (length_items Hn)) in H. unfold multisig_script in H.
  apply run_pushes_Ok in H; [|apply multisig_pushable]. apply run_Ok in H as (st' & ex' & [H1 ->]%multisig_op_Ok & H); [|done].
  rewrite run_nil in H. injection H as <-. unfold multisig_items in H1. rewrite reverse_cons, reverse_app in H1. cbn [reverse rev_append app] in H1.
  rewrite <- app_assoc in H1. cbn [app] in H1. rewrite check_multisig_eq in H1 by done.
  apply rbind_Ok in H1 as ([sigs s] & [-> Hs]%pop_n_Ok & [-> _]%push_Ok). exists (reverse sigs), s.
  by rewrite reverse_involutive, length_reverse.
Qed.
Lemma multisig_run_open sigs ctx :
  (length keys <= 14)%nat -> length sigs = m ->
  run_script (reverse sigs) multisig_script ctx = Ok [bool_item (Nat.eqb (count_matched sigs keys (sc_sighash_preimage ctx)) m)].
Proof using Hkeys Hm.
  intros Hn Hs. rewrite (run_script_eq _ _ _ _ _ (length_items ltac:(lia))). unfold multisig_script.
  rewrite (run_pushes _ multisig_items) by (apply multisig_pushable || (unfold multisig_items; cbn; rewrite length_app, length_reverse; cbn; lia)).
  rewrite run_op by done. unfold multisig_items. rewrite reverse_cons, reverse_app. cbn [reverse rev_append app].
  rewrite <- app_assoc. cbn [app].
  rewrite multisig_eq.
  rewrite check_multisig_eq by lia. rewrite (proj2 (pop_n_Ok m _ (reverse sigs) [])) by (by rewrite app_nil_r, length_reverse).
  cbn [rbind]. rewrite push_room by (cbn; lia). cbn [rbind]. by rewrite run_nil, reverse_involutive.
Qed.
End multisig.

(** An m-of-n lock needs m signatures of different keys.  For up to fourteen
    keys, a spend opens the lock exactly when it leaves [m] signatures and
    nothing else, and they can be assigned to keys of the list in its order, each
    verifying under its own key; the scan that never returns to a key it passed
    misses no such assignment. *)
Theorem multisig_correct m keys s sig ctx :
  Forall (fun k => length k = 33%nat) keys -> (1 <= m <= length keys)%nat -> (length keys <= 14)%nat ->
  script_multisig (Z.of_nat m) keys = Ok s ->
  eval_tlt_script sig s ctx = Ok tt <->
  (length sig <= 512)%nat /\
  exists sigs, run_script [] sig ctx = Ok (reverse sigs) /\ length sigs = m /\ signed_in_order sigs keys (sc_sighash_preimage ctx).
Proof.
  intros Hk Hm Hn Hs. rewrite (multisig_shape m keys Hk Hm) in Hs by lia. injection Hs as <-. pose proof (length_multisig m keys Hk Hm) as Hlen.
  rewrite eval_plain; [|unfold is_p2sh_script|intros E; rewrite E in Hlen; cbn in Hlen; lia|rewrite Hlen; lia].
  - split.
    + intros (Hl & st & top & H1 & (sigs & s & -> & Hsl & [= -> <-])%multisig_run & Ht); [|done..|lia]. split; [done|]. exists sigs.
      rewrite app_nil_r in H1. split; [done|]. split; [done|]. rewrite is_true_bool in Ht. apply Nat.eqb_eq in Ht. apply count_matched_all. congruence.
    + intros (Hl & sigs & H1 & Hsl & Hso%count_matched_all). split; [done|]. eexists _, _. split; [exact H1|].
      split; [by apply multisig_run_open|]. rewrite is_true_bool. apply Nat.eqb_eq. congruence.
  - rewrite Hlen by lia. apply andb_false_iff; left. apply andb_false_iff; left. apply andb_false_iff; left. apply andb_false_iff; left. apply Nat.eqb_neq. lia.
Qed.
(** (finding) A lock of fifteen keys can never be opened.  [script_multisig]
    accepts fifteen keys, as its documentation says, but the program it returns is
    longer than the interpreter allows, so every spend of it is refused. *)
Theorem multisig_fifteen_unspendable m keys :
  Forall (fun k => length k = 33%nat) keys -> (1 <= m <= 15)%nat -> length keys = 15%nat ->
  exists s, script_multisig (Z.of_nat m) keys = Ok s /\ forall sig ctx, eval_tlt_script sig s ctx <> Ok tt.
Proof.
  intros Hk Hm Hn. exists (multisig_script m keys). split; [apply multisig_shape; (done || lia)|]. intros sig ctx H.
  unfold eval_tlt_script in H. apply rbind_Ok in H as ([] & _ & ([] & _ & ([] & Hc & _)%rbind_Ok)%rbind_Ok).
  unfold check_len in Hc. apply ensure_Ok, Nat.leb_le in Hc. rewrite length_multisig in Hc by (done || lia). unfold TLT_MAX_SCRIPT_LEN in Hc. lia.
Qed.

(** ** Limits of the machine *)

(** Items made by opcodes, and those pushed from scripts of a class [Q]. *)
Record item_class (P Q : Bytes -> Prop) : Prop := {
  ic_nil : P [];
  ic_small op : is_small_int op = true -> P [op - OP_1 + 1];
  ic_bool b : P (bool_item b);
  ic_hash n h : P (take n (hash_bytes h));
  ic_take n l : Q l -> (n <= 80)%nat -> P (take n l);
  ic_drop n l : Q l -> Q (drop n l);
}.
Definition stack_in (P : Bytes -> Prop) (st : list Bytes) : Prop := (length st <= 32)%nat /\ Forall P st.
Definition stack_ok : list Bytes -> Prop := stack_in pushable.

(** One turn of the loop of [run_script]: what is left to read, the opcodes it may
    still read, the stack and the branches it is in. *)
Record Machine := { m_ops : nat; m_script : Bytes; m_stack : Stack; m_exec : list bool }.
Definition turn (ctx : TltSpendContext) (m : Machine) : option (result TltScriptError Machine) :=
  match m_script m with
  | [] => None
  | op :: rest => Some
      match m_ops m with
      | O => Err TooManyOps
      | S ops =>
          if op =? OP_PUSH then
            match rest with
            | [] => Err InvalidPush
            | len :: rest =>
                if (len =? 0) || (TLT_MAX_PUSH <? len) || (Z.of_nat (length rest) <? len) then Err InvalidPush
                else
                  let? stack := (if executing (m_exec m) then push (m_stack m) (take (Z.to_nat len) rest) else Ok (m_stack m)) in
                  Ok {| m_ops := ops; m_script := drop (Z.to_nat len) rest; m_stack := stack; m_exec := m_exec m |}
            end
          else if negb (executing (m_exec m)) && negb ((op =? OP_IF) || (op =? OP_ELSE) || (op =? OP_ENDIF)) then
            ensure (is_small_int op || (op =? OP_0) || (op =? OP_NOP) || known_opcode op) (UnknownOpcode op) ;?
            Ok {| m_ops := ops; m_script := rest; m_stack := m_stack m; m_exec := m_exec m |}
          else
            let? (stack, exec) := exec_op op (m_stack m) (m_exec m) ctx in
            Ok {| m_ops := ops; m_script := rest; m_stack := stack; m_exec := exec |}
      end
  end.
Definition turns_to (ctx : TltSpendContext) (m m' : Machine) : Prop := turn ctx m = Some (Ok m').
Definition run_from (ctx : TltSpendContext) (m : Machine) : result TltScriptError Stack :=
  run_ops (m_ops m) (m_script m) (m_stack m) (m_exec m) ctx.
Lemma run_script_from st script ctx :
  run_script st script ctx = run_from ctx {| m_ops := TLT_MAX_OPS; m_script := script; m_stack := st; m_exec := [] |}.
Proof. unfold run_script, run_from. cbn [m_ops m_script m_stack m_exec]. reflexivity. Qed.
(** The interpreter is the repetition of turns. *)
Lemma run_turn ctx m :
  run_from ctx m =
  match turn ctx m with
  | None => match m_exec m with [] => Ok (m_stack m) | _ => Err UnbalancedIf end
  | Some (Err e) => Err e
  | Some (Ok m') => run_from ctx m'
  end.
Proof.
  destruct m as [ops script st ex]. unfold turn, run_from. cbn [m_ops m_script m_stack m_exec]. destruct ops as [|ops], script as [|op rest]; try done.
  cbn [run_ops]. destruct (op =? OP_PUSH).
  - destruct rest as [|len rest]; [done|]. destruct (_ || _); [done|]. by destruct (if executing ex then _ else _).
  - destruct (_ && _); [destruct (is_small_int op || (op =? OP_0) || (op =? OP_NOP)); [done|]; by destruct (known_opcode op)|].
    by destruct (exec_op op st ex ctx) as [[? ?]|].
Qed.
Lemma run_turns ctx n m m' : nsteps (turns_to ctx) n m m' -> run_from ctx m = run_from ctx m' /\ (m_ops m = n + m_ops m')%nat.
Proof.
  induction 1 as [|n m m1 m2 H _ [IH1 IH2]]; [done|]. split; [by rewrite run_turn, H|].
  unfold turns_to, turn in H. destruct m as [[|ops] [|op rest] st ex]; try discriminate H. cbn [m_ops m_script m_stack m_exec] in *.
  enough (m_ops m1 = ops) by lia. clear IH1 IH2. injection H as H. destruct (op =? OP_PUSH).
  - destruct rest as [|len rest]; [done|]. destruct (_ || _); [done|]. apply rbind_Ok in H as (? & _ & H). by apply Ok_inj in H as <-.
  - destruct (_ && _); [apply rbind_Ok in H as (? & _ & H); by apply Ok_inj in H as <-|].
    apply rbind_Ok in H as ([? ?] & _ & H). by apply Ok_inj in H as <-.
Qed.
(** A run that succeeds is a sequence of turns to the end of the script. *)
Lemma run_reaches ctx m st' :
  run_from ctx m = Ok st' -> exists n m', nsteps (turns_to ctx) n m m' /\ m_script m' = [] /\ m_exec m' = [] /\ m_stack m' = st'.
Proof.
  remember (m_ops m) as k eqn:Ek. revert m Ek. induction k as [|k IH]; intros m Ek H; rewrite run_turn in H.
  - destruct (turn ctx m) as [[m'|e]|] eqn:Et; [|done|].
    + unfold turn in Et. rewrite <- Ek in Et. by destruct (m_script m).
    + exists 0%nat, m. split; [constructor|]. unfold turn in Et. destruct (m_script m); [|done]. destruct (m_exec m); [by injection H as <-|done].
  - destruct (turn ctx m) as [[m'|e]|] eqn:Et; [|done|].
    + destruct (run_turns ctx 1 m m') as [_ Ho]; [by apply nsteps_once|]. destruct (IH m') as (n & m2 & Hn & Hm); [lia|done|].
      exists (S n), m2. split; [by econstructor|done].
    + exists 0%nat, m. split; [constructor|]. unfold turn in Et. destruct (m_script m); [|done]. destruct (m_exec m); [by injection H as <-|done].
Qed.

Section items.
Variables P Q : Bytes -> Prop.
Hypothesis HP : item_class P Q.
Lemma item_bool b : P (bool_item b).
Proof. apply (ic_bool _ _ HP). Qed.
Lemma item_hash h : P (hash_bytes h).
Proof. rewrite <- (take_ge (hash_bytes h) 32) by by rewrite length_hash_bytes. apply (ic_hash _ _ HP). Qed.
Lemma push_ok st x st' : stack_in P st -> P x -> push st x = Ok st' -> stack_in P st'.
Proof. intros [H1 H2] Hx [-> Hl]%push_Ok. unfold TLT_MAX_STACK in Hl. split; [cbn; lia|by constructor]. Qed.
Lemma pop_ok st x st' : stack_in P st -> pop st = Ok (x, st') -> stack_in P st' /\ P x.
Proof. intros [H1 H2] ->%pop_Ok. cbn in H1. apply Forall_cons in H2 as [Hx H2]. split; [split; [lia|done]|done]. Qed.
Lemma pop_n_ok n st l st' : stack_in P st -> pop_n n st = Ok (l, st') -> stack_in P st'.
Proof. intros [H1 H2] [-> _]%pop_n_Ok. rewrite length_app in H1. apply Forall_app in H2 as [_ H2]. split; [lia|done]. Qed.
Lemma check_multisig_ok st ctx st' : stack_in P st -> check_multisig st ctx = Ok st' -> stack_in P st'.
Proof.
  intros Hok H. unfold check_multisig in H. apply rbind_Ok in H as ([x s] & H1 & H). destruct (pop_ok _ _ _ Hok H1) as [Hs _].
  apply rbind_Ok in H as (n & _ & H). apply rbind_Ok in H as ([l s1] & H2 & H). pose proof (pop_n_ok _ _ _ _ Hs H2) as Hs1.
  apply rbind_Ok in H as ([y s2] & H3 & H). destruct (pop_ok _ _ _ Hs1 H3) as [Hs2 _]. apply rbind_Ok in H as (m & _ & H).
  apply rbind_Ok in H as ([] & _ & H). apply rbind_Ok in H as ([l' s3] & H4 & H). pose proof (pop_n_ok _ _ _ _ Hs2 H4) as Hs3.
  exact (push_ok _ _ _ Hs3 (item_bool _) H).
Qed.
Lemma keep_ok st x ex st' ex' :
  stack_in P st -> (length ex <= 8)%nat -> P x -> rbind (push st x) (fun st => Ok (st, ex)) = Ok (st', ex') ->
  stack_in P st' /\ (length ex' <= 8)%nat.
Proof. intros Hs He Hx [H ->]%exec_keep. split; [by eapply push_ok|done]. Qed.
(** An item taken off a stack within the limits. *)
Local Ltac popped H s x :=
  let E := fresh "E" in apply rbind_Ok in H as ([x s] & E & H);
  let Hs := fresh "Hs" in let Hx := fresh "Hx" in match goal with K : stack_in P _ |- _ => destruct (pop_ok _ _ _ K E) as [Hs Hx]; clear K E end.
(** One opcode keeps the limits. *)
Lemma exec_op_ok op st ex ctx st' ex' :
  stack_in P st -> (length ex <= 8)%nat -> exec_op op st ex ctx = Ok (st', ex') -> stack_in P st' /\ (length ex' <= 8)%nat.
Proof.
  intros Hok Hex H. unfold exec_op in H.
  destruct (op =? OP_0). { exact (keep_ok _ _ _ _ _ Hok Hex (ic_nil _ _ HP) H). }
  destruct (is_small_int op) eqn:Hsm. { exact (keep_ok _ _ _ _ _ Hok Hex (ic_small _ _ HP _ Hsm) H). }
  destruct (op =? OP_NOP). { apply Ok_inj, pair_eq in H as [<- <-]. split; assumption. }
  destruct (op =? OP_IF).
  { apply rbind_Ok in H as ([] & H0 & H). apply ensure_Ok, negb_true_iff, Nat.leb_gt in H0. unfold TLT_MAX_IF_DEPTH in H0. destruct (executing ex).
    - popped H s x. apply Ok_inj, pair_eq in H as [<- <-]. split; [assumption|cbn; lia].
    - apply Ok_inj, pair_eq in H as [<- <-]. split; [assumption|cbn; lia]. }
  destruct (op =? OP_ELSE). { destruct ex as [|t ex]; [discriminate H|]. apply Ok_inj, pair_eq in H as [<- <-]. split; assumption. }
  destruct (op =? OP_ENDIF). { destruct ex as [|t ex]; [discriminate H|]. apply Ok_inj, pair_eq in H as [<- <-]. cbn in Hex. split; [assumption|lia]. }
  destruct (op =? OP_VERIFY). { popped H s x. apply rbind_Ok in H as ([] & _ & H). apply Ok_inj, pair_eq in H as [<- <-]. split; assumption. }
  destruct (op =? OP_RETURN); [discriminate H|].
  destruct (op =? OP_DROP). { popped H s x. apply Ok_inj, pair_eq in H as [<- <-]. split; assumption. }
  destruct (op =? OP_DUP).
  { apply rbind_Ok in H as ([x s] & H1 & H). destruct (pop_ok _ _ _ Hok H1) as [_ Hx]. exact (keep_ok _ _ _ _ _ Hok Hex Hx H). }
  destruct (op =? OP_EQUAL). { popped H s x. popped H s1 y. exact (keep_ok _ _ _ _ _ Hs0 Hex (item_bool _) H). }
  destruct (op =? OP_EQUALVERIFY).
  { popped H s x. popped H s1 y. apply rbind_Ok in H as ([] & _ & H). apply Ok_inj, pair_eq in H as [<- <-]. split; assumption. }
  destruct (op =? OP_SHA256). { popped H s x. exact (keep_ok _ _ _ _ _ Hs Hex (item_hash _) H). }
  destruct (op =? OP_PUBKEYHASH). { popped H s x. exact (keep_ok _ _ _ _ _ Hs Hex (ic_hash _ _ HP _ _) H). }
  destruct (op =? OP_CHECKSIG). { popped H s x. popped H s1 y. exact (keep_ok _ _ _ _ _ Hs0 Hex (item_bool _) H). }
  destruct (op =? OP_CHECKMULTISIG). { apply exec_keep in H as [H ->]. split; [exact (check_multisig_ok _ _ _ Hok H)|exact Hex]. }
  destruct (op =? OP_CHECKLOCKTIMEVERIFY). { apply rbind_Ok in H as ([] & _ & H). apply Ok_inj, pair_eq in H as [<- <-]. split; assumption. }
  destruct (op =? OP_CHECKSEQUENCEVERIFY); [|discriminate H]. apply rbind_Ok in H as ([] & _ & H). apply Ok_inj, pair_eq in H as [<- <-]. split; assumption.
Qed.
(** One turn keeps the limits. *)
Definition machine_in (m : Machine) : Prop := stack_in P (m_stack m) /\ (length (m_exec m) <= 8)%nat /\ Q (m_script m).
Lemma turn_ok ctx m m' : machine_in m -> turns_to ctx m m' -> machine_in m'.
Proof.
  intros (Hok & Hex & Hq) H. unfold turns_to, turn in H. destruct m as [[|ops] [|op rest] st ex]; try discriminate H.
  cbn [m_ops m_script m_stack m_exec] in *. injection H as H. pose proof (ic_drop _ _ HP 1 _ Hq) as Hr. cbn in Hr. destruct (op =? OP_PUSH).
  - destruct rest as [|len rest]; [done|]. destruct (_ || _) eqn:El; [done|]. pose proof (ic_drop _ _ HP 1 _ Hr) as Hr'. cbn in Hr'.
    apply rbind_Ok in H as (s & H1 & H). apply Ok_inj in H as <-. apply orb_false_iff in El as [[_ Hp%Z.ltb_ge]%orb_false_iff _]. unfold TLT_MAX_PUSH in Hp.
    split; [|split; [done|by apply (ic_drop _ _ HP)]]. cbn [m_stack]. destruct (executing ex); [|by injection H1 as <-].
    refine (push_ok _ _ _ Hok _ H1). apply (ic_take _ _ HP); [done|lia].
  - destruct (_ && _); [apply rbind_Ok in H as (? & _ & H); by apply Ok_inj in H as <-|].
    apply rbind_Ok in H as ([s e] & H1 & H). apply Ok_inj in H as <-. destruct (exec_op_ok _ _ _ _ _ _ Hok Hex H1) as [Hs He]. done.
Qed.
Lemma turns_ok ctx n m m' : machine_in m -> nsteps (turns_to ctx) n m m' -> machine_in m'.
Proof. intros Hm. induction 1; [done|]. eauto using turn_ok. Qed.
End items.

Definition is_byte (b : Z) : Prop := 0 <= b < 256.
Lemma pushable_class : item_class pushable (fun _ => True).
Proof.
  split; try done; unfold pushable; intros.
  - cbn. lia.
  - cbn. lia.
  - destruct b; cbn; lia.
  - rewrite length_take, length_hash_bytes. lia.
  - rewrite length_take. lia.
Qed.
Lemma le_bytes_bytes n x : Forall is_byte (le_bytes n x).
Proof. revert x. induction n as [|n IH]; intros x; cbn; constructor; [|done]. unfold is_byte. pose proof (Z.mod_pos_bound x 256). lia. Qed.
Lemma hash_bytes_bytes h : Forall is_byte (hash_bytes h).
Proof. unfold hash_bytes. apply Forall_reverse, le_bytes_bytes. Qed.
Definition item_ok (x : Bytes) : Prop := (length x <= 80)%nat /\ Forall is_byte x.
Lemma bytes_class : item_class item_ok (Forall is_byte).
Proof.
  pose proof pushable_class as C. split.
  - split; [apply (ic_nil _ _ C)|constructor].
  - intros op H. split; [by apply (ic_small _ _ C)|]. unfold is_small_int in H. apply andb_true_iff in H as [H1%Z.leb_le H2%Z.leb_le].
    repeat constructor; unfold OP_1, OP_16 in *; lia.
  - intros b. split; [apply (ic_bool _ _ C)|]. destruct b; repeat constructor; lia.
  - intros n h. split; [by apply (ic_hash _ _ C)|]. apply Forall_take, hash_bytes_bytes.
  - intros n l Hl Hn. split; [by apply (ic_take _ _ C)|by apply Forall_take].
  - intros n l. apply Forall_drop.
Qed.

Lemma run_script_ok st script ctx st' : stack_ok st -> run_script st script ctx = Ok st' -> stack_ok st'.
Proof.
  intros Hok H. rewrite run_script_from in H. destruct (run_reaches ctx {| m_ops := TLT_MAX_OPS; m_script := script; m_stack := st; m_exec := [] |} st' H) as (n & m' & Hn & _ & _ & <-).
  refine (proj1 (turns_ok _ _ pushable_class ctx n _ m' _ Hn)). split; [done|]. split; [cbn; lia|done].
Qed.
Lemma empty_stack_ok : stack_ok [].
Proof. split; [cbn; lia|constructor]. Qed.
(** C20: The machine stays within its limits.  Start the interpreter on a script of
    bytes with a stack of at most 32 items of at most 80 bytes each.  At every turn
    of its loop the stack has at most 32 items, each at most 80 bytes in the range
    of a byte, the branches are nested at most 8 deep, and the turns so far are at
    most 64 and are those the budget lost; the run continues from there to the
    same result.  A run that succeeds ends so, at the end of the script outside
    any branch, with that stack. *)
Theorem script_values_bounded st script ctx :
  (length st <= 32)%nat -> Forall item_ok st -> Forall is_byte script ->
  let start := {| m_ops := TLT_MAX_OPS; m_script := script; m_stack := st; m_exec := [] |} in
  (forall n m, nsteps (turns_to ctx) n start m ->
     run_script st script ctx = run_from ctx m /\ (n <= 64)%nat /\ m_ops m = (64 - n)%nat /\
     (length (m_stack m) <= 32)%nat /\ Forall item_ok (m_stack m) /\ (length (m_exec m) <= 8)%nat) /\
  (forall st', run_script st script ctx = Ok st' ->
     exists n m, nsteps (turns_to ctx) n start m /\ m_script m = [] /\ m_exec m = [] /\ m_stack m = st').
Proof.
  intros Hl Hi Hb start. split.
  - intros n m Hn. destruct (run_turns ctx n start m Hn) as [Hr Ho]. cbn [m_ops start] in Ho. unfold TLT_MAX_OPS in Ho.
    destruct (turns_ok _ _ bytes_class ctx n start m) as ((H1 & H2) & H3 & _); [|exact Hn|].
    { split; [done|]. split; [cbn; lia|done]. }
    rewrite run_script_from. split; [exact Hr|]. clear Hr. split_and!; (assumption || lia).
  - intros st' H. rewrite run_script_from in H. exact (run_reaches ctx start st' H).
Qed.

(** ** Pay to a script *)

Lemma p2sh_shape r : (script_p2sh r).1 = OP_SHA256 :: push_bytes (hash_bytes (sha256 r)) ++ [OP_EQUAL].
Proof. unfold script_p2sh. cbn [fst]. rewrite push_data_app by apply pushable_hash. reflexivity. Qed.
Lemma hash_push h : push_bytes (hash_bytes h) = OP_PUSH :: 32 :: hash_bytes h.
Proof.
  pose proof (length_hash_bytes h) as Hl. unfold push_bytes, push_data. destruct (hash_bytes h) as [|a [|b l]]; [discriminate Hl..|].
  rewrite Hl. reflexivity.
Qed.
Lemma length_p2sh r : length (script_p2sh r).1 = 36%nat.
Proof. rewrite p2sh_shape, hash_push. cbn [length]. rewrite length_app. cbn [length]. rewrite length_hash_bytes. done. Qed.
Lemma is_p2sh_p2sh r : is_p2sh_script (script_p2sh r).1 = true.
Proof.
  unfold is_p2sh_script. rewrite length_p2sh, p2sh_shape, hash_push. generalize (hash_bytes (sha256 r)) (length_hash_bytes (sha256 r)). intros l Hl.
  do 32 (destruct l as [|? l]; [discriminate Hl|]). destruct l; [reflexivity|discriminate Hl].
Qed.
Lemma list_eq_cons2 {A} (a b c d : A) l k : a :: b :: l = c :: d :: k -> a = c /\ b = d /\ l = k.
Proof. by intros [= -> -> ->]. Qed.
Lemma run_p2sh st r ctx out :
  run_script st (script_p2sh r).1 ctx = Ok out <->
  exists x s, st = x :: s /\ (length s <= 30)%nat /\ out = bool_item (bool_decide (hash_bytes (sha256 r) = hash_bytes (sha256 x))) :: s.
Proof.
  rewrite p2sh_shape. unfold run_script, TLT_MAX_OPS. split.
  - intros H. apply run_Ok in H as (s1 & e1 & (x & s & -> & -> & ->)%sha256_Ok & H); [|done]. rewrite run_push in H by apply pushable_hash.
    cbn [executing forallb] in H. apply rbind_Ok in H as (s2 & [-> Hl]%push_Ok & H). cbn in Hl. unfold TLT_MAX_STACK in Hl.
    apply run_Ok in H as (s3 & e3 & (a & b & s' & Heq & -> & ->)%equal_Ok & H); [|done].
    apply list_eq_cons2 in Heq as (<- & <- & <-). rewrite run_nil in H. apply Ok_inj in H as <-.
    exists x, s. split; [reflexivity|]. split; [lia|reflexivity].
  - intros (x & s & -> & Hl & ->). rewrite run_op by done. rewrite sha256_eq, push_room by lia. cbn [rbind]. rewrite run_push by apply pushable_hash.
    cbn [executing forallb]. rewrite push_room by (cbn; lia). cbn [rbind]. rewrite run_op by done. rewrite equal_eq, push_room by (cbn; lia).
    cbn [rbind]. apply run_nil.
Qed.
Lemma p2sh_open redeem sig ctx :
  eval_tlt_script sig (script_p2sh redeem).1 ctx = Ok tt <->
  (length sig <= 512)%nat /\ is_push_only sig = Ok true /\
  exists program below top, run_script [] sig ctx = Ok (program :: below) /\ (length below <= 30)%nat /\
    hash_bytes (sha256 program) = hash_bytes (sha256 redeem) /\ run_script below program ctx = Ok [top] /\ is_true top = true.
Proof.
  unfold eval_tlt_script, check_len, TLT_MAX_SCRIPT_LEN. rewrite is_p2sh_p2sh, length_p2sh. change (36 <=? 512)%nat with true. cbn [Nat.eqb negb ensure rbind]. split.
  - intros H. apply rbind_Ok in H as ([] & H1%ensure_Ok%Nat.leb_le & H). split; [done|]. apply rbind_Ok in H as (st & H2 & H).
    apply rbind_Ok in H as (st' & H3 & [H4 H5]%ensure_Ok%andb_true_iff). apply rbind_Ok in H3 as ([] & H6 & H3).
    2: { apply rbind_Ok in H3 as ([] & K%ensure_Ok & _). discriminate K. }
    split; [done|]. apply rbind_Ok in H3 as ([] & _ & H3). apply rbind_Ok in H3 as ([prog below] & ->%pop_Ok & H3).
    apply rbind_Ok in H3 as ([] & _ & H3). apply rbind_Ok in H3 as (st2 & (x & s & [= <- <-] & Hl & ->)%run_p2sh & H3).
    apply rbind_Ok in H3 as ([] & Ht%ensure_Ok & H3). cbn [top_true tail] in Ht, H3. rewrite is_true_bool in Ht. apply bool_decide_eq_true in Ht.
    destruct st' as [|top [|? ?]]; try done. by exists prog, below, top.
  - intros (Hl & Hp & prog & below & top & H1 & Hb & Hh & H2 & Ht). rewrite (proj2 (Nat.leb_le _ _) Hl). cbn [ensure rbind]. rewrite H1. cbn [rbind].
    rewrite Hp. cbn [ensure rbind pop]. assert (stack_ok (prog :: below)) as [_ Hk].
    { exact (run_script_ok [] sig ctx _ empty_stack_ok H1). }
    apply Forall_cons in Hk as [Hk _]. unfold pushable in Hk. rewrite (proj2 (Nat.leb_le (length prog) 512)) by lia. cbn [ensure rbind].
    rewrite (proj2 (run_p2sh _ redeem ctx _)) by (by exists prog, below). cbn [rbind top_true tail]. rewrite is_true_bool, bool_decide_eq_true_2 by done.
    cbn [ensure rbind]. rewrite H2. cbn. by rewrite Ht.
Qed.
(** Paying to a script is paying to a program of that hash.  A spend opens the
    lock exactly when it only pushes, its last item is a program of the committed
    hash, at most thirty items lie below it, and the program run on those leaves
    a single true item. *)
Theorem p2sh_correct redeem sig ctx :
  eval_tlt_script sig (script_p2sh redeem).1 ctx = Ok tt <->
  (length sig <= 512)%nat /\ is_push_only sig = Ok true /\
  exists program below top, run_script [] sig ctx = Ok (program :: below) /\ (length below <= 30)%nat /\
    hash_bytes (sha256 program) = hash_bytes (sha256 redeem) /\ run_script below program ctx = Ok [top] /\ is_true top = true.
Proof. apply p2sh_open. Qed.
(** (finding) A program of more than eighty bytes cannot be paid to by hash.
    [script_p2sh] commits to programs of any length and the interpreter's own
    limit for them is 512 bytes, but the program has to be pushed by the spend, and
    a push holds eighty bytes: unless another program has the same hash, no spend
    opens the lock.  Every hash-time lock and every multisig lock of three or more
    keys is longer than that. *)
Theorem p2sh_long_program_unspendable redeem :
  (80 < length redeem)%nat -> (forall other, hash_bytes (sha256 other) = hash_bytes (sha256 redeem) -> other = redeem) ->
  forall sig ctx, eval_tlt_script sig (script_p2sh redeem).1 ctx <> Ok tt.
Proof.
  intros Hl Hinj sig ctx (_ & _ & prog & below & top & H1 & _ & ->%Hinj & _)%p2sh_open.
  assert (stack_ok (redeem :: below)) as [_ Hk].
  { exact (run_script_ok [] sig ctx _ empty_stack_ok H1). }
  apply Forall_cons in Hk as [Hk _]. unfold pushable in Hk. lia.
Qed.

(** ** Time only opens locks *)

(** The same spend of the same output, at a later score and time. *)
Record later (ctx ctx' : TltSpendContext) : Prop := {
  lt_sighash : sc_sighash_preimage ctx' = sc_sighash_preimage ctx;
  lt_lock : sc_lock_time ctx' = sc_lock_time ctx;
  lt_sequence : sc_sequence ctx' = sc_sequence ctx;
  lt_origin : sc_origin ctx' = sc_origin ctx;
  lt_score : sc_spend_blue_score ctx <= sc_spend_blue_score ctx';
  lt_time : sc_median_time_past_secs ctx <= sc_median_time_past_secs ctx';
}.
Lemma check_locktime_later st ctx ctx' u : later ctx ctx' -> check_locktime st ctx = Ok u -> check_locktime st ctx' = Ok u.
Proof.
  intros [_ Hl Hs _ Hb Ht] H. unfold check_locktime in *. rewrite Hl, Hs.
  apply rbind_Ok in H as ([] & -> & H). cbn [rbind]. apply rbind_Ok in H as ([top s] & -> & H). cbn [rbind]. apply rbind_Ok in H as (req & -> & H). cbn [rbind].
  apply rbind_Ok in H as ([] & -> & H). cbn [rbind]. apply rbind_Ok in H as ([] & -> & H). cbn [rbind].
  destruct (locktime_is_time (sc_lock_time ctx)); apply ensure_Ok, negb_true_iff, Z.ltb_ge in H; apply ensure_Ok, negb_true_iff, Z.ltb_ge; lia.
Qed.
Lemma check_sequence_later st ctx ctx' u : later ctx ctx' -> check_sequence st ctx = Ok u -> check_sequence st ctx' = Ok u.
Proof.
  intros [_ _ Hs Ho Hb Ht] H. unfold check_sequence in *. rewrite Hs, Ho.
  apply rbind_Ok in H as ([top s] & -> & H). cbn [rbind]. apply rbind_Ok in H as (op & -> & H). cbn [rbind].
  destruct (negb (Z.land op TLT_SEQUENCE_DISABLE_FLAG =? 0)); [exact H|].
  apply rbind_Ok in H as ([] & -> & H). cbn [rbind]. apply rbind_Ok in H as ([] & -> & H). cbn [rbind]. apply rbind_Ok in H as ([] & -> & H). cbn [rbind].
  destruct (negb (Z.land op TLT_SEQUENCE_TIME_FLAG =? 0)); apply ensure_Ok, negb_true_iff, Z.ltb_ge in H; apply ensure_Ok, negb_true_iff, Z.ltb_ge.
  - etrans; [exact H|]. apply Z.div_le_mono; [reflexivity|]. unfold saturating_sub. lia.
  - unfold saturating_sub in *. lia.
Qed.
Lemma exec_op_later op st ex ctx ctx' r : later ctx ctx' -> exec_op op st ex ctx = Ok r -> exec_op op st ex ctx' = Ok r.
Proof.
  intros Hl H. unfold exec_op in *.
  repeat match type of H with (if ?b then _ else _) = _ => lazymatch b with executing _ => fail | _ => destruct b; [try exact H|] end end.
  - rewrite (lt_sighash _ _ Hl). exact H.
  - unfold check_multisig in *. rewrite (lt_sighash _ _ Hl). exact H.
  - apply rbind_Ok in H as (u & H1 & H). rewrite (check_locktime_later _ _ _ _ Hl H1). exact H.
  - apply rbind_Ok in H as (u & H1 & H). rewrite (check_sequence_later _ _ _ _ Hl H1). exact H.
  - exact H.
Qed.
Lemma run_ops_later n script st ex ctx ctx' r :
  later ctx ctx' -> run_ops n script st ex ctx = Ok r -> run_ops n script st ex ctx' = Ok r.
Proof.
  intros Hl. revert script st ex. induction n as [|n IH]; intros script st ex H; destruct script as [|op rest]; cbn [run_ops] in *; try exact H.
  destruct (op =? OP_PUSH).
  - destruct rest as [|len rest]; [discriminate H|]. destruct (_ || _); [discriminate H|].
    apply rbind_Ok in H as (s & -> & H). cbn [rbind]. exact (IH _ _ _ H).
  - destruct (_ && _).
    + destruct (_ || _); [exact (IH _ _ _ H)|]. apply rbind_Ok in H as ([] & -> & H). cbn [rbind]. exact (IH _ _ _ H).
    + apply rbind_Ok in H as ([s e] & H1 & H). rewrite (exec_op_later _ _ _ _ _ _ Hl H1). cbn [rbind]. exact (IH _ _ _ H).
Qed.
Lemma run_script_later st script ctx ctx' r : later ctx ctx' -> run_script st script ctx = Ok r -> run_script st script ctx' = Ok r.
Proof. intros Hl. rewrite !(run_script_eq 0 64) by reflexivity. exact (run_ops_later _ _ _ _ _ _ _ Hl). Qed.
(** A spend that is allowed stays allowed.  Absolute and relative locks are
    only ever opened by the passage of blue score and median time: an input that
    evaluates successfully does so at any later point. *)
Theorem spend_stays_valid sig s ctx ctx' :
  later ctx ctx' -> eval_tlt_script sig s ctx = Ok tt -> eval_tlt_script sig s ctx' = Ok tt.
Proof.
  intros Hl H. unfold eval_tlt_script in *. apply rbind_Ok in H as ([] & -> & H). cbn [rbind]. apply rbind_Ok in H as ([] & -> & H). cbn [rbind].
  apply rbind_Ok in H as ([] & -> & H). cbn [rbind]. apply rbind_Ok in H as (st & H1 & H). rewrite (run_script_later _ _ _ _ _ Hl H1). cbn [rbind].
  apply rbind_Ok in H as (st2 & H2 & H). apply rbind_Ok. exists st2. split; [|exact H]. destruct (is_p2sh_script s).
  - apply rbind_Ok in H2 as (only & -> & H2). cbn [rbind]. apply rbind_Ok in H2 as ([] & -> & H2). cbn [rbind].
    apply rbind_Ok in H2 as ([r below] & -> & H2). cbn [rbind]. apply rbind_Ok in H2 as ([] & -> & H2). cbn [rbind].
    apply rbind_Ok in H2 as (st3 & H3 & H2). rewrite (run_script_later _ _ _ _ _ Hl H3). cbn [rbind].
    apply rbind_Ok in H2 as ([] & -> & H2). cbn [rbind]. exact (run_script_later _ _ _ _ _ Hl H2).
  - exact (run_script_later _ _ _ _ _ Hl H2).
Qed.

(** ** Witness programs *)

Lemma push_only_raw fuel l rest :
  (1 <= length l <= 80)%nat -> is_push_only_from (S fuel) (OP_PUSH :: Z.of_nat (length l) :: l ++ rest) = is_push_only_from fuel rest.
Proof.
  intros Hl. cbn [is_push_only_from]. change ((OP_PUSH =? OP_0) || is_small_int OP_PUSH) with false. rewrite Z.eqb_refl. cbn iota.
  assert ((Z.of_nat (length l) =? 0) || (TLT_MAX_PUSH <? Z.of_nat (length l)) || (Z.of_nat (length (l ++ rest)) <? Z.of_nat (length l)) = false) as ->.
  { apply not_true_iff_false. rewrite length_app. unfold TLT_MAX_PUSH. rewrite !orb_true_iff, Z.eqb_eq, !Z.ltb_lt. lia. }
  by rewrite Nat2Z.id, drop_app_length.
Qed.
Lemma push_only_step fuel d rest : pushable d -> is_push_only_from (S fuel) (push_bytes d ++ rest) = is_push_only_from fuel rest.
Proof.
  intros Hd. unfold push_bytes, push_data. destruct d as [|b [|c d]].
  - reflexivity.
  - destruct ((1 <=? b) && (b <=? 16)) eqn:Hb; cbn [expect_push app]; [|exact (push_only_raw fuel [b] rest ltac:(cbn; lia))]. cbn [is_push_only_from].
    assert ((OP_1 + b - 1 =? OP_0) || is_small_int (OP_1 + b - 1) = true) as ->; [|reflexivity].
    apply andb_true_iff in Hb as [H1%Z.leb_le H2%Z.leb_le]. apply orb_true_iff. right. unfold is_small_int, OP_1, OP_16.
    apply andb_true_iff. rewrite !Z.leb_le. lia.
  - unfold pushable in Hd. assert ((Z.of_nat (length (b :: c :: d)) <=? TLT_MAX_PUSH) = true) as -> by (apply Z.leb_le; unfold TLT_MAX_PUSH; lia).
    cbn [ensure rbind expect_push]. apply (push_only_raw fuel (b :: c :: d)). cbn in *. lia.
Qed.
Lemma push_only_pushes k items : Forall pushable items -> is_push_only_from (length items + k) (pushes items) = Ok true.
Proof.
  induction 1 as [|d items Hd _ IH]; [by destruct k|]. cbn [pushes length Nat.add]. by rewrite push_only_step.
Qed.
Lemma length_pushes items : Forall pushable items -> (length items <= length (pushes items))%nat.
Proof.
  induction 1 as [|d items Hd _ IH]; [done|]. cbn [pushes length]. rewrite length_app. assert (1 <= length (push_bytes d))%nat; [|lia].
  destruct (decide (2 <= length d)%nat) as [Hl|Hl]; [rewrite length_push_bytes; unfold pushable in Hd; lia|].
  unfold push_bytes, push_data. destruct d as [|b [|c d]]; [cbn; lia|destruct (_ && _); cbn; lia|cbn in Hl; lia].
Qed.
(** What is pushed is what is read.  The program [push_data] writes for up to
    32 items of up to 80 bytes consists of pushes only, and running it leaves
    exactly those items, the last on top. *)
Theorem push_data_roundtrip items ctx :
  Forall (fun item => (length item <= 80)%nat) items -> (length items <= 32)%nat ->
  exists script, rfold push_data [] items = Ok script /\ is_push_only script = Ok true /\ run_script [] script ctx = Ok (reverse items).
Proof.
  intros Hp Hl. exists (pushes items). split; [by apply (push_all [])|]. split.
  - unfold is_push_only. replace (length (pushes items)) with (length items + (length (pushes items) - length items))%nat; [by apply push_only_pushes|].
    pose proof (length_pushes items Hp). lia.
  - rewrite (run_script_eq (length items) (64 - length items)) by lia. rewrite <- (app_nil_r (pushes items)), run_pushes by (done || (cbn; lia)).
    by rewrite run_nil, app_nil_r.
Qed.

(** ** The template of an address lock *)

Lemma le_bytes_le_value bs : Forall is_byte bs -> le_bytes (length bs) (le_value bs) = bs.
Proof.
  induction 1 as [|b bs Hb _ IH]; [reflexivity|]. cbn [length le_bytes le_value foldr]. change (foldr (fun b v => b + 256 * v) 0 bs) with (le_value bs).
  unfold is_byte in Hb. replace (b + 256 * le_value bs) with (b + le_value bs * 256) by lia.
  rewrite Z.mod_add, Z.div_add, Z.mod_small, Z.div_small by lia. by rewrite Z.add_0_l, IH.
Qed.
Lemma le_value_range bs : Forall is_byte bs -> 0 <= le_value bs < 256 ^ Z.of_nat (length bs).
Proof.
  induction 1 as [|b bs Hb _ IH]; [cbn; lia|]. cbn [length le_value foldr]. change (foldr (fun b v => b + 256 * v) 0 bs) with (le_value bs).
  rewrite Nat2Z.inj_succ, Z.pow_succ_r by lia. unfold is_byte in Hb. lia.
Qed.
Lemma address_of_bytes_le bs : address_of_bytes bs = le_value (reverse bs).
Proof.
  unfold address_of_bytes. induction bs as [|b bs IH] using rev_ind; [reflexivity|]. rewrite foldl_app, reverse_snoc. cbn. rewrite IH.
  unfold le_value. lia.
Qed.
Lemma address_bytes_back bs : Forall is_byte bs -> length bs = 20%nat -> address_bytes (address_of_bytes bs) = bs.
Proof.
  intros Hb Hl. rewrite address_of_bytes_le. unfold address_bytes. replace 20%nat with (length (reverse bs)) by (by rewrite length_reverse).
  rewrite le_bytes_le_value; [apply reverse_involutive|]. by apply Forall_reverse.
Qed.
Lemma address_of_address_bytes a : is_address a -> address_of_bytes (address_bytes a) = a.
Proof.
  intros Ha. rewrite address_of_bytes_le. unfold address_bytes. rewrite reverse_involutive. apply le_value_le_bytes. exact Ha.
Qed.
Lemma address_push a : push_bytes (address_bytes a) = OP_PUSH :: 20 :: address_bytes a.
Proof.
  pose proof (length_address_bytes a) as Hl. unfold push_bytes, push_data. destruct (address_bytes a) as [|x [|y l]]; [discriminate Hl..|].
  rewrite Hl. reflexivity.
Qed.
(** The template of an address is recognized and read back.  A script of bytes
    is taken for the lock of an address exactly when it is the program the
    library writes for that address, so an output stored by its address keeps the
    lock its script had. *)
Theorem p2pkh_template_roundtrip script a :
  Forall is_byte script -> is_address a -> p2pkh_address script = Some a <-> script = script_p2pkh a.
Proof.
  intros Hb Ha. split.
  - unfold p2pkh_address. destruct (Nat.eqb_spec (length script) 26) as [Hl|]; [|discriminate]. cbn [negb orb].
    do 4 (destruct script as [|? script]; [discriminate Hl|]). cbn [nth drop].
    destruct (Z.eqb_spec z OP_DUP) as [-> |]; [|discriminate]. destruct (Z.eqb_spec z0 OP_PUBKEYHASH) as [-> |]; [|discriminate].
    destruct (Z.eqb_spec z1 OP_PUSH) as [-> |]; [|discriminate]. destruct (Z.eqb_spec z2 20) as [-> |]; [|discriminate]. cbn [negb orb].
    cbn [length] in Hl. rewrite <- (take_drop 20 script) at 1 2. rewrite !app_nth2; rewrite length_take_le by lia; [|lia..].
    assert (length (drop 20 script) = 2%nat) as Hd by (rewrite length_drop; lia). remember (drop 20 script) as tl eqn:Et.
    destruct tl as [|x [|y [|? ?]]]; try discriminate Hd. cbn [Nat.sub nth].
    destruct (Z.eqb_spec x OP_EQUALVERIFY) as [-> |]; [|discriminate]. destruct (Z.eqb_spec y OP_CHECKSIG) as [-> |]; [|discriminate]. cbn [negb orb].
    intros [= <-]. rewrite p2pkh_shape, address_push. change (drop 0 script) with script in *. do 4 apply Forall_cons_1 in Hb as [_ Hb]. rewrite address_bytes_back.
    + cbn [app]. by rewrite Et, take_drop.
    + by apply Forall_take.
    + rewrite length_take_le; [done|lia].
  - intros ->. rewrite p2pkh_shape, address_push. cbn [app].
    assert (forall l, length l = 20%nat -> p2pkh_address (OP_DUP :: OP_PUBKEYHASH :: OP_PUSH :: 20 :: l ++ [OP_EQUALVERIFY; OP_CHECKSIG]) = Some (address_of_bytes l)) as Hread.
    { intros l Hl. do 20 (destruct l as [|? l]; [discriminate Hl|]). destruct l; [reflexivity|discriminate Hl]. }
    rewrite Hread by apply length_address_bytes. by rewrite address_of_address_bytes.
Qed.
End machine_props.

(** ** Examples

    Signatures are the key that signed; the hash of bytes is their sum. *)

#[export] Instance demo_crypto : ScriptCrypto := {|
  check_sig := fun pk sg _ => bool_decide (pk = sg);
  sha256 := fun bytes => foldr Z.add 0 bytes |}.
Definition demo_ctx (sequence lock score : Z) : TltSpendContext :=
  {| sc_sighash_preimage := [7]; sc_lock_time := lock; sc_sequence := sequence; sc_spend_blue_score := score;
     sc_median_time_past_secs := 0; sc_origin := {| og_blue_score := 0; og_median_time_secs := 0 |} |}.
Definition alice : Bytes := repeat 6 33.
Definition bob : Bytes := repeat 8 33.
Definition carol : Bytes := repeat 9 33.
Definition written (items : list Bytes) : Bytes := expect_push (rfold push_data [] items).
Definition swap_lock : Bytes := expect_push (script_htlc 42 alice bob 20).
(** Alice claims with a preimage; before the lock time bob's refund is refused,
    from then on it is accepted. *)
Lemma htlc_correct_witness :
  eval_tlt_script (written [alice; [42]; [1]]) swap_lock (demo_ctx 0 0 1) = Ok tt /\
  eval_tlt_script (written [bob; []]) swap_lock (demo_ctx 0 20 20) = Ok tt /\
  eval_tlt_script (written [bob; []]) swap_lock (demo_ctx 0 20 19) <> Ok tt.
Proof.
  assert (script_htlc 42 alice bob 20 = Ok swap_lock) as Hs by (vm_compute; reflexivity).
  assert (in_u64 20) as Hr by (unfold in_u64, u64_max; lia).
  split; [|split].
  - apply (htlc_correct 42 alice bob 20 _ _ _ eq_refl eq_refl Hr Hs). split; [vm_compute; lia|]. left. exists [1], [42], alice. vm_compute. repeat split.
  - apply (htlc_correct 42 alice bob 20 _ _ _ eq_refl eq_refl Hr Hs). split; [vm_compute; lia|]. right. exists [], bob. vm_compute. repeat split; discriminate.
  - vm_compute. discriminate.
Defined.
Definition shared_lock : Bytes := expect_push (script_multisig 2 [alice; bob; carol]).
Lemma multisig_correct_witness :
  eval_tlt_script (written [alice; carol]) shared_lock (demo_ctx 0 0 1) = Ok tt /\
  eval_tlt_script (written [carol; alice]) shared_lock (demo_ctx 0 0 1) <> Ok tt.
Proof.
  split; [|vm_compute; discriminate].
  apply (multisig_correct 2 [alice; bob; carol] shared_lock).
  - repeat constructor.
  - cbn. lia.
  - cbn. lia.
  - vm_compute. reflexivity.
  - split; [vm_compute; lia|]. exists [alice; carol]. split; [vm_compute; reflexivity|]. split; [reflexivity|].
    exists [alice; carol]. split; [apply sublist_skip, sublist_cons, sublist_skip, sublist_nil|]. repeat constructor; vm_compute; reflexivity.
Defined.
Lemma multisig_fifteen_unspendable_witness :
  exists s, script_multisig 2 (repeat alice 15) = Ok s /\ eval_tlt_script (written [alice; alice]) s (demo_ctx 0 0 1) <> Ok tt.
Proof.
  destruct (multisig_fifteen_unspendable 2 (repeat alice 15)) as (s & H1 & H2).
  - apply Forall_forall. intros k Hk%list_elem_of_In%repeat_spec. subst k. reflexivity.
  - lia.
  - reflexivity.
  - exists s. split; [exact H1|apply H2].
Defined.
(** A hash under which no other program has the hash of the swap lock. *)
Definition ideal_crypto : ScriptCrypto := {| check_sig := fun pk sg _ => bool_decide (pk = sg); sha256 := fun bytes => if decide (bytes = swap_lock) then 1 else 0 |}.
Lemma p2sh_long_program_unspendable_witness :
  length swap_lock = 123%nat /\
  @eval_tlt_script ideal_crypto (written [alice; [42]; [1]]) (@script_p2sh ideal_crypto swap_lock).1 (demo_ctx 0 0 1) <> Ok tt.
Proof.
  split; [vm_compute; reflexivity|]. apply (@p2sh_long_program_unspendable ideal_crypto swap_lock).
  - vm_compute. lia.
  - intros other. cbn [sha256 ideal_crypto]. rewrite (decide_True _ _ (eq_refl swap_lock)). destruct (decide (other = swap_lock)) as [-> |_]; [reflexivity|].
    intros H. exfalso. vm_compute in H. discriminate H.
Defined.
Lemma script_values_bounded_witness :
  exists n m, nsteps (turns_to (demo_ctx 0 0 1)) n {| m_ops := TLT_MAX_OPS; m_script := written [alice; bob]; m_stack := []; m_exec := [] |} m /\
    m_stack m = [bob; alice] /\ (n <= 64)%nat /\ Forall item_ok (m_stack m).
Proof.
  assert (run_script [] (written [alice; bob]) (demo_ctx 0 0 1) = Ok [bob; alice]) as H by (vm_compute; reflexivity).
  assert (Forall is_byte (written [alice; bob])) as Hb by (vm_compute; repeat constructor; discriminate).
  destruct (script_values_bounded [] (written [alice; bob]) (demo_ctx 0 0 1) (Nat.le_0_l _) (Forall_nil_2 _) Hb) as [Hall Hend].
  destruct (Hend _ H) as (n & m & Hn & _ & _ & Hm). exists n, m. destruct (Hall n m Hn) as (_ & H1 & _ & _ & H2 & _).
  split; [exact Hn|]. split; [exact Hm|]. split; [exact H1|exact H2].
Defined.
Lemma spend_stays_valid_witness : eval_tlt_script (written [bob; []]) swap_lock (demo_ctx 0 20 25) = Ok tt.
Proof.
  apply (spend_stays_valid _ _ (demo_ctx 0 20 20)); [|vm_compute; reflexivity]. split; cbn; try reflexivity; lia.
Defined.
Lemma push_data_roundtrip_witness :
  exists script, rfold push_data [] [alice; [3]; []] = Ok script /\ run_script [] script (demo_ctx 0 0 1) = Ok [[]; [3]; alice].
Proof.
  destruct (push_data_roundtrip [alice; [3]; []] (demo_ctx 0 0 1)) as (script & H1 & _ & H2).
  - repeat constructor; cbn; lia.
  - cbn. lia.
  - exists script. split; [exact H1|exact H2].
Defined.
Lemma p2pkh_template_roundtrip_witness : p2pkh_address (script_p2pkh 5) = Some 5.
Proof.
  apply (p2pkh_template_roundtrip (script_p2pkh 5) 5); [|unfold is_address; lia|reflexivity].
  apply (bool_decide_unpack _). vm_compute. exact I.
Defined.
