(* ===== verification/Covenant.v ===== *)
(** * Covenants: script-locked TLT ([state-machine/src/tlt_covenant.rs])

    A block's covenant lane spends address outputs and script outputs and creates
    both: an output locked by the template of an address is stored as an address
    output, every other one as a record of its script.  As for transfers, a first
    pass selects the covenants that will apply and their fees, before the coinbase
    budget is fixed; they are applied after the block's transactions.  The whole
    TLT part of [apply_block_batched_mode] is [apply_tlt_block].

    Transaction ids, encoded lengths and the signed preimages are parameters. *)

From stdpp Require Import base gmap list fin_maps strings.
From Stdlib Require Import ZArith Lia.
From S2P Require Import Prelude Ordering Sums Types Finality Store Utxo TltScript.
Local Open Scope Z_scope.

Record TltCovenantUtxoRecord := {
  cr_value : Z;
  cr_script_pubkey : Bytes;
  cr_origin_blue_score : Z;
  cr_origin_median_time_secs : Z;
}.
Definition record_origin (r : TltCovenantUtxoRecord) : TltOutputOrigin :=
  {| og_blue_score := cr_origin_blue_score r; og_median_time_secs := cr_origin_median_time_secs r |}.

(** The records under [covenant_utxo_key], and batches of writes to them. *)
Abbreviation CovenantSet := (gmap OutPoint TltCovenantUtxoRecord).
Inductive CovenantOp := CPut (op : OutPoint) (r : TltCovenantUtxoRecord) | CDelete (op : OutPoint).
Definition apply_covenant_op (c : CovenantSet) (o : CovenantOp) : CovenantSet :=
  match o with CPut op r => <[op := r]> c | CDelete op => delete op c end.
Definition write_covenants (c : CovenantSet) (b : list CovenantOp) : CovenantSet := foldl apply_covenant_op c b.

(** [header_time] gives the timestamp in milliseconds of a stored header. *)
Definition block_median_time_secs (header_time : Hash -> option Z) (parents : list Hash) (timestamp_ms : Z) : Z :=
  let times := omap (fun p => (fun t => t / 1000) <$> header_time p) parents in
  match times with
  | [] => timestamp_ms / 1000
  | _ => nth (length times / 2) (sort_by Z.compare times) 0
  end.

Inductive Resolved :=
| RAddress (output : TxOut) (origin : TltOutputOrigin)
| RScript (record : TltCovenantUtxoRecord) (from_store : bool).
Definition value_of (r : Resolved) : Z := match r with RAddress o _ => out_value o | RScript c _ => cr_value c end.
Definition script_of (r : Resolved) : Bytes :=
  match r with RAddress o _ => script_p2pkh (out_address o) | RScript c _ => cr_script_pubkey c end.
Definition origin_of (r : Resolved) : TltOutputOrigin := match r with RAddress _ og => og | RScript c _ => record_origin c end.

Record SelectError := { se_hard : bool; se_error : StateError }.
Definition hard (e : StateError) : SelectError := {| se_hard := true; se_error := e |}.
Definition soft (e : StateError) : SelectError := {| se_hard := false; se_error := e |}.
Definition map_err {E F A} (f : E -> F) (r : result E A) : result F A := match r with Ok a => Ok a | Err e => Err (f e) end.

(** The messages of [TltScriptError]. *)
Definition script_message (e : TltScriptError) : string :=
  match e with
  | ScriptTooLarge => "script exceeds the working length limit"
  | TooManyOps => "script exceeds the working opcode limit"
  | StackOverflow => "script stack exceeds the working depth"
  | StackUnderflow => "script stack underflow"
  | InvalidPush => "script push is truncated or too large"
  | VerifyFailed => "script verification failed"
  | UnbalancedIf => "script IF/ELSE/ENDIF is unbalanced"
  | OpReturn => "OP_RETURN is unspendable"
  | InvalidNumber => "script integer is empty or wider than 8 bytes"
  | LocktimeTypeMismatch => "locktime type does not match the transaction locktime"
  | LocktimeNotMet => "absolute locktime is not satisfied"
  | SequenceDisabled => "input sequence disables the relative lock"
  | SequenceTypeMismatch => "relative lock type does not match the input sequence"
  | SequenceNotMet => "relative lock is not satisfied"
  | InvalidMultisig => "multisig key or signature count is outside the working limit"
  | UnknownOpcode _ => "unknown opcode"
  | BadVersion => "covenant transaction version is not 2"
  | BadInput => "covenant input index is missing"
  | P2shNotPushOnly => "P2SH scriptSig must be push-only"
  | EmptyScript => "empty scriptPubKey"
  end.
Definition script_failure (e : TltScriptError) : SelectError := hard (InvalidTx (script_message e)).

Record Inspection := {
  in_fee : Z;
  in_spends : list (OutPoint * Resolved);
  in_created_scripts : list (Z * TltCovenantUtxoRecord);
}.
(** The progress of the loop over the inputs. *)
Record InputScan := { is_pending : gset OutPoint; is_spends : list (OutPoint * Resolved); is_value : Z }.

(** The state of the selection and of the apply pass. *)
Record CovenantSelection := {
  cs_indexes : list nat;
  cs_total : Z;
  cs_spent : gset OutPoint;
  cs_scripts : CovenantSet;
  cs_seen : gset Hash;
}.
Record CovenantState := {
  ca_utxo : UtxoState;
  ca_batch : list CovenantOp;
  ca_created : list OutPoint;
  ca_spent : list (OutPoint * TltCovenantUtxoRecord);
  ca_scripts : CovenantSet;
}.

Section covenant.
Context `{SC : ScriptCrypto} {Auth : Type}.
Variable covenant_tx_id : TltCovenantTx -> Hash.
Variable covenant_len : TltCovenantTx -> Z.
Variable sighash_preimage : TltCovenantTx -> Bytes.
Variable sighash_preimage_bound : TltCovenantTx -> Auth -> Bytes.

Definition sighash (tx : TltCovenantTx) (auth : option Auth) : Bytes :=
  match auth with Some ctx => sighash_preimage_bound tx ctx | None => sighash_preimage tx end.

Definition structural (tx : TltCovenantTx) : result StateError unit :=
  ensure (ct_version tx =? TLT_COVENANT_TX_VERSION) (InvalidTx "covenant version") ;?
  ensure (negb (Nat.eqb (length (ct_inputs tx)) 0)) (InvalidTx "covenant transaction has no inputs") ;?
  ensure (Z.of_nat (length (ct_inputs tx)) <=? MAX_TX_INPUTS) (BlockLimit "too many inputs") ;?
  ensure (Z.of_nat (length (ct_outputs tx)) <=? MAX_TX_OUTPUTS) (BlockLimit "too many outputs") ;?
  ensure (covenant_len tx <=? MAX_TX_BYTES) (BlockLimit "tx too large").

Definition resolve_input (u : UtxoSet) (c : CovenantSet) (op : OutPoint) (address_created : gmap OutPoint TxOut)
  (scripts : CovenantSet) (blue_score median_time_secs : Z) : result StateError Resolved :=
  match address_created !! op with
  | Some output => Ok (RAddress output {| og_blue_score := blue_score; og_median_time_secs := median_time_secs |})
  | None =>
      match scripts !! op with
      | Some record => Ok (RScript record false)
      | None =>
          match u !! op, c !! op with
          | Some _, Some _ => Err (Storage "utxo is both an address output and a covenant script")
          | Some output, None => Ok (RAddress output {| og_blue_score := 0; og_median_time_secs := 0 |})
          | None, Some record => Ok (RScript record true)
          | None, None => Err (MissingUtxo op)
          end
      end
  end.

Definition inspect_input (u : UtxoSet) (c : CovenantSet) (tx : TltCovenantTx) (auth : option Auth) (blue_score median_time_secs : Z)
  (spent_ : gset OutPoint) (address_created : gmap OutPoint TxOut) (scripts : CovenantSet) (coinbase_created_ : gset OutPoint)
  (st : InputScan) (e : nat * TltCovenantInput) : result SelectError InputScan :=
  let op := ci_previous_outpoint e.2 in
  ensure (negb (bool_decide (op ∈ is_pending st) || bool_decide (op ∈ spent_))) (soft (DoubleSpend op)) ;?
  ensure (negb (bool_decide (op ∈ coinbase_created_))) (hard (ImmatureCoinbase op)) ;?
  let? resolved := map_err (fun err => match err with MissingUtxo _ => soft err | other => hard other end)
                     (resolve_input u c op address_created scripts blue_score median_time_secs) in
  let? _ := map_err script_failure
    (eval_covenant_input_preimage tx e.1 (script_of resolved) blue_score median_time_secs (origin_of resolved) (sighash tx auth)) in
  let? value := ok_or (hard (InvalidTx "input value overflow")) (checked_add u64_max (is_value st) (value_of resolved)) in
  Ok {| is_pending := {[op]} ∪ is_pending st; is_spends := is_spends st ++ [(op, resolved)]; is_value := value |}.

Definition script_record (output : TltCovenantOutput) (blue_score median_time_secs : Z) : TltCovenantUtxoRecord :=
  {| cr_value := co_value output; cr_script_pubkey := co_script_pubkey output; cr_origin_blue_score := blue_score;
     cr_origin_median_time_secs := median_time_secs |}.
Definition inspect_output (blue_score median_time_secs : Z) (acc : Z * list (Z * TltCovenantUtxoRecord)) (e : nat * TltCovenantOutput)
  : result SelectError (Z * list (Z * TltCovenantUtxoRecord)) :=
  ensure (negb (Nat.eqb (length (co_script_pubkey e.2)) 0)) (hard (InvalidTx "empty covenant script")) ;?
  let? value := ok_or (hard (InvalidTx "output value overflow")) (checked_add u64_max acc.1 (co_value e.2)) in
  Ok (value, match p2pkh_address (co_script_pubkey e.2) with
             | None => acc.2 ++ [(as_u32 (Z.of_nat e.1), script_record e.2 blue_score median_time_secs)]
             | Some _ => acc.2
             end).

Definition inspect_covenant (u : UtxoSet) (c : CovenantSet) (tx : TltCovenantTx) (auth : option Auth) (blue_score median_time_secs : Z)
  (spent_ : gset OutPoint) (address_created : gmap OutPoint TxOut) (scripts : CovenantSet) (coinbase_created_ : gset OutPoint)
  : result SelectError Inspection :=
  map_err hard (structural tx) ;?
  let? scan := rfold (inspect_input u c tx auth blue_score median_time_secs spent_ address_created scripts coinbase_created_)
                 {| is_pending := ∅; is_spends := []; is_value := 0 |} (imap pair (ct_inputs tx)) in
  map_err script_failure (covenant_locktime_satisfied tx blue_score median_time_secs) ;?
  let? (output_value, created_scripts) := rfold (inspect_output blue_score median_time_secs) (0, []) (imap pair (ct_outputs tx)) in
  ensure (negb (is_value scan <? output_value)) (hard (InvalidTx "insufficient funds")) ;?
  Ok {| in_fee := is_value scan - output_value; in_spends := is_spends scan; in_created_scripts := created_scripts |}.

(** ** Selection *)

Definition covenant_outpoint (tx : TltCovenantTx) (index : Z) : OutPoint := {| op_tx := covenant_tx_id tx; op_index := index |}.
Definition select_covenant (u : UtxoSet) (c : CovenantSet) (auth : option Auth) (blue_score median_time_secs : Z) (mode : ApplyMode)
  (address_created : gmap OutPoint TxOut) (coinbase_created_ : gset OutPoint) (st : CovenantSelection) (e : nat * TltCovenantTx)
  : result StateError CovenantSelection :=
  match inspect_covenant u c e.2 auth blue_score median_time_secs (cs_spent st) address_created (cs_scripts st) coinbase_created_ with
  | Ok inspection =>
      let id := covenant_tx_id e.2 in
      ensure (negb (bool_decide (id ∈ cs_seen st))) (InvalidTx "duplicate covenant transaction id") ;?
      let? total := ok_or (InvalidTx "covenant fee overflow") (checked_add u64_max (cs_total st) (in_fee inspection)) in
      Ok {| cs_indexes := cs_indexes st ++ [e.1]; cs_total := total;
            cs_spent := list_to_set (in_spends inspection).*1 ∪ cs_spent st;
            cs_scripts := foldl (fun m r => <[covenant_outpoint e.2 r.1 := r.2]> m) (cs_scripts st) (in_created_scripts inspection);
            cs_seen := {[id]} ∪ cs_seen st |}
  | Err err =>
      if se_hard err then Err (se_error err)
      else if bool_decide (mode = Virtual) then Ok st else Err (se_error err)
  end.
Definition selectable_covenant_fees (u : UtxoSet) (c : CovenantSet) (covenants : list TltCovenantTx) (auth : option Auth)
  (blue_score median_time_secs : Z) (mode : ApplyMode) (address_created : gmap OutPoint TxOut) (v1_spent coinbase_created_ : gset OutPoint)
  : result StateError (list nat * Z) :=
  let? st := rfold (select_covenant u c auth blue_score median_time_secs mode address_created coinbase_created_)
    {| cs_indexes := []; cs_total := 0; cs_spent := v1_spent; cs_scripts := ∅; cs_seen := ∅ |} (imap pair covenants) in
  Ok (cs_indexes st, cs_total st).

(** ** Application *)

Definition spend_resolved (st : CovenantState) (e : OutPoint * Resolved) : CovenantState :=
  let '(op, resolved) := e in
  match resolved with
  | RAddress output _ =>
      {| ca_utxo := spend_utxo (ca_utxo st) (op, output); ca_batch := ca_batch st; ca_created := ca_created st;
         ca_spent := ca_spent st; ca_scripts := ca_scripts st |}
  | RScript record from_store =>
      let us := ca_utxo st in
      {| ca_utxo := {| u_batch := u_batch us; u_created := u_created us; u_spent := u_spent us;
                       spent_in_block := {[op]} ∪ spent_in_block us; created_in_block := created_in_block us;
                       coinbase_created := coinbase_created us |};
         ca_batch := ca_batch st ++ [CDelete op];
         ca_created := if from_store then ca_created st else filter (fun created => created <> op) (ca_created st);
         ca_spent := if from_store then ca_spent st ++ [(op, record)] else ca_spent st;
         ca_scripts := if from_store then ca_scripts st else delete op (ca_scripts st) |}
  end.

(** [put_address_output] is the creation of one output of a transfer. *)
Definition put_address_output (u : UtxoSet) (st : CovenantState) (op : OutPoint) (output : TxOut) : result StateError CovenantState :=
  let? us := create_output u false (ca_utxo st) (op, output) in
  Ok {| ca_utxo := us; ca_batch := ca_batch st; ca_created := ca_created st; ca_spent := ca_spent st; ca_scripts := ca_scripts st |}.
Definition put_script_output (c : CovenantSet) (st : CovenantState) (op : OutPoint) (record : TltCovenantUtxoRecord)
  : result StateError CovenantState :=
  ensure (negb (bool_decide (is_Some (ca_scripts st !! op)) || bool_decide (op ∈ ca_created st))) (DuplicateOutpoint op) ;?
  ensure (negb (bool_decide (is_Some (c !! op)))) (DuplicateOutpoint op) ;?
  Ok {| ca_utxo := ca_utxo st; ca_batch := ca_batch st ++ [CPut op record]; ca_created := ca_created st ++ [op];
        ca_spent := ca_spent st; ca_scripts := <[op := record]> (ca_scripts st) |}.
Definition put_output (u : UtxoSet) (c : CovenantSet) (tx : TltCovenantTx) (blue_score median_time_secs : Z) (st : CovenantState)
  (e : nat * TltCovenantOutput) : result StateError CovenantState :=
  let op := covenant_outpoint tx (as_u32 (Z.of_nat e.1)) in
  match p2pkh_address (co_script_pubkey e.2) with
  | Some address => put_address_output u st op {| out_value := co_value e.2; out_address := address |}
  | None => put_script_output c st op (script_record e.2 blue_score median_time_secs)
  end.
Definition apply_covenant (u : UtxoSet) (c : CovenantSet) (covenants : list TltCovenantTx) (auth : option Auth)
  (blue_score median_time_secs : Z) (coinbase_created_ : gset OutPoint) (st : CovenantState) (index : nat)
  : result StateError CovenantState :=
  let? tx := ok_or (InvalidTx "covenant index missing") (covenants !! index) in
  let? inspection := map_err se_error (inspect_covenant u c tx auth blue_score median_time_secs (spent_in_block (ca_utxo st))
                       (created_in_block (ca_utxo st)) (ca_scripts st) coinbase_created_) in
  rfold (put_output u c tx blue_score median_time_secs) (foldl spend_resolved st (in_spends inspection)) (imap pair (ct_outputs tx)).
Definition apply_covenant_indexes (u : UtxoSet) (c : CovenantSet) (covenants : list TltCovenantTx) (indexes : list nat)
  (auth : option Auth) (blue_score median_time_secs : Z) (us : UtxoState) : result StateError CovenantState :=
  rfold (apply_covenant u c covenants auth blue_score median_time_secs (coinbase_created us))
    {| ca_utxo := us; ca_batch := []; ca_created := []; ca_spent := []; ca_scripts := ∅ |} indexes.

Definition validate_mempool_covenant (u : UtxoSet) (c : CovenantSet) (tx : TltCovenantTx) (reserved_ : gset OutPoint) (auth : option Auth)
  (blue_score median_time_secs : Z) : result StateError Z :=
  let? inspection := map_err se_error (inspect_covenant u c tx auth blue_score median_time_secs reserved_ ∅ ∅ ∅) in
  Ok (in_fee inspection).

(** ** The TLT part of a block *)

Variable verify_transaction_bound : Transaction -> Auth -> result StateError unit.
Variable address_from_pubkey : list Z -> Address.
Variable signer_address : Transaction -> result StateError Address.
Variable tx_id : Transaction -> Hash.

(** The predicted outputs of the block, those of its coinbase, and the inputs of
    the selected transfers. *)
Definition predicted_address_outputs (txs : list Transaction) (transfers : list (Transaction * Z)) (skip_existing_coinbase : bool)
  : gmap OutPoint TxOut * gset OutPoint * gset OutPoint :=
  let coinbase_txs := if skip_existing_coinbase then [] else filter (fun tx => inputs tx = []) txs in
  (foldl (insert_outputs tx_id) (foldl (insert_outputs tx_id) ∅ coinbase_txs) transfers.*1,
   list_to_set (mjoin ((fun tx => (outpoints tx_id tx).*1) <$> coinbase_txs)),
   list_to_set (mjoin ((fun tx => previous_outpoint <$> inputs tx) <$> transfers.*1))).
Definition skips_coinbase (mode : ApplyMode) (u : UtxoSet) (txs : list Transaction) : bool :=
  bool_decide (mode = Virtual) && existsb (fun tx => bool_decide (inputs tx = []) && coinbase_outpoints_exist tx_id u tx) txs.

Record CovenantJournal := {
  cj_utxo : UtxoJournal;
  tlt_covenant_created : list OutPoint;
  tlt_covenant_spent : list (OutPoint * TltCovenantUtxoRecord);
}.
Definition apply_tlt_block (mode : ApplyMode) (auth : option Auth) (u : UtxoSet) (c : CovenantSet) (txs : list Transaction)
  (covenants : list TltCovenantTx) (emission_reward blue_score median_time_secs : Z)
  : result StateError (list UtxoOp * list CovenantOp * CovenantJournal * list TransactionAcceptance) :=
  let? transferable := selectable_transfers verify_transaction_bound address_from_pubkey signer_address tx_id mode auth u txs in
  let? applied_fees := rfold (fun total e => ok_or (InvalidTx "fee overflow") (checked_add u64_max total e.2)) 0 transferable in
  let '(predicted, predicted_coinbase, v1_spent) := predicted_address_outputs txs transferable (skips_coinbase mode u txs) in
  let? (covenant_indexes, covenant_fees) :=
    selectable_covenant_fees u c covenants auth blue_score median_time_secs mode predicted v1_spent predicted_coinbase in
  let? applied_fees := ok_or (InvalidTx "fee overflow") (checked_add u64_max applied_fees covenant_fees) in
  let? coinbase_budget := ok_or (Coinbase "reward overflow") (checked_add u64_max emission_reward applied_fees) in
  let? bs := rfold (block_step verify_transaction_bound address_from_pubkey signer_address tx_id mode auth u transferable coinbase_budget)
               block_start txs in
  ensure (negb (coinbases bs =? 0)) (Coinbase "missing coinbase") ;?
  let? st := apply_covenant_indexes u c covenants covenant_indexes auth blue_score median_time_secs (bs_utxo bs) in
  Ok (u_batch (ca_utxo st), ca_batch st,
      {| cj_utxo := {| created := u_created (ca_utxo st); spent := u_spent (ca_utxo st); fees := applied_fees;
                       j_coinbase_total := coinbase_total bs;
                       subsidy := saturating_sub (coinbase_total bs) (Z.min applied_fees (coinbase_total bs)) |};
         tlt_covenant_created := ca_created st; tlt_covenant_spent := ca_spent st |},
      bs_statuses bs).
End covenant.

Definition revert_covenant_outputs (j : CovenantJournal) : list CovenantOp :=
  (CDelete <$> reverse (tlt_covenant_created j)) ++ ((fun e => CPut e.1 e.2) <$> reverse (tlt_covenant_spent j)).
