(* ===== verification/CovenantProps.v ===== *)
(** * Covenants: conservation, reversal and authorization

    The two passes over a block's covenants agree on what is spent, so a block
    with covenants conserves TLT as one without; the journal restores both kinds
    of outputs; and no output leaves the set without its lock being opened.  The
    proofs extend the invariant of the transfer lane ([utxo_inv], [joint]) by the
    script records. *)

From stdpp Require Import base gmap list fin_maps strings.
From Stdlib Require Import ZArith Lia.
From S2P Require Import Prelude Ordering Sums Types Finality Store Utxo UtxoProps TltScript TltScriptProps Covenant.
Local Open Scope Z_scope.

Definition covenant_total (c : CovenantSet) : Z := msum (fun _ r => cr_value r) c.
Definition cview (c : CovenantSet) (st : CovenantState) : CovenantSet := write_covenants c (ca_batch st).
Definition tlt_total (u : UtxoSet) (c : CovenantSet) (st : CovenantState) : Z :=
  utxo_total (view_of u (ca_utxo st)) + covenant_total (cview c st).
Definition resolved_value (l : list (OutPoint * Resolved)) : Z := zsum ((fun e => value_of e.2) <$> l).
Definition output_sum (outs : list TltCovenantOutput) : Z := zsum (co_value <$> outs).

Lemma write_covenants_app c b1 b2 : write_covenants c (b1 ++ b2) = write_covenants (write_covenants c b1) b2.
Proof. apply foldl_app. Qed.
Lemma map_err_Ok {E F A} (f : E -> F) (r : result E A) a : map_err f r = Ok a <-> r = Ok a.
Proof. destruct r; cbn; split; congruence. Qed.

Lemma as_u32_small_inj m n : 0 <= m < 64 -> 0 <= n < 64 -> as_u32 m = as_u32 n -> m = n.
Proof. intros Hm Hn. unfold as_u32. rewrite !Z.mod_small by (change (u32_max + 1) with 4294967296; lia). done. Qed.

(** The script record an output is stored as, when it is one. *)
Definition script_entry (blue mtp : Z) (e : nat * TltCovenantOutput) : option (Z * TltCovenantUtxoRecord) :=
  match p2pkh_address (co_script_pubkey e.2) with
  | Some _ => None
  | None => Some (as_u32 (Z.of_nat e.1), script_record e.2 blue mtp)
  end.

(** ** What an inspection says *)

Section inspection.
Context `{SC : ScriptCrypto} {Auth : Type}.
Variable covenant_len : TltCovenantTx -> Z.
Variable sighash_preimage : TltCovenantTx -> Bytes.
Variable sighash_preimage_bound : TltCovenantTx -> Auth -> Bytes.
Variables (u : UtxoSet) (c : CovenantSet) (auth : option Auth) (blue mtp : Z).
Abbreviation preimage := (sighash sighash_preimage sighash_preimage_bound).
Abbreviation inspect := (inspect_covenant covenant_len sighash_preimage sighash_preimage_bound u c).

(** The lock of input [n] of [tx], taken from [r], is opened. *)
Definition opened (tx : TltCovenantTx) (n : nat) (r : Resolved) : Prop :=
  eval_covenant_input_preimage tx n (script_of r) blue mtp (origin_of r) (preimage tx auth) = Ok tt.

Record inputs_taken (tx : TltCovenantTx) (spent_ : gset OutPoint) (made : gmap OutPoint TxOut) (scripts : CovenantSet)
  (cb : gset OutPoint) (ins : list (nat * TltCovenantInput)) (new : list (OutPoint * Resolved)) : Prop := {
  it_ops : new.*1 = (fun e => ci_previous_outpoint e.2) <$> ins;
  it_held : Forall2 (fun e s => s.1 ∉ spent_ /\ s.1 ∉ cb /\ resolve_input u c s.1 made scripts blue mtp = Ok s.2 /\ opened tx e.1 s.2) ins new;
}.
Lemma inspect_inputs_Ok tx spent_ made scripts cb ins scan scan' :
  rfold (inspect_input sighash_preimage sighash_preimage_bound u c tx auth blue mtp spent_ made scripts cb) scan ins = Ok scan' ->
  exists new, is_spends scan' = is_spends scan ++ new /\ is_value scan' = is_value scan + resolved_value new /\
    inputs_taken tx spent_ made scripts cb ins new /\ NoDup new.*1 /\ (forall op, op ∈ new.*1 -> op ∉ is_pending scan).
Proof.
  revert scan. induction ins as [|[n i] ins IH]; intros scan H; cbn [rfold] in H.
  { injection H as <-. exists []. rewrite app_nil_r. unfold resolved_value. cbn. split; [done|]. split; [lia|]. split; [by split; [|constructor]|].
    split; [constructor|]. intros op Hop. by apply elem_of_nil in Hop. }
  apply rbind_Ok in H as (scan1 & H1 & H). unfold inspect_input in H1. cbn [fst snd] in H1.
  apply rbind_Ok in H1 as (_ & Hs%ensure_Ok%negb_true_iff & H1). apply orb_false_iff in Hs as [Hp%bool_decide_eq_false Hs%bool_decide_eq_false].
  apply rbind_Ok in H1 as (_ & Hcb%ensure_Ok%negb_true_iff%bool_decide_eq_false & H1).
  apply rbind_Ok in H1 as (r & Hr%map_err_Ok & H1). apply rbind_Ok in H1 as ([] & Hev%map_err_Ok & H1).
  apply rbind_Ok in H1 as (v & [-> _]%ok_or_Ok%checked_add_Some & [= <-]).
  destruct (IH _ H) as (new & Hsp & Hv & [Ho Hf] & Hnd & Hpend). cbn [is_spends is_value is_pending] in *.
  exists ((ci_previous_outpoint i, r) :: new). split; [by rewrite Hsp, <- app_assoc|].
  split; [rewrite Hv; unfold resolved_value; rewrite fmap_cons, zsum_cons; cbn; lia|].
  split; [split; [rewrite !fmap_cons; by rewrite Ho|by constructor]|]. rewrite fmap_cons. cbn [fst]. split.
  - apply NoDup_cons. split; [|done]. intros Hin%Hpend. set_solver.
  - intros op [->|Hin]%elem_of_cons; [done|]. apply Hpend in Hin. set_solver.
Qed.
Lemma inspect_outputs_Ok outs acc acc' :
  rfold (inspect_output blue mtp) acc outs = Ok acc' ->
  acc'.1 = acc.1 + output_sum outs.*2 /\
  acc'.2 = acc.2 ++ omap (script_entry blue mtp) outs.
Proof.
  revert acc. induction outs as [|[n o] outs IH]; intros acc H; cbn [rfold] in H.
  { injection H as <-. unfold output_sum. cbn. rewrite app_nil_r. split; [lia|done]. }
  apply rbind_Ok in H as (acc1 & H1 & H). unfold inspect_output in H1. cbn [fst snd] in H1. apply rbind_Ok in H1 as (_ & _ & H1).
  apply rbind_Ok in H1 as (v & [-> _]%ok_or_Ok%checked_add_Some & [= <-]). destruct (IH _ H) as [-> ->]. cbn [fst snd].
  unfold output_sum. rewrite !fmap_cons, zsum_cons. cbn [snd]. split; [lia|]. cbn [omap list_omap fst snd].
  unfold script_entry at 2. cbn [fst snd]. destruct (p2pkh_address (co_script_pubkey o)); [done|]. by rewrite <- app_assoc.
Qed.

Record inspected (tx : TltCovenantTx) (spent_ : gset OutPoint) (made : gmap OutPoint TxOut) (scripts : CovenantSet) (cb : gset OutPoint)
  (i : Inspection) : Prop := {
  ins_taken : inputs_taken tx spent_ made scripts cb (imap pair (ct_inputs tx)) (in_spends i);
  ins_nodup : NoDup (in_spends i).*1;
  ins_fee : in_fee i = resolved_value (in_spends i) - output_sum (ct_outputs tx);
  ins_fee_pos : 0 <= in_fee i;
  ins_outputs : (length (ct_outputs tx) <= 64)%nat;
  ins_scripts : in_created_scripts i = omap (script_entry blue mtp) (imap pair (ct_outputs tx));
}.
Lemma imap_pair_snd {A} (l : list A) : (imap pair l).*2 = l.
Proof. rewrite fmap_imap. rewrite <- (list_fmap_id l) at 2. apply (imap_const (fun x => x)). Qed.
Lemma inspect_Ok tx spent_ made scripts cb i : inspect tx auth blue mtp spent_ made scripts cb = Ok i -> inspected tx spent_ made scripts cb i.
Proof.
  intros H. unfold inspect_covenant in H. apply rbind_Ok in H as ([] & Hst%map_err_Ok & H). apply rbind_Ok in H as (scan & Hin & H).
  apply rbind_Ok in H as ([] & _ & H). apply rbind_Ok in H as ([ov cs] & Hout & H). apply rbind_Ok in H as ([] & Hle%ensure_Ok%negb_true_iff%Z.ltb_ge & [= <-]).
  apply inspect_inputs_Ok in Hin as (new & Hsp & Hv & Ht & Hnd & _). cbn [is_spends is_value is_pending app] in *.
  apply inspect_outputs_Ok in Hout as [Ho Hc]. cbn [fst snd app] in *. rewrite imap_pair_snd in Ho.
  assert (length (ct_outputs tx) <= 64)%nat.
  { unfold structural in Hst. apply rbind_Ok in Hst as (_ & _ & Hst). apply rbind_Ok in Hst as (_ & _ & Hst). apply rbind_Ok in Hst as (_ & _ & Hst).
    apply rbind_Ok in Hst as (_ & Hl%ensure_Ok%Z.leb_le & _). unfold MAX_TX_OUTPUTS in Hl. lia. }
  split; cbn [in_spends in_fee in_created_scripts]; rewrite ?Hsp; try done; lia.
Qed.
End inspection.

(** ** The outpoints of the two kinds of outputs *)

Section outputs_of_both_kinds.
Variable covenant_tx_id : TltCovenantTx -> Hash.
Variable tx_id : Transaction -> Hash.

(** Output [n] of [tx] is [out], at [op]. *)
Definition output_at (op : OutPoint) (tx : TltCovenantTx) (n : nat) (out : TltCovenantOutput) : Prop :=
  ct_outputs tx !! n = Some out /\ (n < 64)%nat /\ op = covenant_outpoint covenant_tx_id tx (as_u32 (Z.of_nat n)).
Definition script_op (op : OutPoint) : Prop :=
  exists tx n out, output_at op tx n out /\ p2pkh_address (co_script_pubkey out) = None.
Definition locked_op (op : OutPoint) : Prop :=
  exists tx n out, output_at op tx n out /\ is_Some (p2pkh_address (co_script_pubkey out)).
Definition transfer_op (op : OutPoint) : Prop := exists t, op_tx op = tx_id t.

(** No output is stored under both kinds, and each kind only holds outputs that
    belong to it. *)
Record lawful (u : UtxoSet) (c : CovenantSet) : Prop := {
  lw_disjoint op o r : u !! op = Some o -> c !! op = Some r -> False;
  lw_scripts op r : c !! op = Some r -> ~ transfer_op op /\ ~ locked_op op;
  lw_addresses op o : u !! op = Some o -> ~ script_op op;
}.

Hypothesis covenant_id_inj : forall t t', covenant_tx_id t = covenant_tx_id t' -> t = t'.
Hypothesis ids_apart : forall t t', tx_id t <> covenant_tx_id t'.

Lemma output_at_inj op tx n out tx' n' out' : output_at op tx n out -> output_at op tx' n' out' -> tx = tx' /\ n = n' /\ out = out'.
Proof.
  intros (H1 & Hn & ->) (H2 & Hn' & E). injection E as Ei En. apply as_u32_small_inj in En; [|lia..]. apply covenant_id_inj in Ei as <-.
  apply Nat2Z.inj in En as <-. split; [done|]. split; [done|]. congruence.
Qed.
Lemma script_locked op : script_op op -> locked_op op -> False.
Proof.
  intros (tx & n & out & H & Hp) (tx' & n' & out' & H' & [a Hp']). destruct (output_at_inj _ _ _ _ _ _ _ H H') as (_ & _ & <-). congruence.
Qed.
Lemma output_transfer op tx n out : output_at op tx n out -> ~ transfer_op op.
Proof. intros (_ & _ & ->) [t Ht]. cbn in Ht. by apply (ids_apart t tx). Qed.
Lemma script_transfer op : script_op op -> ~ transfer_op op.
Proof. intros (tx & n & out & H & _). by eapply output_transfer. Qed.
Lemma locked_transfer op : locked_op op -> ~ transfer_op op.
Proof. intros (tx & n & out & H & _). by eapply output_transfer. Qed.
End outputs_of_both_kinds.

(** ** The state of the apply pass *)

Section applying.
Context `{SC : ScriptCrypto}.
Variable covenant_tx_id : TltCovenantTx -> Hash.
Variable tx_id : Transaction -> Hash.
Hypothesis covenant_id_inj : forall t t', covenant_tx_id t = covenant_tx_id t' -> t = t'.
Hypothesis ids_apart : forall t t', tx_id t <> covenant_tx_id t'.
Variables (u : UtxoSet) (c : CovenantSet) (blue mtp : Z).
Hypothesis Hlaw : lawful covenant_tx_id tx_id u c.
Abbreviation script_op := (script_op covenant_tx_id).
Abbreviation locked_op := (locked_op covenant_tx_id).
Abbreviation transfer_op := (transfer_op tx_id).
Abbreviation spent_ops st := (spent_in_block (ca_utxo st)).
Abbreviation made st := (created_in_block (ca_utxo st)).
Abbreviation resolve st op := (resolve_input u c op (made st) (ca_scripts st) blue mtp).

(** The script records are described as the address outputs are by [utxo_inv];
    the two kinds share the set of spent outpoints. *)
Record covenant_inv (st : CovenantState) : Prop := {
  ci_utxo : utxo_inv u (ca_utxo st);
  ci_view op : cview c st !! op =
    match ca_scripts st !! op with
    | Some r => Some r
    | None => if bool_decide (op ∈ spent_ops st) then None else c !! op
    end;
  ci_fresh op r : ca_scripts st !! op = Some r -> c !! op = None;
  ci_created op : op ∈ ca_created st <-> is_Some (ca_scripts st !! op);
  ci_spent op r : (op, r) ∈ ca_spent st -> c !! op = Some r /\ op ∈ spent_ops st;
  ci_spent_all op r : op ∈ spent_ops st -> c !! op = Some r -> (op, r) ∈ ca_spent st;
  ci_nodup : NoDup (ca_spent st).*1;
  ci_scripts op r : ca_scripts st !! op = Some r -> script_op op;
  ci_made op o : made st !! op = Some o -> transfer_op op \/ locked_op op;
}.

Lemma made_apart st op o : covenant_inv st -> made st !! op = Some o -> ca_scripts st !! op = None /\ c !! op = None.
Proof.
  intros Hi Hm. pose proof (ci_made _ Hi _ _ Hm) as Hk. split; apply eq_None_not_Some; intros [r Hr].
  - apply (ci_scripts _ Hi) in Hr. destruct Hk as [Hk|Hk]; [by eapply (script_transfer _ tx_id)|by eapply (script_locked covenant_tx_id)].
  - apply (lw_scripts _ _ _ _ Hlaw) in Hr as [? ?]. tauto.
Qed.

(** What resolving an unspent outpoint says of the two views. *)
Lemma resolve_address st op o og : covenant_inv st -> op ∉ spent_ops st -> resolve st op = Ok (RAddress o og) ->
  view_of u (ca_utxo st) !! op = Some o /\ ca_scripts st !! op = None /\ c !! op = None.
Proof.
  intros Hi Hs H. unfold resolve_input in H. rewrite (ui_view _ _ (ci_utxo _ Hi)), (bool_decide_eq_false_2 _ Hs).
  destruct (made st !! op) as [o'|] eqn:Em; [injection H as <- _; split; [done|]; by eapply made_apart|].
  destruct (ca_scripts st !! op) eqn:Es; [done|]. destruct (u !! op) eqn:Eu, (c !! op) eqn:Ec; try done. by injection H as <- _.
Qed.
Lemma resolve_script st op r fs : covenant_inv st -> op ∉ spent_ops st -> resolve st op = Ok (RScript r fs) ->
  cview c st !! op = Some r /\ made st !! op = None /\ u !! op = None /\
  (if fs then ca_scripts st !! op = None /\ c !! op = Some r else ca_scripts st !! op = Some r).
Proof.
  intros Hi Hs H. unfold resolve_input in H. rewrite (ci_view _ Hi), (bool_decide_eq_false_2 _ Hs).
  destruct (made st !! op) eqn:Em; [done|]. destruct (ca_scripts st !! op) as [r'|] eqn:Es.
  { injection H as <- <-. split; [done|]. split; [done|]. split; [|done]. apply eq_None_not_Some. intros [o Ho].
    eapply (lw_addresses _ _ _ _ Hlaw); [exact Ho|by eapply (ci_scripts _ Hi)]. }
  destruct (u !! op) eqn:Eu, (c !! op) eqn:Ec; try done. by injection H as <- <-.
Qed.

(** A script outpoint enters the spent set without touching the address outputs. *)
Lemma utxo_inv_mark st op : utxo_inv u st -> created_in_block st !! op = None -> u !! op = None ->
  utxo_inv u {| u_batch := u_batch st; u_created := u_created st; u_spent := u_spent st; spent_in_block := {[op]} ∪ spent_in_block st;
                created_in_block := created_in_block st; coinbase_created := coinbase_created st |}.
Proof.
  intros [Hv Hf Hc Hs Ha Hn] Hm Hu. split; cbn [u_created u_spent spent_in_block created_in_block]; try done.
  - intros op'. change (view_of u _) with (view_of u st). rewrite Hv. destruct (created_in_block st !! op'); [done|].
    destruct (decide (op' = op)) as [->|Hne]; [rewrite Hu; by destruct (bool_decide _), (bool_decide _)|].
    by rewrite (bool_decide_ext (op' ∈ {[op]} ∪ _) (op' ∈ spent_in_block st)) by set_solver.
  - intros op' o H. apply Hs in H as [? ?]. split; [done|set_solver].
  - intros op' o H Ho. apply Ha; [|done]. apply elem_of_union in H as [->%elem_of_singleton|H]; [congruence|done].
Qed.

(** What spending leaves as it was. *)
Record spent_step (st : CovenantState) (op : OutPoint) (st' : CovenantState) : Prop := {
  ss_spent : spent_ops st' = {[op]} ∪ spent_ops st;
  ss_made : made st' = delete op (made st);
  ss_scripts : ca_scripts st' = delete op (ca_scripts st);
  ss_coinbase : coinbase_created (ca_utxo st') = coinbase_created (ca_utxo st);
}.

Lemma covenant_total_delete m op r : m !! op = Some r -> covenant_total (delete op m) = covenant_total m - cr_value r.
Proof. intros H. unfold covenant_total. by rewrite (msum_delete_eq _ op r). Qed.

(** An address output leaves; the script records keep their meaning. *)
Lemma spend_address_inv st op o og : covenant_inv st -> op ∉ spent_ops st -> resolve st op = Ok (RAddress o og) ->
  let st' := spend_resolved st (op, RAddress o og) in
  covenant_inv st' /\ spent_step st op st' /\ tlt_total u c st' = tlt_total u c st - out_value o.
Proof.
  intros Hi Hs Hr. destruct (resolve_address _ _ _ _ Hi Hs Hr) as (Hv & Hns & Hnc). cbv zeta.
  destruct (spend_inv _ _ _ _ (ci_utxo _ Hi) Hv) as [Hu Ht]. destruct Hi as [_ Hvw Hf Hc Hsp Ha Hn Hk Hm].
  split; [|split; [split; try done; cbn [spend_resolved ca_scripts]; by rewrite delete_id|unfold tlt_total; cbn [spend_resolved ca_utxo]; rewrite Ht; unfold cview; cbn [ca_batch]; lia]].
  split; cbn [spend_resolved ca_utxo ca_scripts ca_created ca_spent spend_utxo spent_in_block created_in_block fst]; try done.
  - intros op'. change (cview c _) with (cview c st). rewrite Hvw. destruct (decide (op' = op)) as [->|Hne].
    + rewrite Hns, Hnc. by destruct (bool_decide _), (bool_decide _).
    + by rewrite (bool_decide_ext (op' ∈ {[op]} ∪ _) (op' ∈ spent_ops st)) by set_solver.
  - intros op' r H. apply Hsp in H as [? ?]. split; [done|set_solver].
  - intros op' r H Hr'. apply Ha; [|done]. apply elem_of_union in H as [->%elem_of_singleton|H]; [congruence|done].
  - intros op' o' [_ H]%lookup_delete_Some. by eapply Hm.
Qed.

(** A script record leaves; the address outputs keep their meaning. *)
Lemma spend_script_inv st op r fs : covenant_inv st -> op ∉ spent_ops st -> resolve st op = Ok (RScript r fs) ->
  let st' := spend_resolved st (op, RScript r fs) in
  covenant_inv st' /\ spent_step st op st' /\ tlt_total u c st' = tlt_total u c st - cr_value r.
Proof.
  intros Hi Hs Hr. destruct (resolve_script _ _ _ _ Hi Hs Hr) as (Hv & Hnm & Hnu & Hfs). cbv zeta.
  pose proof (utxo_inv_mark _ _ (ci_utxo _ Hi) Hnm Hnu) as Hu. destruct Hi as [_ Hvw Hf Hc Hsp Ha Hn Hk Hm].
  set (st' := spend_resolved st (op, RScript r fs)).
  assert (cview c st' = delete op (cview c st)) as Ev by (unfold cview, st'; cbn [spend_resolved ca_batch]; by rewrite write_covenants_app).
  assert (ca_scripts st' = delete op (ca_scripts st)) as Es
    by (unfold st'; cbn [spend_resolved ca_scripts]; destruct fs; [by rewrite delete_id by apply Hfs|done]).
  split; [|split; [split; try done; unfold st'; cbn [spend_resolved ca_utxo created_in_block]; by rewrite delete_id|]].
  2: { unfold tlt_total. rewrite Ev, (covenant_total_delete _ _ r) by done. unfold st', view_of. cbn [spend_resolved ca_utxo u_batch]. lia. }
  split; rewrite ?Es; [exact Hu|..|exact Hm].
  - intros op'. rewrite Ev. unfold st'. cbn [spend_resolved ca_utxo spent_in_block]. destruct (decide (op' = op)) as [->|Hne].
    + rewrite !lookup_delete_eq, bool_decide_eq_true_2 by set_solver. done.
    + rewrite !lookup_delete_ne, Hvw by done. by rewrite (bool_decide_ext (op' ∈ {[op]} ∪ _) (op' ∈ spent_ops st)) by set_solver.
  - intros op' r' [_ H]%lookup_delete_Some. by eapply Hf.
  - intros op'. rewrite lookup_delete_is_Some, <- Hc. unfold st'. cbn [spend_resolved ca_created]. destruct fs.
    + split; [|tauto]. intros H. split; [intros <-; apply Hc in H as [? H]; rewrite (proj1 Hfs) in H; discriminate|done].
    + rewrite list_elem_of_filter. naive_solver.
  - intros op' r'. unfold st'. cbn [spend_resolved ca_spent ca_utxo spent_in_block]. intros H.
    assert ((op', r') ∈ ca_spent st \/ (op', r') = (op, r) /\ c !! op = Some r) as [[? ?]%Hsp|[[= -> ->] Hc']].
    { destruct fs; [|by left]. apply elem_of_app in H as [H|H%list_elem_of_singleton]; [by left|right; tauto]. }
    + split; [done|set_solver].
    + split; [done|set_solver].
  - intros op' r'. unfold st'. cbn [spend_resolved ca_spent ca_utxo spent_in_block]. intros [->%elem_of_singleton|H]%elem_of_union Hr'.
    + destruct fs; [|apply Hf in Hfs; congruence]. destruct Hfs as [_ Hfs]. simplify_eq. apply elem_of_app. right. by apply list_elem_of_singleton.
    + pose proof (Ha _ _ H Hr'). destruct fs; [apply elem_of_app; by left|done].
  - unfold st'. cbn [spend_resolved ca_spent]. destruct fs; [|done]. rewrite fmap_app. apply NoDup_app. split; [done|].
    split; [|apply NoDup_singleton]. intros op' ([op2 r2] & -> & H2)%list_elem_of_fmap. cbn. intros ->%list_elem_of_singleton. apply Hs. by apply (Hsp _ _ H2).
  - intros op' r' [_ H]%lookup_delete_Some. by eapply Hk.
Qed.
Lemma spend_resolved_inv st op r : covenant_inv st -> op ∉ spent_ops st -> resolve st op = Ok r ->
  let st' := spend_resolved st (op, r) in
  covenant_inv st' /\ spent_step st op st' /\ tlt_total u c st' = tlt_total u c st - value_of r.
Proof. intros Hi Hs Hr. destruct r; [by apply spend_address_inv|by apply spend_script_inv]. Qed.

Lemma resolve_ne st op op' st' : spent_step st op st' -> op' <> op -> resolve st' op' = resolve st op'.
Proof. intros [_ Hm Hs _] Hne. unfold resolve_input. by rewrite Hm, Hs, !lookup_delete_ne by congruence. Qed.

(** Spending distinct outputs that resolve. *)
Lemma spends_resolved_inv (l : list (OutPoint * Resolved)) st :
  covenant_inv st -> NoDup l.*1 -> (forall e, e ∈ l -> e.1 ∉ spent_ops st /\ resolve st e.1 = Ok e.2) ->
  let st' := foldl spend_resolved st l in
  covenant_inv st' /\ tlt_total u c st' = tlt_total u c st - resolved_value l /\
  spent_ops st' = list_to_set l.*1 ∪ spent_ops st /\
  (forall op o, made st' !! op = Some o -> made st !! op = Some o) /\
  (forall op r, ca_scripts st' !! op = Some r -> ca_scripts st !! op = Some r) /\
  coinbase_created (ca_utxo st') = coinbase_created (ca_utxo st).
Proof.
  revert st. induction l as [|[op r] l IH]; intros st Hi Hn Hl; cbv zeta; cbn [foldl].
  { split; [done|]. split; [unfold resolved_value; cbn; lia|]. split; [set_solver|done]. }
  rewrite fmap_cons in Hn. apply NoDup_cons in Hn as [Hnin Hn]. cbn [fst] in Hnin.
  destruct (Hl (op, r)) as [Hs Hr]; [left|]. cbn [fst snd] in *. destruct (spend_resolved_inv _ _ _ Hi Hs Hr) as (Hi1 & Hst & Ht).
  destruct (IH _ Hi1 Hn) as (Hi2 & Ht2 & Hs2 & Hm2 & Hc2 & Hcb2).
  { intros e He. assert (e.1 <> op) by (intros <-; apply Hnin; by apply list_elem_of_fmap_2). destruct (Hl e) as [Hse Hre]; [by right|].
    split; [rewrite (ss_spent _ _ _ Hst); set_solver|by rewrite (resolve_ne _ _ _ _ Hst)]. }
  split; [done|]. split; [rewrite Ht2, Ht; unfold resolved_value; rewrite fmap_cons, zsum_cons; cbn [snd]; lia|].
  split; [rewrite Hs2, (ss_spent _ _ _ Hst), fmap_cons; cbn [fst]; set_solver|].
  split; [intros op' o H%Hm2; rewrite (ss_made _ _ _ Hst) in H; by apply lookup_delete_Some in H as [_ H]|].
  split; [intros op' o H%Hc2; rewrite (ss_scripts _ _ _ Hst) in H; by apply lookup_delete_Some in H as [_ H]|by rewrite Hcb2, (ss_coinbase _ _ _ Hst)].
Qed.

(** What one output adds. *)
Record put_step (tx : TltCovenantTx) (e : nat * TltCovenantOutput) (st st' : CovenantState) : Prop := {
  ps_inv : covenant_inv st';
  ps_total : tlt_total u c st' = tlt_total u c st + co_value e.2;
  ps_spent : spent_ops st' = spent_ops st;
  ps_coinbase : coinbase_created (ca_utxo st') = coinbase_created (ca_utxo st);
  ps_made op o : made st' !! op = Some o -> made st !! op = Some o \/ locked_op op;
  ps_scripts op r : ca_scripts st' !! op = Some r -> ca_scripts st !! op = Some r \/
    exists x, script_entry blue mtp e = Some (x, r) /\ op = covenant_outpoint covenant_tx_id tx x;
  ps_fresh x r : script_entry blue mtp e = Some (x, r) -> c !! covenant_outpoint covenant_tx_id tx x = None;
}.
Lemma put_output_inv tx n out st st' : covenant_inv st -> ct_outputs tx !! n = Some out -> (n < 64)%nat ->
  put_output covenant_tx_id u c tx blue mtp st (n, out) = Ok st' -> put_step tx (n, out) st st'.
Proof.
  intros Hi Ho Hn H. unfold put_output in H. cbn [fst snd] in H. set (op := covenant_outpoint _ _ _) in H.
  assert (output_at covenant_tx_id op tx n out) as Hat by done. destruct (p2pkh_address (co_script_pubkey out)) as [a|] eqn:Hp.
  - assert (locked_op op) as Hlk by (exists tx, n, out; rewrite Hp; split; [done|by eexists]).
    unfold put_address_output in H. apply rbind_Ok in H as (us & H & [= <-]). destruct Hi as [Hu Hvw Hf Hc Hsp Ha Hnd Hk Hm].
    apply create_output_inv in H as (Hu' & Ht & Hs & Hfr & Hcr & Hcb); [|done]. cbn [fst snd] in *. split; cbn [ca_utxo]; try done.
    + split; cbn [ca_utxo ca_scripts ca_created ca_spent]; rewrite ?Hs; try done.
      intros op' o'. rewrite Hcr. intros [[<- _]|[_ H']]%lookup_insert_Some; [by right|by eapply Hm].
    + unfold tlt_total, cview. cbn [ca_utxo ca_batch]. rewrite Ht. cbn. lia.
    + intros op' o'. rewrite Hcr. intros [[<- _]|[_ H']]%lookup_insert_Some; [by right|by left].
    + intros op' r. by left.
    + intros x r. unfold script_entry. cbn [snd]. by rewrite Hp.
  - assert (script_op op) as Hsc by (by exists tx, n, out). unfold put_script_output in H.
    apply rbind_Ok in H as (_ & H1%ensure_Ok%negb_true_iff & H). apply orb_false_iff in H1 as [H1%bool_decide_eq_false _].
    apply rbind_Ok in H as (_ & H2%ensure_Ok%negb_true_iff%bool_decide_eq_false & H). apply Ok_inj in H. subst st'.
    apply eq_None_not_Some in H1, H2. destruct Hi as [Hu Hvw Hf Hc Hsp Ha Hnd Hk Hm].
    assert (cview c st !! op = None) as Hvop by (rewrite Hvw, H1, H2; by destruct (bool_decide _)).
    match goal with |- put_step _ _ _ ?s => set (st' := s) end.
    assert (cview c st' = <[op := script_record out blue mtp]> (cview c st)) as Ev by (unfold cview, st'; cbn [ca_batch]; by rewrite write_covenants_app).
    split; try done.
    + split; try done.
      * intros op'. rewrite Ev. unfold st'. cbn [ca_scripts ca_utxo]. destruct (decide (op' = op)) as [->|Hne]; [by rewrite !lookup_insert_eq|].
        rewrite !lookup_insert_ne by done. apply Hvw.
      * intros op' r. unfold st'. cbn [ca_scripts]. intros [[<- <-]|[_ H']]%lookup_insert_Some; [done|by eapply Hf].
      * intros op'. unfold st'. cbn [ca_scripts ca_created]. rewrite elem_of_app, list_elem_of_singleton, Hc, lookup_insert_is_Some'. naive_solver.
      * intros op' r. unfold st'. cbn [ca_scripts]. intros [[<- <-]|[_ H']]%lookup_insert_Some; [done|by eapply Hk].
    + unfold tlt_total. rewrite Ev. unfold covenant_total. rewrite msum_insert_new by done. unfold st'. cbn. lia.
    + intros op' o. by left.
    + intros op' r. unfold st'. cbn [ca_scripts]. intros [[<- <-]|[_ H']]%lookup_insert_Some; [right|by left].
      unfold script_entry. cbn [fst snd]. rewrite Hp. by eexists.
    + intros x r. unfold script_entry. cbn [fst snd]. rewrite Hp. by intros [= <- <-].
Qed.

(** All the outputs of a covenant. *)
Record puts_step (tx : TltCovenantTx) (l : list (nat * TltCovenantOutput)) (st st' : CovenantState) : Prop := {
  pss_inv : covenant_inv st';
  pss_total : tlt_total u c st' = tlt_total u c st + output_sum l.*2;
  pss_spent : spent_ops st' = spent_ops st;
  pss_coinbase : coinbase_created (ca_utxo st') = coinbase_created (ca_utxo st);
  pss_made op o : made st' !! op = Some o -> made st !! op = Some o \/ locked_op op;
  pss_scripts op r : ca_scripts st' !! op = Some r -> ca_scripts st !! op = Some r \/
    exists x, (x, r) ∈ omap (script_entry blue mtp) l /\ op = covenant_outpoint covenant_tx_id tx x;
  pss_fresh x r : (x, r) ∈ omap (script_entry blue mtp) l -> c !! covenant_outpoint covenant_tx_id tx x = None;
}.
Lemma put_outputs_inv tx (l : list (nat * TltCovenantOutput)) st st' : covenant_inv st ->
  (forall e, e ∈ l -> ct_outputs tx !! e.1 = Some e.2 /\ (e.1 < 64)%nat) ->
  rfold (put_output covenant_tx_id u c tx blue mtp) st l = Ok st' -> puts_step tx l st st'.
Proof.
  revert st. induction l as [|[n out] l IH]; intros st Hi Hl H; cbn [rfold] in H.
  { injection H as <-. split; try done; [unfold output_sum; cbn; lia|by left|by left|intros x r Hx; cbn in Hx; by apply elem_of_nil in Hx]. }
  apply rbind_Ok in H as (st1 & H1 & H). destruct (Hl (n, out)) as [Ho Hn]; [left|]. destruct (put_output_inv _ _ _ _ _ Hi Ho Hn H1) as [Hi1 Ht1 Hs1 Hcb1 Hm1 Hc1 Hf1].
  destruct (IH _ Hi1 (fun e He => Hl e ltac:(by right)) H) as [Hi2 Ht2 Hs2 Hcb2 Hm2 Hc2 Hf2].
  assert (forall x r, (x, r) ∈ omap (script_entry blue mtp) ((n, out) :: l) <->
    script_entry blue mtp (n, out) = Some (x, r) \/ (x, r) ∈ omap (script_entry blue mtp) l) as Hom.
  { intros x r. rewrite !list_elem_of_omap. setoid_rewrite elem_of_cons. naive_solver. }
  split; try congruence.
  - rewrite Ht2, Ht1. unfold output_sum. rewrite !fmap_cons, zsum_cons. cbn [snd]. lia.
  - intros op o [[?|?]%Hm1|?]%Hm2; auto.
  - intros op r [[?|(x & Hx & ->)]%Hc1|(x & Hx & ->)]%Hc2; [by left|right; exists x; rewrite Hom; auto..].
  - intros x r [?|?]%Hom; eauto.
Qed.
End applying.
