(* ===== verification/CovenantSafety.v ===== *)
(** * A block of transfers and covenants: conservation, reversal, authorization

    The transfers of a block leave outpoints of their own kind behind; on top of
    them the covenants the selection pass chose apply with the fees it charged.
    Hence, in virtual order: the block conserves TLT, its journal restores the
    address outputs and the script records, an output only leaves when its lock is
    opened, and the two kinds of outputs stay apart. *)

From stdpp Require Import base gmap list fin_maps strings.
From Stdlib Require Import ZArith Lia.
From S2P Require Import Prelude Ordering Sums Types Finality Store Utxo UtxoProps TltScript TltScriptProps Covenant CovenantProps.
Local Open Scope Z_scope.

(** ** The outpoints the transfer lane touches *)

Section lane.
Context {Auth : Type}.
Variable verify_transaction_bound : Transaction -> Auth -> result StateError unit.
Variable address_from_pubkey : list Z -> Address.
Variable signer_address : Transaction -> result StateError Address.
Variable tx_id : Transaction -> Hash.
Variable auth : option Auth.
Variables (u : UtxoSet) (all : list Transaction).
Abbreviation signer_of tx := (verify_and_signer verify_transaction_bound address_from_pubkey signer_address tx auth).
Abbreviation step := (block_step verify_transaction_bound address_from_pubkey signer_address tx_id Virtual auth u).
Abbreviation transfer_op := (transfer_op tx_id).

Lemma spends_ops (l : list (OutPoint * TxOut)) st : let st' := foldl spend_utxo st l in
  spent_in_block st' = list_to_set l.*1 ∪ spent_in_block st /\
  (forall op o, created_in_block st' !! op = Some o -> created_in_block st !! op = Some o) /\ coinbase_created st' = coinbase_created st.
Proof.
  revert st. induction l as [|e l IH]; intros st; cbv zeta; cbn [foldl]; [split; [set_solver|done]|].
  destruct (IH (spend_utxo st e)) as (-> & Hc & ->). rewrite fmap_cons. cbn [spend_utxo spent_in_block created_in_block coinbase_created] in *.
  split; [set_solver|]. split; [|done]. by intros op o [_ ?]%Hc%lookup_delete_Some.
Qed.
Lemma creates_ops cb (l : list (OutPoint * TxOut)) st st' : rfold (create_output u cb) st l = Ok st' ->
  spent_in_block st' = spent_in_block st /\
  (forall op o, created_in_block st' !! op = Some o -> created_in_block st !! op = Some o \/ (op ∈ l.*1 /\ u !! op = None)) /\
  coinbase_created st' = (if cb then list_to_set l.*1 ∪ coinbase_created st else coinbase_created st).
Proof.
  revert st. induction l as [|e l IH]; intros st H; cbn [rfold] in H.
  { injection H as <-. split; [done|]. split; [by left|]. destruct cb; set_solver. }
  apply rbind_Ok in H as (st1 & H1 & H). unfold create_output in H1. apply rbind_Ok in H1 as (_ & _ & H1). apply rbind_Ok in H1 as (_ & Hfr%ensure_Ok%negb_true_iff%bool_decide_eq_false%eq_None_not_Some & [= <-]).
  destruct (IH _ H) as (-> & Hc & ->). cbn [spent_in_block created_in_block coinbase_created] in *. rewrite fmap_cons. split; [done|]. split.
  - intros op o [[[<- _]|[_ ?]]%lookup_insert_Some|[? ?]]%Hc; [right; split; [left|done]|by left|right; split; [by right|done]].
  - destruct cb; set_solver.
Qed.
Lemma take_inputs_ops st signer ins acc r : rfold (take_input u st signer) acc ins = Ok r ->
  exists new, r.2 = acc.2 ++ new /\ new.*1 = previous_outpoint <$> ins /\
    forall e, e ∈ new -> out_address e.2 = signer /\ (created_in_block st !! e.1 = Some e.2 \/ created_in_block st !! e.1 = None /\ u !! e.1 = Some e.2).
Proof.
  revert acc. induction ins as [|i ins IH]; intros acc H; cbn [rfold] in H.
  { injection H as <-. exists []. rewrite app_nil_r. split; [done|]. split; [done|]. intros e He. by apply elem_of_nil in He. }
  apply rbind_Ok in H as (acc1 & H1 & H). unfold take_input in H1. apply rbind_Ok in H1 as (_ & _ & H1). apply rbind_Ok in H1 as (_ & _ & H1).
  apply rbind_Ok in H1 as (out & Hout & H1). apply rbind_Ok in H1 as (_ & Hown%ensure_Ok%Z.eqb_eq & H1). apply rbind_Ok in H1 as (v & _ & [= <-]).
  destruct (IH _ H) as (new & E & Hops & Hnew). cbn [snd] in E. exists ((previous_outpoint i, out) :: new). split; [by rewrite E, <- app_assoc|].
  split; [by rewrite !fmap_cons, Hops|]. intros e [->|He]%elem_of_cons; [|by apply Hnew]. cbn [fst snd]. split; [done|].
  destruct (created_in_block st !! previous_outpoint i); [injection Hout as <-; by left|]. right. by apply ok_or_Ok in Hout.
Qed.

(** Created outputs carry the id of a transaction, one with inputs unless it is a
    coinbase output; spent ones were stored or created so; and each stored output
    that is spent was spent by a transaction its address signed. *)
Record lane_ops (st : UtxoState) : Prop := {
  lo_created op o : created_in_block st !! op = Some o -> transfer_op op;
  lo_fresh op o : created_in_block st !! op = Some o -> u !! op = None;
  lo_transfer op o : created_in_block st !! op = Some o -> op ∉ coinbase_created st -> exists t, inputs t <> [] /\ op_tx op = tx_id t;
  lo_spent op : op ∈ spent_in_block st -> is_Some (u !! op) \/ transfer_op op;
  lo_signed op o : op ∈ spent_in_block st -> u !! op = Some o ->
    exists t, t ∈ all /\ op ∈ previous_outpoint <$> inputs t /\ signer_of t = Ok (out_address o);
}.
Lemma lane_ops_start : lane_ops utxo_start.
Proof. split; cbn [utxo_start created_in_block spent_in_block]; intros *; rewrite ?lookup_empty; try done; set_solver. Qed.
Lemma outpoints_op tx op : op ∈ (outpoints tx_id tx).*1 -> op_tx op = tx_id tx.
Proof. intros (e & -> & He)%list_elem_of_fmap. unfold outpoints in He. apply elem_of_lookup_imap in He as (i & o & -> & _). done. Qed.
Lemma lane_creates cb tx st st' : (cb = false -> inputs tx <> []) -> lane_ops st -> create_outputs tx_id u cb st tx = Ok st' -> lane_ops st'.
Proof.
  intros Hcb [Hc Hf Ht Hs Hg] H. apply creates_ops in H as (Hs' & Hc' & Hb). split; rewrite ?Hs'; try done.
  - intros op o [?|[?%outpoints_op _]]%Hc'; [by eapply Hc|by exists tx].
  - intros op o [?|[_ ?]]%Hc'; [by eapply Hf|done].
  - intros op o H Hn. apply Hc' in H as [H|[H _]].
    + apply (Ht _ _ H). rewrite Hb in Hn. destruct cb; set_solver.
    + destruct cb; [rewrite Hb in Hn; set_solver|]. exists tx. split; [auto|by apply outpoints_op].
Qed.
Lemma lane_ops_step transferable budget bs tx bs' : tx ∈ all -> lane_ops (bs_utxo bs) -> step transferable budget bs tx = Ok bs' -> lane_ops (bs_utxo bs').
Proof.
  intros Hin Hl H. unfold block_step in H. case_bool_decide as Hi.
  - apply rbind_Ok in H as (_ & _ & H). destruct (_ && _); [by injection H as <-|].
    apply rbind_Ok in H as ([st total] & H1 & [= <-]). unfold apply_coinbase in H1. apply rbind_Ok in H1 as (_ & _ & H1).
    apply rbind_Ok in H1 as (v & _ & H1). apply rbind_Ok in H1 as (_ & _ & H1). apply rbind_Ok in H1 as (st1 & H1 & [= <- <-]). cbn [bs_utxo].
    by eapply (lane_creates true).
  - assert (forall st, apply_transfer verify_transaction_bound address_from_pubkey signer_address tx_id u auth (bs_utxo bs) tx = Ok st -> lane_ops st) as Htr.
    { intros st H1. unfold apply_transfer in H1. apply rbind_Ok in H1 as (signer & Hsg & H1). apply rbind_Ok in H1 as ([iv ps] & Ht & H1).
      apply take_inputs_ops in Ht as (new & E & Hops & Hnew). cbn [snd app] in E. subst ps. apply rbind_Ok in H1 as (ov & _ & H1). apply rbind_Ok in H1 as (_ & _ & H1).
      eapply (lane_creates false); [done| |exact H1]. destruct (spends_ops new (bs_utxo bs)) as (Hs' & Hc' & Hb'). destruct Hl as [Hc Hf Ht Hs Hg].
      split; rewrite ?Hs', ?Hb'; eauto.
      - intros op [([op' o] & -> & He)%elem_of_list_to_set%list_elem_of_fmap|?]%elem_of_union; [|auto]. destruct (Hnew _ He) as [_ [?|[_ ?]]]; [right; eauto|left; by eexists].
      - intros op o [Hop%elem_of_list_to_set|?]%elem_of_union Hu; [|auto]. exists tx. split; [done|]. split; [by rewrite <- Hops|].
        apply list_elem_of_fmap in Hop as ([op' o'] & -> & He). destruct (Hnew _ He) as [<- [Hcr|[_ Hu']]]; cbn [fst snd] in *; [apply Hf in Hcr|]; congruence. }
    destruct (match transferable !! transfer_idx bs with Some e => tx_id e.1 =? tx_id tx | None => false end);
      [apply rbind_Ok in H as (st & H1 & [= <-]); by apply Htr|].
    rewrite bool_decide_eq_true_2 in H by done. apply rbind_Ok in H as (? & _ & [= <-]). done.
Qed.
Lemma lane_run transferable budget txs bs bs' : (forall t, t ∈ txs -> t ∈ all) -> lane_ops (bs_utxo bs) ->
  rfold (step transferable budget) bs txs = Ok bs' -> lane_ops (bs_utxo bs').
Proof.
  intros Hin Hl. apply (rfold_inv _ (fun bs => lane_ops (bs_utxo bs))); [done|]. intros s tx s' Hs Htx H.
  eapply lane_ops_step; [|exact Hs|exact H]. by apply Hin.
Qed.
End lane.

(** ** The predictions of the selection pass *)

Section prediction.
Context {Auth : Type}.
Variable verify_transaction_bound : Transaction -> Auth -> result StateError unit.
Variable address_from_pubkey : list Z -> Address.
Variable signer_address : Transaction -> result StateError Address.
Variable tx_id : Transaction -> Hash.
Hypothesis tx_id_inj : forall t t', tx_id t = tx_id t' -> t = t'.
Variable auth : option Auth.
Variable u : UtxoSet.
Abbreviation select := (select_step verify_transaction_bound address_from_pubkey signer_address tx_id Virtual auth u).
Abbreviation seed txs := (seed_created tx_id Virtual u txs).

Abbreviation insert_all m txs := (foldl (insert_outputs tx_id) m txs).

Lemma insert_all_sub (P : OutPoint -> Prop) txs m1 m2 : (forall op o, P op -> m1 !! op = Some o -> m2 !! op = Some o) ->
  forall op o, P op -> insert_all m1 txs !! op = Some o -> insert_all m2 txs !! op = Some o.
Proof. revert m1 m2. induction txs as [|t txs IH]; intros m1 m2 Hm; cbn [foldl]; [exact Hm|]. apply IH. by apply fold_insert_sub. Qed.
Lemma insert_all_op txs m op o : insert_all m txs !! op = Some o -> m !! op = Some o \/ exists t, t ∈ txs /\ op_tx op = tx_id t.
Proof.
  revert m. induction txs as [|t txs IH]; intros m H; cbn [foldl] in H; [by left|]. apply IH in H as [H|(t' & ? & ?)].
  - apply fold_insert_Some in H as [?|?%outpoints_op]; [by left|]. right. exists t. split; [left|done].
  - right. exists t'. split; [by right|done].
Qed.

(** What the fold over the transactions has gathered. *)
Lemma selected_facts txs sel sel_f : rfold select sel txs = Ok sel_f ->
  exists new, sel_out sel_f = sel_out sel ++ new /\ sel_created sel_f = insert_all (sel_created sel) new.*1 /\
    forall op, op ∈ reserved sel_f <-> op ∈ mjoin ((fun tx => previous_outpoint <$> inputs tx) <$> new.*1) \/ op ∈ reserved sel.
Proof.
  revert sel. induction txs as [|tx txs IH]; intros sel H; cbn [rfold] in H.
  { injection H as <-. exists []. rewrite app_nil_r. split; [done|]. split; [done|]. intros op. cbn. set_solver. }
  apply rbind_Ok in H as (sel1 & H1 & H). destruct (IH _ H) as (new & Eo & Ec & Er). apply select_inv in H1 as [->|(outs & fee & _ & _ & _ & _ & _ & _ & E1 & E2 & E3)]; [eauto|].
  exists ((tx, fee) :: new). rewrite Eo, E1, <- app_assoc. split; [done|]. split; [by rewrite Ec, E3|].
  intros op. rewrite Er, E2, !fmap_cons. cbn [fst mjoin list_join]. rewrite elem_of_app. tauto.
Qed.

Lemma seed_is_coinbases txs : skips_coinbase tx_id Virtual u txs = false -> seed txs = insert_all ∅ (filter (fun tx => inputs tx = []) txs).
Proof.
  unfold skips_coinbase, seed_created. rewrite bool_decide_eq_true_2 by done. cbn [andb]. generalize (∅ : gmap OutPoint TxOut). induction txs as [|t txs IH]; intros m H; [done|].
  cbn [existsb foldl] in *. apply orb_false_iff in H as [H1 H2]. rewrite filter_cons. destruct (decide (inputs t = [])) as [E|E].
  - rewrite (bool_decide_eq_true_2 _ E) in *. cbn [andb] in H1. rewrite H1. cbn [foldl]. by apply IH.
  - rewrite (bool_decide_eq_false_2 _ E) in *. by apply IH.
Qed.
Lemma seed_op txs op o : seed txs !! op = Some o -> exists t, inputs t = [] /\ op_tx op = tx_id t.
Proof.
  unfold seed_created. assert (forall m, (forall op o, m !! op = Some o -> exists t, inputs t = [] /\ op_tx op = tx_id t) -> forall op o,
    foldl (fun m tx => if bool_decide (inputs tx = []) then if bool_decide (Virtual = Virtual) && coinbase_outpoints_exist tx_id u tx then m
      else insert_outputs tx_id m tx else m) m txs !! op = Some o -> exists t, inputs t = [] /\ op_tx op = tx_id t) as Hg;
    [|apply Hg; intros ? ?; by rewrite lookup_empty].
  clear op o. induction txs as [|t txs IH]; intros m Hm op o; cbn [foldl]; [apply Hm|]. apply IH. destruct (bool_decide (inputs t = [])) eqn:Hi; [|exact Hm]. destruct (_ && _); [exact Hm|].
  intros op' o' [?|?%outpoints_op]%fold_insert_Some; [by eapply Hm|apply bool_decide_eq_true in Hi; by exists t].
Qed.

(** Against the final selection: nothing predicted is stored, what a transfer
    created is predicted, and the reserved outpoints are the predicted spends. *)
Record predicts (sel : SelState) (predicted : gmap OutPoint TxOut) (v1_spent : gset OutPoint) : Prop := {
  pr_sub op o : predicted !! op = Some o -> sel_created sel !! op = Some o;
  pr_op op o : predicted !! op = Some o -> transfer_op tx_id op;
  pr_transfer op o t : inputs t <> [] -> op_tx op = tx_id t -> sel_created sel !! op = Some o -> predicted !! op = Some o;
  pr_spent op : op ∈ v1_spent <-> op ∈ reserved sel;
}.
Lemma prediction_ok txs sel : rfold select (select_start tx_id Virtual u txs) txs = Ok sel ->
  let p := predicted_address_outputs tx_id txs (sel_out sel) (skips_coinbase tx_id Virtual u txs) in predicts sel p.1.1 p.2.
Proof.
  intros H. apply selected_facts in H as (new & Eo & Ec & Er). cbn [select_start sel_out sel_created reserved app] in *. subst new. cbv zeta. unfold predicted_address_outputs. cbn [fst snd].
  split; rewrite ?Ec.
  - intros op o. destruct (skips_coinbase tx_id Virtual u txs) eqn:Hsk; [|by rewrite seed_is_coinbases].
    apply (insert_all_sub (fun _ => True)); [|done]. intros ? ? _. cbn [foldl]. by rewrite lookup_empty.
  - intros op o [H|(t & _ & ?)]%insert_all_op; [|by exists t]. apply insert_all_op in H as [H|(t & _ & ?)]; [by rewrite lookup_empty in H|by exists t].
  - intros op o t Ht Hop. apply (insert_all_sub (fun op => op_tx op = tx_id t)); [|done]. intros op' o' Hop' (t' & Hi & Ht')%seed_op.
    rewrite Hop' in Ht'. apply tx_id_inj in Ht' as <-. done.
  - intros op. rewrite elem_of_list_to_set, Er. set_solver.
Qed.
End prediction.

(** ** The two passes over the covenants *)

Section passes.
Context `{SC : ScriptCrypto} {Auth : Type}.
Variable covenant_tx_id : TltCovenantTx -> Hash.
Variable covenant_len : TltCovenantTx -> Z.
Variable sighash_preimage : TltCovenantTx -> Bytes.
Variable sighash_preimage_bound : TltCovenantTx -> Auth -> Bytes.
Variable tx_id : Transaction -> Hash.
Hypothesis covenant_id_inj : forall t t', covenant_tx_id t = covenant_tx_id t' -> t = t'.
Hypothesis ids_apart : forall t t', tx_id t <> covenant_tx_id t'.
Variables (u : UtxoSet) (c : CovenantSet) (auth : option Auth) (blue mtp : Z).
Hypothesis Hlaw : lawful covenant_tx_id tx_id u c.
Variables (covenants : list TltCovenantTx) (predicted : gmap OutPoint TxOut) (pcb : gset OutPoint) (us : UtxoState).
Hypothesis predicted_op : forall op o, predicted !! op = Some o -> transfer_op tx_id op.
Hypothesis predicted_fresh : forall op o, predicted !! op = Some o -> u !! op = None.
Abbreviation script_op := (script_op covenant_tx_id).
Abbreviation locked_op := (locked_op covenant_tx_id).
Abbreviation spent_ops st := (spent_in_block (ca_utxo st)).
Abbreviation made st := (created_in_block (ca_utxo st)).
Abbreviation cov_inv := (covenant_inv covenant_tx_id tx_id u c).
Abbreviation opened := (opened sighash_preimage sighash_preimage_bound auth blue mtp).
Abbreviation select := (select_covenant covenant_tx_id covenant_len sighash_preimage sighash_preimage_bound u c auth blue mtp).
Abbreviation apply_one := (apply_covenant covenant_tx_id covenant_len sighash_preimage sighash_preimage_bound u c covenants auth blue mtp (coinbase_created us)).
Abbreviation taken := (inputs_taken sighash_preimage sighash_preimage_bound u c auth blue mtp).

(** An input of one of the block's covenants opened the lock of the output at [op]. *)
Definition opened_at (op : OutPoint) : Prop :=
  exists tx n i r, tx ∈ covenants /\ ct_inputs tx !! n = Some i /\ ci_previous_outpoint i = op /\ opened tx n r /\
    (forall o, u !! op = Some o -> script_of r = script_p2pkh (out_address o)) /\
    (forall rec, c !! op = Some rec -> script_of r = cr_script_pubkey rec /\ origin_of r = record_origin rec).

(** The record an output of a covenant is stored as. *)
Definition record_at (op : OutPoint) (r : TltCovenantUtxoRecord) : Prop :=
  exists tx n out, output_at covenant_tx_id op tx n out /\ p2pkh_address (co_script_pubkey out) = None /\ r = script_record out blue mtp.
Lemma record_script op r : record_at op r -> script_op op.
Proof. intros (tx & n & out & H & Hp & _). by exists tx, n, out. Qed.

Record passes (s : CovenantSelection) (a : CovenantState) : Prop := {
  pa_inv : cov_inv a;
  pa_spent op : op ∈ cs_spent s <-> op ∈ spent_ops a;
  pa_scripts op r : ca_scripts a !! op = Some r -> cs_scripts s !! op = Some r;
  pa_selected op r : cs_scripts s !! op = Some r -> record_at op r /\ c !! op = None;
  pa_made op o : made a !! op = Some o -> op ∉ coinbase_created us -> predicted !! op = Some o \/ locked_op op;
  pa_total : tlt_total u c a = utxo_total (view_of u us) + covenant_total c - cs_total s;
  pa_opened op : op ∈ spent_ops a -> op ∈ spent_in_block us \/ opened_at op;
}.

Lemma resolve_same s a op r r' : passes s a -> op ∉ coinbase_created us ->
  resolve_input u c op predicted (cs_scripts s) blue mtp = Ok r ->
  resolve_input u c op (made a) (ca_scripts a) blue mtp = Ok r' -> value_of r = value_of r'.
Proof.
  intros P Hcb H H'. unfold resolve_input in H, H'. destruct (made a !! op) as [o|] eqn:Em.
  - injection H' as <-. destruct (pa_made _ _ P _ _ Em Hcb) as [Hp|Hl]; [rewrite Hp in H; by injection H as <-|].
    assert (predicted !! op = None) as Hp by (apply eq_None_not_Some; intros [? Ho%predicted_op]; by eapply (locked_transfer covenant_tx_id tx_id)).
    assert (cs_scripts s !! op = None) as Hs by (apply eq_None_not_Some; intros [? Hsc%(pa_selected _ _ P)]; eapply (script_locked covenant_tx_id); [done|eapply record_script; apply Hsc|done]).
    rewrite Hp, Hs in H. destruct (made_apart _ _ covenant_id_inj ids_apart _ _ Hlaw _ _ _ (pa_inv _ _ P) Em) as [_ Hc].
    by rewrite (ui_fresh _ _ (ci_utxo _ _ _ _ _ (pa_inv _ _ P)) _ _ Em), Hc in H.
  - destruct (ca_scripts a !! op) as [rec|] eqn:Es.
    + injection H' as <-. apply (pa_scripts _ _ P) in Es. pose proof (pa_selected _ _ P _ _ Es) as [Hsc%record_script _].
      assert (predicted !! op = None) as Hp by (apply eq_None_not_Some; intros [? Ho%predicted_op]; by eapply (script_transfer covenant_tx_id tx_id)).
      rewrite Hp, Es in H. by injection H as <-.
    + destruct (u !! op) as [o|] eqn:Eu, (c !! op) as [rec|] eqn:Ec; try done; injection H' as <-.
      * assert (predicted !! op = None) as Hp by (apply eq_None_not_Some; intros [? Ho%predicted_fresh]; congruence).
        assert (cs_scripts s !! op = None) as Hs
          by (apply eq_None_not_Some; intros [? [Hsc%record_script _]%(pa_selected _ _ P)]; by eapply (lw_addresses _ _ _ _ Hlaw)).
        rewrite Hp, Hs in H. by injection H as <-.
      * assert (predicted !! op = None) as Hp
          by (apply eq_None_not_Some; intros [? Ho%predicted_op]; by apply (lw_scripts _ _ _ _ Hlaw) in Ec as [? _]).
        assert (cs_scripts s !! op = None) as Hs by (apply eq_None_not_Some; intros [? [_ Hsc]%(pa_selected _ _ P)]; congruence).
        rewrite Hp, Hs in H. by injection H as <-.
Qed.

(** What the list of spends holds, by outpoint. *)
Lemma taken_elem tx sp m sc cb l e : taken tx sp m sc cb (imap pair (ct_inputs tx)) l -> e ∈ l ->
  exists n i, ct_inputs tx !! n = Some i /\ ci_previous_outpoint i = e.1 /\ e.1 ∉ sp /\ e.1 ∉ cb /\ resolve_input u c e.1 m sc blue mtp = Ok e.2 /\ opened tx n e.2.
Proof.
  intros [Ho Hh] He. apply list_elem_of_lookup in He as [k Hk]. destruct (Forall2_lookup_r _ _ _ _ _ Hh Hk) as ([n i] & Hi & H1 & H2 & H3 & H4).
  rewrite list_lookup_imap in Hi. destruct (ct_inputs tx !! k) as [i'|] eqn:Ei; [|done]. injection Hi as -> ->. exists n, i. split; [done|]. split; [|done].
  apply (f_equal (.!! n)) in Ho. rewrite !list_lookup_fmap, Hk, list_lookup_imap, Ei in Ho. by injection Ho.
Qed.
Lemma same_values (l l' : list (OutPoint * Resolved)) : l.*1 = l'.*1 ->
  (forall op r r', (op, r) ∈ l -> (op, r') ∈ l' -> value_of r = value_of r') -> resolved_value l = resolved_value l'.
Proof.
  revert l'. induction l as [|[op r] l IH]; intros [|[op' r'] l'] E H; try done. rewrite !fmap_cons in E. injection E as <- E.
  unfold resolved_value. rewrite !fmap_cons, !zsum_cons. cbn [snd]. rewrite (H op r r') by left. f_equal. apply IH; [done|]. intros op2 r2 r2' H2 H2'. eapply H; by right.
Qed.

(** What is stored is what a spend resolves to. *)
Lemma resolve_stored a op r : cov_inv a -> resolve_input u c op (made a) (ca_scripts a) blue mtp = Ok r ->
  (forall o, u !! op = Some o -> script_of r = script_p2pkh (out_address o)) /\
  (forall rec, c !! op = Some rec -> script_of r = cr_script_pubkey rec /\ origin_of r = record_origin rec).
Proof.
  intros Hi H. unfold resolve_input in H. split.
  - intros o Ho. assert (made a !! op = None) as Hm by (apply eq_None_not_Some; intros [? Hm%(ui_fresh _ _ (ci_utxo _ _ _ _ _ Hi))]; congruence).
    assert (ca_scripts a !! op = None) as Hs by (apply eq_None_not_Some; intros [? Hs%(ci_scripts _ _ _ _ _ Hi)]; by eapply (lw_addresses _ _ _ _ Hlaw)).
    rewrite Hm, Hs, Ho in H. destruct (c !! op); [done|]. by injection H as <-.
  - intros rec Hrec. assert (made a !! op = None) as Hm
      by (apply eq_None_not_Some; intros [? Hm]; apply (made_apart _ _ covenant_id_inj ids_apart _ _ Hlaw _ _ _ Hi) in Hm as [_ Hm]; congruence).
    assert (ca_scripts a !! op = None) as Hs by (apply eq_None_not_Some; intros [? Hs%(ci_fresh _ _ _ _ _ Hi)]; congruence).
    rewrite Hm, Hs, Hrec in H. destruct (u !! op); [done|]. by injection H as <-.
Qed.

Lemma imap_outputs tx e : (length (ct_outputs tx) <= 64)%nat -> e ∈ imap pair (ct_outputs tx) -> ct_outputs tx !! e.1 = Some e.2 /\ (e.1 < 64)%nat.
Proof. intros Hl (i & o & -> & H)%elem_of_lookup_imap. cbn. split; [done|]. apply lookup_lt_Some in H. lia. Qed.
Lemma entry_record tx x r : (length (ct_outputs tx) <= 64)%nat -> (x, r) ∈ omap (script_entry blue mtp) (imap pair (ct_outputs tx)) ->
  record_at (covenant_outpoint covenant_tx_id tx x) r.
Proof.
  intros Hl ([n out] & Hin & He)%list_elem_of_omap. apply imap_outputs in Hin as [Ho Hn]; [|done]. unfold script_entry in He. cbn [fst snd] in *.
  destruct (p2pkh_address (co_script_pubkey out)) eqn:Hp; [done|]. injection He as <- <-. by exists tx, n, out.
Qed.
Lemma record_at_inj op r r' : record_at op r -> record_at op r' -> r = r'.
Proof.
  intros (tx & n & out & H & _ & ->) (tx' & n' & out' & H' & _ & ->). by destruct (output_at_inj _ covenant_id_inj _ _ _ _ _ _ _ H H') as (_ & _ & <-).
Qed.
Abbreviation insert_records tx m l := (foldl (fun acc e => <[covenant_outpoint covenant_tx_id tx e.1 := e.2]> acc) m l).
Lemma insert_records_Some (l : list (Z * TltCovenantUtxoRecord)) tx (m : CovenantSet) op r : insert_records tx m l !! op = Some r ->
  m !! op = Some r \/ exists x, (x, r) ∈ l /\ op = covenant_outpoint covenant_tx_id tx x.
Proof.
  revert m. induction l as [|[x w] l IH]; intros m H; cbn [foldl] in H; [by left|]. setoid_rewrite elem_of_cons.
  apply IH in H as [[[<- <-]|[_ ?]]%lookup_insert_Some|(y & ? & ->)]; [right; exists x; auto|by left|right; eauto].
Qed.
Lemma insert_records_is_Some (l : list (Z * TltCovenantUtxoRecord)) tx (m : CovenantSet) op :
  is_Some (m !! op) \/ (exists x r, (x, r) ∈ l /\ op = covenant_outpoint covenant_tx_id tx x) -> is_Some (insert_records tx m l !! op).
Proof.
  revert m. induction l as [|[x w] l IH]; intros m H; cbn [foldl]; [by destruct H as [?|(y & r & Hy%elem_of_nil & _)]|].
  apply IH. cbn [fst snd]. rewrite lookup_insert_is_Some'. destruct H as [?|(y & r & [[= -> ->]|?]%elem_of_cons & ->)]; eauto 10.
Qed.

(** Applying one covenant: it spends what its inspection resolved, and creates
    its outputs. *)
Lemma apply_one_inv a index tx a' : cov_inv a -> covenants !! index = Some tx -> apply_one a index = Ok a' ->
  exists i mid, inspected sighash_preimage sighash_preimage_bound u c auth blue mtp tx (spent_ops a) (made a) (ca_scripts a) (coinbase_created us) i /\
    puts_step covenant_tx_id tx_id u c blue mtp tx (imap pair (ct_outputs tx)) mid a' /\
    tlt_total u c mid = tlt_total u c a - resolved_value (in_spends i) /\ spent_ops mid = list_to_set (in_spends i).*1 ∪ spent_ops a /\
    (forall op o, made mid !! op = Some o -> made a !! op = Some o) /\ (forall op r, ca_scripts mid !! op = Some r -> ca_scripts a !! op = Some r).
Proof.
  intros Hi Htx H. unfold apply_covenant in H. rewrite Htx in H. cbn [ok_or rbind] in H. apply rbind_Ok in H as (i & Hin%map_err_Ok%inspect_Ok & H).
  exists i, (foldl spend_resolved a (in_spends i)). split; [done|].
  destruct (spends_resolved_inv _ _ covenant_id_inj ids_apart u c blue mtp Hlaw (in_spends i) a Hi (ins_nodup _ _ _ _ _ _ _ _ _ _ _ _ _ Hin)) as (Hi1 & Ht & Hs & Hm & Hc & _).
  { intros e He. by destruct (taken_elem _ _ _ _ _ _ _ (ins_taken _ _ _ _ _ _ _ _ _ _ _ _ _ Hin) He) as (n & i' & _ & _ & ? & _ & ? & _). }
  split; [|done]. apply put_outputs_inv; [done..| |done]. intros e. apply imap_outputs. by eapply ins_outputs.
Qed.

(** One step of the selection: nothing, or an inspected covenant. *)
Lemma select_cases mode s index tx s' : select mode predicted pcb s (index, tx) = Ok s' ->
  s' = s \/ exists i, inspected sighash_preimage sighash_preimage_bound u c auth blue mtp tx (cs_spent s) predicted (cs_scripts s) pcb i /\
    cs_indexes s' = cs_indexes s ++ [index] /\ cs_total s' = cs_total s + in_fee i /\ cs_spent s' = list_to_set (in_spends i).*1 ∪ cs_spent s /\
    cs_scripts s' = insert_records tx (cs_scripts s) (in_created_scripts i).
Proof.
  unfold select_covenant. cbn [fst snd]. destruct (inspect_covenant _ _ _ _ _ _ _ _ _ _ _ _ _) as [i|err] eqn:Hin.
  2: { destruct (se_hard err); [done|]. case_bool_decide; [|done]. intros [= <-]. by left. }
  apply inspect_Ok in Hin. intros H. right. exists i. split; [done|]. apply rbind_Ok in H as (_ & _ & H).
  apply rbind_Ok in H as (tot & [-> _]%ok_or_Ok%checked_add_Some & H). apply Ok_inj in H. by subst s'.
Qed.
Lemma select_fees mode (l : list (nat * TltCovenantTx)) s s' : rfold (select mode predicted pcb) s l = Ok s' -> 0 <= cs_total s -> 0 <= cs_total s'.
Proof.
  intros H H0. revert H. apply (rfold_inv _ (fun s => 0 <= cs_total s)); [done|]. intros s1 [n tx] s2 Hs _ [->|(i & Hi & _ & -> & _)]%select_cases; [done|].
  pose proof (ins_fee_pos _ _ _ _ _ _ _ _ _ _ _ _ _ Hi). lia.
Qed.

(** The apply pass follows the selection, covenant by covenant. *)
Lemma passes_step mode s index tx s' : select mode predicted pcb s (index, tx) = Ok s' ->
  s' = s \/
  (cs_indexes s' = cs_indexes s ++ [index] /\
   forall a a', passes s a -> covenants !! index = Some tx -> apply_one a index = Ok a' -> passes s' a').
Proof.
  intros [->|(i & Hin & Ei & Et & Esp & Ecs)]%select_cases; [by left|right]. split; [done|]. intros a a' P Htx Happ.
  destruct (apply_one_inv _ _ _ _ (pa_inv _ _ P) Htx Happ) as (i' & mid & Hin' & [Hi' Ht' Hs' _ Hm' Hc' Hf'] & Htm & Hsm & Hmm & Hcm).
  pose proof (ins_taken _ _ _ _ _ _ _ _ _ _ _ _ _ Hin) as Hk. pose proof (ins_taken _ _ _ _ _ _ _ _ _ _ _ _ _ Hin') as Hk'.
  pose proof (ins_outputs _ _ _ _ _ _ _ _ _ _ _ _ _ Hin) as Hlen.
  assert ((in_spends i).*1 = (in_spends i').*1) as Eops by (by rewrite (it_ops _ _ _ _ _ _ _ _ _ _ _ _ _ _ Hk), (it_ops _ _ _ _ _ _ _ _ _ _ _ _ _ _ Hk')).
  rewrite <- Eops in Hsm. pose proof (ins_scripts _ _ _ _ _ _ _ _ _ _ _ _ _ Hin) as Esc.
  split; rewrite ?Ecs, ?Esc, ?Et, ?Esp.
  - done.
  - intros op. by rewrite Hs', Hsm, !elem_of_union, (pa_spent _ _ P).
  - intros op r H. assert (exists r', insert_records tx (cs_scripts s) (omap (script_entry blue mtp) (imap pair (ct_outputs tx))) !! op = Some r') as [r' Hr'].
    { apply insert_records_is_Some. apply Hc' in H as [H%Hcm%(pa_scripts _ _ P)|(x & ? & ->)]; [left; by eexists|right; eauto]. }
    rewrite Hr'. f_equal. apply (record_at_inj op).
    + apply insert_records_Some in Hr' as [?%(pa_selected _ _ P)|(x & Hx & ->)]; [tauto|by apply entry_record].
    + apply Hc' in H as [?%Hcm%(pa_scripts _ _ P)%(pa_selected _ _ P)|(x & Hx & ->)]; [tauto|by apply entry_record].
  - intros op r [H|(x & Hx & ->)]%insert_records_Some; [by apply (pa_selected _ _ P)|]. split; [by apply entry_record|by eapply Hf'].
  - intros op o [H%Hmm|H]%Hm' Hcb; [by apply (pa_made _ _ P)|by right].
  - rewrite Ht', imap_pair_snd, Htm, (pa_total _ _ P), (ins_fee _ _ _ _ _ _ _ _ _ _ _ _ _ Hin).
    rewrite (same_values (in_spends i) (in_spends i') Eops); [lia|]. intros op r r' Hr Hr'.
    destruct (taken_elem _ _ _ _ _ _ _ Hk Hr) as (_ & _ & _ & _ & _ & _ & Hres & _).
    destruct (taken_elem _ _ _ _ _ _ _ Hk' Hr') as (_ & _ & _ & _ & _ & Hncb & Hres' & _). by eapply resolve_same.
  - intros op. rewrite Hs', Hsm, elem_of_union, elem_of_list_to_set, Eops. intros [Hop|Hop]; [right|by apply (pa_opened _ _ P)].
    apply list_elem_of_fmap in Hop as (e & -> & He). destruct (taken_elem _ _ _ _ _ _ _ Hk' He) as (n & inp & Hn & Hp & _ & _ & Hres & Hopen).
    exists tx, n, inp, e.2. split; [by eapply list_elem_of_lookup_2|]. split; [done|]. split; [done|]. split; [done|].
    apply (resolve_stored a); [apply (pa_inv _ _ P)|done].
Qed.
Lemma passes_run mode (l : list (nat * TltCovenantTx)) s s' : rfold (select mode predicted pcb) s l = Ok s' ->
  (forall e, e ∈ l -> covenants !! e.1 = Some e.2) ->
  exists rest, cs_indexes s' = cs_indexes s ++ rest /\
    forall a a', passes s a -> rfold apply_one a rest = Ok a' -> passes s' a'.
Proof.
  revert s. induction l as [|[index tx] l IH]; intros s H Hl; cbn [rfold] in H.
  { injection H as <-. exists []. rewrite app_nil_r. split; [done|]. by intros a a' P [= <-]. }
  apply rbind_Ok in H as (s1 & H1 & H). destruct (IH _ H (fun e He => Hl e ltac:(by right))) as (rest & Eo & Hp).
  apply passes_step in H1 as [->|(E1 & Hs)]; [by exists rest|]. exists (index :: rest). rewrite Eo, E1, <- app_assoc.
  split; [done|]. intros a a' P Ha. cbn [rfold] in Ha. apply rbind_Ok in Ha as (a1 & Ha1 & Ha).
  apply (Hp a1); [|done]. apply (Hs a); [done| |done]. apply (Hl (index, tx)). left.
Qed.
End passes.

(** ** Blocks *)

Lemma delete_all_lookup (l : list OutPoint) c op : write_covenants c (CDelete <$> l) !! op = if bool_decide (op ∈ l) then None else c !! op.
Proof.
  revert c. induction l as [|x l IH]; intros c; [by rewrite bool_decide_eq_false_2 by apply not_elem_of_nil|].
  rewrite fmap_cons. unfold write_covenants in *. cbn [foldl]. rewrite IH. cbn [apply_covenant_op]. destruct (decide (op = x)) as [->|Hne].
  - rewrite lookup_delete_eq, (bool_decide_eq_true_2 (x ∈ x :: l)) by left. by destruct (bool_decide _).
  - rewrite lookup_delete_ne by done. by rewrite (bool_decide_ext (op ∈ x :: l) (op ∈ l)) by set_solver.
Qed.
Lemma put_all_lookup (l : list (OutPoint * TltCovenantUtxoRecord)) c op : NoDup l.*1 ->
  write_covenants c ((fun e => CPut e.1 e.2) <$> l) !! op = match (list_to_map l : CovenantSet) !! op with Some r => Some r | None => c !! op end.
Proof.
  revert c. induction l as [|[x r] l IH]; intros c Hn; [done|]. rewrite fmap_cons in Hn. apply NoDup_cons in Hn as [Hx Hn]. cbn [fst] in Hx.
  rewrite fmap_cons. unfold write_covenants in *. cbn [foldl fst snd]. rewrite IH, list_to_map_cons by done. cbn [apply_covenant_op].
  destruct (decide (op = x)) as [->|Hne]; [|rewrite !lookup_insert_ne by congruence; reflexivity]. rewrite !lookup_insert_eq. by rewrite (not_elem_of_list_to_map_1 _ _ Hx).
Qed.

Section covenant_block.
Context `{SC : ScriptCrypto} {Auth : Type}.
Variable covenant_tx_id : TltCovenantTx -> Hash.
Variable covenant_len : TltCovenantTx -> Z.
Variable sighash_preimage : TltCovenantTx -> Bytes.
Variable sighash_preimage_bound : TltCovenantTx -> Auth -> Bytes.
Variable verify_transaction_bound : Transaction -> Auth -> result StateError unit.
Variable address_from_pubkey : list Z -> Address.
Variable signer_address : Transaction -> result StateError Address.
Variable tx_id : Transaction -> Hash.
Hypothesis tx_id_inj : forall t t', tx_id t = tx_id t' -> t = t'.
Hypothesis covenant_id_inj : forall t t', covenant_tx_id t = covenant_tx_id t' -> t = t'.
Hypothesis ids_apart : forall t t', tx_id t <> covenant_tx_id t'.
Variables (u : UtxoSet) (c : CovenantSet) (auth : option Auth) (blue mtp : Z).
Hypothesis Hlaw : lawful covenant_tx_id tx_id u c.
Variables (txs : list Transaction) (covenants : list TltCovenantTx).
Abbreviation spent_ops st := (spent_in_block (ca_utxo st)).
Abbreviation signer_of tx := (verify_and_signer verify_transaction_bound address_from_pubkey signer_address tx auth).
Abbreviation apply_block := (apply_tlt_block covenant_tx_id covenant_len sighash_preimage sighash_preimage_bound verify_transaction_bound
  address_from_pubkey signer_address tx_id Virtual auth u c txs covenants).
Abbreviation lane := (lane_ops verify_transaction_bound address_from_pubkey signer_address tx_id auth u txs).
Abbreviation cov_inv := (covenant_inv covenant_tx_id tx_id u c).
Abbreviation both predicted us := (passes covenant_tx_id sighash_preimage sighash_preimage_bound tx_id u c auth blue mtp covenants predicted us).
Abbreviation start us := {| ca_utxo := us; ca_batch := []; ca_created := []; ca_spent := []; ca_scripts := ∅ |}.

(** After the transfers, before the first covenant. *)
Lemma covenant_start us : utxo_inv u us -> lane us -> cov_inv (start us).
Proof.
  intros Hi Hl. assert (forall op, op ∈ spent_in_block us -> c !! op = None) as Hsp.
  { intros op [[o Ho]|Ht]%(lo_spent _ _ _ _ _ _ _ _ Hl); apply eq_None_not_Some; intros [r Hr];
      [by eapply (lw_disjoint _ _ _ _ Hlaw)|by apply (lw_scripts _ _ _ _ Hlaw) in Hr as [? _]]. }
  split; cbn [ca_utxo ca_scripts ca_created ca_spent]; try done.
  - intros op. rewrite lookup_empty. change (cview c _) with c. case_bool_decide as H; [by apply Hsp|done].
  - intros op. rewrite lookup_empty. split; [by intros ?%elem_of_nil|by intros []].
  - intros op r H. by apply elem_of_nil in H.
  - intros op r H Hr. apply Hsp in H. congruence.
  - constructor.
  - intros op o H. left. by eapply (lo_created _ _ _ _ _ _ _ _ Hl).
Qed.
Lemma passes_start budget sel bs predicted v1 : joint u budget sel bs -> lane (bs_utxo bs) -> predicts tx_id sel predicted v1 ->
  both predicted (bs_utxo bs) {| cs_indexes := []; cs_total := 0; cs_spent := v1; cs_scripts := ∅; cs_seen := ∅ |} (start (bs_utxo bs)).
Proof.
  intros J Hl Hp. split; cbn [ca_utxo ca_scripts cs_spent cs_scripts cs_total].
  - apply covenant_start; [apply (jt_inv _ _ _ _ J)|done].
  - intros op. by rewrite (pr_spent _ _ _ _ Hp), (jt_spent _ _ _ _ J).
  - done.
  - intros op r H. by rewrite lookup_empty in H.
  - intros op o H Hcb. left. destruct (lo_transfer _ _ _ _ _ _ _ _ Hl _ _ H Hcb) as (t & Hi & Ht).
    apply (pr_transfer _ _ _ _ Hp _ _ t Hi Ht). by apply (jt_created _ _ _ _ J).
  - unfold tlt_total, cview. cbn. lia.
  - by left.
Qed.

Lemma apply_block_passes emission b cb j stats : 0 <= emission -> apply_block emission blue mtp = Ok (b, cb, j, stats) ->
  exists bs predicted s a, both predicted (bs_utxo bs) s a /\ lane (bs_utxo bs) /\
    utxo_total (view_of u (bs_utxo bs)) = utxo_total u + coinbase_total bs - (fees (cj_utxo j) - cs_total s) /\
    coinbase_total bs <= emission + fees (cj_utxo j) /\
    b = u_batch (ca_utxo a) /\ cb = ca_batch a /\ tlt_covenant_created j = ca_created a /\ tlt_covenant_spent j = ca_spent a /\
    created (cj_utxo j) = u_created (ca_utxo a) /\ spent (cj_utxo j) = u_spent (ca_utxo a) /\ j_coinbase_total (cj_utxo j) = coinbase_total bs /\
    subsidy (cj_utxo j) = saturating_sub (coinbase_total bs) (Z.min (fees (cj_utxo j)) (coinbase_total bs)).
Proof.
  intros He H. unfold apply_tlt_block in H. apply rbind_Ok in H as (l & Hsel & H). unfold selectable_transfers in Hsel. apply rbind_Ok in Hsel as (sel & Hsel & [= <-]).
  apply rbind_Ok in H as (fs & ->%fees_sum & H). pose proof (prediction_ok _ _ _ _ tx_id_inj _ _ _ _ Hsel) as Hp. cbv zeta in Hp.
  destruct (predicted_address_outputs _ _ _ _) as [[predicted pcb] v1] eqn:Epr. cbn [fst snd] in Hp.
  apply rbind_Ok in H as ([idx cf] & Hcs & H). unfold selectable_covenant_fees in Hcs. apply rbind_Ok in Hcs as (s & Hs & [= <- <-]).
  apply rbind_Ok in H as (fees' & [-> _]%ok_or_Ok%checked_add_Some & H). apply rbind_Ok in H as (bud & [-> _]%ok_or_Ok%checked_add_Some & H).
  apply rbind_Ok in H as (bs & Hbs & H). apply rbind_Ok in H as (_ & _ & H). apply rbind_Ok in H as (a & Ha & H). apply Ok_inj in H.
  apply pair_eq in H as [H _]. apply pair_eq in H as [H <-]. apply pair_eq in H as [<- <-]. exists bs, predicted, s, a.
  cbn [cj_utxo fees created spent j_coinbase_total subsidy tlt_covenant_created tlt_covenant_spent].
  assert (lane (bs_utxo bs)) as Hl by (eapply lane_run; [| |exact Hbs]; [done|apply lane_ops_start]).
  assert (0 <= zsum (snd <$> sel_out sel)) as Hf by (apply zsum_nonneg; eapply fees_nonneg; [|exact Hsel]; constructor).
  assert (0 <= cs_total s) as Hct by (eapply select_fees; [exact Hs|done]).
  assert (joint u (emission + (zsum (snd <$> sel_out sel) + cs_total s)) sel bs) as J
    by (eapply joint_run; [done| |exact Hsel|exact Hbs]; apply joint_start; lia).
  assert (forall op o, predicted !! op = Some o -> u !! op = None) as Hfresh
    by (intros op o Ho; eapply (jt_fresh _ _ _ _ J); by apply (pr_sub _ _ _ _ Hp)).
  destruct (passes_run _ _ _ _ _ covenant_id_inj ids_apart _ _ _ _ _ Hlaw covenants _ _ (bs_utxo bs) (pr_op _ _ _ _ Hp) Hfresh _ _ _ _ Hs) as (rest & Eo & Hrun).
  { intros e (i & tx & -> & Hi)%elem_of_lookup_imap. done. }
  cbn [cs_indexes app] in Eo. rewrite Eo in Ha. split; [eapply Hrun; [by eapply passes_start|exact Ha]|]. split; [done|].
  destruct (jt_cb _ _ _ _ J) as (_ & _ & Hb). rewrite (jt_total _ _ _ _ J). split; [lia|]. split; [lia|done].
Qed.

Lemma covenant_revert a j : cov_inv a -> tlt_covenant_created j = ca_created a -> tlt_covenant_spent j = ca_spent a ->
  write_covenants (cview c a) (revert_covenant_outputs j) = c.
Proof.
  intros Hi Ec Es. unfold revert_covenant_outputs. rewrite write_covenants_app, Ec, Es. apply map_eq. intros op.
  assert (NoDup (reverse (ca_spent a)).*1) as Hn by (rewrite fmap_reverse, reverse_Permutation; apply (ci_nodup _ _ _ _ _ Hi)).
  rewrite put_all_lookup by done. destruct (list_to_map (reverse (ca_spent a)) !! op) as [r|] eqn:El.
  { apply elem_of_list_to_map_2 in El. rewrite elem_of_reverse in El. symmetry. by apply (ci_spent _ _ _ _ _ Hi). }
  rewrite delete_all_lookup. rewrite (bool_decide_ext _ (is_Some (ca_scripts a !! op))) by (by rewrite elem_of_reverse, (ci_created _ _ _ _ _ Hi)).
  rewrite (ci_view _ _ _ _ _ Hi). case_bool_decide as Hs; [destruct Hs as [r Hr]; symmetry; by eapply (ci_fresh _ _ _ _ _ Hi)|].
  apply eq_None_not_Some in Hs. rewrite Hs. case_bool_decide as Hsp; [|done]. destruct (c !! op) as [r|] eqn:Hc; [|done]. exfalso.
  apply not_elem_of_list_to_map_2 in El. apply El, list_elem_of_fmap. exists (op, r). split; [done|]. apply elem_of_reverse. by apply (ci_spent_all _ _ _ _ _ Hi).
Qed.

(** The value in both kinds of outputs. *)
Definition tlt_supply (u : UtxoSet) (c : CovenantSet) : Z := utxo_total u + covenant_total c.

(** C9: A block of transfers and covenants applied in the virtual mode, the one the
    node applies blocks in, creates TLT only as subsidy.  From records where
    addresses and scripts hold different outputs, whatever transfers and covenants are skipped, the value held at addresses and by scripts
    together changes by exactly the coinbase less the fees of what was applied; the
    subsidy is what the coinbase claims above those fees, and it is at most the
    emission. *)
Theorem covenant_block_conserves emission b cb j stats :
  0 <= emission -> apply_block emission blue mtp = Ok (b, cb, j, stats) ->
  tlt_supply (write_utxos u b) (write_covenants c cb) = tlt_supply u c + j_coinbase_total (cj_utxo j) - fees (cj_utxo j) /\
  subsidy (cj_utxo j) = Z.max 0 (j_coinbase_total (cj_utxo j) - fees (cj_utxo j)) /\ subsidy (cj_utxo j) <= emission.
Proof.
  intros He H. destruct (apply_block_passes _ _ _ _ _ He H) as (bs & pr & s & a & P & _ & Ht & Hle & -> & -> & _ & _ & _ & _ & -> & ->).
  destruct P as [_ _ _ _ _ Hp _]. unfold tlt_total, view_of, cview in *. unfold tlt_supply, saturating_sub. lia.
Qed.

(** C10: The journal undoes a block of transfers and covenants applied in the
    virtual mode, the node's.  Applying the batch
    built from the journal after the block gives back the address outputs and the
    script records exactly. *)
Theorem covenant_block_journal emission b cb j stats :
  0 <= emission -> apply_block emission blue mtp = Ok (b, cb, j, stats) ->
  write_utxos (write_utxos u b) (revert_utxos (cj_utxo j)) = u /\ write_covenants (write_covenants c cb) (revert_covenant_outputs j) = c.
Proof.
  intros He H. destruct (apply_block_passes _ _ _ _ _ He H) as (bs & pr & s & a & P & _ & _ & _ & -> & -> & Ec & Es & Eu & Esp & _).
  destruct P as [Hi _ _ _ _ _ Hopened]. split; [by apply (revert_inv u (ca_utxo a) _ (ci_utxo _ _ _ _ _ Hi))|].
  by apply (covenant_revert a).
Qed.

(** Addresses and scripts hold different outputs, for ever.  A block keeps every
    outpoint under at most one of the two kinds, and each kind free of outpoints that
    belong to the other. *)
Theorem covenant_block_lawful emission b cb j stats :
  0 <= emission -> apply_block emission blue mtp = Ok (b, cb, j, stats) ->
  lawful covenant_tx_id tx_id (write_utxos u b) (write_covenants c cb).
Proof.
  intros He H. destruct (apply_block_passes _ _ _ _ _ He H) as (bs & pr & s & a & P & _ & _ & _ & -> & -> & _).
  destruct P as [Hi _ _ _ _ _ Hopened]. change (write_covenants c (ca_batch a)) with (cview c a). change (write_utxos u (u_batch (ca_utxo a))) with (view_of u (ca_utxo a)).
  assert (forall op o, view_of u (ca_utxo a) !! op = Some o -> is_Some (created_in_block (ca_utxo a) !! op) \/ u !! op = Some o) as Hu.
  { intros op o. rewrite (ui_view _ _ (ci_utxo _ _ _ _ _ Hi)). destruct (created_in_block (ca_utxo a) !! op); [left; by eexists|]. case_bool_decide; auto; done. }
  assert (forall op r, cview c a !! op = Some r -> is_Some (ca_scripts a !! op) \/ c !! op = Some r) as Hc.
  { intros op r. rewrite (ci_view _ _ _ _ _ Hi). destruct (ca_scripts a !! op); [left; by eexists|]. case_bool_decide; auto; done. }
  split.
  - intros op o r [[o' Ho]|Ho]%Hu [[r' Hr]|Hr]%Hc.
    + apply (made_apart _ _ covenant_id_inj ids_apart _ _ Hlaw _ _ _ Hi) in Ho as [? _]. congruence.
    + apply (made_apart _ _ covenant_id_inj ids_apart _ _ Hlaw _ _ _ Hi) in Ho as [_ ?]. congruence.
    + eapply (lw_addresses _ _ _ _ Hlaw); [exact Ho|by eapply (ci_scripts _ _ _ _ _ Hi)].
    + by eapply (lw_disjoint _ _ _ _ Hlaw).
  - intros op r [[r' Hr]|Hr]%Hc; [|by eapply (lw_scripts _ _ _ _ Hlaw)]. apply (ci_scripts _ _ _ _ _ Hi) in Hr.
    split; [by apply (script_transfer covenant_tx_id tx_id)|]. intros Hlk. by eapply (script_locked covenant_tx_id).
  - intros op o [[o' Ho]|Ho]%Hu; [|by eapply (lw_addresses _ _ _ _ Hlaw)]. intros Hs.
    apply (ci_made _ _ _ _ _ Hi) in Ho as [Ho|Ho]; [by eapply (script_transfer covenant_tx_id tx_id)|by eapply (script_locked covenant_tx_id)].
Qed.

(** The covenant [tx] of the block spends [op] with its input [n]. *)
Definition spends_at (tx : TltCovenantTx) (n : nat) (op : OutPoint) : Prop :=
  tx ∈ covenants /\ exists i, ct_inputs tx !! n = Some i /\ ci_previous_outpoint i = op.

(** C11: No TLT moves without its lock.  An output of an address that is gone after
    a block of transfers and covenants, applied in the virtual mode, was spent by a transaction of the block its address signed, or by a
    covenant that presents a key hashing to the address with a signature of the
    covenant; a script output that is gone was spent by a covenant whose script
    opened the recorded script at the block's score and time. *)
Theorem tlt_spent_only_by_owner emission b cb j stats :
  0 <= emission -> apply_block emission blue mtp = Ok (b, cb, j, stats) ->
  (forall op o, u !! op = Some o -> write_utxos u b !! op = None ->
     (exists t, t ∈ txs /\ op ∈ previous_outpoint <$> inputs t /\ signer_of t = Ok (out_address o)) \/
     (exists tx n pubkey signature, spends_at tx n op /\ take 20 (hash_bytes (sha256 pubkey)) = address_bytes (out_address o) /\
        check_sig pubkey signature (sighash sighash_preimage sighash_preimage_bound tx auth) = true)) /\
  (forall op r, c !! op = Some r -> write_covenants c cb !! op = None ->
     exists tx n, spends_at tx n op /\
       eval_covenant_input_preimage tx n (cr_script_pubkey r) blue mtp (record_origin r) (sighash sighash_preimage sighash_preimage_bound tx auth) = Ok tt).
Proof.
  intros He H. destruct (apply_block_passes _ _ _ _ _ He H) as (bs & pr & s & a & P & Hl & _ & _ & -> & -> & _).
  destruct P as [Hi _ _ _ _ _ Hopened]. split.
  - intros op o Ho Hgone. change (view_of u (ca_utxo a) !! op = None) in Hgone. rewrite (ui_view _ _ (ci_utxo _ _ _ _ _ Hi)) in Hgone.
    destruct (created_in_block (ca_utxo a) !! op); [done|]. case_bool_decide as Hsp; [|congruence].
    apply Hopened in Hsp as [Hsp|(tx & n & i & r & Htx & Hn & Hp & Hop & Hsc & _)]; [left; by eapply (lo_signed _ _ _ _ _ _ _ _ Hl)|right].
    unfold opened, eval_covenant_input_preimage in Hop. apply rbind_Ok in Hop as (_ & _ & Hop). apply rbind_Ok in Hop as (i' & _ & Hop).
    rewrite (Hsc _ Ho) in Hop. apply p2pkh_opens in Hop as (_ & pk & sg & _ & Hk & Hsg). exists tx, n, pk, sg. split; [split; [done|by exists i]|]. by split.
  - intros op r Hr Hgone. change (cview c a !! op = None) in Hgone. rewrite (ci_view _ _ _ _ _ Hi) in Hgone.
    destruct (ca_scripts a !! op); [done|]. case_bool_decide as Hsp; [|congruence].
    apply Hopened in Hsp as [Hsp|(tx & n & i & r' & Htx & Hn & Hp & Hop & _ & Hsc)].
    + exfalso. apply (lo_spent _ _ _ _ _ _ _ _ Hl) in Hsp as [[o Ho]|Ht]; [by eapply (lw_disjoint _ _ _ _ Hlaw)|by apply (lw_scripts _ _ _ _ Hlaw) in Hr as [? _]].
    + exists tx, n. split; [split; [done|by exists i]|]. destruct (Hsc _ Hr) as [E1 E2]. unfold opened in Hop. by rewrite E1, E2 in Hop.
Qed.
End covenant_block.

(** ** A block with covenants *)

(** A collision-free id of covenants, apart from the ids of transfers. *)
Definition input_row (i : TltCovenantInput) : Z * Z * Z * Bytes :=
  (op_tx (ci_previous_outpoint i), op_index (ci_previous_outpoint i), ci_sequence i, ci_script_sig i).
Definition output_row (o : TltCovenantOutput) : Z * Bytes := (co_value o, co_script_pubkey o).
Definition covenant_row (t : TltCovenantTx) : Z * Z * Z * list (Z * Z * Z * Bytes) * list (Z * Bytes) :=
  (ct_version t, ct_lock_time t, ct_nonce t, input_row <$> ct_inputs t, output_row <$> ct_outputs t).
Definition demo_covenant_id (t : TltCovenantTx) : Hash := Z.neg (encode (covenant_row t)).
#[local] Instance input_row_inj : Inj (=) (=) input_row.
Proof. intros [[]] [[]] [=]. by subst. Qed.
#[local] Instance output_row_inj : Inj (=) (=) output_row.
Proof. intros [] [] [=]. by subst. Qed.
Lemma demo_covenant_id_inj t t' : demo_covenant_id t = demo_covenant_id t' -> t = t'.
Proof.
  unfold demo_covenant_id. intros [= H%(inj encode)]. destruct t as [v i o l n], t' as [v' i' o' l' n']. unfold covenant_row in H.
  cbn [ct_version ct_lock_time ct_nonce ct_inputs ct_outputs] in H. injection H as -> -> -> Hi%(inj (fmap input_row)) Ho%(inj (fmap output_row)). by subst.
Qed.
Lemma demo_ids_apart t t' : demo_tx_id t <> demo_covenant_id t'.
Proof. done. Qed.

(** The first covenant spends an address output and claims the preimage branch of
    a swap, with a fee of 5; the second lost its input. *)
Definition stored_swap : TltCovenantUtxoRecord :=
  {| cr_value := 50; cr_script_pubkey := swap_lock; cr_origin_blue_score := 3; cr_origin_median_time_secs := 9 |}.
Definition demo_addresses : UtxoSet := {[ {| op_tx := 1; op_index := 0 |} := demo_out 100 0 ]}.
Definition demo_scripts : CovenantSet := {[ {| op_tx := 0; op_index := 0 |} := stored_swap ]}.
Definition cov_in (t : Z) (sig : Bytes) : TltCovenantInput :=
  {| ci_previous_outpoint := {| op_tx := t; op_index := 0 |}; ci_sequence := 0; ci_script_sig := sig |}.
Definition demo_covenant (n : Z) (ins : list TltCovenantInput) (outs : list TltCovenantOutput) : TltCovenantTx :=
  {| ct_version := TLT_COVENANT_TX_VERSION; ct_inputs := ins; ct_outputs := outs; ct_lock_time := 0; ct_nonce := n |}.
Definition demo_covenants : list TltCovenantTx :=
  [demo_covenant 1 [cov_in 1 (written [alice; alice]); cov_in 0 (written [alice; [42]; [1]])]
     [{| co_value := 90; co_script_pubkey := swap_lock |}; {| co_value := 55; co_script_pubkey := script_p2pkh 5 |}];
   demo_covenant 2 [cov_in 1 (written [alice; alice])] [{| co_value := 100; co_script_pubkey := script_p2pkh 6 |}]].
Definition demo_covenant_block :=
  apply_tlt_block (Auth := unit) demo_covenant_id (fun _ => 0) (fun _ => [7]) (fun _ _ => [7]) (fun _ _ => Ok tt) (fun _ => 0) owner_7 demo_tx_id Virtual None
    demo_addresses demo_scripts [demo_tx 0 [] [demo_out 55 9]] demo_covenants 50 10 100.

Lemma demo_lawful : lawful demo_covenant_id demo_tx_id demo_addresses demo_scripts.
Proof.
  unfold demo_addresses, demo_scripts. split.
  - intros op o r [<- _]%lookup_singleton_Some [H _]%lookup_singleton_Some. discriminate H.
  - intros op r [<- _]%lookup_singleton_Some. split; [by intros [t [=]]|]. intros (tx & n & out & (_ & _ & H) & _). discriminate H.
  - intros op o [<- _]%lookup_singleton_Some (tx & n & out & (_ & _ & H) & _). discriminate H.
Qed.
Lemma demo_emission : 0 <= 50.
Proof. lia. Qed.
Lemma demo_block_Ok : match demo_covenant_block with
  | Ok (b, cb, j, _) => fees (cj_utxo j) = 5 /\ j_coinbase_total (cj_utxo j) = 55 /\
      write_utxos demo_addresses b !! {| op_tx := 1; op_index := 0 |} = None /\ write_covenants demo_scripts cb !! {| op_tx := 0; op_index := 0 |} = None
  | Err _ => False end.
Proof. vm_compute. repeat split. Qed.
Lemma covenant_block_conserves_witness :
  exists b cb j stats, demo_covenant_block = Ok (b, cb, j, stats) /\ tlt_supply (write_utxos demo_addresses b) (write_covenants demo_scripts cb) = 200.
Proof.
  pose proof demo_block_Ok as H. destruct demo_covenant_block as [[[[b cb] j] stats]|] eqn:E; [|destruct H]. exists b, cb, j, stats. split; [reflexivity|].
  destruct (covenant_block_conserves _ _ _ _ _ _ _ _ demo_tx_id_inj demo_covenant_id_inj demo_ids_apart _ _ _ _ _ demo_lawful _ _ _ _ _ _ _ demo_emission E) as [-> _].
  destruct H as (-> & -> & _). vm_compute. reflexivity.
Defined.
Lemma covenant_block_journal_witness :
  exists b cb j stats, demo_covenant_block = Ok (b, cb, j, stats) /\ write_covenants (write_covenants demo_scripts cb) (revert_covenant_outputs j) = demo_scripts.
Proof.
  pose proof demo_block_Ok as H. destruct demo_covenant_block as [[[[b cb] j] stats]|] eqn:E; [|destruct H]. exists b, cb, j, stats. split; [reflexivity|].
  exact (proj2 (covenant_block_journal _ _ _ _ _ _ _ _ demo_tx_id_inj demo_covenant_id_inj demo_ids_apart _ _ _ _ _ demo_lawful _ _ _ _ _ _ _ demo_emission E)).
Defined.
Lemma covenant_block_lawful_witness :
  exists b cb j stats, demo_covenant_block = Ok (b, cb, j, stats) /\
    lawful demo_covenant_id demo_tx_id (write_utxos demo_addresses b) (write_covenants demo_scripts cb).
Proof.
  pose proof demo_block_Ok as H. destruct demo_covenant_block as [[[[b cb] j] stats]|] eqn:E; [|destruct H]. exists b, cb, j, stats. split; [reflexivity|].
  exact (covenant_block_lawful _ _ _ _ _ _ _ _ demo_tx_id_inj demo_covenant_id_inj demo_ids_apart _ _ _ _ _ demo_lawful _ _ _ _ _ _ _ demo_emission E).
Defined.
Lemma tlt_spent_only_by_owner_witness :
  exists tx n, spends_at demo_covenants tx n {| op_tx := 0; op_index := 0 |} /\
    eval_covenant_input_preimage tx n swap_lock 10 100 (record_origin stored_swap) [7] = Ok tt.
Proof.
  pose proof demo_block_Ok as H. destruct demo_covenant_block as [[[[b cb] j] stats]|] eqn:E; [|destruct H]. destruct H as (_ & _ & _ & Hc).
  exact (proj2 (tlt_spent_only_by_owner _ _ _ _ _ _ _ _ demo_tx_id_inj demo_covenant_id_inj demo_ids_apart _ _ _ _ _ demo_lawful _ _ _ _ _ _ _ demo_emission E) {| op_tx := 0; op_index := 0 |} stored_swap eq_refl Hc).
Defined.

(** ** Blocks without covenants *)

(** On a block without covenants this is the transfer lane alone. *)
Lemma apply_without_covenants `{SC : ScriptCrypto} {Auth : Type} covenant_tx_id covenant_len sighash_preimage sighash_preimage_bound
    verify address_of signer tx_id mode (auth : option Auth) u c txs emission blue mtp :
  apply_tlt_block covenant_tx_id covenant_len sighash_preimage sighash_preimage_bound verify address_of signer tx_id mode auth u c txs [] emission blue mtp =
  (let? (b, j, stats) := apply_transactions verify address_of signer tx_id mode auth u txs emission in
   Ok (b, [], {| cj_utxo := j; tlt_covenant_created := []; tlt_covenant_spent := [] |}, stats)).
Proof.
  unfold apply_tlt_block, apply_transactions. destruct (selectable_transfers _ _ _ _ _ _ _ _) as [l|]; [|done]. cbn [rbind].
  destruct (rfold _ 0 l) as [fs|] eqn:Hf; [|done]. cbn [rbind]. destruct (predicted_address_outputs _ _ _ _) as [[p pcb] v1].
  assert (fs <= u64_max) as Hle.
  { revert Hf. apply (rfold_inv _ (fun fs => fs <= u64_max)); [done|]. intros t e t' _ _ H. apply ok_or_Ok, checked_add_Some in H. lia. }
  cbn [selectable_covenant_fees imap rfold rbind]. unfold checked_add at 1. rewrite Z.add_0_r, (proj2 (Z.leb_le _ _) Hle). cbn [ok_or rbind].
  destruct (ok_or _ (checked_add _ emission fs)) as [bud|]; [|done]. cbn [rbind]. destruct (rfold _ block_start txs) as [bs|]; [|done]. cbn [rbind].
  destruct (ensure _ _); done.
Qed.
