(* ===== verification/Payment.v ===== *)
(** * DRC payments ([types/src/payment.rs], [state-machine/src/payments/mod.rs])

    A payment moves DRC between two accounts at once and leaves a receipt and an
    outbox event.  A non-zero invoice id names a bill of the recipient, which can
    be paid once.  Envelope versions 1 to 5 add in turn a source tag, an explicit
    destination tag, an expiry score and a ticket selector.

    The records under the four key prefixes and the rolling root are a
    [PaymentStore]; as for the other DRC objects the batch is kept as two lists.
    The hash of an envelope, the hash of the root and the authorization check are
    parameters. *)

From stdpp Require Import base gmap list fin_maps strings.
From Stdlib Require Import ZArith Lia.
From S2P Require Import Prelude Ordering Sums Types Finality Store Supply Accounts Objects Policy.
Local Open Scope Z_scope.

Definition DRC_PAYMENT_LEGACY_VERSION : Z := 1.
Definition DRC_PAYMENT_SOURCE_TAG_VERSION : Z := 2.
Definition DRC_PAYMENT_DESTINATION_TAG_VERSION : Z := 3.
Definition DRC_PAYMENT_VERSION : Z := 4.
Definition DRC_PAYMENT_TICKET_VERSION : Z := 5.
Definition DRC_PAYMENT_RECEIPT_LEGACY_VERSION : Z := 1.
Definition DRC_PAYMENT_RECEIPT_DESTINATION_TAG_VERSION : Z := 2.
Definition DRC_PAYMENT_RECEIPT_VERSION : Z := 3.

Record DrcPaymentTx := {
  pm_version : Z;
  pm_from : Address;
  pm_to : Address;
  pm_amount : Z;
  pm_fee : Z;
  pm_destination_tag : option Z;
  pm_source_tag : option Z;
  pm_invoice_id : Hash;
  pm_nonce : Z;
  pm_account_sequence : option DrcAccountSequenceSelector;
  pm_last_valid_blue_score : option Z;
  pm_public_key : list Z;
  pm_signature : list Z;
}.
Inductive DrcPaymentResult := DeliveredExact.
Record DrcPaymentReceipt := {
  pr_version : Z;
  pr_payment_id : Hash;
  pr_payment_version : Z;
  pr_result : DrcPaymentResult;
  pr_from : Address;
  pr_to : Address;
  pr_requested_amount : Z;
  pr_delivered_amount : Z;
  pr_fee_paid : Z;
  pr_source_tag : option Z;
  pr_destination_tag : option Z;
  pr_invoice_id : Hash;
  pr_last_valid_blue_score : option Z;
}.
Record DrcPaymentOutboxEvent := {
  po_payment_id : Hash;
  po_payment_version : Z;
  po_from : Address;
  po_to : Address;
  po_amount : Z;
  po_source_tag : option Z;
  po_destination_tag : option Z;
  po_invoice_id : Hash;
  po_last_valid_blue_score : option Z;
}.

Definition validate_envelope_version (tx : DrcPaymentTx) : result string unit :=
  ensure (negb ((pm_version tx <? DRC_PAYMENT_TICKET_VERSION) && has_ticket_selector (pm_account_sequence tx)))
    "ticket sequence selector requires a ticket-capable operation version"%string ;?
  ensure (negb ((pm_version tx <? DRC_PAYMENT_VERSION) && bool_decide (is_Some (pm_last_valid_blue_score tx))))
    "DRC payment v1-v3 cannot carry a last-valid blue score"%string ;?
  ensure (negb ((pm_version tx =? DRC_PAYMENT_LEGACY_VERSION) && bool_decide (is_Some (pm_source_tag tx))))
    "DRC payment v1 cannot carry a source tag"%string ;?
  ensure ((pm_version tx =? DRC_PAYMENT_LEGACY_VERSION) || (pm_version tx =? DRC_PAYMENT_SOURCE_TAG_VERSION) ||
          (pm_version tx =? DRC_PAYMENT_DESTINATION_TAG_VERSION) || (pm_version tx =? DRC_PAYMENT_VERSION) ||
          (pm_version tx =? DRC_PAYMENT_TICKET_VERSION)) "unsupported DRC payment version"%string.
(** Versions 1 and 2 write an absent tag as zero. *)
Definition authenticated_destination_tag (tx : DrcPaymentTx) : option Z :=
  if pm_version tx <=? DRC_PAYMENT_SOURCE_TAG_VERSION
  then match pm_destination_tag tx with Some t => if t =? 0 then None else Some t | None => None end
  else pm_destination_tag tx.
Definition is_expired_at_blue_score (tx : DrcPaymentTx) (application_blue_score : Z) : bool :=
  match pm_last_valid_blue_score tx with Some cutoff => cutoff <? application_blue_score | None => false end.

Definition validate_exact (r : DrcPaymentReceipt) : result string unit :=
  ensure ((pr_version r =? DRC_PAYMENT_RECEIPT_LEGACY_VERSION) || (pr_version r =? DRC_PAYMENT_RECEIPT_DESTINATION_TAG_VERSION) ||
          (pr_version r =? DRC_PAYMENT_RECEIPT_VERSION)) "unsupported DRC payment receipt version"%string ;?
  ensure (negb (pr_requested_amount r =? 0)) "DRC payment receipt amount must be non-zero"%string ;?
  ensure (pr_requested_amount r =? pr_delivered_amount r) "DRC payment receipt requested and delivered amounts differ"%string ;?
  let v := pr_payment_version r in
  let legacy := (v =? DRC_PAYMENT_LEGACY_VERSION) || (v =? DRC_PAYMENT_SOURCE_TAG_VERSION) in
  if (v =? DRC_PAYMENT_LEGACY_VERSION) && bool_decide (is_Some (pr_source_tag r))
  then Err "DRC payment v1 receipt cannot carry a source tag"%string
  else if (legacy || (v =? DRC_PAYMENT_DESTINATION_TAG_VERSION)) && bool_decide (is_Some (pr_last_valid_blue_score r))
  then Err "DRC payment v1-v3 receipt cannot carry a last-valid blue score"%string
  else if legacy && bool_decide (pr_destination_tag r = Some 0)
  then Err "DRC payment v1/v2 receipt cannot distinguish destination tag 0 from no tag"%string
  else if legacy && (pr_version r =? DRC_PAYMENT_RECEIPT_LEGACY_VERSION) then Ok tt
  else if (v =? DRC_PAYMENT_DESTINATION_TAG_VERSION) && (pr_version r =? DRC_PAYMENT_RECEIPT_DESTINATION_TAG_VERSION) then Ok tt
  else if (v =? DRC_PAYMENT_VERSION) && (pr_version r =? DRC_PAYMENT_RECEIPT_VERSION) then Ok tt
  else if legacy || (v =? DRC_PAYMENT_DESTINATION_TAG_VERSION) || (v =? DRC_PAYMENT_VERSION)
  then Err "DRC payment and receipt versions are incompatible"%string
  else Err "unsupported DRC payment envelope version in receipt"%string.

(** ** State *)

Record PaymentStore := {
  py_seen : gset Hash;
  py_invoices : gmap (Address * Hash) Hash;
  py_outbox : gmap Hash DrcPaymentOutboxEvent;
  py_receipts : gmap Hash DrcPaymentReceipt;
  py_root : option Hash;
}.
Definition empty_payments : PaymentStore :=
  {| py_seen := ∅; py_invoices := ∅; py_outbox := ∅; py_receipts := ∅; py_root := None |}.
Inductive PaymentOp :=
| PutSeen (id : Hash)
| PutInvoice (to : Address) (invoice id : Hash)
| PutOutbox (id : Hash) (e : DrcPaymentOutboxEvent)
| PutPaymentReceipt (id : Hash) (r : DrcPaymentReceipt)
| PutRoot (root : Hash).
Definition apply_payment_op (ps : PaymentStore) (op : PaymentOp) : PaymentStore :=
  let '{| py_seen := s; py_invoices := i; py_outbox := o; py_receipts := r; py_root := t |} := ps in
  match op with
  | PutSeen id => {| py_seen := {[id]} ∪ s; py_invoices := i; py_outbox := o; py_receipts := r; py_root := t |}
  | PutInvoice a n id => {| py_seen := s; py_invoices := <[(a, n) := id]> i; py_outbox := o; py_receipts := r; py_root := t |}
  | PutOutbox id e => {| py_seen := s; py_invoices := i; py_outbox := <[id := e]> o; py_receipts := r; py_root := t |}
  | PutPaymentReceipt id x => {| py_seen := s; py_invoices := i; py_outbox := o; py_receipts := <[id := x]> r; py_root := t |}
  | PutRoot h => {| py_seen := s; py_invoices := i; py_outbox := o; py_receipts := r; py_root := Some h |}
  end.
Definition write_payments (ps : PaymentStore) (ops : list PaymentOp) : PaymentStore := foldl apply_payment_op ps ops.

Definition load_drc_payment_receipt (ps : PaymentStore) (payment_id : Hash) : result StateError (option DrcPaymentReceipt) :=
  match py_receipts ps !! payment_id with
  | None => Ok None
  | Some r =>
      lift_storage (validate_exact r) ;?
      ensure (pr_payment_id r =? payment_id) (Storage "DRC payment receipt id does not match index key") ;?
      Ok (Some r)
  end.
Definition load_drc_payment_by_invoice (ps : PaymentStore) (recipient : Address) (invoice_id : Hash)
  : result StateError (option DrcPaymentReceipt) :=
  if invoice_id =? 0 then Ok None
  else match py_invoices ps !! (recipient, invoice_id) with
       | None => Ok None
       | Some payment_id =>
           let? found := load_drc_payment_receipt ps payment_id in
           let? r := ok_or (Storage "DRC payment invoice index points to a missing receipt") found in
           ensure ((pr_to r =? recipient) && (pr_invoice_id r =? invoice_id))
             (Storage "DRC payment invoice index does not match receipt routing") ;?
           Ok (Some r)
       end.
Definition load_drc_outbox_event (ps : PaymentStore) (payment_id : Hash) : option DrcPaymentOutboxEvent := py_outbox ps !! payment_id.

(** ** The transition *)

Section payment.
Context {Auth : Type}.
Variable verify_drc_payment_operation : StateStore -> PolicyStore -> DrcPaymentTx -> Auth -> result StateError unit.
Variable payment_id : DrcPaymentTx -> Hash.
(** The root of an empty history, and the root after one more payment. *)
Variable genesis_root : Hash.
Variable extend_root : Hash -> DrcPaymentOutboxEvent -> DrcPaymentReceipt -> Hash.

Definition delivered_exact (tx : DrcPaymentTx) : DrcPaymentReceipt :=
  {| pr_version := if (pm_version tx =? DRC_PAYMENT_LEGACY_VERSION) || (pm_version tx =? DRC_PAYMENT_SOURCE_TAG_VERSION)
                   then DRC_PAYMENT_RECEIPT_LEGACY_VERSION
                   else if pm_version tx =? DRC_PAYMENT_DESTINATION_TAG_VERSION then DRC_PAYMENT_RECEIPT_DESTINATION_TAG_VERSION
                   else DRC_PAYMENT_RECEIPT_VERSION;
     pr_payment_id := payment_id tx; pr_payment_version := pm_version tx; pr_result := DeliveredExact;
     pr_from := pm_from tx; pr_to := pm_to tx; pr_requested_amount := pm_amount tx; pr_delivered_amount := pm_amount tx;
     pr_fee_paid := pm_fee tx; pr_source_tag := pm_source_tag tx; pr_destination_tag := authenticated_destination_tag tx;
     pr_invoice_id := pm_invoice_id tx; pr_last_valid_blue_score := pm_last_valid_blue_score tx |}.
Definition from_tx (tx : DrcPaymentTx) : DrcPaymentOutboxEvent :=
  {| po_payment_id := payment_id tx; po_payment_version := pm_version tx; po_from := pm_from tx; po_to := pm_to tx;
     po_amount := pm_amount tx; po_source_tag := pm_source_tag tx; po_destination_tag := authenticated_destination_tag tx;
     po_invoice_id := pm_invoice_id tx; po_last_valid_blue_score := pm_last_valid_blue_score tx |}.
Definition drc_payment_root (ps : PaymentStore) : Hash := default genesis_root (py_root ps).

Definition apply_drc_payment_with_blue_score (s : StateStore) (ps : PolicyStore) (py : PaymentStore) (tx : DrcPaymentTx) (auth : Auth)
  (application_blue_score : option Z) (b : WriteBatch) (j : AccountJournal)
  : result StateError (DrcPaymentReceipt * WriteBatch * list PaymentOp * AccountJournal) :=
  lift_msg (validate_envelope_version tx) ;?
  ensure (negb (pm_amount tx =? 0)) (InvalidTx "zero DRC payment") ;?
  verify_drc_payment_operation s ps tx auth ;?
  (if DRC_PAYMENT_VERSION <=? pm_version tx then
     let? score := ok_or (InvalidTx "DRC payment v4+ requires a consensus application blue score") application_blue_score in
     match pm_last_valid_blue_score tx with
     | Some cutoff => ensure (negb (cutoff <? score)) (InvalidTx "expired DRC payment")
     | None => Ok tt
     end
   else Ok tt) ;?
  let id := payment_id tx in
  ensure (negb (bool_decide (id ∈ py_seen py))) (InvalidTx "duplicate DRC payment id") ;?
  ensure (negb (negb (pm_invoice_id tx =? 0) && bool_decide (is_Some (py_invoices py !! (pm_to tx, pm_invoice_id tx)))))
    (InvalidTx "duplicate DRC merchant invoice") ;?
  let? recipient_policy := load_drc_account_policy ps (pm_to tx) in
  ensure (negb (require_destination_tag recipient_policy && bool_decide (authenticated_destination_tag tx = None)))
    (InvalidTx "DRC destination tag required by recipient policy") ;?
  (if deposit_auth_required recipient_policy && negb (pm_from tx =? pm_to tx) then
     let? preauthorized := load_drc_deposit_preauth ps (pm_to tx) (pm_from tx) in
     ensure preauthorized (InvalidTx "DRC deposit authorization required by recipient policy")
   else Ok tt) ;?
  let? from := load_account s DRC (pm_from tx) in
  let? to := (if pm_from tx =? pm_to tx then Ok None else let? a := load_account s DRC (pm_to tx) in Ok (Some a)) in
  let? ctx := begin_op_sequence s (pm_from tx) from (pm_version tx) DRC_PAYMENT_TICKET_VERSION (pm_nonce tx) (pm_account_sequence tx)
    "bad DRC payment nonce" in
  let? debit := ok_or (InvalidTx "DRC payment amount+fee overflow") (checked_add u64_max (pm_amount tx) (pm_fee tx)) in
  ensure (negb (balance from <? debit)) (InvalidTx "insufficient DRC payment balance") ;?
  let? recipient_balance :=
    match to with
    | None => Ok None
    | Some recipient =>
        let? v := ok_or (InvalidTx "DRC payment recipient overflow") (checked_add u64_max (balance recipient) (pm_amount tx)) in
        Ok (Some v)
    end in
  let? next_sender_balance :=
    (if pm_from tx =? pm_to tx then
       ok_or (InvalidTx "DRC self-payment balance overflow")
         (match checked_sub (balance from) debit with Some v => checked_add u64_max v (pm_amount tx) | None => None end)
     else Ok (balance from - debit)) in
  let event := from_tx tx in
  let receipt := delivered_exact tx in
  let next_root := extend_root (drc_payment_root py) event receipt in
  let j := j ++ [(DRC, pm_from tx, from)] ++ match to with Some recipient => [(DRC, pm_to tx, recipient)] | None => [] end in
  let? (b, from) := finish_op_sequence b (pm_from tx) {| balance := next_sender_balance; nonce := nonce from |} ctx
    "DRC payment nonce overflow" in
  let? b := put_account_into b DRC (pm_from tx) from in
  let? b := match to, recipient_balance with
            | Some recipient, Some v => put_account_into b DRC (pm_to tx) {| balance := v; nonce := nonce recipient |}
            | _, _ => Ok b
            end in
  Ok (receipt, b,
      [PutSeen id] ++ (if pm_invoice_id tx =? 0 then [] else [PutInvoice (pm_to tx) (pm_invoice_id tx) id]) ++
      [PutOutbox id event; PutPaymentReceipt id receipt; PutRoot next_root], j).
Definition apply_drc_payment (s : StateStore) (ps : PolicyStore) (py : PaymentStore) (tx : DrcPaymentTx) (auth : Auth) (b : WriteBatch)
  (j : AccountJournal) := apply_drc_payment_with_blue_score s ps py tx auth None b j.
Definition apply_drc_payment_at_blue_score (s : StateStore) (ps : PolicyStore) (py : PaymentStore) (tx : DrcPaymentTx) (auth : Auth)
  (application_blue_score : Z) (b : WriteBatch) (j : AccountJournal) :=
  apply_drc_payment_with_blue_score s ps py tx auth (Some application_blue_score) b j.
End payment.
