(* ===== verification/PaymentProps.v ===== *)
(** * DRC payments: exact delivery, invoices paid once, receipts

    An accepted payment moves exactly its amount and respects the recipient's
    policy; over any history every payment id and every invoice is used once and
    the invoice index leads a merchant to the receipt of the one payment of the
    bill.  The receipt of a ticket payment cannot be read back (finding). *)

From stdpp Require Import base gmap list fin_maps strings.
From Stdlib Require Import ZArith Lia.
From S2P Require Import Prelude Ordering Sums Types Finality Store Supply Accounts Objects Policy Payment.
Local Open Scope Z_scope.

Section payments.
Context {Auth : Type}.
Variable verify : StateStore -> PolicyStore -> DrcPaymentTx -> Auth -> result StateError unit.
Variable payment_id : DrcPaymentTx -> Hash.
Variable genesis_root : Hash.
Variable extend_root : Hash -> DrcPaymentOutboxEvent -> DrcPaymentReceipt -> Hash.
Abbreviation pay := (apply_drc_payment_with_blue_score verify payment_id genesis_root extend_root).
Abbreviation receipt_of := (delivered_exact payment_id).
Abbreviation event_of := (from_tx payment_id).

(** The account writes of a payment: the sender, and the recipient if another. *)
Definition payment_puts (s : StateStore) (tx : DrcPaymentTx) (n' : Z) : list (Address * AccountState) :=
  let from := acct_of s DRC (pm_from tx) in
  if pm_from tx =? pm_to tx then [(pm_from tx, {| balance := balance from - pm_fee tx; nonce := n' |})]
  else [(pm_from tx, {| balance := balance from - (pm_amount tx + pm_fee tx); nonce := n' |});
        (pm_to tx, {| balance := balance (acct_of s DRC (pm_to tx)) + pm_amount tx; nonce := nonce (acct_of s DRC (pm_to tx)) |})].
Definition payment_ops (py : PaymentStore) (tx : DrcPaymentTx) : list PaymentOp :=
  [PutSeen (payment_id tx)] ++ (if pm_invoice_id tx =? 0 then [] else [PutInvoice (pm_to tx) (pm_invoice_id tx) (payment_id tx)]) ++
  [PutOutbox (payment_id tx) (event_of tx); PutPaymentReceipt (payment_id tx) (receipt_of tx);
   PutRoot (extend_root (drc_payment_root genesis_root py) (event_of tx) (receipt_of tx))].

(** What an accepted payment satisfied and wrote. *)
Record paid (s : StateStore) (ps : PolicyStore) (py : PaymentStore) (tx : DrcPaymentTx) (auth : Auth) (score : option Z)
  (r : DrcPaymentReceipt) (b : WriteBatch) (ops : list PaymentOp) : Prop := {
  pd_envelope : validate_envelope_version tx = Ok tt;
  pd_amount : pm_amount tx <> 0;
  pd_signed : verify s ps tx auth = Ok tt;
  pd_timely : forall t, score = Some t -> is_expired_at_blue_score tx t = false;
  pd_score : DRC_PAYMENT_VERSION <= pm_version tx -> is_Some score;
  pd_new : payment_id tx ∉ py_seen py;
  pd_invoice : pm_invoice_id tx <> 0 -> py_invoices py !! (pm_to tx, pm_invoice_id tx) = None;
  pd_tag : require_destination_tag (default default_account_policy (policies ps !! pm_to tx)) = true ->
    is_Some (authenticated_destination_tag tx);
  pd_deposit : deposit_authorized ps (pm_to tx) (pm_from tx) = true;
  pd_funds : pm_amount tx + pm_fee tx <= balance (acct_of s DRC (pm_from tx));
  pd_room : pm_from tx <> pm_to tx -> balance (acct_of s DRC (pm_to tx)) + pm_amount tx <= u64_max;
  pd_writes : charges s (pm_from tx) (payment_puts s tx) b;
  pd_ops : ops = payment_ops py tx;
  pd_receipt : r = receipt_of tx;
}.

Lemma expiry_checked tx score :
  validate_envelope_version tx = Ok tt ->
  (if DRC_PAYMENT_VERSION <=? pm_version tx then
     let? score := ok_or (InvalidTx "DRC payment v4+ requires a consensus application blue score") score in
     match pm_last_valid_blue_score tx with
     | Some cutoff => ensure (negb (cutoff <? score)) (InvalidTx "expired DRC payment")
     | None => Ok tt
     end
   else Ok tt) = Ok tt ->
  (forall t, score = Some t -> is_expired_at_blue_score tx t = false) /\ (DRC_PAYMENT_VERSION <= pm_version tx -> is_Some score).
Proof.
  unfold validate_envelope_version, is_expired_at_blue_score. intros Hv H. destruct (Z.leb_spec DRC_PAYMENT_VERSION (pm_version tx)) as [Hle|Hlt].
  - apply rbind_Ok in H as (sc & ->%ok_or_Ok & H). split; [|by eexists]. intros t [= <-].
    destruct (pm_last_valid_blue_score tx); [|done]. by apply ensure_Ok, negb_true_iff in H.
  - apply rbind_Ok in Hv as (_ & _ & Hv). apply rbind_Ok in Hv as (_ & Hl%ensure_Ok & _). rewrite (proj2 (Z.ltb_lt _ _) Hlt) in Hl.
    apply negb_true_iff, bool_decide_eq_false, eq_None_not_Some in Hl. rewrite Hl. split; [done|lia].
Qed.

Lemma payment_inv s ps py tx auth score r b ops j :
  policies_ok ps -> 0 <= pm_amount tx -> 0 <= pm_fee tx -> pay s ps py tx auth score [] [] = Ok (r, b, ops, j) -> paid s ps py tx auth score r b ops.
Proof.
  intros Hps Ha Hf H. unfold apply_drc_payment_with_blue_score in H.
  apply rbind_Ok in H as ([] & Hv & H). destruct (validate_envelope_version tx) as [[]|] eqn:Hev; [|done]. clear Hv.
  apply rbind_Ok in H as (_ & Hz%ensure_Ok%negb_true_iff%Z.eqb_neq & H). apply rbind_Ok in H as ([] & Hsig & H).
  apply rbind_Ok in H as ([] & Hex & H). destruct (expiry_checked _ _ Hev Hex) as [Htime Hscore].
  apply rbind_Ok in H as (_ & Hseen%ensure_Ok%negb_true_iff%bool_decide_eq_false & H).
  apply rbind_Ok in H as (_ & Hinv%ensure_Ok%negb_true_iff & H). rewrite (load_policy_ok _ _ Hps) in H. cbn [rbind] in H.
  apply rbind_Ok in H as (_ & Htag%ensure_Ok%negb_true_iff & H). apply rbind_Ok in H as ([] & Hdep & H).
  rewrite !load_account_acct in H by done. cbn [rbind] in H. apply rbind_Ok in H as (to & Hto & H).
  apply rbind_Ok in H as (ctx & Hctx & H). apply rbind_Ok in H as (debit & [-> Hdle]%ok_or_Ok%checked_add_Some & H).
  apply rbind_Ok in H as (_ & Hbal%ensure_Ok%negb_true_iff%Z.ltb_ge & H). apply rbind_Ok in H as (rb & Hrb & H).
  apply rbind_Ok in H as (nb & Hnb & H). apply rbind_Ok in H as ([b1 acct] & Hfin & H).
  apply rbind_Ok in H as (b2 & Hb2 & H). apply rbind_Ok in H as (b3 & Hb3 & H). apply Ok_inj in H.
  apply pair_eq in H as [H _]. apply pair_eq in H as [H <-]. apply pair_eq in H as [<- <-].
  destruct (op_sequence_run _ _ _ _ _ _ _ _ _ _ _ _ _ Hctx Hfin) as (sel & tops & n' & -> & -> & Heff).
  rewrite put_drc_total in Hb2. apply Ok_inj in Hb2. subst b2. cbn [app] in Hb3.
  split; try done.
  - intros Hi. rewrite (proj2 (Z.eqb_neq _ _) Hi) in Hinv. cbn [negb andb] in Hinv. by apply bool_decide_eq_false, eq_None_not_Some in Hinv.
  - intros Hr. rewrite Hr in Htag. cbn [andb] in Htag. apply bool_decide_eq_false in Htag. by apply not_eq_None_Some.
  - unfold deposit_authorized. rewrite Z.eqb_sym. rewrite load_preauth_ok in Hdep by done.
    destruct (deposit_auth_required _), (pm_from tx =? pm_to tx); cbn [andb negb orb] in *; try done. cbn [rbind] in Hdep. by apply ensure_Ok in Hdep.
  - intros Hne. rewrite (proj2 (Z.eqb_neq _ _) Hne) in Hto. injection Hto as <-. cbn [rbind] in Hrb.
    apply rbind_Ok in Hrb as (v & [_ Hle]%ok_or_Ok%checked_add_Some & _). exact Hle.
  - exists sel, tops, n'. split; [done|]. unfold payment_puts. destruct (pm_from tx =? pm_to tx).
    + injection Hto as <-. injection Hrb as <-. apply ok_or_Ok in Hnb. injection Hb3 as <-.
      destruct (checked_sub _ _) as [v|] eqn:Ev; [|done]. apply checked_sub_Some in Ev as [-> _]. apply checked_add_Some in Hnb as [-> _].
      unfold put_drc. cbn [fmap list_fmap fst snd]. do 4 f_equal. lia.
    + injection Hto as <-. cbn [rbind] in Hrb. apply rbind_Ok in Hrb as (v & [-> _]%ok_or_Ok%checked_add_Some & [= <-]).
      injection Hnb as <-. rewrite put_drc_total in Hb3. apply Ok_inj in Hb3. subst b3. by rewrite <- app_assoc.
Qed.

Lemma payment_accounts s tx n' tops x a :
  Forall (fun op => is_account_op op = false) tops ->
  acct_of (write_batch s (tops ++ (put_drc <$> payment_puts s tx n'))) x a =
    foldl (fun v e => if bool_decide ((x, a) = (DRC, e.1)) then e.2 else v) (acct_of s x a) (payment_puts s tx n').
Proof. apply acct_of_puts. Qed.
Lemma payment_balance s tx n' a :
  balance (foldl (fun v e => if bool_decide ((DRC, a) = (DRC, e.1)) then e.2 else v) (acct_of s DRC a) (payment_puts s tx n')) =
  balance (acct_of s DRC a) - (if a =? pm_from tx then pm_amount tx + pm_fee tx else 0) + (if a =? pm_to tx then pm_amount tx else 0).
Proof.
  unfold payment_puts. destruct (Z.eqb_spec (pm_from tx) (pm_to tx)) as [E|Hne]; cbn [foldl fst snd];
    rewrite ?(bool_decide_ext ((DRC, a) = (DRC, pm_from tx)) (a = pm_from tx)), ?(bool_decide_ext ((DRC, a) = (DRC, pm_to tx)) (a = pm_to tx)) by (split; congruence).
  - rewrite <- E. destruct (Z.eqb_spec a (pm_from tx)) as [->|Ha]; [rewrite bool_decide_eq_true_2 by done; cbn [balance]; lia|].
    rewrite bool_decide_eq_false_2 by done. lia.
  - destruct (Z.eqb_spec a (pm_to tx)) as [->|Ha].
    + rewrite (bool_decide_eq_true_2 (pm_to tx = pm_to tx)) by done. destruct (Z.eqb_spec (pm_to tx) (pm_from tx)); [congruence|]. cbn [balance]. lia.
    + rewrite (bool_decide_eq_false_2 (a = pm_to tx)) by done. destruct (Z.eqb_spec a (pm_from tx)) as [->|Hb];
        [rewrite bool_decide_eq_true_2 by done; cbn [balance]; lia|rewrite bool_decide_eq_false_2 by done; lia].
Qed.
Lemma payment_liquid s tx b :
  charges s (pm_from tx) (payment_puts s tx) b -> liquid DRC (write_batch s b) = liquid DRC s - pm_fee tx.
Proof.
  intros (sel & tops & n' & Heff & ->). pose proof (seq_effect_frame _ _ _ _ _ _ Heff) as Hfr. unfold payment_puts.
  destruct (Z.eqb_spec (pm_from tx) (pm_to tx)) as [E|Hne].
  - rewrite (liquid_put_one s tops) by done. rewrite bool_decide_eq_true_2 by done. cbn [balance]. lia.
  - rewrite (liquid_put_two s tops) by done. rewrite bool_decide_eq_true_2, bool_decide_eq_false_2 by done. cbn [balance]. lia.
Qed.
Lemma payment_accounts_ok s ps py tx auth score r b ops :
  accounts_ok s -> in_u64 (pm_amount tx) -> in_u64 (pm_fee tx) -> paid s ps py tx auth score r b ops -> accounts_ok (write_batch s b).
Proof.
  intros Hok Ha Hf Hp. apply (charges_ok s _ _ b Hok (pd_writes _ _ _ _ _ _ _ _ _ Hp)). intros n' Hn Hn'.
  destruct (ao_ints _ Hok DRC (pm_from tx)) as [Hb1 _]. destruct (ao_ints _ Hok DRC (pm_to tx)) as [Hb2 Hn2].
  pose proof (pd_funds _ _ _ _ _ _ _ _ _ Hp) as Hfu. pose proof (pd_room _ _ _ _ _ _ _ _ _ Hp) as Hroom. unfold in_u64 in *.
  unfold payment_puts. destruct (Z.eqb_spec (pm_from tx) (pm_to tx)) as [E|Hne]; repeat constructor; cbn [fst snd balance nonce]; try specialize (Hroom Hne); lia.
Qed.

(** A payment delivers exactly its amount.  An accepted payment was authorized
    by its sender, is not expired at the block's score, and meets the recipient's
    policy: a destination tag if it requires one, a preauthorization of the sender
    if it requires that.  It moves its amount from sender to recipient and takes its
    fee from the sender, nothing else changes, and no balance overflows. *)
Theorem payment_correct s ps py tx auth score r b ops j :
  accounts_ok s -> policies_ok ps -> in_u64 (pm_amount tx) -> in_u64 (pm_fee tx) ->
  pay s ps py tx auth score [] [] = Ok (r, b, ops, j) ->
  verify s ps tx auth = Ok tt /\
  (forall t, score = Some t -> is_expired_at_blue_score tx t = false) /\
  (require_destination_tag (default default_account_policy (policies ps !! pm_to tx)) = true -> is_Some (authenticated_destination_tag tx)) /\
  deposit_authorized ps (pm_to tx) (pm_from tx) = true /\
  accounts_ok (write_batch s b) /\ liquid DRC (write_batch s b) = liquid DRC s - pm_fee tx /\
  (forall a, balance (acct_of (write_batch s b) DRC a) =
     balance (acct_of s DRC a) - (if a =? pm_from tx then pm_amount tx + pm_fee tx else 0) + (if a =? pm_to tx then pm_amount tx else 0)) /\
  (forall x a, x <> DRC -> acct_of (write_batch s b) x a = acct_of s x a).
Proof.
  intros Hok Hps Ha Hf H. apply payment_inv in H; [|done|apply Ha|apply Hf].
  split; [by eapply pd_signed|]. split; [by eapply pd_timely|]. split; [by eapply pd_tag|]. split; [by eapply pd_deposit|].
  split; [by eapply payment_accounts_ok|]. pose proof (pd_writes _ _ _ _ _ _ _ _ _ H) as Hw. split; [by apply payment_liquid|].
  destruct Hw as (sel & tops & n' & Heff & ->). pose proof (seq_effect_frame _ _ _ _ _ _ Heff) as Hfr. split.
  - intros a. rewrite payment_accounts by done. apply payment_balance.
  - intros x a Hx. rewrite payment_accounts by done. unfold payment_puts. destruct (pm_from tx =? pm_to tx); cbn [foldl];
      rewrite !bool_decide_eq_false_2 by congruence; done.
Qed.

(** ** Histories *)

(** The payment records after the accepted payments [txs], whatever happened to
    accounts and policies between them. *)
Inductive history : PaymentStore -> list DrcPaymentTx -> Prop :=
| history_start : history empty_payments []
| history_pay py txs s ps tx auth score r b ops j :
    history py txs -> policies_ok ps -> 0 <= pm_amount tx -> 0 <= pm_fee tx -> pay s ps py tx auth score [] [] = Ok (r, b, ops, j) ->
    history (write_payments py ops) (txs ++ [tx]).

Record history_ok (py : PaymentStore) (txs : list DrcPaymentTx) : Prop := {
  ho_nodup : NoDup (payment_id <$> txs);
  ho_seen id : id ∈ py_seen py <-> id ∈ payment_id <$> txs;
  ho_receipts id r : py_receipts py !! id = Some r <-> exists tx, tx ∈ txs /\ id = payment_id tx /\ r = receipt_of tx;
  ho_outbox id e : py_outbox py !! id = Some e <-> exists tx, tx ∈ txs /\ id = payment_id tx /\ e = event_of tx;
  ho_invoices a n id : py_invoices py !! (a, n) = Some id <-> exists tx, tx ∈ txs /\ n <> 0 /\ a = pm_to tx /\ n = pm_invoice_id tx /\ id = payment_id tx;
  ho_bills : NoDup (filter (fun e => e.2 <> 0) ((fun tx => (pm_to tx, pm_invoice_id tx)) <$> txs));
  ho_amounts tx : tx ∈ txs -> pm_amount tx <> 0 /\ validate_envelope_version tx = Ok tt;
}.
Lemma written_payments py tx : let py' := write_payments py (payment_ops py tx) in
  py_seen py' = {[payment_id tx]} ∪ py_seen py /\ py_receipts py' = <[payment_id tx := receipt_of tx]> (py_receipts py) /\
  py_outbox py' = <[payment_id tx := event_of tx]> (py_outbox py) /\
  py_invoices py' = (if pm_invoice_id tx =? 0 then py_invoices py else <[(pm_to tx, pm_invoice_id tx) := payment_id tx]> (py_invoices py)).
Proof. destruct py. unfold payment_ops, write_payments. destruct (pm_invoice_id tx =? 0); done. Qed.

Lemma snoc_lookup {A} (m m' : gmap Hash A) (f : DrcPaymentTx -> A) txs tx :
  (forall id x, m !! id = Some x <-> exists t, t ∈ txs /\ id = payment_id t /\ x = f t) ->
  payment_id tx ∉ payment_id <$> txs -> m' = <[payment_id tx := f tx]> m ->
  forall id x, m' !! id = Some x <-> exists t, t ∈ txs ++ [tx] /\ id = payment_id t /\ x = f t.
Proof.
  intros Hm Hn -> id x. setoid_rewrite elem_of_app. setoid_rewrite list_elem_of_singleton. destruct (decide (id = payment_id tx)) as [->|Hne].
  - rewrite lookup_insert_eq. split; [intros [= <-]; eauto|]. intros (t & [Ht| ->] & E & ->); [|done].
    exfalso. apply Hn. rewrite E. by apply list_elem_of_fmap_2.
  - rewrite lookup_insert_ne, Hm by done. split; [intros (t & ? & ? & ?); eauto|]. intros (t & [Ht| ->] & E & ->); [eauto|done].
Qed.
Lemma history_sound py txs : history py txs -> history_ok py txs.
Proof.
  induction 1 as [|py txs s ps tx auth score r b ops j Hh [Hnd Hs Hr Ho Hi Hb Ha] Hps H1 H2 H].
  { split; cbn [empty_payments py_seen py_receipts py_outbox py_invoices]; rewrite ?fmap_nil; try constructor; intros *; rewrite ?lookup_empty; set_solver. }
  apply payment_inv in H; [|done..]. destruct H as [He Hz _ _ _ Hnew Hbill _ _ _ _ _ -> _].
  destruct (written_payments py tx) as (E1 & E2 & E3 & E4). assert (payment_id tx ∉ payment_id <$> txs) as Hn by (by rewrite <- Hs).
  split; rewrite ?E1.
  - rewrite fmap_app. apply NoDup_app. split; [done|]. split; [|apply NoDup_singleton]. intros x Hx ->%list_elem_of_singleton. done.
  - intros id. rewrite fmap_app, elem_of_app, elem_of_union, elem_of_singleton, Hs. cbn. rewrite list_elem_of_singleton. tauto.
  - by eapply snoc_lookup.
  - by eapply snoc_lookup.
  - intros a n id. rewrite E4. setoid_rewrite elem_of_app. setoid_rewrite list_elem_of_singleton. destruct (Z.eqb_spec (pm_invoice_id tx) 0) as [Ez|Ez].
    + rewrite Hi. split; [intros (t & ? & ?); eauto|]. intros (t & [Ht| ->] & Hn0); [eauto|]. destruct Hn0 as (Hn0 & _ & -> & _). done.
    + destruct (decide ((a, n) = (pm_to tx, pm_invoice_id tx))) as [[= -> ->]|Hne].
      * rewrite lookup_insert_eq. split; [intros [= <-]; exists tx; auto 10|]. intros (t & [Ht| ->] & _ & E & E' & ->); [|done].
        exfalso. specialize (Hbill Ez). assert (py_invoices py !! (pm_to tx, pm_invoice_id tx) = Some (payment_id t)) by (apply Hi; eauto 10). congruence.
      * rewrite lookup_insert_ne, Hi by congruence. split; [intros (t & ? & ?); eauto|]. intros (t & [Ht| ->] & ? & -> & -> & ?); [eauto 10|done].
  - rewrite fmap_app, filter_app. apply NoDup_app. split; [done|]. split.
    + intros e [Hne Hin]%list_elem_of_filter. cbn [fmap list_fmap]. rewrite list_elem_of_filter, list_elem_of_singleton. intros [_ ->].
      cbn [snd] in Hne. apply list_elem_of_fmap in Hin as (t & [= Et Ei] & Ht). specialize (Hbill Hne).
      assert (py_invoices py !! (pm_to tx, pm_invoice_id tx) = Some (payment_id t)) by (apply Hi; eauto 10). congruence.
    + cbn [fmap list_fmap]. rewrite filter_cons, filter_nil. destruct (decide _); [apply NoDup_singleton|constructor].
  - intros t [Ht| ->%list_elem_of_singleton]%elem_of_app; [by apply Ha|done].
Qed.

Lemma receipt_readable tx : pm_amount tx <> 0 -> validate_envelope_version tx = Ok tt -> pm_version tx <> DRC_PAYMENT_TICKET_VERSION ->
  validate_exact (receipt_of tx) = Ok tt.
Proof.
  unfold validate_envelope_version. intros Ha H Ht. apply rbind_Ok in H as (_ & _ & H). apply rbind_Ok in H as (_ & He%ensure_Ok & H).
  apply rbind_Ok in H as (_ & Hs%ensure_Ok & Hv%ensure_Ok). rewrite !orb_true_iff, !Z.eqb_eq in Hv.
  unfold validate_exact, delivered_exact, authenticated_destination_tag.
  cbn [pr_version pr_requested_amount pr_delivered_amount pr_payment_version pr_source_tag pr_last_valid_blue_score pr_destination_tag].
  rewrite (proj2 (Z.eqb_neq _ _) Ha), Z.eqb_refl. cbn [negb ensure rbind].
  destruct Hv as [[[[E|E]|E]|E]|E]; rewrite E in *; cbn in He, Hs |- *; try done.
  - rewrite negb_true_iff in He, Hs. rewrite He, Hs. cbn. destruct (pm_destination_tag tx) as [t|]; [|done]. destruct (Z.eqb_spec t 0); [done|].
    rewrite bool_decide_eq_false_2 by congruence. done.
  - rewrite negb_true_iff in He. rewrite He. cbn. destruct (pm_destination_tag tx) as [t|]; [|done]. destruct (Z.eqb_spec t 0); [done|].
    rewrite bool_decide_eq_false_2 by congruence. done.
  - rewrite negb_true_iff in He. rewrite He. done.
Qed.
Lemma load_receipt py txs tx : history_ok py txs -> tx ∈ txs -> pm_version tx <> DRC_PAYMENT_TICKET_VERSION ->
  load_drc_payment_receipt py (payment_id tx) = Ok (Some (receipt_of tx)).
Proof.
  intros Hh Htx Hv. unfold load_drc_payment_receipt. rewrite (proj2 (ho_receipts _ _ Hh _ _) (ex_intro _ tx (conj Htx (conj eq_refl eq_refl)))).
  destruct (ho_amounts _ _ Hh _ Htx) as [Ha He]. rewrite receipt_readable by done. cbn [lift_storage rbind delivered_exact pr_payment_id]. by rewrite Z.eqb_refl.
Qed.

(** C33: A bill is paid once, and leads to its payment unless that was a ticket
    payment.  In every history of accepted payments no payment and no bill of a
    recipient occurs twice; the receipt of a payment of any version but the ticket
    version 5 (whose receipts cannot be read: see the finding) is found by its id
    and, for a billed payment, by recipient and invoice, and states exactly that
    payment; every payment has its outbox event; and what the lookup of an invoice
    returns comes from the history. *)
Theorem invoice_paid_once py txs :
  history py txs ->
  NoDup (payment_id <$> txs) /\ NoDup (filter (fun e => e.2 <> 0) ((fun tx => (pm_to tx, pm_invoice_id tx)) <$> txs)) /\
  (forall tx, tx ∈ txs -> pm_version tx <> DRC_PAYMENT_TICKET_VERSION ->
     load_drc_payment_receipt py (payment_id tx) = Ok (Some (receipt_of tx)) /\
     (pm_invoice_id tx <> 0 -> load_drc_payment_by_invoice py (pm_to tx) (pm_invoice_id tx) = Ok (Some (receipt_of tx)))) /\
  (forall tx, tx ∈ txs -> load_drc_outbox_event py (payment_id tx) = Some (event_of tx)) /\
  (forall a n r, load_drc_payment_by_invoice py a n = Ok (Some r) -> exists tx, tx ∈ txs /\ r = receipt_of tx /\ pm_to tx = a /\ pm_invoice_id tx = n).
Proof.
  intros Hh%history_sound. split; [apply (ho_nodup _ _ Hh)|]. split; [apply (ho_bills _ _ Hh)|]. split; [|split].
  - intros tx Htx Hv. pose proof (load_receipt _ _ _ Hh Htx Hv) as Hl. split; [done|]. intros Hi.
    unfold load_drc_payment_by_invoice. rewrite (proj2 (Z.eqb_neq _ _) Hi).
    rewrite (proj2 (ho_invoices _ _ Hh (pm_to tx) (pm_invoice_id tx) (payment_id tx))) by eauto 10. rewrite Hl. cbn. by rewrite !Z.eqb_refl.
  - intros tx Htx. apply (ho_outbox _ _ Hh). eauto.
  - intros a n r. unfold load_drc_payment_by_invoice. destruct (n =? 0); [done|]. destruct (py_invoices py !! (a, n)) as [id|] eqn:Ei; [|done].
    intros H. apply rbind_Ok in H as (found & Hf & H). apply rbind_Ok in H as (r' & ->%ok_or_Ok & H). apply rbind_Ok in H as (_ & Hm%ensure_Ok & [= <-]).
    apply andb_true_iff in Hm as [<-%Z.eqb_eq <-%Z.eqb_eq]. unfold load_drc_payment_receipt in Hf. destruct (py_receipts py !! id) as [r2|] eqn:Er; [|done].
    apply rbind_Ok in Hf as (_ & _ & Hf). apply rbind_Ok in Hf as (_ & _ & [= <-]). apply (ho_receipts _ _ Hh) in Er as (tx & Htx & _ & ->). by exists tx.
Qed.

(** The receipt of a ticket payment cannot be read (finding).  A ticket payment
    is accepted and its receipt written, but the check on reading receipts knows
    the payment versions up to 4 only: looking the payment up by its id or by its
    invoice fails as corrupt storage, from then on. *)
Theorem ticket_receipt_unreadable py txs tx :
  history py txs -> tx ∈ txs -> pm_version tx = DRC_PAYMENT_TICKET_VERSION ->
  load_drc_payment_receipt py (payment_id tx) = Err (Storage "unsupported DRC payment envelope version in receipt") /\
  (pm_invoice_id tx <> 0 ->
   load_drc_payment_by_invoice py (pm_to tx) (pm_invoice_id tx) = Err (Storage "unsupported DRC payment envelope version in receipt")).
Proof.
  intros Hh%history_sound Htx Hv. destruct (ho_amounts _ _ Hh _ Htx) as [Ha _].
  assert (load_drc_payment_receipt py (payment_id tx) = Err (Storage "unsupported DRC payment envelope version in receipt")) as Hl.
  { unfold load_drc_payment_receipt. rewrite (proj2 (ho_receipts _ _ Hh _ _) (ex_intro _ tx (conj Htx (conj eq_refl eq_refl)))).
    unfold validate_exact, delivered_exact. cbn [pr_version pr_requested_amount pr_delivered_amount pr_payment_version]. rewrite Hv.
    rewrite (proj2 (Z.eqb_neq _ _) Ha), (Z.eqb_refl (pm_amount tx)). reflexivity. }
  split; [done|]. intros Hi. unfold load_drc_payment_by_invoice. rewrite (proj2 (Z.eqb_neq _ _) Hi).
  rewrite (proj2 (ho_invoices _ _ Hh (pm_to tx) (pm_invoice_id tx) (payment_id tx))) by eauto 10. by rewrite Hl.
Qed.
End payments.

(** ** A history *)

Definition demo_payment (version nonce_ invoice : Z) (sel : option DrcAccountSequenceSelector) : DrcPaymentTx :=
  {| pm_version := version; pm_from := 1; pm_to := 2; pm_amount := 100; pm_fee := 3; pm_destination_tag := Some 9; pm_source_tag := None;
     pm_invoice_id := invoice; pm_nonce := nonce_; pm_account_sequence := sel; pm_last_valid_blue_score := None; pm_public_key := []; pm_signature := [] |}.
Definition accept_payment (_ : StateStore) (_ : PolicyStore) (_ : DrcPaymentTx) (_ : unit) : result StateError unit := Ok tt.
Definition demo_payment_id (tx : DrcPaymentTx) : Hash := 100 + pm_invoice_id tx.
Definition demo_pay (py : PaymentStore) (tx : DrcPaymentTx) :=
  apply_drc_payment_with_blue_score accept_payment demo_payment_id 0 (fun _ _ _ => 0) demo_ledger {| policies := ∅; preauths := ∅ |} py tx tt (Some 5) [] [].
Definition demo_payment_ticket : DrcPaymentTx := demo_payment 5 0 43 (Some {| kind := Nonce; value := nonce (acct_of demo_ledger DRC 1) |}).
Lemma no_policies_ok : policies_ok {| policies := ∅; preauths := ∅ |}.
Proof. split; cbn [policies preauths]; intros *; intros H; by rewrite lookup_empty in H. Qed.
Lemma demo_paid tx : in_u64 (pm_amount tx) -> in_u64 (pm_fee tx) -> (if demo_pay empty_payments tx then True else False) ->
  exists py, history accept_payment demo_payment_id 0 (fun _ _ _ => 0) py [tx].
Proof.
  intros Ha Hf H. destruct (demo_pay empty_payments tx) as [[[[r b] ops] j]|] eqn:E; [|destruct H]. exists (write_payments empty_payments ops).
  apply (history_pay _ _ _ _ empty_payments [] demo_ledger {| policies := ∅; preauths := ∅ |} tx tt (Some 5) r b ops j);
    [constructor|apply no_policies_ok|apply Ha|apply Hf|exact E].
Qed.
Lemma demo_amounts v n i sel : in_u64 (pm_amount (demo_payment v n i sel)) /\ in_u64 (pm_fee (demo_payment v n i sel)).
Proof. cbn. unfold in_u64, u64_max. lia. Qed.
Lemma payment_correct_witness :
  exists r b ops j, demo_pay empty_payments (demo_payment 4 7 42 None) = Ok (r, b, ops, j) /\
    balance (acct_of (write_batch demo_ledger b) DRC 1) = 897 /\ balance (acct_of (write_batch demo_ledger b) DRC 2) = 100.
Proof.
  destruct (demo_pay empty_payments (demo_payment 4 7 42 None)) as [[[[r b] ops] j]|] eqn:E; [|vm_compute in E; discriminate E].
  exists r, b, ops, j. split; [reflexivity|]. destruct (demo_amounts 4 7 42 None) as [Ha Hf].
  destruct (payment_correct accept_payment demo_payment_id 0 (fun _ _ _ => 0) _ _ _ _ tt (Some 5) r b ops j demo_ledger_ok no_policies_ok Ha Hf E) as (_ & _ & _ & _ & _ & _ & Hb & _).
  split; [exact (Hb 1)|exact (Hb 2)].
Defined.
Lemma invoice_paid_once_witness :
  exists py, load_drc_payment_by_invoice py 2 42 = Ok (Some (delivered_exact demo_payment_id (demo_payment 4 7 42 None))).
Proof.
  destruct (demo_amounts 4 7 42 None) as [Ha Hf]. destruct (demo_paid (demo_payment 4 7 42 None) Ha Hf) as [py Hpy]; [vm_compute; exact I|]. exists py.
  destruct (invoice_paid_once _ _ _ _ py _ Hpy) as (_ & _ & H & _). apply (H (demo_payment 4 7 42 None)); [left|discriminate|discriminate].
Defined.
Lemma ticket_receipt_unreadable_witness :
  exists py, load_drc_payment_by_invoice py 2 43 = Err (Storage "unsupported DRC payment envelope version in receipt").
Proof.
  destruct (demo_paid demo_payment_ticket) as [py Hpy]; [cbn; unfold in_u64, u64_max; lia..|vm_compute; exact I|]. exists py.
  apply (ticket_receipt_unreadable _ _ _ _ py _ demo_payment_ticket Hpy); [left|reflexivity|discriminate].
Defined.
