(* ===== verification/Envelopes.v ===== *)
(** * Other signed envelopes ([types/src/execution.rs], [data_availability.rs],
    [passport.rs], [community.rs], [treasury.rs], [vesting.rs],
    [drc_multisign_attachment.rs])

    The envelopes that reach the node beside the account and DRC operations:
    OVL executions, data commitments, passport attestations, community
    registrations, treasury spends, vesting claims and detached multisign
    bundles, with the structural checks they carry. *)

From stdpp Require Import base gmap list strings.
From Stdlib Require Import ZArith Lia.
From S2P Require Import Prelude Types Accounts Policy Authority.
Local Open Scope Z_scope.

(** ** OVL executions *)

Definition OVL_EXECUTION_VERSION : Z := 1.
Definition OVL_EXECUTION_RAW_EVM_VERSION : Z := 2.
Record OvlExecutionTx := {
  ov_version : Z;
  ov_from : Address;
  ov_to : Address;
  ov_value : Z;
  ov_gas_limit : Z;
  ov_max_fee_per_gas : Z;
  ov_nonce : Z;
  ov_data : list Z;
  ov_public_key : list Z;
  ov_signature : list Z;
}.
Definition execution_asset (_ : OvlExecutionTx) : NativeAssetId := OVL.

(** ** Data commitments *)

Definition DA_COMMITMENT_VERSION : Z := 1.
Definition DA_COMMITMENT_AUTHORIZATION_VERSION : Z := 1.
Definition MAX_DA_CHAIN_ID_BYTES : nat := 128.
Inductive DataCommitmentSource := AgoraLayersOvolosBatchLab.
Definition source_wire_byte (s : DataCommitmentSource) : Z := match s with AgoraLayersOvolosBatchLab => 0 end.
Record DataAvailabilityCommitment := {
  dc_version : Z;
  dc_source : DataCommitmentSource;
  dc_source_chain_id : list Z;
  dc_source_genesis_hash : Hash;
  dc_batch_id : Hash;
  dc_sequence : Z;
  dc_prev_state_root : Hash;
  dc_post_state_root : Hash;
  dc_tx_merkle_root : Hash;
  dc_tx_count : Z;
  dc_source_timestamp_ms : Z;
}.
Record DataCommitmentAuthorization := {
  da_version : Z;
  da_operator : Address;
  da_replay_nonce : Z;
  da_commitment : DataAvailabilityCommitment;
  da_public_key : list Z;
  da_signature : list Z;
}.
(** Lowercase letters, digits, and the bytes of ["-._"]. *)
Definition chain_id_byte (b : Z) : bool :=
  ((97 <=? b) && (b <=? 122)) || ((48 <=? b) && (b <=? 57)) || (b =? 45) || (b =? 46) || (b =? 95).
Definition validate_chain_id (bytes : list Z) : result string unit :=
  ensure (negb (bool_decide (bytes = []) || negb (Nat.leb (length bytes) MAX_DA_CHAIN_ID_BYTES) || negb (forallb chain_id_byte bytes)))
    "source chain id is empty, oversized, or non-canonical"%string.
Definition validate_commitment (c : DataAvailabilityCommitment) : result string unit :=
  ensure (dc_version c =? DA_COMMITMENT_VERSION) "unsupported data commitment version"%string ;?
  validate_chain_id (dc_source_chain_id c) ;?
  ensure (negb (dc_source_genesis_hash c =? 0)) "source genesis hash is required"%string ;?
  ensure (negb (dc_batch_id c =? 0)) "source batch id is required"%string.
Definition validate_authorization (a : DataCommitmentAuthorization) : result string unit :=
  ensure (da_version a =? DA_COMMITMENT_AUTHORIZATION_VERSION) "unsupported data commitment authorization version"%string ;?
  validate_commitment (da_commitment a).

(** ** Community records *)

Inductive PassportCategory :=
| Code | Documentation | Translation | SecurityReport | Infrastructure | EventHosting | Teaching
| MerchantOnboarding | GrantReview | GovernanceParticipation | Moderation | CommunitySupport.
Record PassportAttestation := {
  pa_version : Z;
  pa_issuer : Address;
  pa_subject : Address;
  pa_category : PassportCategory;
  pa_evidence_hash : Hash;
  pa_issuer_policy_hash : Hash;
  pa_issued_epoch : Z;
  pa_expires_epoch : option Z;
  pa_nonce : Z;
  pa_public_key : list Z;
  pa_signature : list Z;
}.
Inductive TreasuryId := TltSecurity | OvlBuilder | DrcCommunity.
Definition treasury_wire_byte (t : TreasuryId) : Z := match t with TltSecurity => 0 | OvlBuilder => 1 | DrcCommunity => 2 end.
Inductive CommunityGrantKind := Micro | Milestone | Bounty | Retroactive.
Record CommunityGrantMilestone := { gm_index : Z; gm_amount : Z; gm_deliverable_hash : Hash }.
Record HubRegistration := {
  hb_version : Z;
  hb_public_name : list Z;
  hb_classification : list Z;
  hb_charter_hash : Hash;
  hb_coordinators : list Address;
  hb_treasury_multisig : Address;
  hb_election_term_epochs : Z;
  hb_reporting_interval_epochs : Z;
  hb_coi_disclosure_root : Hash;
  hb_deliverables_root : Hash;
  hb_accreditation_proposal_id : Z;
  hb_nonce : Z;
  hb_public_key : list Z;
  hb_signature : list Z;
}.
Definition first_coordinator (r : HubRegistration) : option Address := head (hb_coordinators r).
Record GrantRegistration := {
  gr_version : Z;
  gr_registrar : Address;
  gr_proposal_id : Z;
  gr_treasury : TreasuryId;
  gr_beneficiary : Address;
  gr_total : Z;
  gr_kind : CommunityGrantKind;
  gr_milestones : list CommunityGrantMilestone;
  gr_coi_disclosure_hash : Hash;
  gr_nonce : Z;
  gr_public_key : list Z;
  gr_signature : list Z;
}.
Record MissionRegistration := {
  ms_version : Z;
  ms_sponsor : Address;
  ms_reward_treasury : TreasuryId;
  ms_reward : Z;
  ms_requirements_hash : Hash;
  ms_nonce : Z;
  ms_public_key : list Z;
  ms_signature : list Z;
}.
Record TreasuryDisbursement := {
  td_version : Z;
  td_treasury : TreasuryId;
  td_beneficiary : Address;
  td_amount : Z;
  td_reason_hash : Hash;
  td_authorization_root : Hash;
  td_nonce : Z;
  td_public_key : list Z;
  td_signature : list Z;
}.
Record VestingUnlock := {
  vu_version : Z;
  vu_asset : NativeAssetId;
  vu_beneficiary : Address;
  vu_schedule_id : Hash;
  vu_amount : Z;
  vu_nonce : Z;
  vu_public_key : list Z;
  vu_signature : list Z;
}.

(** ** Detached multisign bundles *)

Definition DRC_MULTISIGN_ATTACHMENT_KEY_VERSION : Z := 1.
Definition DRC_MULTISIGN_BLOCK_ATTACHMENT_VERSION : Z := 1.
(** [mk_kind] is the discriminant of [DrcMultisignOperationKind], 1 to 25. *)
Record DrcMultisignAttachmentKey := { mk_version : Z; mk_kind : Z; mk_signing_commitment : Hash }.
Record DrcMultisignBlockAttachment := {
  mb_version : Z;
  mb_key : DrcMultisignAttachmentKey;
  mb_auth : DrcMultisignAuth;
}.
Definition validate_attachment_key (k : DrcMultisignAttachmentKey) : result string unit :=
  ensure (mk_version k =? DRC_MULTISIGN_ATTACHMENT_KEY_VERSION) "unsupported DRC multisign attachment key version"%string.
Definition validate_attachment (a : DrcMultisignBlockAttachment) : result string unit :=
  ensure (mb_version a =? DRC_MULTISIGN_BLOCK_ATTACHMENT_VERSION) "unsupported DRC multisign block attachment version"%string ;?
  validate_attachment_key (mb_key a) ;?
  match validate_multisign (mb_auth a) with Ok _ => Ok tt | Err _ => Err "malformed multisign auth bundle"%string end.
