(* ===== verification/Mempool.v ===== *)
(** * The mempool ([p2p/src/mempool.rs])

    The node keeps what it may put into its next block: TLT transfers and
    covenant spends, which reserve the outpoints they spend and compete by fee,
    and one lane per kind of account or DRC operation, which reserve the
    sender's sequence slot and the object they act on.

    The source keeps a hash map per lane and a hash map or set per kind of
    reservation.  Here the lanes are the slices of one map at their [Lane], the
    reservation sets the slices of one set of [Mark]s and the reservation maps
    the slices of one map of [Claim]s: a lane's map at [id] is [pending] at
    [(lane, id)].  Hash maps are iterated in no particular order; where the
    source sorts, so does the model.

    An operation is a function of the pool that returns what it returns and the
    pool it leaves, also when it fails ([Pool]).  The hashes that identify
    envelopes are parameters.  [persist_best_effort] writes a file and leaves
    the pool as it is. *)

From stdpp Require Import base gmap list fin_maps strings sorting.
From Stdlib Require Import ZArith Lia.
From S2P Require Import Prelude Ordering Sums Types Finality Store Supply Accounts Staking Objects Policy Authority Escrow Check Channel Trust Offer TltScript Payment Envelopes.
Local Open Scope Z_scope.

Definition DEFAULT_MIN_RELAY_FEE : Z := 1.
Definition TLT_RBF_MAX_REPLACEMENTS : nat := 16.
Definition TLT_RBF_MIN_FEE_INCREASE : Z := DEFAULT_MIN_RELAY_FEE.

Inductive P2pError :=
| Network (msg : string) | InvalidMultiaddr (msg : string) | Gossip (msg : string) | MempoolRejected (msg : string)
| Decode (msg : string) | Seeder (msg : string) | Identity (msg : string).

(** ** Lanes *)

Inductive Lane :=
| LAccount | LStake | LOvl | LOvlRaw | LPayment | LPolicy | LPreauth | LRegularKey | LSignerList | LTicketCreate
| LEscrowCreate | LEscrowFinish | LEscrowCancel | LCheckCreate | LCheckCash | LCheckCancel
| LChannelCreate | LChannelFund | LChannelClaim | LChannelClose
| LTrustLineSet | LIssuedTransfer | LAssetPolicy | LIssuerControl | LClawback | LOfferCreate | LOfferCancel
| LDataCommitment | LMultisign | LPassport | LHub | LGrant | LMission | LTreasury | LVesting.
Definition all_lanes : list Lane :=
  [LAccount; LStake; LOvl; LOvlRaw; LPayment; LPolicy; LPreauth; LRegularKey; LSignerList; LTicketCreate;
   LEscrowCreate; LEscrowFinish; LEscrowCancel; LCheckCreate; LCheckCash; LCheckCancel;
   LChannelCreate; LChannelFund; LChannelClaim; LChannelClose;
   LTrustLineSet; LIssuedTransfer; LAssetPolicy; LIssuerControl; LClawback; LOfferCreate; LOfferCancel;
   LDataCommitment; LMultisign; LPassport; LHub; LGrant; LMission; LTreasury; LVesting].
#[export] Instance Lane_eq_dec : EqDecision Lane.
Proof. solve_decision. Defined.
Definition lane_index (l : Lane) : nat := default 0%nat (fst <$> list_find (eq l) all_lanes).
#[export] Instance Lane_countable : Countable Lane.
Proof.
  refine (inj_countable lane_index (fun n => all_lanes !! n) _). by intros [].
Defined.

(** An envelope with its lane. *)
Inductive LaneTx :=
| AccountL (tx : AccountTransfer)
| StakeL (tx : SignedStakeTx)
| OvlL (tx : OvlExecutionTx)
| OvlRawL (tx : OvlExecutionTx)
| PaymentL (tx : DrcPaymentTx)
| PolicyL (tx : DrcAccountPolicyTx)
| PreauthL (tx : DrcDepositPreauthTx)
| RegularKeyL (tx : DrcRegularKeyTx)
| SignerListL (tx : DrcSignerListTx)
| TicketCreateL (tx : DrcTicketCreateTx)
| EscrowCreateL (tx : DrcEscrowCreateTx)
| EscrowFinishL (tx : DrcEscrowFinishTx)
| EscrowCancelL (tx : DrcEscrowCancelTx)
| CheckCreateL (tx : DrcCheckCreateTx)
| CheckCashL (tx : DrcCheckCashTx)
| CheckCancelL (tx : DrcCheckCancelTx)
| ChannelCreateL (tx : DrcPaymentChannelCreateTx)
| ChannelFundL (tx : DrcPaymentChannelFundTx)
| ChannelClaimL (tx : DrcPaymentChannelClaimTx)
| ChannelCloseL (tx : DrcPaymentChannelCloseTx)
| TrustLineSetL (tx : DrcTrustLineSetTx)
| IssuedTransferL (tx : DrcIssuedTransferTx)
| AssetPolicyL (tx : DrcIssuedAssetPolicySetTx)
| IssuerControlL (tx : DrcTrustLineIssuerControlTx)
| ClawbackL (tx : DrcIssuedClawbackTx)
| OfferCreateL (tx : DrcOfferCreateTx)
| OfferCancelL (tx : DrcOfferCancelTx)
| DataCommitmentL (a : DataCommitmentAuthorization)
| MultisignL (a : DrcMultisignBlockAttachment)
| PassportL (a : PassportAttestation)
| HubL (r : HubRegistration)
| GrantL (r : GrantRegistration)
| MissionL (r : MissionRegistration)
| TreasuryL (s : TreasuryDisbursement)
| VestingL (c : VestingUnlock).
Definition lane_of (t : LaneTx) : Lane :=
  match t with
  | AccountL _ => LAccount | StakeL _ => LStake | OvlL _ => LOvl | OvlRawL _ => LOvlRaw | PaymentL _ => LPayment
  | PolicyL _ => LPolicy | PreauthL _ => LPreauth | RegularKeyL _ => LRegularKey | SignerListL _ => LSignerList
  | TicketCreateL _ => LTicketCreate | EscrowCreateL _ => LEscrowCreate | EscrowFinishL _ => LEscrowFinish
  | EscrowCancelL _ => LEscrowCancel | CheckCreateL _ => LCheckCreate | CheckCashL _ => LCheckCash
  | CheckCancelL _ => LCheckCancel | ChannelCreateL _ => LChannelCreate | ChannelFundL _ => LChannelFund
  | ChannelClaimL _ => LChannelClaim | ChannelCloseL _ => LChannelClose | TrustLineSetL _ => LTrustLineSet
  | IssuedTransferL _ => LIssuedTransfer | AssetPolicyL _ => LAssetPolicy | IssuerControlL _ => LIssuerControl
  | ClawbackL _ => LClawback | OfferCreateL _ => LOfferCreate | OfferCancelL _ => LOfferCancel
  | DataCommitmentL _ => LDataCommitment | MultisignL _ => LMultisign | PassportL _ => LPassport | HubL _ => LHub
  | GrantL _ => LGrant | MissionL _ => LMission | TreasuryL _ => LTreasury | VestingL _ => LVesting
  end.

(** ** Reservations *)

(** The sets: account nonces, tickets, objects whose creation is pending, and
    what was known of a payment's recipient when it was admitted. *)
Inductive Mark :=
| ReservedAccount (asset : NativeAssetId) (a : Address)
| ReservedTicket (owner : Address) (sequence : Z)
| PendingEscrowId (id : Hash)
| PendingCheckId (id : Hash)
| PendingChannelId (id : Hash)
| PendingTrustLineSet (h : Address) (key : Hash)
| PendingTrustLineDelete (h : Address) (key : Hash)
| PendingTrustLineCreate (h : Address) (key : Hash)
| DepositAuthRequired (payment : Hash)
| DepositPreauthorized (payment : Hash).
#[export] Instance Mark_eq_dec : EqDecision Mark.
Proof. solve_decision. Defined.
#[export] Instance Mark_countable : Countable Mark.
Proof.
  refine (inj_countable' (fun m => match m with
    | ReservedAccount x a => (0%nat, wire_byte x, a) | ReservedTicket o s => (1%nat, o, s)
    | PendingEscrowId i => (2%nat, i, 0) | PendingCheckId i => (3%nat, i, 0) | PendingChannelId i => (4%nat, i, 0)
    | PendingTrustLineSet h k => (5%nat, h, k) | PendingTrustLineDelete h k => (6%nat, h, k)
    | PendingTrustLineCreate h k => (7%nat, h, k) | DepositAuthRequired i => (8%nat, i, 0)
    | DepositPreauthorized i => (9%nat, i, 0) end)
    (fun p => match p with
    | (0%nat, x, a) => ReservedAccount (default TLT (from_wire_byte x)) a | (1%nat, o, s) => ReservedTicket o s
    | (2%nat, i, _) => PendingEscrowId i | (3%nat, i, _) => PendingCheckId i | (4%nat, i, _) => PendingChannelId i
    | (5%nat, h, k) => PendingTrustLineSet h k | (6%nat, h, k) => PendingTrustLineDelete h k
    | (7%nat, h, k) => PendingTrustLineCreate h k | (8%nat, i, _) => DepositAuthRequired i
    | (_, i, _) => DepositPreauthorized i end) _).
  by intros [[]| | | | | | | | |].
Defined.

#[export] Instance TrustKey_countable : Countable TrustKey.
Proof.
  refine (inj_countable' (fun k => match k with
    | TKLine h k => (0%nat, [h; k]) | TKHolder h => (1%nat, [h]) | TKIssuer i c => (2%nat, i :: c)
    | TKLiability k => (3%nat, [k]) | TKPolicy k => (4%nat, [k]) | TKReserve h k => (5%nat, [h; k])
    | TKTransfer i => (6%nat, [i]) | TKPolicyReceipt i => (7%nat, [i]) | TKControlReceipt i => (8%nat, [i])
    | TKClawbackReceipt i => (9%nat, [i]) end)
    (fun p => match p with
    | (0%nat, [h; k]) => TKLine h k | (1%nat, [h]) => TKHolder h | (2%nat, i :: c) => TKIssuer i c
    | (3%nat, [k]) => TKLiability k | (4%nat, [k]) => TKPolicy k | (5%nat, [h; k]) => TKReserve h k
    | (6%nat, [i]) => TKTransfer i | (7%nat, [i]) => TKPolicyReceipt i | (8%nat, [i]) => TKControlReceipt i
    | (_, [i]) => TKClawbackReceipt i | _ => TKHolder 0 end) _).
  by intros [].
Defined.

(** The maps: what is reserved, to the id of the envelope that reserved it. *)
Inductive Claim :=
| EscrowSettlement (escrow : Hash)
| CheckSettlement (check : Hash)
| ChannelMutation (channel : Hash)
| PendingOfferCancel (offer : Hash)
| DaSequence (source sequence : Z)
| DaOperator (a : Address)
| PassportIssuer (a : Address)
| HubCoordinator (a : Address)
| GrantRegistrar (a : Address)
| MissionSponsor (a : Address)
| TreasuryNonce (t : Z)
| VestingBeneficiary (a : Address)
| AssetPolicy (key : Hash)
| IssuerControlSlot (h : Address) (key : Hash)
| TrustLineSlot (h : Address) (key : Hash)
| IssuerLiability (key : Hash)
| MetaMutation (k : TrustKey).
#[export] Instance Claim_eq_dec : EqDecision Claim.
Proof. solve_decision. Defined.
#[export] Instance Claim_countable : Countable Claim.
Proof.
  refine (inj_countable' (fun c => match c with
    | EscrowSettlement i => inl (0%nat, i, 0) | CheckSettlement i => inl (1%nat, i, 0) | ChannelMutation i => inl (2%nat, i, 0)
    | PendingOfferCancel i => inl (3%nat, i, 0) | DaSequence s n => inl (4%nat, s, n) | DaOperator a => inl (5%nat, a, 0)
    | PassportIssuer a => inl (6%nat, a, 0) | HubCoordinator a => inl (7%nat, a, 0) | GrantRegistrar a => inl (8%nat, a, 0)
    | MissionSponsor a => inl (9%nat, a, 0) | TreasuryNonce t => inl (10%nat, t, 0) | VestingBeneficiary a => inl (11%nat, a, 0)
    | AssetPolicy k => inl (12%nat, k, 0) | IssuerControlSlot h k => inl (13%nat, h, k) | TrustLineSlot h k => inl (14%nat, h, k)
    | IssuerLiability k => inl (15%nat, k, 0) | MetaMutation k => inr k end)
    (fun p => match p with
    | inl (0%nat, i, _) => EscrowSettlement i | inl (1%nat, i, _) => CheckSettlement i | inl (2%nat, i, _) => ChannelMutation i
    | inl (3%nat, i, _) => PendingOfferCancel i | inl (4%nat, s, n) => DaSequence s n | inl (5%nat, a, _) => DaOperator a
    | inl (6%nat, a, _) => PassportIssuer a | inl (7%nat, a, _) => HubCoordinator a | inl (8%nat, a, _) => GrantRegistrar a
    | inl (9%nat, a, _) => MissionSponsor a | inl (10%nat, t, _) => TreasuryNonce t | inl (11%nat, a, _) => VestingBeneficiary a
    | inl (12%nat, k, _) => AssetPolicy k | inl (13%nat, h, k) => IssuerControlSlot h k | inl (14%nat, h, k) => TrustLineSlot h k
    | inl (_, k, _) => IssuerLiability k | inr k => MetaMutation k end) _).
  by intros [].
Defined.

(** How an operation reserved its sender's slot. *)
Inductive DrcSlotReservation :=
| AccountNonce
| TicketSlot (sequence : Z)
| TicketCreateSlot (ticket_sequence : Z).
#[export] Instance DrcSlotReservation_eq_dec : EqDecision DrcSlotReservation.
Proof. solve_decision. Defined.

(** ** The pool *)

Record Mempool := {
  txs : gmap Hash Transaction;
  covenant_txs : gmap Hash TltCovenantTx;
  fees : gmap Hash Z;
  rbf_opt_in : gset Hash;
  reserved : gset OutPoint;
  pending : gmap (Lane * Hash) LaneTx;
  marks : gset Mark;
  claims : gmap Claim Hash;
  drc_slot_reservations : gmap Hash DrcSlotReservation;
  pending_native_offer_lock : gmap Address Z;
  pending_issued_offer_reserve : gmap (Address * Hash) Z;
  pending_trust_line_balance_delta : gmap (Address * Hash) Z;
  max_size : Z;
}.
Definition new (max_size : Z) : Mempool :=
  {| txs := ∅; covenant_txs := ∅; fees := ∅; rbf_opt_in := ∅; reserved := ∅; pending := ∅; marks := ∅; claims := ∅;
     drc_slot_reservations := ∅; pending_native_offer_lock := ∅; pending_issued_offer_reserve := ∅;
     pending_trust_line_balance_delta := ∅; max_size := max_size |}.
Definition len (p : Mempool) : Z := Z.of_nat (size (txs p) + size (covenant_txs p) + size (pending p))%nat.

Definition with_tlt (p : Mempool) txs covenant_txs fees rbf_opt_in reserved : Mempool :=
  {| txs := txs; covenant_txs := covenant_txs; fees := fees; rbf_opt_in := rbf_opt_in; reserved := reserved;
     pending := pending p; marks := marks p; claims := claims p; drc_slot_reservations := drc_slot_reservations p;
     pending_native_offer_lock := pending_native_offer_lock p; pending_issued_offer_reserve := pending_issued_offer_reserve p;
     pending_trust_line_balance_delta := pending_trust_line_balance_delta p; max_size := max_size p |}.
Definition with_pending (p : Mempool) x : Mempool :=
  {| txs := txs p; covenant_txs := covenant_txs p; fees := fees p; rbf_opt_in := rbf_opt_in p; reserved := reserved p;
     pending := x; marks := marks p; claims := claims p; drc_slot_reservations := drc_slot_reservations p;
     pending_native_offer_lock := pending_native_offer_lock p; pending_issued_offer_reserve := pending_issued_offer_reserve p;
     pending_trust_line_balance_delta := pending_trust_line_balance_delta p; max_size := max_size p |}.
Definition with_marks (p : Mempool) x : Mempool :=
  {| txs := txs p; covenant_txs := covenant_txs p; fees := fees p; rbf_opt_in := rbf_opt_in p; reserved := reserved p;
     pending := pending p; marks := x; claims := claims p; drc_slot_reservations := drc_slot_reservations p;
     pending_native_offer_lock := pending_native_offer_lock p; pending_issued_offer_reserve := pending_issued_offer_reserve p;
     pending_trust_line_balance_delta := pending_trust_line_balance_delta p; max_size := max_size p |}.
Definition with_claims (p : Mempool) x : Mempool :=
  {| txs := txs p; covenant_txs := covenant_txs p; fees := fees p; rbf_opt_in := rbf_opt_in p; reserved := reserved p;
     pending := pending p; marks := marks p; claims := x; drc_slot_reservations := drc_slot_reservations p;
     pending_native_offer_lock := pending_native_offer_lock p; pending_issued_offer_reserve := pending_issued_offer_reserve p;
     pending_trust_line_balance_delta := pending_trust_line_balance_delta p; max_size := max_size p |}.
Definition with_slots (p : Mempool) x : Mempool :=
  {| txs := txs p; covenant_txs := covenant_txs p; fees := fees p; rbf_opt_in := rbf_opt_in p; reserved := reserved p;
     pending := pending p; marks := marks p; claims := claims p; drc_slot_reservations := x;
     pending_native_offer_lock := pending_native_offer_lock p; pending_issued_offer_reserve := pending_issued_offer_reserve p;
     pending_trust_line_balance_delta := pending_trust_line_balance_delta p; max_size := max_size p |}.
Definition with_offer_locks (p : Mempool) x y : Mempool :=
  {| txs := txs p; covenant_txs := covenant_txs p; fees := fees p; rbf_opt_in := rbf_opt_in p; reserved := reserved p;
     pending := pending p; marks := marks p; claims := claims p; drc_slot_reservations := drc_slot_reservations p;
     pending_native_offer_lock := x; pending_issued_offer_reserve := y;
     pending_trust_line_balance_delta := pending_trust_line_balance_delta p; max_size := max_size p |}.
Definition with_deltas (p : Mempool) x : Mempool :=
  {| txs := txs p; covenant_txs := covenant_txs p; fees := fees p; rbf_opt_in := rbf_opt_in p; reserved := reserved p;
     pending := pending p; marks := marks p; claims := claims p; drc_slot_reservations := drc_slot_reservations p;
     pending_native_offer_lock := pending_native_offer_lock p; pending_issued_offer_reserve := pending_issued_offer_reserve p;
     pending_trust_line_balance_delta := x; max_size := max_size p |}.
Definition set_mark (m : Mark) (p : Mempool) : Mempool := with_marks p ({[m]} ∪ marks p).
Definition clear_mark (m : Mark) (p : Mempool) : Mempool := with_marks p (marks p ∖ {[m]}).
Definition set_claim (c : Claim) (id : Hash) (p : Mempool) : Mempool := with_claims p (<[c := id]> (claims p)).
Definition clear_claim (c : Claim) (p : Mempool) : Mempool := with_claims p (delete c (claims p)).
Definition marked (m : Mark) (p : Mempool) : bool := bool_decide (m ∈ marks p).
Definition claimed (c : Claim) (p : Mempool) : bool := bool_decide (is_Some (claims p !! c)).

(** ** Operations on the pool *)

Definition Pool (A : Type) : Type := Mempool -> result P2pError A * Mempool.
Definition pret {A} (a : A) : Pool A := fun p => (Ok a, p).
Definition reject {A} (msg : string) : Pool A := fun p => (Err (MempoolRejected msg), p).
Definition pbind {A B} (m : Pool A) (k : A -> Pool B) : Pool B :=
  fun p => match m p with (Ok a, p) => k a p | (Err e, p) => (Err e, p) end.
Definition gets {A} (f : Mempool -> A) : Pool A := fun p => (Ok (f p), p).
Definition modify (f : Mempool -> Mempool) : Pool unit := fun p => (Ok tt, f p).
(** [if bad { return Err(..) }], the condition read from the pool. *)
Definition require (good : Mempool -> bool) (msg : string) : Pool unit :=
  fun p => if good p then (Ok tt, p) else (Err (MempoolRejected msg), p).
(** [.map_err(|e| P2pError::MempoolRejected(e.to_string()))?]. *)
Definition plift {A} (r : result string A) : Pool A :=
  fun p => match r with Ok a => (Ok a, p) | Err e => (Err (MempoolRejected e), p) end.
(** [if let Err(e) = m { undo; return Err(e) }]. *)
Definition on_err {A} (m : Pool A) (undo : Mempool -> Mempool) : Pool A :=
  fun p => match m p with (Ok a, p) => (Ok a, p) | (Err e, p) => (Err e, undo p) end.
Definition pwhen (c : bool) (m : Pool unit) : Pool unit := if c then m else pret tt.
Notation "'let~' x := e 'in' k" := (pbind e (fun x => k)) (at level 10, x pattern, e at level 200, k at level 200) : agora_scope.
Notation "e ';~' k" := (pbind e (fun _ => k)) (at level 199, k at level 200) : agora_scope.

Section mempool.
(** [Transaction::tx_id], [TltCovenantTx::tx_id], and the id of a lane's
    envelope ([transfer_id], [stake_tx_id], [payment_id], [escrow_id], ...). *)
Variable tx_id : Transaction -> Hash.
Variable covenant_tx_id : TltCovenantTx -> Hash.
Variable lane_id : LaneTx -> Hash.
(** [IssuedAssetId::asset_key]. *)
Variable asset_key : IssuedAssetId -> Hash.

Definition contains_tx (id : Hash) (p : Mempool) : bool := bool_decide (is_Some (txs p !! id)).
Definition contains_covenant (id : Hash) (p : Mempool) : bool := bool_decide (is_Some (covenant_txs p !! id)).
Definition resident (l : Lane) (id : Hash) (p : Mempool) : bool := bool_decide (is_Some (pending p !! (l, id))).
(** [HashMap::contains_key], then [return Ok(id)]. *)
Definition unless_resident (l : Lane) (id : Hash) (k : Pool Hash) : Pool Hash :=
  fun p => if resident l id p then (Ok id, p) else k p.
Definition not_full : Pool unit := require (fun p => negb (max_size p <=? len p)) "mempool full".
(** Insert into the lane's map. *)
Definition enter (t : LaneTx) : Pool Hash :=
  fun p => (Ok (lane_id t), with_pending p (<[(lane_of t, lane_id t) := t]> (pending p))).

(** ** TLT transfers and covenant spends *)

Definition tx_outpoints (tx : Transaction) : list OutPoint := previous_outpoint <$> inputs tx.
Definition ct_outpoints (tx : TltCovenantTx) : list OutPoint := ci_previous_outpoint <$> ct_inputs tx.

Definition remove (id : Hash) (p : Mempool) : option Transaction * Mempool :=
  match txs p !! id with
  | None => (None, p)
  | Some tx =>
      (Some tx, with_tlt p (delete id (txs p)) (covenant_txs p) (delete id (fees p)) (rbf_opt_in p ∖ {[id]})
                  (reserved p ∖ list_to_set (tx_outpoints tx)))
  end.
Definition remove_covenant (id : Hash) (p : Mempool) : option TltCovenantTx * Mempool :=
  match covenant_txs p !! id with
  | None => (None, p)
  | Some tx =>
      (Some tx, with_tlt p (txs p) (delete id (covenant_txs p)) (delete id (fees p)) (rbf_opt_in p)
                  (reserved p ∖ list_to_set (ct_outpoints tx)))
  end.

(** Lowest fee first, then lowest id. *)
Definition fee_cmp (a b : Hash * Z) : comparison := then_with (Z.compare a.2 b.2) (Z.compare a.1 b.1).
Definition lowest_fee (p : Mempool) : option (Hash * Z) := max_by (fun a b => fee_cmp b a) (map_to_list (fees p)).
Definition evict_lowest_below (fee : Z) (p : Mempool) : bool * Mempool :=
  match lowest_fee p with
  | Some (id, low) =>
      if low <? fee then
        (true, match remove id p with (None, p) => (remove_covenant id p).2 | (Some _, p) => p end)
      else (false, p)
  | None => (false, p)
  end.
(** [if self.len() >= self.max_size && !self.evict_lowest_below(fee)]. *)
Definition make_room (fee : Z) : Pool unit :=
  fun p =>
    if max_size p <=? len p then
      let '(made, p) := evict_lowest_below fee p in
      if made then (Ok tt, p) else (Err (MempoolRejected "mempool full; fee too low to evict"), p)
    else (Ok tt, p).

(** The loop that claims the inputs of a spend. *)
Definition claim_outpoints (reserved : gset OutPoint) (ops : list OutPoint) : result string (gset OutPoint) :=
  rfold (fun taken op =>
    ensure (negb (bool_decide (op ∈ taken) || bool_decide (op ∈ reserved))) "double spend"%string ;?
    Ok ({[op]} ∪ taken)) ∅ ops.

Definition put_tx (id : Hash) (tx : Transaction) (fee : Z) (taken : gset OutPoint) (p : Mempool) : Mempool :=
  with_tlt p (<[id := tx]> (txs p)) (covenant_txs p) (<[id := fee]> (fees p)) (rbf_opt_in p) (taken ∪ reserved p).
Definition put_covenant (id : Hash) (tx : TltCovenantTx) (fee : Z) (taken : gset OutPoint) (p : Mempool) : Mempool :=
  with_tlt p (txs p) (<[id := tx]> (covenant_txs p)) (<[id := fee]> (fees p)) (rbf_opt_in p) (taken ∪ reserved p).

Definition check_auth (tx : Transaction) : Pool unit :=
  require (fun _ => negb (bool_decide (inputs tx = []))) "coinbase not allowed in mempool" ;~
  require (fun _ => Nat.eqb (length (tx_public_key tx)) 33 && Nat.eqb (length (tx_signature tx)) 64)
    "transaction missing secp256k1 auth".
Definition admit_priced (tx : Transaction) (fee : Z) : Pool Hash :=
  check_auth tx ;~
  let id := tx_id tx in
  fun p =>
    if contains_tx id p then (Ok id, p)
    else (make_room fee ;~
          let~ taken := fun p => plift (claim_outpoints (reserved p) (tx_outpoints tx)) p in
          modify (put_tx id tx fee taken) ;~
          pret id) p.
Definition admit_unpriced (tx : Transaction) : Pool Hash := admit_priced tx 0.
Definition opt_in (id : Hash) (p : Mempool) : Mempool :=
  with_tlt p (txs p) (covenant_txs p) (fees p) ({[id]} ∪ rbf_opt_in p) (reserved p).
Definition admit_priced_opt_in (tx : Transaction) (fee : Z) (rbf : bool) : Pool Hash :=
  let~ already := gets (contains_tx (tx_id tx)) in
  let~ id := admit_priced tx fee in
  pwhen (rbf && negb already) (modify (opt_in id)) ;~
  pret id.

Definition insert_covenant (tx : TltCovenantTx) (fee : Z) : Pool Hash :=
  require (fun _ => negb (bool_decide (ct_inputs tx = []))) "covenant transaction has no inputs" ;~
  let id := covenant_tx_id tx in
  fun p =>
    if contains_covenant id p then (Ok id, p)
    else (make_room fee ;~
          let~ taken := fun p => plift (claim_outpoints (reserved p) (ct_outpoints tx)) p in
          modify (put_covenant id tx fee taken) ;~
          pret id) p.
Definition admit_covenant (tx : TltCovenantTx) (fee : Z) : Pool Hash := insert_covenant tx fee.

(** *** Replacement *)

Definition spends_any (ops : list OutPoint) (spent : gset OutPoint) : bool := existsb (fun op => bool_decide (op ∈ spent)) ops.
Definition spends_output_of (ops : list OutPoint) (ids : gset Hash) : bool := existsb (fun op => bool_decide (op_tx op ∈ ids)) ops.
Definition tx_conflicts (spent : gset OutPoint) (p : Mempool) : list Hash :=
  sort_by Z.compare (filter (fun e => spends_any (tx_outpoints e.2) spent = true) (map_to_list (txs p))).*1.
Definition covenant_conflicts (spent : gset OutPoint) (p : Mempool) : list Hash :=
  sort_by Z.compare (filter (fun e => spends_any (ct_outpoints e.2) spent = true) (map_to_list (covenant_txs p))).*1.
(** The replaced fees plus the minimum increase. *)
Definition replacement_fee (conflicts : list Hash) (p : Mempool) : result string Z :=
  let? replaced := rfold (fun acc id => ok_or "replaced fee overflow"%string (checked_add u64_max acc (default 0 (fees p !! id))))
                     0 conflicts in
  ok_or "replacement fee threshold overflow"%string (checked_add u64_max replaced TLT_RBF_MIN_FEE_INCREASE).
Definition remove_all (ids : list Hash) (p : Mempool) : Mempool := foldl (fun p id => (remove id p).2) p ids.
Definition remove_all_covenants (ids : list Hash) (p : Mempool) : Mempool := foldl (fun p id => (remove_covenant id p).2) p ids.

Definition replace_by_fee (tx : Transaction) (fee : Z) : Pool Hash :=
  check_auth tx ;~
  let id := tx_id tx in
  require (fun p => negb (contains_tx id p)) "transaction is already in the mempool" ;~
  require (fun _ => bool_decide (NoDup (tx_outpoints tx))) "duplicate input in replacement" ;~
  let~ conflicts := gets (tx_conflicts (list_to_set (tx_outpoints tx))) in
  require (fun _ => negb (bool_decide (conflicts = []))) "replacement does not conflict with the mempool" ;~
  require (fun _ => Nat.leb (length conflicts) TLT_RBF_MAX_REPLACEMENTS) "replacement evicts too many transactions" ;~
  require (fun p => forallb (fun c => bool_decide (c ∈ rbf_opt_in p)) conflicts)
    "conflicting transaction did not opt into replace-by-fee" ;~
  let conflict_set : gset Hash := list_to_set conflicts in
  require (fun p => forallb (fun e => bool_decide (e.1 ∈ conflict_set) || negb (spends_output_of (tx_outpoints e.2) conflict_set))
                      (map_to_list (txs p))) "replacement would orphan a mempool descendant" ;~
  let~ needed := fun p => plift (replacement_fee conflicts p) p in
  require (fun _ => needed <=? fee) "replacement fee is below the threshold" ;~
  modify (remove_all conflicts) ;~
  admit_priced_opt_in tx fee true.

Definition signals_rbf (tx : TltCovenantTx) : bool := existsb (fun i => sequence_signals_rbf (ci_sequence i)) (ct_inputs tx).
Definition descendant_spends_covenant (conflict_set : gset Hash) (p : Mempool) : bool :=
  existsb (fun e => spends_output_of (tx_outpoints e.2) conflict_set) (map_to_list (txs p)) ||
  existsb (fun e => negb (bool_decide (e.1 ∈ conflict_set)) && spends_output_of (ct_outpoints e.2) conflict_set)
    (map_to_list (covenant_txs p)).
Definition replace_covenant (tx : TltCovenantTx) (fee : Z) : Pool Hash :=
  require (fun _ => signals_rbf tx) "covenant replacement does not signal replace-by-fee" ;~
  let id := covenant_tx_id tx in
  require (fun p => negb (contains_covenant id p)) "covenant transaction is already in the mempool" ;~
  require (fun _ => bool_decide (NoDup (ct_outpoints tx))) "duplicate input in replacement" ;~
  let spent : gset OutPoint := list_to_set (ct_outpoints tx) in
  require (fun p => forallb (fun e => negb (spends_any (tx_outpoints e.2) spent)) (map_to_list (txs p)))
    "covenant replacement conflicts with a v1 mempool transaction" ;~
  let~ conflicts := gets (covenant_conflicts spent) in
  require (fun _ => negb (bool_decide (conflicts = []))) "replacement does not conflict with the mempool" ;~
  require (fun _ => Nat.leb (length conflicts) TLT_RBF_MAX_REPLACEMENTS) "replacement evicts too many transactions" ;~
  require (fun p => forallb (fun c => match covenant_txs p !! c with Some e => signals_rbf e | None => true end) conflicts)
    "conflicting covenant did not signal replace-by-fee" ;~
  require (fun p => negb (descendant_spends_covenant (list_to_set conflicts) p)) "replacement would orphan a mempool descendant" ;~
  let~ needed := fun p => plift (replacement_fee conflicts p) p in
  require (fun _ => needed <=? fee) "replacement fee is below the threshold" ;~
  modify (remove_all_covenants conflicts) ;~
  insert_covenant tx fee.

(** *** Selection *)

Definition entry_cmp {A} (id : A -> Hash) (a b : A * Z) : comparison :=
  then_with (Z.compare b.2 a.2) (Z.compare (id a.1) (id b.1)).
Definition pending_entries (max : nat) (p : Mempool) : list (Transaction * Z) :=
  take max (sort_by (entry_cmp tx_id)
    ((fun tx => (tx, default 0 (fees p !! tx_id tx))) <$> (map_to_list (txs p)).*2)).
Definition select_transfers (max : nat) (p : Mempool) : list Transaction := (pending_entries max p).*1.
Definition select_covenants (max : nat) (p : Mempool) : list TltCovenantTx :=
  (take max (sort_by (entry_cmp covenant_tx_id)
    ((fun tx => (tx, default 0 (fees p !! covenant_tx_id tx))) <$> (map_to_list (covenant_txs p)).*2))).*1.
Definition min_fee (p : Mempool) : option Z := max_by (fun a b => Z.compare b a) (map_to_list (fees p)).*2.
Definition median_fee (p : Mempool) : option Z :=
  if bool_decide (fees p = ∅) then None
  else sort_by Z.compare (map_to_list (fees p)).*2 !! Nat.div (size (fees p)) 2.

(** ** Sequence slots *)

Definition reserve_account (asset : NativeAssetId) (a : Address) : Pool unit :=
  require (fun p => negb (marked (ReservedAccount asset a) p)) "account already has a pending nonce" ;~
  modify (set_mark (ReservedAccount asset a)).
Definition reserve_drc_slot (id : Hash) (owner : Address) (r : DrcSlotReservation) : Pool unit :=
  match r with
  | AccountNonce => reserve_account DRC owner
  | TicketSlot sequence =>
      require (fun p => negb (marked (ReservedTicket owner sequence) p)) "DRC ticket already has a pending consumer" ;~
      modify (set_mark (ReservedTicket owner sequence))
  | TicketCreateSlot ticket_sequence =>
      reserve_account DRC owner ;~
      on_err (require (fun p => negb (marked (ReservedTicket owner ticket_sequence) p)) "DRC ticket already reserved")
        (clear_mark (ReservedAccount DRC owner)) ;~
      modify (set_mark (ReservedTicket owner ticket_sequence))
  end ;~
  modify (fun p => with_slots p (<[id := r]> (drc_slot_reservations p))).
Definition release_drc_slot (id : Hash) (owner : Address) (p : Mempool) : Mempool :=
  match drc_slot_reservations p !! id with
  | None => p
  | Some r =>
      let p := with_slots p (delete id (drc_slot_reservations p)) in
      match r with
      | AccountNonce => clear_mark (ReservedAccount DRC owner) p
      | TicketSlot sequence => clear_mark (ReservedTicket owner sequence) p
      | TicketCreateSlot ticket_sequence =>
          clear_mark (ReservedTicket owner ticket_sequence) (clear_mark (ReservedAccount DRC owner) p)
      end
  end.
Definition drc_sender_reservation_from_selector (version ticket_capable_version nonce : Z)
  (account_sequence : option DrcAccountSequenceSelector) : result string DrcSlotReservation :=
  match resolve_drc_account_sequence version ticket_capable_version nonce account_sequence with
  | Err e => Err (sequence_error_msg e)
  | Ok sel => Ok (match kind sel with Nonce => AccountNonce | Ticket => TicketSlot (value sel) end)
  end.
(** The two calls that every DRC lane makes. *)
Definition reserve_sender (id : Hash) (owner : Address) (version ticket_version nonce : Z) (sel : option DrcAccountSequenceSelector)
  : Pool unit :=
  let~ r := plift (drc_sender_reservation_from_selector version ticket_version nonce sel) in
  reserve_drc_slot id owner r.
Definition drc_account_transfer_reservation (tx : AccountTransfer) : result string DrcSlotReservation :=
  if bool_decide (at_asset tx = DRC)
  then drc_sender_reservation_from_selector (at_tx_version tx) ACCOUNT_TRANSFER_DRC_TICKET_VERSION (at_nonce tx) (at_account_sequence tx)
  else Ok AccountNonce.

(** ** Account lanes *)

Definition admit_account (tx : AccountTransfer) : Pool Hash :=
  let id := lane_id (AccountL tx) in
  unless_resident LAccount id (
    not_full ;~
    (if bool_decide (at_asset tx = DRC) && (ACCOUNT_TRANSFER_DRC_TICKET_VERSION <=? at_tx_version tx) then
       let~ r := plift (drc_account_transfer_reservation tx) in
       reserve_drc_slot id (at_from tx) r
     else reserve_account (at_asset tx) (at_from tx)) ;~
    enter (AccountL tx)).
Definition admit_stake (tx : SignedStakeTx) : Pool Hash :=
  let id := lane_id (StakeL tx) in
  unless_resident LStake id (
    not_full ;~
    (if bool_decide (sx_asset tx = DRC) && (STAKE_TX_TICKET_VERSION <=? sx_version tx) then
       reserve_sender id (sx_actor tx) (sx_version tx) STAKE_TX_TICKET_VERSION (sx_nonce tx) (sx_account_sequence tx)
     else reserve_account (sx_asset tx) (sx_actor tx)) ;~
    enter (StakeL tx)).
Definition admit_ovl_execution (tx : OvlExecutionTx) : Pool Hash :=
  require (fun _ => ov_version tx =? OVL_EXECUTION_VERSION)
    "raw EVM transactions are not admitted to the Agora-signed mempool" ;~
  unless_resident LOvl (lane_id (OvlL tx)) (
    not_full ;~
    reserve_account (execution_asset tx) (ov_from tx) ;~
    enter (OvlL tx)).

(** *** Payments and the policies of their recipients *)

Definition lane_list (p : Mempool) : list ((Lane * Hash) * LaneTx) := map_to_list (pending p).
Definition any_pending (f : LaneTx -> bool) (p : Mempool) : bool := existsb (fun e => f e.2) (lane_list p).
Definition requires_tag_of (to : Address) (t : LaneTx) : bool :=
  match t with
  | PolicyL pol => (pt_account pol =? to) && bool_decide (destination_tag_requirement (pt_action pol) = Some true)
  | _ => false
  end.
Definition enables_auth_of (to : Address) (t : LaneTx) : bool :=
  match t with
  | PolicyL pol => (pt_account pol =? to) && bool_decide (deposit_auth_requirement (pt_action pol) = Some true)
  | _ => false
  end.
Definition is_unauthorize (a : DrcDepositPreauthAction) : bool := match a with Unauthorize => true | Authorize => false end.
Definition revokes_of (to from : Address) (t : LaneTx) : bool :=
  match t with
  | PreauthL x => (px_owner x =? to) && (px_authorized_source x =? from) && is_unauthorize (px_action x)
  | _ => false
  end.
Definition untagged (tx : DrcPaymentTx) : bool := bool_decide (authenticated_destination_tag tx = None).

Definition admit_payment_with_context (tx : DrcPaymentTx) (application_blue_score : option Z)
  (canonical_deposit_auth_required canonical_preauthorized : bool) : Pool Hash :=
  plift (validate_envelope_version tx) ;~
  pwhen (pm_version tx =? DRC_PAYMENT_VERSION) (
    let~ score := plift (ok_or "DRC payment v4 requires an application blue score"%string application_blue_score) in
    require (fun _ => negb (is_expired_at_blue_score tx score)) "expired DRC payment at blue score") ;~
  let id := lane_id (PaymentL tx) in
  unless_resident LPayment id (
    require (fun p => negb (untagged tx && any_pending (requires_tag_of (pm_to tx)) p))
      "pending recipient policy requires a DRC destination tag" ;~
    let~ pending_enable := gets (any_pending (enables_auth_of (pm_to tx))) in
    let~ pending_revoke := gets (any_pending (revokes_of (pm_to tx) (pm_from tx))) in
    let deposit_auth_required := canonical_deposit_auth_required || pending_enable in
    require (fun _ => negb (negb (pm_from tx =? pm_to tx) && deposit_auth_required && (negb canonical_preauthorized || pending_revoke)))
      "recipient DepositAuth does not authorize this DRC source" ;~
    not_full ;~
    reserve_sender id (pm_from tx) (pm_version tx) DRC_PAYMENT_TICKET_VERSION (pm_nonce tx) (pm_account_sequence tx) ;~
    pwhen deposit_auth_required (modify (set_mark (DepositAuthRequired id))) ;~
    pwhen canonical_preauthorized (modify (set_mark (DepositPreauthorized id))) ;~
    enter (PaymentL tx)).
Definition admit_payment (tx : DrcPaymentTx) : Pool Hash := admit_payment_with_context tx None false false.
Definition admit_payment_at_blue_score (tx : DrcPaymentTx) (score : Z) : Pool Hash :=
  admit_payment_with_context tx (Some score) false false.
Definition admit_payment_with_deposit_auth (tx : DrcPaymentTx) (required preauthorized : bool) : Pool Hash :=
  admit_payment_with_context tx None required preauthorized.
Definition admit_payment_with_deposit_auth_at_blue_score (tx : DrcPaymentTx) (score : Z) (required preauthorized : bool) : Pool Hash :=
  admit_payment_with_context tx (Some score) required preauthorized.

(** Take an envelope out of its lane's map. *)
Definition leave (l : Lane) (id : Hash) (p : Mempool) : Mempool := with_pending p (delete (l, id) (pending p)).
Definition remove_payment (id : Hash) (p : Mempool) : Mempool :=
  match pending p !! (LPayment, id) with
  | Some (PaymentL tx) =>
      clear_mark (DepositPreauthorized id) (clear_mark (DepositAuthRequired id)
        (release_drc_slot id (pm_from tx) (leave LPayment id p)))
  | _ => p
  end.
Definition remove_payments (ids : list Hash) (p : Mempool) : Mempool := foldl (fun p id => remove_payment id p) p ids.
(** The payments that satisfy a condition, as the ids they are keyed by. *)
Definition payments_where (f : Hash -> DrcPaymentTx -> bool) (p : Mempool) : list Hash :=
  omap (fun e => match e.2 with PaymentL tx => if f e.1.2 tx then Some e.1.2 else None | _ => None end) (lane_list p).

(** Payments that a pending policy of their recipient would make invalid. *)
Definition incompatible_with_policy (requires_tag enables_auth : bool) (account : Address) (p : Mempool) (id : Hash) (tx : DrcPaymentTx)
  : bool :=
  (requires_tag && (pm_to tx =? account) && untagged tx) ||
  (enables_auth && (pm_to tx =? account) && negb (pm_from tx =? pm_to tx) && negb (marked (DepositPreauthorized id) p)).
Definition guard_payments (account : Address) (p : Mempool) : Mempool :=
  foldl (fun p id => set_mark (DepositAuthRequired id) p) p (payments_where (fun _ tx => pm_to tx =? account) p).
Definition enforce_policy (tx : DrcAccountPolicyTx) (p : Mempool) : Mempool :=
  let requires_tag := bool_decide (destination_tag_requirement (pt_action tx) = Some true) in
  let enables_auth := bool_decide (deposit_auth_requirement (pt_action tx) = Some true) in
  if requires_tag || enables_auth then
    let p := remove_payments (payments_where (incompatible_with_policy requires_tag enables_auth (pt_account tx) p) p) p in
    if enables_auth then guard_payments (pt_account tx) p else p
  else p.
Definition admit_drc_policy (tx : DrcAccountPolicyTx) : Pool Hash :=
  let id := lane_id (PolicyL tx) in
  unless_resident LPolicy id (
    not_full ;~
    reserve_sender id (pt_account tx) (pt_version tx) DRC_ACCOUNT_POLICY_TICKET_TX_VERSION (pt_nonce tx) (pt_account_sequence tx) ;~
    enter (PolicyL tx) ;~
    modify (enforce_policy tx) ;~
    pret id).
Definition enforce_revoke (tx : DrcDepositPreauthTx) (p : Mempool) : Mempool :=
  if is_unauthorize (px_action tx) then
    remove_payments (payments_where (fun id x =>
      (pm_to x =? px_owner tx) && (pm_from x =? px_authorized_source tx) && marked (DepositAuthRequired id) p) p) p
  else p.
Definition admit_drc_deposit_preauth (tx : DrcDepositPreauthTx) : Pool Hash :=
  let id := lane_id (PreauthL tx) in
  unless_resident LPreauth id (
    not_full ;~
    reserve_sender id (px_owner tx) (px_version tx) DRC_DEPOSIT_PREAUTH_TICKET_TX_VERSION (px_nonce tx) (px_account_sequence tx) ;~
    enter (PreauthL tx) ;~
    modify (enforce_revoke tx) ;~
    pret id).
Definition admit_drc_regular_key (tx : DrcRegularKeyTx) : Pool Hash :=
  let id := lane_id (RegularKeyL tx) in
  unless_resident LRegularKey id (
    not_full ;~
    reserve_sender id (rk_owner tx) (rk_version tx) DRC_REGULAR_KEY_TICKET_TX_VERSION (rk_nonce tx) (rk_account_sequence tx) ;~
    enter (RegularKeyL tx)).
Definition admit_drc_signer_list (tx : DrcSignerListTx) : Pool Hash :=
  let id := lane_id (SignerListL tx) in
  unless_resident LSignerList id (
    not_full ;~
    reserve_sender id (st_owner tx) (st_version tx) DRC_SIGNER_LIST_TICKET_TX_VERSION (st_nonce tx) (st_account_sequence tx) ;~
    enter (SignerListL tx)).

(** *** Tickets *)

Definition DRC_TICKET_CREATE_TX_VERSION : Z := 1.
Definition validate_ticket_create (tx : DrcTicketCreateTx) : result string unit :=
  ensure (tc_version tx =? DRC_TICKET_CREATE_TX_VERSION) "unsupported DRC ticket-create version"%string ;?
  ensure (negb (tc_owner tx =? 0)) "zero DRC ticket owner"%string.
Definition admit_drc_ticket_create (tx : DrcTicketCreateTx) : Pool Hash :=
  plift (validate_ticket_create tx) ;~
  let id := lane_id (TicketCreateL tx) in
  unless_resident LTicketCreate id (
    not_full ;~
    let~ ticket_sequence := plift (ok_or "DRC ticket sequence overflow"%string (checked_add u64_max (tc_nonce tx) 1)) in
    reserve_drc_slot id (tc_owner tx) (TicketCreateSlot ticket_sequence) ;~
    enter (TicketCreateL tx)).
Definition remove_drc_ticket_create (id : Hash) (p : Mempool) : Mempool :=
  match pending p !! (LTicketCreate, id) with
  | Some (TicketCreateL tx) => release_drc_slot id (tc_owner tx) (leave LTicketCreate id p)
  | _ => p
  end.

(** *** Objects that are created, then settled once *)

(** [reserve_escrow_settlement], [reserve_check_settlement] and
    [reserve_payment_channel_mutation], by their claim. *)
Definition reserve_claim (c : Claim) (id : Hash) (msg : string) : Pool unit :=
  require (fun p => negb (claimed c p)) msg ;~
  modify (set_claim c id).
(** A settlement's two reservations: its object, then its sender's slot. *)
Definition reserve_settlement (c : Claim) (msg : string) (id : Hash) (owner : Address) (version ticket_version nonce : Z)
  (sel : option DrcAccountSequenceSelector) : Pool unit :=
  require (fun p => negb (claimed c p)) msg ;~
  let~ r := plift (drc_sender_reservation_from_selector version ticket_version nonce sel) in
  reserve_claim c id msg ;~
  on_err (reserve_drc_slot id owner r) (clear_claim c).

Definition admit_drc_escrow_create (tx : DrcEscrowCreateTx) : Pool Hash :=
  plift (validate_create tx) ;~
  let id := lane_id (EscrowCreateL tx) in
  unless_resident LEscrowCreate id (
    not_full ;~
    reserve_sender id (ec_owner tx) (ec_version tx) DRC_ESCROW_CREATE_TICKET_VERSION (ec_nonce tx) (ec_account_sequence tx) ;~
    modify (set_mark (PendingEscrowId id)) ;~
    enter (EscrowCreateL tx)).
Definition admit_drc_escrow_finish (tx : DrcEscrowFinishTx) : Pool Hash :=
  plift (validate_finish tx) ;~
  require (fun p => negb (marked (PendingEscrowId (ef_escrow_id tx)) p))
    "mempool rejects escrow finish while create is pending (same-block is consensus-only)" ;~
  let id := lane_id (EscrowFinishL tx) in
  unless_resident LEscrowFinish id (
    not_full ;~
    reserve_settlement (EscrowSettlement (ef_escrow_id tx)) "escrow already has a pending finish or cancel" id (ef_submitter tx)
      (ef_version tx) DRC_ESCROW_FINISH_TICKET_VERSION (ef_nonce tx) (ef_account_sequence tx) ;~
    enter (EscrowFinishL tx)).
Definition admit_drc_escrow_cancel (tx : DrcEscrowCancelTx) : Pool Hash :=
  plift (validate_cancel tx) ;~
  require (fun p => negb (marked (PendingEscrowId (ex_escrow_id tx)) p))
    "mempool rejects escrow cancel while create is pending (same-block is consensus-only)" ;~
  let id := lane_id (EscrowCancelL tx) in
  unless_resident LEscrowCancel id (
    not_full ;~
    reserve_settlement (EscrowSettlement (ex_escrow_id tx)) "escrow already has a pending finish or cancel" id (ex_submitter tx)
      (ex_version tx) DRC_ESCROW_CANCEL_TICKET_VERSION (ex_nonce tx) (ex_account_sequence tx) ;~
    enter (EscrowCancelL tx)).
Definition remove_drc_escrow_create (id : Hash) (p : Mempool) : Mempool :=
  match pending p !! (LEscrowCreate, id) with
  | Some (EscrowCreateL tx) => release_drc_slot id (ec_owner tx) (clear_mark (PendingEscrowId id) (leave LEscrowCreate id p))
  | _ => p
  end.
Definition remove_drc_escrow_finish (id : Hash) (p : Mempool) : Mempool :=
  match pending p !! (LEscrowFinish, id) with
  | Some (EscrowFinishL tx) =>
      release_drc_slot id (ef_submitter tx) (clear_claim (EscrowSettlement (ef_escrow_id tx)) (leave LEscrowFinish id p))
  | _ => p
  end.
Definition remove_drc_escrow_cancel (id : Hash) (p : Mempool) : Mempool :=
  match pending p !! (LEscrowCancel, id) with
  | Some (EscrowCancelL tx) =>
      release_drc_slot id (ex_submitter tx) (clear_claim (EscrowSettlement (ex_escrow_id tx)) (leave LEscrowCancel id p))
  | _ => p
  end.

Definition admit_drc_check_create (tx : DrcCheckCreateTx) : Pool Hash :=
  plift (validate_check_create tx) ;~
  let id := lane_id (CheckCreateL tx) in
  unless_resident LCheckCreate id (
    not_full ;~
    reserve_sender id (cc_owner tx) (cc_version tx) DRC_CHECK_TICKET_VERSION (cc_nonce tx) (cc_account_sequence tx) ;~
    modify (set_mark (PendingCheckId id)) ;~
    enter (CheckCreateL tx)).
Definition admit_drc_check_cash (tx : DrcCheckCashTx) : Pool Hash :=
  plift (validate_check_cash tx) ;~
  require (fun p => negb (marked (PendingCheckId (ch_check_id tx)) p))
    "mempool rejects check cash while create is pending (same-block is consensus-only)" ;~
  let id := lane_id (CheckCashL tx) in
  unless_resident LCheckCash id (
    not_full ;~
    reserve_settlement (CheckSettlement (ch_check_id tx)) "check already has a pending cash or cancel" id (ch_submitter tx)
      (ch_version tx) DRC_CHECK_TICKET_VERSION (ch_nonce tx) (ch_account_sequence tx) ;~
    enter (CheckCashL tx)).
Definition admit_drc_check_cancel (tx : DrcCheckCancelTx) : Pool Hash :=
  plift (validate_check_cancel tx) ;~
  require (fun p => negb (marked (PendingCheckId (cx_check_id tx)) p))
    "mempool rejects check cancel while create is pending (same-block is consensus-only)" ;~
  let id := lane_id (CheckCancelL tx) in
  unless_resident LCheckCancel id (
    not_full ;~
    reserve_settlement (CheckSettlement (cx_check_id tx)) "check already has a pending cash or cancel" id (cx_submitter tx)
      (cx_version tx) DRC_CHECK_TICKET_VERSION (cx_nonce tx) (cx_account_sequence tx) ;~
    enter (CheckCancelL tx)).
Definition remove_drc_check_create (id : Hash) (p : Mempool) : Mempool :=
  match pending p !! (LCheckCreate, id) with
  | Some (CheckCreateL tx) => release_drc_slot id (cc_owner tx) (clear_mark (PendingCheckId id) (leave LCheckCreate id p))
  | _ => p
  end.
Definition remove_drc_check_cash (id : Hash) (p : Mempool) : Mempool :=
  match pending p !! (LCheckCash, id) with
  | Some (CheckCashL tx) =>
      release_drc_slot id (ch_submitter tx) (clear_claim (CheckSettlement (ch_check_id tx)) (leave LCheckCash id p))
  | _ => p
  end.
Definition remove_drc_check_cancel (id : Hash) (p : Mempool) : Mempool :=
  match pending p !! (LCheckCancel, id) with
  | Some (CheckCancelL tx) =>
      release_drc_slot id (cx_submitter tx) (clear_claim (CheckSettlement (cx_check_id tx)) (leave LCheckCancel id p))
  | _ => p
  end.

(** *** Payment channels ([payment_channel_lane.rs]) *)

Definition admit_drc_payment_channel_create (tx : DrcPaymentChannelCreateTx) : Pool Hash :=
  plift (validate_channel_create tx) ;~
  let id := lane_id (ChannelCreateL tx) in
  unless_resident LChannelCreate id (
    not_full ;~
    reserve_sender id (pc_owner tx) (pc_version tx) DRC_PAYMENT_CHANNEL_TICKET_VERSION (pc_nonce tx) (pc_account_sequence tx) ;~
    modify (set_mark (PendingChannelId id)) ;~
    enter (ChannelCreateL tx)).
Definition channel_busy : string := "payment channel already has a pending fund, claim, or close".
Definition admit_drc_payment_channel_fund (tx : DrcPaymentChannelFundTx) : Pool Hash :=
  plift (validate_channel_fund tx) ;~
  require (fun p => negb (marked (PendingChannelId (fu_channel_id tx)) p))
    "mempool rejects payment channel fund while create is pending (same-block is consensus-only)" ;~
  let id := lane_id (ChannelFundL tx) in
  unless_resident LChannelFund id (
    not_full ;~
    reserve_settlement (ChannelMutation (fu_channel_id tx)) channel_busy id (fu_submitter tx)
      (fu_version tx) DRC_PAYMENT_CHANNEL_TICKET_VERSION (fu_nonce tx) (fu_account_sequence tx) ;~
    enter (ChannelFundL tx)).
Definition admit_drc_payment_channel_claim (tx : DrcPaymentChannelClaimTx) : Pool Hash :=
  plift (validate_channel_claim tx) ;~
  require (fun p => negb (marked (PendingChannelId (cm_channel_id tx)) p))
    "mempool rejects payment channel claim while create is pending (same-block is consensus-only)" ;~
  let id := lane_id (ChannelClaimL tx) in
  unless_resident LChannelClaim id (
    not_full ;~
    reserve_settlement (ChannelMutation (cm_channel_id tx)) channel_busy id (cm_submitter tx)
      (cm_version tx) DRC_PAYMENT_CHANNEL_TICKET_VERSION (cm_nonce tx) (cm_account_sequence tx) ;~
    enter (ChannelClaimL tx)).
Definition admit_drc_payment_channel_close (tx : DrcPaymentChannelCloseTx) : Pool Hash :=
  plift (validate_channel_close tx) ;~
  require (fun p => negb (marked (PendingChannelId (co_channel_id tx)) p))
    "mempool rejects payment channel close while create is pending (same-block is consensus-only)" ;~
  let id := lane_id (ChannelCloseL tx) in
  unless_resident LChannelClose id (
    not_full ;~
    reserve_settlement (ChannelMutation (co_channel_id tx)) channel_busy id (co_submitter tx)
      (co_version tx) DRC_PAYMENT_CHANNEL_TICKET_VERSION (co_nonce tx) (co_account_sequence tx) ;~
    enter (ChannelCloseL tx)).
Definition remove_drc_payment_channel_create (id : Hash) (p : Mempool) : Mempool :=
  match pending p !! (LChannelCreate, id) with
  | Some (ChannelCreateL tx) => release_drc_slot id (pc_owner tx) (clear_mark (PendingChannelId id) (leave LChannelCreate id p))
  | _ => p
  end.
Definition remove_drc_payment_channel_fund (id : Hash) (p : Mempool) : Mempool :=
  match pending p !! (LChannelFund, id) with
  | Some (ChannelFundL tx) =>
      release_drc_slot id (fu_submitter tx) (clear_claim (ChannelMutation (fu_channel_id tx)) (leave LChannelFund id p))
  | _ => p
  end.
Definition remove_drc_payment_channel_claim (id : Hash) (p : Mempool) : Mempool :=
  match pending p !! (LChannelClaim, id) with
  | Some (ChannelClaimL tx) =>
      release_drc_slot id (cm_submitter tx) (clear_claim (ChannelMutation (cm_channel_id tx)) (leave LChannelClaim id p))
  | _ => p
  end.
Definition remove_drc_payment_channel_close (id : Hash) (p : Mempool) : Mempool :=
  match pending p !! (LChannelClose, id) with
  | Some (ChannelCloseL tx) =>
      release_drc_slot id (co_submitter tx) (clear_claim (ChannelMutation (co_channel_id tx)) (leave LChannelClose id p))
  | _ => p
  end.

(** *** Trust lines and issued transfers ([trust_line_lane.rs]) *)

(** The typed form of [drc_trust_line_live_meta_key] and the others. *)
Definition drc_trust_line_set_mutation_meta_keys (tx : DrcTrustLineSetTx) : list TrustKey :=
  [TKLine (ts_holder tx) (asset_key (ts_asset_id tx))].
Definition drc_issued_transfer_mutation_meta_keys (tx : DrcIssuedTransferTx) : list TrustKey :=
  let key := asset_key (it_asset_id tx) in
  [TKLine (it_sender tx) key] ++
  (if it_recipient tx =? it_sender tx then [] else [TKLine (it_recipient tx) key]) ++
  (if (it_sender tx =? it_issuer tx) || (it_recipient tx =? it_issuer tx) then [TKLiability key] else []).
Definition drc_issued_asset_policy_set_mutation_meta_keys (tx : DrcIssuedAssetPolicySetTx) : list TrustKey :=
  [TKPolicy (asset_key (ap_asset_id tx))].
Definition drc_trust_line_issuer_control_mutation_meta_keys (tx : DrcTrustLineIssuerControlTx) : list TrustKey :=
  [TKLine (ic_holder tx) (asset_key (ic_asset_id tx))].
Definition drc_issued_clawback_mutation_meta_keys (tx : DrcIssuedClawbackTx) : list TrustKey :=
  [TKLine (cb_holder tx) (asset_key (cb_asset_id tx)); TKLiability (asset_key (cb_asset_id tx))].

(** One key after the other: the keys reserved before a clash stay reserved. *)
Fixpoint reserve_meta_keys (msg : string) (id : Hash) (keys : list TrustKey) : Pool unit :=
  match keys with
  | [] => pret tt
  | k :: keys => fun p =>
      match claims p !! MetaMutation k with
      | Some existing => if existing =? id then reserve_meta_keys msg id keys p else reject msg p
      | None => reserve_meta_keys msg id keys (set_claim (MetaMutation k) id p)
      end
  end.
Definition reserve_mutation_meta_keys : Hash -> list TrustKey -> Pool unit := reserve_meta_keys "trust line meta mutation already reserved".
Definition is_meta_of (id : Hash) (c : Claim) (owner : Hash) : bool :=
  match c with MetaMutation _ => owner =? id | _ => false end.
Definition release_mutation_meta_keys_for_tx (id : Hash) (p : Mempool) : Mempool :=
  with_claims p (filter (fun e => is_meta_of id e.1 e.2 = false) (claims p)).

Definition reserve_trust_line_set_slot (h : Address) (key id : Hash) (pending_create pending_delete : bool) : Pool unit :=
  require (fun p => negb (claimed (TrustLineSlot h key) p)) "trust line already has a pending set" ;~
  modify (fun p =>
    let p := set_mark (PendingTrustLineSet h key) (set_claim (TrustLineSlot h key) id p) in
    let p := if pending_delete then set_mark (PendingTrustLineDelete h key) p else p in
    if pending_create then set_mark (PendingTrustLineCreate h key) p else p).
Definition release_trust_line_set_slot (h : Address) (key : Hash) (p : Mempool) : Mempool :=
  clear_mark (PendingTrustLineCreate h key) (clear_mark (PendingTrustLineDelete h key)
    (clear_mark (PendingTrustLineSet h key) (clear_claim (TrustLineSlot h key) p))).
Definition admit_drc_trust_line_set (tx : DrcTrustLineSetTx) (pending_create pending_delete : bool) : Pool Hash :=
  plift (validate_trust_line_set tx) ;~
  let id := lane_id (TrustLineSetL tx) in
  let key := asset_key (ts_asset_id tx) in
  unless_resident LTrustLineSet id (
    not_full ;~
    require (fun p => negb (claimed (TrustLineSlot (ts_holder tx) key) p)) "trust line already has a pending set or delete" ;~
    let~ r := plift (drc_sender_reservation_from_selector (ts_version tx) DRC_TRUST_LINE_SET_TICKET_VERSION (ts_nonce tx) (ts_account_sequence tx)) in
    reserve_trust_line_set_slot (ts_holder tx) key id pending_create pending_delete ;~
    on_err (reserve_mutation_meta_keys id (drc_trust_line_set_mutation_meta_keys tx)) (release_trust_line_set_slot (ts_holder tx) key) ;~
    on_err (reserve_drc_slot id (ts_holder tx) r)
      (fun p => release_trust_line_set_slot (ts_holder tx) key (release_mutation_meta_keys_for_tx id p)) ;~
    enter (TrustLineSetL tx)).
Definition remove_drc_trust_line_set (id : Hash) (p : Mempool) : Mempool :=
  match pending p !! (LTrustLineSet, id) with
  | Some (TrustLineSetL tx) =>
      release_drc_slot id (ts_holder tx) (release_mutation_meta_keys_for_tx id
        (release_trust_line_set_slot (ts_holder tx) (asset_key (ts_asset_id tx)) (leave LTrustLineSet id p)))
  | _ => p
  end.

Definition i128_max : Z := 2 ^ 127 - 1.
Definition i128_min : Z := - 2 ^ 127.
Definition put_delta (h : Address) (key : Hash) (next : Z) (p : Mempool) : Mempool :=
  with_deltas p (if next =? 0 then delete (h, key) (pending_trust_line_balance_delta p)
                 else <[(h, key) := next]> (pending_trust_line_balance_delta p)).
Definition delta_of (h : Address) (key : Hash) (p : Mempool) : Z := default 0 (pending_trust_line_balance_delta p !! (h, key)).
Definition bump_pending_delta (h : Address) (key : Hash) (delta : Z) : Pool unit :=
  fun p =>
    let next := delta_of h key p + delta in
    if (i128_min <=? next) && (next <=? i128_max) then (Ok tt, put_delta h key next p)
    else reject "pending trust line balance overflow" p.
Definition bump_pending_delta_unchecked (h : Address) (key : Hash) (delta : Z) (p : Mempool) : Mempool :=
  put_delta h key (clamp i128_min i128_max (delta_of h key p + delta)) p.
Definition apply_pending_transfer_deltas (tx : DrcIssuedTransferTx) (key : Hash) (issuer : Address) : Pool unit :=
  let from_issuer := it_sender tx =? issuer in
  let to_issuer := it_recipient tx =? issuer in
  if from_issuer && negb to_issuer then bump_pending_delta (it_recipient tx) key (it_amount tx)
  else if to_issuer && negb from_issuer then bump_pending_delta (it_sender tx) key (- it_amount tx)
  else if negb from_issuer && negb to_issuer then
    bump_pending_delta (it_sender tx) key (- it_amount tx) ;~ bump_pending_delta (it_recipient tx) key (it_amount tx)
  else pret tt.
Definition rollback_pending_transfer_deltas (tx : DrcIssuedTransferTx) (key : Hash) (issuer : Address) (p : Mempool) : Mempool :=
  let from_issuer := it_sender tx =? issuer in
  let to_issuer := it_recipient tx =? issuer in
  if from_issuer && negb to_issuer then bump_pending_delta_unchecked (it_recipient tx) key (- it_amount tx) p
  else if to_issuer && negb from_issuer then bump_pending_delta_unchecked (it_sender tx) key (it_amount tx) p
  else if negb from_issuer && negb to_issuer then
    bump_pending_delta_unchecked (it_recipient tx) key (- it_amount tx) (bump_pending_delta_unchecked (it_sender tx) key (it_amount tx) p)
  else p.
Definition admit_drc_issued_transfer (tx : DrcIssuedTransferTx) : Pool Hash :=
  plift (validate_issued_transfer tx) ;~
  let id := lane_id (IssuedTransferL tx) in
  let key := asset_key (it_asset_id tx) in
  let issuer := it_issuer tx in
  let sender := it_sender tx in
  let recipient := it_recipient tx in
  let touches_liability := (sender =? issuer) || (recipient =? issuer) in
  let free_liability := fun p => if touches_liability then clear_claim (IssuerLiability key) p else p in
  unless_resident LIssuedTransfer id (
    not_full ;~
    require (fun p => negb (marked (PendingTrustLineDelete sender key) p ||
                            (negb (recipient =? sender) && marked (PendingTrustLineDelete recipient key) p)))
      "mempool rejects transfer while trust line delete is pending (same-block is consensus-only)" ;~
    require (fun p => negb (negb (sender =? issuer) && marked (PendingTrustLineCreate sender key) p))
      "mempool rejects transfer while sender trust line create is pending" ;~
    require (fun p => negb (negb (recipient =? issuer) && marked (PendingTrustLineCreate recipient key) p))
      "mempool rejects transfer while recipient trust line create is pending" ;~
    require (fun p => negb (claimed (AssetPolicy key) p)) "asset policy mutation pending" ;~
    require (fun p => negb (negb (sender =? issuer) && claimed (IssuerControlSlot sender key) p)) "issuer control pending on sender line" ;~
    require (fun p => negb (negb (recipient =? issuer) && negb (recipient =? sender) && claimed (IssuerControlSlot recipient key) p))
      "issuer control pending on recipient line" ;~
    require (fun p => negb (touches_liability && claimed (IssuerLiability key) p))
      "issuer liability already has a pending issue or redeem" ;~
    let~ r := plift (drc_sender_reservation_from_selector (it_version tx) DRC_TRUST_LINE_ISSUED_TRANSFER_TICKET_VERSION (it_nonce tx)
                (it_account_sequence tx)) in
    pwhen touches_liability (modify (set_claim (IssuerLiability key) id)) ;~
    on_err (reserve_mutation_meta_keys id (drc_issued_transfer_mutation_meta_keys tx)) free_liability ;~
    on_err (apply_pending_transfer_deltas tx key issuer) (fun p => free_liability (release_mutation_meta_keys_for_tx id p)) ;~
    on_err (reserve_drc_slot id sender r)
      (fun p => free_liability (release_mutation_meta_keys_for_tx id (rollback_pending_transfer_deltas tx key issuer p))) ;~
    enter (IssuedTransferL tx)).
Definition remove_drc_issued_transfer (id : Hash) (p : Mempool) : Mempool :=
  match pending p !! (LIssuedTransfer, id) with
  | Some (IssuedTransferL tx) =>
      let key := asset_key (it_asset_id tx) in
      release_drc_slot id (it_sender tx) (release_mutation_meta_keys_for_tx id (clear_claim (IssuerLiability key)
        (rollback_pending_transfer_deltas tx key (it_issuer tx) (leave LIssuedTransfer id p))))
  | _ => p
  end.
Definition revalidate_pending_trust_line_transfers (still_valid : DrcIssuedTransferTx -> bool) (p : Mempool) : Mempool :=
  foldl (fun p id => remove_drc_issued_transfer id p) p
    (omap (fun e => match e.2 with IssuedTransferL tx => if still_valid tx then None else Some e.1.2 | _ => None end) (lane_list p)).

(** *** Issued-asset controls ([issued_controls_lane.rs]) *)

Definition reserve_control_keys : Hash -> list TrustKey -> Pool unit := reserve_meta_keys "issued-control meta mutation already reserved".
(** The control's own claim, its records, and its sender's slot. *)
Definition reserve_control (c : Claim) (id : Hash) (keys : list TrustKey) (issuer : Address) (r : DrcSlotReservation) : Pool unit :=
  modify (set_claim c id) ;~
  on_err (reserve_control_keys id keys) (clear_claim c) ;~
  on_err (reserve_drc_slot id issuer r) (fun p => clear_claim c (release_mutation_meta_keys_for_tx id p)).
Definition admit_drc_issued_asset_policy_set (tx : DrcIssuedAssetPolicySetTx) (extra_meta_keys : list TrustKey) : Pool Hash :=
  plift (validate_policy_set tx) ;~
  let id := lane_id (AssetPolicyL tx) in
  let key := asset_key (ap_asset_id tx) in
  unless_resident LAssetPolicy id (
    not_full ;~
    require (fun p => negb (claimed (AssetPolicy key) p)) "asset policy already has a pending mutation" ;~
    require (fun p => negb (claimed (IssuerLiability key) p)) "issuer liability mutation pending on asset" ;~
    let~ r := plift (drc_sender_reservation_from_selector (ap_version tx) DRC_ISSUED_ASSET_POLICY_SET_TICKET_VERSION (ap_nonce tx)
                (ap_account_sequence tx)) in
    reserve_control (AssetPolicy key) id (drc_issued_asset_policy_set_mutation_meta_keys tx ++ extra_meta_keys) (ap_issuer tx) r ;~
    enter (AssetPolicyL tx)).
Definition admit_drc_trust_line_issuer_control (tx : DrcTrustLineIssuerControlTx) : Pool Hash :=
  plift (validate_issuer_control tx) ;~
  let id := lane_id (IssuerControlL tx) in
  let key := asset_key (ic_asset_id tx) in
  unless_resident LIssuerControl id (
    not_full ;~
    require (fun p => negb (claimed (IssuerControlSlot (ic_holder tx) key) p)) "issuer control already pending for line" ;~
    require (fun p => negb (claimed (AssetPolicy key) p)) "asset policy mutation pending" ;~
    require (fun p => negb (claimed (TrustLineSlot (ic_holder tx) key) p)) "trust line set/delete pending on line" ;~
    let~ r := plift (drc_sender_reservation_from_selector (ic_version tx) DRC_TRUST_LINE_ISSUER_CONTROL_TICKET_VERSION (ic_nonce tx)
                (ic_account_sequence tx)) in
    reserve_control (IssuerControlSlot (ic_holder tx) key) id (drc_trust_line_issuer_control_mutation_meta_keys tx) (ic_issuer tx) r ;~
    enter (IssuerControlL tx)).
Definition admit_drc_issued_clawback (tx : DrcIssuedClawbackTx) : Pool Hash :=
  plift (validate_clawback tx) ;~
  let id := lane_id (ClawbackL tx) in
  let key := asset_key (cb_asset_id tx) in
  unless_resident LClawback id (
    not_full ;~
    require (fun p => negb (claimed (IssuerLiability key) p)) "issuer liability already has a pending mutation" ;~
    require (fun p => negb (claimed (AssetPolicy key) p)) "asset policy mutation pending" ;~
    require (fun p => negb (claimed (IssuerControlSlot (cb_holder tx) key) p)) "issuer control pending on holder line" ;~
    let~ r := plift (drc_sender_reservation_from_selector (cb_version tx) DRC_ISSUED_CLAWBACK_TICKET_VERSION (cb_nonce tx)
                (cb_account_sequence tx)) in
    reserve_control (IssuerLiability key) id (drc_issued_clawback_mutation_meta_keys tx) (cb_issuer tx) r ;~
    enter (ClawbackL tx)).
Definition remove_drc_issued_asset_policy_set (id : Hash) (p : Mempool) : Mempool :=
  match pending p !! (LAssetPolicy, id) with
  | Some (AssetPolicyL tx) =>
      release_drc_slot id (ap_issuer tx) (release_mutation_meta_keys_for_tx id
        (clear_claim (AssetPolicy (asset_key (ap_asset_id tx))) (leave LAssetPolicy id p)))
  | _ => p
  end.
Definition remove_drc_trust_line_issuer_control (id : Hash) (p : Mempool) : Mempool :=
  match pending p !! (LIssuerControl, id) with
  | Some (IssuerControlL tx) =>
      release_drc_slot id (ic_issuer tx) (release_mutation_meta_keys_for_tx id
        (clear_claim (IssuerControlSlot (ic_holder tx) (asset_key (ic_asset_id tx))) (leave LIssuerControl id p)))
  | _ => p
  end.
Definition remove_drc_issued_clawback (id : Hash) (p : Mempool) : Mempool :=
  match pending p !! (LClawback, id) with
  | Some (ClawbackL tx) =>
      release_drc_slot id (cb_issuer tx) (release_mutation_meta_keys_for_tx id
        (clear_claim (IssuerLiability (asset_key (cb_asset_id tx))) (leave LClawback id p)))
  | _ => p
  end.

(** *** Offers ([offer_lane.rs]) *)

(** [entry(..).or_insert(0)] leaves the zero entry when the addition overflows. *)
Definition add_native_lock (owner : Address) (amount : Z) : Pool unit :=
  if amount =? 0 then pret tt
  else fun p =>
    let held := default 0 (pending_native_offer_lock p !! owner) in
    match checked_add u64_max held amount with
    | Some v => (Ok tt, with_offer_locks p (<[owner := v]> (pending_native_offer_lock p)) (pending_issued_offer_reserve p))
    | None => (Err (MempoolRejected "DRC offer native reservation overflow"),
               with_offer_locks p (<[owner := held]> (pending_native_offer_lock p)) (pending_issued_offer_reserve p))
    end.
Definition sub_native_lock (owner : Address) (amount : Z) (p : Mempool) : Mempool :=
  if amount =? 0 then p
  else match pending_native_offer_lock p !! owner with
       | None => p
       | Some held =>
           let v := saturating_sub held amount in
           with_offer_locks p (if v =? 0 then delete owner (pending_native_offer_lock p) else <[owner := v]> (pending_native_offer_lock p))
             (pending_issued_offer_reserve p)
       end.
Definition add_issued_reserve (h : Address) (key : Hash) (amount : Z) : Pool unit :=
  if amount =? 0 then pret tt
  else fun p =>
    let held := default 0 (pending_issued_offer_reserve p !! (h, key)) in
    match checked_add u64_max held amount with
    | Some v => (Ok tt, with_offer_locks p (pending_native_offer_lock p) (<[(h, key) := v]> (pending_issued_offer_reserve p)))
    | None => (Err (MempoolRejected "DRC offer issued reservation overflow"),
               with_offer_locks p (pending_native_offer_lock p) (<[(h, key) := held]> (pending_issued_offer_reserve p)))
    end.
Definition sub_issued_reserve (h : Address) (key : Hash) (amount : Z) (p : Mempool) : Mempool :=
  if amount =? 0 then p
  else match pending_issued_offer_reserve p !! (h, key) with
       | None => p
       | Some held =>
           let v := saturating_sub held amount in
           with_offer_locks p (pending_native_offer_lock p)
             (if v =? 0 then delete (h, key) (pending_issued_offer_reserve p) else <[(h, key) := v]> (pending_issued_offer_reserve p))
       end.
(** The native DRC an offer locks: its fee, and what it sells when that is DRC. *)
Definition native_lock_of (tx : DrcOfferCreateTx) : Z :=
  if is_native (oc_taker_gets tx) then saturating_add u64_max (oc_fee tx) (oc_taker_gets_amount tx) else oc_fee tx.
(** The issued asset an offer reserves, when its owner is not its issuer. *)
Definition issued_lock_of (tx : DrcOfferCreateTx) : option IssuedAssetId :=
  match oc_taker_gets tx with
  | Issued a => if ia_issuer a =? oc_owner tx then None else Some a
  | NativeDrc => None
  end.
Definition admit_drc_offer_create (tx : DrcOfferCreateTx) : Pool Hash :=
  plift (validate_offer_create tx) ;~
  let id := lane_id (OfferCreateL tx) in
  unless_resident LOfferCreate id (
    not_full ;~
    reserve_sender id (oc_owner tx) (oc_version tx) DRC_OFFER_CREATE_TICKET_VERSION (oc_nonce tx) (oc_account_sequence tx) ;~
    let native := native_lock_of tx in
    on_err (add_native_lock (oc_owner tx) native) (release_drc_slot id (oc_owner tx)) ;~
    match issued_lock_of tx with
    | Some a =>
        on_err (add_issued_reserve (oc_owner tx) (asset_key a) (oc_taker_gets_amount tx))
          (fun p => release_drc_slot id (oc_owner tx) (sub_native_lock (oc_owner tx) native p))
    | None => pret tt
    end ;~
    enter (OfferCreateL tx)).
Definition admit_drc_offer_cancel (tx : DrcOfferCancelTx) : Pool Hash :=
  plift (validate_offer_cancel tx) ;~
  let id := lane_id (OfferCancelL tx) in
  let c := PendingOfferCancel (ox_offer_id tx) in
  unless_resident LOfferCancel id (
    require (fun p => negb (resident LOfferCreate (ox_offer_id tx) p)) "mempool rejects offer cancel while create is pending" ;~
    not_full ;~
    require (fun p => negb (claimed c p)) "DRC offer already has a pending cancel" ;~
    let~ r := plift (drc_sender_reservation_from_selector (ox_version tx) DRC_OFFER_CANCEL_TICKET_VERSION (ox_nonce tx) (ox_account_sequence tx)) in
    modify (set_claim c id) ;~
    on_err (reserve_drc_slot id (ox_submitter tx) r) (clear_claim c) ;~
    on_err (add_native_lock (ox_submitter tx) (ox_fee tx)) (fun p => clear_claim c (release_drc_slot id (ox_submitter tx) p)) ;~
    enter (OfferCancelL tx)).
Definition release_offer_create (tx : DrcOfferCreateTx) (p : Mempool) : Mempool :=
  let p := release_drc_slot (lane_id (OfferCreateL tx)) (oc_owner tx) p in
  let p := sub_native_lock (oc_owner tx) (native_lock_of tx) p in
  match issued_lock_of tx with
  | Some a => sub_issued_reserve (oc_owner tx) (asset_key a) (oc_taker_gets_amount tx) p
  | None => p
  end.
Definition remove_drc_offer_create (id : Hash) (p : Mempool) : Mempool :=
  match pending p !! (LOfferCreate, id) with
  | Some (OfferCreateL tx) => release_offer_create tx (leave LOfferCreate id p)
  | _ => p
  end.
Definition remove_drc_offer_cancel (id : Hash) (p : Mempool) : Mempool :=
  match pending p !! (LOfferCancel, id) with
  | Some (OfferCancelL tx) =>
      sub_native_lock (ox_submitter tx) (ox_fee tx) (clear_claim (PendingOfferCancel (ox_offer_id tx))
        (release_drc_slot id (ox_submitter tx) (leave LOfferCancel id p)))
  | _ => p
  end.

(** *** Envelopes with their own replay slots ([da_lane.rs], [ovl_raw_lane.rs],
    [passport_lane.rs], [community_lane.rs], [treasury_lane.rs],
    [vesting_lane.rs], [multisign_compact.rs]) *)

Definition secp_lengths (public_key signature : list Z) : bool := Nat.eqb (length public_key) 33 && Nat.eqb (length signature) 64.
Definition admit_ovl_raw_execution (tx : OvlExecutionTx) : Pool Hash :=
  require (fun _ => ov_version tx =? OVL_EXECUTION_RAW_EVM_VERSION) "OVL raw gossip requires execution version 2" ;~
  require (fun _ => negb (bool_decide (ov_data tx = []))) "OVL raw gossip missing Ethereum payload" ;~
  require (fun _ => bool_decide (ov_public_key tx = []) && bool_decide (ov_signature tx = []))
    "OVL raw gossip must not carry Agora signatures" ;~
  unless_resident LOvlRaw (lane_id (OvlRawL tx)) (not_full ;~ enter (OvlRawL tx)).
Definition da_sequence (a : DataCommitmentAuthorization) : Claim :=
  DaSequence (source_wire_byte (dc_source (da_commitment a))) (dc_sequence (da_commitment a)).
Definition admit_data_commitment (a : DataCommitmentAuthorization) : Pool Hash :=
  plift (validate_authorization a) ;~
  require (fun _ => secp_lengths (da_public_key a) (da_signature a)) "data commitment missing secp256k1 auth" ;~
  let id := lane_id (DataCommitmentL a) in
  unless_resident LDataCommitment id (
    not_full ;~
    require (fun p => negb (claimed (da_sequence a) p)) "data commitment source sequence already pending" ;~
    require (fun p => negb (claimed (DaOperator (da_operator a)) p)) "operator already has a pending data commitment nonce" ;~
    modify (set_claim (da_sequence a) id) ;~
    modify (set_claim (DaOperator (da_operator a)) id) ;~
    enter (DataCommitmentL a)).
Definition remove_data_commitment (id : Hash) (p : Mempool) : Mempool :=
  match pending p !! (LDataCommitment, id) with
  | Some (DataCommitmentL a) => clear_claim (DaOperator (da_operator a)) (clear_claim (da_sequence a) (leave LDataCommitment id p))
  | _ => p
  end.
Definition admit_drc_multisign_attachment (a : DrcMultisignBlockAttachment) : Pool Hash :=
  plift (validate_attachment a) ;~
  unless_resident LMultisign (lane_id (MultisignL a)) (not_full ;~ enter (MultisignL a)).
(** Passports, registrations, spends and claims: one nonce slot each. *)
Definition admit_with_nonce_slot (t : LaneTx) (c : Claim) (msg : string) : Pool Hash :=
  let id := lane_id t in
  unless_resident (lane_of t) id (
    not_full ;~
    require (fun p => negb (claimed c p)) msg ;~
    modify (set_claim c id) ;~
    enter t).
Definition admit_passport_attestation (a : PassportAttestation) : Pool Hash :=
  require (fun _ => pa_version a =? 1) "unsupported passport attestation version" ;~
  require (fun _ => secp_lengths (pa_public_key a) (pa_signature a)) "passport attestation missing secp256k1 auth" ;~
  admit_with_nonce_slot (PassportL a) (PassportIssuer (pa_issuer a)) "issuer already has a pending passport attestation nonce".
Definition admit_hub_registration (r : HubRegistration) : Pool Hash :=
  require (fun _ => hb_version r =? 1) "unsupported hub registration version" ;~
  require (fun _ => secp_lengths (hb_public_key r) (hb_signature r)) "hub registration missing secp256k1 auth" ;~
  let~ coordinator := plift (ok_or "hub coordinators must be nonempty"%string (first_coordinator r)) in
  admit_with_nonce_slot (HubL r) (HubCoordinator coordinator) "coordinator already has a pending hub registration nonce".
Definition admit_grant_registration (r : GrantRegistration) : Pool Hash :=
  require (fun _ => gr_version r =? 1) "unsupported grant registration version" ;~
  require (fun _ => secp_lengths (gr_public_key r) (gr_signature r)) "grant registration missing secp256k1 auth" ;~
  admit_with_nonce_slot (GrantL r) (GrantRegistrar (gr_registrar r)) "registrar already has a pending grant registration nonce".
Definition admit_mission_registration (r : MissionRegistration) : Pool Hash :=
  require (fun _ => ms_version r =? 1) "unsupported mission registration version" ;~
  require (fun _ => secp_lengths (ms_public_key r) (ms_signature r)) "mission registration missing secp256k1 auth" ;~
  admit_with_nonce_slot (MissionL r) (MissionSponsor (ms_sponsor r)) "sponsor already has a pending mission registration nonce".
Definition admit_treasury_disbursement (s : TreasuryDisbursement) : Pool Hash :=
  require (fun _ => td_version s =? 1) "unsupported treasury disbursement version" ;~
  require (fun _ => secp_lengths (td_public_key s) (td_signature s)) "treasury disbursement missing secp256k1 auth" ;~
  require (fun _ => negb (td_amount s =? 0)) "treasury amount must be nonzero" ;~
  admit_with_nonce_slot (TreasuryL s) (TreasuryNonce (treasury_wire_byte (td_treasury s))) "treasury already has a pending disbursement nonce".
Definition admit_vesting_unlock (c : VestingUnlock) : Pool Hash :=
  require (fun _ => vu_version c =? 1) "unsupported vesting unlock version" ;~
  require (fun _ => secp_lengths (vu_public_key c) (vu_signature c)) "vesting unlock missing secp256k1 auth" ;~
  require (fun _ => negb (vu_amount c =? 0)) "vesting amount must be nonzero" ;~
  admit_with_nonce_slot (VestingL c) (VestingBeneficiary (vu_beneficiary c)) "beneficiary already has a pending vesting nonce".

(** ** Templates *)

Definition lane_values (l : Lane) (p : Mempool) : list LaneTx := (filter (fun e => e.1.1 = l) (lane_list p)).*2.
(** The fee a lane orders by. *)
Definition lane_fee (t : LaneTx) : Z :=
  match t with
  | AccountL tx => at_fee tx | OvlL tx => ov_max_fee_per_gas tx | PaymentL tx => pm_fee tx | PolicyL tx => pt_fee tx
  | PreauthL tx => px_fee tx | RegularKeyL tx => rk_fee tx | SignerListL tx => st_fee tx | TicketCreateL tx => tc_fee tx
  | _ => 0
  end.
Definition fee_then_id (a b : LaneTx) : comparison := then_with (Z.compare (lane_fee b) (lane_fee a)) (Z.compare (lane_id a) (lane_id b)).
Definition id_order (a b : LaneTx) : comparison := Z.compare (lane_id a) (lane_id b).
(** The best payers of a lane, the lowest id first among equals. *)
Definition select_by_fee (l : Lane) (max : nat) (p : Mempool) : list LaneTx := take max (sort_by fee_then_id (lane_values l p)).
(** The lanes that are not ordered by fee. *)
Definition select_by_id (l : Lane) (max : nat) (p : Mempool) : list LaneTx := take max (sort_by id_order (lane_values l p)).
Definition select_drc_payments_matching (max : nat) (predicate : DrcPaymentTx -> bool) (p : Mempool) : list LaneTx :=
  take max (sort_by fee_then_id
    (filter (fun t => match t with PaymentL tx => predicate tx | _ => false end = true) (lane_values LPayment p))).
Definition select_account_transfers : nat -> Mempool -> list LaneTx := select_by_fee LAccount.
Definition select_stake_ops : nat -> Mempool -> list LaneTx := select_by_id LStake.
Definition select_ovl_executions : nat -> Mempool -> list LaneTx := select_by_fee LOvl.
Definition select_drc_regular_keys : nat -> Mempool -> list LaneTx := select_by_fee LRegularKey.
Definition select_drc_signer_lists : nat -> Mempool -> list LaneTx := select_by_fee LSignerList.
Definition select_drc_account_policies : nat -> Mempool -> list LaneTx := select_by_fee LPolicy.
Definition select_drc_deposit_preauths : nat -> Mempool -> list LaneTx := select_by_fee LPreauth.
Definition select_drc_ticket_creates : nat -> Mempool -> list LaneTx := select_by_fee LTicketCreate.
Definition select_drc_escrow_creates : nat -> Mempool -> list LaneTx := select_by_id LEscrowCreate.
Definition select_drc_escrow_finishes : nat -> Mempool -> list LaneTx := select_by_id LEscrowFinish.
Definition select_drc_escrow_cancels : nat -> Mempool -> list LaneTx := select_by_id LEscrowCancel.
Definition select_drc_check_creates : nat -> Mempool -> list LaneTx := select_by_id LCheckCreate.
Definition select_drc_check_cashes : nat -> Mempool -> list LaneTx := select_by_id LCheckCash.
Definition select_drc_check_cancels : nat -> Mempool -> list LaneTx := select_by_id LCheckCancel.
Definition select_drc_payment_channel_creates : nat -> Mempool -> list LaneTx := select_by_id LChannelCreate.
Definition select_drc_payment_channel_funds : nat -> Mempool -> list LaneTx := select_by_id LChannelFund.
Definition select_drc_payment_channel_claims : nat -> Mempool -> list LaneTx := select_by_id LChannelClaim.
Definition select_drc_payment_channel_closes : nat -> Mempool -> list LaneTx := select_by_id LChannelClose.
Definition select_drc_trust_line_sets : nat -> Mempool -> list LaneTx := select_by_id LTrustLineSet.
Definition select_drc_issued_transfers : nat -> Mempool -> list LaneTx := select_by_id LIssuedTransfer.
Definition select_drc_issued_asset_policy_sets : nat -> Mempool -> list LaneTx := select_by_id LAssetPolicy.
Definition select_drc_trust_line_issuer_controls : nat -> Mempool -> list LaneTx := select_by_id LIssuerControl.
Definition select_drc_issued_clawbacks : nat -> Mempool -> list LaneTx := select_by_id LClawback.
Definition select_drc_offer_creates : nat -> Mempool -> list LaneTx := select_by_id LOfferCreate.
Definition select_drc_offer_cancels : nat -> Mempool -> list LaneTx := select_by_id LOfferCancel.
Definition select_ovl_raw_executions : nat -> Mempool -> list LaneTx := select_by_id LOvlRaw.
Definition select_passport_attestations : nat -> Mempool -> list LaneTx := select_by_id LPassport.
Definition select_hub_registrations : nat -> Mempool -> list LaneTx := select_by_id LHub.
Definition select_grant_registrations : nat -> Mempool -> list LaneTx := select_by_id LGrant.
Definition select_mission_registrations : nat -> Mempool -> list LaneTx := select_by_id LMission.
Definition select_treasury_disbursements : nat -> Mempool -> list LaneTx := select_by_id LTreasury.
Definition select_vesting_unlocks : nat -> Mempool -> list LaneTx := select_by_id LVesting.
Definition select_drc_payments (max : nat) : Mempool -> list LaneTx := select_drc_payments_matching max (fun _ => true).
Definition select_drc_payments_at_blue_score (max : nat) (score : Z) (p : Mempool) : list LaneTx :=
  select_drc_payments_matching max (fun tx => negb (is_expired_at_blue_score tx score)) p.
Definition MEMPOOL_DATA_COMMITMENT_TEMPLATE_LIMIT : nat := 64.
Definition select_data_commitments (max : nat) (p : Mempool) : list LaneTx :=
  select_by_id LDataCommitment (Nat.min max MEMPOOL_DATA_COMMITMENT_TEMPLATE_LIMIT) p.

(** ** Eviction after a block

    The lanes of the block are one list of envelopes; an OVL execution of either
    version is an [OvlL]. *)

Record PoolBlock := {
  pb_transactions : list Transaction;
  pb_tlt_covenants : list TltCovenantTx;
  pb_ops : list LaneTx;
}.
(** The account whose DRC sequence an operation consumes. *)
Definition drc_owner (t : LaneTx) : option Address :=
  match t with
  | PaymentL tx => Some (pm_from tx) | PolicyL tx => Some (pt_account tx) | PreauthL tx => Some (px_owner tx)
  | RegularKeyL tx => Some (rk_owner tx) | SignerListL tx => Some (st_owner tx) | TicketCreateL tx => Some (tc_owner tx)
  | EscrowCreateL tx => Some (ec_owner tx) | EscrowFinishL tx => Some (ef_submitter tx) | EscrowCancelL tx => Some (ex_submitter tx)
  | CheckCreateL tx => Some (cc_owner tx) | CheckCashL tx => Some (ch_submitter tx) | CheckCancelL tx => Some (cx_submitter tx)
  | ChannelCreateL tx => Some (pc_owner tx) | ChannelFundL tx => Some (fu_submitter tx) | ChannelClaimL tx => Some (cm_submitter tx)
  | ChannelCloseL tx => Some (co_submitter tx) | TrustLineSetL tx => Some (ts_holder tx) | IssuedTransferL tx => Some (it_sender tx)
  | AssetPolicyL tx => Some (ap_issuer tx) | IssuerControlL tx => Some (ic_issuer tx) | ClawbackL tx => Some (cb_issuer tx)
  | OfferCreateL tx => Some (oc_owner tx) | OfferCancelL tx => Some (ox_submitter tx)
  | _ => None
  end.
Definition consumed_account (t : LaneTx) : option (NativeAssetId * Address) :=
  match t with
  | AccountL tx => Some (at_asset tx, at_from tx)
  | StakeL tx => Some (sx_asset tx, sx_actor tx)
  | OvlL tx => if ov_version tx =? OVL_EXECUTION_RAW_EVM_VERSION then None else Some (OVL, ov_from tx)
  | _ => pair DRC <$> drc_owner t
  end.
Definition consumed_account_nonces (b : PoolBlock) : gset (NativeAssetId * Address) := list_to_set (omap consumed_account (pb_ops b)).
Definition block_spent (b : PoolBlock) : gset OutPoint :=
  list_to_set (mjoin (tx_outpoints <$> pb_transactions b) ++ mjoin (ct_outpoints <$> pb_tlt_covenants b)).
Definition block_included (b : PoolBlock) : gset Hash :=
  list_to_set ((tx_id <$> pb_transactions b) ++ (covenant_tx_id <$> pb_tlt_covenants b)).

Definition release_sender (id : Hash) (asset : NativeAssetId) (owner : Address) (p : Mempool) : Mempool :=
  if bool_decide (is_Some (drc_slot_reservations p !! id)) then release_drc_slot id owner p
  else clear_mark (ReservedAccount asset owner) p.
Definition drop_account (id : Hash) (p : Mempool) : Mempool :=
  match pending p !! (LAccount, id) with
  | Some (AccountL tx) => release_sender id (at_asset tx) (at_from tx) (leave LAccount id p)
  | _ => p
  end.
Definition drop_stake (id : Hash) (p : Mempool) : Mempool :=
  match pending p !! (LStake, id) with
  | Some (StakeL tx) => release_sender id (sx_asset tx) (sx_actor tx) (leave LStake id p)
  | _ => p
  end.
Definition evict_ovl (tx : OvlExecutionTx) (p : Mempool) : Mempool :=
  if ov_version tx =? OVL_EXECUTION_RAW_EVM_VERSION then leave LOvlRaw (lane_id (OvlRawL tx)) p
  else let id := lane_id (OvlL tx) in
       if resident LOvl id p then clear_mark (ReservedAccount OVL (ov_from tx)) (leave LOvl id p) else p.
(** [if self.lane.remove(&id).is_some() { self.release_drc_slot(&id, owner) }]. *)
Definition drop_drc (l : Lane) (id : Hash) (owner : Address) (p : Mempool) : Mempool :=
  if resident l id p then release_drc_slot id owner (leave l id p) else p.

Definition evict_account_op (t : LaneTx) : Mempool -> Mempool := match t with AccountL _ => drop_account (lane_id t) | _ => id end.
Definition evict_stake_op (t : LaneTx) : Mempool -> Mempool := match t with StakeL _ => drop_stake (lane_id t) | _ => id end.
Definition evict_ovl_op (t : LaneTx) : Mempool -> Mempool := match t with OvlL tx => evict_ovl tx | _ => id end.
Definition evict_payment_op (t : LaneTx) : Mempool -> Mempool := match t with PaymentL _ => remove_payment (lane_id t) | _ => id end.
Definition evict_regular_key_op (t : LaneTx) : Mempool -> Mempool :=
  match t with RegularKeyL tx => drop_drc LRegularKey (lane_id t) (rk_owner tx) | _ => id end.
Definition evict_signer_list_op (t : LaneTx) : Mempool -> Mempool :=
  match t with SignerListL tx => drop_drc LSignerList (lane_id t) (st_owner tx) | _ => id end.
Definition evict_policy_op (t : LaneTx) : Mempool -> Mempool :=
  match t with PolicyL tx => drop_drc LPolicy (lane_id t) (pt_account tx) | _ => id end.
Definition evict_preauth_op (t : LaneTx) : Mempool -> Mempool :=
  match t with PreauthL tx => drop_drc LPreauth (lane_id t) (px_owner tx) | _ => id end.
Definition evict_ticket_op (t : LaneTx) : Mempool -> Mempool :=
  match t with TicketCreateL _ => remove_drc_ticket_create (lane_id t) | _ => id end.
Definition evict_object_op (l : Lane) (t : LaneTx) : Mempool -> Mempool :=
  if decide (lane_of t = l) then
    match t with
    | EscrowCreateL _ => remove_drc_escrow_create (lane_id t)
    | EscrowFinishL _ => remove_drc_escrow_finish (lane_id t)
    | EscrowCancelL _ => remove_drc_escrow_cancel (lane_id t)
    | CheckCreateL _ => remove_drc_check_create (lane_id t)
    | CheckCashL _ => remove_drc_check_cash (lane_id t)
    | CheckCancelL _ => remove_drc_check_cancel (lane_id t)
    | ChannelCreateL _ => remove_drc_payment_channel_create (lane_id t)
    | ChannelFundL _ => remove_drc_payment_channel_fund (lane_id t)
    | ChannelClaimL _ => remove_drc_payment_channel_claim (lane_id t)
    | ChannelCloseL _ => remove_drc_payment_channel_close (lane_id t)
    | TrustLineSetL _ => remove_drc_trust_line_set (lane_id t)
    | IssuedTransferL _ => remove_drc_issued_transfer (lane_id t)
    | AssetPolicyL _ => remove_drc_issued_asset_policy_set (lane_id t)
    | IssuerControlL _ => remove_drc_trust_line_issuer_control (lane_id t)
    | ClawbackL _ => remove_drc_issued_clawback (lane_id t)
    | OfferCreateL _ => remove_drc_offer_create (lane_id t)
    | OfferCancelL _ => remove_drc_offer_cancel (lane_id t)
    | _ => id
    end
  else id.
(** The object lanes in the order the block is read. *)
Definition object_lanes : list Lane :=
  [LEscrowCreate; LEscrowFinish; LEscrowCancel; LCheckCreate; LCheckCash; LCheckCancel;
   LChannelCreate; LChannelFund; LChannelClaim; LChannelClose; LTrustLineSet; LIssuedTransfer;
   LAssetPolicy; LIssuerControl; LClawback; LOfferCreate; LOfferCancel].
Definition for_ops (f : LaneTx -> Mempool -> Mempool) (ops : list LaneTx) (p : Mempool) : Mempool := foldl (fun p t => f t p) p ops.

(** Data commitments: the included ones, then those whose sequence or operator was used. *)
Definition evict_data_commitment_lanes_from_block (ops : list LaneTx) (p : Mempool) : Mempool :=
  let p := for_ops (fun t => match t with DataCommitmentL _ => remove_data_commitment (lane_id t) | _ => id end) ops p in
  let used : gset Claim := list_to_set (mjoin ((fun t => match t with DataCommitmentL a => [da_sequence a; DaOperator (da_operator a)] | _ => [] end) <$> ops)) in
  foldl (fun p id => remove_data_commitment id p) p
    (omap (fun e => match e.2 with
                    | DataCommitmentL a =>
                        if bool_decide (da_sequence a ∈ used) || bool_decide (DaOperator (da_operator a) ∈ used) then Some e.1.2 else None
                    | _ => None
                    end) (lane_list p)).
(** Passports, registrations, spends and claims: the included ones leave, and the
    nonce slots that the block used are freed. *)
Definition nonce_slot (t : LaneTx) : option Claim :=
  match t with
  | PassportL a => Some (PassportIssuer (pa_issuer a))
  | HubL r => HubCoordinator <$> first_coordinator r
  | GrantL r => Some (GrantRegistrar (gr_registrar r))
  | MissionL r => Some (MissionSponsor (ms_sponsor r))
  | TreasuryL s => Some (TreasuryNonce (treasury_wire_byte (td_treasury s)))
  | VestingL c => Some (VestingBeneficiary (vu_beneficiary c))
  | _ => None
  end.
Definition remove_passport_attestation (id : Hash) (p : Mempool) : Mempool :=
  match pending p !! (LPassport, id) with
  | Some (PassportL a) => clear_claim (PassportIssuer (pa_issuer a)) (leave LPassport id p)
  | _ => p
  end.
Definition index_drc_multisign_attachments_from_block (ops : list LaneTx) (p : Mempool) : Mempool :=
  foldl (fun p t => match t with MultisignL a => (admit_drc_multisign_attachment a p).2 | _ => p end) p ops.
Definition evict_nonce_slot_op (l : Lane) (t : LaneTx) (p : Mempool) : Mempool :=
  if decide (lane_of t = l) then
    let p := leave l (lane_id t) p in
    match nonce_slot t with Some c => clear_claim c p | None => p end
  else p.
Definition nonce_slot_lanes : list Lane := [LPassport; LHub; LGrant; LMission; LTreasury; LVesting].
Definition evict_multisign_op (t : LaneTx) : Mempool -> Mempool := match t with MultisignL _ => leave LMultisign (lane_id t) | _ => id end.

(** *** Payments against the block's policies *)

Definition policy_flags (b : PoolBlock) (tx : DrcPaymentTx) (flags : option bool * bool) : option bool * bool :=
  foldl (fun '(tag, auth) t =>
    match t with
    | PolicyL pol =>
        if pt_account pol =? pm_to tx then
          (match destination_tag_requirement (pt_action pol) with Some r => Some r | None => tag end,
           default auth (deposit_auth_requirement (pt_action pol)))
        else (tag, auth)
    | _ => (tag, auth)
    end) flags (pb_ops b).
Definition preauth_flag (b : PoolBlock) (tx : DrcPaymentTx) (preauthorized : bool) : bool :=
  foldl (fun acc t =>
    match t with
    | PreauthL x => if (px_owner x =? pm_to tx) && (px_authorized_source x =? pm_from tx) then negb (is_unauthorize (px_action x)) else acc
    | _ => acc
    end) preauthorized (pb_ops b).
Definition assign_mark (m : Mark) (v : bool) (p : Mempool) : Mempool := if v then set_mark m p else clear_mark m p.
Definition reconcile_payment (b : PoolBlock) (p : Mempool) (id : Hash) : Mempool :=
  match pending p !! (LPayment, id) with
  | Some (PaymentL tx) =>
      let '(require_tag, auth_required) := policy_flags b tx (None, marked (DepositAuthRequired id) p) in
      let preauthorized := preauth_flag b tx (marked (DepositPreauthorized id) p) in
      let invalid_tag := bool_decide (require_tag = Some true) && untagged tx in
      let invalid_deposit := negb (pm_from tx =? pm_to tx) && auth_required && negb preauthorized in
      if invalid_tag || invalid_deposit then remove_payment id p
      else assign_mark (DepositPreauthorized id) preauthorized (assign_mark (DepositAuthRequired id) auth_required p)
  | _ => p
  end.
Definition reconcile_payments_for_block_policies (b : PoolBlock) (p : Mempool) : Mempool :=
  foldl (reconcile_payment b) p (payments_where (fun _ _ => true) p).

(** *** Operations made stale by a consumed nonce *)

Definition uses_nonce_of (used : gset (NativeAssetId * Address)) (t : LaneTx) : bool :=
  match consumed_account t with Some k => bool_decide (k ∈ used) | None => false end.
Definition evict_stale (used : gset (NativeAssetId * Address)) (l : Lane) (f : Hash -> LaneTx -> Mempool -> Mempool) (p : Mempool) : Mempool :=
  foldl (fun p e => f e.1.2 e.2 p) p (filter (fun e => e.1.1 = l /\ uses_nonce_of used e.2 = true) (lane_list p)).
(** [self.reserved_accounts.remove(&key)] for every consumed key. *)
Definition is_account_of (used : gset (NativeAssetId * Address)) (m : Mark) : bool :=
  match m with ReservedAccount x a => bool_decide ((x, a) ∈ used) | _ => false end.
Definition free_accounts (used : gset (NativeAssetId * Address)) (p : Mempool) : Mempool :=
  with_marks p (filter (fun m => is_account_of used m = false) (marks p)).
Definition drop_owned (l : Lane) (id : Hash) (t : LaneTx) (p : Mempool) : Mempool :=
  match drc_owner t with Some owner => release_drc_slot id owner (leave l id p) | None => p end.
Definition evict_all_stale (used : gset (NativeAssetId * Address)) (p : Mempool) : Mempool :=
  let p := evict_stale used LAccount (fun id _ => drop_account id) p in
  let p := evict_stale used LStake (fun id _ => drop_stake id) p in
  let p := evict_stale used LOvl (fun id _ => leave LOvl id) p in
  let p := evict_stale used LPayment (fun id _ => remove_payment id) p in
  let p := evict_stale used LPolicy (drop_owned LPolicy) p in
  let p := evict_stale used LPreauth (drop_owned LPreauth) p in
  let p := evict_stale used LRegularKey (drop_owned LRegularKey) p in
  let p := evict_stale used LSignerList (drop_owned LSignerList) p in
  evict_stale used LTicketCreate (fun id _ => remove_drc_ticket_create id) p.

Definition evict_tlt (b : PoolBlock) (p : Mempool) : Mempool :=
  let stale (id : Hash) (ops : list OutPoint) := bool_decide (id ∈ block_included b) || spends_any ops (block_spent b) in
  let p := remove_all (filter (fun e => stale e.1 (tx_outpoints e.2) = true) (map_to_list (txs p))).*1 p in
  remove_all_covenants (filter (fun e => stale e.1 (ct_outpoints e.2) = true) (map_to_list (covenant_txs p))).*1 p.

Definition evict_for_block (b : PoolBlock) (p : Mempool) : Mempool :=
  let ops := pb_ops b in
  let used := consumed_account_nonces b in
  let p := reconcile_payments_for_block_policies b p in
  let p := for_ops evict_account_op ops p in
  let p := for_ops evict_stake_op ops p in
  let p := for_ops evict_ovl_op ops p in
  let p := for_ops evict_payment_op ops p in
  let p := for_ops evict_regular_key_op ops p in
  let p := for_ops evict_signer_list_op ops p in
  let p := for_ops evict_ticket_op ops p in
  let p := foldl (fun p l => for_ops (evict_object_op l) ops p) p object_lanes in
  let p := evict_data_commitment_lanes_from_block ops p in
  let p := for_ops evict_multisign_op ops p in
  let p := foldl (fun p l => for_ops (evict_nonce_slot_op l) ops p) p nonce_slot_lanes in
  let p := for_ops evict_policy_op ops p in
  let p := for_ops evict_preauth_op ops p in
  let p := evict_all_stale used p in
  let p := free_accounts used p in
  evict_tlt b p.
Definition evict_expired_drc_payments (score : Z) (p : Mempool) : Mempool :=
  remove_payments (payments_where (fun _ tx => is_expired_at_blue_score tx score) p) p.
Definition evict_for_block_at_blue_score (b : PoolBlock) (score : Z) (p : Mempool) : Mempool :=
  evict_expired_drc_payments score (evict_for_block b p).

(** ** The durable snapshot ([mempool_persist.rs])

    The envelopes with what their admission was told; the reservations are
    rebuilt by admitting them again.  The lanes are one list, in lane order. *)

Record DurableMempoolV1 := {
  ds_max_size : Z;
  ds_tlt : list (Transaction * Z * bool);
  ds_covenants : list (TltCovenantTx * Z);
  ds_payments : list (DrcPaymentTx * bool * bool);
  ds_trust_lines : list (DrcTrustLineSetTx * bool * bool);
  ds_lanes : list LaneTx;
}.
Definition durable_payment (p : Mempool) (e : (Lane * Hash) * LaneTx) : option (DrcPaymentTx * bool * bool) :=
  match e.2 with
  | PaymentL tx => Some (tx, marked (DepositAuthRequired e.1.2) p, marked (DepositPreauthorized e.1.2) p)
  | _ => None
  end.
Definition durable_trust_line (p : Mempool) (e : (Lane * Hash) * LaneTx) : option (DrcTrustLineSetTx * bool * bool) :=
  match e.2 with
  | TrustLineSetL tx =>
      let key := asset_key (ts_asset_id tx) in
      Some (tx, marked (PendingTrustLineCreate (ts_holder tx) key) p, marked (PendingTrustLineDelete (ts_holder tx) key) p)
  | _ => None
  end.
Definition snapshot (p : Mempool) : DurableMempoolV1 :=
  {| ds_max_size := max_size p;
     ds_tlt := (fun e => (e.2, default 0 (fees p !! e.1), bool_decide (e.1 ∈ rbf_opt_in p))) <$> map_to_list (txs p);
     ds_covenants := (fun e => (e.2, default 0 (fees p !! e.1))) <$> map_to_list (covenant_txs p);
     ds_payments := omap (durable_payment p) (lane_list p);
     ds_trust_lines := omap (durable_trust_line p) (lane_list p);
     ds_lanes := mjoin ((fun l => lane_values l p) <$> all_lanes) |}.

(** [let _ = pool.admit_..(..)]. *)
Definition attempt (m : Pool Hash) (p : Mempool) : Mempool := (m p).2.
Definition restore_tlt (p : Mempool) (item : Transaction * Z * bool) : Mempool :=
  let '(tx, fee, rbf) := item in
  attempt (if rbf then admit_priced_opt_in tx fee true else admit_priced tx fee) p.
Definition restore_covenant (p : Mempool) (item : TltCovenantTx * Z) : Mempool := attempt (admit_covenant item.1 item.2) p.
Definition restore_payment (p : Mempool) (item : DrcPaymentTx * bool * bool) : Mempool :=
  let '(tx, deposit_auth, preauthorized) := item in
  attempt (if deposit_auth || preauthorized then admit_payment_with_deposit_auth_at_blue_score tx 0 deposit_auth preauthorized
           else if pm_version tx =? DRC_PAYMENT_VERSION then admit_payment_at_blue_score tx 0
           else admit_payment tx) p.
Definition restore_trust_line (p : Mempool) (item : DrcTrustLineSetTx * bool * bool) : Mempool :=
  let '(tx, pending_create, pending_delete) := item in attempt (admit_drc_trust_line_set tx pending_create pending_delete) p.
(** The lanes whose admission takes the envelope alone. *)
Definition readmit (t : LaneTx) : Pool Hash :=
  match t with
  | AccountL tx => admit_account tx | StakeL tx => admit_stake tx | OvlL tx => admit_ovl_execution tx
  | OvlRawL tx => admit_ovl_raw_execution tx | PolicyL tx => admit_drc_policy tx | PreauthL tx => admit_drc_deposit_preauth tx
  | RegularKeyL tx => admit_drc_regular_key tx | SignerListL tx => admit_drc_signer_list tx
  | TicketCreateL tx => admit_drc_ticket_create tx | EscrowCreateL tx => admit_drc_escrow_create tx
  | EscrowFinishL tx => admit_drc_escrow_finish tx | EscrowCancelL tx => admit_drc_escrow_cancel tx
  | CheckCreateL tx => admit_drc_check_create tx | CheckCashL tx => admit_drc_check_cash tx
  | CheckCancelL tx => admit_drc_check_cancel tx | ChannelCreateL tx => admit_drc_payment_channel_create tx
  | ChannelFundL tx => admit_drc_payment_channel_fund tx | ChannelClaimL tx => admit_drc_payment_channel_claim tx
  | ChannelCloseL tx => admit_drc_payment_channel_close tx | IssuedTransferL tx => admit_drc_issued_transfer tx
  | AssetPolicyL tx => admit_drc_issued_asset_policy_set tx [] | IssuerControlL tx => admit_drc_trust_line_issuer_control tx
  | ClawbackL tx => admit_drc_issued_clawback tx | OfferCreateL tx => admit_drc_offer_create tx
  | OfferCancelL tx => admit_drc_offer_cancel tx | DataCommitmentL a => admit_data_commitment a
  | MultisignL a => admit_drc_multisign_attachment a | PassportL a => admit_passport_attestation a
  | HubL r => admit_hub_registration r | GrantL r => admit_grant_registration r | MissionL r => admit_mission_registration r
  | TreasuryL s => admit_treasury_disbursement s | VestingL c => admit_vesting_unlock c
  | PaymentL _ | TrustLineSetL _ => reject ""
  end.
Definition restore_lane (s : DurableMempoolV1) (p : Mempool) (l : Lane) : Mempool :=
  match l with
  | LPayment => foldl restore_payment p (ds_payments s)
  | LTrustLineSet => foldl restore_trust_line p (ds_trust_lines s)
  | _ => foldl (fun p t => attempt (readmit t) p) p (filter (fun t => lane_of t = l) (ds_lanes s))
  end.
Definition restore_snapshot (s : DurableMempoolV1) (fallback_max : Z) : Mempool :=
  let p := new (if ds_max_size s =? 0 then fallback_max else ds_max_size s) in
  let p := foldl restore_tlt p (ds_tlt s) in
  let p := foldl restore_covenant p (ds_covenants s) in
  foldl (restore_lane s) p all_lanes.
End mempool.
