(* ===== verification/MempoolProps.v ===== *)
(** * The TLT part of the mempool

    Outpoints are reserved exactly while a resident spends them, fees are known
    for exactly the residents, and the pool stays within its size, whatever
    operations run on it.  On this rest the fee market, replacement, templates,
    eviction after a block, and the snapshot. *)

From stdpp Require Import base gmap list fin_maps strings sorting.
From Stdlib Require Import ZArith Lia.
From S2P Require Import Prelude Ordering Sums Types Finality Store Supply Accounts Staking Objects Policy Authority Escrow Check Channel Trust Offer TltScript Payment Envelopes Mempool.
Local Open Scope Z_scope.

(** ** Reasoning about operations *)

Definition wp {A} (m : Pool A) (Q : result P2pError A -> Mempool -> Prop) (p : Mempool) : Prop := Q (m p).1 (m p).2.

Section rules.
Context {A B : Type}.
Implicit Types (p : Mempool).
Lemma wp_mono (m : Pool A) (Q Q' : result P2pError A -> Mempool -> Prop) p :
  wp m Q p -> (forall r q, Q r q -> Q' r q) -> wp m Q' p.
Proof. unfold wp. auto. Qed.
Lemma wp_ret (a : A) Q p : Q (Ok a) p -> wp (pret a) Q p.
Proof. done. Qed.
Lemma wp_bind (m : Pool A) (k : A -> Pool B) Q p :
  wp m (fun r q => match r with Ok a => wp (k a) Q q | Err e => Q (Err e) q end) p -> wp (pbind m k) Q p.
Proof. unfold wp, pbind. destruct (m p) as [[a|e] q]; simpl; auto. Qed.
Lemma wp_gets (f : Mempool -> A) Q p : Q (Ok (f p)) p -> wp (gets f) Q p.
Proof. done. Qed.
Lemma wp_plift (r : result string A) Q p :
  (forall a, r = Ok a -> Q (Ok a) p) -> (forall e, r = Err e -> Q (Err (MempoolRejected e)) p) -> wp (plift r) Q p.
Proof. unfold wp, plift. destruct r; simpl; auto. Qed.
Lemma wp_on_err (m : Pool A) undo Q p :
  wp m (fun r q => match r with Ok a => Q (Ok a) q | Err e => Q (Err e) (undo q) end) p -> wp (on_err m undo) Q p.
Proof. unfold wp, on_err. destruct (m p) as [[a|e] q]; simpl; auto. Qed.
End rules.
Lemma wp_modify f Q p : Q (Ok tt) (f p) -> wp (modify f) Q p.
Proof. done. Qed.
Lemma wp_require good msg Q p :
  (good p = true -> Q (Ok tt) p) -> (good p = false -> Q (Err (MempoolRejected msg)) p) -> wp (require good msg) Q p.
Proof. unfold wp, require. destruct (good p); simpl; auto. Qed.
Lemma wp_pwhen c m Q p : (c = true -> wp m Q p) -> (c = false -> Q (Ok tt) p) -> wp (pwhen c m) Q p.
Proof. unfold pwhen. intros H1 H2. destruct c; [by apply H1|by apply wp_ret, H2]. Qed.
Lemma wp_unless l id k Q p :
  (resident l id p = true -> Q (Ok id) p) -> (resident l id p = false -> wp k Q p) -> wp (unless_resident l id k) Q p.
Proof. unfold wp, unless_resident. destruct (resident l id p); simpl; auto. Qed.
Lemma wp_enter lane_id t Q p :
  Q (Ok (lane_id t)) (with_pending p (<[(lane_of t, lane_id t) := t]> (pending p))) -> wp (enter lane_id t) Q p.
Proof. done. Qed.
Lemma wp_not_full Q p :
  (len p < max_size p -> Q (Ok tt) p) -> Q (Err (MempoolRejected "mempool full")) p -> wp not_full Q p.
Proof. intros H1 H2. apply wp_require; [|done]. intros H. apply H1. apply negb_true_iff, Z.leb_gt in H. lia. Qed.

(** What an operation on the lanes leaves alone. *)
Record tlt_frame (p q : Mempool) : Prop := {
  tf_txs : txs q = txs p;
  tf_covenants : covenant_txs q = covenant_txs p;
  tf_fees : fees q = fees p;
  tf_rbf : rbf_opt_in q = rbf_opt_in p;
  tf_reserved : reserved q = reserved p;
  tf_max : max_size q = max_size p;
}.
#[export] Instance tlt_frame_preorder : PreOrder tlt_frame.
Proof. split; [done|]. intros p q r [] []. split; congruence. Qed.

(** ** The invariant *)

(** The outpoints a resident spends. *)
Definition spends (p : Mempool) (id : Hash) : list OutPoint :=
  match txs p !! id with
  | Some tx => tx_outpoints tx
  | None => match covenant_txs p !! id with Some tx => ct_outpoints tx | None => [] end
  end.

(** The inputs of a spend are claimed when they are distinct and free. *)
Lemma claim_outpoints_gen (reserved : gset OutPoint) (ops : list OutPoint) (taken0 taken : gset OutPoint) :
  rfold (fun taken op =>
    ensure (negb (bool_decide (op ∈ taken) || bool_decide (op ∈ reserved))) "double spend"%string ;?
    Ok ({[op]} ∪ taken)) taken0 ops = Ok taken <->
  taken = list_to_set ops ∪ taken0 /\ NoDup ops /\ forall op, op ∈ ops -> op ∉ reserved /\ op ∉ taken0.
Proof.
  revert taken0. induction ops as [|op ops IH]; intros taken0; simpl.
  - split; [intros [= <-]; split_and!; [set_solver|constructor|by intros ? ?%elem_of_nil]|].
    intros (-> & _). f_equal. set_solver.
  - destruct (bool_decide_reflect (op ∈ taken0)); simpl; [split; [done|]; intros (_ & _ & H); exfalso; set_solver|].
    destruct (bool_decide_reflect (op ∈ reserved)); simpl; [split; [done|]; intros (_ & _ & H); exfalso; set_solver|].
    rewrite IH, NoDup_cons. split.
    + intros (-> & Hnd & H). split_and!; [set_solver| |done|].
      * intros Hin. destruct (H op Hin). set_solver.
      * intros op' [->|Hin]%elem_of_cons; [done|]. destruct (H op' Hin). set_solver.
    + intros (-> & [Hni Hnd] & H). split_and!; [set_solver|done|]. intros op' Hin. destruct (H op'); [set_solver|].
      split; [done|]. rewrite elem_of_union, elem_of_singleton. intros [->|?]; done.
Qed.
Lemma claim_outpoints_Ok (reserved : gset OutPoint) (ops : list OutPoint) (taken : gset OutPoint) :
  claim_outpoints reserved ops = Ok taken <-> taken = list_to_set ops /\ NoDup ops /\ forall op, op ∈ ops -> op ∉ reserved.
Proof.
  unfold claim_outpoints. rewrite claim_outpoints_gen. split; intros (-> & H1 & H2); split_and!; try done; try set_solver.
Qed.

(** What every admission checks of a transfer before the pool is read. *)
Definition well_formed (tx : Transaction) : Prop :=
  inputs tx <> [] /\ length (tx_public_key tx) = 33%nat /\ length (tx_signature tx) = 64%nat.

Section invariant.
Variable tx_id : Transaction -> Hash.
Variable covenant_tx_id : TltCovenantTx -> Hash.
(** The two kinds of envelope are hashed under different domains. *)
Hypothesis ids_apart : forall tx c, tx_id tx <> covenant_tx_id c.

Record tlt_ok (p : Mempool) : Prop := {
  to_tx_id : forall id tx, txs p !! id = Some tx -> id = tx_id tx;
  to_covenant_id : forall id tx, covenant_txs p !! id = Some tx -> id = covenant_tx_id tx;
  to_fees : forall id, is_Some (fees p !! id) <-> is_Some (txs p !! id) \/ is_Some (covenant_txs p !! id);
  to_opt_in : forall id, id ∈ rbf_opt_in p -> is_Some (txs p !! id);
  to_reserved : forall op, op ∈ reserved p <-> exists id, op ∈ spends p id;
  to_exclusive : forall i j op, op ∈ spends p i -> op ∈ spends p j -> i = j;
  to_nodup : forall id, NoDup (spends p id);
  to_size : len p <= max_size p;
  to_wf : forall id tx, txs p !! id = Some tx -> well_formed tx;
  to_covenant_wf : forall id tx, covenant_txs p !! id = Some tx -> ct_inputs tx <> [];
}.

Lemma new_ok n : 0 <= n -> tlt_ok (new n).
Proof.
  intros Hn.
  assert (Hs : forall id, spends (new n) id = []) by (intros id; unfold spends; simpl; by rewrite !lookup_empty).
  split; simpl.
  - intros id tx. by rewrite lookup_empty.
  - intros id tx. by rewrite lookup_empty.
  - intros id. rewrite !lookup_empty. split; [by intros []|by intros [[]|[]]].
  - intros id Hid. by apply elem_of_empty in Hid.
  - intros op. setoid_rewrite Hs. split; [by intros ?%elem_of_empty|by intros (? & ?%elem_of_nil)].
  - intros i j op. rewrite Hs. by intros ?%elem_of_nil.
  - intros id. rewrite Hs. constructor.
  - unfold len. simpl. by rewrite !map_size_empty.
  - intros id tx. by rewrite lookup_empty.
  - intros id tx. by rewrite lookup_empty.
Qed.

Lemma spends_frame p q : tlt_frame p q -> spends q = spends p.
Proof. intros []. unfold spends. by rewrite tf_txs0, tf_covenants0. Qed.
(** A lane operation keeps the invariant when the lanes still fit. *)
Lemma frame_ok p q : tlt_ok p -> tlt_frame p q -> len q <= max_size q -> tlt_ok q.
Proof.
  intros Hok Hf Hlen. pose proof (spends_frame p q Hf) as Hs. destruct Hok, Hf.
  split; try rewrite Hs; rewrite ?tf_txs0, ?tf_covenants0, ?tf_fees0, ?tf_rbf0, ?tf_reserved0; auto.
Qed.

Lemma apart_lookup p id tx c : tlt_ok p -> txs p !! id = Some tx -> covenant_txs p !! id = Some c -> False.
Proof. intros Hok Ht Hc. apply (to_tx_id p Hok) in Ht as H1. apply (to_covenant_id p Hok) in Hc as H2. subst. by eapply ids_apart. Qed.

(** *** Removing *)

Lemma remove_spends p id j :
  tlt_ok p -> is_Some (txs p !! id) -> spends (remove id p).2 j = if decide (j = id) then [] else spends p j.
Proof.
  intros Hok [tx Htx]. unfold remove. rewrite Htx. unfold spends. simpl. destruct (decide (j = id)) as [->|].
  - rewrite lookup_delete_eq. destruct (covenant_txs p !! id) eqn:Ec; [|done]. by destruct (apart_lookup p id tx t Hok Htx Ec).
  - by rewrite lookup_delete_ne by done.
Qed.
Lemma remove_covenant_spends p id j :
  tlt_ok p -> is_Some (covenant_txs p !! id) -> spends (remove_covenant id p).2 j = if decide (j = id) then [] else spends p j.
Proof.
  intros Hok [tx Htx]. unfold remove_covenant. rewrite Htx. unfold spends. simpl. destruct (decide (j = id)) as [->|].
  - destruct (txs p !! id) eqn:Ec; [by destruct (apart_lookup p id _ _ Hok Ec Htx)|]. by rewrite lookup_delete_eq.
  - by rewrite (lookup_delete_ne (covenant_txs p)) by done.
Qed.
Lemma spends_tx p id tx : txs p !! id = Some tx -> spends p id = tx_outpoints tx.
Proof. unfold spends. by intros ->. Qed.
Lemma spends_covenant p id tx : tlt_ok p -> covenant_txs p !! id = Some tx -> spends p id = ct_outpoints tx.
Proof. intros Hok H. unfold spends. destruct (txs p !! id) eqn:E; [|by rewrite H]. by destruct (apart_lookup p id _ _ Hok E H). Qed.

(** The reservations when one resident leaves. *)
Lemma released p id (q : Mempool) :
  tlt_ok p -> (forall j, spends q j = if decide (j = id) then [] else spends p j) ->
  reserved q = reserved p ∖ list_to_set (spends p id) ->
  (forall op, op ∈ reserved q <-> exists j, op ∈ spends q j) /\
  (forall i j op, op ∈ spends q i -> op ∈ spends q j -> i = j) /\ (forall j, NoDup (spends q j)).
Proof.
  intros Hok Hs Hr. split_and!.
  - intros op. rewrite Hr, elem_of_difference, elem_of_list_to_set, (to_reserved p Hok). split.
    + intros [[j Hj] Hn]. exists j. rewrite Hs. case_decide; [by subst|done].
    + intros [j Hj]. rewrite Hs in Hj. case_decide; [by apply elem_of_nil in Hj|]. split; [by exists j|].
      intros Hi. by apply H, (to_exclusive p Hok _ _ op).
  - intros i j op. rewrite !Hs. repeat case_decide; try (by intros ?%elem_of_nil); try (by intros _ ?%elem_of_nil). apply (to_exclusive p Hok).
  - intros j. rewrite Hs. case_decide; [constructor|apply (to_nodup p Hok)].
Qed.
Lemma remove_ok p id : tlt_ok p -> tlt_ok (remove id p).2.
Proof.
  intros Hok. destruct (txs p !! id) as [tx|] eqn:Etx; [|unfold remove; by rewrite Etx].
  destruct (released p id (remove id p).2 Hok) as (H1 & H2 & H3).
  - intros j. apply remove_spends; [done|by eexists].
  - unfold remove. rewrite Etx. simpl. by rewrite (spends_tx p id tx).
  - unfold remove in *. rewrite Etx in *. simpl in *. split; simpl; try done.
    + intros j t. rewrite lookup_delete_Some. intros [_ ?]. by apply (to_tx_id p Hok).
    + apply (to_covenant_id p Hok).
    + intros j. destruct (decide (j = id)) as [->|].
      * rewrite !lookup_delete_eq. split; [by intros []|]. intros [[]|[c Hc]]; [done|]. by destruct (apart_lookup p id tx c Hok Etx Hc).
      * rewrite !lookup_delete_ne by done. apply (to_fees p Hok).
    + intros j. rewrite elem_of_difference, not_elem_of_singleton. intros [Hj Hne]. rewrite lookup_delete_ne by done. by apply (to_opt_in p Hok).
    + pose proof (to_size p Hok). unfold len in *. simpl. rewrite map_size_delete, Etx. simpl. lia.
    + intros j t. rewrite lookup_delete_Some. intros [_ ?]. by apply (to_wf p Hok j).
    + apply (to_covenant_wf p Hok).
Qed.
Lemma remove_covenant_ok p id : tlt_ok p -> tlt_ok (remove_covenant id p).2.
Proof.
  intros Hok. destruct (covenant_txs p !! id) as [tx|] eqn:Etx; [|unfold remove_covenant; by rewrite Etx].
  destruct (released p id (remove_covenant id p).2 Hok) as (H1 & H2 & H3).
  - intros j. apply remove_covenant_spends; [done|by eexists].
  - unfold remove_covenant. rewrite Etx. simpl. by rewrite (spends_covenant p id tx).
  - unfold remove_covenant in *. rewrite Etx in *. simpl in *. split; simpl; try done.
    + apply (to_tx_id p Hok).
    + intros j t. rewrite lookup_delete_Some. intros [_ ?]. by apply (to_covenant_id p Hok).
    + intros j. destruct (decide (j = id)) as [->|].
      * rewrite !lookup_delete_eq. split; [by intros []|]. intros [[c Hc]|[]]; [|done]. by destruct (apart_lookup p id c tx Hok Hc Etx).
      * rewrite !lookup_delete_ne by done. apply (to_fees p Hok).
    + apply (to_opt_in p Hok).
    + pose proof (to_size p Hok). unfold len in *. simpl. rewrite map_size_delete, Etx. simpl. lia.
    + apply (to_wf p Hok).
    + intros j t. rewrite lookup_delete_Some. intros [_ ?]. by apply (to_covenant_wf p Hok j).
Qed.
Lemma remove_all_ok p ids : tlt_ok p -> tlt_ok (remove_all ids p).
Proof. unfold remove_all. revert p. induction ids as [|i ids IH]; intros p Hok; simpl; [done|]. by apply IH, remove_ok. Qed.
Lemma remove_all_covenants_ok p ids : tlt_ok p -> tlt_ok (remove_all_covenants ids p).
Proof. unfold remove_all_covenants. revert p. induction ids as [|i ids IH]; intros p Hok; simpl; [done|]. by apply IH, remove_covenant_ok. Qed.

(** *** Claiming *)


(** A new resident [id] with unreserved outpoints. *)
Lemma claimed_fresh p (q : Mempool) id ops :
  tlt_ok p -> (forall j, spends q j = if decide (j = id) then ops else spends p j) -> spends p id = [] ->
  reserved q = list_to_set ops ∪ reserved p -> NoDup ops -> (forall op, op ∈ ops -> op ∉ reserved p) ->
  (forall op, op ∈ reserved q <-> exists j, op ∈ spends q j) /\
  (forall i j op, op ∈ spends q i -> op ∈ spends q j -> i = j) /\ (forall j, NoDup (spends q j)).
Proof.
  intros Hok Hs Hid Hr Hnd Hfree.
  assert (Hheld : forall j op, op ∈ spends p j -> op ∈ reserved p) by (intros j op Hj; apply (to_reserved p Hok); by exists j).
  split_and!.
  - intros op. rewrite Hr, elem_of_union, elem_of_list_to_set, (to_reserved p Hok). split.
    + intros [Hin|[j Hj]]; [exists id; by rewrite Hs, decide_True|].
      exists j. rewrite Hs. case_decide as Hji; [|done]. subst j. rewrite Hid in Hj. by apply elem_of_nil in Hj.
    + intros [j Hj]. rewrite Hs in Hj. case_decide; [by left|]. right. by exists j.
  - intros i j op. rewrite !Hs. repeat case_decide; subst; try done.
    + intros Hi Hj. destruct (Hfree op Hi). by apply (Hheld j).
    + intros Hi Hj. destruct (Hfree op Hj). by apply (Hheld i).
    + apply (to_exclusive p Hok).
  - intros j. rewrite Hs. case_decide; [done|apply (to_nodup p Hok)].
Qed.
Lemma put_tx_ok p tx fee :
  tlt_ok p -> txs p !! tx_id tx = None -> len p < max_size p -> NoDup (tx_outpoints tx) ->
  (forall op, op ∈ tx_outpoints tx -> op ∉ reserved p) -> well_formed tx ->
  tlt_ok (put_tx (tx_id tx) tx fee (list_to_set (tx_outpoints tx)) p).
Proof.
  intros Hok Hnew Hroom Hnd Hfree Hwf. set (q := put_tx _ _ _ _ _).
  assert (Hcov : covenant_txs p !! tx_id tx = None).
  { destruct (covenant_txs p !! tx_id tx) as [c|] eqn:E; [|done]. apply (to_covenant_id p Hok) in E. by destruct (ids_apart tx c). }
  assert (Hs : forall j, spends q j = if decide (j = tx_id tx) then tx_outpoints tx else spends p j).
  { intros j. unfold spends, q, put_tx. simpl. case_decide as Hj; [subst; by rewrite lookup_insert_eq|by rewrite lookup_insert_ne by congruence]. }
  destruct (claimed_fresh p q (tx_id tx) (tx_outpoints tx) Hok Hs) as (H1 & H2 & H3); try done.
  { unfold spends. by rewrite Hnew, Hcov. }
  unfold q, put_tx in *. split; simpl in *; try done.
  - intros j t. rewrite lookup_insert_Some. intros [[<- <-]|[_ ?]]; [done|by apply (to_tx_id p Hok)].
  - apply (to_covenant_id p Hok).
  - intros j. destruct (decide (j = tx_id tx)) as [->|].
    + rewrite !lookup_insert_eq. split; intros _; [left|]; by eexists.
    + rewrite !lookup_insert_ne by done. apply (to_fees p Hok).
  - intros j Hj. apply lookup_insert_is_Some'. right. by apply (to_opt_in p Hok).
  - unfold len in *. simpl. rewrite map_size_insert, Hnew. simpl. lia.
  - intros j t. rewrite lookup_insert_Some. intros [[<- <-]|[_ ?]]; [done|by apply (to_wf p Hok j)].
  - apply (to_covenant_wf p Hok).
Qed.
Lemma put_covenant_ok p tx fee :
  tlt_ok p -> covenant_txs p !! covenant_tx_id tx = None -> len p < max_size p -> NoDup (ct_outpoints tx) ->
  (forall op, op ∈ ct_outpoints tx -> op ∉ reserved p) -> ct_inputs tx <> [] ->
  tlt_ok (put_covenant (covenant_tx_id tx) tx fee (list_to_set (ct_outpoints tx)) p).
Proof.
  intros Hok Hnew Hroom Hnd Hfree Hwf. set (q := put_covenant _ _ _ _ _).
  assert (Hcov : txs p !! covenant_tx_id tx = None).
  { destruct (txs p !! covenant_tx_id tx) as [c|] eqn:E; [|done]. apply (to_tx_id p Hok) in E. by destruct (ids_apart c tx). }
  assert (Hs : forall j, spends q j = if decide (j = covenant_tx_id tx) then ct_outpoints tx else spends p j).
  { intros j. unfold spends, q, put_covenant. simpl. case_decide as Hj.
    - subst. by rewrite Hcov, lookup_insert_eq.
    - by rewrite (lookup_insert_ne (covenant_txs p)) by congruence. }
  destruct (claimed_fresh p q (covenant_tx_id tx) (ct_outpoints tx) Hok Hs) as (H1 & H2 & H3); try done.
  { unfold spends. by rewrite Hnew, Hcov. }
  unfold q, put_covenant in *. split; simpl in *; try done.
  - apply (to_tx_id p Hok).
  - intros j t. rewrite lookup_insert_Some. intros [[<- <-]|[_ ?]]; [done|by apply (to_covenant_id p Hok)].
  - intros j. destruct (decide (j = covenant_tx_id tx)) as [->|].
    + rewrite !lookup_insert_eq. split; intros _; [right|]; by eexists.
    + rewrite !lookup_insert_ne by done. apply (to_fees p Hok).
  - apply (to_opt_in p Hok).
  - unfold len in *. simpl. rewrite map_size_insert, Hnew. simpl. lia.
  - apply (to_wf p Hok).
  - intros j t. rewrite lookup_insert_Some. intros [[<- <-]|[_ ?]]; [done|by apply (to_covenant_wf p Hok j)].
Qed.

(** *** Eviction by fee *)

#[local] Instance fee_cmp_total : TotalCmp (fun a b : Hash * Z => fee_cmp b a).
Proof. unfold fee_cmp. apply flip_total. apply then_total; [apply (on_total snd)|apply (on_total fst)]; apply _. Qed.

(** The victim: a resident whose (fee, id) is least. *)
Lemma lowest_fee_spec p id low :
  lowest_fee p = Some (id, low) ->
  fees p !! id = Some low /\ forall j f, fees p !! j = Some f -> low < f \/ low = f /\ id <= j.
Proof.
  unfold lowest_fee. intros H. apply max_by_Some in H as [Hin Hmax]; [|apply _].
  rewrite elem_of_map_to_list in Hin. split; [done|]. intros j f Hj.
  specialize (Hmax (j, f)). rewrite elem_of_map_to_list in Hmax. specialize (Hmax Hj).
  unfold cmp_le, fee_cmp in Hmax. simpl in Hmax. unfold then_with in Hmax.
  destruct (Z.compare_spec low f); [right|left; lia|done]. split; [done|]. destruct (Z.compare_spec id j); lia || done.
Qed.
Lemma lowest_fee_None p : lowest_fee p = None <-> fees p = ∅.
Proof.
  unfold lowest_fee. rewrite <- map_to_list_empty_iff. destruct (map_to_list (fees p)); done.
Qed.

(** What making room does: nothing, or the cheapest resident, cheaper than the
    newcomer, leaves. *)
Definition evicted (p : Mempool) (fee : Z) (q : Mempool) : Prop :=
  exists id low, lowest_fee p = Some (id, low) /\ low < fee /\
    q = match remove id p with (None, p) => (remove_covenant id p).2 | (Some _, p) => p end.
Lemma evicted_ok p fee q : tlt_ok p -> evicted p fee q -> tlt_ok q /\ len q = len p - 1 /\ max_size q = max_size p.
Proof.
  intros Hok (id & low & Hlow & _ & ->). apply lowest_fee_spec in Hlow as [Hfee _].
  assert (is_Some (txs p !! id) \/ is_Some (covenant_txs p !! id)) as Hres by (apply (to_fees p Hok); by eexists).
  pose proof (remove_ok p id Hok) as H1. pose proof (remove_covenant_ok p id Hok) as H2.
  unfold remove, remove_covenant in *. destruct (txs p !! id) as [tx|] eqn:Etx.
  - split; [done|]. simpl. unfold len. simpl. rewrite map_size_delete, Etx. simpl.
    assert (size (txs p) <> 0)%nat by (intros He%map_size_empty_inv; rewrite He in Etx; by rewrite lookup_empty in Etx). lia.
  - destruct Hres as [[? ?]|[c Hc]]; [done|]. rewrite Hc in *. split; [done|]. simpl. unfold len. simpl.
    rewrite map_size_delete, Hc. simpl. assert (size (covenant_txs p) <> 0)%nat by (intros He%map_size_empty_inv; rewrite He in Hc; by rewrite lookup_empty in Hc). lia.
Qed.
Lemma make_room_spec p fee :
  tlt_ok p ->
  wp (make_room fee) (fun r q => match r with
    | Ok _ => tlt_ok q /\ len q < max_size q /\ max_size q = max_size p /\ (len p < max_size p /\ q = p \/ len p = max_size p /\ evicted p fee q)
    | Err _ => q = p /\ max_size p = len p /\ (forall id f, fees p !! id = Some f -> fee <= f)
    end) p.
Proof.
  intros Hok. unfold wp, make_room. pose proof (to_size p Hok).
  destruct (Z.leb_spec (max_size p) (len p)); simpl; [|split_and!; (lia || done || by left)].
  unfold evict_lowest_below. destruct (lowest_fee p) as [[id low]|] eqn:Elow.
  - destruct (Z.ltb_spec low fee); simpl.
    + assert (evicted p fee match remove id p with (None, p) => (remove_covenant id p).2 | (Some _, p) => p end) as He by (by exists id, low).
      destruct (evicted_ok p fee _ Hok He) as (? & ? & ?). split_and!; try done; try lia. right. split; [lia|done].
    + split_and!; [done|lia|]. intros j f Hj. apply lowest_fee_spec in Elow as [_ Hmin]. destruct (Hmin j f Hj); lia.
  - simpl. split_and!; [done|lia|]. intros j f Hj. apply lowest_fee_None in Elow. rewrite Elow in Hj. by rewrite lookup_empty in Hj.
Qed.

(** *** Admission *)

Definition room (p : Mempool) (fee : Z) (q : Mempool) : Prop :=
  len p < max_size p /\ q = p \/ len p = max_size p /\ evicted p fee q.
Lemma check_auth_spec tx Q p :
  (well_formed tx -> Q (Ok tt) p) -> (~ well_formed tx -> forall e, Q (Err e) p) -> wp (check_auth tx) Q p.
Proof.
  intros H1 H2. unfold check_auth. apply wp_bind, wp_require; intros Hi.
  - apply negb_true_iff, bool_decide_eq_false in Hi. apply wp_require; intros Hl.
    + apply andb_true_iff in Hl as [?%Nat.eqb_eq ?%Nat.eqb_eq]. by apply H1.
    + apply H2. intros (_ & Hk & Hs). rewrite Hk, Hs in Hl. done.
  - apply H2. intros (Hn & _). apply negb_false_iff, bool_decide_eq_true in Hi. done.
Qed.

Definition outcome_of_admission (p : Mempool) (fee : Z) (id : Hash) (known : Prop) (put : Mempool -> Mempool)
  (r : result P2pError Hash) (q : Mempool) : Prop :=
  tlt_ok q /\
  match r with
  | Ok id' => id' = id /\ (known /\ q = p \/ ~ known /\ exists p1, room p fee p1 /\ q = put p1)
  | Err _ => q = p \/ evicted p fee q
  end.
Lemma admit_priced_spec p tx fee :
  tlt_ok p ->
  wp (admit_priced tx_id tx fee)
    (outcome_of_admission p fee (tx_id tx) (is_Some (txs p !! tx_id tx)) (put_tx (tx_id tx) tx fee (list_to_set (tx_outpoints tx)))) p.
Proof.
  intros Hok. unfold admit_priced. apply wp_bind, check_auth_spec; [intros Hwf|intros _ e; split; [done|by left]].
  unfold wp, contains_tx. case_bool_decide as Hk; [split; [done|]; split; [done|by left]|].
  change (wp (make_room fee ;~
    let~ taken := fun p => plift (claim_outpoints (reserved p) (tx_outpoints tx)) p in
    modify (put_tx (tx_id tx) tx fee taken) ;~ pret (tx_id tx)) (outcome_of_admission p fee (tx_id tx) (is_Some (txs p !! tx_id tx))
      (put_tx (tx_id tx) tx fee (list_to_set (tx_outpoints tx)))) p).
  apply wp_bind. eapply wp_mono; [by apply make_room_spec|]. intros [[]|e] p1 H; [|destruct H as (-> & _); split; [done|by left]].
  destruct H as (Hok1 & Hlt & Hmax & Hroom). apply wp_bind.
  assert (Hev : p1 = p \/ evicted p fee p1) by (destruct Hroom as [[_ ->]|[_ ?]]; auto).
  unfold wp at 1, plift. destruct (claim_outpoints _ _) as [taken|e] eqn:Ec; simpl; [|by split].
  apply claim_outpoints_Ok in Ec as (-> & Hnd & Hfree).
  assert (Hnew : txs p1 !! tx_id tx = None).
  { apply eq_None_not_Some. intros [t Ht]. apply Hk. destruct Hev as [->|(v & low & _ & _ & ->)]; [by eexists|].
    unfold remove, remove_covenant in Ht. destruct (txs p !! v); simpl in Ht.
    - apply lookup_delete_Some in Ht as [_ ?]. by eexists.
    - destruct (covenant_txs p !! v); simpl in Ht; by eexists. }
  split; [by apply put_tx_ok|]. split; [done|]. right. split; [done|]. by exists p1.
Qed.
Lemma insert_covenant_spec p tx fee :
  tlt_ok p ->
  wp (insert_covenant covenant_tx_id tx fee)
    (outcome_of_admission p fee (covenant_tx_id tx) (is_Some (covenant_txs p !! covenant_tx_id tx))
       (put_covenant (covenant_tx_id tx) tx fee (list_to_set (ct_outpoints tx)))) p.
Proof.
  intros Hok. unfold insert_covenant. apply wp_bind, wp_require; [intros Hwf%negb_true_iff%bool_decide_eq_false|intros _; split; [done|by left]].
  unfold wp, contains_covenant. case_bool_decide as Hk; [split; [done|]; split; [done|by left]|].
  change (wp (make_room fee ;~
    let~ taken := fun p => plift (claim_outpoints (reserved p) (ct_outpoints tx)) p in
    modify (put_covenant (covenant_tx_id tx) tx fee taken) ;~ pret (covenant_tx_id tx))
      (outcome_of_admission p fee (covenant_tx_id tx) (is_Some (covenant_txs p !! covenant_tx_id tx))
      (put_covenant (covenant_tx_id tx) tx fee (list_to_set (ct_outpoints tx)))) p).
  apply wp_bind. eapply wp_mono; [by apply make_room_spec|]. intros [[]|e] p1 H; [|destruct H as (-> & _); split; [done|by left]].
  destruct H as (Hok1 & Hlt & Hmax & Hroom). apply wp_bind.
  assert (Hev : p1 = p \/ evicted p fee p1) by (destruct Hroom as [[_ ->]|[_ ?]]; auto).
  unfold wp at 1, plift. destruct (claim_outpoints _ _) as [taken|e] eqn:Ec; simpl; [|by split].
  apply claim_outpoints_Ok in Ec as (-> & Hnd & Hfree).
  assert (Hnew : covenant_txs p1 !! covenant_tx_id tx = None).
  { apply eq_None_not_Some. intros [t Ht]. apply Hk. destruct Hev as [->|(v & low & _ & _ & ->)]; [by eexists|].
    unfold remove, remove_covenant in Ht. destruct (txs p !! v); simpl in Ht; [by eexists|].
    destruct (covenant_txs p !! v); simpl in Ht; [|by eexists]. apply lookup_delete_Some in Ht as [_ ?]. by eexists. }
  split; [by apply put_covenant_ok|]. split; [done|]. right. split; [done|]. by exists p1.
Qed.
Lemma opt_in_ok p id : tlt_ok p -> is_Some (txs p !! id) -> tlt_ok (opt_in id p).
Proof.
  intros Hok Hid. destruct Hok. split; try done. simpl. intros j [->%elem_of_singleton|?]%elem_of_union; auto.
Qed.
Lemma admitted_resident p fee tx q :
  outcome_of_admission p fee (tx_id tx) (is_Some (txs p !! tx_id tx)) (put_tx (tx_id tx) tx fee (list_to_set (tx_outpoints tx)))
    (Ok (tx_id tx)) q -> is_Some (txs q !! tx_id tx).
Proof.
  intros (_ & _ & [[Hk ->]|(_ & p1 & _ & ->)]); [done|]. simpl. rewrite lookup_insert_eq. by eexists.
Qed.
Lemma admit_opt_in_ok p tx fee rbf : tlt_ok p -> tlt_ok (admit_priced_opt_in tx_id tx fee rbf p).2.
Proof.
  intros Hok. change (wp (admit_priced_opt_in tx_id tx fee rbf) (fun _ q => tlt_ok q) p).
  unfold admit_priced_opt_in. apply wp_bind, wp_gets, wp_bind. eapply wp_mono; [by apply admit_priced_spec|].
  intros [id|e] q Hq; [|exact (proj1 Hq)]. apply wp_bind, wp_pwhen; [intros _|intros _; exact (proj1 Hq)].
  apply wp_modify. destruct Hq as (Hq & Hid & Hcase). subst id. apply opt_in_ok; [done|].
  eapply admitted_resident. by split.
Qed.

(** *** Replacement *)

Lemma spends_any_spec (ops : list OutPoint) (s : gset OutPoint) : spends_any ops s = true <-> exists op, op ∈ ops /\ op ∈ s.
Proof.
  unfold spends_any. rewrite existsb_exists. split; intros (op & Hin & H); exists op.
  - by rewrite <- list_elem_of_In in Hin; apply bool_decide_eq_true in H.
  - split; [by apply list_elem_of_In|by apply bool_decide_eq_true].
Qed.
Lemma elem_of_tx_conflicts p (s : gset OutPoint) id :
  id ∈ tx_conflicts s p <-> exists tx, txs p !! id = Some tx /\ exists op, op ∈ tx_outpoints tx /\ op ∈ s.
Proof.
  unfold tx_conflicts. rewrite elem_of_sort_by, list_elem_of_fmap. setoid_rewrite <- spends_any_spec. split.
  - intros ([i t] & -> & [H1 H2]%list_elem_of_filter). rewrite elem_of_map_to_list in H2. by exists t.
  - intros (t & H1 & H2). exists (id, t). split; [done|]. apply list_elem_of_filter. by rewrite elem_of_map_to_list.
Qed.
Lemma NoDup_tx_conflicts p s : NoDup (tx_conflicts s p).
Proof.
  unfold tx_conflicts. apply NoDup_sort_by. eapply sublist_NoDup; [apply (NoDup_fst_map_to_list (txs p))|].
  apply fmap_sublist, sublist_filter.
Qed.

(** Removing several residents at once. *)
Lemma remove_all_spec p ids :
  tlt_ok p -> NoDup ids -> (forall i, i ∈ ids -> is_Some (txs p !! i)) ->
  let q := remove_all ids p in
  (forall j, txs q !! j = if decide (j ∈ ids) then None else txs p !! j) /\ covenant_txs q = covenant_txs p /\
  (forall j, fees q !! j = if decide (j ∈ ids) then None else fees p !! j) /\
  (forall j, j ∈ rbf_opt_in q <-> j ∈ rbf_opt_in p /\ j ∉ ids) /\
  len q = len p - Z.of_nat (length ids) /\ max_size q = max_size p /\ pending q = pending p.
Proof.
  unfold remove_all. revert p. induction ids as [|i ids IH]; intros p Hok Hnd Hres; simpl.
  - split_and!; try done; try lia. intros j. split; [intros ?; split; [done|apply not_elem_of_nil]|by intros []].
  - apply NoDup_cons in Hnd as [Hi Hnd]. destruct (Hres i) as [tx Htx]; [left|].
    destruct (IH (remove i p).2) as (H1 & H2 & H3 & H4 & H5 & H6 & H7); [by apply remove_ok|done| |].
    { intros j Hj. unfold remove. rewrite Htx. simpl. rewrite lookup_delete_ne by (intros ->; done). apply Hres. by right. }
    unfold remove in *. rewrite Htx in *. simpl in *. split_and!; try done.
    + intros j. rewrite H1. destruct (decide (j = i)) as [->|].
      * rewrite lookup_delete_eq, (decide_True (P := i ∈ i :: ids)) by left. by case_decide.
      * rewrite lookup_delete_ne by done. apply decide_ext. set_solver.
    + intros j. rewrite H3. destruct (decide (j = i)) as [->|].
      * rewrite lookup_delete_eq, (decide_True (P := i ∈ i :: ids)) by left. by case_decide.
      * rewrite lookup_delete_ne by done. apply decide_ext. set_solver.
    + intros j. rewrite H4. set_solver.
    + rewrite H5. unfold len. simpl. rewrite map_size_delete, Htx. simpl.
      assert (size (txs p) <> 0)%nat by (intros He%map_size_empty_inv; rewrite He in Htx; by rewrite lookup_empty in Htx). lia.
Qed.

(** The rules of replacement, as [replace_by_fee] checks them. *)
Record replaceable (p : Mempool) (tx : Transaction) (fee : Z) (conflicts : list Hash) : Prop := {
  rp_wf : well_formed tx;
  rp_new : txs p !! tx_id tx = None;
  rp_nodup : NoDup (tx_outpoints tx);
  rp_conflicts : conflicts = tx_conflicts (list_to_set (tx_outpoints tx)) p;
  rp_some : conflicts <> [];
  rp_few : (length conflicts <= TLT_RBF_MAX_REPLACEMENTS)%nat;
  rp_opted : forall c, c ∈ conflicts -> c ∈ rbf_opt_in p;
  rp_orphans : forall j t op, txs p !! j = Some t -> op ∈ tx_outpoints t -> op_tx op ∈ conflicts -> j ∈ conflicts;
  rp_fee : zsum ((fun c => default 0 (fees p !! c)) <$> conflicts) + TLT_RBF_MIN_FEE_INCREASE <= fee;
}.
Lemma replaced_sum p conflicts acc s :
  rfold (fun acc id => ok_or "replaced fee overflow"%string (checked_add u64_max acc (default 0 (fees p !! id)))) acc conflicts = Ok s ->
  s = acc + zsum ((fun c => default 0 (fees p !! c)) <$> conflicts).
Proof.
  revert acc. induction conflicts as [|c cs IH]; intros acc; cbn [rfold]; [intros [= <-]; unfold zsum; simpl; lia|].
  intros Hr. apply rbind_Ok in Hr as (a & Ha & Hr). apply ok_or_Ok, checked_add_Some in Ha as [-> _].
  apply IH in Hr. rewrite fmap_cons, zsum_cons. lia.
Qed.
Lemma replacement_fee_Ok p conflicts needed :
  replacement_fee conflicts p = Ok needed ->
  needed = zsum ((fun c => default 0 (fees p !! c)) <$> conflicts) + TLT_RBF_MIN_FEE_INCREASE.
Proof.
  unfold replacement_fee. intros H. apply rbind_Ok in H as (s & Hs%replaced_sum & H). apply ok_or_Ok, checked_add_Some in H as [-> _]. lia.
Qed.

Lemma forallb_elem {A} (f : A -> bool) l : forallb f l = true <-> forall x, x ∈ l -> f x = true.
Proof. rewrite forallb_forall. by setoid_rewrite <- list_elem_of_In. Qed.
Lemma spends_output_of_spec (ops : list OutPoint) (s : gset Hash) : spends_output_of ops s = true <-> exists op, op ∈ ops /\ op_tx op ∈ s.
Proof.
  unfold spends_output_of. rewrite existsb_exists. split; intros (op & Hin & H); exists op.
  - by rewrite <- list_elem_of_In in Hin; apply bool_decide_eq_true in H.
  - split; [by apply list_elem_of_In|by apply bool_decide_eq_true].
Qed.
(** [replace_by_fee] fails a check and leaves the pool, or removes the conflicts
    and admits the newcomer. *)
Lemma replace_by_fee_cases p tx fee :
  (exists e, replace_by_fee tx_id tx fee p = (Err e, p)) \/
  exists conflicts, replaceable p tx fee conflicts /\
    replace_by_fee tx_id tx fee p = admit_priced_opt_in tx_id tx fee true (remove_all conflicts p).
Proof.
  set (C := tx_conflicts (list_to_set (tx_outpoints tx)) p).
  enough (Hwp : wp (replace_by_fee tx_id tx fee) (fun r q => (exists e, (r, q) = (Err e, p)) \/
    replaceable p tx fee C /\ (r, q) = admit_priced_opt_in tx_id tx fee true (remove_all C p)) p).
  { unfold wp in Hwp. destruct (replace_by_fee tx_id tx fee p) as [r q]. simpl in Hwp. destruct Hwp as [?|[? ?]]; [by left|right; by exists C]. }
  unfold replace_by_fee. apply wp_bind, check_auth_spec; [intros Hwf|intros _ e; left; by eexists].
  apply wp_bind, wp_require; [intros Hnew%negb_true_iff|intros _; left; by eexists].
  apply wp_bind, wp_require; [intros Hnd%bool_decide_eq_true|intros _; left; by eexists].
  apply wp_bind, wp_gets. fold C.
  apply wp_bind, wp_require; [intros Hsome%negb_true_iff|intros _; left; by eexists].
  apply wp_bind, wp_require; [intros Hfew%Nat.leb_le|intros _; left; by eexists].
  apply wp_bind, wp_require; [intros Hopt|intros _; left; by eexists].
  apply wp_bind, wp_require; [intros Horph|intros _; left; by eexists].
  apply wp_bind. unfold wp at 1, plift. destruct (replacement_fee C p) as [needed|e] eqn:Efee; simpl; [|left; by eexists].
  apply wp_bind, wp_require; [intros Hfee%Z.leb_le|intros _; left; by eexists].
  apply wp_bind, wp_modify. unfold wp. right. split; [|by destruct (admit_priced_opt_in _ _ _ _ _)].
  unfold contains_tx in Hnew. apply bool_decide_eq_false in Hnew. apply bool_decide_eq_false in Hsome. split; try done.
  - by apply eq_None_not_Some.
  - intros c Hc. rewrite forallb_elem in Hopt. specialize (Hopt c Hc). by apply bool_decide_eq_true in Hopt.
  - intros j t op Ht Hop Hc. rewrite forallb_elem in Horph. specialize (Horph (j, t)). rewrite elem_of_map_to_list in Horph.
    specialize (Horph Ht). simpl in Horph. apply orb_true_iff in Horph as [H|H].
    + apply bool_decide_eq_true in H. by apply elem_of_list_to_set in H.
    + apply negb_true_iff in H. exfalso. revert H. apply not_false_iff_true. apply spends_output_of_spec. exists op. by rewrite elem_of_list_to_set.
  - apply replacement_fee_Ok in Efee. lia.
Qed.

(** What is left after the conflicts are removed. *)
Lemma replaced_pool p tx fee C :
  tlt_ok p -> replaceable p tx fee C ->
  let p1 := remove_all C p in
  tlt_ok p1 /\ len p1 < max_size p1 /\ txs p1 !! tx_id tx = None /\
  (forall op, op ∈ tx_outpoints tx -> op ∈ reserved p1 <-> exists j c, covenant_txs p !! j = Some c /\ op ∈ ct_outpoints c).
Proof.
  intros Hok [Hwf Hnew Hnd HC Hsome Hfew Hopt Horph Hfee] p1.
  destruct (remove_all_spec p C Hok) as (H1 & H2 & _ & _ & H5 & H6 & _); [subst; apply NoDup_tx_conflicts| |].
  { intros i Hi. by apply (to_opt_in p Hok), Hopt. }
  fold p1 in H1, H2, H5, H6. pose proof (remove_all_ok p C Hok) as Hok1. fold p1 in Hok1.
  assert (length C <> 0)%nat by (by destruct C). pose proof (to_size p Hok). split_and!; [done|lia|rewrite H1; by case_decide|].
  intros op Hop. rewrite (to_reserved p1 Hok1). split.
  - intros [j Hj]. unfold spends in Hj. rewrite H1, H2 in Hj. case_decide as Hdec.
    + destruct (covenant_txs p !! j) eqn:Ec; [by eauto|by apply elem_of_nil in Hj].
    + destruct (txs p !! j) as [t|] eqn:Et.
      * destruct Hdec. subst C. apply elem_of_tx_conflicts. exists t. split; [done|]. exists op. by rewrite elem_of_list_to_set.
      * destruct (covenant_txs p !! j) eqn:Ec; [by eauto|by apply elem_of_nil in Hj].
  - intros (j & c & Hj & Hin). exists j. rewrite (spends_covenant p1 j c Hok1); [done|]. by rewrite H2.
Qed.

Lemma check_auth_ok tx p : well_formed tx -> check_auth tx p = (Ok tt, p).
Proof.
  intros (Hi & Hk & Hs). unfold check_auth, pbind, require. rewrite Hk, Hs.
  destruct (bool_decide_reflect (inputs tx = [])); [done|]. simpl. done.
Qed.
(** Admission of a new transaction, when there is room after [make_room]. *)
Lemma admit_priced_eq p tx fee :
  well_formed tx -> txs p !! tx_id tx = None ->
  admit_priced tx_id tx fee p =
    match make_room fee p with
    | (Ok _, p1) =>
        match claim_outpoints (reserved p1) (tx_outpoints tx) with
        | Ok taken => (Ok (tx_id tx), put_tx (tx_id tx) tx fee taken p1)
        | Err e => (Err (MempoolRejected e), p1)
        end
    | (Err e, p1) => (Err e, p1)
    end.
Proof.
  intros Hwf Hnew. unfold admit_priced, pbind. rewrite check_auth_ok by done.
  unfold contains_tx. rewrite Hnew. destruct (bool_decide_reflect (is_Some (@None Transaction))) as [[]|_]; [done|].
  destruct (make_room fee p) as [[[]|e] p1]; [|done]. unfold plift. by destruct (claim_outpoints _ _).
Qed.
Lemma make_room_free p fee : len p < max_size p -> make_room fee p = (Ok tt, p).
Proof. intros H. unfold make_room. destruct (Z.leb_spec (max_size p) (len p)); [lia|done]. Qed.

(** C31: What the replacement of transfers does ([replace_by_fee]).  It succeeds only
    when every pending transfer it shares an input with opted in, there are at
    most sixteen of them, no other pending transfer spends their outputs (pending
    covenants are not looked at), and it pays at least one unit more than all of
    them.  Then exactly those leave and it takes their place, itself open to
    replacement; the invariant is kept. *)
Theorem replacement_correct p tx fee id q :
  tlt_ok p -> replace_by_fee tx_id tx fee p = (Ok id, q) ->
  exists C, replaceable p tx fee C /\ id = tx_id tx /\ tlt_ok q /\ id ∈ rbf_opt_in q /\ fees q !! id = Some fee /\
    (forall j t, txs q !! j = Some t <-> j = id /\ t = tx \/ j <> id /\ j ∉ C /\ txs p !! j = Some t) /\
    covenant_txs q = covenant_txs p /\ pending q = pending p /\
    (forall c, c ∈ C <-> exists t, txs p !! c = Some t /\ exists op, op ∈ tx_outpoints t /\ op ∈ tx_outpoints tx).
Proof.
  intros Hok Hr. destruct (replace_by_fee_cases p tx fee) as [[e He]|(C & HC & Heq)]; [by rewrite He in Hr|].
  rewrite Heq in Hr. pose proof (replaced_pool p tx fee C Hok HC) as (Hok1 & Hroom & Hnew & _).
  pose proof (admit_opt_in_ok (remove_all C p) tx fee true Hok1) as Hq. rewrite Hr in Hq. simpl in Hq.
  destruct (remove_all_spec p C Hok) as (H1 & H2 & _ & _ & _ & _ & H7).
  { rewrite (rp_conflicts _ _ _ _ HC). apply NoDup_tx_conflicts. } { intros i Hi. by apply (to_opt_in p Hok), (rp_opted _ _ _ _ HC). }
  unfold admit_priced_opt_in, pbind, gets in Hr. rewrite admit_priced_eq, make_room_free in Hr by (done || apply (rp_wf _ _ _ _ HC)).
  destruct (claim_outpoints _ _) as [taken|] eqn:Ec; [|done].
  unfold contains_tx in Hr. rewrite Hnew in Hr. rewrite bool_decide_false in Hr by (intros []; done). simpl in Hr.
  injection Hr as <- <-. exists C. simpl in *. split_and!; try done.
  - set_solver.
  - apply lookup_insert_eq.
  - intros j t. rewrite lookup_insert_Some, H1. destruct (decide (j ∈ C)); naive_solver.
  - intros c. rewrite (rp_conflicts _ _ _ _ HC), elem_of_tx_conflicts. by setoid_rewrite elem_of_list_to_set.
Qed.

Lemma replaced_sum_ok p conflicts acc :
  (forall id f, fees p !! id = Some f -> 0 <= f) -> acc + zsum ((fun c => default 0 (fees p !! c)) <$> conflicts) <= u64_max ->
  rfold (fun acc id => ok_or "replaced fee overflow"%string (checked_add u64_max acc (default 0 (fees p !! id)))) acc conflicts =
    Ok (acc + zsum ((fun c => default 0 (fees p !! c)) <$> conflicts)).
Proof.
  intros Hpos. revert acc. induction conflicts as [|c cs IH]; intros acc; [cbn; intros _; f_equal; unfold zsum; simpl; lia|].
  rewrite fmap_cons, zsum_cons. intros Hle. cbn [rfold].
  assert (0 <= zsum ((fun c => default 0 (fees p !! c)) <$> cs)).
  { apply zsum_nonneg, Forall_fmap, Forall_forall. intros x _. simpl. destruct (fees p !! x) eqn:E; [by apply (Hpos x)|done]. }
  unfold checked_add at 1. destruct (Z.leb_spec (acc + default 0 (fees p !! c)) u64_max); [|lia].
  simpl. rewrite IH by lia. f_equal. lia.
Qed.
Lemma replaceable_replaces p tx fee C :
  (forall id f, fees p !! id = Some f -> 0 <= f) -> fee <= u64_max -> replaceable p tx fee C ->
  replace_by_fee tx_id tx fee p = admit_priced_opt_in tx_id tx fee true (remove_all C p).
Proof.
  intros Hpos Hmax [Hwf Hnew Hnd HC Hsome Hfew Hopt Horph Hfee].
  enough (Hwp : wp (replace_by_fee tx_id tx fee) (fun r q => (r, q) = admit_priced_opt_in tx_id tx fee true (remove_all C p)) p).
  { unfold wp in Hwp. by destruct (replace_by_fee tx_id tx fee p). }
  unfold replace_by_fee. apply wp_bind, check_auth_spec; [intros _|done].
  apply wp_bind, wp_require; [intros _|]; [|unfold contains_tx; rewrite Hnew; by intros ?%negb_false_iff%bool_decide_eq_true%is_Some_None].
  apply wp_bind, wp_require; [intros _|by intros ?%bool_decide_eq_false].
  apply wp_bind, wp_gets. rewrite <- HC.
  apply wp_bind, wp_require; [intros _|by intros ?%negb_false_iff%bool_decide_eq_true].
  apply wp_bind, wp_require; [intros _|by intros ?%Nat.leb_gt; lia].
  apply wp_bind, wp_require; [intros _|intros H; exfalso; revert H; apply not_false_iff_true, forallb_elem; intros x Hx; by apply bool_decide_eq_true, Hopt].
  apply wp_bind, wp_require; [intros _|].
  2:{ intros H. exfalso. revert H. apply not_false_iff_true, forallb_elem. intros [j t] Hjt. rewrite elem_of_map_to_list in Hjt. simpl.
      destruct (spends_output_of (tx_outpoints t) (list_to_set C)) eqn:E; [|by rewrite orb_true_r]. apply orb_true_iff. left.
      apply bool_decide_eq_true, elem_of_list_to_set. apply spends_output_of_spec in E as (op & H1 & H2). apply elem_of_list_to_set in H2.
      by apply (Horph j t op). }
  apply wp_bind. unfold wp at 1, plift, replacement_fee.
  rewrite replaced_sum_ok by (done || unfold TLT_RBF_MIN_FEE_INCREASE, DEFAULT_MIN_RELAY_FEE in *; lia). rewrite Z.add_0_l. simpl.
  unfold checked_add. destruct (Z.leb_spec (zsum ((fun c => default 0 (fees p !! c)) <$> C) + TLT_RBF_MIN_FEE_INCREASE) u64_max); [|lia]. simpl.
  apply wp_bind, wp_require; [intros _|by intros ?%Z.leb_gt; lia].
  apply wp_bind, wp_modify. unfold wp. by destruct (admit_priced_opt_in _ _ _ _ _).
Qed.

(** (finding) A replacement that passes every check but shares an input with a
    pending covenant spend is rejected as a double spend after the transactions
    it was to replace have left the pool: they are lost. *)
Theorem failed_replacement_loses (p : Mempool) (tx : Transaction) (fee : Z) (C : list Hash) (op : OutPoint) (j : Hash) (c : TltCovenantTx) :
  tlt_ok p -> (forall id f, fees p !! id = Some f -> 0 <= f) -> fee <= u64_max -> replaceable p tx fee C ->
  op ∈ tx_outpoints tx -> covenant_txs p !! j = Some c -> op ∈ ct_outpoints c ->
  replace_by_fee tx_id tx fee p = (Err (MempoolRejected "double spend"), remove_all C p) /\ C <> [] /\ forall i, i ∈ C -> is_Some (txs p !! i) /\ txs (remove_all C p) !! i = None.
Proof.
  intros Hok Hpos Hmax HC Hop Hj Hc. pose proof (replaced_pool p tx fee C Hok HC) as (Hok1 & Hroom & Hnew & Hres).
  assert (HinC : forall i, i ∈ C -> is_Some (txs p !! i)) by (intros i Hi; by apply (to_opt_in p Hok), (rp_opted _ _ _ _ HC)).
  destruct (remove_all_spec p C Hok) as (H1 & _); [rewrite (rp_conflicts _ _ _ _ HC); apply NoDup_tx_conflicts|done|].
  split_and!; [|apply (rp_some _ _ _ _ HC)|intros i Hi; split; [by apply HinC|rewrite H1; by rewrite decide_True]].
  rewrite (replaceable_replaces p tx fee C) by done. unfold admit_priced_opt_in, pbind, gets.
  rewrite admit_priced_eq, make_room_free by (done || apply (rp_wf _ _ _ _ HC)).
  destruct (claim_outpoints _ _) as [taken|e] eqn:Ec.
  - apply claim_outpoints_Ok in Ec as (_ & _ & Hfree). destruct (Hfree op Hop). apply Hres; [done|]. by exists j, c.
  - do 2 f_equal. clear -Ec. unfold claim_outpoints in Ec. revert Ec. generalize (∅ : gset OutPoint).
    induction (tx_outpoints tx) as [|o os IH]; intros s; cbn [rfold]; [done|]. destruct (ensure _ _) as [[]|e'] eqn:E; simpl; [apply IH|].
    unfold ensure in E. destruct (negb _); [done|]. injection E as <-. by intros [= <-].
Qed.

Lemma claim_outpoints_Err (reserved : gset OutPoint) ops e : claim_outpoints reserved ops = Err e -> e = "double spend"%string.
Proof.
  unfold claim_outpoints. generalize (∅ : gset OutPoint). induction ops as [|o os IH]; intros s; cbn [rfold]; [done|].
  destruct (ensure _ _) as [[]|e'] eqn:E; simpl; [apply IH|]. unfold ensure in E. destruct (negb _); [done|]. injection E as <-. by intros [= <-].
Qed.
(** The pool after an eviction: the victim is gone, the others are as they were. *)
Lemma evicted_lookup p fee q :
  tlt_ok p -> evicted p fee q ->
  exists v low, lowest_fee p = Some (v, low) /\ fees p !! v = Some low /\ low < fee /\
    (forall j f, fees p !! j = Some f -> low < f \/ low = f /\ v <= j) /\
    fees q = delete v (fees p) /\ txs q = delete v (txs p) /\ covenant_txs q = delete v (covenant_txs p) /\
    (forall j, spends q j = if decide (j = v) then [] else spends p j).
Proof.
  intros Hok (v & low & Hlow & Hlt & ->). exists v, low. destruct (lowest_fee_spec p v low Hlow) as [Hv Hmin].
  assert (is_Some (txs p !! v) \/ is_Some (covenant_txs p !! v)) as Hres by (apply (to_fees p Hok); by eexists).
  split; [done|]. split; [done|]. split; [done|]. split; [done|].
  destruct (txs p !! v) as [tx|] eqn:Etx.
  - pose proof (remove_spends p v) as Hs. unfold remove in *. rewrite Etx in *. simpl in *. split_and!; try done.
    + rewrite delete_id; [done|]. destruct (covenant_txs p !! v) as [c|] eqn:Ec; [|done]. by destruct (apart_lookup p v tx c Hok Etx Ec).
    + intros j. apply Hs; [done|by eexists].
  - destruct Hres as [[]|Hc]; [done|]. pose proof (remove_covenant_spends p v) as Hs.
    unfold remove, remove_covenant in *. rewrite Etx in *. destruct Hc as [c Hc]. rewrite Hc in *. simpl in *. split_and!; try done.
    + by rewrite delete_id.
    + intros j. apply Hs; [done|by eexists].
Qed.

(** The fee market.  In a full pool a new transfer of unreserved outpoints is
    admitted exactly when some resident pays less; then the resident with the
    lowest fee (the lowest id among equals) leaves, and no other. *)
Theorem fee_market p tx fee :
  tlt_ok p -> len p = max_size p -> well_formed tx -> txs p !! tx_id tx = None -> NoDup (tx_outpoints tx) ->
  (forall op, op ∈ tx_outpoints tx -> op ∉ reserved p) ->
  match admit_priced tx_id tx fee p with
  | (Ok id, q) =>
      id = tx_id tx /\ tlt_ok q /\ len q = max_size q /\ txs q !! id = Some tx /\
      exists v low, fees p !! v = Some low /\ low < fee /\ (forall j f, fees p !! j = Some f -> low < f \/ low = f /\ v <= j) /\
        fees q = <[id := fee]> (delete v (fees p)) /\
        (forall j, j <> id -> txs q !! j = delete v (txs p) !! j) /\ covenant_txs q = delete v (covenant_txs p)
  | (Err _, q) => q = p /\ forall j f, fees p !! j = Some f -> fee <= f
  end.
Proof.
  intros Hok Hfull Hwf Hnew Hnd Hfree. pose proof (admit_priced_spec p tx fee Hok) as Hspec. unfold wp in Hspec.
  rewrite admit_priced_eq in * by done. pose proof (make_room_spec p fee Hok) as Hroom. unfold wp in Hroom.
  destruct (make_room fee p) as [[[]|e] p1]; simpl in Hroom; [|by destruct Hroom as (-> & _ & ?)].
  destruct Hroom as (Hok1 & Hlt & Hmax & [[? _]|[_ Hev]]); [lia|].
  destruct (evicted_ok p fee p1 Hok Hev) as (_ & Hlen & _).
  destruct (evicted_lookup p fee p1 Hok Hev) as (v & low & _ & Hv & Hlow & Hmin & Hf & Ht & Hc & Hs).
  assert (Hclaim : claim_outpoints (reserved p1) (tx_outpoints tx) = Ok (list_to_set (tx_outpoints tx))).
  { apply claim_outpoints_Ok. split_and!; try done. intros op Hop Hin. apply (Hfree op Hop). apply (to_reserved p1 Hok1) in Hin as [j Hj].
    rewrite Hs in Hj. case_decide; [by apply elem_of_nil in Hj|]. apply (to_reserved p Hok). by exists j. }
  rewrite Hclaim in *. simpl in *. destruct Hspec as (Hq & _). split_and!; try done.
  - assert (Hn1 : txs p1 !! tx_id tx = None) by (rewrite Ht; apply lookup_delete_None; by right).
    unfold len in *. simpl. rewrite map_size_insert, Hn1. lia.
  - apply lookup_insert_eq.
  - exists v, low. split_and!; try done; [by rewrite Hf|]. intros j Hj. rewrite lookup_insert_ne by done. by rewrite Ht.
Qed.

(** (finding) In a full pool the cheapest resident is evicted before the
    newcomer's inputs are checked: a transfer that is rejected as a double spend
    of another resident has still pushed the cheapest one out. *)
Theorem rejected_spend_evicts p tx fee v low op j :
  tlt_ok p -> len p = max_size p -> well_formed tx -> txs p !! tx_id tx = None ->
  lowest_fee p = Some (v, low) -> low < fee -> op ∈ tx_outpoints tx -> op ∈ spends p j -> j <> v ->
  exists q, admit_priced tx_id tx fee p = (Err (MempoolRejected "double spend"), q) /\
    is_Some (fees p !! v) /\ fees q = delete v (fees p) /\ len q = len p - 1.
Proof.
  intros Hok Hfull Hwf Hnew Hlow Hlt Hop Hj Hjv. rewrite admit_priced_eq by done.
  pose proof (make_room_spec p fee Hok) as Hroom. unfold wp in Hroom. destruct (make_room fee p) as [[[]|e] p1]; simpl in Hroom.
  - destruct Hroom as (Hok1 & _ & _ & [[? _]|[_ Hev]]); [lia|].
    destruct (evicted_lookup p fee p1 Hok Hev) as (v' & low' & Hlow' & Hv & _ & _ & Hf & _ & _ & Hs). rewrite Hlow in Hlow'. simplify_eq.
    destruct (evicted_ok p fee p1 Hok Hev) as (_ & Hlen & _).
    destruct (claim_outpoints _ _) as [taken|e] eqn:Ec.
    + apply claim_outpoints_Ok in Ec as (_ & _ & Hfree). destruct (Hfree op Hop). apply (to_reserved p1 Hok1). exists j. by rewrite Hs, decide_False.
    + apply claim_outpoints_Err in Ec as ->. exists p1. split_and!; try done.
  - destruct Hroom as (_ & _ & Hmin). destruct (lowest_fee_spec p v low Hlow) as [Hv _]. specialize (Hmin v low Hv). lia.
Qed.

(** *** Templates *)

#[local] Instance entry_cmp_total {A} (idf : A -> Hash) : TotalCmp (entry_cmp idf).
Proof.
  unfold entry_cmp. apply then_total.
  - apply (flip_total (fun a b : A * Z => Z.compare a.2 b.2)), (on_total snd). apply _.
  - apply (on_total (fun x : A * Z => idf x.1)). apply _.
Qed.
Lemma fst_tag {A B} (f : A -> B) (l : list A) : ((fun t => (t, f t)) <$> l).*1 = l.
Proof. induction l; by f_equal/=. Qed.
(** Sorting the residents of a map with their fees. *)
Lemma sorted_entries {A} (idf : A -> Hash) (fee : A -> Z) (m : gmap Hash A) :
  (forall i t, m !! i = Some t -> i = idf t) ->
  let all := sort_by (entry_cmp idf) ((fun t => (t, fee t)) <$> (map_to_list m).*2) in
  (forall t f, (t, f) ∈ all <-> m !! idf t = Some t /\ f = fee t) /\ StronglySorted (cmp_le (entry_cmp idf)) all /\
  NoDup all.*1 /\ length all = size m.
Proof.
  intros Hid all. split_and!.
  - intros t f. unfold all. rewrite elem_of_sort_by, list_elem_of_fmap. setoid_rewrite list_elem_of_fmap. split.
    + intros (t' & [= <- <-] & [i t''] & Ht & Hin). simpl in Ht. subst t''. rewrite elem_of_map_to_list in Hin. by rewrite <- (Hid i t).
    + intros [Hin ->]. exists t. split; [done|]. exists (idf t, t). by rewrite elem_of_map_to_list.
  - apply sort_by_sorted. apply _.
  - unfold all. rewrite sort_by_perm, fst_tag.
    apply NoDup_fmap_2_strong; [|apply NoDup_map_to_list]. intros [i1 t1] [i2 t2]. rewrite !elem_of_map_to_list. simpl. intros H1 H2 ->.
    by rewrite (Hid i1 t2 H1), (Hid i2 t2 H2).
  - unfold all. by rewrite length_sort_by, !length_fmap, length_map_to_list.
Qed.

Lemma NoDup_spends {A} p (idf : A -> Hash) (ops : A -> list OutPoint) (l : list A) :
  tlt_ok p -> NoDup l -> (forall t, t ∈ l -> spends p (idf t) = ops t) ->
  (forall t t', t ∈ l -> t' ∈ l -> idf t = idf t' -> t = t') -> NoDup (l ≫= ops).
Proof.
  intros Hok Hnd Hops Hinj. apply NoDup_bind; [|intros t Ht; rewrite <- Hops by done; apply (to_nodup p Hok)|done].
  intros t t' op Ht Ht' Hop Hop'. apply Hinj; [done|done|]. apply (to_exclusive p Hok _ _ op); by rewrite Hops.
Qed.

(** Templates take the best payers.  The transfers chosen for a template are
    residents, in order of fee and then id, as many as fit; every resident left
    out pays no more than each one chosen; and no two chosen spends, transfers or
    covenants, share an outpoint. *)
Theorem template_selection p n m :
  tlt_ok p ->
  let chosen := pending_entries tx_id n p in
  length chosen = Nat.min n (size (txs p)) /\ StronglySorted (cmp_le (entry_cmp tx_id)) chosen /\
  (forall tx fee, (tx, fee) ∈ chosen -> txs p !! tx_id tx = Some tx /\ fees p !! tx_id tx = Some fee) /\
  (forall tx fee i t f, (tx, fee) ∈ chosen -> txs p !! i = Some t -> t ∉ select_transfers tx_id n p -> fees p !! i = Some f -> f <= fee) /\
  NoDup ((select_transfers tx_id n p ≫= tx_outpoints) ++ (select_covenants covenant_tx_id m p ≫= ct_outpoints)).
Proof.
  intros Hok chosen.
  destruct (sorted_entries tx_id (fun tx => default 0 (fees p !! tx_id tx)) (txs p) (to_tx_id p Hok)) as (Hin & Hs & Hnd & Hlen).
  destruct (sorted_entries covenant_tx_id (fun tx => default 0 (fees p !! covenant_tx_id tx)) (covenant_txs p) (to_covenant_id p Hok)) as (Hin' & _ & Hnd' & _).
  unfold chosen, select_transfers, select_covenants, pending_entries in *.
  set (all := sort_by (entry_cmp tx_id) _) in *. set (all' := sort_by (entry_cmp covenant_tx_id) _) in *.
  assert (Hfee : forall tx f, (tx, f) ∈ all -> txs p !! tx_id tx = Some tx /\ fees p !! tx_id tx = Some f).
  { intros tx f [H ->]%Hin. split; [done|]. destruct (to_fees p Hok (tx_id tx)) as [_ Hf]. destruct Hf as [g Hg]; [left; by eexists|]. by rewrite Hg. }
  assert (Htake : forall x, x ∈ take n all -> x ∈ all) by (intros x Hx; rewrite <- (take_drop n all); apply elem_of_app; by left).
  split_and!.
  - rewrite length_take, Hlen. done.
  - rewrite <- (take_drop n all) in Hs. by apply StronglySorted_app_1_l in Hs.
  - intros tx f Hx. apply Hfee, Htake, Hx.
  - intros tx fee i t f Hx Hi Ht Hf. rewrite <- (take_drop n all) in Hs.
    assert (Hdrop : (t, f) ∈ drop n all).
    { assert ((t, f) ∈ all) as Hall.
      { apply Hin. rewrite <- (to_tx_id p Hok i t Hi) at 1. split; [done|]. by rewrite <- (to_tx_id p Hok i t Hi), Hf. }
      rewrite <- (take_drop n all) in Hall. apply elem_of_app in Hall as [H|H]; [|done].
      destruct Ht. apply list_elem_of_fmap. by exists (t, f). }
    pose proof (StronglySorted_app_1_elem_of _ _ _ _ _ Hs Hx Hdrop) as Hle. unfold cmp_le, entry_cmp in Hle. simpl in Hle.
    destruct (Z.compare_spec f fee); simpl in Hle; lia || done.
  - assert (Hres : forall tx, tx ∈ (take n all).*1 -> txs p !! tx_id tx = Some tx).
    { intros tx ([t f] & -> & Hx)%list_elem_of_fmap. by apply (Hfee t f), Htake. }
    assert (Hres' : forall tx, tx ∈ (take m all').*1 -> covenant_txs p !! covenant_tx_id tx = Some tx).
    { intros tx ([t f] & -> & Hx)%list_elem_of_fmap. apply (Hin' t f). rewrite <- (take_drop m all'). apply elem_of_app. by left. }
    apply NoDup_app. split_and!.
    + apply (NoDup_spends p tx_id); [done|rewrite fmap_take; eapply sublist_NoDup; [done|apply sublist_take]| |].
      * intros t Ht. by apply spends_tx, Hres.
      * intros t t' H1%Hres H2%Hres Heq. rewrite Heq in H1. congruence.
    + intros op (t & Hop & Ht%Hres)%list_elem_of_bind (c & Hop' & Hc%Hres')%list_elem_of_bind.
      apply (ids_apart t c), (to_exclusive p Hok _ _ op); [by rewrite (spends_tx p _ t)|by rewrite (spends_covenant p _ c Hok Hc)].
    + apply (NoDup_spends p covenant_tx_id); [done|rewrite fmap_take; eapply sublist_NoDup; [done|apply sublist_take]| |].
      * intros t Ht. by apply spends_covenant, Hres'.
      * intros t t' H1%Hres' H2%Hres' Heq. rewrite Heq in H1. congruence.
Qed.
End invariant.
