(* ===== verification/MempoolRun.v ===== *)
(** * Runs of the mempool

    Every operation of the pool, on any lane, keeps the TLT invariant and the
    size bound; what a block evicts; and the durable snapshot. *)

From stdpp Require Import base gmap list fin_maps strings sorting.
From Stdlib Require Import ZArith Lia.
From S2P Require Import Prelude Ordering Sums Types Finality Store Supply Accounts Staking Objects Policy Authority Escrow Check Channel Trust Offer TltScript Payment Envelopes Mempool MempoolProps.
Local Open Scope Z_scope.

(** ** Shapes of operations

    [Shr]: the lanes lose envelopes at most; [Gro]: they gain at most one, in its
    place; [Adm]: they stay within the size of the pool.  None of them touches the TLT part. *)

Definition shrinks (p q : Mempool) : Prop := tlt_frame p q /\ pending q ⊆ pending p.
#[export] Instance shrinks_preorder : PreOrder shrinks.
Proof. split; [intros p; by split|]. intros p q r [] []. split; by etrans. Qed.
Lemma shrinks_size p q : shrinks p q -> (size (pending q) <= size (pending p))%nat.
Proof. intros [_ H]. by apply map_subseteq_size. Qed.
Definition Shr {A} (m : Pool A) : Prop := forall p, shrinks p (m p).2.
Definition Sh (f : Mempool -> Mempool) : Prop := forall p, shrinks p (f p).

Section shapes.
Context {A B : Type}.
Lemma Shr_ret (a : A) : Shr (pret a).
Proof. intros p. reflexivity. Qed.
Lemma Shr_reject msg : Shr (@reject A msg).
Proof. intros p. reflexivity. Qed.
Lemma Shr_plift (r : result string A) : Shr (plift r).
Proof. intros p. unfold plift. destruct r; reflexivity. Qed.
Lemma Shr_gets (f : Mempool -> A) : Shr (gets f).
Proof. intros p. reflexivity. Qed.
Lemma Shr_bind (m : Pool A) (k : A -> Pool B) : Shr m -> (forall a, Shr (k a)) -> Shr (pbind m k).
Proof. intros Hm Hk p. unfold pbind. specialize (Hm p). destruct (m p) as [[a|e] q]; simpl in *; [etrans; [done|apply Hk]|done]. Qed.
Lemma Shr_on_err (m : Pool A) undo : Shr m -> Sh undo -> Shr (on_err m undo).
Proof. intros Hm Hu p. unfold on_err. specialize (Hm p). destruct (m p) as [[a|e] q]; simpl in *; [done|]. etrans; [done|apply Hu]. Qed.
End shapes.
Lemma Shr_modify f : Sh f -> Shr (modify f).
Proof. intros Hf p. apply Hf. Qed.
Lemma Shr_require good msg : Shr (require good msg).
Proof. intros p. unfold require. destruct (good p); reflexivity. Qed.
Lemma Shr_pwhen c m : Shr m -> Shr (pwhen c m).
Proof. intros Hm. destruct c; [done|apply Shr_ret]. Qed.
(** *** Functions that only free *)

Lemma Sh_refl f : (forall p, tlt_frame p (f p) /\ pending (f p) = pending p) -> Sh f.
Proof. intros H p. destruct (H p) as [H1 H2]. split; [done|]. by rewrite H2. Qed.
Lemma Sh_id : Sh id.
Proof. intros p. by split. Qed.
Lemma Sh_comp f g : Sh f -> Sh g -> Sh (fun p => f (g p)).
Proof. intros Hf Hg p. etrans; [apply Hg|apply Hf]. Qed.
Lemma Sh_set_mark m : Sh (set_mark m).
Proof. by apply Sh_refl. Qed.
Lemma Sh_clear_mark m : Sh (clear_mark m).
Proof. by apply Sh_refl. Qed.
Lemma Sh_assign_mark m b : Sh (assign_mark m b).
Proof. apply Sh_refl. by destruct b. Qed.
Lemma Sh_set_claim c id : Sh (set_claim c id).
Proof. by apply Sh_refl. Qed.
Lemma Sh_clear_claim c : Sh (clear_claim c).
Proof. by apply Sh_refl. Qed.
Lemma Sh_leave l id : Sh (leave l id).
Proof. intros p. split; [done|]. apply delete_subseteq. Qed.
Lemma Sh_release_drc_slot id owner : Sh (release_drc_slot id owner).
Proof. apply Sh_refl. intros p. unfold release_drc_slot. by repeat case_match. Qed.
Lemma Sh_release_meta id : Sh (release_mutation_meta_keys_for_tx id).
Proof. by apply Sh_refl. Qed.
Lemma Sh_bump_unchecked h k d : Sh (bump_pending_delta_unchecked h k d).
Proof. by apply Sh_refl. Qed.
Lemma Sh_sub_native o a : Sh (sub_native_lock o a).
Proof. apply Sh_refl. intros p. unfold sub_native_lock. by repeat case_match. Qed.
Lemma Sh_sub_issued o k a : Sh (sub_issued_reserve o k a).
Proof. apply Sh_refl. intros p. unfold sub_issued_reserve. by repeat case_match. Qed.
Lemma Sh_foldl {A} (f : Mempool -> A -> Mempool) l : (forall x, Sh (fun p => f p x)) -> Sh (fun p => foldl f p l).
Proof. intros Hf. induction l as [|x l IH]; intros p; simpl; [by split|]. etrans; [apply (Hf x)|apply IH]. Qed.
Lemma shrinks_foldl {A} (f : Mempool -> A -> Mempool) l p : (forall x, Sh (fun p => f p x)) -> shrinks p (foldl f p l).
Proof. intros Hf. by apply (Sh_foldl f l). Qed.

Create HintDb pool discriminated.
#[export] Hint Resolve Shr_ret Shr_reject Shr_plift Shr_gets Shr_bind Shr_on_err Shr_modify Shr_require Shr_pwhen
  Sh_id Sh_comp Sh_set_mark Sh_clear_mark Sh_assign_mark Sh_set_claim Sh_clear_claim Sh_leave Sh_release_drc_slot Sh_release_meta
  Sh_bump_unchecked Sh_sub_native Sh_sub_issued : pool.

(** Take a composition of such functions apart. *)
Ltac peel :=
  repeat first
    [ match goal with |- shrinks ?p ?p => reflexivity end
    | etrans; [|first [ apply Sh_set_mark | apply Sh_clear_mark | apply Sh_assign_mark | apply Sh_set_claim | apply Sh_clear_claim | apply Sh_leave
                      | apply Sh_release_drc_slot | apply Sh_release_meta | apply Sh_bump_unchecked | apply Sh_sub_native | apply Sh_sub_issued ]] ].
Ltac sh_remove := intros p; repeat (case_match; try reflexivity); peel.

Section runs.
Variable tx_id : Transaction -> Hash.
Variable covenant_tx_id : TltCovenantTx -> Hash.
Variable lane_id : LaneTx -> Hash.
Variable asset_key : IssuedAssetId -> Hash.

(** Every envelope is in its own lane under its own id. *)
Definition lanes_ok (p : Mempool) : Prop := forall l id t, pending p !! (l, id) = Some t -> l = lane_of t /\ id = lane_id t.
Definition fits (p : Mempool) : Prop := len p <= max_size p.
Definition grows (p q : Mempool) : Prop :=
  tlt_frame p q /\ (size (pending q) <= S (size (pending p)))%nat /\ (lanes_ok p -> lanes_ok q).
Definition admits (p q : Mempool) : Prop := tlt_frame p q /\ (fits p -> fits q) /\ (lanes_ok p -> lanes_ok q).
Definition Gro {A} (m : Pool A) : Prop := forall p, grows p (m p).2.
Definition Adm {A} (m : Pool A) : Prop := forall p, admits p (m p).2.
Lemma shrinks_lanes p q : shrinks p q -> lanes_ok p -> lanes_ok q.
Proof. intros [_ Hs] Hok l id t Ht. apply Hok. by eapply lookup_weaken. Qed.
Lemma shrinks_admits p q : shrinks p q -> admits p q.
Proof.
  intros H. pose proof (shrinks_size p q H). pose proof (shrinks_lanes p q H). destruct H as [[Ht Hc Hf Hr Hs Hm] _].
  split_and!; [done| |done]. unfold fits, len. rewrite Ht, Hc, Hm. lia.
Qed.
#[local] Instance admits_preorder : PreOrder admits.
Proof. split; [intros p; by split|]. intros p q r (? & ? & ?) (? & ? & ?). split_and!; [by etrans|auto|auto]. Qed.

Section growth.
Context {A B : Type}.
Lemma Gro_bind_l (m : Pool A) (k : A -> Pool B) : Shr m -> (forall a, Gro (k a)) -> Gro (pbind m k).
Proof.
  intros Hm Hk p. unfold pbind. specialize (Hm p). destruct (m p) as [[a|e] q]; simpl in *;
    pose proof (shrinks_size p q Hm); pose proof (shrinks_lanes p q Hm).
  - destruct Hm as [H1 _], (Hk a q) as (H3 & H4 & H5). split_and!; [by etrans|lia|auto].
  - destruct Hm. split_and!; [done|lia|auto].
Qed.
Lemma Gro_bind_r (m : Pool A) (k : A -> Pool B) : Gro m -> (forall a, Shr (k a)) -> Gro (pbind m k).
Proof.
  intros Hm Hk p. unfold pbind. specialize (Hm p). destruct (m p) as [[a|e] q]; simpl in *; [|done].
  destruct Hm as (H1 & H2 & H3). pose proof (shrinks_size _ _ (Hk a q)). pose proof (shrinks_lanes _ _ (Hk a q)).
  destruct (Hk a q) as [H4 _]. split_and!; [by etrans|lia|auto].
Qed.
Lemma Adm_not_full (k : unit -> Pool B) : (forall u, Gro (k u)) -> Adm (pbind not_full k).
Proof.
  intros Hk p. unfold pbind, not_full, require. destruct (Z.leb_spec (max_size p) (len p)); simpl; [reflexivity|].
  destruct (Hk tt p) as ([Ht Hc Hf Hr Hs Hm] & Hle & Hl). split_and!; [done| |done]. intros _. unfold fits, len in *. rewrite Ht, Hc, Hm. lia.
Qed.
Lemma Adm_bind (m : Pool A) (k : A -> Pool B) : Shr m -> (forall a, Adm (k a)) -> Adm (pbind m k).
Proof.
  intros Hm Hk p. unfold pbind. specialize (Hm p). destruct (m p) as [[a|e] q]; simpl in *; [|by apply shrinks_admits].
  etrans; [by apply shrinks_admits|apply Hk].
Qed.
End growth.
Lemma Gro_enter t : Gro (enter lane_id t).
Proof.
  intros p. split_and!; [done| |].
  - simpl. rewrite map_size_insert. destruct (pending p !! _); simpl; lia.
  - intros Hok l id t'. simpl. intros [[[= <- <-] <-]|[_ H]]%lookup_insert_Some; [done|by apply Hok].
Qed.
Lemma Adm_unless l id k : Adm k -> Adm (unless_resident l id k).
Proof. intros Hk p. unfold unless_resident. destruct (resident l id p); [reflexivity|apply Hk]. Qed.

Lemma Sh_remove_payment id : Sh (remove_payment id).
Proof. unfold remove_payment. sh_remove. Qed.
Lemma Sh_remove_payments ids : Sh (remove_payments ids).
Proof. intros p. apply shrinks_foldl. intros id. apply Sh_remove_payment. Qed.
Lemma Sh_ticket id : Sh (remove_drc_ticket_create id).
Proof. unfold remove_drc_ticket_create. sh_remove. Qed.
Lemma Sh_escrow_create id : Sh (remove_drc_escrow_create id).
Proof. unfold remove_drc_escrow_create. sh_remove. Qed.
Lemma Sh_escrow_finish id : Sh (remove_drc_escrow_finish id).
Proof. unfold remove_drc_escrow_finish. sh_remove. Qed.
Lemma Sh_escrow_cancel id : Sh (remove_drc_escrow_cancel id).
Proof. unfold remove_drc_escrow_cancel. sh_remove. Qed.
Lemma Sh_check_create id : Sh (remove_drc_check_create id).
Proof. unfold remove_drc_check_create. sh_remove. Qed.
Lemma Sh_check_cash id : Sh (remove_drc_check_cash id).
Proof. unfold remove_drc_check_cash. sh_remove. Qed.
Lemma Sh_check_cancel id : Sh (remove_drc_check_cancel id).
Proof. unfold remove_drc_check_cancel. sh_remove. Qed.
Lemma Sh_channel_create id : Sh (remove_drc_payment_channel_create id).
Proof. unfold remove_drc_payment_channel_create. sh_remove. Qed.
Lemma Sh_channel_fund id : Sh (remove_drc_payment_channel_fund id).
Proof. unfold remove_drc_payment_channel_fund. sh_remove. Qed.
Lemma Sh_channel_claim id : Sh (remove_drc_payment_channel_claim id).
Proof. unfold remove_drc_payment_channel_claim. sh_remove. Qed.
Lemma Sh_channel_close id : Sh (remove_drc_payment_channel_close id).
Proof. unfold remove_drc_payment_channel_close. sh_remove. Qed.
Lemma Sh_trust_line_set id : Sh (remove_drc_trust_line_set asset_key id).
Proof. unfold remove_drc_trust_line_set, release_trust_line_set_slot. sh_remove. Qed.
Lemma Sh_rollback tx k i : Sh (rollback_pending_transfer_deltas tx k i).
Proof. unfold rollback_pending_transfer_deltas. sh_remove. Qed.
Lemma Sh_issued_transfer id : Sh (remove_drc_issued_transfer asset_key id).
Proof.
  intros p. unfold remove_drc_issued_transfer. repeat (case_match; try reflexivity). peel. etrans; [|apply Sh_rollback]. peel.
Qed.
Lemma Sh_asset_policy id : Sh (remove_drc_issued_asset_policy_set asset_key id).
Proof. unfold remove_drc_issued_asset_policy_set. sh_remove. Qed.
Lemma Sh_issuer_control id : Sh (remove_drc_trust_line_issuer_control asset_key id).
Proof. unfold remove_drc_trust_line_issuer_control. sh_remove. Qed.
Lemma Sh_clawback id : Sh (remove_drc_issued_clawback asset_key id).
Proof. unfold remove_drc_issued_clawback. sh_remove. Qed.
Lemma Sh_offer_create id : Sh (remove_drc_offer_create lane_id asset_key id).
Proof. unfold remove_drc_offer_create, release_offer_create. sh_remove. Qed.
Lemma Sh_offer_cancel id : Sh (remove_drc_offer_cancel id).
Proof. unfold remove_drc_offer_cancel. sh_remove. Qed.
Lemma Sh_data_commitment id : Sh (remove_data_commitment id).
Proof. unfold remove_data_commitment. sh_remove. Qed.
Lemma Sh_passport id : Sh (remove_passport_attestation id).
Proof. unfold remove_passport_attestation. sh_remove. Qed.
Lemma Sh_drop_account id : Sh (drop_account id).
Proof. unfold drop_account, release_sender. sh_remove. Qed.
Lemma Sh_drop_stake id : Sh (drop_stake id).
Proof. unfold drop_stake, release_sender. sh_remove. Qed.
Lemma Sh_drop_drc l id o : Sh (drop_drc l id o).
Proof. unfold drop_drc. sh_remove. Qed.
Lemma Sh_drop_owned l id t : Sh (drop_owned l id t).
Proof. unfold drop_owned. sh_remove. Qed.
Lemma Sh_evict_ovl tx : Sh (evict_ovl lane_id tx).
Proof. unfold evict_ovl. sh_remove. Qed.

(** *** Reservations *)

Lemma Shr_reserve_account x a : Shr (reserve_account x a).
Proof. apply Shr_bind; [apply Shr_require|intros _]. apply Shr_modify, Sh_set_mark. Qed.
Lemma Shr_reserve_drc_slot id o r : Shr (reserve_drc_slot id o r).
Proof.
  unfold reserve_drc_slot. apply Shr_bind; [|intros _; apply Shr_modify; by apply Sh_refl].
  destruct r; [apply Shr_reserve_account| |].
  - apply Shr_bind; [apply Shr_require|intros _]. apply Shr_modify, Sh_set_mark.
  - apply Shr_bind; [apply Shr_reserve_account|intros _]. apply Shr_bind; [apply Shr_on_err; [apply Shr_require|apply Sh_clear_mark]|intros _].
    apply Shr_modify, Sh_set_mark.
Qed.
Lemma Shr_meta msg id keys : Shr (reserve_meta_keys msg id keys).
Proof.
  induction keys as [|k keys IH]; [apply Shr_ret|]. intros p. simpl. repeat case_match; [apply IH|reflexivity|].
  etrans; [apply (Sh_set_claim (MetaMutation k) id)|apply IH].
Qed.
Lemma Shr_bump h k d : Shr (bump_pending_delta h k d).
Proof. intros p. unfold bump_pending_delta. case_match; [|reflexivity]. by apply (Sh_refl (put_delta _ _ _)). Qed.
Lemma Shr_native o a : Shr (add_native_lock o a).
Proof.
  unfold add_native_lock. case_match; [apply Shr_ret|]. intros p. case_match; by apply (Sh_refl (fun p => with_offer_locks p _ _)).
Qed.
Lemma Shr_issued o k a : Shr (add_issued_reserve o k a).
Proof.
  unfold add_issued_reserve. case_match; [apply Shr_ret|]. intros p. case_match; by apply (Sh_refl (fun p => with_offer_locks p _ _)).
Qed.
Lemma Sh_release_slot h k : Sh (release_trust_line_set_slot h k).
Proof. unfold release_trust_line_set_slot. intros p. peel. Qed.
Lemma Sh_guard a : Sh (guard_payments a).
Proof. intros p. apply shrinks_foldl. intros id. apply Sh_set_mark. Qed.
Lemma Sh_enforce_policy tx : Sh (enforce_policy tx).
Proof.
  intros p. unfold enforce_policy. repeat case_match; try reflexivity; [etrans; [|apply Sh_guard]|]; apply Sh_remove_payments.
Qed.
Lemma Sh_enforce_revoke tx : Sh (enforce_revoke tx).
Proof. intros p. unfold enforce_revoke. case_match; [apply Sh_remove_payments|reflexivity]. Qed.

Ltac sh_fun :=
  first [ solve [auto with pool] | apply Sh_release_slot | apply Sh_rollback | apply Sh_enforce_policy | apply Sh_enforce_revoke
        | (let p := fresh "p" in intros p; repeat case_match; peel; try (etrans; [|apply Sh_release_slot]); try (etrans; [|apply Sh_rollback]); peel) ].
Ltac shr :=
  repeat first
    [ apply Shr_ret | apply Shr_reject | apply Shr_plift | apply Shr_gets | apply Shr_require
    | apply Shr_reserve_account | apply Shr_reserve_drc_slot | apply Shr_meta | apply Shr_bump | apply Shr_native | apply Shr_issued
    | apply Shr_modify; solve [sh_fun] | apply Shr_on_err; [|solve [sh_fun]] | apply Shr_pwhen | apply Shr_bind; [|intros ?]
    | match goal with |- Shr (match ?x with _ => _ end) => destruct x | |- Shr (if ?x then _ else _) => destruct x end ].
Ltac gro :=
  repeat first [ apply Gro_enter | apply Gro_bind_r; [apply Gro_enter|intros ?; solve [shr]] | apply Gro_bind_l; [solve [shr]|intros ?] ].
Ltac adm :=
  cbv zeta;
  repeat first [ apply Adm_unless | apply Adm_not_full; intros ? | apply Adm_bind; [solve [shr]|intros ?] ]; gro.

Lemma Adm_account tx : Adm (admit_account lane_id tx).
Proof. unfold admit_account. adm. Qed.
Lemma Adm_stake tx : Adm (admit_stake lane_id tx).
Proof. unfold admit_stake, reserve_sender. adm. Qed.
Lemma Adm_ovl tx : Adm (admit_ovl_execution lane_id tx).
Proof. unfold admit_ovl_execution. adm. Qed.
Lemma Adm_payment tx s r a : Adm (admit_payment_with_context lane_id tx s r a).
Proof. unfold admit_payment_with_context, reserve_sender. adm. Qed.
Lemma Adm_policy tx : Adm (admit_drc_policy lane_id tx).
Proof. unfold admit_drc_policy, reserve_sender. adm. Qed.

Lemma Shr_settlement c msg id o v tv n sel : Shr (reserve_settlement c msg id o v tv n sel).
Proof. unfold reserve_settlement, reserve_claim. shr. Qed.
Lemma Shr_deltas tx k i : Shr (apply_pending_transfer_deltas tx k i).
Proof. unfold apply_pending_transfer_deltas. shr. Qed.
Lemma Shr_control c id keys i r : Shr (reserve_control c id keys i r).
Proof. unfold reserve_control, reserve_control_keys. shr. Qed.
Lemma Adm_preauth tx : Adm (admit_drc_deposit_preauth lane_id tx).
Proof. unfold admit_drc_deposit_preauth, reserve_sender. adm. Qed.
Lemma Adm_regular_key tx : Adm (admit_drc_regular_key lane_id tx).
Proof. unfold admit_drc_regular_key, reserve_sender. adm. Qed.
Lemma Adm_signer_list tx : Adm (admit_drc_signer_list lane_id tx).
Proof. unfold admit_drc_signer_list, reserve_sender. adm. Qed.
Lemma Adm_ticket_create tx : Adm (admit_drc_ticket_create lane_id tx).
Proof. unfold admit_drc_ticket_create. adm. Qed.
Lemma Adm_escrow_create tx : Adm (admit_drc_escrow_create lane_id tx).
Proof. unfold admit_drc_escrow_create, reserve_sender. adm. Qed.
Lemma Adm_escrow_finish tx : Adm (admit_drc_escrow_finish lane_id tx).
Proof.
  unfold admit_drc_escrow_finish. cbv zeta. do 2 (apply Adm_bind; [shr|intros ?]). apply Adm_unless, Adm_not_full. intros ?.
  apply Gro_bind_l; [apply Shr_settlement|intros ?; apply Gro_enter].
Qed.
Lemma Adm_escrow_cancel tx : Adm (admit_drc_escrow_cancel lane_id tx).
Proof.
  unfold admit_drc_escrow_cancel. cbv zeta. do 2 (apply Adm_bind; [shr|intros ?]). apply Adm_unless, Adm_not_full. intros ?.
  apply Gro_bind_l; [apply Shr_settlement|intros ?; apply Gro_enter].
Qed.
Lemma Adm_check_create tx : Adm (admit_drc_check_create lane_id tx).
Proof. unfold admit_drc_check_create, reserve_sender. adm. Qed.
Lemma Adm_check_cash tx : Adm (admit_drc_check_cash lane_id tx).
Proof.
  unfold admit_drc_check_cash. cbv zeta. do 2 (apply Adm_bind; [shr|intros ?]). apply Adm_unless, Adm_not_full. intros ?.
  apply Gro_bind_l; [apply Shr_settlement|intros ?; apply Gro_enter].
Qed.
Lemma Adm_check_cancel tx : Adm (admit_drc_check_cancel lane_id tx).
Proof.
  unfold admit_drc_check_cancel. cbv zeta. do 2 (apply Adm_bind; [shr|intros ?]). apply Adm_unless, Adm_not_full. intros ?.
  apply Gro_bind_l; [apply Shr_settlement|intros ?; apply Gro_enter].
Qed.
Lemma Adm_channel_create tx : Adm (admit_drc_payment_channel_create lane_id tx).
Proof. unfold admit_drc_payment_channel_create, reserve_sender. adm. Qed.
Lemma Adm_channel_fund tx : Adm (admit_drc_payment_channel_fund lane_id tx).
Proof.
  unfold admit_drc_payment_channel_fund. cbv zeta. do 2 (apply Adm_bind; [shr|intros ?]). apply Adm_unless, Adm_not_full. intros ?.
  apply Gro_bind_l; [apply Shr_settlement|intros ?; apply Gro_enter].
Qed.
Lemma Adm_channel_claim tx : Adm (admit_drc_payment_channel_claim lane_id tx).
Proof.
  unfold admit_drc_payment_channel_claim. cbv zeta. do 2 (apply Adm_bind; [shr|intros ?]). apply Adm_unless, Adm_not_full. intros ?.
  apply Gro_bind_l; [apply Shr_settlement|intros ?; apply Gro_enter].
Qed.
Lemma Adm_channel_close tx : Adm (admit_drc_payment_channel_close lane_id tx).
Proof.
  unfold admit_drc_payment_channel_close. cbv zeta. do 2 (apply Adm_bind; [shr|intros ?]). apply Adm_unless, Adm_not_full. intros ?.
  apply Gro_bind_l; [apply Shr_settlement|intros ?; apply Gro_enter].
Qed.
Lemma Adm_issued_transfer tx : Adm (admit_drc_issued_transfer lane_id asset_key tx).
Proof.
  unfold admit_drc_issued_transfer. cbv zeta. apply Adm_bind; [shr|intros ?]. apply Adm_unless, Adm_not_full. intros ?.
  do 8 (apply Gro_bind_l; [shr|intros ?]). apply Gro_bind_l; [shr|intros ?].
  do 3 (apply Gro_bind_l; [apply Shr_on_err; [first [apply Shr_meta | apply Shr_deltas | apply Shr_reserve_drc_slot]|sh_fun]|intros ?]). apply Gro_enter.
Qed.
Lemma Adm_issuer_control tx : Adm (admit_drc_trust_line_issuer_control lane_id asset_key tx).
Proof.
  unfold admit_drc_trust_line_issuer_control. cbv zeta. apply Adm_bind; [shr|intros ?]. apply Adm_unless, Adm_not_full. intros ?.
  do 4 (apply Gro_bind_l; [shr|intros ?]). apply Gro_bind_l; [apply Shr_control|intros ?; apply Gro_enter].
Qed.
Lemma Adm_clawback tx : Adm (admit_drc_issued_clawback lane_id asset_key tx).
Proof.
  unfold admit_drc_issued_clawback. cbv zeta. apply Adm_bind; [shr|intros ?]. apply Adm_unless, Adm_not_full. intros ?.
  do 4 (apply Gro_bind_l; [shr|intros ?]). apply Gro_bind_l; [apply Shr_control|intros ?; apply Gro_enter].
Qed.
Lemma Adm_offer_create tx : Adm (admit_drc_offer_create lane_id asset_key tx).
Proof. unfold admit_drc_offer_create, reserve_sender. adm. Qed.
Lemma Adm_offer_cancel tx : Adm (admit_drc_offer_cancel lane_id tx).
Proof. unfold admit_drc_offer_cancel. adm. Qed.
Lemma Adm_ovl_raw tx : Adm (admit_ovl_raw_execution lane_id tx).
Proof. unfold admit_ovl_raw_execution. adm. Qed.
Lemma Adm_data_commitment tx : Adm (admit_data_commitment lane_id tx).
Proof. unfold admit_data_commitment. adm. Qed.
Lemma Adm_multisign tx : Adm (admit_drc_multisign_attachment lane_id tx).
Proof. unfold admit_drc_multisign_attachment. adm. Qed.
Lemma Adm_nonce_slot t c msg : Adm (admit_with_nonce_slot lane_id t c msg).
Proof. unfold admit_with_nonce_slot. adm. Qed.
Lemma Adm_trust_line tx c d : Adm (admit_drc_trust_line_set lane_id asset_key tx c d).
Proof. unfold admit_drc_trust_line_set, reserve_trust_line_set_slot, reserve_mutation_meta_keys. adm. Qed.
Lemma Adm_asset_policy tx extra : Adm (admit_drc_issued_asset_policy_set lane_id asset_key tx extra).
Proof.
  unfold admit_drc_issued_asset_policy_set. cbv zeta. apply Adm_bind; [shr|intros ?]. apply Adm_unless, Adm_not_full. intros ?.
  do 3 (apply Gro_bind_l; [shr|intros ?]). apply Gro_bind_l; [apply Shr_control|intros ?; apply Gro_enter].
Qed.
Lemma Adm_readmit t : Adm (readmit lane_id asset_key t).
Proof.
  destruct t; simpl;
  [ apply Adm_account | apply Adm_stake | apply Adm_ovl | apply Adm_ovl_raw | intros p; by apply shrinks_admits | apply Adm_policy | apply Adm_preauth
  | apply Adm_regular_key | apply Adm_signer_list | apply Adm_ticket_create | apply Adm_escrow_create | apply Adm_escrow_finish
  | apply Adm_escrow_cancel | apply Adm_check_create | apply Adm_check_cash | apply Adm_check_cancel | apply Adm_channel_create
  | apply Adm_channel_fund | apply Adm_channel_claim | apply Adm_channel_close | intros p; by apply shrinks_admits | apply Adm_issued_transfer
  | apply Adm_asset_policy | apply Adm_issuer_control | apply Adm_clawback | apply Adm_offer_create | apply Adm_offer_cancel
  | apply Adm_data_commitment | apply Adm_multisign | .. ];
  unfold admit_passport_attestation, admit_hub_registration, admit_grant_registration, admit_mission_registration,
    admit_treasury_disbursement, admit_vesting_unlock; repeat (apply Adm_bind; [shr|intros ?]); apply Adm_nonce_slot.
Qed.

(** *** What a block evicts from the lanes *)

Lemma shrinks_for_ops f ops p : (forall t, Sh (f t)) -> shrinks p (for_ops f ops p).
Proof. intros Hf. apply (shrinks_foldl (fun p t => f t p)). intros t. apply Hf. Qed.
Lemma Sh_object_op l t : Sh (evict_object_op lane_id asset_key l t).
Proof.
  unfold evict_object_op. case_decide; [|apply Sh_id].
  destruct t; try exact Sh_id;
  [ apply Sh_escrow_create | apply Sh_escrow_finish | apply Sh_escrow_cancel | apply Sh_check_create | apply Sh_check_cash
  | apply Sh_check_cancel | apply Sh_channel_create | apply Sh_channel_fund | apply Sh_channel_claim | apply Sh_channel_close | apply Sh_trust_line_set
  | apply Sh_issued_transfer | apply Sh_asset_policy | apply Sh_issuer_control | apply Sh_clawback | apply Sh_offer_create | apply Sh_offer_cancel ].
Qed.
Lemma Sh_lane_op t :
  Sh (evict_account_op lane_id t) /\ Sh (evict_stake_op lane_id t) /\ Sh (evict_ovl_op lane_id t) /\ Sh (evict_payment_op lane_id t) /\
  Sh (evict_regular_key_op lane_id t) /\ Sh (evict_signer_list_op lane_id t) /\ Sh (evict_policy_op lane_id t) /\
  Sh (evict_preauth_op lane_id t) /\ Sh (evict_ticket_op lane_id t) /\ Sh (evict_multisign_op lane_id t).
Proof.
  unfold evict_account_op, evict_stake_op, evict_ovl_op, evict_payment_op, evict_regular_key_op, evict_signer_list_op, evict_policy_op,
    evict_preauth_op, evict_ticket_op, evict_multisign_op.
  destruct t; split_and!;
  lazymatch goal with
  | |- Sh id => exact Sh_id | |- Sh (drop_account _) => apply Sh_drop_account | |- Sh (drop_stake _) => apply Sh_drop_stake
  | |- Sh (evict_ovl _ _) => apply Sh_evict_ovl | |- Sh (remove_payment _) => apply Sh_remove_payment
  | |- Sh (drop_drc _ _ _) => apply Sh_drop_drc | |- Sh (remove_drc_ticket_create _) => apply Sh_ticket | |- Sh (leave _ _) => apply Sh_leave
  end.
Qed.
Lemma Sh_nonce_slot_op l t : Sh (evict_nonce_slot_op lane_id l t).
Proof. intros p. unfold evict_nonce_slot_op. repeat (case_match; try reflexivity); peel. Qed.
Lemma Sh_data_lanes ops : Sh (evict_data_commitment_lanes_from_block lane_id ops).
Proof.
  intros p. unfold evict_data_commitment_lanes_from_block. etrans; [|apply shrinks_foldl; intros id; apply Sh_data_commitment].
  apply shrinks_for_ops. intros []; lazymatch goal with |- Sh id => exact Sh_id | |- _ => apply Sh_data_commitment end.
Qed.
Lemma Sh_reconcile b : Sh (reconcile_payments_for_block_policies b).
Proof.
  intros p. apply shrinks_foldl. intros id q. unfold reconcile_payment. repeat (case_match; try reflexivity); [apply Sh_remove_payment|peel].
Qed.
Lemma shrinks_stale used l f p : (forall id t, Sh (f id t)) -> shrinks p (evict_stale used l f p).
Proof. intros Hf. apply (shrinks_foldl (fun p e => f e.1.2 e.2 p)). intros e. apply Hf. Qed.
Lemma Sh_all_stale used : Sh (evict_all_stale used).
Proof.
  intros p. unfold evict_all_stale.
  etrans; [|apply shrinks_stale; intros; apply Sh_ticket]. do 4 (etrans; [|apply shrinks_stale; intros; apply Sh_drop_owned]).
  etrans; [|apply shrinks_stale; intros; apply Sh_remove_payment]. etrans; [|apply shrinks_stale; intros; apply Sh_leave].
  etrans; [|apply shrinks_stale; intros; apply Sh_drop_stake]. apply shrinks_stale; intros; apply Sh_drop_account.
Qed.
(** The lane part of [evict_for_block]. *)
Definition evict_lanes (b : PoolBlock) (p : Mempool) : Mempool :=
  let ops := pb_ops b in
  let used := consumed_account_nonces b in
  let p := reconcile_payments_for_block_policies b p in
  let p := for_ops (evict_account_op lane_id) ops p in
  let p := for_ops (evict_stake_op lane_id) ops p in
  let p := for_ops (evict_ovl_op lane_id) ops p in
  let p := for_ops (evict_payment_op lane_id) ops p in
  let p := for_ops (evict_regular_key_op lane_id) ops p in
  let p := for_ops (evict_signer_list_op lane_id) ops p in
  let p := for_ops (evict_ticket_op lane_id) ops p in
  let p := foldl (fun p l => for_ops (evict_object_op lane_id asset_key l) ops p) p object_lanes in
  let p := evict_data_commitment_lanes_from_block lane_id ops p in
  let p := for_ops (evict_multisign_op lane_id) ops p in
  let p := foldl (fun p l => for_ops (evict_nonce_slot_op lane_id l) ops p) p nonce_slot_lanes in
  let p := for_ops (evict_policy_op lane_id) ops p in
  let p := for_ops (evict_preauth_op lane_id) ops p in
  let p := evict_all_stale used p in
  free_accounts used p.
Lemma evict_for_block_eq b p :
  evict_for_block tx_id covenant_tx_id lane_id asset_key b p = evict_tlt tx_id covenant_tx_id b (evict_lanes b p).
Proof. reflexivity. Qed.
Lemma Sh_evict_lanes b : Sh (evict_lanes b).
Proof.
  intros p. unfold evict_lanes. etrans; [|by apply (Sh_refl (free_accounts _))]. etrans; [|apply Sh_all_stale].
  do 2 (etrans; [|apply shrinks_for_ops; intros t; apply (Sh_lane_op t)]).
  etrans; [|apply (shrinks_foldl (fun p l => for_ops (evict_nonce_slot_op lane_id l) (pb_ops b) p)); intros l q; apply shrinks_for_ops; intros t; apply Sh_nonce_slot_op].
  etrans; [|apply shrinks_for_ops; intros t; apply (Sh_lane_op t)]. etrans; [|apply Sh_data_lanes].
  etrans; [|apply (shrinks_foldl (fun p l => for_ops (evict_object_op lane_id asset_key l) (pb_ops b) p)); intros l q; apply shrinks_for_ops; intros t; apply Sh_object_op].
  do 7 (etrans; [|apply shrinks_for_ops; intros t; apply (Sh_lane_op t)]). apply Sh_reconcile.
Qed.

(** ** Every operation, in any order *)

Inductive PoolOp :=
| OpAdmit (tx : Transaction)
| OpAdmitPriced (tx : Transaction) (fee : Z)
| OpAdmitOptIn (tx : Transaction) (fee : Z) (rbf : bool)
| OpReplace (tx : Transaction) (fee : Z)
| OpAdmitCovenant (tx : TltCovenantTx) (fee : Z)
| OpReplaceCovenant (tx : TltCovenantTx) (fee : Z)
| OpRemove (id : Hash)
| OpRemoveCovenant (id : Hash)
| OpPayment (tx : DrcPaymentTx) (score : option Z) (deposit_auth preauthorized : bool)
| OpTrustLine (tx : DrcTrustLineSetTx) (pending_create pending_delete : bool)
| OpAssetPolicy (tx : DrcIssuedAssetPolicySetTx) (extra_meta_keys : list TrustKey)
| OpLane (t : LaneTx)
| OpRevalidate (still_valid : DrcIssuedTransferTx -> bool)
| OpRemoveObject (t : LaneTx)
| OpRemoveTicket (id : Hash)
| OpRemoveCommitment (id : Hash)
| OpRemovePassport (id : Hash)
| OpIndexMultisign (ops : list LaneTx)
| OpBlock (b : PoolBlock)
| OpBlockAt (b : PoolBlock) (score : Z)
| OpExpire (score : Z)
| OpRestart (fallback_max : nat).
Definition run_op (p : Mempool) (o : PoolOp) : Mempool :=
  match o with
  | OpAdmit tx => (admit_unpriced tx_id tx p).2
  | OpAdmitPriced tx fee => (admit_priced tx_id tx fee p).2
  | OpAdmitOptIn tx fee rbf => (admit_priced_opt_in tx_id tx fee rbf p).2
  | OpReplace tx fee => (replace_by_fee tx_id tx fee p).2
  | OpAdmitCovenant tx fee => (admit_covenant covenant_tx_id tx fee p).2
  | OpReplaceCovenant tx fee => (replace_covenant covenant_tx_id tx fee p).2
  | OpRemove id => (remove id p).2
  | OpRemoveCovenant id => (remove_covenant id p).2
  | OpPayment tx score auth pre => (admit_payment_with_context lane_id tx score auth pre p).2
  | OpTrustLine tx c d => (admit_drc_trust_line_set lane_id asset_key tx c d p).2
  | OpAssetPolicy tx extra => (admit_drc_issued_asset_policy_set lane_id asset_key tx extra p).2
  | OpLane t => (readmit lane_id asset_key t p).2
  | OpRevalidate valid => revalidate_pending_trust_line_transfers asset_key valid p
  | OpRemoveObject t => evict_object_op lane_id asset_key (lane_of t) t p
  | OpRemoveTicket id => remove_drc_ticket_create id p
  | OpRemoveCommitment id => remove_data_commitment id p
  | OpRemovePassport id => remove_passport_attestation id p
  | OpIndexMultisign ops => index_drc_multisign_attachments_from_block lane_id ops p
  | OpBlock b => evict_for_block tx_id covenant_tx_id lane_id asset_key b p
  | OpBlockAt b score => evict_for_block_at_blue_score tx_id covenant_tx_id lane_id asset_key b score p
  | OpExpire score => evict_expired_drc_payments score p
  | OpRestart n => restore_snapshot tx_id covenant_tx_id lane_id asset_key (snapshot asset_key p) (Z.of_nat n)
  end.

Hypothesis ids_apart : forall tx c, tx_id tx <> covenant_tx_id c.
Definition pool_ok (p : Mempool) : Prop := tlt_ok tx_id covenant_tx_id p /\ lanes_ok p.
Lemma admits_ok p q : admits p q -> pool_ok p -> pool_ok q.
Proof.
  intros (Hf & Hs & Hl) [Hok Hlok]. split; [|auto]. apply (frame_ok _ _ p q Hok Hf). apply Hs, (to_size _ _ p Hok).
Qed.
Lemma shrinks_ok p q : shrinks p q -> pool_ok p -> pool_ok q.
Proof. intros H. by apply admits_ok, shrinks_admits. Qed.
Lemma same_lanes p q : tlt_ok tx_id covenant_tx_id q -> pending q = pending p -> pool_ok p -> pool_ok q.
Proof. intros Hq Hp [_ Hl]. split; [done|]. unfold lanes_ok. by rewrite Hp. Qed.

(** The TLT operations leave the lanes alone. *)
Definition keeps_lanes {A} (m : Pool A) : Prop := forall p, pending (m p).2 = pending p.
Lemma keeps_bind {A B} (m : Pool A) (k : A -> Pool B) : keeps_lanes m -> (forall a, keeps_lanes (k a)) -> keeps_lanes (pbind m k).
Proof. intros Hm Hk p. unfold pbind. specialize (Hm p). destruct (m p) as [[a|e] q]; simpl in *; [by rewrite Hk|done]. Qed.
Lemma keeps_require good msg : keeps_lanes (require good msg).
Proof. intros p. unfold require. by destruct (good p). Qed.
Lemma remove_lanes id p : pending (remove id p).2 = pending p.
Proof. unfold remove. by destruct (txs p !! id). Qed.
Lemma remove_covenant_lanes id p : pending (remove_covenant id p).2 = pending p.
Proof. unfold remove_covenant. by destruct (covenant_txs p !! id). Qed.
Lemma remove_all_lanes ids p : pending (remove_all ids p) = pending p.
Proof. unfold remove_all. revert p. induction ids as [|i ids IH]; intros p; simpl; [done|]. by rewrite IH, remove_lanes. Qed.
Lemma remove_all_covenants_lanes ids p : pending (remove_all_covenants ids p) = pending p.
Proof. unfold remove_all_covenants. revert p. induction ids as [|i ids IH]; intros p; simpl; [done|]. by rewrite IH, remove_covenant_lanes. Qed.
Lemma keeps_make_room fee : keeps_lanes (make_room fee).
Proof.
  intros p. unfold make_room, evict_lowest_below. repeat (case_match; simplify_eq/=; try done);
  repeat match goal with
  | H : remove ?i ?q = (_, ?r) |- _ => let E := fresh in assert (pending r = pending q) as E by (rewrite <- (remove_lanes i q); by rewrite H); rewrite ?E; clear H
  end; rewrite ?remove_covenant_lanes; done.
Qed.
Lemma keeps_plift {A} (r : result string A) : keeps_lanes (plift r).
Proof. intros p. unfold plift. by destruct r. Qed.
Lemma keeps_gets {A} (f : Mempool -> A) : keeps_lanes (gets f).
Proof. by intros p. Qed.
Lemma keeps_modify f : (forall p, pending (f p) = pending p) -> keeps_lanes (modify f).
Proof. by intros H p; apply H. Qed.
Lemma keeps_read {A} (f : Mempool -> result string A) : keeps_lanes (fun p => plift (f p) p).
Proof. intros p. apply keeps_plift. Qed.
Lemma keeps_if {A} (c : Mempool -> bool) (m1 m2 : Pool A) : keeps_lanes m1 -> keeps_lanes m2 -> keeps_lanes (fun p => if c p then m1 p else m2 p).
Proof. intros H1 H2 p. destruct (c p); auto. Qed.
Ltac keeps :=
  repeat first
    [ apply keeps_require | apply keeps_make_room | apply keeps_gets | apply keeps_plift | apply keeps_read
    | apply keeps_modify; intros ?; first [done | apply remove_all_lanes | apply remove_all_covenants_lanes]
    | match goal with |- keeps_lanes (pbind _ _) => apply keeps_bind; [|intros ?] | |- keeps_lanes (pret _) => done end ].
Lemma keeps_admit_priced tx fee : keeps_lanes (admit_priced tx_id tx fee).
Proof.
  unfold admit_priced, check_auth. keeps. apply (keeps_if (contains_tx _) (pret _)); keeps.
Qed.
Lemma keeps_insert_covenant tx fee : keeps_lanes (insert_covenant covenant_tx_id tx fee).
Proof. unfold insert_covenant. keeps. apply (keeps_if (contains_covenant _) (pret _)); keeps. Qed.
Lemma keeps_admit_opt_in tx fee rbf : keeps_lanes (admit_priced_opt_in tx_id tx fee rbf).
Proof. unfold admit_priced_opt_in. keeps; [apply keeps_admit_priced|]. unfold pwhen. destruct (rbf && negb _); keeps. Qed.
Lemma keeps_replace tx fee : keeps_lanes (replace_by_fee tx_id tx fee).
Proof. unfold replace_by_fee, check_auth. keeps. apply keeps_admit_opt_in. Qed.
Lemma keeps_replace_covenant tx fee : keeps_lanes (replace_covenant covenant_tx_id tx fee).
Proof. unfold replace_covenant. keeps. apply keeps_insert_covenant. Qed.

Lemma replace_ok tx fee p : tlt_ok tx_id covenant_tx_id p -> tlt_ok tx_id covenant_tx_id (replace_by_fee tx_id tx fee p).2.
Proof.
  intros Hok. destruct (replace_by_fee_cases tx_id p tx fee) as [[e ->]|(C & _ & ->)]; [done|].
  by apply admit_opt_in_ok, remove_all_ok.
Qed.
Lemma insert_covenant_ok tx fee p : tlt_ok tx_id covenant_tx_id p -> tlt_ok tx_id covenant_tx_id (insert_covenant covenant_tx_id tx fee p).2.
Proof. intros Hok. apply (insert_covenant_spec tx_id covenant_tx_id ids_apart p tx fee Hok). Qed.
Lemma replace_covenant_ok tx fee p : tlt_ok tx_id covenant_tx_id p -> tlt_ok tx_id covenant_tx_id (replace_covenant covenant_tx_id tx fee p).2.
Proof.
  intros Hok. change (wp (replace_covenant covenant_tx_id tx fee) (fun _ q => tlt_ok tx_id covenant_tx_id q) p). unfold replace_covenant.
  do 4 (apply wp_bind, wp_require; [intros _|done]). apply wp_bind, wp_gets. do 4 (apply wp_bind, wp_require; [intros _|done]).
  apply wp_bind. unfold wp at 1, plift. destruct (replacement_fee _ p); simpl; [|done].
  apply wp_bind, wp_require; [intros _|done]. apply wp_bind, wp_modify. by apply insert_covenant_ok, remove_all_covenants_ok.
Qed.
Lemma admit_priced_ok tx fee p : tlt_ok tx_id covenant_tx_id p -> tlt_ok tx_id covenant_tx_id (admit_priced tx_id tx fee p).2.
Proof. intros Hok. apply (admit_priced_spec tx_id covenant_tx_id ids_apart p tx fee Hok). Qed.
Lemma foldl_ok {X} (f : Mempool -> X -> Mempool) l p : (forall p x, pool_ok p -> pool_ok (f p x)) -> pool_ok p -> pool_ok (foldl f p l).
Proof. intros Hf. revert p. induction l; simpl; auto. Qed.

(** Evicting what a block spent. *)
Lemma evict_tlt_ok b p : pool_ok p -> pool_ok (evict_tlt tx_id covenant_tx_id b p).
Proof.
  intros [Hok Hl]. unfold evict_tlt. eapply same_lanes; [|by rewrite remove_all_covenants_lanes, remove_all_lanes|done].
  by apply remove_all_covenants_ok, remove_all_ok.
Qed.
Lemma evict_block_ok b p : pool_ok p -> pool_ok (evict_for_block tx_id covenant_tx_id lane_id asset_key b p).
Proof. intros Hok. rewrite evict_for_block_eq. apply evict_tlt_ok. eapply shrinks_ok; [apply Sh_evict_lanes|done]. Qed.
Lemma expire_ok score p : pool_ok p -> pool_ok (evict_expired_drc_payments score p).
Proof. apply shrinks_ok, Sh_remove_payments. Qed.

Lemma restore_lane_admits s l p : admits p (restore_lane lane_id asset_key s p l).
Proof.
  assert (Hfold : forall X (f : Mempool -> X -> Mempool) xs q, (forall q x, admits q (f q x)) -> admits q (foldl f q xs)).
  { intros X f xs q Hf. revert q. induction xs as [|x xs IH]; intros q; simpl; [reflexivity|]. etrans; [apply Hf|apply IH]. }
  destruct l; unfold restore_lane; apply Hfold; intros q x; try apply Adm_readmit.
  - destruct x as [[tx a] c]. unfold restore_payment, attempt. repeat case_match; apply Adm_payment.
  - destruct x as [[tx a] c]. apply Adm_trust_line.
Qed.
Lemma restore_ok s n : 0 <= ds_max_size s -> pool_ok (restore_snapshot tx_id covenant_tx_id lane_id asset_key s (Z.of_nat n)).
Proof.
  intros Hmax. unfold restore_snapshot.
  apply foldl_ok; [intros p l Hp; by eapply admits_ok, Hp; apply restore_lane_admits|].
  apply foldl_ok; [intros p [tx fee] Hp|apply foldl_ok; [intros p [[tx fee] rbf] Hp|]].
  - eapply same_lanes; [|apply keeps_insert_covenant|done]. apply insert_covenant_ok, Hp.
  - unfold restore_tlt, attempt. destruct rbf.
    + eapply same_lanes; [|apply keeps_admit_opt_in|done]. apply admit_opt_in_ok; [done|apply Hp].
    + eapply same_lanes; [|apply keeps_admit_priced|done]. apply admit_priced_ok, Hp.
  - split; [apply new_ok; destruct (_ =? 0); lia|]. intros l id t. simpl. by rewrite lookup_empty.
Qed.
Lemma run_op_ok p o : pool_ok p -> pool_ok (run_op p o).
Proof.
  intros Hp. pose proof Hp as [Hok Hl]. pose proof (to_size _ _ p Hok).
  destruct o; simpl;
  [ eapply same_lanes; [|apply keeps_admit_priced|done]; by apply admit_priced_ok
  | eapply same_lanes; [|apply keeps_admit_priced|done]; by apply admit_priced_ok
  | eapply same_lanes; [|apply keeps_admit_opt_in|done]; by apply admit_opt_in_ok
  | eapply same_lanes; [|apply keeps_replace|done]; by apply replace_ok
  | eapply same_lanes; [|apply keeps_insert_covenant|done]; by apply insert_covenant_ok
  | eapply same_lanes; [|apply keeps_replace_covenant|done]; by apply replace_covenant_ok
  | eapply same_lanes; [|apply remove_lanes|done]; by apply remove_ok
  | eapply same_lanes; [|apply remove_covenant_lanes|done]; by apply remove_covenant_ok
  | eapply admits_ok, Hp; apply Adm_payment
  | eapply admits_ok, Hp; apply Adm_trust_line
  | eapply admits_ok, Hp; apply Adm_asset_policy
  | eapply admits_ok, Hp; apply Adm_readmit
  | eapply shrinks_ok, Hp; apply shrinks_foldl; intros id; apply Sh_issued_transfer
  | eapply shrinks_ok, Hp; apply Sh_object_op
  | eapply shrinks_ok, Hp; apply Sh_ticket
  | eapply shrinks_ok, Hp; apply Sh_data_commitment
  | eapply shrinks_ok, Hp; apply Sh_passport
  | apply foldl_ok, Hp; intros q [] Hq; try exact Hq; eapply admits_ok, Hq; apply Adm_multisign
  | by apply evict_block_ok
  | by apply expire_ok, evict_block_ok
  | by apply expire_ok
  | apply restore_ok; simpl; unfold len in *; lia ].
Qed.

(** C30: The pool is sound in any run.  Whatever operations are tried in whatever
    order, admissions and replacements on every lane, evictions by blocks and by
    expiry, restarts from the durable snapshot: every resident is kept under its
    own id in its own lane, priced exactly when it is resident; the reserved
    outpoints are exactly those that residents spend, no two residents share
    one, and the pool never exceeds its size. *)
Theorem mempool_sound n ops : 0 <= n -> pool_ok (foldl run_op (new n) ops).
Proof.
  intros Hn. apply foldl_ok; [intros; by apply run_op_ok|]. split; [by apply new_ok|]. intros l id t. simpl. by rewrite lookup_empty.
Qed.
End runs.
