(* ===== verification/MempoolBlock.v ===== *)
(** * What a block does to the mempool

    The residents a block removes and the ones it leaves: the TLT spends, the
    envelopes it included, and those whose account nonce it consumed. *)

From stdpp Require Import base gmap list fin_maps strings sorting.
From Stdlib Require Import ZArith Lia.
From S2P Require Import Prelude Ordering Sums Types Finality Store Supply Accounts Staking Objects Policy Authority Escrow Check Channel Trust Offer TltScript Payment Envelopes Mempool MempoolProps MempoolRun.
Local Open Scope Z_scope.

(** The lanes whose envelopes leave when their account's nonce is consumed. *)
Definition nonce_lanes : list Lane := [LAccount; LStake; LOvl; LPayment; LPolicy; LPreauth; LRegularKey; LSignerList; LTicketCreate].

Section block.
Variable tx_id : Transaction -> Hash.
Variable covenant_tx_id : TltCovenantTx -> Hash.
Variable lane_id : LaneTx -> Hash.
Variable asset_key : IssuedAssetId -> Hash.

(** ** TLT spends *)

Lemma remove_all_txs ids p j : txs (remove_all ids p) !! j = if decide (j ∈ ids) then None else txs p !! j.
Proof.
  unfold remove_all. revert p. induction ids as [|i ids IH]; intros p; cbn [foldl]; [by rewrite decide_False by apply not_elem_of_nil|].
  rewrite IH. assert (Hr : txs (remove i p).2 = delete i (txs p)).
  { unfold remove. destruct (txs p !! i) eqn:E; simpl; [done|]. by rewrite delete_id. }
  rewrite Hr. destruct (decide (j ∈ ids)) as [H|H]; [by rewrite decide_True by (by right)|].
  destruct (decide (j = i)) as [->|]; [rewrite decide_True by (by left); apply lookup_delete_eq|].
  rewrite decide_False by (by intros [?|?]%elem_of_cons). by rewrite lookup_delete_ne.
Qed.
Lemma remove_all_covenants_lookup ids p j :
  covenant_txs (remove_all_covenants ids p) !! j = if decide (j ∈ ids) then None else covenant_txs p !! j.
Proof.
  unfold remove_all_covenants. revert p. induction ids as [|i ids IH]; intros p; cbn [foldl]; [by rewrite decide_False by apply not_elem_of_nil|].
  rewrite IH. assert (Hr : covenant_txs (remove_covenant i p).2 = delete i (covenant_txs p)).
  { unfold remove_covenant. destruct (covenant_txs p !! i) eqn:E; simpl; [done|]. by rewrite delete_id. }
  rewrite Hr. destruct (decide (j ∈ ids)) as [H|H]; [by rewrite decide_True by (by right)|].
  destruct (decide (j = i)) as [->|]; [rewrite decide_True by (by left); apply lookup_delete_eq|].
  rewrite decide_False by (by intros [?|?]%elem_of_cons). by rewrite lookup_delete_ne.
Qed.
Lemma remove_all_other ids p : covenant_txs (remove_all ids p) = covenant_txs p.
Proof.
  unfold remove_all. revert p. induction ids as [|i ids IH]; intros p; simpl; [done|]. rewrite IH. unfold remove. by destruct (txs p !! i).
Qed.
Lemma remove_all_covenants_other ids p : txs (remove_all_covenants ids p) = txs p.
Proof.
  unfold remove_all_covenants. revert p. induction ids as [|i ids IH]; intros p; simpl; [done|]. rewrite IH.
  unfold remove_covenant. by destruct (covenant_txs p !! i).
Qed.

(** A spend is stale after a block that included it or spent one of its outpoints. *)
Definition stale_spend (b : PoolBlock) (id : Hash) (ops : list OutPoint) : Prop :=
  id ∈ block_included tx_id covenant_tx_id b \/ exists op, op ∈ ops /\ op ∈ block_spent b.
Lemma stale_spec b id ops :
  bool_decide (id ∈ block_included tx_id covenant_tx_id b) || spends_any ops (block_spent b) = true <-> stale_spend b id ops.
Proof. by rewrite orb_true_iff, bool_decide_eq_true, spends_any_spec. Qed.
Lemma filtered_lookup {A} (m : gmap Hash A) (P : Hash * A -> Prop) `{!forall x, Decision (P x)} (j : Hash) (t : A) :
  (if decide (j ∈ (filter P (map_to_list m)).*1) then None else m !! j) = Some t <-> m !! j = Some t /\ ~ P (j, t).
Proof.
  assert (Hin : j ∈ (filter P (map_to_list m)).*1 <-> exists u, m !! j = Some u /\ P (j, u)).
  { rewrite list_elem_of_fmap. split.
    - intros ([i u] & -> & [H1 H2]%list_elem_of_filter). rewrite elem_of_map_to_list in H2. by exists u.
    - intros (u & H1 & H2). exists (j, u). split; [done|]. apply list_elem_of_filter. by rewrite elem_of_map_to_list. }
  destruct (decide _) as [Hd|Hd]; rewrite Hin in Hd; split.
  - done.
  - intros [Hj Hn]. destruct Hd as (u & Hu & HP). by simplify_eq.
  - intros Hj. split; [done|]. intros HP. apply Hd. by exists t.
  - by intros [Hj _].
Qed.
Lemma evict_tlt_spec b p :
  let q := evict_tlt tx_id covenant_tx_id b p in
  (forall j t, txs q !! j = Some t <-> txs p !! j = Some t /\ ~ stale_spend b j (tx_outpoints t)) /\
  (forall j c, covenant_txs q !! j = Some c <-> covenant_txs p !! j = Some c /\ ~ stale_spend b j (ct_outpoints c)) /\
  pending q = pending p /\ marks q = marks p.
Proof.
  unfold evict_tlt. simpl. split_and!.
  - intros j t. rewrite remove_all_covenants_other, remove_all_txs, filtered_lookup. simpl. by rewrite stale_spec.
  - intros j c. rewrite remove_all_covenants_lookup, remove_all_other, filtered_lookup. simpl. by rewrite stale_spec.
  - by rewrite remove_all_covenants_lanes, remove_all_lanes.
  - set (l2 := (filter _ _).*1). generalize l2. intros l. set (l1 := (filter _ _).*1). generalize l1. intros l'. clear.
    assert (H1 : forall l p, marks (remove_all l p) = marks p).
    { unfold remove_all. clear. induction l as [|i l IH]; intros p; simpl; [done|]. rewrite IH. unfold remove. by destruct (txs p !! i). }
    assert (H2 : forall l p, marks (remove_all_covenants l p) = marks p).
    { unfold remove_all_covenants. clear. induction l as [|i l IH]; intros p; simpl; [done|]. rewrite IH.
      unfold remove_covenant. by destruct (covenant_txs p !! i). }
    by rewrite H2, H1.
Qed.

(** ** Included envelopes

    [Clears f k]: after [f] nothing is pending under [k]. *)

Definition Clears (f : Mempool -> Mempool) (k : Lane * Hash) : Prop := forall p, lanes_ok lane_id p -> pending (f p) !! k = None.
Lemma clears_leave l id p q : shrinks (leave l id p) q -> pending q !! (l, id) = None.
Proof. intros [_ Hs]. eapply lookup_weaken_None; [|exact Hs]. apply lookup_delete_eq. Qed.
Lemma shrinks_None p q k : shrinks p q -> pending p !! k = None -> pending q !! k = None.
Proof. intros [_ Hs] H. by eapply lookup_weaken_None. Qed.
(** A stage of a sequence that clears a key. *)
Lemma Clears_foldl {X} (f : Mempool -> X -> Mempool) l x k :
  (forall y, Sh (fun p => f p y)) -> x ∈ l -> Clears (fun p => f p x) k -> Clears (fun p => foldl f p l) k.
Proof.
  intros Hf Hx Hc. induction Hx as [x l|x y l Hx IH]; intros p Hok; simpl.
  - eapply shrinks_None; [apply shrinks_foldl, Hf|by apply Hc].
  - apply IH; [done|]. eapply shrinks_lanes, Hok. apply (Hf y).
Qed.
Lemma Clears_before f g k : Sh f -> Clears g k -> Clears (fun p => g (f p)) k.
Proof. intros Hf Hg p Hok. apply Hg. by eapply shrinks_lanes, Hok. Qed.
Lemma Clears_after f g k : Sh f -> Clears g k -> Clears (fun p => f (g p)) k.
Proof. intros Hf Hg p Hok. eapply shrinks_None; [apply Hf|by apply Hg]. Qed.

(** An operation that takes an envelope out of its lane when it is there. *)
Ltac clears :=
  let p := fresh "p" in let Hok := fresh "Hok" in let E := fresh "E" in
  intros p Hok;
  lazymatch goal with
  | |- context [pending p !! ?k] => destruct (pending p !! k) as [[]|] eqn:E;
      try (apply Hok in E as [E _]; discriminate E); try exact E
  end;
  lazymatch goal with |- _ !! (?l, ?i) = None => apply (clears_leave l i p) end; peel.
Lemma clears_account id : Clears (drop_account id) (LAccount, id).
Proof. unfold drop_account, release_sender. clears. case_match; peel. Qed.
Lemma clears_stake id : Clears (drop_stake id) (LStake, id).
Proof. unfold drop_stake, release_sender. clears. case_match; peel. Qed.
Lemma clears_payment id : Clears (remove_payment id) (LPayment, id).
Proof. unfold remove_payment. clears. Qed.
Lemma clears_drc l id o : Clears (drop_drc l id o) (l, id).
Proof.
  intros p Hok. unfold drop_drc, resident. destruct (pending p !! (l, id)) eqn:E; simpl; [|done]. apply (clears_leave l id p); peel.
Qed.
Lemma clears_ticket id : Clears (remove_drc_ticket_create id) (LTicketCreate, id).
Proof. unfold remove_drc_ticket_create. clears. Qed.
Lemma clears_leave_stage l id : Clears (leave l id) (l, id).
Proof. intros p _. by eapply clears_leave. Qed.
Lemma clears_data id : Clears (remove_data_commitment id) (LDataCommitment, id).
Proof. unfold remove_data_commitment. clears. Qed.
Lemma clears_nonce_slot t : Clears (evict_nonce_slot_op lane_id (lane_of t) t) (lane_of t, lane_id t).
Proof. intros p _. unfold evict_nonce_slot_op. rewrite decide_True by done. apply (clears_leave _ _ p). case_match; peel. Qed.
Lemma clears_object t : lane_of t ∈ object_lanes -> Clears (evict_object_op lane_id asset_key (lane_of t) t) (lane_of t, lane_id t).
Proof.
  intros Ht. unfold evict_object_op. rewrite decide_True by done.
  apply (bool_decide_eq_true_2 _) in Ht. destruct t; try discriminate Ht; simpl lane_of;
  unfold remove_drc_escrow_create, remove_drc_escrow_finish, remove_drc_escrow_cancel, remove_drc_check_create, remove_drc_check_cash,
    remove_drc_check_cancel, remove_drc_payment_channel_create, remove_drc_payment_channel_fund, remove_drc_payment_channel_claim,
    remove_drc_payment_channel_close, remove_drc_trust_line_set, remove_drc_issued_transfer, remove_drc_issued_asset_policy_set,
    remove_drc_trust_line_issuer_control, remove_drc_issued_clawback, remove_drc_offer_create, remove_drc_offer_cancel, release_offer_create;
  clears; repeat case_match; peel; try (etrans; [|apply Sh_release_slot]); try (etrans; [|apply Sh_rollback]); peel.
Qed.

(** The lane stages of [evict_for_block] in order. *)
Definition stages (b : PoolBlock) : list (Mempool -> Mempool) :=
  let ops := pb_ops b in
  [reconcile_payments_for_block_policies b;
   for_ops (evict_account_op lane_id) ops; for_ops (evict_stake_op lane_id) ops; for_ops (evict_ovl_op lane_id) ops;
   for_ops (evict_payment_op lane_id) ops; for_ops (evict_regular_key_op lane_id) ops; for_ops (evict_signer_list_op lane_id) ops;
   for_ops (evict_ticket_op lane_id) ops;
   (fun p => foldl (fun p l => for_ops (evict_object_op lane_id asset_key l) ops p) p object_lanes);
   evict_data_commitment_lanes_from_block lane_id ops; for_ops (evict_multisign_op lane_id) ops;
   (fun p => foldl (fun p l => for_ops (evict_nonce_slot_op lane_id l) ops p) p nonce_slot_lanes);
   for_ops (evict_policy_op lane_id) ops; for_ops (evict_preauth_op lane_id) ops;
   evict_all_stale (consumed_account_nonces b); free_accounts (consumed_account_nonces b)].
Lemma evict_lanes_stages b p : evict_lanes lane_id asset_key b p = foldl (fun p f => f p) p (stages b).
Proof. reflexivity. Qed.
Lemma Sh_for_ops f ops : (forall t, Sh (f t)) -> Sh (for_ops f ops).
Proof. intros Hf p. by apply shrinks_for_ops. Qed.
Lemma Sh_stages b f : f ∈ stages b -> Sh f.
Proof.
  unfold stages. rewrite !elem_of_cons, elem_of_nil.
  assert (Hops : forall t, Sh _ /\ Sh _ /\ Sh _ /\ Sh _ /\ Sh _ /\ Sh _ /\ Sh _ /\ Sh _ /\ Sh _ /\ Sh _) by (intros t; apply (Sh_lane_op lane_id t)).
  intros H. repeat destruct H as [->|H]; [..|done];
  lazymatch goal with
  | |- Sh (reconcile_payments_for_block_policies _) => apply Sh_reconcile
  | |- Sh (evict_data_commitment_lanes_from_block _ _) => apply Sh_data_lanes
  | |- Sh (evict_all_stale _) => apply Sh_all_stale
  | |- Sh (free_accounts _) => by apply Sh_refl
  | |- Sh (for_ops _ _) => apply Sh_for_ops; intros t; apply (Hops t)
  | |- Sh (fun p => foldl _ p object_lanes) => apply (Sh_foldl (fun p l => for_ops _ _ p)); intros l; apply Sh_for_ops; intros t; apply Sh_object_op
  | |- Sh (fun p => foldl _ p nonce_slot_lanes) => apply (Sh_foldl (fun p l => for_ops _ _ p)); intros l; apply Sh_for_ops; intros t; apply Sh_nonce_slot_op
  end.
Qed.
Lemma Clears_ops f ops t k : (forall u, Sh (f u)) -> t ∈ ops -> Clears (f t) k -> Clears (for_ops f ops) k.
Proof. intros Hf Ht Hc. apply (Clears_foldl (fun p t => f t p) ops t k); [intros u; apply Hf|done|exact Hc]. Qed.
Lemma stage_clears b f k : f ∈ stages b -> Clears f k -> Clears (evict_lanes lane_id asset_key b) k.
Proof.
  intros Hin Hc p Hok. rewrite evict_lanes_stages. revert p Hok.
  assert (Hs : forall g, g ∈ stages b -> Sh g) by apply Sh_stages. induction Hin as [f l|f g l Hin IH]; intros p Hok; simpl.
  - eapply shrinks_None; [|by apply Hc]. generalize (f p) as q.
    assert (Hl : forall g, g ∈ l -> Sh g) by (intros g Hg; apply Hs; by right). clear -Hl. induction l as [|g l IH]; intros q; simpl; [reflexivity|].
    etrans; [apply (Hl g); by left|]. apply IH. intros h Hh. apply Hl. by right.
  - apply IH; [done|intros h Hh; apply Hs; by right|]. eapply shrinks_lanes, Hok. apply (Hs g). by left.
Qed.

(** Where a block's operation would be pending: raw EVM calls have their own lane. *)
Definition block_key (t : LaneTx) : Lane * Hash :=
  match t with
  | OvlL tx => if ov_version tx =? OVL_EXECUTION_RAW_EVM_VERSION then (LOvlRaw, lane_id (OvlRawL tx)) else (LOvl, lane_id t)
  | _ => (lane_of t, lane_id t)
  end.
Definition in_block_form (t : LaneTx) : Prop := match t with OvlRawL _ => False | _ => True end.
Lemma clears_ovl tx : Clears (evict_ovl lane_id tx) (block_key (OvlL tx)).
Proof.
  intros p Hok. unfold evict_ovl, block_key, resident. destruct (ov_version tx =? _); [by eapply clears_leave|].
  destruct (pending p !! (LOvl, _)) eqn:E; simpl; [|done]. apply lookup_delete_eq.
Qed.
Lemma nth_stage b i f : stages b !! i = Some f -> f ∈ stages b.
Proof. apply list_elem_of_lookup_2. Qed.
Lemma included_cleared b t : t ∈ pb_ops b -> in_block_form t -> Clears (evict_lanes lane_id asset_key b) (block_key t).
Proof.
  intros Ht Hf.
  assert (Hop : forall i f, stages b !! i = Some (for_ops f (pb_ops b)) -> (forall u, Sh (f u)) -> Clears (f t) (block_key t) ->
    Clears (evict_lanes lane_id asset_key b) (block_key t)).
  { intros i f Hi Hs Hc. eapply stage_clears; [by eapply nth_stage|]. by eapply Clears_ops. }
  destruct (decide (lane_of t ∈ object_lanes)) as [Ho|Hno]; [|destruct (decide (lane_of t ∈ nonce_slot_lanes)) as [Hn|Hnn]].
  - assert (Hk : block_key t = (lane_of t, lane_id t)) by (apply (bool_decide_eq_true_2 _) in Ho; by destruct t). rewrite Hk.
    eapply stage_clears; [by apply (nth_stage b 8)|]. eapply (Clears_foldl (fun p l => for_ops _ _ p)); [|exact Ho|].
    + intros l. apply Sh_for_ops. intros u. apply Sh_object_op.
    + eapply Clears_ops; [intros u; apply Sh_object_op|exact Ht|by apply clears_object].
  - assert (Hk : block_key t = (lane_of t, lane_id t)) by (apply (bool_decide_eq_true_2 _) in Hn; by destruct t). rewrite Hk.
    eapply stage_clears; [by apply (nth_stage b 11)|]. eapply (Clears_foldl (fun p l => for_ops _ _ p)); [|exact Hn|].
    + intros l. apply Sh_for_ops. intros u. apply Sh_nonce_slot_op.
    + eapply Clears_ops; [intros u; apply Sh_nonce_slot_op|exact Ht|by apply clears_nonce_slot].
  - apply (bool_decide_eq_false_2 _) in Hno. apply (bool_decide_eq_false_2 _) in Hnn.
    destruct t; try discriminate Hno; try discriminate Hnn; try destruct Hf;
    lazymatch goal with
    | |- Clears _ (block_key (AccountL _)) => apply (Hop 1%nat _ eq_refl); [intros u; apply (Sh_lane_op lane_id u)|apply clears_account]
    | |- Clears _ (block_key (StakeL _)) => apply (Hop 2%nat _ eq_refl); [intros u; apply (Sh_lane_op lane_id u)|apply clears_stake]
    | |- Clears _ (block_key (OvlL _)) => apply (Hop 3%nat _ eq_refl); [intros u; apply (Sh_lane_op lane_id u)|apply clears_ovl]
    | |- Clears _ (block_key (PaymentL _)) => apply (Hop 4%nat _ eq_refl); [intros u; apply (Sh_lane_op lane_id u)|apply clears_payment]
    | |- Clears _ (block_key (RegularKeyL _)) => apply (Hop 5%nat _ eq_refl); [intros u; apply (Sh_lane_op lane_id u)|apply clears_drc]
    | |- Clears _ (block_key (SignerListL _)) => apply (Hop 6%nat _ eq_refl); [intros u; apply (Sh_lane_op lane_id u)|apply clears_drc]
    | |- Clears _ (block_key (TicketCreateL _)) => apply (Hop 7%nat _ eq_refl); [intros u; apply (Sh_lane_op lane_id u)|apply clears_ticket]
    | |- Clears _ (block_key (MultisignL _)) => apply (Hop 10%nat _ eq_refl); [intros u; apply (Sh_lane_op lane_id u)|apply clears_leave_stage]
    | |- Clears _ (block_key (PolicyL _)) => apply (Hop 12%nat _ eq_refl); [intros u; apply (Sh_lane_op lane_id u)|apply clears_drc]
    | |- Clears _ (block_key (PreauthL _)) => apply (Hop 13%nat _ eq_refl); [intros u; apply (Sh_lane_op lane_id u)|apply clears_drc]
    | |- _ => idtac
    end.
    eapply stage_clears; [by apply (nth_stage b 9)|]. unfold evict_data_commitment_lanes_from_block. intros p Hok.
    eapply shrinks_None; [apply shrinks_foldl; intros id; apply Sh_data_commitment|].
    eapply (Clears_ops (fun t => match t with DataCommitmentL _ => _ | _ => _ end)); [|exact Ht| |exact Hok].
    + intros []; lazymatch goal with |- Sh id => exact Sh_id | |- _ => apply Sh_data_commitment end.
    + apply clears_data.
Qed.

(** ** Envelopes made stale *)

Definition no_stale (used : gset (NativeAssetId * Address)) (l : Lane) (p : Mempool) : Prop :=
  forall id t, pending p !! (l, id) = Some t -> uses_nonce_of used t = false.
Lemma no_stale_shrinks used l p q : shrinks p q -> no_stale used l p -> no_stale used l q.
Proof. intros [_ Hs] H id t Ht. apply (H id t). by eapply lookup_weaken. Qed.
Lemma evict_stale_clears used l f p :
  (forall id t, Sh (f id t)) -> (forall id t, l = lane_of t -> Clears (f id t) (l, id)) -> lanes_ok lane_id p ->
  no_stale used l (evict_stale used l f p).
Proof.
  intros Hs Hc Hok id t Ht. destruct (uses_nonce_of used t) eqn:Eu; [|done]. exfalso.
  assert (Hp : pending p !! (l, id) = Some t) by (eapply lookup_weaken; [exact Ht|]; apply (shrinks_stale used l f p Hs)).
  assert (Hin : ((l, id), t) ∈ filter (fun e => e.1.1 = l /\ uses_nonce_of used e.2 = true) (lane_list p)).
  { apply list_elem_of_filter. split; [done|]. unfold lane_list. by rewrite elem_of_map_to_list. }
  eapply (Clears_foldl (fun p e => f e.1.2 e.2 p)) in Hin; [|intros y; apply Hs|apply Hc; by apply Hok in Hp as [-> _]].
  specialize (Hin p Hok). simpl in Hin. unfold evict_stale in Ht. by rewrite Hin in Ht.
Qed.
Lemma clears_owned l id t : is_Some (drc_owner t) -> Clears (drop_owned l id t) (l, id).
Proof. intros [o Ho] p _. unfold drop_owned. rewrite Ho. apply (clears_leave _ _ p); peel. Qed.
Definition stale_stages : list (Lane * (Hash -> LaneTx -> Mempool -> Mempool)) :=
  [(LAccount, fun id _ => drop_account id); (LStake, fun id _ => drop_stake id); (LOvl, fun id _ => leave LOvl id);
   (LPayment, fun id _ => remove_payment id); (LPolicy, drop_owned LPolicy); (LPreauth, drop_owned LPreauth);
   (LRegularKey, drop_owned LRegularKey); (LSignerList, drop_owned LSignerList); (LTicketCreate, fun id _ => remove_drc_ticket_create id)].
Lemma stale_stages_clear :
  Forall (fun lf => (forall id t, Sh (lf.2 id t)) /\ (forall id t, lf.1 = lane_of t -> Clears (lf.2 id t) (lf.1, id))) stale_stages.
Proof.
  repeat (constructor; [split; intros id t; simpl|]); [..|constructor];
  lazymatch goal with
  | |- Sh (drop_account _) => apply Sh_drop_account | |- Sh (drop_stake _) => apply Sh_drop_stake | |- Sh (leave _ _) => apply Sh_leave
  | |- Sh (remove_payment _) => apply Sh_remove_payment | |- Sh (drop_owned _ _ _) => apply Sh_drop_owned | |- Sh _ => apply Sh_ticket
  | |- _ -> Clears (drop_account _) _ => intros _; apply clears_account | |- _ -> Clears (drop_stake _) _ => intros _; apply clears_stake
  | |- _ -> Clears (leave _ _) _ => intros _; apply clears_leave_stage | |- _ -> Clears (remove_payment _) _ => intros _; apply clears_payment
  | |- _ -> Clears (drop_owned _ _ _) _ => intros Hl; apply clears_owned; destruct t; try discriminate Hl; by eexists
  | |- _ -> Clears _ _ => intros _; apply clears_ticket
  end.
Qed.
Lemma all_stale_clears used l p : l ∈ nonce_lanes -> lanes_ok lane_id p -> no_stale used l (evict_all_stale used p).
Proof.
  intros Hl Hok. change (evict_all_stale used p) with (foldl (fun p lf => evict_stale used lf.1 lf.2 p) p stale_stages).
  change nonce_lanes with stale_stages.*1 in Hl. pose proof stale_stages_clear as HS. revert Hl p Hok HS.
  generalize stale_stages as F. induction F as [|[l' f] F IH]; intros Hl p Hok HS; simpl in *; [by apply elem_of_nil in Hl|].
  apply Forall_cons in HS as [[H1 H2] HS]. simpl in H1, H2. destruct (decide (l = l')) as [<-|Hne].
  - eapply no_stale_shrinks; [|by apply evict_stale_clears]. generalize (evict_stale used l f p).
    clear -HS. induction HS as [|[l' f'] F [H _] HS IH]; intros q; simpl; [reflexivity|]. etrans; [|apply IH]. by apply shrinks_stale.
  - apply IH; [by apply elem_of_cons in Hl as [?|?]| |done]. eapply shrinks_lanes, Hok. by apply shrinks_stale.
Qed.

Lemma freed used p asset a : (asset, a) ∈ used -> ReservedAccount asset a ∉ marks (free_accounts used p).
Proof. intros Hin [Hf _]%elem_of_filter. simpl in Hf. by apply bool_decide_eq_false in Hf. Qed.
(** The lane part of a block. *)
Lemma stages_prefix b n p : shrinks p (foldl (fun p f => f p) p (take n (stages b))).
Proof.
  assert (Hst : forall f, f ∈ take n (stages b) -> Sh f).
  { intros f Hf. apply (Sh_stages b). rewrite <- (take_drop n (stages b)). apply elem_of_app. by left. }
  revert p Hst. generalize (take n (stages b)) as F. induction F as [|f F IH]; intros p Hst; simpl; [reflexivity|].
  etrans; [apply (Hst f); by left|]. apply IH. intros g Hg. apply Hst. by right.
Qed.
Lemma lanes_evicted b p :
  lanes_ok lane_id p ->
  let q := evict_lanes lane_id asset_key b p in
  let used := consumed_account_nonces b in
  (forall t, t ∈ pb_ops b -> in_block_form t -> pending q !! block_key t = None) /\
  (forall l, l ∈ nonce_lanes -> no_stale used l q) /\
  (forall asset a, (asset, a) ∈ used -> ReservedAccount asset a ∉ marks q).
Proof.
  intros Hl q used. split; [intros t Hin Hf; by apply included_cleared|].
  assert (Hq : q = free_accounts used (evict_all_stale used (foldl (fun p f => f p) p (take 14 (stages b))))) by reflexivity.
  clearbody q. subst q. split.
  - intros l Hlane. eapply no_stale_shrinks; [by apply (Sh_refl (free_accounts used))|]. apply all_stale_clears; [done|].
    eapply shrinks_lanes, Hl. apply stages_prefix.
  - intros asset a Hin. by apply freed.
Qed.

(** What a block evicts.  From a sound pool the block takes the TLT spends it
    included or double-spent, and no other; every envelope it included, of any
    lane; and, in the nine account lanes, every envelope of an account whose
    nonce it consumed, whose reservation it frees.  Nothing enters, and the pool
    stays sound. *)
Theorem block_eviction b p :
  (forall tx c, tx_id tx <> covenant_tx_id c) -> pool_ok tx_id covenant_tx_id lane_id p ->
  let q := evict_for_block tx_id covenant_tx_id lane_id asset_key b p in
  let used := consumed_account_nonces b in
  pool_ok tx_id covenant_tx_id lane_id q /\
  (forall j t, txs q !! j = Some t <-> txs p !! j = Some t /\ ~ stale_spend b j (tx_outpoints t)) /\
  (forall j c, covenant_txs q !! j = Some c <-> covenant_txs p !! j = Some c /\ ~ stale_spend b j (ct_outpoints c)) /\
  pending q ⊆ pending p /\
  (forall t, t ∈ pb_ops b -> in_block_form t -> pending q !! block_key t = None) /\
  (forall l, l ∈ nonce_lanes -> no_stale used l q) /\
  (forall asset a, (asset, a) ∈ used -> ReservedAccount asset a ∉ marks q).
Proof.
  intros Hids Hp q used. split; [by apply evict_block_ok|]. destruct Hp as [_ Hl]. unfold q. rewrite evict_for_block_eq. clear q.
  pose proof (lanes_evicted b p Hl) as (Hinc & Hstale & Hfree). fold used in Hstale, Hfree.
  pose proof (Sh_evict_lanes lane_id asset_key b p) as [[Et Ec _ _ _ _] Hsub].
  revert Hinc Hstale Hfree Et Ec Hsub. generalize (evict_lanes lane_id asset_key b p) as e. intros e Hinc Hstale Hfree Et Ec Hsub.
  destruct (evict_tlt_spec b e) as (Ht & Hc & Hpe & Hm). rewrite Et in Ht. rewrite Ec in Hc.
  revert Ht Hc Hpe Hm. generalize (evict_tlt tx_id covenant_tx_id b e) as q. intros q Ht Hc Hpe Hm.
  unfold no_stale in *. rewrite Hpe, Hm. by split_and!.
Qed.
End block.
