(* ===== verification/MempoolPersist.v ===== *)
(** * The durable mempool

    A restart writes the pool as its envelopes and admits them again: the TLT
    residents, their fees and opt-ins, and the reserved outpoints come back. *)

From stdpp Require Import base gmap list fin_maps strings sorting.
From Stdlib Require Import ZArith Lia.
From S2P Require Import Prelude Ordering Sums Types Finality Store Supply Accounts Staking Objects Policy Authority Escrow Check Channel Trust Offer TltScript Payment Envelopes Mempool MempoolProps MempoolRun.
Local Open Scope Z_scope.

Section persist.
Variable tx_id : Transaction -> Hash.
Variable covenant_tx_id : TltCovenantTx -> Hash.
Variable lane_id : LaneTx -> Hash.
Variable asset_key : IssuedAssetId -> Hash.
Hypothesis ids_apart : forall tx c, tx_id tx <> covenant_tx_id c.
Local Abbreviation tlt_ok := (tlt_ok tx_id covenant_tx_id).

Section restoring.
Variable p : Mempool.
Hypothesis Hok : tlt_ok p.

(** A pool that holds the residents of [p] with ids in [D], and nothing else. *)
Record part (D : gset Hash) (q : Mempool) : Prop := {
  pt_ok : tlt_ok q;
  pt_max : max_size q = max_size p;
  pt_pending : pending q = ∅;
  pt_txs : forall j, txs q !! j = if decide (j ∈ D) then txs p !! j else None;
  pt_covenants : forall j, covenant_txs q !! j = if decide (j ∈ D) then covenant_txs p !! j else None;
  pt_fees : forall j, fees q !! j = if decide (j ∈ D) then fees p !! j else None;
  pt_opt_in : forall j, j ∈ rbf_opt_in q <-> j ∈ D /\ j ∈ rbf_opt_in p;
}.
Lemma part_spends D q j : part D q -> spends q j = if decide (j ∈ D) then spends p j else [].
Proof. intros H. unfold spends. rewrite (pt_txs D q H), (pt_covenants D q H). by case_decide. Qed.
(** The outpoints of a resident still to come are free. *)
Lemma part_free D q id op : part D q -> id ∉ D -> op ∈ spends p id -> op ∉ reserved q.
Proof.
  intros H Hid Hop Hin. apply (to_reserved _ _ q (pt_ok D q H)) in Hin as [j Hj]. rewrite (part_spends D q j H) in Hj.
  case_decide as HD; [|by apply elem_of_nil in Hj]. by rewrite (to_exclusive _ _ p Hok id j op) in Hid.
Qed.
Lemma part_sub D q : part D q -> txs q ⊆ txs p /\ covenant_txs q ⊆ covenant_txs p.
Proof.
  intros H. split; apply map_subseteq_spec; intros j t Hj.
  - rewrite (pt_txs D q H) in Hj. by case_decide.
  - rewrite (pt_covenants D q H) in Hj. by case_decide.
Qed.
Lemma strict_size {A} (m1 m2 : gmap Hash A) id : m1 ⊆ m2 -> m1 !! id = None -> is_Some (m2 !! id) -> (size m1 < size m2)%nat.
Proof.
  intros Hs H1 [x H2]. apply map_subset_size. split; [done|]. intros Hc. rewrite (lookup_weaken m2 m1 id x H2 Hc) in H1. done.
Qed.
Lemma part_room D q id : part D q -> id ∉ D -> is_Some (txs p !! id) \/ is_Some (covenant_txs p !! id) -> len q < max_size q.
Proof.
  intros H Hid Hres. pose proof (to_size _ _ p Hok). rewrite (pt_max D q H). destruct (part_sub D q H) as [H1 H2].
  pose proof (map_subseteq_size _ _ H1). pose proof (map_subseteq_size _ _ H2). unfold len in *. rewrite (pt_pending D q H), map_size_empty.
  destruct Hres as [Hr|Hr].
  - pose proof (strict_size (txs q) (txs p) id H1 ltac:(rewrite (pt_txs D q H); by rewrite decide_False) Hr). lia.
  - pose proof (strict_size (covenant_txs q) (covenant_txs p) id H2 ltac:(rewrite (pt_covenants D q H); by rewrite decide_False) Hr). lia.
Qed.
Lemma insert_covenant_eq q tx fee :
  ct_inputs tx <> [] -> covenant_txs q !! covenant_tx_id tx = None -> len q < max_size q ->
  claim_outpoints (reserved q) (ct_outpoints tx) = Ok (list_to_set (ct_outpoints tx)) ->
  insert_covenant covenant_tx_id tx fee q = (Ok (covenant_tx_id tx), put_covenant (covenant_tx_id tx) tx fee (list_to_set (ct_outpoints tx)) q).
Proof.
  intros Hi Hnew Hroom Hclaim. unfold insert_covenant, pbind, require, contains_covenant. rewrite (bool_decide_false (ct_inputs tx = [])) by done.
  simpl. rewrite Hnew. simpl. rewrite make_room_free by done. unfold plift. by rewrite Hclaim.
Qed.

Lemma part_insert {A} (m m' : gmap Hash A) (D : gset Hash) id x :
  m !! id = Some x -> (forall j, m' !! j = if decide (j ∈ D) then m !! j else None) ->
  forall j, <[id := x]> m' !! j = if decide (j ∈ {[id]} ∪ D) then m !! j else None.
Proof.
  intros Hx Hm j. destruct (decide (j = id)) as [->|Hj].
  - rewrite lookup_insert_eq, decide_True by set_solver. done.
  - rewrite lookup_insert_ne, Hm by done. case_decide; [rewrite decide_True by set_solver|rewrite decide_False by set_solver]; done.
Qed.
Lemma part_same {A} (m m' : gmap Hash A) (D : gset Hash) id :
  m !! id = None -> (forall j, m' !! j = if decide (j ∈ D) then m !! j else None) ->
  forall j, m' !! j = if decide (j ∈ {[id]} ∪ D) then m !! j else None.
Proof.
  intros Hx Hm j. rewrite Hm. destruct (decide (j = id)) as [->|Hj].
  - rewrite Hx. by repeat case_decide.
  - case_decide; [rewrite decide_True by set_solver|rewrite decide_False by set_solver]; done.
Qed.

Lemma restore_tlt_part D q id tx fee :
  part D q -> id ∉ D -> txs p !! id = Some tx -> fees p !! id = Some fee ->
  part ({[id]} ∪ D) (restore_tlt tx_id q (tx, fee, bool_decide (id ∈ rbf_opt_in p))).
Proof.
  intros H Hid Htx Hfee. pose proof (to_tx_id _ _ p Hok id tx Htx) as Heq. pose proof (to_wf _ _ p Hok id tx Htx) as Hwf.
  assert (Hnew : txs q !! tx_id tx = None) by (rewrite (pt_txs D q H), <- Heq; by rewrite decide_False).
  assert (Hroom : len q < max_size q) by (apply (part_room D q id H Hid); left; by eexists).
  assert (Hclaim : claim_outpoints (reserved q) (tx_outpoints tx) = Ok (list_to_set (tx_outpoints tx))).
  { apply claim_outpoints_Ok. rewrite <- (spends_tx p id tx Htx). split_and!; [done|apply (to_nodup _ _ p Hok)|].
    intros op. by apply (part_free D q). }
  assert (Hadm : admit_priced tx_id tx fee q = (Ok id, put_tx id tx fee (list_to_set (tx_outpoints tx)) q)).
  { rewrite admit_priced_eq, make_room_free, Hclaim by done. by rewrite Heq. }
  assert (Hres : exists r, restore_tlt tx_id q (tx, fee, bool_decide (id ∈ rbf_opt_in p)) = r /\
    r = (if bool_decide (id ∈ rbf_opt_in p) then opt_in id else fun q => q) (put_tx id tx fee (list_to_set (tx_outpoints tx)) q)).
  { eexists. split; [reflexivity|]. unfold restore_tlt, attempt. destruct (bool_decide _).
    - unfold admit_priced_opt_in, pbind, gets. rewrite Hadm. unfold contains_tx. rewrite Hnew. done.
    - by rewrite Hadm. }
  destruct Hres as (r & -> & Hr). assert (Hput : tlt_ok r).
  { rewrite Hr. assert (Hp1 : tlt_ok (put_tx id tx fee (list_to_set (tx_outpoints tx)) q)).
    { rewrite Heq. apply put_tx_ok; try done; [apply H|..].
      - by apply claim_outpoints_Ok in Hclaim as (_ & ? & _).
      - by apply claim_outpoints_Ok in Hclaim as (_ & _ & ?). }
    destruct (bool_decide _); [|done]. apply opt_in_ok; [done|]. simpl. rewrite lookup_insert_eq. by eexists. }
  assert (Hcov : covenant_txs p !! id = None).
  { destruct (covenant_txs p !! id) as [c|] eqn:E; [|done]. by destruct (apart_lookup _ _ ids_apart p id tx c Hok Htx E). }
  assert (Hm : txs r = <[id := tx]> (txs q) /\ covenant_txs r = covenant_txs q /\ fees r = <[id := fee]> (fees q) /\ max_size r = max_size q /\
    pending r = pending q /\ rbf_opt_in r = (if bool_decide (id ∈ rbf_opt_in p) then {[id]} ∪ rbf_opt_in q else rbf_opt_in q)).
  { rewrite Hr. by destruct (bool_decide _). }
  destruct Hm as (H1 & H2 & H3 & H4 & H5 & H6).
  split; [done|rewrite H4; apply H|rewrite H5; apply H|rewrite H1|rewrite H2|rewrite H3|rewrite H6].
  - by apply part_insert, H.
  - by apply part_same, H.
  - by apply part_insert, H.
  - intros j. pose proof (pt_opt_in D q H j). case_bool_decide; set_solver.
Qed.
Lemma restore_covenant_part D q id tx fee :
  part D q -> id ∉ D -> covenant_txs p !! id = Some tx -> fees p !! id = Some fee ->
  part ({[id]} ∪ D) (restore_covenant covenant_tx_id q (tx, fee)).
Proof.
  intros H Hid Htx Hfee. pose proof (to_covenant_id _ _ p Hok id tx Htx) as Heq. pose proof (to_covenant_wf _ _ p Hok id tx Htx) as Hwf.
  assert (Hnew : covenant_txs q !! covenant_tx_id tx = None) by (rewrite (pt_covenants D q H), <- Heq; by rewrite decide_False).
  assert (Hroom : len q < max_size q) by (apply (part_room D q id H Hid); right; by eexists).
  assert (Hclaim : claim_outpoints (reserved q) (ct_outpoints tx) = Ok (list_to_set (ct_outpoints tx))).
  { apply claim_outpoints_Ok. rewrite <- (spends_covenant _ _ ids_apart p id tx Hok Htx). split_and!; [done|apply (to_nodup _ _ p Hok)|].
    intros op. by apply (part_free D q). }
  assert (Htn : txs p !! id = None).
  { destruct (txs p !! id) as [t|] eqn:E; [|done]. by destruct (apart_lookup _ _ ids_apart p id t tx Hok E Htx). }
  assert (Hno : id ∉ rbf_opt_in p) by (intros Hin; apply (to_opt_in _ _ p Hok) in Hin; rewrite Htn in Hin; by destruct Hin).
  unfold restore_covenant, attempt, admit_covenant. simpl. rewrite insert_covenant_eq by done. simpl. rewrite <- Heq.
  split; simpl; [rewrite Heq|apply H|apply H|by apply part_same, H|by apply part_insert, H|by apply part_insert, H|].
  - apply put_covenant_ok; try done; [apply H|by apply claim_outpoints_Ok in Hclaim as (_ & ? & _)|by apply claim_outpoints_Ok in Hclaim as (_ & _ & ?)].
  - intros j. pose proof (pt_opt_in D q H j). set_solver.
Qed.
Lemma resident_fee id : is_Some (txs p !! id) \/ is_Some (covenant_txs p !! id) -> fees p !! id = Some (default 0 (fees p !! id)).
Proof. intros H. apply (to_fees _ _ p Hok) in H as [f Hf]. by rewrite Hf. Qed.
Lemma restore_all_tlt l D q :
  part D q -> NoDup l.*1 -> (forall e, e ∈ l -> txs p !! e.1 = Some e.2 /\ e.1 ∉ D) ->
  part (list_to_set l.*1 ∪ D)
    (foldl (restore_tlt tx_id) q ((fun e => (e.2, default 0 (fees p !! e.1), bool_decide (e.1 ∈ rbf_opt_in p))) <$> l)).
Proof.
  revert D q. induction l as [|[id tx] l IH]; intros D q H Hnd Hin; [simpl; by rewrite (left_id_L ∅ (∪))|].
  rewrite !fmap_cons in *. rewrite list_to_set_cons. cbn [foldl fst snd] in *. apply NoDup_cons in Hnd as [Hid Hnd]. destruct (Hin (id, tx)) as [Htx HD]; [by left|]. simpl in Htx, HD.
  replace ({[id]} ∪ list_to_set l.*1 ∪ D) with (list_to_set l.*1 ∪ ({[id]} ∪ D)) by set_solver.
  apply IH; [|done|].
  - apply restore_tlt_part; try done. apply resident_fee. left. by eexists.
  - intros e He. destruct (Hin e) as [H1 H2]; [by right|]. split; [done|].
    rewrite not_elem_of_union, not_elem_of_singleton. split; [|done]. intros Heq. apply Hid. rewrite <- Heq. by apply list_elem_of_fmap_2.
Qed.
Lemma restore_all_covenants l D q :
  part D q -> NoDup l.*1 -> (forall e, e ∈ l -> covenant_txs p !! e.1 = Some e.2 /\ e.1 ∉ D) ->
  part (list_to_set l.*1 ∪ D) (foldl (restore_covenant covenant_tx_id) q ((fun e => (e.2, default 0 (fees p !! e.1))) <$> l)).
Proof.
  revert D q. induction l as [|[id tx] l IH]; intros D q H Hnd Hin; [simpl; by rewrite (left_id_L ∅ (∪))|].
  rewrite !fmap_cons in *. rewrite list_to_set_cons. cbn [foldl fst snd] in *. apply NoDup_cons in Hnd as [Hid Hnd]. destruct (Hin (id, tx)) as [Htx HD]; [by left|]. simpl in Htx, HD.
  replace ({[id]} ∪ list_to_set l.*1 ∪ D) with (list_to_set l.*1 ∪ ({[id]} ∪ D)) by set_solver.
  apply IH; [|done|].
  - apply restore_covenant_part; try done. apply resident_fee. right. by eexists.
  - intros e He. destruct (Hin e) as [H1 H2]; [by right|]. split; [done|].
    rewrite not_elem_of_union, not_elem_of_singleton. split; [|done]. intros Heq. apply Hid. rewrite <- Heq. by apply list_elem_of_fmap_2.
Qed.
Lemma part_new : 0 <= max_size p -> part ∅ (new (max_size p)).
Proof.
  intros Hm. split; try done; [by apply new_ok|intros j..]; simpl; rewrite ?decide_False by set_solver; rewrite ?lookup_empty; try done. set_solver.
Qed.
(** With every resident back, the pools agree. *)
Lemma part_all D q :
  part D q -> (forall j, is_Some (txs p !! j) \/ is_Some (covenant_txs p !! j) -> j ∈ D) ->
  txs q = txs p /\ covenant_txs q = covenant_txs p /\ fees q = fees p /\ rbf_opt_in q = rbf_opt_in p /\ reserved q = reserved p.
Proof.
  intros H HD.
  assert (Ht : txs q = txs p).
  { apply map_eq. intros j. rewrite (pt_txs D q H). case_decide as Hj; [done|]. symmetry. apply eq_None_not_Some. intros Hs. by apply Hj, HD; left. }
  assert (Hc : covenant_txs q = covenant_txs p).
  { apply map_eq. intros j. rewrite (pt_covenants D q H). case_decide as Hj; [done|]. symmetry. apply eq_None_not_Some. intros Hs. by apply Hj, HD; right. }
  split_and!; [done|done| | |].
  - apply map_eq. intros j. rewrite (pt_fees D q H). case_decide as Hj; [done|]. symmetry. apply eq_None_not_Some. intros Hs. by apply Hj, HD, (to_fees _ _ p Hok).
  - apply set_eq. intros j. rewrite (pt_opt_in D q H). split; [by intros []|]. intros Hj. split; [|done]. apply HD. left. by apply (to_opt_in _ _ p Hok).
  - apply set_eq. intros op. rewrite (to_reserved _ _ q (pt_ok D q H)), (to_reserved _ _ p Hok). unfold spends. by rewrite Ht, Hc.
Qed.
End restoring.

(** C32: A restart keeps the TLT pool.  Writing a sound pool to its durable form and
    admitting it again gives a sound pool of the same size limit with the same
    transfers and covenant spends, at the same fees, with the same opt-ins and
    the same reserved outpoints: re-admission evicts and refuses none of them. *)
Theorem snapshot_roundtrip p fallback_max :
  pool_ok tx_id covenant_tx_id lane_id p -> max_size p <> 0 ->
  let q := restore_snapshot tx_id covenant_tx_id lane_id asset_key (snapshot asset_key p) fallback_max in
  pool_ok tx_id covenant_tx_id lane_id q /\ max_size q = max_size p /\ txs q = txs p /\ covenant_txs q = covenant_txs p /\
  fees q = fees p /\ rbf_opt_in q = rbf_opt_in p /\ reserved q = reserved p.
Proof.
  intros [Hok Hl] Hmax q. pose proof (to_size _ _ p Hok) as Hsize. assert (0 <= max_size p) by (unfold len in Hsize; lia).
  unfold q, restore_snapshot. change (ds_max_size (snapshot asset_key p)) with (max_size p). apply Z.eqb_neq in Hmax as ->.
  assert (H1 : part p (list_to_set (map_to_list (txs p)).*1 ∪ ∅) (foldl (restore_tlt tx_id) (new (max_size p)) (ds_tlt (snapshot asset_key p)))).
  { apply restore_all_tlt; [done|by apply part_new|apply NoDup_fst_map_to_list|]. intros [j t]. rewrite elem_of_map_to_list. set_solver. }
  rewrite (right_id_L ∅ (∪)) in H1.
  apply (restore_all_covenants p Hok (map_to_list (covenant_txs p))) in H1; [|apply NoDup_fst_map_to_list|].
  2:{ intros [j c]. rewrite elem_of_map_to_list. intros Hj. split; [done|]. rewrite elem_of_list_to_set. intros ([i t] & Hi & Hin)%list_elem_of_fmap.
      rewrite elem_of_map_to_list in Hin. simpl in *. subst i. by destruct (apart_lookup _ _ ids_apart p j t c Hok Hin Hj). }
  apply (part_all p Hok) in H1 as Hall.
  2:{ intros j Hj. rewrite elem_of_union, !elem_of_list_to_set. destruct Hj as [[t Ht]|[c Hc]]; [right|left].
      - apply list_elem_of_fmap. exists (j, t). by rewrite elem_of_map_to_list.
      - apply list_elem_of_fmap. exists (j, c). by rewrite elem_of_map_to_list. }
  set (s := snapshot asset_key p) in *.
  change (foldl (restore_covenant covenant_tx_id) _ _) with
    (foldl (restore_covenant covenant_tx_id) (foldl (restore_tlt tx_id) (new (max_size p)) (ds_tlt s)) (ds_covenants s)) in *.
  revert H1 Hall. generalize (foldl (restore_covenant covenant_tx_id) (foldl (restore_tlt tx_id) (new (max_size p)) (ds_tlt s)) (ds_covenants s)) as e.
  intros e H1 (E1 & E2 & E3 & E4 & E5).
  assert (He : pool_ok tx_id covenant_tx_id lane_id e).
  { split; [apply H1|]. intros l id t. rewrite (pt_pending _ _ _ H1). by rewrite lookup_empty. }
  assert (Ha : admits lane_id e (foldl (restore_lane lane_id asset_key s) e all_lanes)).
  { generalize all_lanes as ls. clear. induction ls as [|l ls IH] using rev_ind; [by split|]. rewrite foldl_app. simpl.
    destruct IH as (A1 & A2 & A3). destruct (restore_lane_admits lane_id asset_key s l (foldl (restore_lane lane_id asset_key s) e ls)) as (B1 & B2 & B3).
    split_and!; [by etrans|auto|auto]. }
  split; [by eapply admits_ok|]. destruct Ha as ([F1 F2 F3 F4 F5 F6] & _). pose proof (pt_max _ _ _ H1).
  revert F1 F2 F3 F4 F5 F6. generalize (foldl (restore_lane lane_id asset_key s) e all_lanes). intros. split_and!; congruence.
Qed.
End persist.
