(* ===== verification/MempoolExamples.v ===== *)
(** * Concrete mempools

    Small pools that meet the hypotheses of the mempool theorems, and a history
    in which a block leaves a stale operation behind. *)

From stdpp Require Import base gmap list fin_maps strings sorting.
From Stdlib Require Import ZArith Lia.
From S2P Require Import Prelude Ordering Sums Types Finality Store Supply Accounts Staking Objects Policy Authority Escrow Check Channel Trust Offer TltScript Payment Envelopes Mempool MempoolProps MempoolRun MempoolBlock MempoolPersist.
Local Open Scope Z_scope.

(** Ids by nonce: even for transfers, odd for covenants; lanes by their index. *)
Definition ex_tx_id (t : Transaction) : Hash := 2 * tx_nonce t.
Definition ex_covenant_id (c : TltCovenantTx) : Hash := 2 * ct_nonce c + 1.
Definition ex_lane_id (t : LaneTx) : Hash := Z.of_nat (lane_index (lane_of t)).
Definition ex_asset_key (_ : IssuedAssetId) : Hash := 0.
Lemma ex_apart tx c : ex_tx_id tx <> ex_covenant_id c.
Proof. unfold ex_tx_id, ex_covenant_id. lia. Qed.
Definition ex_op (n : Z) : OutPoint := {| op_tx := 1000; op_index := n |}.
Definition ex_tx (n : Z) (ops : list Z) : Transaction :=
  {| tx_version := 1; inputs := (fun i => {| previous_outpoint := ex_op i |}) <$> ops; outputs := []; tx_nonce := n;
     tx_public_key := replicate 33 0; tx_signature := replicate 64 0 |}.
Definition ex_covenant (n : Z) (ops : list Z) : TltCovenantTx :=
  {| ct_version := 2; ct_inputs := (fun i => {| ci_previous_outpoint := ex_op i; ci_sequence := 0; ci_script_sig := [] |}) <$> ops;
     ct_outputs := []; ct_lock_time := 0; ct_nonce := n |}.
Abbreviation ex_run := (run_op ex_tx_id ex_covenant_id ex_lane_id ex_asset_key).
Abbreviation ex_pool_ok := (pool_ok ex_tx_id ex_covenant_id ex_lane_id).
(** Two transfers open to replacement and a covenant spend, in a pool of three. *)
Definition ex_pool : Mempool :=
  foldl ex_run (new 3) [OpAdmitOptIn (ex_tx 1 [1; 2]) 5 true; OpAdmitOptIn (ex_tx 2 [3]) 7 true; OpAdmitCovenant (ex_covenant 3 [4]) 9].
Lemma ex_pool_sound : ex_pool_ok ex_pool.
Proof. apply foldl_ok; [intros; apply run_op_ok; [apply ex_apart|done]|]. split; [by apply new_ok|]. intros l id t. simpl. by rewrite lookup_empty. Qed.
Example ex_pool_full : len ex_pool = 3.
Proof. reflexivity. Qed.

Lemma mempool_sound_witness : ex_pool_ok (foldl ex_run (new 3) [OpAdmitOptIn (ex_tx 1 [1; 2]) 5 true; OpReplace (ex_tx 2 [2]) 8; OpRestart 3]).
Proof. apply (mempool_sound ex_tx_id ex_covenant_id ex_lane_id ex_asset_key ex_apart 3). lia. Defined.
Lemma replacement_correct_witness :
  exists C q, replace_by_fee ex_tx_id (ex_tx 5 [2; 3]) 13 ex_pool = (Ok 10, q) /\ C = [2; 4] /\ txs q !! 10 = Some (ex_tx 5 [2; 3]) /\ txs q !! 2 = None.
Proof.
  destruct (replace_by_fee ex_tx_id (ex_tx 5 [2; 3]) 13 ex_pool) as [r q] eqn:E.
  assert (Hr : r = Ok 10) by (change r with (r, q).1; rewrite <- E; vm_compute; reflexivity). subst r.
  destruct (replacement_correct ex_tx_id ex_covenant_id ex_apart ex_pool _ _ _ _ (proj1 ex_pool_sound) E) as (C & HC & _ & _ & _ & _ & Ht & _).
  exists C, q. split; [done|]. rewrite (rp_conflicts _ _ _ _ _ HC). split; [vm_compute; reflexivity|]. split.
  - apply Ht. by left.
  - apply eq_None_not_Some. intros [t Hin]. apply Ht in Hin as [[? _]|(_ & Hn & _)]; [done|]. apply Hn.
    rewrite (rp_conflicts _ _ _ _ _ HC). vm_compute. left.
Defined.
Lemma ex_replaceable : replaceable ex_tx_id ex_pool (ex_tx 5 [3; 4]) 13 [4].
Proof.
  split; try (vm_compute; reflexivity); try done.
  - by apply (bool_decide_unpack _); vm_compute.
  - vm_compute. lia.
  - intros c ->%list_elem_of_singleton. by apply (bool_decide_unpack _); vm_compute.
  - assert (Hall : map_Forall (fun (_ : Hash) t => Forall (fun op => op_tx op <> 4) (tx_outpoints t)) (txs ex_pool)) by (by apply (bool_decide_unpack _); vm_compute).
    intros j t op Ht Hop H%list_elem_of_singleton. specialize (Hall j t Ht). rewrite Forall_forall in Hall. by destruct (Hall op Hop).
Qed.
Lemma failed_replacement_loses_witness :
  replace_by_fee ex_tx_id (ex_tx 5 [3; 4]) 13 ex_pool = (Err (MempoolRejected "double spend"), remove_all [4] ex_pool) /\
  is_Some (txs ex_pool !! 4) /\ txs (remove_all [4] ex_pool) !! 4 = None.
Proof.
  destruct (failed_replacement_loses ex_tx_id ex_covenant_id ex_apart ex_pool (ex_tx 5 [3; 4]) 13 [4] (ex_op 4) 7 (ex_covenant 3 [4]))
    as (H1 & _ & H2); [apply ex_pool_sound| |vm_compute; discriminate|apply ex_replaceable|by apply (bool_decide_unpack _); vm_compute|
      vm_compute; reflexivity|by apply (bool_decide_unpack _); vm_compute|].
  - assert (Hall : map_Forall (fun (_ : Hash) f => 0 <= f) (fees ex_pool)) by (by apply (bool_decide_unpack _); vm_compute). exact Hall.
  - split; [done|]. apply H2. left.
Defined.
Lemma rejected_spend_evicts_witness :
  exists q, admit_priced ex_tx_id (ex_tx 6 [3; 8]) 6 ex_pool = (Err (MempoolRejected "double spend"), q) /\ fees q = delete 2 (fees ex_pool).
Proof.
  destruct (rejected_spend_evicts ex_tx_id ex_covenant_id ex_apart ex_pool (ex_tx 6 [3; 8]) 6 2 5 (ex_op 3) 4) as (q & H1 & _ & H2 & _);
    try done; try apply ex_pool_sound; try (vm_compute; reflexivity); try (by apply (bool_decide_unpack _); vm_compute).
  by exists q.
Defined.
Lemma fee_market_witness :
  match admit_priced ex_tx_id (ex_tx 6 [8]) 6 ex_pool with
  | (Ok id, q) => id = 12 /\ len q = max_size q /\ exists v low, fees ex_pool !! v = Some low /\ low < 6 /\ fees q = <[12 := 6]> (delete v (fees ex_pool))
  | (Err _, _) => False
  end.
Proof.
  pose proof (fee_market ex_tx_id ex_covenant_id ex_apart ex_pool (ex_tx 6 [8]) 6 (proj1 ex_pool_sound) eq_refl ltac:(vm_compute; done) eq_refl
    ltac:(by apply (bool_decide_unpack _); vm_compute)) as H.
  destruct (admit_priced ex_tx_id (ex_tx 6 [8]) 6 ex_pool) as [[id|e] q] eqn:E.
  - destruct H as (H1 & _ & H2 & _ & v & low & Hv & Hlow & _ & Hf & _).
    + intros op ->%list_elem_of_singleton. by apply (bool_decide_unpack _); vm_compute.
    + subst id. split; [done|]. split; [done|]. by exists v, low.
  - exfalso. assert (Hc : (admit_priced ex_tx_id (ex_tx 6 [8]) 6 ex_pool).1 = Err e) by (by rewrite E). vm_compute in Hc. discriminate.
Defined.
Lemma template_selection_witness :
  select_transfers ex_tx_id 1 ex_pool = [ex_tx 2 [3]] /\
  forall tx fee i t f, (tx, fee) ∈ pending_entries ex_tx_id 1 ex_pool -> txs ex_pool !! i = Some t -> t ∉ select_transfers ex_tx_id 1 ex_pool ->
    fees ex_pool !! i = Some f -> f <= fee.
Proof.
  split; [vm_compute; reflexivity|]. apply (template_selection ex_tx_id ex_covenant_id ex_apart ex_pool 1 1), ex_pool_sound.
Defined.
(** A block that spends one of the first transfer's inputs and includes the covenant. *)
Definition ex_block : PoolBlock := {| pb_transactions := [ex_tx 20 [1]]; pb_tlt_covenants := [ex_covenant 3 [4]]; pb_ops := [] |}.
Lemma block_eviction_witness :
  let q := evict_for_block ex_tx_id ex_covenant_id ex_lane_id ex_asset_key ex_block ex_pool in
  ex_pool_ok q /\ txs q !! 2 = None /\ txs q !! 4 = Some (ex_tx 2 [3]) /\ covenant_txs q !! 7 = None.
Proof.
  destruct (block_eviction ex_tx_id ex_covenant_id ex_lane_id ex_asset_key ex_block ex_pool ex_apart ex_pool_sound) as (H & _).
  intros q. split; [exact H|]. vm_compute. done.
Defined.
Lemma snapshot_roundtrip_witness :
  let q := restore_snapshot ex_tx_id ex_covenant_id ex_lane_id ex_asset_key (snapshot ex_asset_key ex_pool) 10 in
  max_size q = 3 /\ txs q = txs ex_pool /\ reserved q = reserved ex_pool.
Proof.
  destruct (snapshot_roundtrip ex_tx_id ex_covenant_id ex_lane_id ex_asset_key ex_apart ex_pool 10 ex_pool_sound) as (_ & H1 & H2 & _ & _ & _ & H3);
    [vm_compute; discriminate|]. intros q. split; [exact (eq_trans H1 eq_refl)|]. split; [exact H2|exact H3].
Defined.

(** An escrow of account 7 waits on its nonce, a block consumes that nonce with a
    transfer, and a policy change of account 7 arrives. *)
Definition ex_escrow : DrcEscrowCreateTx :=
  {| ec_version := 1; ec_owner := 7; ec_recipient := 8; ec_amount := 10; ec_fee := 1; ec_destination_tag := None; ec_source_tag := None;
     ec_invoice_id := 0; ec_finish_after := Some 5; ec_cancel_after := None; ec_nonce := 0; ec_account_sequence := None;
     ec_public_key := []; ec_signature := [] |}.
Definition ex_transfer : AccountTransfer :=
  {| at_tx_version := 1; at_asset := DRC; at_from := 7; at_to := 9; at_amount := 1; at_fee := 1; at_nonce := 0; at_account_sequence := None;
     at_public_key := []; at_tx_signature := [] |}.
Definition ex_policy : DrcAccountPolicyTx :=
  {| pt_version := 1; pt_account := 7; pt_action := SetRequireDestinationTag; pt_fee := 1; pt_nonce := 1; pt_account_sequence := None;
     pt_public_key := []; pt_signature := [] |}.
Definition ex_transfer_block : PoolBlock := {| pb_transactions := []; pb_tlt_covenants := []; pb_ops := [AccountL ex_transfer] |}.

(** (finding) A block that consumes an account's nonce evicts its pending
    payments, policies and transfers, but not its pending escrows, checks,
    channels, trust lines or offers: here the escrow of a nonce that no longer
    exists stays in the pool while the account's reservation is freed, so the
    account's next operation is admitted beside it, and taking the escrow out
    then frees the reservation of that other operation. *)
Theorem stale_escrow_survives_block :
  let p0 := foldl ex_run (new 10) [OpLane (EscrowCreateL ex_escrow)] in
  let p1 := ex_run p0 (OpBlock ex_transfer_block) in
  let p2 := ex_run p1 (OpLane (PolicyL ex_policy)) in
  let p3 := remove_drc_escrow_create (ex_lane_id (EscrowCreateL ex_escrow)) p2 in
  consumed_account (EscrowCreateL ex_escrow) = consumed_account (AccountL ex_transfer) /\
  marked (ReservedAccount DRC 7) p0 = true /\
  resident LEscrowCreate (ex_lane_id (EscrowCreateL ex_escrow)) p1 = true /\ marked (ReservedAccount DRC 7) p1 = false /\
  resident LEscrowCreate (ex_lane_id (EscrowCreateL ex_escrow)) p2 = true /\ resident LPolicy (ex_lane_id (PolicyL ex_policy)) p2 = true /\
  marked (ReservedAccount DRC 7) p2 = true /\
  resident LPolicy (ex_lane_id (PolicyL ex_policy)) p3 = true /\ marked (ReservedAccount DRC 7) p3 = false.
Proof. vm_compute. by split_and!. Qed.
