(* ===== verification/Treasury.v ===== *)
(** * Treasuries and vesting ([state-machine/src/governance_state.rs])

    The consensus part of governance: the three protocol treasuries, each in its
    own asset, their controllers and spend nonces, and the vesting schedules of
    Block 0 with what has been unlocked of each.  Two lanes of
    [apply_trident_lanes] spend from them; the records they overwrite are
    journaled as [passport_meta_before].

    The records under the governance prefixes of the Meta column family are one
    map from [GovKey] to [GovRecord]; a [GovWorld] holds it beside the typed
    records of [Store] and the Utxo column family, and a batch is the ordered
    list of writes to the three.  Signature verification, the ids (hashes of the
    envelopes and of a schedule) and the hashes of the constitution and of the
    authorization policy are parameters. *)

From stdpp Require Import base gmap list fin_maps strings.
From Stdlib Require Import ZArith Lia.
From S2P Require Import Prelude Ordering Sums Types Finality Store Utxo Supply Accounts Staking StakingProps Lanes Authority Policy Objects Envelopes.
Local Open Scope Z_scope.

(** ** Types ([types/src/treasury.rs], [types/src/vesting.rs], [block_zero.rs]) *)

#[export] Instance TreasuryId_eq_dec : EqDecision TreasuryId.
Proof. solve_decision. Defined.
Definition all_treasuries : list TreasuryId := [TltSecurity; OvlBuilder; DrcCommunity].
Definition treasury_asset (t : TreasuryId) : NativeAssetId :=
  match t with TltSecurity => TLT | OvlBuilder => OVL | DrcCommunity => DRC end.

Record TreasuryBalance := { tb_treasury : TreasuryId; tb_asset : NativeAssetId; tb_balance : Z }.
Definition new_treasury_balance (t : TreasuryId) (asset : NativeAssetId) (balance_ : Z)
  : result string TreasuryBalance :=
  ensure (bool_decide (treasury_asset t = asset)) "treasury requires another asset"%string ;?
  Ok {| tb_treasury := t; tb_asset := asset; tb_balance := balance_ |}.

Record BlockZeroVesting := {
  bv_asset : NativeAssetId;
  bv_address : Address;
  bv_amount : Z;
  bv_start : Z;
  bv_cliff : Z;
  bv_end : Z;
}.
(** Linear vest after [start]; nothing before [cliff].  The product is taken in
    128 bits and the quotient cast back. *)
Definition vested_amount_at (amount start cliff end_ now_ms : Z) : Z :=
  if (now_ms <? cliff) || (end_ <=? start) then 0
  else if end_ <=? now_ms then amount
  else
    let elapsed := saturating_sub now_ms start in
    let span := end_ - start in
    as_u64 (amount * elapsed / span).

(** [CanonicalGovernancePolicy]; the id is one of two literals. *)
Definition CANONICAL_GOVERNANCE_VERSION : Z := 1.
Inductive ConstitutionId := ConstitutionV1 | GenesisArtifact.
Record CanonicalGovernancePolicy := {
  gp_version : Z;
  gp_constitution_id : ConstitutionId;
  gp_constitution_hash : Hash;
  gp_authorization_root : Hash;
}.

(** ** Records and batches *)

Inductive GovKey :=
| KPolicy
| KTreasury (t : Z)
| KControl (t : Z)
| KController (t : Z)
| KTreasuryNonce (t : Z)
| KDisbursement (id : Hash)
| KEmergency
| KVesting
| KUnlocked (schedule : Hash)
| KVestingNonce (beneficiary : Address)
| KClaim (id : Hash).
#[export] Instance GovKey_eq_dec : EqDecision GovKey.
Proof. solve_decision. Defined.
#[export] Instance GovKey_countable : Countable GovKey.
Proof.
  apply (inj_countable'
    (fun k => match k with
      | KPolicy => (0%nat, 0) | KTreasury t => (1%nat, t) | KControl t => (2%nat, t) | KController t => (3%nat, t)
      | KTreasuryNonce t => (4%nat, t) | KDisbursement i => (5%nat, i) | KEmergency => (6%nat, 0) | KVesting => (7%nat, 0)
      | KUnlocked i => (8%nat, i) | KVestingNonce a => (9%nat, a) | KClaim i => (10%nat, i) end)
    (fun p => match p with
      | (0%nat, _) => KPolicy | (1%nat, t) => KTreasury t | (2%nat, t) => KControl t | (3%nat, t) => KController t
      | (4%nat, t) => KTreasuryNonce t | (5%nat, i) => KDisbursement i | (6%nat, _) => KEmergency | (7%nat, _) => KVesting
      | (8%nat, i) => KUnlocked i | (9%nat, a) => KVestingNonce a | (_, i) => KClaim i end)).
  by intros [].
Defined.

Inductive GovRecord :=
| RPolicy (p : CanonicalGovernancePolicy)
| RTreasury (b : TreasuryBalance)
| RControl (s : list Z)
| RAddress (a : Address)
| RU64 (n : Z)
| RDisbursement (s : TreasuryDisbursement)
| RHash (h : Hash)
| RVesting (l : list BlockZeroVesting)
| RClaim (c : VestingUnlock).

Record GovWorld := {
  gw_store : StateStore;
  gw_gov : gmap GovKey GovRecord;
  gw_utxos : UtxoSet;
}.
Inductive GovOp :=
| GMeta (op : WriteOp)
| GGov (key : GovKey) (v : option GovRecord)
| GUtxo (op : UtxoOp).
Definition apply_gov_op (w : GovWorld) (op : GovOp) : GovWorld :=
  match op with
  | GMeta o => {| gw_store := apply_op (gw_store w) o; gw_gov := gw_gov w; gw_utxos := gw_utxos w |}
  | GGov k v => {| gw_store := gw_store w; gw_gov := partial_alter (fun _ => v) k (gw_gov w); gw_utxos := gw_utxos w |}
  | GUtxo o => {| gw_store := gw_store w; gw_gov := gw_gov w; gw_utxos := apply_utxo_op (gw_utxos w) o |}
  end.
Definition write_gov (w : GovWorld) (b : list GovOp) : GovWorld := foldl apply_gov_op w b.

(** [snapshot_meta_keys]: the writes that put the records back. *)
Definition snapshot_gov (w : GovWorld) (keys : list (MetaKey + GovKey)) : list GovOp :=
  (fun k => match k with inl m => GMeta (snapshot_op (gw_store w) m) | inr g => GGov g (gw_gov w !! g) end) <$> keys.

(** ** Reading and writing the records *)

Definition malformed {A} : result StateError A := Err (Storage "malformed record").
Definition load_treasury_controller (w : GovWorld) (t : TreasuryId) : result StateError (option Address) :=
  match gw_gov w !! KController (treasury_wire_byte t) with
  | None => Ok None | Some (RAddress a) => Ok (Some a) | _ => malformed
  end.
Definition load_u64 (w : GovWorld) (k : GovKey) : result StateError Z :=
  match gw_gov w !! k with None => Ok 0 | Some (RU64 n) => Ok n | _ => malformed end.
Definition load_treasury_nonce (w : GovWorld) (t : TreasuryId) : result StateError Z :=
  load_u64 w (KTreasuryNonce (treasury_wire_byte t)).
Definition load_vesting_unlocked (w : GovWorld) (schedule_id : Hash) : result StateError Z :=
  load_u64 w (KUnlocked schedule_id).
Definition load_vesting_nonce (w : GovWorld) (a : Address) : result StateError Z := load_u64 w (KVestingNonce a).
Definition load_vesting_schedules (w : GovWorld) : result StateError (list BlockZeroVesting) :=
  match gw_gov w !! KVesting with None => Ok [] | Some (RVesting l) => Ok l | _ => malformed end.
Definition load_emergency_policy_hash (w : GovWorld) : result StateError Hash :=
  match gw_gov w !! KEmergency with None => Ok 0 | Some (RHash h) => Ok h | _ => malformed end.
Definition load_treasury_controls (w : GovWorld) : result StateError (list (Z * list Z)) :=
  rfold (fun acc t =>
    match gw_gov w !! KControl (treasury_wire_byte t) with
    | None => Ok acc | Some (RControl s) => Ok (acc ++ [(treasury_wire_byte t, s)]) | _ => malformed
    end) [] all_treasuries.
Definition load_protocol_treasury (w : GovWorld) (t : TreasuryId) : result StateError TreasuryBalance :=
  match gw_gov w !! KTreasury (treasury_wire_byte t) with
  | None => lift_msg (new_treasury_balance t (treasury_asset t) 0)
  | Some (RTreasury b) =>
      ensure (bool_decide (tb_treasury b = t) && bool_decide (tb_asset b = treasury_asset t))
        (Storage "corrupt protocol treasury asset identity") ;?
      Ok b
  | _ => malformed
  end.
Definition load_protocol_treasuries (w : GovWorld) : result StateError (list TreasuryBalance) :=
  rfold (fun acc t => let? b := load_protocol_treasury w t in Ok (acc ++ [b])) [] all_treasuries.
Definition load_treasury_disbursement (w : GovWorld) (id : Hash) : result StateError (option TreasuryDisbursement) :=
  match gw_gov w !! KDisbursement id with None => Ok None | Some (RDisbursement s) => Ok (Some s) | _ => malformed end.
Definition load_vesting_unlock (w : GovWorld) (id : Hash) : result StateError (option VestingUnlock) :=
  match gw_gov w !! KClaim id with None => Ok None | Some (RClaim c) => Ok (Some c) | _ => malformed end.

Definition put_treasury_into (b : list GovOp) (t : TreasuryBalance) : result StateError (list GovOp) :=
  ensure (bool_decide (treasury_asset (tb_treasury t) = tb_asset t)) (InvalidTx "protocol treasury asset mismatch") ;?
  Ok (b ++ [GGov (KTreasury (treasury_wire_byte (tb_treasury t))) (Some (RTreasury t))]).
Definition put_treasury_controller_into (b : list GovOp) (t : TreasuryId) (controller : Address)
  : result StateError (list GovOp) :=
  ensure (negb (controller =? 0)) (InvalidTx "treasury controller must be nonzero") ;?
  Ok (b ++ [GGov (KController (treasury_wire_byte t)) (Some (RAddress controller))]).
(** [char::is_whitespace], on code points. *)
Definition is_whitespace (c : Z) : bool :=
  ((9 <=? c) && (c <=? 13)) || (c =? 32) || (c =? 133) || (c =? 160) || (c =? 5760) ||
  ((8192 <=? c) && (c <=? 8202)) || (c =? 8232) || (c =? 8233) || (c =? 8239) || (c =? 8287) || (c =? 12288).
Definition trim_is_empty (s : list Z) : bool := forallb is_whitespace s.
Definition put_treasury_control_into (b : list GovOp) (t : TreasuryId) (control : list Z)
  : result StateError (list GovOp) :=
  ensure (negb (trim_is_empty control)) (InvalidTx "protocol treasury control must be nonempty") ;?
  Ok (b ++ [GGov (KControl (treasury_wire_byte t)) (Some (RControl control))]).
Definition put_emergency_policy_hash_into (b : list GovOp) (h : Hash) : list GovOp :=
  b ++ [GGov KEmergency (Some (RHash h))].
Definition put_vesting_schedules_into (b : list GovOp) (l : list BlockZeroVesting) : list GovOp :=
  b ++ [GGov KVesting (Some (RVesting l))].

(** ** The lanes' journal *)

(** [UtxoJournal], with the parts the account, treasury and vesting lanes write. *)
Record GovJournal := {
  gj_lanes : LaneJournal;
  gj_created : list OutPoint;
  passport_meta_before : list GovOp;
}.
Definition empty_gov_journal : GovJournal :=
  {| gj_lanes := empty_journal; gj_created := []; passport_meta_before := [] |}.
Record GovLane := {
  gl_lane : GovWorld;
  gl_batch : list GovOp;
  gl_journal : GovJournal;
  gl_created_in_block : gmap OutPoint TxOut;
  gl_seen : list Hash;
}.

Section governance.
(** [verify_*_bound]: the signer's address. *)
Context {Auth : Type}.
Variable verify_treasury_disbursement_bound : TreasuryDisbursement -> Auth -> result string Address.
Variable verify_vesting_unlock_bound : VestingUnlock -> Auth -> result string Address.
Variable disbursement_id : TreasuryDisbursement -> Hash.
Variable unlock_id : VestingUnlock -> Hash.
Variable vesting_schedule_id : BlockZeroVesting -> Hash.
Variable constitution_v1_hash authorization_policy_root : Hash.

Definition default_policy : CanonicalGovernancePolicy :=
  {| gp_version := CANONICAL_GOVERNANCE_VERSION; gp_constitution_id := ConstitutionV1;
     gp_constitution_hash := constitution_v1_hash; gp_authorization_root := authorization_policy_root |}.
Definition load_canonical_governance_policy (w : GovWorld) : result StateError CanonicalGovernancePolicy :=
  match gw_gov w !! KPolicy with None => Ok default_policy | Some (RPolicy p) => Ok p | _ => malformed end.

Definition init_trident_governance_into (b : list GovOp) (constitution_hash emergency_policy_hash : Hash)
  (treasuries : list TreasuryBalance) (controls : list (TreasuryId * list Z)) (vesting : list BlockZeroVesting)
  : result StateError (list GovOp) :=
  ensure (negb ((constitution_hash =? 0) || (emergency_policy_hash =? 0)))
    (InvalidTx "Trident governance hashes must be nonzero") ;?
  let policy := {| gp_version := CANONICAL_GOVERNANCE_VERSION;
    gp_constitution_id := if constitution_hash =? constitution_v1_hash then ConstitutionV1 else GenesisArtifact;
    gp_constitution_hash := constitution_hash; gp_authorization_root := authorization_policy_root |} in
  let b := b ++ [GGov KPolicy (Some (RPolicy policy))] in
  let b := put_emergency_policy_hash_into b emergency_policy_hash in
  let? b := rfold put_treasury_into b treasuries in
  let? b := rfold (fun b c => put_treasury_control_into b c.1 c.2) b controls in
  Ok (put_vesting_schedules_into b vesting).
Definition init_canonical_governance_into (b : list GovOp) : result StateError (list GovOp) :=
  rfold (fun b t => let? tb := lift_msg (new_treasury_balance t (treasury_asset t) 0) in put_treasury_into b tb)
    (b ++ [GGov KPolicy (Some (RPolicy default_policy))]) all_treasuries.

Definition is_sorted_progress (x y : Hash * Z) : comparison := Z.compare x.1 y.1.
Definition load_vesting_progress (w : GovWorld) : result StateError (list (Hash * Z)) :=
  let? schedules := load_vesting_schedules w in
  let? progress := rfold (fun acc s =>
    let id := vesting_schedule_id s in
    let? unlocked := load_vesting_unlocked w id in
    Ok (if 0 <? unlocked then acc ++ [(id, unlocked)] else acc)) [] schedules in
  Ok (sort_by is_sorted_progress progress).

(** Paying out: an output for TLT, a credit otherwise. *)
Definition pay_out (pending : list GovOp) (w : GovWorld) (asset : NativeAssetId) (id : Hash) (to : Address) (amount : Z)
  : result StateError (list GovOp * option OutPoint) :=
  match asset with
  | TLT =>
      let op := {| op_tx := id; op_index := 0 |} in
      ensure (negb (bool_decide (is_Some (gw_utxos w !! op)))) (DuplicateOutpoint op) ;?
      Ok (pending ++ [GUtxo (UPut op {| out_value := amount; out_address := to |})], Some op)
  | _ =>
      let? credit := credit_account_into [] (gw_store w) asset to amount in
      Ok (pending ++ (GMeta <$> credit), None)
  end.

Definition apply_treasury_disbursement_into (b : list GovOp) (w : GovWorld) (spend : TreasuryDisbursement) (auth : Auth)
  : result StateError (list GovOp * option OutPoint) :=
  ensure (td_version spend =? 1) (InvalidTx "unsupported treasury disbursement version") ;?
  ensure (negb (td_beneficiary spend =? 0)) (InvalidTx "treasury beneficiary must be nonzero") ;?
  ensure (negb (td_amount spend =? 0)) (InvalidTx "treasury amount must be nonzero") ;?
  ensure (negb (td_reason_hash spend =? 0)) (InvalidTx "treasury reason hash must be nonzero") ;?
  let? signer := lift_msg (verify_treasury_disbursement_bound spend auth) in
  let? policy := load_canonical_governance_policy w in
  ensure (td_authorization_root spend =? gp_authorization_root policy) (InvalidTx "treasury authorization root mismatch") ;?
  let? loaded := load_treasury_controller w (td_treasury spend) in
  let? controller := ok_or (InvalidTx "treasury has no consensus controller") loaded in
  ensure (signer =? controller) (InvalidTx "treasury disbursement signer is not the controller") ;?
  let? current_nonce := load_treasury_nonce w (td_treasury spend) in
  ensure (td_nonce spend =? current_nonce) (InvalidTx "treasury nonce mismatch") ;?
  let id := disbursement_id spend in
  ensure (negb (bool_decide (is_Some (gw_gov w !! KDisbursement id)))) (InvalidTx "duplicate treasury disbursement") ;?
  let? bal := load_protocol_treasury w (td_treasury spend) in
  let? next_balance := ok_or (InvalidTx "treasury balance insufficient") (checked_sub (tb_balance bal) (td_amount spend)) in
  let? next_nonce := ok_or (InvalidTx "treasury nonce overflow") (checked_add u64_max current_nonce 1) in
  let? pending := put_treasury_into []
    {| tb_treasury := tb_treasury bal; tb_asset := tb_asset bal; tb_balance := next_balance |} in
  let pending := pending ++ [GGov (KTreasuryNonce (treasury_wire_byte (td_treasury spend))) (Some (RU64 next_nonce));
                             GGov (KDisbursement id) (Some (RDisbursement spend))] in
  let? (pending, created_) :=
    pay_out pending w (treasury_asset (td_treasury spend)) id (td_beneficiary spend) (td_amount spend) in
  Ok (b ++ pending, created_).

Definition apply_vesting_unlock_into (b : list GovOp) (w : GovWorld) (claim : VestingUnlock) (auth : Auth) (now_ms : Z)
  : result StateError (list GovOp * option OutPoint) :=
  ensure (vu_version claim =? 1) (InvalidTx "unsupported vesting unlock version") ;?
  ensure (negb (vu_beneficiary claim =? 0)) (InvalidTx "vesting beneficiary must be nonzero") ;?
  ensure (negb (vu_amount claim =? 0)) (InvalidTx "vesting amount must be nonzero") ;?
  let? signer := lift_msg (verify_vesting_unlock_bound claim auth) in
  ensure (signer =? vu_beneficiary claim) (InvalidTx "vesting unlock signer is not the beneficiary") ;?
  let? schedules := load_vesting_schedules w in
  let? schedule := ok_or (InvalidTx "unknown vesting schedule")
    (List.find (fun s => vesting_schedule_id s =? vu_schedule_id claim) schedules) in
  ensure (bool_decide (bv_asset schedule = vu_asset claim) && (bv_address schedule =? vu_beneficiary claim))
    (InvalidTx "vesting unlock does not match the schedule") ;?
  let? current_nonce := load_vesting_nonce w (vu_beneficiary claim) in
  ensure (vu_nonce claim =? current_nonce) (InvalidTx "vesting nonce mismatch") ;?
  let id := unlock_id claim in
  ensure (negb (bool_decide (is_Some (gw_gov w !! KClaim id)))) (InvalidTx "duplicate vesting unlock") ;?
  let vested := vested_amount_at (bv_amount schedule) (bv_start schedule) (bv_cliff schedule) (bv_end schedule) now_ms in
  let? already := load_vesting_unlocked w (vu_schedule_id claim) in
  let? claimable := ok_or (InvalidTx "vesting unlock accounting overflow") (checked_sub vested already) in
  ensure (vu_amount claim <=? claimable) (InvalidTx "vesting unlock exceeds vested remainder") ;?
  let? next_unlocked := ok_or (InvalidTx "vesting unlock overflow") (checked_add u64_max already (vu_amount claim)) in
  let? next_nonce := ok_or (InvalidTx "vesting nonce overflow") (checked_add u64_max current_nonce 1) in
  let pending := [GGov (KUnlocked (vu_schedule_id claim)) (Some (RU64 next_unlocked));
                  GGov (KVestingNonce (vu_beneficiary claim)) (Some (RU64 next_nonce));
                  GGov (KClaim id) (Some (RClaim claim))] in
  let? (pending, created_) := pay_out pending w (vu_asset claim) id (vu_beneficiary claim) (vu_amount claim) in
  Ok (b ++ pending, created_).

(** ** The lanes *)

(** What both lanes do around the operation: the records it may change are
    snapshotted, a credited account is journaled twice. *)
Definition gov_lane_accept (st : GovLane) (keys : list GovKey) (asset : NativeAssetId) (to : Address) (amount : Z)
  (id : Hash) (run : GovWorld -> result StateError (list GovOp * option OutPoint)) : result StateError GovLane :=
  let lane := gl_lane st in
  let keys := (inr <$> keys) ++ (if is_account_asset asset then [inl (KAccount asset to)] else []) in
  let meta_before := snapshot_gov lane keys in
  let? acc := (if is_account_asset asset
               then let? prior := load_account (gw_store lane) asset to in Ok [(asset, to, prior)] else Ok []) in
  let? (op_batch, created_) := run lane in
  let j := gl_journal st in
  Ok {| gl_lane := write_gov lane op_batch;
        gl_batch := gl_batch st ++ op_batch;
        gl_journal := {| gj_lanes := journal_extend (gj_lanes j) acc [] [];
                         gj_created := gj_created j ++ option_list created_;
                         passport_meta_before := passport_meta_before j ++ meta_before |};
        gl_created_in_block :=
          match created_ with
          | Some op => <[op := {| out_value := amount; out_address := to |}]> (gl_created_in_block st)
          | None => gl_created_in_block st
          end;
        gl_seen := id :: gl_seen st |}.

Definition treasury_lane_step (auth : Auth) (st : GovLane) (spend : TreasuryDisbursement) : result StateError GovLane :=
  let id := disbursement_id spend in
  ensure (negb (bool_decide (id ∈ gl_seen st))) (InvalidTx "duplicate treasury disbursement in block") ;?
  let t := treasury_wire_byte (td_treasury spend) in
  gov_lane_accept st [KTreasury t; KTreasuryNonce t; KDisbursement id] (treasury_asset (td_treasury spend))
    (td_beneficiary spend) (td_amount spend) id (fun w => apply_treasury_disbursement_into [] w spend auth).
Definition vesting_lane_step (auth : Auth) (now_ms : Z) (st : GovLane) (claim : VestingUnlock) : result StateError GovLane :=
  let id := unlock_id claim in
  ensure (negb (bool_decide (id ∈ gl_seen st))) (InvalidTx "duplicate vesting unlock in block") ;?
  gov_lane_accept st [KUnlocked (vu_schedule_id claim); KVestingNonce (vu_beneficiary claim); KClaim id] (vu_asset claim)
    (vu_beneficiary claim) (vu_amount claim) id (fun w => apply_vesting_unlock_into [] w claim auth now_ms).
Definition next_gov_lane (st : GovLane) : GovLane :=
  {| gl_lane := gl_lane st; gl_batch := gl_batch st; gl_journal := gl_journal st;
     gl_created_in_block := gl_created_in_block st; gl_seen := [] |}.

(** The end of [apply_trident_lanes]: the treasury lane, then vesting. *)
Definition apply_governance_lanes (auth : Auth) (st : GovLane) (spends : list TreasuryDisbursement)
  (claims : list VestingUnlock) (timestamp_ms : Z) : result StateError GovLane :=
  let? st := rfold (treasury_lane_step auth) (next_gov_lane st) spends in
  rfold (vesting_lane_step auth timestamp_ms) (next_gov_lane st) claims.
End governance.

(** [revert_journal_batched], for these lanes: outputs, accounts and stakes
    first, the governance snapshots last. *)
Definition revert_gov_journal (j : GovJournal) : result StateError (list GovOp) :=
  let? lanes := Lanes.revert_journal_batched (gj_lanes j) in
  Ok (((fun op => GUtxo (UDelete op)) <$> reverse (gj_created j)) ++ (GMeta <$> lanes) ++ reverse (passport_meta_before j)).
