(* ===== verification/TreasuryProps.v ===== *)
(** * Treasuries and vesting: the theorems

    What a disbursement and an unlock do, what any history of them adds up to,
    and that a block's governance lanes are undone by their journal. *)

From stdpp Require Import base gmap list fin_maps strings sorting.
From Stdlib Require Import ZArith Lia.
From S2P Require Import Prelude Ordering Sums Types Finality Store Utxo UtxoProps Supply Accounts Staking StakingProps Lanes Authority Policy Objects Envelopes Treasury.
Local Open Scope Z_scope.

(** ** Byte keys *)

Definition gov_key (k : GovKey) : list Z :=
  match k with
  | KPolicy => ascii_bytes "governance/consensus/policy"
  | KTreasury t => ascii_bytes "governance/treasury/" ++ [t]
  | KControl t => ascii_bytes "governance/treasury_control/" ++ [t]
  | KController t => ascii_bytes "governance/treasury_controller/" ++ [t]
  | KTreasuryNonce t => ascii_bytes "governance/treasury_nonce/" ++ [t]
  | KDisbursement id => ascii_bytes "governance/treasury_disbursement/" ++ hash_bytes id
  | KEmergency => ascii_bytes "governance/consensus/emergency_policy_hash"
  | KVesting => ascii_bytes "governance/vesting/schedules-v1"
  | KUnlocked id => ascii_bytes "governance/vesting/unlocked/" ++ hash_bytes id
  | KVestingNonce a => ascii_bytes "governance/vesting/nonce/" ++ address_bytes a
  | KClaim id => ascii_bytes "governance/vesting/claim/" ++ hash_bytes id
  end.
Definition valid_gov_key (k : GovKey) : Prop :=
  match k with
  | KDisbursement h | KUnlocked h | KClaim h => is_hash h
  | KVestingNonce a => is_address a
  | _ => True
  end.
(** The model's governance keys are distinct byte keys, none of them the key of
    an account, stake, supply or finality record. *)
Lemma gov_key_injective k1 k2 : valid_gov_key k1 -> valid_gov_key k2 -> gov_key k1 = gov_key k2 -> k1 = k2.
Proof.
  intros H1 H2 E. unfold gov_key in E.
  destruct k1, k2; unfold valid_gov_key in H1, H2;
    try (cbn -[address_bytes hash_bytes] in E; discriminate E); try reflexivity;
    apply app_inv_head in E; f_equal;
    lazymatch type of E with
    | [_] = [_] => injection E as E; exact E
    | hash_bytes _ = _ => by apply hash_bytes_inj
    | _ => by apply address_bytes_inj
    end.
Qed.
Lemma gov_key_not_meta k m : gov_key k <> meta_key m.
Proof.
  assert (hd 0 (gov_key k) = 103) as Hg by (by destruct k).
  intros E. rewrite E in Hg. by destruct m; cbn -[wire_byte address_bytes hash_bytes u64_le_bytes] in Hg.
Qed.

(** ** The vesting curve *)

Lemma vested_linear amount start end_ now :
  in_u64 amount -> 0 <= start < end_ -> start <= now < end_ ->
  in_u64 (amount * (now - start) / (end_ - start)) /\ amount * (now - start) / (end_ - start) <= amount.
Proof.
  intros Ha Hs Hn.
  assert (0 <= amount * (now - start) / (end_ - start)) by (unfold in_u64 in Ha; apply Z.div_pos; nia).
  assert (amount * (now - start) / (end_ - start) <= amount) by (unfold in_u64 in Ha; apply Z.div_le_upper_bound; nia).
  unfold in_u64 in *. lia.
Qed.
(** The curve without machine integers. *)
Definition vested_spec (amount start cliff end_ now : Z) : Z :=
  if (now <? cliff) || (end_ <=? start) then 0
  else Z.min amount (amount * Z.max 0 (now - start) / (end_ - start)).
Lemma vested_amount_spec amount start cliff end_ now :
  in_u64 amount -> 0 <= start ->
  vested_amount_at amount start cliff end_ now = vested_spec amount start cliff end_ now.
Proof.
  intros Ha Hs. unfold vested_amount_at, vested_spec. destruct (_ || _) eqn:E; [done|].
  apply orb_false_iff in E as [Hc%Z.ltb_ge He%Z.leb_gt]. unfold saturating_sub.
  destruct (Z.leb_spec end_ now) as [Hn|Hn].
  - rewrite Z.min_l; [done|]. unfold in_u64 in Ha. apply Z.div_le_lower_bound; nia.
  - destruct (Z.le_gt_cases start now) as [Hsn|Hsn].
    + rewrite Z.max_r by lia. destruct (vested_linear amount start end_ now) as [H1 H2]; [done|lia|lia|].
      rewrite as_u64_small by done. lia.
    + rewrite Z.max_l by lia. unfold in_u64 in Ha. by rewrite Z.mul_0_r, Z.div_0_l, Z.min_r by lia.
Qed.
Lemma vested_spec_bounds amount start cliff end_ now : 0 <= amount -> 0 <= vested_spec amount start cliff end_ now <= amount.
Proof.
  intros Ha. unfold vested_spec. destruct (_ || _) eqn:E; [lia|].
  apply orb_false_iff in E as [_ He%Z.leb_gt].
  assert (0 <= amount * Z.max 0 (now - start) / (end_ - start)) by (apply Z.div_pos; nia). lia.
Qed.
Lemma vested_spec_mono amount start cliff end_ now now' :
  0 <= amount -> now <= now' -> vested_spec amount start cliff end_ now <= vested_spec amount start cliff end_ now'.
Proof.
  intros Ha Hn. unfold vested_spec. destruct (Z.leb_spec end_ start) as [He|He]; [rewrite !orb_true_r; lia|].
  rewrite !orb_false_r. destruct (Z.ltb_spec now cliff) as [Hc|Hc].
  - destruct (Z.ltb_spec now' cliff); [lia|].
    assert (0 <= amount * Z.max 0 (now' - start) / (end_ - start)) by (apply Z.div_pos; nia). lia.
  - destruct (Z.ltb_spec now' cliff); [lia|].
    apply Z.min_le_compat_l, Z.div_le_mono; [lia|]. apply Z.mul_le_mono_nonneg_l; lia.
Qed.
Definition vested (s : BlockZeroVesting) (now : Z) : Z :=
  vested_amount_at (bv_amount s) (bv_start s) (bv_cliff s) (bv_end s) now.
(** What the artifact checks of a schedule give. *)
Definition schedule_ok (s : BlockZeroVesting) : Prop := in_u64 (bv_amount s) /\ 0 <= bv_start s.
Lemma vested_bounds s now : schedule_ok s -> 0 <= vested s now <= bv_amount s.
Proof.
  intros [Ha Hs]. unfold vested. rewrite vested_amount_spec by done.
  apply vested_spec_bounds. unfold in_u64 in Ha. lia.
Qed.
Lemma vested_mono s now now' : schedule_ok s -> now <= now' -> vested s now <= vested s now'.
Proof.
  intros [Ha Hs] Hn. unfold vested. rewrite !vested_amount_spec by done.
  apply vested_spec_mono; [unfold in_u64 in Ha; lia|done].
Qed.
Lemma vested_end s now : bv_start s < bv_end s -> bv_cliff s <= now -> bv_end s <= now -> vested s now = bv_amount s.
Proof.
  intros Hse Hc He. unfold vested, vested_amount_at.
  rewrite (proj2 (Z.ltb_ge _ _) Hc), (proj2 (Z.leb_gt _ _) Hse). cbn [orb]. by rewrite (proj2 (Z.leb_le _ _) He).
Qed.

(** The vesting curve is exact in machine integers: at every time it is the
    linear share rounded down, between zero and the amount, never decreasing, zero before
    the cliff and the whole amount from the end on. *)
Theorem vesting_curve_correct (amount start cliff end_ now now' : Z) :
  in_u64 amount -> 0 <= start -> start < end_ -> cliff <= end_ -> now <= now' ->
  let v := vested_amount_at amount start cliff end_ in
  v now = (if now <? cliff then 0 else Z.min amount (amount * Z.max 0 (now - start) / (end_ - start))) /\
  0 <= v now <= v now' /\ v now' <= amount /\ (end_ <= now -> v now = amount).
Proof.
  intros Ha Hs Hse Hce Hn v. subst v. rewrite !vested_amount_spec by done.
  split; [unfold vested_spec; by rewrite (proj2 (Z.leb_gt _ _) Hse), orb_false_r|].
  assert (0 <= amount) as Ha' by (unfold in_u64 in Ha; lia).
  pose proof (vested_spec_bounds amount start cliff end_ now Ha').
  pose proof (vested_spec_bounds amount start cliff end_ now' Ha').
  pose proof (vested_spec_mono amount start cliff end_ now now' Ha' Hn).
  split; [lia|]. split; [lia|]. intros He. rewrite <- vested_amount_spec by done.
  apply (vested_end {| bv_asset := TLT; bv_address := 0; bv_amount := amount; bv_start := start; bv_cliff := cliff; bv_end := end_ |});
    simpl; lia.
Qed.
Lemma vesting_curve_correct_witness : vested_amount_at 100 10 20 30 20 = 50 /\ vested_amount_at 100 10 20 30 30 = 100.
Proof.
  destruct (vesting_curve_correct 100 10 20 30 20 30) as (H & _); [unfold in_u64, u64_max; lia|lia|lia|lia|lia|].
  split; [rewrite H; reflexivity|]. by apply (vesting_curve_correct 100 10 20 30 30 30); unfold in_u64, u64_max; try lia.
Defined.

(** ** What the operations write *)

Definition treasury_of (w : GovWorld) (t : TreasuryId) : Z :=
  match gw_gov w !! KTreasury (treasury_wire_byte t) with Some (RTreasury b) => tb_balance b | _ => 0 end.
Definition u64_of (w : GovWorld) (k : GovKey) : Z := match gw_gov w !! k with Some (RU64 n) => n | _ => 0 end.
Lemma load_u64_Ok w k n : load_u64 w k = Ok n -> u64_of w k = n.
Proof. unfold load_u64, u64_of. destruct (_ !! _) as [[]|]; naive_solver. Qed.
Lemma load_protocol_treasury_Ok w t b :
  load_protocol_treasury w t = Ok b -> b = {| tb_treasury := t; tb_asset := treasury_asset t; tb_balance := treasury_of w t |}.
Proof.
  unfold load_protocol_treasury, treasury_of. destruct (_ !! _) as [[]|]; try done.
  - intros H. inv_ok. subst. apply andb_true_iff in H0 as [H1%bool_decide_eq_true_1 H2%bool_decide_eq_true_1].
    destruct b; simpl in *. by subst.
  - unfold new_treasury_balance. rewrite bool_decide_eq_true_2 by done. simpl. by intros [= <-].
Qed.

Definition paid_output (id : Hash) : OutPoint := {| op_tx := id; op_index := 0 |}.
(** Whether, and how, a payee receives an amount. *)
Definition receivable (w : GovWorld) (asset : NativeAssetId) (id : Hash) (to : Address) (amount : Z) : Prop :=
  match asset with
  | TLT => gw_utxos w !! paid_output id = None
  | _ => balance (acct_of (gw_store w) asset to) + amount <= u64_max
  end.
Definition pay_ops (w : GovWorld) (asset : NativeAssetId) (id : Hash) (to : Address) (amount : Z) : list GovOp :=
  match asset with
  | TLT => [GUtxo (UPut (paid_output id) {| out_value := amount; out_address := to |})]
  | _ => let a := acct_of (gw_store w) asset to in
         [GMeta (PutAccount asset to {| balance := balance a + amount; nonce := nonce a |})]
  end.
Definition pay_created (asset : NativeAssetId) (id : Hash) : option OutPoint :=
  match asset with TLT => Some (paid_output id) | _ => None end.
Lemma credit_Ok s asset to amount b :
  amount <> 0 -> asset <> TLT ->
  credit_account_into [] s asset to amount = Ok b <->
  balance (acct_of s asset to) + amount <= u64_max /\
  b = [PutAccount asset to {| balance := balance (acct_of s asset to) + amount; nonce := nonce (acct_of s asset to) |}].
Proof.
  intros Hz Ha. unfold credit_account_into. rewrite (proj2 (Z.eqb_neq _ _) Hz). cbn [negb ensure rbind].
  rewrite load_account_acct by done. cbn [rbind]. unfold checked_add.
  destruct (Z.leb_spec (balance (acct_of s asset to) + amount) u64_max) as [H|H]; cbn [ok_or rbind].
  - rewrite put_account_into_Ok. naive_solver.
  - split; [done|]. intros [? _]. lia.
Qed.
Lemma pay_out_Ok pending w asset id to amount r :
  amount <> 0 ->
  pay_out pending w asset id to amount = Ok r <->
  receivable w asset id to amount /\ r = (pending ++ pay_ops w asset id to amount, pay_created asset id).
Proof.
  intros Hz. unfold pay_out, receivable, pay_ops, pay_created, paid_output. destruct asset.
  - destruct (gw_utxos w !! _) eqn:E; [rewrite bool_decide_eq_true_2 by eauto|rewrite bool_decide_eq_false_2 by (by intros [])];
      cbn [negb ensure rbind]; naive_solver.
  - rewrite rbind_Ok. setoid_rewrite (credit_Ok _ OVL to amount _ Hz ltac:(discriminate)). naive_solver.
  - rewrite rbind_Ok. setoid_rewrite (credit_Ok _ DRC to amount _ Hz ltac:(discriminate)). naive_solver.
Qed.
(** Only the account of the payee, or one output, changes. *)
Lemma pay_ops_gov w v asset id to amount : gw_gov (write_gov v (pay_ops w asset id to amount)) = gw_gov v.
Proof. by destruct asset. Qed.

(** Takes a successful operation apart. *)
Ltac inv_gov :=
  inv_ok;
  match goal with E : (let (_, _) := ?p in _) = Ok _ |- _ => destruct p end; inv_ok;
  repeat match goal with
  | E : (_ =? _) = true |- _ => apply Z.eqb_eq in E
  | E : (_ <=? _) = true |- _ => apply Z.leb_le in E
  | E : negb (_ =? _) = true |- _ => apply negb_true_iff, Z.eqb_neq in E
  | E : negb (bool_decide (is_Some _)) = true |- _ => apply negb_true_iff, bool_decide_eq_false_1, eq_None_not_Some in E
  | E : lift_msg ?r = Ok _ |- _ => unfold lift_msg in E; destruct r eqn:?; [injection E as ->|discriminate E]
  end;
  match goal with E : pay_out _ _ _ _ _ _ = Ok _ |- _ => apply pay_out_Ok in E as [?Hr E]; [|done] end.

Section ops.
Context {Auth : Type}.
Variable vt : TreasuryDisbursement -> Auth -> result string Address.
Variable vv : VestingUnlock -> Auth -> result string Address.
Variable did : TreasuryDisbursement -> Hash.
Variable uid : VestingUnlock -> Hash.
Variable sid : BlockZeroVesting -> Hash.
Variable chash aroot : Hash.
Variable auth : Auth.
Abbreviation disburse := (apply_treasury_disbursement_into vt did chash aroot).
Abbreviation unlock := (apply_vesting_unlock_into vv uid sid).

(** When a disbursement is accepted. *)
Record disbursement_valid (w : GovWorld) (s : TreasuryDisbursement) : Prop := {
  dv_form : td_version s = 1 /\ td_beneficiary s <> 0 /\ td_amount s <> 0 /\ td_reason_hash s <> 0;
  dv_signed : exists c, vt s auth = Ok c /\ load_treasury_controller w (td_treasury s) = Ok (Some c);
  dv_root : exists p, load_canonical_governance_policy chash aroot w = Ok p /\ td_authorization_root s = gp_authorization_root p;
  dv_nonce : load_treasury_nonce w (td_treasury s) = Ok (td_nonce s) /\ td_nonce s + 1 <= u64_max;
  dv_fresh : gw_gov w !! KDisbursement (did s) = None;
  dv_funded : exists b, load_protocol_treasury w (td_treasury s) = Ok b /\ td_amount s <= tb_balance b;
  dv_receivable : receivable w (treasury_asset (td_treasury s)) (did s) (td_beneficiary s) (td_amount s);
}.
Definition disbursement_ops (w : GovWorld) (s : TreasuryDisbursement) : list GovOp :=
  let t := td_treasury s in
  [GGov (KTreasury (treasury_wire_byte t))
     (Some (RTreasury {| tb_treasury := t; tb_asset := treasury_asset t; tb_balance := treasury_of w t - td_amount s |}));
   GGov (KTreasuryNonce (treasury_wire_byte t)) (Some (RU64 (td_nonce s + 1)));
   GGov (KDisbursement (did s)) (Some (RDisbursement s))] ++
  pay_ops w (treasury_asset t) (did s) (td_beneficiary s) (td_amount s).
Lemma disburse_Ok b w s r :
  disburse b w s auth = Ok r <->
  disbursement_valid w s /\ r = (b ++ disbursement_ops w s, pay_created (treasury_asset (td_treasury s)) (did s)).
Proof.
  unfold apply_treasury_disbursement_into. split.
  - intros H. inv_gov.
    match goal with E : load_protocol_treasury _ _ = Ok _ |- _ => pose proof (load_protocol_treasury_Ok _ _ _ E) as Hb end.
    subst. unfold put_treasury_into in *. cbn [tb_treasury tb_asset tb_balance] in *. inv_ok. subst. simplify_eq.
    split; [constructor; eauto 10|]. done.
  - intros [[(Hv & Hb & Ha & Hr) (c & Hs & Hc) (p & Hp & Hro) [Hn Hno] Hf (tb & Ht & Hle) Hrc] ->].
    rewrite Hv, (proj2 (Z.eqb_neq _ _) Hb), (proj2 (Z.eqb_neq _ _) Ha), (proj2 (Z.eqb_neq _ _) Hr), Hs, Hp, Hro, Hc, Hn, Hf, Ht.
    cbn [Z.eqb Pos.eqb negb ensure rbind lift_msg ok_or]. rewrite !Z.eqb_refl. cbn [ensure rbind].
    rewrite bool_decide_eq_false_2 by (by intros []). cbn [negb ensure rbind].
    unfold checked_sub, checked_add. rewrite (proj2 (Z.leb_le _ _) Hle), (proj2 (Z.leb_le _ _) Hno). cbn [ok_or rbind].
    pose proof (load_protocol_treasury_Ok _ _ _ Ht) as ->. unfold put_treasury_into. cbn [tb_treasury tb_asset tb_balance].
    rewrite bool_decide_eq_true_2 by done. cbn [ensure rbind].
    erewrite (proj2 (pay_out_Ok _ w _ _ _ _ _ Ha)) by (split; [exact Hrc|reflexivity]). cbn [rbind].
    done.
Qed.

(** When an unlock of schedule [sch] is accepted. *)
Record unlock_valid (w : GovWorld) (c : VestingUnlock) (now : Z) (sch : BlockZeroVesting) : Prop := {
  uv_form : vu_version c = 1 /\ vu_beneficiary c <> 0 /\ vu_amount c <> 0;
  uv_signed : vv c auth = Ok (vu_beneficiary c);
  uv_schedule : exists l, load_vesting_schedules w = Ok l /\ List.find (fun s => sid s =? vu_schedule_id c) l = Some sch;
  uv_match : bv_asset sch = vu_asset c /\ bv_address sch = vu_beneficiary c;
  uv_nonce : load_vesting_nonce w (vu_beneficiary c) = Ok (vu_nonce c) /\ vu_nonce c + 1 <= u64_max;
  uv_fresh : gw_gov w !! KClaim (uid c) = None;
  uv_claimable : exists n, load_vesting_unlocked w (vu_schedule_id c) = Ok n /\
    n <= vested sch now /\ n + vu_amount c <= vested sch now /\ n + vu_amount c <= u64_max;
  uv_receivable : receivable w (vu_asset c) (uid c) (vu_beneficiary c) (vu_amount c);
}.
Definition unlock_ops (w : GovWorld) (c : VestingUnlock) : list GovOp :=
  [GGov (KUnlocked (vu_schedule_id c)) (Some (RU64 (u64_of w (KUnlocked (vu_schedule_id c)) + vu_amount c)));
   GGov (KVestingNonce (vu_beneficiary c)) (Some (RU64 (vu_nonce c + 1)));
   GGov (KClaim (uid c)) (Some (RClaim c))] ++
  pay_ops w (vu_asset c) (uid c) (vu_beneficiary c) (vu_amount c).
Lemma unlock_Ok b w c now r :
  unlock b w c auth now = Ok r <->
  exists sch, unlock_valid w c now sch /\ r = (b ++ unlock_ops w c, pay_created (vu_asset c) (uid c)).
Proof.
  unfold apply_vesting_unlock_into. split.
  - intros H. inv_gov.
    match goal with E : load_vesting_unlocked _ _ = Ok _ |- _ => pose proof (load_u64_Ok _ _ _ E) as Hu end.
    match goal with E : _ && _ = true |- _ => apply andb_true_iff in E as [E1%bool_decide_eq_true_1 E2%Z.eqb_eq] end.
    subst. simplify_eq. eexists. split; [constructor|by unfold unlock_ops]; eauto 10.
    eexists. unfold vested. split_and!; [done|lia|lia|lia].
  - intros (sch & [(Hv & Hb & Ha) Hs (l & Hl & Hf) [Hm1 Hm2] [Hn Hno] Hfr (n & Hu & Hn1 & Hn2 & Hn3) Hrc] & ->).
    rewrite Hv, (proj2 (Z.eqb_neq _ _) Hb), (proj2 (Z.eqb_neq _ _) Ha), Hs, Hl. cbn [Z.eqb Pos.eqb negb ensure rbind lift_msg].
    rewrite Z.eqb_refl. cbn [ensure rbind]. rewrite Hf. cbn [ok_or rbind]. rewrite Hm1, Hm2, Z.eqb_refl.
    rewrite bool_decide_eq_true_2 by done. cbn [andb ensure rbind]. rewrite Hn, Hfr. cbn [rbind]. rewrite Z.eqb_refl.
    rewrite bool_decide_eq_false_2 by (by intros []). cbn [negb ensure rbind]. rewrite Hu. cbn [rbind].
    fold (vested sch now). unfold checked_sub, checked_add. rewrite (proj2 (Z.leb_le _ _) Hn1). cbn [ok_or rbind].
    rewrite (proj2 (Z.leb_le (vu_amount c) (vested sch now - n))) by lia. cbn [ensure rbind].
    rewrite (proj2 (Z.leb_le _ _) Hn3), (proj2 (Z.leb_le _ _) Hno). cbn [ok_or rbind].
    erewrite (proj2 (pay_out_Ok _ w _ _ _ _ _ Ha)) by (split; [exact Hrc|reflexivity]). cbn [rbind].
    unfold unlock_ops. by rewrite (load_u64_Ok _ _ _ Hu).
Qed.

(** ** Histories *)

(** What a chain of blocks does to the records: accepted disbursements and
    unlocks, and between them whatever the other lanes do to accounts, stakes
    and outputs. *)
Inductive GovEvent := ESpend (s : TreasuryDisbursement) | EUnlock (c : VestingUnlock) (now : Z) | EOther (s : StateStore) (u : UtxoSet).
Definition gov_event (w : GovWorld) (e : GovEvent) : result StateError GovWorld :=
  match e with
  | ESpend s => let? r := disburse [] w s auth in Ok (write_gov w r.1)
  | EUnlock c now => let? r := unlock [] w c auth now in Ok (write_gov w r.1)
  | EOther s u => Ok {| gw_store := s; gw_gov := gw_gov w; gw_utxos := u |}
  end.
Definition spends_of (l : list GovEvent) : list TreasuryDisbursement := omap (fun e => match e with ESpend s => Some s | _ => None end) l.
Definition claims_of (l : list GovEvent) : list VestingUnlock := omap (fun e => match e with EUnlock c _ => Some c | _ => None end) l.
Definition from_treasury (t : TreasuryId) (l : list GovEvent) : list TreasuryDisbursement :=
  filter (fun s => td_treasury s = t) (spends_of l).
Definition from_schedule (id : Hash) (l : list GovEvent) : list VestingUnlock := filter (fun c => vu_schedule_id c = id) (claims_of l).

Lemma write_gov_app w b1 b2 : write_gov w (b1 ++ b2) = write_gov (write_gov w b1) b2.
Proof. apply foldl_app. Qed.
Lemma spend_event w s w' :
  gov_event w (ESpend s) = Ok w' <-> disbursement_valid w s /\ w' = write_gov w (disbursement_ops w s).
Proof.
  unfold gov_event. rewrite rbind_Ok. setoid_rewrite disburse_Ok. split.
  - intros (r & [Hv ->] & [= <-]). done.
  - intros [Hv ->]. eexists. by split.
Qed.
Lemma unlock_event w c now w' :
  gov_event w (EUnlock c now) = Ok w' <-> exists sch, unlock_valid w c now sch /\ w' = write_gov w (unlock_ops w c).
Proof.
  unfold gov_event. rewrite rbind_Ok. setoid_rewrite unlock_Ok. split.
  - intros (r & (sch & Hv & ->) & [= <-]). by exists sch.
  - intros (sch & Hv & ->). eexists. split; [by exists sch|done].
Qed.
Lemma spend_gov w s :
  gw_gov (write_gov w (disbursement_ops w s)) =
    let t := td_treasury s in
    <[KDisbursement (did s) := RDisbursement s]>
      (<[KTreasuryNonce (treasury_wire_byte t) := RU64 (td_nonce s + 1)]>
        (<[KTreasury (treasury_wire_byte t) :=
             RTreasury {| tb_treasury := t; tb_asset := treasury_asset t; tb_balance := treasury_of w t - td_amount s |}]>
           (gw_gov w))).
Proof. unfold disbursement_ops. by rewrite write_gov_app, pay_ops_gov. Qed.
Lemma unlock_gov w c :
  gw_gov (write_gov w (unlock_ops w c)) =
    <[KClaim (uid c) := RClaim c]>
      (<[KVestingNonce (vu_beneficiary c) := RU64 (vu_nonce c + 1)]>
        (<[KUnlocked (vu_schedule_id c) := RU64 (u64_of w (KUnlocked (vu_schedule_id c)) + vu_amount c)]> (gw_gov w))).
Proof. unfold unlock_ops. by rewrite write_gov_app, pay_ops_gov. Qed.
Lemma treasury_wire_byte_inj t t' : treasury_wire_byte t = treasury_wire_byte t' -> t = t'.
Proof. by destruct t, t'. Qed.
(** Reading a key in a chain of inserts. *)
Ltac gov_lookup := repeat first [ rewrite lookup_insert_eq | rewrite lookup_insert_ne by (intros [=]; congruence) ].

(** The records no event changes. *)
Lemma event_frame w e w' k :
  gov_event w e = Ok w' ->
  match k with KPolicy | KControl _ | KController _ | KEmergency | KVesting => gw_gov w' !! k = gw_gov w !! k | _ => True end.
Proof.
  destruct e as [s|c now|st u].
  - intros [_ ->]%spend_event. rewrite spend_gov. destruct k; try done; by gov_lookup.
  - intros (sch & _ & ->)%unlock_event. rewrite unlock_gov. destruct k; try done; by gov_lookup.
  - intros [= <-]. by destruct k.
Qed.
Lemma controller_event w e w' t : gov_event w e = Ok w' -> load_treasury_controller w' t = load_treasury_controller w t.
Proof. intros H. unfold load_treasury_controller. by rewrite (event_frame w e w' (KController _) H). Qed.
Lemma schedules_event w e w' : gov_event w e = Ok w' -> load_vesting_schedules w' = load_vesting_schedules w.
Proof. intros H. unfold load_vesting_schedules. by rewrite (event_frame w e w' KVesting H). Qed.

(** What one event does to a treasury. *)
Lemma treasury_event w e w' t :
  gov_event w e = Ok w' ->
  treasury_of w' t = treasury_of w t - zsum (td_amount <$> from_treasury t [e]) /\
  (0 <= treasury_of w t -> 0 <= treasury_of w' t) /\
  u64_of w' (KTreasuryNonce (treasury_wire_byte t)) =
    u64_of w (KTreasuryNonce (treasury_wire_byte t)) + Z.of_nat (length (from_treasury t [e])).
Proof.
  destruct e as [s|c now|st u].
  - intros [Hv ->]%spend_event. unfold from_treasury, spends_of. cbn [omap list_omap]. rewrite filter_cons, filter_nil.
    unfold treasury_of at 1 4, u64_of at 1. rewrite spend_gov. cbn zeta.
    destruct (decide (td_treasury s = t)) as [<-|Hne].
    + gov_lookup. cbn. destruct Hv as [_ _ _ [Hn _] _ (b & Hb & Hle) _].
      apply load_u64_Ok in Hn. rewrite Hn. rewrite (load_protocol_treasury_Ok _ _ _ Hb) in Hle. simpl in Hle. lia.
    + assert (treasury_wire_byte t <> treasury_wire_byte (td_treasury s)) by (intros E%treasury_wire_byte_inj; congruence).
      gov_lookup. fold (treasury_of w t). fold (u64_of w (KTreasuryNonce (treasury_wire_byte t))). cbn. lia.
  - intros (sch & _ & ->)%unlock_event. unfold treasury_of, u64_of. rewrite unlock_gov. gov_lookup. cbn. lia.
  - intros [= <-]. cbn. unfold treasury_of, u64_of. cbn. lia.
Qed.

(** What one event does to a schedule and to a beneficiary's nonce. *)
Lemma unlocked_event w e w' id :
  gov_event w e = Ok w' ->
  u64_of w' (KUnlocked id) = u64_of w (KUnlocked id) + zsum (vu_amount <$> from_schedule id [e]).
Proof.
  destruct e as [s|c now|st u].
  - intros [_ ->]%spend_event. unfold u64_of. rewrite spend_gov. cbn zeta. gov_lookup. cbn. lia.
  - intros (sch & _ & ->)%unlock_event. unfold from_schedule, claims_of. cbn [omap list_omap]. rewrite filter_cons, filter_nil.
    unfold u64_of at 1. rewrite unlock_gov. destruct (decide (vu_schedule_id c = id)) as [<-|Hne]; gov_lookup; cbn; [lia|].
    unfold u64_of. lia.
  - intros [= <-]. cbn. unfold u64_of. cbn. lia.
Qed.
(** A claim on a schedule is its beneficiary's, and within what is vested. *)
Lemma claim_event w e w' id l s :
  gov_event w e = Ok w' -> load_vesting_schedules w = Ok l -> List.find (fun s => sid s =? id) l = Some s ->
  Forall (fun c => vv c auth = Ok (bv_address s) /\ vu_beneficiary c = bv_address s /\ vu_asset c = bv_asset s)
    (from_schedule id [e]) /\
  (u64_of w' (KUnlocked id) = u64_of w (KUnlocked id) \/
   exists c now, e = EUnlock c now /\ u64_of w' (KUnlocked id) <= vested s now).
Proof.
  intros He Hl Hf. pose proof (unlocked_event w e w' id He) as Hu.
  destruct e as [sp|c now|st u]; [split; [constructor|left; cbn in Hu; lia]| |split; [constructor|left; cbn in Hu; lia]].
  revert Hu. unfold from_schedule, claims_of. cbn [omap list_omap]. rewrite filter_cons, filter_nil.
  destruct (decide (vu_schedule_id c = id)) as [<-|Hne]; intros Hu; [|split; [constructor|left; cbn in Hu; lia]].
  apply unlock_event in He as (sch & [_ Hs (l' & Hl' & Hf') [Hm1 Hm2] _ _ (n & Hn & _ & Hle & _) _] & _).
  rewrite Hl in Hl'. injection Hl' as <-. rewrite Hf in Hf'. injection Hf' as <-.
  split; [rewrite Forall_singleton; by split_and!; congruence|]. right. exists c, now. split; [done|].
  apply load_u64_Ok in Hn. cbn in Hu. lia.
Qed.

Lemma from_treasury_cons t e l : from_treasury t (e :: l) = from_treasury t [e] ++ from_treasury t l.
Proof. unfold from_treasury, spends_of. destruct e; cbn [omap list_omap]; [|done|done]. by rewrite !filter_cons, filter_nil; case_decide. Qed.
Lemma from_schedule_cons id e l : from_schedule id (e :: l) = from_schedule id [e] ++ from_schedule id l.
Proof. unfold from_schedule, claims_of. destruct e; cbn [omap list_omap]; [done| |done]. by rewrite !filter_cons, filter_nil; case_decide. Qed.

(** Nothing but a recorded controller's signature moves a treasury, and the
    recorded nonces are spent in order. *)
Lemma treasury_history_lemma w l w' t :
  rfold gov_event w l = Ok w' ->
  treasury_of w' t = treasury_of w t - zsum (td_amount <$> from_treasury t l) /\
  (0 <= treasury_of w t -> 0 <= treasury_of w' t) /\
  td_nonce <$> from_treasury t l = seqZ (u64_of w (KTreasuryNonce (treasury_wire_byte t))) (Z.of_nat (length (from_treasury t l))) /\
  Forall (fun s => exists c, vt s auth = Ok c /\ load_treasury_controller w t = Ok (Some c)) (from_treasury t l) /\
  load_treasury_controller w' t = load_treasury_controller w t.
Proof.
  revert w. induction l as [|e l IH]; intros w H.
  - injection H as <-. cbn. split_and!; try done; lia.
  - apply rbind_Ok in H as (w1 & H1 & H). destruct (IH w1 H) as (I1 & I2 & I3 & I4 & I5).
    destruct (treasury_event w e w1 t H1) as (E1 & E2 & E3). pose proof (controller_event w e w1 t H1) as E4.
    rewrite from_treasury_cons, !fmap_app, zsum_app, length_app, Forall_app, Nat2Z.inj_add.
    rewrite E4 in I4, I5. rewrite E3 in I3. split_and!; [lia|auto|..|done|done].
    + rewrite seqZ_app by lia. rewrite I3. f_equal. revert H1. unfold from_treasury, spends_of.
      destruct e as [s| |]; cbn [omap list_omap]; [|done|done]. rewrite filter_cons, filter_nil.
      case_decide as Ht; [|done]. intros [Hv _]%spend_event. destruct (dv_nonce _ _ Hv) as [Hn%load_u64_Ok _].
      cbn. by rewrite <- Ht, Hn, ?Z.add_0_r.
    + revert H1. unfold from_treasury, spends_of. destruct e as [s| |]; cbn [omap list_omap]; [|constructor|constructor].
      rewrite filter_cons, filter_nil. case_decide as Ht; [|constructor]. intros [Hv _]%spend_event.
      rewrite Forall_singleton. destruct (dv_signed _ _ Hv) as (c & Hc & Hl). exists c. by rewrite <- Ht.
Qed.

(** What a schedule has paid in a history whose blocks are not after [T]. *)
Definition until (T : Z) (e : GovEvent) : Prop := match e with EUnlock _ now => now <= T | _ => True end.
Lemma vesting_history_lemma w l w' T id sl s :
  rfold gov_event w l = Ok w' -> load_vesting_schedules w = Ok sl -> List.find (fun s => sid s =? id) sl = Some s ->
  schedule_ok s -> Forall (until T) l -> u64_of w (KUnlocked id) <= vested s T ->
  u64_of w' (KUnlocked id) = u64_of w (KUnlocked id) + zsum (vu_amount <$> from_schedule id l) /\
  u64_of w' (KUnlocked id) <= vested s T /\
  Forall (fun c => vv c auth = Ok (bv_address s) /\ vu_beneficiary c = bv_address s /\ vu_asset c = bv_asset s) (from_schedule id l) /\
  load_vesting_schedules w' = Ok sl.
Proof.
  intros H Hsl Hf Hok HT Hu. revert w H Hsl Hu. induction HT as [|e l He HT IH]; intros w H Hsl Hu.
  - injection H as <-. cbn. split_and!; [lia|done|done|done].
  - apply rbind_Ok in H as (w1 & H1 & H). destruct (claim_event w e w1 id sl s H1 Hsl Hf) as [C1 C2].
    destruct (IH w1 H) as (I1 & I2 & I3 & I4); [by rewrite (schedules_event w e w1 H1)| |].
    + destruct C2 as [->|(c & now & -> & Hle)]; [done|]. simpl in He.
      pose proof (vested_mono s now T Hok He). lia.
    + rewrite from_schedule_cons, fmap_app, zsum_app, Forall_app. rewrite (unlocked_event w e w1 id H1) in I1.
      split_and!; [lia|done|done|done|done].
Qed.

(** ** Value *)

Definition treasury_for (x : NativeAssetId) : TreasuryId :=
  match x with TLT => TltSecurity | OVL => OvlBuilder | DRC => DrcCommunity end.
(** What accounts, stakes and outputs hold of an asset. *)
Definition wallets (x : NativeAssetId) (w : GovWorld) : Z :=
  holdings x (gw_store w) + (if bool_decide (x = TLT) then utxo_total (gw_utxos w) else 0).
(** Schedules with one id share one counter, and a claim finds the first of
    them: the others can never be claimed.  [claimable] keeps the first of each id. *)
Fixpoint claimable (sl : list BlockZeroVesting) : list BlockZeroVesting :=
  match sl with
  | [] => []
  | s :: sl => s :: filter (fun s' => sid s' <> sid s) (claimable sl)
  end.
Lemma claimable_nodup sl : NoDup (sid <$> claimable sl).
Proof.
  induction sl as [|s sl IH]; [apply NoDup_nil_2|]. cbn [claimable fmap list_fmap]. apply NoDup_cons. split.
  - intros (s' & E & [Hne _]%list_elem_of_filter)%list_elem_of_fmap. congruence.
  - apply (sublist_NoDup _ (sid <$> claimable sl)); [done|]. apply fmap_sublist, sublist_filter.
Qed.
Lemma find_filter_other (l : list BlockZeroVesting) s id : sid s <> id ->
  List.find (fun s => sid s =? id) (filter (fun s' => sid s' <> sid s) l) = List.find (fun s => sid s =? id) l.
Proof.
  intros Hne. induction l as [|s' l IH]; [done|]. rewrite filter_cons. cbn [List.find].
  case_decide as E; cbn [List.find]; destruct (Z.eqb_spec (sid s') id); try done. congruence.
Qed.
Lemma find_claimable sl id : List.find (fun s => sid s =? id) (claimable sl) = List.find (fun s => sid s =? id) sl.
Proof.
  induction sl as [|s sl IH]; [done|]. cbn [claimable List.find]. destruct (Z.eqb_spec (sid s) id); [done|].
  by rewrite find_filter_other, IH.
Qed.
Lemma claimable_all sl : NoDup (sid <$> sl) -> claimable sl = sl.
Proof.
  induction sl as [|s sl IH]; [done|]. cbn [fmap list_fmap claimable]. rewrite NoDup_cons. intros [Hn Hd]. rewrite IH by done. f_equal.
  clear IH Hd. induction sl as [|s' sl IH]; [done|]. cbn [fmap list_fmap] in Hn. apply not_elem_of_cons in Hn as [Hne Hn].
  rewrite filter_cons_True by congruence. by rewrite IH.
Qed.
(** What the later schedules of repeated ids hold of an asset. *)
Definition repeated (x : NativeAssetId) (sl : list BlockZeroVesting) : Z :=
  zsum (bv_amount <$> filter (fun s => bv_asset s = x) sl) - zsum (bv_amount <$> filter (fun s => bv_asset s = x) (claimable sl)).
Lemma repeated_none x sl : NoDup (sid <$> sl) -> repeated x sl = 0.
Proof. intros H. unfold repeated. rewrite claimable_all by done. lia. Qed.
(** What the schedules of an asset still owe. *)
Definition owed_for (w : GovWorld) (s : BlockZeroVesting) : Z := bv_amount s - u64_of w (KUnlocked (sid s)).
Definition owed_each (x : NativeAssetId) (sl : list BlockZeroVesting) (w : GovWorld) : Z :=
  zsum (owed_for w <$> filter (fun s => bv_asset s = x) sl).
Definition owed (x : NativeAssetId) (sl : list BlockZeroVesting) (w : GovWorld) : Z := owed_each x (claimable sl) w.
Definition backing (x : NativeAssetId) (sl : list BlockZeroVesting) (w : GovWorld) : Z :=
  treasury_of w (treasury_for x) + wallets x w + owed x sl w.

Lemma write_gov_records w b :
  Forall (fun op => match op with GGov _ _ => True | _ => False end) b ->
  gw_store (write_gov w b) = gw_store w /\ gw_utxos (write_gov w b) = gw_utxos w.
Proof.
  revert w. induction b as [|op b IH]; intros w Hb; [done|]. apply Forall_cons in Hb as [Ho Hb].
  destruct (IH (apply_gov_op w op) Hb) as [H1 H2]. by destruct op.
Qed.
Lemma pay_wallets w b asset id to amount x :
  Forall (fun op => match op with GGov _ _ => True | _ => False end) b -> receivable w asset id to amount ->
  wallets x (write_gov w (b ++ pay_ops w asset id to amount)) = wallets x w + (if bool_decide (asset = x) then amount else 0).
Proof.
  intros Hb Hr. rewrite write_gov_app. destruct (write_gov_records w b Hb) as [Hs Hu]. unfold wallets.
  destruct asset; cbn [pay_ops write_gov foldl apply_gov_op gw_store gw_utxos apply_utxo_op]; rewrite ?Hs, ?Hu.
  - simpl in Hr. unfold utxo_total. rewrite (msum_insert_new _ _ _ _ Hr). simpl.
    rewrite (bool_decide_ext (TLT = x) (x = TLT)) by (split; congruence). case_bool_decide; lia.
  - rewrite holdings_apply. simpl. repeat case_bool_decide; subst; try done; lia.
  - rewrite holdings_apply. simpl. repeat case_bool_decide; subst; try done; lia.
Qed.
Lemma treasury_for_asset t x : treasury_asset t = x <-> treasury_for x = t.
Proof. destruct t, x; simpl; split; congruence. Qed.

Lemma owed_other x sl w w' :
  (forall s, s ∈ sl -> u64_of w' (KUnlocked (sid s)) = u64_of w (KUnlocked (sid s))) -> owed_each x sl w' = owed_each x sl w.
Proof.
  intros H. unfold owed_each. f_equal. apply list_fmap_ext. intros i s Hs%list_elem_of_lookup_2.
  apply list_elem_of_filter in Hs as [_ Hs]. unfold owed_for. by rewrite H.
Qed.
Lemma owed_cons x s sl w : owed_each x (s :: sl) w = (if bool_decide (bv_asset s = x) then owed_for w s else 0) + owed_each x sl w.
Proof.
  unfold owed_each. rewrite filter_cons. case_decide.
  - rewrite bool_decide_eq_true_2 by done. by rewrite fmap_cons, zsum_cons.
  - rewrite bool_decide_eq_false_2 by done. by rewrite Z.add_0_l.
Qed.
Lemma owed_unlock x sl w w' id s amount :
  NoDup (sid <$> sl) -> List.find (fun s => sid s =? id) sl = Some s ->
  (forall k, u64_of w' (KUnlocked k) = u64_of w (KUnlocked k) + (if bool_decide (k = id) then amount else 0)) ->
  owed_each x sl w' = owed_each x sl w - (if bool_decide (bv_asset s = x) then amount else 0).
Proof.
  intros Hnd Hf Hk. induction sl as [|s0 sl IH]; [done|]. rewrite fmap_cons, NoDup_cons in Hnd. destruct Hnd as [Hni Hnd].
  simpl in Hf. rewrite !owed_cons. destruct (Z.eqb_spec (sid s0) id) as [Hid|Hid].
  - injection Hf as <-. rewrite (owed_other x sl w w').
    + unfold owed_for. rewrite Hk, (bool_decide_eq_true_2 (sid s0 = id)) by done. case_bool_decide; lia.
    + intros s' Hs'. rewrite Hk, bool_decide_eq_false_2; [lia|]. intros E. apply Hni. rewrite Hid, <- E. by apply list_elem_of_fmap_2.
  - rewrite IH by done. unfold owed_for. rewrite Hk, (bool_decide_eq_false_2 (sid s0 = id)) by done. repeat case_bool_decide; lia.
Qed.
Definition no_other (e : GovEvent) : bool := match e with EOther _ _ => false | _ => true end.

(** Neither operation creates or destroys value. *)
Lemma event_backing w e w' sl x :
  no_other e = true -> gov_event w e = Ok w' -> load_vesting_schedules w = Ok sl ->
  backing x sl w' = backing x sl w.
Proof.
  intros Ho He Hsl. unfold backing, owed. pose proof (treasury_event w e w' (treasury_for x) He) as (Ht & _ & _).
  destruct e as [s|c now|]; [| |done].
  - rewrite (owed_other x (claimable sl) w w') by (intros s' _; rewrite (unlocked_event w _ w' _ He); cbn; lia).
    apply spend_event in He as [Hv ->]. unfold disbursement_ops.
    rewrite pay_wallets by first [apply Hv|repeat constructor].
    revert Ht. unfold from_treasury, spends_of. cbn [omap list_omap]. rewrite filter_cons, filter_nil.
    case_decide as E; case_bool_decide as E'; cbn.
    + unfold disbursement_ops. intros ->. lia.
    + by rewrite treasury_for_asset in E'.
    + by rewrite treasury_for_asset in E'.
    + unfold disbursement_ops. intros ->. lia.
  - assert (forall k, u64_of w' (KUnlocked k) = u64_of w (KUnlocked k) + (if bool_decide (k = vu_schedule_id c) then vu_amount c else 0)) as Hk.
    { intros k. rewrite (unlocked_event w _ w' _ He). unfold from_schedule, claims_of. cbn [omap list_omap].
      rewrite filter_cons, filter_nil. case_decide; case_bool_decide; cbn; try congruence; lia. }
    apply unlock_event in He as (sch & Hv & ->). destruct (uv_schedule _ _ _ _ Hv) as (l' & Hl' & Hf).
    rewrite Hsl in Hl'. injection Hl' as <-. rewrite <- find_claimable in Hf.
    rewrite (owed_unlock x (claimable sl) w _ _ sch _ (claimable_nodup sl) Hf Hk). rewrite Ht. cbn [spends_of from_treasury].
    unfold unlock_ops. rewrite pay_wallets by first [apply Hv|repeat constructor]. destruct (uv_match _ _ _ _ Hv) as [-> _]. cbn. lia.
Qed.

Lemma run_backing w l w' sl x :
  rfold gov_event w l = Ok w' -> Forall (fun e => no_other e = true) l -> load_vesting_schedules w = Ok sl ->
  backing x sl w' = backing x sl w.
Proof.
  intros H Hl Hsl.
  eapply (rfold_inv gov_event (fun v => load_vesting_schedules v = Ok sl /\ backing x sl v = backing x sl w)) in H; [by apply H|done|].
  intros v e v' [Hs Hb] He E. rewrite (schedules_event v e v' E), <- Hb. split; [done|].
  eapply event_backing; [|exact E|done]. rewrite Forall_forall in Hl. by apply Hl.
Qed.

(** ** Claimability *)

(** Every record is of its key's type. *)
Definition kind_ok (k : GovKey) (r : GovRecord) : Prop :=
  match k, r with
  | KPolicy, RPolicy _ | KControl _, RControl _ | KController _, RAddress _ | KTreasuryNonce _, RU64 _
  | KDisbursement _, RDisbursement _ | KEmergency, RHash _ | KVesting, RVesting _ | KUnlocked _, RU64 _
  | KVestingNonce _, RU64 _ | KClaim _, RClaim _ => True
  | KTreasury t, RTreasury b => treasury_wire_byte (tb_treasury b) = t /\ tb_asset b = treasury_asset (tb_treasury b)
  | _, _ => False
  end.
Definition gov_typed (w : GovWorld) : Prop := map_Forall kind_ok (gw_gov w).
Lemma event_typed w e w' : gov_event w e = Ok w' -> gov_typed w -> gov_typed w'.
Proof.
  unfold gov_typed. intros He Hw. destruct e as [s|c now|st u].
  - apply spend_event in He as [_ ->]. rewrite spend_gov. by repeat apply map_Forall_insert_2.
  - apply unlock_event in He as (sch & _ & ->). rewrite unlock_gov. by repeat apply map_Forall_insert_2.
  - by injection He as <-.
Qed.
Lemma run_typed w l w' : rfold gov_event w l = Ok w' -> gov_typed w -> gov_typed w'.
Proof. intros H Hw. eapply (rfold_inv gov_event gov_typed); [done| |done]. intros; by eapply event_typed. Qed.
Lemma load_u64_typed w k :
  gov_typed w -> match k with KTreasuryNonce _ | KUnlocked _ | KVestingNonce _ => True | _ => False end ->
  load_u64 w k = Ok (u64_of w k).
Proof.
  intros Hw Hk. unfold load_u64, u64_of. destruct (gw_gov w !! k) as [r|] eqn:E; [|done].
  pose proof (Hw _ _ E) as Hkr. by destruct k, r.
Qed.

(** A disbursement is accepted exactly when it is well formed, signed by the
    treasury's recorded controller under the recorded policy, carries the next nonce, was not spent before,
    is covered by the treasury and can be received.  It then lowers that
    treasury by the amount, raises the nonce, is recorded, and pays the beneficiary in the treasury's own asset; no
    other governance record changes. *)
Theorem disbursement_correct (w : GovWorld) (s : TreasuryDisbursement) :
  (is_ok (disburse [] w s auth) = true <-> disbursement_valid w s) /\
  (forall b cr, disburse [] w s auth = Ok (b, cr) ->
    let w' := write_gov w b in
    let t := td_treasury s in
    treasury_of w' t = treasury_of w t - td_amount s /\ u64_of w' (KTreasuryNonce (treasury_wire_byte t)) = td_nonce s + 1 /\
    load_treasury_disbursement w' (did s) = Ok (Some s) /\
    (forall x, wallets x w' = wallets x w + (if bool_decide (treasury_asset t = x) then td_amount s else 0)) /\
    (forall k, k ∉ [KTreasury (treasury_wire_byte t); KTreasuryNonce (treasury_wire_byte t); KDisbursement (did s)] ->
       gw_gov w' !! k = gw_gov w !! k)).
Proof.
  split.
  - split.
    + destruct (disburse [] w s auth) as [r|] eqn:E; [|done]. intros _. by apply disburse_Ok in E as [Hv _].
    + intros Hv. by rewrite (proj2 (disburse_Ok [] w s _) (conj Hv eq_refl)).
  - intros b cr [Hv [= -> ->]]%disburse_Ok. cbn zeta. unfold treasury_of at 1, u64_of at 1, load_treasury_disbursement.
    rewrite spend_gov. cbn zeta. gov_lookup. split_and!; try done.
    + intros x. unfold disbursement_ops. by rewrite pay_wallets by first [apply Hv|repeat constructor].
    + intros k Hk. rewrite !not_elem_of_cons in Hk. destruct Hk as (? & ? & ? & _). by gov_lookup.
Qed.

(** In any history of accepted operations, a treasury falls exactly by what
    its disbursements paid and never below zero; each was signed by the
    controller recorded at the start, which no operation replaces, and their
    nonces are consecutive, so that none is applied twice. *)
Theorem treasury_history (w w' : GovWorld) (l : list GovEvent) (t : TreasuryId) :
  rfold gov_event w l = Ok w' -> 0 <= treasury_of w t ->
  0 <= treasury_of w' t /\ treasury_of w' t = treasury_of w t - zsum (td_amount <$> from_treasury t l) /\
  Forall (fun s => exists c, vt s auth = Ok c /\ load_treasury_controller w t = Ok (Some c)) (from_treasury t l) /\
  load_treasury_controller w' t = load_treasury_controller w t /\
  td_nonce <$> from_treasury t l = seqZ (u64_of w (KTreasuryNonce (treasury_wire_byte t))) (Z.of_nat (length (from_treasury t l))).
Proof. intros H H0. destruct (treasury_history_lemma w l w' t H) as (H1 & H2 & H3 & H4 & H5). auto 10. Qed.

(** C36: In any history of blocks not later than a time [T], a schedule pays
    what its accepted claims ask for, all of them signed by its beneficiary,
    and never more than has vested at [T], nor than its amount. *)
Theorem vesting_history (w w' : GovWorld) (l : list GovEvent) (T id : Z) (sl : list BlockZeroVesting) (s : BlockZeroVesting) :
  rfold gov_event w l = Ok w' -> load_vesting_schedules w = Ok sl -> List.find (fun s => sid s =? id) sl = Some s ->
  schedule_ok s -> Forall (until T) l -> u64_of w (KUnlocked id) = 0 ->
  zsum (vu_amount <$> from_schedule id l) = u64_of w' (KUnlocked id) /\
  u64_of w' (KUnlocked id) <= vested s T /\ vested s T <= bv_amount s /\
  Forall (fun c => vv c auth = Ok (bv_address s) /\ vu_beneficiary c = bv_address s /\ vu_asset c = bv_asset s) (from_schedule id l).
Proof.
  intros H Hsl Hf Hok HT H0. pose proof (vested_bounds s T Hok) as Hvb.
  destruct (vesting_history_lemma w l w' T id sl s H Hsl Hf Hok HT) as (H1 & H2 & H3 & _); [lia|]. split_and!; [lia|done|lia|done].
Qed.

(** Nothing vested is stuck: after any history, once a schedule's end and cliff have
    passed, a beneficiary's claim of the whole remainder (well formed, signed, with
    the next nonce, and receivable) is accepted and completes the schedule. *)
Theorem vesting_claimable (w w' : GovWorld) (l : list GovEvent) (now : Z) (sl : list BlockZeroVesting) (s : BlockZeroVesting) (c : VestingUnlock) :
  gov_typed w -> rfold gov_event w l = Ok w' -> load_vesting_schedules w = Ok sl ->
  List.find (fun s' => sid s' =? sid s) sl = Some s -> schedule_ok s -> bv_start s < bv_end s ->
  u64_of w (KUnlocked (sid s)) = 0 -> Z.max (bv_cliff s) (bv_end s) <= now ->
  vu_version c = 1 -> bv_address s <> 0 -> vv c auth = Ok (vu_beneficiary c) -> vu_schedule_id c = sid s ->
  vu_asset c = bv_asset s -> vu_beneficiary c = bv_address s ->
  vu_amount c = bv_amount s - u64_of w' (KUnlocked (sid s)) -> vu_amount c <> 0 ->
  vu_nonce c = u64_of w' (KVestingNonce (bv_address s)) -> vu_nonce c + 1 <= u64_max ->
  gw_gov w' !! KClaim (uid c) = None -> receivable w' (bv_asset s) (uid c) (bv_address s) (vu_amount c) ->
  exists w'', gov_event w' (EUnlock c now) = Ok w'' /\ u64_of w'' (KUnlocked (sid s)) = bv_amount s.
Proof.
  intros Hty H Hsl Hf Hok Hse H0 Hnow Hv Ha Hsig Hid Has Hben Ham Hz Hn Hno Hfr Hrc.
  set (T := foldr (fun e m => match e with EUnlock _ n => Z.max n m | _ => m end) 0 l).
  assert (Forall (until T) l) as HT.
  { subst T. clear. induction l as [|e l IH]; [constructor|]. constructor; [destruct e; simpl; try done; lia|].
    eapply Forall_impl; [exact IH|]. intros e' He'. destruct e, e'; simpl in *; try done; lia. }
  pose proof (vested_bounds s T Hok) as Hvb. destruct Hok as [Hu Hst].
  destruct (vesting_history_lemma w l w' T (sid s) sl s H Hsl Hf (conj Hu Hst) HT) as (_ & H2 & _ & H4); [lia|].
  pose proof (run_typed w l w' H Hty) as Hty'.
  pose proof (vested_end s now Hse ltac:(lia) ltac:(lia)) as Hend.
  eexists. split.
  - apply unlock_event. exists s. split; [|reflexivity]. rewrite <- Has, <- Hben in Hrc. constructor; try done.
    + split_and!; [done|congruence|done].
    + exists sl. by rewrite Hid.
    + rewrite Hben. split; [|done]. rewrite Hn. by apply load_u64_typed.
    + exists (u64_of w' (KUnlocked (sid s))). rewrite Hid, Hend. unfold in_u64 in Hu.
      split; [by apply load_u64_typed|]. lia.
  - unfold u64_of. rewrite unlock_gov, Hid. gov_lookup. lia.
Qed.
End ops.
