(* ===== verification/TreasuryRun.v ===== *)
(** * A block's governance lanes

    The treasury and vesting lanes of a block conserve each asset and, whatever
    lanes ran before them, are undone by the block's journal unless they pay an
    account it already holds; concrete treasuries and schedules, and two histories in
    which the code departs from its intent. *)

From stdpp Require Import base gmap list fin_maps strings sorting.
From Stdlib Require Import ZArith Lia.
From S2P Require Import Prelude Ordering Sums Types Finality Store Utxo UtxoProps Supply Accounts Staking StakingProps Lanes LanesProps Authority Policy Objects Envelopes Treasury TreasuryProps.
Local Open Scope Z_scope.

(** ** Reading a world by keys *)

Inductive GKey := GM (m : MetaKey) | GG (g : GovKey) | GU (op : OutPoint).
#[export] Instance GKey_eq_dec : EqDecision GKey.
Proof. solve_decision. Defined.
Definition gkey (op : GovOp) : GKey :=
  match op with
  | GMeta o => GM (op_key o)
  | GGov k _ => GG k
  | GUtxo (UPut o _) | GUtxo (UDelete o) => GU o
  end.
(** The write that puts the record of a key back. *)
Definition gread (w : GovWorld) (k : GKey) : GovOp :=
  match k with
  | GM m => GMeta (snapshot_op (gw_store w) m)
  | GG g => GGov g (gw_gov w !! g)
  | GU o => GUtxo (match gw_utxos w !! o with Some out => UPut o out | None => UDelete o end)
  end.
Lemma gread_apply w op k : gread (apply_gov_op w op) k = if bool_decide (k = gkey op) then op else gread w k.
Proof.
  case_bool_decide as Hk.
  - subst k. destruct op as [o|g v|[o out|o]]; simpl.
    + by rewrite snapshot_apply_eq.
    + by rewrite lookup_partial_alter_eq.
    + by rewrite lookup_insert_eq.
    + by rewrite lookup_delete_eq.
  - destruct k as [m|g|o], op as [o'|g' v|[o' out|o']]; simpl in *; try done.
    + by rewrite snapshot_apply_ne by congruence.
    + by rewrite lookup_partial_alter_ne by congruence.
    + by rewrite lookup_insert_ne by congruence.
    + by rewrite lookup_delete_ne by congruence.
Qed.
Lemma world_ext w1 w2 : (forall k, gread w1 k = gread w2 k) -> w1 = w2.
Proof.
  intros H. destruct w1 as [s1 g1 u1], w2 as [s2 g2 u2]. f_equal.
  - apply store_ext. intros m. specialize (H (GM m)). by injection H.
  - apply map_eq. intros k. specialize (H (GG k)). by injection H.
  - apply map_eq. intros o. specialize (H (GU o)). simpl in H. destruct (u1 !! o), (u2 !! o); congruence.
Qed.
Lemma gread_write_other w b k : Forall (fun op => gkey op <> k) b -> gread (write_gov w b) k = gread w k.
Proof.
  revert w. induction b as [|op b IH]; intros w Hb; [done|]. apply Forall_cons in Hb as [Ho Hb].
  unfold write_gov in *. simpl. rewrite IH by done. by rewrite gread_apply, bool_decide_eq_false_2 by congruence.
Qed.

(** The first record of a key in an undo log is what remains after the log. *)
Definition gfirst (log : list GovOp) (k : GKey) : option GovOp := List.find (fun op => bool_decide (gkey op = k)) log.
Lemma gfirst_app l1 l2 k : gfirst (l1 ++ l2) k = match gfirst l1 k with Some op => Some op | None => gfirst l2 k end.
Proof. induction l1 as [|op l1 IH]; [done|]. unfold gfirst in *. simpl. by case_bool_decide. Qed.
Lemma gfirst_None l k : gfirst l k = None <-> Forall (fun op => gkey op <> k) l.
Proof.
  unfold gfirst. induction l as [|op l IH]; [by split|]. rewrite Forall_cons. simpl. case_bool_decide; naive_solver.
Qed.
Lemma gfirst_Some l k op : gfirst l k = Some op -> op ∈ l /\ gkey op = k.
Proof. unfold gfirst. intros [H1 H2]%List.find_some. apply bool_decide_eq_true_1 in H2. by rewrite list_elem_of_In. Qed.
Lemma gread_revert w log k :
  gread (write_gov w (reverse log)) k = match gfirst log k with Some op => op | None => gread w k end.
Proof.
  induction log as [|op log IH]; [done|]. rewrite reverse_cons, write_gov_app. unfold gfirst in *. simpl.
  rewrite gread_apply. rewrite (bool_decide_ext (k = gkey op) (gkey op = k)) by (split; congruence). by case_bool_decide.
Qed.
Lemma gfirst_snapshot w keys k :
  gfirst (snapshot_gov w keys) k =
    match k with
    | GM m => if bool_decide (inl m ∈ keys) then Some (gread w k) else None
    | GG g => if bool_decide (inr g ∈ keys) then Some (gread w k) else None
    | GU _ => None
    end.
Proof.
  unfold snapshot_gov, gfirst. induction keys as [|[m|g] keys IH]; cbn [fmap list_fmap List.find gkey].
  - by destruct k.
  - rewrite op_key_snapshot. destruct k as [m'|g'|o].
    + destruct (decide (m = m')) as [->|Hm].
      * rewrite !bool_decide_eq_true_2; [done|left|done].
      * rewrite bool_decide_eq_false_2 by congruence. rewrite IH.
        rewrite (bool_decide_ext (inl m' ∈ keys) (inl m' ∈ inl m :: keys)) by (rewrite elem_of_cons; naive_solver). done.
    + rewrite bool_decide_eq_false_2 by done. rewrite IH.
      rewrite (bool_decide_ext (inr g' ∈ keys) (inr g' ∈ inl m :: keys)) by (rewrite elem_of_cons; naive_solver). done.
    + by rewrite bool_decide_eq_false_2.
  - destruct k as [m'|g'|o].
    + rewrite bool_decide_eq_false_2 by done. rewrite IH.
      rewrite (bool_decide_ext (inl m' ∈ keys) (inl m' ∈ inr g :: keys)) by (rewrite elem_of_cons; naive_solver). done.
    + destruct (decide (g = g')) as [->|Hm].
      * rewrite !bool_decide_eq_true_2; [done|left|done].
      * rewrite bool_decide_eq_false_2 by congruence. rewrite IH.
        rewrite (bool_decide_ext (inr g' ∈ keys) (inr g' ∈ inr g :: keys)) by (rewrite elem_of_cons; naive_solver). done.
    + by rewrite bool_decide_eq_false_2.
Qed.

(** ** The lanes *)

Definition gov_log (j : GovJournal) : list GovOp :=
  passport_meta_before j ++ (GMeta <$> lane_log (gj_lanes j)) ++ ((fun op => GUtxo (UDelete op)) <$> gj_created j).
Lemma revert_gov_run j : journal_wf (gj_lanes j) -> revert_gov_journal j = Ok (reverse (gov_log j)).
Proof.
  intros H. unfold revert_gov_journal, gov_log. rewrite revert_run by done. cbn [rbind].
  by rewrite !reverse_app, !fmap_reverse, <- app_assoc.
Qed.

(** Records compared through a normal form of the writes that restore them: as
    they are, or with a missing account read as the zero account. *)
Definition gnorm (f : WriteOp -> WriteOp) (op : GovOp) : GovOp := match op with GMeta o => GMeta (f o) | _ => op end.
#[export] Instance world_equiv : Equiv GovWorld := fun w1 w2 => gw_store w1 ≡ gw_store w2 /\ gw_gov w1 = gw_gov w2 /\ gw_utxos w1 = gw_utxos w2.
Lemma world_equiv_views w1 w2 : (forall k, gnorm norm (gread w1 k) = gnorm norm (gread w2 k)) -> w1 ≡ w2.
Proof.
  intros H. split_and!.
  - intros m. specialize (H (GM m)). by injection H.
  - apply map_eq. intros k. specialize (H (GG k)). by injection H.
  - apply map_eq. intros o. specialize (H (GU o)). simpl in H. destruct (gw_utxos w1 !! o), (gw_utxos w2 !! o); congruence.
Qed.

(** The journal of a block so far undoes the lane to the world [w0]: the first entry
    of a key in the order of the revert is its record in [w0], and a key
    without entry has not changed. *)
Record undo_inv (f : WriteOp -> WriteOp) (w0 : GovWorld) (st : GovLane) : Prop := {
  ui_log k : match gfirst (gov_log (gl_journal st)) k with
             | Some op => gnorm f op = gnorm f (gread w0 k)
             | None => gnorm f (gread (gl_lane st) k) = gnorm f (gread w0 k)
             end;
  ui_wf : journal_wf (gj_lanes (gl_journal st));
}.
(** No earlier lane has journaled the account, or these lanes have snapshotted it. *)
Definition payee_ok (st : GovLane) (x : NativeAssetId) (a : Address) : Prop :=
  is_account_asset x = true ->
  gfirst (GMeta <$> lane_log (gj_lanes (gl_journal st))) (GM (KAccount x a)) = None \/
  is_Some (gfirst (passport_meta_before (gl_journal st)) (GM (KAccount x a))).
Definition gov_lane_start (w : GovWorld) : GovLane :=
  {| gl_lane := w; gl_batch := []; gl_journal := empty_gov_journal; gl_created_in_block := ∅; gl_seen := [] |}.
Lemma undo_start f w : undo_inv f w (gov_lane_start w).
Proof. split; [done|split; constructor]. Qed.
Lemma start_payees w x a : payee_ok (gov_lane_start w) x a.
Proof. by left. Qed.
(** After the ticket, transfer and stake lanes of a block. *)
Definition after_accounts (w : GovWorld) (ls : LaneState) : GovLane :=
  {| gl_lane := {| gw_store := lane ls; gw_gov := gw_gov w; gw_utxos := gw_utxos w |}; gl_batch := GMeta <$> ls_batch ls;
     gl_journal := {| gj_lanes := ls_journal ls; gj_created := []; passport_meta_before := [] |};
     gl_created_in_block := ∅; gl_seen := [] |}.
Lemma gfirst_meta l k :
  gfirst (GMeta <$> l) k = match k with GM m => GMeta <$> first_record l m | _ => None end.
Proof.
  induction l as [|o l IH]; [by destruct k|]. unfold gfirst in *. cbn [fmap list_fmap List.find gkey]. destruct k as [m|g|o'].
  - rewrite first_record_cons. rewrite (bool_decide_ext (GM (op_key o) = GM m) (op_key o = m)) by (split; congruence). by case_bool_decide.
  - by rewrite bool_decide_eq_false_2.
  - by rewrite bool_decide_eq_false_2.
Qed.
Lemma undo_accounts w ls : lane_inv (gw_store w) ls -> undo_inv norm w (after_accounts w ls).
Proof.
  intros [_ Hu Hw _ _]. split; [|done]. intros k. unfold gov_log.
  cbn [after_accounts gl_journal passport_meta_before gj_lanes gj_created fmap list_fmap app]. rewrite app_nil_r, gfirst_meta.
  destruct k as [m|g|o]; [|done|done]. specialize (Hu m). unfold view in Hu. destruct (first_record (lane_log (ls_journal ls)) m); cbn; by f_equal.
Qed.

Lemma undo_log_restores f w0 st :
  undo_inv f w0 st -> exists b, revert_gov_journal (gl_journal st) = Ok b /\
    forall k, gnorm f (gread (write_gov (gl_lane st) b) k) = gnorm f (gread w0 k).
Proof.
  intros [Hl Hw]. exists (reverse (gov_log (gl_journal st))). split; [by apply revert_gov_run|].
  intros k. rewrite gread_revert. specialize (Hl k). by destruct (gfirst _ k).
Qed.

Lemma accept_Ok st st' keys asset to amount id run ops cr :
  gov_lane_accept st keys asset to amount id run = Ok st' -> run (gl_lane st) = Ok (ops, cr) ->
  exists acc, acc = (if is_account_asset asset then [(asset, to, acct_of (gw_store (gl_lane st)) asset to)] else []) /\
    gl_lane st' = write_gov (gl_lane st) ops /\
    gl_journal st' = {| gj_lanes := journal_extend (gj_lanes (gl_journal st)) acc [] [];
      gj_created := gj_created (gl_journal st) ++ option_list cr;
      passport_meta_before := passport_meta_before (gl_journal st) ++
        snapshot_gov (gl_lane st) ((inr <$> keys) ++ (if is_account_asset asset then [inl (KAccount asset to)] else [])) |}.
Proof.
  unfold gov_lane_accept. intros H Hrun. rewrite Hrun in H. apply rbind_Ok in H as (acc & Hacc & H). cbn [rbind] in H. injection H as <-.
  exists acc. split; [|done]. destruct asset; cbn in Hacc; unfold load_account in Hacc; cbn in Hacc; by injection Hacc as <-.
Qed.
Lemma lane_log_extend j acc : lane_log (journal_extend j acc [] []) = lane_log j ++ (acct_undo <$> acc).
Proof. unfold lane_log. cbn. by rewrite !app_nil_r, fmap_app, !app_assoc. Qed.
Lemma gfirst_created l k : gfirst ((fun op => GUtxo (UDelete op)) <$> l) k =
  match k with GU o => if bool_decide (o ∈ l) then Some (GUtxo (UDelete o)) else None | _ => None end.
Proof.
  induction l as [|o l IH]; [by destruct k|]. unfold gfirst in *. cbn [fmap list_fmap List.find gkey]. rewrite IH. destruct k as [m|g|o'].
  - by rewrite bool_decide_eq_false_2.
  - by rewrite bool_decide_eq_false_2.
  - destruct (decide (o = o')) as [->|Hne].
    + by rewrite !bool_decide_eq_true_2 by (done || left).
    + rewrite (bool_decide_eq_false_2 (GU o = GU o')) by congruence.
      rewrite (bool_decide_ext (o' ∈ o :: l) (o' ∈ l)) by (rewrite elem_of_cons; naive_solver). done.
Qed.

(** One accepted operation. *)
Section accepted.
Variables (st st' : GovLane) (keys : list GovKey) (asset : NativeAssetId) (to : Address) (amount : Z) (id : Hash).
Variables (run : GovWorld -> result StateError (list GovOp * option OutPoint)) (gops : list GovOp).
Hypothesis Haccept : gov_lane_accept st keys asset to amount id run = Ok st'.
Hypothesis Hrun : run (gl_lane st) = Ok (gops ++ pay_ops (gl_lane st) asset id to amount, pay_created asset id).
Hypothesis Hreceivable : receivable (gl_lane st) asset id to amount.
Hypothesis Hgops : Forall (fun op => exists g, gkey op = GG g /\ g ∈ keys) gops.
Abbreviation ks := ((inr <$> keys) ++ (if is_account_asset asset then [inl (KAccount asset to)] else [])).

(** A key that is not snapshotted and is no new output is not written. *)
Lemma unsnapped_unwritten k :
  gfirst (snapshot_gov (gl_lane st) ks) k = None -> (forall o, k = GU o -> o ∉ option_list (pay_created asset id)) ->
  Forall (fun op => gkey op <> k) (gops ++ pay_ops (gl_lane st) asset id to amount).
Proof.
  intros Hs Ho. rewrite gfirst_snapshot in Hs. apply Forall_app. split.
  - eapply Forall_impl; [exact Hgops|]. intros op (g & -> & Hg) <-. rewrite bool_decide_eq_true_2 in Hs; [done|].
    apply elem_of_app. left. by apply list_elem_of_fmap_2.
  - destruct asset; unfold pay_ops; rewrite Forall_singleton; cbn [gkey op_key]; intros <-.
    + by apply (Ho _ eq_refl); left.
    + rewrite bool_decide_eq_true_2 in Hs; [done|]. cbn. set_solver.
    + rewrite bool_decide_eq_true_2 in Hs; [done|]. cbn. set_solver.
Qed.
Lemma undo_step f w0 : undo_inv f w0 st -> payee_ok st asset to -> undo_inv f w0 st'.
Proof.
  intros [Hl Hw] Hp. destruct (accept_Ok _ _ _ _ _ _ _ _ _ _ Haccept Hrun) as (acc & Eacc & Elane & Ej). split.
  - intros k. specialize (Hl k). rewrite Ej, Elane. unfold gov_log in *. cbn [passport_meta_before gj_lanes gj_created].
    rewrite lane_log_extend, fmap_app, fmap_app, !gfirst_app, !gfirst_created, !gfirst_meta in *.
    destruct (gfirst (passport_meta_before (gl_journal st)) k) as [op|] eqn:Epass; [done|].
    destruct (gfirst (snapshot_gov (gl_lane st) ks) k) as [op|] eqn:Esnap.
    + rewrite gfirst_snapshot in Esnap. destruct k as [m|g|o]; [|case_bool_decide; [|done]; injection Esnap as <-; done|done].
      case_bool_decide as Hm; [|done]. injection Esnap as <-.
      assert (is_account_asset asset = true /\ m = KAccount asset to) as [Hasset ->].
      { apply elem_of_app in Hm as [(? & ? & _)%list_elem_of_fmap|Hm]; [done|]. destruct (is_account_asset asset); [|by apply elem_of_nil in Hm].
        apply list_elem_of_singleton in Hm. by injection Hm as ->. }
      destruct (Hp Hasset) as [Hnone|[x Hx]]; [|congruence]. rewrite gfirst_meta in Hnone.
      destruct (first_record (lane_log (gj_lanes (gl_journal st))) (KAccount asset to)); [done|]. exact Hl.
    + assert (match k with GM m => GMeta <$> first_record (acct_undo <$> acc) m | _ => None end = None) as Eacc2.
      { destruct k as [m|g|o]; [|done|done]. rewrite gfirst_snapshot in Esnap. case_bool_decide as Hm; [done|]. rewrite Eacc.
        destruct (is_account_asset asset) eqn:Hasset; [|done]. cbn. rewrite bool_decide_eq_false_2; [done|]. cbn. intros <-. apply Hm. set_solver. }
      rewrite Eacc2. destruct k as [m|g|o].
      * destruct (first_record (lane_log (gj_lanes (gl_journal st))) m); [done|]. cbn [fmap option_fmap option_map] in *. rewrite gread_write_other by by apply unsnapped_unwritten. done.
      * rewrite gread_write_other by by apply unsnapped_unwritten. done.
      * case_bool_decide as Hc; [done|]. case_bool_decide as Hn.
        -- destruct asset; try by apply elem_of_nil in Hn. apply list_elem_of_singleton in Hn as ->. cbn in Hl, Hreceivable.
           by rewrite Hreceivable in Hl.
        -- rewrite gread_write_other; [done|]. apply unsnapped_unwritten; [done|]. by intros ? [= <-].
  - rewrite Ej. destruct Hw as [H1 H2 H3]. split; cbn; rewrite ?app_nil_r; [done|done|]. apply Forall_app. split; [done|]. rewrite Eacc.
    destruct asset; [constructor|by repeat constructor..].
Qed.
Lemma payee_step x a : payee_ok st x a -> payee_ok st' x a.
Proof.
  intros Hp Hx. destruct (accept_Ok _ _ _ _ _ _ _ _ _ _ Haccept Hrun) as (acc & Eacc & _ & Ej). rewrite Ej. cbn [passport_meta_before gj_lanes].
  rewrite lane_log_extend, fmap_app, !gfirst_app. destruct (Hp Hx) as [Hn|[y Hy]]; [|right; by rewrite Hy].
  destruct (gfirst (passport_meta_before (gl_journal st)) (GM (KAccount x a))); [by right|]. rewrite Hn, gfirst_meta, gfirst_snapshot, Eacc.
  destruct (decide (asset = x /\ to = a)) as [[-> ->]|Hne].
  - right. rewrite Hx, bool_decide_eq_true_2 by set_solver. done.
  - left. destruct (is_account_asset asset); [|done]. cbn. rewrite bool_decide_eq_false_2; [done|]. cbn. intros [= -> ->]. by apply Hne.
Qed.
End accepted.

Section lanes.
Context {Auth : Type}.
Variable vt : TreasuryDisbursement -> Auth -> result string Address.
Variable vv : VestingUnlock -> Auth -> result string Address.
Variable did : TreasuryDisbursement -> Hash.
Variable uid : VestingUnlock -> Hash.
Variable sid : BlockZeroVesting -> Hash.
Variable chash aroot : Hash.
Variable auth : Auth.
Abbreviation event := (gov_event vt vv did uid sid chash aroot auth).
Abbreviation lanes := (apply_governance_lanes vt vv did uid sid chash aroot auth).

(** A step of a lane is an event, and keeps what the journal undoes. *)
Lemma treasury_step st s st' :
  treasury_lane_step vt did chash aroot auth st s = Ok st' ->
  event (gl_lane st) (ESpend s) = Ok (gl_lane st') /\
  (forall f w0, undo_inv f w0 st -> payee_ok st (treasury_asset (td_treasury s)) (td_beneficiary s) -> undo_inv f w0 st') /\
  (forall x a, payee_ok st x a -> payee_ok st' x a).
Proof.
  unfold treasury_lane_step. intros H. inv_ok.
  assert (exists r, apply_treasury_disbursement_into vt did chash aroot [] (gl_lane st) s auth = Ok r) as [r Hr].
  { unfold gov_lane_accept in H1. inv_ok. eauto. }
  apply disburse_Ok in Hr as [Hv ->].
  assert (apply_treasury_disbursement_into vt did chash aroot [] (gl_lane st) s auth =
    Ok (disbursement_ops did (gl_lane st) s, pay_created (treasury_asset (td_treasury s)) (did s))) as Hrun by (by apply disburse_Ok).
  assert (forall keys, keys = [KTreasury (treasury_wire_byte (td_treasury s)); KTreasuryNonce (treasury_wire_byte (td_treasury s)); KDisbursement (did s)] ->
    Forall (fun op => exists g, gkey op = GG g /\ g ∈ keys) (take 3 (disbursement_ops did (gl_lane st) s))) as Hg.
  { intros keys ->. repeat constructor; eexists; (split; [reflexivity|set_solver]). }
  specialize (Hg _ eq_refl). change (disbursement_ops did (gl_lane st) s) with (take 3 (disbursement_ops did (gl_lane st) s) ++
    pay_ops (gl_lane st) (treasury_asset (td_treasury s)) (did s) (td_beneficiary s) (td_amount s)) in Hrun.
  split; [|split].
  - apply (proj2 (spend_event vt vv did uid sid chash aroot auth _ s _)).
    destruct (accept_Ok _ _ _ _ _ _ _ _ _ _ H1 Hrun) as (_ & _ & -> & _). done.
  - intros f w0 Hu Hp. eapply undo_step; [exact H1|exact Hrun|apply Hv|exact Hg|exact Hu|exact Hp].
  - intros y b Hp. eapply payee_step; [exact H1|exact Hrun|apply Hv|exact Hg|exact Hp].
Qed.
Lemma vesting_step st c now st' :
  vesting_lane_step vv uid sid auth now st c = Ok st' ->
  event (gl_lane st) (EUnlock c now) = Ok (gl_lane st') /\
  (forall f w0, undo_inv f w0 st -> payee_ok st (vu_asset c) (vu_beneficiary c) -> undo_inv f w0 st') /\
  (forall x a, payee_ok st x a -> payee_ok st' x a).
Proof.
  unfold vesting_lane_step. intros H. inv_ok.
  assert (exists r, apply_vesting_unlock_into vv uid sid [] (gl_lane st) c auth now = Ok r) as [r Hr].
  { unfold gov_lane_accept in H1. inv_ok. eauto. }
  apply unlock_Ok in Hr as (sch & Hv & ->).
  assert (apply_vesting_unlock_into vv uid sid [] (gl_lane st) c auth now =
    Ok (unlock_ops uid (gl_lane st) c, pay_created (vu_asset c) (uid c))) as Hrun by (apply unlock_Ok; by exists sch).
  assert (forall keys, keys = [KUnlocked (vu_schedule_id c); KVestingNonce (vu_beneficiary c); KClaim (uid c)] ->
    Forall (fun op => exists g, gkey op = GG g /\ g ∈ keys) (take 3 (unlock_ops uid (gl_lane st) c))) as Hg.
  { intros keys ->. repeat constructor; eexists; (split; [reflexivity|set_solver]). }
  specialize (Hg _ eq_refl). change (unlock_ops uid (gl_lane st) c) with (take 3 (unlock_ops uid (gl_lane st) c) ++
    pay_ops (gl_lane st) (vu_asset c) (uid c) (vu_beneficiary c) (vu_amount c)) in Hrun.
  split; [|split].
  - apply (proj2 (unlock_event vt vv did uid sid chash aroot auth _ c now _)). exists sch.
    destruct (accept_Ok _ _ _ _ _ _ _ _ _ _ H1 Hrun) as (_ & _ & -> & _). done.
  - intros f w0 Hu Hp. eapply undo_step; [exact H1|exact Hrun|apply Hv|exact Hg|exact Hu|exact Hp].
  - intros y b Hp. eapply payee_step; [exact H1|exact Hrun|apply Hv|exact Hg|exact Hp].
Qed.
(** The accounts the lanes pay. *)
Definition payees (spends : list TreasuryDisbursement) (claims : list VestingUnlock) : list (NativeAssetId * Address) :=
  ((fun s => (treasury_asset (td_treasury s), td_beneficiary s)) <$> spends) ++ ((fun c => (vu_asset c, vu_beneficiary c)) <$> claims).
(** A block's lanes are a history, and keep what the journal undoes. *)
Lemma lanes_run st spends claims now st' :
  lanes st spends claims now = Ok st' ->
  rfold event (gl_lane st) ((ESpend <$> spends) ++ ((fun c => EUnlock c now) <$> claims)) = Ok (gl_lane st') /\
  (forall f w0, undo_inv f w0 st -> Forall (fun p => payee_ok st p.1 p.2) (payees spends claims) -> undo_inv f w0 st').
Proof.
  assert (forall {A} (step : GovLane -> A -> result StateError GovLane) (ev : A -> GovEvent) (pay : A -> NativeAssetId * Address) l s s',
    (forall s x s', step s x = Ok s' -> event (gl_lane s) (ev x) = Ok (gl_lane s') /\
       (forall f w0, undo_inv f w0 s -> payee_ok s (pay x).1 (pay x).2 -> undo_inv f w0 s') /\ (forall y a, payee_ok s y a -> payee_ok s' y a)) ->
    rfold step s l = Ok s' -> rfold event (gl_lane s) (ev <$> l) = Ok (gl_lane s') /\
      (forall f w0, undo_inv f w0 s -> Forall (fun p => payee_ok s p.1 p.2) (pay <$> l) -> undo_inv f w0 s') /\
      (forall y a, payee_ok s y a -> payee_ok s' y a)) as Hrun.
  { intros A step ev pay l. induction l as [|x l IH]; intros s s' Hstep E; [injection E as <-; done|].
    apply rbind_Ok in E as (s1 & E1 & E2). destruct (Hstep _ _ _ E1) as (H1 & H2 & H3). destruct (IH s1 s' Hstep E2) as (H4 & H5 & H6).
    cbn [fmap list_fmap rfold]. rewrite H1. cbn [rbind]. split; [done|]. split; [|auto].
    intros f w0 Hu [Hx Hl]%Forall_cons. apply H5; [by apply H2|]. eapply Forall_impl; [exact Hl|]. intros p. apply H3. }
  unfold apply_governance_lanes, payees. intros H. apply rbind_Ok in H as (st1 & H1 & H2).
  destruct (Hrun _ _ ESpend (fun s => (treasury_asset (td_treasury s), td_beneficiary s)) _ _ _ (fun s x s' => treasury_step s x s') H1) as (E1 & U1 & P1).
  destruct (Hrun _ _ (fun c => EUnlock c now) (fun c => (vu_asset c, vu_beneficiary c)) _ _ _ (fun s x s' => vesting_step s x now s') H2) as (E2 & U2 & _).
  split; [rewrite rfold_app; cbn [next_gov_lane gl_lane] in E1, E2; rewrite E1; exact E2|].
  intros f w0 Hu [Hs Hc]%Forall_app. apply U2.
  - destruct (U1 f w0) as [Ul Uw]; [by destruct Hu|done|]. by split.
  - eapply Forall_impl; [exact Hc|]. intros p Hp. by apply (P1 p.1 p.2).
Qed.

(** C35: The treasury and vesting lanes of a block conserve every asset, whatever
    lanes ran before them: treasury, accounts, stakes, outputs and what claimable
    schedules still owe add up to the same, whatever they pay.  And they keep the
    block's journal good: if the journal of the earlier lanes undoes to a world, and
    none of the accounts these lanes pay is in it, then the journal after them
    reverts, and reverting restores that world, every governance record and output
    exactly and every account and stake (a missing account may come back as the zero
    account it reads as); when no lane ran before them, exactly.  (An account an
    earlier lane of the block journaled is not restored: see the finding.) *)
Theorem governance_lanes_sound (w0 : GovWorld) (st0 : GovLane) (spends : list TreasuryDisbursement) (claims : list VestingUnlock)
  (now : Z) (st : GovLane) (sl : list BlockZeroVesting) :
  lanes st0 spends claims now = Ok st -> load_vesting_schedules (gl_lane st0) = Ok sl ->
  (forall x, backing sid x sl (gl_lane st) = backing sid x sl (gl_lane st0)) /\
  (undo_inv norm w0 st0 -> Forall (fun p => payee_ok st0 p.1 p.2) (payees spends claims) ->
     exists b, revert_gov_journal (gl_journal st) = Ok b /\ write_gov (gl_lane st) b ≡ w0) /\
  (st0 = gov_lane_start w0 -> exists b, revert_gov_journal (gl_journal st) = Ok b /\ write_gov (gl_lane st) b = w0).
Proof.
  intros H Hsl. destruct (lanes_run _ _ _ _ _ H) as [Hrun Hu]. split; [|split].
  - intros x. eapply run_backing; [exact Hrun| |exact Hsl]. apply Forall_app. split; apply Forall_fmap, Forall_true; done.
  - intros Hu0 Hp. destruct (undo_log_restores _ _ _ (Hu norm w0 Hu0 Hp)) as (b & Hb & Hk). exists b. split; [done|]. by apply world_equiv_views.
  - intros ->. destruct (undo_log_restores _ _ _ (Hu (fun o => o) w0 (undo_start _ w0) ltac:(apply Forall_forall; intros p _; apply start_payees))) as (b & Hb & Hk).
    exists b. split; [done|]. apply world_ext. intros k. specialize (Hk k). by destruct (gread _ k), (gread w0 k).
Qed.
End lanes.

(** ** Examples *)

(** A signer's address is the first byte of its key; ids are built from the nonces. *)
Definition demo_vt (s : TreasuryDisbursement) (_ : unit) : result string Address := ok_or "bad key"%string (head (td_public_key s)).
Definition demo_vv (c : VestingUnlock) (_ : unit) : result string Address := ok_or "bad key"%string (head (vu_public_key c)).
Definition demo_did (s : TreasuryDisbursement) : Hash := 1000 + td_nonce s.
Definition demo_uid (c : VestingUnlock) : Hash := 2000 + vu_nonce c.
Definition demo_sid (s : BlockZeroVesting) : Hash := 3000 + bv_address s.
Definition demo_schedule (asset : NativeAssetId) : BlockZeroVesting :=
  {| bv_asset := asset; bv_address := 8; bv_amount := 100; bv_start := 10; bv_cliff := 20; bv_end := 30 |}.
Definition demo_gov_ops : list GovOp :=
  [GGov (KTreasury 1) (Some (RTreasury {| tb_treasury := OvlBuilder; tb_asset := OVL; tb_balance := 40 |}));
   GGov (KController 1) (Some (RAddress 5)); GGov KVesting (Some (RVesting [demo_schedule OVL]));
   GMeta (PutAccount OVL 7 {| balance := 10; nonce := 0 |})].
Definition demo_world : GovWorld := write_gov {| gw_store := empty_store; gw_gov := ∅; gw_utxos := ∅ |} demo_gov_ops.
Definition demo_spend (to amount n : Z) : TreasuryDisbursement :=
  {| td_version := 1; td_treasury := OvlBuilder; td_beneficiary := to; td_amount := amount; td_reason_hash := 3;
     td_authorization_root := 77; td_nonce := n; td_public_key := [5]; td_signature := [] |}.
Definition demo_unlock (asset : NativeAssetId) (amount n : Z) : VestingUnlock :=
  {| vu_version := 1; vu_asset := asset; vu_beneficiary := 8; vu_schedule_id := 3008; vu_amount := amount; vu_nonce := n;
     vu_public_key := [8]; vu_signature := [] |}.
Abbreviation demo_event := (gov_event demo_vt demo_vv demo_did demo_uid demo_sid 66 77 tt).
Definition demo_history : list GovEvent := [ESpend (demo_spend 9 10 0); EUnlock (demo_unlock OVL 50 0) 20; ESpend (demo_spend 9 30 1)].

Lemma treasury_history_witness :
  exists w', rfold demo_event demo_world demo_history = Ok w' /\ treasury_of w' OvlBuilder = 0.
Proof.
  destruct (rfold demo_event demo_world demo_history) as [w'|] eqn:E; [|vm_compute in E; discriminate E].
  exists w'. split; [done|].
  destruct (treasury_history demo_vt demo_vv demo_did demo_uid demo_sid 66 77 tt demo_world w' demo_history OvlBuilder E) as (_ & H & _);
    [vm_compute; discriminate|]. rewrite H. vm_compute. reflexivity.
Defined.
Lemma vesting_history_witness :
  exists w', rfold demo_event demo_world demo_history = Ok w' /\ u64_of w' (KUnlocked 3008) = 50 /\ 50 <= vested (demo_schedule OVL) 20.
Proof.
  destruct (rfold demo_event demo_world demo_history) as [w'|] eqn:E; [|vm_compute in E; discriminate E].
  exists w'. split; [done|].
  destruct (vesting_history demo_vt demo_vv demo_did demo_uid demo_sid 66 77 tt demo_world w' demo_history 20 3008 [demo_schedule OVL] (demo_schedule OVL) E)
    as (H1 & H2 & _); [vm_compute; reflexivity..|split; [unfold in_u64, u64_max; simpl; lia|simpl; lia]| |vm_compute; reflexivity|].
  - repeat constructor. simpl. lia.
  - change (zsum (vu_amount <$> from_schedule 3008 demo_history)) with 50 in H1. by rewrite <- H1 in H2 |- *.
Defined.
Lemma vesting_claimable_witness :
  exists w' w'', rfold demo_event demo_world demo_history = Ok w' /\
    demo_event w' (EUnlock (demo_unlock OVL 50 1) 30) = Ok w'' /\ u64_of w'' (KUnlocked 3008) = 100.
Proof.
  destruct (rfold demo_event demo_world demo_history) as [w'|] eqn:E; [|vm_compute in E; discriminate E]. exists w'.
  destruct (vesting_claimable demo_vt demo_vv demo_did demo_uid demo_sid 66 77 tt demo_world w' demo_history 30 [demo_schedule OVL]
    (demo_schedule OVL) (demo_unlock OVL 50 1)) as (w'' & H1 & H2); [| exact E | vm_compute; reflexivity.. | | | | | | | | | | | | | | | | |].
  - apply map_Forall_to_list. vm_compute. repeat constructor.
  - split; [unfold in_u64, u64_max; simpl; lia|simpl; lia].
  - simpl. lia.
  - vm_compute. reflexivity.
  - simpl. lia.
  - reflexivity.
  - simpl. lia.
  - reflexivity.
  - reflexivity.
  - reflexivity.
  - reflexivity.
  - vm_compute in E. injection E as <-. vm_compute. reflexivity.
  - simpl. lia.
  - vm_compute in E. injection E as <-. vm_compute. reflexivity.
  - vm_compute. discriminate.
  - vm_compute in E. injection E as <-. vm_compute. reflexivity.
  - vm_compute in E. injection E as <-. vm_compute. discriminate.
  - exists w''. auto.
Defined.
(** A block in which account 7 sends 3 OVL to account 6 before the treasury pays
    account 9 and account 8 claims. *)
Definition first_transfer : AccountTransfer :=
  {| at_tx_version := 2; at_asset := OVL; at_from := 7; at_to := 6; at_amount := 3; at_fee := 0; at_nonce := 0;
     at_account_sequence := None; at_public_key := []; at_tx_signature := [] |}.
Definition first_block : LaneBlock := {| drc_ticket_creates := []; account_transfers := [first_transfer]; stake_ops := [] |}.
Definition first_lanes : result StateError
    (LaneState * (list TransactionAcceptance * list TransactionAcceptance * list TransactionAcceptance)) :=
  apply_account_lanes (fun _ _ (_ : unit) => Ok tt) (fun _ _ _ => Ok tt) (fun _ _ _ => Ok tt) tc_nonce at_nonce sx_nonce Virtual
    (gw_store demo_world) first_block (Some tt).
Lemma paid_accounts_ok : accounts_ok (gw_store demo_world).
Proof.
  assert (forall x a, acct_of (gw_store demo_world) x a = if bool_decide ((x, a) = (OVL, 7)) then {| balance := 10; nonce := 0 |} else default_account) as Ha.
  { intros x a. change (acct_of (apply_op empty_store (PutAccount OVL 7 {| balance := 10; nonce := 0 |})) x a = if bool_decide ((x, a) = (OVL, 7)) then {| balance := 10; nonce := 0 |} else default_account).
    unfold acct_of. cbn. case_bool_decide as E; [injection E as -> ->; by rewrite lookup_insert_eq|]. by rewrite lookup_insert_ne, lookup_empty by congruence. }
  split.
  - intros x a. rewrite Ha. case_bool_decide; unfold_ints; cbn; lia.
  - intros o r H. change (st_tickets (gw_store demo_world)) with (∅ : gmap Address DrcAccountTickets) in H. by rewrite lookup_empty in H.
  - intros o t H. change (tickets_of (gw_store demo_world) o) with (@nil Z) in H. by apply elem_of_nil in H.
Qed.
Lemma demo_staking_ok : staking_ok (gw_store demo_world).
Proof.
  split.
  - intros x o v. change (st_validators (gw_store demo_world)) with (∅ : gmap (NativeAssetId * Z) ValidatorRecord). by rewrite lookup_empty.
  - intros x o u. change (st_unbonding (gw_store demo_world)) with (∅ : gmap (NativeAssetId * Z) UnbondingEntry). by rewrite lookup_empty.
  - intros x d o r. change (st_delegations (gw_store demo_world)) with (∅ : gmap (NativeAssetId * Z * Z) DelegationRecord). by rewrite lookup_empty.
  - intros x. unfold load_reward_pool. change (st_reward_pool (gw_store demo_world)) with (∅ : gmap NativeAssetId Z). rewrite lookup_empty. unfold_ints. simpl. lia.
Qed.
Lemma governance_lanes_sound_witness :
  exists ls stats st b, first_lanes = Ok (ls, stats) /\
    apply_governance_lanes demo_vt demo_vv demo_did demo_uid demo_sid 66 77 tt (after_accounts demo_world ls)
      [demo_spend 9 10 0] [demo_unlock OVL 50 0] 20 = Ok st /\
    backing demo_sid OVL [demo_schedule OVL] (gl_lane st) = 150 /\
    revert_gov_journal (gl_journal st) = Ok b /\ write_gov (gl_lane st) b ≡ demo_world.
Proof.
  destruct first_lanes as [[ls stats]|] eqn:El; [|vm_compute in El; discriminate El].
  destruct (apply_governance_lanes demo_vt demo_vv demo_did demo_uid demo_sid 66 77 tt (after_accounts demo_world ls)
      [demo_spend 9 10 0] [demo_unlock OVL 50 0] 20) as [st|] eqn:E; [|vm_compute in El; injection El as <- _; vm_compute in E; discriminate E].
  destruct (governance_lanes_sound demo_vt demo_vv demo_did demo_uid demo_sid 66 77 tt demo_world (after_accounts demo_world ls)
    [demo_spend 9 10 0] [demo_unlock OVL 50 0] 20 st [demo_schedule OVL] E) as (H1 & H2 & _).
  { vm_compute in El. injection El as <- _. vm_compute. reflexivity. }
  destruct H2 as (b & H2 & H3).
  - apply undo_accounts. eapply account_lanes_inv; [exact paid_accounts_ok|exact demo_staking_ok| |exact El].
    split; [constructor|]. split; [|constructor]. repeat constructor; cbn; unfold_ints; lia.
  - vm_compute in El. injection El as <- _. repeat constructor; left; vm_compute; reflexivity.
  - exists ls, stats, st, b. split; [reflexivity|]. split; [exact E|]. split; [|by split].
    rewrite H1. vm_compute in El. injection El as <- _. vm_compute. reflexivity.
Defined.

(** A block with a transfer of 3 OVL to account 9 and then a disbursement of 10
    to it, applied and reverted. *)
Definition mixed_transfer : AccountTransfer :=
  {| at_tx_version := 2; at_asset := OVL; at_from := 7; at_to := 9; at_amount := 3; at_fee := 0; at_nonce := 0;
     at_account_sequence := None; at_public_key := []; at_tx_signature := [] |}.
Definition mixed_gov_block : result StateError GovWorld :=
  let? (st, _) := apply_account_lanes (fun _ _ (_ : unit) => Ok tt) (fun _ _ _ => Ok tt) (fun _ _ _ => Ok tt)
    tc_nonce at_nonce sx_nonce Virtual (gw_store demo_world)
    {| drc_ticket_creates := []; account_transfers := [mixed_transfer]; stake_ops := [] |} (Some tt) in
  let? gst := apply_governance_lanes demo_vt demo_vv demo_did demo_uid demo_sid 66 77 tt
    {| gl_lane := {| gw_store := lane st; gw_gov := gw_gov demo_world; gw_utxos := ∅ |}; gl_batch := GMeta <$> ls_batch st;
       gl_journal := {| gj_lanes := ls_journal st; gj_created := []; passport_meta_before := [] |};
       gl_created_in_block := ∅; gl_seen := [] |} [demo_spend 9 10 0] [] 20 in
  let? b := revert_gov_journal (gl_journal gst) in
  Ok (write_gov (gl_lane gst) b).
(** (finding) The governance lanes snapshot the payee's account under
    [passport_meta_before], which is restored after [account_before]: in a block where
    an earlier lane paid the same account, the reorg puts back the value between
    the two lanes.  Here the sender gets its 3 OVL back and the payee keeps them. *)
Theorem treasury_revert_is_wrong :
  exists w, mixed_gov_block = Ok w /\ acct_of (gw_store w) OVL 7 = acct_of (gw_store demo_world) OVL 7 /\
    balance (acct_of (gw_store demo_world) OVL 9) = 0 /\ balance (acct_of (gw_store w) OVL 9) = 3 /\
    liquid OVL (gw_store w) = liquid OVL (gw_store demo_world) + 3.
Proof.
  destruct mixed_gov_block as [w|] eqn:E; [|vm_compute in E; discriminate E]. exists w. split; [done|].
  vm_compute in E. injection E as <-. vm_compute. auto 10.
Qed.
