(* ===== verification/BlockZero.v ===== *)
(** * Block 0 ([state-machine/src/block_zero.rs], [block_zero_live.rs])

    The manifest a network starts from, the checks it must pass, and the live
    state written from it: supply counters, treasuries and vesting schedules,
    accounts net of what vesting and validator bonds lock, validator records, and
    the TLT outputs of the genesis coinbase.

    The manifest is taken as built: parsing the JSON artifact and its strings,
    the storage envelope and the header are not modelled, nor are the community
    record and the block and tip records that the live state also writes. Hashes and the curve-point
    parser are parameters. *)

From stdpp Require Import base gmap list fin_maps strings sorting.
From Stdlib Require Import ZArith Lia.
From S2P Require Import Prelude Ordering Sums Types Finality Store Utxo UtxoProps Supply Accounts Staking StakingProps Lanes Authority Policy Objects Envelopes Treasury TreasuryProps.
Local Open Scope Z_scope.

Definition TRIDENT_BLOCK_ZERO_STATE_VERSION : Z := 3.
Record BlockZeroAllocation := { ba_asset : NativeAssetId; ba_address : Address; ba_amount : Z }.
Record BlockZeroSupply := {
  bs_asset : NativeAssetId;
  bs_max_supply : Z;
  bs_genesis_allocated : Z;
  bs_treasury : Z;
  bs_staking_reward_reserve : Z;
  bs_unissued : Z;
}.
Record BlockZeroTreasury := { bt_treasury : TreasuryId; bt_asset : NativeAssetId; bt_control : list Z; bt_balance : Z }.
Record BlockZeroValidator := {
  zv_operator : Address;
  zv_consensus_public_key : list Z;
  zv_withdrawal_address : Address;
  zv_self_bond : Z;
  zv_commission_bps : Z;
  zv_metadata_hash : Hash;
}.
Record BlockZeroValidatorSet := {
  zs_asset : NativeAssetId;
  zs_epoch : Z;
  zs_max_validators : Z;
  zs_min_self_bond : Z;
  zs_unbonding_period_checkpoints : Z;
  zs_max_commission_bps : Z;
  zs_max_concentration_bps : Z;
  zs_validators : list BlockZeroValidator;
  zs_total_active_stake : Z;
}.
Record BlockZeroFinality := {
  bf_state : CheckpointState;
  bf_pow_work_met : bool;
  bf_finalized_blue_score : option Z;
  bf_ovl_snapshot : Hash;
  bf_ovl_active_stake : Z;
  bf_ovl_signed_stake : Z;
  bf_drc_snapshot : Hash;
  bf_drc_active_stake : Z;
  bf_drc_signed_stake : Z;
}.
Record TridentBlockZeroState := {
  bz_version : Z;
  bz_chain_id : list Z;
  bz_network_fingerprint : Hash;
  bz_artifact_identity : Hash;
  bz_consensus_policy_hash : Hash;
  bz_governance_constitution_hash : Hash;
  bz_emergency_policy_hash : Hash;
  bz_allocations : list BlockZeroAllocation;
  bz_vesting : list BlockZeroVesting;
  bz_supplies : list BlockZeroSupply;
  bz_treasuries : list BlockZeroTreasury;
  bz_validator_sets : list BlockZeroValidatorSet;
  bz_finality : BlockZeroFinality;
}.

(** ** Checks of the manifest *)

(** Lexicographic order of tuples of integers. *)
Fixpoint lex_compare (x y : list Z) : comparison :=
  match x, y with
  | [], [] => Eq
  | [], _ => Lt
  | _, [] => Gt
  | a :: x', b :: y' => match Z.compare a b with Eq => lex_compare x' y' | c => c end
  end.
(** [windows(2).all]. *)
Fixpoint all_pairs {A} (f : A -> A -> bool) (l : list A) : bool :=
  match l with x :: (y :: _) as l' => f x y && all_pairs f l' | _ => true end.
Definition allocation_order (e : BlockZeroAllocation) : list Z := [wire_byte (ba_asset e); ba_address e].
Definition vesting_order (e : BlockZeroVesting) : list Z :=
  [wire_byte (bv_asset e); bv_address e; bv_start e; bv_cliff e; bv_end e].
Definition is_sorted_allocations : list BlockZeroAllocation -> bool :=
  all_pairs (fun x y => bool_decide (lex_compare (allocation_order x) (allocation_order y) = Lt)).
Definition is_sorted_vesting : list BlockZeroVesting -> bool :=
  all_pairs (fun x y => negb (bool_decide (lex_compare (vesting_order x) (vesting_order y) = Gt))).

(** An insertion order: [!seen.insert(..)] for any entry. *)
Fixpoint has_duplicate {A} `{EqDecision A} (l : list A) : bool :=
  match l with [] => false | x :: l' => bool_decide (x ∈ l') || has_duplicate l' end.
Definition reject_duplicate_allocations (l : list BlockZeroAllocation) : result string unit :=
  ensure (negb (has_duplicate (allocation_order <$> l))) "duplicate Block 0 allocation for asset/address"%string.

Definition checked_total {A} (f : A -> Z) (l : list A) : option Z :=
  foldl (fun sum x => sum ≫= fun s => checked_add u64_max s (f x)) (Some 0) l.
Definition verify_allocation_supply (allocations : list BlockZeroAllocation) (supplies : list BlockZeroSupply)
  : result string unit :=
  ensure (bool_decide (bs_asset <$> supplies = all_assets)) "Block 0 supply buckets must be ordered TLT/OVL/DRC"%string ;?
  rfold (fun _ supply =>
    let? allocated := ok_or "allocation overflow"%string
      (checked_total ba_amount (filter (fun e => ba_asset e = bs_asset supply) allocations)) in
    ensure (allocated =? bs_genesis_allocated supply) "allocated supply does not match"%string ;?
    let? total := ok_or "supply bucket overflow"%string
      (checked_add u64_max (bs_genesis_allocated supply) (bs_treasury supply) ≫= fun v =>
       checked_add u64_max v (bs_staking_reward_reserve supply) ≫= fun v =>
       checked_add u64_max v (bs_unissued supply)) in
    ensure (total =? bs_max_supply supply) "supply buckets do not conserve supply"%string) tt supplies.
Definition verify_treasury_supply (treasuries : list BlockZeroTreasury) (supplies : list BlockZeroSupply)
  : result string unit :=
  ensure (Nat.eqb (length treasuries) 3) "Block 0 requires all three protocol treasuries"%string ;?
  rfold (fun _ (p : BlockZeroTreasury * TreasuryId) =>
    let '(entry, id) := p in
    let? supply := ok_or "treasury supply bucket is missing"%string
      (List.find (fun s => bool_decide (bs_asset s = treasury_asset id)) supplies) in
    ensure (bool_decide (bt_treasury entry = id) && bool_decide (bt_asset entry = treasury_asset id) &&
            negb (trim_is_empty (bt_control entry)) && (bt_balance entry =? bs_treasury supply))
      "treasury commitment mismatch"%string) tt (zip treasuries all_treasuries).

(** [BTreeMap::entry(k).or_default()] with a checked addition. *)
Abbreviation Locks := (gmap (Z * Address) Z) (only parsing).
Definition add_lock {E} (e : E) (m : Locks) (k : Z * Address) (amount : Z) : result E Locks :=
  let? v := ok_or e (checked_add u64_max (default 0 (m !! k)) amount) in Ok (<[k := v]> m).
Definition funded_by (allocations : list BlockZeroAllocation) (asset : Z) (address : Address) : Z :=
  match List.find (fun e => (wire_byte (ba_asset e) =? asset) && (ba_address e =? address)) allocations with
  | Some e => ba_amount e | None => 0
  end.
Definition verify_vesting_is_funded (allocations : list BlockZeroAllocation) (vesting : list BlockZeroVesting)
  : result string unit :=
  let? locked := rfold (fun m s =>
    add_lock "Block 0 vesting amount overflow"%string m (wire_byte (bv_asset s), bv_address s) (bv_amount s)) ∅ vesting in
  ensure (forallb (fun e : (Z * Address) * Z => e.2 <=? funded_by allocations e.1.1 e.1.2) (map_to_list locked))
    "Block 0 vesting exceeds the matching artifact allocation"%string.

Section manifest.
Variable operator_of_pubkey : list Z -> option Address.
Variable expected_network_fingerprint : list Z -> Hash -> Hash -> Hash.
Variable validator_set_hash : BlockZeroValidatorSet -> Hash.
Variable state_root : TridentBlockZeroState -> Hash.

Record SetScan := { sc_operators : list Address; sc_keys : list (list Z); sc_total : Z }.
Definition verify_validator_set (set : BlockZeroValidatorSet) (allocations : list BlockZeroAllocation) : result string unit :=
  ensure (is_account_asset (zs_asset set) && (zs_epoch set =? 0) && negb (Nat.eqb (length (zs_validators set)) 0) &&
          (Z.of_nat (length (zs_validators set)) <=? zs_max_validators set) &&
          (zs_max_commission_bps set <=? MAX_VALIDATOR_COMMISSION_BPS) &&
          negb (zs_max_concentration_bps set =? 0) && (zs_max_concentration_bps set <=? MAX_VALIDATOR_COMMISSION_BPS))
    "Block 0 validator set is invalid"%string ;?
  let? sc := rfold (fun sc v =>
    let? key_owner := ok_or "Block 0 validator consensus key is invalid"%string (operator_of_pubkey (zv_consensus_public_key v)) in
    ensure (negb (bool_decide (zv_operator v ∈ sc_operators sc)) && negb (bool_decide (zv_consensus_public_key v ∈ sc_keys sc)) &&
            (zs_min_self_bond set <=? zv_self_bond v) && (zv_operator v =? key_owner) &&
            (zv_commission_bps v <=? zs_max_commission_bps set) && (zv_commission_bps v <=? MAX_VALIDATOR_COMMISSION_BPS) &&
            negb (zv_metadata_hash v =? 0)) "Block 0 validator is invalid"%string ;?
    ensure (zv_self_bond v <=? funded_by allocations (wire_byte (zs_asset set)) (zv_operator v))
      "validator self bond is not funded by its artifact allocation"%string ;?
    let? total := ok_or "active stake overflow"%string (checked_add u64_max (sc_total sc) (zv_self_bond v)) in
    Ok {| sc_operators := zv_operator v :: sc_operators sc; sc_keys := zv_consensus_public_key v :: sc_keys sc; sc_total := total |})
    {| sc_operators := []; sc_keys := []; sc_total := 0 |} (zs_validators set) in
  ensure (sc_total sc =? zs_total_active_stake set) "active stake total mismatch"%string.

(** [TridentBlockZeroCommitment::verify], of the manifest's own commitment. *)
Definition verify_commitment (st : TridentBlockZeroState) : result string unit :=
  ensure (bz_version st =? TRIDENT_BLOCK_ZERO_STATE_VERSION) "unsupported Trident Block 0 commitment version"%string ;?
  ensure (negb (trim_is_empty (bz_chain_id st))) "Block 0 commitment chain ID must be nonempty"%string ;?
  ensure (negb ((bz_network_fingerprint st =? 0) || (bz_artifact_identity st =? 0) || (bz_consensus_policy_hash st =? 0) ||
                (state_root st =? 0))) "Block 0 commitment identities and state root must be nonzero"%string ;?
  ensure (bz_network_fingerprint st =?
          expected_network_fingerprint (bz_chain_id st) (bz_artifact_identity st) (bz_consensus_policy_hash st))
    "Block 0 commitment network fingerprint is inconsistent"%string.
Definition verify_finality (f : BlockZeroFinality) (ovl drc : BlockZeroValidatorSet) : result string unit :=
  ensure (bool_decide (bf_state f = Proposed) && negb (bf_pow_work_met f) && bool_decide (bf_finalized_blue_score f = None) &&
          (bf_ovl_signed_stake f =? 0) && (bf_drc_signed_stake f =? 0) &&
          (bf_ovl_snapshot f =? validator_set_hash ovl) && (bf_drc_snapshot f =? validator_set_hash drc) &&
          (bf_ovl_active_stake f =? zs_total_active_stake ovl) && (bf_drc_active_stake f =? zs_total_active_stake drc))
    "Block 0 initial finality state is inconsistent"%string.
Definition verify_manifest (st : TridentBlockZeroState) : result string unit :=
  ensure (bz_version st =? TRIDENT_BLOCK_ZERO_STATE_VERSION) "unsupported Trident Block 0 state version"%string ;?
  ensure (negb (trim_is_empty (bz_chain_id st))) "Block 0 chain ID must be nonempty"%string ;?
  ensure (negb ((bz_artifact_identity st =? 0) || (bz_consensus_policy_hash st =? 0) || (bz_network_fingerprint st =? 0)))
    "Block 0 identities must be nonzero"%string ;?
  ensure (bz_network_fingerprint st =?
          expected_network_fingerprint (bz_chain_id st) (bz_artifact_identity st) (bz_consensus_policy_hash st))
    "Block 0 network fingerprint is inconsistent"%string ;?
  ensure (is_sorted_allocations (bz_allocations st)) "Block 0 allocations are not canonically sorted"%string ;?
  reject_duplicate_allocations (bz_allocations st) ;?
  ensure (is_sorted_vesting (bz_vesting st)) "Block 0 vesting schedules are not canonically sorted"%string ;?
  verify_vesting_is_funded (bz_allocations st) (bz_vesting st) ;?
  verify_allocation_supply (bz_allocations st) (bz_supplies st) ;?
  verify_treasury_supply (bz_treasuries st) (bz_supplies st) ;?
  match bz_validator_sets st with
  | [ovl; drc] =>
      ensure (bool_decide (zs_asset ovl = OVL) && bool_decide (zs_asset drc = DRC))
        "Block 0 requires ordered independent OVL and DRC sets"%string ;?
      verify_validator_set ovl (bz_allocations st) ;?
      verify_validator_set drc (bz_allocations st) ;?
      verify_finality (bz_finality st) ovl drc ;?
      verify_commitment st
  | _ => Err "Block 0 requires ordered independent OVL and DRC sets"%string
  end.

(** ** The live state *)

Definition to_runtime_validator_record (v : BlockZeroValidator) (p : StakingParams) : result string ValidatorRecord :=
  let record := {| operator := zv_operator v; consensus_pubkey := zv_consensus_public_key v; withdrawal := zv_withdrawal_address v;
    self_bond := zv_self_bond v; delegated := 0; commission_bps := zv_commission_bps v; Store.status := Bonded;
    jailed_until_epoch := 0; metadata_hash := zv_metadata_hash v |} in
  match validate_genesis_registration operator_of_pubkey record p with
  | Ok _ => Ok record | Err _ => Err "invalid validator record"%string
  end.
Definition strictly_ascending (l : list Z) : bool := all_pairs Z.ltb l.
Definition to_runtime_validator_entries (set : BlockZeroValidatorSet) (p : StakingParams) : result string (list ValidatorRecord) :=
  match validate_params p with Ok _ => Ok tt | Err _ => Err "invalid staking parameters"%string end ;?
  ensure ((zs_epoch set =? 0) && negb (Nat.eqb (length (zs_validators set)) 0) &&
          (Z.of_nat (length (zs_validators set)) <=? zs_max_validators set) &&
          strictly_ascending (zv_operator <$> zs_validators set) && bool_decide (sp_asset p = zs_asset set) &&
          (max_validators p =? zs_max_validators set) && (min_self_bond p =? zs_min_self_bond set) &&
          (unbonding_period_epochs p =? zs_unbonding_period_checkpoints set) &&
          (max_commission_bps p =? zs_max_commission_bps set) && (max_concentration_bps p =? zs_max_concentration_bps set))
    "Block 0 validator policy does not match runtime staking parameters"%string ;?
  let? (entries, total) := rfold (fun (acc : list ValidatorRecord * Z) v =>
    let? record := to_runtime_validator_record v p in
    let? total := ok_or "runtime validator stake overflow"%string (checked_add u64_max acc.2 (self_bond record)) in
    ensure (negb (bool_decide (operator record ∈ operator <$> acc.1))) "Block 0 validator storage key is inconsistent"%string ;?
    Ok (acc.1 ++ [record], total)) ([], 0) (zs_validators set) in
  ensure (total =? zs_total_active_stake set) "runtime validator stake total mismatch"%string ;?
  Ok entries.

Definition liquid_locks (st : TridentBlockZeroState) : result StateError Locks :=
  let? m := rfold (fun m s =>
    add_lock (Storage "Block 0 vesting lock overflow") m (wire_byte (bv_asset s), bv_address s) (bv_amount s)) ∅ (bz_vesting st) in
  rfold (fun m set => rfold (fun m v =>
    add_lock (Storage "Block 0 validator lock overflow") m (wire_byte (zs_asset set), zv_operator v) (zv_self_bond v))
    m (zs_validators set)) m (bz_validator_sets st).
Definition liquid_amount (a : BlockZeroAllocation) (locked : Locks) : result StateError Z :=
  ok_or (Storage "allocation cannot fund vesting and validator locks")
    (checked_sub (ba_amount a) (default 0 (locked !! (wire_byte (ba_asset a), ba_address a)))).

(** The coinbase outputs of [build_genesis_block]. *)
Definition genesis_outputs (st : TridentBlockZeroState) : result StateError (list TxOut) :=
  let outputs := (fun a => {| out_value := ba_amount a; out_address := ba_address a |}) <$>
    filter (fun a => ba_asset a = TLT /\ ba_amount a <> 0) (bz_allocations st) in
  let outputs := sort_by (fun x y => Z.compare (out_address x) (out_address y)) outputs in
  ensure (negb (Nat.eqb (length outputs) 0)) (Storage "Trident Block 0 requires at least one TLT UTXO allocation") ;?
  Ok outputs.
Definition write_genesis_utxos (b : list GovOp) (tx_id : Hash) (outs : list TxOut) : list GovOp :=
  b ++ imap (fun i out => GUtxo (UPut {| op_tx := tx_id; op_index := as_u32 (Z.of_nat i) |} out)) outs.
Definition write_accounts (b : list GovOp) (st : TridentBlockZeroState) : result StateError (list GovOp) :=
  let? locked := liquid_locks st in
  rfold (fun b a =>
    if is_account_asset (ba_asset a) then
      let? liquid_ := liquid_amount a locked in
      let? ops := put_account_into [] (ba_asset a) (ba_address a) {| balance := liquid_; nonce := 0 |} in
      Ok (b ++ (GMeta <$> ops))
    else Ok b) b (bz_allocations st).
Definition lift_storage_msg {A} (r : result string A) : result StateError A :=
  match r with Ok a => Ok a | Err e => Err (Storage e) end.
Definition write_validators (b : list GovOp) (st : TridentBlockZeroState) (ovl_staking drc_staking : StakingParams)
  : result StateError (list GovOp) :=
  match bz_validator_sets st with
  | ovl :: drc :: _ =>
      rfold (fun b (p : BlockZeroValidatorSet * StakingParams) =>
        let? entries := lift_storage_msg (to_runtime_validator_entries p.1 p.2) in
        Ok (b ++ (GMeta <$> foldl (fun b r => put_validator_into b (zs_asset p.1) r) [] entries) ++
            [GMeta (PutEpoch (zs_asset p.1) 0)])) b [(ovl, ovl_staking); (drc, drc_staking)]
  | _ => Err (Storage "index out of bounds")
  end.

Variable constitution_v1_hash authorization_policy_root : Hash.
Variable coinbase_tx_id : list TxOut -> Hash.

(** [build_genesis_block], then [live_writes]. *)
Definition live_writes (st : TridentBlockZeroState) (monetary : TridentMonetaryPolicy) (ovl_staking drc_staking : StakingParams)
  : result StateError (list GovOp) :=
  let? outs := genesis_outputs st in
  let? supply := ignite_trident_supply [] monetary in
  let b := GMeta <$> supply in
  let? treasuries := rfold (fun acc e =>
    let? t := lift_msg (new_treasury_balance (bt_treasury e) (bt_asset e) (bt_balance e)) in Ok (acc ++ [t])) [] (bz_treasuries st) in
  let controls := (fun e => (bt_treasury e, bt_control e)) <$> bz_treasuries st in
  let? b := init_trident_governance_into constitution_v1_hash authorization_policy_root b (bz_governance_constitution_hash st)
    (bz_emergency_policy_hash st) treasuries controls (bz_vesting st) in
  let? b := write_accounts b st in
  let? b := write_validators b st ovl_staking drc_staking in
  Ok (write_genesis_utxos b (coinbase_tx_id outs) outs).
End manifest.
