(* ===== verification/BlockZeroProps.v ===== *)
(** * Block 0: what the live state is worth

    The live state of a manifest that passes its checks holds, of every account
    asset, exactly what the supply bucket allocates: in accounts, bonds, the
    treasury, or owed to vesting.  For TLT the whole allocation is already in
    outputs, and vesting comes on top. *)

From stdpp Require Import base gmap list fin_maps strings sorting.
From Stdlib Require Import ZArith Lia.
From S2P Require Import Prelude Ordering Sums Types Finality Store Utxo UtxoProps Supply Accounts Staking StakingProps Lanes Authority Policy Objects Envelopes Treasury TreasuryProps BlockZero.
Local Open Scope Z_scope.

(** ** Locks *)

Lemma add_locks {A E} (e : E) (fk : A -> Z * Address) (fv : A -> Z) m l m' :
  rfold (fun m x => add_lock e m (fk x) (fv x)) m l = Ok m' ->
  forall k, default 0 (m' !! k) = default 0 (m !! k) + zsum (fv <$> filter (fun x => fk x = k) l).
Proof.
  revert m. induction l as [|x l IH]; intros m H k; [injection H as <-; cbn; lia|].
  apply rbind_Ok in H as (m1 & H1 & H). rewrite (IH m1 H k). unfold add_lock in H1. inv_ok. subst.
  rewrite filter_cons. destruct (decide (fk x = k)) as [<-|Hk].
  - rewrite lookup_insert_eq, fmap_cons, zsum_cons. simpl. lia.
  - rewrite lookup_insert_ne by done. lia.
Qed.
Definition vest_at (l : list BlockZeroVesting) (k : Z * Address) : Z :=
  zsum (bv_amount <$> filter (fun s => (wire_byte (bv_asset s), bv_address s) = k) l).
Definition bond_at (set : BlockZeroValidatorSet) (k : Z * Address) : Z :=
  zsum (zv_self_bond <$> filter (fun v => (wire_byte (zs_asset set), zv_operator v) = k) (zs_validators set)).
Lemma liquid_locks_at st ovl drc m k :
  bz_validator_sets st = [ovl; drc] -> liquid_locks st = Ok m ->
  default 0 (m !! k) = vest_at (bz_vesting st) k + bond_at ovl k + bond_at drc k.
Proof.
  intros Hs H. unfold liquid_locks in H. rewrite Hs in H. apply rbind_Ok in H as (m1 & H1 & H).
  cbn [rfold] in H. apply rbind_Ok in H as (m2 & H2 & H). apply rbind_Ok in H as (m3 & H3 & H). injection H as ->.
  rewrite (add_locks _ _ _ _ _ _ H3 k), (add_locks _ _ _ _ _ _ H2 k), (add_locks _ _ _ _ _ _ H1 k).
  rewrite lookup_empty. unfold vest_at, bond_at. simpl. lia.
Qed.
(** Sums by key: if what lies outside the keys is worth nothing, summing over
    the keys sums everything. *)
Lemma sum_by_key {A K} `{EqDecision K} (fk : A -> K) (fv : A -> Z) (keys : list K) (l : list A) :
  NoDup keys -> (forall x, x ∈ l -> fk x ∉ keys -> fv x = 0) ->
  zsum ((fun k => zsum (fv <$> filter (fun x => fk x = k) l)) <$> keys) = zsum (fv <$> l).
Proof.
  intros Hnd Hz. induction l as [|x l IH].
  - cbn. clear. induction keys as [|k keys IH]; [done|]. rewrite fmap_cons, zsum_cons, IH. done.
  - rewrite fmap_cons, zsum_cons, <- IH by (intros y Hy; apply Hz; by right).
    assert (forall ks, NoDup ks -> zsum ((fun k => zsum (fv <$> filter (fun x => fk x = k) (x :: l))) <$> ks) =
      (if bool_decide (fk x ∈ ks) then fv x else 0) + zsum ((fun k => zsum (fv <$> filter (fun x => fk x = k) l)) <$> ks)) as Hks.
    { induction ks as [|k ks IHk]; intros Hn; [done|]. apply NoDup_cons in Hn as [Hni Hn].
      rewrite !fmap_cons, !zsum_cons, (IHk Hn). rewrite filter_cons. destruct (decide (fk x = k)) as [<-|Hne].
      - rewrite fmap_cons, zsum_cons, bool_decide_eq_false_2 by done. rewrite bool_decide_eq_true_2 by left. lia.
      - rewrite (bool_decide_ext (fk x ∈ k :: ks) (fk x ∈ ks)) by (rewrite elem_of_cons; naive_solver). lia. }
    rewrite (Hks keys Hnd). case_bool_decide as Hin; [lia|]. rewrite (Hz x); [lia|left|done].
Qed.

(** ** Writes into an empty ledger *)

Definition neutral (op : WriteOp) : bool :=
  match op with
  | PutAccount _ _ _ | PutValidator _ _ _ | PutUnbonding _ _ _ | PutRewardPool _ _ | Delete _ => false
  | _ => true
  end.
Definition gain (y : NativeAssetId) (op : WriteOp) : Z :=
  match op with
  | PutAccount x _ v => if bool_decide (x = y) then balance v else 0
  | PutValidator x _ v => if bool_decide (x = y) then self_bond v + delegated v else 0
  | _ => 0
  end.
Definition adds (s : StateStore) (op : WriteOp) : Prop :=
  match op with
  | PutAccount x a _ => balance (acct_of s x a) = 0
  | PutValidator x o _ => stake_at s x o = 0
  | _ => neutral op = true
  end.
Lemma adds_delta s op y : adds s op -> holdings y (apply_op s op) = holdings y s + gain y op.
Proof.
  intros H. rewrite holdings_apply. unfold holdings_delta, gain. destruct op; simpl in H; try done; case_bool_decide; lia.
Qed.
Lemma adds_frame s op op' : neutral op = true \/ op_key op <> op_key op' -> adds s op -> adds s op' -> adds (apply_op s op') op.
Proof.
  intros Hk H _. destruct op; simpl in *; try done.
  - destruct Hk as [|Hk]; [done|]. by rewrite acct_of_apply_frame by congruence.
  - destruct Hk as [|Hk]; [done|]. by rewrite stake_at_frame by congruence.
Qed.
Lemma adds_run s ops y :
  Forall (adds s) ops -> NoDup (op_key <$> filter (fun op => neutral op = false) ops) ->
  holdings y (write_batch s ops) = holdings y s + zsum (gain y <$> ops).
Proof.
  revert s. induction ops as [|op ops IH]; intros s Ha Hnd; [cbn; lia|]. apply Forall_cons in Ha as [Ho Ha].
  rewrite write_batch_cons, IH.
  - rewrite adds_delta by done. rewrite fmap_cons, zsum_cons. lia.
  - rewrite Forall_forall in *. intros op' Hin. specialize (Ha op' Hin). apply adds_frame; [|done|done].
    destruct (neutral op') eqn:E'; [by left|]. right. rewrite filter_cons in Hnd.
    case_decide as E; [|destruct op; simpl in Ho; try done; destruct op'; done].
    rewrite fmap_cons, NoDup_cons in Hnd. destruct Hnd as [Hni _]. intros Heq. apply Hni. rewrite <- Heq.
    apply list_elem_of_fmap_2, list_elem_of_filter. done.
  - rewrite filter_cons in Hnd. case_decide; [rewrite fmap_cons in Hnd; by apply NoDup_cons in Hnd as [_ ?]|done].
Qed.
Lemma empty_holdings y : holdings y empty_store = 0.
Proof. by destruct y. Qed.

(** ** The three parts of a batch *)

Definition metas (b : list GovOp) : WriteBatch := omap (fun op => match op with GMeta o => Some o | _ => None end) b.
Definition govs (b : list GovOp) : list (GovKey * option GovRecord) :=
  omap (fun op => match op with GGov k v => Some (k, v) | _ => None end) b.
Definition utxo_ops (b : list GovOp) : list UtxoOp := omap (fun op => match op with GUtxo o => Some o | _ => None end) b.
Lemma write_gov_parts w b :
  write_gov w b =
    {| gw_store := write_batch (gw_store w) (metas b);
       gw_gov := foldl (fun g p => partial_alter (fun _ => p.2) p.1 g) (gw_gov w) (govs b);
       gw_utxos := write_utxos (gw_utxos w) (utxo_ops b) |}.
Proof. revert w. induction b as [|op b IH]; intros w; [by destruct w|]. unfold write_gov in *. simpl. rewrite IH. by destruct op. Qed.
Lemma metas_app b1 b2 : metas (b1 ++ b2) = metas b1 ++ metas b2.
Proof. apply omap_app. Qed.
Lemma govs_app b1 b2 : govs (b1 ++ b2) = govs b1 ++ govs b2.
Proof. apply omap_app. Qed.
Lemma utxo_ops_app b1 b2 : utxo_ops (b1 ++ b2) = utxo_ops b1 ++ utxo_ops b2.
Proof. apply omap_app. Qed.
Lemma parts_meta l : metas (GMeta <$> l) = l /\ govs (GMeta <$> l) = [] /\ utxo_ops (GMeta <$> l) = [].
Proof.
  unfold metas, govs, utxo_ops. induction l as [|x l (I1 & I2 & I3)]; [done|]. cbn [fmap list_fmap omap list_omap].
  cbn [fmap list_fmap] in I1, I2, I3. split_and!; [by rewrite I1|done|done].
Qed.

(** ** What each writer appends *)

Lemma rfold_grow {E A B} (f : list B -> A -> result E (list B)) (g : A -> list B) b l b' :
  (forall b x b', f b x = Ok b' -> b' = b ++ g x) -> rfold f b l = Ok b' -> b' = b ++ mjoin (g <$> l).
Proof.
  intros Hf. revert b. induction l as [|x l IH]; intros b H; [injection H as <-; cbn; by rewrite app_nil_r|].
  apply rbind_Ok in H as (b1 & H1 & H). rewrite (IH b1 H), (Hf b x b1 H1), fmap_cons, <- app_assoc. done.
Qed.
Lemma ignite_neutral pol b : ignite_trident_supply [] pol = Ok b -> Forall (fun op => neutral op = true) b.
Proof.
  unfold ignite_trident_supply. intros H. apply rbind_Ok in H as (_ & _ & H). apply rbind_Ok in H as (b0 & H & [= <-]).
  apply (rfold_inv _ (fun b => Forall (fun op => neutral op = true) b)) in H; [|constructor|].
  - unfold put_schema_version_into. repeat case_match; repeat (apply Forall_app; split); repeat constructor; done.
  - clear. intros b x b' Hb _ E. cbn zeta in E. apply rbind_Ok in E as (_ & _ & E).
    unfold put_max_supply_into, put_issued_supply_into, put_burned_supply_into, init_staking_reserve_into in E.
    repeat case_match; inv_ok; subst; repeat (apply Forall_app; split); repeat constructor; done.
Qed.

Definition policy_record (chash aroot ch : Hash) : CanonicalGovernancePolicy :=
  {| gp_version := CANONICAL_GOVERNANCE_VERSION; gp_constitution_id := if ch =? chash then ConstitutionV1 else GenesisArtifact;
     gp_constitution_hash := ch; gp_authorization_root := aroot |}.
Lemma init_governance_ops chash aroot b ch eh trs ctrls vest b' :
  init_trident_governance_into chash aroot b ch eh trs ctrls vest = Ok b' ->
  b' = b ++ [GGov KPolicy (Some (RPolicy (policy_record chash aroot ch))); GGov KEmergency (Some (RHash eh))] ++
    mjoin ((fun t => [GGov (KTreasury (treasury_wire_byte (tb_treasury t))) (Some (RTreasury t))]) <$> trs) ++
    mjoin ((fun c => [GGov (KControl (treasury_wire_byte c.1)) (Some (RControl c.2))]) <$> ctrls) ++
    [GGov KVesting (Some (RVesting vest))].
Proof.
  unfold init_trident_governance_into. intros H. apply rbind_Ok in H as (_ & _ & H).
  apply rbind_Ok in H as (b1 & H & H2). apply rbind_Ok in H2 as (b2 & H2 & [= <-]).
  apply (rfold_grow _ (fun t => [GGov (KTreasury (treasury_wire_byte (tb_treasury t))) (Some (RTreasury t))])) in H.
  2:{ intros c1 x c2 E. unfold put_treasury_into in E. by inv_ok. }
  apply (rfold_grow _ (fun c => [GGov (KControl (treasury_wire_byte c.1)) (Some (RControl c.2))])) in H2.
  2:{ intros c1 x c2 E. unfold put_treasury_control_into in E. by inv_ok. }
  subst. unfold put_emergency_policy_hash_into, put_vesting_schedules_into. by rewrite <- !app_assoc.
Qed.

Definition lock_at (st : TridentBlockZeroState) (ovl drc : BlockZeroValidatorSet) (k : Z * Address) : Z :=
  vest_at (bz_vesting st) k + bond_at ovl k + bond_at drc k.
Definition account_op (st : TridentBlockZeroState) (ovl drc : BlockZeroValidatorSet) (a : BlockZeroAllocation) : WriteOp :=
  PutAccount (ba_asset a) (ba_address a)
    {| balance := ba_amount a - lock_at st ovl drc (wire_byte (ba_asset a), ba_address a); nonce := 0 |}.
Definition account_allocations (st : TridentBlockZeroState) : list BlockZeroAllocation :=
  filter (fun a => is_account_asset (ba_asset a) = true) (bz_allocations st).
Lemma write_accounts_ops b st ovl drc b' :
  bz_validator_sets st = [ovl; drc] -> write_accounts b st = Ok b' ->
  b' = b ++ (GMeta <$> (account_op st ovl drc <$> account_allocations st)).
Proof.
  intros Hs H. unfold write_accounts in H. apply rbind_Ok in H as (m & Hm & H).
  pose proof (liquid_locks_at st ovl drc m) as Hl.
  apply (rfold_grow _ (fun a => if is_account_asset (ba_asset a) then [GMeta (account_op st ovl drc a)] else [])) in H.
  - subst. f_equal. unfold account_allocations. induction (bz_allocations st) as [|a l IH]; [done|].
    rewrite fmap_cons, filter_cons. destruct (is_account_asset (ba_asset a)) eqn:E.
    + rewrite decide_True by done. rewrite !fmap_cons, <- IH. done.
    + rewrite decide_False by congruence. rewrite <- IH. done.
  - intros b1 a b2 E. case_match eqn:Ea; [|inv_ok; by rewrite app_nil_r].
    unfold liquid_amount in E. inv_ok. match goal with E : put_account_into _ _ _ _ = Ok _ |- _ => apply put_account_into_Ok in E as [_ ->] end. subst.
    unfold account_op. by rewrite (Hl _ Hs Hm).
Qed.

Definition runtime_record (v : BlockZeroValidator) : ValidatorRecord :=
  {| operator := zv_operator v; consensus_pubkey := zv_consensus_public_key v; withdrawal := zv_withdrawal_address v;
     self_bond := zv_self_bond v; delegated := 0; commission_bps := zv_commission_bps v; Store.status := Bonded;
     jailed_until_epoch := 0; metadata_hash := zv_metadata_hash v |}.
Lemma runtime_entries opk set p entries :
  to_runtime_validator_entries opk set p = Ok entries ->
  entries = runtime_record <$> zs_validators set /\ NoDup (zv_operator <$> zs_validators set).
Proof.
  unfold to_runtime_validator_entries. intros H. apply rbind_Ok in H as (_ & _ & H). apply rbind_Ok in H as (_ & _ & H).
  apply rbind_Ok in H as ([es total] & H & H'). inv_ok. subst.
  assert (forall l acc acc', rfold (fun (acc : list ValidatorRecord * Z) v =>
    let? record := to_runtime_validator_record opk v p in
    let? total := ok_or "runtime validator stake overflow"%string (checked_add u64_max acc.2 (self_bond record)) in
    ensure (negb (bool_decide (operator record ∈ operator <$> acc.1))) "Block 0 validator storage key is inconsistent"%string ;?
    Ok (acc.1 ++ [record], total)) acc l = Ok acc' -> NoDup (operator <$> acc.1) ->
    acc'.1 = acc.1 ++ (runtime_record <$> l) /\ NoDup (operator <$> acc'.1)) as Hrun.
  { induction l as [|v l IH]; intros acc acc' E Hn; [injection E as <-; by rewrite app_nil_r|].
    apply rbind_Ok in E as (acc1 & E1 & E). unfold to_runtime_validator_record in E1. inv_ok.
    destruct (validate_genesis_registration _ _ _); [|done]. inv_ok. subst.
    match goal with Eb : negb (bool_decide _) = true |- _ => apply negb_true_iff, bool_decide_eq_false_1 in Eb end. destruct (IH _ _ E) as [I1 I2].
    - simpl. rewrite fmap_app. apply NoDup_app. split; [done|]. split; [|apply NoDup_singleton].
      intros x Hx [= ->]%list_elem_of_singleton. done.
    - split; [|done]. rewrite I1. simpl. by rewrite <- app_assoc. }
  destruct (Hrun _ _ _ H) as [Ee Hn]; [constructor|]. cbn [fst] in Ee, Hn. rewrite app_nil_l in Ee. rewrite Ee in Hn. split; [exact Ee|].
  rewrite <- list_fmap_compose in Hn. exact Hn.
Qed.

(** ** What the checks of the manifest give *)

Definition alloc_key (a : BlockZeroAllocation) : Z * Address := (wire_byte (ba_asset a), ba_address a).
Definition vest_key (s : BlockZeroVesting) : Z * Address := (wire_byte (bv_asset s), bv_address s).
Definition alloc_of (x : NativeAssetId) (st : TridentBlockZeroState) : list BlockZeroAllocation :=
  filter (fun a => ba_asset a = x) (bz_allocations st).
Definition vest_of (x : NativeAssetId) (st : TridentBlockZeroState) : list BlockZeroVesting :=
  filter (fun s => bv_asset s = x) (bz_vesting st).
(** The amounts of a manifest are unsigned. *)
Definition manifest_ints (st : TridentBlockZeroState) : Prop :=
  Forall (fun s => 0 <= bv_amount s) (bz_vesting st) /\
  Forall (fun set => Forall (fun v => 0 <= zv_self_bond v) (zs_validators set)) (bz_validator_sets st).
Record manifest_ok (st : TridentBlockZeroState) (ovl drc : BlockZeroValidatorSet) : Prop := {
  mo_sets : bz_validator_sets st = [ovl; drc];
  mo_assets : zs_asset ovl = OVL /\ zs_asset drc = DRC;
  mo_keys : NoDup (alloc_key <$> bz_allocations st);
  mo_vesting : forall s, s ∈ bz_vesting st -> vest_key s ∉ alloc_key <$> bz_allocations st -> bv_amount s = 0;
  mo_bonds : forall set v, set ∈ [ovl; drc] -> v ∈ zs_validators set ->
    (wire_byte (zs_asset set), zv_operator v) ∉ alloc_key <$> bz_allocations st -> zv_self_bond v = 0;
  mo_supply : forall sup, sup ∈ bz_supplies st -> zsum (ba_amount <$> alloc_of (bs_asset sup) st) = bs_genesis_allocated sup;
  mo_treasuries : exists t0 t1 t2, bz_treasuries st = [t0; t1; t2] /\
    bt_treasury <$> [t0; t1; t2] = all_treasuries /\ bt_asset <$> [t0; t1; t2] = all_assets /\
    forall sup, sup ∈ bz_supplies st ->
      bs_treasury sup = match bs_asset sup with TLT => bt_balance t0 | OVL => bt_balance t1 | DRC => bt_balance t2 end;
}.

Lemma has_duplicate_NoDup {A} `{EqDecision A} (l : list A) : has_duplicate l = false -> NoDup l.
Proof.
  induction l as [|x l IH]; simpl; [constructor|]. intros [H1%bool_decide_eq_false_1 H2]%orb_false_iff. constructor; auto.
Qed.
Lemma funded_none allocs asset a :
  (asset, a) ∉ alloc_key <$> allocs -> funded_by allocs asset a = 0.
Proof.
  intros H. unfold funded_by. destruct (List.find _ allocs) as [e|] eqn:E; [|done].
  apply List.find_some in E as [Hin [H1%Z.eqb_eq H2%Z.eqb_eq]%andb_true_iff]. destruct H.
  apply list_elem_of_fmap. exists e. split; [unfold alloc_key; by rewrite H1, H2|by apply list_elem_of_In].
Qed.
Lemma funded_vesting allocs vest :
  Forall (fun s => 0 <= bv_amount s) vest -> verify_vesting_is_funded allocs vest = Ok tt ->
  forall s, s ∈ vest -> vest_key s ∉ alloc_key <$> allocs -> bv_amount s = 0.
Proof.
  intros Hn H s Hs Hk. unfold verify_vesting_is_funded in H. apply rbind_Ok in H as (m & Hm & H). apply ensure_Ok in H.
  pose proof (add_locks _ _ _ _ _ _ Hm (vest_key s)) as Hsum. rewrite lookup_empty in Hsum. simpl in Hsum.
  assert (default 0 (m !! vest_key s) <= 0) as Hle.
  { destruct (m !! vest_key s) as [v|] eqn:E; simpl; [|lia]. rewrite forallb_forall in H.
    specialize (H (vest_key s, v)). rewrite <- list_elem_of_In, elem_of_map_to_list in H. specialize (H E).
    apply Z.leb_le in H. simpl in H. by rewrite (funded_none allocs _ _ Hk) in H. }
  assert (bv_amount s <= zsum (bv_amount <$> filter (fun x => (wire_byte (bv_asset x), bv_address x) = vest_key s) vest)) as Hge.
  { apply zsum_elem_le; [|apply list_elem_of_fmap_2, list_elem_of_filter; done].
    rewrite Forall_fmap. apply Forall_forall. intros y [_ Hy]%list_elem_of_filter. rewrite Forall_forall in Hn. exact (Hn y Hy). }
  rewrite Forall_forall in Hn. specialize (Hn s Hs). lia.
Qed.
Lemma funded_bonds opk set allocs :
  Forall (fun v => 0 <= zv_self_bond v) (zs_validators set) -> verify_validator_set opk set allocs = Ok tt ->
  forall v, v ∈ zs_validators set -> (wire_byte (zs_asset set), zv_operator v) ∉ alloc_key <$> allocs -> zv_self_bond v = 0.
Proof.
  intros Hn H v Hv Hk. unfold verify_validator_set in H. apply rbind_Ok in H as (_ & _ & H). apply rbind_Ok in H as (sc & H & _).
  assert (zv_self_bond v <= funded_by allocs (wire_byte (zs_asset set)) (zv_operator v)) as Hle.
  { revert Hv H. generalize {| sc_operators := []; sc_keys := []; sc_total := 0 |}. clear.
    generalize (zs_validators set). intros l. induction l as [|y l IH]; intros sc0 Hv H; [by apply not_elem_of_nil in Hv|].
    apply rbind_Ok in H as (sc1 & H1 & H). apply elem_of_cons in Hv as [->|Hv]; [|by eapply IH].
    apply rbind_Ok in H1 as (ko & _ & H1). apply rbind_Ok in H1 as (_ & _ & H1). apply rbind_Ok in H1 as (u & H1 & _).
    apply ensure_Ok, Z.leb_le in H1. exact H1. }
  rewrite (funded_none allocs _ _ Hk) in Hle. rewrite Forall_forall in Hn. specialize (Hn v Hv). lia.
Qed.
Lemma checked_total_sum {A} (f : A -> Z) l n : checked_total f l = Some n -> zsum (f <$> l) = n.
Proof.
  unfold checked_total. assert (forall acc, foldl (fun sum x => sum ≫= fun s => checked_add u64_max s (f x)) acc l = Some n ->
    exists a, acc = Some a /\ n = a + zsum (f <$> l)) as H.
  { induction l as [|x l IH]; intros acc H; [exists n; cbn in *; split; [done|lia]|].
    destruct (IH _ H) as (a & Ha & ->). destruct acc as [b|]; simpl in Ha; [|done]. apply checked_add_Some in Ha as [-> _].
    exists b. rewrite fmap_cons, zsum_cons. split; [done|lia]. }
  intros Hn. destruct (H _ Hn) as (a & [= <-] & ->). lia.
Qed.
Lemma rfold_unit_Ok {E A} (f : unit -> A -> result E unit) l :
  rfold f tt l = Ok tt -> forall x, x ∈ l -> f tt x = Ok tt.
Proof.
  induction l as [|y l IH]; intros H x Hx; [by apply not_elem_of_nil in Hx|].
  apply rbind_Ok in H as ([] & H1 & H). apply elem_of_cons in Hx as [->|Hx]; auto.
Qed.
Lemma allocation_supply allocs sups :
  verify_allocation_supply allocs sups = Ok tt ->
  bs_asset <$> sups = all_assets /\
  forall sup, sup ∈ sups -> zsum (ba_amount <$> filter (fun a => ba_asset a = bs_asset sup) allocs) = bs_genesis_allocated sup.
Proof.
  unfold verify_allocation_supply. intros H. apply rbind_Ok in H as ([] & H1 & H). apply ensure_Ok, bool_decide_eq_true_1 in H1.
  split; [done|]. intros sup Hs. apply (rfold_unit_Ok _ _ H) in Hs. apply rbind_Ok in Hs as (n & Hn & Hs). apply ok_or_Ok in Hn.
  apply rbind_Ok in Hs as (u & Hu & _). apply ensure_Ok, Z.eqb_eq in Hu. rewrite <- Hu. by apply checked_total_sum.
Qed.
Lemma treasury_supply trs sups :
  bs_asset <$> sups = all_assets -> verify_treasury_supply trs sups = Ok tt ->
  exists t0 t1 t2, trs = [t0; t1; t2] /\ bt_treasury <$> [t0; t1; t2] = all_treasuries /\ bt_asset <$> [t0; t1; t2] = all_assets /\
    forall sup, sup ∈ sups -> bs_treasury sup = match bs_asset sup with TLT => bt_balance t0 | OVL => bt_balance t1 | DRC => bt_balance t2 end.
Proof.
  intros Ha H. destruct sups as [|s0 [|s1 [|s2 [|]]]]; try discriminate Ha. injection Ha as A0 A1 A2.
  unfold verify_treasury_supply in H. apply rbind_Ok in H as ([] & H1 & H). apply ensure_Ok in H1.
  destruct trs as [|t0 [|t1 [|t2 [|]]]]; try discriminate H1. clear H1. exists t0, t1, t2. split; [done|].
  pose proof (rfold_unit_Ok _ _ H (t0, TltSecurity)) as B0. pose proof (rfold_unit_Ok _ _ H (t1, OvlBuilder)) as B1.
  pose proof (rfold_unit_Ok _ _ H (t2, DrcCommunity)) as B2. clear H.
  specialize (B0 ltac:(set_solver)). specialize (B1 ltac:(set_solver)). specialize (B2 ltac:(set_solver)).
  cbn [List.find treasury_asset] in B0, B1, B2. rewrite A0 in B0. rewrite A0, A1 in B1. rewrite A0, A1, A2 in B2.
  cbn in B0, B1, B2. repeat (apply ensure_Ok in B0). apply ensure_Ok in B1, B2.
  rewrite !andb_true_iff, !bool_decide_eq_true, !Z.eqb_eq in B0, B1, B2. destruct B0 as [[[C1 C2] _] C3], B1 as [[[D1 D2] _] D3], B2 as [[[E1 E2] _] E3].
  cbn. rewrite C1, C2, D1, D2, E1, E2. split_and!; [done|done|].
  intros sup Hs. apply elem_of_cons in Hs as [->|Hs]; [by rewrite A0|]. apply elem_of_cons in Hs as [->|Hs]; [by rewrite A1|].
  apply list_elem_of_singleton in Hs as ->. by rewrite A2.
Qed.

(** The locks on the allocations of an asset are its vesting and its bonds. *)
Lemma zsum_fmap_ext {A} (f g : A -> Z) l : (forall x, x ∈ l -> f x = g x) -> zsum (f <$> l) = zsum (g <$> l).
Proof. intros H. f_equal. apply list_fmap_ext. intros i x Hx. apply H. by eapply list_elem_of_lookup_2. Qed.
Lemma zsum_fmap_add {A} (f g : A -> Z) l : zsum ((fun x => f x + g x) <$> l) = zsum (f <$> l) + zsum (g <$> l).
Proof. induction l as [|x l IH]; [done|]. rewrite !fmap_cons, !zsum_cons, IH. lia. Qed.
Lemma zsum_fmap_zero {A} (f : A -> Z) l : (forall x, x ∈ l -> f x = 0) -> zsum (f <$> l) = 0.
Proof.
  intros H. rewrite (zsum_fmap_ext f (fun _ => 0) l H). clear. induction l as [|x l IH]; [done|]. by rewrite fmap_cons, zsum_cons, IH.
Qed.
Section locks.
Variables (st : TridentBlockZeroState) (ovl drc : BlockZeroValidatorSet).
Hypothesis Hok : manifest_ok st ovl drc.
Variable x : NativeAssetId.
Definition keys_of : list (Z * Address) := alloc_key <$> alloc_of x st.
Lemma keys_of_NoDup : NoDup keys_of.
Proof.
  unfold keys_of, alloc_of. eapply sublist_NoDup; [exact (mo_keys _ _ _ Hok)|apply fmap_sublist, sublist_filter].
Qed.
Lemma elem_keys_of k : k ∈ keys_of <-> k.1 = wire_byte x /\ k ∈ alloc_key <$> bz_allocations st.
Proof.
  unfold keys_of, alloc_of. rewrite !list_elem_of_fmap. setoid_rewrite list_elem_of_filter. split.
  - intros (a & -> & <- & Ha). split; [done|]. by exists a.
  - intros [Hk (a & -> & Ha)]. exists a. split_and!; [done| |done]. by apply wire_byte_inj.
Qed.
Lemma vest_sum : zsum (vest_at (bz_vesting st) <$> keys_of) = zsum (bv_amount <$> vest_of x st).
Proof.
  rewrite <- (sum_by_key vest_key bv_amount keys_of (vest_of x st) keys_of_NoDup).
  - apply zsum_fmap_ext. intros k [Hk _]%elem_keys_of. unfold vest_at, vest_of. f_equal. f_equal.
    rewrite list_filter_filter_l; [done|]. intros s <-. by apply wire_byte_inj.
  - intros s [Hx Hs]%list_elem_of_filter Hk. apply (mo_vesting _ _ _ Hok s Hs). intros Hin. apply Hk, elem_keys_of.
    split; [by rewrite <- Hx|done].
Qed.
Lemma bond_sum set : set ∈ [ovl; drc] ->
  zsum (bond_at set <$> keys_of) = if bool_decide (zs_asset set = x) then zsum (zv_self_bond <$> zs_validators set) else 0.
Proof.
  intros Hset. case_bool_decide as Hx.
  - rewrite <- (sum_by_key (fun v => (wire_byte (zs_asset set), zv_operator v)) zv_self_bond keys_of _ keys_of_NoDup); [done|].
    intros v Hv Hk. apply (mo_bonds _ _ _ Hok set v Hset Hv). intros Hin. apply Hk, elem_keys_of. split; [by rewrite <- Hx|done].
  - apply zsum_fmap_zero. intros k [Hk _]%elem_keys_of. unfold bond_at.
    destruct (filter _ _) as [|v l] eqn:E; [done|]. exfalso.
    assert (v ∈ filter (fun v => (wire_byte (zs_asset set), zv_operator v) = k) (zs_validators set)) as Hv by (rewrite E; left).
    apply list_elem_of_filter in Hv as [<- _]. simpl in Hk. by apply wire_byte_inj in Hk.
Qed.
Lemma lock_sum :
  zsum (lock_at st ovl drc <$> keys_of) = zsum (bv_amount <$> vest_of x st) +
    (if bool_decide (OVL = x) then zsum (zv_self_bond <$> zs_validators ovl) else 0) +
    (if bool_decide (DRC = x) then zsum (zv_self_bond <$> zs_validators drc) else 0).
Proof.
  unfold lock_at. rewrite !zsum_fmap_add, vest_sum, !bond_sum by set_solver.
  destruct (mo_assets _ _ _ Hok) as [-> ->]. done.
Qed.
End locks.

Section manifest.
Variable opk : list Z -> option Address.
Variable fp : list Z -> Hash -> Hash -> Hash.
Variable vsh : BlockZeroValidatorSet -> Hash.
Variable sroot : TridentBlockZeroState -> Hash.
Variable chash aroot : Hash.
Variable cbid : list TxOut -> Hash.
Abbreviation verify := (verify_manifest opk fp vsh sroot).

Lemma allocation_order_inj x y : allocation_order x = allocation_order y <-> alloc_key x = alloc_key y.
Proof. unfold allocation_order, alloc_key. split; [intros [= -> ->]|intros [= -> ->]]; done. Qed.
Lemma verify_ok st : manifest_ints st -> verify st = Ok tt -> exists ovl drc, manifest_ok st ovl drc.
Proof.
  intros [Hv Hb] H. unfold verify_manifest in H. do 5 (apply rbind_Ok in H as ([] & _ & H)).
  apply rbind_Ok in H as ([] & Hdup & H). apply rbind_Ok in H as ([] & _ & H). apply rbind_Ok in H as ([] & Hvest & H).
  apply rbind_Ok in H as ([] & Hsup & H). apply rbind_Ok in H as ([] & Htre & H).
  destruct (bz_validator_sets st) as [|ovl [|drc [|]]] eqn:Hs; try discriminate H.
  apply rbind_Ok in H as ([] & Ha & H). apply rbind_Ok in H as ([] & Ho & H). apply rbind_Ok in H as ([] & Hd & _).
  apply ensure_Ok, andb_true_iff in Ha as [Ha1%bool_decide_eq_true_1 Ha2%bool_decide_eq_true_1].
  apply allocation_supply in Hsup as [Hass Hsup]. apply Forall_cons in Hb as [Hb1 Hb2]. apply Forall_cons in Hb2 as [Hb2 _].
  exists ovl, drc. constructor; try done.
  - apply ensure_Ok, negb_true_iff, has_duplicate_NoDup in Hdup. revert Hdup. clear.
    induction (bz_allocations st) as [|a l IH]; [constructor|]. rewrite !fmap_cons, !NoDup_cons. intros [Hn Hl]. split; [|auto].
    intros (b & Hb & Hin)%list_elem_of_fmap. apply Hn. apply list_elem_of_fmap. exists b. by rewrite allocation_order_inj.
  - by apply funded_vesting.
  - intros set v Hset. apply elem_of_cons in Hset as [->|Hset]; [exact (funded_bonds opk ovl _ Hb1 Ho v)|].
    apply list_elem_of_singleton in Hset as ->. exact (funded_bonds opk drc _ Hb2 Hd v).
  - by apply treasury_supply.
Qed.

Definition val_ops (set : BlockZeroValidatorSet) : WriteBatch :=
  (fun v => PutValidator (zs_asset set) (zv_operator v) (runtime_record v)) <$> zs_validators set.
Lemma put_validators_ops asset vs b :
  foldl (fun b r => put_validator_into b asset r) b (runtime_record <$> vs) =
  b ++ ((fun v => PutValidator asset (zv_operator v) (runtime_record v)) <$> vs).
Proof.
  revert b. induction vs as [|v vs IH]; intros b; [cbn; by rewrite app_nil_r|].
  cbn [fmap list_fmap foldl] in *. rewrite IH. unfold put_validator_into. by rewrite <- app_assoc.
Qed.
Definition treasury_record (e : BlockZeroTreasury) : TreasuryBalance :=
  {| tb_treasury := bt_treasury e; tb_asset := bt_asset e; tb_balance := bt_balance e |}.
Definition gov_ops (st : TridentBlockZeroState) : list GovOp :=
  [GGov KPolicy (Some (RPolicy (policy_record chash aroot (bz_governance_constitution_hash st))));
   GGov KEmergency (Some (RHash (bz_emergency_policy_hash st)))] ++
  mjoin ((fun t => [GGov (KTreasury (treasury_wire_byte (tb_treasury t))) (Some (RTreasury t))]) <$> (treasury_record <$> bz_treasuries st)) ++
  mjoin ((fun c => [GGov (KControl (treasury_wire_byte c.1)) (Some (RControl c.2))]) <$>
    ((fun e => (bt_treasury e, bt_control e)) <$> bz_treasuries st)) ++
  [GGov KVesting (Some (RVesting (bz_vesting st)))].
Definition utxo_puts (tx_id : Hash) (outs : list TxOut) : list GovOp :=
  imap (fun i out => GUtxo (UPut {| op_tx := tx_id; op_index := as_u32 (Z.of_nat i) |} out)) outs.
Lemma live_ops st ovl drc mon po pd ops :
  manifest_ok st ovl drc -> live_writes opk chash aroot cbid st mon po pd = Ok ops ->
  exists supply outs, Forall (fun op => neutral op = true) supply /\ genesis_outputs st = Ok outs /\
    NoDup (zv_operator <$> zs_validators ovl) /\ NoDup (zv_operator <$> zs_validators drc) /\
    ops = (GMeta <$> supply) ++ gov_ops st ++
      (GMeta <$> ((account_op st ovl drc <$> account_allocations st) ++ val_ops ovl ++ [PutEpoch OVL 0] ++ val_ops drc ++ [PutEpoch DRC 0])) ++
      utxo_puts (cbid outs) outs.
Proof.
  intros Hok H. unfold live_writes in H. apply rbind_Ok in H as (outs & Ho & H). apply rbind_Ok in H as (supply & Hs & H).
  apply rbind_Ok in H as (trs & Ht & H). apply rbind_Ok in H as (b1 & H1 & H). apply rbind_Ok in H as (b2 & H2 & H).
  apply rbind_Ok in H as (b3 & H3 & [= <-]). exists supply, outs.
  apply (rfold_grow _ (fun e => [treasury_record e])) in Ht.
  2:{ intros c e c' E. unfold new_treasury_balance in E. apply rbind_Ok in E as (t & E & [= <-]).
      unfold lift_msg in E. case_match eqn:Eq; [|done]. injection E as ->. inv_ok. by subst. }
  rewrite app_nil_l in Ht. replace (mjoin _) with (treasury_record <$> bz_treasuries st) in Ht.
  2:{ clear. induction (bz_treasuries st) as [|e l IH]; [done|]. rewrite !fmap_cons, IH. done. }
  subst trs. apply init_governance_ops in H1 as ->. apply (write_accounts_ops _ _ ovl drc) in H2 as ->; [|apply Hok].
  unfold write_validators in H3. rewrite (mo_sets _ _ _ Hok) in H3. cbn [rfold fst snd] in H3.
  apply rbind_Ok in H3 as (c1 & H3 & H4). apply rbind_Ok in H4 as (c2 & H4 & [= <-]).
  apply rbind_Ok in H3 as (eo & Eo & [= <-]). apply rbind_Ok in H4 as (ed & Ed & [= <-]).
  unfold lift_storage_msg in Eo, Ed. destruct (to_runtime_validator_entries opk ovl po) eqn:Fo; [|done]. injection Eo as ->.
  destruct (to_runtime_validator_entries opk drc pd) eqn:Fd; [|done]. injection Ed as ->.
  apply runtime_entries in Fo as [-> Ho'], Fd as [-> Hd']. rewrite !put_validators_ops, !app_nil_l.
  destruct (mo_assets _ _ _ Hok) as [Ao Ad]. split; [by eapply ignite_neutral|]. split_and!; try done.
  unfold write_genesis_utxos, utxo_puts, val_ops, gov_ops. rewrite Ao, Ad, !fmap_app, <- !app_assoc.
  cbn [app fmap list_fmap]. by rewrite <- !app_assoc.
Qed.

(** ** The genesis outputs *)

Lemma genesis_outputs_value st outs :
  genesis_outputs st = Ok outs ->
  zsum (out_value <$> outs) = zsum (ba_amount <$> alloc_of TLT st) /\ (length outs <= length (bz_allocations st))%nat.
Proof.
  unfold genesis_outputs. intros H. apply rbind_Ok in H as (_ & _ & [= <-]).
  set (l := (fun a => _) <$> _). split.
  - rewrite (zsum_perm (out_value <$> sort_by _ l) (out_value <$> l)) by (by rewrite sort_by_perm). subst l.
    unfold alloc_of. induction (bz_allocations st) as [|a al IH]; [done|]. rewrite !filter_cons.
    destruct (decide (ba_asset a = TLT)) as [Ha|Ha]; [|rewrite decide_False by tauto; exact IH].
    destruct (decide (ba_amount a = 0)) as [Hz|Hz].
    + rewrite decide_False by tauto. rewrite fmap_cons, zsum_cons, Hz, IH. done.
    + rewrite decide_True by done. rewrite !fmap_cons, !zsum_cons, IH. done.
  - rewrite length_sort_by. subst l. rewrite length_fmap. apply length_filter.
Qed.
Lemma utxo_puts_parts tx outs :
  metas (utxo_puts tx outs) = [] /\ govs (utxo_puts tx outs) = [] /\
  utxo_ops (utxo_puts tx outs) = imap (fun i out => UPut {| op_tx := tx; op_index := as_u32 (Z.of_nat i) |} out) outs.
Proof.
  unfold utxo_puts. induction outs as [|o outs (I1 & I2 & I3)] using rev_ind; [done|].
  rewrite !imap_app, metas_app, govs_app, utxo_ops_app, I1, I2, I3. done.
Qed.
Lemma as_u32_small n : 0 <= n <= u32_max -> as_u32 n = n.
Proof. intros H. unfold as_u32. apply Z.mod_small. lia. Qed.
Lemma utxo_puts_total tx outs :
  Z.of_nat (length outs) <= u32_max ->
  let u := write_utxos ∅ (imap (fun i out => UPut {| op_tx := tx; op_index := as_u32 (Z.of_nat i) |} out) outs) in
  utxo_total u = zsum (out_value <$> outs) /\
  (forall j, (length outs <= j)%nat -> Z.of_nat j <= u32_max -> u !! {| op_tx := tx; op_index := as_u32 (Z.of_nat j) |} = None).
Proof.
  induction outs as [|o outs IH] using rev_ind; intros Hl u; subst u; [done|].
  rewrite length_app in Hl. simpl in Hl. destruct IH as [I1 I2]; [lia|].
  rewrite imap_app. unfold write_utxos in *. rewrite foldl_app. cbn [imap foldl apply_utxo_op]. unfold compose. rewrite Nat.add_0_r.
  split.
  - unfold utxo_total in *. rewrite msum_insert_new by (apply I2; lia). rewrite I1, fmap_app, zsum_app. cbn. lia.
  - intros j Hj Hm. rewrite length_app in Hj. simpl in Hj. rewrite lookup_insert_ne; [apply I2; lia|].
    intros [= E]. rewrite !as_u32_small in E by lia. lia.
Qed.

(** ** The live state *)

Definition empty_world : GovWorld := {| gw_store := empty_store; gw_gov := ∅; gw_utxos := ∅ |}.
Definition live_metas (st : TridentBlockZeroState) (ovl drc : BlockZeroValidatorSet) (supply : WriteBatch) : WriteBatch :=
  supply ++ (account_op st ovl drc <$> account_allocations st) ++ val_ops ovl ++ [PutEpoch OVL 0] ++ val_ops drc ++ [PutEpoch DRC 0].
Lemma live_world st ovl drc supply tx outs :
  write_gov empty_world ((GMeta <$> supply) ++ gov_ops st ++
      (GMeta <$> ((account_op st ovl drc <$> account_allocations st) ++ val_ops ovl ++ [PutEpoch OVL 0] ++ val_ops drc ++ [PutEpoch DRC 0])) ++
      utxo_puts tx outs) =
  {| gw_store := write_batch empty_store (live_metas st ovl drc supply);
     gw_gov := foldl (fun g p => partial_alter (fun _ => p.2) p.1 g) ∅ (govs (gov_ops st));
     gw_utxos := write_utxos ∅ (imap (fun i out => UPut {| op_tx := tx; op_index := as_u32 (Z.of_nat i) |} out) outs) |}.
Proof.
  rewrite write_gov_parts, !metas_app, !govs_app, !utxo_ops_app.
  destruct (utxo_puts_parts tx outs) as (-> & -> & ->).
  destruct (parts_meta supply) as (-> & -> & ->).
  destruct (parts_meta ((account_op st ovl drc <$> account_allocations st) ++ val_ops ovl ++ [PutEpoch OVL 0] ++ val_ops drc ++ [PutEpoch DRC 0]))
    as (-> & -> & ->).
  assert (metas (gov_ops st) = [] /\ utxo_ops (gov_ops st) = []) as [-> ->].
  { unfold gov_ops. rewrite !metas_app, !utxo_ops_app. generalize (treasury_record <$> bz_treasuries st).
    generalize ((fun e => (bt_treasury e, bt_control e)) <$> bz_treasuries st). intros l1 l2.
    assert (forall {A} (f : A -> GovKey * option GovRecord) l, metas (mjoin ((fun x => [GGov (f x).1 (f x).2]) <$> l)) = [] /\
      utxo_ops (mjoin ((fun x => [GGov (f x).1 (f x).2]) <$> l)) = []) as Hm.
    { intros A f l. induction l as [|x l IH]; [done|]. exact IH. }
    destruct (Hm _ (fun t => (KTreasury (treasury_wire_byte (tb_treasury t)), Some (RTreasury t))) l2) as [E1 E2].
    destruct (Hm _ (fun c => (KControl (treasury_wire_byte c.1), Some (RControl c.2))) l1) as [E3 E4].
    cbn [fst snd] in E1, E2, E3, E4. by rewrite E1, E2, E3, E4. }
  unfold live_metas. by rewrite !app_nil_r, !app_nil_l.
Qed.

Lemma neutral_adds s op : neutral op = true -> adds s op.
Proof. by destruct op. Qed.
Lemma neutral_gain y l : Forall (fun op => neutral op = true) l -> zsum (gain y <$> l) = 0.
Proof. intros H. apply zsum_fmap_zero. intros op Hop. rewrite Forall_forall in H. specialize (H op Hop). by destruct op. Qed.
Lemma neutral_filter l : Forall (fun op => neutral op = true) l -> filter (fun op => neutral op = false) l = [].
Proof. induction 1 as [|op l Ho _ IH]; [done|]. rewrite filter_cons, decide_False by congruence. done. Qed.
Lemma active_filter {A} (f : A -> WriteOp) (l : list A) : (forall x, neutral (f x) = false) -> filter (fun op => neutral op = false) (f <$> l) = f <$> l.
Proof. intros H. induction l as [|x l IH]; [done|]. by rewrite fmap_cons, filter_cons, decide_True, IH. Qed.
Lemma account_gain st ovl drc x :
  zsum (gain x <$> (account_op st ovl drc <$> account_allocations st)) =
  if is_account_asset x then zsum (ba_amount <$> alloc_of x st) - zsum (lock_at st ovl drc <$> keys_of st x) else 0.
Proof.
  unfold keys_of, alloc_of, account_allocations. induction (bz_allocations st) as [|a l IH]; [by destruct x|].
  rewrite !filter_cons. destruct (is_account_asset (ba_asset a)) eqn:Ea.
  - rewrite decide_True by done. rewrite !fmap_cons, zsum_cons, IH. unfold gain at 1, account_op at 1. cbn [balance].
    destruct (decide (ba_asset a = x)) as [<-|Hne].
    + rewrite bool_decide_eq_true_2, !Ea by done. rewrite !fmap_cons, !zsum_cons.
      change (wire_byte (ba_asset a), ba_address a) with (alloc_key a). lia.
    + rewrite bool_decide_eq_false_2 by done. lia.
  - rewrite decide_False by congruence. rewrite IH. destruct (decide (ba_asset a = x)) as [<-|Hne]; [by rewrite Ea|done].
Qed.
Lemma val_gain set x :
  zsum (gain x <$> val_ops set) = if bool_decide (zs_asset set = x) then zsum (zv_self_bond <$> zs_validators set) else 0.
Proof.
  unfold val_ops. induction (zs_validators set) as [|v l IH]; [by case_bool_decide|].
  rewrite !fmap_cons, !zsum_cons, IH. unfold gain at 1, runtime_record. cbn [self_bond delegated]. case_bool_decide; lia.
Qed.
Lemma live_keys st ovl drc supply :
  manifest_ok st ovl drc -> Forall (fun op => neutral op = true) supply ->
  NoDup (zv_operator <$> zs_validators ovl) -> NoDup (zv_operator <$> zs_validators drc) ->
  NoDup (op_key <$> filter (fun op => neutral op = false) (live_metas st ovl drc supply)).
Proof.
  intros Hok Hs Ho Hd. unfold live_metas, val_ops. destruct (mo_assets _ _ _ Hok) as [-> ->].
  rewrite !filter_app, (neutral_filter supply Hs), !active_filter by done.
  rewrite !filter_cons, !filter_nil, !decide_False by done. rewrite !app_nil_l, !app_nil_r, !fmap_app, <- !list_fmap_compose.
  assert (forall (asset : NativeAssetId) l, NoDup (zv_operator <$> l) ->
    NoDup (op_key ∘ (fun v => PutValidator asset (zv_operator v) (runtime_record v)) <$> l)) as Hv.
  { intros asset l Hn. change (op_key ∘ _) with (KValidator asset ∘ zv_operator). rewrite list_fmap_compose.
    apply NoDup_fmap_2_strong; [by intros ?? _ _ [=]|done]. }
  rewrite !NoDup_app. split_and!; [| |by apply Hv|..].
  - pose proof (mo_keys _ _ _ Hok) as Hk. unfold account_allocations. apply (sublist_NoDup _ (op_key ∘ account_op st ovl drc <$> bz_allocations st)).
    + revert Hk. change (op_key ∘ account_op st ovl drc) with (fun a => KAccount (ba_asset a) (ba_address a)).
      induction (bz_allocations st) as [|a l IH]; [constructor|]. rewrite !fmap_cons, !NoDup_cons. intros [Hn Hl]. split; [|auto].
      intros (b & [= E1 E2] & Hb)%list_elem_of_fmap. apply Hn, list_elem_of_fmap. exists b. unfold alloc_key. by rewrite E1, E2.
    + apply fmap_sublist, sublist_filter.
  - intros k (a & -> & _)%list_elem_of_fmap [(v & E & _)%list_elem_of_fmap|(v & E & _)%list_elem_of_fmap]%elem_of_app; discriminate E.
  - intros k (v & -> & _)%list_elem_of_fmap (v' & E & _)%list_elem_of_fmap. discriminate E.
  - by apply Hv.
Qed.
Lemma live_adds st ovl drc supply :
  Forall (fun op => neutral op = true) supply -> Forall (adds empty_store) (live_metas st ovl drc supply).
Proof.
  intros Hs. unfold live_metas, val_ops. apply Forall_app. split; [eapply Forall_impl; [exact Hs|apply neutral_adds]|].
  apply Forall_app. split; [by apply Forall_fmap, Forall_true|]. apply Forall_app. split; [by apply Forall_fmap, Forall_true|].
  constructor; [done|]. apply Forall_app. split; [by apply Forall_fmap, Forall_true|]. by repeat constructor.
Qed.
Lemma live_holdings st ovl drc supply x :
  manifest_ok st ovl drc -> Forall (fun op => neutral op = true) supply ->
  NoDup (zv_operator <$> zs_validators ovl) -> NoDup (zv_operator <$> zs_validators drc) ->
  holdings x (write_batch empty_store (live_metas st ovl drc supply)) =
    if is_account_asset x then zsum (ba_amount <$> alloc_of x st) - zsum (bv_amount <$> vest_of x st) else 0.
Proof.
  intros Hok Hs Ho Hd. rewrite adds_run; [|by apply live_adds|by apply live_keys].
  rewrite empty_holdings. unfold live_metas. rewrite !fmap_app, !zsum_app, (neutral_gain x supply Hs), account_gain, !val_gain.
  rewrite (lock_sum st ovl drc Hok x). destruct (mo_assets _ _ _ Hok) as [-> ->]. rewrite !(neutral_gain x [_]) by (by repeat constructor).
  destruct x; cbn [is_account_asset]; repeat case_bool_decide; try done; lia.
Qed.

(** The governance records of the live state. *)
Lemma live_records st ovl drc g :
  manifest_ok st ovl drc -> g = foldl (fun g p => partial_alter (fun _ => p.2) p.1 g) ∅ (govs (gov_ops st)) ->
  forall w, gw_gov w = g ->
  (forall sup, sup ∈ bz_supplies st -> treasury_of w (treasury_for (bs_asset sup)) = bs_treasury sup) /\
  load_vesting_schedules w = Ok (bz_vesting st) /\
  (forall id, load_vesting_unlocked w id = Ok 0) /\ (forall t, load_treasury_controller w t = Ok None).
Proof.
  intros Hok -> w Hw. destruct (mo_treasuries _ _ _ Hok) as (t0 & t1 & t2 & Ht & Hid & _ & Hsup).
  injection Hid as I0 I1 I2.
  assert (gw_gov w = <[KVesting := RVesting (bz_vesting st)]> (<[KControl 2 := RControl (bt_control t2)]>
    (<[KControl 1 := RControl (bt_control t1)]> (<[KControl 0 := RControl (bt_control t0)]>
    (<[KTreasury 2 := RTreasury (treasury_record t2)]> (<[KTreasury 1 := RTreasury (treasury_record t1)]>
    (<[KTreasury 0 := RTreasury (treasury_record t0)]> (<[KEmergency := RHash (bz_emergency_policy_hash st)]>
    (<[KPolicy := RPolicy (policy_record chash aroot (bz_governance_constitution_hash st))]> ∅))))))))) as Hg.
  { rewrite Hw. unfold gov_ops. rewrite Ht. cbn [fmap list_fmap mjoin list_join app govs omap list_omap foldl fst snd treasury_record tb_treasury].
    rewrite I0, I1, I2. done. }
  split_and!.
  - intros sup Hin. rewrite (Hsup sup Hin). unfold treasury_of. rewrite Hg.
    destruct (bs_asset sup); simpl; repeat first [rewrite lookup_insert_eq | rewrite lookup_insert_ne by done]; done.
  - unfold load_vesting_schedules. by rewrite Hg, lookup_insert_eq.
  - intros id. unfold load_vesting_unlocked, load_u64. rewrite Hg, !lookup_insert_ne by done. by rewrite lookup_empty.
  - intros t. unfold load_treasury_controller. rewrite Hg, !lookup_insert_ne by done. by rewrite lookup_empty.
Qed.

(** What the live state is worth, asset by asset. *)
Lemma genesis_value st mon po pd ops sup :
  manifest_ints st -> Z.of_nat (length (bz_allocations st)) <= u32_max -> verify st = Ok tt ->
  live_writes opk chash aroot cbid st mon po pd = Ok ops -> sup ∈ bz_supplies st ->
  let w := write_gov empty_world ops in
  let x := bs_asset sup in
  treasury_of w (treasury_for x) + wallets x w + (if bool_decide (x = TLT) then 0 else zsum (bv_amount <$> vest_of x st)) =
    bs_genesis_allocated sup + bs_treasury sup /\
  load_vesting_schedules w = Ok (bz_vesting st) /\ (forall id, load_vesting_unlocked w id = Ok 0) /\
  (forall t, load_treasury_controller w t = Ok None).
Proof.
  intros Hi Hlen Hv H Hsup. cbn zeta. destruct (verify_ok st Hi Hv) as (ovl & drc & Hok).
  destruct (live_ops st ovl drc mon po pd ops Hok H) as (supply & outs & Hs & Ho & Hno & Hnd & ->).
  rewrite live_world.
  lazymatch goal with |- context [treasury_of ?v _] => destruct (live_records st ovl drc _ Hok eq_refl v eq_refl) as (R1 & R2 & R3 & R4) end.
  rewrite (R1 sup Hsup). unfold wallets. cbn [gw_store gw_utxos]. split; [|done].
  rewrite live_holdings by done. rewrite <- (mo_supply _ _ _ Hok sup Hsup).
  destruct (genesis_outputs_value st outs Ho) as [Ev El].
  destruct (utxo_puts_total (cbid outs) outs) as [Eu _]; [lia|]. rewrite Eu, Ev.
  destruct (bs_asset sup) eqn:E; cbn [is_account_asset]; case_bool_decide; try done; lia.
Qed.

Context {Auth : Type}.
Variable vt : TreasuryDisbursement -> Auth -> result string Address.
Variable vv : VestingUnlock -> Auth -> result string Address.
Variable did : TreasuryDisbursement -> Hash.
Variable uid : VestingUnlock -> Hash.
Variable sid : BlockZeroVesting -> Hash.
Variable auth : Auth.

(** C34: From the live state of a verified manifest, after any history of
    treasury and vesting operations, the OVL and DRC in accounts, stakes and
    the treasury and what their schedules still owe add up to the supply
    bucket's allocation and treasury, less what schedules with a repeated id hold
    (finding): a manifest may list one schedule twice, both lock the
    allocation, and only the first can be claimed.  For TLT the same sum exceeds the bucket by
    the whole TLT vesting (finding): the allocations were paid out in full at
    genesis.  And no disbursement is ever accepted (finding), since no
    controller is installed. *)
Theorem genesis_backing (st : TridentBlockZeroState) (mon : TridentMonetaryPolicy) (po pd : StakingParams) (ops : list GovOp)
  (sup : BlockZeroSupply) (l : list GovEvent) (w' : GovWorld) :
  manifest_ints st -> Z.of_nat (length (bz_allocations st)) <= u32_max -> verify st = Ok tt ->
  live_writes opk chash aroot cbid st mon po pd = Ok ops ->
  rfold (gov_event vt vv did uid sid chash aroot auth) (write_gov empty_world ops) l = Ok w' ->
  Forall (fun e => no_other e = true) l -> sup ∈ bz_supplies st ->
  backing sid (bs_asset sup) (bz_vesting st) w' = bs_genesis_allocated sup + bs_treasury sup +
    (if bool_decide (bs_asset sup = TLT) then zsum (bv_amount <$> vest_of TLT st) else 0) -
    repeated sid (bs_asset sup) (bz_vesting st) /\
  spends_of l = [].
Proof.
  intros Hi Hlen Hv H Hrun Hl Hsup. destruct (genesis_value st mon po pd ops sup Hi Hlen Hv H Hsup) as (Hw & Hsl & Hu & Hc).
  split.
  - rewrite (run_backing _ _ _ _ _ _ _ _ _ _ _ _ _ Hrun Hl Hsl). unfold backing.
    replace (owed sid (bs_asset sup) (bz_vesting st) (write_gov empty_world ops))
      with (zsum (bv_amount <$> vest_of (bs_asset sup) st) - repeated sid (bs_asset sup) (bz_vesting st)).
    + case_bool_decide as E; rewrite ?E in *; lia.
    + unfold owed, owed_each, repeated, vest_of. rewrite Z.sub_sub_distr, Z.sub_diag, Z.add_0_l. apply zsum_fmap_ext. intros s _. unfold owed_for.
      rewrite (load_u64_Ok _ _ _ (Hu (sid s))). lia.
  - destruct (spends_of l) as [|s sl] eqn:E; [done|]. exfalso.
    destruct (treasury_history_lemma _ _ _ _ _ _ _ _ _ _ _ (td_treasury s) Hrun) as (_ & _ & _ & Hf & _).
    unfold from_treasury in Hf. rewrite E, filter_cons, decide_True in Hf by done. apply Forall_cons in Hf as [(c & _ & Hc') _].
    by rewrite Hc in Hc'.
Qed.
End manifest.

(** ** A network *)

Definition net_key (k : list Z) : option Address := head k.
Definition net_validator (op : Address) : BlockZeroValidator :=
  {| zv_operator := op; zv_consensus_public_key := [op]; zv_withdrawal_address := op; zv_self_bond := 1000000;
     zv_commission_bps := 100; zv_metadata_hash := 9 |}.
Definition net_set (asset : NativeAssetId) : BlockZeroValidatorSet :=
  {| zs_asset := asset; zs_epoch := 0; zs_max_validators := 100; zs_min_self_bond := 1000000; zs_unbonding_period_checkpoints := 7;
     zs_max_commission_bps := 5000; zs_max_concentration_bps := 3000; zs_validators := [net_validator 5]; zs_total_active_stake := 1000000 |}.
Definition net_supply (asset : NativeAssetId) (allocated treasury : Z) : BlockZeroSupply :=
  {| bs_asset := asset; bs_max_supply := allocated + treasury; bs_genesis_allocated := allocated; bs_treasury := treasury;
     bs_staking_reward_reserve := 0; bs_unissued := 0 |}.
Definition net_treasury (t : TreasuryId) (n : Z) : BlockZeroTreasury :=
  {| bt_treasury := t; bt_asset := treasury_asset t; bt_control := [103]; bt_balance := n |}.
Definition net_vesting (asset : NativeAssetId) : BlockZeroVesting :=
  {| bv_asset := asset; bv_address := 8; bv_amount := 100; bv_start := 10; bv_cliff := 20; bv_end := 30 |}.
Definition net_manifest : TridentBlockZeroState :=
  {| bz_version := 3; bz_chain_id := [97]; bz_network_fingerprint := 1; bz_artifact_identity := 2; bz_consensus_policy_hash := 3;
     bz_governance_constitution_hash := 4; bz_emergency_policy_hash := 5;
     bz_allocations := [{| ba_asset := TLT; ba_address := 8; ba_amount := 100 |};
                        {| ba_asset := OVL; ba_address := 5; ba_amount := 1000000 |}; {| ba_asset := OVL; ba_address := 8; ba_amount := 130 |};
                        {| ba_asset := DRC; ba_address := 5; ba_amount := 1000007 |}];
     bz_vesting := [net_vesting TLT; net_vesting OVL];
     bz_supplies := [net_supply TLT 100 0; net_supply OVL 1000130 40; net_supply DRC 1000007 0];
     bz_treasuries := [net_treasury TltSecurity 0; net_treasury OvlBuilder 40; net_treasury DrcCommunity 0];
     bz_validator_sets := [net_set OVL; net_set DRC];
     bz_finality := {| bf_state := Proposed; bf_pow_work_met := false; bf_finalized_blue_score := None; bf_ovl_snapshot := 6;
       bf_ovl_active_stake := 1000000; bf_ovl_signed_stake := 0; bf_drc_snapshot := 6; bf_drc_active_stake := 1000000; bf_drc_signed_stake := 0 |} |}.
Definition net_live : result StateError (list GovOp) :=
  live_writes net_key 66 77 (fun _ => 500) net_manifest default_monetary_policy (staking_default OVL) (staking_default DRC).
Definition net_schedule_id (s : BlockZeroVesting) : Hash := 3000 + wire_byte (bv_asset s).
Definition claim_key (c : VestingUnlock) (_ : unit) : result string Address := ok_or "bad key"%string (head (vu_public_key c)).
Definition spend_key (s : TreasuryDisbursement) (_ : unit) : result string Address := ok_or "bad key"%string (head (td_public_key s)).
Definition net_claim (asset : NativeAssetId) (n : Z) : VestingUnlock :=
  {| vu_version := 1; vu_asset := asset; vu_beneficiary := 8; vu_schedule_id := 3000 + wire_byte asset; vu_amount := 100; vu_nonce := n;
     vu_public_key := [8]; vu_signature := [] |}.
Definition net_run : result StateError GovWorld :=
  let? ops := net_live in
  rfold (gov_event spend_key claim_key td_nonce vu_nonce net_schedule_id 66 77 tt) (write_gov empty_world ops)
    [EUnlock (net_claim TLT 0) 30; EUnlock (net_claim OVL 1) 30].
Lemma genesis_backing_witness :
  exists w', net_run = Ok w' /\ backing net_schedule_id OVL (bz_vesting net_manifest) w' = 1000170 /\
    backing net_schedule_id TLT (bz_vesting net_manifest) w' = 200.
Proof.
  unfold net_run. destruct net_live as [ops|] eqn:E; [|vm_compute in E; discriminate E]. cbn [rbind].
  destruct (rfold _ _ _) as [w'|] eqn:R; [|vm_compute in E; injection E as <-; vm_compute in R; discriminate R].
  exists w'. split; [done|]. unfold net_live in E.
  split.
  - destruct (genesis_backing net_key (fun _ _ _ => 1) (fun _ => 6) (fun _ => 7) 66 77 (fun _ => 500) spend_key claim_key td_nonce vu_nonce
      net_schedule_id tt net_manifest default_monetary_policy (staking_default OVL) (staking_default DRC) ops (net_supply OVL 1000130 40)
      [EUnlock (net_claim TLT 0) 30; EUnlock (net_claim OVL 1) 30] w') as [H _];
      [split; repeat constructor; simpl; lia|vm_compute; discriminate|vm_compute; reflexivity|exact E|exact R|repeat constructor|set_solver|].
    refine (eq_trans H _). vm_compute. reflexivity.
  - destruct (genesis_backing net_key (fun _ _ _ => 1) (fun _ => 6) (fun _ => 7) 66 77 (fun _ => 500) spend_key claim_key td_nonce vu_nonce
      net_schedule_id tt net_manifest default_monetary_policy (staking_default OVL) (staking_default DRC) ops (net_supply TLT 100 0)
      [EUnlock (net_claim TLT 0) 30; EUnlock (net_claim OVL 1) 30] w') as [H _];
      [split; repeat constructor; simpl; lia|vm_compute; discriminate|vm_compute; reflexivity|exact E|exact R|repeat constructor|set_solver|].
    refine (eq_trans H _). vm_compute. reflexivity.
Defined.

(** (finding) A network whose whole TLT supply is one vested allocation:
    the beneficiary holds all of it in an output of Block 0, and after the end of the
    schedule claims it a second time.  Twice the maximum supply is then unspent. *)
Theorem tlt_vesting_mints :
  exists w ops, net_live = Ok ops /\ net_run = Ok w /\
    bs_max_supply <$> head (bz_supplies net_manifest) = Some 100 /\
    utxo_total (gw_utxos (write_gov empty_world ops)) = 100 /\ utxo_total (gw_utxos w) = 200.
Proof.
  unfold net_run. destruct net_live as [ops|] eqn:E; [|vm_compute in E; discriminate E]. cbn [rbind].
  destruct (rfold _ _ _) as [w'|] eqn:R; [|vm_compute in E; injection E as <-; vm_compute in R; discriminate R].
  exists w', ops. split; [done|]. split; [done|].
  vm_compute in E. injection E as <-. vm_compute in R. injection R as <-. vm_compute. auto.
Qed.

(** (finding) A manifest may list one schedule twice.  Both amounts are locked out
    of the beneficiary's allocation, but they share an id and a counter: after the
    first is claimed in full, a claim of the second is refused for ever, and 100 OVL
    of the allocation belong to nobody. *)
Definition twice_manifest : TridentBlockZeroState :=
  {| bz_version := 3; bz_chain_id := [97]; bz_network_fingerprint := 1; bz_artifact_identity := 2; bz_consensus_policy_hash := 3;
     bz_governance_constitution_hash := 4; bz_emergency_policy_hash := 5;
     bz_allocations := [{| ba_asset := TLT; ba_address := 8; ba_amount := 100 |};
                        {| ba_asset := OVL; ba_address := 5; ba_amount := 1000000 |}; {| ba_asset := OVL; ba_address := 8; ba_amount := 230 |};
                        {| ba_asset := DRC; ba_address := 5; ba_amount := 1000007 |}];
     bz_vesting := [net_vesting OVL; net_vesting OVL];
     bz_supplies := [net_supply TLT 100 0; net_supply OVL 1000230 40; net_supply DRC 1000007 0];
     bz_treasuries := bz_treasuries net_manifest; bz_validator_sets := bz_validator_sets net_manifest; bz_finality := bz_finality net_manifest |}.
Definition twice_run (l : list GovEvent) : result StateError GovWorld :=
  let? ops := live_writes net_key 66 77 (fun _ => 500) twice_manifest default_monetary_policy (staking_default OVL) (staking_default DRC) in
  rfold (gov_event spend_key claim_key td_nonce vu_nonce net_schedule_id 66 77 tt) (write_gov empty_world ops) l.
Theorem repeated_schedule_lost :
  verify_manifest net_key (fun _ _ _ => 1) (fun _ => 6) (fun _ => 7) twice_manifest = Ok tt /\
  repeated net_schedule_id OVL (bz_vesting twice_manifest) = 100 /\
  (exists w, twice_run [EUnlock (net_claim OVL 0) 30] = Ok w /\ backing net_schedule_id OVL (bz_vesting twice_manifest) w = 1000170) /\
  (exists e, twice_run [EUnlock (net_claim OVL 0) 30; EUnlock (net_claim OVL 1) 1000000000] = Err e).
Proof.
  split; [vm_compute; reflexivity|]. split; [vm_compute; reflexivity|]. split.
  - destruct (twice_run [EUnlock (net_claim OVL 0) 30]) as [w|] eqn:E; [|vm_compute in E; discriminate E]. exists w. split; [done|].
    vm_compute in E. injection E as <-. vm_compute. reflexivity.
  - destruct (twice_run _) as [w|e] eqn:E; [vm_compute in E; discriminate E|by exists e].
Qed.
