(* ===== verification/Governance.v ===== *)
(** * Civic governance ([governance/src])

    Proposals of the node's civic engine ([engine.rs]) and what they rest on:
    vote weights (integer square root of the balance, capped at a share of the
    supply), tallies, offices and the authorization each proposal class needs.

    [HashMap<u64, Proposal>] is a finite map, the strings of a proposal are lists
    of characters; the hash of a constitution body is a parameter. *)

From stdpp Require Import base gmap list fin_maps strings.
From Stdlib Require Import ZArith Lia.
From S2P Require Import Prelude Ordering Sums Types.
Local Open Scope Z_scope.

Inductive GovernanceError :=
| ZeroSupply | EmptyElectorate | Overflow | UnknownProposal | NotAcceptingDeposit | NotAcceptingVotes | NotReadyToTally
| NotReadyToExecute | TimelockActive | DuplicateVote | IneligibleVoter | WrongChamber | MissingSponsorship | MissingArchonAssent
| SeatOccupied | SeatVacant | InvalidSeat | InvalidConstitution | InvalidTopic | UnknownTopic | InsufficientDeposit | QuorumNotMet
| ThresholdNotMet.

(** ** Vote weight ([math.rs], [whale.rs], [quadratic.rs]) *)

Definition div_ceil (a b : Z) : Z := (a + b - 1) / b.
Fixpoint isqrt_loop (fuel : nat) (n x y : Z) : Z :=
  match fuel with
  | O => x
  | S fuel => if y <? x then isqrt_loop fuel n y (saturating_add u64_max y (n / y) / 2) else x
  end.
Definition isqrt_fuel : nat := 66.
Definition isqrt (n : Z) : Z := if n <=? 1 then n else isqrt_loop isqrt_fuel n n (div_ceil n 2).

Record WhaleCapConfig := { max_share_bps : Z }.
Definition default_whale_cap : WhaleCapConfig := {| max_share_bps := 500 |}.
Definition max_countable_balance (c : WhaleCapConfig) (total_supply : Z) : result GovernanceError Z :=
  ensure (negb (total_supply =? 0)) ZeroSupply ;?
  Ok (saturating_mul u64_max total_supply (max_share_bps c) / 10000).
Definition apply_whale_cap (raw_balance total_supply : Z) (c : WhaleCapConfig) : result GovernanceError (Z * bool) :=
  let? max := max_countable_balance c total_supply in
  Ok (if max <? raw_balance then (max, true) else (raw_balance, false)).

Record VoterBalance := { vb_address : Address; raw_balance : Z }.
Record EffectiveVote := {
  ev_address : Address;
  ev_raw_balance : Z;
  capped_balance : Z;
  effective_votes : Z;
  was_whale_capped : bool;
}.
Definition quadratic_votes (raw : Z) : Z := isqrt raw.
Definition effective_votes_for (raw total_supply : Z) (c : WhaleCapConfig) : result GovernanceError (Z * Z * bool) :=
  ensure (negb (total_supply =? 0)) ZeroSupply ;?
  let? (capped, was) := apply_whale_cap raw total_supply c in
  Ok (capped, quadratic_votes capped, was).
Definition tally_quadratic_votes (voters : list VoterBalance) (total_supply : Z) (c : WhaleCapConfig)
  : result GovernanceError (list EffectiveVote) :=
  ensure (negb (Nat.eqb (length voters) 0)) EmptyElectorate ;?
  ensure (negb (total_supply =? 0)) ZeroSupply ;?
  rfold (fun out v =>
    let? (capped, eff, was) := effective_votes_for (raw_balance v) total_supply c in
    Ok (out ++ [{| ev_address := vb_address v; ev_raw_balance := raw_balance v; capped_balance := capped;
                   effective_votes := eff; was_whale_capped := was |}])) [] voters.
Definition total_effective_power (l : list EffectiveVote) : result GovernanceError Z :=
  rfold (fun acc v => ok_or Overflow (checked_add u64_max acc (effective_votes v))) 0 l.
Definition max_power_share_bps (l : list EffectiveVote) : result GovernanceError Z :=
  let? total := total_effective_power l in
  Ok (if total =? 0 then 0
      else saturating_mul u64_max (foldr Z.max 0 (effective_votes <$> l)) 10000 / total).

(** ** Offices ([ranks.rs], [office.rs]) *)

Inductive CivicRank := ArchonEponymous | ArchonBasileus | ArchonPolemarch | Bouleutes | Tamias.
#[export] Instance CivicRank_eq_dec : EqDecision CivicRank.
Proof. solve_decision. Defined.
Definition is_archon (r : CivicRank) : bool :=
  match r with ArchonEponymous | ArchonBasileus | ArchonPolemarch => true | _ => false end.
Record OfficeSeat := {
  os_rank : CivicRank;
  os_index : Z;
  holder : option Address;
  elected_slot : option Z;
  term_end_slot : option Z;
}.
Abbreviation OfficeBoard := (list OfficeSeat) (only parsing).
Definition vacant_seat (r : CivicRank) (i : Z) : OfficeSeat :=
  {| os_rank := r; os_index := i; holder := None; elected_slot := None; term_end_slot := None |}.
Definition with_defaults (boule_seats tamias_seats : Z) : OfficeBoard :=
  [vacant_seat ArchonEponymous 0; vacant_seat ArchonBasileus 0; vacant_seat ArchonPolemarch 0] ++
  (vacant_seat Bouleutes <$> seqZ 0 boule_seats) ++ (vacant_seat Tamias <$> seqZ 0 tamias_seats).
Definition is_seat (r : CivicRank) (i : Z) (s : OfficeSeat) : bool := bool_decide (os_rank s = r) && (os_index s =? i).
Definition seat (b : OfficeBoard) (r : CivicRank) (i : Z) : result GovernanceError OfficeSeat :=
  ok_or InvalidSeat (List.find (is_seat r i) b).
(** [*seat_mut(r, i)? = f(..)?]: the first seat that matches is replaced. *)
Fixpoint seat_mut (b : OfficeBoard) (r : CivicRank) (i : Z) (f : OfficeSeat -> result GovernanceError OfficeSeat)
  : result GovernanceError OfficeBoard :=
  match b with
  | [] => Err InvalidSeat
  | s :: b' =>
      if is_seat r i s then let? s' := f s in Ok (s' :: b')
      else let? b'' := seat_mut b' r i f in Ok (s :: b'')
  end.
Definition holders (b : OfficeBoard) (r : CivicRank) : list Address :=
  omap holder (filter (fun s => os_rank s = r) b).
Definition is_seated (b : OfficeBoard) (r : CivicRank) (who : Address) : bool :=
  existsb (fun s => bool_decide (os_rank s = r) && bool_decide (holder s = Some who)) b.
Definition is_any_archon (b : OfficeBoard) (who : Address) : bool :=
  existsb (fun s => is_archon (os_rank s) && bool_decide (holder s = Some who)) b.
Definition seat_holder (b : OfficeBoard) (r : CivicRank) (i : Z) (who : Address) (now term_slots : Z)
  : result GovernanceError OfficeBoard :=
  seat_mut b r i (fun s =>
    ensure (bool_decide (holder s = None)) SeatOccupied ;?
    Ok {| os_rank := os_rank s; os_index := os_index s; holder := Some who; elected_slot := Some now;
          term_end_slot := Some (saturating_add u64_max now term_slots) |}).
Definition vacate (b : OfficeBoard) (r : CivicRank) (i : Z) : result GovernanceError OfficeBoard :=
  seat_mut b r i (fun s =>
    ensure (negb (bool_decide (holder s = None))) SeatVacant ;?
    Ok {| os_rank := os_rank s; os_index := os_index s; holder := None; elected_slot := None; term_end_slot := None |}).

(** ** Proposals ([proposal.rs], [authorization.rs], [chamber.rs], [params.rs]) *)

Inductive ParameterScope := Minor | Major.
Inductive ProposalKind :=
| TextSignal
| ParameterChange (scope : ParameterScope) (key value : list Z)
| TreasurySpend (amount : Z) (beneficiary_note : list Z)
| SoftwareUpgrade (version manifest_hash_hex : list Z)
| RankElection (rank : CivicRank) (seat_index : Z) (candidate : Address)
| RankImpeachment (rank : CivicRank) (seat_index : Z)
| ConstitutionAmendment (new_constitution_id new_body_markdown : list Z)
| EmergencyAction (reason : list Z).
Inductive ProposalStatus := Draft | Deposit | Voting | Passed | Rejected | FailedQuorum | Vetoed | Timelock | Executed | Expired.
#[export] Instance ProposalStatus_eq_dec : EqDecision ProposalStatus.
Proof. solve_decision. Defined.
Inductive VoteChoice := Yes | No | Abstain | NoWithVeto.
#[export] Instance VoteChoice_eq_dec : EqDecision VoteChoice.
Proof. solve_decision. Defined.
Record Ballot := { bl_voter : Address; bl_choice : VoteChoice; bl_weight : Z }.
Record VoteTally := { yes : Z; no : Z; abstain : Z; no_with_veto : Z }.
Definition empty_tally : VoteTally := {| yes := 0; no := 0; abstain := 0; no_with_veto := 0 |}.
Definition tally_add (t : VoteTally) (c : VoteChoice) (weight : Z) : result GovernanceError VoteTally :=
  let add v := ok_or Overflow (checked_add u64_max v weight) in
  match c with
  | Yes => let? v := add (yes t) in Ok {| yes := v; no := no t; abstain := abstain t; no_with_veto := no_with_veto t |}
  | No => let? v := add (no t) in Ok {| yes := yes t; no := v; abstain := abstain t; no_with_veto := no_with_veto t |}
  | Abstain => let? v := add (abstain t) in Ok {| yes := yes t; no := no t; abstain := v; no_with_veto := no_with_veto t |}
  | NoWithVeto => let? v := add (no_with_veto t) in Ok {| yes := yes t; no := no t; abstain := abstain t; no_with_veto := v |}
  end.
Definition total_voted (t : VoteTally) : result GovernanceError Z :=
  ok_or Overflow (checked_add u64_max (yes t) (no t) ≫= fun v => checked_add u64_max v (abstain t) ≫= fun v =>
    checked_add u64_max v (no_with_veto t)).
Definition yes_ratio_bps (t : VoteTally) : Z :=
  let decided := saturating_add u64_max (saturating_add u64_max (yes t) (no t)) (no_with_veto t) in
  if decided =? 0 then 0 else saturating_mul u64_max (yes t) 10000 / decided.
Definition veto_ratio_bps (t : VoteTally) : Z :=
  let total := match total_voted t with Ok v => v | Err _ => 0 end in
  if total =? 0 then 0 else saturating_mul u64_max (no_with_veto t) 10000 / total.

Record Proposal := {
  p_id : Z;
  p_title : list Z;
  p_summary : list Z;
  p_kind : ProposalKind;
  p_status : ProposalStatus;
  p_author : Address;
  p_deposit : Z;
  p_sponsors : list Address;
  p_created_slot : Z;
  p_voting_start_slot : option Z;
  p_voting_end_slot : option Z;
  p_timelock_end_slot : option Z;
  p_tally : VoteTally;
  p_ballots : list Ballot;
  p_archon_assents : list Address;
}.

Inductive VotingChamber := Ecclesia | Boule | ArchonCollegium.
Inductive ProposalClass :=
| CTextSignal | CParameterMinor | CParameterMajor | CTreasurySpend | CSoftwareUpgrade | CRankElection | CRankImpeachment
| CConstitutionAmendment | CEmergencyAction.
Record ProposalAuthorization := {
  chamber : VotingChamber;
  requires_tamias_sponsor : bool;
  required_archon_assents : Z;
  basileus_assent_suffices : bool;
  requires_timelock : bool;
}.
Definition proposal_class (k : ProposalKind) : ProposalClass :=
  match k with
  | TextSignal => CTextSignal
  | ParameterChange Minor _ _ => CParameterMinor
  | ParameterChange Major _ _ => CParameterMajor
  | TreasurySpend _ _ => CTreasurySpend
  | SoftwareUpgrade _ _ => CSoftwareUpgrade
  | RankElection _ _ _ => CRankElection
  | RankImpeachment _ _ => CRankImpeachment
  | ConstitutionAmendment _ _ => CConstitutionAmendment
  | EmergencyAction _ => CEmergencyAction
  end.
Definition authorization_for_class (c : ProposalClass) : ProposalAuthorization :=
  {| chamber := match c with CParameterMinor => Boule | CEmergencyAction => ArchonCollegium | _ => Ecclesia end;
     requires_tamias_sponsor := match c with CTreasurySpend => true | _ => false end;
     required_archon_assents := match c with CConstitutionAmendment => 2 | _ => 0 end;
     basileus_assent_suffices := match c with CConstitutionAmendment => true | _ => false end;
     requires_timelock := true |}.
Definition authorization_for (k : ProposalKind) : ProposalAuthorization := authorization_for_class (proposal_class k).
Definition primary_chamber (k : ProposalKind) : VotingChamber := chamber (authorization_for k).

Record GovernanceParams := {
  min_deposit : Z;
  ecclesia_quorum_bps : Z;
  ecclesia_pass_bps : Z;
  ecclesia_veto_bps : Z;
  amendment_quorum_bps : Z;
  amendment_pass_bps : Z;
  boule_pass_bps : Z;
  archon_pass_bps : Z;
  voting_period_slots : Z;
  timelock_slots : Z;
  emergency_ratify_slots : Z;
  term_slots : Z;
  boule_seats : Z;
  tamias_seats : Z;
}.
Definition default_params : GovernanceParams :=
  {| min_deposit := 1000000; ecclesia_quorum_bps := 4000; ecclesia_pass_bps := 5000; ecclesia_veto_bps := 3340;
     amendment_quorum_bps := 5000; amendment_pass_bps := 6670; boule_pass_bps := 5000; archon_pass_bps := 5000;
     voting_period_slots := 10000; timelock_slots := 1000; emergency_ratify_slots := 5000; term_slots := 1000000;
     boule_seats := 21; tamias_seats := 3 |}.

(** ** The engine ([engine.rs]) *)

Record EnactedConstitution := { c_id : list Z; body_markdown : list Z; content_hash : Hash }.
Record GovernanceState := {
  constitution : EnactedConstitution;
  params : GovernanceParams;
  whale_cap : WhaleCapConfig;
  offices : OfficeBoard;
  proposals : gmap Z Proposal;
  next_proposal_id : Z;
  ecclesia_eligible_power : Z;
}.
Definition put_proposal (g : GovernanceState) (id : Z) (p : Proposal) : GovernanceState :=
  {| constitution := constitution g; params := params g; whale_cap := whale_cap g; offices := offices g;
     proposals := <[id := p]> (proposals g); next_proposal_id := next_proposal_id g;
     ecclesia_eligible_power := ecclesia_eligible_power g |}.
Definition set_offices (g : GovernanceState) (b : OfficeBoard) : GovernanceState :=
  {| constitution := constitution g; params := params g; whale_cap := whale_cap g; offices := b;
     proposals := proposals g; next_proposal_id := next_proposal_id g; ecclesia_eligible_power := ecclesia_eligible_power g |}.
(** What the node's [with_civic_mut] writes before it calls the engine: the power
    a quorum is measured against is the supply issued so far. *)
Definition set_eligible (g : GovernanceState) (eligible : Z) : GovernanceState :=
  {| constitution := constitution g; params := params g; whale_cap := whale_cap g; offices := offices g;
     proposals := proposals g; next_proposal_id := next_proposal_id g; ecclesia_eligible_power := eligible |}.
Definition get_proposal (g : GovernanceState) (id : Z) : result GovernanceError Proposal :=
  ok_or UnknownProposal (proposals g !! id).

Definition with_status (p : Proposal) (s : ProposalStatus) : Proposal :=
  {| p_id := p_id p; p_title := p_title p; p_summary := p_summary p; p_kind := p_kind p; p_status := s; p_author := p_author p;
     p_deposit := p_deposit p; p_sponsors := p_sponsors p; p_created_slot := p_created_slot p;
     p_voting_start_slot := p_voting_start_slot p; p_voting_end_slot := p_voting_end_slot p;
     p_timelock_end_slot := p_timelock_end_slot p; p_tally := p_tally p; p_ballots := p_ballots p; p_archon_assents := p_archon_assents p |}.

Section engine.
Variable hash_constitution_body : list Z -> Hash.
Definition from_body (id body : list Z) : EnactedConstitution :=
  {| c_id := id; body_markdown := body; content_hash := hash_constitution_body body |}.

(** [v1] names the first constitution. *)
Definition genesis (v1_id v1_body : list Z) (eligible_power : Z) : GovernanceState :=
  {| constitution := from_body v1_id v1_body; params := default_params; whale_cap := default_whale_cap;
     offices := with_defaults (boule_seats default_params) (tamias_seats default_params);
     proposals := ∅; next_proposal_id := 1; ecclesia_eligible_power := eligible_power |}.

Definition submit_proposal (g : GovernanceState) (author : Address) (title summary : list Z) (kind : ProposalKind) (now_slot : Z)
  : result GovernanceError (GovernanceState * Z) :=
  let id := next_proposal_id g in
  let? next := ok_or Overflow (checked_add u64_max id 1) in
  let p := {| p_id := id; p_title := title; p_summary := summary; p_kind := kind; p_status := Deposit; p_author := author;
    p_deposit := 0; p_sponsors := []; p_created_slot := now_slot; p_voting_start_slot := None; p_voting_end_slot := None;
    p_timelock_end_slot := None; p_tally := empty_tally; p_ballots := []; p_archon_assents := [] |} in
  Ok ({| constitution := constitution g; params := params g; whale_cap := whale_cap g; offices := offices g;
         proposals := <[id := p]> (proposals g); next_proposal_id := next;
         ecclesia_eligible_power := ecclesia_eligible_power g |}, id).

Definition add_deposit (g : GovernanceState) (id amount : Z) : result GovernanceError GovernanceState :=
  let? p := get_proposal g id in
  ensure (bool_decide (p_status p = Deposit)) NotAcceptingDeposit ;?
  let? d := ok_or Overflow (checked_add u64_max (p_deposit p) amount) in
  Ok (put_proposal g id
    {| p_id := p_id p; p_title := p_title p; p_summary := p_summary p; p_kind := p_kind p; p_status := p_status p; p_author := p_author p;
       p_deposit := d; p_sponsors := p_sponsors p; p_created_slot := p_created_slot p;
       p_voting_start_slot := p_voting_start_slot p; p_voting_end_slot := p_voting_end_slot p;
       p_timelock_end_slot := p_timelock_end_slot p; p_tally := p_tally p; p_ballots := p_ballots p; p_archon_assents := p_archon_assents p |}).

Definition sponsor_as_tamias (g : GovernanceState) (id : Z) (who : Address) : result GovernanceError GovernanceState :=
  ensure (is_seated (offices g) Tamias who) IneligibleVoter ;?
  let? p := get_proposal g id in
  ensure (match p_kind p with TreasurySpend _ _ => true | _ => false end) WrongChamber ;?
  Ok (put_proposal g id
    {| p_id := p_id p; p_title := p_title p; p_summary := p_summary p; p_kind := p_kind p; p_status := p_status p; p_author := p_author p;
       p_deposit := p_deposit p;
       p_sponsors := if bool_decide (who ∈ p_sponsors p) then p_sponsors p else p_sponsors p ++ [who];
       p_created_slot := p_created_slot p; p_voting_start_slot := p_voting_start_slot p; p_voting_end_slot := p_voting_end_slot p;
       p_timelock_end_slot := p_timelock_end_slot p; p_tally := p_tally p; p_ballots := p_ballots p; p_archon_assents := p_archon_assents p |}).

Definition record_archon_assent (g : GovernanceState) (id : Z) (who : Address) : result GovernanceError GovernanceState :=
  ensure (is_any_archon (offices g) who) IneligibleVoter ;?
  let? p := get_proposal g id in
  Ok (put_proposal g id
    {| p_id := p_id p; p_title := p_title p; p_summary := p_summary p; p_kind := p_kind p; p_status := p_status p; p_author := p_author p;
       p_deposit := p_deposit p; p_sponsors := p_sponsors p; p_created_slot := p_created_slot p;
       p_voting_start_slot := p_voting_start_slot p; p_voting_end_slot := p_voting_end_slot p;
       p_timelock_end_slot := p_timelock_end_slot p; p_tally := p_tally p; p_ballots := p_ballots p;
       p_archon_assents := if bool_decide (who ∈ p_archon_assents p) then p_archon_assents p else p_archon_assents p ++ [who] |}).

Definition open_voting (g : GovernanceState) (id now_slot : Z) : result GovernanceError GovernanceState :=
  let? p := get_proposal g id in
  ensure (bool_decide (p_status p = Deposit)) NotAcceptingDeposit ;?
  ensure (min_deposit (params g) <=? p_deposit p) InsufficientDeposit ;?
  ensure (negb (requires_tamias_sponsor (authorization_for (p_kind p)) && bool_decide (p_sponsors p = []))) MissingSponsorship ;?
  Ok (put_proposal g id
    {| p_id := p_id p; p_title := p_title p; p_summary := p_summary p; p_kind := p_kind p; p_status := Voting; p_author := p_author p;
       p_deposit := p_deposit p; p_sponsors := p_sponsors p; p_created_slot := p_created_slot p;
       p_voting_start_slot := Some now_slot;
       p_voting_end_slot := Some (saturating_add u64_max now_slot (voting_period_slots (params g)));
       p_timelock_end_slot := p_timelock_end_slot p; p_tally := p_tally p; p_ballots := p_ballots p; p_archon_assents := p_archon_assents p |}).

Definition vote_weight (g : GovernanceState) (c : VotingChamber) (voter : Address) (raw total_supply : Z) : result GovernanceError Z :=
  match c with
  | Ecclesia =>
      let? (_, eff, _) := effective_votes_for raw total_supply (whale_cap g) in
      ensure (negb (eff =? 0)) IneligibleVoter ;? Ok eff
  | Boule => ensure (is_seated (offices g) Bouleutes voter || is_any_archon (offices g) voter) IneligibleVoter ;? Ok 1
  | ArchonCollegium => ensure (is_any_archon (offices g) voter) IneligibleVoter ;? Ok 1
  end.
Definition cast_vote (g : GovernanceState) (id : Z) (voter : Address) (choice : VoteChoice) (raw total_supply : Z)
  : result GovernanceError GovernanceState :=
  let? p := get_proposal g id in
  ensure (bool_decide (p_status p = Voting)) NotAcceptingVotes ;?
  ensure (negb (existsb (fun b => bl_voter b =? voter) (p_ballots p))) DuplicateVote ;?
  let? weight := vote_weight g (primary_chamber (p_kind p)) voter raw total_supply in
  let? t := tally_add (p_tally p) choice weight in
  Ok (put_proposal g id
    {| p_id := p_id p; p_title := p_title p; p_summary := p_summary p; p_kind := p_kind p; p_status := p_status p; p_author := p_author p;
       p_deposit := p_deposit p; p_sponsors := p_sponsors p; p_created_slot := p_created_slot p;
       p_voting_start_slot := p_voting_start_slot p; p_voting_end_slot := p_voting_end_slot p;
       p_timelock_end_slot := p_timelock_end_slot p; p_tally := t;
       p_ballots := p_ballots p ++ [{| bl_voter := voter; bl_choice := choice; bl_weight := weight |}];
       p_archon_assents := p_archon_assents p |}).

Definition simple_majority (t : VoteTally) (pass_bps _min_voters : Z) : result GovernanceError ProposalStatus :=
  let? voted := total_voted t in
  Ok (if voted =? 0 then FailedQuorum else if pass_bps <=? yes_ratio_bps t then Passed else Rejected).
Definition tally_ecclesia (g : GovernanceState) (kind : ProposalKind) (t : VoteTally) : result GovernanceError ProposalStatus :=
  let? voted := total_voted t in
  let eligible := Z.max (ecclesia_eligible_power g) 1 in
  let '(quorum_bps, pass_bps) :=
    match kind with
    | ConstitutionAmendment _ _ => (amendment_quorum_bps (params g), amendment_pass_bps (params g))
    | _ => (ecclesia_quorum_bps (params g), ecclesia_pass_bps (params g))
    end in
  let turnout_bps := saturating_mul u64_max voted 10000 / eligible in
  Ok (if turnout_bps <? quorum_bps then FailedQuorum
      else if ecclesia_veto_bps (params g) <=? veto_ratio_bps t then Vetoed
      else if pass_bps <=? yes_ratio_bps t then Passed else Rejected).
Definition tally (g : GovernanceState) (id : Z) : result GovernanceError (GovernanceState * ProposalStatus) :=
  let? p := get_proposal g id in
  ensure (bool_decide (p_status p = Voting)) NotReadyToTally ;?
  let? status :=
    match primary_chamber (p_kind p) with
    | Ecclesia => tally_ecclesia g (p_kind p) (p_tally p)
    | Boule => simple_majority (p_tally p) (boule_pass_bps (params g)) 0
    | ArchonCollegium => simple_majority (p_tally p) (archon_pass_bps (params g)) 0
    end in
  Ok (put_proposal g id (with_status p status), status).

Definition archon_assented (g : GovernanceState) (p : Proposal) : bool :=
  let a := authorization_for (p_kind p) in
  if 0 <? required_archon_assents a then
    let basileus_ok :=
      match head (holders (offices g) ArchonBasileus) with Some b => bool_decide (b ∈ p_archon_assents p) | None => false end in
    let archon_count := Z.of_nat (length (filter (fun b => is_any_archon (offices g) b = true) (p_archon_assents p))) in
    (basileus_assent_suffices a && basileus_ok) || (required_archon_assents a <=? archon_count)
  else true.
Definition enter_timelock (g : GovernanceState) (id now_slot : Z) : result GovernanceError GovernanceState :=
  let? p := get_proposal g id in
  ensure (bool_decide (p_status p = Passed)) NotReadyToExecute ;?
  ensure (archon_assented g p) MissingArchonAssent ;?
  Ok (put_proposal g id
    {| p_id := p_id p; p_title := p_title p; p_summary := p_summary p; p_kind := p_kind p; p_status := Timelock; p_author := p_author p;
       p_deposit := p_deposit p; p_sponsors := p_sponsors p; p_created_slot := p_created_slot p;
       p_voting_start_slot := p_voting_start_slot p; p_voting_end_slot := p_voting_end_slot p;
       p_timelock_end_slot := Some (saturating_add u64_max now_slot (timelock_slots (params g)));
       p_tally := p_tally p; p_ballots := p_ballots p; p_archon_assents := p_archon_assents p |}).

(** What executing a kind does to the state. *)
Definition execute_kind (g : GovernanceState) (kind : ProposalKind) (now_slot : Z) : result GovernanceError GovernanceState :=
  match kind with
  | RankElection r i candidate =>
      let? b := seat_holder (offices g) r i candidate now_slot (term_slots (params g)) in Ok (set_offices g b)
  | RankImpeachment r i => let? b := vacate (offices g) r i in Ok (set_offices g b)
  | ConstitutionAmendment id body =>
      ensure (negb (bool_decide (id = []) || bool_decide (body = []))) InvalidConstitution ;?
      Ok {| constitution := from_body id body; params := params g; whale_cap := whale_cap g; offices := offices g;
            proposals := proposals g; next_proposal_id := next_proposal_id g; ecclesia_eligible_power := ecclesia_eligible_power g |}
  | _ => Ok g
  end.
Definition execute (g : GovernanceState) (id now_slot : Z) : result GovernanceError GovernanceState :=
  let? p := get_proposal g id in
  ensure (bool_decide (p_status p = Timelock)) NotReadyToExecute ;?
  let? end_ := ok_or TimelockActive (p_timelock_end_slot p) in
  ensure (end_ <=? now_slot) TimelockActive ;?
  let? g := execute_kind g (p_kind p) now_slot in
  let? p := get_proposal g id in
  Ok (put_proposal g id (with_status p Executed)).

Definition ecclesia_weight (g : GovernanceState) (v : VoterBalance) (total_supply : Z) : result GovernanceError Z :=
  let? (_, eff, _) := effective_votes_for (raw_balance v) total_supply (whale_cap g) in Ok eff.
End engine.
