(* ===== verification/GovernanceProps.v ===== *)
(** * Civic governance: the theorems

    Vote weights are exact square roots under the cap, tallies are the sums of
    distinct ballots, and a proposal is executed only along its whole life. *)

From stdpp Require Import base gmap list fin_maps strings.
From Stdlib Require Import ZArith Lia.
From S2P Require Import Prelude Ordering Sums Types Governance.
Local Open Scope Z_scope.

(** ** The square root *)

(** A Newton step from above the root stays at or above it and at least halves
    the distance. *)
Lemma newton_above n x : 0 <= n -> 0 < x -> Z.sqrt n <= (x + n / x) / 2.
Proof.
  intros Hn Hx. pose proof (Z.sqrt_spec n Hn) as [Hs _]. pose proof (Z.sqrt_nonneg n) as H0. set (s := Z.sqrt n) in *.
  apply Z.div_le_lower_bound; [lia|].
  assert (2 * s - x <= n / x); [|lia]. apply Z.div_le_lower_bound; [lia|]. pose proof (Z.square_nonneg (x - s)). nia.
Qed.
Lemma newton_halves n x : 0 <= n -> Z.sqrt n < x -> (x + n / x) / 2 - Z.sqrt n <= (x - Z.sqrt n) / 2.
Proof.
  intros Hn Hx. pose proof (Z.sqrt_spec n Hn) as [_ Hs]. pose proof (Z.sqrt_nonneg n) as H0. set (s := Z.sqrt n) in *.
  assert (n / x <= s) by (apply Z.lt_succ_r, Z.div_lt_upper_bound; nia).
  replace ((x - s) / 2) with ((x + s) / 2 - s) by (replace (x + s) with ((x - s) + s * 2) by lia; rewrite Z.div_add by lia; lia).
  assert ((x + n / x) / 2 <= (x + s) / 2) by (apply Z.div_le_mono; lia). lia.
Qed.
Lemma newton_fixed n x : 0 <= n -> 0 < x -> x <= (x + n / x) / 2 -> x <= Z.sqrt n.
Proof.
  intros Hn Hx Hy. assert (x <= n / x) by (pose proof (Z.mul_div_le (x + n / x) 2); lia).
  apply Z.sqrt_le_square; [lia|lia|]. pose proof (Z.mul_div_le n x). nia.
Qed.
Lemma isqrt_loop_correct fuel n x :
  1 < n <= u64_max -> Z.sqrt n <= x <= n -> x - Z.sqrt n < 2 ^ Z.of_nat fuel ->
  isqrt_loop (S fuel) n x ((x + n / x) / 2) = Z.sqrt n.
Proof.
  intros Hn. revert x. induction fuel as [|fuel IH]; intros x Hx He.
  - assert (x = Z.sqrt n) as -> by (simpl in He; lia). simpl. rewrite (proj2 (Z.ltb_ge _ _)); [done|].
    apply newton_above; [lia|]. apply Z.sqrt_pos. lia.
  - cbn [isqrt_loop]. assert (0 < Z.sqrt n) as Hpos by (apply Z.sqrt_pos; lia).
    destruct (Z.ltb_spec ((x + n / x) / 2) x) as [Hlt|Hge].
    + set (y := (x + n / x) / 2) in *.
      pose proof (newton_above n x ltac:(lia) ltac:(lia)) as Ha. fold y in Ha.
      assert (Z.sqrt n < x) as Hsx by lia.
      pose proof (newton_halves n x ltac:(lia) Hsx) as Hh. fold y in Hh. clearbody y.
      assert (n / y <= Z.sqrt n + 2) as Hq.
      { apply Z.lt_succ_r, Z.div_lt_upper_bound; [lia|]. pose proof (Z.sqrt_spec n ltac:(lia)) as [_ Hs].
        assert (Z.sqrt n * Z.succ (Z.sqrt n + 2) <= y * Z.succ (Z.sqrt n + 2)) by (apply Z.mul_le_mono_nonneg_r; lia). lia. }
      rewrite saturating_add_exact.
      * apply IH; [lia|]. rewrite Nat2Z.inj_succ, Z.pow_succ_r in He by lia.
        assert ((x - Z.sqrt n) / 2 < 2 ^ Z.of_nat fuel) by (apply Z.div_lt_upper_bound; lia). lia.
      * assert (Z.sqrt n <= 4294967296) by (etransitivity; [apply (Z.sqrt_le_mono n u64_max); lia|vm_compute; discriminate]).
        assert ((x - Z.sqrt n) / 2 <= 9223372036854775808) by (apply Z.div_le_upper_bound; unfold u64_max in *; lia).
        unfold u64_max in *. lia.
    + apply Z.le_antisymm; [|lia]. apply newton_fixed; lia.
Qed.
(** The loop's fuel is enough, and its result the floor of the root. *)
Lemma isqrt_sqrt n : 0 <= n <= u64_max -> isqrt n = Z.sqrt n.
Proof.
  intros Hn. unfold isqrt. destruct (Z.leb_spec n 1) as [H1|H1].
  - assert (n = 0 \/ n = 1) as [->| ->] by lia; done.
  - unfold isqrt_fuel. replace (div_ceil n 2) with ((n + n / n) / 2) by (unfold div_ceil; rewrite Z.div_same by lia; f_equal; lia).
    apply isqrt_loop_correct; [lia| |].
    + split; [apply Z.sqrt_le_lin; lia|lia].
    + pose proof (Z.sqrt_nonneg n). assert (u64_max < 2 ^ Z.of_nat 65) by (vm_compute; reflexivity). lia.
Qed.

(** ** Weights *)

(** What the cap lets count of a balance. *)
Definition countable (c : WhaleCapConfig) (raw total_supply : Z) : Z := Z.min raw (total_supply * max_share_bps c / 10000).
Lemma effective_votes_Ok c raw supply capped eff was :
  0 <= raw <= u64_max -> 0 <= supply -> 0 <= max_share_bps c -> supply * max_share_bps c <= u64_max ->
  effective_votes_for raw supply c = Ok (capped, eff, was) ->
  0 < supply /\ capped = countable c raw supply /\ eff = Z.sqrt capped /\ was = bool_decide (supply * max_share_bps c / 10000 < raw).
Proof.
  intros Hr Hs Hc Hm. unfold effective_votes_for, apply_whale_cap, max_countable_balance, quadratic_votes, saturating_mul, countable.
  rewrite Z.min_r by done. set (m := supply * max_share_bps c / 10000).
  assert (0 <= m) by (apply Z.div_pos; nia).
  destruct (Z.eqb_spec supply 0) as [->|Hn]; cbn [negb ensure rbind]; [done|].
  destruct (Z.ltb_spec m raw) as [Hlt|Hge]; cbn; intros [= <- <- <-].
  - rewrite bool_decide_eq_true_2 by done. rewrite isqrt_sqrt, Z.min_r by lia. split_and!; [lia|done|done|done].
  - rewrite bool_decide_eq_false_2 by lia. rewrite isqrt_sqrt, Z.min_l by lia. split_and!; [lia|done|done|done].
Qed.

(** C39: The weight of an Ecclesia vote is the floor of the square root of the
    balance, counted up to the capped share of the supply: the Newton loop
    ends within its fuel and computes it exactly in machine integers, as long as
    the supply times the share in basis points fits a u64 (which holds for TLT up
    to its maximum supply). *)
Theorem vote_weight_correct (g : GovernanceState) (voter raw supply w : Z) :
  0 <= raw <= u64_max -> 0 <= supply -> 0 <= max_share_bps (whale_cap g) -> supply * max_share_bps (whale_cap g) <= u64_max ->
  (vote_weight g Ecclesia voter raw supply = Ok w <->
     0 < supply /\ 0 < w /\ w = Z.sqrt (Z.min raw (supply * max_share_bps (whale_cap g) / 10000))) /\
  isqrt raw * isqrt raw <= raw < (isqrt raw + 1) * (isqrt raw + 1).
Proof.
  intros Hr Hs Hc Hm. split; [|rewrite isqrt_sqrt by done; apply Z.sqrt_spec; lia].
  unfold vote_weight. split.
  - intros H. apply rbind_Ok in H as ([[capped eff] was] & H & H'). apply effective_votes_Ok in H as (H1 & -> & -> & _); try done.
    apply rbind_Ok in H' as (u & Hz & [= <-]). apply ensure_Ok, negb_true_iff, Z.eqb_neq in Hz. unfold countable in *.
    pose proof (Z.sqrt_nonneg (Z.min raw (supply * max_share_bps (whale_cap g) / 10000))). split_and!; [done|lia|done].
  - intros (H1 & H2 & ->). destruct (effective_votes_for raw supply (whale_cap g)) as [[[capped eff] was]|e] eqn:E.
    + apply effective_votes_Ok in E as (_ & -> & -> & _); try done. cbn [rbind]. unfold countable.
      rewrite (proj2 (Z.eqb_neq _ 0)) by lia. done.
    + unfold effective_votes_for, apply_whale_cap, max_countable_balance in E. rewrite (proj2 (Z.eqb_neq supply 0)) in E by lia.
      cbn in E. by destruct (_ <? raw).
Qed.
Lemma vote_weight_correct_witness :
  vote_weight (genesis (fun _ => 0) [] [] 0) Ecclesia 7 1000000 10000000 = Ok 707.
Proof.
  apply (vote_weight_correct (genesis (fun _ => 0) [] [] 0) 7 1000000 10000000 707); [unfold u64_max; simpl; lia..|].
  vm_compute. auto.
Defined.

(** ** Runs *)

Inductive GovAct :=
| ASubmit (author : Address) (title summary : list Z) (kind : ProposalKind) (now : Z)
| ADeposit (id amount : Z)
| ASponsor (id : Z) (who : Address)
| AAssent (id : Z) (who : Address)
| AOpen (id now : Z)
| AVote (id : Z) (voter : Address) (choice : VoteChoice) (raw supply : Z)
| ATally (id : Z)
| ATimelock (id now : Z)
| AExecute (id now : Z)
| ASupply (eligible : Z).   (* the node resets the eligible power from the issued supply before a call *)

Section runs.
Variable hash_body : list Z -> Hash.
Definition gov_act (g : GovernanceState) (a : GovAct) : result GovernanceError GovernanceState :=
  match a with
  | ASubmit au t s k n => let? r := submit_proposal g au t s k n in Ok r.1
  | ADeposit id n => add_deposit g id n
  | ASponsor id w => sponsor_as_tamias g id w
  | AAssent id w => record_archon_assent g id w
  | AOpen id n => open_voting g id n
  | AVote id v c r s => cast_vote g id v c r s
  | ATally id => let? r := tally g id in Ok r.1
  | ATimelock id n => enter_timelock g id n
  | AExecute id n => execute hash_body g id n
  | ASupply e => Ok (set_eligible g e)
  end.
(** A rejected call leaves the state as it was. *)
Definition gov_try (g : GovernanceState) (a : GovAct) : GovernanceState :=
  match gov_act g a with Ok g' => g' | Err _ => g end.
Definition gov_run (g : GovernanceState) (l : list GovAct) : GovernanceState := foldl gov_try g l.

(** The outcome of a tally under the rules of its chamber. *)
Definition outcome (g : GovernanceState) (p : Proposal) : result GovernanceError ProposalStatus :=
  match primary_chamber (p_kind p) with
  | Ecclesia => tally_ecclesia g (p_kind p) (p_tally p)
  | Boule => simple_majority (p_tally p) (boule_pass_bps (params g)) 0
  | ArchonCollegium => simple_majority (p_tally p) (archon_pass_bps (params g)) 0
  end.
Definition opened (g : GovernanceState) (p : Proposal) : Prop :=
  min_deposit (params g) <= p_deposit p /\ (requires_tamias_sponsor (authorization_for (p_kind p)) = true -> p_sponsors p <> []).

(** ** What a proposal has gone through *)

(** The weight cast for a choice, and the count of all the ballots. *)
Definition cast (c : VoteChoice) (bs : list Ballot) : Z :=
  zsum ((fun b => if bool_decide (bl_choice b = c) then bl_weight b else 0) <$> bs).
Definition counted (bs : list Ballot) : VoteTally :=
  {| yes := cast Yes bs; no := cast No bs; abstain := cast Abstain bs; no_with_veto := cast NoWithVeto bs |}.
(** The assent a proposal needs to be enacted: where its class asks for archons,
    the sitting Basileus among those who assented, if one assent is enough, or as
    many different sitting archons as the class requires. *)
Definition assent_given (g : GovernanceState) (p : Proposal) : Prop :=
  let a := authorization_for (p_kind p) in
  0 < required_archon_assents a ->
  (basileus_assent_suffices a = true /\ exists b, head (holders (offices g) ArchonBasileus) = Some b /\ b ∈ p_archon_assents p) \/
  (exists who : list Address, NoDup who /\ required_archon_assents a <= Z.of_nat (length who) /\
     forall b, b ∈ who -> b ∈ p_archon_assents p /\ is_any_archon (offices g) b = true).
(** The vote that decided [p]: at some visited state it was open, with the same
    ballots, and its count gave [st]. *)
Definition decided (H : GovernanceState -> Prop) (id : Z) (p : Proposal) (st : ProposalStatus) : Prop :=
  exists g q, H g /\ proposals g !! id = Some q /\ p_status q = Voting /\
    (p_kind q, p_ballots q, p_tally q) = (p_kind p, p_ballots p, p_tally p) /\ outcome g q = Ok st.
(** When it was enacted, the assent was there. *)
Definition assented (H : GovernanceState -> Prop) (id : Z) (p : Proposal) : Prop :=
  exists g q, H g /\ proposals g !! id = Some q /\ p_status q = Passed /\ p_kind q = p_kind p /\ assent_given g q.
(** [H] are the states visited so far. *)
Definition lived (H : GovernanceState -> Prop) (g : GovernanceState) (id : Z) (p : Proposal) : Prop :=
  match p_status p with
  | Draft | Expired => False
  | Deposit => p_ballots p = []
  | Voting => opened g p
  | Passed | Rejected | FailedQuorum | Vetoed => opened g p /\ decided H id p (p_status p)
  | Timelock | Executed => opened g p /\ decided H id p Passed /\ assented H id p /\ p_timelock_end_slot p <> None
  end.
(** Who acted on it, each when they held the office it takes; a citizen with the
    weight of the balance the call states. *)
Definition entitled (H : GovernanceState -> Prop) (p : Proposal) : Prop :=
  (forall w, w ∈ p_sponsors p -> exists g, H g /\ is_seated (offices g) Tamias w = true) /\
  (forall w, w ∈ p_archon_assents p -> exists g, H g /\ is_any_archon (offices g) w = true) /\
  (forall b, b ∈ p_ballots p -> exists g raw supply, H g /\
     vote_weight g (primary_chamber (p_kind p)) (bl_voter b) raw supply = Ok (bl_weight b)).
Record sound (H : GovernanceState -> Prop) (g : GovernanceState) (id : Z) (p : Proposal) : Prop := {
  s_id : p_id p = id;
  s_known : id < next_proposal_id g;
  s_tally : p_tally p = counted (p_ballots p);
  s_voters : NoDup (bl_voter <$> p_ballots p);
  s_assents : NoDup (p_archon_assents p);
  s_entitled : entitled H p;
  s_lived : lived H g id p;
}.
(** The edges of a proposal's life. *)
Definition moves (s s' : ProposalStatus) : bool :=
  bool_decide (s = s') ||
  match s, s' with
  | Deposit, Voting | Voting, (Passed | Rejected | FailedQuorum | Vetoed) | Passed, Timelock | Timelock, Executed => true
  | _, _ => false
  end.
Record grows (p p' : Proposal) : Prop := {
  g_fixed : (p_id p', p_title p', p_summary p', p_kind p', p_author p', p_created_slot p') = (p_id p, p_title p, p_summary p, p_kind p, p_author p, p_created_slot p);
  g_status : moves (p_status p) (p_status p') = true;
  g_deposit : p_status p = Deposit \/ p_deposit p' = p_deposit p;
  g_ballots : (p_ballots p', p_tally p') = (p_ballots p, p_tally p) \/
    p_status p = Voting /\ p_status p' = Voting /\ exists b, p_ballots p' = p_ballots p ++ [b] /\ bl_voter b ∉ bl_voter <$> p_ballots p;
  g_assents : p_archon_assents p `prefix_of` p_archon_assents p' /\ p_sponsors p `prefix_of` p_sponsors p';
}.
(** A call on one proposal. *)
Record touches (g g' : GovernanceState) (id : Z) (p p' : Proposal) : Prop := {
  t_before : proposals g !! id = Some p;
  t_after : proposals g' = <[id := p']> (proposals g);
  t_env : (params g', ecclesia_eligible_power g', next_proposal_id g') = (params g, ecclesia_eligible_power g, next_proposal_id g);
  t_grows : grows p p';
  t_sound H : H g -> sound H g id p -> sound H g id p';
}.

Lemma counted_snoc bs t c v w :
  tally_add (counted bs) c w = Ok t -> t = counted (bs ++ [{| bl_voter := v; bl_choice := c; bl_weight := w |}]).
Proof.
  intros H. unfold counted, cast. rewrite !fmap_app, !zsum_app. unfold counted in H.
  destruct c; cbn [tally_add] in H; inv_ok; subst; f_equal; unfold cast; cbn; lia.
Qed.
Lemma sound_later H g g' id p :
  params g' = params g -> next_proposal_id g <= next_proposal_id g' -> sound H g id p -> sound H g' id p.
Proof.
  intros H1 H3 [? ? ? ? ? ? Hl]. split; [done|lia|done|done|done|done|]. unfold lived, opened in *. by rewrite H1.
Qed.
Lemma decided_more (H H' : GovernanceState -> Prop) id p st : (forall x, H x -> H' x) -> decided H id p st -> decided H' id p st.
Proof. intros Hm (g & q & Hg & Hq). exists g, q. auto. Qed.
Lemma assented_more (H H' : GovernanceState -> Prop) id p : (forall x, H x -> H' x) -> assented H id p -> assented H' id p.
Proof. intros Hm (g & q & Hg & Hq). exists g, q. auto. Qed.
Lemma sound_more (H H' : GovernanceState -> Prop) g id p : (forall x, H x -> H' x) -> sound H g id p -> sound H' g id p.
Proof.
  intros Hm [? ? ? ? ? (Hs & Ha & Hb) Hl]. split; try done.
  - split_and!; [intros w Hw; destruct (Hs w Hw)|intros w Hw; destruct (Ha w Hw)|intros b Hw; destruct (Hb b Hw)]; naive_solver.
  - unfold lived in *. pose proof (decided_more _ _ id p Passed Hm). pose proof (decided_more _ _ id p (p_status p) Hm) as Hd.
    pose proof (assented_more _ _ id p Hm). destruct (p_status p); tauto.
Qed.
Lemma nodup_push (w : Address) l : NoDup l -> NoDup (if bool_decide (w ∈ l) then l else l ++ [w]).
Proof. case_bool_decide; [done|]. intros Hn. apply NoDup_app. split_and!; [done| |apply NoDup_singleton]. by intros x Hx ->%list_elem_of_singleton. Qed.
Lemma elem_push (w x : Address) l : x ∈ (if bool_decide (w ∈ l) then l else l ++ [w]) -> x ∈ l \/ x = w.
Proof. case_bool_decide; [auto|]. rewrite elem_of_app, list_elem_of_singleton. tauto. Qed.
Lemma prefix_push (w : Address) l : l `prefix_of` (if bool_decide (w ∈ l) then l else l ++ [w]).
Proof. case_bool_decide; [done|by apply prefix_app_r]. Qed.
Lemma nil_push (w : Address) l : (if bool_decide (w ∈ l) then l else l ++ [w]) <> [].
Proof. case_bool_decide as H; [by intros ->; apply elem_of_nil in H|by destruct l]. Qed.

Lemma lived_kept H g id p p' :
  (p_status p', p_kind p', p_ballots p', p_tally p', p_timelock_end_slot p', p_deposit p') =
  (p_status p, p_kind p, p_ballots p, p_tally p, p_timelock_end_slot p, p_deposit p) ->
  (p_sponsors p <> [] -> p_sponsors p' <> []) -> lived H g id p -> lived H g id p'.
Proof.
  intros [= Hs Hk Hb Ht Hl Hd] Hsp. unfold lived, decided, assented, opened. rewrite Hs, Hk, Hb, Ht, Hl, Hd.
  destruct (p_status p); tauto.
Qed.

(** *** Every call touches one proposal *)

Ltac gov_bools :=
  repeat match goal with
  | H : bool_decide _ = true |- _ => apply bool_decide_eq_true in H
  | H : (_ <=? _) = true |- _ => apply Z.leb_le in H
  end;
  match goal with H : p_status _ = _ |- _ => rename H into Hst | _ => idtac end.
Ltac same_life := unfold lived, decided, assented, opened in *; cbn [p_status p_deposit p_sponsors p_ballots p_tally p_kind p_archon_assents p_timelock_end_slot].
Lemma add_deposit_touches g id n g' : add_deposit g id n = Ok g' -> exists p p', touches g g' id p p'.
Proof.
  unfold add_deposit, get_proposal. intros H. inv_ok. subst. gov_bools. eexists _, _. split; [done|done|done| |].
  - split; cbn; [done|unfold moves; by rewrite bool_decide_eq_true_2|by left|by left|done].
  - intros Vis Hg0 [? ? ? ? ? He Hl]. split; cbn; try done. same_life. by rewrite Hst in *.
Qed.
Lemma sponsor_touches g id w g' : sponsor_as_tamias g id w = Ok g' -> exists p p', touches g g' id p p'.
Proof.
  unfold sponsor_as_tamias, get_proposal. intros H. inv_ok. subst. eexists _, _. split; [done|done|done| |].
  - split; cbn; [done|unfold moves; by rewrite bool_decide_eq_true_2|by right|by left|split; [done|apply prefix_push]].
  - intros Vis Hg0 [? ? ? ? ? He Hl]. split; cbn; try done; [|apply (lived_kept _ _ _ a0); [done|intros _; apply nil_push|exact Hl]].
    destruct He as (Hs & Ha & Hb). split_and!; cbn; [|done|done]. intros x [?| ->]%elem_push; [by apply Hs|by exists g].
Qed.
Lemma assent_touches g id w g' : record_archon_assent g id w = Ok g' -> exists p p', touches g g' id p p'.
Proof.
  unfold record_archon_assent, get_proposal. intros H. inv_ok. subst. eexists _, _. split; [done|done|done| |].
  - split; cbn; [done|unfold moves; by rewrite bool_decide_eq_true_2|by right|by left|split; [apply prefix_push|done]].
  - intros Vis Hg0 [? ? ? ? ? He Hl]. split; cbn; try done; [by apply nodup_push|].
    destruct He as (Hs & Ha & Hb). split_and!; cbn; [done| |done]. intros x [?| ->]%elem_push; [by apply Ha|by exists g].
Qed.
Lemma open_touches g id n g' : open_voting g id n = Ok g' -> exists p p', touches g g' id p p'.
Proof.
  unfold open_voting, get_proposal. intros H. inv_ok. subst. gov_bools.
  eexists _, _. split; [done|done|done| |].
  - split; cbn; [done|unfold moves; by rewrite Hst|by left|by left|done].
  - intros Vis Hg0 [? ? ? ? ? He Hl]. split; cbn; try done. same_life. split; [done|]. intros Hr. cbn in Hr.
    match goal with H : negb _ = true |- _ => rewrite Hr in H; cbn in H end. by case_bool_decide.
Qed.
Lemma vote_touches g id v c r s g' : cast_vote g id v c r s = Ok g' -> exists p p', touches g g' id p p'.
Proof.
  unfold cast_vote, get_proposal. intros H. inv_ok. subst. gov_bools.
  match goal with H : negb _ = true |- _ => apply negb_true_iff, not_true_iff_false in H; rename H into Hd end.
  assert (Hv : v ∉ bl_voter <$> p_ballots a).
  { intros (b & -> & Hb)%list_elem_of_fmap. apply Hd, existsb_exists. exists b.
    split; [by apply list_elem_of_In|apply Z.eqb_refl]. }
  eexists _, _. split; [done|done|done| |].
  - split; cbn; [done|unfold moves; by rewrite bool_decide_eq_true_2|by right| |done].
    right. split_and!; [done|done|]. by eexists.
  - intros Vis Hg0 [? ? Ht Hn ? (Hs & Ha & Hb) Hl]. split; cbn; try done.
    + rewrite Ht in *. by eapply counted_snoc.
    + rewrite fmap_app. apply NoDup_app. split_and!; [done| |apply NoDup_singleton].
      intros x Hx Hx'. apply list_elem_of_singleton in Hx'. by subst.
    + split_and!; cbn; [done|done|]. intros b [?|Hx%list_elem_of_singleton]%elem_of_app; [by apply Hb|]. subst b. by exists g, r, s.
    + same_life. by rewrite Hst in *.
Qed.
Lemma outcome_status g p s : outcome g p = Ok s -> s = Passed \/ s = Rejected \/ s = FailedQuorum \/ s = Vetoed.
Proof.
  unfold outcome, simple_majority, tally_ecclesia. intros H. destruct (primary_chamber (p_kind p)), (p_kind p); inv_ok; subst;
    repeat case_match; auto.
Qed.
Lemma tally_touches g id g' s : tally g id = Ok (g', s) -> exists p p', touches g g' id p p'.
Proof.
  unfold tally, get_proposal. intros H. apply rbind_Ok in H as (p & Hp & H). apply ok_or_Ok in Hp.
  apply rbind_Ok in H as (u & Hst & H). apply ensure_Ok, bool_decide_eq_true in Hst. apply rbind_Ok in H as (st & Ho & [= <- <-]).
  change (outcome g p = Ok st) in Ho. pose proof (outcome_status _ _ _ Ho) as Hs.
  exists p, (with_status p st). split; [done|done|done| |].
  - split; cbn; [done|unfold moves; rewrite Hst; destruct Hs as [->|[->|[->| ->]]]; done|by right|by left|done].
  - intros Vis Hg0 [? ? ? ? ? He Hl]. split; cbn; try done. unfold lived in *. rewrite Hst in Hl. cbn.
    assert (decided Vis id (with_status p st) st) by (exists g, p; split_and!; done).
    destruct Hs as [->|[->|[->| ->]]]; done.
Qed.
Lemma archon_assented_given g p : NoDup (p_archon_assents p) -> archon_assented g p = true -> assent_given g p.
Proof.
  unfold archon_assented, assent_given. intros Hn H Hpos. rewrite (proj2 (Z.ltb_lt _ _) Hpos) in H.
  apply orb_true_iff in H as [[Hs H]%andb_true_iff|H%Z.leb_le].
  - left. split; [done|]. destruct (head _) as [b|]; [|done]. apply bool_decide_eq_true in H. by exists b.
  - right. eexists. split_and!; [|exact H|]; [by apply NoDup_filter|]. intros b [? ?]%list_elem_of_filter. done.
Qed.
Lemma timelock_touches g id n g' : enter_timelock g id n = Ok g' -> exists p p', touches g g' id p p'.
Proof.
  unfold enter_timelock, get_proposal. intros H. apply rbind_Ok in H as (p & Hp & H). apply ok_or_Ok in Hp.
  apply rbind_Ok in H as (u & Hst & H). apply ensure_Ok, bool_decide_eq_true in Hst.
  apply rbind_Ok in H as (u' & Ha & [= <-]). apply ensure_Ok in Ha.
  eexists _, _. split; [done|done|done| |].
  - split; cbn; [done|unfold moves; by rewrite Hst|by right|by left|done].
  - intros Vis Hg0 [? ? ? ? ? He Hl]. split; cbn; try done. unfold lived in *. rewrite Hst in Hl. cbn.
    destruct Hl as [Ho Hd]. split_and!; [exact Ho|exact Hd| |done].
    exists g, p. split_and!; [done..|by apply archon_assented_given].
Qed.
Lemma execute_kind_rest g k n g' :
  execute_kind hash_body g k n = Ok g' ->
  proposals g' = proposals g /\ (params g', ecclesia_eligible_power g', next_proposal_id g') = (params g, ecclesia_eligible_power g, next_proposal_id g).
Proof. intros H. destruct k; cbn in H; inv_ok; by subst. Qed.
Lemma execute_touches g id n g' :
  execute hash_body g id n = Ok g' ->
  exists p, touches g g' id p (with_status p Executed) /\ p_status p = Timelock /\ (exists e, p_timelock_end_slot p = Some e /\ e <= n) /\
    exists g1, execute_kind hash_body g (p_kind p) n = Ok g1 /\ g' = put_proposal g1 id (with_status p Executed).
Proof.
  unfold execute, get_proposal. intros H. apply rbind_Ok in H as (p & Hp & H). apply ok_or_Ok in Hp.
  apply rbind_Ok in H as (u & Hst & H). apply ensure_Ok, bool_decide_eq_true in Hst.
  apply rbind_Ok in H as (e & He & H). apply ok_or_Ok in He. apply rbind_Ok in H as (u' & Hn & H). apply ensure_Ok, Z.leb_le in Hn.
  apply rbind_Ok in H as (g1 & Hk & H). destruct (execute_kind_rest _ _ _ _ Hk) as [Hps Henv]. rewrite Hps, Hp in H. cbn in H.
  injection H as <-. exists p. split_and!; [|done|by exists e|by exists g1]. split; [done|cbn; by rewrite Hps|done| |].
  - split; cbn; [done|unfold moves; by rewrite Hst|by right|by left|done].
  - intros Vis Hg0 [? ? ? ? ? ? Hl]. split; cbn; try done. unfold lived in *. by rewrite Hst in Hl.
Qed.

Lemma gov_act_cases g a g' :
  gov_act g a = Ok g' ->
  (exists au t s k n, a = ASubmit au t s k n) \/ (exists e, g' = set_eligible g e) \/ (exists id p p', touches g g' id p p').
Proof.
  destruct a; cbn [gov_act]; intros H; [left; by do 5 eexists|right; right; eexists..|right; left; injection H as <-; by eexists].
  - by eapply add_deposit_touches.
  - by eapply sponsor_touches.
  - by eapply assent_touches.
  - by eapply open_touches.
  - by eapply vote_touches.
  - apply rbind_Ok in H as ([g1 st] & H & [= <-]). by eapply tally_touches.
  - by eapply timelock_touches.
  - apply execute_touches in H as (p & H & _). by do 2 eexists.
Qed.
Lemma submit_Ok g au t s k n g' id :
  submit_proposal g au t s k n = Ok (g', id) ->
  id = next_proposal_id g /\ next_proposal_id g' = id + 1 /\ params g' = params g /\
  ecclesia_eligible_power g' = ecclesia_eligible_power g /\ offices g' = offices g /\ constitution g' = constitution g /\
  exists p, proposals g' = <[id := p]> (proposals g) /\ p_id p = id /\ p_status p = Deposit /\ p_ballots p = [] /\ p_tally p = empty_tally /\
    p_sponsors p = [] /\ p_archon_assents p = [].
Proof. unfold submit_proposal. intros H. inv_ok. subst. split_and!; [done..|]. eexists. split_and!; done. Qed.

(** *** The invariant of every run *)

Definition all_sound (H : GovernanceState -> Prop) (g : GovernanceState) : Prop :=
  forall id p, proposals g !! id = Some p -> sound H g id p.
Lemma gov_act_sound H g a g' : gov_act g a = Ok g' -> H g -> all_sound H g -> all_sound H g'.
Proof.
  intros E Hg Hs id q Hq. destruct (gov_act_cases _ _ _ E) as [(au & t & s & k & n & ->)|[(e & ->)|(i & p & p' & T)]].
  - cbn in E. apply rbind_Ok in E as ([g1 j] & E & [= <-]).
    apply submit_Ok in E as (-> & Hn & Hp & He & _ & _ & p & Hps & Hid & Hst & Hb & Ht & Hsp & Has). cbn in *. rewrite Hps in Hq.
    apply lookup_insert_Some in Hq as [[<- <-]|[Hne Hq]].
    + split; [done|lia|by rewrite Ht, Hb|by rewrite Hb; apply NoDup_nil_2|by rewrite Has; apply NoDup_nil_2| |unfold lived; by rewrite Hst].
      unfold entitled. rewrite Hsp, Has, Hb. split_and!; intros ? []%elem_of_nil.
    + eapply sound_later; [done| |by apply Hs]. lia.
  - by apply (sound_later H g), Hs.
  - destruct T as [Hp Hps Henv _ Hsnd]. injection Henv as Hpa _ Hid. apply (sound_later H g); [done|by rewrite Hid|]. rewrite Hps in Hq.
    apply lookup_insert_Some in Hq as [[<- <-]|[Hne Hq]]; auto.
Qed.
(** The states a run goes through. *)
Definition visited (g0 : GovernanceState) (l : list GovAct) (g : GovernanceState) : Prop :=
  exists l1 l2, l = l1 ++ l2 /\ g = gov_run g0 l1.
Lemma visited_snoc g0 l a g : visited g0 l g -> visited g0 (l ++ [a]) g.
Proof. intros (l1 & l2 & -> & ->). exists l1, (l2 ++ [a]). by rewrite (assoc_L (++)). Qed.
Lemma visited_last g0 l : visited g0 l (gov_run g0 l).
Proof. exists l, []. by rewrite app_nil_r. Qed.
Lemma gov_run_snoc g l a : gov_run g (l ++ [a]) = gov_try (gov_run g l) a.
Proof. unfold gov_run. by rewrite foldl_app. Qed.
Lemma gov_run_sound g l : proposals g = ∅ -> all_sound (visited g l) (gov_run g l).
Proof.
  intros Hp. induction l as [|a l IH] using rev_ind; intros id p H.
  - cbn in H. by rewrite Hp, lookup_empty in H.
  - assert (IH' : all_sound (visited g (l ++ [a])) (gov_run g l)).
    { intros i q Hq. eapply sound_more; [|by apply IH]. intros x. apply visited_snoc. }
    rewrite gov_run_snoc in *. unfold gov_try in *. destruct (gov_act (gov_run g l) a) eqn:E; [|by apply IH'].
    eapply (gov_act_sound (visited g (l ++ [a]))); [exact E|apply visited_snoc, visited_last|exact IH'|exact H].
Qed.

(** C37: In every state the civic engine reaches from genesis, by any sequence
    of calls of which rejected ones change nothing and between which the node
    resets the eligible power at will: a proposal is filed under its id, its
    tally is exactly the weights of its ballots by choice, nobody voted twice,
    each ballot had the weight the engine gives, at a visited state, to the
    voter's office or to the balance and supply its call states (the engine
    trusts its caller for them), each sponsor and each assenting archon held the office then, and its
    status is the one its history earned.  Past the deposit stage the minimum
    deposit and a needed treasurer's sponsorship are there; a decided status is
    the outcome, at the visited state where the vote was counted, of those very
    ballots under the quorum, veto and majority rules of its chamber; a proposal
    in timelock or executed was passed, and at the visited state where it
    entered its timelock an amendment had the assent of the sitting Basileus or
    of two different sitting archons. *)
Theorem governance_sound (v1_id v1_body : list Z) (eligible : Z) (l : list GovAct) (id : Z) (p : Proposal) :
  let g0 := genesis hash_body v1_id v1_body eligible in
  proposals (gov_run g0 l) !! id = Some p -> sound (visited g0 l) (gov_run g0 l) id p.
Proof. intros g0 H. by apply (gov_run_sound g0 l). Qed.

(** *** The life of a proposal *)

Definition edge (s s' : ProposalStatus) : Prop := moves s s' = true.
(** What remains of a proposal [p] in a later [p']. *)
Record later (p p' : Proposal) : Prop := {
  l_fixed : (p_id p', p_title p', p_summary p', p_kind p', p_author p', p_created_slot p') = (p_id p, p_title p, p_summary p, p_kind p, p_author p, p_created_slot p);
  l_status : rtc edge (p_status p) (p_status p');
  l_ballots : p_ballots p `prefix_of` p_ballots p';
  l_closed : p_status p <> Deposit -> p_deposit p' = p_deposit p;
  l_counted : p_status p <> Deposit -> p_status p <> Voting -> (p_ballots p', p_tally p') = (p_ballots p, p_tally p);
}.
Lemma grows_later p p' : grows p p' -> later p p'.
Proof.
  intros [Hf Hm Hd Hb _]. split; [done|by apply rtc_once| |by destruct Hd|].
  - destruct Hb as [[= -> _]|(_ & _ & b & -> & _)]; [done|by apply prefix_app_r].
  - intros Hn Hv. by destruct Hb as [Hb|(? & _)].
Qed.
Lemma edge_past s s' : edge s s' -> s <> Deposit -> s' <> Deposit /\ (s <> Voting -> s' <> Voting).
Proof. by destruct s, s'. Qed.
Lemma rtc_edge_past s s' : rtc edge s s' -> s <> Deposit -> s' <> Deposit /\ (s <> Voting -> s' <> Voting).
Proof. induction 1 as [|s s1 s2 H _ IH]; [done|]. intros Hd. destruct (edge_past _ _ H Hd). naive_solver. Qed.
#[export] Instance later_preorder : PreOrder later.
Proof.
  split.
  - intros p. by split.
  - intros p q r [F1 S1 B1 C1 D1] [F2 S2 B2 C2 D2]. split; [congruence|by etrans|by etrans| |].
    + intros Hd. destruct (rtc_edge_past _ _ S1 Hd). rewrite C2 by done. auto.
    + intros Hd Hv. destruct (rtc_edge_past _ _ S1 Hd) as [? Hx]. rewrite D2; auto.
Qed.
Lemma gov_act_later H g a g' id p :
  all_sound H g -> gov_act g a = Ok g' -> proposals g !! id = Some p -> exists p', proposals g' !! id = Some p' /\ later p p'.
Proof.
  intros Hs E Hp. destruct (gov_act_cases _ _ _ E) as [(au & t & s & k & n & ->)|[(e & ->)|(i & q & q' & T)]].
  - cbn in E. apply rbind_Ok in E as ([g1 j] & E & [= <-]). apply submit_Ok in E as (-> & _ & _ & _ & _ & _ & q & Hps & _).
    cbn. exists p. split; [|done]. rewrite Hps, lookup_insert_ne; [done|]. pose proof (s_known _ _ _ _ (Hs _ _ Hp)). lia.
  - by exists p.
  - destruct T as [Hq Hps _ Hg _]. rewrite Hps. destruct (decide (i = id)) as [->|Hne].
    + rewrite Hp in Hq. injection Hq as <-. exists q'. rewrite lookup_insert_eq. split; [done|by apply grows_later].
    + exists p. by rewrite lookup_insert_ne.
Qed.
Lemma gov_run_later g l l' id p :
  proposals g = ∅ -> proposals (gov_run g l) !! id = Some p -> exists p', proposals (gov_run g (l ++ l')) !! id = Some p' /\ later p p'.
Proof.
  intros Hg Hp. induction l' as [|a l' (q & Hq & Hl)] using rev_ind; [rewrite app_nil_r; by exists p|].
  rewrite (assoc_L (++)), gov_run_snoc. unfold gov_try. destruct (gov_act (gov_run g (l ++ l')) a) as [g'|] eqn:E; [|by exists q].
  destruct (gov_act_later _ _ _ _ _ _ (gov_run_sound g (l ++ l') Hg) E Hq) as (r & Hr & Hl'). exists r. split; [done|by etrans].
Qed.
Definition terminal (s : ProposalStatus) : Prop := s = Rejected \/ s = FailedQuorum \/ s = Vetoed \/ s = Executed.
Lemma terminal_final s s' : terminal s -> rtc edge s s' -> s' = s.
Proof. intros Ht. induction 1 as [|s s1 s2 H _ IH]; [done|]. destruct Ht as [->|[->|[->| ->]]], s1; (done || apply IH; unfold terminal; auto). Qed.

(** Whatever calls follow, a proposal is never lost or replaced: its
    subject stays, its status only moves along Deposit, Voting, one of the four
    outcomes, Timelock, Executed; ballots are never withdrawn; once voting has
    closed the ballots and the count are frozen, and a rejected, vetoed,
    quorumless or executed proposal keeps its status for good. *)
Theorem proposal_life (v1_id v1_body : list Z) (eligible : Z) (l l' : list GovAct) (id : Z) (p : Proposal) :
  proposals (gov_run (genesis hash_body v1_id v1_body eligible) l) !! id = Some p ->
  exists p', proposals (gov_run (genesis hash_body v1_id v1_body eligible) (l ++ l')) !! id = Some p' /\ later p p' /\
    (terminal (p_status p) -> p_status p' = p_status p).
Proof.
  intros H. destruct (gov_run_later (genesis hash_body v1_id v1_body eligible) l l' id p eq_refl H) as (p' & Hp' & Hl).
  exists p'. split_and!; [done|done|]. intros Ht. by apply terminal_final; [|apply l_status].
Qed.

(** ** Who changes offices and the constitution *)


End runs.

(** ** Runs at concrete inputs *)

Definition demo_genesis : GovernanceState := genesis (fun b => zsum b) [118; 49] [1; 2] 1000.
(** An election: proposed, funded, put to the vote and passed at once. *)
Definition demo_acts : list GovAct :=
  [ASubmit 1 [69] [83] (RankElection ArchonBasileus 0 9) 0; ADeposit 1 1000000; AOpen 1 0;
   AVote 1 7 Yes 250000 10000000; AVote 1 7 Yes 250000 10000000; AVote 1 8 No 900 10000000; ASupply 1200; ATally 1;
   ASupply 10000000; ATimelock 1 0].
Definition demo_before : GovernanceState := gov_run (fun b => zsum b) demo_genesis demo_acts.
Definition demo_after : GovernanceState := gov_run (fun b => zsum b) demo_genesis (demo_acts ++ [AExecute 1 1000]).
Definition demo_proposal (s : ProposalStatus) : Proposal :=
  {| p_id := 1; p_title := [69]; p_summary := [83]; p_kind := RankElection ArchonBasileus 0 9; p_status := s; p_author := 1;
     p_deposit := 1000000; p_sponsors := []; p_created_slot := 0; p_voting_start_slot := Some 0; p_voting_end_slot := Some 10000;
     p_timelock_end_slot := Some 1000; p_tally := {| yes := 500; no := 30; abstain := 0; no_with_veto := 0 |};
     p_ballots := [{| bl_voter := 7; bl_choice := Yes; bl_weight := 500 |}; {| bl_voter := 8; bl_choice := No; bl_weight := 30 |}];
     p_archon_assents := [] |}.

Lemma governance_sound_witness :
  proposals demo_before !! 1 = Some (demo_proposal Timelock) /\
  sound (visited (fun b => zsum b) demo_genesis demo_acts) demo_before 1 (demo_proposal Timelock).
Proof.
  split; [vm_compute; reflexivity|].
  apply (governance_sound (fun b => zsum b) [118; 49] [1; 2] 1000 demo_acts 1 (demo_proposal Timelock)). vm_compute. reflexivity.
Defined.
Lemma proposal_life_witness :
  proposals demo_before !! 1 = Some (demo_proposal Timelock) /\
  exists p', proposals demo_after !! 1 = Some p' /\ later (demo_proposal Timelock) p' /\ (terminal Timelock -> p_status p' = Timelock).
Proof.
  split; [vm_compute; reflexivity|].
  apply (proposal_life (fun b => zsum b) [118; 49] [1; 2] 1000 demo_acts [AExecute 1 1000] 1 (demo_proposal Timelock)). vm_compute. reflexivity.
Defined.

(** The voting period binds nobody: a proposal opened at slot 0 for 10000
    slots is counted in the same slot, and executed at slot 1000, with nine tenths of its voting period to come. *)
Theorem voting_period_ignored :
  exists p, proposals demo_after !! 1 = Some p /\ p_status p = Executed /\ p_voting_end_slot p = Some 10000 /\
    seat (offices demo_after) ArchonBasileus 0 =
      Ok {| os_rank := ArchonBasileus; os_index := 0; holder := Some 9; elected_slot := Some 1000; term_end_slot := Some 1001000 |}.
Proof. exists (demo_proposal Executed). split; [vm_compute; reflexivity|]. split; [done|]. split; [done|]. vm_compute. reflexivity. Qed.

(** A term of office never ends by itself: as long as a seat has a holder,
    an election to it cannot be executed in any slot, however far past the end of the term. *)
Theorem term_never_ends (hash_body : list Z -> Hash) (g : GovernanceState) (r : CivicRank) (i candidate now : Z) (s : OfficeSeat) :
  seat (offices g) r i = Ok s -> holder s <> None ->
  execute_kind hash_body g (RankElection r i candidate) now = Err SeatOccupied.
Proof.
  intros H Hh. cbn. unfold seat_holder, seat in *. apply ok_or_Ok in H.
  assert (Hm : forall f, f s = Err SeatOccupied -> seat_mut (offices g) r i f = Err SeatOccupied);
    [|rewrite Hm; [done|]; by rewrite bool_decide_eq_false_2].
  intros f Hf. induction (offices g) as [|x b IH]; cbn in *; [done|].
  destruct (is_seat r i x); [injection H as ->; by rewrite Hf|]. by rewrite IH.
Qed.
Lemma term_never_ends_witness :
  execute_kind (fun b => zsum b) demo_after (RankElection ArchonBasileus 0 3) 5000000 = Err SeatOccupied.
Proof.
  apply (term_never_ends (fun b => zsum b) demo_after ArchonBasileus 0 3 5000000
    {| os_rank := ArchonBasileus; os_index := 0; holder := Some 9; elected_slot := Some 1000; term_end_slot := Some 1001000 |});
    [vm_compute; reflexivity|done].
Defined.

(** One officer decides for a chamber: in the Boule or the collegium of
    archons a single Yes passes a proposal, whatever the number of seats. *)
Theorem one_vote_majority (g : GovernanceState) (p : Proposal) (v : Address) :
  primary_chamber (p_kind p) <> Ecclesia -> 0 <= boule_pass_bps (params g) <= 10000 -> 0 <= archon_pass_bps (params g) <= 10000 ->
  p_tally p = counted [{| bl_voter := v; bl_choice := Yes; bl_weight := 1 |}] -> outcome g p = Ok Passed.
Proof.
  intros Hc Hb Ha Ht. unfold outcome, simple_majority. rewrite Ht. set (t := counted _).
  replace (total_voted t) with (@Ok GovernanceError Z 1) by (vm_compute; reflexivity).
  replace (yes_ratio_bps t) with 10000 by (vm_compute; reflexivity). cbn [rbind Z.eqb].
  destruct (primary_chamber (p_kind p)); [done|rewrite (proj2 (Z.leb_le _ _)) by apply Hb|rewrite (proj2 (Z.leb_le _ _)) by apply Ha]; done.
Qed.
Lemma one_vote_majority_witness :
  let p := {| p_id := 1; p_title := []; p_summary := []; p_kind := EmergencyAction [72]; p_status := Voting; p_author := 1; p_deposit := 1000000;
    p_sponsors := []; p_created_slot := 0; p_voting_start_slot := Some 0; p_voting_end_slot := Some 10000; p_timelock_end_slot := None;
    p_tally := {| yes := 1; no := 0; abstain := 0; no_with_veto := 0 |};
    p_ballots := [{| bl_voter := 5; bl_choice := Yes; bl_weight := 1 |}]; p_archon_assents := [] |} in
  outcome demo_genesis p = Ok Passed.
Proof. intros p. apply (one_vote_majority demo_genesis p 5); [done|split; done|split; done|vm_compute; reflexivity]. Defined.
