(* ===== verification/Admit.v ===== *)
(** * Block admission ([node-bin/src/admit/mod.rs])

    What a node does with a block from the network or its own miner: the checks
    that need no ledger, colouring, the proof on an overlay that the blues of
    the block apply, the finality guard, the durable write, the reorg of the
    ledger, the difficulty cache and pruning.  Also the template a miner works
    on and the answers given to peers.

    The ledger is the interface of [Reorg].  Ids, roots, encoded lengths and proof
    of work digests are parameters.  The four kinds of body storage are one map
    of bodies with the sets of keys in the hot and the archival column family: both
    hold the same bytes under a key.  The legacy copy in the warm column
    family, and the write that completes a missing header from a body, are left out, as
    are the covenant and commitment indexes, which only the explorer reads. *)

From stdpp Require Import base gmap list fin_maps strings.
From Stdlib Require Import ZArith Lia.
From S2P Require Import Prelude Ordering Sums Types Dag Ghostdag Daa Finality Store Utxo TltScript FinalityAdmit Reorg.
Local Open Scope Z_scope.

(** ** Limits, blocks and the node's state *)

Record ConsensusLimits := {
  max_block_parents : Z;
  max_block_transactions : Z;
  max_tx_inputs : Z;
  max_tx_outputs : Z;
  max_tx_bytes : Z;
  max_data_commitments : Z;
  max_block_bytes : Z;
  max_timestamp_ahead_ms : Z;
  coinbase_maturity : Z;
  max_parent_blue_score_lag : Z;
}.
Definition default_limits : ConsensusLimits :=
  {| max_block_parents := 16; max_block_transactions := 129; max_tx_inputs := 64; max_tx_outputs := 64; max_tx_bytes := 100000;
     max_data_commitments := 64; max_block_bytes := 1000000; max_timestamp_ahead_ms := 60000; coinbase_maturity := 100;
     max_parent_blue_score_lag := 4096 |}.
Record StoragePolicy := { archival : bool; hot_window : Z }.
Definition default_storage : StoragePolicy := {| archival := true; hot_window := 4096 |}.
Inductive PowAlgorithm := RandomX | KHeavyHash.
Definition RANDOMX_EPOCH_BLOCKS : Z := 2048.
Definition epoch_from_blue_score (anchor : Z) : Z := anchor / RANDOMX_EPOCH_BLOCKS.

(** The prefixes of the location records: [tx/], [txc/], [txda/]. *)
Definition TX_LANE : string := "tx".
Definition TXC_LANE : string := "txc".
Definition TXDA_LANE : string := "txda".

Record BlockHeader := {
  h_version : Z;
  h_parents : list Hash;
  h_timestamp_ms : Z;
  h_bits : Z;
  h_nonce : Z;
  h_tx_root : Hash;
}.

Section admission.
(** A data-availability authorization, and the lanes only the ledger reads. *)
Context {Da Lanes L J : Type}.
Record Block := {
  header : BlockHeader;
  transactions : list Transaction;
  tlt_covenants : list TltCovenantTx;
  data_commitments : list Da;
  lanes : Lanes;
}.
Context `{!Ledger L Block J}.

(** What the chain is configured with ([ChainBootConfig] and [ChainState]). *)
Record ChainConfig := {
  genesis : Hash;
  pow : PowAlgorithm;
  emission : EmissionSchedule;
  daa : DaaConfig;
  storage : StoragePolicy;
  limits : ConsensusLimits;
  auth_chain_id : option string;
  policy_hash : Hash;
  finality_policy : FinalityPowPolicy;
}.
Record Chain := {
  node : @NodeStore L Block J;
  hot : gset Hash;
  archived : gset Hash;
  headers : gmap Hash BlockHeader;
  stored_tips : list Hash;
  ghostdag_records : gmap Hash GhostdagSnapshot;
  tx_inclusions : gmap (string * Hash * Hash) Z;   (* (lane, item, block): index in the block *)
  tx_primary : gmap (string * Hash) (Hash * Z);    (* (lane, item): the block and index shown for it *)
  finality_records : StateStore;          (* its finality part *)
  dag : Dag;
  ghostdag : Ghostdag;
  difficulty : Difficulty;
  stored_difficulty : option Z;
}.
Variable cfg : ChainConfig.

Definition set_graph (ch : Chain) (d : Dag) (g : Ghostdag) : Chain :=
  {| node := node ch; hot := hot ch; archived := archived ch; headers := headers ch; stored_tips := stored_tips ch;
     ghostdag_records := ghostdag_records ch; tx_inclusions := tx_inclusions ch; tx_primary := tx_primary ch;
     finality_records := finality_records ch; dag := d; ghostdag := g; difficulty := difficulty ch;
     stored_difficulty := stored_difficulty ch |}.
Definition set_node (ch : Chain) (ns : NodeStore) (primary : gmap (string * Hash) (Hash * Z)) : Chain :=
  {| node := ns; hot := hot ch; archived := archived ch; headers := headers ch; stored_tips := stored_tips ch;
     ghostdag_records := ghostdag_records ch; tx_inclusions := tx_inclusions ch; tx_primary := primary;
     finality_records := finality_records ch; dag := dag ch; ghostdag := ghostdag ch; difficulty := difficulty ch;
     stored_difficulty := stored_difficulty ch |}.
Definition set_finality (ch : Chain) (f : StateStore) : Chain :=
  {| node := node ch; hot := hot ch; archived := archived ch; headers := headers ch; stored_tips := stored_tips ch;
     ghostdag_records := ghostdag_records ch; tx_inclusions := tx_inclusions ch; tx_primary := tx_primary ch;
     finality_records := f; dag := dag ch; ghostdag := ghostdag ch; difficulty := difficulty ch;
     stored_difficulty := stored_difficulty ch |}.
Definition set_difficulty (ch : Chain) (x : Difficulty) : Chain :=
  {| node := node ch; hot := hot ch; archived := archived ch; headers := headers ch; stored_tips := stored_tips ch;
     ghostdag_records := ghostdag_records ch; tx_inclusions := tx_inclusions ch; tx_primary := tx_primary ch;
     finality_records := finality_records ch; dag := dag ch; ghostdag := ghostdag ch; difficulty := x;
     stored_difficulty := Some (level x) |}.

(** ** Lookups *)

Definition load_block (ch : Chain) (h : Hash) : option Block := bodies (core (node ch)) !! h.
Definition load_header (ch : Chain) (h : Hash) : option BlockHeader :=
  match headers ch !! h with Some hd => Some hd | None => header <$> load_block ch h end.
Definition has_block (ch : Chain) (h : Hash) : bool := bool_decide (is_Some (load_block ch h)) || contains (dag ch) h.
Definition has_header (ch : Chain) (h : Hash) : bool := bool_decide (is_Some (load_header ch h)) || contains (dag ch) h.
Definition current_tip (ch : Chain) : Hash := default (genesis cfg) (virtual_tip (node ch)).
Definition virtual_blue_score (ch : Chain) : result AdmitError Z :=
  ok_or (AdmitUncolored (current_tip ch)) (get_blue_score (ghostdag ch) (current_tip ch)).
Definition load_tips (ch : Chain) : list Hash := if bool_decide (stored_tips ch = []) then tips (dag ch) else stored_tips ch.
Definition missing_parents_of (ch : Chain) (b : Block) : list Hash :=
  filter (fun p => contains (dag ch) p = false) (h_parents (header b)).
Definition confirmations (ch : Chain) (h : Hash) : option Z :=
  let tip := current_tip ch in
  if negb (is_blue_in_view (ghostdag ch) tip h) then None
  else if negb (h =? genesis cfg) && negb (bool_decide (is_Some (journals (core (node ch)) !! h))) then None
  else
    score ← get_blue_score (ghostdag ch) h;
    let tip_score := default score (get_blue_score (ghostdag ch) tip) in
    Some (saturating_add u64_max (saturating_sub tip_score score) 1).

(** The walk along selected parents: at most [want] picks, newest first.  The
    fuel bounds the length of the walk; the selected parents are finitely many. *)
Fixpoint spine {A} (fuel : nat) (ch : Chain) (pick : Hash -> option A) (want : nat) (cursor : option Hash) : list A :=
  match fuel, want, cursor with
  | S fuel, S want', Some h =>
      match pick h with
      | Some a => a :: spine fuel ch pick want' (get_selected_parent (ghostdag ch) h)
      | None => spine fuel ch pick want (get_selected_parent (ghostdag ch) h)
      end
  | _, _, _ => []
  end.
Definition spine_fuel (ch : Chain) : nat := S (length (order (dag ch))).
Definition spine_timestamps (ch : Chain) (sp : Hash) : list Z :=
  spine (spine_fuel ch) ch (fun h => h_timestamp_ms <$> load_header ch h) 11 (Some sp).
Definition daa_window (ch : Chain) (tip : Hash) : list DaaSample :=
  reverse (spine (spine_fuel ch) ch (fun h =>
    hd ← load_header ch h;
    let block_work := work_from_bits (h_bits hd) in
    Some {| timestamp_ms := h_timestamp_ms hd; s_blue_work := default block_work (get_blue_work (ghostdag ch) h);
            s_block_work := block_work |}) (Z.to_nat (window_size (daa cfg) + 1)) (Some tip)).
Definition expected_bits_for_parents (ch : Chain) (ps : list Hash) : Z :=
  match select_parent_among (ghostdag ch) ps with
  | None => min_level (daa cfg)
  | Some sp =>
      let parent_bits := match load_header ch sp with Some hd => h_bits hd | None => min_level (daa cfg) end in
      level (next_difficulty_weighted (daa cfg) {| level := parent_bits |} (daa_window ch sp))
  end.

(** ** Blue scores of a candidate *)

(** [Hash::hash_borsh] of the preview tag, the parents and the bits. *)
Variable preview_hash : list Hash -> Z -> Hash.
Definition estimate_blue_score (ch : Chain) (ps : list Hash) : Z :=
  match ps with
  | [] => 1
  | _ => saturating_add u64_max (foldr Z.max 0 (omap (get_blue_score (ghostdag ch)) ps)) 1
  end.
Definition simulate_blue_score (ch : Chain) (ps : list Hash) (bits : Z) : result AdmitError Z :=
  match ps with
  | [] => Ok 1
  | _ =>
      rfold (fun _ p => ensure (contains (dag ch) p) (AdmitMissingParent p)) tt ps ;?
      let placeholder := preview_hash ps bits in
      match dag_insert (dag ch) placeholder ps with
      | Err e => Err (Consensus e)
      | Ok d =>
          match (add_block_with_work d (ghostdag ch) placeholder (work_from_bits bits)).2 with
          | Err e => Err (Consensus e)
          | Ok data => Ok (gd_blue_score data)
          end
      end
  end.
(** [simulate(..).unwrap_or_else(estimate)]. *)
Definition candidate_score (ch : Chain) (ps : list Hash) (bits : Z) : Z :=
  match simulate_blue_score ch ps bits with Ok s => s | Err _ => estimate_blue_score ch ps end.
Definition randomx_epoch_for_parents (ch : Chain) (ps : list Hash) : Z :=
  epoch_from_blue_score (candidate_score ch ps (expected_bits_for_parents ch ps)).

(** ** The checks before colouring *)

Variable block_id : BlockHeader -> Hash.
Variable compute_body_root : Block -> Hash.
Variable block_len : Block -> Z.
Variable tx_len : Transaction -> Z.
Variable covenant_len : TltCovenantTx -> Z.
Variable randomx_zero_bits : BlockHeader -> Z -> Z.
Variable kheavy_zero_bits : BlockHeader -> Z.
(** The first four bytes of the hash of the sorted parents. *)
Variable parent_tag : list Hash -> Z.
Variable tx_id : Transaction -> Hash.
Variable covenant_tx_id : TltCovenantTx -> Hash.
Variable authorization_id : Da -> Hash.
Variable journal_created : J -> list OutPoint.

Fixpoint check_parent_list (d : Dag) (seen : gset Hash) (ps : list Hash) : result AdmitError unit :=
  match ps with
  | [] => Ok tt
  | p :: ps' =>
      ensure (negb (bool_decide (p ∈ seen))) (AdmitDuplicateParent p) ;?
      ensure (contains d p) (AdmitMissingParent p) ;?
      check_parent_list d ({[p]} ∪ seen) ps'
  end.
Definition check_block_parents (ch : Chain) (b : Block) : result AdmitError unit :=
  let ps := h_parents (header b) in
  ensure (negb (bool_decide (ps = []))) AdmitTooFewParents ;?
  ensure (Z.of_nat (length ps) <=? max_block_parents (limits cfg)) (AdmitTooManyParents (Z.of_nat (length ps)) (max_block_parents (limits cfg))) ;?
  check_parent_list (dag ch) ∅ ps.

Definition check_tx_size (index : nat) (ins outs bytes : Z) : result AdmitError unit :=
  ensure (ins <=? max_tx_inputs (limits cfg)) (AdmitTooManyTxInputs index ins (max_tx_inputs (limits cfg))) ;?
  ensure (outs <=? max_tx_outputs (limits cfg)) (AdmitTooManyTxOutputs index outs (max_tx_outputs (limits cfg))) ;?
  ensure (bytes <=? max_tx_bytes (limits cfg)) (AdmitTxTooLarge index bytes (max_tx_bytes (limits cfg))).
Definition check_size_limits (b : Block) : result AdmitError unit :=
  let tx_count := Z.of_nat (length (transactions b)) + Z.of_nat (length (tlt_covenants b)) in
  ensure (tx_count <=? max_block_transactions (limits cfg)) (AdmitTooManyTransactions tx_count (max_block_transactions (limits cfg))) ;?
  let das := Z.of_nat (length (data_commitments b)) in
  ensure (das <=? max_data_commitments (limits cfg)) (AdmitTooManyDataCommitments das (max_data_commitments (limits cfg))) ;?
  ensure (block_len b <=? max_block_bytes (limits cfg)) (AdmitBlockTooLarge (block_len b) (max_block_bytes (limits cfg))) ;?
  rfold (fun _ e => check_tx_size e.1 (Z.of_nat (length (inputs e.2))) (Z.of_nat (length (outputs e.2))) (tx_len e.2)) tt
    (imap pair (transactions b)) ;?
  rfold (fun _ e => check_tx_size e.1 (Z.of_nat (length (ct_inputs e.2))) (Z.of_nat (length (ct_outputs e.2))) (covenant_len e.2)) tt
    (imap pair (tlt_covenants b)).

Definition parent_times (ch : Chain) (ps : list Hash) : list Z := omap (fun p => h_timestamp_ms <$> load_header ch p) ps.
Definition check_timestamps (now_ms : Z) (ch : Chain) (b : Block) : result AdmitError unit :=
  let ts := h_timestamp_ms (header b) in
  let parent_max := foldl Z.max 0 (parent_times ch (h_parents (header b))) in
  ensure (negb (ts <=? parent_max)) (AdmitTimestampBeforeParent ts parent_max) ;?
  match select_parent_among (ghostdag ch) (h_parents (header b)) with
  | None => Ok tt
  | Some sp =>
      let mtp := median_time_past (spine_timestamps ch sp) in
      ensure (negb (ts <=? mtp)) (AdmitTimestampBeforeParent ts mtp)
  end ;?
  let max_ts := saturating_add u64_max now_ms (max_timestamp_ahead_ms (limits cfg)) in
  ensure (negb (max_ts <? ts)) (AdmitTimestampTooFarAhead ts max_ts).

Definition coinbase_commitment_low (ps : list Hash) (timestamp_ms : Z) : Z :=
  Z.lxor (parent_tag (sort_by Z.compare ps)) (as_u32 timestamp_ms).
Definition coinbase_commitment_nonce (ps : list Hash) (timestamp_ms extranonce : Z) : Z :=
  Z.lor (Z.shiftl extranonce 32) (coinbase_commitment_low ps timestamp_ms).
Definition check_coinbase_commitment (b : Block) : result AdmitError unit :=
  match filter (fun tx => inputs tx = []) (transactions b) with
  | [cb] =>
      ensure (as_u32 (tx_nonce cb) =? coinbase_commitment_low (h_parents (header b)) (h_timestamp_ms (header b)))
        (AdmitCoinbase "coinbase nonce low bits must commit to parents+timestamp")
  | _ => Err (AdmitCoinbase "expected exactly one coinbase")
  end.

(** Maturity: the block whose applied journal created an outpoint as coinbase. *)
Definition list_inclusions (lane : string) (ch : Chain) (id : Hash) : list (Hash * Z) :=
  sort_by (fun a b => a.1 ?= b.1)
    (omap (fun e => if bool_decide (e.1.1 = (lane, id)) then Some (e.1.2, e.2) else None) (map_to_list (tx_inclusions ch))).
Definition list_tx_inclusions : Chain -> Hash -> list (Hash * Z) := list_inclusions TX_LANE.
Definition list_covenant_tx_inclusions : Chain -> Hash -> list (Hash * Z) := list_inclusions TXC_LANE.
Definition list_data_commitment_inclusions : Chain -> Hash -> list (Hash * Z) := list_inclusions TXDA_LANE.
Definition lookup_tx_location (ch : Chain) (id : Hash) : option (Hash * Z) := tx_primary ch !! (TX_LANE, id).
Definition coinbase_at (ch : Chain) (loc : Hash * Z) : bool :=
  match load_block ch loc.1 ≫= fun b => transactions b !! Z.to_nat loc.2 with
  | Some tx => bool_decide (inputs tx = [])
  | None => false
  end.
Definition created_at (ch : Chain) (op : OutPoint) (loc : Hash * Z) : bool :=
  coinbase_at ch loc &&
  match journals (core (node ch)) !! loc.1 with Some j => bool_decide (op ∈ journal_created j) | None => false end.
Definition coinbase_creator_of (ch : Chain) (op : OutPoint) : option Hash :=
  match List.find (created_at ch op) (list_tx_inclusions ch (op_tx op)) with
  | Some loc => Some loc.1
  | None =>
      loc ← lookup_tx_location ch (op_tx op);
      if coinbase_at ch loc then Some loc.1 else None
  end.
Definition reject_immature_coinbase (ch : Chain) (next_score : Z) (op : OutPoint) : result AdmitError unit :=
  match coinbase_creator_of ch op with
  | None => Ok tt
  | Some h =>
      if h =? genesis cfg then Ok tt else
      let created_score := default 0 (get_blue_score (ghostdag ch) h) in
      let required := saturating_add u64_max created_score (coinbase_maturity (limits cfg)) in
      ensure (negb (next_score <? required)) (AdmitImmatureCoinbase op required next_score)
  end.
Definition check_coinbase_maturity (ch : Chain) (b : Block) : result AdmitError unit :=
  let ps := h_parents (header b) in
  let next_score := candidate_score ch ps (expected_bits_for_parents ch ps) in
  rfold (fun _ tx => rfold (fun _ i => reject_immature_coinbase ch next_score (previous_outpoint i)) tt (inputs tx)) tt (transactions b) ;?
  rfold (fun _ tx => rfold (fun _ i => reject_immature_coinbase ch next_score (ci_previous_outpoint i)) tt (ct_inputs tx)) tt (tlt_covenants b).

Definition verify_pow (ch : Chain) (b : Block) : result AdmitError unit :=
  let zeros := match pow cfg with
               | RandomX => randomx_zero_bits (header b) (randomx_epoch_for_parents ch (h_parents (header b)))
               | KHeavyHash => kheavy_zero_bits (header b)
               end in
  ensure (negb (zeros <? h_bits (header b))) AdmitInvalidPow.
(** The first half of [admit_block]. *)
Definition admission_checks (now_ms : Z) (ch : Chain) (b : Block) : result AdmitError unit :=
  let id := block_id (header b) in
  ensure (negb (contains (dag ch) id)) (AdmitDuplicate id) ;?
  check_block_parents ch b ;?
  check_size_limits b ;?
  check_timestamps now_ms ch b ;?
  check_coinbase_commitment b ;?
  check_coinbase_maturity ch b ;?
  let expected := expected_bits_for_parents ch (h_parents (header b)) in
  ensure (h_bits (header b) =? expected) (AdmitWrongDifficulty expected (h_bits (header b))) ;?
  ensure (h_tx_root (header b) =? compute_body_root b) AdmitBadTxRoot ;?
  verify_pow ch b.
Definition parent_age_ok_for_relay (ch : Chain) (b : Block) : bool :=
  let tip_score := default 0 (get_blue_score (ghostdag ch) (current_tip ch)) in
  forallb (fun p => negb (max_parent_blue_score_lag (limits cfg) <?
                          saturating_sub tip_score (default 0 (get_blue_score (ghostdag ch) p)))) (h_parents (header b)).

(** ** The overlay proof *)

Record Overlay := { ov_ledger : L; ov_journals : gmap Hash J; ov_issued : Z }.
Definition clone_utxo_overlay (ch : Chain) : Overlay :=
  let c := core (node ch) in {| ov_ledger := ledger c; ov_journals := journals c; ov_issued := issued c |}.
Definition overlay_revert (ov : Overlay) (h : Hash) : Overlay :=
  if h =? genesis cfg then ov else
  match ov_journals ov !! h with
  | None => ov
  | Some j => {| ov_ledger := undo (ov_ledger ov) j; ov_journals := delete h (ov_journals ov);
                 ov_issued := saturating_sub (ov_issued ov) (journal_subsidy j) |}
  end.
Definition overlay_apply (ch : Chain) (b : Block) (id : Hash) (ov : Overlay) (h : Hash) : result AdmitError Overlay :=
  if h =? genesis cfg then Ok ov else
  let? body := if h =? id then Ok b else ok_or (AdmitStorage "missing body for blue") (load_block ch h) in
  let max := max_supply (core (node ch)) in
  let score := default 1 (get_blue_score (ghostdag ch) h) in
  let emission := Z.min (reward_at_blue_score (emission cfg) score) (saturating_sub max (Z.min (ov_issued ov) max)) in
  match exec (ov_ledger ov) body emission score with
  | Err e => Err (AdmitUtxo e)
  | Ok (l, j) =>
      ensure (negb (max <? saturating_add u64_max (ov_issued ov) (journal_subsidy j))) AdmitSupplyCap ;?
      Ok {| ov_ledger := l; ov_journals := <[h := j]> (ov_journals ov);
            ov_issued := saturating_add u64_max (ov_issued ov) (journal_subsidy j) |}
  end.
Definition validate_blue_order_utxo (ch : Chain) (b : Block) (id : Hash) : result AdmitError unit :=
  let? blues := blues_in_order (dag ch) (ghostdag ch) id in
  let? applied := blues_in_order (dag ch) (ghostdag ch) (current_tip ch) in
  let prefix := common_prefix_len applied blues in
  let ov := foldl overlay_revert (clone_utxo_overlay ch) (reverse (drop prefix applied)) in
  let? _ := rfold (overlay_apply ch b id) ov (drop prefix blues) in
  Ok tt.

(** ** The durable write and the reorg *)

Definition index_lane (lane : string) (id : Hash) (ids : list Hash)
  (st : gmap (string * Hash * Hash) Z * gmap (string * Hash) (Hash * Z)) : gmap (string * Hash * Hash) Z * gmap (string * Hash) (Hash * Z) :=
  foldl (fun st e => (<[(lane, e.2, id) := Z.of_nat e.1]> st.1, <[(lane, e.2) := (id, Z.of_nat e.1)]> st.2)) st (imap pair ids).
Definition index_block_transactions (ch : Chain) (b : Block) (id : Hash)
  : gmap (string * Hash * Hash) Z * gmap (string * Hash) (Hash * Z) :=
  index_lane TXDA_LANE id (authorization_id <$> data_commitments b)
    (index_lane TXC_LANE id (covenant_tx_id <$> tlt_covenants b)
      (index_lane TX_LANE id (tx_id <$> transactions b) (tx_inclusions ch, tx_primary ch))).
Definition persist_block_atomic (ch : Chain) (b : Block) (id pending : Hash) : Chain :=
  let c := core (node ch) in
  let '(inclusions, primary) := index_block_transactions ch b id in
  let ts := filter (fun t => t ∉ h_parents (header b)) (load_tips ch) in
  {| node := {| core := {| ledger := ledger c; journals := journals c; issued := issued c; issued_asset := issued_asset c;
                           max_supply := max_supply c; bodies := <[id := b]> (bodies c) |};
                virtual_tip := virtual_tip (node ch); pending_virtual := Some pending |};
     hot := {[id]} ∪ hot ch;
     archived := if archival (storage cfg) then {[id]} ∪ archived ch else archived ch;
     headers := <[id := header b]> (headers ch);
     stored_tips := if bool_decide (id ∈ ts) then ts else ts ++ [id];
     ghostdag_records := match snapshot (ghostdag ch) id with
                         | Some s => <[id := s]> (ghostdag_records ch)
                         | None => ghostdag_records ch
                         end;
     tx_inclusions := inclusions; tx_primary := primary; finality_records := finality_records ch;
     dag := dag ch; ghostdag := ghostdag ch; difficulty := difficulty ch; stored_difficulty := stored_difficulty ch |}.

(** The primary pointers a finished reorg refreshes. *)
Definition repoint_primary (lane : string) (ch : Chain) (blues : list Hash) (m : gmap (string * Hash) (Hash * Z)) (id : Hash)
  : gmap (string * Hash) (Hash * Z) :=
  match List.find (fun loc => bool_decide (loc.1 ∈ blues)) (list_inclusions lane ch id) with
  | Some loc => <[(lane, id) := loc]> m
  | None => m
  end.
Definition repoint_block (ch : Chain) (target : list Hash) (m : gmap (string * Hash) (Hash * Z)) (b : Block) : gmap (string * Hash) (Hash * Z) :=
  let m := foldl (repoint_primary TX_LANE ch target) m (tx_id <$> transactions b) in
  let m := foldl (repoint_primary TXC_LANE ch target) m (covenant_tx_id <$> tlt_covenants b) in
  foldl (repoint_primary TXDA_LANE ch target) m (authorization_id <$> data_commitments b).
Definition point_lane (lane : string) (h : Hash) (ids : list Hash) (m : gmap (string * Hash) (Hash * Z)) : gmap (string * Hash) (Hash * Z) :=
  foldl (fun m e => <[(lane, e.2) := (h, Z.of_nat e.1)]> m) m (imap pair ids).
Definition point_block (h : Hash) (m : gmap (string * Hash) (Hash * Z)) (b : Block) : gmap (string * Hash) (Hash * Z) :=
  point_lane TXDA_LANE h (authorization_id <$> data_commitments b)
    (point_lane TXC_LANE h (covenant_tx_id <$> tlt_covenants b) (point_lane TX_LANE h (tx_id <$> transactions b) m)).
Definition refresh_primary (ch : Chain) (abandoned target_suffix target : list Hash) : gmap (string * Hash) (Hash * Z) :=
  let on f m h := if h =? genesis cfg then m else match load_block ch h with Some b => f m b | None => m end in
  foldl (fun m h => on (point_block h) m h) (foldl (on (repoint_block ch target)) (tx_primary ch) abandoned) target_suffix.
Definition reorg_chain (ch : Chain) (old new : Hash) : Chain * result AdmitError unit :=
  let '(ns, r) := reorg_utxo_to_virtual (dag ch) (ghostdag ch) (genesis cfg) (emission cfg) (node ch) old new in
  let primary :=
    match r, blues_in_order (dag ch) (ghostdag ch) old, blues_in_order (dag ch) (ghostdag ch) new with
    | Ok _, Ok applied, Ok target =>
        if old =? new then tx_primary ch
        else let n := common_prefix_len applied target in refresh_primary ch (drop n applied) (drop n target) target
    | _, _, _ => tx_primary ch
    end in
  (set_node ch ns primary, r).

(** ** Finality, difficulty cache and pruning *)

(** The account and staking records of the ledger. *)
Variable meta_of : L -> StateStore.
Variable compose_trident_state_root : StateStore -> Hash -> Hash.
Definition store_view (ch : Chain) : StateStore :=
  let m := meta_of (ledger (core (node ch))) in let f := finality_records ch in
  {| st_accounts := st_accounts m; st_tickets := st_tickets m; st_validators := st_validators m; st_delegations := st_delegations m;
     st_unbonding := st_unbonding m; st_epochs := st_epochs m; st_snapshots := st_snapshots m; st_reward_pool := st_reward_pool m;
     st_reserve := st_reserve m; st_issued := st_issued m; st_burned := st_burned m; st_max_supply := st_max_supply m;
     st_schema := st_schema m; st_issued_legacy := st_issued_legacy m; st_max_legacy := st_max_legacy m;
     st_index_marker := st_index_marker m; st_certificates := st_certificates f; st_att_index := st_att_index f;
     st_last_att := st_last_att f; st_finalized_tip := st_finalized_tip f |}.
Definition chain_state (ch : Chain) : ChainState :=
  {| cs_dag := dag ch; cs_ghostdag := ghostdag ch; cs_store := store_view ch; finality_pow := finality_policy cfg;
     cs_chain_id := auth_chain_id cfg; cs_genesis := genesis cfg; cs_policy_hash := policy_hash cfg |}.
Definition note_pow (ch : Chain) (tip : Hash) : Chain :=
  set_finality ch (cs_store (note_pow_on_virtual_tip compose_trident_state_root (chain_state ch) tip)).

Definition refresh_difficulty (ch : Chain) (old new : Hash) : Chain :=
  if new =? old then ch else
  match get_selected_parent (ghostdag ch) new with
  | Some sp =>
      let parent_bits := match load_header ch sp with Some hd => {| level := h_bits hd |} | None => difficulty ch end in
      set_difficulty ch (next_difficulty_weighted (daa cfg) parent_bits (daa_window ch sp))
  | None =>
      let bits := match load_header ch new with Some hd => h_bits hd | None => level (difficulty ch) end in
      set_difficulty ch (difficulty_clamp {| level := bits |} (daa cfg))
  end.

(** The breadth-first search of what stays hot: one step per queue entry. *)
Fixpoint keep_hot (fuel : nat) (ch : Chain) (window : Z) (keep : gset Hash) (q : list (Hash * Z)) : gset Hash :=
  match fuel, q with
  | S fuel, (h, dist) :: q' =>
      if bool_decide (h ∈ keep) then keep_hot fuel ch window keep q'
      else if window <=? dist then keep_hot fuel ch window ({[h]} ∪ keep) q'
      else keep_hot fuel ch window ({[h]} ∪ keep)
             (q' ++ match load_header ch h with Some hd => (fun p => (p, dist + 1)) <$> h_parents hd | None => [] end)
  | _, _ => keep
  end.
(** Every stored header is expanded once, and every entry is popped once. *)
Definition prune_fuel (ch : Chain) : nat :=
  S (length (load_tips ch) + nsum (fun _ hd => length (h_parents hd)) (headers ch)
     + nsum (fun _ b => length (h_parents (header b))) (bodies (core (node ch)))).
Definition prune_hot_window (ch : Chain) : Chain :=
  let window := hot_window (storage cfg) in
  if window =? 0 then ch else
  let keep := keep_hot (prune_fuel ch) ch window ∅ ((fun t => (t, 0)) <$> load_tips ch) in
  let drop_ := filter (fun h => h ∉ keep /\ (archival (storage cfg) = true -> h ∈ archived ch)) (hot ch) in
  let hot' := hot ch ∖ drop_ in
  let c := core (node ch) in
  let ns := {| core := {| ledger := ledger c; journals := journals c; issued := issued c; issued_asset := issued_asset c;
                          max_supply := max_supply c; bodies := filter (fun e => e.1 ∈ hot' ∪ archived ch) (bodies c) |};
               virtual_tip := virtual_tip (node ch); pending_virtual := pending_virtual (node ch) |} in
  {| node := ns; hot := hot'; archived := archived ch; headers := headers ch; stored_tips := stored_tips ch;
     ghostdag_records := ghostdag_records ch; tx_inclusions := tx_inclusions ch; tx_primary := tx_primary ch;
     finality_records := finality_records ch; dag := dag ch; ghostdag := ghostdag ch; difficulty := difficulty ch;
     stored_difficulty := stored_difficulty ch |}.

(** ** Admission *)

Definition best_tip (ch : Chain) : option Hash :=
  if bool_decide (tips (dag ch) = []) then select_virtual_tip (ghostdag ch) (load_tips ch)
  else select_virtual_tip (ghostdag ch) (tips (dag ch)).
Definition admit_rollback (ch : Chain) (id : Hash) : Chain :=
  set_graph ch (remove_tip (dag ch) id).2 (remove (ghostdag ch) id).
Definition admit_block (now_ms : Z) (ch : Chain) (b : Block) : Chain * result AdmitError Hash :=
  let id := block_id (header b) in
  match admission_checks now_ms ch b with
  | Err e => (ch, Err e)
  | Ok _ =>
  match dag_insert (dag ch) id (h_parents (header b)) with
  | Err e => (ch, Err (Consensus e))
  | Ok d =>
  match add_block_with_work d (ghostdag ch) id (work_from_bits (h_bits (header b))) with
  | (g, Err e) => (set_graph ch (remove_tip d id).2 g, Err (Consensus e))
  | (g, Ok _) =>
  let ch := set_graph ch d g in
  match validate_blue_order_utxo ch b id with
  | Err e => (admit_rollback ch id, Err e)
  | Ok _ =>
  let old := current_tip ch in
  match best_tip ch with
  | None => (admit_rollback ch id, Err AdmitNoVirtualTip)
  | Some new =>
  match guard_reorg_vs_finality (chain_state ch) old new with
  | Err e => (admit_rollback ch id, Err e)
  | Ok _ =>
  match reorg_chain (persist_block_atomic ch b id new) old new with
  | (ch, Err e) => (ch, Err e)
  | (ch, Ok _) => (prune_hot_window (refresh_difficulty (note_pow ch new) old new), Ok id)
  end end end end end end end.

(** ** Templates *)

(** What the ledger says of fees: [sum_transfer_fees] and
    [validate_mempool_covenant], which [Utxo] and [Covenant] model. *)
Variable sum_transfer_fees : L -> list Transaction -> result StateError Z.
Variable validate_mempool_covenant : L -> TltCovenantTx -> gset OutPoint -> Z -> Z -> result StateError Z.
(** [materialize_drc_multisign_attachments]. *)
Variable materialize_attachments : Block -> result ConsensusError Block.

Definition covenant_template_fees (l : L) (txs : list TltCovenantTx) (blue_score median_time_secs : Z) : result StateError Z :=
  let? st := rfold (fun st tx =>
    let? fee := validate_mempool_covenant l tx st.2 blue_score median_time_secs in
    let? total := ok_or (InvalidTx "covenant fee overflow") (checked_add u64_max st.1 fee) in
    Ok (total, st.2 ∪ list_to_set (ci_previous_outpoint <$> ct_inputs tx))) (0, ∅) txs in
  Ok st.1.
Definition template_cmp (g : Ghostdag) (a b : Hash) : comparison :=
  then_with (default 0 (get_blue_work g b) ?= default 0 (get_blue_work g a))
    (then_with (default 0 (get_blue_score g b) ?= default 0 (get_blue_score g a)) (b ?= a)).
(** [remove(position(..))]. *)
Fixpoint remove_first (h : Hash) (l : list Hash) : list Hash :=
  match l with [] => [] | x :: l' => if x =? h then l' else x :: remove_first h l' end.
Definition select_template_parents (ch : Chain) : list Hash :=
  let ts := sort_by (template_cmp (ghostdag ch)) (load_tips ch) in
  let ts := match best_tip ch with
            | Some v => if bool_decide (v ∈ ts) then v :: remove_first v ts else ts
            | None => ts
            end in
  take (Z.to_nat (max_block_parents (limits cfg))) ts.
Definition template_timestamp_ms (now_ms : Z) (ch : Chain) (ps : list Hash) : Z :=
  let parent_max := foldl Z.max 0 (parent_times ch ps) in
  let mtp := match select_parent_among (ghostdag ch) ps with
             | Some sp => median_time_past (spine_timestamps ch sp)
             | None => 0
             end in
  Z.max (Z.max now_ms (saturating_add u64_max parent_max 1)) (saturating_add u64_max mtp 1).
Definition template_median_time_secs (now_ms : Z) (ch : Chain) (ps : list Hash) : Z :=
  let times := sort_by Z.compare ((fun t => t / 1000) <$> parent_times ch ps) in
  if bool_decide (times = []) then template_timestamp_ms now_ms ch ps / 1000
  else nth (length times / 2) times 0.
Definition next_template_blue_score (ch : Chain) : result AdmitError Z :=
  let ps := select_template_parents ch in simulate_blue_score ch ps (expected_bits_for_parents ch ps).

Definition utxo_err {A} (r : result StateError A) : result AdmitError A :=
  match r with Ok a => Ok a | Err e => Err (AdmitUtxo e) end.
(** The body lanes offered by the mempool: transfers, covenants, commitments and
    the rest; [extranonce] is drawn from the clock and the process. *)
Definition block_template_lanes (now_ms extranonce : Z) (ch : Chain) (payout : Address) (transfers : list Transaction)
  (covenants : list TltCovenantTx) (das : list Da) (rest : Lanes) : result AdmitError Block :=
  let l := ledger (core (node ch)) in
  let ps := select_template_parents ch in
  let ts := template_timestamp_ms now_ms ch ps in
  let bits := expected_bits_for_parents ch ps in
  let? blue_score := simulate_blue_score ch ps bits in
  let emission := clamp_emission (core (node ch)) (reward_at_blue_score (emission cfg) blue_score) in
  let max_transfers := Z.to_nat (saturating_sub (max_block_transactions (limits cfg)) 1) in
  let included := take max_transfers transfers in
  let included_covenants := take (max_transfers - length included) covenants in
  let? transfer_fees := utxo_err (sum_transfer_fees l included) in
  let? covenant_fees := utxo_err (covenant_template_fees l included_covenants blue_score (template_median_time_secs now_ms ch ps)) in
  let? fees := ok_or (AdmitCoinbase "coinbase reward overflow") (checked_add u64_max transfer_fees covenant_fees) in
  let? reward := ok_or (AdmitCoinbase "coinbase reward overflow") (checked_add u64_max emission fees) in
  let coinbase := {| tx_version := 1; inputs := []; outputs := [{| out_value := reward; out_address := payout |}];
                     tx_nonce := coinbase_commitment_nonce ps ts extranonce; tx_public_key := []; tx_signature := [] |} in
  let draft root := {| h_version := 1; h_parents := ps; h_timestamp_ms := ts; h_bits := bits; h_nonce := 0; h_tx_root := root |} in
  let b := {| header := draft 0; transactions := coinbase :: included; tlt_covenants := included_covenants;
              data_commitments := das; lanes := rest |} in
  let? b := match auth_chain_id cfg with
            | None => Ok b
            | Some _ => match materialize_attachments b with Ok b => Ok b | Err e => Err (Consensus e) end
            end in
  Ok {| header := draft (compute_body_root b); transactions := transactions b; tlt_covenants := tlt_covenants b;
        data_commitments := data_commitments b; lanes := lanes b |}.

(** ** Answers to peers *)

Definition MAX_LOCATOR_HASHES : nat := 32.
Definition MAX_HEADERS_PER_RESPONSE : Z := 2000.
(** [for _ in 0..step]: toward the genesis along selected parents. *)
Fixpoint walk_back (fuel : nat) (ch : Chain) (step : Z) (h : Hash) : Hash :=
  match fuel with
  | O => h
  | S fuel =>
      if step <=? 0 then h else
      match get_selected_parent (ghostdag ch) h with
      | None => genesis cfg
      | Some p => if p =? genesis cfg then p else walk_back fuel ch (step - 1) p
      end
  end.
Fixpoint locator_loop (fuel : nat) (ch : Chain) (acc : list Hash) (h : Hash) (step index : Z) : list Hash :=
  match fuel with
  | O => acc
  | S fuel =>
      let acc := acc ++ [h] in
      if (h =? genesis cfg) || (MAX_LOCATOR_HASHES - 1 <=? length acc)%nat then acc
      else
        let index := index + 1 in
        locator_loop fuel ch acc (walk_back (spine_fuel ch) ch step h)
          (if 10 <=? index then Z.max (saturating_mul u64_max step 2) 1 else step) index
  end.
Definition block_locator (ch : Chain) : list Hash :=
  let hs := locator_loop MAX_LOCATOR_HASHES ch [] (current_tip ch) 1 0 in
  if bool_decide (last hs = Some (genesis cfg)) then hs else hs ++ [genesis cfg].

(** [pushed] counts the headers collected; the walk ends within the fuel, since
    the selected parents are finitely many. *)
Fixpoint headers_path (fuel : nat) (ch : Chain) (ancestor cursor : Hash) (pushed : Z) : result AdmitError (option (list BlockHeader)) :=
  if cursor =? ancestor then Ok (Some []) else
  match fuel with
  | O => Ok None
  | S fuel =>
      let? hd := ok_or (AdmitStorage "missing header") (load_header ch cursor) in
      match get_selected_parent (ghostdag ch) cursor with
      | None => Ok None
      | Some p =>
          ensure (negb (1000000 <? pushed + 1)) (AdmitStorage "headers path too long") ;?
          let? rest := headers_path fuel ch ancestor p (pushed + 1) in
          Ok (match rest with Some l => Some (l ++ [hd]) | None => None end)
      end
  end.
Fixpoint truncate_at (stop : Hash) (l : list BlockHeader) : list BlockHeader :=
  match l with
  | [] => []
  | hd :: l' => if block_id hd =? stop then [hd] else hd :: truncate_at stop l'
  end.
Definition headers_after_locator (ch : Chain) (locator : list Hash) (limit : Z) (stop_hash : option Hash)
  : result AdmitError (list BlockHeader) :=
  let limit := Z.to_nat (clamp 1 MAX_HEADERS_PER_RESPONSE limit) in
  let ancestor := default (genesis cfg) (List.find (has_header ch) (take MAX_LOCATOR_HASHES locator)) in
  if negb (has_header ch ancestor) then Ok []
  else if current_tip ch =? ancestor then Ok []
  else
    let? path := headers_path (spine_fuel ch) ch ancestor (current_tip ch) 0 in
    match path with
    | None => Ok []
    | Some l => Ok (take limit (match stop_hash with Some stop => truncate_at stop l | None => l end))
    end.

(** ** Restart *)

Definition load_parents_for_rebuild (ch : Chain) (h : Hash) : result AdmitError (list Hash) :=
  match load_block ch h with
  | Some b => Ok (h_parents (header b))
  | None =>
      match headers ch !! h with
      | Some hd => Ok (h_parents hd)
      | None => Err (AdmitStorage "missing header/body while rebuilding dag")
      end
  end.
(** The walk from the recorded tips to the genesis; the top of the stack is the
    head of the list. *)
Fixpoint gather (fuel : nat) (ch : Chain) (stack : list Hash) (pending : gmap Hash (list Hash)) : result AdmitError (gmap Hash (list Hash)) :=
  match fuel, stack with
  | _, [] => Ok pending
  | O, _ => Err (Consensus OutOfFuel)
  | S fuel, h :: stack' =>
      if (h =? genesis cfg) || bool_decide (is_Some (pending !! h)) then gather fuel ch stack' pending
      else let? ps := load_parents_for_rebuild ch h in gather fuel ch (reverse ps ++ stack') (<[h := ps]> pending)
  end.
(** Every entry is popped once, and every block is expanded once. *)
Definition gather_fuel (ch : Chain) : nat :=
  S (length (stored_tips ch) + nsum (fun _ b => length (h_parents (header b))) (bodies (core (node ch)))
     + nsum (fun _ hd => length (h_parents hd)) (headers ch)).
(** A colouring from its durable record, or computed and recorded. *)
Definition hydrate_or_recolor (records : gmap Hash GhostdagSnapshot) (g : Ghostdag) (d : Dag) (h : Hash) (work : Z)
  : result AdmitError (gmap Hash GhostdagSnapshot * Ghostdag) :=
  match records !! h with
  | Some s => Ok (records, (import_snapshot g h s).1)
  | None =>
      match add_block_with_work d g h work with
      | (_, Err e) => Err (Consensus e)
      | (g', Ok _) => Ok (match snapshot g' h with Some s => <[h := s]> records | None => records end, g')
      end
  end.
Definition rebuild_work (ch : Chain) (h : Hash) : Z := match headers ch !! h with Some hd => work_from_bits (h_bits hd) | None => 1 end.
Record Rebuild := { rb_dag : Dag; rb_ghostdag : Ghostdag; rb_records : gmap Hash GhostdagSnapshot; rb_pending : gmap Hash (list Hash) }.
(** One block of a round: [pending.remove(&hash).expect(..)]. *)
Definition rebuild_block (ch : Chain) (st : Rebuild) (h : Hash) : result AdmitError Rebuild :=
  let? ps := ok_or (AdmitStorage "ready hash") (rb_pending st !! h) in
  match dag_insert (rb_dag st) h ps with
  | Err e => Err (Consensus e)
  | Ok d =>
      let? (records, g) := hydrate_or_recolor (rb_records st) (rb_ghostdag st) d h (rebuild_work ch h) in
      Ok {| rb_dag := d; rb_ghostdag := g; rb_records := records; rb_pending := delete h (rb_pending st) |}
  end.
(** Rounds of blocks whose parents are there; each removes one at least. *)
Fixpoint rebuild_rounds (fuel : nat) (ch : Chain) (st : Rebuild) : result AdmitError Rebuild :=
  if bool_decide (rb_pending st = ∅) then Ok st else
  match fuel with
  | O => Err (Consensus OutOfFuel)
  | S fuel =>
      let ready := sort_by Z.compare (filter (fun e => forallb (contains (rb_dag st)) e.2 = true) (map_to_list (rb_pending st))).*1 in
      ensure (negb (bool_decide (ready = []))) (AdmitStorage "cannot rebuild dag: missing parents or cycle") ;?
      let? st' := rfold (rebuild_block ch) st ready in
      rebuild_rounds fuel ch st'
  end.
Definition rebuild_dag_from_store (gcfg : GhostdagConfig) (ch : Chain) : result AdmitError Rebuild :=
  let ts := if bool_decide (stored_tips ch = []) then [genesis cfg] else stored_tips ch in
  let? pending := gather (gather_fuel ch) ch (reverse ts) ∅ in
  match dag_insert dag_new (genesis cfg) [] with
  | Err e => Err (Consensus e)
  | Ok d =>
      let? (records, g) := hydrate_or_recolor (ghostdag_records ch) (ghostdag_new gcfg) d (genesis cfg) (rebuild_work ch (genesis cfg)) in
      rebuild_rounds (size pending) ch {| rb_dag := d; rb_ghostdag := g; rb_records := records; rb_pending := pending |}
  end.
End admission.
