(* ===== verification/AdmitProps.v ===== *)
(** * Block admission: the theorems

    Stated against the laws of the ledger interface, which the file TltLedger
    proves for transfers and covenants.  Admission is atomic: a rejected block leaves the node as it was, an admitted
    one leaves the ledger synced to the best tip.  Nodes that admitted the same
    blocks, in any order, hold the same ledger. *)

From stdpp Require Import base gmap list fin_maps strings.
From Stdlib Require Import ZArith Lia.
From S2P Require Import Prelude Ordering Sums Types Dag Ghostdag GhostdagProps Daa Finality Store Utxo UtxoProps TltScript FinalityAdmit FinalityProps Reorg ReorgProps Admit.
Local Open Scope Z_scope.

(** ** The graph after one more block *)

Lemma gd_dag_reachable cfg s : gd_reachable cfg s -> dag_reachable s.1.
Proof.
  unfold gd_reachable, dag_reachable. assert (rtc dag_step dag_new (dag_new, ghostdag_new cfg).1) as Hi by apply rtc_refl.
  revert Hi. generalize (dag_new, ghostdag_new cfg). intros s0 Hi Hr. revert Hi.
  induction Hr as [|s1 s2 s3 Hs _ IH]; [done|]. intros Hi. apply IH. destruct Hs as [d g h ps d' H|d g b w g' r H|d g h d' H]; cbn in *.
  - eapply rtc_r; [done|by eapply step_insert].
  - done.
  - eapply rtc_r; [done|by eapply step_remove].
Qed.

Lemma referenced_elem d x : x ∈ referenced d <-> exists b, parent_of d b x.
Proof.
  unfold referenced, parent_of. rewrite elem_of_list_to_set, list_elem_of_In, in_concat. split.
  - intros (l & Hl & Hx). rewrite <- list_elem_of_In in Hl. apply list_elem_of_fmap in Hl as ([b ps] & -> & Hb).
    apply elem_of_map_to_list in Hb. exists b, ps. split; [done|by apply list_elem_of_In].
  - intros (b & ps & Hb & Hx). exists ps. split; [|by apply list_elem_of_In].
    apply list_elem_of_In, list_elem_of_fmap. exists (b, ps). split; [done|by apply elem_of_map_to_list].
Qed.
(** The tips after an insertion: those not made parents, and the new block. *)
Lemma tips_insert d h ps d' :
  wf_dag d -> parents d !! h = None -> dag_insert d h ps = Ok d' -> tips d' = filter (fun t => t ∉ ps) (tips d) ++ [h].
Proof.
  intros Hw Hh Hi. apply dag_insert_fresh in Hi as [-> Hps]; [|done]. unfold tips. cbn [order].
  assert (Href : forall x, x ∈ referenced (mkDag (order d ++ [h]) (<[h := ps]> (parents d))) <-> x ∈ ps \/ x ∈ referenced d).
  { intros x. rewrite !referenced_elem. unfold parent_of. cbn [parents]. split.
    - intros (b & qs & [[<- <-]|[? Hb]]%lookup_insert_Some & Hx); [by left|right; by exists b, qs].
    - intros [Hx|(b & qs & Hb & Hx)]; [exists h, ps; by rewrite lookup_insert_eq|].
      exists b, qs. rewrite lookup_insert_ne; [done|]. intros ->. congruence. }
  rewrite filter_app. f_equal.
  - rewrite list_filter_filter. apply list_filter_iff. intros x. rewrite Href. naive_solver.
  - rewrite filter_cons_True; [by rewrite filter_nil|]. rewrite Href, referenced_elem. intros [Hx|(b & Hb)].
    + destruct (Hps _ Hx). congruence.
    + destruct (wf_parents_dom _ _ _ Hw Hb). congruence.
Qed.

(** Colouring a block over a coloured DAG adds its colour and nothing else. *)
Lemma color_new cfg d g h ps d' w g' r :
  gd_reachable cfg (d, g) -> (forall x, is_Some (parents d !! x) -> is_Some (coloring g !! x)) -> parents d !! h = None ->
  dag_insert d h ps = Ok d' -> add_block_with_work d' g h w = (g', r) ->
  exists c, r = Ok (data_of c h) /\ coloring g !! h = None /\ coloring g' = <[h := c]> (coloring g) /\ config g' = config g /\
    block_work c = Z.max w 1 /\ gd_reachable cfg (d', g') /\ remove_tip d' h = (true, d) /\ remove g' h = g /\
    (forall x, is_Some (parents d' !! x) -> is_Some (coloring g' !! x)) /\ parents d' = <[h := ps]> (parents d).
Proof.
  intros Hr Hcol Hh Hi Ha. pose proof (gd_dag_reachable _ _ Hr) as Hdr. destruct (gd_reachable_inv _ _ Hr) as (Hw & Hg & _). cbn [fst snd] in Hdr, Hw, Hg.
  assert (gd_reachable cfg (d', g)) as Hr1 by (eapply rtc_r; [exact Hr|by eapply gd_insert]).
  destruct (gd_reachable_inv _ _ Hr1) as (Hw1 & Hg1 & _). cbn [fst snd] in Hw1, Hg1.
  assert (parents d' = <[h := ps]> (parents d)) as Hp by (apply dag_insert_fresh in Hi as [-> _]; done).
  assert (coloring g !! h = None) as Hnc.
  { destruct (coloring g !! h) as [c|] eqn:E; [|done]. destruct (gd_closed d g Hg h c E) as (qs & ? & _). congruence. }
  destruct (add_block_post d' g h w Hw1 Hg1) as (g1 & r1 & Ha1 & [Hg' Hc' Hm Hn (c & Hc & -> & Hwk)]).
  { rewrite Hp, lookup_insert_eq. by eexists. }
  rewrite Ha in Ha1. injection Ha1 as -> ->.
  assert (Heq : coloring g1 = <[h := c]> (coloring g)).
  { apply map_eq. intros x. destruct (decide (x = h)) as [->|Hx]; [by rewrite lookup_insert_eq|]. rewrite lookup_insert_ne by done.
    destruct (coloring g !! x) as [cx|] eqn:E; [by eapply lookup_weaken|]. apply eq_None_not_Some. intros Hs.
    destruct (Hn x Hs) as [[? ?]|Hpast]; [congruence|].
    assert (is_Some (parents d !! x)) as [? Hx'].
    { apply past_dom in Hpast; [|done|rewrite Hp, lookup_insert_eq; by eexists]. by rewrite Hp, lookup_insert_ne in Hpast. }
    destruct (Hcol x) as [? ?]; [by eexists|congruence]. }
  exists c. split_and!; [done|done|done|done|by apply Hwk| | | | |done].
  - eapply rtc_r; [exact Hr1|by eapply gd_color].
  - by eapply insert_remove_tip.
  - unfold remove, set_coloring. rewrite Heq, Hc', delete_insert_id by done. by destruct g.
  - intros x. rewrite Hp, Heq. destruct (decide (x = h)) as [->|Hx]; [rewrite !lookup_insert_eq; intros _; by eexists|].
    rewrite !lookup_insert_ne by done. apply Hcol.
Qed.

(** The blue order of a block does not depend on blocks outside its past. *)
Lemma blues_compatible cfg1 cfg2 d1 g1 d2 g2 tip :
  gd_reachable cfg1 (d1, g1) -> gd_reachable cfg2 (d2, g2) -> compatible d1 d2 -> in_both d1 d2 tip ->
  (forall x, past d1 tip x -> coloring g1 !! x = coloring g2 !! x) ->
  blues_in_order d1 g1 tip = blues_in_order d2 g2 tip.
Proof.
  intros H1 H2 Hc Hb Hx. destruct (gd_reachable_inv _ _ H1) as (Hw1 & _). destruct (gd_reachable_inv _ _ H2) as (Hw2 & _). cbn [fst] in *.
  unfold blues_in_order, blue_order, order_past_view. rewrite <- (past_closure_compatible d1 d2) by done.
  destruct (past_closure d1 tip) as [s|e] eqn:Hs; [|done]. cbn [rbind]. rewrite <- Hx by apply rtc_refl.
  destruct (coloring g1 !! tip) as [c|]; [|done]. cbn [ok_or rbind].
  apply past_closure_Ok in Hs as [_ Hs]; [|done].
  replace (ordered_block g2 (blues c) <$> elements s) with (ordered_block g1 (blues c) <$> elements s); [done|].
  apply list_fmap_ext. intros i x Hi. unfold ordered_block, coloring_at. rewrite Hx; [done|].
  apply Hs, elem_of_elements. by eapply list_elem_of_lookup_2.
Qed.
Lemma rank_agree m1 m2 x y : m1 !! x = m2 !! x -> m1 !! y = m2 !! y -> rank_key m1 x y = rank_key m2 x y.
Proof. unfold rank_key, coloring_at. by intros -> ->. Qed.

(** A block outranks its parents. *)
Lemma child_outranks cfg d g h c p :
  gd_reachable cfg (d, g) -> (forall x cx, coloring g !! x = Some cx -> blue_work cx <= u128_max) ->
  coloring g !! h = Some c -> parent_of d h p -> rank_key (coloring g) p h = Lt.
Proof.
  intros Hr Hwk Hc (ps & Hps & Hp).
  destruct (reachable_colors cfg d g h c Hr Hc) as [[Hn _]|(qs & sp & acc & Hqs & _ & Hca)]; [by simplify_eq; apply elem_of_nil in Hp|].
  destruct (selected_parent_monotone cfg d g h c sp Hr Hc (ca_sp _ _ _ _ _ _ _ _ Hca)) as
    (ps' & csp & Hps' & _ & Hcsp & Hmax & _ & _ & Hsc & Hbw). simplify_eq.
  destruct (gd_reachable_inv _ _ Hr) as (_ & Hg & _). cbn [fst snd] in Hg. destruct (gd_entry d g Hg h c Hc) as [_ Hw1].
  pose proof (Hwk _ _ Hcsp).
  assert (Hlt : rank_key (coloring g) sp h = Lt).
  { unfold rank_key, coloring_at. rewrite Hc, Hcsp. simpl. unfold then_with.
    destruct (Z.compare_spec (blue_work csp) (blue_work c)) as [E|?|?]; [|done|lia].
    by rewrite (proj2 (Z.compare_lt_iff _ _)). }
  assert (cmp_le (rank_key (coloring g)) p h) as Hle.
  { eapply (cmp_trans_le (rank_key (coloring g))); [by apply Hmax|]. by rewrite Hlt. }
  destruct (rank_key (coloring g) p h) eqn:E; [|done|done]. exfalso.
  apply (cmp_eq (rank_key (coloring g))) in E as ->. specialize (Hmax h Hp). unfold cmp_le in Hmax.
  by rewrite (cmp_opp (rank_key (coloring g)) sp h), Hlt in Hmax.
Qed.

(** One more block either becomes the best tip or leaves it. *)
Lemma best_tip_step cfg d g h ps d' w g' r old new :
  gd_reachable cfg (d, g) -> (forall x, is_Some (parents d !! x) -> is_Some (coloring g !! x)) -> parents d !! h = None ->
  dag_insert d h ps = Ok d' -> add_block_with_work d' g h w = (g', r) ->
  (forall x cx, coloring g' !! x = Some cx -> blue_work cx <= u128_max) ->
  select_virtual_tip g (tips d) = Some old -> select_virtual_tip g' (tips d') = Some new -> new = h \/ new = old.
Proof.
  intros Hr Hcol Hh Hi Ha Hwk Hold Hnew.
  destruct (color_new _ _ _ _ _ _ _ _ _ Hr Hcol Hh Hi Ha) as (c & _ & Hnc & Heq & _ & _ & Hr' & _ & _ & _ & Hp).
  destruct (gd_reachable_inv _ _ Hr) as (Hw & _). cbn [fst] in Hw.
  unfold select_virtual_tip in *. apply max_by_Some in Hold as [[Hoc Hot]%list_elem_of_filter Hom]; [|apply _].
  apply max_by_Some in Hnew as [[Hnc' Hnt]%list_elem_of_filter Hnm]; [|apply _].
  assert (forall x, x ∈ tips d' -> cmp_le (rank_key (coloring g')) x new) as Hnm'.
  { intros x Hx. apply Hnm, list_elem_of_filter. split; [|done]. rewrite (tips_insert _ _ _ _ Hw Hh Hi) in Hx.
    rewrite Heq. destruct (decide (x = h)) as [->|Hxh]; [rewrite lookup_insert_eq; by eexists|]. rewrite lookup_insert_ne by done.
    apply Hcol, (wf_dom d Hw). apply elem_of_app in Hx as [[_ Hx]%list_elem_of_filter|Hx%list_elem_of_singleton]; [|done].
    by apply list_elem_of_filter in Hx as [_ ?]. }
  rewrite (tips_insert _ _ _ _ Hw Hh Hi) in Hnt, Hnm'.
  apply elem_of_app in Hnt as [[Hnps Hnt]%list_elem_of_filter|Hx%list_elem_of_singleton]; [|by left]. right.
  assert (Hne : forall x, x ∈ tips d -> x <> h).
  { intros x [_ Hx]%list_elem_of_filter ->. apply (wf_dom d Hw) in Hx as [? ?]. congruence. }
  assert (Hsame : forall x y, x ∈ tips d -> y ∈ tips d -> rank_key (coloring g') x y = rank_key (coloring g) x y).
  { intros x y Hx Hy. apply rank_agree; rewrite Heq; apply lookup_insert_ne, not_eq_sym, Hne; done. }
  assert (Hno : cmp_le (rank_key (coloring g)) new old).
  { apply Hom, list_elem_of_filter. split; [|done]. rewrite Heq, lookup_insert_ne in Hnc'; [done|]. by apply not_eq_sym, Hne. }
  destruct (decide (old ∈ ps)) as [Hop|Hop].
  - exfalso. assert (rank_key (coloring g') old h = Lt) as Hlt.
    { eapply (child_outranks cfg d' g'); [done|done|by rewrite Heq, lookup_insert_eq|]. exists ps. by rewrite Hp, lookup_insert_eq. }
    assert (cmp_le (rank_key (coloring g')) h old) as Hho.
    { eapply (cmp_trans_le (rank_key (coloring g'))); [apply Hnm', elem_of_app; right; left|]. by rewrite Hsame. }
    unfold cmp_le in Hho. by rewrite (cmp_opp (rank_key (coloring g')) old h), Hlt in Hho.
  - apply (cmp_le_antisym (rank_key (coloring g))); [done|]. unfold cmp_le. rewrite <- Hsame by done.
    apply Hnm', elem_of_app. left. by apply list_elem_of_filter.
Qed.

(** ** Replaying blocks *)

Section replay.
Context {L Blk J : Type} `{!Ledger L Blk J} `{!LedgerLaws L Blk J}.
Variable gen : Hash.
Variable em : EmissionSchedule.
Abbreviation Core := (@Reorg.Core L Blk J).
Abbreviation apply g := (apply_block_to_virtual (L := L) (Blk := Blk) (J := J) g gen em).

Definition with_bodies (c : Core) (bs : gmap Hash Blk) : Core :=
  {| ledger := ledger c; journals := journals c; issued := issued c; issued_asset := issued_asset c; max_supply := max_supply c; bodies := bs |}.
Lemma with_bodies_equiv c c' bs : c ≡ c' -> with_bodies c bs ≡ with_bodies c' bs.
Proof. intros (E1 & E2 & E3 & E4 & _). by repeat split. Qed.

(** Another node that has the blocks and scores them alike replays them alike. *)
Lemma apply_transport g1 g2 c h c' bs :
  apply g1 c h = Ok c' -> (h <> gen -> bs !! h = bodies c !! h /\ get_blue_score g2 h = get_blue_score g1 h) ->
  apply g2 (with_bodies c bs) h = Ok (with_bodies c' bs).
Proof.
  intros H Hb. unfold apply_block_to_virtual in *. cbn [journals bodies ledger issued max_supply with_bodies].
  destruct (Z.eqb_spec h gen) as [->|Hg]; [by injection H as ->|]. destruct (Hb Hg) as [-> ->].
  destruct (bool_decide (is_Some (journals c !! h))); [by injection H as ->|].
  destruct (bodies c !! h) as [b|]; [|done]. cbn [ok_or rbind] in *. destruct (get_blue_score g1 h) as [s|]; [|done]. cbn [ok_or rbind] in *.
  change (clamp_emission (with_bodies c bs) _) with (clamp_emission c (reward_at_blue_score em s)).
  destruct (exec (ledger c) b _ s) as [[l j]|]; [|done]. destruct (ensure (journal_subsidy j <=? _) _); [|done]. cbn [rbind] in *.
  destruct (ensure (saturating_add u64_max _ _ <=? _) _); [|done]. cbn [rbind] in *. by injection H as <-.
Qed.
Lemma apply_bodies g c h c' : apply g c h = Ok c' -> bodies c' = bodies c /\ max_supply c' = max_supply c.
Proof.
  unfold apply_block_to_virtual. intros H. destruct (h =? gen); [by injection H as ->|].
  destruct (bool_decide _); [by injection H as ->|]. apply rbind_Ok in H as (b & _ & H). apply rbind_Ok in H as (s & _ & H). cbv zeta in H.
  destruct (exec _ _ _ _) as [[l j]|]; [|done]. apply rbind_Ok in H as (? & _ & H). apply rbind_Ok in H as (? & _ & H). by apply Ok_inj in H as <-.
Qed.
Lemma run_bodies g c hs c' : rfold (apply g) c hs = Ok c' -> bodies c' = bodies c /\ max_supply c' = max_supply c.
Proof.
  apply (rfold_inv (apply g) (fun x => bodies x = bodies c /\ max_supply x = max_supply c)); [done|].
  intros x h x' [<- <-] _ H. by eapply apply_bodies.
Qed.
Lemma run_transport g1 g2 c hs c' bs :
  rfold (apply g1) c hs = Ok c' ->
  (forall h, h ∈ hs -> h <> gen -> bs !! h = bodies c !! h /\ get_blue_score g2 h = get_blue_score g1 h) ->
  rfold (apply g2) (with_bodies c bs) hs = Ok (with_bodies c' bs).
Proof.
  revert c. induction hs as [|h hs IH]; intros c H Hb; cbn [rfold] in *; [by injection H as ->|].
  apply rbind_Ok in H as (c1 & H1 & H). rewrite (apply_transport g1 g2 _ _ _ bs H1); [|apply Hb; left]. cbn [rbind]. apply IH; [done|].
  intros x Hx Hn. destruct (apply_bodies _ _ _ _ H1) as [-> _]. apply Hb; [by right|done].
Qed.
End replay.

(** ** What the overlay proof promises the reorg *)

Section overlay.
Context {Da Lanes L J : Type} `{!Ledger L (@Block Da Lanes) J} `{!LedgerLaws L (@Block Da Lanes) J}.
Variable cfg : ChainConfig.
Hypothesis emission_nonneg : 0 <= initial_reward (emission cfg).
Abbreviation Core := (@Reorg.Core L (@Block Da Lanes) J).
Abbreviation Chain := (@Chain Da Lanes L J).
Abbreviation apply g := (apply_block_to_virtual (L := L) (Blk := @Block Da Lanes) (J := J) g (genesis cfg) (emission cfg)).

Definition over (ov : Overlay) (c : Core) : Prop :=
  ov_ledger ov = ledger c /\ ov_journals ov = journals c /\ ov_issued ov = issued c.
Lemma over_equiv ov c c' : over ov c -> c ≡ c' -> over ov c'.
Proof. intros (E1 & E2 & E3) (F1 & F2 & F3 & _). split_and!; congruence. Qed.
Lemma overlay_reverts hs ov c : over ov c -> over (foldl (overlay_revert cfg) ov hs) (undo_each (genesis cfg) c hs).
Proof.
  unfold undo_each. revert ov c. induction hs as [|h hs IH]; intros ov c Ho; [done|]. cbn [foldl]. apply IH. destruct Ho as (E1 & E2 & E3).
  unfold overlay_revert, plan_unapply_block. cbn [omap list_omap]. destruct (h =? genesis cfg); [by split|]. rewrite E2.
  destruct (journals c !! h) as [j|]; [|by split]. cbn. unfold over. cbn. by rewrite E1, E3.
Qed.
Lemma reward_nonneg score : 0 <= reward_at_blue_score (emission cfg) score.
Proof. unfold reward_at_blue_score. destruct (64 <=? _); [done|by apply Z.shiftr_nonneg]. Qed.
Lemma overlay_apply_live (ch : Chain) b bid ov c h ov' :
  over ov c -> core_ok c -> max_supply c = max_supply (core (node ch)) -> journals c !! h = None ->
  bodies c = <[bid := b]> (bodies (core (node ch))) -> (h <> genesis cfg -> is_Some (get_blue_score (ghostdag ch) h)) ->
  overlay_apply cfg ch b bid ov h = Ok ov' -> exists c', apply (ghostdag ch) c h = Ok c' /\ over ov' c'.
Proof.
  intros (E1 & E2 & E3) Hok Hm Hj Hb Hs H. unfold overlay_apply, apply_block_to_virtual in *.
  destruct (Z.eqb_spec h (genesis cfg)) as [->|Hg]; [injection H as <-; by exists c|].
  rewrite bool_decide_eq_false_2 by (rewrite Hj; by intros [? ?]). destruct (Hs Hg) as [s Hs']. rewrite Hs' in *. cbn [from_option] in H.
  assert (exists body, bodies c !! h = Some body /\ (if h =? bid then Ok b else ok_or (AdmitStorage "missing body for blue") (load_block ch h)) = Ok body)
    as (body & Hbody & Hbody').
  { rewrite Hb. destruct (Z.eqb_spec h bid) as [->|Hi]; [exists b; by rewrite lookup_insert_eq|]. rewrite lookup_insert_ne by done.
    unfold load_block in *. destruct (bodies (core (node ch)) !! h) as [x|]; [by exists x|done]. }
  rewrite Hbody' in H. rewrite Hbody. cbn [ok_or rbind] in *. cbv zeta in H. rewrite <- Hm, E1, E3 in H.
  assert (Hem : Z.min (reward_at_blue_score (emission cfg) s) (saturating_sub (max_supply c) (Z.min (issued c) (max_supply c))) =
    clamp_emission c (reward_at_blue_score (emission cfg) s)) by (unfold clamp_emission, saturating_sub; lia).
  change (id s) with s in H. rewrite Hem in H. set (rw := clamp_emission c _) in *.
  assert (0 <= rw) by (unfold rw, clamp_emission, saturating_sub; pose proof (reward_nonneg s); lia).
  destruct (exec (ledger c) body rw s) as [[l j]|] eqn:He; [|done]. destruct Hok as (_ & _ & Hlo). destruct (subsidy_bounds _ _ _ _ _ _ Hlo ltac:(done) He) as [_ Hle].
  rewrite (proj2 (Z.leb_le _ _) Hle). cbn [ensure rbind].
  apply rbind_Ok in H as (u & Hcap & H). apply ensure_Ok, negb_true_iff, Z.ltb_ge in Hcap. rewrite (proj2 (Z.leb_le _ _) Hcap). cbn [ensure rbind].
  apply Ok_inj in H as <-. eexists. split; [done|]. split_and!; cbn; [done|by rewrite E2|done].
Qed.
Lemma overlay_run_live (ch : Chain) b bid hs ov c ov' :
  over ov c -> core_ok c -> max_supply c = max_supply (core (node ch)) -> NoDup hs -> (forall h, h ∈ hs -> journals c !! h = None) ->
  bodies c = <[bid := b]> (bodies (core (node ch))) -> (forall h, h ∈ hs -> is_Some (get_blue_score (ghostdag ch) h)) ->
  rfold (overlay_apply cfg ch b bid) ov hs = Ok ov' -> exists c', rfold (apply (ghostdag ch)) c hs = Ok c' /\ over ov' c'.
Proof.
  revert ov c. induction hs as [|h hs IH]; intros ov c Ho Hok Hm Hnd Hj Hb Hs H; cbn [rfold] in *; [injection H as <-; by exists c|].
  apply rbind_Ok in H as (ov1 & H1 & H). apply NoDup_cons in Hnd as [Hnh Hnd].
  destruct (overlay_apply_live ch b bid ov c h ov1 Ho Hok Hm (Hj h ltac:(left)) Hb) as (c1 & Ha & Ho1); [intros _; apply Hs; left|done|].
  rewrite Ha. cbn [rbind]. destruct (apply_Ok _ _ _ emission_nonneg _ _ _ Hok Ha) as (Hok1 & Hm1 & Hb1 & Hc1).
  apply (IH ov1 c1); try done; [congruence| |congruence|].
  - intros x Hx. destruct Hc1 as [[-> _]|(j & _ & _ & -> & _)]; [apply Hj; by right|]. rewrite lookup_insert_ne by (intros ->; done). apply Hj. by right.
  - intros x Hx. apply Hs. by right.
Qed.
End overlay.

(** ** The node's invariant *)

Section node.
Context {Da Lanes L J : Type} `{!Ledger L (@Block Da Lanes) J} `{!LedgerLaws L (@Block Da Lanes) J}.
Abbreviation Block := (@Block Da Lanes).
Abbreviation Chain := (@Chain Da Lanes L J).
Abbreviation Core := (@Reorg.Core L Block J).
Variable cfg : ChainConfig.
Variable preview_hash : list Hash -> Z -> Hash.
Variable block_id : BlockHeader -> Hash.
Variable compute_body_root block_len : Block -> Z.
Variable tx_len : Transaction -> Z.
Variable covenant_len : TltCovenantTx -> Z.
Variable randomx_zero_bits : BlockHeader -> Z -> Z.
Variable kheavy_zero_bits : BlockHeader -> Z.
Variable parent_tag : list Hash -> Z.
Variable tx_id : Transaction -> Hash.
Variable covenant_tx_id : TltCovenantTx -> Hash.
Variable authorization_id : Da -> Hash.
Variable journal_created : J -> list OutPoint.
Variable meta_of : L -> StateStore.
Variable compose_trident_state_root : StateStore -> Hash -> Hash.
Abbreviation try_block := (admit_block cfg preview_hash block_id compute_body_root block_len tx_len covenant_len randomx_zero_bits
  kheavy_zero_bits parent_tag tx_id covenant_tx_id authorization_id journal_created meta_of compose_trident_state_root).
Abbreviation checks := (admission_checks cfg preview_hash block_id compute_body_root block_len tx_len covenant_len randomx_zero_bits
  kheavy_zero_bits parent_tag journal_created).
Hypothesis emission_nonneg : 0 <= initial_reward (emission cfg).
(** Consensus networks force this setting. *)
Hypothesis archival_node : archival (storage cfg) = true.
(** The GHOSTDAG parameter, and what the genesis block left. *)
Variable gcfg : GhostdagConfig.
Variable genesis_ledger : L.
Variable genesis_issued genesis_work : Z.

Definition chain_base (ch : Chain) : Core :=
  {| ledger := genesis_ledger; journals := ∅; issued := genesis_issued; issued_asset := genesis_issued;
     max_supply := max_supply (core (node ch)); bodies := bodies (core (node ch)) |}.
Abbreviation synced_to ch c t := (synced (dag ch) (ghostdag ch) (genesis cfg) (emission cfg) (chain_base ch) c t).
Record chain_inv (ch : Chain) : Prop := {
  iv_reach : gd_reachable gcfg (dag ch, ghostdag ch);
  iv_colored h : is_Some (parents (dag ch) !! h) -> is_Some (coloring (ghostdag ch) !! h);
  iv_work h c : coloring (ghostdag ch) !! h = Some c -> blue_work c <= u128_max;
  iv_genesis : parents (dag ch) !! genesis cfg = Some [] /\
    exists c, coloring (ghostdag ch) !! genesis cfg = Some c /\ block_work c = genesis_work;
  iv_block h ps : parents (dag ch) !! h = Some ps -> h = genesis cfg \/
    exists b c, load_block ch h = Some b /\ headers ch !! h = Some (header b) /\ block_id (header b) = h /\ h_parents (header b) = ps /\
      coloring (ghostdag ch) !! h = Some c /\ block_work c = Z.max (work_from_bits (h_bits (header b))) 1;
  iv_archived h : is_Some (load_block ch h) -> h ∈ archived ch;
  iv_tips : stored_tips ch ≡ₚ tips (dag ch);
  iv_records h c : coloring (ghostdag ch) !! h = Some c -> ghostdag_records ch !! h = snapshot (ghostdag ch) h;
  iv_supply : core_ok (chain_base ch);
  iv_pending : pending_virtual (node ch) = None;
  iv_tip : exists t, virtual_tip (node ch) = Some t /\ select_virtual_tip (ghostdag ch) (tips (dag ch)) = Some t /\
    synced_to ch (core (node ch)) t;
}.

(** The fields the invariant reads. *)
Definition inv_fields (ch : Chain) := (node ch, headers ch, stored_tips ch, ghostdag_records ch, archived ch, dag ch, ghostdag ch).
Lemma inv_fields_inv ch ch' : inv_fields ch' = inv_fields ch -> chain_inv ch -> chain_inv ch'.
Proof.
  intros [= E1 E2 E3 E4 E5 E6 E7] [H1 H2 H3 H4 H5 H6 H7 H8 H9 H10 H11].
  split; unfold load_block, chain_base in *; rewrite ?E1, ?E2, ?E3, ?E4, ?E5, ?E6, ?E7 in *; done.
Qed.
Lemma prune_fields ch : (forall h, is_Some (load_block ch h) -> h ∈ archived ch) -> inv_fields (prune_hot_window cfg ch) = inv_fields ch.
Proof.
  intros H. unfold prune_hot_window. destruct (hot_window (storage cfg) =? 0); [done|]. unfold inv_fields. cbn [node headers stored_tips ghostdag_records archived dag ghostdag].
  rewrite map_filter_id; [by destruct ch as [[[] ? ?] ? ? ? ? ? ? ? ? ? ? ? ?]|]. intros h b Hb. cbn. apply elem_of_union_r, H. by exists b.
Qed.
Lemma refresh_fields ch old new : inv_fields (refresh_difficulty cfg ch old new) = inv_fields ch.
Proof. unfold refresh_difficulty. destruct (new =? old); [done|]. by destruct (get_selected_parent _ _). Qed.
Abbreviation settle ch old new := (prune_hot_window cfg (refresh_difficulty cfg (note_pow cfg meta_of compose_trident_state_root ch new) old new)).
Lemma settle_fields ch old new : chain_inv ch -> inv_fields (settle ch old new) = inv_fields ch.
Proof.
  intros Hi. set (ch1 := refresh_difficulty _ _ _ _). assert (E : inv_fields ch1 = inv_fields ch) by (unfold ch1; by rewrite refresh_fields).
  assert (Hi1 : chain_inv ch1) by (by eapply inv_fields_inv). rewrite <- E. apply prune_fields, (iv_archived _ Hi1).
Qed.

(** ** One more block *)

Record extends (ch : Chain) (b : Block) (d : Dag) (g : Ghostdag) (c : BlockColoring) : Prop := {
  ex_fresh : parents (dag ch) !! block_id (header b) = None;
  ex_insert : dag_insert (dag ch) (block_id (header b)) (h_parents (header b)) = Ok d;
  ex_parents : parents d = <[block_id (header b) := h_parents (header b)]> (parents (dag ch));
  ex_coloring : coloring g = <[block_id (header b) := c]> (coloring (ghostdag ch));
  ex_block_work : block_work c = Z.max (work_from_bits (h_bits (header b))) 1;
  ex_reach : gd_reachable gcfg (d, g);
  ex_colored h : is_Some (parents d !! h) -> is_Some (coloring g !! h);
  ex_work h x : coloring g !! h = Some x -> blue_work x <= u128_max;
}.
Lemma extends_blues ch b d g c tip :
  chain_inv ch -> extends ch b d g c -> is_Some (parents (dag ch) !! tip) ->
  blues_in_order d g tip = blues_in_order (dag ch) (ghostdag ch) tip.
Proof.
  intros Hi E Ht. symmetry. eapply blues_compatible; [apply (iv_reach _ Hi)|apply (ex_reach _ _ _ _ _ E)|..].
  - intros x p1 p2 H1. rewrite (ex_parents _ _ _ _ _ E), lookup_insert_ne; [congruence|]. intros <-. rewrite (ex_fresh _ _ _ _ _ E) in H1. done.
  - split; [done|]. by apply (insert_compatible _ _ _ _ (ex_insert _ _ _ _ _ E)).
  - intros x Hx. rewrite (ex_coloring _ _ _ _ _ E), lookup_insert_ne; [done|]. intros <-.
    destruct (gd_reachable_inv _ _ (iv_reach _ Hi)) as (Hw & _). apply past_dom in Hx as [? Hx]; [|done|done]. cbn [fst] in Hx. rewrite (ex_fresh _ _ _ _ _ E) in Hx. done.
Qed.
Lemma blues_colored d g tip hs :
  gd_reachable gcfg (d, g) -> blues_in_order d g tip = Ok hs -> forall h, h ∈ hs -> is_Some (parents d !! h) /\ is_Some (coloring g !! h).
Proof.
  intros Hr Hb h Hh. destruct (gd_reachable_inv _ _ Hr) as (Hw & Hg & _). cbn [fst snd] in *. unfold blues_in_order in Hb.
  destruct (blue_order d g tip) as [l|] eqn:E; [|done]. injection Hb as ->. pose proof E as E'. unfold blue_order in E'. apply rbind_Ok in E' as (o & E' & _).
  unfold order_past_view in E'. apply rbind_Ok in E' as (s & _ & E'). apply rbind_Ok in E' as (c & Hc%ok_or_Ok & _).
  destruct (blue_order_spec _ _ _ _ _ _ Hr Hc E) as (_ & Hbl & _). apply Hbl, (gd_blues d g Hg tip c Hc) in Hh.
  destruct (gd_closed d g Hg tip c Hc) as (ps & Hps & _). split; [eapply past_dom; [done| |done]; by eexists|].
  eapply gd_past_colored; [done| |done]. by eexists.
Qed.
Definition added (ch : Chain) (b : Block) : gmap Hash Block := <[block_id (header b) := b]> (bodies (core (node ch))).
Lemma tip_in_dag ch t : chain_inv ch -> select_virtual_tip (ghostdag ch) (tips (dag ch)) = Some t -> is_Some (parents (dag ch) !! t).
Proof.
  intros Hi H. unfold select_virtual_tip in H. apply max_by_Some in H as [[_ H]%list_elem_of_filter _]; [|apply _].
  apply list_elem_of_filter in H as [_ H]. destruct (gd_reachable_inv _ _ (iv_reach _ Hi)) as (Hw & _). by apply (wf_dom _ Hw).
Qed.
Lemma synced_extend ch b d g c t :
  chain_inv ch -> extends ch b d g c -> select_virtual_tip (ghostdag ch) (tips (dag ch)) = Some t -> synced_to ch (core (node ch)) t ->
  synced d g (genesis cfg) (emission cfg) (with_bodies (chain_base ch) (added ch b)) (with_bodies (core (node ch)) (added ch b)) t.
Proof.
  intros Hi E Ht (hs & c0 & Hb & Hr & Ec). exists hs, (with_bodies c0 (added ch b)).
  split; [by rewrite (extends_blues ch b d g c) by (done || by eapply tip_in_dag)|]. split; [|by apply with_bodies_equiv].
  eapply run_transport; [exact Hr|]. intros h Hh _. destruct (blues_colored _ _ _ _ (iv_reach _ Hi) Hb h Hh) as [[? Hp] _].
  assert (h <> block_id (header b)) as Hne by (intros ->; rewrite (ex_fresh _ _ _ _ _ E) in Hp; done).
  unfold added, chain_base, get_blue_score. cbn [bodies]. rewrite (ex_coloring _ _ _ _ _ E), !lookup_insert_ne by done. done.
Qed.

(** The state after the durable write and a finished reorg. *)
Definition admitted (ch : Chain) (b : Block) (d : Dag) (g : Ghostdag) (new : Hash) (ns : NodeStore) (primary : gmap (string * Hash) (Hash * Z)) : Chain :=
  set_node (persist_block_atomic cfg tx_id covenant_tx_id authorization_id (set_graph ch d g) b (block_id (header b)) new) ns primary.
Lemma admitted_fields ch b d g new ns primary :
  dag (admitted ch b d g new ns primary) = d /\ ghostdag (admitted ch b d g new ns primary) = g /\
  node (admitted ch b d g new ns primary) = ns /\ headers (admitted ch b d g new ns primary) = <[block_id (header b) := header b]> (headers ch) /\
  archived (admitted ch b d g new ns primary) = {[block_id (header b)]} ∪ archived ch.
Proof.
  unfold admitted, persist_block_atomic, set_node. rewrite archival_node.
  destruct (index_block_transactions tx_id covenant_tx_id authorization_id (set_graph ch d g) b (block_id (header b))) as [inc prim]. split_and!; done.
Qed.
Lemma admitted_tips ch b d g c new ns primary :
  chain_inv ch -> extends ch b d g c -> stored_tips (admitted ch b d g new ns primary) ≡ₚ tips d.
Proof.
  intros Hi E. unfold admitted, persist_block_atomic, set_node.
  destruct (index_block_transactions tx_id covenant_tx_id authorization_id (set_graph ch d g) b (block_id (header b))) as [inc prim]. cbn [stored_tips].
  destruct (gd_reachable_inv _ _ (iv_reach _ Hi)) as (Hw & _). cbn [fst] in Hw.
  rewrite (tips_insert _ _ _ _ Hw (ex_fresh _ _ _ _ _ E) (ex_insert _ _ _ _ _ E)).
  assert (Hl : load_tips (set_graph ch d g) = stored_tips ch).
  { unfold load_tips. cbn [stored_tips set_graph]. rewrite bool_decide_eq_false_2; [done|]. intros Hn.
    pose proof (iv_tips _ Hi) as Ht. rewrite Hn in Ht. apply Permutation_nil_l in Ht. destruct (iv_tip _ Hi) as (t & _ & Hs & _).
    unfold select_virtual_tip in Hs. apply max_by_Some in Hs as [[_ Hs]%list_elem_of_filter _]; [|apply _]. rewrite <- Ht in Hs. by apply elem_of_nil in Hs. }
  rewrite Hl. rewrite bool_decide_eq_false_2; [by rewrite (iv_tips _ Hi)|].
  rewrite list_elem_of_filter, (iv_tips _ Hi). intros [_ [_ Hx]%list_elem_of_filter]. apply (wf_dom _ Hw) in Hx as [? Hx]. rewrite (ex_fresh _ _ _ _ _ E) in Hx. done.
Qed.
Lemma admitted_records ch b d g c new ns primary h x :
  chain_inv ch -> extends ch b d g c -> coloring g !! h = Some x ->
  ghostdag_records (admitted ch b d g new ns primary) !! h = snapshot g h.
Proof.
  intros Hi E Hx. unfold admitted, persist_block_atomic, set_node.
  destruct (index_block_transactions tx_id covenant_tx_id authorization_id (set_graph ch d g) b (block_id (header b))) as [inc prim]. cbn [ghostdag_records ghostdag set_graph].
  assert (snapshot g (block_id (header b)) = Some {| snap_selected_parent := selected_parent c; snap_blue_score := blue_score c; snap_blue_work := blue_work c;
    snap_block_work := block_work c; snap_mergeset_blues := sort_by Z.compare (mergeset_blues c) |}) as Hs
    by (unfold snapshot; by rewrite (ex_coloring _ _ _ _ _ E), lookup_insert_eq).
  rewrite Hs. destruct (decide (h = block_id (header b))) as [->|Hne]; [by rewrite lookup_insert_eq, Hs|]. rewrite lookup_insert_ne by done.
  rewrite (ex_coloring _ _ _ _ _ E), lookup_insert_ne in Hx by done. rewrite (iv_records _ Hi _ _ Hx). unfold snapshot.
  by rewrite (ex_coloring _ _ _ _ _ E), lookup_insert_ne.
Qed.
Lemma admitted_inv ch b d g c new ns primary :
  chain_inv ch -> extends ch b d g c -> bodies (core ns) = added ch b -> max_supply (core ns) = max_supply (core (node ch)) ->
  virtual_tip ns = Some new -> pending_virtual ns = None -> select_virtual_tip g (tips d) = Some new ->
  synced d g (genesis cfg) (emission cfg) (with_bodies (chain_base ch) (added ch b)) (core ns) new ->
  chain_inv (admitted ch b d g new ns primary).
Proof.
  intros Hi E Hb Hm Hv Hp Hsel Hs. destruct (admitted_fields ch b d g new ns primary) as (Ed & Eg & En & Eh & Ea).
  assert (Hbase : chain_base (admitted ch b d g new ns primary) = with_bodies (chain_base ch) (added ch b)) by (unfold chain_base, with_bodies; by rewrite En, Hb, Hm).
  assert (Hne : forall h x, parents (dag ch) !! h = Some x -> block_id (header b) <> h) by (intros h x Hx <-; rewrite (ex_fresh _ _ _ _ _ E) in Hx; done).
  split; rewrite ?Ed, ?Eg, ?En, ?Eh, ?Ea.
  - apply (ex_reach _ _ _ _ _ E).
  - apply (ex_colored _ _ _ _ _ E).
  - apply (ex_work _ _ _ _ _ E).
  - destruct (iv_genesis _ Hi) as (Hg & x & Hx & Hw). rewrite (ex_parents _ _ _ _ _ E), (ex_coloring _ _ _ _ _ E), !lookup_insert_ne by (by eapply Hne). split; [done|by exists x].
  - intros h ps. rewrite (ex_parents _ _ _ _ _ E), (ex_coloring _ _ _ _ _ E). unfold load_block. rewrite En, Hb. unfold added.
    intros [[<- <-]|[Hn Hh]]%lookup_insert_Some.
    + right. exists b, c. rewrite !lookup_insert_eq. split_and!; try done. apply (ex_block_work _ _ _ _ _ E).
    + rewrite !lookup_insert_ne by done. by apply (iv_block _ Hi).
  - intros h. unfold load_block. rewrite En, Hb. unfold added. intros [x [[<- <-]|[Hn Hx]]%lookup_insert_Some]; [set_solver|].
    apply elem_of_union_r, (iv_archived _ Hi). by exists x.
  - by eapply admitted_tips.
  - intros h x. by apply (admitted_records ch b d g c).
  - rewrite Hbase. apply (iv_supply _ Hi).
  - done.
  - exists new. split_and!; [done|done|]. by rewrite Hbase.
Qed.

Lemma check_parent_list_Ok d seen ps u :
  check_parent_list d seen ps = Ok u -> NoDup ps /\ forall p, p ∈ ps -> p ∉ seen /\ is_Some (parents d !! p).
Proof.
  revert seen. induction ps as [|p ps IH]; intros seen H; cbn in H.
  - split; [apply NoDup_nil_2|]. intros p Hp. by apply elem_of_nil in Hp.
  - apply rbind_Ok in H as (? & H1 & H). apply ensure_Ok, negb_true_iff, bool_decide_eq_false in H1.
    apply rbind_Ok in H as (? & H2 & H). apply ensure_Ok in H2. destruct (contains_spec d p) as [Hp|]; [|done].
    destruct (IH _ H) as [Hnd Hin]. split.
    + apply NoDup_cons. split; [|done]. intros Hx. destruct (Hin p Hx) as [Hns _]. set_solver.
    + intros q [->|Hq]%elem_of_cons; [done|]. destruct (Hin q Hq). split; [set_solver|done].
Qed.
Lemma checks_Ok now (ch : Chain) (b : Block) :
  checks now ch b = Ok tt ->
  parents (dag ch) !! block_id (header b) = None /\ h_parents (header b) <> [] /\ NoDup (h_parents (header b)) /\
  Z.of_nat (length (h_parents (header b))) <= max_block_parents (limits cfg) /\
  (forall p, p ∈ h_parents (header b) -> is_Some (parents (dag ch) !! p)).
Proof.
  unfold admission_checks. intros H. apply rbind_Ok in H as (? & H1 & H). apply ensure_Ok, negb_true_iff in H1.
  apply rbind_Ok in H as (u & H2 & _). unfold check_block_parents in H2.
  apply rbind_Ok in H2 as (? & H3 & H2). apply ensure_Ok, negb_true_iff, bool_decide_eq_false in H3.
  apply rbind_Ok in H2 as (? & H4 & H2). apply ensure_Ok, Z.leb_le in H4. apply check_parent_list_Ok in H2 as [Hnd Hin].
  split_and!; [|done|done|done|intros p Hp; by apply Hin]. apply eq_None_not_Some. intros Hs. by destruct (contains_spec (dag ch) (block_id (header b))).
Qed.
Lemma insert_extends now ch b d g r :
  chain_inv ch -> checks now ch b = Ok tt -> dag_insert (dag ch) (block_id (header b)) (h_parents (header b)) = Ok d ->
  add_block_with_work d (ghostdag ch) (block_id (header b)) (work_from_bits (h_bits (header b))) = (g, r) ->
  exists c, r = Ok (data_of c (block_id (header b))) /\ extends ch b d g c /\ admit_rollback (set_graph ch d g) (block_id (header b)) = ch.
Proof.
  intros Hi Hc Hd Ha. destruct (checks_Ok _ _ _ Hc) as (Hf & Hne & _).
  destruct (color_new _ _ _ _ _ _ _ _ _ (iv_reach _ Hi) (iv_colored _ Hi) Hf Hd Ha) as
    (c & -> & Hnc & Heq & _ & Hbw & Hr & Hrt & Hrg & Hcol & Hp). exists c. split; [done|]. split.
  - split; try done. intros h x Hx. rewrite Heq in Hx. apply lookup_insert_Some in Hx as [[<- <-]|[_ Hx]]; [|by eapply (iv_work _ Hi)].
    destruct (reachable_colors _ _ _ (block_id (header b)) c Hr) as [[Hn _]|(ps & sp & acc & _ & _ & Hca)]; [by rewrite Heq, lookup_insert_eq| |].
    + rewrite Hp, lookup_insert_eq in Hn. congruence.
    + rewrite (ca_work _ _ _ _ _ _ _ _ Hca). unfold saturating_add. lia.
  - unfold admit_rollback. cbn [dag ghostdag set_graph]. rewrite Hrt, Hrg. by destruct ch.
Qed.

(** The overlay proof of the candidate is the proof of the reorg to it. *)
Lemma validated_replays ch b d g c old :
  chain_inv ch -> extends ch b d g c -> virtual_tip (node ch) = Some old -> select_virtual_tip (ghostdag ch) (tips (dag ch)) = Some old ->
  synced_to ch (core (node ch)) old -> validate_blue_order_utxo cfg (set_graph ch d g) b (block_id (header b)) = Ok tt ->
  exists target c', blues_in_order d g (block_id (header b)) = Ok target /\
    rfold (apply_block_to_virtual g (genesis cfg) (emission cfg)) (with_bodies (chain_base ch) (added ch b)) target = Ok c'.
Proof.
  intros Hi E Hv Hsel Hs H. unfold validate_blue_order_utxo in H. cbn [dag ghostdag set_graph] in H.
  apply rbind_Ok in H as (target & Ht & H). apply rbind_Ok in H as (applied & Ha & H). cbv zeta in H. apply rbind_Ok in H as (ov' & Hov & _).
  unfold current_tip in Ha. cbn [node set_graph] in Ha. rewrite Hv in Ha. cbn [from_option] in Ha. change (id old) with old in Ha.
  pose proof (synced_extend _ _ _ _ _ _ Hi E Hsel Hs) as Hs'.
  destruct (unapply_to_prefix _ _ _ _ emission_nonneg _ (ex_reach _ _ _ _ _ E) (with_bodies (chain_base ch) (added ch b)) (iv_supply _ Hi) eq_refl
    _ _ _ _ _ Hs' Ha Ht) as (p & cp & c0 & _ & Et & Hp & Hokp & Hun & _ & _ & _ & Hjt & Hno & Hnt).
  set (n := common_prefix_len applied target) in *. exists target.
  destruct (overlay_run_live cfg emission_nonneg (set_graph ch d g) b (block_id (header b)) (drop n target)
    (foldl (overlay_revert cfg) (clone_utxo_overlay (set_graph ch d g)) (reverse (drop n applied))) cp ov') as (c' & Hc' & _); try done.
  - eapply over_equiv; [|exact Hun]. unfold unapply_blocks. rewrite <- undo_each_commit by (by apply NoDup_rev). by apply overlay_reverts.
  - by destruct (run_bodies _ _ _ _ _ _ Hp) as [_ ->].
  - by destruct (run_bodies _ _ _ _ _ _ Hp) as [-> _].
  - intros h Hh. cbn [ghostdag set_graph]. unfold get_blue_score. apply fmap_is_Some.
    eapply (blues_colored d g); [apply (ex_reach _ _ _ _ _ E)|exact Ht|]. rewrite Et. apply elem_of_app. by right.
  - exists c'. split; [done|]. rewrite Et, rfold_app, Hp. exact Hc'.
Qed.

(** The whole of an admission. *)
Record admits (now : Z) (ch : Chain) (b : Block) (ch' : Chain) : Prop := {
  ad_inv : chain_inv ch';
  ad_checks : checks now ch b = Ok tt;
  ad_dag : parents (dag ch') = <[block_id (header b) := h_parents (header b)]> (parents (dag ch));
  ad_bodies : bodies (core (node ch')) = <[block_id (header b) := b]> (bodies (core (node ch)));
  ad_header : headers ch' = <[block_id (header b) := header b]> (headers ch);
  ad_supply : max_supply (core (node ch')) = max_supply (core (node ch));
  ad_tip : virtual_tip (node ch') = Some (block_id (header b)) \/
    (virtual_tip (node ch') = virtual_tip (node ch) /\ ledger (core (node ch')) = ledger (core (node ch)));
}.
Lemma admitted_admits now ch b d g c old new ns primary :
  chain_inv ch -> extends ch b d g c -> checks now ch b = Ok tt -> bodies (core ns) = added ch b ->
  max_supply (core ns) = max_supply (core (node ch)) -> virtual_tip ns = Some new -> pending_virtual ns = None ->
  select_virtual_tip g (tips d) = Some new ->
  synced d g (genesis cfg) (emission cfg) (with_bodies (chain_base ch) (added ch b)) (core ns) new ->
  new = block_id (header b) \/ (Some new = virtual_tip (node ch) /\ ledger (core ns) = ledger (core (node ch))) ->
  admits now ch b (settle (admitted ch b d g new ns primary) old new).
Proof.
  intros Hi E Hc Hb Hm Hv Hp Hsel Hs Ht. pose proof (admitted_inv ch b d g c new ns primary Hi E Hb Hm Hv Hp Hsel Hs) as Hi'.
  pose proof (settle_fields _ old new Hi') as Hf. destruct (admitted_fields ch b d g new ns primary) as (Ed & _ & En & Eh & _).
  set (A := admitted _ _ _ _ _ _ _) in *. set (S := settle A old new) in *.
  assert (F1 : node S = node A) by exact (f_equal (fun x => x.1.1.1.1.1.1) Hf).
  assert (F2 : headers S = headers A) by exact (f_equal (fun x => x.1.1.1.1.1.2) Hf).
  assert (F3 : dag S = dag A) by exact (f_equal (fun x => x.1.2) Hf). split; rewrite ?F1, ?F2, ?F3, ?En, ?Eh, ?Ed; try done.
  - by eapply inv_fields_inv.
  - apply (ex_parents _ _ _ _ _ E).
  - rewrite Hv. destruct Ht as [->|[-> Hl]]; [by left|by right].
Qed.
Lemma admit_step now ch b ch' r :
  chain_inv ch -> try_block now ch b = (ch', r) ->
  (exists e, r = Err e /\ ch' = ch) \/ (r = Ok (block_id (header b)) /\ admits now ch b ch').
Proof.
  intros Hi H. unfold admit_block in H. cbv zeta in H. destruct (checks now ch b) as [[]|e] eqn:Hc; [|injection H as <- <-; left; by exists e].
  destruct (dag_insert _ _ _) as [d|e] eqn:Hd; [|injection H as <- <-; left; by eexists].
  destruct (add_block_with_work _ _ _ _) as [g r0] eqn:Ha. destruct (insert_extends _ _ _ _ _ _ Hi Hc Hd Ha) as (c & -> & E & Hback).
  destruct (validate_blue_order_utxo _ _ _ _) as [[]|e] eqn:Hval; [|rewrite Hback in H; injection H as <- <-; left; by eexists].
  destruct (iv_tip _ Hi) as (old & Hv & Hsel & Hs). assert (Ho : current_tip cfg (set_graph ch d g) = old) by (unfold current_tip; cbn; by rewrite Hv).
  rewrite Ho in H. destruct (gd_reachable_inv _ _ (iv_reach _ Hi)) as (Hw & _). cbn [fst] in Hw.
  assert (Hbt : best_tip (set_graph ch d g) = select_virtual_tip g (tips d)).
  { unfold best_tip. cbn [dag ghostdag set_graph]. rewrite bool_decide_eq_false_2; [done|].
    rewrite (tips_insert _ _ _ _ Hw (ex_fresh _ _ _ _ _ E) Hd). by destruct (filter _ _). }
  rewrite Hbt in H. destruct (select_virtual_tip g (tips d)) as [new|] eqn:Hnew; [|rewrite Hback in H; injection H as <- <-; left; by eexists].
  destruct (guard_reorg_vs_finality _ _ _) as [[]|e]; [|rewrite Hback in H; injection H as <- <-; left; by eexists]. right.
  pose proof (best_tip_step _ _ _ _ _ _ _ _ _ _ _ (iv_reach _ Hi) (iv_colored _ Hi) (ex_fresh _ _ _ _ _ E) Hd Ha (ex_work _ _ _ _ _ E) Hsel Hnew) as Hcase.
  pose proof (synced_extend _ _ _ _ _ _ Hi E Hsel Hs) as Hse. unfold reorg_chain in H.
  set (ch2 := persist_block_atomic _ _ _ _ _ _ _ _) in H.
  assert (Hg2 : dag ch2 = d /\ ghostdag ch2 = g /\ node ch2 = {| core := with_bodies (core (node ch)) (added ch b); virtual_tip := virtual_tip (node ch); pending_virtual := Some new |}).
  { unfold ch2, persist_block_atomic. by destruct (index_block_transactions _ _ _ _ _ _). }
  destruct Hg2 as (Ed & Eg & En). rewrite Ed, Eg, En in H. destruct (decide (new = old)) as [->|Hne].
  - unfold reorg_utxo_to_virtual in H. rewrite Z.eqb_refl in H. injection H as <- <-. split; [done|].
    apply (admitted_admits now ch b d g c old old); try done. right. by rewrite Hv.
  - destruct Hcase as [->|]; [|done]. destruct (validated_replays _ _ _ _ _ _ Hi E Hv Hsel Hs Hval) as (target & c' & Ht & Hrun).
    destruct (reorg_utxo_to_virtual _ _ _ _ _ _ _) as [ns rr] eqn:Hre.
    destruct (reorg_outcome _ _ _ _ emission_nonneg _ (ex_reach _ _ _ _ _ E) (with_bodies (chain_base ch) (added ch b)) (iv_supply _ Hi) eq_refl
      {| core := with_bodies (core (node ch)) (added ch b); virtual_tip := virtual_tip (node ch); pending_virtual := Some (block_id (header b)) |}
      _ _ _ _ _ Hse (not_eq_sym Hne) Ht Hre) as (Hiff & Hok & _).
    assert (rr = Ok tt) as -> by (apply Hiff; by exists c'). destruct (Hok eq_refl) as (Hsn & Hvn & Hpn). injection H as <- <-. split; [done|].
    destruct Hsn as (hs & c0 & Hb & Hr & Eq). destruct (run_bodies _ _ _ _ _ _ Hr) as [Hbo Hmo]. pose proof Eq as (_ & _ & _ & Em & Eb).
    apply (admitted_admits now ch b d g c old (block_id (header b))); try done; [by rewrite Eb, Hbo|by rewrite Em, Hmo|by exists hs, c0|by left].
Qed.

(** ** Histories of a node *)

(** The blocks a node is given, with its clock at each. *)
Definition admit_run (ch : Chain) (l : list (Z * Block)) : Chain := foldl (fun ch e => (try_block e.1 ch e.2).1) ch l.
Record run_of (ch0 : Chain) (l : list Block) (ch : Chain) : Prop := {
  ro_inv : chain_inv ch;
  ro_old h : is_Some (parents (dag ch0) !! h) -> parents (dag ch) !! h = parents (dag ch0) !! h /\ load_block ch h = load_block ch0 h;
  ro_new h b : parents (dag ch0) !! h = None -> is_Some (parents (dag ch) !! h) -> load_block ch h = Some b -> b ∈ l /\ block_id (header b) = h;
  ro_supply : max_supply (core (node ch)) = max_supply (core (node ch0));
}.
Lemma run_of_step ch0 l ch e : run_of ch0 l ch -> run_of ch0 (l ++ [e.2]) (try_block e.1 ch e.2).1.
Proof.
  intros [Hi Ho Hn Hs]. destruct e as [now b]. cbn [fst snd]. destruct (try_block now ch b) as [ch' r] eqn:E. cbn [fst].
  destruct (admit_step _ _ _ _ _ Hi E) as [(x & _ & ->)|(_ & [Hi' Hc Hd Hb _ Hm _])].
  - split; [done|done| |done]. intros h b' H1 H2 H3. destruct (Hn h b' H1 H2 H3). split; [apply elem_of_app; by left|done].
  - destruct (checks_Ok _ _ _ Hc) as (Hf & _). split; [done| | |congruence]; unfold load_block in *; rewrite Hd, Hb.
    + intros h Hh. destruct (Ho h Hh) as [Hp Hl]. assert (block_id (header b) <> h) as Hne.
      { intros <-. rewrite <- Hp, Hf in Hh. by destruct Hh. }
      by rewrite !lookup_insert_ne.
    + intros h b' H1 H2 H3. apply lookup_insert_Some in H3 as [[<- <-]|[Hne H3]]; [split; [apply elem_of_app; right; left|done]|].
      rewrite lookup_insert_ne in H2 by done. destruct (Hn h b' H1 H2 H3). split; [apply elem_of_app; by left|done].
Qed.
Lemma run_of_run ch0 l : chain_inv ch0 -> run_of ch0 l.*2 (admit_run ch0 l).
Proof.
  intros Hi. induction l as [|e l IH] using rev_ind.
  - split; [done|done| |done]. cbn. intros h b H1 [? H2]. congruence.
  - unfold admit_run in *. rewrite foldl_app, fmap_app. by apply run_of_step.
Qed.

(** Two nodes with the same blocks. *)
Record same_blocks (ch1 ch2 : Chain) : Prop := {
  sb_dom h : is_Some (parents (dag ch1) !! h) <-> is_Some (parents (dag ch2) !! h);
  sb_load h : is_Some (parents (dag ch1) !! h) -> h <> genesis cfg -> load_block ch1 h = load_block ch2 h;
}.
Lemma same_parents ch1 ch2 : chain_inv ch1 -> chain_inv ch2 -> same_blocks ch1 ch2 -> parents (dag ch1) = parents (dag ch2).
Proof.
  intros H1 H2 [Hd Hl]. apply map_eq. intros h. destruct (parents (dag ch1) !! h) as [p1|] eqn:E1.
  - assert (is_Some (parents (dag ch2) !! h)) as [p2 E2] by (apply Hd; by eexists). rewrite E2. f_equal.
    destruct (iv_block _ H1 _ _ E1) as [->|(b1 & c1 & Hb1 & _ & _ & <- & _)].
    + rewrite (proj1 (iv_genesis _ H1)) in E1. rewrite (proj1 (iv_genesis _ H2)) in E2. congruence.
    + destruct (iv_block _ H2 _ _ E2) as [->|(b2 & c2 & Hb2 & _ & _ & <- & _)].
      * rewrite (proj1 (iv_genesis _ H1)) in E1. rewrite (proj1 (iv_genesis _ H2)) in E2. congruence.
      * destruct (decide (h = genesis cfg)) as [->|Hg]; [rewrite (proj1 (iv_genesis _ H1)) in E1; rewrite (proj1 (iv_genesis _ H2)) in E2; congruence|].
        rewrite Hl in Hb1; [congruence|by eexists|done].
  - symmetry. apply eq_None_not_Some. rewrite <- Hd, E1. by intros [? ?].
Qed.
Lemma same_works ch1 ch2 h c1 c2 :
  chain_inv ch1 -> chain_inv ch2 -> same_blocks ch1 ch2 -> coloring (ghostdag ch1) !! h = Some c1 -> coloring (ghostdag ch2) !! h = Some c2 ->
  block_work c1 = block_work c2.
Proof.
  intros H1 H2 Hs E1 E2. destruct (decide (h = genesis cfg)) as [->|Hg].
  - destruct (iv_genesis _ H1) as (_ & x1 & ? & ?), (iv_genesis _ H2) as (_ & x2 & ? & ?). congruence.
  - destruct (gd_reachable_inv _ _ (iv_reach _ H1)) as (_ & G1 & _), (gd_reachable_inv _ _ (iv_reach _ H2)) as (_ & G2 & _). cbn [fst snd] in *.
    destruct (gd_closed _ _ G1 _ _ E1) as (p1 & P1 & _), (gd_closed _ _ G2 _ _ E2) as (p2 & P2 & _).
    destruct (iv_block _ H1 _ _ P1) as [?|(b1 & x1 & L1 & _ & _ & _ & C1 & W1)]; [done|].
    destruct (iv_block _ H2 _ _ P2) as [?|(b2 & x2 & L2 & _ & _ & _ & C2 & W2)]; [done|].
    rewrite (sb_load _ _ Hs) in L1; [congruence|by eexists|done].
Qed.
Lemma same_colorings ch1 ch2 : chain_inv ch1 -> chain_inv ch2 -> same_blocks ch1 ch2 -> coloring (ghostdag ch1) = coloring (ghostdag ch2).
Proof.
  intros H1 H2 Hs. pose proof (same_parents _ _ H1 H2 Hs) as Hp.
  destruct (gd_reachable_inv _ _ (iv_reach _ H1)) as (W1 & G1 & K1), (gd_reachable_inv _ _ (iv_reach _ H2)) as (W2 & G2 & K2). cbn [fst snd] in *.
  assert (Hdom : forall h, is_Some (coloring (ghostdag ch1) !! h) <-> is_Some (coloring (ghostdag ch2) !! h)).
  { intros h. split; intros [c Hc].
    - destruct (gd_closed _ _ G1 _ _ Hc) as (ps & Hps & _). apply (iv_colored _ H2). rewrite <- Hp. by eexists.
    - destruct (gd_closed _ _ G2 _ _ Hc) as (ps & Hps & _). apply (iv_colored _ H1). rewrite Hp. by eexists. }
  apply map_eq. intros h. destruct (coloring (ghostdag ch1) !! h) as [c1|] eqn:E1.
  - destruct (proj1 (Hdom h)) as [c2 E2]; [by eexists|]. rewrite E2. f_equal.
    eapply (coloring_unique (dag ch1) (dag ch2)); [done|done| |done|done|congruence| |done|done].
    + intros x p1 p2 P1 P2. rewrite Hp in P1. congruence.
    + intros x a1 a2 A1 A2. exact (same_works _ _ _ _ _ H1 H2 Hs A1 A2).
  - symmetry. apply eq_None_not_Some. rewrite <- Hdom, E1. by intros [? ?].
Qed.
Lemma same_tips ch1 ch2 : chain_inv ch1 -> chain_inv ch2 -> parents (dag ch1) = parents (dag ch2) -> forall x, x ∈ tips (dag ch1) <-> x ∈ tips (dag ch2).
Proof.
  intros H1 H2 Hp x. destruct (gd_reachable_inv _ _ (iv_reach _ H1)) as (W1 & _), (gd_reachable_inv _ _ (iv_reach _ H2)) as (W2 & _). cbn [fst] in *.
  unfold tips. rewrite !list_elem_of_filter, !referenced_elem, (wf_dom _ W1), (wf_dom _ W2). unfold parent_of. by rewrite Hp.
Qed.
(** Nodes with the same blocks agree on everything the blocks determine. *)
Lemma same_blocks_agree ch1 ch2 :
  chain_inv ch1 -> chain_inv ch2 -> same_blocks ch1 ch2 -> max_supply (core (node ch1)) = max_supply (core (node ch2)) ->
  virtual_tip (node ch1) = virtual_tip (node ch2) /\ ledger (core (node ch1)) = ledger (core (node ch2)) /\
  journals (core (node ch1)) = journals (core (node ch2)) /\ issued (core (node ch1)) = issued (core (node ch2)).
Proof.
  intros H1 H2 Hs Hm. pose proof (same_parents _ _ H1 H2 Hs) as Hp. pose proof (same_colorings _ _ H1 H2 Hs) as Hc.
  destruct (iv_tip _ H1) as (t1 & V1 & S1 & (hs1 & c1 & B1 & R1 & E1)), (iv_tip _ H2) as (t2 & V2 & S2 & (hs2 & c2 & B2 & R2 & E2)).
  assert (t1 = t2) as <-.
  { unfold select_virtual_tip in S1, S2. rewrite <- Hc in S2. rewrite (max_by_set_eq _ _ (filter (fun h => is_Some (coloring (ghostdag ch1) !! h)) (tips (dag ch2)))) in S1; [congruence|].
    intros x. rewrite !list_elem_of_filter. by rewrite (same_tips _ _ H1 H2 Hp). }
  pose proof (tip_in_dag _ _ H1 S1) as Ht.
  assert (hs1 = hs2) as <-.
  { enough (blues_in_order (dag ch1) (ghostdag ch1) t1 = blues_in_order (dag ch2) (ghostdag ch2) t1) as Hb by congruence.
    eapply blues_compatible; [apply (iv_reach _ H1)|apply (iv_reach _ H2)| | |intros x _; by rewrite Hc].
    - intros x p1 p2 P1 P2. rewrite Hp in P1. congruence.
    - split; [done|by rewrite <- Hp]. }
  assert (c2 = with_bodies c1 (bodies (core (node ch2)))) as ->.
  { enough (rfold (apply_block_to_virtual (ghostdag ch2) (genesis cfg) (emission cfg)) (chain_base ch2) hs1 = Ok (with_bodies c1 (bodies (core (node ch2))))) by congruence.
    replace (chain_base ch2) with (with_bodies (chain_base ch1) (bodies (core (node ch2)))) by (unfold with_bodies, chain_base; cbn; by rewrite Hm).
    eapply run_transport; [exact R1|]. intros h Hh Hg. split; [|unfold get_blue_score; by rewrite Hc]. cbn [bodies chain_base]. symmetry.
    apply (sb_load _ _ Hs); [|done]. by apply (blues_colored _ _ _ _ (iv_reach _ H1) B1). }
  destruct E1 as (L1 & J1 & I1 & _), E2 as (L2 & J2 & I2 & _). cbn in *. split_and!; congruence.
Qed.

(** Two runs over the same blocks agree. *)
Lemma runs_agree (ch0 : Chain) (l1 l2 : list (Z * Block)) :
  chain_inv ch0 ->
  (forall b b', b ∈ l1.*2 ++ l2.*2 -> b' ∈ l1.*2 ++ l2.*2 -> block_id (header b) = block_id (header b') -> b = b') ->
  let ch1 := admit_run ch0 l1 in let ch2 := admit_run ch0 l2 in
  (forall h, is_Some (parents (dag ch1) !! h) <-> is_Some (parents (dag ch2) !! h)) ->
  virtual_tip (node ch1) = virtual_tip (node ch2) /\ ledger (core (node ch1)) = ledger (core (node ch2)) /\
  journals (core (node ch1)) = journals (core (node ch2)) /\ issued (core (node ch1)) = issued (core (node ch2)).
Proof.
  intros Hi Hinj ch1 ch2 Hd. destruct (run_of_run ch0 l1 Hi) as [I1 O1 N1 M1], (run_of_run ch0 l2 Hi) as [I2 O2 N2 M2]. fold ch1 in I1, O1, N1, M1. fold ch2 in I2, O2, N2, M2.
  apply same_blocks_agree; [done|done| |congruence]. split; [done|]. intros h Hh Hg.
  destruct (parents (dag ch0) !! h) as [p|] eqn:E0; [|].
  { assert (is_Some (parents (dag ch0) !! h)) as Hs by (rewrite E0; by eexists). destruct (O1 h Hs) as [_ A1], (O2 h Hs) as [_ A2]. congruence. }
  destruct Hh as [p1 P1]. destruct (proj1 (Hd h)) as [p2 P2]; [by eexists|].
  destruct (iv_block _ I1 _ _ P1) as [?|(b1 & _ & L1 & _)]; [done|]. destruct (iv_block _ I2 _ _ P2) as [?|(b2 & _ & L2 & _)]; [done|].
  destruct (N1 h b1 E0) as [Hin1 Hb1]; [by eexists|done|]. destruct (N2 h b2 E0) as [Hin2 Hb2]; [by eexists|done|].
  rewrite L1, L2. f_equal. apply Hinj; [apply elem_of_app; by left|apply elem_of_app; by right|congruence].
Qed.

(** ** The chain at its genesis *)

Definition genesis_graph : Dag := mkDag [genesis cfg] {[genesis cfg := []]}.
Definition genesis_colors : Ghostdag := {| config := gcfg; coloring := {[genesis cfg := genesis_coloring (genesis cfg) genesis_work]} |}.
(** A node that has just written the genesis block. *)
Definition genesis_chain (hd : BlockHeader) (cap : Z) : Chain :=
  {| node := {| core := {| ledger := genesis_ledger; journals := ∅; issued := genesis_issued; issued_asset := genesis_issued;
                           max_supply := cap; bodies := ∅ |};
                virtual_tip := Some (genesis cfg); pending_virtual := None |};
     hot := ∅; archived := ∅; headers := {[genesis cfg := hd]}; stored_tips := [genesis cfg];
     ghostdag_records := match snapshot genesis_colors (genesis cfg) with Some s => {[genesis cfg := s]} | None => ∅ end;
     tx_inclusions := ∅; tx_primary := ∅; finality_records := empty_store; dag := genesis_graph; ghostdag := genesis_colors;
     difficulty := {| level := h_bits hd |}; stored_difficulty := Some (h_bits hd) |}.

Lemma genesis_reach : 1 <= genesis_work -> gd_reachable gcfg (genesis_graph, genesis_colors).
Proof.
  intros Hw. eapply rtc_l; [apply (gd_insert dag_new _ (genesis cfg) [] genesis_graph)|].
  { unfold dag_insert, contains. cbn. rewrite lookup_empty, bool_decide_eq_false_2 by (by intros [? ?]). cbn. by rewrite insert_empty. }
  eapply rtc_l; [|apply rtc_refl]. apply (gd_color _ _ (genesis cfg) genesis_work _ (data_of (genesis_coloring (genesis cfg) genesis_work) (genesis cfg))).
  unfold add_block_with_work, parents_of. cbn. rewrite lookup_empty. unfold parents_of. cbn. rewrite lookup_singleton_eq. cbn.
  rewrite Z.max_l by done. unfold set_coloring, genesis_colors. cbn. by rewrite insert_empty.
Qed.
Lemma genesis_tips : tips genesis_graph = [genesis cfg].
Proof.
  unfold tips. cbn [order genesis_graph]. rewrite filter_cons_True; [by rewrite filter_nil|]. rewrite referenced_elem.
  intros (b & ps & Hb & Hx). cbn in Hb. apply lookup_singleton_Some in Hb as [_ <-]. by apply elem_of_nil in Hx.
Qed.
Lemma genesis_blues : 1 <= genesis_work -> blues_in_order genesis_graph genesis_colors (genesis cfg) = Ok [genesis cfg].
Proof.
  intros Hw. destruct (gd_reachable_inv _ _ (genesis_reach Hw)) as (Hd & _). cbn [fst] in Hd.
  unfold blues_in_order, blue_order, order_past_view. cbn [coloring genesis_colors]. rewrite lookup_singleton_eq. cbn [ok_or].
  destruct (past_closure_spec genesis_graph (genesis cfg) Hd) as (s & -> & Hs); [cbn; rewrite lookup_singleton_eq; by eexists|].
  assert (s = {[genesis cfg]}) as ->.
  { apply set_eq. intros x. rewrite Hs, elem_of_singleton. split; [|intros ->; apply rtc_refl]. intros Hx.
    apply rtc_inv in Hx as [|(y & (ps & Hp & Hy) & _)]; [done|]. cbn in Hp. rewrite lookup_singleton_eq in Hp. injection Hp as <-. by apply elem_of_nil in Hy. }
  cbn [rbind]. rewrite elements_singleton. cbn. rewrite bool_decide_eq_true_2 by set_solver. by rewrite decide_True.
Qed.
Lemma genesis_chain_inv hd cap :
  1 <= genesis_work <= u128_max -> 0 <= genesis_issued <= u64_max -> cap <= u64_max -> ledger_ok genesis_ledger -> chain_inv (genesis_chain hd cap).
Proof.
  intros [Hw Hw'] Hi Hc Hlo. split; cbn [dag ghostdag node genesis_chain stored_tips archived headers pending_virtual virtual_tip].
  - by apply genesis_reach.
  - intros h [ps Hp]. cbn in Hp. apply lookup_singleton_Some in Hp as [<- _]. cbn. rewrite lookup_singleton_eq. by eexists.
  - intros h c H. cbn in H. apply lookup_singleton_Some in H as [_ <-]. done.
  - cbn. rewrite !lookup_singleton_eq. split; [done|]. by eexists.
  - intros h ps Hp. cbn in Hp. apply lookup_singleton_Some in Hp as [<- _]. by left.
  - intros h [b Hb]. unfold load_block in Hb. cbn in Hb. by rewrite lookup_empty in Hb.
  - by rewrite genesis_tips.
  - intros h c H. cbn in H. apply lookup_singleton_Some in H as [<- _]. cbn [ghostdag_records genesis_chain].
    assert (is_Some (snapshot genesis_colors (genesis cfg))) as [s ->] by (unfold snapshot; cbn; rewrite lookup_singleton_eq; by eexists).
    by rewrite lookup_singleton_eq.
  - done.
  - done.
  - exists (genesis cfg). split; [done|]. split.
    + rewrite genesis_tips. unfold select_virtual_tip. rewrite filter_cons_True; [done|]. cbn. rewrite lookup_singleton_eq. by eexists.
    + exists [genesis cfg], (chain_base (genesis_chain hd cap)). split; [by apply genesis_blues|]. split; [|done].
      cbn [rfold]. unfold apply_block_to_virtual. by rewrite Z.eqb_refl.
Qed.
End node.
