(* ===== verification/TltLedger.v ===== *)
(** * The node on its TLT lanes

    The ledger of transfers and covenants behind the interface of the reorgs: a
    block is executed in the virtual mode of [apply_block_batched_mode] and undone
    from its journal, which is exact.  With it the node is correct with no law
    assumed of its ledger: reorgs, crash recovery, admission and convergence, for
    blocks that carry transfers and covenants and no other lane. *)

From stdpp Require Import base gmap list fin_maps strings.
From Stdlib Require Import ZArith Lia.
From S2P Require Import Prelude Ordering Sums Types Dag Ghostdag GhostdagProps Daa Finality Store Utxo UtxoProps TltScript FinalityAdmit FinalityProps Reorg ReorgProps Covenant CovenantProps CovenantSafety Admit AdmitProps.
Local Open Scope Z_scope.

(** A block without data commitments or lanes other than those of TLT. *)
Abbreviation TltBlock := (@Block Empty_set unit).
(** Address outputs and script records. *)
Abbreviation TltState := (UtxoSet * CovenantSet)%type.

Section tlt_ledger.
Context `{SC : ScriptCrypto} {Auth : Type}.
Variable covenant_tx_id : TltCovenantTx -> Hash.
Variable covenant_len : TltCovenantTx -> Z.
Variable sighash_preimage : TltCovenantTx -> Bytes.
Variable sighash_preimage_bound : TltCovenantTx -> Auth -> Bytes.
Variable verify_transaction_bound : Transaction -> Auth -> result StateError unit.
Variable address_from_pubkey : list Z -> Address.
Variable signer_address : Transaction -> result StateError Address.
Variable tx_id : Transaction -> Hash.
Variable auth : option Auth.
(** The timestamp of the header with an id, which the node stores before any child. *)
Variable header_time : Hash -> option Z.

Definition tlt_exec (l : TltState) (b : TltBlock) (emission_reward blue_score : Z) : result StateError (TltState * CovenantJournal) :=
  let? (ub, cb, j, _) := apply_tlt_block covenant_tx_id covenant_len sighash_preimage sighash_preimage_bound verify_transaction_bound
    address_from_pubkey signer_address tx_id Virtual auth l.1 l.2 (transactions b) (tlt_covenants b) emission_reward blue_score
    (block_median_time_secs header_time (h_parents (header b)) (h_timestamp_ms (header b))) in
  Ok ((write_utxos l.1 ub, write_covenants l.2 cb), j).
Definition tlt_undo (l : TltState) (j : CovenantJournal) : TltState :=
  (write_utxos l.1 (revert_utxos (cj_utxo j)), write_covenants l.2 (revert_covenant_outputs j)).
Definition tlt_ledger : Ledger TltState TltBlock CovenantJournal :=
  {| exec := tlt_exec; undo := tlt_undo; journal_subsidy j := subsidy (cj_utxo j);
     ledger_ok l := lawful covenant_tx_id tx_id l.1 l.2 |}.

(** No two transactions have one id. *)
Hypothesis tx_id_inj : forall t t', tx_id t = tx_id t' -> t = t'.
Hypothesis covenant_id_inj : forall t t', covenant_tx_id t = covenant_tx_id t' -> t = t'.
Hypothesis ids_apart : forall t t', tx_id t <> covenant_tx_id t'.
Lemma tlt_ledger_laws : @LedgerLaws _ _ _ tlt_ledger.
Proof.
  split; intros [u c] b em sc l' j Hl He H; cbn [exec ledger_ok undo journal_subsidy tlt_ledger fst snd] in *; unfold tlt_exec in H; cbn [fst snd] in H;
    apply rbind_Ok in H as ([[[ub cb] j'] stats] & H & H'); apply Ok_inj, pair_eq in H' as [<- <-]; cbn [fst snd].
  - exact (covenant_block_lawful _ _ _ _ _ _ _ _ tx_id_inj covenant_id_inj ids_apart _ _ _ _ _ Hl _ _ _ _ _ _ _ He H).
  - destruct (apply_block_passes _ _ _ _ _ _ _ _ tx_id_inj covenant_id_inj ids_apart _ _ _ _ _ Hl _ _ _ _ _ _ _ He H)
      as (bs & pr & s & a & P & _ & _ & _ & -> & -> & Ec & Es & Eu & Esp & _).
    destruct P as [Hi _ _ _ _ _ _]. unfold tlt_undo. cbn [fst snd]. f_equal; [by apply (revert_inv u (ca_utxo a) _ (ci_utxo _ _ _ _ _ Hi))|].
    by apply (covenant_revert covenant_tx_id tx_id u c a).
  - destruct (apply_block_passes _ _ _ _ _ _ _ _ tx_id_inj covenant_id_inj ids_apart _ _ _ _ _ Hl _ _ _ _ _ _ _ He H)
      as (bs & pr & s & a & _ & _ & _ & Hle & _ & _ & _ & _ & _ & _ & _ & ->). unfold saturating_sub. lia.
Qed.
End tlt_ledger.

Section tlt_node.
Context `{SC : ScriptCrypto} {Auth : Type}.
Variable covenant_tx_id : TltCovenantTx -> Hash.
Variable covenant_len : TltCovenantTx -> Z.
Variable sighash_preimage : TltCovenantTx -> Bytes.
Variable sighash_preimage_bound : TltCovenantTx -> Auth -> Bytes.
Variable verify_transaction_bound : Transaction -> Auth -> result StateError unit.
Variable address_from_pubkey : list Z -> Address.
Variable signer_address : Transaction -> result StateError Address.
Variable tx_id : Transaction -> Hash.
Variable auth : option Auth.
Variable header_time : Hash -> option Z.
Hypothesis tx_id_inj : forall t t', tx_id t = tx_id t' -> t = t'.
Hypothesis covenant_id_inj : forall t t', covenant_tx_id t = covenant_tx_id t' -> t = t'.
Hypothesis ids_apart : forall t t', tx_id t <> covenant_tx_id t'.
#[local] Instance ledger_of_tlt : Ledger TltState TltBlock CovenantJournal :=
  tlt_ledger covenant_tx_id covenant_len sighash_preimage sighash_preimage_bound verify_transaction_bound address_from_pubkey signer_address
    tx_id auth header_time.
#[local] Instance laws_of_tlt : LedgerLaws TltState TltBlock CovenantJournal :=
  tlt_ledger_laws _ _ _ _ _ _ _ _ _ _ tx_id_inj covenant_id_inj ids_apart.

(** ** Reorgs *)

Section tlt_reorg.
Variable d : Dag.
Variable g : Ghostdag.
Variable gen : Hash.
Variable em : EmissionSchedule.
Hypothesis em_nonneg : 0 <= initial_reward em.
Variable gcfg : GhostdagConfig.
Hypothesis reachable : gd_reachable gcfg (d, g).
(** The store at genesis: no block applied, addresses and scripts apart. *)
Variable base : @Core TltState TltBlock CovenantJournal.
Hypothesis base_ok : core_ok base.
Hypothesis base_fresh : journals base = ∅.
Abbreviation NodeStore := (@NodeStore TltState TltBlock CovenantJournal).

(** C7: Reorgs over the TLT lanes are exact and atomic.  For blocks of transfers
    and covenants, from a store synced to the old tip, a reorg succeeds exactly
    when the blues of the new tip apply in order to the genesis store; then the
    store is synced to the new tip, with the tip recorded and the marker cleared.
    Otherwise the store is rolled back to what it was, at the old tip, with the
    marker cleared.  Undoing blocks is the code's journal replay; transaction ids
    are assumed not to collide. *)
Theorem reorg_correct (ns : NodeStore) old new target ns' r :
  synced d g gen em base (core ns) old -> old <> new -> blues_in_order d g new = Ok target ->
  reorg_utxo_to_virtual d g gen em ns old new = (ns', r) ->
  (r = Ok tt <-> exists c, rfold (apply_block_to_virtual g gen em) base target = Ok c) /\
  (r = Ok tt -> synced d g gen em base (core ns') new /\ virtual_tip ns' = Some new /\ pending_virtual ns' = None) /\
  (forall e, r = Err e -> core ns' ≡ core ns /\ virtual_tip ns' = Some old /\ pending_virtual ns' = None).
Proof. by eapply reorg_outcome. Qed.

(** C8: An interrupted reorg over the TLT lanes is finished on restart.  For blocks
    of transfers and covenants, if a reorg would succeed, the process stops after
    its unapplies and any number of its applies, and no block it applied again is
    one it had undone, then recovery succeeds and leaves exactly the store the
    uninterrupted reorg leaves.  Transaction ids are assumed not to collide. *)
Theorem crash_recovery (ns : NodeStore) old new applied target n ns' crashed :
  synced d g gen em base (core ns) old -> default gen (virtual_tip ns) = old -> old <> new ->
  blues_in_order d g old = Ok applied -> blues_in_order d g new = Ok target ->
  let k := common_prefix_len applied target in
  (forall h, h ∈ drop k applied -> h ∉ take n (drop k target)) ->
  reorg_utxo_to_virtual d g gen em ns old new = (ns', Ok tt) ->
  crash_after d g gen em ns old new n = Ok crashed ->
  recover_pending_virtual d g gen em crashed = (ns', Ok tt).
Proof. by eapply recovery_outcome. Qed.
End tlt_reorg.

(** ** Admission *)

Section tlt_admission.
Variable cfg : ChainConfig.
Variable preview_hash : list Hash -> Z -> Hash.
Variable block_id : BlockHeader -> Hash.
Variable compute_body_root block_len : TltBlock -> Z.
Variable tx_len : Transaction -> Z.
Variable randomx_zero_bits : BlockHeader -> Z -> Z.
Variable kheavy_zero_bits : BlockHeader -> Z.
Variable parent_tag : list Hash -> Z.
Variable authorization_id : Empty_set -> Hash.
Variable meta_of : TltState -> StateStore.
Variable compose_trident_state_root : StateStore -> Hash -> Hash.
Hypothesis em_nonneg : 0 <= initial_reward (emission cfg).
(** The node keeps old bodies. *)
Hypothesis archival_node : archival (storage cfg) = true.
Variable gcfg : GhostdagConfig.
Variable genesis_ledger : TltState.
Variable genesis_issued genesis_work : Z.
Abbreviation Chain := (@Chain Empty_set unit TltState CovenantJournal).
Abbreviation created_by := (fun j => created (cj_utxo j)).
Abbreviation node_ok := (chain_inv cfg block_id gcfg genesis_ledger genesis_issued genesis_work).
Abbreviation try_block := (admit_block cfg preview_hash block_id compute_body_root block_len tx_len covenant_len randomx_zero_bits
  kheavy_zero_bits parent_tag tx_id covenant_tx_id authorization_id created_by meta_of compose_trident_state_root).
Abbreviation admitted := (admits cfg preview_hash block_id compute_body_root block_len tx_len covenant_len randomx_zero_bits
  kheavy_zero_bits parent_tag created_by gcfg genesis_ledger genesis_issued genesis_work).
Abbreviation node_run := (admit_run cfg preview_hash block_id compute_body_root block_len tx_len covenant_len randomx_zero_bits
  kheavy_zero_bits parent_tag tx_id covenant_tx_id authorization_id created_by meta_of compose_trident_state_root).

(** C2: Admission is all or nothing.  On an archival node over the TLT lanes
    (blocks of transfers and covenants), a rejected block leaves the node exactly
    as it was, memory and disk.  An accepted one has passed every check, is stored
    and in the DAG under its id, and the node is sound again: every block coloured
    as GHOSTDAG says, the recorded tips those of the DAG, the virtual tip the best
    of them, no reorg pending, and the ledger exactly what applying the blues of
    that tip to the genesis ledger gives.  In particular the reorg after the
    durable write never fails: the overlay proof promises it.  Transaction ids are
    assumed not to collide. *)
Theorem admit_block_correct (now : Z) (ch : Chain) (b : TltBlock) (ch' : Chain) (r : result AdmitError Hash) :
  node_ok ch -> try_block now ch b = (ch', r) ->
  (exists e, r = Err e /\ ch' = ch) \/ (r = Ok (block_id (header b)) /\ admitted now ch b ch').
Proof. by eapply admit_step. Qed.

(** C3: Nodes converge.  Two archival nodes over the TLT lanes (blocks of transfers
    and covenants) that started from the same state and were given blocks in any
    order, at any times, with any rejected blocks between, hold the same virtual
    tip, the same ledger, the same journals and the same issued supply as soon as
    they have admitted the same set of blocks, unless two blocks or two
    transactions collide under the hash. *)
Theorem nodes_converge (ch0 : Chain) (l1 l2 : list (Z * TltBlock)) :
  node_ok ch0 ->
  (forall b b', b ∈ l1.*2 ++ l2.*2 -> b' ∈ l1.*2 ++ l2.*2 -> block_id (header b) = block_id (header b') -> b = b') ->
  let ch1 := node_run ch0 l1 in let ch2 := node_run ch0 l2 in
  (forall h, is_Some (parents (dag ch1) !! h) <-> is_Some (parents (dag ch2) !! h)) ->
  virtual_tip (node ch1) = virtual_tip (node ch2) /\ ledger (core (node ch1)) = ledger (core (node ch2)) /\
  journals (core (node ch1)) = journals (core (node ch2)) /\ issued (core (node ch1)) = issued (core (node ch2)).
Proof. by eapply runs_agree. Qed.

(** The times a block's median is taken of are there, and stay: a sound node holds
    the header of every parent of a block it holds, so the median it computes
    from its store is the one of the ids. *)
Lemma median_of_store (ch : Chain) (b : TltBlock) h :
  node_ok ch -> parents (dag ch) !! h = Some (h_parents (header b)) -> is_Some (headers ch !! genesis cfg) ->
  (forall p hd, headers ch !! p = Some hd -> header_time p = Some (h_timestamp_ms hd)) ->
  block_median_time_secs (fun p => h_timestamp_ms <$> headers ch !! p) (h_parents (header b)) (h_timestamp_ms (header b)) =
  block_median_time_secs header_time (h_parents (header b)) (h_timestamp_ms (header b)).
Proof.
  intros Hi Hp Hg Ht. unfold block_median_time_secs.
  assert (omap (fun p => (fun t => t / 1000) <$> (h_timestamp_ms <$> headers ch !! p)) (h_parents (header b)) =
    omap (fun p => (fun t => t / 1000) <$> header_time p) (h_parents (header b))) as ->; [|done].
  apply list_omap_ext, Forall_Forall2_diag, Forall_forall. intros p Hin.
  destruct (gd_reachable_inv _ _ (iv_reach _ _ _ _ _ _ _ Hi)) as (Hw & _). cbn [fst] in Hw.
  assert (is_Some (headers ch !! p)) as [hd Hh]; [|by rewrite Hh, (Ht _ _ Hh)].
  destruct (wf_parents_dom _ h p Hw) as [ps Hps]; [by eexists|].
  destruct (iv_block _ _ _ _ _ _ _ Hi _ _ Hps) as [->|(b' & c & _ & Hh & _)]; [done|by eexists].
Qed.
End tlt_admission.
End tlt_node.
