(* ===== verification/AdmitExamples.v ===== *)
(** * The node on its TLT lanes: concrete runs

    Reorgs, a crash and three blocks admitted in two orders, over the ledger of
    transfers and covenants; what goes wrong when a crash interrupts a reorg that
    applies a block again. *)

From stdpp Require Import base gmap list fin_maps strings.
From Stdlib Require Import ZArith Lia.
From S2P Require Import Prelude Ordering Sums Types Dag Ghostdag GhostdagProps Daa Finality Store Utxo UtxoProps TltScript TltScriptProps FinalityAdmit FinalityProps Reorg ReorgProps Covenant CovenantProps CovenantSafety Admit AdmitProps TltLedger.
Local Open Scope Z_scope.

(** ** A ledger *)

Definition demo_emission : EmissionSchedule := {| initial_reward := 50; halving_interval := 100 |}.
#[export] Instance demo_tlt : Ledger TltState TltBlock CovenantJournal :=
  tlt_ledger (Auth := unit) demo_covenant_id (fun _ => 0) (fun _ => [7]) (fun _ _ => [7]) (fun _ _ => Ok tt) (fun _ => 0) owner_7 demo_tx_id None
    (fun _ => Some 0).
#[export] Instance demo_tlt_laws : LedgerLaws TltState TltBlock CovenantJournal :=
  tlt_ledger_laws _ _ _ _ _ _ _ _ _ _ demo_tx_id_inj demo_covenant_id_inj demo_ids_apart.
Definition demo_genesis_ledger : TltState := (demo_utxos, demo_scripts).
Lemma demo_genesis_lawful : lawful demo_covenant_id demo_tx_id demo_utxos demo_scripts.
Proof.
  unfold demo_utxos, demo_scripts. split.
  - intros op o r [<- _]%lookup_singleton_Some [H _]%lookup_singleton_Some. discriminate H.
  - intros op r [<- _]%lookup_singleton_Some. split; [by intros [t [=]]|]. intros (tx & n & out & (_ & _ & H) & _). discriminate H.
  - intros op o [<- _]%lookup_singleton_Some (tx & n & out & (_ & _ & H) & _). discriminate H.
Qed.
Definition node_header (id : Hash) (ps : list Hash) (ts : Z) : BlockHeader :=
  {| h_version := 1; h_parents := ps; h_timestamp_ms := ts; h_bits := 0; h_nonce := id; h_tx_root := 0 |}.
Definition node_block (id : Hash) (ps : list Hash) (ts : Z) (txs : list Transaction) (cs : list TltCovenantTx) : TltBlock :=
  {| header := node_header id ps ts; transactions := demo_tx ts [] [demo_out 50 9] :: txs; tlt_covenants := cs; data_commitments := []; lanes := tt |}.
(** The swap is claimed by its preimage and locked again, for a fee of 5. *)
Definition relock : TltCovenantTx :=
  demo_covenant 1 [cov_in 0 (written [alice; [42]; [1]])] [{| co_value := 45; co_script_pubkey := swap_lock |}].

(** ** Reorgs *)

(** Genesis 0 with children 1 and 2; block 3 merges them.  Block 1
    carries a covenant, block 2 pays to itself, and block 3 spends the output
    block 2 made. *)
Definition merge_state : Dag * Ghostdag :=
  node_state default_config [(0, [], 1); (2, [0], 1); (1, [0], 1); (3, [1; 2], 1)].
Definition pay_2 : Transaction := demo_tx 1 [demo_in 1 0] [demo_out 100 7].
Definition demo_bodies : gmap Hash TltBlock :=
  list_to_map [(1, node_block 1 [0] 11 [] [relock]); (2, node_block 2 [0] 12 [pay_2] []);
               (3, node_block 3 [1; 2] 13 [demo_tx 2 [demo_in (demo_tx_id pay_2) 0] [demo_out 100 8]] [])].
Definition demo_base : @Core TltState TltBlock CovenantJournal :=
  {| ledger := demo_genesis_ledger; journals := ∅; issued := 150; issued_asset := 150; max_supply := 1000;
     bodies := demo_bodies |}.
Definition demo_at (tip : Hash) : NodeStore :=
  {| core := match rfold (apply_block_to_virtual merge_state.2 0 demo_emission) demo_base
                     (match blues_in_order merge_state.1 merge_state.2 tip with Ok l => l | Err _ => [] end) with
             | Ok c => c | Err _ => demo_base end;
     virtual_tip := Some tip; pending_virtual := None |}.
Definition demo_reorg := reorg_utxo_to_virtual (L := TltState) merge_state.1 merge_state.2 0 demo_emission.
Definition demo_crash := crash_after (L := TltState) merge_state.1 merge_state.2 0 demo_emission.
Definition demo_recover := recover_pending_virtual (L := TltState) merge_state.1 merge_state.2 0 demo_emission.

(** The TLT held at addresses and by scripts. *)
Definition held (l : TltState) : Z := tlt_supply l.1 l.2.
Lemma merge_reachable : gd_reachable default_config (merge_state.1, merge_state.2).
Proof.
  apply (admit_all_reachable _ [(0, [], 1); (2, [0], 1); (1, [0], 1); (3, [1; 2], 1)]).
  vm_compute. reflexivity.
Qed.
Lemma demo_base_ok : core_ok demo_base.
Proof. unfold core_ok, u64_max. cbn [max_supply issued ledger demo_base]. split_and!; [lia|lia|lia|exact demo_genesis_lawful]. Qed.
Lemma demo_synced : synced merge_state.1 merge_state.2 0 demo_emission demo_base (core (demo_at 2)) 2.
Proof.
  exists [0; 2].
  assert (match rfold (apply_block_to_virtual merge_state.2 0 demo_emission) demo_base [0; 2] with
          | Ok _ => True | Err _ => False end) as H by (vm_compute; exact I).
  destruct (rfold (apply_block_to_virtual merge_state.2 0 demo_emission) demo_base [0; 2]) as [c|] eqn:E; [|destruct H].
  assert (blues_in_order merge_state.1 merge_state.2 2 = Ok [0; 2]) as Hb by (vm_compute; reflexivity).
  exists c. split; [exact Hb|]. split; [reflexivity|]. unfold demo_at. cbn [core]. by rewrite Hb, E.
Qed.

Lemma reorg_correct_witness :
  exists ns', demo_reorg (demo_at 2) 2 3 = (ns', Ok tt) /\ virtual_tip ns' = Some 3.
Proof.
  assert (blues_in_order merge_state.1 merge_state.2 3 = Ok [0; 1; 2; 3]) as Hb by (vm_compute; reflexivity).
  assert ((demo_reorg (demo_at 2) 2 3).2 = Ok tt) as Hr by (vm_compute; reflexivity).
  destruct (demo_reorg (demo_at 2) 2 3) as [ns' r] eqn:E. cbn [snd] in Hr. subst r.
  destruct (reorg_correct _ _ _ _ _ _ _ _ _ _ demo_tx_id_inj demo_covenant_id_inj demo_ids_apart merge_state.1 merge_state.2 0 demo_emission ltac:(cbn; lia) default_config
    merge_reachable demo_base demo_base_ok eq_refl (demo_at 2) 2 3 _ ns' _ demo_synced ltac:(lia) Hb E) as (_ & H & _).
  exists ns'. split; [reflexivity|]. by apply H.
Defined.
Lemma crash_recovery_witness :
  exists ns crashed, demo_reorg (demo_at 2) 2 1 = (ns, Ok tt) /\ demo_crash (demo_at 2) 2 1 1 = Ok crashed /\
    demo_recover crashed = (ns, Ok tt).
Proof.
  assert (blues_in_order merge_state.1 merge_state.2 2 = Ok [0; 2]) as Hb2 by (vm_compute; reflexivity).
  assert (blues_in_order merge_state.1 merge_state.2 1 = Ok [0; 1]) as Hb1 by (vm_compute; reflexivity).
  assert ((demo_reorg (demo_at 2) 2 1).2 = Ok tt) as Hr by (vm_compute; reflexivity).
  destruct (demo_reorg (demo_at 2) 2 1) as [ns r] eqn:E. cbn [snd] in Hr. subst r.
  assert (match demo_crash (demo_at 2) 2 1 1 with Ok _ => True | Err _ => False end) as Hc by (vm_compute; exact I).
  destruct (demo_crash (demo_at 2) 2 1 1) as [crashed|] eqn:Ec; [|destruct Hc].
  exists ns, crashed. split; [reflexivity|]. split; [reflexivity|].
  refine (crash_recovery _ _ _ _ _ _ _ _ _ _ demo_tx_id_inj demo_covenant_id_inj demo_ids_apart merge_state.1 merge_state.2 0 demo_emission ltac:(cbn; lia) default_config
    merge_reachable demo_base demo_base_ok eq_refl (demo_at 2) 2 1 [0; 2] [0; 1] 1 ns crashed demo_synced
    eq_refl ltac:(lia) Hb2 Hb1 _ E Ec).
  cbn [common_prefix_len Z.eqb drop take]. clear. intros h Hh Hh'.
  apply list_elem_of_singleton in Hh, Hh'. congruence.
Defined.

(** recovery can mint TLT when a block is undone and applied again
    (finding).  The reorg from tip 2 to tip 3 undoes block 2 and applies
    1, 2, 3; if the process stops after the last apply and before the tip is
    recorded, recovery undoes block 2 under block 3, applies it again and skips
    3: the output that 3 spent is back, and the unspent set holds 100 more than
    the supply issued, against the exact set an uninterrupted reorg leaves. *)
Theorem recovery_can_mint :
  exists ns crashed ns',
    demo_reorg (demo_at 2) 2 3 = (ns, Ok tt) /\
    held (ledger (core ns)) = 295 /\ issued (core ns) = 295 /\
    demo_crash (demo_at 2) 2 3 3 = Ok crashed /\
    held (ledger (core crashed)) = 295 /\
    demo_recover crashed = (ns', Ok tt) /\
    held (ledger (core ns')) = 395 /\ issued (core ns') = 295.
Proof.
  assert ((fun p => (p.2, held (ledger (core p.1)), issued (core p.1))) (demo_reorg (demo_at 2) 2 3)
    = (Ok tt, 295, 295)) as H1 by (vm_compute; reflexivity).
  assert (match demo_crash (demo_at 2) 2 3 3 with
          | Ok ns => let p := demo_recover ns in
                     (held (ledger (core ns)), p.2, held (ledger (core p.1)), issued (core p.1))
                     = (295, Ok tt, 395, 295)
          | Err _ => False end) as H2 by (vm_compute; reflexivity).
  destruct (demo_reorg (demo_at 2) 2 3) as [ns r]. cbn [fst snd] in H1. injection H1 as -> ? ?.
  destruct (demo_crash (demo_at 2) 2 3 3) as [crashed|]; [|destruct H2]. cbv zeta in H2.
  destruct (demo_recover crashed) as [ns' r'] eqn:E. cbn [fst snd] in H2. injection H2 as ? -> ? ?.
  exists ns, crashed, ns'. rewrite E. auto 10.
Qed.

(** ** A node *)

Definition node_config : ChainConfig :=
  {| genesis := 0; pow := KHeavyHash; emission := demo_emission;
     daa := {| target_block_time_ms := 1000; window_size := 90; max_adjustment_bits := 1; min_level := 0; max_level := 128 |};
     storage := default_storage; limits := default_limits; auth_chain_id := None; policy_hash := 0;
     finality_policy := default_pow_policy |}.
(** The id of a demo block is its nonce. *)
Definition node_admit (now : Z) (ch : Chain) (b : TltBlock) : Chain * result AdmitError Hash :=
  admit_block node_config (fun _ _ => 1000) h_nonce (fun _ => 0) (fun _ => 0) (fun _ => 0) (fun _ => 0) (fun _ _ => 0) (fun _ => 0) (fun _ => 0)
    demo_tx_id demo_covenant_id (fun _ => 0) (fun j => created (cj_utxo j)) (fun _ => empty_store) (fun _ _ => 0) now ch b.
Definition node_run (ch : Chain) (l : list (Z * TltBlock)) : Chain :=
  admit_run node_config (fun _ _ => 1000) h_nonce (fun _ => 0) (fun _ => 0) (fun _ => 0) (fun _ => 0) (fun _ _ => 0) (fun _ => 0) (fun _ => 0)
    demo_tx_id demo_covenant_id (fun _ => 0) (fun j => created (cj_utxo j)) (fun _ => empty_store) (fun _ _ => 0) ch l.
Definition node_start : @Chain Empty_set unit TltState CovenantJournal := genesis_chain node_config default_config demo_genesis_ledger 150 1 (node_header 0 [] 0) 1000.
Definition block_1 : TltBlock := node_block 1 [0] 1000 [] [relock].
Definition block_2 : TltBlock := node_block 2 [0] 2000 [pay_2] [].
Definition block_3 : TltBlock := node_block 3 [1; 2] 3000 [] [].
Definition one_order : list (Z * TltBlock) := [(9000, block_1); (9000, block_2); (9000, block_3)].
(** Block 3 comes too early and is rejected, then again. *)
Definition other_order : list (Z * TltBlock) := [(8000, block_2); (8000, block_3); (8001, block_1); (9500, block_3)].

Lemma node_start_inv : chain_inv node_config h_nonce default_config demo_genesis_ledger 150 1 node_start.
Proof. apply genesis_chain_inv; [unfold u128_max, u64_max; cbn; lia..|exact demo_genesis_lawful]. Qed.
Lemma admit_block_correct_witness :
  exists ch', node_admit 9000 node_start block_1 = (ch', Ok 1) /\ virtual_tip (node ch') = Some 1 /\
    chain_inv node_config h_nonce default_config demo_genesis_ledger 150 1 ch'.
Proof.
  assert ((node_admit 9000 node_start block_1).2 = Ok 1 /\ virtual_tip (node (node_admit 9000 node_start block_1).1) = Some 1) as [H1 H2] by (split; vm_compute; reflexivity).
  destruct (node_admit 9000 node_start block_1) as [ch' r] eqn:E. cbn [fst snd] in H1, H2. subst r. exists ch'. split; [reflexivity|]. split; [exact H2|].
  destruct (admit_block_correct _ _ _ _ _ _ _ _ _ _ demo_tx_id_inj demo_covenant_id_inj demo_ids_apart node_config _ _ _ _ _ _ _ _ _ _ _ ltac:(cbn; lia) eq_refl default_config demo_genesis_ledger 150 1 _ _ _ _ _ node_start_inv E) as [(e & H & _)|[_ H]]; [discriminate H|exact (ad_inv _ _ _ _ _ _ _ _ _ _ _ _ _ _ _ _ _ _ _ H)].
Defined.
Lemma nodes_converge_witness :
  virtual_tip (node (node_run node_start one_order)) = Some 3 /\
  ledger (core (node (node_run node_start one_order))) = ledger (core (node (node_run node_start other_order))).
Proof.
  split; [vm_compute; reflexivity|].
  refine (proj1 (proj2 (nodes_converge _ _ _ _ _ _ _ _ _ _ demo_tx_id_inj demo_covenant_id_inj demo_ids_apart node_config _ _ _ _ _ _ _ _ _ _ _ ltac:(cbn; lia) eq_refl default_config demo_genesis_ledger 150 1 node_start one_order other_order node_start_inv _ _))).
  - intros b b' Hb Hb' E. cbn in Hb, Hb'. rewrite !elem_of_cons in Hb, Hb'. destruct Hb as [->|[->|[->|[->|[->|[->|[->|Hb]]]]]]];
      destruct Hb' as [->|[->|[->|[->|[->|[->|[->|Hb']]]]]]]; try (apply elem_of_nil in Hb; destruct Hb); try (apply elem_of_nil in Hb'; destruct Hb'); (reflexivity || discriminate E).
  - enough (parents (dag (node_run node_start one_order)) = parents (dag (node_run node_start other_order))) as H
      by (intros h; change (is_Some (parents (dag (node_run node_start one_order)) !! h) <-> is_Some (parents (dag (node_run node_start other_order)) !! h)); rewrite H; done).
    vm_compute. reflexivity.
Defined.

(** Two siblings carry the same transfer.  The chain keeps block 4, but the
    later side block 2 takes over the location shown for the transfer, which
    [reorg_utxo_to_virtual] does not refresh when the tip stays: the transfer is
    confirmed by block 4 and reported in a block with no confirmation. *)
Definition block_4 : TltBlock := node_block 4 [0] 2100 [pay_2] [].
Definition sibling_order : list (Z * TltBlock) := [(9000, block_4); (9000, block_2)].
Theorem side_block_takes_location :
  let ch := node_run node_start sibling_order in
  virtual_tip (node ch) = Some 4 /\ confirmations node_config ch 4 = Some 1 /\
  lookup_tx_location ch (demo_tx_id pay_2) = Some (2, 1) /\ confirmations node_config ch 2 = None.
Proof. split_and!; vm_compute; reflexivity. Qed.
