(* ===== verification/AdmitRestart.v ===== *)
(** * Restarting a node

    A restarted node rebuilds its DAG and colouring from the recorded tips, the
    stored headers and the colouring records.  It gets back the graph it had. *)

From stdpp Require Import base gmap list fin_maps strings.
From Stdlib Require Import ZArith Lia.
From S2P Require Import Prelude Ordering Sums Types Dag Ghostdag GhostdagProps Daa Finality Store Utxo UtxoProps TltScript FinalityAdmit FinalityProps Reorg ReorgProps Covenant CovenantProps CovenantSafety Admit AdmitProps TltLedger AdmitExamples.
Local Open Scope Z_scope.

(** ** Sums and DAGs *)

Lemma nsum_le {V W : Type} (f : Hash -> V -> nat) (g : Hash -> W -> nat) (m1 : gmap Hash V) (m2 : gmap Hash W) :
  (forall k v, m1 !! k = Some v -> exists w, m2 !! k = Some w /\ (f k v <= g k w)%nat) -> (nsum f m1 <= nsum g m2)%nat.
Proof.
  revert m2. induction m1 as [|k v m1 Hk IH] using map_ind; intros m2 H; [unfold nsum; rewrite map_fold_empty; lia|].
  destruct (H k v) as (w & Hw & Hle); [apply lookup_insert_eq|].
  rewrite (nsum_delete f k v (<[k := v]> m1)) by apply lookup_insert_eq. rewrite delete_insert_id by done.
  rewrite (nsum_delete g k w m2) by done. apply Nat.add_le_mono; [done|]. apply IH. intros k' v' Hk'.
  assert (k <> k') by (intros ->; congruence). rewrite lookup_delete_ne by done. apply H. by rewrite lookup_insert_ne.
Qed.
(** Every block lies below a tip. *)
Lemma below_tip d h : wf_dag d -> is_Some (parents d !! h) -> exists t, t ∈ tips d /\ past d t h.
Proof.
  intros Hw Hh. assert (h ∈ order d) as (l1 & l2 & Ho)%list_elem_of_split by (by apply (wf_dom d Hw)). clear Hh.
  remember (length l2) as n eqn:En. revert h l1 l2 Ho En. induction n as [n IH] using lt_wf_ind. intros h l1 l2 Ho ->.
  destruct (decide (h ∈ referenced d)) as [Hr|Hr].
  - apply referenced_elem in Hr as (b & Hb). pose proof Hb as (ps & Hps & Hp).
    assert (b ∈ order d) as (k1 & k2 & Hk)%list_elem_of_split by (apply (wf_dom d Hw); by eexists).
    assert (h ∈ k1) as (a & a' & ->)%list_elem_of_split by (by eapply (wf_topo d Hw)).
    assert (length l1 = length a) as Hla.
    { eapply (NoDup_lookup (order d)); [apply (wf_nodup d Hw)| |].
      - rewrite Ho. by apply list_lookup_middle.
      - rewrite Hk, <- app_assoc. by apply list_lookup_middle. }
    pose proof (f_equal length Ho) as L1. pose proof (f_equal length Hk) as L2. rewrite !length_app in L1, L2. cbn in L1, L2. rewrite !length_app in L2. cbn in L2.
    destruct (IH (length k2) ltac:(lia) b _ _ Hk eq_refl) as (t & Ht & Hpast). exists t. split; [done|].
    eapply rtc_r; [exact Hpast|done].
  - exists h. split; [|apply rtc_refl]. apply list_elem_of_filter. split; [done|]. rewrite Ho. apply elem_of_app. right. left.
Qed.

Section restart.
Context {Da Lanes L J : Type} `{!Ledger L (@Block Da Lanes) J}.
Abbreviation Chain := (@Chain Da Lanes L J).
Variable cfg : ChainConfig.
Variable block_id : BlockHeader -> Hash.
Variable gcfg : GhostdagConfig.
Variable genesis_ledger : L.
Variable genesis_issued genesis_work : Z.
Abbreviation inv := (chain_inv cfg block_id gcfg genesis_ledger genesis_issued genesis_work).

(** ** The walk from the tips *)

Lemma rebuild_parents (ch : Chain) h ps :
  inv ch -> parents (dag ch) !! h = Some ps -> h <> genesis cfg -> load_parents_for_rebuild ch h = Ok ps.
Proof.
  intros Hi Hp Hg. destruct (iv_block _ _ _ _ _ _ _ Hi _ _ Hp) as [?|(b & c & Hb & _ & _ & <- & _)]; [done|].
  unfold load_parents_for_rebuild. by rewrite Hb.
Qed.
(** What the walk keeps: pending blocks are blocks of the DAG, and what is missing
    is on the stack. *)
Record walking (ch : Chain) (stack : list Hash) (pend : gmap Hash (list Hash)) : Prop := {
  wk_stack x : x ∈ stack -> is_Some (parents (dag ch) !! x);
  wk_pend h ps : pend !! h = Some ps -> h <> genesis cfg /\ parents (dag ch) !! h = Some ps;
  wk_closed x p : is_Some (pend !! x) -> parent_of (dag ch) x p -> p = genesis cfg \/ is_Some (pend !! p) \/ p ∈ stack;
  wk_tips t : t ∈ tips (dag ch) -> t = genesis cfg \/ is_Some (pend !! t) \/ t ∈ stack;
}.
Lemma walking_done ch pend : inv ch -> walking ch [] pend -> pend = delete (genesis cfg) (parents (dag ch)).
Proof.
  intros Hi [_ Hp Hc Ht]. destruct (gd_reachable_inv _ _ (iv_reach _ _ _ _ _ _ _ Hi)) as (Hw & _). cbn [fst] in Hw.
  assert (Hpast : forall t h, past (dag ch) t h -> t = genesis cfg \/ is_Some (pend !! t) -> h = genesis cfg \/ is_Some (pend !! h)).
  { intros t h H. induction H as [|t x h (ps & Hps & Hx) _ IH]; [done|]. intros Hx'. apply IH.
    destruct Hx' as [->|Hx'].
    - destruct (iv_genesis _ _ _ _ _ _ _ Hi) as [Hg _]. rewrite Hg in Hps. injection Hps as <-. by apply elem_of_nil in Hx.
    - destruct (Hc t x Hx') as [|[|Hn]]; [by exists ps|by left|by right|by apply elem_of_nil in Hn]. }
  apply map_eq. intros h. destruct (pend !! h) as [ps|] eqn:E.
  - destruct (Hp h ps E) as [Hne Hh]. symmetry. by rewrite lookup_delete_ne by done.
  - symmetry. destruct (decide (h = genesis cfg)) as [->|Hne]; [apply lookup_delete_eq|]. rewrite lookup_delete_ne by done.
    destruct (parents (dag ch) !! h) as [ps|] eqn:Eh; [|done]. exfalso.
    destruct (below_tip (dag ch) h Hw) as (t & Htt & Hth); [by eexists|].
    destruct (Hpast t h Hth) as [|[? ?]]; [|done|congruence]. destruct (Ht t Htt) as [|[|Hn]]; [by left|by right|by apply elem_of_nil in Hn].
Qed.
Lemma walking_skip ch h stack pend : walking ch (h :: stack) pend -> h = genesis cfg \/ is_Some (pend !! h) -> walking ch stack pend.
Proof.
  intros [Hs Hp Hc Ht] Hh. split; [|done| |].
  - intros x Hx. apply Hs. by right.
  - intros x p Hx Hxp. destruct (Hc x p Hx Hxp) as [|[|[->|]%elem_of_cons]]; auto. destruct Hh; auto.
  - intros t Htt. destruct (Ht t Htt) as [|[|[->|]%elem_of_cons]]; auto. destruct Hh; auto.
Qed.
Lemma walking_expand ch h stack pend ps :
  inv ch -> walking ch (h :: stack) pend -> h <> genesis cfg -> parents (dag ch) !! h = Some ps ->
  walking ch (reverse ps ++ stack) (<[h := ps]> pend).
Proof.
  intros Hi [Hs Hp Hc Ht] Hne Hh. destruct (gd_reachable_inv _ _ (iv_reach _ _ _ _ _ _ _ Hi)) as (Hw & _). cbn [fst] in Hw.
  assert (Hin : forall x, is_Some (pend !! x) -> is_Some (<[h := ps]> pend !! x)) by (intros x Hx; apply lookup_insert_is_Some; destruct (decide (h = x)); auto).
  split.
  - intros x [Hx|Hx]%elem_of_app; [|apply Hs; by right]. rewrite elem_of_reverse in Hx. apply (wf_parents_dom (dag ch) h x Hw). by exists ps.
  - intros x qs [[<- <-]|[_ Hx]]%lookup_insert_Some; [done|by apply Hp].
  - intros x p [qs Hx] Hxp. apply lookup_insert_Some in Hx as [[<- <-]|[_ Hx]].
    + destruct Hxp as (qs & Hqs & Hq). rewrite Hh in Hqs. injection Hqs as <-. right. right. apply elem_of_app. left. by rewrite elem_of_reverse.
    + destruct (Hc x p) as [|[|[->|]%elem_of_cons]]; [by eexists|done|by left|right; left; by apply Hin|right; left; rewrite lookup_insert_eq; by eexists|].
      right. right. apply elem_of_app. by right.
  - intros t Htt. destruct (Ht t Htt) as [|[|[->|]%elem_of_cons]]; [by left|right; left; by apply Hin|right; left; rewrite lookup_insert_eq; by eexists|].
    right. right. apply elem_of_app. by right.
Qed.
Lemma gather_spec ch fuel stack pend :
  inv ch -> walking ch stack pend -> (length stack + Dag.pending (dag ch) (dom pend) <= fuel)%nat ->
  gather cfg fuel ch stack pend = Ok (delete (genesis cfg) (parents (dag ch))).
Proof.
  intros Hi. revert stack pend. induction fuel as [|fuel IH]; intros [|h stack] pend Hw Hf; cbn [gather];
    [f_equal; by apply walking_done|cbn in Hf; lia|f_equal; by apply walking_done|]. cbn [length] in Hf.
  destruct (Z.eqb_spec h (genesis cfg)) as [->|Hg]; cbn [orb].
  - apply IH; [eapply walking_skip; [done|by left]|lia].
  - case_bool_decide as Hin; [apply IH; [eapply walking_skip; [done|by right]|lia]|].
    destruct (wk_stack _ _ _ Hw h) as [ps Hps]; [left|]. rewrite (rebuild_parents ch h ps Hi Hps Hg). cbn [rbind].
    apply IH; [by apply walking_expand|]. rewrite length_app, length_reverse, dom_insert_L.
    rewrite (pending_visit (dag ch) (dom pend) h ps Hps) in Hf by (by rewrite elem_of_dom). lia.
Qed.

(** ** The rounds *)

(** What has been rebuilt so far is part of the graph the node had. *)
Record rebuilding (ch : Chain) (st : Rebuild) : Prop := {
  rb_reach : gd_reachable gcfg (rb_dag st, rb_ghostdag st);
  rb_sub h ps : parents (rb_dag st) !! h = Some ps -> parents (dag ch) !! h = Some ps;
  rb_cols h : coloring (rb_ghostdag st) !! h = if decide (is_Some (parents (rb_dag st) !! h)) then coloring (ghostdag ch) !! h else None;
  rb_recs : rb_records st = ghostdag_records ch;
  rb_rest h : rb_pending st !! h = if decide (is_Some (parents (rb_dag st) !! h)) then None else parents (dag ch) !! h;
}.
Definition can_rebuild (st : Rebuild) (h : Hash) : Prop :=
  exists ps, rb_pending st !! h = Some ps /\ forall p, p ∈ ps -> is_Some (parents (rb_dag st) !! p).
Lemma hydrate_exact ch st h ps d c :
  inv ch -> rebuilding ch st -> parents (dag ch) !! h = Some ps -> (forall p, p ∈ ps -> is_Some (parents (rb_dag st) !! p)) ->
  parents (rb_dag st) !! h = None -> dag_insert (rb_dag st) h ps = Ok d -> coloring (ghostdag ch) !! h = Some c ->
  exists g, (forall w, hydrate_or_recolor (rb_records st) (rb_ghostdag st) d h w = Ok (ghostdag_records ch, g)) /\
    coloring g = <[h := c]> (coloring (rb_ghostdag st)) /\ gd_reachable gcfg (d, g).
Proof.
  intros Hi Hb Hh Hps Hn Hd Hc. pose proof (iv_reach _ _ _ _ _ _ _ Hi) as Hr. destruct (gd_reachable_inv _ _ Hr) as (HwD & HgD & HcD). cbn [fst snd] in *.
  pose proof (iv_records _ _ _ _ _ _ _ Hi h c Hc) as Hrec. destruct (gd_entry _ _ HgD h c Hc) as [_ Hpos].
  assert (exists s, snapshot (ghostdag ch) h = Some s) as [s Hs] by (unfold snapshot; rewrite Hc; by eexists).
  destruct (snapshot_import_roundtrip gcfg (dag ch) (ghostdag ch) h c s (rb_ghostdag st) Hr Hc Hs) as [Him _].
  { intros sp Hsp. destruct (selected_parent_monotone gcfg (dag ch) (ghostdag ch) h c sp Hr Hc Hsp) as (qs & _ & Hqs & Hin & _).
    rewrite Hh in Hqs. injection Hqs as <-. rewrite (rb_cols _ _ Hb), decide_True by (by apply Hps). done. }
  exists (import_snapshot (rb_ghostdag st) h s).1. split; [intros w; unfold hydrate_or_recolor; by rewrite (rb_recs _ _ Hb), Hrec, Hs|]. split; [done|].
  assert (Hall : forall x, is_Some (parents (rb_dag st) !! x) -> is_Some (coloring (rb_ghostdag st) !! x)).
  { intros x Hx. rewrite (rb_cols _ _ Hb), decide_True by done. apply (iv_colored _ _ _ _ _ _ _ Hi). destruct Hx as [qs Hq]. exists qs. by apply (rb_sub _ _ Hb). }
  destruct (add_block_with_work d (rb_ghostdag st) h (block_work c)) as [g' r] eqn:Ha.
  destruct (color_new _ _ _ _ _ _ _ _ _ (rb_reach _ _ Hb) Hall Hn Hd Ha) as (c' & _ & _ & Heq & Hcfg & Hbw & Hr' & _ & _ & _ & Hp).
  destruct (gd_reachable_inv _ _ Hr') as (Hw' & Hg' & Hc'). cbn [fst snd] in *. rewrite Z.max_l in Hbw by lia.
  assert (c' = c) as ->.
  { eapply (coloring_unique d (dag ch) g' (ghostdag ch) h); [done|done| |done|done|congruence| |by rewrite Heq, lookup_insert_eq|done].
    - intros x p1 p2 P1 P2. rewrite Hp in P1. apply lookup_insert_Some in P1 as [[<- <-]|[_ P1]]; [congruence|]. apply (rb_sub _ _ Hb) in P1. congruence.
    - intros x a1 a2 A1 A2. rewrite Heq in A1. apply lookup_insert_Some in A1 as [[<- <-]|[_ A1]]; [congruence|].
      rewrite (rb_cols _ _ Hb) in A1. case_decide; congruence. }
  replace (import_snapshot (rb_ghostdag st) h s).1 with g'; [done|].
  assert (config (import_snapshot (rb_ghostdag st) h s).1 = config (rb_ghostdag st)) as Hk by done.
  destruct g' as [k' m'], (import_snapshot (rb_ghostdag st) h s).1 as [k2 m2]. cbn in *. congruence.
Qed.
Lemma rebuild_step ch st h :
  inv ch -> rebuilding ch st -> can_rebuild st h ->
  exists st', rebuild_block ch st h = Ok st' /\ rebuilding ch st' /\ rb_pending st' = delete h (rb_pending st) /\
    (forall x, is_Some (parents (rb_dag st) !! x) -> is_Some (parents (rb_dag st') !! x)).
Proof.
  intros Hi Hb (ps & Hp & Hps). pose proof Hp as Hp'. rewrite (rb_rest _ _ Hb) in Hp'. case_decide as Hin; [done|]. apply eq_None_not_Some in Hin.
  assert (Hd : dag_insert (rb_dag st) h ps = Ok (mkDag (order (rb_dag st) ++ [h]) (<[h := ps]> (parents (rb_dag st))))).
  { unfold dag_insert. destruct (contains_spec (rb_dag st) h) as [[? ?]|_]; [congruence|].
    destruct (check_parents (rb_dag st) ps) eqn:Ec; [done|]. exfalso. pose proof (proj2 (check_parents_Ok (rb_dag st) ps tt) Hps). congruence. }
  destruct (iv_colored _ _ _ _ _ _ _ Hi h) as [c Hc]; [by eexists|].
  destruct (hydrate_exact ch st h ps _ c Hi Hb Hp' Hps Hin Hd Hc) as (g & Hh & Hcol & Hr).
  unfold rebuild_block. rewrite Hp. cbn [ok_or rbind]. rewrite Hd, Hh. cbn [rbind]. eexists. split; [done|]. cbn [rb_dag rb_ghostdag rb_records rb_pending parents].
  split_and!; [|done|].
  - split; cbn [rb_dag rb_ghostdag rb_records rb_pending parents].
    + done.
    + intros x qs [[<- <-]|[_ Hx]]%lookup_insert_Some; [done|by apply (rb_sub _ _ Hb)].
    + intros x. rewrite Hcol. destruct (decide (x = h)) as [->|Hx]; [rewrite !lookup_insert_eq, decide_True by (by eexists); done|].
      rewrite !lookup_insert_ne by done. apply (rb_cols _ _ Hb).
    + done.
    + intros x. destruct (decide (x = h)) as [->|Hx]; [rewrite lookup_delete_eq, lookup_insert_eq, decide_True by (by eexists); done|].
      rewrite lookup_delete_ne, lookup_insert_ne by done. apply (rb_rest _ _ Hb).
  - intros x Hx. apply lookup_insert_is_Some. destruct (decide (h = x)); naive_solver.
Qed.
Lemma rebuild_round ch ready st :
  inv ch -> rebuilding ch st -> NoDup ready -> (forall h, h ∈ ready -> can_rebuild st h) ->
  exists st', rfold (rebuild_block ch) st ready = Ok st' /\ rebuilding ch st' /\ size (rb_pending st) = (length ready + size (rb_pending st'))%nat.
Proof.
  intros Hi. revert st. induction ready as [|h ready IH]; intros st Hb Hnd Hr; [by exists st|]. cbn [rfold]. apply NoDup_cons in Hnd as [Hh Hnd].
  destruct (Hr h ltac:(left)) as (ps & Hp & Hps). destruct (rebuild_step ch st h Hi Hb) as (st1 & -> & Hb1 & Hp1 & Hm1); [by exists ps|]. cbn [rbind].
  destruct (IH st1 Hb1 Hnd) as (st' & Hst' & Hb' & Hsz).
  { intros x Hx. destruct (Hr x) as (qs & Hq & Hqs); [by right|]. exists qs. split; [|intros p Hpq; apply Hm1; by apply Hqs].
    rewrite Hp1, lookup_delete_ne; [done|]. intros ->. done. }
  exists st'. split_and!; [done|done|]. rewrite Hp1 in Hsz. cbn [length].
  rewrite <- (insert_delete_id (rb_pending st) h ps Hp), map_size_insert_None by apply lookup_delete_eq. lia.
Qed.

(** While blocks are pending, one has all its parents. *)
Lemma some_ready ch st : inv ch -> rebuilding ch st -> rb_pending st <> ∅ -> exists h, can_rebuild st h.
Proof.
  intros Hi Hb Hne. destruct (gd_reachable_inv _ _ (iv_reach _ _ _ _ _ _ _ Hi)) as (Hw & _). cbn [fst] in Hw.
  assert (forall l l2, order (dag ch) = l ++ l2 -> (exists h, can_rebuild st h) \/ forall x, x ∈ l -> is_Some (parents (rb_dag st) !! x)) as H.
  { induction l as [|h l IH] using rev_ind; intros l2 Ho; [right; intros x Hx; by apply elem_of_nil in Hx|].
    rewrite <- app_assoc in Ho. destruct (IH _ Ho) as [|Hl]; [by left|].
    destruct (decide (is_Some (parents (rb_dag st) !! h))) as [Hh|Hh].
    - right. intros x [Hx| ->%list_elem_of_singleton]%elem_of_app; [by apply Hl|done].
    - left. assert (is_Some (parents (dag ch) !! h)) as [ps Hps].
      { apply (wf_dom _ Hw). rewrite Ho. apply elem_of_app. right. left. }
      exists h, ps. split; [rewrite (rb_rest _ _ Hb), decide_False by done; done|]. intros p Hp. apply Hl. by eapply (wf_topo _ Hw). }
  destruct (H (order (dag ch)) []) as [|Hall]; [by rewrite app_nil_r|done|]. exfalso. apply Hne, map_eq. intros h. rewrite lookup_empty, (rb_rest _ _ Hb).
  case_decide as Hh; [done|]. apply eq_None_not_Some. intros Hs. apply Hh, Hall. by apply (wf_dom _ Hw).
Qed.
Lemma ready_elem (st : Rebuild) h :
  h ∈ sort_by Z.compare (filter (fun e => forallb (contains (rb_dag st)) e.2 = true) (map_to_list (rb_pending st))).*1 <-> can_rebuild st h.
Proof.
  rewrite elem_of_sort_by, list_elem_of_fmap. unfold can_rebuild. split.
  - intros ([x ps] & -> & [Hf Hx]%list_elem_of_filter). cbn in *. apply elem_of_map_to_list in Hx. exists ps. split; [done|]. intros p Hp.
    rewrite forallb_forall in Hf. specialize (Hf p (proj1 (list_elem_of_In _ _) Hp)). by destruct (contains_spec (rb_dag st) p).
  - intros (ps & Hp & Hps). exists (h, ps). split; [done|]. apply list_elem_of_filter. split; [|by apply elem_of_map_to_list].
    apply forallb_forall. intros p Hpp. apply list_elem_of_In, Hps in Hpp. by destruct (contains_spec (rb_dag st) p).
Qed.
Lemma ready_nodup (st : Rebuild) :
  NoDup (sort_by Z.compare (filter (fun e => forallb (contains (rb_dag st)) e.2 = true) (map_to_list (rb_pending st))).*1).
Proof.
  apply NoDup_sort_by. eapply sublist_NoDup; [apply (NoDup_fst_map_to_list (rb_pending st))|]. apply fmap_sublist, sublist_filter.
Qed.
Lemma rounds_spec ch fuel st :
  inv ch -> rebuilding ch st -> (size (rb_pending st) <= fuel)%nat ->
  exists st', rebuild_rounds fuel ch st = Ok st' /\ rebuilding ch st' /\ rb_pending st' = ∅.
Proof.
  intros Hi. revert st. induction fuel as [|fuel IH]; intros st Hb Hf; cbn [rebuild_rounds]; case_bool_decide as He; try (by exists st).
  - exfalso. apply He. apply map_size_empty_iff. lia.
  - destruct (some_ready ch st Hi Hb He) as [h Hh]. set (ready := sort_by _ _).
    assert (Hin : h ∈ ready) by (by apply ready_elem). rewrite bool_decide_eq_false_2 by (intros E; rewrite E in Hin; by apply elem_of_nil in Hin). cbn [negb ensure rbind].
    destruct (rebuild_round ch ready st Hi Hb (ready_nodup st)) as (st1 & -> & Hb1 & Hsz); [intros x; by apply ready_elem|]. cbn [rbind].
    apply IH; [done|]. destruct ready; [by apply elem_of_nil in Hin|]. cbn [length] in Hsz. lia.
Qed.

(** Only the insertion order of the graph may differ, and nothing sees it. *)
Lemma regraph_inv ch d : inv ch -> gd_reachable gcfg (d, ghostdag ch) -> parents d = parents (dag ch) -> inv (set_graph ch d (ghostdag ch)).
Proof.
  intros Hi Hr Hp. destruct (gd_reachable_inv _ _ Hr) as (Hw & _), (gd_reachable_inv _ _ (iv_reach _ _ _ _ _ _ _ Hi)) as (HwD & _). cbn [fst] in *.
  assert (Htips : forall x, x ∈ tips d <-> x ∈ tips (dag ch)).
  { intros x. unfold tips. rewrite !list_elem_of_filter, !referenced_elem, (wf_dom _ Hw), (wf_dom _ HwD). unfold parent_of. by rewrite Hp. }
  destruct Hi as [H1 H2 H3 H4 H5 H6 H7 H8 H9 H10 H11]. split; cbn [dag ghostdag set_graph node stored_tips archived headers ghostdag_records]; rewrite ?Hp; try done.
  - transitivity (tips (dag ch)); [done|]. apply NoDup_Permutation; [apply NoDup_filter, (wf_nodup _ HwD)|apply NoDup_filter, (wf_nodup _ Hw)|]. intros x. by rewrite Htips.
  - destruct H11 as (t & V & S & (hs & c0 & B & R & E)). exists t. split; [done|]. split.
    + rewrite <- S. unfold select_virtual_tip. apply max_by_set_eq; [apply _|]. intros x. rewrite !list_elem_of_filter. by rewrite Htips.
    + exists hs, c0. split; [|done]. rewrite <- B. apply (blues_compatible gcfg gcfg); [done|done| | |done].
      * intros x p1 p2 P1 P2. rewrite Hp in P1. congruence.
      * enough (is_Some (parents (dag ch) !! t)) by (split; rewrite ?Hp; done). unfold select_virtual_tip in S.
        apply max_by_Some in S as [[_ S]%list_elem_of_filter _]; [|apply _]. apply list_elem_of_filter in S as [_ S]. by apply (wf_dom _ HwD).
Qed.

(** C4: A restart loses nothing.  From the recorded tips, the stored blocks and
    the colouring records of any sound node, the rebuild terminates and
    succeeds, gives back exactly the parents of every block and exactly the
    colouring the node had, writes no new record, and the node that goes on
    with the result is sound again. *)
Theorem restart_restores (ch : Chain) :
  inv ch ->
  exists st, rebuild_dag_from_store cfg gcfg ch = Ok st /\ rb_ghostdag st = ghostdag ch /\ parents (rb_dag st) = parents (dag ch) /\
    rb_records st = ghostdag_records ch /\ inv (set_graph ch (rb_dag st) (rb_ghostdag st)).
Proof.
  intros Hi. destruct (gd_reachable_inv _ _ (iv_reach _ _ _ _ _ _ _ Hi)) as (HwD & HgD & HcD). cbn [fst snd] in *.
  destruct (iv_genesis _ _ _ _ _ _ _ Hi) as (Hg & c & Hc & _). pose proof (iv_tips _ _ _ _ _ _ _ Hi) as Htp.
  set (st0 := {| rb_dag := dag_new; rb_ghostdag := ghostdag_new gcfg; rb_records := ghostdag_records ch; rb_pending := parents (dag ch) |}).
  assert (Hb0 : rebuilding ch st0).
  { split; cbn; [apply rtc_refl| |done|done|done]. intros h ps. by rewrite lookup_empty. }
  assert (Hd0 : dag_insert dag_new (genesis cfg) [] = Ok (mkDag [genesis cfg] (<[genesis cfg := []]> ∅))).
  { unfold dag_insert, contains. cbn. by rewrite lookup_empty, bool_decide_eq_false_2 by (by intros [? ?]). }
  destruct (rebuild_step ch st0 (genesis cfg) Hi Hb0) as (st1 & Hst1 & Hb1 & Hp1 & _).
  { exists []. split; [done|]. intros p Hp. by apply elem_of_nil in Hp. }
  unfold rebuild_block in Hst1. cbn [st0 rb_pending rb_dag rb_ghostdag rb_records] in Hst1. rewrite Hg in Hst1. cbn [ok_or rbind] in Hst1. rewrite Hd0 in Hst1.
  unfold rebuild_dag_from_store. rewrite (bool_decide_eq_false_2 (stored_tips ch = [])).
  2:{ intros Hn. rewrite Hn in Htp. apply Permutation_nil_l in Htp. destruct (below_tip (dag ch) (genesis cfg) HwD) as (t & Ht & _); [by eexists|].
      rewrite <- Htp in Ht. by apply elem_of_nil in Ht. }
  rewrite (gather_spec ch (gather_fuel ch) (reverse (stored_tips ch)) ∅ Hi).
  - cbn [rbind]. rewrite Hd0. destruct (hydrate_or_recolor _ _ _ _ _) as [[records g]|]; [|done]. cbn [rbind] in *. injection Hst1 as <-.
    cbn [rb_pending st0] in Hp1. destruct (rounds_spec ch (size (delete (genesis cfg) (parents (dag ch)))) _ Hi Hb1) as (st & Hst & Hb & Hpend); [done|].
    cbn [rb_pending] in Hst. exists st. split; [exact Hst|].
    assert (Hpar : parents (rb_dag st) = parents (dag ch)).
    { apply map_eq. intros h. pose proof (rb_rest _ _ Hb h) as Hr. rewrite Hpend, lookup_empty in Hr. case_decide as Hs; [|].
      - destruct Hs as [ps Hs]. rewrite Hs. symmetry. by apply (rb_sub _ _ Hb).
      - rewrite <- Hr. by apply eq_None_not_Some. }
    assert (Hgd : rb_ghostdag st = ghostdag ch).
    { destruct (gd_reachable_inv _ _ (rb_reach _ _ Hb)) as (_ & _ & Hcfg). cbn [snd] in Hcfg.
      assert (coloring (rb_ghostdag st) = coloring (ghostdag ch)) as Hcol.
      { apply map_eq. intros h. rewrite (rb_cols _ _ Hb), Hpar. case_decide as Hs; [done|]. symmetry. apply eq_None_not_Some. intros [x Hx].
        apply Hs. destruct (gd_closed _ _ HgD _ _ Hx) as (ps & ? & _). by exists ps. }
      destruct (rb_ghostdag st), (ghostdag ch). cbn in *. congruence. }
    split_and!; [done|done|apply (rb_recs _ _ Hb)|]. rewrite Hgd. apply regraph_inv; [done| |done]. rewrite <- Hgd. apply (rb_reach _ _ Hb).
  - split.
    + intros x Hx. rewrite elem_of_reverse, Htp in Hx. apply list_elem_of_filter in Hx as [_ Hx]. by apply (wf_dom _ HwD).
    + intros h ps. by rewrite lookup_empty.
    + intros x p [? Hx]. by rewrite lookup_empty in Hx.
    + intros t Ht. right. right. by rewrite elem_of_reverse, Htp.
  - rewrite length_reverse, dom_empty_L, pending_empty. unfold gather_fuel, edge_count.
    assert (nsum (fun _ ps => length ps) (parents (dag ch)) <= nsum (fun _ b => length (h_parents (header b))) (bodies (core (node ch))))%nat; [|lia].
    rewrite (nsum_delete _ (genesis cfg) [] (parents (dag ch)) Hg). cbn [length Nat.add]. apply nsum_le. intros h ps [Hne Hh]%lookup_delete_Some.
    destruct (iv_block _ _ _ _ _ _ _ Hi _ _ Hh) as [?|(b & x & Hb & _ & _ & <- & _)]; [done|]. by exists b.
Qed.
End restart.

(** ** A node restarted *)

Lemma restart_restores_witness :
  exists st, rebuild_dag_from_store node_config default_config (node_run node_start one_order) = Ok st /\
    rb_ghostdag st = ghostdag (node_run node_start one_order) /\ parents (rb_dag st) = parents (dag (node_run node_start one_order)).
Proof.
  destruct (restart_restores node_config h_nonce default_config demo_genesis_ledger 150 1 (node_run node_start one_order)) as (st & H1 & H2 & H3 & _);
    [|exists st; split; [exact H1|split; [exact H2|exact H3]]].
  unfold node_run. apply (ro_inv _ _ _ _ _ _ _ _ _
    (run_of_run node_config (fun _ _ => 1000) h_nonce (fun _ => 0) (fun _ => 0) (fun _ => 0) (fun _ => 0) (fun _ _ => 0) (fun _ => 0) (fun _ => 0)
      demo_tx_id demo_covenant_id (fun _ => 0) (fun j => created (cj_utxo j)) (fun _ => empty_store) (fun _ _ => 0) ltac:(cbn; lia) eq_refl default_config demo_genesis_ledger 150 1 node_start one_order node_start_inv)).
Defined.
