(* ===== verification/AdmitTemplate.v ===== *)
(** * Block templates

    A node admits what it mines: a template, with any nonce that gives enough
    proof of work, passes the admission checks of the node that built it. *)

From stdpp Require Import base gmap list fin_maps strings.
From Stdlib Require Import ZArith Lia.
From S2P Require Import Prelude Ordering Sums Types Dag Ghostdag GhostdagProps Daa Finality Store Utxo UtxoProps TltScript FinalityAdmit FinalityProps Reorg ReorgProps Covenant CovenantProps CovenantSafety Admit AdmitProps TltLedger AdmitExamples.
Local Open Scope Z_scope.

Lemma remove_first_perm h l : h ∈ l -> h :: remove_first h l ≡ₚ l.
Proof.
  induction l as [|x l IH]; intros Hh; [by apply elem_of_nil in Hh|]. cbn. destruct (Z.eqb_spec x h) as [->|Hne]; [done|].
  apply elem_of_cons in Hh as [->|Hh]; [done|]. by rewrite Permutation_swap, (IH Hh).
Qed.
Lemma foldl_max_bound l a k : a < k -> (forall x, x ∈ l -> x < k) -> foldl Z.max a l < k.
Proof.
  revert a. induction l as [|x l IH]; intros a Ha Hl; [done|]. cbn. apply IH; [|intros y Hy; apply Hl; by right].
  pose proof (Hl x ltac:(left)). lia.
Qed.
Lemma median_bound l k : 0 < k -> (forall x, x ∈ l -> x < k) -> median_time_past l < k.
Proof.
  intros Hk Hl. unfold median_time_past. destruct (_ =? 0)%nat; [done|]. set (s := sort_by _ _).
  destruct (nth_in_or_default (Nat.min (length l) 11 / 2) s 0) as [Hin|E].
  - apply Hl. apply list_elem_of_In in Hin. unfold s in Hin. rewrite elem_of_sort_by in Hin. by eapply elem_of_take in Hin as (i & Hi%list_elem_of_lookup_2 & _).
  - change (Z.of_nat 0) with 0 in *. by rewrite E.
Qed.
Lemma high_bits_zero x n : 0 <= x < 2 ^ 32 -> 32 <= n -> Z.testbit x n = false.
Proof. intros Hx Hn. rewrite <- (Z.mod_small x (2 ^ 32)) by done. apply Z.mod_pow2_bits_high. lia. Qed.
Lemma commitment_low_bits ps ts ex (tag : list Hash -> Z) :
  (forall l, 0 <= tag l < 2 ^ 32) -> as_u32 (coinbase_commitment_nonce tag ps ts ex) = coinbase_commitment_low tag ps ts.
Proof.
  intros Ht. unfold coinbase_commitment_nonce, coinbase_commitment_low, as_u32.
  replace (u32_max + 1) with (2 ^ 32) by done. apply Z.bits_inj'. intros n Hn.
  destruct (Z.lt_ge_cases n 32) as [Hlt|Hge].
  - rewrite Z.mod_pow2_bits_low, Z.lor_spec, Z.shiftl_spec_low by lia. done.
  - rewrite Z.mod_pow2_bits_high, Z.lxor_spec, (high_bits_zero (tag _)), Z.mod_pow2_bits_high by (done || lia). done.
Qed.

Section template.
Context {Da Lanes L J : Type} `{!Ledger L (@Block Da Lanes) J}.
Abbreviation Block := (@Block Da Lanes).
Abbreviation Chain := (@Chain Da Lanes L J).
Variable cfg : ChainConfig.
Variable preview_hash : list Hash -> Z -> Hash.
Variable block_id : BlockHeader -> Hash.
Variable compute_body_root block_len : Block -> Z.
Variable tx_len : Transaction -> Z.
Variable covenant_len : TltCovenantTx -> Z.
Variable randomx_zero_bits : BlockHeader -> Z -> Z.
Variable kheavy_zero_bits : BlockHeader -> Z.
Variable parent_tag : list Hash -> Z.
Variable journal_created : J -> list OutPoint.
Variable sum_transfer_fees : L -> list Transaction -> result StateError Z.
Variable validate_mempool_covenant : L -> TltCovenantTx -> gset OutPoint -> Z -> Z -> result StateError Z.
Variable materialize_attachments : Block -> result ConsensusError Block.
Variable gcfg : GhostdagConfig.
Variable genesis_ledger : L.
Variable genesis_issued genesis_work : Z.
Abbreviation inv := (chain_inv cfg block_id gcfg genesis_ledger genesis_issued genesis_work).
Abbreviation template := (block_template_lanes cfg preview_hash compute_body_root parent_tag sum_transfer_fees validate_mempool_covenant materialize_attachments).
Abbreviation checks := (admission_checks cfg preview_hash block_id compute_body_root block_len tx_len covenant_len randomx_zero_bits
  kheavy_zero_bits parent_tag journal_created).
(** Four bytes; the body root does not read the header; attachments only fill
    their own lane. *)
Hypothesis tag_range : forall l, 0 <= parent_tag l < 2 ^ 32.
Hypothesis root_of_body : forall b b' : Block,
  (transactions b, tlt_covenants b, data_commitments b, lanes b) = (transactions b', tlt_covenants b', data_commitments b', lanes b') ->
  compute_body_root b = compute_body_root b'.
Hypothesis attachments_only : forall b b', materialize_attachments b = Ok b' ->
  (header b', transactions b', tlt_covenants b', data_commitments b') = (header b, transactions b, tlt_covenants b, data_commitments b).

(** The miner's nonce. *)
Definition mined (b : Block) (nonce : Z) : Block :=
  let h := header b in
  {| header := {| h_version := h_version h; h_parents := h_parents h; h_timestamp_ms := h_timestamp_ms h; h_bits := h_bits h;
                  h_nonce := nonce; h_tx_root := h_tx_root h |};
     transactions := transactions b; tlt_covenants := tlt_covenants b; data_commitments := data_commitments b; lanes := lanes b |}.

Lemma template_parents_ok (ch : Chain) :
  inv ch -> 1 <= max_block_parents (limits cfg) ->
  let ps := select_template_parents cfg ch in
  ps <> [] /\ NoDup ps /\ Z.of_nat (length ps) <= max_block_parents (limits cfg) /\ forall p, p ∈ ps -> is_Some (parents (dag ch) !! p).
Proof.
  intros Hi Hm ps. destruct (gd_reachable_inv _ _ (iv_reach _ _ _ _ _ _ _ Hi)) as (Hw & _). cbn [fst] in Hw. pose proof (iv_tips _ _ _ _ _ _ _ Hi) as Htp.
  assert (exists l, ps = take (Z.to_nat (max_block_parents (limits cfg))) l /\ l ≡ₚ tips (dag ch)) as (l & -> & Hl).
  { unfold ps, select_template_parents. eexists. split; [done|].
    assert (sort_by (template_cmp (ghostdag ch)) (load_tips ch) ≡ₚ tips (dag ch)) as Hs.
    { rewrite sort_by_perm. unfold load_tips. case_bool_decide; done. }
    destruct (best_tip ch) as [v|]; [|done]. case_bool_decide as Hv; [|done]. by rewrite remove_first_perm. }
  assert (tips (dag ch) <> []) as Hne.
  { destruct (iv_tip _ _ _ _ _ _ _ Hi) as (t & _ & S & _). unfold select_virtual_tip in S. apply max_by_Some in S as [[_ S]%list_elem_of_filter _]; [|apply _].
    intros E. rewrite E in S. by apply elem_of_nil in S. }
  split_and!.
  - destruct l as [|x l]; [by apply Permutation_nil_l in Hl; rewrite <- Hl in Hne|]. destruct (Z.to_nat (max_block_parents (limits cfg))) eqn:E; [lia|done].
  - eapply sublist_NoDup; [|apply sublist_take]. rewrite Hl. apply NoDup_filter, (wf_nodup _ Hw).
  - rewrite length_take. lia.
  - intros p Hp. apply (sublist_subseteq _ _ (sublist_take _ _)) in Hp. rewrite Hl in Hp. apply list_elem_of_filter in Hp as [_ Hp]. by apply (wf_dom _ Hw).
Qed.
Lemma check_parent_list_true d seen ps :
  NoDup ps -> (forall p, p ∈ ps -> p ∉ seen /\ is_Some (parents d !! p)) -> check_parent_list d seen ps = Ok tt.
Proof.
  revert seen. induction ps as [|p ps IH]; intros seen Hnd Hp; [done|]. cbn. apply NoDup_cons in Hnd as [Hn Hnd].
  destruct (Hp p ltac:(left)) as [Hs Hc]. rewrite bool_decide_eq_false_2 by done. destruct (contains_spec d p) as [_|[]]; [|done]. cbn.
  apply IH; [done|]. intros q Hq. destruct (Hp q) as [? ?]; [by right|]. split; [|done]. intros [->%elem_of_singleton|]%elem_of_union; done.
Qed.
Lemma template_time_ok now (ch : Chain) ps :
  0 <= now -> now + max_timestamp_ahead_ms (limits cfg) <= u64_max -> 0 < max_timestamp_ahead_ms (limits cfg) ->
  (forall h hd, load_header ch h = Some hd -> h_timestamp_ms hd < now + max_timestamp_ahead_ms (limits cfg)) ->
  forall b : Block, h_parents (header b) = ps -> h_timestamp_ms (header b) = template_timestamp_ms now ch ps -> check_timestamps cfg now ch b = Ok tt.
Proof.
  intros Hn Hu Ha Hr b <- Ht. unfold check_timestamps. rewrite Ht. unfold template_timestamp_ms.
  set (k := now + max_timestamp_ahead_ms (limits cfg)) in *. set (pm := foldl Z.max 0 (parent_times ch (h_parents (header b)))).
  assert (Hpm : pm < k).
  { apply foldl_max_bound; [lia|]. intros x Hx. unfold parent_times in Hx. apply list_elem_of_omap in Hx as (p & _ & Hx).
    destruct (load_header ch p) as [hd|] eqn:E; [|done]. cbn in Hx. injection Hx as <-. by eapply Hr. }
  set (mtp := match select_parent_among (ghostdag ch) (h_parents (header b)) with Some sp => median_time_past (spine_timestamps ch sp) | None => 0 end).
  assert (Hspine : forall fuel want cur x, x ∈ spine fuel ch (fun h => h_timestamp_ms <$> load_header ch h) want cur -> x < k).
  { induction fuel as [|fuel IH]; intros want cur x Hx; [by apply elem_of_nil in Hx|]. cbn in Hx. destruct want; [by apply elem_of_nil in Hx|].
    destruct cur as [h|]; [|by apply elem_of_nil in Hx]. destruct (load_header ch h) as [hd|] eqn:E; cbn in Hx; [|by eapply IH].
    apply elem_of_cons in Hx as [->|Hx]; [by eapply Hr|by eapply IH]. }
  assert (Hmtp : mtp < k).
  { unfold mtp. destruct (select_parent_among _ _) as [sp|]; [|lia]. apply median_bound; [lia|]. intros x. apply Hspine. }
  set (ts := Z.max (Z.max now (saturating_add u64_max pm 1)) (saturating_add u64_max mtp 1)).
  assert (pm < ts /\ mtp < ts /\ ts <= k) as (H1 & H2 & H3) by (unfold ts, saturating_add; lia).
  rewrite (proj2 (Z.leb_gt _ _) H1). cbn [negb ensure rbind].
  assert (match select_parent_among (ghostdag ch) (h_parents (header b)) with
    | Some sp => ensure (negb (ts <=? median_time_past (spine_timestamps ch sp))) (AdmitTimestampBeforeParent ts (median_time_past (spine_timestamps ch sp)))
    | None => Ok tt end = Ok tt) as Hm.
  { unfold mtp in H2. destruct (select_parent_among _ _) as [sp|]; [|done]. by rewrite (proj2 (Z.leb_gt _ _) H2). }
  cbv zeta. rewrite Hm. cbn [rbind]. unfold saturating_add at 1. fold k. rewrite Z.min_r by lia. by rewrite (proj2 (Z.ltb_ge _ _) H3).
Qed.
Lemma template_shape now ex (ch : Chain) payout transfers covenants das rest b :
  template now ex ch payout transfers covenants das rest = Ok b ->
  let ps := select_template_parents cfg ch in
  let n := Z.to_nat (saturating_sub (max_block_transactions (limits cfg)) 1) in
  header b = {| h_version := 1; h_parents := ps; h_timestamp_ms := template_timestamp_ms now ch ps; h_bits := expected_bits_for_parents cfg ch ps;
                h_nonce := 0; h_tx_root := compute_body_root b |} /\
  (exists cb, transactions b = cb :: take n transfers /\ inputs cb = [] /\
    tx_nonce cb = coinbase_commitment_nonce parent_tag ps (template_timestamp_ms now ch ps) ex) /\
  tlt_covenants b = take (n - length (take n transfers)) covenants /\ data_commitments b = das.
Proof.
  intros H ps n. unfold block_template_lanes in H. cbv zeta in H. fold ps n in H. apply rbind_Ok in H as (score & _ & H).
  apply rbind_Ok in H as (tf & _ & H). apply rbind_Ok in H as (cf & _ & H). apply rbind_Ok in H as (fees & _ & H). apply rbind_Ok in H as (reward & _ & H).
  apply rbind_Ok in H as (b1 & H1 & H). apply Ok_inj in H as <-. cbn [header transactions tlt_covenants data_commitments].
  match type of H1 with context [materialize_attachments ?x] => set (b0 := x) in H1 end.
  assert (transactions b1 = transactions b0 /\ tlt_covenants b1 = tlt_covenants b0 /\ data_commitments b1 = data_commitments b0) as (E1 & E2 & E3).
  { destruct (auth_chain_id cfg); [|by injection H1 as <-]. destruct (materialize_attachments b0) as [x|] eqn:E; [|done]. injection H1 as <-.
    apply attachments_only in E. injection E as _ E1 E2 E3. done. }
  split_and!; [f_equal; by apply root_of_body| |done|done]. rewrite E1. eexists. split_and!; done.
Qed.

(** C5: A node accepts its own work.  A template the node builds over a sound
    state, with any nonce whose digest has enough zero bits, passes every
    admission check of that node: its parents, count, times, coinbase, difficulty
    and body root are right by construction.  What the caller must see to is
    that the id is new, that the mempool offers spends within the size limits,
    no coinbase and nothing immature, and that the clock has not gone back behind the stored headers. *)
Theorem template_admissible (now ex : Z) (ch : Chain) (payout : Address) (transfers : list Transaction) (covenants : list TltCovenantTx)
    (das : list Da) (rest : Lanes) (b : Block) (nonce : Z) :
  inv ch -> template now ex ch payout transfers covenants das rest = Ok b ->
  1 <= max_block_parents (limits cfg) -> 1 <= max_block_transactions (limits cfg) ->
  0 <= now -> now + max_timestamp_ahead_ms (limits cfg) <= u64_max -> 0 < max_timestamp_ahead_ms (limits cfg) ->
  (forall h hd, load_header ch h = Some hd -> h_timestamp_ms hd < now + max_timestamp_ahead_ms (limits cfg)) ->
  (forall tx, tx ∈ transfers -> inputs tx <> []) ->
  parents (dag ch) !! block_id (header (mined b nonce)) = None ->
  Z.of_nat (length das) <= max_data_commitments (limits cfg) -> block_len (mined b nonce) <= max_block_bytes (limits cfg) ->
  (forall i tx, tx ∈ transactions b -> check_tx_size cfg i (Z.of_nat (length (inputs tx))) (Z.of_nat (length (outputs tx))) (tx_len tx) = Ok tt) ->
  (forall i tx, tx ∈ tlt_covenants b -> check_tx_size cfg i (Z.of_nat (length (ct_inputs tx))) (Z.of_nat (length (ct_outputs tx))) (covenant_len tx) = Ok tt) ->
  check_coinbase_maturity cfg preview_hash journal_created ch (mined b nonce) = Ok tt ->
  verify_pow cfg preview_hash randomx_zero_bits kheavy_zero_bits ch (mined b nonce) = Ok tt ->
  checks now ch (mined b nonce) = Ok tt.
Proof.
  intros Hi Ht Hmp Hmt Hn0 Hnu Hna Hrec Hin Hfresh Hdas Hlen Htx Hct Hmat Hpow.
  destruct (template_shape _ _ _ _ _ _ _ _ _ Ht) as (Hh & (cb & Htxs & Hcb & Hnonce) & Hcov & Hda).
  set (ps := select_template_parents cfg ch) in *. set (n := Z.to_nat (saturating_sub (max_block_transactions (limits cfg)) 1)) in *.
  assert (Hps : h_parents (header (mined b nonce)) = ps) by (cbn; by rewrite Hh).
  assert (Hts : h_timestamp_ms (header (mined b nonce)) = template_timestamp_ms now ch ps) by (cbn; by rewrite Hh).
  destruct (template_parents_ok ch Hi Hmp) as (Hne & Hnd & Hle & Hdag). fold ps in Hne, Hnd, Hle, Hdag.
  assert (Hfold : forall (A : Type) (f : nat * A -> result AdmitError unit) (l : list A), (forall i x, x ∈ l -> f (i, x) = Ok tt) -> rfold (fun _ e => f e) tt (imap pair l) = Ok tt).
  { intros A f l Hf. assert (forall e, e ∈ imap pair l -> f e = Ok tt) as Hall.
    { intros [i x] He. apply list_elem_of_lookup in He as [j Hj]. apply list_lookup_imap_Some in Hj as (y & Hy & [= <- <-]). apply Hf. by eapply list_elem_of_lookup_2. }
    induction (imap pair l) as [|e es IH]; [done|]. cbn. rewrite Hall by left. cbn. apply IH. intros e' He'. apply Hall. by right. }
  unfold admission_checks. destruct (contains_spec (dag ch) (block_id (header (mined b nonce)))) as [[? ?]|_]; [congruence|]. cbn [negb ensure rbind].
  assert (check_block_parents cfg ch (mined b nonce) = Ok tt) as ->.
  { unfold check_block_parents. rewrite Hps, bool_decide_eq_false_2 by done. rewrite (proj2 (Z.leb_le _ _) Hle). cbn [negb ensure rbind].
    apply check_parent_list_true; [done|]. intros p Hp. split; [apply not_elem_of_empty|by apply Hdag]. }
  cbn [rbind]. assert (check_size_limits cfg block_len tx_len covenant_len (mined b nonce) = Ok tt) as ->.
  { unfold check_size_limits. cbv zeta. cbn [transactions tlt_covenants data_commitments mined].
    rewrite (proj2 (Z.leb_le (Z.of_nat (length (transactions b)) + Z.of_nat (length (tlt_covenants b))) _)).
    2:{ rewrite Htxs, Hcov. cbn [length]. rewrite !length_take. unfold n, saturating_sub. lia. }
    cbn [ensure rbind]. rewrite Hda, (proj2 (Z.leb_le _ _) Hdas). cbn [ensure rbind]. rewrite (proj2 (Z.leb_le _ _) Hlen). cbn [ensure rbind].
    rewrite (Hfold _ (fun e => check_tx_size cfg e.1 (Z.of_nat (length (inputs e.2))) (Z.of_nat (length (outputs e.2))) (tx_len e.2))) by (intros i x; apply Htx). cbn [rbind].
    apply (Hfold _ (fun e => check_tx_size cfg e.1 (Z.of_nat (length (ct_inputs e.2))) (Z.of_nat (length (ct_outputs e.2))) (covenant_len e.2))). intros i x; apply Hct. }
  cbn [rbind]. rewrite (template_time_ok now ch ps Hn0 Hnu Hna Hrec (mined b nonce) Hps Hts). cbn [rbind].
  assert (check_coinbase_commitment parent_tag (mined b nonce) = Ok tt) as ->.
  { unfold check_coinbase_commitment. cbn [transactions mined]. rewrite Htxs, filter_cons_True by done.
    replace (filter (fun tx => inputs tx = []) (take n transfers)) with (@nil Transaction).
    2:{ destruct (filter _ _) as [|x l'] eqn:E; [done|]. exfalso. assert (x ∈ filter (fun tx => inputs tx = []) (take n transfers)) as Hx by (rewrite E; left).
        apply list_elem_of_filter in Hx as [Hx Hx']. apply (Hin x); [|done]. by apply (sublist_subseteq _ _ (sublist_take _ _)) in Hx'. }
    fold (mined b nonce). rewrite Hps, Hts, Hnonce, commitment_low_bits, Z.eqb_refl by done. done. }
  cbn [rbind]. rewrite Hmat. cbn [rbind]. rewrite Hps.
  assert (h_bits (header (mined b nonce)) = expected_bits_for_parents cfg ch ps) as -> by (cbn; by rewrite Hh).
  rewrite Z.eqb_refl. cbn [ensure rbind].
  assert (h_tx_root (header (mined b nonce)) = compute_body_root (mined b nonce)) as ->.
  { cbn [header mined h_tx_root]. rewrite Hh. cbn [h_tx_root]. by apply root_of_body. }
  rewrite Z.eqb_refl. cbn [ensure rbind]. exact Hpow.
Qed.
End template.

(** The demo node's first template: over genesis, mined with nonce 1. *)
Definition node_template : TltBlock :=
  match block_template_lanes node_config (fun _ _ => 1000) (fun _ => 0) (fun _ => 0) (fun _ _ => Ok 0) (fun _ _ _ _ _ => Ok 0) (fun b => Ok b)
    9000 0 node_start 9 [pay_2] [] [] tt with Ok b => b | Err _ => block_1 end.
Lemma template_admissible_witness :
  admission_checks node_config (fun _ _ => 1000) h_nonce (fun _ => 0) (fun _ => 0) (fun _ => 0) (fun _ => 0) (fun _ _ => 0) (fun _ => 0) (fun _ => 0)
    (fun j => created (cj_utxo j)) 9000 node_start (mined node_template 1) = Ok tt /\ length (transactions node_template) = 2%nat.
Proof.
  split; [|vm_compute; reflexivity].
  apply (template_admissible node_config (fun _ _ => 1000) h_nonce (fun _ => 0) (fun _ => 0) (fun _ => 0) (fun _ => 0) (fun _ _ => 0) (fun _ => 0) (fun _ => 0)
    (fun j => created (cj_utxo j)) (fun _ _ => Ok 0) (fun _ _ _ _ _ => Ok 0) (fun b => Ok b) default_config demo_genesis_ledger 150 1) with (ex := 0) (payout := 9) (transfers := [pay_2]) (covenants := []) (das := []) (rest := tt).
  - intros l. lia.
  - reflexivity.
  - intros b b' H. injection H as <-. reflexivity.
  - exact node_start_inv.
  - vm_compute. reflexivity.
  - cbn. lia.
  - cbn. lia.
  - lia.
  - unfold u64_max. cbn. lia.
  - cbn. lia.
  - intros h hd H. vm_compute in H.  destruct h; try discriminate H. injection H as <-. cbn. lia.
  - intros tx Htx. apply list_elem_of_singleton in Htx as ->. discriminate.
  - vm_compute. reflexivity.
  - cbn. lia.
  - cbn. lia.
  - intros i tx Htx. assert (tx = hd pay_2 (transactions node_template) \/ tx = pay_2) as [->| ->]; [|vm_compute; reflexivity|vm_compute; reflexivity].
    vm_compute (transactions node_template) in Htx |- *. rewrite !elem_of_cons in Htx. destruct Htx as [->|[->|Htx]]; [left; reflexivity|right; reflexivity|by apply elem_of_nil in Htx].
  - intros i tx Htx. vm_compute in Htx. by apply elem_of_nil in Htx.
  - vm_compute. reflexivity.
  - vm_compute. reflexivity.
Defined.
